(* ===== verification/_CoqProject ===== *)
-Q . S2P
Prelude.v
GoStrings.v
Version.v
GoNet.v
GoTime.v
ClusterTypes.v
GoRFC3339.v
Conditions.v
UpgradeRules.v
UpgradeRecord.v
World.v
ServerIdentity.v
Availability.v
SplitBrain.v
Partition.v
Formation.v
UpgradeRepair.v
ScaleDown.v
DrainSafety.v
DrainHold.v
UpgradeWrites.v
UpgradeMachine.v
Recreate.v
UpgradeSafety.v
UpgradeProgress.v
Privileges.v
PrivilegeScope.v
TargetWait.v
OwnedKeys.v
JsonList.v
PodTemplate.v
PluginSettings.v
PluginWrites.v
TemplateApply.v
TemplateWf.v
TemplateSafety.v
PluginChoice.v
Storage.v
ObjectPatch.v
DeletionWait.v
Roles.v
RoleLearn.v
RoleSafety.v
RolePass.v
RolePromise.v
RoleProbe.v
ProbeSafety.v
RoleReconcile.v
ReconcileSafety.v
GoRegexp.v
BackupTypes.v
RestoreTypes.v
RestoreRuns.v
RestoreCommand.v
RestoreWorld.v
RestoreSeed.v
RestoreAll.v
RestorePass.v
RestoreSafety.v
RestoreSize.v
RestoreResume.v
BackupLog.v
BackupArtifact.v
BackupCommand.v
BackupHistory.v
BackupRules.v
BackupWorld.v
BackupPass.v
BackupSafety.v
BackupEnd.v
DatabaseNames.v
DatabaseStatement.v
DatabaseRules.v
DatabaseWorld.v
DatabasePass.v
DatabaseSafety.v
DatabaseServed.v
UserAccount.v
UserPass.v
UserSafety.v
