(* ===== verification/Prelude.v ===== *)
(** * A verification of the Neo4j Kubernetes operator

    The operator (Go, under src/) reconciles the resources of Neo4j on Kubernetes: a
    cluster is a StatefulSet of Neo4j servers, and every pass of a controller reads
    its resource, the objects it owns, the pods and Neo4j's own view of itself
    (SHOW SERVERS, SHOW DATABASES, SHOW PRIVILEGES), and moves them one step towards
    the spec. Modelled here, with all that they call, are the operations in which a
    wrong step loses data, access or availability: the rolling upgrade, the drain of
    a scale-down, the repair of a split brain, the expansion of storage with the
    re-creation of the StatefulSet, the writes that the cluster and its plugins make
    on one pod template, the privileges of a role, the users with their roles, the
    databases with their names, and backups and restores.

    ** How the parts interact

    A pass works on its own copy of its resource, read from an informer cache that
    can be behind; it writes status and annotations by read-modify-write with retries
    on conflict, creates and updates other objects, and sends statements to Neo4j.
    Status, annotations and conditions are its memory between passes, apart from an
    address book, some caches and some timers in the reconcilers. The version rule,
    which admission and the controller share, decides which tag an upgrade may go to.
    A drain excludes the start of an upgrade; a held or running upgrade keeps the
    partition in every write of the StatefulSet's template; the expansion of storage
    deletes the StatefulSet and the cluster controller creates it again, by way of
    what it remembers of it; the plugins edit the template the cluster controller
    writes, and each records what is its own; a backup records where each of its
    runs wrote and which artifacts its log names, and a restore or a seed reads the
    history; a database made from a seed needs its credentials on the host, which its
    controller may add there; a database that is dropped takes the privileges on it
    along, of which the roles are told; a restore marks the standalone it has stopped, so that the standalone's
    controller does not start it.

    ** The worlds of the passes

    World.v models the cluster controller: [World S] has the pass's copy
    ([w_cluster]), the stored resource ([w_stored]), the StatefulSet as cached and as
    stored, the pods, the events, metrics and statements sent, and a list of outcomes,
    one for each write to come (it succeeds, the read fails, the write fails, the copy
    was stale). A handler is a function on it ([W S A], a state monad), and errors are
    values of [result] or [option]. Roles.v ([RW]), DatabaseWorld.v ([DW]),
    UserPass.v ([UW]), RestoreWorld.v ([XW]) and BackupWorld.v ([BW]) do the same for the
    role, the database, the user, the restore and the backup controller. Neo4j is a parameter: its state is
    [S], and what the source asks of it is a type class: [ScaleDownClient],
    [UpgradeClient], [RoleAdmin], [BoltSession], [UserClient] and [RestoreEnv] (which also holds the pods, the
    hooks and the seed proxy); what a backup's pass reads of pods, logs and databases
    is the record [BackupEnv] of its world. Safety is proved against the classes and against every
    list of outcomes, that is whatever Neo4j answers and whichever read or write
    fails; the witnesses instantiate the classes with concrete clusters. Where a
    property needs Neo4j to behave (a granted privilege shows up, a revoked one is
    gone), the laws are named hypotheses ([RoleServer], [ProbeServer]) and a concrete
    server satisfies them.

    ** Files

    - Prelude.v: tactics, the rewrite base [go], the [result] type.
    - GoStrings.v, GoNet.v, GoTime.v, GoRFC3339.v, GoRegexp.v: what the source uses
      of Go's packages fmt, strings, strconv, sort, net, time and regexp.
    - Version.v: src/internal/neo4j/version.go, the versions, their order, the
      feature gates and the neo4j-admin command lines.
    - ClusterTypes.v: the resource (src/api/v1beta1), the rows of SHOW SERVERS, and
      the StatefulSet and pod fields the code reads or writes.
    - Conditions.v: conditions.go and upgrade_stalled.go.

    Clusters, upgrades and scale-downs
    - UpgradeRules.v: src/internal/validation/upgrade_validator.go,
      reported_version.go and the verification of rolling_upgrade.go.
    - UpgradeRecord.v: the decisions on the upgrade record, pure: upgrade_hold.go,
      upgrade_retarget.go, upgrade_started_target.go, upgrade_uncached.go,
      upgrade_database_gate.go, running_version.go,
      rolling_upgrade_phase_metrics.go and the pure parts of
      rolling_upgrade_statemachine.go.
    - World.v: the world, its monad, retry on conflict, and [keeps], the relation
      "this handler leaves that part alone" with the tactic that proves it.
    - ServerIdentity.v: which pod a server is, and the address book (scale_down.go,
      cluster_availability.go).
    - Availability.v: a cluster short of servers, its grace clock and the status
      write (cluster_availability.go, reconcileServerShortfall and
      writeClusterStatus of neo4jenterprisecluster_controller.go).
    - SplitBrain.v, Partition.v, Formation.v: splitbrain_detector.go, its reference
      definition, and verifyNeo4jClusterFormation with reconcile_cadence.go.
    - UpgradeRepair.v: servers that cannot start (plugin_target_gate.go,
      upgrade_repair.go, stuck_server_pods.go).
    - ScaleDown.v: the drain (scale_down.go), with its theorems in DrainSafety.v
      and DrainHold.v.
    - UpgradeWrites.v: the writes of the upgrade record, with their theorems.
    - UpgradeMachine.v: the state machine (rolling_upgrade_statemachine.go,
      handleRollingUpgrade), with its theorems in UpgradeSafety.v and
      UpgradeProgress.v.
    - Recreate.v, Storage.v: statefulset_recreate.go, storage_expansion.go,
      storage_class_change.go and user_quantity.go.

    The shared pod template
    - OwnedKeys.v: owned_keys.go, metadata that several writers share.
    - JsonList.v: the JSON list in NEO4J_PLUGINS (encoding/json on strings).
    - PodTemplate.v, TemplateApply.v: the template, what the cluster records as its
      own, and its write (createOrUpdateResourceInternal, cluster_env_lists.go,
      plugin_entries_handover.go, fleet_*.go); TemplateWf.v and TemplateSafety.v have
      the theorems.
    - PluginSettings.v, PluginWrites.v, PluginChoice.v: what a plugin asks for, its
      writes and removals, and which of several resources installs it
      (plugin_controller.go, plugin_env_ownership.go, plugin_conf_settings.go,
      plugin_install_refusal.go).

    Roles
    - Privileges.v, PrivilegeScope.v: src/internal/neo4j/privileges.go and
      privilege_rules.go, and what a rendered rule's scope reads back as.
    - TargetWait.v: target_wait.go, transient_retry.go, advisory_warnings.go and
      target_gone.go.
    - ObjectPatch.v: finalizers as JSON patches (object_patch.go).
    - DeletionWait.v: the target and what becomes of a deletion with it
      (cluster_resolver.go, target_gone.go, deletion_wait.go,
      finalizer_deletion.go), against the interface [CleanupPass] that the passes of
      roles, databases and users implement.
    - Roles.v, RoleLearn.v, RolePass.v, RoleProbe.v, RoleReconcile.v:
      neo4jrole_controller.go, neo4jrole_learn.go, neo4jrole_normalise.go and
      neo4jrole_rules.go; theorems in RoleSafety.v, RolePromise.v, ProbeSafety.v and ReconcileSafety.v.

    Databases
    - DatabaseNames.v: which of several resources owns a name (duplicate_names.go).
    - DatabaseStatement.v: the CREATE DATABASE statement (create_database.go and the
      clauses of client.go), the credentials of a seed, and a reader of the statement.
    - DatabaseRules.v: the refusals of src/internal/validation/database_validator.go.
    - DatabaseWorld.v, DatabasePass.v: the world, the client's methods, and the whole
      pass with the deletion (neo4jdatabase_controller.go, cluster_seed_creds.go).
    - DatabaseSafety.v, DatabaseServed.v: their theorems.

    Users
    - UserAccount.v: a user and what its resource asks for, the statements of
      src/internal/neo4j/users.go, computeAlter and diffRoles of
      neo4juser_controller.go, and the names of roles (role_resolution.go).
    - UserPass.v: the whole pass with its status writes and the deletion
      (neo4juser_controller.go).
    - UserSafety.v: its theorems.

    Restores
    - RestoreTypes.v, RestoreRuns.v: the resource (neo4jrestore_types.go) and the pure
      decisions of neo4jrestore_controller.go, restore_target.go,
      restore_point_in_time.go, restore_outcome.go and backup_resolver.go.
    - RestoreCommand.v: the shell command of the Job, and a lexer of the shell's
      quoting to read it back.
    - RestoreWorld.v, RestoreSeed.v, RestoreAll.v, RestorePass.v: the steps, the waits
      for the seed, the all-databases loop (neo4jrestore_alldatabases.go), and
      Reconcile with the deletion.
    - RestoreSafety.v, RestoreSize.v, RestoreResume.v: their theorems.

    Backups
    - BackupTypes.v: the resource (neo4jbackup_types.go), its storage and its Jobs.
    - BackupLog.v, BackupArtifact.v: what the log of a backup's pod says
      (neo4jbackup_log_parser.go and the names of shards in neo4jbackup_sharded.go),
      and that a run's own artifact is the one read from it.
    - BackupCommand.v: the command of the Job, the directory it writes to, the
      script that prunes it, and the volumes (buildBackupCommand, buildToPath,
      buildRetentionScript, buildVolumes of neo4jbackup_controller.go,
      ReplicationPullURI), read back with the shell's lexer of RestoreCommand.v.
    - BackupHistory.v: the runs recorded (jobToBackupRun, recordOneShotBackupRun,
      reconcileScheduledHistory).
    - BackupRules.v: backup_validator.go, backup_replication_source.go,
      backup_sharded_ref.go, sharding.go and the rule for a chain's parent.
    - BackupWorld.v, BackupPass.v: the world and the whole pass, from Reconcile
      down: target, sharded preflight, claims, Job, CronJob, history, deletion.
    - BackupSafety.v, BackupEnd.v: their theorems.

    ** What the theorems show

    Scale-down (DrainSafety.v, DrainHold.v): [drain_statements] says which
    statements one pass sends to Neo4j, for which servers and behind which dry
    run; [hold_until_drained] that the replicas are held until no removed pod runs
    a server; [settle_respected], [cordon_recorded], [set_back_gives_back] and
    [minimum_respected] treat the settle time, the record of a cordon, a
    scale-down set back and the minimum of system primaries.

    Upgrade (UpgradeSafety.v, UpgradeWrites.v, UpgradeProgress.v):
    [partition_moves] is the contract of the machine towards the StatefulSet:
    what a pass may do to it and what it has checked before it does.
    [new_target_not_below], [completes_verified] and [drain_excludes_start] say
    what a new target is held to, when the record is completed, and that a drain
    keeps an upgrade from starting; [failUpgrade_stops] and [phase_observed_once]
    are about its writes. [upgrade_completes] is the liveness: in an environment
    that cooperates (no write fails, the StatefulSet controller rolls out what is
    released, Neo4j answers every check) a walk from partition [k] is Completed
    after [k + 3] passes.

    Rules and records: [ValidateTagAgainstRunning_no_rollback] and
    [resumed_upgrade_keeps_floor] (no way back below a version a server started
    on), [isDowngrade_Compare] (the validator's order is that of version.go),
    [retargetPartition_safe] and [serverNotReadyBelow_sound] (no moved or down
    server is left below the partition by mistake), [evaluateDatabaseGate_iff],
    [serversDownIn_sound], [stuckServerPods_spec], and the identification lemmas
    on names, ordinals, images and addresses. Availability: [grace_clock] and
    [assess_verdict]. Conditions: [SetNamedCondition_spec],
    [syncStalled_iff_stopped]. Versions: round trips of the parser, and
    [GetBackupCommand_words], that the shell splits a backup command into the
    words intended whatever the arguments contain.

    Split brain: [partition_exact] equates the detector with its reference
    definition; [repair_spares_majority] bounds what a repair deletes;
    [formed_checked] says when a cluster reported as formed was checked.
    Storage: [expansion_safe] (what is deleted, and after which patches) and
    [recreate_keeps_revisions] (the StatefulSet created again rolls no server).

    Template: [no_tug_of_war] is the promise of the shared template: no writer's
    pass undoes another's; [template_write_exact] says what the cluster's write
    leaves, [template_names_distinct] that names stay distinct, [metadata_shared]
    the same of annotations and labels, [one_installer] that one resource installs
    a plugin, [plugin_list_exact] what happens to the list.

    Roles: [learn_mode_in_sync] and [match_is_exact] say what a role that reports
    its privileges in sync has, [probe_exact] the same of probe mode;
    [learnState_roundtrip], [renderingCache_bounded]; [RenderPrivilegeRule_scope]
    (the escaping of names); [finalizer_writes_exact], [deletion_release_justified],
    [deletion_ends] and [statements_guarded] for Reconcile and the deletion.

    Databases: [database_pass_sends] lists everything a pass may send to Neo4j or do
    to the host, in order, with the reason of each; [database_served] is the other
    half, that a pass on a host that answers does all of it and reports the database
    Ready; [database_release_justified] says when a deletion lets go;
    [create_statement_reads_back] that the statement of a valid spec is read as what
    the spec says, whatever its values contain; [one_owner_per_name] that of several
    resources with one name exactly one acts on it.

    Users: [user_pass_sends] fixes everything a pass sends, statement by statement,
    by the answers it gets; [user_ready_synced] says what was seen of a user that
    becomes Ready; [alter_exact] what the ALTER USER asks for, clause by clause.

    Restores: [restore_actions_justified] is what a pass may do to the data it finds;
    [restores_keep_the_size] that no sequence of passes loses the size of an
    instance; [ended_job_frees_the_standalone] that the end of a Job starts the
    standalone again and releases it; [restore_command_words] that the shell reads
    the Job's command as intended (what it makes of the result of the lookup of the
    newest file is not modelled); [restore_run_exact] which run of a backup is
    restored.

    Backups: [backup_actions_justified] gives the reason of every action of a pass on
    Jobs, the CronJob and claims; [ended_backup_stays], [completed_has_run] and
    [deletion_releases_last] say how a backup ends; [history_newest_ten] which runs
    the history keeps, [artifact_recorded] that the artifact of a run is the one its
    log names; [backup_command_words] that the shell reads the Job's command as
    intended; [backup_read_where_written] that a restore reads the directory the
    backup wrote; [retention_age_applied] and [valid_backup_safe] what validation
    guarantees.

    ** Bounds, fuel and abstractions

    - int32 and int64 values are [Z]: the source only compares, increments and
      subtracts replica counts, ordinals and generations far below their bounds;
      where a bound is checked (strconv.Atoi and ParseInt, time.ParseDuration) or a
      sum can wrap (the servers of a database's topology) it is written out. Times are nanoseconds in [Z] at full precision (metav1.Time as
      stored has seconds), and time.Now() is one value per pass. The factor 0.8 of
      the split-brain detector is compared in integers.
    - Retries on conflict take the number of steps of the client-go backoffs
      (5 and 4). The scan of requiredTopologyRefusal, durationParts and ipv6Groups
      take the length of the text, or the number of groups, as fuel: each step
      consumes a character or a group ([durationParts_fuel] shows more fuel
      changes nothing); the elements of a JSON list take the length of the text.
      The waits of a restore take their ticks: 29 or 30 for the stop, 19 or 20 for
      the start ([xw_lastTick]: whether the tick that falls on the timeout is
      taken), 20 polls for a Job to go.
    - Case folding and trimming are those of ASCII, and %q quotes without
      escapes: the names and states the code treats so are ASCII. Where Go's order
      of a map's keys could matter, the order is a parameter.
    - In the upgrade machine the builder's output has the fields the machine reads
      (name, replicas, containers' images, update strategy); the merge of the rest
      of the template is in TemplateApply.v, and the creation of a StatefulSet that
      does not exist in Recreate.v.
    - Parameters, arbitrary in every theorem: [topologyError] (the topology
      scheduler's answer), [reconcileConfigMap] (whether the ConfigMap write changed
      or failed), [remembered] and [readRevisionTemplate] (the deleted StatefulSet
      the operator remembers and its ControllerRevisions), resource.ParseQuantity,
      the hash of a template and of a name, the rendered init container and volumes
      of a plugin, what a server answers a split-brain probe, the digest of a role's
      scope, the validator's result of a role's and a user's pass, SHA-256, the warnings of a database's,
      cron.ParseStandard, url.Parse, NameIsDNSSubdomain, and the members of [RestoreEnv] and [BackupEnv].
    - The matcher of GoRegexp.v takes the rest of the match as a continuation and
      needs no fuel.

    ** What modelling showed

    The manifest lists what the code does against its comments or purpose; the
    theorems that prove such points are in the files of their components
    ([first_claim_decides], [foreign_row_lost], [interrupted_relearn_lost],
    [enforcement_toggle_lost], [pinned_tag_floats],
    [SupportsSourceDatabaseFilter_not_monotone],
    [all_databases_job_ignores_point_in_time], [pinned_source_wins],
    [ended_results_end_the_attempt], [server_suffix_wins], [year_suffix_misread],
    [pull_uri_without_default_path], [retention_age_overflows],
    [dropped_run_reported], [chain_across_claims], [chain_of_two],
    [completed_without_run], [refused_edit_reopens], [lagging_cache_fails_running],
    [outage_ends_backup], [topology_overflow_passes], [import_repeats],
    [refused_database_drops], [refused_alter_ready], [password_change_asked_again]).

    ** Not modelled

    The main pass of the cluster controller around these handlers (services,
    certificates, the order of its calls), the holds on image drift and on raised
    replica counts, the standalone controller, the topology scheduler, the passes of
    the plugin and fleet controllers around their writes, the binding and
    auth-rule controllers, sharded and composite databases and replicas, the Aura
    kinds, the validators of the specs beyond the upgrade rules, backups and
    databases, the rendering of pods and Jobs
    (environment, security context, resources), the warnings of a backup that do not
    refuse it, the Bolt client and the seed proxy (I/O), the resource builders beyond
    the fields above, metrics and start-up. *)

From Stdlib Require Export Ascii.
From stdpp Require Export prelude strings list gmap sorting pretty.
From Stdlib Require Export ZArith Lia.

(** ** Notation and automation shared by every component *)

(** What the boolean tests of the code simplify to. *)
Create HintDb go discriminated.
#[export] Hint Rewrite String.eqb_refl Z.eqb_refl andb_true_r andb_false_r orb_true_r orb_false_r : go.

(** Case analysis on every [if] and [match] of the goal, resolved as far as
    possible by the hypotheses. *)
Ltac split_ifs :=
  repeat match goal with
  | |- context [if ?b then _ else _] =>
      let E := fresh "E" in destruct b eqn:E; simpl in *; try done
  end.

(** Case analysis on the scrutinee of a [match] or [if], in goal or
    hypothesis. *)
Ltac case_goal :=
  match goal with
  | |- context [match ?x with _ => _ end] =>
      let E := fresh "E" in destruct x eqn:E
  end.
Ltac case_hyp H :=
  match type of H with
  | context [match ?x with _ => _ end] =>
      let E := fresh "E" in destruct x eqn:E
  end.

(** Turn the boolean tests of the code into the propositions they decide. *)
Ltac breflect :=
  repeat match goal with
  | H : (_ && _)%bool = true |- _ => apply andb_true_iff in H; destruct H
  | H : (_ || _)%bool = false |- _ => apply orb_false_iff in H; destruct H
  | H : negb _ = true |- _ => apply negb_true_iff in H
  | H : negb _ = false |- _ => apply negb_false_iff in H
  | H : String.eqb _ _ = true |- _ => apply String.eqb_eq in H
  | H : String.eqb _ _ = false |- _ => apply String.eqb_neq in H
  | H : Z.eqb _ _ = true |- _ => apply Z.eqb_eq in H
  | H : Z.eqb _ _ = false |- _ => apply Z.eqb_neq in H
  | H : Z.ltb _ _ = true |- _ => apply Z.ltb_lt in H
  | H : Z.ltb _ _ = false |- _ => apply Z.ltb_ge in H
  | H : Z.leb _ _ = true |- _ => apply Z.leb_le in H
  | H : Z.leb _ _ = false |- _ => apply Z.leb_gt in H
  | H : N.leb _ _ = true |- _ => apply N.leb_le in H
  | H : N.leb _ _ = false |- _ => apply N.leb_gt in H
  | H : Nat.leb _ _ = true |- _ => apply Nat.leb_le in H
  | H : Nat.leb _ _ = false |- _ => apply Nat.leb_gt in H
  | H : Nat.ltb _ _ = true |- _ => apply Nat.ltb_lt in H
  | H : Nat.ltb _ _ = false |- _ => apply Nat.ltb_ge in H
  | H : bool_decide _ = true |- _ => apply bool_decide_eq_true in H
  | H : bool_decide _ = false |- _ => apply bool_decide_eq_false in H
  end.

(** Appending to a literal string computes. *)
#[global] Arguments String.append !_ _ / : simpl nomatch.

(** A fallible Go function returns a value or an error; the error is its
    message. *)
Inductive result (A : Type) :=
| Ok (a : A)
| Err (msg : string).
Arguments Ok {A} _.
Arguments Err {A} _.
#[global] Arguments Ascii.eqb : simpl never.

(** Case analysis on every integer comparison of the goal and the
    hypotheses. *)
Ltac zcases :=
  repeat match goal with
  | |- context [Z.ltb ?a ?b] => destruct (Z.ltb_spec a b)
  | |- context [Z.leb ?a ?b] => destruct (Z.leb_spec a b)
  | |- context [Z.eqb ?a ?b] => destruct (Z.eqb_spec a b)
  | H : context [Z.ltb ?a ?b] |- _ => destruct (Z.ltb_spec a b)
  | H : context [Z.leb ?a ?b] |- _ => destruct (Z.leb_spec a b)
  | H : context [Z.eqb ?a ?b] |- _ => destruct (Z.eqb_spec a b)
  end; simpl in *.

(** [lia] with division and remainder by constants. *)
Ltac dlia := Z.to_euclidean_division_equations; lia.

(** Filters that keep all or nothing. *)
Lemma filter_all {A} (f : A -> bool) l : Forall (fun x => f x = true) l -> List.filter f l = l.
Proof. induction 1 as [|x l Hx _ IH]; simpl; [done|]. by rewrite Hx, IH. Qed.

Lemma filter_none {A} (f : A -> bool) l : Forall (fun x => f x = false) l -> List.filter f l = [].
Proof. induction 1 as [|x l Hx _ IH]; simpl; [done|]. by rewrite Hx, IH. Qed.

(** ** The first of several by a strict order *)

Section Best.
Context {A : Type} (wins : A -> A -> bool).
Context (wins_irrefl : forall a, wins a a = false) (wins_trans : forall a b c, wins a b = true -> wins b c = true -> wins a c = true).

Definition best (start : A) (candidates : list A) : A :=
  fold_left (fun found c => if wins c found then c else found) candidates start.

(** It is one of them, it comes before the start unless it is the start, and none
    comes before it. *)
Lemma best_spec candidates : forall start, let f := best start candidates in
  f ∈ start :: candidates /\ (f = start \/ wins f start = true) /\ forall c, c ∈ start :: candidates -> wins c f = false.
Proof.
  unfold best. induction candidates as [|c cs IH]; intros start; cbn [fold_left].
  { split_and!; [apply list_elem_of_here|by left|]. intros c ->%list_elem_of_singleton. apply wins_irrefl. }
  destruct (wins c start) eqn:E.
  - destruct (IH c) as (I1 & I2 & I3). set (f := fold_left _ cs c) in *. split_and!.
    + by right.
    + right. destruct I2 as [I2|I2]; [by rewrite I2|by apply (wins_trans _ c)].
    + intros x [->|Hx]%elem_of_cons; [|by apply I3]. destruct (wins start f) eqn:Es; [|done].
      assert (wins c f = true) as Hc by (by apply (wins_trans _ start)). rewrite (I3 c) in Hc by apply list_elem_of_here. done.
  - destruct (IH start) as (I1 & I2 & I3). set (f := fold_left _ cs start) in *. split_and!.
    + rewrite !elem_of_cons in *. tauto.
    + done.
    + intros x [->|[->|Hx]%elem_of_cons]%elem_of_cons; [apply I3, list_elem_of_here| |by apply I3; right].
      destruct (wins c f) eqn:Ec; [|done]. destruct I2 as [I2|I2]; [congruence|].
      by rewrite (wins_trans c f start) in E.
Qed.
End Best.

(** Entries of a list without duplicates under [f] are determined by [f]. *)
Lemma NoDup_fmap_inj {A B} (f : A -> B) l p q : NoDup (f <$> l) -> p ∈ l -> q ∈ l -> f p = f q -> p = q.
Proof.
  intros Hnd Hp Hq E. apply list_elem_of_lookup in Hp as [i Hi], Hq as [j Hj].
  assert (i = j) as -> by (eapply (NoDup_lookup _ i j (f p) Hnd); rewrite list_lookup_fmap; [by rewrite Hi|by rewrite Hj, E]). congruence.
Qed.
