(* ===== verification/GoStrings.v ===== *)
(** The part of Go's standard library the operator's code is written with:
    byte strings (package strings), decimal numbers (package strconv), sorted
    string slices (package sort) and quoted strings (package fmt).

    A Go string is a sequence of bytes, which is what Stdlib's [string] (a list
    of 8-bit [ascii]) is. Go's [int] is 64 bits wide on the platforms the
    operator runs on, so [Atoi] reports a range error outside
    [-2^63, 2^63 - 1]; integers are kept as [Z]. Case folding is written out
    for the ASCII letters, which is what the code compares (server states and
    database names Neo4j reports, all ASCII). *)
From S2P Require Import Prelude.

Open Scope Z_scope.

(** * Package strings *)
Module strings.

(** [s[n:]] and [s[:n]] for an offset within [s]. *)
Fixpoint from (n : nat) (s : string) : string :=
  match n, s with
  | O, _ => s
  | S _, EmptyString => EmptyString
  | S n', String _ s' => from n' s'
  end.

Fixpoint upto (n : nat) (s : string) : string :=
  match n, s with
  | O, _ => EmptyString
  | S _, EmptyString => EmptyString
  | S n', String c s' => String c (upto n' s')
  end.

Fixpoint HasPrefix (s p : string) : bool :=
  match p, s with
  | EmptyString, _ => true
  | String _ _, EmptyString => false
  | String c p', String d s' => Ascii.eqb c d && HasPrefix s' p'
  end.

Definition CutPrefix (s p : string) : option string :=
  if HasPrefix s p then Some (from (String.length p) s) else None.

Definition TrimPrefix (s p : string) : string :=
  match CutPrefix s p with Some r => r | None => s end.

Definition HasSuffix (s p : string) : bool :=
  (String.length p <=? String.length s)%nat && String.eqb (from (String.length s - String.length p) s) p.

Definition TrimSuffix (s p : string) : string :=
  if HasSuffix s p then upto (String.length s - String.length p) s else s.

(** The offset of the first occurrence of [sub], [None] for Go's [-1]. *)
Fixpoint Index (s sub : string) : option nat :=
  if HasPrefix s sub then Some O
  else match s with
       | EmptyString => None
       | String _ s' => option_map S (Index s' sub)
       end.

Definition Contains (s sub : string) : bool :=
  match Index s sub with Some _ => true | None => false end.

(** The offset of the last occurrence of the byte [c]. *)
Fixpoint LastIndexByte (s : string) (c : ascii) : option nat :=
  match s with
  | EmptyString => None
  | String a s' =>
      match LastIndexByte s' c with
      | Some i => Some (S i)
      | None => if Ascii.eqb a c then Some O else None
      end
  end.

(** [if i := strings.Index(s, sub); i != -1 { s = s[:i] }]. *)
Definition cutBefore (s sub : string) : string :=
  match Index s sub with Some i => upto i s | None => s end.

(** [strings.Split] on a one-byte separator: never the empty list. *)
Fixpoint Split (s : string) (sep : ascii) : list string :=
  match s with
  | EmptyString => [EmptyString]
  | String a s' =>
      if Ascii.eqb a sep then EmptyString :: Split s' sep
      else match Split s' sep with
           | [] => [String a EmptyString]
           | w :: ws => String a w :: ws
           end
  end.

Fixpoint Join (elems : list string) (sep : string) : string :=
  match elems with
  | [] => EmptyString
  | [e] => e
  | e :: es => e +:+ sep +:+ Join es sep
  end.

(** The ASCII white space [strings.TrimSpace] removes. *)
Definition isSpace (c : ascii) : bool :=
  match Ascii.nat_of_ascii c with
  | 9%nat | 10%nat | 11%nat | 12%nat | 13%nat | 32%nat => true
  | _ => false
  end.

Fixpoint trimLeftFunc (f : ascii -> bool) (s : string) : string :=
  match s with
  | String c s' => if f c then trimLeftFunc f s' else s
  | EmptyString => EmptyString
  end.

Fixpoint trimRightFunc (f : ascii -> bool) (s : string) : string :=
  match s with
  | EmptyString => EmptyString
  | String c s' =>
      match trimRightFunc f s' with
      | EmptyString => if f c then EmptyString else String c EmptyString
      | r => String c r
      end
  end.

Definition trimFunc (f : ascii -> bool) (s : string) : string :=
  trimRightFunc f (trimLeftFunc f s).

Definition TrimSpace : string -> string := trimFunc isSpace.

Fixpoint byteIn (c : ascii) (cutset : string) : bool :=
  match cutset with
  | EmptyString => false
  | String d r => Ascii.eqb c d || byteIn c r
  end.

(** [strings.Trim(s, cutset)] for an ASCII cutset. *)
Definition Trim (s cutset : string) : string :=
  trimFunc (fun c => byteIn c cutset) s.

Definition TrimRight (s cutset : string) : string :=
  trimRightFunc (fun c => byteIn c cutset) s.

Definition lowerByte (c : ascii) : ascii :=
  let n := Ascii.nat_of_ascii c in
  if (Nat.leb 65 n && Nat.leb n 90)%bool then Ascii.ascii_of_nat (n + 32) else c.

Fixpoint ToLower (s : string) : string :=
  match s with
  | EmptyString => EmptyString
  | String c s' => String (lowerByte c) (ToLower s')
  end.

Definition upperByte (c : ascii) : ascii :=
  let n := nat_of_ascii c in
  if (Nat.leb 97 n && Nat.leb n 122)%bool then ascii_of_nat (n - 32) else c.

Fixpoint ToUpper (s : string) : string :=
  match s with
  | EmptyString => EmptyString
  | String c s' => String (upperByte c) (ToUpper s')
  end.

Definition EqualFold (s t : string) : bool := String.eqb (ToLower s) (ToLower t).

(** [strings.ReplaceAll(s, c, new)] for a one-byte old string. *)
Fixpoint ReplaceAllByte (s : string) (c : ascii) (new : string) : string :=
  match s with
  | EmptyString => EmptyString
  | String a s' =>
      if Ascii.eqb a c then new +:+ ReplaceAllByte s' c new
      else String a (ReplaceAllByte s' c new)
  end.

End strings.

(** * Package strconv *)
Module strconv.

Definition maxInt64 : Z := 9223372036854775807.
Definition minInt64 : Z := -9223372036854775808.

Definition digit (c : ascii) : option Z :=
  let n := Ascii.N_of_ascii c in
  if ((48 <=? n)%N && (n <=? 57)%N)%bool then Some (Z.of_N n - 48) else None.

(** The decimal value of a run of digits after [acc]; [None] at any other
    byte. *)
Fixpoint digits (acc : Z) (s : string) : option Z :=
  match s with
  | EmptyString => Some acc
  | String c s' =>
      match digit c with
      | Some d => digits (acc * 10 + d) s'
      | None => None
      end
  end.

Inductive numError := ErrSyntax | ErrRange.

(** [strconv.ParseInt(s, 10, bits)]: the value Go returns beside its error. A
    range error comes with the bound that was passed. *)
Definition ParseInt (s : string) (lo hi : Z) : Z * option numError :=
  let '(neg, body) :=
    match s with
    | String c s' =>
        if Ascii.eqb c "+"%char then (false, s')
        else if Ascii.eqb c "-"%char then (true, s') else (false, s)
    | EmptyString => (false, s)
    end in
  match body with
  | EmptyString => (0, Some ErrSyntax)
  | _ =>
      match digits 0 body with
      | None => (0, Some ErrSyntax)
      | Some u =>
          let v := if (neg : bool) then - u else u in
          if hi <? v then (hi, Some ErrRange)
          else if v <? lo then (lo, Some ErrRange)
          else (v, None)
      end
  end.

(** [strconv.Atoi] with its value, and with the value only when it succeeds. *)
Definition AtoiValue (s : string) : Z * option numError := ParseInt s minInt64 maxInt64.

Definition Atoi (s : string) : option Z :=
  match AtoiValue s with (v, None) => Some v | _ => None end.

(** [strconv.Itoa], and what [fmt] prints for [%d]. *)
Definition Itoa (n : Z) : string := pretty n.

End strconv.

(** * Package sort *)
Module sort.

(** Go orders strings by their bytes. *)
Fixpoint leb (s t : string) : bool :=
  match s, t with
  | EmptyString, _ => true
  | String _ _, EmptyString => false
  | String a s', String b t' =>
      if (Ascii.N_of_ascii a <? Ascii.N_of_ascii b)%N then true
      else if (Ascii.N_of_ascii b <? Ascii.N_of_ascii a)%N then false
      else leb s' t'
  end.

Definition le (s t : string) : Prop := leb s t = true.

#[global] Instance le_dec : RelDecision le.
Proof. intros s t. unfold le. apply _. Defined.

Definition Strings (l : list string) : list string := merge_sort le l.

End sort.

(** * Package fmt *)
Module fmt.

(** [%q] of a string without characters to escape. *)
Definition q (s : string) : string := String "034" (s +:+ String "034" EmptyString).
End fmt.

(** Every byte of [s] satisfies [f]. *)
Fixpoint allBytes (f : ascii -> bool) (s : string) : bool :=
  match s with
  | EmptyString => true
  | String c s' => f c && allBytes f s'
  end.

Definition isDigit (c : ascii) : bool :=
  match strconv.digit c with Some _ => true | None => false end.

(** * Lemmas *)

Lemma ToLower_idem s : strings.ToLower (strings.ToLower s) = strings.ToLower s.
Proof.
  induction s as [|c s IH]; [done|]. cbn [strings.ToLower]. rewrite IH. f_equal. destruct c as [[] [] [] [] [] [] [] []]; done.
Qed.

Lemma allBytes_app f s t : allBytes f (s +:+ t) = allBytes f s && allBytes f t.
Proof. induction s as [|c s IH]; [done|]. simpl. by rewrite IH, andb_assoc. Qed.

Lemma allBytes_impl f g s :
  (forall c, f c = true -> g c = true) -> allBytes f s = true -> allBytes g s = true.
Proof.
  intros Hfg. induction s as [|c s IH]; [done|]. simpl. intros [Hc Hs]%andb_true_iff.
  by rewrite (Hfg _ Hc), IH.
Qed.

Lemma string_app_nil_r (s : string) : s +:+ EmptyString = s.
Proof. induction s as [|c s IH]; [done|]. simpl. by rewrite IH. Qed.

Lemma string_app_assoc (s t u : string) : (s +:+ t) +:+ u = s +:+ (t +:+ u).
Proof. induction s as [|c s IH]; [done|]. simpl. by rewrite IH. Qed.

Lemma string_length_app (s t : string) :
  String.length (s +:+ t) = (String.length s + String.length t)%nat.
Proof. induction s as [|c s IH]; [done|]. simpl. by rewrite IH. Qed.

Lemma upto_length_app s t : strings.upto (String.length s) (s +:+ t) = s.
Proof. induction s as [|c s IH]; simpl; [by destruct t|]. by rewrite IH. Qed.

Lemma from_length_app s t : strings.from (String.length s) (s +:+ t) = t.
Proof. induction s as [|c s IH]; simpl; done. Qed.

Lemma HasPrefix_app s t : strings.HasPrefix (s +:+ t) s = true.
Proof. induction s as [|c s IH]; simpl; [by destruct t|]. by rewrite Ascii.eqb_refl. Qed.

Lemma HasPrefix_spec s p :
  strings.HasPrefix s p = true <-> exists t, s = p +:+ t.
Proof.
  split; [|intros [t ->]; apply HasPrefix_app].
  revert s. induction p as [|c p IH]; intros s; simpl.
  - intros _. by exists s.
  - destruct s as [|d s]; [done|]. intros [->%Ascii.eqb_eq [t ->]%IH]%andb_true_iff.
    by exists t.
Qed.

Lemma HasPrefix_cons_ne c d p s :
  c <> d -> strings.HasPrefix (String d s) (String c p) = false.
Proof. intros H%Ascii.eqb_neq. simpl. by rewrite H. Qed.

Lemma CutPrefix_app p s : strings.CutPrefix (p +:+ s) p = Some s.
Proof. unfold strings.CutPrefix. by rewrite HasPrefix_app, from_length_app. Qed.

Lemma TrimPrefix_app p s : strings.TrimPrefix (p +:+ s) p = s.
Proof. unfold strings.TrimPrefix. by rewrite CutPrefix_app. Qed.

Lemma TrimPrefix_other s p :
  strings.HasPrefix s p = false -> strings.TrimPrefix s p = s.
Proof. unfold strings.TrimPrefix, strings.CutPrefix. by intros ->. Qed.

Lemma Index_single_None c s :
  allBytes (fun d => negb (Ascii.eqb d c)) s = true ->
  strings.Index s (String c EmptyString) = None.
Proof.
  induction s as [|d s IH]; simpl; [done|]. intros [Hd Hs]%andb_true_iff.
  apply negb_true_iff in Hd. rewrite Ascii.eqb_sym, Hd. simpl. by rewrite IH.
Qed.

Lemma Index_single_app c w t :
  allBytes (fun d => negb (Ascii.eqb d c)) w = true ->
  strings.Index (w +:+ String c t) (String c EmptyString) = Some (String.length w).
Proof.
  induction w as [|d w IH]; simpl; intros Hw.
  - rewrite Ascii.eqb_refl. by destruct t.
  - apply andb_true_iff in Hw as [Hd Hw]. apply negb_true_iff in Hd.
    rewrite Ascii.eqb_sym, Hd. simpl. by rewrite IH.
Qed.

Lemma LastIndexByte_None c s :
  allBytes (fun d => negb (Ascii.eqb d c)) s = true -> strings.LastIndexByte s c = None.
Proof.
  induction s as [|a s IH]; simpl; [done|]. intros [Ha Hs]%andb_true_iff.
  rewrite (IH Hs). by destruct (Ascii.eqb a c).
Qed.

Lemma LastIndexByte_app c w t :
  allBytes (fun d => negb (Ascii.eqb d c)) t = true ->
  strings.LastIndexByte (w +:+ String c t) c = Some (String.length w).
Proof.
  intros Ht. induction w as [|a w IH]; simpl; [|by rewrite IH].
  by rewrite LastIndexByte_None, Ascii.eqb_refl.
Qed.

Lemma from_S_length_app c w t : strings.from (S (String.length w)) (w +:+ String c t) = t.
Proof. induction w as [|a w IH]; simpl; done. Qed.

Lemma string_app_inj_r (s t u : string) : s +:+ t = s +:+ u -> t = u.
Proof. induction s as [|c s IH]; simpl; [done|]. intros [= H]. by apply IH. Qed.

(** Two words followed by a separator neither contains are equal. *)
Lemma string_app_sep c w w' t t' :
  allBytes (fun d => negb (Ascii.eqb d c)) w = true ->
  allBytes (fun d => negb (Ascii.eqb d c)) w' = true ->
  w +:+ String c t = w' +:+ String c t' -> w = w' /\ t = t'.
Proof.
  revert w'. induction w as [|a w IH]; intros [|a' w']; simpl.
  - by intros _ _ [= ->].
  - intros _ [H _]%andb_true_iff [= -> _]. by rewrite Ascii.eqb_refl in H.
  - intros [H _]%andb_true_iff _ [= -> _]. by rewrite Ascii.eqb_refl in H.
  - intros [_ H]%andb_true_iff [_ H']%andb_true_iff [= -> E].
    by destruct (IH w' H H' E) as [-> ->].
Qed.

Lemma cutBefore_absent s c :
  allBytes (fun d => negb (Ascii.eqb d c)) s = true ->
  strings.cutBefore s (String c EmptyString) = s.
Proof. intros H. unfold strings.cutBefore. by rewrite Index_single_None. Qed.

Lemma cutBefore_app w c t :
  allBytes (fun d => negb (Ascii.eqb d c)) w = true ->
  strings.cutBefore (w +:+ String c t) (String c EmptyString) = w.
Proof.
  intros H. unfold strings.cutBefore. rewrite Index_single_app by done.
  apply upto_length_app.
Qed.

Lemma Split_ne_nil s sep : strings.Split s sep <> [].
Proof.
  destruct s as [|c s]; simpl; [done|]. destruct (Ascii.eqb c sep); [done|].
  by destruct (strings.Split s sep).
Qed.

Lemma Split_absent s sep :
  allBytes (fun d => negb (Ascii.eqb d sep)) s = true -> strings.Split s sep = [s].
Proof.
  induction s as [|c s IH]; simpl; [done|]. intros [Hc Hs]%andb_true_iff.
  apply negb_true_iff in Hc. by rewrite Hc, IH.
Qed.

Lemma Split_app w sep t :
  allBytes (fun d => negb (Ascii.eqb d sep)) w = true ->
  strings.Split (w +:+ String sep t) sep = w :: strings.Split t sep.
Proof.
  induction w as [|c w IH]; simpl; intros Hw; [by rewrite Ascii.eqb_refl|].
  apply andb_true_iff in Hw as [Hc Hw]. apply negb_true_iff in Hc.
  by rewrite Hc, IH.
Qed.

Lemma Split_elem_absent s sep w :
  w ∈ strings.Split s sep -> allBytes (fun d => negb (Ascii.eqb d sep)) w = true.
Proof.
  revert w. induction s as [|c s IH]; simpl; intros w; [by intros ->%list_elem_of_singleton|].
  destruct (Ascii.eqb c sep) eqn:Ec; [by intros [->|Hw]%elem_of_cons; [|apply IH]|].
  destruct (strings.Split s sep) as [|x xs]; [intros ->%list_elem_of_singleton; simpl; by rewrite Ec|].
  intros [->|Hw]%elem_of_cons; [|apply IH; by right]. simpl. rewrite Ec. apply IH. left.
Qed.

(** Splitting what was joined with a separator none of the words holds. *)
Lemma Split_Join sep l :
  l <> [] -> Forall (fun w => allBytes (fun d => negb (Ascii.eqb d sep)) w = true) l ->
  strings.Split (strings.Join l (String sep EmptyString)) sep = l.
Proof.
  induction l as [|w l IH]; intros Hne Hl; [done|]. apply Forall_cons in Hl as [Hw Hl].
  destruct l as [|x l]; [by apply Split_absent|].
  change (strings.Join (w :: x :: l) (String sep EmptyString))
    with (w +:+ String sep (strings.Join (x :: l) (String sep EmptyString))).
  rewrite Split_app by done. by rewrite IH.
Qed.

Lemma trimRight_idem f s : strings.trimRightFunc f (strings.trimRightFunc f s) = strings.trimRightFunc f s.
Proof.
  induction s as [|c s IH]; simpl; [done|].
  destruct (strings.trimRightFunc f s) as [|d r] eqn:E.
  - destruct (f c) eqn:Ef; simpl; [done|by rewrite Ef].
  - cbn [strings.trimRightFunc] in IH |- *. by rewrite IH.
Qed.

Lemma trimFunc_idem f s : strings.trimFunc f (strings.trimFunc f s) = strings.trimFunc f s.
Proof.
  unfold strings.trimFunc. induction s as [|c s IH]; simpl; [done|].
  destruct (f c) eqn:Ef; [done|].
  assert (H : strings.trimLeftFunc f (strings.trimRightFunc f (String c s)) = strings.trimRightFunc f (String c s)).
  { simpl. destruct (strings.trimRightFunc f s); [rewrite Ef|]; simpl; by rewrite Ef. }
  rewrite H. apply trimRight_idem.
Qed.

Lemma allBytes_trim f g s : allBytes g s = true -> allBytes g (strings.trimFunc f s) = true.
Proof.
  intros H. unfold strings.trimFunc.
  assert (Hl : allBytes g (strings.trimLeftFunc f s) = true).
  { induction s as [|c s IH]; simpl in *; [done|]. destruct (f c); [|done]. apply andb_true_iff in H as [_ H]. by apply IH. }
  revert Hl. generalize (strings.trimLeftFunc f s) as r. clear H s.
  induction r as [|c r IH]; simpl; [done|]. intros [Hc Hr]%andb_true_iff. specialize (IH Hr).
  destruct (strings.trimRightFunc f r); [destruct (f c); simpl; by rewrite ?Hc|]. simpl in *. by rewrite Hc.
Qed.

(** ** Decimal numbers *)

Lemma digit_range c d : strconv.digit c = Some d -> 0 <= d <= 9.
Proof. unfold strconv.digit. intros H. case_hyp H; simplify_eq. breflect. lia. Qed.

Lemma digits_app a s t :
  strconv.digits a (s +:+ t) =
  match strconv.digits a s with Some b => strconv.digits b t | None => None end.
Proof.
  revert a. induction s as [|c s IH]; intros a; simpl; [done|].
  destruct (strconv.digit c); done.
Qed.

Lemma digits_isDigit a s v : strconv.digits a s = Some v -> allBytes isDigit s = true.
Proof.
  revert a. induction s as [|c s IH]; intros a; simpl; [done|].
  unfold isDigit at 1. destruct (strconv.digit c); [|done]. intros H. by rewrite (IH _ H).
Qed.

Lemma digit_pretty x : (x < 10)%N -> strconv.digit (pretty_N_char x) = Some (Z.of_N x).
Proof.
  intros Hx.
  assert (x = 0 \/ x = 1 \/ x = 2 \/ x = 3 \/ x = 4 \/ x = 5 \/ x = 6 \/ x = 7 \/ x = 8 \/ x = 9)%N
    as Hc by lia.
  by repeat destruct Hc as [->|Hc]; [..|subst].
Qed.

(** Reading back what [Itoa] prints. *)
Lemma digits_pretty_go x s a :
  (0 < x)%N -> exists k, 0 < k /\
    strconv.digits a (pretty_N_go x s) = strconv.digits (a * k + Z.of_N x) s.
Proof.
  revert s. induction (N.lt_wf_0 x) as [x _ IH]; intros s Hx.
  rewrite pretty_N_go_step by done.
  assert (Hmod : (x `mod` 10 < 10)%N) by (apply N.mod_lt; done).
  destruct (decide (0 < x `div` 10)%N) as [Hd|Hd].
  - destruct (IH (x `div` 10)%N (N.div_lt x 10 Hx eq_refl)
      (String (pretty_N_char (x `mod` 10)) s) Hd) as (k & Hk & ->).
    exists (k * 10). split; [lia|]. simpl. rewrite digit_pretty by done. f_equal.
    pose proof (N.div_mod x 10 ltac:(done)) as Hdm. rewrite Hdm at 3.
    rewrite N2Z.inj_add, N2Z.inj_mul. ring.
  - assert (Hd0 : (x `div` 10 = 0)%N) by (apply N.le_0_r, N.nlt_ge, Hd).
    rewrite Hd0, pretty_N_go_0.
    exists 10. split; [lia|]. simpl. rewrite digit_pretty by done. f_equal.
    assert (x < 10)%N by (by apply N.div_small_iff). by rewrite N.mod_small by done.
Qed.

Lemma digits_pretty_N x : strconv.digits 0 (pretty x) = Some (Z.of_N x).
Proof.
  unfold pretty, pretty_N. destruct (decide (x = 0%N)) as [->|Hx]; [done|].
  destruct (digits_pretty_go x EmptyString 0) as (k & _ & ->); [lia|]. done.
Qed.

Lemma Itoa_nonneg n : 0 <= n -> strconv.Itoa n = pretty (Z.to_N n).
Proof. intros H. unfold strconv.Itoa. destruct n; [done|done|lia]. Qed.

Lemma digits_Itoa n : 0 <= n -> strconv.digits 0 (strconv.Itoa n) = Some n.
Proof. intros H. rewrite Itoa_nonneg, digits_pretty_N by done. f_equal. lia. Qed.

Lemma Itoa_digits n : 0 <= n -> allBytes isDigit (strconv.Itoa n) = true.
Proof. intros H. eapply digits_isDigit, digits_Itoa, H. Qed.

Lemma Itoa_inj m n : strconv.Itoa m = strconv.Itoa n -> m = n.
Proof. apply (inj pretty). Qed.

Lemma Itoa_ne_empty n : strconv.Itoa n <> EmptyString.
Proof.
  destruct (Z.le_gt_cases 0 n) as [H|H].
  - intros E. pose proof (digits_Itoa n H) as D. rewrite E in D. simpl in D.
    injection D as <-. done.
  - unfold strconv.Itoa. destruct n; [lia|lia|]. done.
Qed.

(** A string of digits is what [digits] reads, without a sign. *)
Lemma digits_no_sign c s a v :
  strconv.digits a (String c s) = Some v -> Ascii.eqb c "+" = false /\ Ascii.eqb c "-" = false.
Proof.
  simpl. destruct (strconv.digit c) eqn:E; [|done]. intros _.
  split; apply Ascii.eqb_neq; intros ->; done.
Qed.

Lemma ParseInt_digits s v lo hi :
  s <> EmptyString -> strconv.digits 0 s = Some v -> lo <= v <= hi ->
  strconv.ParseInt s lo hi = (v, None).
Proof.
  intros Hne Hd Hr. unfold strconv.ParseInt. destruct s as [|c s]; [done|].
  destruct (digits_no_sign _ _ _ _ Hd) as [-> ->]. rewrite Hd.
  destruct (Z.ltb_spec hi v); [lia|]. destruct (Z.ltb_spec v lo); [lia|]. done.
Qed.

Lemma Atoi_digits s v :
  s <> EmptyString -> strconv.digits 0 s = Some v -> v <= strconv.maxInt64 ->
  0 <= v -> strconv.Atoi s = Some v.
Proof.
  intros. unfold strconv.Atoi, strconv.AtoiValue.
  by rewrite (ParseInt_digits s v) by (unfold strconv.minInt64; lia || done).
Qed.

Lemma Atoi_Itoa n : 0 <= n <= strconv.maxInt64 -> strconv.Atoi (strconv.Itoa n) = Some n.
Proof. intros H. apply Atoi_digits; [apply Itoa_ne_empty|apply digits_Itoa|..]; lia. Qed.

Lemma ParseInt_range s lo hi v : strconv.ParseInt s lo hi = (v, None) -> lo <= v <= hi.
Proof.
  unfold strconv.ParseInt. set (nb := match s with EmptyString => _ | _ => _ end).
  destruct nb as [b body]. destruct body as [|c body]; [done|].
  destruct (strconv.digits 0 (String c body)) as [u|]; [|done].
  destruct (Z.ltb_spec hi (if b then - u else u)); [done|].
  destruct (Z.ltb_spec (if b then - u else u) lo); [done|]. intros [= <-]. lia.
Qed.

Lemma Atoi_range s v :
  strconv.Atoi s = Some v -> strconv.minInt64 <= v <= strconv.maxInt64.
Proof.
  unfold strconv.Atoi, strconv.AtoiValue. case_match. case_match; [done|].
  intros [= <-]. by eapply ParseInt_range.
Qed.

(** A digit is none of the separators the parsers split on. *)
Lemma isDigit_ne c d :
  isDigit d = false -> isDigit c = true -> negb (Ascii.eqb c d) = true.
Proof. intros Hd Hc. apply negb_true_iff, Ascii.eqb_neq. intros ->. congruence. Qed.

Lemma Itoa_absent n d :
  0 <= n -> isDigit d = false ->
  allBytes (fun c => negb (Ascii.eqb c d)) (strconv.Itoa n) = true.
Proof.
  intros Hn Hd. eapply allBytes_impl; [|apply Itoa_digits, Hn].
  intros c. by apply isDigit_ne.
Qed.

(** ** Sorting *)

Lemma N_of_ascii_inj a b : N_of_ascii a = N_of_ascii b -> a = b.
Proof. intros H. rewrite <-(ascii_N_embedding a), H. apply ascii_N_embedding. Qed.

#[global] Instance le_total : Total sort.le.
Proof.
  unfold sort.le. intros s. induction s as [|a s IH]; intros [|b t]; simpl; auto.
  destruct (N.ltb_spec (N_of_ascii a) (N_of_ascii b)); [auto|].
  destruct (N.ltb_spec (N_of_ascii b) (N_of_ascii a)); [auto|]. apply IH.
Qed.

#[global] Instance le_trans : Transitive sort.le.
Proof.
  unfold sort.le. intros s. induction s as [|a s IH]; intros [|b t] [|c u]; simpl; try done.
  destruct (N.ltb_spec (N_of_ascii a) (N_of_ascii b)), (N.ltb_spec (N_of_ascii b) (N_of_ascii c)),
    (N.ltb_spec (N_of_ascii a) (N_of_ascii c)), (N.ltb_spec (N_of_ascii b) (N_of_ascii a)),
    (N.ltb_spec (N_of_ascii c) (N_of_ascii b)), (N.ltb_spec (N_of_ascii c) (N_of_ascii a));
    try lia; try done.
  apply IH.
Qed.

#[global] Instance le_antisymm : AntiSymm (=) sort.le.
Proof.
  unfold sort.le. intros s. induction s as [|a s IH]; intros [|b t]; simpl; try done.
  destruct (N.ltb_spec (N_of_ascii a) (N_of_ascii b)), (N.ltb_spec (N_of_ascii b) (N_of_ascii a));
    try lia; try done.
  intros H1 H2. rewrite (IH t) by done. f_equal. apply N_of_ascii_inj. lia.
Qed.

#[global] Instance le_refl : Reflexive sort.le.
Proof. intros s. destruct (total sort.le s s); done. Qed.

Lemma Strings_perm l : sort.Strings l ≡ₚ l.
Proof. apply merge_sort_Permutation. Qed.

Lemma Strings_elem l x : x ∈ sort.Strings l <-> x ∈ l.
Proof. by rewrite (Strings_perm l). Qed.

Lemma Strings_length l : length (sort.Strings l) = length l.
Proof. by rewrite (Strings_perm l). Qed.

Lemma Strings_sorted l : Sorted sort.le (sort.Strings l).
Proof. apply Sorted_merge_sort, _. Qed.

(** The sorted slice is the same whatever order a Go map was iterated in. *)
Lemma Strings_unique l l' : l ≡ₚ l' -> sort.Strings l = sort.Strings l'.
Proof.
  intros H. apply (Sorted_unique sort.le); [apply Strings_sorted..|].
  by rewrite !Strings_perm.
Qed.
