(* ===== verification/Version.v ===== *)
(** Neo4j versions and the neo4j-admin command lines that depend on them
    (src/internal/neo4j/version.go): parsing image tags and references,
    ordering, the version gates of the features the operator uses, and the
    backup and restore commands that run through [/bin/sh -c]. *)
From S2P Require Import Prelude GoStrings.

Open Scope Z_scope.

(** * The parsed version *)

Record Version := mkVersion {
  Major : Z;
  Minor : Z;
  Patch : Z;
  IsCalver : bool;
  Raw : string
}.

(** [ParseVersion]: the prefixes are removed in the order of the code, then a
    digest, then a dash suffix. A patch that is not a number counts as 0. *)
Definition cleanVersion (versionString : string) : string :=
  let cleaned := strings.TrimPrefix versionString "v" in
  let cleaned := strings.TrimPrefix cleaned "neo4j-" in
  let cleaned := strings.TrimPrefix cleaned "neo4j:" in
  let cleaned := strings.cutBefore cleaned "@" in
  strings.cutBefore cleaned "-".

Definition ParseVersion (versionString : string) : result Version :=
  if String.eqb versionString EmptyString then Err "empty version string"
  else
    match strings.Split (cleanVersion versionString) "." with
    | p0 :: p1 :: rest =>
        match strconv.Atoi p0 with
        | None => Err ("invalid major version: " +:+ p0)
        | Some major =>
            match strconv.Atoi p1 with
            | None => Err ("invalid minor version: " +:+ p1)
            | Some minor =>
                let patch :=
                  match rest with
                  | p2 :: _ => match strconv.Atoi p2 with Some p => p | None => 0 end
                  | [] => 0
                  end in
                Ok (mkVersion major minor patch (2025 <=? major) versionString)
            end
        end
    | _ => Err ("invalid version format: " +:+ versionString)
    end.

Definition IsSupported (v : Version) : bool :=
  if IsCalver v then true else (Major v =? 5) && (Minor v =? 26).

Definition Compare (v other : Version) : Z :=
  if Major v <? Major other then -1
  else if Major other <? Major v then 1
  else if Minor v <? Minor other then -1
  else if Minor other <? Minor v then 1
  else if Patch v <? Patch other then -1
  else if Patch other <? Patch v then 1
  else 0.

(** [(v *Version) String()]. *)
Definition VersionString (v : Version) : string :=
  if 0 <? Patch v then
    strconv.Itoa (Major v) +:+ "." +:+ strconv.Itoa (Minor v) +:+ "." +:+ strconv.Itoa (Patch v)
  else strconv.Itoa (Major v) +:+ "." +:+ strconv.Itoa (Minor v).

Definition GetImageVersion (image : string) : result Version :=
  let name := strings.cutBefore image "@" in
  match strings.LastIndexByte name ":" with
  | Some (S i) =>
      let tag := strings.from (S (S i)) name in
      if strings.Contains tag "/" then Err ("invalid image format: " +:+ image)
      else ParseVersion tag
  | _ => Err ("invalid image format: " +:+ image)
  end.

(** * Command lines *)

Definition squote : string := "'".
Definition dquote : string := String "034" EmptyString.

(** ['\''], which ends the quoted part, adds a quote and starts a new one. *)
Definition shellQuoteArg (s : string) : string :=
  squote +:+ strings.ReplaceAllByte s "'" "'\''" +:+ squote.

Definition GetBackupCommandForDatabases (databaseNames : list string)
    (backupPath : string) (allDatabases : bool) (fromAddresses : string) : string :=
  let cmd := "neo4j-admin database backup" in
  let cmd := if String.eqb fromAddresses EmptyString then cmd
             else cmd +:+ " --from=" +:+ fromAddresses in
  let cmd := cmd +:+ " --to-path=" +:+ shellQuoteArg backupPath in
  if allDatabases then cmd +:+ " " +:+ dquote +:+ "*" +:+ dquote
  else fold_left
         (fun cmd name =>
            if String.eqb name EmptyString then cmd
            else cmd +:+ " " +:+ dquote +:+ name +:+ dquote)
         databaseNames cmd.

Definition GetBackupCommand (databaseName backupPath : string)
    (allDatabases : bool) (fromAddresses : string) : string :=
  GetBackupCommandForDatabases
    (if String.eqb databaseName EmptyString then [] else [databaseName])
    backupPath allDatabases fromAddresses.

Definition GetRestoreCommand (databaseName backupPath : string) : string :=
  "neo4j-admin database restore" +:+ " --from-path=" +:+ backupPath +:+ " "
  +:+ shellQuoteArg databaseName.

(** * Feature gates *)

Definition SupportsMetadataOption (v : Version) : bool := IsSupported v.
Definition SupportsCypherLanguageVersion (v : Version) : bool := IsCalver v.

Definition SupportsRemoteAddressResolution (v : Version) : bool :=
  if negb (IsCalver v) then false
  else if 2025 <? Major v then true
  else (Major v =? 2025) && (9 <=? Minor v).

Definition SupportsPreferDiffAsParent (v : Version) : bool :=
  if negb (IsCalver v) then false
  else if 2025 <? Major v then true
  else (Major v =? 2025) && (4 <=? Minor v).

Definition SupportsParallelDownload (v : Version) : bool :=
  if negb (IsCalver v) then false
  else if 2025 <? Major v then true
  else (Major v =? 2025) && (11 <=? Minor v).

Definition SupportsSplitArchive (v : Version) : bool :=
  if negb (IsCalver v) then false
  else if 2026 <? Major v then true
  else (Major v =? 2026) && (9 <=? Minor v).

Definition SupportsTLSReload (v : Version) : bool :=
  if negb (IsCalver v) then false
  else if 2025 <? Major v then true
  else (Major v =? 2025) && (3 <=? Minor v).

Definition SupportsSkipRecovery (v : Version) : bool := SupportsParallelDownload v.
Definition SupportsAdvancedBackupFlags (v : Version) : bool := SupportsParallelDownload v.

Definition SupportsSourceDatabaseFilter (v : Version) : bool :=
  if IsCalver v then 2 <=? Minor v else false.

Definition RecreateDatabaseProcedure (v : Version) : string :=
  if IsCalver v then
    if 2025 <? Major v then "dbms.recreateDatabase"
    else if (Major v =? 2025) && (4 <=? Minor v) then "dbms.recreateDatabase"
    else if (Major v =? 2025) && (2 <=? Minor v) then "dbms.cluster.recreateDatabase"
    else EmptyString
  else if (Major v =? 5) && (24 <=? Minor v) then "dbms.cluster.recreateDatabase"
  else EmptyString.

Definition SupportsAuthRules (v : Version) : bool :=
  if negb (IsCalver v) then false
  else if 2026 <? Major v then true
  else (Major v =? 2026) && (3 <=? Minor v).

Definition MinCCDRReplicaVersion : string := "2026.08".
Definition MinCCDRUpstreamVersion : string := "2025.01".

Definition SupportsCCDRReplica (v : Version) : bool :=
  if negb (IsCalver v) then false
  else if 2026 <? Major v then true
  else (Major v =? 2026) && (8 <=? Minor v).

Definition MeetsCCDRUpstreamFloor (v : Version) : bool := IsCalver v.

(** * The shell's reading of a command line

    The words POSIX [sh] makes of a line, as far as no character asks it to do
    anything else: [None] when a quote is left open or an unquoted character is
    a metacharacter (or an expansion character within double quotes), so a
    result is exactly the argument vector the program gets. *)
Inductive shMode := Unquoted | Single | Double.

Definition shPlain (c : ascii) : bool :=
  negb (strings.byteIn c "|&;<>()$`\'*?[]#~!{}"
        || strings.isSpace c || Ascii.eqb c "034").

Definition shDoubleSafe (c : ascii) : bool :=
  negb (strings.byteIn c "$`\!" || Ascii.eqb c "034").

(** [Some (w, ws)]: [w] is the part of a word the input starts with, if it
    does; [ws] the words after it. *)
Definition shCons (c : ascii) (r : option (option string * list string)) :=
  match r with
  | Some (w, ws) => Some (Some (String c (default EmptyString w)), ws)
  | None => None
  end.

Definition shOpen (r : option (option string * list string)) :=
  match r with
  | Some (w, ws) => Some (Some (default EmptyString w), ws)
  | None => None
  end.

Definition shBreak (r : option (option string * list string)) :=
  match r with
  | Some (Some w, ws) => Some (@None string, w :: ws)
  | Some (None, ws) => Some (None, ws)
  | None => None
  end.

Fixpoint shLex (m : shMode) (s : string) : option (option string * list string) :=
  match m, s with
  | Unquoted, EmptyString => Some (None, [])
  | _, EmptyString => None
  | Unquoted, String c s' =>
      if Ascii.eqb c " " then shBreak (shLex Unquoted s')
      else if Ascii.eqb c "'" then shOpen (shLex Single s')
      else if Ascii.eqb c "034" then shOpen (shLex Double s')
      else if Ascii.eqb c "\" then
        match s' with
        | String d s'' => shCons d (shLex Unquoted s'')
        | EmptyString => None
        end
      else if shPlain c then shCons c (shLex Unquoted s')
      else None
  | Single, String c s' =>
      if Ascii.eqb c "'" then shLex Unquoted s' else shCons c (shLex Single s')
  | Double, String c s' =>
      if Ascii.eqb c "034" then shLex Unquoted s'
      else if shDoubleSafe c then shCons c (shLex Double s')
      else None
  end.

Definition shWords (s : string) : option (list string) :=
  match shBreak (shLex Unquoted s) with
  | Some (_, ws) => Some ws
  | None => None
  end.

(** * Lemmas on parsing *)

Definition versionByte (c : ascii) : bool := isDigit c || Ascii.eqb c ".".

Lemma versionByte_ne c d :
  versionByte d = false -> versionByte c = true -> negb (Ascii.eqb c d) = true.
Proof. intros Hd Hc. apply negb_true_iff, Ascii.eqb_neq. intros ->. congruence. Qed.

Lemma versionBytes_absent s d :
  versionByte d = false -> allBytes versionByte s = true ->
  allBytes (fun c => negb (Ascii.eqb c d)) s = true.
Proof. intros Hd. apply allBytes_impl. intros c. by apply versionByte_ne. Qed.

Lemma versionBytes_TrimPrefix s c p t :
  versionByte c = false -> s <> EmptyString -> allBytes versionByte s = true ->
  strings.TrimPrefix (s +:+ t) (String c p) = s +:+ t.
Proof.
  intros Hc Hne Hs. apply TrimPrefix_other. destruct s as [|d s]; [done|].
  simpl in Hs. apply andb_true_iff in Hs as [Hd _].
  apply HasPrefix_cons_ne. intros <-. congruence.
Qed.

(** What may follow the version in a tag: nothing, a dash suffix or a digest. *)
Definition tagSuffix (t : string) : Prop :=
  t = EmptyString \/ exists u, t = String "-" u \/ t = String "@" u.

(** The prefixes [ParseVersion] accepts. *)
Definition tagPrefix (p : string) : Prop :=
  p = EmptyString \/ p = "v" \/ p = "neo4j-" \/ p = "neo4j:".

Lemma cutBefore_upto s c : exists t, s = strings.cutBefore s (String c EmptyString) +:+ t.
Proof.
  unfold strings.cutBefore. destruct (strings.Index s _) as [i|]; [|by exists EmptyString; rewrite string_app_nil_r].
  exists (strings.from i s). clear c. revert s. induction i as [|i IH]; intros [|d s]; simpl; try done.
  by rewrite <-IH.
Qed.

Lemma clean_suffix b t :
  allBytes versionByte b = true -> tagSuffix t ->
  strings.cutBefore (strings.cutBefore (b +:+ t) "@") "-" = b.
Proof.
  intros Hb [->|[u [->| ->]]].
  - rewrite string_app_nil_r.
    rewrite (cutBefore_absent b "@"), (cutBefore_absent b "-"); [done|by apply versionBytes_absent..].
  - replace (strings.cutBefore (b +:+ String "-" u) "@")
      with (b +:+ String "-" (strings.cutBefore u "@")).
    { by apply cutBefore_app, versionBytes_absent. }
    assert (Ha : allBytes (fun c => negb (Ascii.eqb c "@")) b = true) by by apply versionBytes_absent.
    clear Hb. induction b as [|c b IH]; simpl in *.
    + unfold strings.cutBefore. simpl. by destruct (strings.Index u "@").
    + apply andb_true_iff in Ha as [Hc Ha]. rewrite IH by done.
      apply negb_true_iff in Hc. unfold strings.cutBefore. simpl.
      rewrite Ascii.eqb_sym, Hc. simpl. by destruct (strings.Index (b +:+ String "-" u) "@").
  - rewrite (cutBefore_app b "@") by by apply versionBytes_absent.
    by apply cutBefore_absent, versionBytes_absent.
Qed.

Lemma cleanVersion_decorated p b t :
  tagPrefix p -> b <> EmptyString -> allBytes versionByte b = true -> tagSuffix t ->
  cleanVersion (p +:+ b +:+ t) = b.
Proof.
  intros Hp Hne Hb Ht. unfold cleanVersion.
  assert (Hv : forall c q, versionByte c = false ->
    strings.TrimPrefix (b +:+ t) (String c q) = b +:+ t)
    by (intros; by apply versionBytes_TrimPrefix).
  destruct Hp as [->|[->|[->| ->]]].
  - change (EmptyString +:+ b +:+ t) with (b +:+ t). rewrite !Hv by done. by apply clean_suffix.
  - rewrite (TrimPrefix_app "v"), !Hv by done. by apply clean_suffix.
  - rewrite (TrimPrefix_other _ "v"), (TrimPrefix_app "neo4j-"), Hv by done. by apply clean_suffix.
  - rewrite (TrimPrefix_other _ "v"), (TrimPrefix_other _ "neo4j-"), (TrimPrefix_app "neo4j:") by done.
    by apply clean_suffix.
Qed.

(** The dotted decimal form of two or three numbers. *)
Definition dotted (major minor : Z) (patch : option Z) : string :=
  strconv.Itoa major +:+ "." +:+ strconv.Itoa minor
  +:+ match patch with Some p => "." +:+ strconv.Itoa p | None => EmptyString end.

Definition goNat (n : Z) : Prop := 0 <= n <= strconv.maxInt64.

Lemma Itoa_versionBytes n : 0 <= n -> allBytes versionByte (strconv.Itoa n) = true.
Proof.
  intros H. eapply allBytes_impl; [|by apply Itoa_digits].
  intros c Hc. unfold versionByte. by rewrite Hc.
Qed.

Lemma dotted_bytes a b c :
  0 <= a -> 0 <= b -> default 0 c >= 0 -> allBytes versionByte (dotted a b c) = true.
Proof.
  intros. unfold dotted. rewrite !allBytes_app, !Itoa_versionBytes by done. simpl.
  destruct c as [p|]; [|done]. simpl in *. by rewrite Itoa_versionBytes by lia.
Qed.

Lemma dotted_ne_empty a b c : dotted a b c <> EmptyString.
Proof. unfold dotted. pose proof (Itoa_ne_empty a). by destruct (strconv.Itoa a). Qed.

Lemma Split_dotted a b c :
  0 <= a -> 0 <= b -> default 0 c >= 0 ->
  strings.Split (dotted a b c) "." =
  strconv.Itoa a :: strconv.Itoa b :: match c with Some p => [strconv.Itoa p] | None => [] end.
Proof.
  intros Ha Hb Hc. unfold dotted. simpl.
  rewrite Split_app by by apply Itoa_absent. f_equal. destruct c as [p|]; simpl in *.
  - rewrite Split_app, Split_absent; [done|apply Itoa_absent..]; done || lia.
  - rewrite string_app_nil_r, Split_absent; [done|by apply Itoa_absent].
Qed.

Lemma app_ne_empty p b t : b <> EmptyString -> String.eqb (p +:+ b +:+ t) EmptyString = false.
Proof. intros H. apply String.eqb_neq. destruct p; [by destruct b|done]. Qed.

Lemma ParseVersion_dotted p a b c t :
  tagPrefix p -> tagSuffix t -> goNat a -> goNat b -> goNat (default 0 c) ->
  ParseVersion (p +:+ dotted a b c +:+ t) =
  Ok (mkVersion a b (default 0 c) (2025 <=? a) (p +:+ dotted a b c +:+ t)).
Proof.
  unfold goNat. intros Hp Ht Ha Hb Hc. unfold ParseVersion.
  rewrite app_ne_empty by apply dotted_ne_empty.
  rewrite cleanVersion_decorated by (apply dotted_ne_empty || apply dotted_bytes || done; lia).
  rewrite Split_dotted by lia. rewrite !Atoi_Itoa by lia.
  destruct c; [by rewrite Atoi_Itoa|done].
Qed.

(** What [String] prints of a version, with or without one of the accepted
    prefixes and a "-enterprise" like suffix or a digest, parses back to the
    same numbers. *)
Theorem ParseVersion_VersionString (v : Version) (p t : string) :
  goNat (Major v) -> goNat (Minor v) -> goNat (Patch v) -> tagPrefix p -> tagSuffix t ->
  ParseVersion (p +:+ VersionString v +:+ t) =
  Ok (mkVersion (Major v) (Minor v) (Patch v) (2025 <=? Major v) (p +:+ VersionString v +:+ t)).
Proof.
  intros Ha Hb Hc Hp Ht.
  assert (exists c, VersionString v = dotted (Major v) (Minor v) c /\ default 0 c = Patch v)
    as (c & -> & Hd).
  { unfold VersionString, dotted. unfold goNat in Hc. destruct (Z.ltb_spec 0 (Patch v)).
    - by exists (Some (Patch v)).
    - exists None. rewrite string_app_nil_r. simpl. split; [done|lia]. }
  rewrite <-Hd in Hc |- *. by apply ParseVersion_dotted.
Qed.

Lemma ParseVersion_VersionString_witness :
  ParseVersion ("v" +:+ VersionString (mkVersion 2026 8 1 true "x") +:+ "-enterprise")
  = Ok (mkVersion 2026 8 1 true "v2026.8.1-enterprise").
Proof.
  apply (ParseVersion_VersionString (mkVersion 2026 8 1 true "x") "v" "-enterprise");
    unfold goNat, tagPrefix, tagSuffix; simpl; try (vm_compute; split; discriminate).
  - by right; left.
  - right. by exists "enterprise"; left.
Defined.

(** * Image references *)

Definition without (c : ascii) (s : string) : Prop :=
  allBytes (fun d => negb (Ascii.eqb d c)) s = true.

(** the version of an image reference is the version of its tag, whatever
    the registry part of the name (a port included) and whatever digest
    follows the tag. *)
Theorem GetImageVersion_tag (repo tag digest : string) :
  repo <> EmptyString -> without "@" repo ->
  without "@" tag -> without ":" tag -> without "/" tag ->
  digest = EmptyString \/ (exists d, digest = String "@" d) ->
  GetImageVersion (repo +:+ ":" +:+ tag +:+ digest) = ParseVersion tag.
Proof.
  unfold without. intros Hr Hra Hta Htc Hts Hd. unfold GetImageVersion.
  assert (strings.cutBefore (repo +:+ ":" +:+ tag +:+ digest) "@" = repo +:+ String ":" tag) as ->.
  { replace (repo +:+ ":" +:+ tag +:+ digest) with ((repo +:+ String ":" tag) +:+ digest)
      by (rewrite string_app_assoc; done).
    assert (allBytes (fun d => negb (Ascii.eqb d "@")) (repo +:+ String ":" tag) = true)
      by (rewrite allBytes_app, Hra; exact Hta).
    destruct Hd as [->|[d ->]]; [rewrite string_app_nil_r; by apply cutBefore_absent|].
    by apply cutBefore_app. }
  rewrite LastIndexByte_app by done.
  destruct repo as [|c repo]; [done|]. simpl String.length. cbv iota.
  replace (strings.from (S (S (String.length repo))) (String c repo +:+ String ":" tag)) with tag.
  - unfold strings.Contains. by rewrite Index_single_None.
  - clear. revert c. induction repo as [|d repo IH]; intros c; [done|]. apply (IH c).
Qed.

Lemma GetImageVersion_tag_witness :
  GetImageVersion ("registry:5000/neo4j" +:+ ":" +:+ "2026.08.1-enterprise" +:+ "@sha256:ab12")
  = Ok (mkVersion 2026 8 1 true "2026.08.1-enterprise").
Proof.
  rewrite (GetImageVersion_tag "registry:5000/neo4j" "2026.08.1-enterprise" "@sha256:ab12");
    try reflexivity; [discriminate|]. right. by exists "sha256:ab12".
Defined.

(** * Ordering *)

(** [Compare] is the lexicographic order on (major, minor, patch): it is
    negative exactly below, positive exactly above and 0 exactly for equal
    numbers, which makes it total, antisymmetric and transitive. *)
Theorem Compare_lexicographic (v w u : Version) :
  (Compare v w = -1 <->
     Major v < Major w \/ Major v = Major w /\
       (Minor v < Minor w \/ Minor v = Minor w /\ Patch v < Patch w)) /\
  (Compare v w = 0 <-> Major v = Major w /\ Minor v = Minor w /\ Patch v = Patch w) /\
  Compare w v = - Compare v w /\
  (Compare v w <= 0 -> Compare w u <= 0 -> Compare v u <= 0).
Proof.
  unfold Compare.
  repeat split; intros; zcases; lia.
Qed.

(** * Feature gates *)

(** The CalVer gates with the release the code's comments give them. *)
Definition calverGates : list ((Version -> bool) * (Z * Z)) :=
  [(SupportsRemoteAddressResolution, (2025, 9));
   (SupportsPreferDiffAsParent, (2025, 4));
   (SupportsParallelDownload, (2025, 11));
   (SupportsSplitArchive, (2026, 9));
   (SupportsTLSReload, (2025, 3));
   (SupportsSkipRecovery, (2025, 11));
   (SupportsAdvancedBackupFlags, (2025, 11));
   (SupportsAuthRules, (2026, 3));
   (SupportsCCDRReplica, (2026, 8))].

(** What [ParseVersion] guarantees of [IsCalver]. *)
Definition calverConsistent (v : Version) : Prop := IsCalver v = (2025 <=? Major v).

Lemma ParseVersion_calver s v : ParseVersion s = Ok v -> calverConsistent v.
Proof. unfold ParseVersion. intros H. repeat case_hyp H; simplify_eq; done. Qed.

(** Each of these gates opens exactly at its release: for a parsed version
    it holds if and only if (major, minor) is at or after the threshold, so
    no later version loses a feature. *)
Lemma calverGates_threshold (s : string) (v : Version) (gate : Version -> bool) (major minor : Z) :
  ParseVersion s = Ok v -> (gate, (major, minor)) ∈ calverGates ->
  gate v = true <-> major < Major v \/ major = Major v /\ minor <= Minor v.
Proof.
  intros Hp%ParseVersion_calver Hin. unfold calverConsistent in Hp.
  unfold calverGates in Hin.
  repeat (apply elem_of_cons in Hin as [Hin|Hin]; [simplify_eq|]); [..|by apply elem_of_nil in Hin];
    unfold SupportsSkipRecovery, SupportsAdvancedBackupFlags, SupportsRemoteAddressResolution,
      SupportsPreferDiffAsParent, SupportsParallelDownload, SupportsSplitArchive,
      SupportsTLSReload, SupportsAuthRules, SupportsCCDRReplica;
    rewrite Hp; clear Hp; zcases; split; intros; first [done | lia].
Qed.

Lemma calverGates_threshold_witness :
  SupportsCCDRReplica (mkVersion 2026 8 1 true "2026.08.1-enterprise") = true.
Proof.
  apply (calverGates_threshold "2026.08.1-enterprise" _ SupportsCCDRReplica 2026 8);
    [reflexivity| |right; simpl; lia].
  unfold calverGates. do 8 right. left.
Defined.

(** [SupportsSourceDatabaseFilter] looks at the minor number alone, so
    unlike the other gates it closes again: 2025.02 has --source-database and
    the later 2026.01 is said not to. *)
Theorem SupportsSourceDatabaseFilter_not_monotone :
  exists v w, ParseVersion "2025.02.0-enterprise" = Ok v /\
    ParseVersion "2026.01.0-enterprise" = Ok w /\ Compare v w = -1 /\
    SupportsSourceDatabaseFilter v = true /\ SupportsSourceDatabaseFilter w = false.
Proof. do 2 eexists. repeat split; vm_compute; reflexivity. Qed.

(** Every version the operator supports either has a recreate procedure or
    is a CalVer before 2025.02, and the unprefixed name is returned from
    2025.04 on only. *)
Lemma RecreateDatabaseProcedure_supported (s : string) (v : Version) :
  ParseVersion s = Ok v -> IsSupported v = true ->
  (RecreateDatabaseProcedure v = "dbms.recreateDatabase" <->
     2025 < Major v \/ Major v = 2025 /\ 4 <= Minor v) /\
  (RecreateDatabaseProcedure v = EmptyString <-> Major v = 2025 /\ Minor v < 2).
Proof.
  intros Hp%ParseVersion_calver Hs. unfold calverConsistent in Hp.
  unfold IsSupported in Hs. unfold RecreateDatabaseProcedure.
  destruct (IsCalver v) eqn:Ec; [clear Hs|]; symmetry in Hp; breflect;
    zcases; split; split; intros; first [done | lia].
Qed.

Lemma RecreateDatabaseProcedure_supported_witness :
  RecreateDatabaseProcedure (mkVersion 2025 4 0 true "2025.04") = "dbms.recreateDatabase".
Proof.
  apply (RecreateDatabaseProcedure_supported "2025.04" (mkVersion 2025 4 0 true "2025.04"));
    [reflexivity..|]. right. simpl. lia.
Defined.

(** * What the shell runs *)

(** A word fragment put in front of what follows. *)
Definition shPrepend (w : string) (r : option (option string * list string)) :=
  match r with
  | Some (w', ws) => Some (Some (w +:+ default EmptyString w'), ws)
  | None => None
  end.

Lemma shCons_prepend c w r : shCons c (shPrepend w r) = shPrepend (String c w) r.
Proof. by destruct r as [[w' ws]|]. Qed.

(** Within single quotes, up to the closing one. *)
Lemma shLex_single s rest :
  shLex Single (strings.ReplaceAllByte s "'" "'\''" +:+ squote +:+ rest)
  = if String.eqb s EmptyString then shLex Unquoted rest
    else shPrepend s (shLex Unquoted rest).
Proof.
  induction s as [|c s IH]; [done|].
  assert (Htail : shOpen (shLex Single (strings.ReplaceAllByte s "'" "'\''" +:+ squote +:+ rest))
    = shPrepend s (shLex Unquoted rest)).
  { rewrite IH. destruct s as [|d s]; simpl; by destruct (shLex Unquoted rest) as [[w ws]|]. }
  simpl strings.ReplaceAllByte. destruct (Ascii.eqb c "'") eqn:Ec.
  - apply Ascii.eqb_eq in Ec as ->.
    transitivity (shCons "'"
      (shOpen (shLex Single (strings.ReplaceAllByte s "'" "'\''" +:+ squote +:+ rest)))); [done|].
    rewrite Htail. apply shCons_prepend.
  - simpl. rewrite Ec. fold squote. rewrite <-(shCons_prepend c s), <-Htail.
    by destruct (shLex Single _) as [[[w|] ws]|].
Qed.

Lemma shLex_quote s rest :
  shLex Unquoted (shellQuoteArg s +:+ rest) = shPrepend s (shLex Unquoted rest).
Proof.
  unfold shellQuoteArg.
  change (shLex Unquoted ((squote +:+ strings.ReplaceAllByte s "'" "'\''" +:+ squote) +:+ rest))
    with (shOpen (shLex Single ((strings.ReplaceAllByte s "'" "'\''" +:+ squote) +:+ rest))).
  rewrite string_app_assoc, shLex_single.
  destruct s as [|c s]; simpl; by destruct (shLex Unquoted rest) as [[w ws]|].
Qed.

Lemma shPlain_tests c :
  shPlain c = true ->
  Ascii.eqb c " " = false /\ Ascii.eqb c "'" = false /\ Ascii.eqb c "034" = false /\ Ascii.eqb c "\" = false.
Proof.
  intros H. repeat split; apply Ascii.eqb_neq; intros ->; done.
Qed.

Lemma shLex_plain w rest :
  allBytes shPlain w = true -> w <> EmptyString ->
  shLex Unquoted (w +:+ rest) = shPrepend w (shLex Unquoted rest).
Proof.
  intros Hw Hne. induction w as [|c w IH]; [done|]. simpl in Hw.
  apply andb_true_iff in Hw as [Hc Hw].
  destruct (shPlain_tests c Hc) as (E1 & E2 & E3 & E4).
  change (String c w +:+ rest) with (String c (w +:+ rest)).
  simpl. rewrite E1, E2, E3, E4, Hc. destruct w as [|d w].
  - simpl. by destruct (shLex Unquoted rest) as [[w ws]|].
  - rewrite IH by done. apply shCons_prepend.
Qed.

Lemma shLex_double w rest :
  allBytes shDoubleSafe w = true ->
  shOpen (shLex Double (w +:+ dquote +:+ rest)) = shPrepend w (shLex Unquoted rest).
Proof.
  induction w as [|c w IH]; intros Hw.
  - change (shLex Double (EmptyString +:+ dquote +:+ rest)) with (shLex Unquoted rest).
    by destruct (shLex Unquoted rest) as [[w ws]|].
  - simpl in Hw. apply andb_true_iff in Hw as [Hc Hw].
    assert (Ascii.eqb c "034" = false) as Hq by (apply Ascii.eqb_neq; intros ->; done).
    change (String c w +:+ dquote +:+ rest) with (String c (w +:+ dquote +:+ rest)).
    simpl shLex. rewrite Hq, Hc, <-(shCons_prepend c w), <-(IH Hw).
    by destruct (shLex Double _) as [[[x|] ws]|].
Qed.

Lemma shLex_dquoted w rest :
  allBytes shDoubleSafe w = true ->
  shLex Unquoted (dquote +:+ w +:+ dquote +:+ rest) = shPrepend w (shLex Unquoted rest).
Proof. apply shLex_double. Qed.

Lemma shLex_space rest : shLex Unquoted (" " +:+ rest) = shBreak (shLex Unquoted rest).
Proof. done. Qed.

(** The text [x] reads as (part of) the one word [w]. *)
Definition shReads (x w : string) : Prop :=
  forall rest, shLex Unquoted (x +:+ rest) = shPrepend w (shLex Unquoted rest).

Lemma shReads_app x w x' w' : shReads x w -> shReads x' w' -> shReads (x +:+ x') (w +:+ w').
Proof.
  intros H H' rest. rewrite string_app_assoc, H, H'.
  destruct (shLex Unquoted rest) as [[u ws]|]; simpl; [|done]. by rewrite string_app_assoc.
Qed.

Lemma shReads_plain w : allBytes shPlain w = true -> w <> EmptyString -> shReads w w.
Proof. intros ?? rest. by apply shLex_plain. Qed.

Lemma shReads_quote s : shReads (shellQuoteArg s) s.
Proof. intros rest. apply shLex_quote. Qed.

Lemma shReads_dquote w : allBytes shDoubleSafe w = true -> shReads (dquote +:+ w +:+ dquote) w.
Proof. intros H rest. rewrite !string_app_assoc. by apply shLex_dquoted. Qed.

(** A space-separated tail of a command line reads as the words [ws]. *)
Definition shTail (s : string) (ws : list string) : Prop :=
  shLex Unquoted s = Some (None, ws).

Lemma shTail_word x w s ws : shReads x w -> shTail s ws -> shTail (" " +:+ x +:+ s) (w :: ws).
Proof.
  unfold shTail. intros Hw Hs. rewrite shLex_space, Hw, Hs. simpl.
  by rewrite string_app_nil_r.
Qed.

Lemma fold_left_app_string (names : list string) (f : string -> string) cmd :
  fold_left (fun cmd name => if String.eqb name EmptyString then cmd else cmd +:+ f name) names cmd
  = cmd +:+ fold_right (fun name acc => if String.eqb name EmptyString then acc else f name +:+ acc)
      EmptyString names.
Proof.
  revert cmd. induction names as [|n names IH]; intros cmd; simpl; [by rewrite string_app_nil_r|].
  rewrite IH. destruct (String.eqb n EmptyString); [done|]. by rewrite string_app_assoc.
Qed.

Definition nonEmpty (s : string) : bool := negb (String.eqb s EmptyString).

Lemma shTail_names names :
  Forall (fun n => allBytes shDoubleSafe n = true) names ->
  shTail (fold_right (fun name acc => if String.eqb name EmptyString then acc
                        else (" " +:+ dquote +:+ name +:+ dquote) +:+ acc) EmptyString names)
    (List.filter nonEmpty names).
Proof.
  induction 1 as [|n names Hn _ IH]; [done|]. simpl. unfold nonEmpty at 1.
  destruct (String.eqb n EmptyString); [done|]. simpl negb. cbv iota.
  exact (shTail_word _ _ _ _ (shReads_dquote n Hn) IH).
Qed.

(** The backup command the pod's shell runs is exactly neo4j-admin with one
    argument per part: no byte of the backup path (assembled from spec fields)
    is ever interpreted by the shell, and the source addresses and database
    names are not either while they hold no shell metacharacter. *)
Theorem GetBackupCommand_words (names : list string) (path : string) (all : bool) (addrs : string) :
  allBytes shPlain addrs = true -> Forall (fun n => allBytes shDoubleSafe n = true) names ->
  shWords (GetBackupCommandForDatabases names path all addrs) =
  Some (["neo4j-admin"; "database"; "backup"]
        ++ (if String.eqb addrs EmptyString then [] else ["--from=" +:+ addrs])
        ++ ["--to-path=" +:+ path]
        ++ if all then ["*"] else List.filter nonEmpty names).
Proof.
  intros Ha Hn.
  set (tail := if all then " " +:+ dquote +:+ "*" +:+ dquote else
    fold_right (fun name acc => if String.eqb name EmptyString then acc
                  else (" " +:+ dquote +:+ name +:+ dquote) +:+ acc) EmptyString names).
  set (ws := if all then ["*"] else List.filter nonEmpty names).
  assert (Ht : shTail tail ws).
  { unfold tail, ws. destruct all; [done|]. by apply shTail_names. }
  assert (Hpath : shTail (" " +:+ ("--to-path=" +:+ shellQuoteArg path) +:+ tail)
    (("--to-path=" +:+ path) :: ws)).
  { apply shTail_word; [|done]. apply shReads_app; [by apply shReads_plain|apply shReads_quote]. }
  set (from := if String.eqb addrs EmptyString then [] else ["--from=" +:+ addrs]).
  set (pre := if String.eqb addrs EmptyString then EmptyString else " --from=" +:+ addrs).
  assert (Hfrom : shTail (pre +:+ " " +:+ ("--to-path=" +:+ shellQuoteArg path) +:+ tail)
    (from ++ ("--to-path=" +:+ path) :: ws)).
  { unfold pre, from. destruct (String.eqb addrs EmptyString); [done|].
    apply (shTail_word ("--from=" +:+ addrs)); [|done]. apply shReads_plain; [|done].
    by rewrite allBytes_app, Ha. }
  assert (Hcmd : GetBackupCommandForDatabases names path all addrs =
    "neo4j-admin" +:+ " " +:+ "database" +:+ " " +:+ "backup"
      +:+ pre +:+ " " +:+ ("--to-path=" +:+ shellQuoteArg path) +:+ tail).
  { unfold GetBackupCommandForDatabases, pre, tail.
    rewrite (fold_left_app_string names (fun name => " " +:+ dquote +:+ name +:+ dquote)).
    destruct all, (String.eqb addrs EmptyString); rewrite ?string_app_assoc; reflexivity. }
  unfold shWords. rewrite Hcmd.
  rewrite (shReads_plain "neo4j-admin") by done.
  rewrite (shTail_word "database" "database" _ ("backup" :: from ++ ("--to-path=" +:+ path) :: ws));
    [reflexivity|by apply shReads_plain|].
  by apply (shTail_word "backup" "backup"); [apply shReads_plain|].
Qed.

Lemma GetBackupCommand_words_witness :
  shWords (GetBackupCommandForDatabases ["products-g*"; "products-p*"] "/backups/$(id) it's" false "a:6362,b:6362")
  = Some ["neo4j-admin"; "database"; "backup"; "--from=a:6362,b:6362";
          "--to-path=/backups/$(id) it's"; "products-g*"; "products-p*"].
Proof.
  apply (GetBackupCommand_words ["products-g*"; "products-p*"] "/backups/$(id) it's" false "a:6362,b:6362");
    [reflexivity|repeat constructor].
Defined.
