(* ===== verification/GoNet.v ===== *)
(** What the controller uses of Go's net package: [net.SplitHostPort] and
    whether [net.ParseIP] accepts a string. *)
From S2P Require Import Prelude GoStrings.

Open Scope Z_scope.

Module net.

Definition indexByte (s : string) (c : ascii) : option nat := strings.Index s (String c EmptyString).

Definition hasByte (s : string) (c : ascii) : bool := strings.Contains s (String c EmptyString).

Definition startsWith (s : string) (c : ascii) : bool :=
  match s with String d _ => Ascii.eqb d c | EmptyString => false end.

(** The host and port of "host:port" or "[host]:port"; [None] for an error. *)
Definition SplitHostPort (hostport : string) : option (string * string) :=
  match strings.LastIndexByte hostport ":" with
  | None => None
  | Some i =>
      let port := strings.from (S i) hostport in
      if startsWith hostport "[" then
        match indexByte hostport "]" with
        | None => None
        | Some end_ =>
            if negb (Nat.eqb (S end_) i) then None
            else if hasByte (strings.from 1 hostport) "[" then None
            else if hasByte (strings.from (S end_) hostport) "]" then None
            else Some (strings.upto (end_ - 1) (strings.from 1 hostport), port)
        end
      else
        let host := strings.upto i hostport in
        if hasByte host ":" || hasByte hostport "[" || hasByte hostport "]" then None
        else Some (host, port)
  end.

(** One octet: digits, no leading zero, at most 255. *)
Definition octet (s : string) : bool :=
  match s with
  | EmptyString => false
  | String "0" (String _ _) => false
  | _ => match strconv.digits 0 s with Some v => v <=? 255 | None => false end
  end.

Definition isIPv4 (s : string) : bool :=
  let parts := strings.Split s "." in
  Nat.eqb (length parts) 4 && forallb octet parts.

Definition hexDigit (c : ascii) : bool :=
  let n := N_of_ascii c in
  ((48 <=? n) && (n <=? 57) || (97 <=? n) && (n <=? 102) || (65 <=? n) && (n <=? 70))%N.

(** The leading hexadecimal digits of [s], and what follows them. *)
Fixpoint hexGroup (s : string) : nat * string :=
  match s with
  | EmptyString => (O, EmptyString)
  | String c s' => if hexDigit c then let '(n, r) := hexGroup s' in (S n, r) else (O, s)
  end.

(** The loop over groups: [i] is the bytes parsed so far, [ellipsis] whether
    "::" was seen; at most 8 groups, so fuel 8 is enough. *)
Fixpoint ipv6Groups (fuel : nat) (i : nat) (ellipsis : bool) (s : string) : bool :=
  let finish i ellipsis s :=
    String.eqb s EmptyString && (if Nat.ltb i 16 then ellipsis else negb ellipsis) in
  match fuel with
  | O => finish i ellipsis s
  | S fuel' =>
      let '(off, rest) := hexGroup s in
      if Nat.eqb off 0 || Nat.ltb 4 off then false
      else
        match rest with
        | String "." _ =>
            if negb ellipsis && negb (Nat.eqb i 12) then false
            else if Nat.ltb 16 (i + 4) then false
            else isIPv4 s && finish (i + 4)%nat ellipsis EmptyString
        | EmptyString => finish (i + 2)%nat ellipsis EmptyString
        | String ":" EmptyString => false
        | String ":" (String ":" s') =>
            if ellipsis then false
            else if String.eqb s' EmptyString then finish (i + 2)%nat true EmptyString
            else ipv6Groups fuel' (i + 2)%nat true s'
        | String ":" s' => ipv6Groups fuel' (i + 2)%nat ellipsis s'
        | _ => false
        end
  end.

(** An IPv6 address without a zone. *)
Definition isIPv6 (s : string) : bool :=
  if strings.Contains s "%" then false
  else match s with
       | String ":" (String ":" EmptyString) => true
       | String ":" (String ":" s') => ipv6Groups 8 0 true s'
       | _ => ipv6Groups 8 0 false s
       end.

(** The first of '.', ':' and '%' says which kind of address it is. *)
Fixpoint addressKind (s : string) : option ascii :=
  match s with
  | EmptyString => None
  | String c s' => if strings.byteIn c ".:%" then Some c else addressKind s'
  end.

(** [net.ParseIP(s) != nil]. *)
Definition isIP (s : string) : bool :=
  match addressKind s with
  | Some "."%char => isIPv4 s
  | Some ":"%char => isIPv6 s
  | _ => false
  end.

End net.

(** A host without colons or brackets splits off its port. *)
Lemma SplitHostPort_host host port :
  allBytes (fun c => negb (Ascii.eqb c ":") && negb (Ascii.eqb c "[") && negb (Ascii.eqb c "]")) host = true ->
  allBytes (fun c => negb (Ascii.eqb c ":") && negb (Ascii.eqb c "[") && negb (Ascii.eqb c "]")) port = true ->
  net.SplitHostPort (host +:+ ":" +:+ port) = Some (host, port).
Proof.
  intros Hh Hp. unfold net.SplitHostPort, net.hasByte, strings.Contains.
  assert (Habs : forall c s, (c = ":" \/ c = "[" \/ c = "]")%char ->
    allBytes (fun c => negb (Ascii.eqb c ":") && negb (Ascii.eqb c "[") && negb (Ascii.eqb c "]")) s = true ->
    allBytes (fun d => negb (Ascii.eqb d c)) s = true).
  { intros c s Hc. apply allBytes_impl. intros d Hd. breflect.
    destruct Hc as [-> | [-> | ->]]; by apply negb_true_iff. }
  assert (Hall : forall c, (c = "[" \/ c = "]")%char ->
    strings.Index (host +:+ ":" +:+ port) (String c EmptyString) = None).
  { intros c Hc. apply Index_single_None. rewrite allBytes_app. simpl.
    rewrite !Habs by (done || tauto). by destruct Hc as [-> | ->]. }
  change (host +:+ ":" +:+ port) with (host +:+ String ":" port) in *.
  rewrite LastIndexByte_app by (apply Habs; [by left|done]).
  rewrite from_S_length_app, upto_length_app, !Hall by tauto.
  rewrite (Index_single_None ":" host) by (apply Habs; [by left|done]).
  destruct host as [|c host]; [done|]. simpl in Hh |- *. breflect.
  by destruct (Ascii.eqb c "[").
Qed.
