(* ===== verification/GoTime.v ===== *)
(** Durations as Go's package time reads them. A duration is its nanoseconds in
    [Z]; [ParseDuration] is time.ParseDuration, with the fraction of a unit
    ("1.5h") computed exactly and rounded down where Go multiplies in
    float64. *)
From S2P Require Import Prelude GoStrings.

Open Scope Z_scope.

Definition durationLimit : Z := 2 ^ 63.

(** [leadingInt]: the leading digits, [None] past 2^63. *)
Fixpoint leadingInt (x : Z) (s : string) : option (Z * string) :=
  match s with
  | EmptyString => Some (x, s)
  | String c s' =>
      match strconv.digit c with
      | None => Some (x, s)
      | Some d =>
          if durationLimit / 10 <? x then None
          else if durationLimit <? x * 10 + d then None
          else leadingInt (x * 10 + d) s'
      end
  end.

(** [leadingFraction]: the digits after the point as [f] over [scale]; the
    digits that would overflow are skipped. *)
Fixpoint leadingFraction (f scale : Z) (overflow : bool) (s : string) : Z * Z * string :=
  match s with
  | EmptyString => (f, scale, s)
  | String c s' =>
      match strconv.digit c with
      | None => (f, scale, s)
      | Some d =>
          if overflow then leadingFraction f scale true s'
          else if (durationLimit - 1) / 10 <? f then leadingFraction f scale true s'
          else if durationLimit <? f * 10 + d then leadingFraction f scale true s'
          else leadingFraction (f * 10 + d) (scale * 10) false s'
      end
  end.

Definition unitMap : list (string * Z) :=
  [("ns", 1); ("us", 1000);
   (String "194" (String "181" "s"), 1000); (String "206" (String "188" "s"), 1000);
   ("ms", 1000000); ("s", 1000000000); ("m", 60000000000); ("h", 3600000000000)].

Fixpoint lookupUnit (u : string) (l : list (string * Z)) : option Z :=
  match l with
  | [] => None
  | (k, n) :: l' => if String.eqb k u then Some n else lookupUnit u l'
  end.

(** The unit name: everything up to the next digit or point. *)
Fixpoint takeUnit (s : string) : string * string :=
  match s with
  | EmptyString => (EmptyString, EmptyString)
  | String c s' =>
      if isDigit c || Ascii.eqb c "." then (EmptyString, s)
      else let '(u, r) := takeUnit s' in (String c u, r)
  end.

(** One number and its unit: what it adds, and the rest. *)
Definition durationPart (s : string) : option (Z * string) :=
  match leadingInt 0 s with
  | None => None
  | Some (v, s1) =>
      let pre := negb (Nat.eqb (String.length s) (String.length s1)) in
      let '(f, scale, s2, post) :=
        match s1 with
        | String c s1' =>
            if Ascii.eqb c "." then
              let '(f, scale, s2) := leadingFraction 0 1 false s1' in
              (f, scale, s2, negb (Nat.eqb (String.length s1') (String.length s2)))
            else (0, 1, s1, false)
        | EmptyString => (0, 1, s1, false)
        end in
      if negb pre && negb post then None
      else
        let '(u, rest) := takeUnit s2 in
        match lookupUnit u unitMap with
        | None => None
        | Some unit =>
            if durationLimit / unit <? v then None
            else
              let v' := v * unit + f * unit / scale in
              if durationLimit <? v' then None else Some (v', rest)
        end
  end.

Fixpoint durationParts (fuel : nat) (d : Z) (s : string) : option Z :=
  match s with
  | EmptyString => Some d
  | _ =>
      match fuel with
      | O => None
      | S fuel' =>
          match durationPart s with
          | None => None
          | Some (v, rest) =>
              if durationLimit <? d + v then None else durationParts fuel' (d + v) rest
          end
      end
  end.

(** Each part consumes a unit of at least one byte, so the length of the text
    is fuel enough. *)
Definition ParseDuration (s : string) : option Z :=
  let '(neg, s') :=
    match s with
    | String c r =>
        if Ascii.eqb c "-" then (true, r) else if Ascii.eqb c "+" then (false, r) else (false, s)
    | EmptyString => (false, s)
    end in
  if String.eqb s' "0" then Some 0
  else match s' with
       | EmptyString => None
       | _ =>
           match durationParts (String.length s') 0 s' with
           | None => None
           | Some d =>
               if (neg : bool) then Some (- d)
               else if durationLimit - 1 <? d then None else Some d
           end
       end.

(** * Lemmas *)

Lemma takeUnit_length s u r :
  takeUnit s = (u, r) -> String.length s = (String.length u + String.length r)%nat.
Proof.
  revert u r. induction s as [|c s IH]; intros u r; simpl; [by intros [= <- <-]|].
  destruct (isDigit c || Ascii.eqb c "."); [by intros [= <- <-]|].
  destruct (takeUnit s) as [u' r'] eqn:E. intros [= <- <-]. simpl. by rewrite (IH u' r').
Qed.

Lemma leadingInt_length x s v r :
  leadingInt x s = Some (v, r) -> (String.length r <= String.length s)%nat.
Proof.
  revert x. induction s as [|c s IH]; intros x; simpl; [by intros [= <- <-]|].
  destruct (strconv.digit c); [|by intros [= <- <-]].
  destruct (durationLimit / 10 <? x); [done|]. destruct (durationLimit <? _); [done|].
  intros H%IH. lia.
Qed.

Lemma leadingFraction_length f sc o s f' sc' r :
  leadingFraction f sc o s = (f', sc', r) -> (String.length r <= String.length s)%nat.
Proof.
  revert f sc o. induction s as [|c s IH]; intros f sc o; simpl; [by intros [= <- <- <-]|].
  destruct (strconv.digit c); [|by intros [= <- <- <-]].
  destruct o; [intros H%IH; lia|].
  destruct (_ <? f); [intros H%IH; lia|]. destruct (_ <? _); intros H%IH; lia.
Qed.

Lemma durationPart_consumes s v r :
  durationPart s = Some (v, r) -> (String.length r < String.length s)%nat.
Proof.
  unfold durationPart. destruct (leadingInt 0 s) as [[v0 s1]|] eqn:E1; [|done].
  apply leadingInt_length in E1.
  set (q := match s1 with EmptyString => _ | _ => _ end).
  assert (Hq : forall f sc s2 post, q = (f, sc, s2, post) -> (String.length s2 <= String.length s1)%nat).
  { intros f sc s2 post. unfold q. destruct s1 as [|c s1]; [by intros [= <- <- <- <-]|].
    destruct (Ascii.eqb c "."); [|by intros [= <- <- <- <-]].
    destruct (leadingFraction 0 1 false s1) as [[f' sc'] s2'] eqn:E. intros [= <- <- <- <-].
    apply leadingFraction_length in E. simpl. lia. }
  destruct q as [[[f sc] s2] post]. specialize (Hq _ _ _ _ eq_refl).
  destruct (_ && _); [done|]. destruct (takeUnit s2) as [u rest] eqn:Eu.
  apply takeUnit_length in Eu.
  destruct (lookupUnit u unitMap) as [unit|] eqn:El; [|done].
  assert (u <> EmptyString) by (intros ->; done).
  destruct (_ <? v0); [done|]. destruct (_ <? _); [done|]. intros [= <- <-].
  destruct u; [done|]. simpl in Eu. lia.
Qed.

(** With the length of the text as fuel, [durationParts] never runs out of it:
    more fuel gives the same answer. *)
Lemma durationParts_fuel n m d s :
  (String.length s <= n)%nat -> (n <= m)%nat -> durationParts m d s = durationParts n d s.
Proof.
  revert m d s. induction n as [|n IH]; intros m d s Hs Hm.
  - destruct s; [by destruct m|simpl in Hs; lia].
  - destruct m as [|m]; [lia|]. simpl. destruct s as [|c s]; [done|].
    destruct (durationPart (String c s)) as [[v r]|] eqn:E; [|done].
    apply durationPart_consumes in E. destruct (durationLimit <? d + v); [done|].
    simpl in *. apply IH; lia.
Qed.
