(* ===== verification/ClusterTypes.v ===== *)
(** The data the cluster controller works on: the Neo4jEnterpriseCluster
    resource (src/api/v1beta1/neo4jenterprisecluster_types.go), the rows of SHOW
    SERVERS, and the parts of the Kubernetes objects the modelled code reads or
    writes. A pointer that may be nil is an [option]; a time is its nanoseconds
    since the epoch, in [Z]; int32 and int64 fields are [Z]. The [set_] functions
    assign one field. *)
From S2P Require Import Prelude GoStrings.

Open Scope Z_scope.

(** One row of SHOW SERVERS as the client returns it
    ([ServerInfo], src/internal/neo4j/client.go). *)
Record ServerInfo := mkServerInfo {
  si_ID : string;
  si_Name : string;
  si_Address : string;
  si_State : string;
  si_Health : string;
  si_Hosting : list string;
  si_Version : string
}.

(** [metav1.Condition]. *)
Record Condition := mkCondition {
  c_Type : string;
  c_Status : string;
  c_ObservedGeneration : Z;
  c_LastTransitionTime : Z;
  c_Reason : string;
  c_Message : string
}.

Definition set_c_ObservedGeneration (v : Z) (s : Condition) : Condition :=
  mkCondition (c_Type s) (c_Status s) v (c_LastTransitionTime s) (c_Reason s) (c_Message s).

Definition set_c_Message (v : string) (s : Condition) : Condition :=
  mkCondition (c_Type s) (c_Status s) (c_ObservedGeneration s) (c_LastTransitionTime s) (c_Reason s) v.

(** [NodeUpgradeProgress]. *)
Record NodeUpgradeProgress := mkNodeUpgradeProgress {
  np_Total : Z;
  np_Upgraded : Z;
  np_InProgress : Z;
  np_Pending : Z;
  np_CurrentLeader : string
}.

(** [UpgradeProgress]: how far the walk has come. *)
Record UpgradeProgress := mkUpgradeProgress {
  up_Total : Z;
  up_Upgraded : Z;
  up_InProgress : Z;
  up_Pending : Z;
  up_Servers : option NodeUpgradeProgress
}.

Definition set_up_Total (v : Z) (s : UpgradeProgress) : UpgradeProgress :=
  mkUpgradeProgress v (up_Upgraded s) (up_InProgress s) (up_Pending s) (up_Servers s).

(** [UpgradeStatus]: the upgrade record, status.upgradeStatus. *)
Record UpgradeStatus := mkUpgradeStatus {
  us_Phase : string;
  us_StartTime : option Z;
  us_StepStartTime : option Z;
  us_PhaseStartTime : option Z;
  us_CurrentPartition : option Z;
  us_CompletionTime : option Z;
  us_CurrentStep : string;
  us_PreviousVersion : string;
  us_TargetVersion : string;
  us_ResolvedTargetVersion : string;
  us_StartedTargetVersion : string;
  us_Progress : option UpgradeProgress;
  us_Message : string;
  us_LastError : string
}.

Definition set_us_Phase (v : string) (s : UpgradeStatus) : UpgradeStatus :=
  mkUpgradeStatus v (us_StartTime s) (us_StepStartTime s) (us_PhaseStartTime s) (us_CurrentPartition s) (us_CompletionTime s) (us_CurrentStep s) (us_PreviousVersion s) (us_TargetVersion s) (us_ResolvedTargetVersion s) (us_StartedTargetVersion s) (us_Progress s) (us_Message s) (us_LastError s).

Definition set_us_StartTime (v : option Z) (s : UpgradeStatus) : UpgradeStatus :=
  mkUpgradeStatus (us_Phase s) v (us_StepStartTime s) (us_PhaseStartTime s) (us_CurrentPartition s) (us_CompletionTime s) (us_CurrentStep s) (us_PreviousVersion s) (us_TargetVersion s) (us_ResolvedTargetVersion s) (us_StartedTargetVersion s) (us_Progress s) (us_Message s) (us_LastError s).

Definition set_us_StepStartTime (v : option Z) (s : UpgradeStatus) : UpgradeStatus :=
  mkUpgradeStatus (us_Phase s) (us_StartTime s) v (us_PhaseStartTime s) (us_CurrentPartition s) (us_CompletionTime s) (us_CurrentStep s) (us_PreviousVersion s) (us_TargetVersion s) (us_ResolvedTargetVersion s) (us_StartedTargetVersion s) (us_Progress s) (us_Message s) (us_LastError s).

Definition set_us_PhaseStartTime (v : option Z) (s : UpgradeStatus) : UpgradeStatus :=
  mkUpgradeStatus (us_Phase s) (us_StartTime s) (us_StepStartTime s) v (us_CurrentPartition s) (us_CompletionTime s) (us_CurrentStep s) (us_PreviousVersion s) (us_TargetVersion s) (us_ResolvedTargetVersion s) (us_StartedTargetVersion s) (us_Progress s) (us_Message s) (us_LastError s).

Definition set_us_CurrentPartition (v : option Z) (s : UpgradeStatus) : UpgradeStatus :=
  mkUpgradeStatus (us_Phase s) (us_StartTime s) (us_StepStartTime s) (us_PhaseStartTime s) v (us_CompletionTime s) (us_CurrentStep s) (us_PreviousVersion s) (us_TargetVersion s) (us_ResolvedTargetVersion s) (us_StartedTargetVersion s) (us_Progress s) (us_Message s) (us_LastError s).

Definition set_us_CompletionTime (v : option Z) (s : UpgradeStatus) : UpgradeStatus :=
  mkUpgradeStatus (us_Phase s) (us_StartTime s) (us_StepStartTime s) (us_PhaseStartTime s) (us_CurrentPartition s) v (us_CurrentStep s) (us_PreviousVersion s) (us_TargetVersion s) (us_ResolvedTargetVersion s) (us_StartedTargetVersion s) (us_Progress s) (us_Message s) (us_LastError s).

Definition set_us_CurrentStep (v : string) (s : UpgradeStatus) : UpgradeStatus :=
  mkUpgradeStatus (us_Phase s) (us_StartTime s) (us_StepStartTime s) (us_PhaseStartTime s) (us_CurrentPartition s) (us_CompletionTime s) v (us_PreviousVersion s) (us_TargetVersion s) (us_ResolvedTargetVersion s) (us_StartedTargetVersion s) (us_Progress s) (us_Message s) (us_LastError s).

Definition set_us_PreviousVersion (v : string) (s : UpgradeStatus) : UpgradeStatus :=
  mkUpgradeStatus (us_Phase s) (us_StartTime s) (us_StepStartTime s) (us_PhaseStartTime s) (us_CurrentPartition s) (us_CompletionTime s) (us_CurrentStep s) v (us_TargetVersion s) (us_ResolvedTargetVersion s) (us_StartedTargetVersion s) (us_Progress s) (us_Message s) (us_LastError s).

Definition set_us_TargetVersion (v : string) (s : UpgradeStatus) : UpgradeStatus :=
  mkUpgradeStatus (us_Phase s) (us_StartTime s) (us_StepStartTime s) (us_PhaseStartTime s) (us_CurrentPartition s) (us_CompletionTime s) (us_CurrentStep s) (us_PreviousVersion s) v (us_ResolvedTargetVersion s) (us_StartedTargetVersion s) (us_Progress s) (us_Message s) (us_LastError s).

Definition set_us_ResolvedTargetVersion (v : string) (s : UpgradeStatus) : UpgradeStatus :=
  mkUpgradeStatus (us_Phase s) (us_StartTime s) (us_StepStartTime s) (us_PhaseStartTime s) (us_CurrentPartition s) (us_CompletionTime s) (us_CurrentStep s) (us_PreviousVersion s) (us_TargetVersion s) v (us_StartedTargetVersion s) (us_Progress s) (us_Message s) (us_LastError s).

Definition set_us_StartedTargetVersion (v : string) (s : UpgradeStatus) : UpgradeStatus :=
  mkUpgradeStatus (us_Phase s) (us_StartTime s) (us_StepStartTime s) (us_PhaseStartTime s) (us_CurrentPartition s) (us_CompletionTime s) (us_CurrentStep s) (us_PreviousVersion s) (us_TargetVersion s) (us_ResolvedTargetVersion s) v (us_Progress s) (us_Message s) (us_LastError s).

Definition set_us_Progress (v : option UpgradeProgress) (s : UpgradeStatus) : UpgradeStatus :=
  mkUpgradeStatus (us_Phase s) (us_StartTime s) (us_StepStartTime s) (us_PhaseStartTime s) (us_CurrentPartition s) (us_CompletionTime s) (us_CurrentStep s) (us_PreviousVersion s) (us_TargetVersion s) (us_ResolvedTargetVersion s) (us_StartedTargetVersion s) v (us_Message s) (us_LastError s).

Definition set_us_Message (v : string) (s : UpgradeStatus) : UpgradeStatus :=
  mkUpgradeStatus (us_Phase s) (us_StartTime s) (us_StepStartTime s) (us_PhaseStartTime s) (us_CurrentPartition s) (us_CompletionTime s) (us_CurrentStep s) (us_PreviousVersion s) (us_TargetVersion s) (us_ResolvedTargetVersion s) (us_StartedTargetVersion s) (us_Progress s) v (us_LastError s).

Definition set_us_LastError (v : string) (s : UpgradeStatus) : UpgradeStatus :=
  mkUpgradeStatus (us_Phase s) (us_StartTime s) (us_StepStartTime s) (us_PhaseStartTime s) (us_CurrentPartition s) (us_CompletionTime s) (us_CurrentStep s) (us_PreviousVersion s) (us_TargetVersion s) (us_ResolvedTargetVersion s) (us_StartedTargetVersion s) (us_Progress s) (us_Message s) v.

(** [UpgradeStrategySpec]: spec.upgradeStrategy. *)
Record UpgradeStrategySpec := mkUpgradeStrategySpec {
  st_Strategy : string;
  st_PreUpgradeHealthCheck : bool;
  st_MaxUnavailableDuringUpgrade : option Z;
  st_UpgradeTimeout : string;
  st_PostUpgradeHealthCheck : bool;
  st_HealthCheckTimeout : string;
  st_StabilizationTimeout : string;
  st_AutoPauseOnFailure : bool
}.

(** The fields of spec the modelled code reads: spec.image.repo, spec.image.tag,
    spec.topology.servers and spec.upgradeStrategy. *)
Record ClusterSpec := mkClusterSpec {
  sp_ImageRepo : string;
  sp_ImageTag : string;
  sp_Servers : Z;
  sp_UpgradeStrategy : option UpgradeStrategySpec
}.

Definition set_sp_Servers (v : Z) (s : ClusterSpec) : ClusterSpec :=
  mkClusterSpec (sp_ImageRepo s) (sp_ImageTag s) v (sp_UpgradeStrategy s).

(** One server of status.diagnostics.servers ([ServerDiagnosticInfo]). *)
Record ServerDiagnosticInfo := mkServerDiagnosticInfo {
  sd_Name : string;
  sd_Address : string;
  sd_State : string;
  sd_Health : string;
  sd_HostingDatabases : Z
}.

(** The fields of status the modelled code reads or writes.
    [cs_Diagnostics] is status.diagnostics.servers, [None] without
    diagnostics; [cs_Replicas] is status.replicas, the servers asked for and ready. *)
Record ClusterStatus := mkClusterStatus {
  cs_Phase : string;
  cs_Message : string;
  cs_Version : string;
  cs_RunningVersion : string;
  cs_LastUpgradeTime : option Z;
  cs_UpgradeStatus : option UpgradeStatus;
  cs_Conditions : list Condition;
  cs_Diagnostics : option (list ServerDiagnosticInfo);
  cs_Ready : bool;
  cs_ObservedGeneration : Z;
  cs_Replicas : option (Z * Z)
}.

Definition set_cs_Phase (v : string) (s : ClusterStatus) : ClusterStatus :=
  mkClusterStatus v (cs_Message s) (cs_Version s) (cs_RunningVersion s) (cs_LastUpgradeTime s) (cs_UpgradeStatus s) (cs_Conditions s) (cs_Diagnostics s) (cs_Ready s) (cs_ObservedGeneration s) (cs_Replicas s).

Definition set_cs_Message (v : string) (s : ClusterStatus) : ClusterStatus :=
  mkClusterStatus (cs_Phase s) v (cs_Version s) (cs_RunningVersion s) (cs_LastUpgradeTime s) (cs_UpgradeStatus s) (cs_Conditions s) (cs_Diagnostics s) (cs_Ready s) (cs_ObservedGeneration s) (cs_Replicas s).

Definition set_cs_Version (v : string) (s : ClusterStatus) : ClusterStatus :=
  mkClusterStatus (cs_Phase s) (cs_Message s) v (cs_RunningVersion s) (cs_LastUpgradeTime s) (cs_UpgradeStatus s) (cs_Conditions s) (cs_Diagnostics s) (cs_Ready s) (cs_ObservedGeneration s) (cs_Replicas s).

Definition set_cs_RunningVersion (v : string) (s : ClusterStatus) : ClusterStatus :=
  mkClusterStatus (cs_Phase s) (cs_Message s) (cs_Version s) v (cs_LastUpgradeTime s) (cs_UpgradeStatus s) (cs_Conditions s) (cs_Diagnostics s) (cs_Ready s) (cs_ObservedGeneration s) (cs_Replicas s).

Definition set_cs_LastUpgradeTime (v : option Z) (s : ClusterStatus) : ClusterStatus :=
  mkClusterStatus (cs_Phase s) (cs_Message s) (cs_Version s) (cs_RunningVersion s) v (cs_UpgradeStatus s) (cs_Conditions s) (cs_Diagnostics s) (cs_Ready s) (cs_ObservedGeneration s) (cs_Replicas s).

Definition set_cs_UpgradeStatus (v : option UpgradeStatus) (s : ClusterStatus) : ClusterStatus :=
  mkClusterStatus (cs_Phase s) (cs_Message s) (cs_Version s) (cs_RunningVersion s) (cs_LastUpgradeTime s) v (cs_Conditions s) (cs_Diagnostics s) (cs_Ready s) (cs_ObservedGeneration s) (cs_Replicas s).

Definition set_cs_Conditions (v : list Condition) (s : ClusterStatus) : ClusterStatus :=
  mkClusterStatus (cs_Phase s) (cs_Message s) (cs_Version s) (cs_RunningVersion s) (cs_LastUpgradeTime s) (cs_UpgradeStatus s) v (cs_Diagnostics s) (cs_Ready s) (cs_ObservedGeneration s) (cs_Replicas s).

Definition set_cs_Diagnostics (v : option (list ServerDiagnosticInfo)) (s : ClusterStatus) : ClusterStatus :=
  mkClusterStatus (cs_Phase s) (cs_Message s) (cs_Version s) (cs_RunningVersion s) (cs_LastUpgradeTime s) (cs_UpgradeStatus s) (cs_Conditions s) v (cs_Ready s) (cs_ObservedGeneration s) (cs_Replicas s).

Definition set_cs_Ready (v : bool) (s : ClusterStatus) : ClusterStatus :=
  mkClusterStatus (cs_Phase s) (cs_Message s) (cs_Version s) (cs_RunningVersion s) (cs_LastUpgradeTime s) (cs_UpgradeStatus s) (cs_Conditions s) (cs_Diagnostics s) v (cs_ObservedGeneration s) (cs_Replicas s).

Definition set_cs_ObservedGeneration (v : Z) (s : ClusterStatus) : ClusterStatus :=
  mkClusterStatus (cs_Phase s) (cs_Message s) (cs_Version s) (cs_RunningVersion s) (cs_LastUpgradeTime s) (cs_UpgradeStatus s) (cs_Conditions s) (cs_Diagnostics s) (cs_Ready s) v (cs_Replicas s).

Definition set_cs_Replicas (v : option (Z * Z)) (s : ClusterStatus) : ClusterStatus :=
  mkClusterStatus (cs_Phase s) (cs_Message s) (cs_Version s) (cs_RunningVersion s) (cs_LastUpgradeTime s) (cs_UpgradeStatus s) (cs_Conditions s) (cs_Diagnostics s) (cs_Ready s) (cs_ObservedGeneration s) v.

(** A Neo4jEnterpriseCluster: its metadata, spec and status. *)
Record Cluster := mkCluster {
  cl_Name : string;
  cl_Namespace : string;
  cl_Generation : Z;
  cl_Annotations : gmap string string;
  cl_Spec : ClusterSpec;
  cl_Status : ClusterStatus
}.

Definition set_cl_Annotations (v : gmap string string) (s : Cluster) : Cluster :=
  mkCluster (cl_Name s) (cl_Namespace s) (cl_Generation s) v (cl_Spec s) (cl_Status s).

Definition set_cl_Spec (v : ClusterSpec) (s : Cluster) : Cluster :=
  mkCluster (cl_Name s) (cl_Namespace s) (cl_Generation s) (cl_Annotations s) v (cl_Status s).

Definition set_cl_Status (v : ClusterStatus) (s : Cluster) : Cluster :=
  mkCluster (cl_Name s) (cl_Namespace s) (cl_Generation s) (cl_Annotations s) (cl_Spec s) v.

(** What the modelled code reads and writes of the server StatefulSet:
    spec.replicas, the template's containers (name and image), the RollingUpdate
    strategy ([None] without one) and its partition, and the rollout counters of
    its status. *)
Record StatefulSet := mkStatefulSet {
  sts_Name : string;
  sts_Annotations : gmap string string;
  sts_Generation : Z;
  sts_Replicas : option Z;
  sts_Containers : list (string * string);
  sts_RollingUpdate : option (option Z);
  sts_ObservedGeneration : Z;
  sts_UpdatedReplicas : Z;
  sts_ReadyReplicas : Z;
  sts_CurrentRevision : string;
  sts_UpdateRevision : string
}.

Definition set_sts_Annotations (v : gmap string string) (s : StatefulSet) : StatefulSet :=
  mkStatefulSet (sts_Name s) v (sts_Generation s) (sts_Replicas s) (sts_Containers s) (sts_RollingUpdate s) (sts_ObservedGeneration s) (sts_UpdatedReplicas s) (sts_ReadyReplicas s) (sts_CurrentRevision s) (sts_UpdateRevision s).

Definition set_sts_Generation (v : Z) (s : StatefulSet) : StatefulSet :=
  mkStatefulSet (sts_Name s) (sts_Annotations s) v (sts_Replicas s) (sts_Containers s) (sts_RollingUpdate s) (sts_ObservedGeneration s) (sts_UpdatedReplicas s) (sts_ReadyReplicas s) (sts_CurrentRevision s) (sts_UpdateRevision s).

Definition set_sts_Containers (v : list (string * string)) (s : StatefulSet) : StatefulSet :=
  mkStatefulSet (sts_Name s) (sts_Annotations s) (sts_Generation s) (sts_Replicas s) v (sts_RollingUpdate s) (sts_ObservedGeneration s) (sts_UpdatedReplicas s) (sts_ReadyReplicas s) (sts_CurrentRevision s) (sts_UpdateRevision s).

Definition set_sts_Replicas (v : option Z) (s : StatefulSet) : StatefulSet :=
  mkStatefulSet (sts_Name s) (sts_Annotations s) (sts_Generation s) v (sts_Containers s) (sts_RollingUpdate s) (sts_ObservedGeneration s) (sts_UpdatedReplicas s) (sts_ReadyReplicas s) (sts_CurrentRevision s) (sts_UpdateRevision s).

Definition set_sts_RollingUpdate (v : option (option Z)) (s : StatefulSet) : StatefulSet :=
  mkStatefulSet (sts_Name s) (sts_Annotations s) (sts_Generation s) (sts_Replicas s) (sts_Containers s) v (sts_ObservedGeneration s) (sts_UpdatedReplicas s) (sts_ReadyReplicas s) (sts_CurrentRevision s) (sts_UpdateRevision s).

(** [corev1.ContainerStatus]: whether it is ready, whether it runs, the exit
    code it terminated with, the reason it waits for, the exit code of its last
    termination, and its restarts. *)
Record ContainerStatus := mkContainerStatus {
  ct_Name : string;
  ct_Ready : bool;
  ct_Running : bool;
  ct_Terminated : option Z;
  ct_Waiting : option string;
  ct_LastTerminated : option Z;
  ct_RestartCount : Z
}.

(** What the modelled code reads of a server pod: [pod_Revision] is the label
    controller-revision-hash, empty when absent; [pod_Containers] are names and
    images. *)
Record Pod := mkPod {
  pod_Name : string;
  pod_Revision : string;
  pod_Deleting : bool;
  pod_Containers : list (string * string);
  pod_Phase : string;
  pod_Conditions : list (string * string);
  pod_InitContainerStatuses : list ContainerStatus;
  pod_ContainerStatuses : list ContainerStatus
}.

Definition set_pod_Deleting (v : bool) (s : Pod) : Pod :=
  mkPod (pod_Name s) (pod_Revision s) v (pod_Containers s) (pod_Phase s) (pod_Conditions s) (pod_InitContainerStatuses s) (pod_ContainerStatuses s).

(** * Phases of a cluster (src/api/v1beta1/phases.go) *)
Definition PhaseReady : string := "Ready".
Definition PhaseDegraded : string := "Degraded".
Definition PhaseForming : string := "Forming".

(** * Phases of an upgrade *)
Definition upgradePhaseStaging : string := "Staging".
Definition upgradePhaseRolling : string := "Rolling".
Definition upgradePhaseStabilizing : string := "Stabilizing".
Definition upgradePhaseVerifying : string := "Verifying".
Definition upgradePhaseCompleted : string := "Completed".
Definition upgradePhaseFailed : string := "Failed".
Definition upgradePhasePaused : string := "Paused".
Definition upgradePhaseLegacyInProgress : string := "InProgress".

(** An empty upgrade record, [&UpgradeStatus{}]. *)
Definition emptyUpgradeStatus : UpgradeStatus :=
  mkUpgradeStatus EmptyString None None None None None EmptyString EmptyString EmptyString
    EmptyString EmptyString None EmptyString EmptyString.

Definition nanosecond : Z := 1.
Definition second : Z := 1000000000.
Definition minute : Z := 60 * second.
