(* ===== verification/GoRFC3339.v ===== *)
(** RFC 3339 times as Go's time package writes and reads them: the layout
    "2006-01-02T15:04:05.000000000Z07:00" and time.RFC3339 in UTC, and
    [time.Parse] with time.RFC3339Nano. A time is its nanoseconds since the Unix
    epoch. [time.Parse] is as lenient as Go's: an hour of one digit, a comma
    before the fraction and an offset of 24 hours are accepted. *)
From S2P Require Import Prelude GoStrings ClusterTypes.

Open Scope Z_scope.

Module gotime.

(** * Civil dates of the proleptic Gregorian calendar *)

(** Days since the epoch of a date; years are counted from March. *)
Definition daysOfEra (yoe doy : Z) : Z := yoe * 365 + yoe / 4 - yoe / 100 + doy.

Definition daysFromCivil (y m d : Z) : Z :=
  let y' := if m <=? 2 then y - 1 else y in
  let era := y' / 400 in
  let yoe := y' mod 400 in
  let mp := (m + 9) mod 12 in
  let doy := (153 * mp + 2) / 5 + d - 1 in
  era * 146097 + daysOfEra yoe doy - 719468.

(** Year, month and day of a day of a 400-year era: cycles of 100, 4 and 1
    years; the last year of a cycle of 4 and the last cycle of 100 of the era
    have a leap day at their end. *)
Definition yearOfEra (doe : Z) : Z * Z :=
  let n100 := Z.min (doe / 36524) 3 in
  let r100 := doe - n100 * 36524 in
  let n4 := r100 / 1461 in
  let r4 := r100 - n4 * 1461 in
  let n1 := Z.min (r4 / 365) 3 in
  (100 * n100 + 4 * n4 + n1, r4 - n1 * 365).

Definition monthOfYear (doy : Z) : Z * Z :=
  let mp := (5 * doy + 2) / 153 in
  (if mp <? 10 then mp + 3 else mp - 9, doy - (153 * mp + 2) / 5 + 1).

Definition civilOfEra (doe : Z) : Z * Z * Z :=
  let '(yoe, doy) := yearOfEra doe in
  let '(m, d) := monthOfYear doy in
  (yoe + (if m <=? 2 then 1 else 0), m, d).

Definition civilFromDays (z : Z) : Z * Z * Z :=
  let z' := z + 719468 in
  let '(y, m, d) := civilOfEra (z' mod 146097) in
  (y + z' / 146097 * 400, m, d).

Definition isLeap (y : Z) : bool := (y mod 4 =? 0) && (negb (y mod 100 =? 0) || (y mod 400 =? 0)).

Definition daysIn (m y : Z) : Z :=
  if m =? 2 then (if isLeap y then 29 else 28)
  else if (m =? 4) || (m =? 6) || (m =? 9) || (m =? 11) then 30 else 31.

Definition date (y mo d h mi s ns off : Z) : Z :=
  (daysFromCivil y mo d * 86400 + h * 3600 + mi * 60 + s - off) * second + ns.

(** * Format *)

(** [n] in exactly [w] digits. *)
Fixpoint pad (w : nat) (n : Z) : string :=
  match w with
  | O => EmptyString
  | S w' => pad w' (n / 10) +:+ String (ascii_of_N (Z.to_N (48 + n mod 10))) EmptyString
  end.

(** The date and the time of day, in seconds; the year has four digits. *)
Definition formatSeconds (secs : Z) : string :=
  let '(y, m, d) := civilFromDays (secs / 86400) in
  let tod := secs mod 86400 in
  pad 4 y +:+ "-" +:+ pad 2 m +:+ "-" +:+ pad 2 d +:+ "T"
  +:+ pad 2 (tod / 3600) +:+ ":" +:+ pad 2 (tod / 60 mod 60) +:+ ":" +:+ pad 2 (tod mod 60).

(** [t.UTC().Format(time.RFC3339)]. *)
Definition FormatRFC3339 (t : Z) : string := formatSeconds (t / second) +:+ "Z".

(** [t.UTC().Format("2006-01-02T15:04:05.000000000Z07:00")]. *)
Definition FormatNano (t : Z) : string :=
  formatSeconds (t / second) +:+ "." +:+ pad 9 (t mod second) +:+ "Z".

(** * Durations *)

(** A string of digits without its trailing zeros. *)
Fixpoint stripZeros (s : string) : string :=
  match s with
  | EmptyString => EmptyString
  | String c s' =>
      match stripZeros s' with
      | EmptyString => if Ascii.eqb c "0" then EmptyString else String c EmptyString
      | r => String c r
      end
  end.

(** The integer part of [u / 10^prec] and its fraction, ".ddd" or nothing. *)
Definition fmtFrac (u : Z) (prec : nat) : Z * string :=
  let p := 10 ^ Z.of_nat prec in
  let f := stripZeros (pad prec (u mod p)) in
  (u / p, if String.eqb f EmptyString then EmptyString else String "." f).

(** "µs", whose first letter is two bytes in UTF-8. *)
Definition microUnit : string := String "194" (String "181" "s").

(** [Duration.String]. *)
Definition DurationString (d : Z) : string :=
  let u := Z.abs d in
  let body :=
    if u <? second then
      if u =? 0 then "0s"
      else if u <? 1000 then strconv.Itoa u +:+ "ns"
      else if u <? 1000000 then let '(n, f) := fmtFrac u 3 in strconv.Itoa n +:+ f +:+ microUnit
      else let '(n, f) := fmtFrac u 6 in strconv.Itoa n +:+ f +:+ "ms"
    else
      let '(secs, f) := fmtFrac u 9 in
      let s := strconv.Itoa (secs mod 60) +:+ f +:+ "s" in
      let mins := secs / 60 in
      if 0 <? mins then
        let s := strconv.Itoa (mins mod 60) +:+ "m" +:+ s in
        let hours := mins / 60 in
        if 0 <? hours then strconv.Itoa hours +:+ "h" +:+ s else s
      else s in
  if d <? 0 then "-" +:+ body else body.

(** * Parse *)

Definition getnum (s : string) (fixed : bool) : option (Z * string) :=
  match s with
  | EmptyString => None
  | String a s1 =>
      match strconv.digit a with
      | None => None
      | Some x =>
          match s1 with
          | EmptyString => if fixed then None else Some (x, s1)
          | String b s2 =>
              match strconv.digit b with
              | Some y => Some (10 * x + y, s2)
              | None => if fixed then None else Some (x, s1)
              end
          end
      end
  end.

(** A field within its range. *)
Definition inRange (lo hi : Z) (r : option (Z * string)) : option (Z * string) :=
  match r with
  | Some (v, s) => if (lo <=? v) && (v <=? hi) then Some (v, s) else None
  | None => None
  end.

Definition year4 (s : string) : option (Z * string) :=
  if (String.length s <? 4)%nat then None
  else match strconv.digits 0 (strings.upto 4 s) with
       | Some y => Some (y, strings.from 4 s)
       | None => None
       end.

Definition expect (c : ascii) (s : string) : option string :=
  match s with String d s' => if Ascii.eqb d c then Some s' else None | EmptyString => None end.

(** The leading digits of [s]. *)
Fixpoint spanDigits (s : string) : string * string :=
  match s with
  | EmptyString => (EmptyString, EmptyString)
  | String c s' => if isDigit c then let '(d, r) := spanDigits s' in (String c d, r)
                   else (EmptyString, s)
  end.

Definition nanoseconds (digits : string) : Z :=
  let d := strings.upto 9 digits in
  match strconv.digits 0 d with
  | Some v => v * 10 ^ (9 - Z.of_nat (String.length d))
  | None => 0
  end.

(** The optional fraction: '.' or ',' and digits, read to nanoseconds. *)
Definition fraction (s : string) : Z * string :=
  match s with
  | String c s' =>
      if Ascii.eqb c "." || Ascii.eqb c "," then
        let '(d, r) := spanDigits s' in
        if String.eqb d EmptyString then (0, s) else (nanoseconds d, r)
      else (0, s)
  | EmptyString => (0, s)
  end.

(** The zone: "Z", or a signed "hh:mm"; its offset in seconds. *)
Definition zone (s : string) : option (Z * string) :=
  match s with
  | EmptyString => None
  | String c s' =>
      if Ascii.eqb c "Z" then Some (0, s')
      else if (String.length s <? 6)%nat then None
      else
        match inRange 0 24 (getnum s' true) with
        | None => None
        | Some (hr, s2) =>
            match expect ":" s2 with
            | None => None
            | Some s3 =>
                match inRange 0 60 (getnum s3 true) with
                | None => None
                | Some (mm, rest) =>
                    let off := (hr * 60 + mm) * 60 in
                    if Ascii.eqb c "+" then Some (off, rest)
                    else if Ascii.eqb c "-" then Some (- off, rest) else None
                end
            end
        end
  end.

Definition obind {A B} (x : option A) (f : A -> option B) : option B :=
  match x with Some a => f a | None => None end.

Local Notation "'do' p <- x ;; k" := (obind x (fun p => k))
  (at level 60, p pattern, x at level 60, k at level 60, right associativity).

(** [time.Parse(time.RFC3339Nano, s)]. *)
Definition Parse (s : string) : option Z :=
  do (y, s) <- year4 s ;;
  do s <- expect "-" s ;;
  do (mo, s) <- inRange 1 12 (getnum s true) ;;
  do s <- expect "-" s ;;
  do (d, s) <- getnum s true ;;
  do s <- expect "T" s ;;
  do (h, s) <- inRange 0 23 (getnum s false) ;;
  do s <- expect ":" s ;;
  do (mi, s) <- inRange 0 59 (getnum s true) ;;
  do s <- expect ":" s ;;
  do (sec, s) <- inRange 0 59 (getnum s true) ;;
  let '(ns, s) := fraction s in
  do (off, s) <- zone s ;;
  if String.eqb s EmptyString && (1 <=? d) && (d <=? daysIn mo y)
  then Some (date y mo d h mi sec ns off) else None.

End gotime.

Example DurationString_grace : gotime.DurationString (5 * minute) = "5m0s".
Proof. vm_compute. reflexivity. Qed.

Example DurationString_fraction :
  gotime.DurationString (3600 * second + 1500000000) = "1h0m1.5s".
Proof. vm_compute. reflexivity. Qed.

(** * Round trip *)

Lemma digit_of_mod n : strconv.digit (ascii_of_N (Z.to_N (48 + n mod 10))) = Some (n mod 10).
Proof.
  pose proof (Z.mod_pos_bound n 10 ltac:(lia)) as H. remember (n mod 10) as k.
  assert (Hk : k = 0 \/ k = 1 \/ k = 2 \/ k = 3 \/ k = 4 \/ k = 5 \/ k = 6 \/ k = 7 \/ k = 8 \/ k = 9) by lia.
  clear Heqk H. repeat destruct Hk as [-> | Hk]; try reflexivity. by subst.
Qed.

Lemma pad_length w n : String.length (gotime.pad w n) = w.
Proof.
  revert n. induction w as [|w IH]; intros n; simpl; [done|].
  rewrite string_length_app, IH. simpl. lia.
Qed.

Lemma pad_digits w n : 0 <= n < 10 ^ Z.of_nat w -> strconv.digits 0 (gotime.pad w n) = Some n.
Proof.
  revert n. induction w as [|w IH]; intros n Hn; [simpl in *; f_equal; lia|].
  cbn [gotime.pad]. rewrite digits_app, IH.
  - cbn [strconv.digits]. rewrite digit_of_mod. cbn. f_equal.
    pose proof (Z.div_mod n 10). lia.
  - rewrite Nat2Z.inj_succ, Z.pow_succ_r in Hn by lia. split; [apply Z.div_pos; lia|].
    apply Z.div_lt_upper_bound; lia.
Qed.

Lemma getnum_pad fixed n s : 0 <= n < 100 -> gotime.getnum (gotime.pad 2 n +:+ s) fixed = Some (n, s).
Proof.
  intros Hn. cbn [gotime.pad String.append gotime.getnum]. simpl. rewrite !digit_of_mod.
  f_equal. f_equal. pose proof (Z.div_mod n 10). pose proof (Z.mod_pos_bound n 10).
  rewrite (Z.mod_small (n / 10)); [lia|].
  split; [apply Z.div_pos; lia|]. apply Z.div_lt_upper_bound; lia.
Qed.

Lemma year4_pad y s : 0 <= y < 10000 -> gotime.year4 (gotime.pad 4 y +:+ s) = Some (y, s).
Proof.
  intros Hy. unfold gotime.year4. pose proof (pad_length 4 y) as Hl. pose proof (pad_digits 4 y Hy) as Hd.
  remember (gotime.pad 4 y) as p. clear Heqp.
  destruct p as [|c0 [|c1 [|c2 [|c3 [|? ?]]]]]; try done.
  cbn [String.append String.length Nat.ltb Nat.leb strings.upto strings.from].
  by rewrite Hd.
Qed.

Lemma spanDigits_app d c s :
  allBytes isDigit d = true -> isDigit c = false -> gotime.spanDigits (d +:+ String c s) = (d, String c s).
Proof.
  intros Hd Hc. induction d as [|a d IH]; simpl in *; [by rewrite Hc|].
  apply andb_true_iff in Hd as [-> Hd]. by rewrite (IH Hd).
Qed.

Lemma upto_all w s : (String.length s <= w)%nat -> strings.upto w s = s.
Proof.
  revert s. induction w as [|w IH]; intros [|c s] H; simpl in *; try done; [lia|].
  by rewrite IH by lia.
Qed.

Lemma fraction_pad ns s c :
  0 <= ns < second -> isDigit c = false ->
  gotime.fraction ("." +:+ gotime.pad 9 ns +:+ String c s) = (ns, String c s).
Proof.
  intros Hns Hc. pose proof (pad_digits 9 ns Hns) as Hd. pose proof (pad_length 9 ns) as Hl.
  cbn [String.append gotime.fraction]. rewrite Ascii.eqb_refl. cbn [orb].
  rewrite spanDigits_app by (done || by eapply digits_isDigit).
  destruct (String.eqb_spec (gotime.pad 9 ns) EmptyString) as [E|_]; [by rewrite E in Hl|].
  unfold gotime.nanoseconds. rewrite upto_all by lia. rewrite Hd, Hl.
  change (10 ^ (9 - Z.of_nat 9)) with 1. by rewrite Z.mul_1_r.
Qed.

(** A test on [n] consecutive integers. *)
Fixpoint allFrom (n : nat) (z : Z) (f : Z -> bool) : bool :=
  match n with O => true | S n' => f z && allFrom n' (z + 1) f end.

Lemma allFrom_spec n z f : allFrom n z f = true -> forall k, z <= k < z + Z.of_nat n -> f k = true.
Proof.
  revert z. induction n as [|n IH]; intros z H k Hk; [lia|].
  cbn [allFrom] in H. apply andb_true_iff in H as [H0 H].
  destruct (decide (k = z)) as [->|]; [done|]. apply (IH (z + 1)); [done|lia].
Qed.

(** The month and day of a day of the year, and that day back. *)
Definition monthOk (doy : Z) : bool :=
  let '(m, d) := gotime.monthOfYear doy in
  (1 <=? m) && (m <=? 12) && (1 <=? d) && ((153 * ((m + 9) mod 12) + 2) / 5 + d - 1 =? doy)
  && (d <=? gotime.daysIn m (if doy =? 365 then 4 else 1)).

Lemma month_ok doy : 0 <= doy < 366 -> monthOk doy = true.
Proof.
  intros H. refine (allFrom_spec 366 0 monthOk _ doy _); [|lia]. vm_compute. reflexivity.
Qed.

Lemma yearOfEra_ok doe :
  0 <= doe < 146097 ->
  let '(yoe, doy) := gotime.yearOfEra doe in
  0 <= yoe < 400 /\ 0 <= doy < 366 /\ gotime.daysOfEra yoe doy = doe /\
  (doy = 365 -> gotime.isLeap (yoe + 1) = true).
Proof.
  intros H. unfold gotime.yearOfEra, gotime.daysOfEra.
  set (n100 := Z.min (doe / 36524) 3). set (r100 := doe - n100 * 36524).
  assert (H1 : 0 <= n100 <= 3 /\ 0 <= r100 <= 36524 /\ (n100 < 3 -> r100 < 36524)) by (subst r100 n100; dlia).
  set (n4 := r100 / 1461). set (r4 := r100 - n4 * 1461).
  assert (H4 : 0 <= n4 <= 24 /\ 0 <= r4 <= 1460) by (clearbody r100; subst r4 n4; dlia).
  set (n1 := Z.min (r4 / 365) 3).
  assert (H0 : 0 <= n1 <= 3 /\ 0 <= r4 - n1 * 365 <= 365 /\ (r4 - n1 * 365 = 365 -> n1 = 3 /\ r4 = 1460)) by (clearbody r4; subst n1; dlia).
  assert (Hq4 : (100 * n100 + 4 * n4 + n1) / 4 = 25 * n100 + n4) by (clearbody n100 n4 n1; dlia).
  assert (Hq100 : (100 * n100 + 4 * n4 + n1) / 100 = n100) by (clearbody n100 n4 n1; dlia).
  rewrite Hq4, Hq100. split_and!; try lia. intros Hd. destruct H0 as (_ & _ & H0).
  destruct (H0 Hd) as [Hn1 Hr4]. unfold gotime.isLeap. apply andb_true_iff. split.
  - apply Z.eqb_eq. clearbody n100 n4 n1. dlia.
  - apply orb_true_iff. destruct (Z.eqb_spec ((100 * n100 + 4 * n4 + n1 + 1) mod 100) 0) as [E|]; [right|by left].
    apply Z.eqb_eq. assert (n4 = 24) by (clearbody n100 n4 n1; dlia).
    assert (n100 = 3) by lia. clearbody n100 n4 n1. subst. done.
Qed.

(** The dates of one era are valid and give their day back. *)
Lemma era_ok doe :
  0 <= doe < 146097 ->
  let '(y, m, d) := gotime.civilOfEra doe in
  1 <= m <= 12 /\ 1 <= d <= gotime.daysIn m y /\ gotime.daysFromCivil y m d = doe - 719468.
Proof.
  intros H. unfold gotime.civilOfEra. pose proof (yearOfEra_ok doe H) as Hy.
  destruct (gotime.yearOfEra doe) as [yoe doy]. destruct Hy as (Hyoe & Hdoy & Hdays & Hleap).
  pose proof (month_ok doy Hdoy) as Hm. unfold monthOk in Hm.
  destruct (gotime.monthOfYear doy) as [m d]. breflect. split_and!; try lia.
  - etransitivity; [eassumption|]. unfold gotime.daysIn. destruct (Z.eqb_spec m 2) as [->|]; [|done].
    destruct (Z.eqb_spec doy 365) as [E|]; [|by destruct (gotime.isLeap _)]. cbn. by rewrite Hleap.
  - unfold gotime.daysFromCivil.
    replace (if m <=? 2 then yoe + (if m <=? 2 then 1 else 0) - 1 else yoe + (if m <=? 2 then 1 else 0))
      with yoe by (destruct (m <=? 2); lia).
    rewrite Z.div_small, Z.mod_small by lia. unfold gotime.daysOfEra in *. lia.
Qed.

Lemma daysIn_era m y k : gotime.daysIn m (y + k * 400) = gotime.daysIn m y.
Proof.
  unfold gotime.daysIn, gotime.isLeap.
  replace ((y + k * 400) mod 4) with (y mod 4) by (replace (k * 400) with (k * 100 * 4) by lia; by rewrite Z.mod_add).
  replace ((y + k * 400) mod 100) with (y mod 100) by (replace (k * 400) with (k * 4 * 100) by lia; by rewrite Z.mod_add).
  by rewrite Z.mod_add.
Qed.

Lemma daysFromCivil_era y m d k :
  gotime.daysFromCivil (y + k * 400) m d = gotime.daysFromCivil y m d + k * 146097.
Proof.
  unfold gotime.daysFromCivil.
  replace (if m <=? 2 then y + k * 400 - 1 else y + k * 400)
    with ((if m <=? 2 then y - 1 else y) + k * 400) by (destruct (m <=? 2); lia).
  rewrite Z.div_add, Z.mod_add by lia. lia.
Qed.

Lemma civilFromDays_ok z :
  let '(y, m, d) := gotime.civilFromDays z in
  1 <= m <= 12 /\ 1 <= d <= gotime.daysIn m y /\ gotime.daysFromCivil y m d = z.
Proof.
  unfold gotime.civilFromDays. pose proof (Z.mod_pos_bound (z + 719468) 146097 ltac:(lia)) as Hb.
  pose proof (era_ok _ Hb) as H.
  destruct (gotime.civilOfEra ((z + 719468) mod 146097)) as [[y m] d].
  rewrite daysIn_era, daysFromCivil_era. pose proof (Z.div_mod (z + 719468) 146097). lia.
Qed.

(** The year of a time, which a layout of four digits holds. *)
Definition yearOf (t : Z) : Z := (gotime.civilFromDays (t / second / 86400)).1.1.

Lemma daysIn_bound m y : gotime.daysIn m y <= 31.
Proof. unfold gotime.daysIn. destruct (m =? 2), (gotime.isLeap y), (m =? 4), (m =? 6), (m =? 9), (m =? 11); simpl; lia. Qed.

Lemma inRange_in lo hi v s : lo <= v <= hi -> gotime.inRange lo hi (Some (v, s)) = Some (v, s).
Proof. intros H. unfold gotime.inRange. by destruct (Z.leb_spec lo v), (Z.leb_spec v hi); try lia. Qed.

Lemma date_parts secs ns :
  let '(y, m, d) := gotime.civilFromDays (secs / 86400) in
  gotime.date y m d (secs mod 86400 / 3600) (secs mod 86400 / 60 mod 60) (secs mod 86400 mod 60) ns 0
  = secs * second + ns.
Proof.
  pose proof (civilFromDays_ok (secs / 86400)) as H.
  destruct (gotime.civilFromDays (secs / 86400)) as [[y m] d]. destruct H as (_ & _ & Hd).
  unfold gotime.date. rewrite Hd. f_equal. f_equal.
  pose proof (Z.div_mod secs 86400). set (tod := secs mod 86400) in *.
  pose proof (Z.div_mod tod 60). pose proof (Z.div_mod (tod / 60) 60).
  rewrite Z.div_div in H1 by lia. change (60 * 60) with 3600 in H1. lia.
Qed.

(** Consume a separator of the layout. *)
Ltac sep_step :=
  cbn [gotime.obind String.append gotime.expect]; rewrite Ascii.eqb_refl; cbn [gotime.obind].

(** Reading the date and time written by [formatSeconds], with what follows. *)
Lemma Parse_formatSeconds secs rest :
  0 <= yearOf (secs * second) < 10000 ->
  gotime.Parse (gotime.formatSeconds secs +:+ rest)
  = (let '(ns, s) := gotime.fraction rest in
     gotime.obind (gotime.zone s) (fun '(off, s) =>
       if String.eqb s EmptyString then Some (secs * second + ns - off * second) else None)).
Proof.
  unfold yearOf, gotime.formatSeconds. rewrite Z.div_mul by done.
  pose proof (civilFromDays_ok (secs / 86400)) as Hok.
  pose proof (fun ns => date_parts secs ns) as Hdate.
  destruct (gotime.civilFromDays (secs / 86400)) as [[y m] d]. cbn [fst]. intros Hy.
  destruct Hok as (Hm & Hd & _). pose proof (daysIn_bound m y).
  pose proof (Z.mod_pos_bound secs 86400 ltac:(lia)). set (tod := secs mod 86400) in *.
  assert (Hh : 0 <= tod / 3600 < 24) by (split; [apply Z.div_pos; lia|apply Z.div_lt_upper_bound; lia]).
  assert (Hmi : 0 <= tod / 60 mod 60 < 60) by (apply Z.mod_pos_bound; lia).
  assert (Hs : 0 <= tod mod 60 < 60) by (apply Z.mod_pos_bound; lia).
  rewrite !string_app_assoc. unfold gotime.Parse.
  rewrite year4_pad by done. sep_step.
  rewrite getnum_pad, inRange_in by lia. sep_step.
  rewrite getnum_pad by lia. sep_step.
  rewrite getnum_pad, inRange_in by lia. sep_step.
  rewrite getnum_pad, inRange_in by lia. sep_step.
  rewrite getnum_pad, inRange_in by lia. cbn [gotime.obind].
  destruct (gotime.fraction rest) as [ns s]. destruct (gotime.zone s) as [[off s']|]; [|done]. cbn [gotime.obind].
  destruct (Z.leb_spec 1 d), (Z.leb_spec d (gotime.daysIn m y)); try lia. rewrite !andb_true_r.
  destruct (String.eqb s' EmptyString); [|done]. f_equal. rewrite <-Hdate. unfold gotime.date. lia.
Qed.

Lemma Parse_FormatNano t :
  0 <= yearOf t < 10000 -> gotime.Parse (gotime.FormatNano t) = Some t.
Proof.
  intros Hy. unfold gotime.FormatNano. rewrite Parse_formatSeconds.
  - rewrite (fraction_pad (t mod second) EmptyString "Z") by (done || by apply Z.mod_pos_bound).
    cbn [gotime.zone gotime.obind]. rewrite Ascii.eqb_refl. cbn [gotime.obind String.eqb]. f_equal. pose proof (Z.div_mod t second ltac:(done)). lia.
  - unfold yearOf in *. by rewrite Z.div_mul.
Qed.

Lemma Parse_FormatRFC3339 t :
  0 <= yearOf t < 10000 -> gotime.Parse (gotime.FormatRFC3339 t) = Some (t / second * second).
Proof.
  intros Hy. unfold gotime.FormatRFC3339. rewrite Parse_formatSeconds.
  { change (gotime.fraction "Z") with (0, "Z"). cbn [gotime.zone gotime.obind]. rewrite Ascii.eqb_refl.
    cbn [gotime.obind String.eqb]. f_equal. lia. }
  unfold yearOf in *. by rewrite Z.div_mul.
Qed.

(** The time of a cordon, written with nanoseconds, reads back exactly; one
    written without them reads back as its second. *)
Theorem rfc3339_roundtrip (t : Z) :
  0 <= yearOf t < 10000 ->
  gotime.Parse (gotime.FormatNano t) = Some t /\
  gotime.Parse (gotime.FormatRFC3339 t) = Some (t / second * second).
Proof. intros. split; [by apply Parse_FormatNano|by apply Parse_FormatRFC3339]. Qed.

Lemma rfc3339_roundtrip_witness :
  gotime.Parse (gotime.FormatNano (1790000000 * second + 5)) = Some (1790000000 * second + 5).
Proof.
  refine (proj1 (rfc3339_roundtrip (1790000000 * second + 5) _)).
  vm_compute. split; [discriminate|reflexivity].
Defined.
