(* ===== verification/Conditions.v ===== *)
(** The conditions of a resource's status (src/internal/controller/conditions.go)
    and the Stalled condition that follows the upgrade record
    (src/internal/controller/upgrade_stalled.go). metav1.Now() is an argument,
    [now]; a function that writes through a pointer returns what it wrote. *)
From S2P Require Import Prelude GoStrings ClusterTypes.

Open Scope Z_scope.

Definition ConditionTrue : string := "True".
Definition ConditionFalse : string := "False".
Definition ConditionUnknown : string := "Unknown".

Definition ConditionTypeReady : string := "Ready".
Definition ConditionTypeStalled : string := "Stalled".
Definition ConditionTypeDegraded : string := "Degraded".
Definition ConditionTypeClusterFormed : string := "ClusterFormed".
Definition ConditionTypeServersPendingDrain : string := "ServersPendingDrain".

(** * Reading and writing one condition *)

#[global] Instance Condition_eq_dec : EqDecision Condition.
Proof. solve_decision. Defined.

Fixpoint findCondition (conditions : list Condition) (condType : string) : option Condition :=
  match conditions with
  | [] => None
  | c :: rest => if String.eqb (c_Type c) condType then Some c else findCondition rest condType
  end.

Fixpoint upsertCondition (conditions : list Condition) (cond : Condition) : list Condition :=
  match conditions with
  | [] => [cond]
  | c :: rest => if String.eqb (c_Type c) (c_Type cond) then cond :: rest
                 else c :: upsertCondition rest cond
  end.

(** The writes through the pointer [findCondition] returned. *)
Fixpoint updateFound (conditions : list Condition) (condType : string) (generation : Z)
    (message : string) : list Condition :=
  match conditions with
  | [] => []
  | c :: rest =>
      if String.eqb (c_Type c) condType
      then set_c_Message message (set_c_ObservedGeneration generation c) :: rest
      else c :: updateFound rest condType generation message
  end.

Definition SetNamedCondition (now : Z) (conditions : list Condition) (condType : string)
    (generation : Z) (status reason message : string) : list Condition * bool :=
  let newCond := mkCondition condType status generation now reason message in
  match findCondition conditions condType with
  | Some existing =>
      if String.eqb (c_Status existing) status && String.eqb (c_Reason existing) reason
      then (updateFound conditions condType generation message, false)
      else (upsertCondition conditions newCond, true)
  | None => (upsertCondition conditions newCond, true)
  end.

Definition SetReadyCondition (now : Z) (conditions : list Condition) (generation : Z)
    (status reason message : string) : list Condition * bool :=
  let newCond := mkCondition ConditionTypeReady status generation now reason message in
  match findCondition conditions ConditionTypeReady with
  | Some existing =>
      if String.eqb (c_Status existing) status && String.eqb (c_Reason existing) reason
      then (updateFound conditions ConditionTypeReady generation message, false)
      else (upsertCondition conditions newCond, true)
  | None => (upsertCondition conditions newCond, true)
  end.

(** * The Ready condition of a phase *)

Definition PhaseToConditionStatus (phase : string) : string * string :=
  let phaseIs p := String.eqb phase p in
  if phaseIs "Ready" || phaseIs "Installed" then (ConditionTrue, "ClusterReady")
  else if phaseIs "Completed" then (ConditionTrue, "BackupSucceeded")
  else if phaseIs "Scheduled" then (ConditionTrue, "BackupScheduled")
  else if phaseIs "Suspended" then (ConditionFalse, "Suspended")
  else if phaseIs "Disabled" then (ConditionFalse, "Disabled")
  else if phaseIs "Degraded" then (ConditionFalse, "ClusterDegraded")
  else if phaseIs "Failed" || phaseIs "Invalid" || phaseIs "ValidationFailed" || phaseIs "Error"
  then (ConditionFalse, "ReconciliationFailed")
  else if phaseIs "Upgrading" then (ConditionUnknown, "UpgradeInProgress")
  else if phaseIs "Expanding" then (ConditionUnknown, "StorageExpanding")
  else if phaseIs "Forming" || phaseIs "Creating" then (ConditionUnknown, "ClusterForming")
  else (ConditionUnknown, "Pending").

(** * The Stalled condition *)

(** The message of a stopped upgrade. *)
Definition stalledMessage (us : UpgradeStatus) : string * string :=
  let '(reason, verb, next) :=
    if String.eqb (us_Phase us) upgradePhasePaused
    then ("UpgradePaused", "is paused",
          "set spec.image.tag to another target, or spec.upgradeStrategy.autoPauseOnFailure to false to retry it")
    else ("UpgradeFailed", "failed",
          "the operator retries it while every server is available; spec.image.tag set to another target goes on at once")
  in
  (reason,
   if negb (String.eqb (us_LastError us) EmptyString)
   then "Upgrade to " +:+ us_TargetVersion us +:+ " " +:+ verb +:+ ": " +:+ us_LastError us
        +:+ " (status.upgradeStatus.lastError); " +:+ next
   else "Upgrade to " +:+ us_TargetVersion us +:+ " " +:+ verb +:+ " (status.upgradeStatus): " +:+ next).

Definition stoppedPhase (us : option UpgradeStatus) : bool :=
  match us with
  | Some us => String.eqb (us_Phase us) upgradePhaseFailed || String.eqb (us_Phase us) upgradePhasePaused
  | None => false
  end.

Definition setConditions (cluster : Cluster) (conditions : list Condition) : Cluster :=
  set_cl_Status (set_cs_Conditions conditions (cl_Status cluster)) cluster.

Definition syncStalledCondition (now : Z) (cluster : Cluster) : Cluster * bool :=
  let conditions := cs_Conditions (cl_Status cluster) in
  let notStopped :=
    if findCondition conditions ConditionTypeStalled is Some _
    then
      let '(cs, changed) := SetNamedCondition now conditions ConditionTypeStalled
                              (cl_Generation cluster) ConditionFalse "UpgradeNotStopped"
                              "No upgrade is stopped" in
      (setConditions cluster cs, changed)
    else (cluster, false) in
  match cs_UpgradeStatus (cl_Status cluster) with
  | Some us =>
      if String.eqb (us_Phase us) upgradePhaseFailed || String.eqb (us_Phase us) upgradePhasePaused
      then
        let '(reason, message) := stalledMessage us in
        let '(cs, changed) := SetNamedCondition now conditions ConditionTypeStalled
                                (cl_Generation cluster) ConditionTrue reason message in
        (setConditions cluster cs, changed)
      else notStopped
  | None => notStopped
  end.

(** * Lemmas *)

Lemma find_upsert cs c t :
  findCondition (upsertCondition cs c) t = (if String.eqb (c_Type c) t then Some c else findCondition cs t).
Proof.
  induction cs as [|d cs IH]; simpl; [done|].
  destruct (String.eqb_spec (c_Type d) (c_Type c)) as [E|E]; simpl.
  - rewrite E. by destruct (String.eqb (c_Type c) t).
  - rewrite IH. destruct (String.eqb_spec (c_Type d) t) as [<-|]; [|done].
    destruct (String.eqb_spec (c_Type c) (c_Type d)); [congruence|done].
Qed.

Lemma find_type cs t c : findCondition cs t = Some c -> c_Type c = t.
Proof.
  induction cs as [|d cs IH]; simpl; [done|].
  destruct (String.eqb_spec (c_Type d) t); [by intros [= <-]|done].
Qed.

Lemma find_updateFound cs ty g m t :
  findCondition (updateFound cs ty g m) t
  = (if String.eqb ty t then set_c_Message m ∘ set_c_ObservedGeneration g <$> findCondition cs t
     else findCondition cs t).
Proof.
  induction cs as [|d cs IH]; simpl; [by destruct (String.eqb ty t)|].
  destruct (String.eqb_spec (c_Type d) ty) as [E|E]; simpl.
  - rewrite E. by destruct (String.eqb ty t).
  - rewrite IH. destruct (String.eqb_spec (c_Type d) t) as [E'|]; [|done].
    destruct (String.eqb_spec ty t); [congruence|done].
Qed.

(** What a reader finds under [t] after [SetNamedCondition] wrote [ty]. *)
Definition conditionAfter (now : Z) (old : option Condition) (ty : string) (gen : Z)
    (status reason message : string) : Condition :=
  mkCondition ty status gen
    (match old with
     | Some c => if String.eqb (c_Status c) status && String.eqb (c_Reason c) reason
                 then c_LastTransitionTime c else now
     | None => now
     end) reason message.

Lemma find_SetNamedCondition now cs ty gen status reason message t :
  findCondition (SetNamedCondition now cs ty gen status reason message).1 t
  = (if String.eqb ty t
     then Some (conditionAfter now (findCondition cs ty) ty gen status reason message)
     else findCondition cs t).
Proof.
  unfold SetNamedCondition, conditionAfter. destruct (findCondition cs ty) as [c|] eqn:F.
  - destruct (_ && _) eqn:E; simpl.
    + rewrite find_updateFound. destruct (String.eqb_spec ty t) as [<-|]; [|done].
      rewrite F. breflect. pose proof (find_type _ _ _ F). by destruct c; simplify_eq/=.
    + by rewrite find_upsert.
  - simpl. by rewrite find_upsert.
Qed.

Lemma updateFound_types cs ty g m : c_Type <$> updateFound cs ty g m = c_Type <$> cs.
Proof.
  induction cs as [|d cs IH]; simpl; [done|].
  destruct (String.eqb _ _); simpl; [done|]. f_equal. exact IH.
Qed.

Lemma find_absent cs t : findCondition cs t = None <-> t ∉ (c_Type <$> cs).
Proof.
  induction cs as [|d cs IH]; [split; [intros _; apply not_elem_of_nil|done]|].
  rewrite fmap_cons, elem_of_cons; simpl. destruct (String.eqb_spec (c_Type d) t) as [->|E].
  - split; [done|]. intros []. by left.
  - rewrite IH. split; [intros H [->|?]; auto|auto].
Qed.

Lemma upsert_types cs c :
  c_Type <$> upsertCondition cs c
  = (if findCondition cs (c_Type c) is Some _ then c_Type <$> cs else (c_Type <$> cs) ++ [c_Type c]).
Proof.
  induction cs as [|d cs IH]; simpl; [done|].
  destruct (String.eqb_spec (c_Type d) (c_Type c)) as [E|E]; simpl; [by rewrite E|].
  change (c_Type d :: (c_Type <$> upsertCondition cs c) = if findCondition cs (c_Type c) is Some _
    then c_Type d :: (c_Type <$> cs) else c_Type d :: (c_Type <$> cs) ++ [c_Type c]).
  rewrite IH. by destruct (findCondition cs (c_Type c)).
Qed.

Lemma SetNamedCondition_NoDup now cs ty gen status reason message :
  NoDup (c_Type <$> cs) ->
  NoDup (c_Type <$> (SetNamedCondition now cs ty gen status reason message).1).
Proof.
  intros Hnd. unfold SetNamedCondition. destruct (findCondition cs ty) as [c|] eqn:F.
  - destruct (_ && _); simpl; [by rewrite updateFound_types|].
    by rewrite upsert_types; simpl; rewrite F.
  - simpl. rewrite upsert_types. simpl. rewrite F. apply find_absent in F.
    apply NoDup_app. split_and!; [done| |by apply NoDup_singleton].
    by intros x Hx ->%list_elem_of_singleton.
Qed.

(** writing a condition leaves one condition of its type with the status,
    reason, generation and message written, keeps its transition time exactly
    when neither status nor reason changed, reports a change exactly then not,
    and leaves every condition of another type as it was; the types stay
    distinct. *)
Theorem SetNamedCondition_spec (now : Z) (cs : list Condition) (ty : string) (gen : Z)
    (status reason message : string) :
  NoDup (c_Type <$> cs) ->
  let '(cs', changed) := SetNamedCondition now cs ty gen status reason message in
  (forall t, t <> ty -> findCondition cs' t = findCondition cs t) /\
  (exists c, findCondition cs' ty = Some c /\
     c_Status c = status /\ c_Reason c = reason /\ c_ObservedGeneration c = gen /\ c_Message c = message /\
     (changed = false <-> exists old, findCondition cs ty = Some old /\
        c_Status old = status /\ c_Reason old = reason) /\
     (forall old, findCondition cs ty = Some old -> changed = false ->
        c_LastTransitionTime c = c_LastTransitionTime old) /\
     (changed = true -> c_LastTransitionTime c = now)) /\
  NoDup (c_Type <$> cs').
Proof.
  intros Hnd. pose proof (SetNamedCondition_NoDup now cs ty gen status reason message Hnd) as Hnd'.
  pose proof (find_SetNamedCondition now cs ty gen status reason message) as Hf.
  assert (Hch : (SetNamedCondition now cs ty gen status reason message).2
    = match findCondition cs ty with
      | Some c => negb (String.eqb (c_Status c) status && String.eqb (c_Reason c) reason)
      | None => true end).
  { unfold SetNamedCondition. destruct (findCondition cs ty); [|done]. by destruct (_ && _). }
  destruct (SetNamedCondition now cs ty gen status reason message) as [cs' changed]. simpl in *.
  split_and!; [|exists (conditionAfter now (findCondition cs ty) ty gen status reason message)|done].
  - intros t Ht. rewrite Hf. by destruct (String.eqb_spec ty t).
  - rewrite Hf, String.eqb_refl. subst changed. unfold conditionAfter.
    destruct (findCondition cs ty) as [c|]; simpl; [|naive_solver].
    destruct (String.eqb_spec (c_Status c) status), (String.eqb_spec (c_Reason c) reason);
      naive_solver.
Qed.

Lemma SetNamedCondition_spec_witness :
  exists c, findCondition (SetNamedCondition 7
    [mkCondition "Ready" "True" 1 3 "ClusterReady" "m"] "Ready" 2 "True" "ClusterReady" "n").1 "Ready"
    = Some c /\ c_LastTransitionTime c = 3.
Proof.
  destruct (SetNamedCondition_spec 7 [mkCondition "Ready" "True" 1 3 "ClusterReady" "m"]
    "Ready" 2 "True" "ClusterReady" "n") as (_ & (c & Hc & _ & _ & _ & _ & _ & Hk & _) & _).
  - by apply NoDup_singleton.
  - exists c. split; [exact Hc|].
    exact (Hk (mkCondition "Ready" "True" 1 3 "ClusterReady" "m") eq_refl eq_refl).
Defined.

Lemma setConditions_conds cluster cs : cs_Conditions (cl_Status (setConditions cluster cs)) = cs.
Proof. done. Qed.

Lemma find_syncStalled now cluster t :
  findCondition (cs_Conditions (cl_Status (syncStalledCondition now cluster).1)) t
  = (if String.eqb ConditionTypeStalled t then
       let old := findCondition (cs_Conditions (cl_Status cluster)) ConditionTypeStalled in
       match cs_UpgradeStatus (cl_Status cluster) with
       | Some us =>
           if stoppedPhase (Some us) then
             Some (conditionAfter now old ConditionTypeStalled (cl_Generation cluster) ConditionTrue
                     (stalledMessage us).1 (stalledMessage us).2)
           else (fun _ => conditionAfter now old ConditionTypeStalled (cl_Generation cluster)
                   ConditionFalse "UpgradeNotStopped" "No upgrade is stopped") <$> old
       | None => (fun _ => conditionAfter now old ConditionTypeStalled (cl_Generation cluster)
                   ConditionFalse "UpgradeNotStopped" "No upgrade is stopped") <$> old
       end
     else findCondition (cs_Conditions (cl_Status cluster)) t).
Proof.
  unfold syncStalledCondition, stoppedPhase.
  set (conds := cs_Conditions (cl_Status cluster)).
  assert (Hset : forall status reason message,
    findCondition (cs_Conditions (cl_Status
      (let '(cs, changed) := SetNamedCondition now conds ConditionTypeStalled
         (cl_Generation cluster) status reason message in
       (setConditions cluster cs, changed)).1)) t
    = (if String.eqb ConditionTypeStalled t
       then Some (conditionAfter now (findCondition conds ConditionTypeStalled)
              ConditionTypeStalled (cl_Generation cluster) status reason message)
       else findCondition conds t)).
  { intros. rewrite <-find_SetNamedCondition. by destruct (SetNamedCondition _ _ _ _ _ _ _). }
  assert (Hclear : findCondition (cs_Conditions (cl_Status
      (if findCondition conds ConditionTypeStalled is Some _ then
         let '(cs, changed) := SetNamedCondition now conds ConditionTypeStalled
           (cl_Generation cluster) ConditionFalse "UpgradeNotStopped" "No upgrade is stopped" in
         (setConditions cluster cs, changed)
       else (cluster, false)).1)) t
    = (if String.eqb ConditionTypeStalled t
       then (fun _ => conditionAfter now (findCondition conds ConditionTypeStalled) ConditionTypeStalled
               (cl_Generation cluster) ConditionFalse "UpgradeNotStopped" "No upgrade is stopped")
              <$> findCondition conds ConditionTypeStalled
       else findCondition conds t)).
  { destruct (findCondition conds ConditionTypeStalled) eqn:F; [by rewrite Hset|].
    cbn [fst]. fold conds. destruct (String.eqb_spec ConditionTypeStalled t) as [<-|]; [exact F|done]. }
  destruct (cs_UpgradeStatus (cl_Status cluster)) as [us|]; [|exact Hclear].
  destruct (_ || _); [|exact Hclear].
  destruct (stalledMessage us). apply Hset.
Qed.

(** After the write that records the upgrade's state, the Stalled condition
    is True exactly while that record is Paused or Failed, with the reason of
    the phase, and every other condition is as it was. *)
Theorem syncStalled_iff_stopped (now : Z) (cluster : Cluster) :
  let conds' := cs_Conditions (cl_Status (syncStalledCondition now cluster).1) in
  ((exists c, findCondition conds' ConditionTypeStalled = Some c /\ c_Status c = ConditionTrue) <->
   exists us, cs_UpgradeStatus (cl_Status cluster) = Some us /\
     (us_Phase us = upgradePhaseFailed \/ us_Phase us = upgradePhasePaused)) /\
  (forall us c, cs_UpgradeStatus (cl_Status cluster) = Some us ->
     findCondition conds' ConditionTypeStalled = Some c ->
     (us_Phase us = upgradePhasePaused -> c_Reason c = "UpgradePaused") /\
     (us_Phase us = upgradePhaseFailed -> c_Reason c = "UpgradeFailed")) /\
  (forall t, t <> ConditionTypeStalled ->
     findCondition conds' t = findCondition (cs_Conditions (cl_Status cluster)) t) /\
  cs_UpgradeStatus (cl_Status (syncStalledCondition now cluster).1) = cs_UpgradeStatus (cl_Status cluster).
Proof.
  intros conds'. unfold conds'. rewrite find_syncStalled, String.eqb_refl. simpl. split_and!.
  - destruct (cs_UpgradeStatus (cl_Status cluster)) as [us|].
    + destruct (String.eqb_spec (us_Phase us) upgradePhaseFailed), (String.eqb_spec (us_Phase us) upgradePhasePaused);
        simpl; [naive_solver..|].
      split; [|naive_solver]. intros (c & Hc & Hs). by destruct (findCondition _ _); simplify_eq/=.
    + split; [|naive_solver]. intros (c & Hc & Hs). by destruct (findCondition _ _); simplify_eq/=.
  - intros us c -> Hc. split; intros Hp; rewrite Hp in Hc; simpl in Hc; simplify_eq/=;
      unfold stalledMessage; by rewrite Hp.
  - intros t Ht. rewrite find_syncStalled. by destruct (String.eqb_spec ConditionTypeStalled t).
  - unfold syncStalledCondition. repeat case_match; simplify_eq/=; done.
Qed.
