(* ===== verification/UpgradeRules.v ===== *)
(** The version rule of an upgrade: which image tag a cluster's servers may be
    moved to (src/internal/validation/upgrade_validator.go), what the servers
    report in SHOW SERVERS (src/internal/controller/reported_version.go), and the
    verification of a finished upgrade
    (src/internal/controller/rolling_upgrade.go). *)
From S2P Require Import Prelude GoStrings GoTime Version ClusterTypes.

Open Scope Z_scope.

(** * Parsing *)

Record VersionInfo := mkVersionInfo {
  vi_Major : Z;
  vi_Minor : Z;
  vi_Patch : Z;
  vi_HasPatch : bool
}.

(** The end of the three parsers below, which differ only in what they remove
    first: the dotted numbers, the patch optional. *)
Definition versionFromParts (version : string) : option VersionInfo :=
  match strings.Split version "." with
  | p0 :: p1 :: rest =>
      match strconv.Atoi p0, strconv.Atoi p1 with
      | Some major, Some minor =>
          match rest with
          | p2 :: _ =>
              match strconv.Atoi p2 with
              | Some p => Some (mkVersionInfo major minor p true)
              | None => Some (mkVersionInfo major minor 0 false)
              end
          | [] => Some (mkVersionInfo major minor 0 false)
          end
      | _, _ => None
      end
  | _ => None
  end.

(** [(v *UpgradeValidator) parseVersion]. *)
Definition parseVersion (version : string) : option VersionInfo :=
  let version := strings.TrimPrefix version "v" in
  let version := strings.cutBefore version "@" in
  versionFromParts (strings.cutBefore version "-").

(** [(r *RollingUpgradeOrchestrator) parseVersion]. *)
Definition orchParseVersion (version : string) : option VersionInfo :=
  versionFromParts (strings.cutBefore (strings.TrimPrefix version "v") "-").

Definition parseNeo4jVersion (version : string) : option VersionInfo :=
  versionFromParts (strings.cutBefore (strings.TrimPrefix (strings.TrimSpace version) "v") "-").

(** * The rule *)

Definition isCalVer (v : VersionInfo) : bool := 2025 <=? vi_Major v.
Definition isSemVer (v : VersionInfo) : bool := (4 <=? vi_Major v) && (vi_Major v <=? 10).

Definition isDowngrade (current target : VersionInfo) : bool :=
  if negb (Bool.eqb (isCalVer current) (isCalVer target)) then isCalVer current
  else if negb (vi_Major target =? vi_Major current) then vi_Major target <? vi_Major current
  else if negb (vi_Minor target =? vi_Minor current) then vi_Minor target <? vi_Minor current
  else vi_HasPatch current && vi_HasPatch target && (vi_Patch target <? vi_Patch current).

(** A [field.Error]: the path, the value refused and why. *)
Inductive fieldError :=
| FieldInvalid (path value detail : string)
| FieldNotSupported (path value : string) (supported : list string).

Definition tagPath : string := "spec.image.tag".

Definition validateSemVerUpgrade (current target : VersionInfo) : option string :=
  if (vi_Major current =? 4) || (vi_Major target =? 4) then
    Some "Neo4j 4.x versions are not supported - only 5.26.x (last semver LTS) or 2025.x.x (CalVer) versions are supported"
  else if (vi_Major current =? 5) && (vi_Major target =? 5) && (vi_Minor target =? 26) then None
  else Some "only Neo4j 5.26.x (last semver LTS) or 2025.x.x (CalVer) versions are supported".

Definition validateSemVerToCalVerUpgrade (current : VersionInfo) (currentStr targetStr : string)
  : option string :=
  if (vi_Major current =? 5) && (vi_Minor current =? 26) then None
  else Some ("upgrade from " +:+ currentStr +:+ " to CalVer " +:+ targetStr
             +:+ " requires Neo4j 5.26.x (last semver LTS) first").

Definition validateVersionMove (currentVersion targetVersion runs : string) : list fieldError :=
  if String.eqb currentVersion EmptyString || String.eqb currentVersion targetVersion then []
  else
    match parseVersion targetVersion with
    | None => [FieldInvalid tagPath targetVersion "invalid version format"]
    | Some target =>
        match parseVersion currentVersion with
        | None => []
        | Some current =>
            if isDowngrade current target then
              [FieldInvalid tagPath targetVersion
                 ("downgrades are not supported: " +:+ runs +:+ " " +:+ currentVersion
                  +:+ " (status.version), and Neo4j cannot go back to an earlier version. Set the tag to "
                  +:+ currentVersion +:+ " or later; running an earlier version means restoring a backup taken before the upgrade")]
            else
              let err :=
                if isCalVer current && isCalVer target then None
                else if isSemVer current && isSemVer target then validateSemVerUpgrade current target
                else if isSemVer current && isCalVer target then
                  validateSemVerToCalVerUpgrade current currentVersion targetVersion
                else Some ("unsupported upgrade path from " +:+ currentVersion +:+ " to " +:+ targetVersion) in
              match err with
              | Some msg => [FieldInvalid tagPath targetVersion msg]
              | None => []
              end
        end
    end.

Definition ValidateVersionUpgrade (currentVersion targetVersion : string) : list fieldError :=
  validateVersionMove currentVersion targetVersion "the servers run".

Definition belowReported (reported tag : string) : bool :=
  if String.eqb reported EmptyString then false
  else match parseVersion reported, parseVersion tag with
       | Some current, Some target => isDowngrade current target
       | _, _ => false
       end.

Definition TagBelowReportedVersion (reported tag : string) : bool := belowReported reported tag.

Definition validateTagAgainstRunningVersion (runningVersion version tag runs : string)
  : list fieldError :=
  if negb (belowReported runningVersion tag) then []
  else [FieldInvalid tagPath tag
          ("downgrades are not supported: " +:+ runs +:+ " " +:+ runningVersion
           +:+ " (status.runningVersion, what " +:+ version +:+ " in status.version resolved to), and Neo4j cannot go back to an earlier version. Set the tag to "
           +:+ runningVersion +:+ " or later; running an earlier version means restoring a backup taken before the upgrade")].

Definition upgradeUnfinished (us : option UpgradeStatus) : bool :=
  match us with
  | None => false
  | Some us =>
      if String.eqb (us_TargetVersion us) EmptyString then false
      else negb (String.eqb (us_Phase us) EmptyString || String.eqb (us_Phase us) "Completed"
                 || String.eqb (us_Phase us) "Pending")
  end.

Definition upgradeRestartedAServer (us : UpgradeStatus) : bool :=
  if negb (upgradeUnfinished (Some us)) then false
  else match us_Progress us with
       | None => false
       | Some p => (0 <? up_Upgraded p) || (0 <? up_InProgress p)
       end.

Definition upgradeFloor (us : UpgradeStatus) : string :=
  if negb (String.eqb (us_StartedTargetVersion us) EmptyString) then us_StartedTargetVersion us
  else if upgradeRestartedAServer us then us_TargetVersion us
  else EmptyString.

Definition validateTagAgainstUpgrade (ous : option UpgradeStatus) (tag : string) : list fieldError :=
  match ous with
  | None => []
  | Some us =>
      if negb (upgradeUnfinished ous) then []
      else
        let floor := upgradeFloor us in
        if String.eqb floor EmptyString || String.eqb floor (us_PreviousVersion us) then []
        else
          let below :=
            if String.eqb floor tag then false
            else match parseVersion tag, parseVersion floor with
                 | Some target, Some current => isDowngrade current target
                 | _, _ => false
                 end in
          if below then
            if String.eqb floor (us_TargetVersion us) then
              [FieldInvalid tagPath tag
                 ("downgrades are not supported: the upgrade to " +:+ us_TargetVersion us
                  +:+ " (status.upgradeStatus.targetVersion) has already restarted servers on it, and Neo4j cannot go back to an earlier version. Set the tag to "
                  +:+ us_TargetVersion us +:+ " or later; running an earlier version means restoring a backup taken before the upgrade")]
            else
              [FieldInvalid tagPath tag
                 ("downgrades are not supported: servers this upgrade restarted have run " +:+ floor
                  +:+ " (status.upgradeStatus.startedTargetVersion), and Neo4j cannot go back to an earlier version. Set the tag to "
                  +:+ floor +:+ " or later; running an earlier version means restoring a backup taken before the upgrade")]
          else if belowReported (us_ResolvedTargetVersion us) tag then
            [FieldInvalid tagPath tag
               ("downgrades are not supported: the upgrade to " +:+ us_TargetVersion us
                +:+ " (status.upgradeStatus.targetVersion) has already restarted servers on it, and they run "
                +:+ us_ResolvedTargetVersion us
                +:+ " (status.upgradeStatus.resolvedTargetVersion); Neo4j cannot go back to an earlier version. Set the tag to "
                +:+ us_ResolvedTargetVersion us +:+ " or later; running an earlier version means restoring a backup taken before the upgrade")]
          else []
  end.

Definition ValidateTagAgainstRunning (cluster : Cluster) : list fieldError :=
  let tag := sp_ImageTag (cl_Spec cluster) in
  let status := cl_Status cluster in
  match parseVersion tag with
  | None => []
  | Some _ =>
      let errs := if String.eqb (cs_Version status) EmptyString then []
                  else ValidateVersionUpgrade (cs_Version status) tag in
      match errs with
      | _ :: _ => errs
      | [] =>
          match validateTagAgainstRunningVersion (cs_RunningVersion status) (cs_Version status) tag
                  "the servers run" with
          | (_ :: _) as errs => errs
          | [] => validateTagAgainstUpgrade (cs_UpgradeStatus status) tag
          end
      end
  end.

Definition validateUpgradeTimeout (path value : string) : list fieldError :=
  if String.eqb value EmptyString then []
  else match ParseDuration value with
       | None => [FieldInvalid path value "invalid duration format"]
       | Some d =>
           if d <=? 0 then
             [FieldInvalid path value "must be greater than zero, such as 30m or 1h30m: an upgrade step fails once this long has passed since it started, so zero or less fails it at its first check"]
           else []
       end.

Definition validStrategies : list string := ["RollingUpgrade"; "Recreate"].

Definition ValidateUpgradeStrategy (spec : ClusterSpec) : list fieldError :=
  match sp_UpgradeStrategy spec with
  | None => []
  | Some strategy =>
      (if String.eqb (st_Strategy strategy) EmptyString then []
       else if existsb (String.eqb (st_Strategy strategy)) validStrategies then []
       else [FieldNotSupported "spec.upgradeStrategy.strategy" (st_Strategy strategy) validStrategies])
      ++ validateUpgradeTimeout "spec.upgradeStrategy.upgradeTimeout" (st_UpgradeTimeout strategy)
      ++ validateUpgradeTimeout "spec.upgradeStrategy.healthCheckTimeout" (st_HealthCheckTimeout strategy)
      ++ validateUpgradeTimeout "spec.upgradeStrategy.stabilizationTimeout" (st_StabilizationTimeout strategy)
      ++ match st_MaxUnavailableDuringUpgrade strategy with
         | None => []
         | Some n =>
             if n <? 0 then
               [FieldInvalid "spec.upgradeStrategy.maxUnavailableDuringUpgrade" (strconv.Itoa n) "must be non-negative"]
             else []
         end
  end.

(** * Reported versions *)

Definition tagFloats (tag : string) : bool :=
  match parseNeo4jVersion tag with
  | Some v => negb (vi_HasPatch v)
  | None => false
  end.

(** The loop over the three pairs stops at the first that differs. *)
Fixpoint laterByNumbers (a b : string) (ds : list (Z * Z)) : string :=
  match ds with
  | [] => a
  | (x, y) :: ds' => if x =? y then laterByNumbers a b ds' else if x <? y then b else a
  end.

Definition laterReportedVersion (a b : string) : string :=
  match parseNeo4jVersion a, parseNeo4jVersion b with
  | _, None => a
  | None, Some _ => b
  | Some pa, Some pb =>
      laterByNumbers a b
        [(vi_Major pa, vi_Major pb); (vi_Minor pa, vi_Minor pb); (vi_Patch pa, vi_Patch pb)]
  end.

Definition highestReportedVersion (servers : list ServerInfo) (include : ServerInfo -> bool) : string :=
  fold_left
    (fun highest s =>
       if negb (String.eqb (si_State s) "Enabled") || String.eqb (si_Version s) EmptyString
          || negb (include s)
       then highest
       else laterReportedVersion highest (si_Version s))
    servers EmptyString.

(** [(value, ok)]; [None] when it cannot say. *)
Definition runningVersionFor (tag reported : string) : option string :=
  if String.eqb tag EmptyString then None
  else if negb (tagFloats tag) then Some EmptyString
  else if String.eqb reported EmptyString then None
  else Some reported.

(** [(value, ok)]; [None] when nothing changes. *)
Definition resolvedTargetVersionFor (ous : option UpgradeStatus) (reported : string) : option string :=
  match ous with
  | None => None
  | Some us =>
      if String.eqb reported EmptyString || negb (tagFloats (us_TargetVersion us)) then None
      else
        let want := laterReportedVersion (us_ResolvedTargetVersion us) reported in
        if String.eqb want (us_ResolvedTargetVersion us) then None else Some want
  end.

(** * Verification of a finished upgrade *)

Definition normalizeKernelAlias (v : VersionInfo) : VersionInfo :=
  if (vi_Major v =? 2025) && (vi_Minor v =? 1)
  then mkVersionInfo 5 27 (vi_Patch v) (vi_HasPatch v) else v.

Definition quotes : string := String "034" "'".

Definition versionsMatch (actual expected : string) : bool :=
  let actual := strings.TrimSpace (strings.Trim actual quotes) in
  let expected := strings.TrimSpace (strings.Trim expected quotes) in
  if String.eqb actual expected then true
  else match orchParseVersion actual, orchParseVersion expected with
       | Some a, Some e =>
           let na := normalizeKernelAlias a in
           let ne := normalizeKernelAlias e in
           if negb (vi_Major na =? vi_Major ne) || negb (vi_Minor na =? vi_Minor ne) then false
           else negb (vi_HasPatch ne) || (vi_Patch na =? vi_Patch ne)
       | _, _ => false
       end.

Definition versionMismatchesFromServers (servers : list ServerInfo) (targetVersion : string)
  : list string * Z :=
  fold_left
    (fun '(mismatches, verified) s =>
       if negb (String.eqb (si_State s) "Enabled") then (mismatches, verified)
       else
         let label := if String.eqb (si_Name s) EmptyString then si_Address s else si_Name s in
         if String.eqb (si_Version s) EmptyString then
           (mismatches ++ [label +:+ ": no version reported by SHOW SERVERS"], verified + 1)
         else if negb (versionsMatch (si_Version s) targetVersion) then
           (mismatches ++ [label +:+ ": running " +:+ si_Version s +:+ ", expected " +:+ targetVersion],
            verified + 1)
         else (mismatches, verified + 1))
    servers ([], 0).

(** [servers] is what ListServers returned, or its error. *)
Definition verifyVersionUpgrade (targetVersion : string) (servers : result (list ServerInfo))
  : result string :=
  if String.eqb targetVersion EmptyString then Err "target version not specified in cluster spec"
  else match servers with
  | Err e => Err ("failed to list servers for version verification: " +:+ e)
  | Ok servers =>
      let '(mismatches, verified) := versionMismatchesFromServers servers targetVersion in
      if verified =? 0 then Err "no enabled servers found during version verification"
      else match mismatches with
           | _ :: _ => Err ("version verification failed for "
                            +:+ strconv.Itoa (Z.of_nat (length mismatches)) +:+ " servers: "
                            +:+ strings.Join mismatches "; ")
           | [] => Ok (highestReportedVersion servers (fun _ => true))
           end
  end.

(** * Timeouts *)

Definition upgradeTimeoutOrDefault (value : string) (def : Z) : Z :=
  match ParseDuration value with
  | Some timeout => if 0 <? timeout then timeout else def
  | None => def
  end.

Definition getUpgradeTimeout (spec : ClusterSpec) : Z :=
  match sp_UpgradeStrategy spec with
  | Some st => upgradeTimeoutOrDefault (st_UpgradeTimeout st) (30 * minute)
  | None => 30 * minute
  end.

Definition getHealthCheckTimeout (spec : ClusterSpec) : Z :=
  match sp_UpgradeStrategy spec with
  | Some st => upgradeTimeoutOrDefault (st_HealthCheckTimeout st) (5 * minute)
  | None => 5 * minute
  end.

Definition getStabilizationTimeout (spec : ClusterSpec) : Z :=
  match sp_UpgradeStrategy spec with
  | Some st => upgradeTimeoutOrDefault (st_StabilizationTimeout st) (3 * minute)
  | None => 3 * minute
  end.

(** * Lemmas on the order *)

(** [target] is an earlier release than [current]: the numbers in order, the
    patch only where both name one. *)
Definition earlier (target current : VersionInfo) : Prop :=
  vi_Major target < vi_Major current \/
  vi_Major target = vi_Major current /\
    (vi_Minor target < vi_Minor current \/
     vi_Minor target = vi_Minor current /\
       vi_HasPatch target = true /\ vi_HasPatch current = true /\
       vi_Patch target < vi_Patch current).

Lemma isDowngrade_earlier c t : isDowngrade c t = true <-> earlier t c.
Proof.
  unfold isDowngrade, earlier, isCalVer.
  destruct (vi_HasPatch c), (vi_HasPatch t); zcases;
    split; intros; try discriminate; try reflexivity; try lia; intuition (try discriminate; try lia).
Qed.

Lemma isDowngrade_not_earlier c t : isDowngrade c t = false <-> ~ earlier t c.
Proof. rewrite <-isDowngrade_earlier. by destruct (isDowngrade c t). Qed.

Lemma isDowngrade_irrefl a : isDowngrade a a = false.
Proof. apply isDowngrade_not_earlier. unfold earlier. lia. Qed.

(** Going down is a strict partial order on releases: no release is below
    itself, and a chain of downgrades is a downgrade — although tags without a
    patch make it a partial one. *)
Lemma isDowngrade_strict_order :
  (forall a, isDowngrade a a = false) /\
  (forall a b c, isDowngrade a b = true -> isDowngrade b c = true -> isDowngrade a c = true) /\
  exists a b c, isDowngrade a c = true /\
    isDowngrade a b = false /\ isDowngrade b a = false /\
    isDowngrade b c = false /\ isDowngrade c b = false.
Proof.
  split; [|split].
  - apply isDowngrade_irrefl.
  - intros a b c. rewrite !isDowngrade_earlier. unfold earlier. intuition (auto; lia).
  - exists (mkVersionInfo 5 26 32 true), (mkVersionInfo 5 26 0 false), (mkVersionInfo 5 26 31 true).
    repeat split; reflexivity.
Qed.

(** ** Parsing *)

Lemma versionFromParts_dotted a b c :
  goNat a -> goNat b -> goNat (default 0 c) ->
  versionFromParts (dotted a b c) =
  Some (mkVersionInfo a b (default 0 c) (if c is Some _ then true else false)).
Proof.
  unfold goNat. intros Ha Hb Hc. unfold versionFromParts. rewrite Split_dotted by lia.
  rewrite !Atoi_Itoa by lia. destruct c; [by rewrite Atoi_Itoa|done].
Qed.

Lemma dotted_no_v a b c t :
  goNat a -> goNat b -> goNat (default 0 c) ->
  strings.TrimPrefix (dotted a b c +:+ t) "v" = dotted a b c +:+ t.
Proof.
  unfold goNat. intros. apply versionBytes_TrimPrefix; [done|apply dotted_ne_empty|].
  apply dotted_bytes; lia.
Qed.

(** The validator reads a tag as its dotted numbers, whatever suffix or digest
    it carries. *)
Lemma parseVersion_dotted a b c t :
  goNat a -> goNat b -> goNat (default 0 c) -> tagSuffix t ->
  parseVersion (dotted a b c +:+ t) =
  Some (mkVersionInfo a b (default 0 c) (if c is Some _ then true else false)).
Proof.
  intros Ha Hb Hc Ht. unfold parseVersion. rewrite dotted_no_v by done.
  rewrite clean_suffix by (unfold goNat in *; apply dotted_bytes || done; lia).
  by apply versionFromParts_dotted.
Qed.

Lemma trimLeftFunc_id f s :
  (forall c r, s = String c r -> f c = false) -> strings.trimLeftFunc f s = s.
Proof. destruct s as [|c s]; [done|]. simpl. intros H. by rewrite (H c s). Qed.

Lemma trimRightFunc_id f s : allBytes (fun c => negb (f c)) s = true -> strings.trimRightFunc f s = s.
Proof.
  induction s as [|c s IH]; [done|]. simpl. intros [Hc Hs]%andb_true_iff.
  rewrite IH by done. apply negb_true_iff in Hc. rewrite Hc. by destruct s.
Qed.

Lemma trimFunc_id f s : allBytes (fun c => negb (f c)) s = true -> strings.trimFunc f s = s.
Proof.
  intros H. unfold strings.trimFunc. rewrite trimLeftFunc_id; [by apply trimRightFunc_id|].
  intros c r ->. simpl in H. apply andb_true_iff in H as [H _]. by apply negb_true_iff.
Qed.

Lemma versionByte_cases c : versionByte c = true -> c = "."%char \/ (48 <= N_of_ascii c <= 57)%N.
Proof.
  unfold versionByte, isDigit, strconv.digit. intros [H|H]%orb_true_iff.
  - right. destruct ((48 <=? N_of_ascii c)%N && (N_of_ascii c <=? 57)%N) eqn:E; [|done].
    breflect. lia.
  - left. by apply Ascii.eqb_eq.
Qed.

Lemma versionByte_neq (f : ascii -> bool) c :
  f "."%char = false -> (forall n, (48 <= n <= 57)%N -> f (ascii_of_N n) = false) ->
  versionByte c = true -> negb (f c) = true.
Proof.
  intros Hd Hn [->|H]%versionByte_cases; apply negb_true_iff; [done|].
  rewrite <-(ascii_N_embedding c). by apply Hn.
Qed.

Ltac ten_cases n H :=
  assert (n = 48 \/ n = 49 \/ n = 50 \/ n = 51 \/ n = 52 \/ n = 53 \/ n = 54 \/ n = 55 \/ n = 56 \/ n = 57)%N
    as H by lia; repeat destruct H as [->|H]; [..|subst]; done.

Lemma versionByte_notSpace c : versionByte c = true -> negb (strings.isSpace c) = true.
Proof. apply versionByte_neq; [done|]. intros n Hn. ten_cases n Hn'. Qed.

Lemma versionByte_notQuote c : versionByte c = true -> negb (strings.byteIn c quotes) = true.
Proof.
  apply (versionByte_neq (fun c => strings.byteIn c quotes)); [done|]. intros n Hn. ten_cases n Hn'.
Qed.

Lemma versionBytes_notSpace s :
  allBytes versionByte s = true -> allBytes (fun c => negb (strings.isSpace c)) s = true.
Proof. apply allBytes_impl, versionByte_notSpace. Qed.

(** The controller reads what a server reports, plain dotted numbers. *)
Lemma parseNeo4jVersion_dotted a b c :
  goNat a -> goNat b -> goNat (default 0 c) ->
  parseNeo4jVersion (dotted a b c) =
  Some (mkVersionInfo a b (default 0 c) (if c is Some _ then true else false)).
Proof.
  intros Ha Hb Hc. unfold parseNeo4jVersion, strings.TrimSpace.
  assert (Hbytes : allBytes versionByte (dotted a b c) = true)
    by (unfold goNat in *; apply dotted_bytes; lia).
  rewrite trimFunc_id by by apply versionBytes_notSpace.
  rewrite <-(string_app_nil_r (dotted a b c)), dotted_no_v, string_app_nil_r by done.
  rewrite cutBefore_absent by by apply versionBytes_absent. by apply versionFromParts_dotted.
Qed.

Lemma orchParseVersion_tag a b c u :
  goNat a -> goNat b -> goNat (default 0 c) ->
  orchParseVersion (dotted a b c +:+ String "-" u) =
  Some (mkVersionInfo a b (default 0 c) (if c is Some _ then true else false)).
Proof.
  intros Ha Hb Hc. unfold orchParseVersion. rewrite dotted_no_v by done.
  rewrite cutBefore_app; [by apply versionFromParts_dotted|].
  apply versionBytes_absent; [done|]. unfold goNat in *. apply dotted_bytes; lia.
Qed.

Lemma orchParseVersion_plain a b c :
  goNat a -> goNat b -> goNat (default 0 c) ->
  orchParseVersion (dotted a b c) =
  Some (mkVersionInfo a b (default 0 c) (if c is Some _ then true else false)).
Proof.
  intros Ha Hb Hc. unfold orchParseVersion.
  rewrite <-(string_app_nil_r (dotted a b c)), dotted_no_v, string_app_nil_r by done.
  rewrite cutBefore_absent; [by apply versionFromParts_dotted|].
  apply versionBytes_absent; [done|]. unfold goNat in *. apply dotted_bytes; lia.
Qed.

(** On tags and versions in full the validator's order is the one
    [Version.Compare] gives: a move is a downgrade exactly when the target
    compares below, whatever suffixes the two tags carry. *)
Theorem isDowngrade_Compare (a b c a' b' c' : Z) (t t' : string) (v w : Version)
    (cur tgt : VersionInfo) :
  goNat a -> goNat b -> goNat c -> goNat a' -> goNat b' -> goNat c' ->
  tagSuffix t -> tagSuffix t' ->
  ParseVersion (dotted a b (Some c) +:+ t) = Ok v ->
  ParseVersion (dotted a' b' (Some c') +:+ t') = Ok w ->
  parseVersion (dotted a b (Some c) +:+ t) = Some cur ->
  parseVersion (dotted a' b' (Some c') +:+ t') = Some tgt ->
  isDowngrade cur tgt = true <-> Compare w v = -1.
Proof.
  intros Ha Hb Hc Ha' Hb' Hc' Ht Ht' Hv Hw Hcur Htgt.
  rewrite parseVersion_dotted in Hcur, Htgt by done.
  pose proof (ParseVersion_dotted EmptyString a b (Some c) t) as Ev.
  pose proof (ParseVersion_dotted EmptyString a' b' (Some c') t') as Ew.
  simpl in Hcur, Htgt, Ev, Ew, Hv.
  rewrite Ev in Hv by (done || by left). rewrite Ew in Hw by (done || by left). simplify_eq.
  rewrite isDowngrade_earlier. unfold earlier, Compare. simpl. zcases; intuition lia.
Qed.

Lemma isDowngrade_Compare_witness :
  isDowngrade (mkVersionInfo 2026 8 1 true) (mkVersionInfo 5 26 31 true) = true.
Proof.
  apply (isDowngrade_Compare 2026 8 1 5 26 31 "-enterprise" "@sha256:ab"
    (mkVersion 2026 8 1 true "2026.8.1-enterprise") (mkVersion 5 26 31 false "5.26.31@sha256:ab"));
    try reflexivity; try (vm_compute; split; discriminate).
  - right. by exists "enterprise"; left.
  - right. by exists "sha256:ab"; right.
Defined.

(** * The supported moves *)

(** What Neo4j's upgrade guide supports, as the validator's comment states it:
    within CalVer never down, within 5.x to 5.26 only and never down, from 5.26
    to any CalVer. *)
Inductive supportedMove (current target : VersionInfo) : Prop :=
| move_calver :
    isCalVer current = true -> isCalVer target = true -> ~ earlier target current ->
    supportedMove current target
| move_to_lts :
    vi_Major current = 5 -> vi_Major target = 5 -> vi_Minor target = 26 ->
    ~ earlier target current -> supportedMove current target
| move_lts_to_calver :
    vi_Major current = 5 -> vi_Minor current = 26 -> isCalVer target = true ->
    supportedMove current target.

(** For a recorded version and a tag that both parse and differ, the
    validator accepts the tag if and only if the move is one of the supported
    ones. *)
Theorem validateVersionMove_supported (currentVersion tag runs : string) (current target : VersionInfo) :
  currentVersion <> EmptyString -> currentVersion <> tag ->
  parseVersion currentVersion = Some current -> parseVersion tag = Some target ->
  validateVersionMove currentVersion tag runs = [] <-> supportedMove current target.
Proof.
  intros Hne Hneq Hc Ht. unfold validateVersionMove.
  apply String.eqb_neq in Hne, Hneq. rewrite Hne, Hneq, Hc, Ht. simpl.
  destruct (isDowngrade current target) eqn:Ed.
  - apply isDowngrade_earlier in Ed. split; [done|]. intros [?? H|??? H|H1 H2 H3]; [done..|].
    unfold earlier, isCalVer in *. breflect. lia.
  - apply isDowngrade_not_earlier in Ed.
    destruct (isCalVer current) eqn:Ecc, (isCalVer target) eqn:Ect; simpl.
    + split; [by intros _; apply move_calver|done].
    + exfalso. apply Ed. unfold earlier, isCalVer in *. breflect. lia.
    + assert (isSemVer target = false) as -> by (unfold isSemVer, isCalVer in *; breflect; lia).
      rewrite andb_false_r, andb_true_r. unfold validateSemVerToCalVerUpgrade, isSemVer.
      split.
      * intros E. zcases; try discriminate E. by apply move_lts_to_calver.
      * intros [|???|H1 H2 _]; [congruence|unfold isCalVer in *; breflect; lia|].
        by rewrite H1, H2.
    + rewrite andb_false_r. unfold validateSemVerUpgrade, isSemVer. split.
      * intros E. zcases; try discriminate E. by apply move_to_lts.
      * intros [|H1 H2 H3 _|]; [congruence| |congruence]. by rewrite H1, H2, H3.
Qed.

Lemma validateVersionMove_supported_witness :
  validateVersionMove "5.26.31-enterprise" "2026.08-enterprise" "the servers run" = [] /\
  supportedMove (mkVersionInfo 5 26 31 true) (mkVersionInfo 2026 8 0 false).
Proof.
  assert (H : supportedMove (mkVersionInfo 5 26 31 true) (mkVersionInfo 2026 8 0 false))
    by by apply move_lts_to_calver.
  split; [|exact H].
  by apply (validateVersionMove_supported "5.26.31-enterprise" "2026.08-enterprise" "the servers run"
    (mkVersionInfo 5 26 31 true) (mkVersionInfo 2026 8 0 false)).
Defined.

(** * No accepted tag goes below what ran *)

(** Every version a cluster's status says one of its servers runs or has run:
    the verified version, what it resolved to, and for an unfinished upgrade
    the newest version a server started on and what the target resolved to. *)
Definition recordedVersions (status : ClusterStatus) : list string :=
  [cs_Version status; cs_RunningVersion status] ++
  match cs_UpgradeStatus status with
  | Some us =>
      if upgradeUnfinished (Some us) then
        upgradeFloor us ::
        (if String.eqb (upgradeFloor us) EmptyString
            || String.eqb (upgradeFloor us) (us_PreviousVersion us)
         then [] else [us_ResolvedTargetVersion us])
      else []
  | None => []
  end.

Lemma validateVersionMove_not_below v tag runs cur tgt :
  v <> EmptyString -> validateVersionMove v tag runs = [] ->
  parseVersion v = Some cur -> parseVersion tag = Some tgt -> isDowngrade cur tgt = false.
Proof.
  intros Hne%String.eqb_neq H Hc Ht. unfold validateVersionMove in H.
  rewrite Hne, Hc, Ht in H. simpl in H. destruct (String.eqb v tag) eqn:E.
  - apply String.eqb_eq in E as ->. rewrite Hc in Ht. simplify_eq.
    apply isDowngrade_irrefl.
  - by destruct (isDowngrade cur tgt).
Qed.

Lemma belowReported_parsed v tag cur tgt :
  belowReported v tag = false -> v <> EmptyString ->
  parseVersion v = Some cur -> parseVersion tag = Some tgt -> isDowngrade cur tgt = false.
Proof.
  unfold belowReported. intros H Hne%String.eqb_neq Hc Ht. by rewrite Hne, Hc, Ht in H.
Qed.

Lemma parseVersion_empty : parseVersion EmptyString = None.
Proof. reflexivity. Qed.

(** The upgrade part of the rule: neither the floor nor, above the previous
    version, what the target resolved to is above the tag. *)
Lemma validateTagAgainstUpgrade_not_below us tag v cur tgt :
  validateTagAgainstUpgrade (Some us) tag = [] ->
  upgradeUnfinished (Some us) = true ->
  upgradeFloor us <> EmptyString -> upgradeFloor us <> us_PreviousVersion us ->
  v = upgradeFloor us \/ v = us_ResolvedTargetVersion us ->
  parseVersion v = Some cur -> parseVersion tag = Some tgt -> isDowngrade cur tgt = false.
Proof.
  intros H Hu Hf%String.eqb_neq Hp%String.eqb_neq Hv Hc Ht.
  unfold validateTagAgainstUpgrade in H. rewrite Hu, Hf, Hp, Ht in H. simpl in H.
  destruct Hv as [->| ->].
  - rewrite Hc in H. destruct (String.eqb (upgradeFloor us) tag) eqn:E.
    + apply String.eqb_eq in E. rewrite E, Ht in Hc. simplify_eq.
      apply isDowngrade_irrefl.
    + destruct (isDowngrade cur tgt); [|done]. by destruct (String.eqb (upgradeFloor us) (us_TargetVersion us)).
  - assert (us_ResolvedTargetVersion us <> EmptyString) by (intros E; rewrite E in Hc; done).
    destruct (if String.eqb (upgradeFloor us) tag then false else _) eqn:Eb.
    { by destruct (String.eqb (upgradeFloor us) (us_TargetVersion us)). }
    destruct (belowReported (us_ResolvedTargetVersion us) tag) eqn:Er; [done|].
    by eapply belowReported_parsed.
Qed.

Lemma accepted_tag_not_below (cluster : Cluster) (v : string)
    (recorded target : VersionInfo) :
  ValidateTagAgainstRunning cluster = [] ->
  parseVersion (sp_ImageTag (cl_Spec cluster)) = Some target ->
  v ∈ recordedVersions (cl_Status cluster) ->
  (forall us, cs_UpgradeStatus (cl_Status cluster) = Some us -> us_PreviousVersion us = cs_Version (cl_Status cluster)) ->
  parseVersion v = Some recorded ->
  isDowngrade recorded target = false.
Proof.
  set (st := cl_Status cluster). set (tag := sp_ImageTag (cl_Spec cluster)).
  intros H Ht Hin Hprev Hv. unfold ValidateTagAgainstRunning in H. fold st tag in H. rewrite Ht in H.
  assert (Hne : v <> EmptyString) by (intros ->; done).
  assert (H1 : cs_Version st <> EmptyString -> ValidateVersionUpgrade (cs_Version st) tag = []).
  { intros E%String.eqb_neq. rewrite E in H. by destruct (ValidateVersionUpgrade (cs_Version st) tag). }
  assert (H2 : belowReported (cs_RunningVersion st) tag = false /\
    validateTagAgainstUpgrade (cs_UpgradeStatus st) tag = []).
  { destruct (if String.eqb _ _ then _ else _) in H; [|done].
    unfold validateTagAgainstRunningVersion in H.
    by destruct (belowReported (cs_RunningVersion st) tag). }
  destruct H2 as [H2 H3].
  assert (Hver : v = cs_Version st -> isDowngrade recorded target = false).
  { intros ->. eapply validateVersionMove_not_below; [done|by apply H1|done..]. }
  unfold recordedVersions in Hin. apply elem_of_app in Hin as [Hin|Hin].
  - rewrite !elem_of_cons in Hin. destruct Hin as [E|[->|[]%elem_of_nil]]; [by apply Hver|].
    by eapply belowReported_parsed.
  - fold st in Hin. destruct (cs_UpgradeStatus st) as [us|] eqn:Eus; [|by apply elem_of_nil in Hin].
    destruct (upgradeUnfinished (Some us)) eqn:Eu; [|by apply elem_of_nil in Hin].
    specialize (Hprev us eq_refl).
    destruct (String.eqb_spec (upgradeFloor us) EmptyString) as [Ef|Ef].
    { rewrite Ef in Hin. simpl in Hin. apply list_elem_of_singleton in Hin. done. }
    destruct (String.eqb_spec (upgradeFloor us) (us_PreviousVersion us)) as [Ep|Ep].
    { rewrite orb_true_r in Hin. apply list_elem_of_singleton in Hin. apply Hver. congruence. }
    simpl in Hin. rewrite !elem_of_cons in Hin.
    eapply validateTagAgainstUpgrade_not_below; [done..| |done|done].
    destruct Hin as [->|[->|[]%elem_of_nil]]; auto.
Qed.

(** A tag the rule accepts never takes a server below a version the status
    records as run: not below status.version, not below what the servers
    report for it, not below a version an unfinished upgrade started a server
    on. The floor is the previous version of the upgrade (which is
    status.version's business) or it is checked. *)
Theorem ValidateTagAgainstRunning_no_rollback (cluster : Cluster) (v : string)
    (recorded target : VersionInfo) :
  ValidateTagAgainstRunning cluster = [] ->
  parseVersion (sp_ImageTag (cl_Spec cluster)) = Some target ->
  v ∈ recordedVersions (cl_Status cluster) ->
  (forall us, cs_UpgradeStatus (cl_Status cluster) = Some us -> us_PreviousVersion us = cs_Version (cl_Status cluster)) ->
  parseVersion v = Some recorded ->
  isDowngrade recorded target = false.
Proof. apply accepted_tag_not_below. Qed.

(** A cluster half-way through an upgrade of a floating tag, asked for the patch
    its servers ran before. *)
Definition exampleUpgrade : UpgradeStatus :=
  mkUpgradeStatus upgradePhasePaused None None None (Some 2) None EmptyString
    "5.26.31-enterprise" "5.26-enterprise" "5.26.32" "5.26-enterprise"
    (Some (mkUpgradeProgress 3 0 1 2 None)) EmptyString EmptyString.

Definition exampleCluster (tag : string) : Cluster :=
  mkCluster "c" "ns" 1 ∅ (mkClusterSpec "neo4j" tag 3 None)
    (mkClusterStatus PhaseReady EmptyString "5.26.31-enterprise" EmptyString None
       (Some exampleUpgrade) [] None true 1 None).

Lemma ValidateTagAgainstRunning_no_rollback_witness :
  length (ValidateTagAgainstRunning (exampleCluster "5.26.31-enterprise")) = 1%nat /\
  isDowngrade (mkVersionInfo 5 26 32 true) (mkVersionInfo 5 26 33 true) = false.
Proof.
  split; [reflexivity|].
  apply (ValidateTagAgainstRunning_no_rollback (exampleCluster "5.26.33-enterprise") "5.26.32");
    try reflexivity.
  - vm_compute. repeat (first [left | right]).
  - intros us [= <-]. reflexivity.
Defined.

(** * What the servers report *)

(** The numbers a reported version is ordered by; one that does not parse is
    below all that do. *)
Definition reportedKey (v : string) : option (Z * Z * Z) :=
  match parseNeo4jVersion v with
  | Some i => Some (vi_Major i, vi_Minor i, vi_Patch i)
  | None => None
  end.

Definition keyLe (a b : option (Z * Z * Z)) : Prop :=
  match a, b with
  | None, _ => True
  | Some _, None => False
  | Some (a1, a2, a3), Some (b1, b2, b3) =>
      a1 < b1 \/ a1 = b1 /\ (a2 < b2 \/ a2 = b2 /\ a3 <= b3)
  end.

Lemma keyLe_refl a : keyLe a a.
Proof. destruct a as [[[??]?]|]; simpl; [lia|done]. Qed.

Lemma keyLe_trans a b c : keyLe a b -> keyLe b c -> keyLe a c.
Proof.
  destruct a as [[[??]?]|], b as [[[??]?]|], c as [[[??]?]|]; simpl; try done. lia.
Qed.

Lemma laterReportedVersion_max a b :
  keyLe (reportedKey a) (reportedKey (laterReportedVersion a b)) /\
  keyLe (reportedKey b) (reportedKey (laterReportedVersion a b)) /\
  (laterReportedVersion a b = a \/ laterReportedVersion a b = b).
Proof.
  unfold laterReportedVersion, reportedKey.
  destruct (parseNeo4jVersion a) as [pa|] eqn:Ea, (parseNeo4jVersion b) as [pb|] eqn:Eb; simpl;
    zcases; rewrite ?Ea, ?Eb; simpl; split_and!; auto; lia.
Qed.

(** The servers a report is taken from. *)
Definition reporting (include : ServerInfo -> bool) (s : ServerInfo) : Prop :=
  si_State s = "Enabled" /\ si_Version s <> EmptyString /\ include s = true.

(** One round of the loop of [highestReportedVersion]. *)
Definition higherOf (include : ServerInfo -> bool) (highest : string) (s : ServerInfo) : string :=
  if negb (String.eqb (si_State s) "Enabled") || String.eqb (si_Version s) EmptyString
     || negb (include s)
  then highest
  else laterReportedVersion highest (si_Version s).

Lemma higherOf_spec include acc s :
  keyLe (reportedKey acc) (reportedKey (higherOf include acc s)) /\
  (reporting include s -> keyLe (reportedKey (si_Version s)) (reportedKey (higherOf include acc s))) /\
  (higherOf include acc s = acc \/ reporting include s /\ si_Version s = higherOf include acc s).
Proof.
  unfold higherOf, reporting.
  destruct (laterReportedVersion_max acc (si_Version s)) as (? & ? & Hone).
  destruct (String.eqb_spec (si_State s) "Enabled"), (String.eqb_spec (si_Version s) EmptyString),
    (include s); simpl; (split; [|split]); try apply keyLe_refl;
    try (by left); try (by intros (? & ? & ?)); try done.
  destruct Hone as [->|E]; [by left|]. right. by rewrite E.
Qed.

Lemma higherOf_fold include l acc :
  keyLe (reportedKey acc) (reportedKey (fold_left (higherOf include) l acc)) /\
  (forall s, s ∈ l -> reporting include s ->
     keyLe (reportedKey (si_Version s)) (reportedKey (fold_left (higherOf include) l acc))) /\
  (fold_left (higherOf include) l acc = acc \/
   exists s, s ∈ l /\ reporting include s /\ si_Version s = fold_left (higherOf include) l acc).
Proof.
  revert acc. induction l as [|s l IH]; intros acc; simpl.
  - split_and!; [apply keyLe_refl|by intros ? ?%elem_of_nil|by left].
  - destruct (IH (higherOf include acc s)) as (H1 & H2 & H3).
    destruct (higherOf_spec include acc s) as (F1 & F2 & F3). split_and!.
    + by eapply keyLe_trans.
    + intros s' [->|Hin]%elem_of_cons Hr; [eapply keyLe_trans; [by apply F2|done]|by apply H2].
    + destruct H3 as [->|(s' & Hin & Hr & E)]; [|right; exists s'; split_and!; [by right|done..]].
      destruct F3 as [->|[Hr E]]; [by left|]. right. exists s. split_and!; [by left|done..].
Qed.

(** [highestReportedVersion] is the highest version among the Enabled
    servers it is asked about: none of them reports a later one, and it is one
    of their reports (or empty). *)
Theorem highestReportedVersion_spec (servers : list ServerInfo) (include : ServerInfo -> bool) :
  let highest := highestReportedVersion servers include in
  (forall s, s ∈ servers -> reporting include s ->
     keyLe (reportedKey (si_Version s)) (reportedKey highest)) /\
  (highest = EmptyString \/
   exists s, s ∈ servers /\ reporting include s /\ si_Version s = highest).
Proof. apply (higherOf_fold include servers EmptyString). Qed.

(** A reported version with its patch is not above a tag that the check
    against the highest report passed. *)
Lemma notBelow_monotone a b c a' b' c' tag tgt :
  goNat a -> goNat b -> goNat c -> goNat a' -> goNat b' -> goNat c' ->
  keyLe (reportedKey (dotted a b (Some c))) (reportedKey (dotted a' b' (Some c'))) ->
  TagBelowReportedVersion (dotted a' b' (Some c')) tag = false ->
  parseVersion tag = Some tgt ->
  isDowngrade (mkVersionInfo a b c true) tgt = false.
Proof.
  intros Ha Hb Hc Ha' Hb' Hc' Hle Hbelow Ht.
  unfold reportedKey in Hle. rewrite !parseNeo4jVersion_dotted in Hle by done. simpl in Hle.
  apply (belowReported_parsed _ _ (mkVersionInfo a' b' c' true) tgt) in Hbelow;
    [|apply dotted_ne_empty| |done].
  - apply isDowngrade_not_earlier. apply isDowngrade_not_earlier in Hbelow.
    intros E. apply Hbelow. unfold earlier in *. simpl in *. intuition lia.
  - rewrite <-(string_app_nil_r (dotted a' b' (Some c'))).
    rewrite parseVersion_dotted by (done || by left). done.
Qed.

(** The pre-upgrade check reads SHOW SERVERS right: when the tag is not
    below the highest report, no Enabled server runs a release above the tag,
    so starting the upgrade takes none of them down. Neo4j reports versions as
    three numbers. *)
Theorem preUpgrade_versions_sound (servers : list ServerInfo) (tag : string) (target : VersionInfo) :
  (forall s, s ∈ servers -> exists a b c,
     goNat a /\ goNat b /\ goNat c /\ si_Version s = dotted a b (Some c)) ->
  parseVersion tag = Some target ->
  TagBelowReportedVersion (highestReportedVersion servers (fun _ => true)) tag = false ->
  forall s a b c, s ∈ servers -> si_State s = "Enabled" -> goNat a -> goNat b -> goNat c ->
    si_Version s = dotted a b (Some c) ->
    isDowngrade (mkVersionInfo a b c true) target = false.
Proof.
  intros Hrep Ht Hbelow s a b c Hin Hst Ha Hb Hc Hv.
  destruct (higherOf_fold (fun _ => true) servers EmptyString) as (_ & Hmax & Hone).
  assert (Hr : reporting (fun _ => true) s).
  { repeat split; [done|]. rewrite Hv. apply dotted_ne_empty. }
  specialize (Hmax s Hin Hr). rewrite Hv in Hmax.
  destruct Hone as [E|(s' & Hin' & _ & E)].
  - exfalso. rewrite E in Hmax. unfold reportedKey in Hmax.
    rewrite parseNeo4jVersion_dotted in Hmax by done. done.
  - destruct (Hrep s' Hin') as (a' & b' & c' & ? & ? & ? & Hv').
    change (highestReportedVersion servers (fun _ => true))
      with (fold_left (higherOf (fun _ => true)) servers EmptyString) in Hbelow.
    rewrite <-E, Hv' in Hmax, Hbelow. eapply (notBelow_monotone a b c a' b' c' tag); done.
Qed.

Definition exampleServers : list ServerInfo :=
  [mkServerInfo "id-0" "id-0" "c-server-0.c:7687" "Enabled" "Available" ["system"] (dotted 5 26 (Some 31));
   mkServerInfo "id-1" "id-1" "c-server-1.c:7687" "Enabled" "Available" ["system"] (dotted 5 26 (Some 32))].

Lemma preUpgrade_versions_sound_witness :
  isDowngrade (mkVersionInfo 5 26 32 true) (mkVersionInfo 5 26 33 true) = false.
Proof.
  refine (preUpgrade_versions_sound exampleServers "5.26.33-enterprise" (mkVersionInfo 5 26 33 true)
    _ _ _ (mkServerInfo "id-1" "id-1" "c-server-1.c:7687" "Enabled" "Available" ["system"]
             (dotted 5 26 (Some 32))) 5 26 32 _ _ _ _ _ _).
  - intros s Hin. unfold exampleServers in Hin. rewrite !elem_of_cons in Hin.
    destruct Hin as [->|[->|[]%elem_of_nil]]; [exists 5, 26, 31|exists 5, 26, 32];
      unfold goNat, strconv.maxInt64; simpl si_Version; repeat split; lia.
  - vm_compute; reflexivity.
  - vm_compute; reflexivity.
  - right. left.
  - simpl. reflexivity.
  - unfold goNat, strconv.maxInt64. lia.
  - unfold goNat, strconv.maxInt64. lia.
  - unfold goNat, strconv.maxInt64. lia.
  - simpl si_Version. reflexivity.
Defined.

(** * Verification *)

(** A byte the verification's trimming leaves alone. *)
Definition tagByte (c : ascii) : bool :=
  negb (strings.isSpace c) && negb (strings.byteIn c quotes).

Lemma trim_tag s : allBytes tagByte s = true -> strings.TrimSpace (strings.Trim s quotes) = s.
Proof.
  intros H. unfold strings.TrimSpace, strings.Trim.
  rewrite (trimFunc_id _ s), trimFunc_id; [done|eapply allBytes_impl; [|exact H]..];
    unfold tagByte; intros c Hc; breflect; done || (by apply negb_true_iff).
Qed.

Lemma versionBytes_tag s : allBytes versionByte s = true -> allBytes tagByte s = true.
Proof.
  apply allBytes_impl. intros c Hc. unfold tagByte.
  by rewrite versionByte_notSpace, versionByte_notQuote.
Qed.

Lemma dotted_tagBytes a b c :
  goNat a -> goNat b -> goNat (default 0 c) -> allBytes tagByte (dotted a b c) = true.
Proof. unfold goNat. intros. apply versionBytes_tag, dotted_bytes; lia. Qed.

(** The release a version stands for: 2025.01 reports the kernel 5.27. *)
Definition kernel (major minor : Z) : Z * Z :=
  if (major =? 2025) && (minor =? 1) then (5, 27) else (major, minor).

Lemma normalizeKernelAlias_fields v :
  (vi_Major (normalizeKernelAlias v), vi_Minor (normalizeKernelAlias v))
    = kernel (vi_Major v) (vi_Minor v) /\
  vi_Patch (normalizeKernelAlias v) = vi_Patch v /\
  vi_HasPatch (normalizeKernelAlias v) = vi_HasPatch v.
Proof. unfold normalizeKernelAlias, kernel. by destruct (_ && _). Qed.

Lemma match_iff na ne :
  (if negb (vi_Major na =? vi_Major ne) || negb (vi_Minor na =? vi_Minor ne) then false
   else negb (vi_HasPatch ne) || (vi_Patch na =? vi_Patch ne)) = true <->
  (vi_Major na, vi_Minor na) = (vi_Major ne, vi_Minor ne) /\
  (vi_HasPatch ne = true -> vi_Patch na = vi_Patch ne).
Proof. destruct (vi_HasPatch ne); zcases; intuition congruence. Qed.

(** the verification of an upgrade matches what a server reports against
    the tag as it should: the same release line (2025.01 also as its kernel
    5.27), and the same patch unless the tag floats. *)
Theorem versionsMatch_tag (a b c a' b' : Z) (patch : option Z) (u : string) :
  goNat a -> goNat b -> goNat c -> goNat a' -> goNat b' -> goNat (default 0 patch) ->
  allBytes tagByte u = true ->
  versionsMatch (dotted a b (Some c)) (dotted a' b' patch +:+ String "-" u) = true <->
  kernel a b = kernel a' b' /\ (forall p, patch = Some p -> c = p).
Proof.
  intros Ha Hb Hc Ha' Hb' Hp Hu. unfold versionsMatch.
  rewrite !trim_tag by (rewrite ?allBytes_app, ?dotted_tagBytes by done; done).
  assert (Hneq : String.eqb (dotted a b (Some c)) (dotted a' b' patch +:+ String "-" u) = false).
  { apply String.eqb_neq. intros E.
    assert (Hb1 : allBytes versionByte (dotted a b (Some c)) = true)
      by (unfold goNat in *; apply dotted_bytes; simpl; lia).
    rewrite E, allBytes_app in Hb1. apply andb_true_iff in Hb1 as [_ Hb1]. done. }
  rewrite Hneq, orchParseVersion_plain, orchParseVersion_tag by done.
  rewrite match_iff.
  destruct (normalizeKernelAlias_fields (mkVersionInfo a b (default 0 (Some c)) true)) as (-> & -> & _).
  destruct (normalizeKernelAlias_fields
    (mkVersionInfo a' b' (default 0 patch) (if patch is Some _ then true else false))) as (-> & -> & ->).
  cbv [vi_Major vi_Minor vi_Patch vi_HasPatch].
  apply and_iff_compat_l. destruct patch as [p|]; simpl.
  - split; [intros H ? [= <-]; by apply H|intros H _; by apply H].
  - split; [by intros _ ? [=]|by intros _ [=]].
Qed.

Lemma versionsMatch_tag_witness :
  versionsMatch (dotted 5 27 (Some 3)) (dotted 2025 1 None +:+ "-enterprise") = true.
Proof.
  apply (versionsMatch_tag 5 27 3 2025 1 None "enterprise");
    unfold goNat, strconv.maxInt64; cbn [default].
  7: vm_compute; reflexivity.
  7: split; [reflexivity|intros p [=]].
  all: simpl; lia.
Defined.

(** What the loop of [versionMismatchesFromServers] adds for one server. *)
Definition mismatchOf (tag : string) (s : ServerInfo) : list string :=
  let label := if String.eqb (si_Name s) EmptyString then si_Address s else si_Name s in
  if String.eqb (si_Version s) EmptyString then [label +:+ ": no version reported by SHOW SERVERS"]
  else if negb (versionsMatch (si_Version s) tag)
  then [label +:+ ": running " +:+ si_Version s +:+ ", expected " +:+ tag]
  else [].

Definition enabledOf (servers : list ServerInfo) : list ServerInfo :=
  List.filter (fun s => String.eqb (si_State s) "Enabled") servers.

Lemma versionMismatches_loop tag servers :
  versionMismatchesFromServers servers tag
    = (List.concat (map (mismatchOf tag) (enabledOf servers)), Z.of_nat (length (enabledOf servers))).
Proof.
  unfold versionMismatchesFromServers.
  match goal with |- fold_left ?f _ _ = _ => set (step := f) end.
  assert (Hgen : forall l m n, fold_left step l (m, n)
    = (m ++ List.concat (map (mismatchOf tag) (enabledOf l)), n + Z.of_nat (length (enabledOf l)))).
  { induction l as [|s l IH]; intros m n; simpl.
    - by rewrite app_nil_r, Z.add_0_r.
    - destruct (String.eqb (si_State s) "Enabled") eqn:Es; simpl; [|by rewrite IH].
      unfold mismatchOf at 1. destruct (String.eqb (si_Version s) EmptyString);
        [|destruct (versionsMatch (si_Version s) tag)]; simpl; rewrite IH, <-?app_assoc;
        f_equal; lia. }
  by rewrite Hgen.
Qed.

Lemma mismatchOf_nil tag s : mismatchOf tag s = [] -> versionsMatch (si_Version s) tag = true.
Proof.
  unfold mismatchOf. destruct (String.eqb _ _); [done|]. by destruct (versionsMatch _ _).
Qed.

(** An upgrade is verified only when at least one server is Enabled and
    every Enabled server reports a version that matches the tag. *)
Lemma verifyVersionUpgrade_sound (tag h : string) (servers : list ServerInfo) :
  verifyVersionUpgrade tag (Ok servers) = Ok h ->
  (exists s, s ∈ servers /\ si_State s = "Enabled") /\
  forall s, s ∈ servers -> si_State s = "Enabled" -> versionsMatch (si_Version s) tag = true.
Proof.
  unfold verifyVersionUpgrade. destruct (String.eqb tag EmptyString); [done|].
  rewrite versionMismatches_loop. cbv beta iota.
  assert (Hin : forall s, s ∈ enabledOf servers <-> s ∈ servers /\ si_State s = "Enabled").
  { intros s. unfold enabledOf. by rewrite !list_elem_of_In, filter_In, String.eqb_eq. }
  destruct (Z.eqb_spec (Z.of_nat (length (enabledOf servers))) 0) as [|Hne]; [done|].
  destruct (List.concat _) eqn:Hm; [|done]. intros _. split.
  - destruct (enabledOf servers) as [|s l]; [done|]. exists s. apply Hin. left.
  - intros s Hs Es. apply mismatchOf_nil. apply (concat_nil_Forall) in Hm.
    rewrite Forall_map in Hm. eapply (proj1 (Forall_forall _ _)) in Hm; [exact Hm|].
    by apply Hin.
Qed.

(** * A tag pinned by its digest *)

Lemma digits_stop a s c t : strconv.digit c = None -> strconv.digits a (s +:+ String c t) = None.
Proof.
  intros Hc. rewrite digits_app. destruct (strconv.digits a s); simpl; [by rewrite Hc|done].
Qed.

Lemma Atoi_Itoa_stop n c t :
  0 <= n -> strconv.digit c = None -> strconv.Atoi (strconv.Itoa n +:+ String c t) = None.
Proof.
  intros Hn Hc. unfold strconv.Atoi, strconv.AtoiValue, strconv.ParseInt.
  pose proof (digits_Itoa n Hn) as Hd. pose proof (Itoa_ne_empty n) as Hne.
  destruct (strconv.Itoa n) as [|d s] eqn:E; [done|]. simpl.
  destruct (digits_no_sign _ _ _ _ Hd) as [-> ->].
  change (String d (s +:+ String c t)) with (String d s +:+ String c t).
  by rewrite (digits_stop 0 (String d s) c t Hc).
Qed.

Lemma versionFromParts_pinned a b c d :
  goNat a -> goNat b -> goNat c -> without "." d ->
  versionFromParts (dotted a b (Some c) +:+ String "@" d) = Some (mkVersionInfo a b 0 false).
Proof.
  unfold goNat, without. intros Ha Hb Hc Hd. unfold versionFromParts, dotted.
  rewrite !string_app_assoc. simpl.
  rewrite Split_app by (apply Itoa_absent; lia || done).
  rewrite Split_app by (apply Itoa_absent; lia || done).
  rewrite Split_absent by (rewrite allBytes_app, Itoa_absent by (lia || done); exact Hd).
  rewrite !Atoi_Itoa, Atoi_Itoa_stop by (lia || done). done.
Qed.

(** a tag pinned by digest without a dash suffix ("5.26.31@sha256:...")
    names a patch for the version rule, which cuts the digest off, but floats
    for the controller, which does not: its record would follow what servers
    report, and verification accepts any patch of the line. *)
Theorem pinned_tag_floats (a b c c' : Z) (d : string) :
  goNat a -> goNat b -> goNat c -> goNat c' ->
  without "." d -> without "-" d -> allBytes tagByte d = true ->
  let tag := dotted a b (Some c) +:+ String "@" d in
  parseVersion tag = Some (mkVersionInfo a b c true) /\
  tagFloats tag = true /\
  versionsMatch (dotted a b (Some c')) tag = true.
Proof.
  intros Ha Hb Hc Hc' Hdot Hdash Hd tag.
  assert (Htag : allBytes tagByte tag = true).
  { unfold tag. rewrite allBytes_app, dotted_tagBytes by done. exact Hd. }
  assert (Horch : orchParseVersion tag = Some (mkVersionInfo a b 0 false)).
  { unfold orchParseVersion, tag. rewrite dotted_no_v by done. rewrite cutBefore_absent.
    - by apply versionFromParts_pinned.
    - rewrite allBytes_app. rewrite versionBytes_absent; [exact Hdash|done|].
      unfold goNat in *. apply dotted_bytes; simpl; lia. }
  split_and!.
  - apply (parseVersion_dotted a b (Some c)); [done..|]. right. exists d. by right.
  - unfold tagFloats, parseNeo4jVersion, strings.TrimSpace. rewrite trimFunc_id.
    + unfold orchParseVersion in Horch. by rewrite Horch.
    + eapply allBytes_impl; [|exact Htag]. intros x. unfold tagByte. by intros [? _]%andb_true_iff.
  - unfold versionsMatch. rewrite !trim_tag by (done || by apply dotted_tagBytes).
    destruct (String.eqb _ _); [done|]. rewrite orchParseVersion_plain, Horch by done.
    apply match_iff.
    destruct (normalizeKernelAlias_fields (mkVersionInfo a b (default 0 (Some c')) true)) as (-> & -> & _).
    destruct (normalizeKernelAlias_fields (mkVersionInfo a b 0 false)) as (-> & -> & ->). done.
Qed.

Lemma pinned_tag_floats_witness :
  tagFloats (dotted 5 26 (Some 31) +:+ String "@" "sha256:ab12") = true.
Proof.
  apply (pinned_tag_floats 5 26 31 30 "sha256:ab12");
    try (unfold goNat, strconv.maxInt64; simpl; lia); reflexivity.
Defined.
