(* ===== verification/UpgradeRecord.v ===== *)
(** The upgrade record and the partition it holds: when an upgrade is held, what
    a new record keeps of a held one, the partition of a re-created or re-staged
    StatefulSet, what a server started on, the database gate, the recorded
    version and the timing of phases (src/internal/controller/upgrade_hold.go,
    upgrade_started_target.go, upgrade_retarget.go, upgrade_uncached.go,
    upgrade_database_gate.go, running_version.go,
    rolling_upgrade_phase_metrics.go, and the pure parts of
    rolling_upgrade_statemachine.go). Reads of the API server arrive as
    arguments; time.Now() and metav1.Now() are the argument [now]. *)
From S2P Require Import Prelude GoStrings ClusterTypes Conditions Version UpgradeRules.

Open Scope Z_scope.

(** * Names and images *)

Definition maxInt32 : Z := 2147483647.
Definition minInt32 : Z := -2147483648.

(** The ordinal of the pod [pod] of the StatefulSet [sts]. *)
Definition statefulSetOrdinal (sts pod : string) : option Z :=
  match strings.CutPrefix pod (sts +:+ "-") with
  | None => None
  | Some suffix =>
      match strconv.ParseInt suffix minInt32 maxInt32 with
      | (_, Some _) => None
      | (ordinal, None) =>
          if (ordinal <? 0) || negb (String.eqb (strconv.Itoa ordinal) suffix) then None
          else Some ordinal
      end
  end.

Definition Neo4jContainer : string := "neo4j".

Fixpoint podReadyCondition (conditions : list (string * string)) : bool :=
  match conditions with
  | [] => false
  | (t, st) :: rest => if String.eqb t "Ready" then String.eqb st "True" else podReadyCondition rest
  end.

Definition isPodReady (pod : Pod) : bool :=
  if negb (String.eqb (pod_Phase pod) "Running") then false
  else podReadyCondition (pod_Conditions pod).

Definition splitImage (image : string) : option (string * string) :=
  let '(name, digest) :=
    match strings.Index image "@" with
    | Some at_ => (strings.upto at_ image, strings.from at_ image)
    | None => (image, EmptyString)
    end in
  match strings.LastIndexByte name ":" with
  | Some (S _ as i) =>
      let rest := strings.from (S i) name in
      if strings.Contains rest "/" then None
      else Some (strings.upto i name, rest +:+ digest)
  | _ => None
  end.

Definition imageTag (image : string) : string :=
  match splitImage image with Some (_, tag) => tag | None => EmptyString end.

(** The image of the first container of a template, or empty. *)
Definition serverImage (sts : StatefulSet) : string :=
  match sts_Containers sts with (_, image) :: _ => image | [] => EmptyString end.

Definition imageChanges (live desired : StatefulSet) : bool :=
  match sts_Containers live, sts_Containers desired with
  | (_, l) :: _, (_, d) :: _ => negb (String.eqb l d)
  | _, _ => false
  end.

Definition statefulSetPartition (sts : StatefulSet) : option Z :=
  match sts_RollingUpdate sts with Some p => p | None => None end.

Definition recreateRestorePartitionAnnotation : string :=
  "neo4j.com/recreate-restore-partition".

(** The partition and whether a restore is pending. *)
Definition restorePending (sts : StatefulSet) : option Z * bool :=
  match sts_Annotations sts !! recreateRestorePartitionAnnotation with
  | None => (None, false)
  | Some raw =>
      match strconv.ParseInt raw minInt32 maxInt32 with
      | (p, None) => if p <? 0 then (None, true) else (Some p, true)
      | (_, Some _) => (None, true)
      end
  end.

(** * When an upgrade is held *)

Definition upgradeHeld (cluster : Cluster) : bool :=
  match cs_UpgradeStatus (cl_Status cluster) with
  | None => false
  | Some us => String.eqb (us_Phase us) upgradePhasePaused || String.eqb (us_Phase us) upgradePhaseFailed
  end.

Definition autoPauseOnFailure (cluster : Cluster) : bool :=
  match sp_UpgradeStrategy (cl_Spec cluster) with
  | Some st => st_AutoPauseOnFailure st
  | None => false
  end.

Definition upgradeWaitsForUser (cluster : Cluster) : bool :=
  match cs_UpgradeStatus (cl_Status cluster) with
  | None => false
  | Some us =>
      if negb (String.eqb (us_Phase us) upgradePhasePaused) || negb (autoPauseOnFailure cluster)
      then false
      else String.eqb (us_TargetVersion us) EmptyString
           || String.eqb (us_TargetVersion us) (sp_ImageTag (cl_Spec cluster))
  end.

Definition upgradeStateMachineActive (cluster : Cluster) : bool :=
  match cs_UpgradeStatus (cl_Status cluster) with
  | None => false
  | Some us =>
      existsb (String.eqb (us_Phase us))
        [upgradePhaseStaging; upgradePhaseRolling; upgradePhaseStabilizing; upgradePhaseVerifying;
         upgradePhaseLegacyInProgress]
  end.

Definition keptUpgradePartition (cluster : Cluster) (sts : option StatefulSet) : Z :=
  match sts with
  | Some sts =>
      if negb (upgradeHeld cluster) then 0
      else match sts_RollingUpdate sts with
           | Some (Some p) => if 0 <? p then p else 0
           | _ => 0
           end
  | None => 0
  end.

Definition upgradeStaged (us : option UpgradeStatus) (sts : StatefulSet) : bool :=
  match us with
  | None => false
  | Some us =>
      negb (String.eqb (us_TargetVersion us) EmptyString)
      && match sts_Containers sts with
         | (_, image) :: _ => String.eqb (imageTag image) (us_TargetVersion us)
         | [] => false
         end
  end.

(** Whether the rollout is pending, and why. *)
Definition heldRolloutPending (sts : StatefulSet) (partition : Z) : bool * string :=
  let replicas := default 1 (sts_Replicas sts) in
  if sts_ObservedGeneration sts <? sts_Generation sts
  then (true, "the StatefulSet controller has not seen the current template")
  else
    let want := replicas - partition in
    if (0 <? want) && (sts_UpdatedReplicas sts <? want)
    then (true, strconv.Itoa (sts_UpdatedReplicas sts) +:+ "/" +:+ strconv.Itoa want
                +:+ " pods from ordinal " +:+ strconv.Itoa partition
                +:+ " up updated (the upgrade holds the rest)")
    else (false, EmptyString).

Definition partitionForNewServerStatefulSet (cluster : Cluster) (replicas : option Z) : option Z :=
  match cs_UpgradeStatus (cl_Status cluster) with
  | None => None
  | Some us =>
      if negb (upgradeHeld cluster)
         || negb (String.eqb (us_TargetVersion us) (sp_ImageTag (cl_Spec cluster)))
      then None
      else match us_CurrentPartition us with
           | Some p => Some p
           | None => replicas
           end
  end.

(** * The record of an attempt *)

Definition progressReleasedAServer (us : option UpgradeStatus) : bool :=
  match us with
  | None => false
  | Some us =>
      match us_Progress us with
      | None => false
      | Some p => (0 <? up_Upgraded p) || (0 <? up_InProgress p)
      end
  end.

Definition sameHeldUpgrade (us : option UpgradeStatus) (previousVersion : string) : bool :=
  match us with
  | None => false
  | Some us =>
      (String.eqb (us_Phase us) upgradePhasePaused || String.eqb (us_Phase us) upgradePhaseFailed)
      && String.eqb (us_PreviousVersion us) previousVersion
  end.

Definition newUpgradeRecord (held : option UpgradeStatus) (previousVersion targetVersion : string)
    (servers now : Z) : UpgradeStatus :=
  let record :=
    mkUpgradeStatus upgradePhaseStaging (Some now) (Some now) None None None
      "Staging target pod template" previousVersion targetVersion EmptyString previousVersion
      (Some (mkUpgradeProgress servers 0 0 servers None)) EmptyString EmptyString in
  if negb (sameHeldUpgrade held previousVersion) then record
  else match held with
  | None => record
  | Some h =>
      let record :=
        if negb (String.eqb (us_StartedTargetVersion h) EmptyString)
        then set_us_StartedTargetVersion (us_StartedTargetVersion h) record
        else if progressReleasedAServer held
        then set_us_StartedTargetVersion (us_TargetVersion h) record
        else record in
      let record :=
        match us_StartTime h with
        | Some start => set_us_StartTime (Some start) record
        | None => record
        end in
      let record :=
        match us_Progress h with
        | Some progress => set_us_Progress (Some (set_up_Total servers progress)) record
        | None => record
        end in
      let record := set_us_ResolvedTargetVersion (us_ResolvedTargetVersion h) record in
      if String.eqb (us_TargetVersion h) targetVersion
      then set_us_LastError (us_LastError h) record
      else record
  end.

Definition clusterReadyMessage (cluster : Cluster) : string :=
  let ready := "Neo4j cluster is fully formed and ready" in
  match cs_UpgradeStatus (cl_Status cluster) with
  | None => ready
  | Some us =>
      if String.eqb (us_TargetVersion us) EmptyString
         || String.eqb (us_TargetVersion us) (cs_Version (cl_Status cluster)) then ready
      else if upgradeStateMachineActive cluster
      then ready +:+ "; its upgrade to " +:+ us_TargetVersion us
           +:+ " is in progress (status.upgradeStatus)"
      else if String.eqb (us_Phase us) upgradePhasePaused
      then ready +:+ "; its upgrade to " +:+ us_TargetVersion us
           +:+ " is paused (status.upgradeStatus): the servers it has not rolled keep the version they run until spec.image.tag changes or spec.upgradeStrategy.autoPauseOnFailure is set to false"
      else if String.eqb (us_Phase us) upgradePhaseFailed
      then ready +:+ "; its upgrade to " +:+ us_TargetVersion us
           +:+ " failed (status.upgradeStatus), and the operator takes it up again while every server is available"
      else ready
  end.

Definition upgradeStartRetry : Z := minute.

Definition startRefusedRecently (us : option UpgradeStatus) (tag : string) (now : Z) : bool :=
  match us with
  | None => false
  | Some us =>
      String.eqb (us_Phase us) upgradePhaseFailed && String.eqb (us_TargetVersion us) tag
      && match us_StepStartTime us with
         | Some t => now - t <? upgradeStartRetry
         | None => false
         end
  end.

Definition upgradeStepDeadlineExceeded (us : option UpgradeStatus) (budget now : Z) : bool :=
  match us with
  | None => false
  | Some us =>
      match us_StepStartTime us with
      | None => false
      | Some t => t + budget <? now
      end
  end.

(** * What the servers started on *)

(** The image of the last container named neo4j, or empty. *)
Fixpoint lastContainerImage (image : string) (containers : list (string * string)) : string :=
  match containers with
  | [] => image
  | (name, i) :: rest => lastContainerImage (if String.eqb name Neo4jContainer then i else image) rest
  end.

Fixpoint startedStatus (statuses : list ContainerStatus) : bool :=
  match statuses with
  | [] => false
  | s :: rest =>
      if negb (String.eqb (ct_Name s) Neo4jContainer) then startedStatus rest
      else ct_Running s || bool_decide (is_Some (ct_Terminated s)) || bool_decide (is_Some (ct_LastTerminated s))
           || (0 <? ct_RestartCount s)
  end.

Definition containerStartedOn (pod : Pod) (tag : string) : bool :=
  let image := lastContainerImage EmptyString (pod_Containers pod) in
  if String.eqb image EmptyString || negb (String.eqb (imageTag image) tag) then false
  else startedStatus (pod_ContainerStatuses pod).

(** [pods] is what listing the server pods returned. *)
Definition targetStartedOnAServer (pods : result (list Pod)) (tag : string) : result bool :=
  match pods with
  | Err e => Err e
  | Ok pods => Ok (existsb (fun pod => containerStartedOn pod tag) pods)
  end.

(** The image in place and how many of the servers are ready. The
    StatefulSet read is found, absent or failed. *)
Inductive getResult (A : Type) :=
| Found (a : A)
| NotFound
| GetFailed (msg : string).
Arguments Found {A} _.
Arguments NotFound {A}.
Arguments GetFailed {A} _.

Record imageInPlace := mkImageInPlace { ip_image : string; ip_ready : Z }.

(** One pod of the loop over the orphaned server pods. *)
Definition placeStep (stsName : string) (acc : imageInPlace * Z) (pod : Pod) : imageInPlace * Z :=
  let '(place, highest) := acc in
  match statefulSetOrdinal stsName (pod_Name pod) with
  | None => acc
  | Some ordinal =>
      if pod_Deleting pod then acc
      else
        let place := if isPodReady pod then mkImageInPlace (ip_image place) (ip_ready place + 1)
                     else place in
        if ordinal <? highest then (place, highest)
        else fold_left
               (fun '(place, highest) '(name, image) =>
                  if String.eqb name Neo4jContainer
                  then (mkImageInPlace image (ip_ready place), ordinal) else (place, highest))
               (pod_Containers pod) (place, highest)
  end.

Definition serverImageInPlace (cluster : Cluster) (sts : getResult StatefulSet)
    (pods : result (list Pod)) : option imageInPlace :=
  let stsName := cl_Name cluster +:+ "-server" in
  let fromPods :=
    match pods with
    | Err _ => None
    | Ok pods =>
        let '(place, _) := fold_left (placeStep stsName) pods (mkImageInPlace EmptyString 0, -1) in
        if String.eqb (ip_image place) EmptyString then None else Some place
    end in
  match sts with
  | Found s =>
      if negb (restorePending s).2
      then match sts_Containers s with
           | [] => None
           | (_, image) :: _ => Some (mkImageInPlace image (sts_ReadyReplicas s))
           end
      else fromPods
  | NotFound => fromPods
  | GetFailed _ => None
  end.

(** The checks of [forgetAbandonedUpgrade] before it drops the record. *)
Definition upgradeAbandoned (cluster : Cluster) (place : option imageInPlace) : bool :=
  match cs_UpgradeStatus (cl_Status cluster) with
  | None => false
  | Some us =>
      if negb (upgradeHeld cluster) || String.eqb (us_TargetVersion us) EmptyString
         || String.eqb (us_TargetVersion us) (sp_ImageTag (cl_Spec cluster))
         || negb (String.eqb (us_ResolvedTargetVersion us) EmptyString)
      then false
      else if (negb (String.eqb (us_StartedTargetVersion us) EmptyString)
               && negb (String.eqb (us_StartedTargetVersion us) (us_PreviousVersion us)))
              || (String.eqb (us_StartedTargetVersion us) EmptyString && progressReleasedAServer (Some us))
      then false
      else match place with
           | None => false
           | Some place => negb (String.eqb (imageTag (ip_image place)) (us_TargetVersion us))
           end
  end.

(** * The partition of a re-staged upgrade *)

Definition stagingPartition (live desired : StatefulSet) (replicas : Z) : Z :=
  if imageChanges live desired then replicas
  else match statefulSetPartition live with
       | Some p => if (0 <=? p) && (p <? replicas) then p else replicas
       | None => replicas
       end.

(** The counters of the loop of [retargetPartition]: lowest, onUpdate, counted. *)
Definition retargetStep (name : string) (replicas : Z) (current update : string)
    (acc : Z * Z * Z) (pod : Pod) : Z * Z * Z :=
  let '(lowest, onUpdate, counted) := acc in
  match statefulSetOrdinal name (pod_Name pod) with
  | None => acc
  | Some ordinal =>
      let revision := pod_Revision pod in
      if (replicas <=? ordinal) || pod_Deleting pod || String.eqb revision EmptyString then acc
      else if String.eqb revision current then (lowest, onUpdate, counted + 1)
      else
        let onUpdate := if String.eqb revision update then onUpdate + 1 else onUpdate in
        let lowest := if (lowest <? 0) || (ordinal <? lowest) then ordinal else lowest in
        (lowest, onUpdate, counted + 1)
  end.

Definition retargetWait : string :=
  "every server runs the template the upgrade leaves; the StatefulSet controller records it as the current revision once they are all Ready".

(** The partition to stage at, and a reason to wait instead. *)
Definition retargetPartition (live : StatefulSet) (pods : list Pod) (partition : Z)
    (repairing : bool) : Z * string :=
  let current := sts_CurrentRevision live in
  let update := sts_UpdateRevision live in
  match sts_Replicas live with
  | None => (partition, EmptyString)
  | Some replicas =>
      if String.eqb current EmptyString then (partition, EmptyString)
      else
        let '(lowest, onUpdate, counted) :=
          fold_left (retargetStep (sts_Name live) replicas current update) pods (-1, 0, 0) in
        if lowest <? 0 then (partition, EmptyString)
        else if negb repairing && (counted =? replicas) && (onUpdate =? replicas)
                && negb (String.eqb update EmptyString)
        then (partition, retargetWait)
        else if lowest <? partition then (lowest, EmptyString)
        else (partition, EmptyString)
  end.

(** The servers a repair replaces ([serversDown], upgrade_repair.go). *)
Record serversDown := mkServersDown {
  dn_partition : Z;
  dn_failing : list string;
  dn_images : gset string;
  dn_pods : gset string
}.

(** The map of pods by ordinal: a later pod of the list replaces an earlier one. *)
Definition podsByOrdinal (name : string) (pods : list Pod) : gmap Z Pod :=
  fold_left
    (fun m pod => match statefulSetOrdinal name (pod_Name pod) with
                  | Some ordinal => <[ordinal := pod]> m
                  | None => m
                  end) pods ∅.

(** The loop over ordinals [0 .. n-1]. *)
Fixpoint notReadyFrom (name : string) (byOrdinal : gmap Z Pod) (partition : Z)
    (down : option serversDown) (ordinal : Z) (n : nat) : string :=
  match n with
  | O => EmptyString
  | S n' =>
      let next := notReadyFrom name byOrdinal partition down (ordinal + 1) n' in
      let missing := if ordinal <? partition then name +:+ "-" +:+ strconv.Itoa ordinal else next in
      match byOrdinal !! ordinal with
      | None => missing
      | Some pod =>
          if pod_Deleting pod then missing
          else if isPodReady pod then next
          else if (partition <=? ordinal)
                  && match down with Some d => bool_decide (pod_Name pod ∈ dn_pods d) | None => false end
          then next
          else pod_Name pod
      end
  end.

Definition serverNotReadyBelow (live : StatefulSet) (pods : list Pod) (partition : Z)
    (down : option serversDown) : string :=
  match sts_Replicas live with
  | None => EmptyString
  | Some replicas =>
      notReadyFrom (sts_Name live) (podsByOrdinal (sts_Name live) pods) partition down 0
        (Z.to_nat replicas)
  end.

(** * The record as stored *)

Definition samePartition (a b : option Z) : bool :=
  match a, b with
  | None, None => true
  | Some x, Some y => x =? y
  | _, _ => false
  end.

Definition partitionString (p : option Z) : string :=
  match p with None => "none" | Some p => strconv.Itoa p end.

(** [stored] is the uncached read of the cluster. *)
Definition upgradeRecordMovedOn (cluster : Cluster) (stored : result Cluster) : string :=
  match stored with
  | Err e => "the stored upgrade record cannot be read: " +:+ e
  | Ok stored =>
      match cs_UpgradeStatus (cl_Status cluster), cs_UpgradeStatus (cl_Status stored) with
      | _, None => "the stored cluster has no upgrade record"
      | None, Some want =>
          "the stored upgrade record is " +:+ us_Phase want +:+ " towards " +:+ us_TargetVersion want
      | Some have, Some want =>
          if negb (String.eqb (us_Phase want) (us_Phase have))
             || negb (String.eqb (us_TargetVersion want) (us_TargetVersion have))
          then "the stored upgrade record is " +:+ us_Phase want +:+ " towards " +:+ us_TargetVersion want
               +:+ ", the cached one " +:+ us_Phase have +:+ " towards " +:+ us_TargetVersion have
          else if negb (samePartition (us_CurrentPartition want) (us_CurrentPartition have))
          then "the stored upgrade record is at partition " +:+ partitionString (us_CurrentPartition want)
               +:+ ", the cached one at " +:+ partitionString (us_CurrentPartition have)
          else EmptyString
      end
  end.

(** * The version recorded at Ready *)

Definition rolledImageTag (sts : option StatefulSet) : string :=
  match sts with
  | None => EmptyString
  | Some sts =>
      match sts_Containers sts with
      | [] => EmptyString
      | (_, image) :: _ =>
          if sts_ObservedGeneration sts <? sts_Generation sts then EmptyString
          else
            let replicas := default 1 (sts_Replicas sts) in
            if replicas <? 1 then EmptyString
            else if negb (String.eqb (sts_UpdateRevision sts) EmptyString)
                    && negb (String.eqb (sts_CurrentRevision sts) (sts_UpdateRevision sts))
            then EmptyString
            else if (sts_UpdatedReplicas sts <? replicas) || (sts_ReadyReplicas sts <? replicas)
            then EmptyString
            else imageTag image
      end
  end.

(** The tag to record as status.version; empty leaves it. *)
Definition clusterVersionToRecord (status : ClusterStatus) (running : string) : string :=
  if String.eqb running EmptyString || String.eqb running (cs_Version status) then EmptyString
  else match cs_UpgradeStatus status with
       | Some us =>
           if negb (String.eqb (cs_Version status) EmptyString)
              && String.eqb (us_TargetVersion us) running
              && (String.eqb (us_Phase us) upgradePhaseFailed || String.eqb (us_Phase us) upgradePhasePaused)
           then EmptyString else running
       | None => running
       end.

(** * The database gate *)

(** A row of dbms.cluster.statusCheck and of SHOW DATABASES, as the client
    returns them ([ClusterStatusCheckRow], [DatabaseAllocation]). *)
Record ClusterStatusCheckRow := mkClusterStatusCheckRow {
  sc_Database : string;
  sc_ServerID : string;
  sc_Address : string;
  sc_ReplicationSuccessful : bool;
  sc_MemberStatus : string;
  sc_Requester : bool;
  sc_Error : string
}.

Record DatabaseAllocation := mkDatabaseAllocation {
  da_Name : string;
  da_Address : string;
  da_Role : string;
  da_CurrentStatus : string;
  da_RequestedStatus : string
}.

Definition addressIsPod (address podName : string) : bool :=
  let host := match strings.LastIndexByte address ":" with
              | Some i => strings.upto i address
              | None => address
              end in
  String.eqb host podName || strings.HasPrefix host (podName +:+ ".").

Definition evaluateDatabaseGate (podName : string) (checks : list ClusterStatusCheckRow)
    (allocs : list DatabaseAllocation) : bool * list string :=
  let notReady : gset string :=
    fold_left (fun m a =>
        if addressIsPod (da_Address a) podName
           && negb (String.eqb (da_CurrentStatus a) (da_RequestedStatus a))
        then {[da_Name a]} ∪ m else m) allocs ∅ in
  let notReady :=
    fold_left (fun m c =>
        if negb (sc_Requester c) then m
        else if negb (sc_ReplicationSuccessful c) || negb (String.eqb (sc_MemberStatus c) "APPLYING")
                || negb (String.eqb (sc_Error c) EmptyString)
        then {[sc_Database c]} ∪ m else m) checks notReady in
  let names := sort.Strings (elements notReady) in
  (Nat.eqb (length names) 0, names).

Definition databaseNameList (names : list string) : string :=
  let shown := 5%nat in
  if (length names <=? shown)%nat then strings.Join names ", "
  else strings.Join (take shown names) ", " +:+ " and "
       +:+ strconv.Itoa (Z.of_nat (length names - shown)) +:+ " more".

Definition databaseGateMessage (ordinal : Z) (notReady : list string) : string :=
  "Rolling server ordinal " +:+ strconv.Itoa ordinal
  +:+ ": waiting for its databases to catch up (" +:+ databaseNameList notReady +:+ ")".

(** The highest version reported by the servers a held upgrade rolled. *)
Definition heldTargetServerVersion (cluster : Cluster) (sts : option StatefulSet)
    (servers : list ServerInfo) : string :=
  match sts, cs_UpgradeStatus (cl_Status cluster) with
  | Some sts, Some us =>
      match sts_Containers sts with
      | [] => EmptyString
      | (_, image) :: _ =>
          if negb (upgradeHeld cluster) then EmptyString
          else if negb (tagFloats (us_TargetVersion us))
                  || negb (String.eqb (imageTag image) (us_TargetVersion us)) then EmptyString
          else
            let replicas := default 1 (sts_Replicas sts) in
            let partition := match sts_RollingUpdate sts with
                             | Some (Some p) => if 0 <? p then p else 0
                             | _ => 0
                             end in
            if replicas <=? partition then EmptyString
            else highestReportedVersion servers
                   (fun s => existsb
                      (fun i => addressIsPod (si_Address s)
                                  (cl_Name cluster +:+ "-server-" +:+ strconv.Itoa i))
                      (seqZ partition (replicas - partition)))
      end
  | _, _ => EmptyString
  end.

(** * Timing the phases *)

Record endedUpgradePhase := mkEndedUpgradePhase { ep_phase : string; ep_duration : Z }.

Definition isTimedUpgradePhase (phase : string) : bool :=
  existsb (String.eqb phase)
    [upgradePhaseStaging; upgradePhaseRolling; upgradePhaseStabilizing; upgradePhaseVerifying].

Definition stampUpgradePhaseTransition (us : UpgradeStatus) (prevPhase : string)
    (prevPhaseStart : option Z) (now : Z) : UpgradeStatus * option endedUpgradePhase :=
  if String.eqb (us_Phase us) prevPhase then (us, None)
  else
    let us := set_us_PhaseStartTime (Some now) us in
    match prevPhaseStart with
    | None => (us, None)
    | Some start =>
        if negb (isTimedUpgradePhase prevPhase) then (us, None)
        else
          let d := now - start in
          let d := if d <? 0 then 0 else d in
          (us, Some (mkEndedUpgradePhase prevPhase d))
    end.

(** * Names *)

Lemma statefulSetOrdinal_name sts n :
  0 <= n <= maxInt32 -> statefulSetOrdinal sts (sts +:+ "-" +:+ strconv.Itoa n) = Some n.
Proof.
  intros Hn. unfold statefulSetOrdinal. rewrite <-string_app_assoc, CutPrefix_app.
  rewrite (ParseInt_digits _ n); [|apply Itoa_ne_empty|apply digits_Itoa; lia|unfold minInt32; lia].
  rewrite String.eqb_refl. by destruct (Z.ltb_spec n 0); [lia|].
Qed.

Lemma statefulSetOrdinal_inv sts pod n :
  statefulSetOrdinal sts pod = Some n -> 0 <= n <= maxInt32 /\ pod = sts +:+ "-" +:+ strconv.Itoa n.
Proof.
  unfold statefulSetOrdinal, strings.CutPrefix.
  destruct (strings.HasPrefix pod (sts +:+ "-")) eqn:Hp; [|done].
  apply HasPrefix_spec in Hp as [t ->]. rewrite from_length_app.
  destruct (strconv.ParseInt t minInt32 maxInt32) as [v [e|]] eqn:P; [done|].
  destruct ((v <? 0) || _) eqn:E; [done|]. intros [= <-]. breflect.
  apply ParseInt_range in P. split; [lia|]. subst. by rewrite string_app_assoc.
Qed.

(** a pod's name gives its ordinal back, and only the StatefulSet's own
    pod of that ordinal does: no other StatefulSet's pod, no other spelling of
    the number. *)
Theorem statefulSetOrdinal_iff (sts pod : string) (n : Z) :
  statefulSetOrdinal sts pod = Some n <->
  0 <= n <= maxInt32 /\ pod = sts +:+ "-" +:+ strconv.Itoa n.
Proof.
  split; [apply statefulSetOrdinal_inv|]. intros [Hn ->]. by apply statefulSetOrdinal_name.
Qed.

(** * Images *)

Lemma splitImage_tagged repo tag digest :
  repo <> EmptyString -> without "@" repo -> without "@" tag -> without ":" tag -> without "/" tag ->
  (digest = EmptyString \/ exists d, digest = String "@" d) ->
  splitImage (repo +:+ ":" +:+ tag +:+ digest) = Some (repo, tag +:+ digest).
Proof.
  unfold without. intros Hne Hr Ht Hc Hs Hd. unfold splitImage.
  assert (Hname : allBytes (fun c => negb (Ascii.eqb c "@")) (repo +:+ ":" +:+ tag) = true).
  { by rewrite allBytes_app, Hr. }
  assert (Hsplit : match strings.Index (repo +:+ ":" +:+ tag +:+ digest) "@" with
    | Some a => (strings.upto a (repo +:+ ":" +:+ tag +:+ digest),
                 strings.from a (repo +:+ ":" +:+ tag +:+ digest))
    | None => (repo +:+ ":" +:+ tag +:+ digest, EmptyString) end = (repo +:+ ":" +:+ tag, digest)).
  { rewrite <-!string_app_assoc. rewrite <-string_app_assoc in Hname. destruct Hd as [->|[d ->]].
    - rewrite string_app_nil_r. by rewrite Index_single_None.
    - rewrite Index_single_app by done. by rewrite upto_length_app, from_length_app. }
  rewrite Hsplit. change (repo +:+ ":" +:+ tag) with (repo +:+ String ":" tag).
  rewrite LastIndexByte_app by done.
  destruct repo as [|c repo]; [done|]. change (String.length (String c repo)) with (S (String.length repo)).
  cbv iota. change (S (String.length repo)) with (String.length (String c repo)).
  rewrite from_S_length_app, upto_length_app.
  unfold strings.Contains. by rewrite Index_single_None.
Qed.

(** an image built as repo:tag, the tag with or without a digest and the
    repo with or without a registry port, splits back into that repo and
    tag. *)
Theorem splitImage_roundtrip (repo tag digest : string) :
  repo <> EmptyString -> without "@" repo ->
  without "@" tag -> without ":" tag -> without "/" tag ->
  (digest = EmptyString \/ exists d, digest = String "@" d) ->
  splitImage (repo +:+ ":" +:+ tag +:+ digest) = Some (repo, tag +:+ digest) /\
  imageTag (repo +:+ ":" +:+ tag +:+ digest) = tag +:+ digest.
Proof. intros. unfold imageTag. by rewrite splitImage_tagged. Qed.

Lemma splitImage_roundtrip_witness :
  imageTag "registry:5000/neo4j:2026.08.1-enterprise@sha256:ab" = "2026.08.1-enterprise@sha256:ab".
Proof.
  refine (proj2 (splitImage_roundtrip "registry:5000/neo4j" "2026.08.1-enterprise" "@sha256:ab"
    _ _ _ _ _ _)); [discriminate|reflexivity..|].
  right. exists "sha256:ab". reflexivity.
Defined.

(** * Addresses *)

Lemma addressIsPod_host host port pod :
  without ":" port ->
  addressIsPod (host +:+ ":" +:+ port) pod = String.eqb host pod || strings.HasPrefix host (pod +:+ ".").
Proof.
  intros Hp. unfold addressIsPod. change (host +:+ ":" +:+ port) with (host +:+ String ":" port).
  by rewrite LastIndexByte_app, upto_length_app.
Qed.

(** the address a server advertises, its pod's name in a domain with a
    port, belongs to that pod and to no other pod of the cluster: server-1 does
    not match server-10. *)
Theorem addressIsPod_exact (base domain port : string) (n m : Z) :
  without ":" port -> without "." base -> 0 <= n -> 0 <= m ->
  addressIsPod ((base +:+ "-" +:+ strconv.Itoa n +:+ "." +:+ domain) +:+ ":" +:+ port)
    (base +:+ "-" +:+ strconv.Itoa m) = (n =? m).
Proof.
  intros Hport Hbase Hn Hm. rewrite addressIsPod_host by done.
  assert (Hdot : forall k, 0 <= k -> without "." (base +:+ "-" +:+ strconv.Itoa k)).
  { intros k Hk. unfold without in *. rewrite allBytes_app, Hbase. simpl. by rewrite Itoa_absent. }
  assert (Hnodot : forall k s, 0 <= k -> base +:+ "-" +:+ strconv.Itoa k <> s +:+ "." +:+ domain).
  { intros k s Hk E. pose proof (Hdot k Hk) as Hd. unfold without in Hd.
    rewrite E, allBytes_app in Hd. apply andb_true_iff in Hd as [_ Hd]. done. }
  assert (Hassoc : base +:+ "-" +:+ strconv.Itoa n +:+ "." +:+ domain
    = (base +:+ "-" +:+ strconv.Itoa n) +:+ "." +:+ domain) by (by rewrite !string_app_assoc).
  rewrite Hassoc. destruct (String.eqb_spec ((base +:+ "-" +:+ strconv.Itoa n) +:+ "." +:+ domain)
    (base +:+ "-" +:+ strconv.Itoa m)) as [E|_]; [by destruct (Hnodot m _ Hm (eq_sym E))|]. simpl.
  destruct (Z.eqb_spec n m) as [->|Hne].
  - apply HasPrefix_spec. exists domain. by rewrite !string_app_assoc.
  - apply not_true_iff_false. intros [t Ht]%HasPrefix_spec.
    rewrite (string_app_assoc (base +:+ "-" +:+ strconv.Itoa m)) in Ht.
    apply string_app_sep in Ht as [Ht _]; [|apply Hdot; lia..].
    apply string_app_inj_r in Ht. injection Ht as Ht. by apply Itoa_inj in Ht.
Qed.

Lemma addressIsPod_exact_witness :
  addressIsPod (("c-server" +:+ "-" +:+ strconv.Itoa 10 +:+ "." +:+ "c-headless.ns.svc") +:+ ":" +:+ "7687")
    ("c-server" +:+ "-" +:+ strconv.Itoa 1) = (10 =? 1).
Proof. apply addressIsPod_exact; [reflexivity|reflexivity|lia|lia]. Defined.

(** * Taking up a held upgrade *)

Lemma newUpgradeRecord_resumed h prev target servers now :
  sameHeldUpgrade (Some h) prev = true ->
  let r := newUpgradeRecord (Some h) prev target servers now in
  us_Phase r = upgradePhaseStaging /\ us_TargetVersion r = target /\ us_PreviousVersion r = prev /\
  us_ResolvedTargetVersion r = us_ResolvedTargetVersion h /\
  us_StartedTargetVersion r
    = (if negb (String.eqb (us_StartedTargetVersion h) EmptyString) then us_StartedTargetVersion h
       else if progressReleasedAServer (Some h) then us_TargetVersion h else prev) /\
  us_StartTime r = (if us_StartTime h is Some t then Some t else Some now) /\
  us_Progress r = (if us_Progress h is Some p then Some (set_up_Total servers p)
                   else Some (mkUpgradeProgress servers 0 0 servers None)) /\
  us_StepStartTime r = Some now.
Proof.
  intros Hs. cbv zeta. unfold newUpgradeRecord. rewrite Hs. cbn [negb].
  destruct (negb (String.eqb (us_StartedTargetVersion h) EmptyString));
    [|destruct (progressReleasedAServer (Some h))];
    destruct (us_StartTime h), (us_Progress h), (String.eqb (us_TargetVersion h) target);
    repeat split.
Qed.

(** A tag below the floor the upgrade record sets. *)
Definition belowFloor (floor previous resolved tag : string) : bool :=
  if String.eqb floor EmptyString || String.eqb floor previous then false
  else (negb (String.eqb floor tag)
        && match parseVersion tag, parseVersion floor with
           | Some target, Some current => isDowngrade current target
           | _, _ => false
           end)
       || belowReported resolved tag.

Lemma validateTagAgainstUpgrade_floor us tag :
  upgradeUnfinished (Some us) = true ->
  (validateTagAgainstUpgrade (Some us) tag = [] <->
   belowFloor (upgradeFloor us) (us_PreviousVersion us) (us_ResolvedTargetVersion us) tag = false).
Proof.
  intros Hu. unfold validateTagAgainstUpgrade, belowFloor. rewrite Hu. cbn [negb].
  destruct (_ || _); [done|]. destruct (String.eqb (upgradeFloor us) tag); simpl.
  - by destruct (belowReported (us_ResolvedTargetVersion us) tag).
  - destruct (parseVersion tag) as [t|], (parseVersion (upgradeFloor us)) as [c|];
      try destruct (isDowngrade c t); simpl;
      destruct (String.eqb (upgradeFloor us) (us_TargetVersion us));
      by destruct (belowReported (us_ResolvedTargetVersion us) tag).
Qed.

Lemma held_unfinished us prev :
  sameHeldUpgrade (Some us) prev = true -> us_TargetVersion us <> EmptyString ->
  upgradeUnfinished (Some us) = true.
Proof.
  unfold sameHeldUpgrade, upgradeUnfinished. intros [Hp _]%andb_true_iff Ht.
  apply String.eqb_neq in Ht. rewrite Ht. apply orb_true_iff in Hp as [Hp|Hp]; breflect; by rewrite Hp.
Qed.

(** An upgrade taken up after it stopped, towards the same or another tag,
    refuses exactly the tags the stopped one refused: the version the restarted
    servers started on survives the new record. *)
Theorem resumed_upgrade_keeps_floor (held : UpgradeStatus) (prev target tag : string)
    (servers now : Z) :
  sameHeldUpgrade (Some held) prev = true ->
  us_TargetVersion held <> EmptyString -> target <> EmptyString ->
  validateTagAgainstUpgrade (Some (newUpgradeRecord (Some held) prev target servers now)) tag = [] <->
  validateTagAgainstUpgrade (Some held) tag = [].
Proof.
  intros Hs Ht Hn. pose proof (held_unfinished _ _ Hs Ht) as Hu.
  destruct (newUpgradeRecord_resumed held prev target servers now Hs)
    as (Hp & Htg & Hpv & Hr & Hst & _ & Hpr & _).
  set (r := newUpgradeRecord (Some held) prev target servers now) in *.
  assert (Hprev : us_PreviousVersion held = prev).
  { unfold sameHeldUpgrade in Hs. breflect. done. }
  assert (Hur : upgradeUnfinished (Some r) = true).
  { unfold upgradeUnfinished. rewrite Htg, Hp. by rewrite (proj2 (String.eqb_neq _ _) Hn). }
  rewrite !validateTagAgainstUpgrade_floor, Hpv, Hr, Hprev by done.
  unfold upgradeFloor. rewrite Hst. unfold upgradeRestartedAServer. rewrite Hu, Hur, Hpr, Htg. cbn [negb].
  destruct (String.eqb_spec (us_StartedTargetVersion held) EmptyString) as [E|E]; cbn [negb].
  - unfold progressReleasedAServer. destruct (us_Progress held) as [p|]; cbn.
    + destruct (_ || _) eqn:Ep; cbn.
      * by rewrite (proj2 (String.eqb_neq _ _) Ht).
      * destruct (String.eqb_spec prev EmptyString) as [->|]; cbn; [done|].
        unfold belowFloor. by autorewrite with go.
    + destruct (String.eqb_spec prev EmptyString) as [->|]; cbn; [done|].
      unfold belowFloor. by autorewrite with go.
  - by rewrite (proj2 (String.eqb_neq _ _) E).
Qed.

Lemma resumed_upgrade_keeps_floor_witness :
  validateTagAgainstUpgrade (Some (newUpgradeRecord
    (Some (mkUpgradeStatus "Paused" None None None (Some 2) None "s" "5.26.30" "2026.09.1"
      EmptyString "2026.09.1" None EmptyString "e")) "5.26.30" "2026.09.2" 3 100)) "2026.08.1" = [] <->
  validateTagAgainstUpgrade
    (Some (mkUpgradeStatus "Paused" None None None (Some 2) None "s" "5.26.30" "2026.09.1"
      EmptyString "2026.09.1" None EmptyString "e")) "2026.08.1" = [].
Proof. apply resumed_upgrade_keeps_floor; [reflexivity|discriminate..]. Defined.

(** * The re-staged partition *)

(** The pods the loop of [retargetPartition] looks at: a server of the
    StatefulSet, not being deleted, with a revision. *)
Definition countedPod (live : StatefulSet) (replicas ordinal : Z) (pod : Pod) : Prop :=
  statefulSetOrdinal (sts_Name live) (pod_Name pod) = Some ordinal /\ ordinal < replicas /\
  pod_Deleting pod = false /\ pod_Revision pod <> EmptyString.

(** Such a pod the upgrade has moved off the StatefulSet's current revision. *)
Definition movedPod (live : StatefulSet) (replicas ordinal : Z) (pod : Pod) : Prop :=
  countedPod live replicas ordinal pod /\ pod_Revision pod <> sts_CurrentRevision live.

Lemma retargetStep_lowest live replicas pods lowest onUpdate counted :
  (lowest = -1 \/ 0 <= lowest) ->
  let '(l, _, _) := fold_left (retargetStep (sts_Name live) replicas (sts_CurrentRevision live)
                     (sts_UpdateRevision live)) pods (lowest, onUpdate, counted) in
  (l = -1 \/ 0 <= l) /\
  (0 <= lowest -> 0 <= l <= lowest) /\
  (forall ordinal pod, pod ∈ pods -> movedPod live replicas ordinal pod -> 0 <= l <= ordinal) /\
  (l = lowest \/ exists pod, pod ∈ pods /\ movedPod live replicas l pod).
Proof.
  revert lowest onUpdate counted. induction pods as [|pod pods IH]; intros lowest onUpdate counted Hl.
  { simpl. split_and!; [done|lia|intros ? ? []%elem_of_nil|by left]. }
  cbn [fold_left]. set (acc' := retargetStep _ _ _ _ (lowest, onUpdate, counted) pod).
  unfold retargetStep in acc'. subst acc'.
  assert (Hskip : forall u c, (forall ordinal, ~ movedPod live replicas ordinal pod) ->
    let '(l, _, _) := fold_left (retargetStep (sts_Name live) replicas (sts_CurrentRevision live)
                     (sts_UpdateRevision live)) pods (lowest, u, c) in
    (l = -1 \/ 0 <= l) /\ (0 <= lowest -> 0 <= l <= lowest) /\
    (forall ordinal p, p ∈ pod :: pods -> movedPod live replicas ordinal p -> 0 <= l <= ordinal) /\
    (l = lowest \/ exists p, p ∈ pod :: pods /\ movedPod live replicas l p)).
  { intros u c Hnot. specialize (IH lowest u c Hl).
    destruct (fold_left _ pods _) as [[l ?] ?]. destruct IH as (H1 & H2 & H3 & H4). split_and!; try done.
    - intros o p [->|Hin]%elem_of_cons Hm; [by destruct (Hnot o)|by eapply H3].
    - destruct H4 as [|(p & ? & ?)]; [by left|right; exists p; by split; [right|]]. }
  destruct (statefulSetOrdinal (sts_Name live) (pod_Name pod)) as [o|] eqn:Ho.
  2: { apply Hskip. intros o' [(E & _) _]. congruence. }
  destruct ((replicas <=? o) || _ || _) eqn:Eskip.
  { apply Hskip. intros o' [(E & Hlt & Hd & Hr) _]. rewrite Ho in E. injection E as ->.
    rewrite Hd in Eskip. apply String.eqb_neq in Hr. rewrite Hr in Eskip.
    destruct (Z.leb_spec replicas o'); [lia|done]. }
  destruct (String.eqb_spec (pod_Revision pod) (sts_CurrentRevision live)) as [Er|Er].
  { apply Hskip. by intros o' [_ Hne]. }
  breflect. pose proof (statefulSetOrdinal_inv _ _ _ Ho) as [Hop _].
  set (lowest' := if (lowest <? 0) || (o <? lowest) then o else lowest).
  assert (Hl' : 0 <= lowest' <= o /\ (0 <= lowest -> lowest' <= lowest) /\
                (lowest' = o \/ lowest' = lowest)).
  { unfold lowest'. destruct (Z.ltb_spec lowest 0), (Z.ltb_spec o lowest); simpl; lia. }
  set (u' := if String.eqb _ _ then _ else _). specialize (IH lowest' u' (counted + 1) (or_intror (proj1 (proj1 Hl')))).
  clearbody u'. destruct (fold_left _ pods _) as [[l ?] ?]. destruct IH as (K1 & K2 & K3 & K4).
  assert (Hmine : movedPod live replicas o pod) by (repeat split; done).
  split_and!; [done|lia| |].
  - intros o' p [->|Hin]%elem_of_cons Hm; [|by eapply K3].
    destruct Hm as [(E & _) _]. rewrite Ho in E. injection E as ->. lia.
  - destruct K4 as [->|(p & ? & ?)].
    + destruct Hl' as (_ & _ & [-> | ->]); [right; exists pod; by split; [left|]|by left].
    + right. exists p. by split; [right|].
Qed.

(** Staging never puts a server the upgrade has moved on below the
    partition: unless it waits, the partition it writes is at most the one
    asked for, no moved server's ordinal is below it, and it is lower only
    because it is a moved server's ordinal. *)
Theorem retargetPartition_safe (live : StatefulSet) (pods : list Pod) (partition p replicas : Z)
    (repairing : bool) :
  sts_Replicas live = Some replicas -> sts_CurrentRevision live <> EmptyString ->
  retargetPartition live pods partition repairing = (p, EmptyString) ->
  p <= partition /\
  (forall ordinal pod, pod ∈ pods -> movedPod live replicas ordinal pod -> p <= ordinal) /\
  (p = partition \/ exists pod, pod ∈ pods /\ movedPod live replicas p pod).
Proof.
  intros Hrep Hcur. unfold retargetPartition. rewrite Hrep.
  rewrite (proj2 (String.eqb_neq _ _) Hcur).
  pose proof (retargetStep_lowest live replicas pods (-1) 0 0 (or_introl eq_refl)) as H.
  destruct (fold_left _ pods _) as [[l u] c]. destruct H as (H1 & _ & H3 & H4).
  destruct (Z.ltb_spec l 0) as [Hneg|Hpos].
  { intros [= <-]. split_and!; [lia| |by left]. intros o pod Hin Hm. pose proof (H3 o pod Hin Hm). lia. }
  destruct (_ && _); [done|]. destruct H4 as [->|Hex]; [lia|].
  destruct (Z.ltb_spec l partition) as [Hlt|Hge]; intros [= <-]; split_and!; try lia.
  - intros o pod Hin Hm. by apply (H3 o pod).
  - by right.
  - intros o pod Hin Hm. pose proof (H3 o pod Hin Hm). lia.
Qed.

(** Two servers of three on the revision of the target being left. *)
Definition exampleLive : StatefulSet :=
  mkStatefulSet "c-server" ∅ 4 (Some 3) [("neo4j", "neo4j:2026.09.1-enterprise")] (Some (Some 1))
    4 2 3 "rev-a" "rev-b".

Definition examplePod (name revision : string) : Pod :=
  mkPod name revision false [("neo4j", "neo4j:2026.09.1-enterprise")] "Running" [("Ready", "True")] [] [].

Definition examplePods : list Pod :=
  [examplePod "c-server-0" "rev-a"; examplePod "c-server-1" "rev-b"; examplePod "c-server-2" "rev-b"].

Lemma retargetPartition_safe_witness :
  retargetPartition exampleLive examplePods 3 false = (1, EmptyString) /\ 1 <= 3.
Proof.
  split; [vm_compute; reflexivity|].
  refine (proj1 (retargetPartition_safe exampleLive examplePods 3 1 3 false _ _ _));
    [reflexivity|discriminate|vm_compute; reflexivity].
Defined.

(** * The servers a staging write would restart others under *)

Definition serverUp (byOrdinal : gmap Z Pod) (partition : Z) (down : option serversDown)
    (ordinal : Z) : Prop :=
  match byOrdinal !! ordinal with
  | Some pod =>
      if pod_Deleting pod then partition <= ordinal
      else isPodReady pod = true \/
           (partition <= ordinal /\ exists d, down = Some d /\ pod_Name pod ∈ dn_pods d)
  | None => partition <= ordinal
  end.

Lemma notReadyFrom_empty name m partition down o n :
  (forall i pod, m !! i = Some pod -> pod_Name pod <> EmptyString) ->
  notReadyFrom name m partition down o n = EmptyString ->
  forall i, o <= i < o + Z.of_nat n -> serverUp m partition down i.
Proof.
  intros Hname. revert o. induction n as [|n IH]; intros o H i Hi; [lia|]. cbn [notReadyFrom] in H.
  assert (Hnext : notReadyFrom name m partition down (o + 1) n = EmptyString ->
    i <> o -> serverUp m partition down i) by (intros; eapply IH; [done|lia]).
  assert (Hname_ne : forall s, name +:+ "-" +:+ s <> EmptyString) by (by destruct name).
  unfold serverUp in *. destruct (decide (i = o)) as [->|Hne].
  - destruct (m !! o) as [pod|] eqn:Em.
    + destruct (pod_Deleting pod); [destruct (Z.ltb_spec o partition); [by destruct (Hname_ne _ H)|done]|].
      destruct (isPodReady pod); [by left|]. destruct (_ && _) eqn:E; [|by destruct (Hname o pod)].
      breflect. right. split; [done|]. destruct down as [d|]; [|done]. exists d. by breflect.
    + by destruct (Z.ltb_spec o partition); [destruct (Hname_ne _ H)|].
  - apply Hnext; [|done]. destruct (m !! o) as [pod|] eqn:Em.
    + destruct (pod_Deleting pod); [destruct (Z.ltb_spec o partition); [by destruct (Hname_ne _ H)|done]|].
      destruct (isPodReady pod); [done|]. destruct (_ && _); [done|by destruct (Hname o pod)].
    + by destruct (Z.ltb_spec o partition); [destruct (Hname_ne _ H)|].
Qed.

Lemma podsByOrdinal_elem name pods i pod :
  podsByOrdinal name pods !! i = Some pod -> pod ∈ pods /\ statefulSetOrdinal name (pod_Name pod) = Some i.
Proof.
  unfold podsByOrdinal.
  assert (Hgen : forall l (m : gmap Z Pod), fold_left (fun m pod => match statefulSetOrdinal name (pod_Name pod) with
      | Some ordinal => <[ordinal := pod]> m | None => m end) l m !! i = Some pod ->
    m !! i = Some pod \/ (pod ∈ l /\ statefulSetOrdinal name (pod_Name pod) = Some i)).
  { induction l as [|q l IH]; intros m; simpl; [by left|]. intros H. apply IH in H as [H|[? ?]].
    - destruct (statefulSetOrdinal name (pod_Name q)) as [o|] eqn:Eo; [|by left].
      apply lookup_insert_Some in H as [[-> ->]|[_ H]]; [right; split; [left|done]|by left].
    - right. by split; [right|]. }
  intros H. apply Hgen in H as [H|H]; [by rewrite lookup_empty in H|done].
Qed.

(** a staging write that restarts servers happens only when every server
    below the partition has a Ready pod, and every pod at or above it is Ready,
    gone or among the servers being replaced. *)
Theorem serverNotReadyBelow_sound (live : StatefulSet) (pods : list Pod) (partition replicas : Z)
    (down : option serversDown) :
  sts_Replicas live = Some replicas ->
  serverNotReadyBelow live pods partition down = EmptyString ->
  forall ordinal, 0 <= ordinal < replicas ->
  serverUp (podsByOrdinal (sts_Name live) pods) partition down ordinal /\
  (ordinal < partition -> exists pod, pod ∈ pods /\
     statefulSetOrdinal (sts_Name live) (pod_Name pod) = Some ordinal /\
     pod_Deleting pod = false /\ isPodReady pod = true).
Proof.
  intros Hrep. unfold serverNotReadyBelow. rewrite Hrep. intros H o Ho.
  assert (Hup : serverUp (podsByOrdinal (sts_Name live) pods) partition down o).
  { eapply notReadyFrom_empty; [|done|lia]. intros i pod Hp%podsByOrdinal_elem.
    destruct Hp as [_ [_ ->]%statefulSetOrdinal_inv]. by destruct (sts_Name live). }
  split; [done|]. intros Hlt. unfold serverUp in Hup.
  destruct (podsByOrdinal _ _ !! o) as [pod|] eqn:Ep; [|lia].
  apply podsByOrdinal_elem in Ep as [? ?]. destruct (pod_Deleting pod) eqn:Ed; [lia|].
  destruct Hup as [?|[? _]]; [|lia]. by exists pod.
Qed.

Lemma serverNotReadyBelow_sound_witness :
  serverUp (podsByOrdinal "c-server" examplePods) 1 None 0.
Proof.
  refine (proj1 (serverNotReadyBelow_sound exampleLive examplePods 1 3 None _ _ 0 _));
    [reflexivity|vm_compute; reflexivity|lia].
Defined.

(** * The database gate *)

(** A database copy on the server that is not caught up. *)
Definition lagging (podName : string) (checks : list ClusterStatusCheckRow)
    (allocs : list DatabaseAllocation) (db : string) : Prop :=
  (exists a, a ∈ allocs /\ da_Name a = db /\ addressIsPod (da_Address a) podName = true /\
     da_CurrentStatus a <> da_RequestedStatus a) \/
  (exists c, c ∈ checks /\ sc_Database c = db /\ sc_Requester c = true /\
     ~ (sc_ReplicationSuccessful c = true /\ sc_MemberStatus c = "APPLYING" /\ sc_Error c = EmptyString)).

Lemma fold_collect {A} (g : gset string -> A -> gset string) (test : A -> bool) (f : A -> string)
    (l : list A) (m : gset string) x :
  (forall m a, g m a = if test a then {[f a]} ∪ m else m) ->
  x ∈ fold_left g l m <-> x ∈ m \/ exists a, a ∈ l /\ f a = x /\ test a = true.
Proof.
  intros Hg. revert m. induction l as [|a l IH]; intros m; simpl.
  - split; [by left|]. intros [?|(? & []%elem_of_nil & _)]; done.
  - rewrite IH, Hg. setoid_rewrite elem_of_cons.
    destruct (test a) eqn:E; [rewrite elem_of_union, elem_of_singleton|]; naive_solver congruence.
Qed.

Lemma evaluateDatabaseGate_names podName checks allocs db :
  db ∈ (evaluateDatabaseGate podName checks allocs).2 <-> lagging podName checks allocs db.
Proof.
  unfold evaluateDatabaseGate, lagging. cbn [snd]. rewrite Strings_elem, elem_of_elements.
  rewrite (fold_collect _ (fun c => sc_Requester c && (negb (sc_ReplicationSuccessful c)
      || negb (String.eqb (sc_MemberStatus c) "APPLYING") || negb (String.eqb (sc_Error c) EmptyString)))
    sc_Database); [|intros m c; by destruct (sc_Requester c)].
  rewrite (fold_collect _ (fun a => addressIsPod (da_Address a) podName
      && negb (String.eqb (da_CurrentStatus a) (da_RequestedStatus a))) da_Name); [|done].
  apply Morphisms_Prop.or_iff_morphism.
  - split.
    + intros [[]%elem_of_empty|(a & Hin & <- & Ht)]. breflect. by exists a.
    + intros (a & Hin & <- & Ha & Hne). right. exists a. by rewrite Ha, (proj2 (String.eqb_neq _ _) Hne).
  - split; intros (c & Hin & <- & Hc); exists c; (split; [done|split; [done|]]).
    + breflect. split; [done|]. intros (Hr & Hm & He). rewrite Hr, Hm, He in *. done.
    + destruct Hc as [-> Hc]. simpl. apply not_false_iff_true. intros Hf. apply Hc. breflect. done.
Qed.

Lemma evaluateDatabaseGate_flag podName checks allocs :
  (evaluateDatabaseGate podName checks allocs).1 = true <->
  (evaluateDatabaseGate podName checks allocs).2 = [].
Proof. unfold evaluateDatabaseGate. cbn [fst snd]. by rewrite Nat.eqb_eq, length_zero_iff_nil. Qed.

(** The database gate opens exactly when every database copy on the
    restarted server is at its requested status and every status check run on
    it replicated and applies; otherwise it names exactly the databases that
    are not caught up, in order. *)
Theorem evaluateDatabaseGate_iff (podName : string) (checks : list ClusterStatusCheckRow)
    (allocs : list DatabaseAllocation) :
  let '(ok, names) := evaluateDatabaseGate podName checks allocs in
  (ok = true <-> forall db, ~ lagging podName checks allocs db) /\
  (forall db, db ∈ names <-> lagging podName checks allocs db) /\
  Sorted sort.le names /\ NoDup names.
Proof.
  pose proof (evaluateDatabaseGate_names podName checks allocs) as Hn.
  pose proof (evaluateDatabaseGate_flag podName checks allocs) as Hf.
  assert (Hs : Sorted sort.le (evaluateDatabaseGate podName checks allocs).2) by apply Strings_sorted.
  assert (Hd : NoDup (evaluateDatabaseGate podName checks allocs).2).
  { unfold evaluateDatabaseGate. cbn [snd]. rewrite Strings_perm. apply NoDup_elements. }
  destruct (evaluateDatabaseGate podName checks allocs) as [ok names]. cbn [fst snd] in *.
  split_and!; try done. rewrite Hf. split.
  - intros -> db Hl. apply Hn in Hl. by apply elem_of_nil in Hl.
  - intros Hno. destruct names as [|db names]; [done|]. destruct (Hno db). apply Hn. left.
Qed.

(** * The record as stored, and the version recorded *)

(** A step acts only on the record as stored: the check passes exactly
    when the stored cluster was read and its record has the phase, target and
    partition of the copy the step holds. *)
Lemma upgradeRecordMovedOn_iff (cluster : Cluster) (stored : result Cluster) :
  upgradeRecordMovedOn cluster stored = EmptyString <->
  exists s have want, stored = Ok s /\
    cs_UpgradeStatus (cl_Status cluster) = Some have /\ cs_UpgradeStatus (cl_Status s) = Some want /\
    us_Phase want = us_Phase have /\ us_TargetVersion want = us_TargetVersion have /\
    us_CurrentPartition want = us_CurrentPartition have.
Proof.
  assert (Hp : forall a b, samePartition a b = true <-> a = b).
  { intros [x|] [y|]; simpl; rewrite ?Z.eqb_eq; split; congruence. }
  unfold upgradeRecordMovedOn. destruct stored as [s|e].
  2: { split; [done|]. by intros (? & ? & ? & [=] & _). }
  destruct (cs_UpgradeStatus (cl_Status cluster)) as [have|],
    (cs_UpgradeStatus (cl_Status s)) as [want|] eqn:Hw.
  2-4: split; [done|]; intros (s' & ? & ? & [= <-] & ? & ? & _); congruence.
  destruct (String.eqb_spec (us_Phase want) (us_Phase have)) as [Ep|Ep],
    (String.eqb_spec (us_TargetVersion want) (us_TargetVersion have)) as [Et|Et]; cbn [negb orb].
  2-4: split; [done|]; intros (s' & h & w & [= <-] & [= <-] & Hw' & ? & ? & _); congruence.
  destruct (samePartition _ _) eqn:Es; cbn [negb].
  - apply Hp in Es. split; [|done]. intros _. by exists s, have, want.
  - split; [done|]. intros (s' & h & w & [= <-] & [= <-] & Hw' & _ & _ & E).
    apply not_true_iff_false in Es. destruct Es. apply Hp. congruence.
Qed.

(** the tag recorded as the version the servers run is the template's, and
    only once every replica is on the observed template and ready; it is never
    recorded over a stopped upgrade's own target. *)
Theorem recorded_version_sound (sts : StatefulSet) (status : ClusterStatus) (tag : string) :
  tag <> EmptyString ->
  clusterVersionToRecord status (rolledImageTag (Some sts)) = tag ->
  imageTag (serverImage sts) = tag /\
  sts_Generation sts <= sts_ObservedGeneration sts /\
  (let replicas := default 1 (sts_Replicas sts) in
   1 <= replicas <= sts_UpdatedReplicas sts /\ replicas <= sts_ReadyReplicas sts) /\
  (sts_UpdateRevision sts = EmptyString \/ sts_CurrentRevision sts = sts_UpdateRevision sts) /\
  (forall us, cs_UpgradeStatus status = Some us -> cs_Version status <> EmptyString ->
     us_TargetVersion us = tag -> us_Phase us <> upgradePhaseFailed /\ us_Phase us <> upgradePhasePaused).
Proof.
  intros Hne. unfold clusterVersionToRecord.
  destruct (_ || _) eqn:E0; [intros <-; done|].
  intros Hrec. assert (Hroll : rolledImageTag (Some sts) = tag).
  { destruct (cs_UpgradeStatus status); [|done]. destruct (_ && _); congruence. }
  assert (Hus : forall us, cs_UpgradeStatus status = Some us -> cs_Version status <> EmptyString ->
    us_TargetVersion us = tag -> us_Phase us <> upgradePhaseFailed /\ us_Phase us <> upgradePhasePaused).
  { intros us Hu Hv Ht. rewrite Hu, Hroll, Ht, String.eqb_refl, (proj2 (String.eqb_neq _ _) Hv) in Hrec.
    simpl in Hrec. split; intros Hp; rewrite Hp in Hrec; simpl in Hrec; congruence. }
  clear E0 Hrec. unfold rolledImageTag, serverImage in *.
  destruct (sts_Containers sts) as [|[n image] cs]; [congruence|].
  destruct (Z.ltb_spec (sts_ObservedGeneration sts) (sts_Generation sts)); [congruence|].
  cbv zeta in *. destruct (Z.ltb_spec (default 1 (sts_Replicas sts)) 1); [congruence|].
  destruct (negb _ && _) eqn:Er; [congruence|].
  destruct (_ || _) eqn:Ec; [congruence|]. breflect.
  split_and!; try done; try lia.
  destruct (String.eqb_spec (sts_UpdateRevision sts) EmptyString); [by left|right].
  destruct (String.eqb_spec (sts_CurrentRevision sts) (sts_UpdateRevision sts)); done.
Qed.

Lemma recorded_version_sound_witness :
  imageTag (serverImage (mkStatefulSet "c-server" ∅ 4 (Some 3) [("neo4j", "neo4j:2026.09.1")] None
    4 3 3 "rev-b" "rev-b")) = "2026.09.1".
Proof.
  refine (proj1 (recorded_version_sound _ (mkClusterStatus "Ready" EmptyString "2026.08.1" EmptyString
    None None [] None true 1 None) "2026.09.1" _ _)); [discriminate|vm_compute; reflexivity].
Defined.
