(* ===== verification/World.v ===== *)
(** What a pass of the cluster controller reads and changes, and the API server's
    part in it: the pass's copy of the cluster and the stored one, the server
    StatefulSet, the outcome of each write, the events and metrics, and the
    reconciler's memory. A handler is a function on this world; the state of
    Neo4j is a parameter, [S]. time.Now() is the same throughout a pass. *)
From S2P Require Import Prelude GoStrings ClusterTypes Conditions UpgradeRules UpgradeRecord.

Open Scope Z_scope.

(** The outcome of one read-modify-write of the cluster: the read can fail, the
    write can fail, or the read returned a copy that is not the stored one (an
    informer cache behind, another writer in between), whose write the API
    server refuses as a conflict. *)
Inductive attempt :=
| Succeeds
| GetFails (msg : string)
| UpdateFails (msg : string)
| Conflicts (seen : Cluster).

(** The same for the server StatefulSet. *)
Inductive stsAttempt :=
| StsSucceeds
| StsFails (msg : string)
| StsConflicts.

(** The statements the drain sends to Neo4j. *)
Inductive statement :=
| CordonStmt (id : string)
| EnableStmt (id : string)
| DeallocateStmt (ids : list string) (dryRun : bool)
| DropStmt (id : string).

(** [heldImageChange], upgrade_hold.go; what deferredUpgradeTargets holds per
    key is one of those, or the tag a drain defers. *)
Record heldImageChange := mkHeldImageChange {
  hi_image : string;
  hi_cause : string;
  hi_announced : bool
}.

Inductive deferral :=
| HeldImage (h : heldImageChange)
| DrainTarget (tag : string).

(** [w_cluster] is the pass's copy and [w_stored] the API server's; [w_sts] and
    [w_pods] are uncached reads, [w_stsCached] and [w_podsCached] the cache's.
    [w_attempts] and [w_stsAttempts] are the outcomes of the coming writes (none
    left: they succeed), [w_podDeletes] those of the coming deletions of pods
    ([None]: it succeeds), and [w_clusterRead] the error of an uncached read of
    the cluster. [w_events] (reason and message), [w_observed] (ended
    phases) and [w_upgrades] (results of upgrades) list what was recorded, last
    first. [w_book] is serverAddressBook, [w_deferred] deferredUpgradeTargets,
    [w_announced] availabilityAnnounced, [w_wakes] the wake-ups asked for, and
    [w_stmts] the statements sent to Neo4j, last first. *)
Record World (S : Type) := mkWorld {
  w_now : Z;
  w_cluster : Cluster;
  w_stored : Cluster;
  w_sts : getResult StatefulSet;
  w_stsCached : getResult StatefulSet;
  w_pods : result (list Pod);
  w_podsCached : result (list Pod);
  w_attempts : list attempt;
  w_stsAttempts : list stsAttempt;
  w_clusterRead : option string;
  w_podDeletes : list (option string);
  w_events : list (string * string);
  w_observed : list endedUpgradePhase;
  w_upgrades : list bool;
  w_book : gmap string (gmap string string);
  w_deferred : gmap string deferral;
  w_announced : gmap string string;
  w_wakes : list (string * Z);
  w_neo4j : S;
  w_stmts : list statement
}.
Arguments mkWorld {S}.
Arguments w_now {S} _.
Arguments w_cluster {S} _.
Arguments w_stored {S} _.
Arguments w_sts {S} _.
Arguments w_stsCached {S} _.
Arguments w_pods {S} _.
Arguments w_podsCached {S} _.
Arguments w_attempts {S} _.
Arguments w_stsAttempts {S} _.
Arguments w_clusterRead {S} _.
Arguments w_podDeletes {S} _.
Arguments w_events {S} _.
Arguments w_observed {S} _.
Arguments w_upgrades {S} _.
Arguments w_book {S} _.
Arguments w_deferred {S} _.
Arguments w_announced {S} _.
Arguments w_wakes {S} _.
Arguments w_neo4j {S} _.
Arguments w_stmts {S} _.

Definition set_w_now {S} (v : Z) (w : World S) : World S :=
  mkWorld v (w_cluster w) (w_stored w) (w_sts w) (w_stsCached w) (w_pods w) (w_podsCached w) (w_attempts w) (w_stsAttempts w) (w_clusterRead w) (w_podDeletes w) (w_events w) (w_observed w) (w_upgrades w) (w_book w) (w_deferred w) (w_announced w) (w_wakes w) (w_neo4j w) (w_stmts w).

Definition set_w_cluster {S} (v : Cluster) (w : World S) : World S :=
  mkWorld (w_now w) v (w_stored w) (w_sts w) (w_stsCached w) (w_pods w) (w_podsCached w) (w_attempts w) (w_stsAttempts w) (w_clusterRead w) (w_podDeletes w) (w_events w) (w_observed w) (w_upgrades w) (w_book w) (w_deferred w) (w_announced w) (w_wakes w) (w_neo4j w) (w_stmts w).

Definition set_w_stored {S} (v : Cluster) (w : World S) : World S :=
  mkWorld (w_now w) (w_cluster w) v (w_sts w) (w_stsCached w) (w_pods w) (w_podsCached w) (w_attempts w) (w_stsAttempts w) (w_clusterRead w) (w_podDeletes w) (w_events w) (w_observed w) (w_upgrades w) (w_book w) (w_deferred w) (w_announced w) (w_wakes w) (w_neo4j w) (w_stmts w).

Definition set_w_sts {S} (v : getResult StatefulSet) (w : World S) : World S :=
  mkWorld (w_now w) (w_cluster w) (w_stored w) v (w_stsCached w) (w_pods w) (w_podsCached w) (w_attempts w) (w_stsAttempts w) (w_clusterRead w) (w_podDeletes w) (w_events w) (w_observed w) (w_upgrades w) (w_book w) (w_deferred w) (w_announced w) (w_wakes w) (w_neo4j w) (w_stmts w).

Definition set_w_stsCached {S} (v : getResult StatefulSet) (w : World S) : World S :=
  mkWorld (w_now w) (w_cluster w) (w_stored w) (w_sts w) v (w_pods w) (w_podsCached w) (w_attempts w) (w_stsAttempts w) (w_clusterRead w) (w_podDeletes w) (w_events w) (w_observed w) (w_upgrades w) (w_book w) (w_deferred w) (w_announced w) (w_wakes w) (w_neo4j w) (w_stmts w).

Definition set_w_pods {S} (v : result (list Pod)) (w : World S) : World S :=
  mkWorld (w_now w) (w_cluster w) (w_stored w) (w_sts w) (w_stsCached w) v (w_podsCached w) (w_attempts w) (w_stsAttempts w) (w_clusterRead w) (w_podDeletes w) (w_events w) (w_observed w) (w_upgrades w) (w_book w) (w_deferred w) (w_announced w) (w_wakes w) (w_neo4j w) (w_stmts w).

Definition set_w_podsCached {S} (v : result (list Pod)) (w : World S) : World S :=
  mkWorld (w_now w) (w_cluster w) (w_stored w) (w_sts w) (w_stsCached w) (w_pods w) v (w_attempts w) (w_stsAttempts w) (w_clusterRead w) (w_podDeletes w) (w_events w) (w_observed w) (w_upgrades w) (w_book w) (w_deferred w) (w_announced w) (w_wakes w) (w_neo4j w) (w_stmts w).

Definition set_w_attempts {S} (v : list attempt) (w : World S) : World S :=
  mkWorld (w_now w) (w_cluster w) (w_stored w) (w_sts w) (w_stsCached w) (w_pods w) (w_podsCached w) v (w_stsAttempts w) (w_clusterRead w) (w_podDeletes w) (w_events w) (w_observed w) (w_upgrades w) (w_book w) (w_deferred w) (w_announced w) (w_wakes w) (w_neo4j w) (w_stmts w).

Definition set_w_stsAttempts {S} (v : list stsAttempt) (w : World S) : World S :=
  mkWorld (w_now w) (w_cluster w) (w_stored w) (w_sts w) (w_stsCached w) (w_pods w) (w_podsCached w) (w_attempts w) v (w_clusterRead w) (w_podDeletes w) (w_events w) (w_observed w) (w_upgrades w) (w_book w) (w_deferred w) (w_announced w) (w_wakes w) (w_neo4j w) (w_stmts w).

Definition set_w_podDeletes {S} (v : list (option string)) (w : World S) : World S :=
  mkWorld (w_now w) (w_cluster w) (w_stored w) (w_sts w) (w_stsCached w) (w_pods w) (w_podsCached w) (w_attempts w) (w_stsAttempts w) (w_clusterRead w) v (w_events w) (w_observed w) (w_upgrades w) (w_book w) (w_deferred w) (w_announced w) (w_wakes w) (w_neo4j w) (w_stmts w).

Definition set_w_events {S} (v : list (string * string)) (w : World S) : World S :=
  mkWorld (w_now w) (w_cluster w) (w_stored w) (w_sts w) (w_stsCached w) (w_pods w) (w_podsCached w) (w_attempts w) (w_stsAttempts w) (w_clusterRead w) (w_podDeletes w) v (w_observed w) (w_upgrades w) (w_book w) (w_deferred w) (w_announced w) (w_wakes w) (w_neo4j w) (w_stmts w).

Definition set_w_observed {S} (v : list endedUpgradePhase) (w : World S) : World S :=
  mkWorld (w_now w) (w_cluster w) (w_stored w) (w_sts w) (w_stsCached w) (w_pods w) (w_podsCached w) (w_attempts w) (w_stsAttempts w) (w_clusterRead w) (w_podDeletes w) (w_events w) v (w_upgrades w) (w_book w) (w_deferred w) (w_announced w) (w_wakes w) (w_neo4j w) (w_stmts w).

Definition set_w_upgrades {S} (v : list bool) (w : World S) : World S :=
  mkWorld (w_now w) (w_cluster w) (w_stored w) (w_sts w) (w_stsCached w) (w_pods w) (w_podsCached w) (w_attempts w) (w_stsAttempts w) (w_clusterRead w) (w_podDeletes w) (w_events w) (w_observed w) v (w_book w) (w_deferred w) (w_announced w) (w_wakes w) (w_neo4j w) (w_stmts w).

Definition set_w_book {S} (v : gmap string (gmap string string)) (w : World S) : World S :=
  mkWorld (w_now w) (w_cluster w) (w_stored w) (w_sts w) (w_stsCached w) (w_pods w) (w_podsCached w) (w_attempts w) (w_stsAttempts w) (w_clusterRead w) (w_podDeletes w) (w_events w) (w_observed w) (w_upgrades w) v (w_deferred w) (w_announced w) (w_wakes w) (w_neo4j w) (w_stmts w).

Definition set_w_deferred {S} (v : gmap string deferral) (w : World S) : World S :=
  mkWorld (w_now w) (w_cluster w) (w_stored w) (w_sts w) (w_stsCached w) (w_pods w) (w_podsCached w) (w_attempts w) (w_stsAttempts w) (w_clusterRead w) (w_podDeletes w) (w_events w) (w_observed w) (w_upgrades w) (w_book w) v (w_announced w) (w_wakes w) (w_neo4j w) (w_stmts w).

Definition set_w_announced {S} (v : gmap string string) (w : World S) : World S :=
  mkWorld (w_now w) (w_cluster w) (w_stored w) (w_sts w) (w_stsCached w) (w_pods w) (w_podsCached w) (w_attempts w) (w_stsAttempts w) (w_clusterRead w) (w_podDeletes w) (w_events w) (w_observed w) (w_upgrades w) (w_book w) (w_deferred w) v (w_wakes w) (w_neo4j w) (w_stmts w).

Definition set_w_wakes {S} (v : list (string * Z)) (w : World S) : World S :=
  mkWorld (w_now w) (w_cluster w) (w_stored w) (w_sts w) (w_stsCached w) (w_pods w) (w_podsCached w) (w_attempts w) (w_stsAttempts w) (w_clusterRead w) (w_podDeletes w) (w_events w) (w_observed w) (w_upgrades w) (w_book w) (w_deferred w) (w_announced w) v (w_neo4j w) (w_stmts w).

Definition set_w_neo4j {S} (v : S) (w : World S) : World S :=
  mkWorld (w_now w) (w_cluster w) (w_stored w) (w_sts w) (w_stsCached w) (w_pods w) (w_podsCached w) (w_attempts w) (w_stsAttempts w) (w_clusterRead w) (w_podDeletes w) (w_events w) (w_observed w) (w_upgrades w) (w_book w) (w_deferred w) (w_announced w) (w_wakes w) v (w_stmts w).

Definition set_w_stmts {S} (v : list statement) (w : World S) : World S :=
  mkWorld (w_now w) (w_cluster w) (w_stored w) (w_sts w) (w_stsCached w) (w_pods w) (w_podsCached w) (w_attempts w) (w_stsAttempts w) (w_clusterRead w) (w_podDeletes w) (w_events w) (w_observed w) (w_upgrades w) (w_book w) (w_deferred w) (w_announced w) (w_wakes w) (w_neo4j w) v.


(** * Handlers *)

Definition W (S : Type) (A : Type) : Type := World S -> A * World S.

#[global] Instance W_ret S : MRet (W S) := fun A (a : A) w => (a, w).
#[global] Instance W_bind S : MBind (W S) := fun A B (f : A -> W S B) (m : W S A) w =>
  let '(a, w') := m w in f a w'.

Section Operations.
Context {S : Type}.

Definition gets {A} (f : World S -> A) : W S A := fun w => (f w, w).
Definition modify (f : World S -> World S) : W S unit := fun w => (tt, f w).
Definition cluster_ : W S Cluster := gets w_cluster.
Definition now_ : W S Z := gets w_now.

Definition event (reason message : string) : W S unit :=
  modify (fun w => set_w_events ((reason, message) :: w_events w) w).

(** The outcome of the next write. *)
Definition nextAttempt : W S attempt := fun w =>
  match w_attempts w with
  | [] => (Succeeds, w)
  | a :: rest => (a, set_w_attempts rest w)
  end.

Definition nextStsAttempt : W S stsAttempt := fun w =>
  match w_stsAttempts w with
  | [] => (StsSucceeds, w)
  | a :: rest => (a, set_w_stsAttempts rest w)
  end.

(** [retry.RetryOnConflict] around a read-modify-write of the cluster, with
    the backoff's number of steps. The body [f] gets the object read and
    returns what it writes ([None]: it writes nothing) and a result; [pre]
    is its effect on the pass's copy before the write, [post] after a write
    that succeeded. *)
Fixpoint retryOnConflict {A} (steps : nat) (f : Cluster -> option Cluster * A)
    (pre post : Cluster -> Cluster -> Cluster) : W S (result A) := fun w =>
  match steps with
  | O => (Err "conflict", w)
  | Datatypes.S steps' =>
      let '(a, w) := nextAttempt w in
      match a with
      | GetFails e => (Err e, w)
      | Succeeds =>
          let '(out, v) := f (w_stored w) in
          match out with
          | None => (Ok v, w)
          | Some latest =>
              (Ok v, set_w_stored latest
                       (set_w_cluster (post latest (pre latest (w_cluster w))) w))
          end
      | UpdateFails e =>
          let '(out, v) := f (w_stored w) in
          match out with
          | None => (Ok v, w)
          | Some latest => (Err e, set_w_cluster (pre latest (w_cluster w)) w)
          end
      | Conflicts seen =>
          let '(out, v) := f seen in
          match out with
          | None => (Ok v, w)
          | Some latest => retryOnConflict steps' f pre post (set_w_cluster (pre latest (w_cluster w)) w)
          end
      end
  end.

(** The steps of retry.DefaultRetry and retry.DefaultBackoff. *)
Definition DefaultRetry : nat := 5.
Definition DefaultBackoff : nat := 4.

Definition keepCopy (_ copy : Cluster) : Cluster := copy.
End Operations.

(** Run the monadic plumbing of a handler. *)
Ltac wsimpl :=
  unfold mbind, mret, W_bind, W_ret, now_, cluster_, gets, modify, event; cbv beta iota.

Lemma bind_gets {S A B} (f : World S -> A) (k : A -> W S B) w : (gets f ≫= k) w = k (f w) w.
Proof. done. Qed.

Lemma bind_run {S A B} (m : W S A) (k : A -> W S B) w : (m ≫= k) w = k (m w).1 (m w).2.
Proof. unfold mbind, W_bind. by destruct (m w). Qed.

(** * Triples: [m], run where [P] holds, ends where [Q] holds of its result *)

Definition triple {S A} (P : World S -> Prop) (m : W S A) (Q : A -> World S -> Prop) : Prop :=
  forall w, P w -> Q (m w).1 (m w).2.

Section Triples.
Context {S : Type}.
Implicit Types P : World S -> Prop.

Lemma triple_ret {A} P (a : A) (Q : A -> World S -> Prop) : (forall w, P w -> Q a w) -> triple P (mret a) Q.
Proof. intros H w. apply H. Qed.

Lemma triple_bind {A B} P (m : W S A) (k : A -> W S B) (Q : A -> World S -> Prop) (R : B -> World S -> Prop) :
  triple P m Q -> (forall a, triple (Q a) (k a) R) -> triple P (m ≫= k) R.
Proof. intros Hm Hk w Hw. rewrite bind_run. apply Hk, Hm, Hw. Qed.

Lemma triple_gets {A} P (f : World S -> A) (Q : A -> World S -> Prop) :
  (forall w, P w -> Q (f w) w) -> triple P (gets f) Q.
Proof. intros H w. apply H. Qed.

Lemma triple_modify P f (Q : unit -> World S -> Prop) :
  (forall w, P w -> Q tt (f w)) -> triple P (modify f) Q.
Proof. intros H w. apply H. Qed.

Lemma triple_conseq {A} P P' (m : W S A) (Q Q' : A -> World S -> Prop) :
  triple P m Q -> (forall w, P' w -> P w) -> (forall a w, Q a w -> Q' a w) -> triple P' m Q'.
Proof. intros H HP HQ w Hw. apply HQ, H, HP, Hw. Qed.
End Triples.

(** * What a handler keeps

    [R] relates the world before a handler to the one after it; where it is
    reflexive and transitive, a handler keeps it when each of its parts does. *)

Definition keeps {S A} (R : World S -> World S -> Prop) (m : W S A) : Prop :=
  forall w, R w (m w).2.

Section Keeps.
Context {S : Type} (R : World S -> World S -> Prop) `{!PreOrder R}.

Lemma keeps_ret {A} (a : A) : keeps R (mret a).
Proof. intros w. reflexivity. Qed.

Lemma keeps_gets {A} (f : World S -> A) : keeps R (gets f).
Proof. intros w. reflexivity. Qed.

Lemma keeps_bind {A B} (m : W S A) (k : A -> W S B) :
  keeps R m -> (forall a, keeps R (k a)) -> keeps R (m ≫= k).
Proof. intros Hm Hk w. rewrite bind_run. etrans; [apply Hm|apply Hk]. Qed.

Lemma keeps_modify f : (forall w, R w (f w)) -> keeps R (modify f).
Proof. intros H w. apply H. Qed.
End Keeps.

(** Two worlds that agree on [f]. *)
Definition same {S B} (f : World S -> B) (w w' : World S) : Prop := f w' = f w.

#[global] Instance same_preorder {S B} (f : World S -> B) : PreOrder (same f).
Proof. split; unfold same; [done|]. intros w1 w2 w3 -> ->. done. Qed.

(** Follow the code of a handler down to the parts the database knows. *)
Create HintDb keeps discriminated.
Ltac keep :=
  repeat match goal with
  | |- keeps _ (mret _) => apply keeps_ret; exact _
  | |- keeps _ (gets _) => apply keeps_gets; exact _
  | |- keeps _ (modify _) => apply keeps_modify; intros ?; done
  | |- keeps _ _ => solve [eauto 3 with keeps]
  | |- keeps _ (_ ≫= _) => apply keeps_bind; [exact _| |intros ?]
  | |- keeps _ (match ?x with _ => _ end) => destruct x
  end.

(** * What a write leaves alone *)

(** The parts of the world a read-modify-write of the cluster does not
    touch. *)
Definition sameOutside {S} (w w' : World S) : Prop :=
  w_now w' = w_now w /\ w_sts w' = w_sts w /\ w_stsCached w' = w_stsCached w /\
  w_pods w' = w_pods w /\ w_podsCached w' = w_podsCached w /\ w_stsAttempts w' = w_stsAttempts w /\
  w_clusterRead w' = w_clusterRead w /\ w_podDeletes w' = w_podDeletes w /\
  w_events w' = w_events w /\ w_observed w' = w_observed w /\ w_upgrades w' = w_upgrades w /\
  w_book w' = w_book w /\ w_deferred w' = w_deferred w /\ w_announced w' = w_announced w /\
  w_wakes w' = w_wakes w /\ w_neo4j w' = w_neo4j w /\ w_stmts w' = w_stmts w.

#[global] Instance sameOutside_preorder S : PreOrder (@sameOutside S).
Proof.
  split; [by intros w; repeat split|]. unfold sameOutside. intros w1 w2 w3 H1 H2.
  destruct_and!. split_and!; congruence.
Qed.

Lemma nextAttempt_cases {S} (w : World S) :
  exists rest, (nextAttempt w).2 = set_w_attempts rest w.
Proof.
  unfold nextAttempt. destruct (w_attempts w) as [|a rest] eqn:E; [|by exists rest].
  exists []. rewrite <-E. by destruct w.
Qed.

(** The result of a retried write: it failed and stored nothing, it found
    nothing to write, or it stored what its body made of the stored object. *)
Lemma retryOnConflict_spec {S A} steps (f : Cluster -> option Cluster * A) pre post (w : World S) :
  let '(r, w') := retryOnConflict steps f pre post w in
  sameOutside w w' /\
  match r with
  | Err _ => w_stored w' = w_stored w
  | Ok v =>
      (w_stored w' = w_stored w /\ exists seen, f seen = (None, v)) \/
      (exists latest, f (w_stored w) = (Some latest, v) /\ w_stored w' = latest /\
         exists copy, w_cluster w' = post latest (pre latest copy))
  end.
Proof.
  revert w. induction steps as [|n IH]; intros w; [by split|].
  cbn [retryOnConflict]. destruct (nextAttempt_cases w) as [rest Hrest].
  destruct (nextAttempt w) as [a w1]. simpl in Hrest. subst w1.
  destruct a as [|e|e|seen]; simpl.
  - destruct (f (w_stored w)) as [[latest|] v] eqn:Ef; simpl; (split; [by repeat split|]).
    + right. exists latest. split_and!; try done. by exists (w_cluster w).
    + left. split; [done|]. by exists (w_stored w).
  - by split.
  - destruct (f (w_stored w)) as [[latest|] v] eqn:Ef; simpl; (split; [by repeat split|]); [done|].
    left. split; [done|]. by exists (w_stored w).
  - destruct (f seen) as [[latest|] v] eqn:Ef; simpl.
    + match goal with |- context [retryOnConflict n f pre post ?w1] =>
        specialize (IH w1); destruct (retryOnConflict n f pre post w1) as [r w'] end.
      destruct IH as [Hs Hr]. split; [etrans; [|exact Hs]; by repeat split|]. exact Hr.
    + split; [by repeat split|]. left. split; [done|]. by exists seen.
Qed.

(** Without faults a retried write reads and writes the stored object once. *)
Lemma retryOnConflict_clean {S A} steps (f : Cluster -> option Cluster * A) pre post (w : World S) :
  w_attempts w = [] -> steps <> O ->
  retryOnConflict steps f pre post w
  = let '(out, v) := f (w_stored w) in
    (Ok v, match out with
           | None => w
           | Some latest => set_w_stored latest (set_w_cluster (post latest (pre latest (w_cluster w))) w)
           end).
Proof.
  intros Ha Hs. destruct steps as [|n]; [done|]. cbn [retryOnConflict]. unfold nextAttempt. rewrite Ha.
  by destruct (f (w_stored w)) as [[latest|] v].
Qed.


(** A retried write of the cluster keeps all but the two copies and the coming
    outcomes. *)
Lemma retryOnConflict_outside {S A} steps (f : Cluster -> option Cluster * A) pre post :
  keeps (S := S) sameOutside (retryOnConflict steps f pre post).
Proof.
  intros w. pose proof (retryOnConflict_spec steps f pre post w) as H.
  destruct (retryOnConflict steps f pre post w) as [r w']. apply H.
Qed.

(** What the body of a retried write leaves as it was stays as it was stored. *)
Lemma retryOnConflict_stored {S A B} (g : Cluster -> B) steps (f : Cluster -> option Cluster * A) pre post :
  (forall c latest v, f c = (Some latest, v) -> g latest = g c) ->
  keeps (S := S) (same (fun w => g (w_stored w))) (retryOnConflict steps f pre post).
Proof.
  intros Hf w. pose proof (retryOnConflict_spec steps f pre post w) as H. unfold same.
  destruct (retryOnConflict steps f pre post w) as [[v|e] w']; destruct H as [_ H]; cbn; [|by rewrite H].
  destruct H as [[-> _]|(latest & Hv & -> & _)]; [done|]. by apply (Hf _ _ _ Hv).
Qed.

Lemma keeps_weaken {S A} (R R' : World S -> World S -> Prop) (m : W S A) :
  (forall w w', R w w' -> R' w w') -> keeps R m -> keeps R' m.
Proof. intros H Hm w. apply H, Hm. Qed.

(** Two views kept are kept together. *)
Lemma keeps_pair {S A B C} (f : World S -> B) (g : World S -> C) (m : W S A) :
  keeps (same f) m -> keeps (same g) m -> keeps (same (fun w => (f w, g w))) m.
Proof. intros Hf Hg w. unfold same. by rewrite (Hf w), (Hg w). Qed.

(** A write that leaves the pass's copy out of it. *)
Lemma retryOnConflict_keepCopy {S A} steps (f : Cluster -> option Cluster * A) :
  keeps (S := S) (same w_cluster) (retryOnConflict steps f keepCopy keepCopy).
Proof.
  unfold same. induction steps as [|n IH]; intros w; [done|]. cbn [retryOnConflict].
  destruct (nextAttempt_cases w) as [rest Hrest]. destruct (nextAttempt w) as [a w1]. cbn in Hrest. subst w1.
  destruct a as [|e|e|seen]; cbn; [by destruct (f (w_stored w)) as [[]]|done|by destruct (f (w_stored w)) as [[]]|].
  destruct (f seen) as [[latest|] v]; cbn; [|done]. by rewrite IH.
Qed.
