(* ===== verification/ServerIdentity.v ===== *)
(** Which pod a row of SHOW SERVERS is: server identifiers, ordinals, labels,
    members, and the address book that remembers the address of a server that
    is down (src/internal/controller/scale_down.go and
    cluster_availability.go). *)
From S2P Require Import Prelude GoStrings GoNet ClusterTypes Conditions UpgradeRules UpgradeRecord World.

Open Scope Z_scope.

(** * Identifiers and ordinals *)

(** The leading decimal digits. *)
Fixpoint leadingDigits (s : string) : string :=
  match s with
  | EmptyString => EmptyString
  | String c s' => if isDigit c then String c (leadingDigits s') else EmptyString
  end.

Definition parseServerOrdinal (s clusterName : string) : option Z :=
  let prefix := clusterName +:+ "-server-" in
  match strings.Index s prefix with
  | None => None
  | Some idx =>
      let rest := strings.from (idx + String.length prefix) s in
      let ds := leadingDigits rest in
      if String.eqb ds EmptyString then None else strconv.Atoi ds
  end.

Definition serverIdentifier (s : ServerInfo) : string :=
  if negb (String.eqb (si_ID s) EmptyString) then si_ID s
  else if negb (String.eqb (si_Name s) EmptyString) then si_Name s
  else si_Address s.

Definition serverOrdinal (s : ServerInfo) (clusterName : string) : option Z :=
  match parseServerOrdinal (si_Address s) clusterName with
  | Some ord => Some ord
  | None => parseServerOrdinal (si_Name s) clusterName
  end.

Definition podName (clusterName : string) (ord : Z) : string :=
  clusterName +:+ "-server-" +:+ strconv.Itoa ord.

Definition serverLabel (s : ServerInfo) (clusterName : string) : string :=
  match serverOrdinal s clusterName with
  | Some ord => podName clusterName ord +:+ " (" +:+ serverIdentifier s +:+ ")"
  | None => serverIdentifier s
  end.

Definition stateIs (s : ServerInfo) (state : string) : bool := strings.EqualFold (si_State s) state.

(** * Members *)

Definition serverIsMember (s : ServerInfo) : bool :=
  String.eqb (si_State s) "Enabled" || String.eqb (si_State s) "Cordoned".

Definition serverServes (s : ServerInfo) : bool :=
  serverIsMember s && String.eqb (si_Health s) "Available".

Fixpoint podServerAvailable (servers : list ServerInfo) (podName : string) : bool * string :=
  match servers with
  | [] => (false, EmptyString)
  | s :: rest =>
      if addressIsPod (si_Address s) podName && serverServes s then (true, si_Version s)
      else podServerAvailable rest podName
  end.

Definition describeServer (s : ServerInfo) : string :=
  let host := match net.SplitHostPort (si_Address s) with Some (h, _) => h | None => si_Address s end in
  let name :=
    if String.eqb host EmptyString then si_Name s
    else if net.isIP host then host
    else strings.cutBefore host "." in
  name +:+ " (" +:+ si_Health s +:+ ")".

(** * The address book *)

Definition clusterKey (cluster : Cluster) : string := cl_Namespace cluster +:+ "/" +:+ cl_Name cluster.

Definition usableAddress (a : string) : bool :=
  negb (String.eqb a EmptyString) && negb (String.eqb a "<nil>").

(** The book with the addresses of the last diagnostics it lacks. *)
Definition bookFromDiagnostics (diagnostics : option (list ServerDiagnosticInfo))
    (book : gmap string string) : gmap string string :=
  match diagnostics with
  | None => book
  | Some servers =>
      fold_left (fun book s =>
          match book !! sd_Name s with
          | Some _ => book
          | None => if usableAddress (sd_Address s) then <[sd_Name s := sd_Address s]> book else book
          end) servers book
  end.

Definition setAddress (a : string) (s : ServerInfo) : ServerInfo :=
  mkServerInfo (si_ID s) (si_Name s) a (si_State s) (si_Health s) (si_Hosting s) (si_Version s).

(** The rows with their addresses filled in, and the book after them. *)
Fixpoint fillAddresses (book : gmap string string) (servers : list ServerInfo)
  : list ServerInfo * gmap string string :=
  match servers with
  | [] => ([], book)
  | s :: rest =>
      let '(s', book) :=
        if usableAddress (si_Address s) then (s, <[si_Name s := si_Address s]> book)
        else (setAddress (default EmptyString (book !! si_Name s)) s, book) in
      let '(rest', book) := fillAddresses book rest in
      (s' :: rest', book)
  end.

Section Book.
Context {S : Type}.

(** [None] is a nil slice: Neo4j could not be queried. *)
Definition withKnownAddresses (cluster : Cluster) (servers : option (list ServerInfo))
  : W S (option (list ServerInfo)) :=
  match servers with
  | None => mret None
  | Some servers => fun w =>
      let key := clusterKey cluster in
      let book := default ∅ (w_book w !! key) in
      let book := bookFromDiagnostics (cs_Diagnostics (cl_Status cluster)) book in
      let '(out, book) := fillAddresses book servers in
      (Some out, set_w_book (<[key := book]> (w_book w)) w)
  end.

Definition forgetServerAddresses (cluster : Cluster) : W S unit :=
  modify (fun w => set_w_book (delete (clusterKey cluster) (w_book w)) w).
End Book.

(** * Lemmas *)

Lemma leadingDigits_app ds t :
  allBytes isDigit ds = true -> (forall c s, t = String c s -> isDigit c = false) ->
  leadingDigits (ds +:+ t) = ds.
Proof.
  intros Hd Ht. induction ds as [|c ds IH]; simpl in *.
  - destruct t as [|c t]; [done|]. simpl. by rewrite (Ht c t eq_refl).
  - apply andb_true_iff in Hd as [-> Hd]. by rewrite IH.
Qed.

Lemma Index_prefix p t : strings.Index (p +:+ t) p = Some O.
Proof. destruct (p +:+ t) eqn:E; cbn [strings.Index]; by rewrite <-E, HasPrefix_app. Qed.

Lemma parseServerOrdinal_pod clusterName n t :
  0 <= n <= strconv.maxInt64 -> (forall c s, t = String c s -> isDigit c = false) ->
  parseServerOrdinal (podName clusterName n +:+ t) clusterName = Some n.
Proof.
  intros Hn Ht. unfold parseServerOrdinal, podName.
  rewrite !string_app_assoc. rewrite <-(string_app_assoc clusterName "-server-").
  rewrite Index_prefix. cbn [plus]. rewrite from_length_app.
  rewrite leadingDigits_app; [|apply Itoa_digits; lia|done].
  destruct (String.eqb_spec (strconv.Itoa n) EmptyString) as [E|_]; [by destruct (Itoa_ne_empty n)|].
  apply Atoi_Itoa. lia.
Qed.

(** The address a server advertises and its pod's name both give its
    ordinal. *)
Lemma serverOrdinal_pod (clusterName domain port : string) (n : Z) (s : ServerInfo) :
  0 <= n <= strconv.maxInt64 ->
  si_Address s = podName clusterName n +:+ "." +:+ domain +:+ ":" +:+ port ->
  serverOrdinal s clusterName = Some n /\
  parseServerOrdinal (podName clusterName n) clusterName = Some n.
Proof.
  intros Hn Ha. split.
  - unfold serverOrdinal. rewrite Ha, parseServerOrdinal_pod; [done|done|by intros c t [= <- <-]].
  - rewrite <-(string_app_nil_r (podName clusterName n)) at 1. by apply parseServerOrdinal_pod.
Qed.

Lemma serverOrdinal_pod_witness :
  parseServerOrdinal (podName "c" 12) "c" = Some 12.
Proof.
  refine (proj2 (serverOrdinal_pod "c" "svc" "7687" 12
    (mkServerInfo "i" "i" (podName "c" 12 +:+ "." +:+ "svc" +:+ ":" +:+ "7687") "Enabled" "Available" [] "5")
    _ _)); [unfold strconv.maxInt64; lia|reflexivity].
Defined.

Lemma fillAddresses_shape book servers :
  let out := (fillAddresses book servers).1 in
  length out = length servers /\
  forall i s, servers !! i = Some s -> exists a, out !! i = Some (setAddress a s) /\
    (usableAddress (si_Address s) = true -> a = si_Address s).
Proof.
  revert book. induction servers as [|s servers IH]; intros book; simpl; [done|].
  set (r := if usableAddress _ then _ else _).
  assert (Hr : exists a b, r = (setAddress a s, b) /\ (usableAddress (si_Address s) = true -> a = si_Address s)).
  { unfold r. destruct (usableAddress (si_Address s)).
    - exists (si_Address s), (<[si_Name s := si_Address s]> book). split; [by destruct s|done].
    - by eexists _, book. }
  destruct Hr as (a & b & -> & Ha). specialize (IH b).
  destruct (fillAddresses b servers) as [out b']. simpl in *. destruct IH as [Hl Hi].
  split; [lia|]. intros [|i] s' Hs; simpl in *; simplify_eq/=; [by exists a|by apply Hi].
Qed.

(** The book keeps, for each name, the last usable address of the rows, else
    what it had. *)
Lemma fillAddresses_book book servers name :
  (fillAddresses book servers).2 !! name
  = match List.find (fun s => usableAddress (si_Address s) && String.eqb (si_Name s) name) (rev servers) with
    | Some s => Some (si_Address s)
    | None => book !! name
    end.
Proof.
  revert book. induction servers as [|s servers IH]; intros book; simpl; [done|].
  assert (Hfind : forall l, List.find (fun s => usableAddress (si_Address s) && String.eqb (si_Name s) name) (l ++ [s])
    = match List.find (fun s => usableAddress (si_Address s) && String.eqb (si_Name s) name) l with
      | Some x => Some x
      | None => if usableAddress (si_Address s) && String.eqb (si_Name s) name then Some s else None end).
  { induction l as [|x l IHl]; simpl; [done|].
    by destruct (usableAddress (si_Address x) && String.eqb (si_Name x) name). }
  rewrite Hfind. destruct (usableAddress (si_Address s)) eqn:Eu; simpl.
  - specialize (IH (<[si_Name s := si_Address s]> book)).
    destruct (fillAddresses _ servers) as [out b]. simpl in *. rewrite IH.
    destruct (List.find _ (rev servers)); [done|].
    destruct (String.eqb_spec (si_Name s) name) as [->|Hne]; [by rewrite lookup_insert_eq|by rewrite lookup_insert_ne].
  - specialize (IH book). destruct (fillAddresses _ servers) as [out b]. simpl in *. rewrite IH.
    by destruct (List.find _ (rev servers)).
Qed.

Lemma fillAddresses_row book servers i s :
  NoDup (si_Name <$> servers) -> servers !! i = Some s ->
  (fillAddresses book servers).1 !! i
  = Some (setAddress (if usableAddress (si_Address s) then si_Address s
                      else default EmptyString (book !! si_Name s)) s).
Proof.
  revert book i. induction servers as [|r servers IH]; intros book i Hnd Hi; [done|].
  rewrite fmap_cons in Hnd. apply NoDup_cons in Hnd as [Hnot Hnd]. cbn [fillAddresses].
  destruct i as [|i]; simpl in Hi.
  - injection Hi as ->. destruct (usableAddress (si_Address s)) eqn:Eu;
      destruct (fillAddresses _ servers) as [out b]; simpl; [by destruct s|done].
  - assert (Hne : si_Name s <> si_Name r).
    { intros E. apply Hnot. rewrite <-E. apply list_elem_of_fmap. exists s. split; [done|].
      by eapply list_elem_of_lookup_2. }
    destruct (usableAddress (si_Address r)).
    + specialize (IH (<[si_Name r := si_Address r]> book) i Hnd Hi).
      destruct (fillAddresses _ servers) as [out b]. simpl in *. by rewrite IH, lookup_insert_ne.
    + specialize (IH book i Hnd Hi). destruct (fillAddresses _ servers) as [out b]. simpl in *. by rewrite IH.
Qed.

Lemma find_unique_name (servers : list ServerInfo) s :
  NoDup (si_Name <$> servers) -> s ∈ servers -> usableAddress (si_Address s) = true ->
  List.find (fun r => usableAddress (si_Address r) && String.eqb (si_Name r) (si_Name s)) (rev servers) = Some s.
Proof.
  intros Hnd Hin Hu.
  destruct (List.find _ (rev servers)) as [r|] eqn:E.
  - apply find_some in E as [Hr Ht]. breflect. f_equal. apply in_rev, list_elem_of_In in Hr.
    apply list_elem_of_lookup in Hr as [i Hi]. apply list_elem_of_lookup in Hin as [j Hj].
    assert (i = j) as ->; [|congruence].
    eapply NoDup_lookup; [exact Hnd| |]; rewrite list_lookup_fmap.
    + by rewrite Hi.
    + rewrite Hj. simpl. by f_equal.
  - exfalso. eapply find_none in E; [|apply in_rev; rewrite rev_involutive; by apply list_elem_of_In].
    by rewrite Hu, String.eqb_refl in E.
Qed.

Lemma bookFromDiagnostics_keeps d book name a :
  book !! name = Some a -> bookFromDiagnostics d book !! name = Some a.
Proof.
  intros H. unfold bookFromDiagnostics. destruct d as [l|]; [|done].
  revert book H. induction l as [|s l IH]; intros book H; simpl; [done|]. apply IH.
  destruct (book !! sd_Name s) eqn:E; [done|]. destruct (usableAddress _); [|done].
  rewrite lookup_insert_ne; [done|congruence].
Qed.

(** A server that once reported its address keeps it on every later pass
    that lists it without one, whatever the last diagnostics say, until the
    cluster is forgotten; its other columns and the order of the rows are as
    reported. *)
Theorem address_remembered {S} (w : World S) (c : Cluster) (l1 l2 : list ServerInfo)
    (s1 s2 : ServerInfo) (i : nat) :
  NoDup (si_Name <$> l1) -> NoDup (si_Name <$> l2) ->
  s1 ∈ l1 -> usableAddress (si_Address s1) = true ->
  l2 !! i = Some s2 -> si_Name s2 = si_Name s1 -> usableAddress (si_Address s2) = false ->
  let w1 := (withKnownAddresses c (Some l1) w).2 in
  exists out, (withKnownAddresses c (Some l2) w1).1 = Some out /\ length out = length l2 /\
    out !! i = Some (setAddress (si_Address s1) s2).
Proof.
  intros H1 H2 Hin Hu Hi Hname Hnu. cbv zeta. unfold withKnownAddresses.
  set (b1 := bookFromDiagnostics _ (default ∅ (w_book w !! clusterKey c))).
  pose proof (fillAddresses_book b1 l1 (si_Name s1)) as Hb. rewrite find_unique_name in Hb by done.
  destruct (fillAddresses b1 l1) as [o1 bk1]. simpl in Hb |- *.
  rewrite lookup_insert_eq. simpl.
  set (b2 := bookFromDiagnostics _ bk1).
  assert (Hb2 : b2 !! si_Name s2 = Some (si_Address s1)).
  { apply bookFromDiagnostics_keeps. by rewrite Hname. }
  pose proof (fillAddresses_shape b2 l2) as [Hlen _].
  pose proof (fillAddresses_row b2 l2 i s2 H2 Hi) as Hrow.
  destruct (fillAddresses b2 l2) as [o2 bk2]. simpl in *. exists o2. split_and!; [done|done|].
  by rewrite Hrow, Hnu, Hb2.
Qed.

(** A pass that reports both servers, then one that lists c-server-1 without
    its address. *)
Definition exampleRow (id address : string) : ServerInfo :=
  mkServerInfo id id address "Enabled" "Available" ["system"] "2026.08.1".

Definition exampleWorld {S} (c : Cluster) (neo4j : S) : World S :=
  mkWorld 0 c c NotFound NotFound (Ok []) (Ok []) [] [] None [] [] [] [] ∅ ∅ ∅ [] neo4j [].

Lemma address_remembered_witness :
  exists out,
    (withKnownAddresses (exampleCluster "5.26") (Some [exampleRow "b" EmptyString])
       (withKnownAddresses (exampleCluster "5.26") (Some [exampleRow "a" "c-server-0:7687"; exampleRow "b" "c-server-1:7687"])
          (exampleWorld (exampleCluster "5.26") tt)).2).1 = Some out /\ length out = 1%nat /\
    out !! 0%nat = Some (setAddress "c-server-1:7687" (exampleRow "b" EmptyString)).
Proof.
  refine (address_remembered (exampleWorld (exampleCluster "5.26") tt) (exampleCluster "5.26")
    [exampleRow "a" "c-server-0:7687"; exampleRow "b" "c-server-1:7687"] [exampleRow "b" EmptyString]
    (exampleRow "b" "c-server-1:7687") (exampleRow "b" EmptyString) 0 _ _ _ _ _ _ _).
  - apply (bool_decide_unpack _). vm_compute. exact I.
  - apply (bool_decide_unpack _). vm_compute. exact I.
  - right. left.
  - reflexivity.
  - reflexivity.
  - reflexivity.
  - reflexivity.
Defined.
