(* ===== verification/Availability.v ===== *)
(** A formed cluster that is short of servers: the verdict of a pass, the status
    it writes and the grace clock (src/internal/controller/cluster_availability.go,
    writeClusterStatus and reconcileServerShortfall of
    neo4jenterprisecluster_controller.go, droppedServersInKeptPods of
    raise_hold.go). The generation of a cluster read from the API server is above
    zero, so a write acts on the generation of the pass's copy. Of the status, endpoints, internal addresses and the metrics
    are left out. *)
From S2P Require Import Prelude GoStrings ClusterTypes Conditions UpgradeRules UpgradeRecord World ServerIdentity GoRFC3339.

Open Scope Z_scope.

(** * The verdict *)

Inductive availabilityVerdict :=
| verdictForming
| verdictQuorumLost
| verdictWithinGrace
| verdictDegraded
| verdictUnmeasured
| verdictNoneShort.

#[global] Instance verdict_eq_dec : EqDecision availabilityVerdict.
Proof. solve_decision. Defined.

(** [in_Servers] is [None] when Neo4j could not be queried. *)
Record shortfallInput := mkShortfallInput {
  in_Formed : bool;
  in_RolloutInFlight : bool;
  in_SplitBrain : bool;
  in_Servers : option (list ServerInfo);
  in_ReadyServerPods : Z;
  in_UnreachableSince : option Z;
  in_NotReadyPods : list string;
  in_Expected : Z;
  in_UnavailableSince : option Z;
  in_Now : Z;
  in_Grace : Z
}.

Record shortfallAssessment := mkShortfallAssessment {
  sa_Verdict : availabilityVerdict;
  sa_Available : Z;
  sa_Expected : Z;
  sa_Unavailable : list string
}.

(** The loop over the rows: members, available, unavailable. *)
Definition countServer (acc : Z * Z * list string) (s : ServerInfo) : Z * Z * list string :=
  let '(members, available, unavailable) := acc in
  if negb (serverIsMember s) then acc
  else if String.eqb (si_Health s) "Available" then (members + 1, available + 1, unavailable)
  else (members + 1, available, unavailable ++ [describeServer s]).

Definition assessServerShortfall (i : shortfallInput) : shortfallAssessment :=
  let verdict v := mkShortfallAssessment v 0 (in_Expected i) [] in
  if negb (in_Formed i) || in_RolloutInFlight i || in_SplitBrain i || (in_Expected i <? 1)
  then verdict verdictForming
  else match in_Servers i with
  | None =>
      if (in_Expected i <? in_ReadyServerPods i * 2)
         && match in_UnreachableSince i with
            | Some since => in_Now i - since <? in_Grace i
            | None => false
            end
      then verdict verdictUnmeasured else verdict verdictForming
  | Some servers =>
      let '(members, available, unavailable) := fold_left countServer servers (0, 0, []) in
      let verdict v := mkShortfallAssessment v available (in_Expected i) unavailable in
      if members <? in_Expected i then verdict verdictForming
      else if (match unavailable with [] => true | _ => false end)
              && (match in_NotReadyPods i with [] => true | _ => false end)
      then verdict verdictNoneShort
      else if available * 2 <=? in_Expected i then verdict verdictQuorumLost
      else
        let since := default (in_Now i) (in_UnavailableSince i) in
        if in_Now i - since <? in_Grace i then verdict verdictWithinGrace
        else verdict verdictDegraded
  end.

Definition summary (a : shortfallAssessment) : string :=
  strconv.Itoa (sa_Available a) +:+ " of " +:+ strconv.Itoa (sa_Expected a) +:+ " servers available"
  +:+ match sa_Unavailable a with
      | [] => EmptyString
      | l => "; unavailable: " +:+ strings.Join l ", "
      end.

Definition outageDetail (a : shortfallAssessment) (notReadyPods : list string) : string :=
  match sa_Unavailable a, notReadyPods with
  | _ :: _, _ | _, [] => summary a
  | [], _ =>
      "Neo4j still lists " +:+ strconv.Itoa (sa_Available a) +:+ " of " +:+ strconv.Itoa (sa_Expected a)
      +:+ " servers available; server pods not ready: " +:+ strings.Join notReadyPods ", "
  end.

(** * What the verdict is decided from *)

Fixpoint lastNamed (name : string) (pods : list Pod) (found : option Pod) : option Pod :=
  match pods with
  | [] => found
  | p :: rest => lastNamed name rest (if String.eqb (pod_Name p) name then Some p else found)
  end.

Definition notReadyServerPods (cluster : Cluster) (pods : result (list Pod)) : list string :=
  match pods with
  | Err _ => []
  | Ok pods =>
      List.concat (map (fun ord =>
        let name := podName (cl_Name cluster) ord in
        match lastNamed name pods None with
        | None => [name +:+ " (missing)"]
        | Some pod =>
            if pod_Deleting pod then [name +:+ " (terminating)"]
            else if negb (isPodReady pod) then [name +:+ " (not ready)"]
            else []
        end) (seqZ 0 (sp_Servers (cl_Spec cluster))))
  end.

Definition readyServerPods (pods : result (list Pod)) : Z :=
  match pods with
  | Err _ => 0
  | Ok pods => Z.of_nat (length (List.filter isPodReady pods))
  end.

Definition conditionTrue (conditions : list Condition) (t : string) : bool :=
  match findCondition conditions t with
  | Some c => String.eqb (c_Status c) ConditionTrue
  | None => false
  end.

Definition clusterHasFormed (status : ClusterStatus) : bool :=
  String.eqb (cs_Phase status) PhaseReady || String.eqb (cs_Phase status) PhaseDegraded
  || conditionTrue (cs_Conditions status) ConditionTypeClusterFormed.

Fixpoint hasReadyCondition (conds : list Condition) : bool :=
  match conds with
  | [] => false
  | c :: rest =>
      (String.eqb (c_Type c) ConditionTypeReady && String.eqb (c_Status c) ConditionTrue)
      || hasReadyCondition rest
  end.

Definition clusterAcceptsWork (status : ClusterStatus) : bool :=
  String.eqb (cs_Phase status) PhaseReady || String.eqb (cs_Phase status) PhaseDegraded
  || hasReadyCondition (cs_Conditions status).

Definition ConditionReasonServersUnavailable : string := "ServersUnavailable".

Definition serversUnavailableSince (status : ClusterStatus) : option Z :=
  match findCondition (cs_Conditions status) ConditionTypeDegraded with
  | Some c =>
      if negb (String.eqb (c_Status c) ConditionTrue)
         || negb (String.eqb (c_Reason c) ConditionReasonServersUnavailable)
      then None else Some (c_LastTransitionTime c)
  | None => None
  end.

Definition statefulSetRolloutInFlight (sts : StatefulSet) : bool :=
  if sts_ObservedGeneration sts <? sts_Generation sts then true
  else negb (String.eqb (sts_UpdateRevision sts) EmptyString)
       && negb (String.eqb (sts_CurrentRevision sts) (sts_UpdateRevision sts)).

(** [written] is the generation this operator last wrote to that StatefulSet,
    if it remembers one. *)
Definition serverTemplateWriteUnobserved (sts : StatefulSet) (written : option Z) : bool :=
  if sts_ObservedGeneration sts <? sts_Generation sts then true
  else match written with Some g => sts_Generation sts <? g | None => false end.

Definition serverRolloutInFlight (cluster : Cluster) (sts : getResult StatefulSet)
    (written : option Z) : bool :=
  match sts with
  | Found sts =>
      if serverTemplateWriteUnobserved sts written then true
      else
        let partition := keptUpgradePartition cluster (Some sts) in
        if 0 <? partition then (heldRolloutPending sts partition).1
        else statefulSetRolloutInFlight sts
  | _ => true
  end.

Definition DefaultServerUnavailableGrace : Z := 5 * minute.

Definition serverUnavailableGrace (configured : Z) : Z :=
  if 0 <? configured then configured else DefaultServerUnavailableGrace.

(** * The conditions it writes *)

(** A condition to write: type, status, reason, message. *)
Record wanted := mkWanted {
  wt_Type : string;
  wt_Status : string;
  wt_Reason : string;
  wt_Message : string
}.

Definition clusterFormedCondition : wanted :=
  mkWanted ConditionTypeClusterFormed ConditionTrue "FormationComplete"
    "Every server has joined the cluster; a server lost from here on is reported through the Degraded condition".

Definition serversUnavailableCondition (message : string) : wanted :=
  mkWanted ConditionTypeDegraded ConditionTrue ConditionReasonServersUnavailable message.

Definition allServersAvailableCondition (servers : Z) : wanted :=
  mkWanted ConditionTypeDegraded ConditionFalse "AllServersAvailable"
    ("All " +:+ strconv.Itoa servers +:+ " servers are available").

(** * Writing the status *)

(** [statusRecord]: an empty version or [None] leaves the field. *)
Record statusRecord := mkStatusRecord {
  sr_version : string;
  sr_runningVersion : option string;
  sr_resolvedTargetVersion : option string
}.

Definition noRecord : statusRecord := mkStatusRecord EmptyString None None.

(** What a write did: whether something to announce changed, the status it
    replaced ([None]: the write failed) and the phase it recorded. *)
Record clusterStatusWrite := mkClusterStatusWrite {
  cw_changed : bool;
  cw_before : option ClusterStatus;
  cw_phase : string
}.

Definition entered (w : clusterStatusWrite) (phase : string) : bool :=
  match cw_before w with
  | Some before => String.eqb (cw_phase w) phase && negb (String.eqb (cs_Phase before) phase)
  | None => false
  end.

Definition conditionAsWanted (conds : list Condition) (want : wanted) : bool :=
  match findCondition conds (wt_Type want) with
  | Some have => String.eqb (c_Status have) (wt_Status want) && String.eqb (c_Reason have) (wt_Reason want)
                 && String.eqb (c_Message have) (wt_Message want)
  | None => false
  end.

Definition differs (v : option string) (have : string) : bool :=
  match v with Some x => negb (String.eqb have x) | None => false end.

(** The body of the write: the object to store, [None] when nothing differs,
    and whether something to announce changed, with the status it read.
    [replicas] is what buildReplicaStatus returns. *)
Definition statusUpdate (now acted : Z) (replicas : option (Z * Z)) (phase message : string)
    (rec : statusRecord) (extra : list wanted) (latest : Cluster)
  : option Cluster * (bool * ClusterStatus) :=
  let st := cl_Status latest in
  let actedOn := if acted =? 0 then cl_Generation latest else acted in
  let readyBool := String.eqb phase "Ready" in
  let statusNeedsUpdate :=
    negb (String.eqb (cs_Phase st) phase) || negb (String.eqb (cs_Message st) message)
    || negb (Bool.eqb (cs_Ready st) readyBool) || negb (cs_ObservedGeneration st =? actedOn)
    || (negb (String.eqb (sr_version rec) EmptyString) && negb (String.eqb (cs_Version st) (sr_version rec))) in
  let versionsNeedUpdate :=
    differs (sr_runningVersion rec) (cs_RunningVersion st)
    || match cs_UpgradeStatus st with
       | Some us => differs (sr_resolvedTargetVersion rec) (us_ResolvedTargetVersion us)
       | None => false
       end in
  let '(condStatus, condReason) := PhaseToConditionStatus phase in
  let conditionNeedsUpdate :=
    negb (conditionAsWanted (cs_Conditions st) (mkWanted ConditionTypeReady condStatus condReason message)) in
  let extraNeedsUpdate := existsb (fun want => negb (conditionAsWanted (cs_Conditions st) want)) extra in
  if negb statusNeedsUpdate && negb conditionNeedsUpdate && negb extraNeedsUpdate && negb versionsNeedUpdate
  then (None, (false, st))
  else
    let conds := (SetReadyCondition now (cs_Conditions st) actedOn condStatus condReason message).1 in
    let conds := fold_left (fun cs c =>
        (SetNamedCondition now cs (wt_Type c) actedOn (wt_Status c) (wt_Reason c) (wt_Message c)).1)
      extra conds in
    let version := if String.eqb (sr_version rec) EmptyString then cs_Version st else sr_version rec in
    let us := match cs_UpgradeStatus st, sr_resolvedTargetVersion rec with
              | Some us, Some v => Some (set_us_ResolvedTargetVersion v us)
              | us, _ => us
              end in
    let st' := mkClusterStatus phase message version (default (cs_RunningVersion st) (sr_runningVersion rec))
                 (cs_LastUpgradeTime st) us conds (cs_Diagnostics st) readyBool actedOn replicas in
    (Some (set_cl_Status st' latest), (statusNeedsUpdate || conditionNeedsUpdate, st)).

Section Writes.
Context {S : Type}.

Definition buildReplicaStatus (cluster : Cluster) (sts : getResult StatefulSet) : option (Z * Z) :=
  match sts with
  | Found sts => Some (sp_Servers (cl_Spec cluster), sts_ReadyReplicas sts)
  | _ => None
  end.

Definition writeClusterStatus (phase message : string) (rec : statusRecord) (extra : list wanted)
  : W S clusterStatusWrite :=
  now ← now_;
  cluster ← cluster_;
  sts ← gets w_stsCached;
  r ← retryOnConflict DefaultBackoff
        (statusUpdate now (cl_Generation cluster) (buildReplicaStatus cluster sts) phase message rec extra)
        keepCopy keepCopy;
  match r with
  | Err _ => mret (mkClusterStatusWrite false None EmptyString)
  | Ok (changed, before) =>
      let w := mkClusterStatusWrite changed (Some before) phase in
      (if entered w PhaseReady then event "ClusterReady" "Neo4j Enterprise cluster is ready" else mret tt) ;;
      mret w
  end.

Definition updateClusterStatusWithVersion (phase message version : string) (extra : list wanted)
  : W S bool :=
  w ← writeClusterStatus phase message (mkStatusRecord version None None) extra;
  mret (cw_changed w).

Definition updateClusterStatus (phase message : string) : W S bool :=
  updateClusterStatusWithVersion phase message EmptyString [].

Definition verdictName (v : availabilityVerdict) : string :=
  match v with
  | verdictForming => "Forming"
  | verdictQuorumLost => "QuorumLost"
  | verdictWithinGrace => "WithinGrace"
  | verdictDegraded => "Degraded"
  | verdictUnmeasured => "Unmeasured"
  | verdictNoneShort => "NoneShort"
  end.

Definition firstAnnouncement (verdict : availabilityVerdict) (alreadyInPhase : bool) : W S bool := fun w =>
  let key := clusterKey (w_cluster w) in
  let prev := w_announced w !! key in
  let w := set_w_announced (<[key := verdictName verdict]> (w_announced w)) w in
  (if alreadyInPhase then false
   else match prev with Some p => negb (String.eqb p (verdictName verdict)) | None => true end, w).
End Writes.

(** * Dropped servers in the pods the spec keeps *)

Record droppedServerInPod := mkDropped { dp_pod : string; dp_id : string }.

Definition droppedLe (a b : droppedServerInPod) : Prop := sort.le (dp_pod a) (dp_pod b).

#[global] Instance droppedLe_dec a b : Decision (droppedLe a b).
Proof. unfold droppedLe. apply _. Defined.

(** The ordinals a member reports. *)
Definition memberOrdinals (servers : list ServerInfo) (clusterName : string) : list Z :=
  omap (fun s => if serverIsMember s then parseServerOrdinal (si_Address s) clusterName else None) servers.

(** Rows of one pod stay in the order of the rows: Go sorts fewer than 12
    elements by insertion. *)
Definition droppedServersInKeptPods (servers : list ServerInfo) (notReadyPods : list string)
    (clusterName : string) (expected : Z) : list droppedServerInPod :=
  let members := memberOrdinals servers clusterName in
  let notReady := map (fun p => strings.cutBefore p " ") notReadyPods in
  let runs ord := negb (bool_decide (ord ∈ members))
                  && negb (bool_decide (podName clusterName ord ∈ notReady)) in
  let dropped := List.filter (fun s => stateIs s "dropped") servers in
  let found := omap (fun s =>
      match serverOrdinal s clusterName with
      | Some ord => if (ord <? expected) && runs ord
                    then Some (mkDropped (podName clusterName ord) (serverIdentifier s)) else None
      | None => None
      end) dropped in
  let unnamed := omap (fun s =>
      match serverOrdinal s clusterName with
      | Some _ => None
      | None => Some (serverIdentifier s)
      end) dropped in
  match found, unnamed with
  | _ :: _, _ | _, [] => merge_sort droppedLe found
  | [], _ =>
      match List.filter runs (seqZ 0 expected) with
      | [] => []
      | ord :: rest =>
          mkDropped (podName clusterName ord) (strings.Join (sort.Strings unnamed) ", ")
          :: map (fun ord => mkDropped (podName clusterName ord) EmptyString) rest
      end
  end.

Definition lowestOrdinal (acc : Z) (ord : option Z) : Z :=
  match ord with
  | Some ord => if (acc <? 0) || (ord <? acc) then ord else acc
  | None => acc
  end.

Definition droppedServersMessage (clusterName : string) (found : list droppedServerInPod) : string :=
  let ids := List.filter (fun id => negb (String.eqb id EmptyString)) (map dp_id found) in
  let lowest := fold_left lowestOrdinal (map (fun f => parseServerOrdinal (dp_pod f) clusterName) found) (-1) in
  strings.Join (map dp_pod found) ", " +:+ " run servers Neo4j has dropped (" +:+ strings.Join ids ", "
  +:+ "): they started on the volumes of servers a scale-down removed, before those were deleted, and a dropped server cannot rejoin. Set spec.topology.servers to "
  +:+ strconv.Itoa lowest +:+ "; once ServersPendingDrain reads " +:+ String "034" EmptyString
  +:+ "Scale-down drain complete" +:+ String "034" EmptyString
  +:+ ", raise it again: the operator adds the servers once the removed ones' pods and volumes are gone, with new identities".

(** * The pass over a cluster that is not fully formed *)

(** [formationCheck]: whether the cluster has formed, what to say of it, the
    rows of SHOW SERVERS ([None]: Neo4j could not be asked), and whether a
    split-brain was found. *)
Record formationCheck := mkFormationCheck {
  fc_formed : bool;
  fc_message : string;
  fc_servers : option (list ServerInfo);
  fc_splitBrain : bool
}.

Section Shortfall.
Context {S : Type}.

(** The reconciler's settings and memory the pass reads: the configured
    grace period, since when Neo4j is unreachable, and the generation of the
    server StatefulSet it last wrote. *)
Variable configuredGrace : Z.
Variable unreachableSince : option Z.
Variable written : option Z.

Definition shortfallInputOf (w : World S) (formation : formationCheck)
    (servers : option (list ServerInfo)) : shortfallInput :=
  let cluster := w_cluster w in
  let formed := clusterHasFormed (cl_Status cluster) in
  mkShortfallInput formed
    (formed && serverRolloutInFlight cluster (w_stsCached w) written)
    (fc_splitBrain formation) servers
    (match fc_servers formation with
     | None => if formed then readyServerPods (w_podsCached w) else 0
     | Some _ => 0 end)
    (match fc_servers formation with None => if formed then unreachableSince else None | Some _ => None end)
    (match fc_servers formation with
     | Some _ => if formed then notReadyServerPods cluster (w_podsCached w) else []
     | None => [] end)
    (sp_Servers (cl_Spec cluster)) (serversUnavailableSince (cl_Status cluster)) (w_now w)
    (serverUnavailableGrace configuredGrace).

Definition reconcileServerShortfall (formation : formationCheck) (detail : string) : W S unit :=
  cluster ← cluster_;
  servers ← withKnownAddresses cluster (fc_servers formation);
  i ← gets (fun w => shortfallInputOf w formation servers);
  let a := assessServerShortfall i in
  let shortfall := outageDetail a (in_NotReadyPods i) in
  match sa_Verdict a with
  | verdictUnmeasured | verdictNoneShort => mret tt
  | verdictQuorumLost =>
      first ← firstAnnouncement (sa_Verdict a) false;
      (if (first : bool)
       then event "ClusterQuorumLost" ("Neo4j cluster has lost a majority of its servers (" +:+ shortfall
              +:+ "); resources that depend on it pause until a majority is back")
       else mret tt) ;;
      updateClusterStatusWithVersion PhaseForming ("Waiting for a majority of servers: " +:+ shortfall)
        EmptyString [clusterFormedCondition; serversUnavailableCondition shortfall] ;;
      mret tt
  | verdictWithinGrace =>
      updateClusterStatusWithVersion PhaseReady ("Neo4j cluster is serving. " +:+ shortfall)
        EmptyString [clusterFormedCondition; serversUnavailableCondition shortfall] ;;
      mret tt
  | verdictDegraded =>
      first ← firstAnnouncement (sa_Verdict a) (String.eqb (cs_Phase (cl_Status cluster)) PhaseDegraded);
      (if (first : bool)
       then event "ClusterDegraded" ("Neo4j cluster has been short of servers for longer than "
              +:+ gotime.DurationString (in_Grace i) +:+ ": " +:+ shortfall)
       else mret tt) ;;
      updateClusterStatusWithVersion PhaseDegraded
        ("Neo4j cluster is serving but degraded for longer than " +:+ gotime.DurationString (in_Grace i)
         +:+ ". " +:+ shortfall)
        EmptyString [clusterFormedCondition; serversUnavailableCondition shortfall] ;;
      mret tt
  | verdictForming =>
      let dropped :=
        match in_Servers i with
        | Some servers =>
            if in_Formed i
            then droppedServersInKeptPods servers (in_NotReadyPods i) (cl_Name cluster) (in_Expected i)
            else []
        | None => []
        end in
      let detail := match dropped with
                    | [] => detail
                    | _ => droppedServersMessage (cl_Name cluster) dropped
                    end in
      w ← writeClusterStatus PhaseForming detail noRecord [];
      match cw_before w with
      | None => mret tt
      | Some before =>
          (if negb (String.eqb (cs_Phase before) PhaseForming) && negb (clusterHasFormed before)
           then event "ClusterFormationStarted" "Neo4j cluster formation started" else mret tt) ;;
          (match dropped with
           | _ :: _ => if negb (String.eqb (cs_Message before) detail)
                       then event "DroppedServersReturned" detail else mret tt
           | [] => mret tt
           end)
      end
  end.
End Shortfall.

(** * The verdict, characterised *)

Definition memberRows (l : list ServerInfo) : list ServerInfo := List.filter serverIsMember l.
Definition servingRows (l : list ServerInfo) : list ServerInfo := List.filter serverServes l.
Definition count {A} (l : list A) : Z := Z.of_nat (length l).

Lemma countServer_fold l m a u :
  fold_left countServer l (m, a, u)
  = (m + count (memberRows l), a + count (servingRows l),
     u ++ map describeServer (List.filter (fun s => negb (String.eqb (si_Health s) "Available")) (memberRows l))).
Proof.
  unfold count, servingRows, serverServes. revert m a u. induction l as [|s l IH]; intros m a u; simpl.
  - by rewrite app_nil_r, !Z.add_0_r.
  - destruct (serverIsMember s); simpl; [|by rewrite IH].
    destruct (String.eqb (si_Health s) "Available"); simpl; rewrite IH, <-?app_assoc;
      (apply (f_equal2 pair); [apply (f_equal2 pair); lia|done]).
Qed.

Lemma serving_members l : count (servingRows l) <= count (memberRows l).
Proof.
  unfold count, servingRows, memberRows, serverServes. induction l as [|s l IH]; simpl; [lia|].
  destruct (serverIsMember s), (String.eqb (si_Health s) "Available"); simpl; lia.
Qed.

Lemma unavailable_nil l :
  map describeServer (List.filter (fun s => negb (String.eqb (si_Health s) "Available")) (memberRows l)) = []
  <-> count (servingRows l) = count (memberRows l).
Proof.
  unfold count, servingRows, memberRows, serverServes. induction l as [|s l IH]; simpl; [by split|].
  assert (Hle := serving_members l). unfold count, servingRows, memberRows, serverServes in Hle.
  destruct (serverIsMember s); cbn [List.filter map length negb andb]; [|exact IH].
  destruct (String.eqb (si_Health s) "Available"); cbn [List.filter map length negb andb].
  - rewrite IH. lia.
  - split; [done|lia].
Qed.

(** The measured part of the decision, on the counts alone. *)
Lemma assess_measured i l :
  in_Formed i = true -> in_RolloutInFlight i = false -> in_SplitBrain i = false -> 1 <= in_Expected i ->
  in_Servers i = Some l ->
  sa_Verdict (assessServerShortfall i)
  = (if count (memberRows l) <? in_Expected i then verdictForming
     else if (count (servingRows l) =? count (memberRows l))
             && (match in_NotReadyPods i with [] => true | _ => false end) then verdictNoneShort
     else if count (servingRows l) * 2 <=? in_Expected i then verdictQuorumLost
     else if in_Now i - default (in_Now i) (in_UnavailableSince i) <? in_Grace i
     then verdictWithinGrace else verdictDegraded).
Proof.
  intros Hf Hr Hs He Hl. unfold assessServerShortfall. rewrite Hf, Hr, Hs, Hl. simpl.
  destruct (Z.ltb_spec (in_Expected i) 1); [lia|]. rewrite countServer_fold, !Z.add_0_l. simpl.
  destruct (_ <? in_Expected i); [done|].
  pose proof (unavailable_nil l) as Hu.
  destruct (map describeServer _) as [|x xs].
  - rewrite (proj2 (Z.eqb_eq _ _) (proj1 Hu eq_refl)). simpl. destruct (in_NotReadyPods i); [done|].
    by destruct (count (servingRows l) * 2 <=? in_Expected i), (in_Now i - default (in_Now i) (in_UnavailableSince i) <? in_Grace i).
  - destruct (Z.eqb_spec (count (servingRows l)) (count (memberRows l))) as [E|]; [by apply Hu in E|].
    simpl. by destruct (count (servingRows l) * 2 <=? in_Expected i), (in_Now i - default (in_Now i) (in_UnavailableSince i) <? in_Grace i).
Qed.

(** Something is short: a member the others cannot reach, or a pod that is not
    ready. *)
Definition somethingShort (i : shortfallInput) (l : list ServerInfo) : Prop :=
  count (servingRows l) < count (memberRows l) \/ in_NotReadyPods i <> [].

(** A formed, measured cluster outside a rollout gets exactly one verdict:
    Forming while a server is not yet a member, NoneShort when nothing is short,
    QuorumLost exactly without a strict majority of the servers asked for, and
    with one it is serving, Degraded exactly once the shortage has lasted the
    grace period. *)
Theorem assess_verdict (i : shortfallInput) (l : list ServerInfo) :
  in_Formed i = true -> in_RolloutInFlight i = false -> in_SplitBrain i = false -> 1 <= in_Expected i ->
  in_Servers i = Some l ->
  let v := sa_Verdict (assessServerShortfall i) in
  let joined := in_Expected i <= count (memberRows l) in
  let majority := in_Expected i < 2 * count (servingRows l) in
  let lasted := in_Grace i <= in_Now i - default (in_Now i) (in_UnavailableSince i) in
  (v = verdictForming <-> ~ joined) /\
  (v = verdictNoneShort <-> joined /\ ~ somethingShort i l) /\
  (v = verdictQuorumLost <-> joined /\ somethingShort i l /\ ~ majority) /\
  (v = verdictWithinGrace <-> joined /\ somethingShort i l /\ majority /\ ~ lasted) /\
  (v = verdictDegraded <-> joined /\ somethingShort i l /\ majority /\ lasted).
Proof.
  intros Hf Hr Hs He Hl. cbv zeta. rewrite (assess_measured i l) by done. unfold somethingShort.
  pose proof (serving_members l) as Hle.
  destruct (Z.ltb_spec (count (memberRows l)) (in_Expected i)); [intuition (try lia; try discriminate)|].
  destruct (Z.eqb_spec (count (servingRows l)) (count (memberRows l))), (in_NotReadyPods i) as [|p ps]; simpl;
    destruct (Z.leb_spec (count (servingRows l) * 2) (in_Expected i));
    try destruct (Z.ltb_spec (in_Now i - default (in_Now i) (in_UnavailableSince i)) (in_Grace i));
    intuition (try lia; try discriminate; try done).
Qed.

Definition exampleShort (id health : string) : ServerInfo :=
  mkServerInfo id id (id +:+ ":7687") "Enabled" health [] "2026.08.1".

Lemma assess_verdict_witness :
  sa_Verdict (assessServerShortfall (mkShortfallInput true false false
    (Some [exampleShort "c-server-0" "Available"; exampleShort "c-server-1" "Available";
           exampleShort "c-server-2" "Unavailable"]) 0 None [] 3 (Some 0) (6 * minute) (5 * minute)))
  = verdictDegraded.
Proof.
  refine (proj2 (proj2 (proj2 (proj2 (proj2 (assess_verdict (mkShortfallInput true false false
    (Some [exampleShort "c-server-0" "Available"; exampleShort "c-server-1" "Available";
           exampleShort "c-server-2" "Unavailable"]) 0 None [] 3 (Some 0) (6 * minute) (5 * minute))
    [exampleShort "c-server-0" "Available"; exampleShort "c-server-1" "Available";
     exampleShort "c-server-2" "Unavailable"] _ _ _ _ _))))) _);
    [reflexivity|reflexivity|reflexivity|vm_compute; discriminate|reflexivity|].
  split_and!; [vm_compute; discriminate|left; vm_compute; reflexivity|vm_compute; reflexivity|vm_compute; discriminate].
Defined.

(** * The grace clock *)

Lemma SetReadyCondition_named now cs gen status reason message :
  SetReadyCondition now cs gen status reason message
  = SetNamedCondition now cs ConditionTypeReady gen status reason message.
Proof. reflexivity. Qed.

(** The Degraded condition after the write of a pass that found servers
    unavailable. *)
Lemma shortfall_write_since now acted replicas phase message shortfall latest :
  let '(out, _) := statusUpdate now acted replicas phase message (mkStatusRecord EmptyString None None)
                     [clusterFormedCondition; serversUnavailableCondition shortfall] latest in
  let stored := default latest out in
  serversUnavailableSince (cl_Status stored)
    = Some (default now (serversUnavailableSince (cl_Status latest))) /\
  cs_Phase (cl_Status stored) = phase /\
  cl_Spec stored = cl_Spec latest /\ cl_Name stored = cl_Name latest /\ cl_Namespace stored = cl_Namespace latest.
Proof.
  unfold statusUpdate. cbn [sr_version sr_runningVersion sr_resolvedTargetVersion differs].
  destruct (PhaseToConditionStatus phase) as [cst crs].
  destruct (negb _ && _ && _ && _) eqn:E; cbn [from_option id].
  - assert (Ha : conditionAsWanted (cs_Conditions (cl_Status latest)) (serversUnavailableCondition shortfall) = true).
    { cbn [existsb] in E. by destruct (conditionAsWanted _ (serversUnavailableCondition shortfall));
        [|rewrite orb_true_r, andb_false_r in E]. }
    assert (Hp : cs_Phase (cl_Status latest) = phase) by (breflect; done).
    split_and!; try done. unfold conditionAsWanted in Ha. unfold serversUnavailableSince.
    cbn [wt_Type wt_Status wt_Reason serversUnavailableCondition] in Ha.
    destruct (findCondition _ ConditionTypeDegraded) as [c|]; [|done].
    apply andb_true_iff in Ha as [Ha _]. apply andb_true_iff in Ha as [-> ->]. done.
  - split_and!; try done. cbn [cl_Status set_cl_Status cs_Conditions fold_left].
    rewrite SetReadyCondition_named. unfold serversUnavailableSince at 1. cbn [cs_Conditions].
    rewrite find_SetNamedCondition. cbn [wt_Type serversUnavailableCondition]. rewrite String.eqb_refl.
    rewrite find_SetNamedCondition. change (String.eqb (wt_Type clusterFormedCondition) ConditionTypeDegraded) with false.
    cbv iota. rewrite find_SetNamedCondition. change (String.eqb ConditionTypeReady ConditionTypeDegraded) with false.
    cbv iota. unfold conditionAfter. cbn [c_Status c_Reason c_LastTransitionTime wt_Status wt_Reason serversUnavailableCondition].
    rewrite !String.eqb_refl. cbn [negb orb]. f_equal. unfold serversUnavailableSince.
    destruct (findCondition (cs_Conditions (cl_Status latest)) ConditionTypeDegraded) as [c|]; [|done].
    by destruct (String.eqb (c_Status c) ConditionTrue), (String.eqb (c_Reason c) ConditionReasonServersUnavailable).
Qed.

Section GraceClock.
Context {S : Type} (grace : Z).

(** One pass: the world it starts in and what it was given. *)
Record pass := mkPass {
  ps_world : World S;
  ps_unreachable : option Z;
  ps_written : option Z;
  ps_formation : formationCheck;
  ps_detail : string
}.

Definition passAfter (p : pass) : World S :=
  (reconcileServerShortfall grace (ps_unreachable p) (ps_written p) (ps_formation p) (ps_detail p)
     (ps_world p)).2.

Definition passVerdict (p : pass) : availabilityVerdict :=
  let '(servers, w) := withKnownAddresses (w_cluster (ps_world p)) (fc_servers (ps_formation p)) (ps_world p) in
  sa_Verdict (assessServerShortfall
    (shortfallInputOf grace (ps_unreachable p) (ps_written p) w (ps_formation p) servers)).

(** A pass without write faults whose copy is the stored cluster, and which
    finds the cluster serving and short of a server. *)
Definition servingShort (p : pass) : Prop :=
  w_attempts (ps_world p) = [] /\ w_cluster (ps_world p) = w_stored (ps_world p) /\
  (passVerdict p = verdictWithinGrace \/ passVerdict p = verdictDegraded).

Definition storedSince (w : World S) : option Z := serversUnavailableSince (cl_Status (w_stored w)).

Lemma withKnownAddresses_frame c l (w : World S) :
  let w' := (withKnownAddresses c l w).2 in
  w_now w' = w_now w /\ w_cluster w' = w_cluster w /\ w_stored w' = w_stored w /\
  w_attempts w' = w_attempts w /\ w_stsCached w' = w_stsCached w.
Proof.
  unfold withKnownAddresses. destruct l as [l|]; [|done]. cbn. by destruct (fillAddresses _ l).
Qed.

(** A verdict of a serving cluster follows from the clock alone. *)
Lemma serving_verdict i :
  sa_Verdict (assessServerShortfall i) = verdictWithinGrace \/
  sa_Verdict (assessServerShortfall i) = verdictDegraded ->
  sa_Verdict (assessServerShortfall i)
  = (if in_Now i - default (in_Now i) (in_UnavailableSince i) <? in_Grace i
     then verdictWithinGrace else verdictDegraded).
Proof.
  unfold assessServerShortfall. destruct (_ || _ || _ || _); [by intros []|].
  destruct (in_Servers i) as [l|]; [|by destruct (_ && _); intros []].
  destruct (fold_left countServer l (0, 0, [])) as [[m a] u].
  destruct (m <? in_Expected i); [by intros []|]. destruct (_ && _); [by intros []|].
  destruct (a * 2 <=? in_Expected i); [by intros []|]. by destruct (_ <? in_Grace i).
Qed.

Lemma writeClusterStatus_clean phase message shortfall (w : World S) :
  w_attempts w = [] -> w_cluster w = w_stored w ->
  let w' := (writeClusterStatus phase message (mkStatusRecord EmptyString None None)
               [clusterFormedCondition; serversUnavailableCondition shortfall] w).2 in
  storedSince w' = Some (default (w_now w) (storedSince w)) /\ cs_Phase (cl_Status (w_stored w')) = phase.
Proof.
  intros Ha Hc. cbv zeta. unfold writeClusterStatus, storedSince. wsimpl.
  rewrite retryOnConflict_clean by done. rewrite Hc.
  pose proof (shortfall_write_since (w_now w) (cl_Generation (w_stored w))
    (buildReplicaStatus (w_stored w) (w_stsCached w)) phase message shortfall (w_stored w)) as H.
  destruct (statusUpdate _ _ _ phase message _ _ (w_stored w)) as [out [changed before]].
  cbv zeta in H. destruct H as (Hs & Hp & _).
  destruct (entered _ PhaseReady); destruct out as [latest|]; cbn in *; done.
Qed.

Lemma servingShort_pass p :
  servingShort p ->
  let w := ps_world p in
  let since := default (w_now w) (storedSince w) in
  storedSince (passAfter p) = Some since /\
  cs_Phase (cl_Status (w_stored (passAfter p)))
  = (if w_now w - since <? serverUnavailableGrace grace then PhaseReady else PhaseDegraded).
Proof.
  intros (Ha & Hc & Hv). cbv zeta. unfold passVerdict in Hv. unfold passAfter, reconcileServerShortfall.
  wsimpl.
  pose proof (withKnownAddresses_frame (w_cluster (ps_world p)) (fc_servers (ps_formation p)) (ps_world p)) as Hf.
  destruct (withKnownAddresses _ _ (ps_world p)) as [servers w1]. cbn [snd] in Hf.
  destruct Hf as (Hn & Hcl & Hst & Hat & _).
  set (i := shortfallInputOf _ _ _ w1 _ servers) in *.
  pose proof (serving_verdict i Hv) as Hclock.
  assert (Hi : in_Now i = w_now (ps_world p) /\ in_UnavailableSince i = storedSince (ps_world p) /\
    in_Grace i = serverUnavailableGrace grace).
  { unfold i, shortfallInputOf, storedSince. cbn. by rewrite Hn, Hcl, Hc. }
  destruct Hi as (-> & -> & ->) in Hclock.
  assert (Hw : forall phase message shortfall (w2 : World S), w_attempts w2 = w_attempts w1 ->
    w_cluster w2 = w_cluster w1 -> w_stored w2 = w_stored w1 -> w_now w2 = w_now w1 ->
    let w' := (updateClusterStatusWithVersion phase message EmptyString
                 [clusterFormedCondition; serversUnavailableCondition shortfall] w2).2 in
    storedSince w' = Some (default (w_now (ps_world p)) (storedSince (ps_world p))) /\
    cs_Phase (cl_Status (w_stored w')) = phase).
  { intros phase message shortfall w2 E1 E2 E3 E4. cbv zeta. unfold updateClusterStatusWithVersion.
    wsimpl.
    pose proof (writeClusterStatus_clean phase message shortfall w2) as H.
    destruct (writeClusterStatus phase message _ _ w2) as [x w3]. cbn [snd] in *.
    unfold storedSince in *. rewrite <-Hst, <-E3, <-Hn, <-E4. apply H; congruence. }
  destruct (_ <? serverUnavailableGrace grace); rewrite Hclock.
  - match goal with |- context [updateClusterStatusWithVersion ?ph ?m ?v ?e w1] =>
      pose proof (Hw ph m (outageDetail (assessServerShortfall i) (in_NotReadyPods i)) w1
        eq_refl eq_refl eq_refl eq_refl) as H;
      destruct (updateClusterStatusWithVersion ph m v e w1) as [x w3] end. exact H.
  - unfold firstAnnouncement. wsimpl.
    match goal with |- context [match (if ?b then _ else _) _ with _ => _ end] => destruct b end;
    cbv beta iota;
    match goal with |- context [updateClusterStatusWithVersion ?ph ?m ?v ?e ?w2] =>
      pose proof (Hw ph m (outageDetail (assessServerShortfall i) (in_NotReadyPods i)) w2
        eq_refl eq_refl eq_refl eq_refl) as H;
      destruct (updateClusterStatusWithVersion ph m v e w2) as [x w3] end; exact H.
Qed.

(** Consecutive passes: each starts from what the one before stored. *)
Fixpoint consecutive (p : pass) (ps : list pass) : Prop :=
  servingShort p /\
  match ps with
  | [] => True
  | q :: rest => w_stored (ps_world q) = w_stored (passAfter p) /\ consecutive q rest
  end.

Lemma consecutive_since p ps t0 :
  consecutive p ps -> default (w_now (ps_world p)) (storedSince (ps_world p)) = t0 ->
  forall q, q ∈ p :: ps ->
  storedSince (passAfter q) = Some t0 /\
  cs_Phase (cl_Status (w_stored (passAfter q)))
  = (if w_now (ps_world q) - t0 <? serverUnavailableGrace grace then PhaseReady else PhaseDegraded).
Proof.
  revert p. induction ps as [|r ps IH]; intros p [Hs Hrest] Ht q Hq;
    pose proof (servingShort_pass p Hs) as Hp; cbv zeta in Hp; rewrite Ht in Hp.
  - by apply list_elem_of_singleton in Hq as ->.
  - apply elem_of_cons in Hq as [->|Hq]; [done|]. destruct Hrest as [Hst Hc].
    apply (IH r); [done| |done]. unfold storedSince in *. rewrite Hst. by rewrite (proj1 Hp).
Qed.

(** While a formed cluster keeps serving short of a server, the grace
    period is measured from the first pass that found it so, whatever the
    messages and servers of the passes in between: it stays Ready until the
    period is over and is Degraded from then on. *)
Theorem grace_clock (p : pass) (ps : list pass) :
  consecutive p ps -> storedSince (ps_world p) = None ->
  forall q, q ∈ p :: ps ->
  cs_Phase (cl_Status (w_stored (passAfter q)))
  = (if w_now (ps_world q) - w_now (ps_world p) <? serverUnavailableGrace grace
     then PhaseReady else PhaseDegraded).
Proof.
  intros Hc Hn q Hq. refine (proj2 (consecutive_since p ps _ Hc _ q Hq)). by rewrite Hn.
Qed.
End GraceClock.

(** A formed cluster of three with one server down, six minutes apart. *)
Definition exampleFormed : Cluster :=
  mkCluster "c" "ns" 1 ∅ (mkClusterSpec "neo4j" "2026.08.1" 3 None)
    (mkClusterStatus PhaseReady EmptyString "2026.08.1" EmptyString None None [] None true 1 None).

Definition exampleRolled : StatefulSet :=
  mkStatefulSet "c-server" ∅ 4 (Some 3) [("neo4j", "neo4j:2026.08.1")] None 4 3 2 "rev-a" "rev-a".

Definition shortWorld (now : Z) (c : Cluster) : World unit :=
  mkWorld now c c (Found exampleRolled) (Found exampleRolled) (Ok []) (Ok []) [] [] None [] [] [] [] ∅ ∅ ∅ [] tt [].

Definition shortPass (now : Z) (c : Cluster) : pass (S := unit) :=
  mkPass (shortWorld now c) None None
    (mkFormationCheck false EmptyString (Some [exampleShort "c-server-0" "Available"; exampleShort "c-server-1" "Available";
                             exampleShort "c-server-2" "Unavailable"]) false) "forming".

Definition afterFirst : Cluster := Eval vm_compute in w_stored (passAfter (5 * minute) (shortPass 0 exampleFormed)).

Lemma grace_clock_witness :
  cs_Phase (cl_Status (w_stored (passAfter (5 * minute) (shortPass (6 * minute) afterFirst)))) = PhaseDegraded.
Proof.
  refine (grace_clock (5 * minute) (shortPass 0 exampleFormed) [shortPass (6 * minute) afterFirst] _ _
    (shortPass (6 * minute) afterFirst) _).
  - repeat split; try reflexivity; vm_compute; [left; reflexivity|right; reflexivity].
  - reflexivity.
  - right. left.
Defined.
