(* ===== verification/SplitBrain.v ===== *)
(** The split-brain detector (splitbrain_detector.go): what each server sees of
    the cluster, how the views are grouped and compared, which pods stand
    against the largest group, and the repair that deletes them. What a pod
    answers over Bolt is a parameter. *)
From S2P Require Import Prelude GoStrings ClusterTypes ServerIdentity Availability.

Open Scope Z_scope.

(** * Data *)

(** [ClusterView]; [cv_ConnectionError] is nil as [None]. *)
Record ClusterView := mkClusterView {
  cv_ServerPodName : string;
  cv_Servers : list ServerInfo;
  cv_ConnectionError : option string
}.

(** ClusterView{}, the zero value. *)
Definition zeroView : ClusterView := mkClusterView EmptyString [] None.

Inductive RepairAction :=
| RepairActionNone
| RepairActionRestartPods
| RepairActionRestartAll
| RepairActionWaitForming
| RepairActionInvestigate.

#[global] Instance RepairAction_eq_dec : EqDecision RepairAction.
Proof. solve_decision. Defined.

Record SplitBrainAnalysis := mkSplitBrainAnalysis {
  sb_IsSplitBrain : bool;
  sb_ClusterViews : list ClusterView;
  sb_ExpectedServers : Z;
  sb_LargestCluster : ClusterView;
  sb_OrphanedPods : list string;
  sb_RepairAction : RepairAction;
  sb_ErrorMessage : string
}.

(** An analysis that found no split-brain. *)
Definition noSplitBrain (views : list ClusterView) (expected : Z) (largest : ClusterView)
    (action : RepairAction) (message : string) : SplitBrainAnalysis :=
  mkSplitBrainAnalysis false views expected largest [] action message.

Definition splitBrainMessagePrefix : string := "Split-brain detected".

Definition splitBrainMessage (analysis : SplitBrainAnalysis) : string :=
  let msg := strings.TrimSpace (sb_ErrorMessage analysis) in
  if String.eqb msg EmptyString then splitBrainMessagePrefix
  else if strings.HasPrefix msg splitBrainMessagePrefix then msg
  else splitBrainMessagePrefix +:+ ": " +:+ msg.

(** * Comparing views *)

Definition getVisibleServerAddresses (servers : list ServerInfo) : list string :=
  si_Address <$> List.filter serverServes servers.

Definition countCommonAddresses (addresses1 addresses2 : list string) : Z :=
  count (List.filter (fun a => bool_decide (a ∈ addresses2)) addresses1).

(** The quotient float64(common*2) / float64(total) is compared with 0.8; for
    counts below 2^50 the rounded quotient is at least the rounded 0.8 exactly
    when the fractions are. *)
Definition haveSimilarClusterView (view1 view2 : ClusterView) : bool :=
  let addresses1 := getVisibleServerAddresses (cv_Servers view1) in
  let addresses2 := getVisibleServerAddresses (cv_Servers view2) in
  let commonCount := countCommonAddresses addresses1 addresses2 in
  let totalCount := count addresses1 + count addresses2 - commonCount in
  if totalCount =? 0 then true
  else 8 * totalCount <=? 10 * (commonCount * 2).

(** The group of [groups] the view belongs to, or a new one at the end. *)
Fixpoint joinGroup (view : ClusterView) (groups : list (list ClusterView)) : list (list ClusterView) :=
  match groups with
  | [] => [[view]]
  | group :: rest =>
      match group with
      | first :: _ => if haveSimilarClusterView view first then (group ++ [view]) :: rest
                      else group :: joinGroup view rest
      | [] => group :: joinGroup view rest
      end
  end.

Definition groupPodsByClusterView (views : list ClusterView) : list (list ClusterView) :=
  fold_left (fun groups view => joinGroup view groups) views [].

(** The addresses a group of views lists as serving. *)
Definition groupAddresses (group : list ClusterView) : gset string :=
  list_to_set (group ≫= fun view => getVisibleServerAddresses (cv_Servers view)).

Definition countUniqueServersInGroup (group : list ClusterView) : Z :=
  Z.of_nat (size (groupAddresses group)).

Definition isSameGroup (group1 group2 : list ClusterView) : bool :=
  if negb (length group1 =? length group2)%nat then false
  else bool_decide (sort.Strings (cv_ServerPodName <$> group1) = sort.Strings (cv_ServerPodName <$> group2)).

(** The loop over the groups: the first one that lists the most servers. *)
Definition largerGroup (best : Z * list ClusterView) (group : list ClusterView) : Z * list ClusterView :=
  let uniqueServers := countUniqueServersInGroup group in
  if best.1 <? uniqueServers then (uniqueServers, group) else best.

Definition findLargest (groups : list (list ClusterView)) : Z * list ClusterView :=
  fold_left largerGroup groups (0, []).

(** A view that lists a server the majority does not. *)
Definition hasConflict (majorityAddresses : gset string) (view : ClusterView) : bool :=
  existsb (fun addr => negb (bool_decide (addr ∈ majorityAddresses))) (getVisibleServerAddresses (cv_Servers view)).

Definition orphansOf (clusterGroups : list (list ClusterView)) (largestGroup : list ClusterView) : list string :=
  clusterGroups ≫= fun group =>
    if isSameGroup group largestGroup then []
    else cv_ServerPodName <$> List.filter (hasConflict (groupAddresses largestGroup)) group.

(** * The analysis *)

Definition viewConnected (view : ClusterView) : bool := match cv_ConnectionError view with None => true | Some _ => false end.

Definition analyzeClusterViews (views : list ClusterView) (expectedServers : Z) : SplitBrainAnalysis :=
  if expectedServers =? 1 then noSplitBrain views expectedServers zeroView RepairActionNone EmptyString
  else
    let workingViews := List.filter viewConnected views in
    let connectionFailures := count (List.filter (fun v => negb (viewConnected v)) views) in
    if (length workingViews =? 0)%nat then
      noSplitBrain views expectedServers zeroView RepairActionRestartAll "Cannot connect to any Neo4j server pods"
    else if Z.quot expectedServers 2 <? connectionFailures then
      noSplitBrain views expectedServers zeroView RepairActionInvestigate
        ("Too many connection failures (" +:+ strconv.Itoa connectionFailures +:+ "/" +:+ strconv.Itoa (count views)
         +:+ ") to determine cluster status")
    else
      let clusterGroups := groupPodsByClusterView workingViews in
      let '(maxSize, largestGroup) := findLargest clusterGroups in
      let largest := default zeroView (head largestGroup) in
      if (1 <? length clusterGroups)%nat then
        let orphanedPods := orphansOf clusterGroups largestGroup in
        if (length orphanedPods =? 0)%nat then
          noSplitBrain views expectedServers largest RepairActionWaitForming
            ("Cluster formation in progress: " +:+ strconv.Itoa maxSize +:+ "/" +:+ strconv.Itoa expectedServers
             +:+ " servers have full view")
        else
          mkSplitBrainAnalysis true views expectedServers largest orphanedPods RepairActionRestartPods
            (splitBrainMessagePrefix +:+ ": " +:+ strconv.Itoa (count clusterGroups) +:+ " cluster groups found, "
             +:+ strconv.Itoa (count orphanedPods) +:+ " orphaned pods")
      else
        let uniqueServers := countUniqueServersInGroup workingViews in
        if uniqueServers <? expectedServers then
          noSplitBrain views expectedServers largest RepairActionWaitForming
            ("Cluster formation in progress: " +:+ strconv.Itoa uniqueServers +:+ "/" +:+ strconv.Itoa expectedServers
             +:+ " servers visible")
        else noSplitBrain views expectedServers largest RepairActionNone EmptyString.

(** * Asking the pods *)

(** A pod as listed: what the cluster's other code reads of it, and its UID. *)
Record ServerPod := mkServerPod { vp_pod : Pod; vp_UID : string }.

Definition PodRunning : string := "Running".
Definition podRunning (p : ServerPod) : bool := String.eqb (pod_Phase (vp_pod p)) PodRunning.

(** What a server answers: the client cannot be made, SHOW SERVERS fails, or its
    rows. *)
Inductive podAnswer :=
| CannotConnect (err : string)
| CannotList (err : string)
| Lists (servers : list ServerInfo).

(** [allBeingDeleted]: the last pod of a name decides, as in the map. *)
Definition beingDeleted (pods : list ServerPod) (name : string) : bool :=
  fold_left (fun acc p => if String.eqb (pod_Name (vp_pod p)) name then pod_Deleting (vp_pod p) else acc) pods false.

Definition allBeingDeleted (pods : list ServerPod) (views : list ClusterView) : bool :=
  forallb (fun v => beingDeleted pods (cv_ServerPodName v)) views && negb (length views =? 0)%nat.

Section Detection.
(** spec.tls.mode is cert-manager; what the server at a URL answers. *)
Variable certManager : bool.
Variable ask : string -> podAnswer.

Definition podURL (cluster : Cluster) (podName : string) : string :=
  (if certManager then "bolt+s" else "bolt") +:+ "://" +:+ podName +:+ "." +:+ cl_Name cluster +:+ "-headless."
  +:+ cl_Namespace cluster +:+ ".svc.cluster.local:7687".

Definition getClusterViewFromPod (cluster : Cluster) (podName : string) : ClusterView :=
  match ask (podURL cluster podName) with
  | CannotConnect e => mkClusterView podName [] (Some ("failed to connect to pod " +:+ podName +:+ ": " +:+ e))
  | CannotList e => mkClusterView podName [] (Some ("failed to get server list from pod " +:+ podName +:+ ": " +:+ e))
  | Lists servers => mkClusterView podName servers None
  end.

Definition DetectSplitBrain (cluster : Cluster) (listed : result (list ServerPod)) : result SplitBrainAnalysis :=
  let expectedServers := sp_Servers (cl_Spec cluster) in
  let phase := cs_Phase (cl_Status cluster) in
  if expectedServers =? 1 then Ok (noSplitBrain [] expectedServers zeroView RepairActionNone EmptyString)
  else if negb (String.eqb phase PhaseReady) && negb (String.eqb phase PhaseDegraded) then
    Ok (noSplitBrain [] expectedServers zeroView RepairActionNone EmptyString)
  else
    match listed with
    | Err e => Err ("failed to get server pods: " +:+ e)
    | Ok serverPods =>
        let running := List.filter podRunning serverPods in
        let runningPods := count running in
        if runningPods <? expectedServers then
          Ok (noSplitBrain [] expectedServers zeroView RepairActionWaitForming
                ("Only " +:+ strconv.Itoa runningPods +:+ " of " +:+ strconv.Itoa expectedServers
                 +:+ " server pods are running"))
        else
          let clusterViews := (fun p => getClusterViewFromPod cluster (pod_Name (vp_pod p))) <$> running in
          let connectionErrors := count (List.filter (fun v => negb (viewConnected v)) clusterViews) in
          let none := (0 <? count clusterViews) && (connectionErrors =? count clusterViews) in
          if none && allBeingDeleted serverPods clusterViews then
            Ok (noSplitBrain [] expectedServers zeroView RepairActionWaitForming
                  (strconv.Itoa (count clusterViews) +:+ " of " +:+ strconv.Itoa expectedServers
                   +:+ " server pods are being deleted"))
          else if none then
            Err ("failed to connect to any running Neo4j server pods (" +:+ strconv.Itoa connectionErrors +:+ "/"
                 +:+ strconv.Itoa (count clusterViews) +:+ " failed), cluster may not be ready for split-brain detection")
          else Ok (analyzeClusterViews clusterViews expectedServers)
    end.
End Detection.

(** * The repair *)

(** The outcome of one deletion and of the pause after it. *)
Inductive deleteOutcome :=
| PodDeleted
| PodDeletedCancelled (err : string)
| DeleteFails (err : string).

(** Deletes the pods in order, up to the first failure or the end of the
    context; the names of the pods deleted, and the error. *)
Fixpoint deletePods (podNames : list string) (outcomes : list deleteOutcome) : list string * option string :=
  match podNames with
  | [] => ([], None)
  | podName :: rest =>
      let '(outcome, outcomes) := match outcomes with [] => (PodDeleted, []) | o :: os => (o, os) end in
      match outcome with
      | DeleteFails e => ([], Some ("failed to delete pod " +:+ podName +:+ ": " +:+ e))
      | PodDeletedCancelled e => ([podName], Some e)
      | PodDeleted => let '(deleted, err) := deletePods rest outcomes in (podName :: deleted, err)
      end
  end.

Definition repairByRestartingPods (podNames : list string) (outcomes : list deleteOutcome) : list string * option string :=
  deletePods podNames outcomes.

Definition repairByRestartingAllPods (listed : result (list ServerPod)) (outcomes : list deleteOutcome) : list string * option string :=
  match listed with
  | Err e => ([], Some ("failed to get server pods: " +:+ e))
  | Ok serverPods => deletePods ((fun p => pod_Name (vp_pod p)) <$> serverPods) outcomes
  end.

Definition RepairSplitBrain (analysis : SplitBrainAnalysis) (listed : result (list ServerPod))
    (outcomes : list deleteOutcome) : list string * option string :=
  if negb (sb_IsSplitBrain analysis) then ([], None)
  else
    match sb_RepairAction analysis with
    | RepairActionRestartPods => repairByRestartingPods (sb_OrphanedPods analysis) outcomes
    | RepairActionRestartAll => repairByRestartingAllPods listed outcomes
    | RepairActionWaitForming => ([], None)
    | RepairActionInvestigate => ([], Some ("manual investigation required: " +:+ sb_ErrorMessage analysis))
    | RepairActionNone => ([], Some "unknown repair action: none")
    end.

(** * Lemmas on the groups *)

Lemma elem_groupAddresses group addr :
  addr ∈ groupAddresses group <-> exists view, view ∈ group /\ addr ∈ getVisibleServerAddresses (cv_Servers view).
Proof.
  unfold groupAddresses. rewrite elem_of_list_to_set, list_elem_of_bind. naive_solver.
Qed.

Lemma joinGroup_perm view groups : concat (joinGroup view groups) ≡ₚ view :: concat groups.
Proof.
  induction groups as [|[|first group] rest IH]; simpl; [done|exact IH|].
  destruct (haveSimilarClusterView view first); simpl.
  - rewrite <- app_assoc. simpl. rewrite <- (Permutation_middle group). apply perm_swap.
  - rewrite IH. rewrite <- Permutation_middle. apply perm_swap.
Qed.

Lemma groups_perm_aux views : forall groups,
  concat (fold_left (fun gs v => joinGroup v gs) views groups) ≡ₚ concat groups ++ views.
Proof.
  induction views as [|v views IH]; intros groups; simpl; [rewrite app_nil_r; reflexivity|].
  rewrite IH, joinGroup_perm. simpl. apply Permutation_middle.
Qed.

(** Grouping loses no view and makes none up. *)
Lemma groups_perm views : concat (groupPodsByClusterView views) ≡ₚ views.
Proof. unfold groupPodsByClusterView. by rewrite groups_perm_aux. Qed.

Lemma elem_groups views view :
  view ∈ views <-> exists group, group ∈ groupPodsByClusterView views /\ view ∈ group.
Proof.
  rewrite <- (groups_perm views) at 1. rewrite list_elem_of_In, in_concat.
  setoid_rewrite list_elem_of_In. naive_solver.
Qed.

(** What holds of every view similar to the first of its group. *)
Definition likeFirst (group : list ClusterView) : Prop :=
  match group with
  | [] => False
  | first :: _ => forall view, view ∈ group -> haveSimilarClusterView view first = true
  end.

Lemma countCommon_le l1 l2 : 0 <= countCommonAddresses l1 l2 <= count l1.
Proof. unfold countCommonAddresses, count. pose proof (List.filter_length_le (fun a => bool_decide (a ∈ l2)) l1). lia. Qed.

Lemma countCommon_incl l1 l2 : (forall a, a ∈ l1 -> a ∈ l2) -> countCommonAddresses l1 l2 = count l1.
Proof. intros H. unfold countCommonAddresses. rewrite filter_all; [done|]. apply Forall_forall. intros a Ha. by apply bool_decide_eq_true, H. Qed.

Lemma countCommon_disjoint l1 l2 : (forall a, a ∈ l1 -> a ∉ l2) -> countCommonAddresses l1 l2 = 0.
Proof. intros H. unfold countCommonAddresses. rewrite filter_none; [done|]. apply Forall_forall. intros a Ha. by apply bool_decide_eq_false, H. Qed.

Lemma similar_refl view : haveSimilarClusterView view view = true.
Proof.
  unfold haveSimilarClusterView. rewrite countCommon_incl by done.
  unfold count. case_match; [done|]. breflect. apply Z.leb_le. lia.
Qed.

Lemma joinGroup_like view groups :
  Forall likeFirst groups -> Forall likeFirst (joinGroup view groups).
Proof.
  induction 1 as [|[|first group] rest Hg Hrest IH]; simpl; [|done|].
  - constructor; [|constructor]. intros v ->%list_elem_of_singleton. apply similar_refl.
  - destruct (haveSimilarClusterView view first) eqn:E; constructor; auto.
    change (first :: group ++ [view]) with ((first :: group) ++ [view]).
    intros v [Hv| ->%list_elem_of_singleton]%elem_of_app; [by apply Hg|done].
Qed.

Lemma groups_like views : Forall likeFirst (groupPodsByClusterView views).
Proof.
  unfold groupPodsByClusterView. cut (forall groups, Forall likeFirst groups ->
    Forall likeFirst (fold_left (fun gs v => joinGroup v gs) views groups)); [intros H; apply H; constructor|].
  induction views as [|v views IH]; intros groups Hg; simpl; [done|]. apply IH. by apply joinGroup_like.
Qed.

(** ** The largest group *)

Lemma findLargest_spec groups :
  let '(m, g) := findLargest groups in
  (g ∈ groups /\ m = countUniqueServersInGroup g \/ m = 0 /\ g = []) /\
  (forall g', g' ∈ groups -> countUniqueServersInGroup g' <= m).
Proof.
  unfold findLargest. induction groups as [|g groups IH] using rev_ind; simpl.
  - split; [by right|]. intros g' []%not_elem_of_nil.
  - rewrite fold_left_app. simpl. destruct (fold_left _ groups _) as [m best].
    destruct IH as [Hb Hle]. unfold largerGroup. simpl.
    destruct (Z.ltb_spec m (countUniqueServersInGroup g)).
    + split; [left; split; [apply elem_of_app; right; by apply list_elem_of_singleton|done]|].
      intros g' [Hg'%Hle| ->%list_elem_of_singleton]%elem_of_app; lia.
    + split; [destruct Hb as [[Hb ->]|Hb]; [left|by right]; split; [apply elem_of_app; by left|done]|].
      intros g' [Hg'%Hle| ->%list_elem_of_singleton]%elem_of_app; lia.
Qed.

Lemma elem_unique group addr : addr ∈ groupAddresses group -> 1 <= countUniqueServersInGroup group.
Proof.
  intros H. unfold countUniqueServersInGroup.
  assert (size (groupAddresses group) <> 0%nat); [|lia]. apply size_non_empty_iff. set_solver.
Qed.

(** ** The orphaned pods *)

Lemma isSameGroup_names group1 group2 :
  isSameGroup group1 group2 = true -> cv_ServerPodName <$> group1 ≡ₚ cv_ServerPodName <$> group2.
Proof.
  unfold isSameGroup. destruct (negb _); [done|]. intros H%bool_decide_eq_true.
  rewrite <- (Strings_perm (cv_ServerPodName <$> group1)), H. apply Strings_perm.
Qed.

Lemma hasConflict_spec majority view :
  hasConflict majority view = true <-> exists addr, addr ∈ getVisibleServerAddresses (cv_Servers view) /\ addr ∉ majority.
Proof.
  unfold hasConflict. rewrite existsb_exists. setoid_rewrite <- list_elem_of_In.
  setoid_rewrite negb_true_iff. by setoid_rewrite bool_decide_eq_false.
Qed.

(** The views of distinct pods. *)
Definition distinctPods (views : list ClusterView) : Prop :=
  forall v w, v ∈ views -> w ∈ views -> cv_ServerPodName v = cv_ServerPodName w -> v = w.

(** A pod is an orphan of a group when it lists a server no view of the group
    lists. *)
Definition standsAgainst (majority : list ClusterView) (view : ClusterView) : Prop :=
  exists addr, addr ∈ getVisibleServerAddresses (cv_Servers view) /\ addr ∉ groupAddresses majority.

Lemma standsAgainst_outside majority view : standsAgainst majority view -> view ∉ majority.
Proof. intros (addr & Ha & Hn) Hv. apply Hn, elem_groupAddresses. eauto. Qed.

Lemma orphansOf_spec views majority name :
  distinctPods views -> (majority ∈ groupPodsByClusterView views) ->
  (name ∈ orphansOf (groupPodsByClusterView views) majority <->
   exists view, view ∈ views /\ cv_ServerPodName view = name /\ standsAgainst majority view).
Proof.
  intros Hd Hm. unfold orphansOf. rewrite list_elem_of_bind. split.
  - intros (group & Hin & Hg). case_match; [by apply not_elem_of_nil in Hin|].
    apply list_elem_of_fmap in Hin as (view & -> & Hv).
    apply list_elem_of_In, filter_In in Hv as [Hv Hc%hasConflict_spec].
    exists view. split; [apply elem_groups; exists group; split; [done|by apply list_elem_of_In]|done].
  - intros (view & Hv & <- & Hs). apply elem_groups in Hv as Hg. destruct Hg as (group & Hg & Hvg).
    exists group. split; [|done]. destruct (isSameGroup group majority) eqn:E.
    + apply isSameGroup_names in E.
      assert (cv_ServerPodName view ∈ cv_ServerPodName <$> majority) as (w & Hw & Hwm)%list_elem_of_fmap
        by (rewrite <- E; by apply list_elem_of_fmap_2).
      destruct (standsAgainst_outside majority view Hs). rewrite (Hd view w); [done|done| |done].
      apply elem_groups. eauto.
    + apply list_elem_of_fmap_2, list_elem_of_In, filter_In. split; [by apply list_elem_of_In|].
      by apply hasConflict_spec.
Qed.

(** ** What an analysis that finds a split-brain says *)

Definition failures (views : list ClusterView) : Z := count (List.filter (fun v => negb (viewConnected v)) views).
Definition working (views : list ClusterView) : list ClusterView := List.filter viewConnected views.

Lemma elem_working views view : view ∈ working views <-> view ∈ views /\ cv_ConnectionError view = None.
Proof.
  unfold working. rewrite !list_elem_of_In, filter_In. unfold viewConnected.
  split; intros [H1 H2]; (split; [done|]); by destruct (cv_ConnectionError view).
Qed.

Lemma distinct_working views : distinctPods views -> distinctPods (working views).
Proof. intros H v w [Hv _]%elem_working [Hw _]%elem_working. by apply H. Qed.

(** The pods restarted are exactly those that answered and list a server that no
    pod of the largest group lists; the group has a member and lists at least as
    many servers as any other. *)
Lemma split_brain_analysis views expected :
  distinctPods views -> sb_IsSplitBrain (analyzeClusterViews views expected) = true ->
  exists majority,
    (majority ∈ groupPodsByClusterView (working views)) /\ majority <> [] /\
    (forall group, group ∈ groupPodsByClusterView (working views) ->
       countUniqueServersInGroup group <= countUniqueServersInGroup majority) /\
    (forall name, name ∈ sb_OrphanedPods (analyzeClusterViews views expected) <->
       exists view, view ∈ working views /\ cv_ServerPodName view = name /\ standsAgainst majority view) /\
    sb_RepairAction (analyzeClusterViews views expected) = RepairActionRestartPods /\
    expected <> 1 /\ failures views <= Z.quot expected 2.
Proof.
  intros Hd%distinct_working. unfold analyzeClusterViews. fold (failures views) (working views).
  destruct (Z.eqb_spec expected 1); [done|]. destruct (_ =? 0)%nat; [done|].
  destruct (Z.ltb_spec (Z.quot expected 2) (failures views)); [done|].
  pose proof (findLargest_spec (groupPodsByClusterView (working views))) as HL.
  destruct (findLargest _) as [m majority]. destruct HL as [Hm Hle].
  destruct (1 <? _)%nat; [|by case_match]. destruct (length (orphansOf _ _) =? 0)%nat eqn:E; [done|]. intros _. simpl.
  assert (exists name, name ∈ orphansOf (groupPodsByClusterView (working views)) majority) as [name Hname].
  { destruct (orphansOf _ _) as [|o os]; [done|]. exists o. by constructor. }
  assert (majority ∈ groupPodsByClusterView (working views) /\ m = countUniqueServersInGroup majority) as [Hmaj ->].
  { destruct Hm as [Hm|[-> ->]]; [done|exfalso]. unfold orphansOf in Hname.
    apply list_elem_of_bind in Hname as (group & Hin & Hg%Hle). case_match; [by apply not_elem_of_nil in Hin|].
    apply list_elem_of_fmap in Hin as (view & -> & Hv%list_elem_of_In).
    apply filter_In in Hv as [Hv%list_elem_of_In (addr & Ha & _)%hasConflict_spec].
    assert (1 <= countUniqueServersInGroup group) by (eapply elem_unique, elem_groupAddresses; eauto). lia. }
  exists majority. split_and!; [done| |done| |done|done|done].
  - intros ->. pose proof (groups_like (working views)) as Hl. rewrite Forall_forall in Hl. by apply Hl in Hmaj.
  - intros o. by apply orphansOf_spec.
Qed.
