(* ===== verification/Partition.v ===== *)
(** What the split-brain detector finds when every server sees exactly its own
    part of the cluster, and from which share of common servers on it takes two
    views for the same (splitbrain_detector.go). *)
From S2P Require Import Prelude GoStrings ClusterTypes ServerIdentity Availability SplitBrain.

Open Scope Z_scope.

(** ** A partitioned cluster *)

Definition sees (view : ClusterView) : list string := getVisibleServerAddresses (cv_Servers view).

(** Two views of disjoint sets of servers. *)
Definition apart (v w : ClusterView) : Prop := forall addr, addr ∈ sees v -> addr ∉ sees w.

(** Each server sees exactly the servers of its part: no address twice, and any
    two see the same servers or none in common. *)
Definition partitioned (views : list ClusterView) : Prop :=
  (forall v, v ∈ views -> NoDup (sees v)) /\
  (forall v w, v ∈ views -> w ∈ views -> (forall addr, addr ∈ sees v <-> addr ∈ sees w) \/ apart v w).

Section Partition.
Variable views : list ClusterView.
Hypothesis Hpart : partitioned views.

Abbreviation groups := (groupPodsByClusterView views).

Lemma same_count v w : v ∈ views -> w ∈ views -> (forall addr, addr ∈ sees v <-> addr ∈ sees w) ->
  count (sees v) = count (sees w).
Proof.
  intros Hv Hw H. unfold count. f_equal. apply Permutation_length, NoDup_Permutation; [apply Hpart, Hv|apply Hpart, Hw|done].
Qed.

Lemma similar_iff v w : v ∈ views -> w ∈ views ->
  haveSimilarClusterView v w = true <-> forall addr, addr ∈ sees v <-> addr ∈ sees w.
Proof.
  intros Hv Hw. unfold haveSimilarClusterView. fold (sees v) (sees w).
  destruct (proj2 Hpart v w Hv Hw) as [H|H].
  - rewrite countCommon_incl by naive_solver. rewrite <- (same_count v w Hv Hw H). split; [done|intros _].
    unfold count. case_match; [done|]. breflect. apply Z.leb_le. lia.
  - rewrite countCommon_disjoint by done. unfold count.
    destruct (Z.eqb_spec (Z.of_nat (length (sees v)) + Z.of_nat (length (sees w)) - 0) 0) as [E|E].
    + split; [intros _|done]. assert (sees v = []) as -> by (apply length_zero_iff_nil; lia).
      by assert (sees w = []) as -> by (apply length_zero_iff_nil; lia).
    + split; [intros Hle; breflect; lia|]. intros Hs. exfalso. apply E.
      destruct (sees v) as [|a l] eqn:Ev.
      * destruct (sees w) as [|b l]; [done|]. destruct (not_elem_of_nil b). apply Hs. constructor.
      * destruct (H a); [rewrite Ev; constructor|]. apply Hs. constructor.
Qed.

(** In a group everyone sees the same. *)
Lemma group_same group v w : group ∈ groups -> v ∈ group -> w ∈ group ->
  forall addr, addr ∈ sees v <-> addr ∈ sees w.
Proof.
  intros Hg Hv Hw. pose proof (groups_like views) as Hl. rewrite Forall_forall in Hl. specialize (Hl group Hg).
  assert (forall u, u ∈ group -> u ∈ views) as Hin by (intros u Hu; apply elem_groups; eauto).
  destruct group as [|first group]; [done|]. assert (first ∈ first :: group) as Hf by constructor.
  intros addr. transitivity (addr ∈ sees first); [|symmetry]; apply similar_iff; auto.
Qed.

Lemma group_sees group v addr : group ∈ groups -> v ∈ group -> addr ∈ groupAddresses group <-> addr ∈ sees v.
Proof.
  intros Hg Hv. rewrite elem_groupAddresses. split; [|by exists v].
  intros (w & Hw & Ha). by apply (group_same group v w).
Qed.

Lemma group_count group v : group ∈ groups -> v ∈ group -> countUniqueServersInGroup group = count (sees v).
Proof.
  intros Hg Hv. unfold countUniqueServersInGroup, count. f_equal.
  assert (groupAddresses group = list_to_set (sees v)) as ->.
  { apply set_eq. intros addr. rewrite elem_of_list_to_set. by apply group_sees. }
  apply size_list_to_set, Hpart, elem_groups. eauto.
Qed.

(** What the loop over the groups finds: the view shown as the largest cluster. *)
Abbreviation largestGroup := ((findLargest groups).2).
Abbreviation L := (default zeroView (head largestGroup)).

Lemma largest_in : sees L <> [] -> largestGroup ∈ groups /\ L ∈ largestGroup /\ L ∈ views.
Proof.
  pose proof (findLargest_spec groups) as HL. destruct (findLargest groups) as [m g]. simpl.
  destruct HL as [[[Hg _]|[_ ->]] _]; [|done]. destruct g as [|v g]; [done|]. intros _.
  split_and!; [done|constructor|]. apply elem_groups. exists (v :: g). split; [done|constructor].
Qed.

Lemma largest_most v : v ∈ views -> count (sees v) <= count (sees L).
Proof.
  intros Hv. apply elem_groups in Hv as (group & Hg & Hv). rewrite <- (group_count group v Hg Hv).
  pose proof (findLargest_spec groups) as HL. pose proof (groups_like views) as Hl. rewrite Forall_forall in Hl.
  destruct (findLargest groups) as [m g] eqn:E. simpl. destruct HL as [Hm Hle]. specialize (Hle group Hg).
  destruct Hm as [[Hg' ->]|[-> ->]]; [|exact Hle]. specialize (Hl g Hg'). destruct g as [|w g]; [done|].
  rewrite (group_count (w :: g) w Hg') in Hle by constructor. exact Hle.
Qed.

Lemma most_nonempty v : v ∈ views -> sees v <> [] -> sees L <> [].
Proof.
  intros Hv Hne E. pose proof (largest_most v Hv) as H. rewrite E in H. unfold count in H.
  destruct (sees v); simpl in H; [done|lia].
Qed.

Lemma partition_orphans name : distinctPods views ->
  name ∈ orphansOf groups largestGroup <->
  exists v, v ∈ views /\ cv_ServerPodName v = name /\ sees v <> [] /\ apart v L.
Proof.
  intros Hd. destruct (sees L) as [|a l] eqn:EL.
  - split.
    + unfold orphansOf. intros (group & Hin & Hg)%list_elem_of_bind. case_match; [by apply not_elem_of_nil in Hin|].
      apply list_elem_of_fmap in Hin as (v & _ & Hv%list_elem_of_In).
      apply filter_In in Hv as [Hv%list_elem_of_In (addr & Ha & _)%hasConflict_spec].
      destruct (most_nonempty v); [apply elem_groups; eauto| |done]. intros E. unfold sees in E. rewrite E in Ha.
      by apply not_elem_of_nil in Ha.
    + intros (v & Hv & _ & Hne & _). by destruct (most_nonempty v Hv Hne).
  - destruct largest_in as (Hg & HL & HLv); [by rewrite EL|].
    rewrite orphansOf_spec by done. f_equiv. intros v. split.
    + intros (Hv & Hn & addr & Ha & Hna). split_and!; [done|done|by intros E; unfold sees in E; rewrite E in Ha; apply not_elem_of_nil in Ha|].
      destruct (proj2 Hpart v L Hv HLv) as [H|H]; [|done]. destruct Hna. apply (group_sees _ L); [done|done|]. by apply H.
    + intros (Hv & Hn & Hne & Hap). split_and!; [done|done|]. destruct (sees v) as [|b l'] eqn:Ev; [done|].
      assert (b ∈ sees v) as Hb by (rewrite Ev; constructor). exists b. split; [exact Hb|].
      rewrite (group_sees _ L) by done. by apply Hap.
Qed.

Lemma one_group_same v w : (length groups <= 1)%nat -> v ∈ views -> w ∈ views -> forall addr, addr ∈ sees v <-> addr ∈ sees w.
Proof.
  intros Hlen Hv Hw. apply elem_groups in Hv as (g & Hg & Hv). apply elem_groups in Hw as (g' & Hg' & Hw).
  assert (g = g') as <-.
  { destruct groups as [|g1 [|]]; simpl in *; [by apply not_elem_of_nil in Hg| |lia].
    apply list_elem_of_singleton in Hg, Hg'. congruence. }
  by apply (group_same g).
Qed.

Lemma apart_not_same v w : sees v <> [] -> apart v w -> ~ (forall addr, addr ∈ sees v <-> addr ∈ sees w).
Proof.
  intros Hne Hap H. destruct (sees v) as [|a l] eqn:Ev; [done|].
  assert (a ∈ sees v) as Ha by (rewrite Ev; constructor). apply (Hap a Ha), H. rewrite <- Ev. exact Ha.
Qed.
End Partition.

Lemma partition_analysis views expected :
  expected <> 1 -> working views <> [] -> failures views <= Z.quot expected 2 ->
  distinctPods views -> partitioned (working views) ->
  let a := analyzeClusterViews views expected in
  (sb_IsSplitBrain a = true <->
   exists v w, v ∈ working views /\ w ∈ working views /\ sees v <> [] /\ sees w <> [] /\ apart v w) /\
  (forall v, v ∈ working views -> count (sees v) <= count (sees (sb_LargestCluster a))) /\
  (forall name, name ∈ sb_OrphanedPods a <->
   exists v, v ∈ working views /\ cv_ServerPodName v = name /\ sees v <> [] /\ apart v (sb_LargestCluster a)).
Proof.
  intros H1 Hw Hf Hd%distinct_working Hp. unfold analyzeClusterViews. fold (failures views) (working views).
  rewrite (proj2 (Z.eqb_neq expected 1) H1), (proj2 (Z.ltb_ge _ _) Hf).
  assert ((length (working views) =? 0)%nat = false) as -> by (by destruct (working views)).
  pose proof (partition_orphans (working views) Hp) as HO. pose proof (largest_most (working views) Hp) as HM.
  pose proof (most_nonempty (working views) Hp) as HN. pose proof (largest_in (working views)) as HL.
  pose proof (one_group_same (working views) Hp) as H1g.
  destruct (findLargest _) as [m g]. cbn [snd] in HO, HM, HN, HL.
  destruct (Nat.ltb_spec 1 (length (groupPodsByClusterView (working views)))) as [Hlen|Hlen].
  - destruct (length (orphansOf _ g) =? 0)%nat eqn:E; simpl.
    + apply Nat.eqb_eq, length_zero_iff_nil in E. split_and!; [|exact HM|intros name; by rewrite <- HO, E].
      split; [done|]. intros (v & w & Hv & Hw' & Hvn & Hwn & Hap). exfalso.
      assert (forall u, u ∈ working views -> sees u <> [] -> ~ apart u (default zeroView (head g))) as Hno.
      { intros u Hu Hun Hua. apply (not_elem_of_nil (cv_ServerPodName u)). rewrite <- E. apply HO; [done|]. eauto. }
      destruct HL as (_ & _ & HLv); [by apply (HN v)|].
      destruct (proj2 Hp v _ Hv HLv) as [Hs|Hs]; [|by apply (Hno v)].
      destruct (proj2 Hp w _ Hw' HLv) as [Hs'|Hs']; [|by apply (Hno w)].
      apply (apart_not_same v w Hvn Hap). intros addr. by rewrite Hs, Hs'.
    + split_and!; [|done|intros name; by apply HO]. split; [intros _|done].
      destruct (orphansOf _ g) as [|o os]; [done|].
      destruct (proj1 (HO o Hd)) as (v & Hv & _ & Hvn & Hap); [constructor|].
      exists v, (default zeroView (head g)). pose proof (HN v Hv Hvn). split_and!; try done. by apply HL.
  - assert (forall v w, v ∈ working views -> w ∈ working views -> sees v <> [] -> ~ apart v w) as Hno.
    { intros v w Hv Hw' Hvn Hap. apply (apart_not_same v w Hvn Hap). by apply H1g. }
    assert (forall action msg, let a := noSplitBrain views expected (default zeroView (head g)) action msg in
      (sb_IsSplitBrain a = true <->
       exists v w, v ∈ working views /\ w ∈ working views /\ sees v <> [] /\ sees w <> [] /\ apart v w) /\
      (forall v, v ∈ working views -> count (sees v) <= count (sees (sb_LargestCluster a))) /\
      (forall name, name ∈ sb_OrphanedPods a <->
       exists v, v ∈ working views /\ cv_ServerPodName v = name /\ sees v <> [] /\ apart v (sb_LargestCluster a))) as Hsingle.
    { intros action msg. simpl. split_and!; [|done|].
      - split; [done|]. intros (v & w & Hv & Hw' & Hvn & _ & Hap). by destruct (Hno v w).
      - intros name. split; [by intros ?%not_elem_of_nil|]. intros (v & Hv & _ & Hvn & Hap).
        destruct HL as (_ & _ & HLv); [by apply (HN v)|]. by destruct (Hno v _ Hv HLv). }
    case_match; apply Hsingle.
Qed.

Section Detected.
Variable certManager : bool.
Variable ask : string -> podAnswer.
Variable cluster : Cluster.
Variable pods : list ServerPod.

(** The views of the running pods. *)
Definition podViews : list ClusterView :=
  (fun p => getClusterViewFromPod certManager ask cluster (pod_Name (vp_pod p))) <$> List.filter podRunning pods.

Lemma view_name name : cv_ServerPodName (getClusterViewFromPod certManager ask cluster name) = name.
Proof. unfold getClusterViewFromPod. by destruct (ask _). Qed.

(** The view of a pod is what the server at its address answers. *)
Lemma podViews_distinct : distinctPods podViews.
Proof.
  assert (forall v, v ∈ podViews -> v = getClusterViewFromPod certManager ask cluster (cv_ServerPodName v)) as H.
  { intros v (p & -> & _)%list_elem_of_fmap. by rewrite view_name. }
  intros v w Hv Hw E. by rewrite (H v Hv), (H w Hw), E.
Qed.

Lemma working_failures views : count views = count (working views) + failures views.
Proof.
  unfold count, working, failures, count. induction views as [|v views IH]; simpl; [done|].
  destruct (viewConnected v); simpl; lia.
Qed.

Lemma DetectSplitBrain_analyzes :
  2 <= sp_Servers (cl_Spec cluster) ->
  cs_Phase (cl_Status cluster) = PhaseReady \/ cs_Phase (cl_Status cluster) = PhaseDegraded ->
  sp_Servers (cl_Spec cluster) <= count podViews ->
  failures podViews <= Z.quot (sp_Servers (cl_Spec cluster)) 2 ->
  DetectSplitBrain certManager ask cluster (Ok pods) = Ok (analyzeClusterViews podViews (sp_Servers (cl_Spec cluster))).
Proof.
  intros Hn Hph Hrun Hf. unfold DetectSplitBrain. fold podViews. fold (failures podViews).
  assert (count (List.filter podRunning pods) = count podViews) as -> by (unfold podViews, count; rewrite length_fmap; reflexivity).
  rewrite (proj2 (Z.eqb_neq _ 1)) by lia. rewrite (proj2 (Z.ltb_ge (count podViews) _)) by lia.
  rewrite (proj2 (Z.eqb_neq (failures podViews) (count podViews))) by dlia.
  rewrite andb_false_r. by destruct Hph as [-> | ->].
Qed.
End Detected.

(** C12: split-brain detection on a partitioned cluster. The cluster is in phase
    Ready or Degraded (in any other phase the detector reports none), its spec has
    at least two servers, at least that many server pods run, at most half of the
    expected number do not answer, and the views of those that answer are
    partitioned: each shows no server twice, and any two show the same servers or
    none in common. Then the detector finds a split-brain exactly when two views
    that show servers have none in common, the largest cluster it shows has the most
    servers, and the pods it gives up are exactly those whose view shows servers and
    none of the largest cluster. *)
Theorem partition_exact (certManager : bool) (ask : string -> podAnswer) (cluster : Cluster) (pods : list ServerPod) :
  let views := podViews certManager ask cluster pods in
  let expected := sp_Servers (cl_Spec cluster) in
  2 <= expected ->
  cs_Phase (cl_Status cluster) = PhaseReady \/ cs_Phase (cl_Status cluster) = PhaseDegraded ->
  expected <= count views -> failures views <= Z.quot expected 2 -> partitioned (working views) ->
  exists a, DetectSplitBrain certManager ask cluster (Ok pods) = Ok a /\
    (sb_IsSplitBrain a = true <->
     exists v w, v ∈ working views /\ w ∈ working views /\ sees v <> [] /\ sees w <> [] /\ apart v w) /\
    (forall v, v ∈ working views -> count (sees v) <= count (sees (sb_LargestCluster a))) /\
    (forall name, name ∈ sb_OrphanedPods a <->
     exists v, v ∈ working views /\ cv_ServerPodName v = name /\ sees v <> [] /\ apart v (sb_LargestCluster a)).
Proof.
  cbv zeta. intros Hn Hph Hrun Hf Hp. eexists. split; [by apply DetectSplitBrain_analyzes|].
  apply partition_analysis; [lia| |done|apply podViews_distinct|done].
  intros E. pose proof (working_failures (podViews certManager ask cluster pods)) as Hc.
  rewrite E in Hc. unfold count at 2 in Hc. simpl in Hc. dlia.
Qed.

Lemma size_cup_cap (A B : gset string) : (size (A ∪ B) + size (A ∩ B) = size A + size B)%nat.
Proof.
  assert (A ∪ B = A ∪ (B ∖ (A ∩ B))) as -> by (apply set_eq; intros a; destruct (decide (a ∈ A)); set_solver).
  rewrite size_union by set_solver. rewrite size_difference by set_solver.
  pose proof (subseteq_size (A ∩ B) B ltac:(set_solver)). lia.
Qed.

(** * Threshold

    The views of two servers are taken for the same when twice their common
    servers are at least 80% of all the servers either lists, that is from two
    common servers in five on. *)
Theorem similar_from_two_fifths v w :
  NoDup (sees v) -> NoDup (sees w) ->
  haveSimilarClusterView v w = true <->
  2 * Z.of_nat (size (list_to_set (sees v) ∪ list_to_set (sees w) : gset string)) <=
  5 * Z.of_nat (size (list_to_set (sees v) ∩ list_to_set (sees w) : gset string)).
Proof.
  intros Hv Hw. unfold haveSimilarClusterView. fold (sees v) (sees w).
  assert (countCommonAddresses (sees v) (sees w) =
          Z.of_nat (size (list_to_set (sees v) ∩ list_to_set (sees w) : gset string))) as ->.
  { unfold countCommonAddresses, count. f_equal.
    rewrite <- (size_list_to_set (C := gset string)) by (apply NoDup_ListNoDup, List.NoDup_filter, NoDup_ListNoDup, Hv).
    f_equal. apply set_eq. intros a. rewrite elem_of_list_to_set, list_elem_of_In, filter_In, bool_decide_eq_true.
    rewrite <- list_elem_of_In. set_solver. }
  pose proof (size_cup_cap (list_to_set (sees v)) (list_to_set (sees w))) as HU.
  rewrite !(size_list_to_set (C := gset string)) in HU by done.
  unfold count. zcases; (split; [intros ?; try discriminate; lia|intros ?; try reflexivity; lia]).
Qed.

(** * A cluster of five in two parts *)
Module PartitionSample.

Definition five : Cluster :=
  mkCluster "c" "ns" 1 ∅ (mkClusterSpec "neo4j" "2026.08.1" 5 None)
    (mkClusterStatus PhaseReady EmptyString "2026.08.1" EmptyString None None [] None true 1 None).

Definition podNamed (name : string) : ServerPod :=
  mkServerPod (mkPod name "rev" false [] PodRunning [] [] []) (name +:+ "-uid").

Definition fivePods : list ServerPod :=
  podNamed <$> ["c-server-0"; "c-server-1"; "c-server-2"; "c-server-3"; "c-server-4"].

Definition rows (names : list string) : list ServerInfo := (fun n => exampleShort n "Available") <$> names.

(** Servers 0, 1 and 2 in one part, 3 and 4 in the other. *)
Definition twoParts (url : string) : podAnswer :=
  if strings.Contains url "c-server-3" || strings.Contains url "c-server-4"
  then Lists (rows ["c-server-3"; "c-server-4"])
  else Lists (rows ["c-server-0"; "c-server-1"; "c-server-2"]).

Definition part1 : list string := ["c-server-0:7687"; "c-server-1:7687"; "c-server-2:7687"].
Definition part2 : list string := ["c-server-3:7687"; "c-server-4:7687"].

Lemma two_parts views : Forall (fun v => sees v = part1 \/ sees v = part2) views -> partitioned views.
Proof.
  assert (NoDup part1 /\ NoDup part2) as [H1 H2] by (split; apply (bool_decide_eq_true_1 _); vm_compute; reflexivity).
  assert (forall a, a ∈ part1 -> a ∉ part2) as H12.
  { apply Forall_forall. apply (bool_decide_eq_true_1 _). vm_compute. reflexivity. }
  intros H. rewrite Forall_forall in H. split.
  - intros v [-> | ->]%H; done.
  - unfold apart. intros v w [-> | ->]%H [-> | ->]%H; [by left|by right| |by left].
    right. intros a Ha Hb. by apply (H12 a).
Qed.

Lemma sample_parts : partitioned (working (podViews false twoParts five fivePods)).
Proof. apply two_parts, (bool_decide_eq_true_1 _). vm_compute. reflexivity. Qed.

Lemma partition_exact_witness : exists a,
  DetectSplitBrain false twoParts five (Ok fivePods) = Ok a /\
  sb_IsSplitBrain a = true /\ "c-server-4" ∈ sb_OrphanedPods a.
Proof.
  destruct (partition_exact false twoParts five fivePods) as (a & Ha & _ & _ & Ho).
  - vm_compute. discriminate.
  - by left.
  - vm_compute. discriminate.
  - vm_compute. discriminate.
  - exact sample_parts.
  - exists a. split; [exact Ha|]. vm_compute in Ha. injection Ha as <-. split; [reflexivity|]. simpl. by right; left.
Defined.

(** Servers 0 and 1 see 0 to 2, servers 2 and 3 see 1 to 3: with two servers of
    four in common the views count as one, and nothing is found. *)
Definition overlapping (url : string) : podAnswer :=
  if strings.Contains url "c-server-2" || strings.Contains url "c-server-3"
  then Lists (rows ["c-server-1"; "c-server-2"; "c-server-3"])
  else Lists (rows ["c-server-0"; "c-server-1"; "c-server-2"]).

Definition four : Cluster := set_cl_Spec (set_sp_Servers 4 (cl_Spec five)) five.

Theorem overlap_missed :
  match DetectSplitBrain false overlapping four (Ok (take 4 fivePods)) with
  | Ok a => sb_IsSplitBrain a = false /\ sb_RepairAction a = RepairActionNone
  | Err _ => False
  end.
Proof. vm_compute. split; reflexivity. Qed.
End PartitionSample.
