(* ===== verification/Formation.v ===== *)
(** Whether a cluster has formed: verifyNeo4jClusterFormation and
    legacyClusterFormationCheck of neo4jenterprisecluster_controller.go, its
    memory of failed connections, and reconcile_cadence.go, which spares a Ready
    cluster a full split-brain check. What Neo4j and Kubernetes answer during a
    pass is its input; the reconciler's memory, the events and the deleted pods
    are its state. *)
From S2P Require Import Prelude GoStrings GoTime GoRFC3339 ClusterTypes ServerIdentity Availability SplitBrain Partition.

Open Scope Z_scope.

(** * Cadence *)

Record splitBrainCheck := mkSplitBrainCheck { ck_at : Z; ck_pods : string }.

Definition showBool (b : bool) : string := if b then "true" else "false".

(** The last condition of type Ready decides. *)
Definition podReadyNow (p : Pod) : bool :=
  fold_left (fun ready c => if String.eqb c.1 "Ready" then String.eqb c.2 "True" else ready) (pod_Conditions p) false.

Definition podRestarts (p : Pod) : Z :=
  fold_left (fun n cs => n + ct_RestartCount cs) (pod_ContainerStatuses p) 0.

Definition fingerprintPart (p : ServerPod) : string :=
  strings.Join [pod_Name (vp_pod p); vp_UID p; pod_Phase (vp_pod p); showBool (podReadyNow (vp_pod p));
                strconv.Itoa (podRestarts (vp_pod p)); showBool (pod_Deleting (vp_pod p))] "/".

Definition serverPodsFingerprint (pods : list ServerPod) : string :=
  strings.Join (sort.Strings (fingerprintPart <$> pods)) ",".

Definition countAvailableServers (servers : list ServerInfo) : Z := count (List.filter serverServes servers).

Definition splitBrainCheckSkippable (cluster : Cluster) (servers : list ServerInfo) (last : option splitBrainCheck)
    (pods : string) (interval now : Z) : bool :=
  match last with
  | None => false
  | Some last =>
      if (interval <=? 0) || String.eqb pods EmptyString then false
      else if negb (String.eqb (cs_Phase (cl_Status cluster)) PhaseReady) then false
      else if countAvailableServers servers <? sp_Servers (cl_Spec cluster) then false
      else String.eqb (ck_pods last) pods && (now - ck_at last <? interval)
  end.

Definition readyPollInterval (configured requeueAfter : Z) : Z :=
  if 0 <? configured then configured else requeueAfter.

(** * Failed connections *)

Record connectivityFailureStreak := mkStreak { cf_since : Z; cf_count : Z; cf_announced : bool }.

Definition connectivityFailureEventThreshold : Z := 10.
Definition connectivityFailureEventMinDuration : Z := 5 * minute.

(** Whether the event is due, and the streak after the question. *)
Definition dueForEvent (s : connectivityFailureStreak) (now : Z) : bool * connectivityFailureStreak :=
  if cf_announced s || (cf_count s <? connectivityFailureEventThreshold)
     || (now - cf_since s <? connectivityFailureEventMinDuration)
  then (false, s)
  else (true, mkStreak (cf_since s) (cf_count s) true).

(** * A pass *)

(** What a pass reads: the cluster, the clock, the configured interval, the
    error of the client through the Service or what SHOW SERVERS answers there,
    the pods as listed for the fingerprint and for the detector (two reads), what
    each server answers, the outcomes of deletions, what diagnoseUnhealthyMembers
    makes of the pods, the Service's URI, and what the legacy check meets: its
    client, the answer to each attempt, and whether the context ends in the wait
    after it. *)
Record formationInput := mkFormationInput {
  fi_cluster : Cluster;
  fi_now : Z;
  fi_interval : Z;
  fi_client : option string;
  fi_servers : result (list ServerInfo);
  fi_podsCadence : result (list ServerPod);
  fi_podsDetect : result (list ServerPod);
  fi_certManager : bool;
  fi_ask : string -> podAnswer;
  fi_deletes : list deleteOutcome;
  fi_podIssues : string;
  fi_uri : string;
  fi_legacyClient : option string;
  fi_legacyServers : Z -> result (list ServerInfo);
  fi_cancelled : Z -> bool
}.

(** [fs_checks] is splitBrainChecks, [fs_streaks] connectivityFailures (both by
    cluster), [fs_events] the events, last first, [fs_detected] the detections
    counted, and [fs_deleted] the pods deleted, in order. *)
Record FormationState := mkFormationState {
  fs_checks : gmap string splitBrainCheck;
  fs_streaks : gmap string connectivityFailureStreak;
  fs_events : list (string * string);
  fs_detected : Z;
  fs_deleted : list string
}.

Definition formationStart : FormationState := mkFormationState ∅ ∅ [] 0 [].

Definition F (A : Type) : Type := FormationState -> A * FormationState.
#[global] Instance F_ret : MRet F := fun A a s => (a, s).
#[global] Instance F_bind : MBind F := fun A B f m s => let '(a, s') := m s in f a s'.

Definition setChecks (f : gmap string splitBrainCheck -> gmap string splitBrainCheck) : F unit := fun s =>
  (tt, mkFormationState (f (fs_checks s)) (fs_streaks s) (fs_events s) (fs_detected s) (fs_deleted s)).
Definition setStreaks (f : gmap string connectivityFailureStreak -> gmap string connectivityFailureStreak) : F unit := fun s =>
  (tt, mkFormationState (fs_checks s) (f (fs_streaks s)) (fs_events s) (fs_detected s) (fs_deleted s)).
Definition emit (reason message : string) : F unit := fun s =>
  (tt, mkFormationState (fs_checks s) (fs_streaks s) ((reason, message) :: fs_events s) (fs_detected s) (fs_deleted s)).
Definition RecordSplitBrainDetected : F unit := fun s =>
  (tt, mkFormationState (fs_checks s) (fs_streaks s) (fs_events s) (fs_detected s + 1) (fs_deleted s)).
Definition noteDeleted (pods : list string) : F unit := fun s =>
  (tt, mkFormationState (fs_checks s) (fs_streaks s) (fs_events s) (fs_detected s) (fs_deleted s ++ pods)).
Definition lookCheck (key : string) : F (option splitBrainCheck) := fun s => (fs_checks s !! key, s).
Definition lookStreak (key : string) : F (option connectivityFailureStreak) := fun s => (fs_streaks s !! key, s).

Definition EventReasonConnectivityDegraded : string := "ConnectivityDegraded".
Definition EventReasonSplitBrainDetected : string := "SplitBrainDetected".
Definition EventReasonSplitBrainRepaired : string := "SplitBrainRepaired".
Definition EventReasonSplitBrainRepairFailed : string := "SplitBrainRepairFailed".

Section Pass.
Variable i : formationInput.

Abbreviation cluster := (fi_cluster i).
Abbreviation key := (clusterKey (fi_cluster i)).
Abbreviation expectedServers := (sp_Servers (cl_Spec (fi_cluster i))).

Definition recordConnectivityFailure : F connectivityFailureStreak :=
  v ← lookStreak key;
  let streak := default (mkStreak (fi_now i) 0 false) v in
  let streak := mkStreak (cf_since streak) (cf_count streak + 1) (cf_announced streak) in
  setStreaks (insert key streak) ;; mret streak.

Definition clearConnectivityFailures : F unit := setStreaks (delete key).

(** Neo4j does not answer through the Service. *)
Definition notConnected (err : string) : F formationCheck :=
  streak ← recordConnectivityFailure;
  let '(due, announced) := dueForEvent streak (fi_now i) in
  setStreaks (insert key announced) ;;
  (if due then
     emit EventReasonConnectivityDegraded
       ("Operator has failed to reach Neo4j at " +:+ fi_uri i +:+ " for " +:+ strconv.Itoa (cf_count streak)
        +:+ " consecutive reconciles (since " +:+ gotime.FormatRFC3339 (cf_since streak) +:+ "); last error: " +:+ err
        +:+ (if String.eqb (fi_podIssues i) EmptyString then EmptyString else "; " +:+ fi_podIssues i))
   else mret tt) ;;
  mret (mkFormationCheck false
          (if String.eqb (fi_podIssues i) EmptyString then "Waiting for Neo4j to accept connections"
           else "Waiting for Neo4j to accept connections; " +:+ fi_podIssues i) None false).

Definition skipSplitBrainCheck (servers : list ServerInfo) : F (bool * string) :=
  if fi_interval i <=? 0 then mret (false, EmptyString)
  else
    match fi_podsCadence i with
    | Err _ => mret (false, EmptyString)
    | Ok pods =>
        let fingerprint := serverPodsFingerprint pods in
        last ← lookCheck key;
        mret (splitBrainCheckSkippable cluster servers last fingerprint (fi_interval i) (fi_now i), fingerprint)
    end.

Definition recordCleanSplitBrainCheck (pods : string) : F unit :=
  if String.eqb pods EmptyString || negb (String.eqb (cs_Phase (cl_Status cluster)) PhaseReady) then mret tt
  else setChecks (insert key (mkSplitBrainCheck (fi_now i) pods)).

Definition reportSplitBrainDetected (analysis : SplitBrainAnalysis) : F string :=
  let msg := splitBrainMessage analysis in
  emit EventReasonSplitBrainDetected msg ;; RecordSplitBrainDetected ;; mret msg.

(** The attempts still to make, of three. *)
Fixpoint legacyAttempts (attempts : list Z) : bool * string :=
  match attempts with
  | [] => (false, "Cluster formation verification incomplete")
  | attempt :: rest =>
      match fi_legacyServers i attempt with
      | Err e =>
          if attempt =? 3 then (false, "Cannot query server list after 3 attempts: " +:+ e)
          else if fi_cancelled i attempt then (false, "Context cancelled during cluster formation check")
          else legacyAttempts rest
      | Ok servers =>
          let availableServers := countAvailableServers servers in
          if expectedServers <=? availableServers then
            if attempt =? 1 then
              if fi_cancelled i attempt then (false, "Context cancelled during stability check")
              else legacyAttempts rest
            else (true, "Cluster formation complete and stable: " +:+ strconv.Itoa availableServers +:+ "/"
                        +:+ strconv.Itoa expectedServers +:+ " servers available")
          else if attempt <? 3 then
            if fi_cancelled i attempt then (false, "Context cancelled during cluster formation wait")
            else legacyAttempts rest
          else legacyAttempts rest
      end
  end.

Definition legacyClusterFormationCheck : bool * string :=
  match fi_legacyClient i with
  | Some _ => (false, "Waiting for Neo4j to accept connections")
  | None => legacyAttempts [1; 2; 3]
  end.

Definition legacyOutcome (servers : list ServerInfo) : F formationCheck :=
  let '(isFormed, message) := legacyClusterFormationCheck in
  mret (mkFormationCheck isFormed message (Some servers) false).

Definition splitBrainFound (analysis : SplitBrainAnalysis) (servers : list ServerInfo) : F formationCheck :=
  splitBrainMsg ← reportSplitBrainDetected analysis;
  if bool_decide (sb_RepairAction analysis = RepairActionRestartPods) then
    let '(deleted, repairErr) := RepairSplitBrain analysis (fi_podsDetect i) (fi_deletes i) in
    noteDeleted deleted ;;
    match repairErr with
    | Some e =>
        emit EventReasonSplitBrainRepairFailed ("Automatic split-brain repair failed: " +:+ e) ;;
        mret (mkFormationCheck false ("Split-brain repair failed: " +:+ e) (Some servers) true)
    | None =>
        emit EventReasonSplitBrainRepaired "Split-brain automatically repaired by restarting orphaned pods" ;;
        mret (mkFormationCheck false "Split-brain repaired, waiting for cluster reformation" (Some servers) true)
    end
  else mret (mkFormationCheck false splitBrainMsg (Some servers) true).

Definition availableMessage (lead : string) (available : Z) : string :=
  lead +:+ ": " +:+ strconv.Itoa available +:+ "/" +:+ strconv.Itoa expectedServers +:+ " servers available".

(** The full check. *)
Definition fullSplitBrainCheck (servers : list ServerInfo) (podsFingerprint : string) : F formationCheck :=
  setChecks (delete key) ;;
  match DetectSplitBrain (fi_certManager i) (fi_ask i) cluster (fi_podsDetect i) with
  | Err _ => legacyOutcome servers
  | Ok analysis =>
      if sb_IsSplitBrain analysis then splitBrainFound analysis servers
      else if bool_decide (sb_RepairAction analysis = RepairActionWaitForming) then
        mret (mkFormationCheck false (sb_ErrorMessage analysis) (Some servers) false)
      else if (0 <? count (sb_ClusterViews analysis)) && viewConnected (sb_LargestCluster analysis) then
        let availableServers := countAvailableServers (cv_Servers (sb_LargestCluster analysis)) in
        if expectedServers <=? availableServers then
          recordCleanSplitBrainCheck podsFingerprint ;;
          mret (mkFormationCheck true (availableMessage "Cluster formation complete" availableServers) (Some servers) false)
        else mret (mkFormationCheck false (availableMessage "Cluster forming" availableServers) (Some servers) false)
      else legacyOutcome servers
  end.

Definition verifyNeo4jClusterFormation : F formationCheck :=
  if expectedServers =? 1 then
    mret (mkFormationCheck true "Single server cluster - formation complete" None false)
  else
    match match fi_client i with Some e => Err e | None => fi_servers i end with
    | Err e => notConnected e
    | Ok servers =>
        clearConnectivityFailures ;;
        decision ← skipSplitBrainCheck servers;
        let '(skip, podsFingerprint) := decision : bool * string in
        if skip then
          mret (mkFormationCheck true (availableMessage "Cluster formation complete" (countAvailableServers servers))
                  (Some servers) false)
        else fullSplitBrainCheck servers podsFingerprint
    end.
End Pass.

(** * The fingerprint identifies the pods *)

(** What the fingerprint keeps of a pod. *)
Definition podState (p : ServerPod) : string * string * string * bool * Z * bool :=
  (pod_Name (vp_pod p), vp_UID p, pod_Phase (vp_pod p), podReadyNow (vp_pod p), podRestarts (vp_pod p),
   pod_Deleting (vp_pod p)).

Definition without (c : ascii) (s : string) : bool := allBytes (fun d => negb (Ascii.eqb d c)) s.
Definition plainText (s : string) : bool := without "/" s && without "," s.

(** Names, UIDs and phases hold neither separator (they are DNS names, UUIDs and
    one of five words), and restarts are counted up from zero. *)
Definition plainPod (p : ServerPod) : Prop :=
  plainText (pod_Name (vp_pod p)) = true /\ plainText (vp_UID p) = true /\
  plainText (pod_Phase (vp_pod p)) = true /\ 0 <= podRestarts (vp_pod p).

Definition podWords (p : ServerPod) : list string :=
  [pod_Name (vp_pod p); vp_UID p; pod_Phase (vp_pod p); showBool (podReadyNow (vp_pod p));
   strconv.Itoa (podRestarts (vp_pod p)); showBool (pod_Deleting (vp_pod p))].

Lemma podWords_plain p : plainPod p -> Forall (fun w => without "/" w = true /\ without "," w = true) (podWords p).
Proof.
  unfold plainPod, plainText. rewrite !andb_true_iff. intros (H1 & H2 & H3 & H4).
  assert (forall b, without "/" (showBool b) = true /\ without "," (showBool b) = true) as Hb by by intros [].
  assert (without "/" (strconv.Itoa (podRestarts (vp_pod p))) = true /\ without "," (strconv.Itoa (podRestarts (vp_pod p))) = true) as H5
    by (split; by apply Itoa_absent).
  unfold podWords. repeat constructor; first [exact H1|exact H2|exact H3|exact H5|apply H1|apply H2|apply H3|apply H5|apply Hb].
Qed.

Lemma showBool_inj b b' : showBool b = showBool b' -> b = b'.
Proof. by destruct b, b'. Qed.

Lemma fingerprintPart_inj p q : plainPod p -> plainPod q -> fingerprintPart p = fingerprintPart q -> podState p = podState q.
Proof.
  intros Hp%podWords_plain Hq%podWords_plain E. unfold fingerprintPart in E. fold (podWords p) (podWords q) in E.
  assert (podWords p = podWords q) as H.
  { rewrite <- (Split_Join "/" (podWords p)), <- (Split_Join "/" (podWords q)), E; [done|done| |done|];
      (eapply Forall_impl; [eassumption|]; by intros w [? _]). }
  unfold podWords in H. injection H as H1 H2 H3 H4%showBool_inj H5%Itoa_inj H6%showBool_inj. unfold podState. congruence.
Qed.

Lemma without_Join c sep words : Forall (fun w => without c w = true) words -> without c (String sep EmptyString) = true ->
  without c (strings.Join words (String sep EmptyString)) = true.
Proof.
  intros Hw Hs. induction Hw as [|w words Hw Hrest IH]; [done|]. destruct words as [|w' words]; [exact Hw|].
  change (strings.Join (w :: w' :: words) (String sep EmptyString))
    with (w +:+ (String sep EmptyString +:+ strings.Join (w' :: words) (String sep EmptyString))).
  unfold without in *. rewrite !allBytes_app, Hw, Hs. exact IH.
Qed.

Lemma fingerprintPart_plain p : plainPod p -> without "," (fingerprintPart p) = true.
Proof.
  intros Hp%podWords_plain. apply without_Join; [|done]. eapply Forall_impl; [eassumption|]. by intros w [_ ?].
Qed.

Lemma fmap_inj_perm {A B C} (f : A -> B) (g : A -> C) (P : A -> Prop) l l' :
  (forall x y, P x -> P y -> f x = f y -> g x = g y) ->
  Forall P l -> Forall P l' -> f <$> l ≡ₚ f <$> l' -> g <$> l ≡ₚ g <$> l'.
Proof.
  intros Hinj Hl. revert l'. induction Hl as [|x l Hx Hl IH]; intros l' Hl' Hperm; simpl in *.
  - apply Permutation_nil_l in Hperm. symmetry in Hperm. apply fmap_nil_inv in Hperm as ->. done.
  - assert (f x ∈ f <$> l') as (y & Hxy & (l1 & l2 & ->)%list_elem_of_split)%list_elem_of_fmap
      by (rewrite <- Hperm; constructor).
    rewrite !fmap_app in *. simpl in *. apply Forall_app in Hl' as [H1 [Hy H2]%Forall_cons].
    rewrite (Hinj x y Hx Hy Hxy). rewrite <- Permutation_middle. constructor. rewrite <- fmap_app.
    apply IH; [by apply Forall_app|]. rewrite fmap_app. apply (Permutation_cons_inv (a := f x)).
    rewrite Hperm, Hxy. symmetry. apply Permutation_middle.
Qed.

(** Equal fingerprints: the same pods, in the same states. *)
Lemma fingerprint_identifies pods pods' :
  Forall plainPod pods -> Forall plainPod pods' -> serverPodsFingerprint pods <> EmptyString ->
  serverPodsFingerprint pods = serverPodsFingerprint pods' -> podState <$> pods ≡ₚ podState <$> pods'.
Proof.
  intros Hp Hp' Hne E.
  apply (fmap_inj_perm fingerprintPart podState plainPod); [apply fingerprintPart_inj|done|done|].
  rewrite <- (Strings_perm (fingerprintPart <$> pods)), <- (Strings_perm (fingerprintPart <$> pods')).
  assert (forall l, Forall plainPod l -> Forall (fun w => without "," w = true) (sort.Strings (fingerprintPart <$> l))) as Hw.
  { intros l Hl. rewrite Strings_perm. apply Forall_fmap. eapply Forall_impl; [exact Hl|]. apply fingerprintPart_plain. }
  unfold serverPodsFingerprint in *.
  assert (forall l, strings.Join l "," <> EmptyString -> l <> []) as Hnn by by intros l H ->.
  rewrite <- (Split_Join "," (sort.Strings (fingerprintPart <$> pods))), E, Split_Join; auto.
  apply Hnn. by rewrite <- E.
Qed.

(** * What a pass deletes *)

Lemma deletePods_subset names outcomes p : p ∈ (deletePods names outcomes).1 -> p ∈ names.
Proof.
  revert outcomes. induction names as [|n names IH]; intros outcomes; simpl; [done|].
  destruct (match outcomes with [] => _ | _ => _ end) as [[|e|e] outs].
  - specialize (IH outs). destruct (deletePods names outs). simpl in *. rewrite !elem_of_cons. naive_solver.
  - simpl. intros ->%list_elem_of_singleton. constructor.
  - simpl. by intros ?%not_elem_of_nil.
Qed.

Lemma bindF {A B} (m : F A) (k : A -> F B) s : (m ≫= k) s = k (m s).1 (m s).2.
Proof. unfold mbind, F_bind. by destruct (m s). Qed.

Ltac frun := repeat first [rewrite !bindF | progress cbn [fst snd] | progress unfold setChecks, setStreaks, emit,
  RecordSplitBrainDetected, noteDeleted, lookCheck, lookStreak, mret, F_ret].

Section Deletes.
Variable i : formationInput.
Implicit Types s : FormationState.

Abbreviation cluster := (fi_cluster i).
Abbreviation expected := (sp_Servers (cl_Spec (fi_cluster i))).
Abbreviation detection := (DetectSplitBrain (fi_certManager i) (fi_ask i) (fi_cluster i) (fi_podsDetect i)).

Lemma legacyOutcome_state servers s : (legacyOutcome i servers s).2 = s.
Proof. unfold legacyOutcome. by destruct (legacyClusterFormationCheck i). Qed.

Lemma splitBrainFound_spec a servers s : sb_RepairAction a = RepairActionRestartPods ->
  fc_formed (splitBrainFound i a servers s).1 = false /\ fc_splitBrain (splitBrainFound i a servers s).1 = true /\
  fs_deleted (splitBrainFound i a servers s).2 = fs_deleted s ++ (RepairSplitBrain a (fi_podsDetect i) (fi_deletes i)).1.
Proof.
  intros Ha. unfold splitBrainFound, reportSplitBrainDetected. frun. rewrite bool_decide_eq_true_2 by done.
  destruct (RepairSplitBrain a _ _) as [deleted [e|]]; frun; done.
Qed.

Lemma notConnected_deleted e s : fs_deleted (notConnected i e s).2 = fs_deleted s.
Proof.
  unfold notConnected, recordConnectivityFailure. frun. destruct (dueForEvent _ _) as [[] st]; by frun.
Qed.

Lemma skip_state servers s : (skipSplitBrainCheck i servers s).2 = s.
Proof. unfold skipSplitBrainCheck. destruct (_ <=? 0); [done|]. by destruct (fi_podsCadence i). Qed.

(** What the state is once a pass leaves the map alone. *)
Lemma fullSplitBrainCheck_deleted servers fp s :
  fs_deleted (fullSplitBrainCheck i servers fp s).2 = fs_deleted s \/
  exists a, detection = Ok a /\ sb_IsSplitBrain a = true /\
    fullSplitBrainCheck i servers fp s = splitBrainFound i a servers (setChecks (delete (clusterKey cluster)) s).2.
Proof.
  unfold fullSplitBrainCheck. rewrite bindF. destruct detection as [a|e]; [|left; by rewrite legacyOutcome_state].
  destruct (sb_IsSplitBrain a) eqn:E; [right; by exists a|left].
  destruct (bool_decide _); [done|]. destruct (_ && _); [|by rewrite legacyOutcome_state].
  destruct (_ <=? _); [|done]. frun. unfold recordCleanSplitBrainCheck. by destruct (_ || _).
Qed.

Lemma detected_split a : detection = Ok a -> sb_IsSplitBrain a = true ->
  exists pods, fi_podsDetect i = Ok pods /\
    (cs_Phase (cl_Status cluster) = PhaseReady \/ cs_Phase (cl_Status cluster) = PhaseDegraded) /\
    expected <= count (podViews (fi_certManager i) (fi_ask i) cluster pods) /\
    a = analyzeClusterViews (podViews (fi_certManager i) (fi_ask i) cluster pods) expected.
Proof.
  unfold DetectSplitBrain. cbv zeta. destruct (expected =? 1); [by intros [= <-]|].
  destruct (negb _ && negb _) eqn:Eph; [by intros [= <-]|].
  destruct (fi_podsDetect i) as [pods|]; [|done]. fold (podViews (fi_certManager i) (fi_ask i) cluster pods).
  destruct (Z.ltb_spec (count (List.filter podRunning pods)) expected) as [|Hrun]; [by intros [= <-]|].
  case_goal; [by intros [= <-]|]. case_goal; [done|]. intros [= <-] _. exists pods.
  split_and!; [done| | |done].
  - apply andb_false_iff in Eph. rewrite !negb_false_iff, !String.eqb_eq in Eph. done.
  - unfold podViews, count in *. by rewrite length_fmap.
Qed.

Lemma verify_deletes s :
  fs_deleted (verifyNeo4jClusterFormation i s).2 = fs_deleted s \/
  exists a servers s0, expected <> 1 /\ detection = Ok a /\ sb_IsSplitBrain a = true /\ fs_deleted s0 = fs_deleted s /\
    verifyNeo4jClusterFormation i s = splitBrainFound i a servers s0.
Proof.
  unfold verifyNeo4jClusterFormation. destruct (Z.eqb_spec expected 1) as [|H1]; [by left|].
  destruct (match fi_client i with Some e => Err e | None => fi_servers i end) as [servers|e];
    [|left; apply notConnected_deleted].
  rewrite !bindF. unfold clearConnectivityFailures. set (s1 := (setStreaks _ s).2).
  rewrite (skip_state servers s1). destruct (skipSplitBrainCheck i servers s1).1 as [[] fp]; [by left|].
  destruct (fullSplitBrainCheck_deleted servers fp s1) as [H|(a & Ha & Hs & E)]; [left; exact H|right].
  exists a, servers, (setChecks (delete (clusterKey cluster)) s1).2. by split_and!.
Qed.
End Deletes.

(** C11: a pod is deleted for a split-brain only when the cluster had formed, all its
    expected pods run, at most half of the expected servers did not answer, and
    the pod itself answered with a server that no pod of the largest group lists;
    that group lists at least as many servers as any other, and none of its pods
    is deleted. The pass then reports a split-brain, not a formed cluster. *)
Theorem repair_spares_majority (i : formationInput) (s : FormationState) :
  let check := (verifyNeo4jClusterFormation i s).1 in
  let cluster := fi_cluster i in
  exists deleted, fs_deleted (verifyNeo4jClusterFormation i s).2 = fs_deleted s ++ deleted /\
  forall p, p ∈ deleted ->
    fc_formed check = false /\ fc_splitBrain check = true /\ sp_Servers (cl_Spec cluster) <> 1 /\
    (cs_Phase (cl_Status cluster) = PhaseReady \/ cs_Phase (cl_Status cluster) = PhaseDegraded) /\
    exists pods majority view,
      let views := podViews (fi_certManager i) (fi_ask i) cluster pods in
      fi_podsDetect i = Ok pods /\
      sp_Servers (cl_Spec cluster) <= count views /\ failures views <= Z.quot (sp_Servers (cl_Spec cluster)) 2 /\
      (majority ∈ groupPodsByClusterView (working views)) /\ majority <> [] /\
      (forall group, group ∈ groupPodsByClusterView (working views) ->
         countUniqueServersInGroup group <= countUniqueServersInGroup majority) /\
      view ∈ working views /\ cv_ServerPodName view = p /\ standsAgainst majority view /\
      (forall v, v ∈ majority -> cv_ServerPodName v ∉ deleted).
Proof.
  cbv zeta. destruct (verify_deletes i s) as [H|(a & servers & s0 & H1 & Ha & Hs & Hd & E)].
  { exists []. rewrite app_nil_r. split; [exact H|]. by intros p ?%not_elem_of_nil. }
  destruct (detected_split i a Ha Hs) as (pods & Hpods & Hph & Hrun & ->).
  destruct (split_brain_analysis _ _ (podViews_distinct _ _ _ _) Hs) as (majority & Hm & Hne & Hle & Ho & Hact & _ & Hf).
  rewrite E. destruct (splitBrainFound_spec i _ servers s0 Hact) as (Hform & Hsb & ->). rewrite Hd.
  eexists. split; [reflexivity|]. intros p Hp.
  assert (forall q, q ∈ (RepairSplitBrain (analyzeClusterViews (podViews (fi_certManager i) (fi_ask i) (fi_cluster i) pods)
    (sp_Servers (cl_Spec (fi_cluster i)))) (fi_podsDetect i) (fi_deletes i)).1 -> exists view,
    view ∈ working (podViews (fi_certManager i) (fi_ask i) (fi_cluster i) pods) /\ cv_ServerPodName view = q /\
    standsAgainst majority view) as Hdel.
  { intros q Hq. apply Ho. unfold RepairSplitBrain, repairByRestartingPods in Hq. rewrite Hs, Hact in Hq.
    by apply deletePods_subset in Hq. }
  destruct (Hdel p Hp) as (view & Hv & Hn & Hst). split_and!; [exact Hform|exact Hsb|exact H1|exact Hph|].
  exists pods, majority, view. split_and!; [done..|].
  intros v Hv' (w & Hw & Hname & Hst')%Hdel. apply (standsAgainst_outside majority w Hst').
  rewrite (distinct_working _ (podViews_distinct (fi_certManager i) (fi_ask i) (fi_cluster i) pods) w v); [done|done| |done].
  apply elem_groups. by exists majority.
Qed.

(** * Passes one after the other *)

Definition formationPasses (passes : list formationInput) (s : FormationState) : FormationState :=
  fold_left (fun s i => (verifyNeo4jClusterFormation i s).2) passes s.

(** A full check that found the cluster whole: Ready, no split-brain among the
    views of its servers, and every expected server in the largest view. *)
Definition foundWhole (i : formationInput) : Prop :=
  cs_Phase (cl_Status (fi_cluster i)) = PhaseReady /\
  exists a, DetectSplitBrain (fi_certManager i) (fi_ask i) (fi_cluster i) (fi_podsDetect i) = Ok a /\
    sb_IsSplitBrain a = false /\ sb_ClusterViews a <> [] /\
    sp_Servers (cl_Spec (fi_cluster i)) <= countAvailableServers (cv_Servers (sb_LargestCluster a)).

(** The record of a check belongs to a pass that made it. *)
Definition recordedBy (i : formationInput) (key : string) (c : splitBrainCheck) : Prop :=
  clusterKey (fi_cluster i) = key /\ foundWhole i /\ ck_at c = fi_now i /\ ck_pods c <> EmptyString /\
  exists pods, fi_podsCadence i = Ok pods /\ ck_pods c = serverPodsFingerprint pods.

Section Cadence.
Variable i : formationInput.
Implicit Types s : FormationState.

Lemma notConnected_checks e s : fs_checks (notConnected i e s).2 = fs_checks s.
Proof. unfold notConnected, recordConnectivityFailure. frun. destruct (dueForEvent _ _) as [[] st]; by frun. Qed.

Lemma splitBrainFound_checks a servers s : fs_checks (splitBrainFound i a servers s).2 = fs_checks s.
Proof.
  unfold splitBrainFound, reportSplitBrainDetected. frun. destruct (bool_decide _); [|done].
  destruct (RepairSplitBrain a _ _) as [deleted [e|]]; by frun.
Qed.

Lemma fingerprint_read servers fp s : (skipSplitBrainCheck i servers s).1.2 = fp -> fp <> EmptyString ->
  exists pods, fi_podsCadence i = Ok pods /\ fp = serverPodsFingerprint pods.
Proof.
  unfold skipSplitBrainCheck. destruct (_ <=? 0); [by intros <-|].
  destruct (fi_podsCadence i) as [pods|]; [|by intros <-]. frun. intros <- _. by exists pods.
Qed.

Lemma fullCheck_recorded servers fp s key c :
  fs_checks (fullSplitBrainCheck i servers fp s).2 !! key = Some c ->
  fs_checks s !! key = Some c \/
  (key = clusterKey (fi_cluster i) /\ c = mkSplitBrainCheck (fi_now i) fp /\ fp <> EmptyString /\ foundWhole i).
Proof.
  assert (forall m : gmap string splitBrainCheck, delete (clusterKey (fi_cluster i)) m !! key = Some c -> m !! key = Some c) as Hdel.
  { intros m [_ H]%lookup_delete_Some. exact H. }
  unfold fullSplitBrainCheck. rewrite bindF. destruct (DetectSplitBrain _ _ _ _) as [a|e] eqn:Ed;
    [|rewrite legacyOutcome_state; left; by apply Hdel].
  destruct (sb_IsSplitBrain a) eqn:Es; [rewrite splitBrainFound_checks; left; by apply Hdel|].
  destruct (bool_decide _); [left; by apply Hdel|].
  destruct (_ && _) eqn:Ev; [|rewrite legacyOutcome_state; left; by apply Hdel].
  destruct (_ <=? _) eqn:Ea; [|left; by apply Hdel]. frun. unfold recordCleanSplitBrainCheck.
  destruct (String.eqb fp EmptyString || _) eqn:Er; [left; by apply Hdel|]. frun. simpl.
  rewrite lookup_insert_Some. intros [[<- <-]|[_ H]]; [right|left; by apply Hdel]. breflect.
  split_and!; [done..|]. split; [done|]. exists a. split_and!; [done|done| |done].
  intros E. rewrite E in *. done.
Qed.

Lemma verify_recorded s key c :
  fs_checks (verifyNeo4jClusterFormation i s).2 !! key = Some c -> fs_checks s !! key = Some c \/ recordedBy i key c.
Proof.
  unfold verifyNeo4jClusterFormation. destruct (_ =? 1); [by left|].
  destruct (match fi_client i with Some e => Err e | None => fi_servers i end) as [servers|e];
    [|rewrite notConnected_checks; by left].
  rewrite !bindF. unfold clearConnectivityFailures. set (s1 := (setStreaks _ s).2).
  rewrite (skip_state i servers s1). destruct (skipSplitBrainCheck i servers s1).1 as [[] fp] eqn:Ef; [by left|].
  intros [H|(-> & -> & Hne & Hw)]%fullCheck_recorded; [by left|right].
  destruct (fingerprint_read servers fp s1) as (pods & Hp & ->); [by rewrite Ef|done|].
  split_and!; [done|done|done|done|]. by exists pods.
Qed.

Lemma legacy_formed msg : legacyClusterFormationCheck i = (true, msg) ->
  exists attempt servers, 2 <= attempt <= 3 /\ fi_legacyServers i attempt = Ok servers /\
    sp_Servers (cl_Spec (fi_cluster i)) <= countAvailableServers servers.
Proof.
  unfold legacyClusterFormationCheck. destruct (fi_legacyClient i); [done|].
  assert (forall rest, (forall a, a ∈ rest -> 1 <= a <= 3) -> legacyAttempts i rest = (true, msg) ->
    exists attempt servers, 2 <= attempt <= 3 /\ fi_legacyServers i attempt = Ok servers /\
      sp_Servers (cl_Spec (fi_cluster i)) <= countAvailableServers servers) as H.
  { induction rest as [|a rest IH]; intros Hr; simpl; [done|].
    assert (legacyAttempts i rest = (true, msg) -> exists attempt servers, 2 <= attempt <= 3 /\
      fi_legacyServers i attempt = Ok servers /\ sp_Servers (cl_Spec (fi_cluster i)) <= countAvailableServers servers) as IH'
      by (apply IH; intros b Hb; apply Hr; by constructor).
    destruct (fi_legacyServers i a) as [servers|] eqn:El; [|repeat case_goal; done].
    destruct (_ <=? _) eqn:Ea; [|repeat case_goal; done]. destruct (Z.eqb_spec a 1); [case_goal; done|].
    intros _. exists a, servers. specialize (Hr a (list_elem_of_here _ _)). breflect. split_and!; [lia|lia|done|done]. }
  apply H. intros a. rewrite !elem_of_cons, elem_of_nil. lia.
Qed.

Lemma fullCheck_formed servers fp s :
  let detection := DetectSplitBrain (fi_certManager i) (fi_ask i) (fi_cluster i) (fi_podsDetect i) in
  fc_formed (fullSplitBrainCheck i servers fp s).1 = true ->
  (forall a, detection = Ok a -> sb_IsSplitBrain a = false) /\
  ((exists a, detection = Ok a /\ sp_Servers (cl_Spec (fi_cluster i)) <= countAvailableServers (cv_Servers (sb_LargestCluster a))) \/
   (exists attempt rows, 2 <= attempt <= 3 /\ fi_legacyServers i attempt = Ok rows /\
      sp_Servers (cl_Spec (fi_cluster i)) <= countAvailableServers rows)).
Proof.
  assert (forall s', fc_formed (legacyOutcome i servers s').1 = true -> exists attempt rows, 2 <= attempt <= 3 /\
    fi_legacyServers i attempt = Ok rows /\ sp_Servers (cl_Spec (fi_cluster i)) <= countAvailableServers rows) as Hleg.
  { intros s'. unfold legacyOutcome. destruct (legacyClusterFormationCheck i) as [[] msg] eqn:E; [|done].
    intros _. by apply (legacy_formed msg). }
  cbv zeta. unfold fullSplitBrainCheck. rewrite bindF. destruct (DetectSplitBrain _ _ _ _) as [a|e]; [|by intros H%Hleg; split; [|by right]].
  destruct (sb_IsSplitBrain a) eqn:Es.
  - unfold splitBrainFound. rewrite bindF. destruct (bool_decide _); [|done].
    destruct (RepairSplitBrain a _ _) as [deleted [e|]]; by frun.
  - intros Hf. split; [by intros b [= <-]|]. destruct (bool_decide _); [done|]. destruct (_ && _); [|right; by eapply Hleg].
    destruct (_ <=? _) eqn:Ea; [|done]. left. exists a. breflect. by split.
Qed.
End Cadence.

Lemma passes_recorded passes : forall key c,
  fs_checks (formationPasses passes formationStart) !! key = Some c -> exists j, j ∈ passes /\ recordedBy j key c.
Proof.
  induction passes as [|i passes IH] using rev_ind; intros key c; [simpl; by intros ?%lookup_empty_Some|].
  unfold formationPasses. rewrite fold_left_app. simpl. fold (formationPasses passes formationStart).
  intros [(j & Hj & Hr)%IH|H]%verify_recorded.
  - exists j. split; [apply elem_of_app; by left|done].
  - exists i. split; [apply elem_of_app; right; by apply list_elem_of_singleton|done].
Qed.

(** C13: a pass that reports a cluster of several servers as formed has found no
    split-brain itself (with every expected server in the largest view, or in a
    later answer to the check through the Service), or it follows a pass of the
    same cluster, less than the interval ago, that made the full check, found it
    whole, and saw the same pods in the same states; and every expected server is
    available through the Service now. *)
Theorem formed_checked (passes : list formationInput) (i : formationInput) :
  let expected := sp_Servers (cl_Spec (fi_cluster i)) in
  let detection := DetectSplitBrain (fi_certManager i) (fi_ask i) (fi_cluster i) (fi_podsDetect i) in
  expected <> 1 ->
  (forall j pods, j ∈ i :: passes -> fi_podsCadence j = Ok pods -> Forall plainPod pods) ->
  fc_formed (verifyNeo4jClusterFormation i (formationPasses passes formationStart)).1 = true ->
  ((forall a, detection = Ok a -> sb_IsSplitBrain a = false) /\
   ((exists a, detection = Ok a /\ expected <= countAvailableServers (cv_Servers (sb_LargestCluster a))) \/
    (exists attempt rows, 2 <= attempt <= 3 /\ fi_legacyServers i attempt = Ok rows /\
       expected <= countAvailableServers rows))) \/
  (exists j pods pods', j ∈ passes /\ clusterKey (fi_cluster j) = clusterKey (fi_cluster i) /\ foundWhole j /\
     fi_now i - fi_now j < fi_interval i /\
     fi_podsCadence i = Ok pods /\ fi_podsCadence j = Ok pods' /\ podState <$> pods ≡ₚ podState <$> pods' /\
     exists rows, fi_servers i = Ok rows /\ expected <= countAvailableServers rows).
Proof.
  cbv zeta. intros H1 Hplain. unfold verifyNeo4jClusterFormation. rewrite (proj2 (Z.eqb_neq _ _) H1).
  destruct (match fi_client i with Some e => Err e | None => fi_servers i end) as [rows|e] eqn:Econn.
  2:{ unfold notConnected, recordConnectivityFailure. frun. destruct (dueForEvent _ _) as [[] st]; by frun. }
  rewrite !bindF. unfold clearConnectivityFailures. set (s1 := (setStreaks _ _).2).
  rewrite (skip_state i rows s1). destruct (skipSplitBrainCheck i rows s1).1 as [[] fp] eqn:Ef.
  2:{ intros Hf. left. by apply (fullCheck_formed i rows fp s1). }
  intros _. right. unfold skipSplitBrainCheck in Ef. destruct (fi_interval i <=? 0); [done|].
  destruct (fi_podsCadence i) as [pods|] eqn:Ep; [|done]. revert Ef. frun. intros [= Hskip <-].
  unfold splitBrainCheckSkippable in Hskip. destruct (fs_checks (formationPasses passes formationStart) !! clusterKey (fi_cluster i)) as [c|] eqn:Ec; [|done].
  do 3 (case_hyp Hskip; [done|]). breflect.
  apply passes_recorded in Ec as (j & Hj & Hkey & Hw & Hat & _ & pods' & Hp' & Hfp).
  exists j, pods, pods'. split_and!; [done|done|done|rewrite <- Hat; done|done|done| |].
  - apply fingerprint_identifies; [by apply (Hplain i); [constructor|]|apply (Hplain j); [by constructor|done]|done|congruence].
  - exists rows. split; [|done]. by destruct (fi_client i).
Qed.

(** * Samples *)
Module FormationSample.
Import PartitionSample.

Definition allFive : list ServerInfo :=
  rows ["c-server-0"; "c-server-1"; "c-server-2"; "c-server-3"; "c-server-4"].

Definition passAt (now : Z) (ask : string -> podAnswer) : formationInput :=
  mkFormationInput five now (5 * minute) None (Ok allFive) (Ok fivePods) (Ok fivePods) false ask [] EmptyString
    "neo4j://c-client.ns" None (fun _ => Ok allFive) (fun _ => false).

Definition wholeAt (now : Z) : formationInput := passAt now (fun _ => Lists allFive).

Lemma fivePods_plain : Forall plainPod fivePods.
Proof. repeat constructor; vm_compute; done. Qed.

(** A minute after a full check the cluster is formed without another one. *)
Lemma formed_checked_witness :
  fs_checks (formationPasses [wholeAt 0; wholeAt minute] formationStart) !! "ns/c" = Some (mkSplitBrainCheck 0 (serverPodsFingerprint fivePods)) /\
  ((exists j pods pods', j ∈ [wholeAt 0] /\ foundWhole j /\ fi_now (wholeAt minute) - fi_now j < 5 * minute /\
    fi_podsCadence (wholeAt minute) = Ok pods /\ fi_podsCadence j = Ok pods' /\ podState <$> pods ≡ₚ podState <$> pods') \/
  (forall a, DetectSplitBrain false (fun _ => Lists allFive) five (Ok fivePods) = Ok a -> sb_IsSplitBrain a = false)).
Proof.
  split; [vm_compute; reflexivity|].
  destruct (formed_checked [wholeAt 0] (wholeAt minute)) as [[H _]|(j & pods & pods' & Hj & _ & Hw & Ht & Hp & Hp' & Hs & _)].
  - vm_compute. discriminate.
  - intros j pods Hj Hp. assert (pods = fivePods) as ->; [|exact fivePods_plain].
    rewrite !elem_of_cons, elem_of_nil in Hj. destruct Hj as [-> | [-> |[]]]; by injection Hp.
  - vm_compute. reflexivity.
  - right. exact H.
  - left. exists j, pods, pods'. split_and!; [exact Hj|exact Hw|exact Ht|exact Hp|exact Hp'|exact Hs].
Defined.

(** The two pods of the smaller part are deleted, and only those. *)
Example repair_sample :
  fs_deleted (verifyNeo4jClusterFormation (passAt 0 twoParts) formationStart).2 = ["c-server-3"; "c-server-4"].
Proof. vm_compute. reflexivity. Qed.

(** Three of five servers refuse connections: the analysis is inconclusive, and
    the pass counts the servers of an empty view instead of asking the Service,
    which lists all five. *)
Theorem inconclusive_counts_none :
  let ask url := if strings.Contains url "c-server-0" || strings.Contains url "c-server-1"
                 then Lists allFive else CannotConnect "refused" in
  let check := (verifyNeo4jClusterFormation (passAt 0 ask) formationStart).1 in
  fc_formed check = false /\ fc_message check = "Cluster forming: 0/5 servers available" /\
  legacyClusterFormationCheck (passAt 0 ask) =
    (true, "Cluster formation complete and stable: 5/5 servers available").
Proof. vm_compute. split_and!; reflexivity. Qed.
End FormationSample.
