(* ===== verification/UpgradeRepair.v ===== *)
(** Servers that cannot start: how the controller tells them from servers that
    are still starting (src/internal/controller/plugin_target_gate.go and
    upgrade_repair.go), which of them an upgrade replaces first, and which pods
    it deletes itself (stuck_server_pods.go). *)
From S2P Require Import Prelude GoStrings GoNet ClusterTypes Conditions UpgradeRules UpgradeRecord World ServerIdentity Availability.

Open Scope Z_scope.

(** * Pods that cannot start *)

Definition imagePullFailures (reason : string) : bool :=
  existsb (String.eqb reason) ["ErrImagePull"; "ImagePullBackOff"; "InvalidImageName"].

(** The exit code of a container's failed run, over the statuses given. *)
Fixpoint containerFailure (statuses : list ContainerStatus) (name : string) : option Z :=
  match statuses with
  | [] => None
  | s :: rest =>
      if negb (String.eqb (ct_Name s) name) || ct_Ready s then containerFailure rest name
      else match ct_Terminated s with
      | Some code => if code =? 0 then None else Some code
      | None =>
          match ct_LastTerminated s with
          | Some code => if code =? 0 then None else Some code
          | None => None
          end
      end
  end.

Fixpoint containerCrashLooping (statuses : list ContainerStatus) (name : string) : option Z :=
  match statuses with
  | [] => None
  | s :: rest =>
      if negb (String.eqb (ct_Name s) name) || ct_Running s then containerCrashLooping rest name
      else containerFailure [s] name
  end.

Fixpoint initContainerFailure (statuses : list ContainerStatus) (name : string) : option Z :=
  match statuses with
  | [] => None
  | s :: rest =>
      if negb (String.eqb (ct_Name s) name) then initContainerFailure rest name
      else match ct_Terminated s with
      | Some code => if code =? 0 then None else Some code
      | None =>
          match ct_LastTerminated s with
          | Some code => if code =? 0 then None else Some code
          | None => None
          end
      end
  end.

Definition failingPod (pod container : string) (code : Z) : string :=
  pod +:+ " (" +:+ container +:+ " exited with code " +:+ strconv.Itoa code +:+ ")".

(** The first container that waits on an image it cannot pull: its name and
    reason. *)
Fixpoint pullFailure (statuses : list ContainerStatus) : option (string * string) :=
  match statuses with
  | [] => None
  | s :: rest =>
      match ct_Waiting s with
      | Some reason => if imagePullFailures reason then Some (ct_Name s, reason) else pullFailure rest
      | None => pullFailure rest
      end
  end.

(** The first init container that fails: its name and exit code. *)
Fixpoint initFailure (all statuses : list ContainerStatus) : option (string * Z) :=
  match statuses with
  | [] => None
  | s :: rest =>
      match initContainerFailure all (ct_Name s) with
      | Some code => Some (ct_Name s, code)
      | None => initFailure all rest
      end
  end.

Definition podCannotStart (pod : Pod) : option string :=
  let init := pod_InitContainerStatuses pod in
  let statuses := pod_ContainerStatuses pod in
  match pullFailure (init ++ statuses) with
  | Some (name, reason) =>
      Some (pod_Name pod +:+ " (container " +:+ name +:+ ": " +:+ reason +:+ ")")
  | None =>
      match containerCrashLooping statuses Neo4jContainer with
      | Some code => Some (failingPod (pod_Name pod) ("container " +:+ Neo4jContainer) code)
      | None =>
          match initFailure init init with
          | Some (name, code) => Some (failingPod (pod_Name pod) ("init container " +:+ name) code)
          | None => None
          end
      end
  end.

Fixpoint podServerImage (containers : list (string * string)) : string :=
  match containers with
  | [] => EmptyString
  | (name, image) :: rest => if String.eqb name Neo4jContainer then image else podServerImage rest
  end.

(** * Servers that are the only ones down *)

(** The loop from the highest ordinal down: [None] gives up. *)
Fixpoint downFrom (byOrdinal : gmap Z Pod) (partition : Z) (failure : Pod -> option string) (n : nat)
    (upAbove : bool) (failing : list string) (down : gset string) : option (list string * gset string) :=
  match n with
  | O => Some (failing, down)
  | S n' =>
      let ordinal := Z.of_nat n' in
      match byOrdinal !! ordinal with
      | None => None
      | Some pod =>
          if pod_Deleting pod then None
          else if isPodReady pod then downFrom byOrdinal partition failure n' true failing down
          else match failure pod with
          | None => None
          | Some described =>
              if upAbove || (ordinal <? partition) then None
              else downFrom byOrdinal partition failure n' upAbove (failing ++ [described]) ({[pod_Name pod]} ∪ down)
          end
      end
  end.

(** The pods below the replica count, by ordinal. *)
Definition podsBelow (name : string) (pods : list Pod) (replicas : Z) : gmap Z Pod :=
  fold_left
    (fun m pod => match statefulSetOrdinal name (pod_Name pod) with
                  | Some ordinal => if ordinal <? replicas then <[ordinal := pod]> m else m
                  | None => m
                  end) pods ∅.

Definition podsDownOnlyIn (sts : StatefulSet) (pods : list Pod) (failure : Pod -> option string)
  : list string * gset string :=
  let replicas := default 1 (sts_Replicas sts) in
  let partition := default 0 (statefulSetPartition sts) in
  default ([], ∅) (downFrom (podsBelow (sts_Name sts) pods replicas) partition failure (Z.to_nat replicas) false [] ∅).

Fixpoint unavailableOutside (servers : list ServerDiagnosticInfo) (down : gset string) : string :=
  match servers with
  | [] => EmptyString
  | s :: rest =>
      if String.eqb (sd_Health s) "Available" then unavailableOutside rest down
      else
        let host := match net.SplitHostPort (sd_Address s) with Some (h, _) => h | None => sd_Address s end in
        let pod := strings.cutBefore host "." in
        if String.eqb pod EmptyString || negb (bool_decide (pod ∈ down))
        then sd_Name s +:+ " (" +:+ sd_Address s +:+ ", " +:+ sd_Health s +:+ ")"
        else unavailableOutside rest down
  end.

Definition unavailableServerOutside (cluster : Cluster) (down : gset string) : string :=
  match cs_Diagnostics (cl_Status cluster) with
  | None => EmptyString
  | Some servers => unavailableOutside servers down
  end.

(** The images of the pods [which] selects. *)
Definition imagesOf (which : Pod -> bool) (pods : list Pod) : gset string :=
  list_to_set (map (fun pod => podServerImage (pod_Containers pod)) (List.filter which pods)).

Definition serversDownIn (cluster : Cluster) (sts : StatefulSet) (pods : list Pod) : option serversDown :=
  let replicas := default 1 (sts_Replicas sts) in
  let partition := default 0 (statefulSetPartition sts) in
  if partition <=? 0 then None
  else
    let frozen := replicas <=? partition in
    let view := if frozen then set_sts_RollingUpdate (Some (Some 0)) sts else sts in
    let '(failing, down) := podsDownOnlyIn view pods podCannotStart in
    if bool_decide (down = ∅) then None
    else
      let isDown pod := bool_decide (pod_Name pod ∈ down) in
      let images := imagesOf isDown pods in
      let upImages := imagesOf (fun pod => negb (isDown pod) && isPodReady pod) pods in
      if frozen && negb (bool_decide (images ∩ upImages = ∅)) then None
      else if negb (String.eqb (unavailableServerOutside cluster down) EmptyString) then None
      else
        let lowest := fold_left (fun lowest name =>
          match statefulSetOrdinal (sts_Name sts) name with
          | Some ordinal => if ordinal <? lowest then ordinal else lowest
          | None => lowest
          end) (elements down) replicas in
        Some (mkServersDown lowest failing images down).

(** [pods] is the cached list of the server pods. *)
Definition serversDownOnTarget (cluster : Cluster) (sts : StatefulSet) (pods : result (list Pod))
  : option serversDown :=
  match pods with Err _ => None | Ok pods => serversDownIn cluster sts pods end.

(** [sts] and [pods] are the cached reads. *)
Definition heldUpgradeRepair (cluster : Cluster) (sts : getResult StatefulSet) (pods : result (list Pod))
  : option serversDown :=
  if negb (upgradeHeld cluster) || negb (clusterHasFormed (cl_Status cluster)) || upgradeWaitsForUser cluster
  then None
  else match sts with
  | Found sts =>
      match sts_Containers sts with
      | [] => None
      | _ =>
          match serversDownOnTarget cluster sts pods with
          | None => None
          | Some down =>
              let image := sp_ImageRepo (cl_Spec cluster) +:+ ":" +:+ sp_ImageTag (cl_Spec cluster) in
              if bool_decide (image ∈ dn_images down) then None else Some down
          end
      end
  | _ => None
  end.

(** * Pods the controller replaces itself *)

Definition stuckServerPods (live : StatefulSet) (pods : list Pod) : list (Pod * string) :=
  let update := sts_UpdateRevision live in
  match sts_Replicas live with
  | None => []
  | Some replicas =>
      if String.eqb update EmptyString || (sts_ObservedGeneration live <? sts_Generation live) then []
      else
        let partition := default 0 (statefulSetPartition live) in
        flat_map (fun ordinal =>
          omap (fun pod =>
            match statefulSetOrdinal (sts_Name live) (pod_Name pod) with
            | None => None
            | Some o =>
                if negb (o =? ordinal) then None
                else if String.eqb (pod_Revision pod) EmptyString || String.eqb (pod_Revision pod) update
                        || pod_Deleting pod || isPodReady pod then None
                else match podCannotStart pod with Some why => Some (pod, why) | None => None end
            end) pods) (seqZ partition (replicas - partition))
  end.

(** * What the repair may touch *)

(** The pod of an ordinal is up: there, not being deleted, Ready. *)
Definition podUp (m : gmap Z Pod) (o : Z) : Prop :=
  exists pod, m !! o = Some pod /\ pod_Deleting pod = false /\ isPodReady pod = true.

(** The pod of an ordinal is down for a reason [failure] names. *)
Definition podFailing (m : gmap Z Pod) (failure : Pod -> option string) (o : Z) : Prop :=
  exists pod, m !! o = Some pod /\ pod_Deleting pod = false /\ isPodReady pod = false /\ is_Some (failure pod).

Lemma downFrom_up m partition failure n failing down f d :
  downFrom m partition failure n true failing down = Some (f, d) ->
  f = failing /\ d = down /\ forall o, 0 <= o < Z.of_nat n -> podUp m o.
Proof.
  revert failing down. induction n as [|n IH]; intros failing down; cbn [downFrom].
  { intros [= -> ->]. split_and!; [done..|lia]. }
  destruct (m !! Z.of_nat n) as [pod|] eqn:Em; [|done]. destruct (pod_Deleting pod) eqn:Ed; [done|].
  destruct (isPodReady pod) eqn:Er; [|by destruct (failure pod)].
  intros H. destruct (IH _ _ H) as (-> & -> & Hup). split_and!; [done..|]. intros o Ho.
  destruct (decide (o = Z.of_nat n)) as [->|Hne]; [by exists pod|]. apply Hup. lia.
Qed.

Lemma downFrom_spec m partition failure n failing down f d :
  downFrom m partition failure n false failing down = Some (f, d) ->
  exists k, 0 <= k <= Z.of_nat n /\
    (forall o, 0 <= o < k -> podUp m o) /\
    (forall o, k <= o < Z.of_nat n -> partition <= o /\ podFailing m failure o) /\
    (forall name, name ∈ d <-> name ∈ down \/
       exists o pod, k <= o < Z.of_nat n /\ m !! o = Some pod /\ pod_Name pod = name).
Proof.
  revert failing down. induction n as [|n IH]; intros failing down; cbn [downFrom].
  { intros [= -> ->]. exists 0. split_and!; [lia..|lia|]. intros name. split; [by left|].
    intros [?|(o & pod & Ho & _)]; [done|lia]. }
  destruct (m !! Z.of_nat n) as [pod|] eqn:Em; [|done]. destruct (pod_Deleting pod) eqn:Ed; [done|].
  destruct (isPodReady pod) eqn:Er.
  - intros (-> & -> & Hup)%downFrom_up. exists (Z.of_nat (S n)). split_and!; [lia..| |lia|].
    + intros o Ho. destruct (decide (o = Z.of_nat n)) as [->|Hne]; [by exists pod|]. apply Hup. lia.
    + intros name. split; [by left|]. intros [?|(o & p & Ho & _)]; [done|lia].
  - destruct (failure pod) as [why|] eqn:Ef; [|done]. cbn [orb]. destruct (Z.ltb_spec (Z.of_nat n) partition); [done|].
    intros (k & Hk & Hup & Hdown & Hnames)%IH. exists k. split_and!; [lia..|done| |].
    + intros o Ho. destruct (decide (o = Z.of_nat n)) as [->|Hne]; [|apply Hdown; lia].
      split; [lia|]. exists pod. split_and!; [done..|]. by rewrite Ef.
    + intros name. rewrite Hnames, elem_of_union, elem_of_singleton. split.
      * intros [[->|?]|(o & p & Ho & Hp)]; [right; exists (Z.of_nat n), pod; split_and!; [lia..|done|done]|by left|].
        right. exists o, p. split; [lia|done].
      * intros [?|(o & p & Ho & Hp & Hn)]; [by left; right|].
        destruct (decide (o = Z.of_nat n)) as [->|Hne]; [left; left; congruence|].
        right. exists o, p. split_and!; [lia..|done|done].
Qed.

Lemma podsBelow_elem name pods replicas o pod :
  podsBelow name pods replicas !! o = Some pod ->
  pod ∈ pods /\ statefulSetOrdinal name (pod_Name pod) = Some o /\ o < replicas.
Proof.
  unfold podsBelow. set (m := ∅).
  assert (Hm : m !! o = Some pod -> pod ∈ pods /\ statefulSetOrdinal name (pod_Name pod) = Some o /\ o < replicas) by done.
  enough (Hg : forall l (m : gmap Z Pod), (forall p, p ∈ l -> p ∈ pods) ->
    (m !! o = Some pod -> pod ∈ pods /\ statefulSetOrdinal name (pod_Name pod) = Some o /\ o < replicas) ->
    fold_left (fun m pod => match statefulSetOrdinal name (pod_Name pod) with
                  | Some ordinal => if ordinal <? replicas then <[ordinal := pod]> m else m
                  | None => m end) l m !! o = Some pod ->
    pod ∈ pods /\ statefulSetOrdinal name (pod_Name pod) = Some o /\ o < replicas) by by apply Hg.
  clear m Hm. induction l as [|p l IH]; intros m Hsub Hm; [done|]. cbn [fold_left]. apply IH.
  - intros q Hq. apply Hsub. by right.
  - destruct (statefulSetOrdinal name (pod_Name p)) as [ord|] eqn:Eo; [|done].
    destruct (Z.ltb_spec ord replicas); [|done].
    intros [[<- <-]|[_ H']]%lookup_insert_Some; [|by apply Hm]. split_and!; [|done|done]. apply Hsub. left.
Qed.

Lemma lowest_spec name (l : list string) init :
  let low := fold_left (fun lowest n =>
    match statefulSetOrdinal name n with
    | Some ordinal => if ordinal <? lowest then ordinal else lowest
    | None => lowest
    end) l init in
  low <= init /\ (low = init \/ exists n, n ∈ l /\ statefulSetOrdinal name n = Some low) /\
  forall n o, n ∈ l -> statefulSetOrdinal name n = Some o -> low <= o.
Proof.
  cbv zeta. revert init. induction l as [|x l IH]; intros init; cbn [fold_left].
  { split_and!; [lia|by left|]. by intros n o []%elem_of_nil. }
  destruct (statefulSetOrdinal name x) as [ox|] eqn:Ex.
  - specialize (IH (if ox <? init then ox else init)). destruct IH as (H1 & H2 & H3).
    destruct (Z.ltb_spec ox init).
    + split_and!; [lia| |].
      * right. destruct H2 as [->|(n & Hn & Ho)]; [exists x; split; [left|done]|exists n; split; [by right|done]].
      * intros n o [->|Hn]%elem_of_cons Ho; [simplify_eq; lia|by eapply H3].
    + split_and!; [lia| |].
      * destruct H2 as [H2|(n & Hn & Ho)]; [by left|right; exists n; split; [by right|done]].
      * intros n o [->|Hn]%elem_of_cons Ho; [simplify_eq; lia|by eapply H3].
  - destruct (IH init) as (H1 & H2 & H3). split_and!; [lia| |].
    + destruct H2 as [H2|(n & Hn & Ho)]; [by left|right; exists n; split; [by right|done]].
    + intros n o [->|Hn]%elem_of_cons Ho; [congruence|by eapply H3].
Qed.

Lemma unavailableOutside_none servers down :
  unavailableOutside servers down = EmptyString ->
  forall s, s ∈ servers -> sd_Health s <> "Available" ->
  exists pod, pod ∈ down /\ pod = strings.cutBefore
    (match net.SplitHostPort (sd_Address s) with Some (h, _) => h | None => sd_Address s end) ".".
Proof.
  induction servers as [|x servers IH]; cbn [unavailableOutside]; intros H s Hs Hh; [by apply elem_of_nil in Hs|].
  apply elem_of_cons in Hs as [->|Hs].
  - destruct (String.eqb_spec (sd_Health x) "Available"); [done|].
    set (pod := strings.cutBefore _ _) in *. exists pod. split; [|done].
    destruct (String.eqb pod EmptyString || negb (bool_decide (pod ∈ down))) eqn:E.
    + by destruct (sd_Name x).
    + breflect. done.
  - destruct (String.eqb (sd_Health x) "Available"); [by apply IH|].
    destruct (_ || _); [by destruct (sd_Name x)|by apply IH].
Qed.

(** A repair replaces only servers that are down, and they are the only
    ones down: every server below the lowest of them is up (its pod there,
    Ready, not being deleted), every server from there on cannot start, none is
    below the partition the upgrade left, and Neo4j's last diagnostics name no
    other server unavailable. *)
Theorem serversDownIn_sound (cluster : Cluster) (sts : StatefulSet) (pods : list Pod) (replicas : Z) (d : serversDown) :
  sts_Replicas sts = Some replicas -> serversDownIn cluster sts pods = Some d ->
  let m := podsBelow (sts_Name sts) pods replicas in
  0 <= dn_partition d < replicas /\
  (forall o, 0 <= o < dn_partition d -> podUp m o) /\
  (forall o, dn_partition d <= o < replicas -> podFailing m podCannotStart o) /\
  (forall p, statefulSetPartition sts = Some p -> p < replicas -> p <= dn_partition d) /\
  (forall servers s, cs_Diagnostics (cl_Status cluster) = Some servers -> s ∈ servers -> sd_Health s <> "Available" ->
     exists pod, pod ∈ dn_pods d /\ pod = strings.cutBefore
       (match net.SplitHostPort (sd_Address s) with Some (h, _) => h | None => sd_Address s end) ".").
Proof.
  intros Hrep. unfold serversDownIn. rewrite Hrep. cbn [from_option]. change (id replicas) with replicas.
  set (partition := default 0 (statefulSetPartition sts)).
  destruct (Z.leb_spec partition 0) as [|Hp]; [done|].
  set (view := if replicas <=? partition then _ else sts).
  assert (Hv : sts_Name view = sts_Name sts /\ sts_Replicas view = Some replicas /\
    (partition < replicas -> statefulSetPartition view = statefulSetPartition sts)).
  { unfold view. destruct (Z.leb_spec replicas partition); [split_and!; [done|done|lia]|done]. }
  destruct Hv as (Hname & Hvr & Hvp). unfold podsDownOnlyIn. rewrite Hname, Hvr. cbn [from_option]. change (id replicas) with replicas.
  destruct (downFrom _ _ _ _ _ _ _) as [[failing down]|] eqn:Ed; cbn [from_option].
  2: { change (id ([], ∅) : list string * gset string) with ([], ∅ : gset string). by rewrite bool_decide_eq_true_2. }
  change (id (failing, down)) with (failing, down). cbv beta iota zeta. destruct (bool_decide_reflect (down = ∅)) as [|Hne]; [done|].
  destruct (_ && _); [done|]. destruct (negb _) eqn:Eo; [done|]. intros [= <-]. cbn [dn_partition dn_pods]. cbv zeta.
  apply downFrom_spec in Ed as (k & Hk & Hup & Hdown & Hnames).
  assert (Hdn : forall name, name ∈ down <-> exists o pod, k <= o < replicas /\
    podsBelow (sts_Name sts) pods replicas !! o = Some pod /\ pod_Name pod = name).
  { intros name. rewrite Hnames. split; [intros [[]%elem_of_empty|(o & pod & Ho & ?)]; exists o, pod; split; [lia|done]|].
    intros (o & pod & Ho & ?). right. exists o, pod. split; [lia|done]. }
  assert (Hkr : k < replicas).
  { destruct (Z.lt_ge_cases k replicas) as [|Hge]; [done|]. destruct Hne. apply set_eq. intros name. rewrite Hdn.
    split; [intros (o & ? & Ho & _); lia|set_solver]. }
  destruct (lowest_spec (sts_Name sts) (elements down) replicas) as (_ & L2 & L3). cbv zeta in L2, L3.
  set (low := fold_left _ (elements down) replicas) in *.
  assert (Hlow : low = k).
  { destruct (Hdown k) as (_ & pod & Hpod & _); [lia|]. pose proof (podsBelow_elem _ _ _ _ _ Hpod) as (_ & Hord & _).
    assert (low <= k).
    { apply (L3 (pod_Name pod) k); [|done]. apply elem_of_elements, Hdn. exists k, pod. split_and!; [lia..|done|done]. }
    destruct L2 as [?|(n & Hn & Hno)]; [lia|]. apply elem_of_elements, Hdn in Hn as (o & q & Ho & Hq & <-).
    apply podsBelow_elem in Hq as (_ & Hqo & _). assert (low = o) by congruence. lia. }
  rewrite Hlow. split_and!; [lia..|done|intros o Ho; apply Hdown; lia| |].
  - intros p Hsp Hpr. destruct (Hdown k) as [Hpk _]; [lia|]. rewrite Hvp, Hsp in Hpk; [done|].
    unfold partition. rewrite Hsp. done.
  - intros servers s Hs. breflect. unfold unavailableServerOutside in Eo. rewrite Hs in Eo. by apply unavailableOutside_none.
Qed.

(** Three servers; the last one cannot pull the image of the target it was
    restarted onto. *)
Definition repairPods : list Pod :=
  let ready name := mkPod name "rev-a" false [("neo4j", "neo4j:2026.08.1")] "Running" [("Ready", "True")] [] [] in
  [ready "c-server-0"; ready "c-server-1";
   mkPod "c-server-2" "rev-b" false [("neo4j", "neo4j:2026.99")] "Pending" []
     [] [mkContainerStatus "neo4j" false false None (Some "ImagePullBackOff") None 0]].

Definition repairSts : StatefulSet :=
  mkStatefulSet "c-server" ∅ 4 (Some 3) [("neo4j", "neo4j:2026.99")] (Some (Some 2)) 4 1 2 "rev-a" "rev-b".

Definition repairDown : serversDown :=
  mkServersDown 2 ["c-server-2 (container neo4j: ImagePullBackOff)"] {["neo4j:2026.99"]} {["c-server-2"]}.

Lemma serversDownIn_sound_witness :
  (forall o, 0 <= o < 2 -> podUp (podsBelow "c-server" repairPods 3) o) /\
  podFailing (podsBelow "c-server" repairPods 3) podCannotStart 2.
Proof.
  assert (H : serversDownIn (exampleCluster "2026.10") repairSts repairPods = Some repairDown)
    by (vm_compute; reflexivity).
  pose proof (serversDownIn_sound (exampleCluster "2026.10") repairSts repairPods 3 repairDown eq_refl H)
    as (_ & Hup & Hdown & _).
  split; [exact Hup|]. apply Hdown. simpl. lia.
Defined.

(** the controller deletes a server pod itself only when the StatefulSet's
    own update is to replace it: it is at or above the partition and below the
    replica count, on another revision than the update revision of a spec the
    StatefulSet controller has seen, not being deleted, not Ready, and unable
    to start. *)
Theorem stuckServerPods_spec (live : StatefulSet) (pods : list Pod) (pod : Pod) (why : string) :
  (pod, why) ∈ stuckServerPods live pods <->
  exists replicas o, sts_Replicas live = Some replicas /\ statefulSetOrdinal (sts_Name live) (pod_Name pod) = Some o /\
    default 0 (statefulSetPartition live) <= o < replicas /\ pod ∈ pods /\
    sts_UpdateRevision live <> EmptyString /\ sts_Generation live <= sts_ObservedGeneration live /\
    pod_Revision pod <> EmptyString /\ pod_Revision pod <> sts_UpdateRevision live /\
    pod_Deleting pod = false /\ isPodReady pod = false /\ podCannotStart pod = Some why.
Proof.
  unfold stuckServerPods. destruct (sts_Replicas live) as [replicas|]; [|split; [by intros []%elem_of_nil|by intros (? & ? & ? & _)]].
  set (partition := default 0 (statefulSetPartition live)).
  destruct (String.eqb (sts_UpdateRevision live) EmptyString || (sts_ObservedGeneration live <? sts_Generation live)) eqn:Eg.
  { split; [by intros []%elem_of_nil|]. intros (r & o & _ & _ & _ & _ & Hu & Hg & _). apply orb_true_iff in Eg. breflect.
    destruct Eg as [Eg|Eg]; breflect; [done|lia]. }
  breflect. rewrite list_elem_of_In, in_flat_map. split.
  - intros (o & Ho%list_elem_of_In & Hin%list_elem_of_In). apply elem_of_seqZ in Ho.
    apply list_elem_of_omap in Hin as (p & Hp & Hs).
    destruct (statefulSetOrdinal (sts_Name live) (pod_Name p)) as [o'|] eqn:Eo; [|done].
    destruct (Z.eqb_spec o' o) as [->|]; [|done]. cbn [negb] in Hs.
    destruct (_ || isPodReady p) eqn:Er; [done|]. destruct (podCannotStart p) as [w|] eqn:Ew; simplify_eq.
    breflect. exists replicas, o. split_and!; try done; lia.
  - intros (r & o & [= <-] & Ho & Hr & Hin & Hu & Hg & H1 & H2 & H3 & H4 & H5). exists o.
    rewrite <-!list_elem_of_In. split; [apply elem_of_seqZ; lia|]. apply list_elem_of_omap. exists pod. split; [done|].
    rewrite Ho, Z.eqb_refl. cbn [negb]. rewrite H3, H4, H5.
    destruct (String.eqb_spec (pod_Revision pod) EmptyString); [done|].
    by destruct (String.eqb_spec (pod_Revision pod) (sts_UpdateRevision live)).
Qed.
