(* ===== verification/ScaleDown.v ===== *)
(** The drain of a scale-down (src/internal/controller/scale_down.go): servers the
    spec no longer asks for are cordoned, deallocated and dropped in Neo4j before
    their pods go, and a scale-down set back in time gives the cordoned ones
    back. Neo4j is the interface [ScaleDownClient] of the source. The records of
    a drain are annotations of the cluster; the settings and the clock are those
    of the reconciler. *)
From S2P Require Import Prelude GoStrings ClusterTypes GoRFC3339 Conditions UpgradeRules UpgradeRecord World ServerIdentity Availability.

Open Scope Z_scope.

(** * The client *)

(** [scaleDownClient]: what the drain asks Neo4j. A call changes its state and
    returns an error, [None] for nil; [Connect] is scaleDownClientFor. *)
Class ScaleDownClient (S : Type) := {
  Connect : S -> option string * S;
  ListServersFromLeader : S -> result (list ServerInfo) * S;
  MinimumSystemPrimaries : S -> Z * S;
  CordonServer : string -> S -> option string * S;
  EnableServer : string -> S -> option string * S;
  DeallocateServers : list string -> bool -> S -> option string * S;
  DropServer : string -> S -> option string * S
}.

(** * The records *)

Definition ScaleDownDrainingServersAnnotation : string := "neo4j.com/scale-down-draining-servers".
Definition ScaleDownCordonedServersAnnotation : string := "neo4j.com/scale-down-cordoned-servers".
Definition ScaleDownHeldPodsAnnotation : string := "neo4j.com/scale-down-held-pods".
Definition ScaleDownCordonedAtAnnotation : string := "neo4j.com/scale-down-cordoned-at".

(** An annotation, empty when absent. *)
Definition annotation (owner : Cluster) (key : string) : string :=
  default EmptyString (cl_Annotations owner !! key).

Definition scaleDownDrainInProgress (owner : Cluster) : bool :=
  negb (String.eqb (strings.TrimSpace (annotation owner ScaleDownDrainingServersAnnotation)) EmptyString)
  || negb (String.eqb (strings.TrimSpace (annotation owner ScaleDownHeldPodsAnnotation)) EmptyString).

Definition annotationIDs (owner : Cluster) (key : string) : list string :=
  List.filter (fun p => negb (String.eqb p EmptyString))
    (map strings.TrimSpace (strings.Split (annotation owner key) ",")).

Definition drainServerIDsFromAnnotation (owner : Cluster) : list string :=
  annotationIDs owner ScaleDownDrainingServersAnnotation.

Definition cordonedByDrain (owner : Cluster) : list string :=
  annotationIDs owner ScaleDownCordonedServersAnnotation.

(** * Which servers the scale-down removes *)

Definition initialRemovedServerIDs (servers : list ServerInfo) (clusterName : string) (desired : Z)
  : list string :=
  omap (fun s =>
    if stateIs s "dropped" then None
    else match serverOrdinal s clusterName with
         | Some ord => if desired <=? ord then Some (serverIdentifier s) else None
         | None => None
         end) servers.

(** The servers no address or name tells the ordinal of, or why the drain
    cannot tell. *)
Definition unidentifiedRemovedServerIDs (servers : list ServerInfo) (clusterName : string) (desired : Z)
  : list string * string :=
  let present := List.filter (fun s => negb (stateIs s "dropped")) servers in
  let unknown := omap (fun s => match serverOrdinal s clusterName with
                                | Some _ => None
                                | None => Some (serverIdentifier s)
                                end) present in
  let kept := omap (fun s => match serverOrdinal s clusterName with
                             | Some ord => if ord <? desired then Some ord else None
                             | None => None
                             end) present in
  match unknown with
  | [] => ([], EmptyString)
  | _ =>
      let unknown := sort.Strings unknown in
      let missing := map (podName clusterName)
                       (List.filter (fun ord => negb (bool_decide (ord ∈ kept))) (seqZ 0 desired)) in
      match missing with
      | [] => (unknown, EmptyString)
      | _ => ([], "SHOW SERVERS lists " +:+ strings.Join unknown ", "
                  +:+ " with no address this operator knows, and no server reports being "
                  +:+ strings.Join missing ", "
                  +:+ ": the drain waits until it can tell which servers the scale-down removes")
      end
  end.

(** * The next step *)

Inductive scaleDownPhase :=
| scaleDownNone
| scaleDownCordon
| scaleDownDeallocate
| scaleDownWaitDeallocating
| scaleDownDrop.

Record scaleDownStep := mkScaleDownStep { sd_phase : scaleDownPhase; sd_serverIDs : list string }.

Definition hostsOnlySystem (s : ServerInfo) : bool :=
  forallb (fun h => strings.EqualFold h "system") (si_Hosting s).

(** Which of the four lists of [planScaleDownStep] a server goes to. *)
Definition drainStage (s : ServerInfo) : scaleDownPhase :=
  let state := strings.ToLower (si_State s) in
  if String.eqb state "cordoned" then scaleDownDeallocate
  else if String.eqb state "deallocating" || String.eqb state "deallocated" then
    if hostsOnlySystem s then scaleDownDrop else scaleDownWaitDeallocating
  else scaleDownCordon.

#[global] Instance scaleDownPhase_eq_dec : EqDecision scaleDownPhase.
Proof. solve_decision. Defined.

Definition atStage (p : scaleDownPhase) (active : list ServerInfo) : list string :=
  map serverIdentifier (List.filter (fun s => bool_decide (drainStage s = p)) active).

Definition planScaleDownStep (active : list ServerInfo) : scaleDownStep :=
  let toCordon := atStage scaleDownCordon active in
  let toDeallocate := atStage scaleDownDeallocate active in
  let waiting := atStage scaleDownWaitDeallocating active in
  let toDrop := atStage scaleDownDrop active in
  match active with
  | [] => mkScaleDownStep scaleDownNone []
  | _ =>
      if (0 <? length toCordon)%nat then mkScaleDownStep scaleDownCordon toCordon
      else if (0 <? length toDeallocate)%nat then mkScaleDownStep scaleDownDeallocate toDeallocate
      else if (0 <? length toDrop)%nat then mkScaleDownStep scaleDownDrop toDrop
      else if (0 <? length waiting)%nat then mkScaleDownStep scaleDownWaitDeallocating waiting
      else mkScaleDownStep scaleDownNone []
  end.

(** * Refusals *)

Definition drainAlreadyUnderway (err : string) : bool :=
  let msg := strings.ToLower err in
  existsb (strings.Contains msg) ["is already deallocating"; "is already deallocated"; "is already dropped"].

Definition newline : ascii := "010".

Definition reSpace (c : ascii) : bool := strings.byteIn c (String "009" (String "010" (String "012" (String "013" " ")))).

(** The lazy group of onlyOnePrimaryRefusal: up to the first '.' that white
    space, ')' or the end of the text follows; not over a line end. *)
Fixpoint upToStop (s : string) : option string :=
  match s with
  | EmptyString => None
  | String c s' =>
      if Ascii.eqb c "." &&
         match s' with EmptyString => true | String d _ => reSpace d || Ascii.eqb d ")" end
      then Some EmptyString
      else if Ascii.eqb c newline then None
      else match upToStop s' with Some w => Some (String c w) | None => None end
  end.

(** The first match of onlyOnePrimaryRefusal: its group. *)
Fixpoint onlyOnePrimaryRefusal (s : string) : option string :=
  let here := match strings.CutPrefix s "only one primary: " with
              | Some rest => upToStop rest
              | None => None
              end in
  match here with
  | Some m => Some m
  | None => match s with EmptyString => None | String _ s' => onlyOnePrimaryRefusal s' end
  end.

(** A run of decimal digits, at least one. *)
Definition digitRun (s : string) : option (string * string) :=
  let ds := leadingDigits s in
  if String.eqb ds EmptyString then None else Some (ds, strings.from (String.length ds) s).

(** A match of requiredTopologyRefusal at the start of [s]: database,
    primaries, secondaries, and what follows. *)
Definition topologyAt (s : string) : option (string * string * string * string) :=
  match strings.CutPrefix s "Required topology for '" with
  | None => None
  | Some r =>
      match strings.Index r "'" with
      | None => None
      | Some i =>
          match strings.CutPrefix (strings.from i r) "' is " with
          | None => None
          | Some r2 =>
              match digitRun r2 with
              | None => None
              | Some (p, r3) =>
                  match strings.CutPrefix r3 " primaries and " with
                  | None => None
                  | Some r4 =>
                      match digitRun r4 with
                      | None => None
                      | Some (q, r5) =>
                          match strings.CutPrefix r5 " secondaries" with
                          | None => None
                          | Some rest => Some (strings.upto i r, p, q, rest)
                          end
                      end
                  end
              end
          end
      end
  end.

(** All matches, left to right; each match and each step consumes text, so the
    length of the text is fuel enough. *)
Fixpoint requiredTopologyRefusal (fuel : nat) (s : string) : list (string * string * string) :=
  match fuel with
  | O => []
  | S fuel' =>
      match topologyAt s with
      | Some (db, p, q, rest) => (db, p, q) :: requiredTopologyRefusal fuel' rest
      | None => match s with EmptyString => [] | String _ s' => requiredTopologyRefusal fuel' s' end
      end
  end.

(** A sum of two int64. *)
Definition wrap64 (z : Z) : Z := (z + 2 ^ 63) mod 2 ^ 64 - 2 ^ 63.

(** "…", three bytes in UTF-8. *)
Definition ellipsis : string := String "226" (String "128" (String "166" EmptyString)).

Definition deallocateRefusal (desired : Z) (text : string) (cordoned : bool) : string :=
  let onePrimary :=
    match onlyOnePrimaryRefusal text with
    | None => []
    | Some m =>
        let dbs := strings.Trim (strings.TrimSpace m) "[]" in
        let example := strings.TrimSpace (strings.cutBefore dbs ",") in
        let example := if String.eqb example EmptyString then "<database>" else example in
        ["Neo4j cannot move a database's only primary, and " +:+ dbs
         +:+ " has one on a server the scale-down removes: give it a second primary first (ALTER DATABASE "
         +:+ example +:+ " SET TOPOLOGY 2 PRIMARIES), or keep the servers."]
    end in
  let topology :=
    map (fun '(db, p, q) =>
      let primaries := (strconv.AtoiValue p).1 in
      let secondaries := (strconv.AtoiValue q).1 in
      "Database '" +:+ db +:+ "' needs " +:+ strconv.Itoa primaries +:+ " primaries and "
      +:+ strconv.Itoa secondaries
      +:+ " secondaries, each on a server of its own, and the servers the scale-down leaves cannot host them: lower its topology (ALTER DATABASE "
      +:+ db +:+ " SET TOPOLOGY " +:+ ellipsis +:+ "), or keep enough servers for it (at least "
      +:+ strconv.Itoa (wrap64 (primaries + secondaries)) +:+ ").")
      (requiredTopologyRefusal (String.length text) text) in
  let advice :=
    match onePrimary ++ topology with
    | [] => ["Either a database needs more servers than the scale-down leaves (lower its topology with ALTER DATABASE "
             +:+ ellipsis
             +:+ " SET TOPOLOGY, or keep more servers), or a database has its only primary on a server the scale-down removes (give it a second primary first). Neo4j also refuses while a database on these servers is offline, or while a quorum of a database's primaries is cordoned."]
    | l => l
    end in
  let held := if cordoned then "Replicas are held until this is resolvable."
              else "No server has been cordoned; replicas are held until this is resolvable." in
  "Scale-down to " +:+ strconv.Itoa desired +:+ " server(s) is blocked: DEALLOCATE dry-run failed: "
  +:+ text +:+ ". " +:+ strings.Join advice " "
  +:+ " The operator never changes a database's topology itself. " +:+ held.

(** * The settle after a cordon *)

Definition cordonedAt (cluster : Cluster) : option Z :=
  let raw := strings.TrimSpace (annotation cluster ScaleDownCordonedAtAnnotation) in
  match gotime.Parse raw with
  | None => None
  | Some at_ => Some (if strings.Contains raw "." then at_ else at_ + second)
  end.

Definition settleShown (from : Z) : string :=
  let t := from / second * second in
  gotime.FormatRFC3339 (if t =? from then from else t + second).

Definition settleMessage (desired draining from : Z) : string :=
  "Scale-down to " +:+ strconv.Itoa desired +:+ " server(s) in progress: cordoned " +:+ strconv.Itoa draining
  +:+ " server(s); their databases are deallocated from " +:+ settleShown from
  +:+ " unless spec.topology.servers is raised again before then".

(** When the drain may deallocate, and how long that is from now; no time for
    Go's zero one. [settle] is the reconciler's ScaleDownSettle. *)
Definition cordonSettle (settle now : Z) (cluster : Cluster) (ids : list string) : option Z * Z :=
  if settle <=? 0 then (None, 0)
  else
    let recorded := cordonedByDrain cluster in
    let ours := existsb (fun id => bool_decide (id ∈ recorded)) ids in
    match cordonedAt cluster with
    | Some at_ =>
        if negb ours then (None, 0)
        else
          let from := at_ + settle in
          let left := from - now in
          (Some from, if 0 <? left then left else 0)
    | None => (None, 0)
    end.

(** * The servers of a drain *)

Definition provisionalDrainHoldNames (clusterName : string) (current desired : Z) : list string :=
  map (podName clusterName) (seqZ desired (current - desired)).

Definition scaleDownDrainCompleteMessage : string := "Scale-down drain complete".
Definition scaleDownNotInProgressMessage : string := "Scale-down not in progress".

Definition serverPastUndoing (s : ServerInfo) : bool :=
  let state := strings.ToLower (si_State s) in
  String.eqb state "deallocating" || String.eqb state "deallocated" || String.eqb state "dropped".

(** The first row that reports each pod's address. *)
Definition reportedOrdinals (reported : list ServerInfo) (clusterName : string) : gmap Z string :=
  fold_left (fun owners s =>
    match parseServerOrdinal (si_Address s) clusterName with
    | Some ord => match owners !! ord with
                  | Some _ => owners
                  | None => <[ord := serverIdentifier s]> owners
                  end
    | None => owners
    end) reported ∅.

Definition runsInOrdinal (owners : gmap Z string) (ord : Z) (id : string) : bool :=
  match owners !! ord with Some owner => String.eqb owner id | None => true end.

Definition keptByTheSpec (s : ServerInfo) (owners : gmap Z string) (clusterName : string) (desired : Z) : bool :=
  match serverOrdinal s clusterName with
  | Some ord => (ord <? desired) && runsInOrdinal owners ord (serverIdentifier s)
  | None => false
  end.

Definition drainTouched (cluster : Cluster) : gset string :=
  list_to_set (drainServerIDsFromAnnotation cluster) ∪ list_to_set (cordonedByDrain cluster).

Definition serversPastUndoing (servers reported : list ServerInfo) (clusterName : string) (keptBelow : Z)
    (touched : gset string) (allKept : bool) : list ServerInfo :=
  let owners := reportedOrdinals reported clusterName in
  List.filter (fun s =>
    let id := serverIdentifier s in
    if negb (serverPastUndoing s) || negb (bool_decide (id ∈ touched)) then false
    else match serverOrdinal s clusterName with
         | Some ord => (ord <? keptBelow) && runsInOrdinal owners ord id
         | None => allKept
         end) servers.

Definition setBackRefusal (past : list ServerInfo) (clusterName : string) (replicas : Z) : string :=
  let names := sort.Strings (map (fun s => serverLabel s clusterName) past) in
  let lowest := fold_left lowestOrdinal (map (fun s => serverOrdinal s clusterName) past) (-1) in
  let advice :=
    if 0 <=? lowest
    then "Set spec.topology.servers to " +:+ strconv.Itoa lowest
         +:+ " so the drain can finish them, then raise it to add new servers in their place."
    else "Lower spec.topology.servers again so the drain can finish them, then raise it to add new servers in their place." in
  "Scale-down set back too late for " +:+ strings.Join names ", "
  +:+ ": the drain has begun deallocating them, and Neo4j cannot enable a server again once it deallocates, nor can a dropped server rejoin. "
  +:+ advice +:+ " Replicas are held at " +:+ strconv.Itoa replicas +:+ ".".

Definition unionIDs (a b : list string) : list string := sort.Strings (remove_dups (a ++ b)).

(** Rows by identifier; a later row replaces an earlier one. *)
Definition byID (servers : list ServerInfo) : gmap string ServerInfo :=
  fold_left (fun m s => <[serverIdentifier s := s]> m) servers ∅.

(** * Writing the records *)

(** One annotation of the drain: an empty value removes it. *)
Definition setAnnotation (m : gmap string string) (kv : string * string) : gmap string string :=
  let '(key, val) := kv in
  if String.eqb val EmptyString then delete key m else <[key := val]> m.

Definition setAnnotations (values : list (string * string)) (c : Cluster) : Cluster :=
  set_cl_Annotations (fold_left setAnnotation values (cl_Annotations c)) c.

Definition drainDeferralKey (cluster : Cluster) : string := clusterKey cluster +:+ "#drain".

Section Drain.
Context {S : Type} `{!ScaleDownClient S}.

(** The reconciler's ScaleDownSettle. *)
Variable settle : Z.

Definition setDrainAnnotations (values : list (string * string)) : W S (option string) :=
  cluster ← cluster_;
  if negb (existsb (fun '(key, val) => negb (String.eqb (annotation cluster key) val)) values)
  then mret None
  else
    modify (fun w => set_w_cluster (setAnnotations values (w_cluster w)) w) ;;
    r ← retryOnConflict DefaultRetry (fun latest => (Some (setAnnotations values latest), tt)) keepCopy keepCopy;
    mret (match r with Ok _ => None | Err e => Some e end).

Definition setDrainServers (ids : list string) : W S (option string) :=
  (match ids with
   | [] => modify (fun w => set_w_deferred (delete (drainDeferralKey (w_cluster w)) (w_deferred w)) w)
   | _ => mret tt
   end) ;;
  setDrainAnnotations [(ScaleDownDrainingServersAnnotation, strings.Join ids ",");
                       (ScaleDownHeldPodsAnnotation, EmptyString)].

Definition holdPods (pods : list string) : W S (option string) :=
  setDrainAnnotations [(ScaleDownHeldPodsAnnotation, strings.Join pods ",");
                       (ScaleDownDrainingServersAnnotation, EmptyString)].

Definition clearDrainRecords : W S (option string) :=
  e ← setDrainAnnotations [(ScaleDownCordonedServersAnnotation, EmptyString);
                           (ScaleDownCordonedAtAnnotation, EmptyString)];
  match e with Some e => mret (Some e) | None => setDrainServers [] end.

Definition ConditionReasonServersPendingDrain : string := "ServersPendingDrain".
Definition ConditionReasonScaleDownBlocked : string := "ScaleDownBlocked".
Definition ConditionReasonNoServersPendingDrain : string := "NoServersPendingDrain".

Definition setScaleDownConditionPersisted (status reason message : string) : W S bool :=
  now ← now_;
  r ← retryOnConflict DefaultRetry (fun latest =>
        let conds := cs_Conditions (cl_Status latest) in
        let changed :=
          match findCondition conds ConditionTypeServersPendingDrain with
          | Some before => negb (String.eqb (c_Status before) status) || negb (String.eqb (c_Reason before) reason)
                           || negb (String.eqb (c_Message before) message)
          | None => true
          end in
        let '(conds, _) := SetNamedCondition now conds ConditionTypeServersPendingDrain
                             (cl_Generation latest) status reason message in
        (Some (setConditions latest conds), changed)) keepCopy keepCopy;
  mret (match r with Ok changed => changed | Err _ => false end).

Definition settleScaleDownCondition (message : string) : W S unit :=
  now ← now_;
  retryOnConflict DefaultRetry (fun latest =>
      let conds := cs_Conditions (cl_Status latest) in
      if negb (conditionTrue conds ConditionTypeServersPendingDrain) then (None, tt)
      else
        let '(conds, _) := SetNamedCondition now conds ConditionTypeServersPendingDrain
                             (cl_Generation latest) ConditionFalse ConditionReasonNoServersPendingDrain message in
        (Some (setConditions latest conds), tt))
    keepCopy (fun latest copy => setConditions copy (cs_Conditions (cl_Status latest))) ;;
  mret tt.

Definition blockScaleDown (msg : string) : W S unit :=
  changed ← setScaleDownConditionPersisted ConditionTrue ConditionReasonScaleDownBlocked msg;
  if (changed : bool) then event "ScaleDownBlocked" msg else mret tt.

(** * Statements to Neo4j *)

(** Send a statement: it is logged, and changes Neo4j. *)
Definition send {A} (stmt : statement) (call : S -> A * S) : W S A := fun w =>
  let '(r, n) := call (w_neo4j w) in
  (r, set_w_stmts (stmt :: w_stmts w) (set_w_neo4j n w)).

Definition ask {A} (call : S -> A * S) : W S A := fun w =>
  let '(r, n) := call (w_neo4j w) in (r, set_w_neo4j n w).

Definition wake (left : Z) : W S unit :=
  modify (fun w => set_w_wakes ((clusterKey (w_cluster w), left) :: w_wakes w) w).

(** ENABLE SERVER for each of [ids] the record lists and SHOW SERVERS lists
    Cordoned, until one fails; the labels of those enabled. *)
Fixpoint enableServers (record : list string) (rows : gmap string ServerInfo) (clusterName : string)
    (ids : list string) (enabled : list string) : W S (result (list string)) :=
  match ids with
  | [] => mret (Ok enabled)
  | id :: rest =>
      match rows !! id with
      | Some s =>
          if bool_decide (id ∈ record) && stateIs s "cordoned" then
            e ← send (EnableStmt id) (EnableServer id);
            match e with
            | Some e => mret (Err e)
            | None => enableServers record rows clusterName rest (enabled ++ [serverLabel s clusterName])
            end
          else enableServers record rows clusterName rest enabled
      | None => enableServers record rows clusterName rest enabled
      end
  end.

Definition giveBackCordoned (servers : list ServerInfo) (ids : list string) : W S (option string) :=
  cluster ← cluster_;
  let record := cordonedByDrain cluster in
  r ← enableServers record (byID servers) (cl_Name cluster) (sort.Strings ids) [];
  match r with
  | Err e => mret (Some e)
  | Ok enabled =>
      let remaining := List.filter (fun id => negb (bool_decide (id ∈ ids))) record in
      e ← setDrainAnnotations
            ((ScaleDownCordonedServersAnnotation, strings.Join remaining ",")
             :: (if (length remaining =? 0)%nat then [(ScaleDownCordonedAtAnnotation, EmptyString)] else []));
      match e with
      | Some e => mret (Some e)
      | None =>
          (if (0 <? length enabled)%nat
           then event "ScaleDownSetBack" ("Scale-down set back: enabled "
                  +:+ strconv.Itoa (Z.of_nat (length enabled))
                  +:+ " server(s) the drain had cordoned: " +:+ strings.Join enabled ", ")
           else mret tt) ;;
          mret None
      end
  end.

(** * A scale-down set back *)

Definition setBackScaleDown (current : Z) : W S (option string) :=
  cluster ← cluster_;
  if (length (drainServerIDsFromAnnotation cluster) =? 0)%nat && (length (cordonedByDrain cluster) =? 0)%nat
  then
    settleScaleDownCondition scaleDownNotInProgressMessage ;;
    setDrainAnnotations [(ScaleDownHeldPodsAnnotation, EmptyString)]
  else
    e ← ask Connect;
    match e with
    | Some _ => mret None
    | None =>
        reported ← ask ListServersFromLeader;
        match reported with
        | Err _ => mret None
        | Ok reported =>
            servers ← withKnownAddresses cluster (Some reported);
            let servers := default [] servers in
            match serversPastUndoing servers reported (cl_Name cluster) current (drainTouched cluster) true with
            | (_ :: _) as past =>
                blockScaleDown (setBackRefusal past (cl_Name cluster) current) ;; mret None
            | [] =>
                e ← giveBackCordoned servers (cordonedByDrain cluster);
                match e with
                | Some _ => mret None
                | None => settleScaleDownCondition scaleDownNotInProgressMessage ;; clearDrainRecords
                end
            end
        end
    end.

(** * The drain *)

(** A server on the record: still live, it stays in the set, unless the spec
    keeps it now. *)
Definition recordedServer (live : gmap string ServerInfo) (owners : gmap Z string) (clusterName : string)
    (desired : Z) (acc : gset string * list string) (id : string) : gset string * list string :=
  let '(idSet, keep) := acc in
  match live !! id with
  | None => (idSet, keep)
  | Some s =>
      if stateIs s "dropped" then (idSet, keep)
      else if keptByTheSpec s owners clusterName desired then (idSet, keep ++ [id])
      else ({[id]} ∪ idSet, keep)
  end.

(** The drain set: the servers the scale-down removes, and those on record
    still live that the spec does not keep; with the ones it now keeps. *)
Definition drainSet (cluster : Cluster) (servers reported : list ServerInfo) (desired : Z)
    (unidentified : list string) : gset string * list string :=
  let start : gset string :=
    list_to_set (initialRemovedServerIDs servers (cl_Name cluster) desired) ∪ list_to_set unidentified in
  fold_left (recordedServer (byID servers) (reportedOrdinals reported (cl_Name cluster)) (cl_Name cluster) desired)
    (drainServerIDsFromAnnotation cluster) (start, []).

(** The servers of the set Neo4j still lists, not dropped, in the order of
    their ids. *)
Definition activeServers (ids : list string) (live : gmap string ServerInfo) : list ServerInfo :=
  omap (fun id => match live !! id with
                  | Some s => if stateIs s "dropped" then None else Some s
                  | None => None
                  end) ids.

Definition deallocationBegun (s : ServerInfo) : bool :=
  let st := strings.ToLower (si_State s) in
  String.eqb st "deallocating" || String.eqb st "deallocated".

Definition serverCount (l : list string) : string := strconv.Itoa (Z.of_nat (length l)).

(** CORDON each id, until one fails. *)
Fixpoint cordonServers (ids : list string) : W S bool :=
  match ids with
  | [] => mret true
  | id :: rest =>
      e ← send (CordonStmt id) (CordonServer id);
      match e with Some _ => mret false | None => cordonServers rest end
  end.

(** DROP each id; a server dropped already is progress, another refusal
    blocks: its id and error. *)
Fixpoint dropServers (ids : list string) : W S (option (string * string)) :=
  match ids with
  | [] => mret None
  | id :: rest =>
      e ← send (DropStmt id) (DropServer id);
      match e with
      | Some e => if drainAlreadyUnderway e then dropServers rest else mret (Some (id, e))
      | None => dropServers rest
      end
  end.

Definition pendingCondition (message : string) : W S (option string) :=
  setScaleDownConditionPersisted ConditionTrue ConditionReasonServersPendingDrain message ;; mret None.

(** The step [planScaleDownStep] chose. *)
Definition drainStep (desired : Z) (active : list ServerInfo) (step : scaleDownStep) : W S (option string) :=
  let ids := sd_serverIDs step in
  let n := Z.of_nat (length active) in
  let progress := "Scale-down to " +:+ strconv.Itoa desired +:+ " server(s) in progress: draining "
                  +:+ strconv.Itoa n +:+ " server(s)" in
  match sd_phase step with
  | scaleDownCordon =>
      now ← now_;
      cluster ← cluster_;
      e ← setDrainAnnotations
            [(ScaleDownCordonedServersAnnotation, strings.Join (unionIDs (cordonedByDrain cluster) ids) ",");
             (ScaleDownCordonedAtAnnotation, gotime.FormatNano now)];
      match e with
      | Some e => mret (Some e)
      | None =>
          ok ← cordonServers ids;
          if negb ok then mret None
          else
            event "ScaleDownDraining" ("Scale-down: cordoned " +:+ serverCount ids +:+ " server(s): "
                                       +:+ strings.Join ids ", ") ;;
            cluster ← cluster_;
            match cordonSettle settle now cluster ids with
            | (Some from, remaining) =>
                if 0 <? remaining then wake remaining ;; pendingCondition (settleMessage desired n from)
                else pendingCondition progress
            | (None, _) => pendingCondition progress
            end
      end
  | scaleDownDeallocate =>
      now ← now_;
      cluster ← cluster_;
      let '(from, remaining) := cordonSettle settle now cluster ids in
      if 0 <? remaining then wake remaining ;; pendingCondition (settleMessage desired n (default 0 from))
      else
        e ← send (DeallocateStmt ids true) (DeallocateServers ids true);
        match e with
        | Some e =>
            if drainAlreadyUnderway e then mret None
            else blockScaleDown (deallocateRefusal desired e true) ;; mret None
        | None =>
            e ← send (DeallocateStmt ids false) (DeallocateServers ids false);
            match e with
            | Some _ => mret None
            | None =>
                event "ScaleDownDraining" ("Scale-down: deallocating databases from " +:+ serverCount ids
                                           +:+ " server(s): " +:+ strings.Join ids ", ") ;;
                pendingCondition progress
            end
        end
  | scaleDownDrop =>
      e ← dropServers ids;
      match e with
      | Some (id, e) =>
          blockScaleDown ("Scale-down to " +:+ strconv.Itoa desired
            +:+ " server(s) is blocked: DROP SERVER " +:+ id +:+ " failed: " +:+ e
            +:+ ". This usually means the drop would take the system database below its minimum voting members. Keep at least the system minimum number of servers. Replicas are held.") ;;
          mret None
      | None =>
          event "ScaleDownDraining" ("Scale-down: dropped " +:+ serverCount ids
                                     +:+ " drained server(s): " +:+ strings.Join ids ", ") ;;
          pendingCondition progress
      end
  | scaleDownWaitDeallocating | scaleDownNone => pendingCondition progress
  end.

(** The checks before any server is touched, then the step. *)
Definition drainActive (desired current : Z) (active : list ServerInfo) : W S (option string) :=
  minPrimaries ← ask MinimumSystemPrimaries;
  if desired <? minPrimaries then
    let m := strconv.Itoa minPrimaries in
    blockScaleDown ("Refusing to scale this cluster to " +:+ strconv.Itoa desired
      +:+ " server(s): a Neo4j cluster cannot drop below " +:+ m
      +:+ " servers " +:+ String "226" (String "128" (String "148" EmptyString))
      +:+ " the system database requires at least " +:+ m
      +:+ " voting members (dbms.cluster.minimum_initial_system_primaries_count). Scaling lower would strand servers (a deallocated server can't rejoin). Keep at least "
      +:+ m +:+ " servers, or use Neo4jEnterpriseStandalone for a single node. Replicas held at "
      +:+ strconv.Itoa current +:+ ".") ;;
    mret None
  else
    let step := drainStep desired active (planScaleDownStep active) in
    if existsb deallocationBegun active then step
    else
      let activeIDs := map serverIdentifier active in
      e ← send (DeallocateStmt activeIDs true) (DeallocateServers activeIDs true);
      match e with
      | Some e =>
          if drainAlreadyUnderway e then mret None
          else blockScaleDown (deallocateRefusal desired e false) ;; mret None
      | None => step
      end.

(** The pass once SHOW SERVERS is read. *)
Definition drainReported (desired current : Z) (reported : list ServerInfo) : W S (option string) :=
  cluster ← cluster_;
  servers ← withKnownAddresses cluster (Some reported);
  let servers := default [] servers in
  let '(unidentified, undecided) := unidentifiedRemovedServerIDs servers (cl_Name cluster) desired in
  let live := byID servers in
  match serversPastUndoing servers reported (cl_Name cluster) desired (drainTouched cluster) false with
  | (_ :: _) as past => blockScaleDown (setBackRefusal past (cl_Name cluster) current) ;; mret None
  | [] =>
      let '(idSet, keep) := drainSet cluster servers reported desired unidentified in
      e ← (match keep with [] => mret None | _ => giveBackCordoned servers keep end);
      match e with
      | Some _ => mret None
      | None =>
          let ids := sort.Strings (elements idSet) in
          let active := activeServers ids live in
          if (length ids =? 0)%nat && String.eqb undecided EmptyString then
            settleScaleDownCondition scaleDownDrainCompleteMessage ;;
            clearDrainRecords
          else if (length active =? 0)%nat && negb (String.eqb undecided EmptyString) then
            setScaleDownConditionPersisted ConditionTrue ConditionReasonServersPendingDrain
              ("Scale-down to " +:+ strconv.Itoa desired +:+ " server(s) waits: " +:+ undecided) ;;
            holdPods (provisionalDrainHoldNames (cl_Name cluster) current desired)
          else
            e ← setDrainServers ids;
            match e with
            | Some e => mret (Some e)
            | None => drainActive desired current active
            end
      end
  end.

Definition reconcileScaleDownDrain : W S (option string) :=
  cluster ← cluster_;
  sts ← gets w_stsCached;
  let desired := sp_Servers (cl_Spec cluster) in
  if desired <=? 0 then mret None
  else match sts with
  | Found sts =>
      let current := default 0 (sts_Replicas sts) in
      if current <=? desired then setBackScaleDown current
      else
        e ← (if negb (scaleDownDrainInProgress cluster)
             then holdPods (provisionalDrainHoldNames (cl_Name cluster) current desired)
             else mret None);
        match e with
        | Some e => mret (Some e)
        | None =>
            e ← ask Connect;
            match e with
            | Some _ => mret None
            | None =>
                reported ← ask ListServersFromLeader;
                match reported with
                | Err _ => mret None
                | Ok reported => drainReported desired current reported
                end
            end
        end
  | _ => mret None
  end.

(** * What an upgrade is told meanwhile *)

Definition announceUpgradeDeferredByDrain : W S unit :=
  cluster ← cluster_;
  let target := sp_ImageTag (cl_Spec cluster) in
  previous ← gets (fun w => w_deferred w !! drainDeferralKey cluster);
  modify (fun w => set_w_deferred (<[drainDeferralKey cluster := DrainTarget target]> (w_deferred w)) w) ;;
  match previous with
  | Some (DrainTarget t) =>
      if String.eqb t target then mret tt
      else event "UpgradeDeferred" ("Rolling upgrade to " +:+ target
             +:+ " deferred until the in-progress scale-down drain completes")
  | _ => event "UpgradeDeferred" ("Rolling upgrade to " +:+ target
           +:+ " deferred until the in-progress scale-down drain completes")
  end.

Definition forgetDeferredUpgrades (cluster : Cluster) : W S unit :=
  modify (fun w => set_w_deferred
    (delete (drainDeferralKey cluster) (delete (clusterKey cluster) (w_deferred w))) w).
End Drain.
