(* ===== verification/DrainSafety.v ===== *)
(** What the drain of a scale-down may do: which statements a pass sends to
    Neo4j, when it deallocates, how long the replicas are held, and what a
    set-back gives back. The theorems hold for every client: whatever Neo4j
    answers, and whatever writes fail. *)
From S2P Require Import Prelude GoStrings ClusterTypes GoRFC3339 Conditions UpgradeRules UpgradeRecord World ServerIdentity Availability ScaleDown.

Open Scope Z_scope.

(** * Which statements a handler sends *)

(** A property of what is sent (last statement first) that holds of nothing and
    of one part of a pass after another. *)
Class Trace (Q : list statement -> Prop) : Prop := {
  trace_nil : Q [];
  trace_app l1 l2 : Q l1 -> Q l2 -> Q (l2 ++ l1)
}.

#[export] Instance Forall_trace P : Trace (Forall P).
Proof. split; [done|]. intros l1 l2 H1 H2. by apply Forall_app. Qed.

(** Every real deallocation directly follows a dry run of the same servers. *)
Definition dryRunFirst (l : list statement) : Prop :=
  forall l1 ids l2, l = l1 ++ DeallocateStmt ids false :: l2 ->
  exists l3, l2 = DeallocateStmt ids true :: l3.

#[export] Instance dryRunFirst_trace : Trace dryRunFirst.
Proof.
  split; [by intros [|? ?] ids l2|]. intros a b Ha Hb l1 ids l2 E.
  apply app_eq_inv in E as [(k & -> & E)|(k & -> & E)].
  - destruct k as [|s k]; simpl in E.
    + by apply (Ha [] ids l2).
    + injection E as <- ->. destruct (Hb l1 ids k eq_refl) as [l3 ->]. by exists (l3 ++ a).
  - by eapply Ha.
Qed.

#[export] Instance and_trace Q R `{!Trace Q, !Trace R} : Trace (fun l => Q l /\ R l).
Proof. split; [split; apply trace_nil|]. intros ? ? [? ?] [? ?]. split; by apply trace_app. Qed.

Section Sends.
Context {S : Type}.

(** From [w] to [w'] the statements sent satisfy [Q]. *)
Definition sent (Q : list statement -> Prop) (w w' : World S) : Prop :=
  exists l, w_stmts w' = l ++ w_stmts w /\ Q l.

Lemma sent_refl Q `{!Trace Q} w w' : w_stmts w' = w_stmts w -> sent Q w w'.
Proof. intros H. exists []. split; [done|]. apply trace_nil. Qed.

Lemma sent_trans Q `{!Trace Q} w1 w2 w3 : sent Q w1 w2 -> sent Q w2 w3 -> sent Q w1 w3.
Proof.
  intros (l1 & H1 & F1) (l2 & H2 & F2). exists (l2 ++ l1). rewrite H2, H1, app_assoc. split; [done|].
  by apply trace_app.
Qed.

Lemma sent_impl (Q R : list statement -> Prop) w w' : (forall l, Q l -> R l) -> sent Q w w' -> sent R w w'.
Proof. intros H (l & Hl & Hf). exists l. split; [done|]. by apply H. Qed.

(** A handler whose statements satisfy [Q]. *)
Definition sends {A} (Q : list statement -> Prop) (m : W S A) : Prop := forall w, sent Q w (m w).2.

(** A handler that sends nothing. *)
Definition quiet {A} (m : W S A) : Prop := forall w, w_stmts (m w).2 = w_stmts w.

Lemma quiet_sends {A} Q `{!Trace Q} (m : W S A) : quiet m -> sends Q m.
Proof. intros H w. by apply sent_refl. Qed.

Lemma sends_impl {A} (Q R : list statement -> Prop) (m : W S A) :
  (forall l, Q l -> R l) -> sends Q m -> sends R m.
Proof. intros H Hm w. by eapply sent_impl. Qed.

Lemma quiet_sends_nil {A} (Q : list statement -> Prop) (m : W S A) : Q [] -> quiet m -> sends Q m.
Proof. intros HQ H w. exists []. by rewrite H. Qed.

Lemma sends_bind {A B} Q `{!Trace Q} (m : W S A) (f : A -> W S B) :
  sends Q m -> (forall a, sends Q (f a)) -> sends Q (m ≫= f).
Proof.
  intros Hm Hf w. unfold mbind, W_bind. specialize (Hm w). destruct (m w) as [a w1]. cbn [snd] in Hm.
  apply (sent_trans Q _ w1); [done|apply Hf].
Qed.

Lemma quiet_bind {A B} (m : W S A) (f : A -> W S B) :
  quiet m -> (forall a, quiet (f a)) -> quiet (m ≫= f).
Proof.
  intros Hm Hf w. unfold mbind, W_bind. specialize (Hm w). destruct (m w) as [a w1]. cbn [snd] in Hm.
  rewrite <-Hm. apply Hf.
Qed.

Lemma quiet_ret {A} (a : A) : quiet (mret a : W S A).
Proof. by intros w. Qed.

Lemma quiet_gets {A} (f : World S -> A) : quiet (gets f).
Proof. by intros w. Qed.

Lemma quiet_modify f : (forall w, w_stmts (f w) = w_stmts w) -> quiet (modify f).
Proof. intros H w. apply H. Qed.

Lemma quiet_retry {A} steps (f : Cluster -> option Cluster * A) pre post :
  quiet (retryOnConflict (S := S) steps f pre post).
Proof.
  intros w. pose proof (retryOnConflict_spec steps f pre post w) as H.
  destruct (retryOnConflict steps f pre post w) as [r w']. destruct H as [H _]. apply H.
Qed.

Lemma quiet_addresses c l : quiet (withKnownAddresses (S := S) c l).
Proof. intros w. unfold withKnownAddresses. destruct l as [l|]; [|done]. by destruct (fillAddresses _ l). Qed.
End Sends.

Create HintDb drain discriminated.
#[export] Hint Resolve quiet_ret quiet_gets quiet_retry quiet_addresses : drain.

(** Decompose a handler into its calls. *)
Ltac quiet_step :=
  repeat first
    [ progress intros
    | match goal with |- quiet (_ ≫= _) => apply quiet_bind end
    | apply quiet_ret | apply quiet_gets | apply quiet_retry | apply quiet_addresses
    | apply quiet_modify; [done]
    | match goal with
      | |- quiet (if ?b then _ else _) => destruct b
      | |- quiet (match ?x with _ => _ end) => destruct x
      | |- quiet (let '(_, _) := ?x in _) => destruct x
      end
    | solve [auto with drain] ].

Section DrainSends.
Context {S : Type} `{!ScaleDownClient S}.
Variable settle : Z.

Lemma quiet_event r m : quiet (event (S := S) r m).
Proof. by intros w. Qed.

Lemma quiet_setDrainAnnotations values : quiet (setDrainAnnotations (S := S) values).
Proof. unfold setDrainAnnotations, cluster_. quiet_step. Qed.
Hint Resolve quiet_event quiet_setDrainAnnotations : drain.

Lemma quiet_setDrainServers ids : quiet (setDrainServers (S := S) ids).
Proof. unfold setDrainServers. quiet_step. Qed.

Lemma quiet_holdPods pods : quiet (holdPods (S := S) pods).
Proof. unfold holdPods. quiet_step. Qed.
Hint Resolve quiet_setDrainServers quiet_holdPods : drain.

Lemma quiet_clearDrainRecords : quiet (clearDrainRecords (S := S)).
Proof. unfold clearDrainRecords. quiet_step. Qed.

Lemma quiet_setCondition status reason message :
  quiet (setScaleDownConditionPersisted (S := S) status reason message).
Proof. unfold setScaleDownConditionPersisted, now_. quiet_step. Qed.
Hint Resolve quiet_clearDrainRecords quiet_setCondition : drain.

Lemma quiet_settleCondition message : quiet (settleScaleDownCondition (S := S) message).
Proof. unfold settleScaleDownCondition, now_. quiet_step. Qed.

Lemma quiet_block msg : quiet (blockScaleDown (S := S) msg).
Proof. unfold blockScaleDown. quiet_step. Qed.

Lemma quiet_wake n : quiet (wake (S := S) n).
Proof. by intros w. Qed.

Lemma quiet_pending message : quiet (pendingCondition (S := S) message).
Proof. unfold pendingCondition. quiet_step. Qed.

Lemma quiet_ask {A} (call : S -> A * S) : quiet (ask call).
Proof. intros w. unfold ask. by destruct (call (w_neo4j w)). Qed.

Lemma sends_send {A} (Q : list statement -> Prop) stmt (call : S -> A * S) :
  Q [stmt] -> sends Q (send stmt call).
Proof. intros HQ w. unfold send. destruct (call (w_neo4j w)) as [r n]. by exists [stmt]. Qed.
End DrainSends.

#[export] Hint Resolve quiet_event quiet_setDrainAnnotations quiet_setDrainServers quiet_holdPods
  quiet_clearDrainRecords quiet_setCondition quiet_settleCondition quiet_block quiet_wake quiet_pending
  quiet_ask : drain.

(** Decompose a handler that sends statements; what is left are the
    statements. *)
Ltac sends_step :=
  repeat first
    [ progress intros
    | match goal with
      | |- sends _ (_ ≫= _) => apply sends_bind; [apply _| |]
      | |- sends _ (send _ _) => apply sends_send
      end
    | apply quiet_sends; [apply _|solve [auto with drain]]
    | match goal with
      | |- sends _ (if ?b then _ else _) => destruct b eqn:?
      | |- sends _ (match ?x with _ => _ end) => destruct x eqn:?
      end ].

(** What holds from one world for any reason holds from every world. *)
Ltac as_sends w :=
  revert w; match goal with |- forall w, sent ?Q w (?m w).2 => change (sends Q m) end.

Section Allowed.
Context {S : Type} `{!ScaleDownClient S}.
Variable settle : Z.

Lemma cordonServers_sends Q `{!Trace Q} ids :
  (forall id, id ∈ ids -> Q [CordonStmt id]) -> sends Q (cordonServers (S := S) ids).
Proof.
  induction ids as [|id ids IH]; intros HP; cbn [cordonServers]; sends_step.
  - apply HP. left.
  - apply IH. intros i Hi. apply HP. by right.
Qed.

Lemma dropServers_sends Q `{!Trace Q} ids :
  (forall id, id ∈ ids -> Q [DropStmt id]) -> sends Q (dropServers (S := S) ids).
Proof.
  induction ids as [|id ids IH]; intros HP; cbn [dropServers]; sends_step.
  - apply HP. left.
  - apply IH. intros i Hi. apply HP. by right.
  - apply IH. intros i Hi. apply HP. by right.
Qed.

Lemma enableServers_sends Q `{!Trace Q} record rows name ids enabled :
  (forall id s, id ∈ ids -> rows !! id = Some s -> id ∈ record -> stateIs s "cordoned" = true ->
     Q [EnableStmt id]) ->
  sends Q (enableServers (S := S) record rows name ids enabled).
Proof.
  revert enabled. induction ids as [|id ids IH]; intros enabled HP; cbn [enableServers]; sends_step.
  - breflect. eapply HP; [left|done..].
  - apply IH. intros i s' Hi. apply HP. by right.
  - apply IH. intros i s' Hi. apply HP. by right.
  - apply IH. intros i s' Hi. apply HP. by right.
Qed.

(** A statement for a server of [active] at the stage it is for. *)
Definition stmtFor (active : list ServerInfo) (stmt : statement) : Prop :=
  match stmt with
  | CordonStmt id => exists s, s ∈ active /\ serverIdentifier s = id /\ drainStage s = scaleDownCordon
  | DropStmt id => exists s, s ∈ active /\ serverIdentifier s = id /\ drainStage s = scaleDownDrop
  | DeallocateStmt ids dryRun =>
      forall id, id ∈ ids -> exists s, s ∈ active /\ serverIdentifier s = id /\
        (dryRun = false -> drainStage s = scaleDownDeallocate)
  | EnableStmt _ => False
  end.

Lemma atStage_elem p active id :
  id ∈ atStage p active -> exists s, s ∈ active /\ serverIdentifier s = id /\ drainStage s = p.
Proof.
  unfold atStage. intros (s & -> & Hs)%(list_elem_of_fmap serverIdentifier). exists s.
  apply list_elem_of_In, filter_In in Hs as [Hs Hp]. breflect. by rewrite list_elem_of_In.
Qed.

Lemma plan_ids active :
  let step := planScaleDownStep active in
  forall id, id ∈ sd_serverIDs step -> exists s, s ∈ active /\ serverIdentifier s = id /\
    drainStage s = sd_phase step.
Proof.
  cbv zeta. intros id. unfold planScaleDownStep. destruct active as [|a l]; [by intros []%elem_of_nil|].
  repeat match goal with |- context [if ?b then _ else _] => destruct b end;
    cbn [sd_serverIDs sd_phase]; first [apply atStage_elem | by intros []%elem_of_nil].
Qed.

(** The trace of one step of the drain. *)
Definition stepTrace (active : list ServerInfo) (l : list statement) : Prop :=
  Forall (stmtFor active) l /\ dryRunFirst l.

#[local] Instance stepTrace_trace active : Trace (stepTrace active).
Proof. apply and_trace; apply _. Qed.

Lemma dryRunFirst_single s : (forall ids, s <> DeallocateStmt ids false) -> dryRunFirst [s].
Proof. intros H [|? [|? ?]] ids l2 E; simplify_eq/=. by destruct (H ids). Qed.

(** What follows a statement is judged together with it. *)
Lemma sends_after {A B} (Q : list statement -> Prop) stmt (call : S -> A * S) (f : A -> W S B) :
  (forall a, sends (fun l => Q (l ++ [stmt])) (f a)) -> sends Q (send stmt call ≫= f).
Proof.
  intros Hf w. unfold mbind, W_bind, send. destruct (call (w_neo4j w)) as [a n].
  destruct (Hf a (set_w_stmts (stmt :: w_stmts w) (set_w_neo4j n w))) as (l & Hl & HQ).
  exists (l ++ [stmt]). split; [|done]. by rewrite Hl, <-app_assoc.
Qed.

Lemma plan_stmts active :
  let step := planScaleDownStep active in
  forall id, id ∈ sd_serverIDs step ->
  (sd_phase step = scaleDownCordon -> stmtFor active (CordonStmt id)) /\
  (sd_phase step = scaleDownDrop -> stmtFor active (DropStmt id)) /\
  (sd_phase step = scaleDownDeallocate ->
     forall dry, stmtFor active (DeallocateStmt (sd_serverIDs step) dry)).
Proof.
  cbv zeta. intros id Hid. destruct (plan_ids active id Hid) as (s & Hs & Hi & Hst).
  split_and!; intros Hp; [exists s; split_and!; congruence..|].
  intros dry i Hi'. destruct (plan_ids active i Hi') as (s' & ? & ? & ?). exists s'. split_and!; congruence.
Qed.

Lemma stepTrace_single active stmt :
  stmtFor active stmt -> (forall ids, stmt <> DeallocateStmt ids false) -> stepTrace active [stmt].
Proof. intros H1 H2. split; [by repeat constructor|by apply dryRunFirst_single]. Qed.

Lemma drainStep_sends desired active :
  sends (stepTrace active) (drainStep settle desired active (planScaleDownStep active)).
Proof.
  unfold drainStep. pose proof (plan_stmts active) as Hids. cbv zeta in Hids.
  destruct (sd_phase (planScaleDownStep active)) eqn:Ep; unfold now_, cluster_.
  - sends_step.
  - sends_step. apply cordonServers_sends; [apply _|]. intros id Hid.
    apply stepTrace_single; [by apply Hids|done].
  - apply sends_bind; [apply _|sends_step|]. intros now. apply sends_bind; [apply _|sends_step|]. intros cl.
    destruct (cordonSettle settle now cl _) as [from remaining]. destruct (0 <? remaining); [sends_step|].
    apply sends_after. intros e.
    assert (Hd : forall dry, stmtFor active (DeallocateStmt (sd_serverIDs (planScaleDownStep active)) dry)).
    { intros dry i Hi. by apply (Hids i Hi). }
    assert (H1 : stepTrace active [DeallocateStmt (sd_serverIDs (planScaleDownStep active)) true])
      by by apply stepTrace_single.
    destruct e as [e|]; [apply quiet_sends_nil; [done|quiet_step]|].
    apply sends_after. intros e.
    apply quiet_sends_nil; [|destruct e; quiet_step].
    split; [by repeat constructor|].
    intros [|? [|? [|? ?]]] i l2 E; simplify_eq/=. by exists [].
  - sends_step.
  - sends_step. apply dropServers_sends; [apply _|]. intros id Hid.
    apply stepTrace_single; [by apply Hids|done].
Qed.

(** A server is cordoned only after Neo4j accepted, as a dry run, deallocating
    it, or once a deallocation has begun. *)
Definition cordonAfterDryRun (rows : list ServerInfo) (l : list statement) : Prop :=
  forall l1 id l2, l = l1 ++ CordonStmt id :: l2 ->
  (exists s, s ∈ rows /\ deallocationBegun s = true) \/
  exists ids, DeallocateStmt ids true ∈ l2 /\ id ∈ ids.

#[local] Instance cordonAfterDryRun_trace rows : Trace (cordonAfterDryRun rows).
Proof.
  split; [by intros [|? ?] id l2|]. intros a b Ha Hb l1 id l2 E.
  apply app_eq_inv in E as [(k & -> & E)|(k & -> & E)]; [|by eapply Ha].
  destruct k as [|s k]; simpl in E; [by apply (Ha [] id l2)|].
  injection E as <- ->. destruct (Hb l1 id k eq_refl) as [?|(ids & ? & ?)]; [by left|].
  right. exists ids. split; [|done]. apply elem_of_app. by left.
Qed.

Definition drainTrace (active : list ServerInfo) (l : list statement) : Prop :=
  stepTrace active l /\ cordonAfterDryRun active l.

#[local] Instance drainTrace_trace active : Trace (drainTrace active).
Proof. apply and_trace; apply _. Qed.

Lemma dryRun_drainTrace active l :
  stepTrace active l -> drainTrace active (l ++ [DeallocateStmt (map serverIdentifier active) true]).
Proof.
  intros [Hf Hd].
  assert (Hdry : stmtFor active (DeallocateStmt (map serverIdentifier active) true)).
  { intros id (s & -> & Hs)%(list_elem_of_fmap serverIdentifier). by exists s. }
  split; [split|].
  - apply Forall_app. split; [done|]. by repeat constructor.
  - apply trace_app; [|done]. by apply dryRunFirst_single.
  - intros l1 id l2 E. right. exists (map serverIdentifier active).
    apply app_eq_inv in E as [(k & -> & E)|(k & -> & E)].
    + destruct k as [|x k]; simpl in E; [done|]. injection E as <- ->. split; [apply elem_of_app; right; left|].
      rewrite Forall_app, Forall_cons in Hf. destruct Hf as (_ & (s & Hs & <- & _) & _).
      by apply (list_elem_of_fmap_2 serverIdentifier).
    + by destruct k as [|? [|? ?]].
Qed.

Lemma drainActive_sends desired current active :
  sends (drainTrace active) (drainActive settle desired current active).
Proof.
  unfold drainActive. apply sends_bind; [apply _|sends_step|]. intros m.
  destruct (desired <? m); [sends_step|].
  destruct (existsb deallocationBegun active) eqn:Eb.
  - apply (sends_impl (stepTrace active)); [|apply drainStep_sends]. intros l Hl. split; [done|].
    intros l1 id l2 _. left. apply existsb_exists in Eb as (s & Hs & Hb). exists s. by rewrite list_elem_of_In.
  - apply sends_after. intros e.
    apply (sends_impl (stepTrace active)); [apply dryRun_drainTrace|].
    destruct e as [e|]; [sends_step|apply drainStep_sends].
Qed.
End Allowed.

(** * The rows of a pass *)

Lemma byID_fold_elem rows (m : gmap string ServerInfo) id s :
  fold_left (fun m s => <[serverIdentifier s := s]> m) rows m !! id = Some s ->
  (s ∈ rows /\ serverIdentifier s = id) \/ m !! id = Some s.
Proof.
  revert m. induction rows as [|r rows IH]; intros m; simpl; [by right|].
  intros [[? ?]|H]%IH; [left; split; [by right|done]|].
  apply lookup_insert_Some in H as [[<- <-]|[_ H]]; [left; split; [left|done]|by right].
Qed.

Lemma byID_elem rows id s : byID rows !! id = Some s -> s ∈ rows /\ serverIdentifier s = id.
Proof. intros [?|H]%byID_fold_elem; [done|]. by rewrite lookup_empty in H. Qed.

Lemma byID_unique rows s :
  NoDup (serverIdentifier <$> rows) -> s ∈ rows -> byID rows !! serverIdentifier s = Some s.
Proof.
  intros Hnd Hs.
  assert (Hsome : is_Some (byID rows !! serverIdentifier s)).
  { unfold byID. generalize (∅ : gmap string ServerInfo). clear Hnd.
    induction rows as [|r rows IH]; intros m; [by apply elem_of_nil in Hs|]. simpl.
    apply elem_of_cons in Hs as [->|Hs]; [|by apply IH].
    assert (Hm : is_Some (<[serverIdentifier r := r]> m !! serverIdentifier r)) by (rewrite lookup_insert_eq; eauto).
    revert Hm. generalize (<[serverIdentifier r := r]> m). generalize (serverIdentifier r) as i. clear.
    induction rows as [|x rows IH]; intros i m Hm; simpl; [done|]. apply IH.
    destruct (decide (serverIdentifier x = i)) as [->|Hne]; [rewrite lookup_insert_eq; eauto|by rewrite lookup_insert_ne]. }
  destruct Hsome as [r Hr]. rewrite Hr. f_equal. apply byID_elem in Hr as [Hin Hid].
  apply list_elem_of_lookup in Hin as [i Hi]. apply list_elem_of_lookup in Hs as [j Hj].
  assert (i = j) as ->; [|congruence].
  eapply NoDup_lookup; [exact Hnd| |]; rewrite list_lookup_fmap.
  - by rewrite Hi.
  - rewrite Hj. simpl. by f_equal.
Qed.

(** A server the scale-down to [desired] removes: Neo4j has not dropped it, and
    it is not the server of a pod the spec keeps. *)
Definition removable (reported : list ServerInfo) (clusterName : string) (desired : Z) (s : ServerInfo) : bool :=
  negb (stateIs s "dropped") && negb (keptByTheSpec s (reportedOrdinals reported clusterName) clusterName desired).

Lemma initialRemoved_not_kept rows owners clusterName desired id :
  id ∈ initialRemovedServerIDs rows clusterName desired ->
  exists s, s ∈ rows /\ serverIdentifier s = id /\ stateIs s "dropped" = false /\
    keptByTheSpec s owners clusterName desired = false.
Proof.
  unfold initialRemovedServerIDs. rewrite list_elem_of_omap. intros (s & Hs & Hid). exists s.
  destruct (stateIs s "dropped") eqn:Ed; [done|]. unfold keptByTheSpec.
  destruct (serverOrdinal s clusterName) as [ord|]; [|done].
  destruct (Z.leb_spec desired ord); simplify_eq/=. split_and!; try done.
  apply andb_false_iff. left. apply Z.ltb_ge. lia.
Qed.

Lemma unidentified_not_kept rows owners clusterName desired id :
  id ∈ (unidentifiedRemovedServerIDs rows clusterName desired).1 ->
  exists s, s ∈ rows /\ serverIdentifier s = id /\ stateIs s "dropped" = false /\
    keptByTheSpec s owners clusterName desired = false.
Proof.
  unfold unidentifiedRemovedServerIDs.
  set (unknown := omap _ (List.filter _ rows)).
  assert (Hu : id ∈ unknown -> exists s, s ∈ rows /\ serverIdentifier s = id /\
    stateIs s "dropped" = false /\ keptByTheSpec s owners clusterName desired = false).
  { unfold unknown. rewrite list_elem_of_omap. intros (s & Hs & Hid). exists s.
    apply list_elem_of_In, filter_In in Hs as [Hs Hd]. breflect. unfold keptByTheSpec.
    destruct (serverOrdinal s clusterName); simplify_eq. by rewrite list_elem_of_In. }
  destruct unknown as [|u us]; [by intros []%elem_of_nil|].
  destruct (map _ (List.filter _ (seqZ 0 desired))); cbn [fst]; [|by intros []%elem_of_nil].
  rewrite Strings_elem. apply Hu.
Qed.

(** The drain set holds only removable servers, and the rest it lists are
    servers of pods the spec keeps. *)
Lemma drainSet_spec cluster rows reported desired :
  NoDup (serverIdentifier <$> rows) ->
  let unidentified := (unidentifiedRemovedServerIDs rows (cl_Name cluster) desired).1 in
  let '(idSet, keep) := drainSet cluster rows reported desired unidentified in
  (forall id s, id ∈ idSet -> byID rows !! id = Some s -> stateIs s "dropped" = false ->
     removable reported (cl_Name cluster) desired s = true) /\
  (forall id s, id ∈ keep -> byID rows !! id = Some s ->
     keptByTheSpec s (reportedOrdinals reported (cl_Name cluster)) (cl_Name cluster) desired = true).
Proof.
  intros Hnd. cbv zeta. unfold drainSet.
  set (owners := reportedOrdinals reported (cl_Name cluster)).
  set (start := list_to_set (initialRemovedServerIDs _ _ _) ∪ _ : gset string).
  assert (Hstart : forall id s, id ∈ start -> byID rows !! id = Some s -> stateIs s "dropped" = false ->
    removable reported (cl_Name cluster) desired s = true).
  { intros id s Hid Hs Hd. unfold removable. fold owners. rewrite Hd. apply negb_true_iff.
    assert (exists s', s' ∈ rows /\ serverIdentifier s' = id /\ stateIs s' "dropped" = false /\
      keptByTheSpec s' owners (cl_Name cluster) desired = false) as (s' & Hin & <- & _ & Hk).
    { unfold start in Hid. rewrite elem_of_union, !elem_of_list_to_set in Hid. destruct Hid.
      - by eapply initialRemoved_not_kept.
      - by eapply unidentified_not_kept. }
    rewrite byID_unique in Hs by done. by injection Hs as <-. }
  assert (Hkeep : forall id s, id ∈ ([] : list string) -> byID rows !! id = Some s ->
    keptByTheSpec s owners (cl_Name cluster) desired = true) by by intros ? ? []%elem_of_nil.
  revert Hstart Hkeep. generalize start. clear start.
  generalize (@nil string) as keep.
  induction (drainServerIDsFromAnnotation cluster) as [|id ids IH]; intros keep start Hs Hk; [done|].
  cbn [fold_left]. unfold recordedServer at 2. fold owners.
  destruct (byID rows !! id) as [s|] eqn:El; [|by apply IH].
  destruct (stateIs s "dropped") eqn:Ed; [by apply IH|].
  destruct (keptByTheSpec s owners (cl_Name cluster) desired) eqn:Ek; apply IH; try done.
  - intros i s' Hi Hs'. apply elem_of_app in Hi as [Hi|Hi]; [exact (Hk i s' Hi Hs')|].
    apply list_elem_of_singleton in Hi. congruence.
  - intros i s' Hi Hs' Hd. apply elem_of_union in Hi as [Hi|Hi]; [|exact (Hs i s' Hi Hs' Hd)].
    apply elem_of_singleton in Hi.
    unfold removable. fold owners. replace s' with s by congruence. by rewrite Ed, Ek.
Qed.

Lemma activeServers_elem ids live s :
  s ∈ activeServers ids live -> exists id, id ∈ ids /\ live !! id = Some s /\ stateIs s "dropped" = false.
Proof.
  unfold activeServers. rewrite list_elem_of_omap. intros (id & Hid & Hs). exists id.
  destruct (live !! id) as [r|]; [|done]. by destruct (stateIs r "dropped") eqn:E; simplify_eq.
Qed.

(** * The annotations of the drain *)

Lemma retryOnConflict_copy {S A} steps (f : Cluster -> option Cluster * A) (w : World S) :
  w_cluster (retryOnConflict steps f keepCopy keepCopy w).2 = w_cluster w.
Proof.
  revert w. induction steps as [|n IH]; intros w; [done|]. cbn [retryOnConflict].
  destruct (nextAttempt_cases w) as [rest Hrest]. destruct (nextAttempt w) as [a w1]. simpl in Hrest. subst w1.
  destruct a as [|e|e|seen]; simpl; try done.
  - by destruct (f (w_stored w)) as [[latest|] v].
  - by destruct (f (w_stored w)) as [[latest|] v].
  - destruct (f seen) as [[latest|] v]; simpl; [|done]. by rewrite IH.
Qed.

Lemma setAnnotation_lookup m key val key' :
  default EmptyString (setAnnotation m (key, val) !! key')
  = if decide (key = key') then val else default EmptyString (m !! key').
Proof.
  unfold setAnnotation. destruct (String.eqb_spec val EmptyString) as [->|Hne]; destruct (decide (key = key')) as [->|Hk].
  - by rewrite lookup_delete_eq.
  - by rewrite lookup_delete_ne.
  - by rewrite lookup_insert_eq.
  - by rewrite lookup_insert_ne.
Qed.

Lemma setAnnotations_fold values m key :
  NoDup values.*1 ->
  default EmptyString (fold_left setAnnotation values m !! key)
  = match List.find (fun kv => String.eqb kv.1 key) values with
    | Some kv => kv.2
    | None => default EmptyString (m !! key)
    end.
Proof.
  revert m. induction values as [|[k v] values IH]; intros m Hnd; [done|].
  rewrite fmap_cons in Hnd. apply NoDup_cons in Hnd as [Hn Hnd]. cbn [fold_left List.find fst snd].
  rewrite IH, setAnnotation_lookup by done. destruct (String.eqb_spec k key) as [->|Hne].
  - destruct (List.find _ values) as [[k' v']|] eqn:Ef; [|by rewrite decide_True].
    apply find_some in Ef as [Hin He]. breflect. simpl in *. subst k'. destruct Hn.
    apply list_elem_of_fmap. exists (key, v'). split; [done|]. by apply list_elem_of_In.
  - by rewrite decide_False.
Qed.

(** Writing annotations changes them on the pass's copy, whatever becomes of
    the write, and nothing else of the pass. *)
Lemma setDrainAnnotations_copy {S} values (w : World S) :
  NoDup values.*1 ->
  let w' := (setDrainAnnotations values w).2 in
  sameOutside w w' /\
  w_cluster w' = set_cl_Annotations (cl_Annotations (w_cluster w')) (w_cluster w) /\
  forall key, annotation (w_cluster w') key
    = match List.find (fun kv => String.eqb kv.1 key) values with
      | Some kv => kv.2
      | None => annotation (w_cluster w) key
      end.
Proof.
  intros Hnd. unfold setDrainAnnotations, cluster_, gets, modify. unfold mbind, W_bind, mret, W_ret.
  destruct (existsb _ values) eqn:Ee; cbn [negb].
  - match goal with |- context [retryOnConflict DefaultRetry ?f keepCopy keepCopy ?w1] =>
      pose proof (retryOnConflict_spec DefaultRetry f keepCopy keepCopy w1) as Hr;
      pose proof (retryOnConflict_copy DefaultRetry f w1) as Hk;
      destruct (retryOnConflict DefaultRetry f keepCopy keepCopy w1) as [r w'] end.
    destruct Hr as [Hs _]. cbn [fst snd] in *. split; [etrans; [|exact Hs]; by repeat split|].
    rewrite Hk. split; [done|]. intros key. unfold annotation. simpl. by apply setAnnotations_fold.
  - split; [done|]. split; [by destruct w as [? [] ?]|]. intros key.
    destruct (List.find _ values) as [[k v]|] eqn:Ef; [|done].
    apply find_some in Ef as [Hin He]. breflect. simpl in *. subst key.
    assert (Hf : negb (annotation (w_cluster w) k =? v)%string = false).
    { destruct (negb _) eqn:En; [|done]. rewrite <-Ee. symmetry. apply existsb_exists. by exists (k, v). }
    by breflect.
Qed.

Lemma setAnnotations_other values m key :
  key ∉ values.*1 -> fold_left setAnnotation values m !! key = m !! key.
Proof.
  revert m. induction values as [|[k v] values IH]; intros m Hk; [done|].
  cbn [fold_left]. rewrite fmap_cons, not_elem_of_cons in Hk. destruct Hk as [Hne Hk]. rewrite IH by done.
  unfold setAnnotation. destruct (String.eqb v EmptyString); simpl in Hne.
  - by rewrite lookup_delete_ne.
  - by rewrite lookup_insert_ne.
Qed.

(** On the stored cluster, only the annotations written can change. *)
Lemma setDrainAnnotations_other {S} values (w : World S) key :
  key ∉ values.*1 -> annotation (w_stored (setDrainAnnotations values w).2) key = annotation (w_stored w) key.
Proof.
  intros Hk. unfold setDrainAnnotations, cluster_, gets, modify. unfold mbind, W_bind, mret, W_ret.
  destruct (negb _); [done|].
  match goal with |- context [retryOnConflict DefaultRetry ?f keepCopy keepCopy ?w1] =>
    pose proof (retryOnConflict_spec DefaultRetry f keepCopy keepCopy w1) as Hr;
    destruct (retryOnConflict DefaultRetry f keepCopy keepCopy w1) as [[v|e] w'] end; cbn [snd].
  - destruct Hr as [_ [[-> _]|(latest & [= <- <-] & -> & _)]]; [done|].
    unfold annotation, setAnnotations. cbn [cl_Annotations set_cl_Annotations w_stored set_w_cluster].
    by rewrite setAnnotations_other.
  - by destruct Hr as [_ ->].
Qed.

(** A write that succeeded is stored, if the copy was the stored object's. *)
Lemma setDrainAnnotations_stored {S} values (w : World S) :
  NoDup values.*1 -> (setDrainAnnotations values w).1 = None ->
  (forall kv, kv ∈ values -> annotation (w_stored w) kv.1 = annotation (w_cluster w) kv.1) ->
  forall kv, kv ∈ values -> annotation (w_stored (setDrainAnnotations values w).2) kv.1 = kv.2.
Proof.
  intros Hnd Hok Hsync kv Hkv. revert Hok.
  unfold setDrainAnnotations, cluster_, gets, modify. unfold mbind, W_bind, mret, W_ret.
  destruct (existsb _ values) eqn:Ee; cbn [negb].
  - match goal with |- context [retryOnConflict DefaultRetry ?f keepCopy keepCopy ?w1] =>
      pose proof (retryOnConflict_spec DefaultRetry f keepCopy keepCopy w1) as Hr;
      destruct (retryOnConflict DefaultRetry f keepCopy keepCopy w1) as [[v|e] w'] end; [|done]. intros _. cbn [snd].
    destruct Hr as [_ [[_ [? ?]]|(latest & [= <- <-] & -> & _)]]; [done|].
    unfold annotation, setAnnotations. cbn [cl_Annotations set_cl_Annotations w_stored set_w_cluster].
    rewrite setAnnotations_fold by done. destruct (List.find _ values) as [kv'|] eqn:Ef.
    + apply find_some in Ef as [Hin He]. breflect. apply list_elem_of_In in Hin.
      apply list_elem_of_lookup in Hin as [i Hi]. apply list_elem_of_lookup in Hkv as [j Hj].
      assert (i = j) as ->; [|congruence].
      eapply NoDup_lookup; [exact Hnd| |]; rewrite list_lookup_fmap; [by rewrite Hi|]. rewrite Hj. simpl. by f_equal.
    + eapply find_none in Ef; [|by apply list_elem_of_In]. by autorewrite with go in Ef.
  - intros _. cbn [snd]. rewrite Hsync by done.
    destruct (String.eqb_spec (annotation (w_cluster w) kv.1) kv.2) as [E|Hne]; [done|].
    assert (Hf : existsb (fun '(key, val) => negb (annotation (w_cluster w) key =? val)%string) values = true).
    { apply existsb_exists. exists kv. rewrite <-list_elem_of_In. split; [done|]. destruct kv as [k v]. simpl in *.
      by apply negb_true_iff, String.eqb_neq. }
    congruence.
Qed.

(** * A whole pass *)

(** What a pass may send for the rows [rows]: statements that remove for
    removable servers at the stage each is for, ENABLE for servers on the
    record of the drain that Neo4j lists Cordoned and the spec keeps. *)
Definition allowedStmt (record : list string) (rows reported : list ServerInfo) (clusterName : string)
    (desired : Z) (stmt : statement) : Prop :=
  match stmt with
  | EnableStmt id =>
      id ∈ record /\ exists s, s ∈ rows /\ serverIdentifier s = id /\ stateIs s "cordoned" = true /\
        keptByTheSpec s (reportedOrdinals reported clusterName) clusterName desired = true
  | _ => stmtFor (List.filter (removable reported clusterName desired) rows) stmt
  end.

Definition passTrace (record : list string) (rows reported : list ServerInfo) (clusterName : string)
    (desired : Z) (l : list statement) : Prop :=
  (Forall (allowedStmt record rows reported clusterName desired) l /\ dryRunFirst l) /\ cordonAfterDryRun rows l.

#[export] Instance passTrace_trace record rows reported clusterName desired :
  Trace (passTrace record rows reported clusterName desired).
Proof. apply and_trace; [apply and_trace; apply _|]. apply cordonAfterDryRun_trace. Qed.

Lemma stmtFor_mono active rows stmt :
  (forall s, s ∈ active -> s ∈ rows) -> stmtFor active stmt -> stmtFor rows stmt.
Proof.
  intros Hsub. destruct stmt; simpl.
  - intros (s & ? & ?). exists s. naive_solver.
  - done.
  - intros H id Hid. destruct (H id Hid) as (s & ? & ?). exists s. naive_solver.
  - intros (s & ? & ?). exists s. naive_solver.
Qed.

Section Pass.
Context {S : Type} `{!ScaleDownClient S}.
Variable settle : Z.

Lemma giveBackCordoned_sends Q `{!Trace Q} servers ids (w : World S) :
  (forall id s, id ∈ ids -> byID servers !! id = Some s -> id ∈ cordonedByDrain (w_cluster w) ->
     stateIs s "cordoned" = true -> Q [EnableStmt id]) ->
  sent Q w (giveBackCordoned servers ids w).2.
Proof.
  intros HQ. unfold giveBackCordoned, cluster_. rewrite bind_gets. revert HQ. generalize (w_cluster w) as c. intros c HQ.
  apply sends_bind; [apply _| |].
  - apply enableServers_sends; [apply _|]. intros id s Hid. rewrite Strings_elem in Hid. by apply HQ.
  - intros [enabled|e]; apply quiet_sends; try apply _; quiet_step.
Qed.

(** A relation a pass establishes, given that its parts before the drain's step
    send what [Q] allows. *)
Class Passes (Q : list statement -> Prop) (R : World S -> World S -> Prop) : Prop := {
  passes_nothing (w w' : World S) : w_stmts w' = w_stmts w -> sent Q w w';
  passes_quiet (w w' : World S) : w_stmts w' = w_stmts w -> R w w';
  passes_trans (w w1 w' : World S) : sent Q w w1 -> R w1 w' -> R w w'
}.

Arguments passes_nothing Q R {_} _ _ _.
Arguments passes_quiet Q R {_} _ _ _.
Arguments passes_trans Q R {_} _ _ _ _ _.

#[export] Instance sent_passes Q `{!Trace Q} : Passes Q (sent Q).
Proof. split; [apply sent_refl, _|apply sent_refl, _|apply sent_trans, _]. Qed.

Lemma passes_skip Q R `{!Passes Q R} w w1 w' : w_stmts w1 = w_stmts w -> R w1 w' -> R w w'.
Proof. intros H. by apply (passes_trans Q R w w1), (passes_nothing Q R). Qed.

Lemma quiet_passes Q R `{!Passes Q R} {A} (m : W S A) w : quiet m -> R w (m w).2.
Proof. intros Hm. by apply (passes_quiet Q R). Qed.

(** The rows of SHOW SERVERS with the addresses the pass knows. *)
Definition knownRows (w : World S) (reported : list ServerInfo) : list ServerInfo :=
  (fillAddresses (bookFromDiagnostics (cs_Diagnostics (cl_Status (w_cluster w)))
     (default ∅ (w_book w !! clusterKey (w_cluster w)))) reported).1.

Lemma withKnownAddresses_rows (w : World S) reported :
  (withKnownAddresses (w_cluster w) (Some reported) w).1 = Some (knownRows w reported).
Proof. unfold withKnownAddresses, knownRows. by destruct (fillAddresses _ reported). Qed.

Lemma withKnownAddresses_cluster (w : World S) c servers :
  w_cluster (withKnownAddresses c servers w).2 = w_cluster w.
Proof. unfold withKnownAddresses. destruct servers; [|done]. by destruct (fillAddresses _ _). Qed.

(** What holds of a pass that lists the servers: [I] where it starts, [J] once
    the servers of kept pods are given back. *)
Lemma drainReported_rule Q R `{!Passes Q R} (I : World S -> Prop)
    (J : list string -> World S -> Prop) desired current reported (w : World S) :
  let rows := knownRows w reported in
  let clusterName := cl_Name (w_cluster w) in
  let kept keep := forall i s, i ∈ keep -> byID rows !! i = Some s ->
    keptByTheSpec s (reportedOrdinals reported clusterName) clusterName desired = true in
  NoDup (serverIdentifier <$> rows) -> (forall b, I (set_w_book b w)) ->
  (forall w1, I w1 -> J [] w1) ->
  (forall w1 keep, I w1 -> kept keep ->
     sent Q w1 (giveBackCordoned rows keep w1).2 /\
     ((giveBackCordoned rows keep w1).1 = None -> J keep (giveBackCordoned rows keep w1).2)) ->
  (forall w1 keep active ids, J keep w1 -> kept keep ->
     (forall s, s ∈ active -> s ∈ List.filter (removable reported clusterName desired) rows) ->
     (setDrainServers ids w1).1 = None ->
     let w2 := (setDrainServers ids w1).2 in R w2 (drainActive settle desired current active w2).2) ->
  R w (drainReported settle desired current reported w).2.
Proof.
  intros rows clusterName kept Hnd HI HJ Hgive Hact.
  unfold drainReported, cluster_. rewrite bind_gets, bind_run, withKnownAddresses_rows.
  assert (HI1 : I (withKnownAddresses (w_cluster w) (Some reported) w).2).
  { unfold withKnownAddresses. destruct (fillAddresses _ reported). apply HI. }
  pose proof (quiet_addresses (w_cluster w) (Some reported) w) as Hq.
  set (w1 := (withKnownAddresses _ _ w).2) in *. clearbody w1. clear HI.
  cbn [from_option]. change (id (knownRows w reported)) with rows.
  apply (passes_skip Q R w w1); [exact Hq|]. clear Hq.
  fold clusterName. pose proof (drainSet_spec (w_cluster w) rows reported desired Hnd) as Hset.
  cbv zeta in Hset. fold clusterName in Hset.
  destruct (unidentifiedRemovedServerIDs rows clusterName desired) as [unidentified undecided].
  cbn [fst] in Hset. destruct (serversPastUndoing _ _ _ _ _ _) as [|p past].
  2: { apply (quiet_passes Q R). quiet_step. }
  destruct (drainSet (w_cluster w) rows reported desired unidentified) as [idSet keep].
  destruct Hset as [Hset Hkeep]. rewrite bind_run.
  assert (Hg : let m := match keep with [] => mret None | _ => giveBackCordoned rows keep end in
    sent Q w1 (m w1).2 /\ ((m w1).1 = None -> J keep (m w1).2)).
  { destruct keep as [|k ks]; [split; [by apply (passes_nothing Q R)|by intros _; apply HJ]|by apply Hgive]. }
  cbv zeta in Hg. set (w2 := (_ w1).2) in *. destruct Hg as [Hg1 Hg2].
  apply (passes_trans Q R w1 w2); [done|]. clear Hg1.
  destruct (_ w1).1 as [e|] eqn:Eg; [apply (quiet_passes Q R); quiet_step|].
  set (ids := sort.Strings (elements idSet)). set (active := activeServers ids (byID rows)).
  destruct (_ && _); [apply (quiet_passes Q R); quiet_step|].
  destruct (_ && _); [apply (quiet_passes Q R); quiet_step|].
  assert (Ha : forall s, s ∈ active -> s ∈ List.filter (removable reported clusterName desired) rows).
  { intros s (i & Hid & Hs & Hd)%activeServers_elem. unfold ids in Hid. rewrite Strings_elem, elem_of_elements in Hid.
    apply list_elem_of_In, filter_In. rewrite <-list_elem_of_In.
    split; [by apply byID_elem in Hs as [? ?]|by eapply Hset]. }
  specialize (Hact w2 keep active ids (Hg2 eq_refl) Hkeep Ha). cbv zeta in Hact. rewrite bind_run.
  pose proof (quiet_setDrainServers ids w2) as Hq.
  destruct (setDrainServers ids w2) as [[e|] w3]; cbn [fst snd] in *; [by apply (passes_quiet Q R)|].
  apply (passes_skip Q R w2 w3); [exact Hq|]. by apply Hact.
Qed.

Lemma drainReported_sends desired current reported (w : World S) :
  let rows := knownRows w reported in
  NoDup (serverIdentifier <$> rows) ->
  sent (passTrace (cordonedByDrain (w_cluster w)) rows reported (cl_Name (w_cluster w)) desired) w
    (drainReported settle desired current reported w).2.
Proof.
  intros rows Hnd. set (Q := passTrace _ _ _ _ _). assert (HT : Trace Q) by apply _.
  apply (drainReported_rule Q (sent Q) (fun w1 => w_cluster w1 = w_cluster w) (fun _ _ => True)); try done.
  - intros w1 keep Hcl Hkeep. split; [|done]. apply giveBackCordoned_sends; [done|].
    intros i s Hid Hs Hr Hst. split; [split|].
    + constructor; [|done]. rewrite Hcl in Hr. split; [done|]. exists s.
      pose proof (Hkeep i s Hid Hs). by apply byID_elem in Hs as [? ?].
    + by apply dryRunFirst_single.
    + by intros [|? [|? ?]] ? l2 E; simplify_eq/=.
  - intros w1 keep active ids _ _ Hact _ w2.
    apply (sends_impl (drainTrace active)); [|apply drainActive_sends].
    intros l [[Hf Hd] Hc]. split; [split|]; [|done|].
    + eapply Forall_impl; [exact Hf|]. intros stmt Hst. apply (stmtFor_mono _ _ _ Hact) in Hst. by destruct stmt.
    + intros l1 i l2 E. destruct (Hc l1 i l2 E) as [(s & Hs & Hb)|?]; [|by right]. left. exists s.
      split; [|done]. apply Hact, list_elem_of_In, filter_In in Hs as [Hs _]. by apply list_elem_of_In.
Qed.

(** What SHOW SERVERS answers the pass: it connects first. *)
Definition listing (w : World S) : result (list ServerInfo) :=
  let '(e, n) := Connect (w_neo4j w) in
  match e with Some e => Err e | None => (ListServersFromLeader n).1 end.

(** Servers have an id of their own, as Neo4j gives each. *)
Definition distinctIDs (reported : list ServerInfo) : Prop :=
  Forall (fun s => si_ID s <> EmptyString) reported /\ NoDup (si_ID <$> reported).

Lemma knownRows_ids (w : World S) reported :
  distinctIDs reported -> serverIdentifier <$> knownRows w reported = si_ID <$> reported.
Proof.
  intros [Hne _]. unfold knownRows.
  match goal with |- context [fillAddresses ?b reported] =>
    pose proof (fillAddresses_shape b reported) as [Hlen Hrow]; set (out := (fillAddresses b reported).1) in * end.
  apply list_eq. intros i. rewrite !list_lookup_fmap.
  destruct (reported !! i) as [s|] eqn:Es.
  - destruct (Hrow i s Es) as (a & -> & _). simpl. f_equal. unfold serverIdentifier. simpl.
    rewrite Forall_lookup in Hne. destruct (String.eqb_spec (si_ID s) EmptyString); [|done]. by destruct (Hne i s Es).
  - apply lookup_ge_None in Es. rewrite (proj2 (lookup_ge_None out i)) by lia. done.
Qed.

(** What the pass still finds as it was when it has read SHOW SERVERS. *)
Definition asStarted (w w1 : World S) : Prop :=
  w_now w1 = w_now w /\ w_stmts w1 = w_stmts w /\ cl_Name (w_cluster w1) = cl_Name (w_cluster w) /\
  (forall reported, knownRows w1 reported = knownRows w reported) /\
  forall key, key <> ScaleDownHeldPodsAnnotation -> key <> ScaleDownDrainingServersAnnotation ->
    annotation (w_cluster w1) key = annotation (w_cluster w) key /\
    annotation (w_stored w1) key = annotation (w_stored w) key.

Lemma asStarted_record (w w1 : World S) :
  asStarted w w1 ->
  cordonedByDrain (w_cluster w1) = cordonedByDrain (w_cluster w) /\
  annotation (w_cluster w1) ScaleDownCordonedAtAnnotation = annotation (w_cluster w) ScaleDownCordonedAtAnnotation.
Proof.
  intros (_ & _ & _ & _ & H). split.
  - unfold cordonedByDrain, annotationIDs. by rewrite (proj1 (H ScaleDownCordonedServersAnnotation ltac:(done) ltac:(done))).
  - by rewrite (proj1 (H ScaleDownCordonedAtAnnotation ltac:(done) ltac:(done))).
Qed.

Lemma holdPods_frame pods (w : World S) :
  asStarted w (holdPods pods w).2 /\ listing (holdPods pods w).2 = listing w.
Proof.
  unfold holdPods.
  match goal with |- context [setDrainAnnotations ?v w] =>
    pose proof (setDrainAnnotations_copy v w) as H; cbv zeta in H;
    destruct H as (Hs & Hc & Ha); [by apply (bool_decide_unpack _); vm_compute|];
    set (w' := (setDrainAnnotations v w).2) in * end.
  destruct Hs as (Hnow & _ & _ & _ & _ & _ & _ & _ & _ & _ & _ & Hbook & _ & _ & _ & Hneo & Hst).
  split; [|unfold listing; by rewrite Hneo]. split_and!; [done|done|by rewrite Hc| |].
  - intros reported. unfold knownRows. rewrite Hbook, Hc. done.
  - intros key H1 H2. unfold w'. rewrite (setDrainAnnotations_other _ w key) by (rewrite !fmap_cons, !not_elem_of_cons; split_and!; [done..|apply not_elem_of_nil]).
    split; [|done]. fold w'. rewrite Ha. cbn [List.find fst].
    destruct (String.eqb_spec ScaleDownHeldPodsAnnotation key); [congruence|].
    destruct (String.eqb_spec ScaleDownDrainingServersAnnotation key); [congruence|done].
Qed.

(** What holds of the statements of every pass over a scale-down that lists the
    servers, and of none, holds of every pass over one. *)
Lemma drain_rule Q R `{!Passes Q R} (w : World S) sts :
  w_stsCached w = Found sts -> 0 < sp_Servers (cl_Spec (w_cluster w)) < default 0 (sts_Replicas sts) ->
  (forall w1 reported, listing w = Ok reported -> asStarted w w1 ->
     R w1 (drainReported settle (sp_Servers (cl_Spec (w_cluster w))) (default 0 (sts_Replicas sts)) reported w1).2) ->
  R w (reconcileScaleDownDrain settle w).2.
Proof.
  intros Hsts Hn HQ. unfold reconcileScaleDownDrain, cluster_.
  rewrite !bind_gets, Hsts. set (desired := sp_Servers (cl_Spec (w_cluster w))) in *.
  destruct (Z.leb_spec desired 0); [lia|]. destruct (Z.leb_spec (default 0 (sts_Replicas sts)) desired); [lia|].
  set (hold := if negb (scaleDownDrainInProgress (w_cluster w)) then _ else _).
  assert (Hh : asStarted w (hold w).2 /\ listing (hold w).2 = listing w).
  { unfold hold. destruct (negb _); [apply holdPods_frame|done]. }
  rewrite bind_run. destruct (hold w) as [[e|] w1]; cbn [fst snd] in *; destruct Hh as [Hf Hl].
  - apply (passes_quiet Q R), Hf.
  - apply (passes_skip Q R w w1); [apply Hf|].
    unfold mbind, W_bind, ask. revert HQ. rewrite <-Hl. unfold listing.
    destruct (Connect (w_neo4j w1)) as [[e|] n]; [by intros _; apply (passes_quiet Q R)|]. cbn [w_neo4j set_w_neo4j].
    destruct (ListServersFromLeader n) as [[reported|e] n']; cbn [fst]; intros HQ; [|by apply (passes_quiet Q R)].
    apply (passes_skip Q R w1 (set_w_neo4j n' (set_w_neo4j n w1))); [done|].
    exact (HQ (set_w_neo4j n' (set_w_neo4j n w1)) reported eq_refl Hf).
Qed.
End Pass.
Arguments passes_nothing {S} Q R {_} _ _ _.
Arguments passes_quiet {S} Q R {_} _ _ _.
Arguments passes_trans {S} Q R {_} _ _ _ _ _.

#[export] Instance none_trace : Trace (fun l => l = []).
Proof. split; [done|]. by intros ? ? -> ->. Qed.

(** ** An example: Neo4j that does what it is asked *)

Record exampleNeo4j := mkExampleNeo4j { ex_rows : list ServerInfo }.

Definition setState (ids : list string) (state : string) (hosting : list string) (n : exampleNeo4j) : exampleNeo4j :=
  mkExampleNeo4j
    (map (fun s => if bool_decide (si_ID s ∈ ids)
                   then mkServerInfo (si_ID s) (si_Name s) (si_Address s) state (si_Health s) hosting (si_Version s)
                   else s) (ex_rows n)).

#[export] Instance exampleClient : ScaleDownClient exampleNeo4j := {
  Connect n := (None, n);
  ListServersFromLeader n := (Ok (ex_rows n), n);
  MinimumSystemPrimaries n := (3, n);
  CordonServer id n := (None, setState [id] "Cordoned" ["system"; "neo4j"] n);
  EnableServer id n := (None, setState [id] "Enabled" ["system"; "neo4j"] n);
  DeallocateServers ids dryRun n := (None, if dryRun then n else setState ids "Deallocated" ["system"] n);
  DropServer id n := (None, setState [id] "Dropped" [] n)
}.

(** Servers srv-0, srv-1, ... in the pods of cluster c. *)
Definition exampleServer (i : Z) : ServerInfo :=
  mkServerInfo ("srv-" +:+ strconv.Itoa i) ("srv-" +:+ strconv.Itoa i) (podName "c" i +:+ ".svc:7687")
    "Enabled" "Available" ["system"; "neo4j"] "2026.08.1".

Definition drainCluster : Cluster := exampleCluster "2026.08.1-enterprise".

(** Four servers, and a spec that asks for three. *)
Definition drainWorld (now : Z) (servers : list ServerInfo) : World exampleNeo4j :=
  let sts := mkStatefulSet "c-server" ∅ 4 (Some 4) [("neo4j", "neo4j:2026.08.1")] None 4 4 4 "rev-a" "rev-a" in
  mkWorld now drainCluster drainCluster (Found sts) (Found sts) (Ok []) (Ok []) [] [] None [] [] [] [] ∅ ∅ ∅ []
    (mkExampleNeo4j servers) [].

Definition exampleServers : list ServerInfo := map exampleServer [0; 1; 2; 3].

(** [n] passes of the drain. *)
Fixpoint passes (n : nat) (settle : Z) (w : World exampleNeo4j) : World exampleNeo4j :=
  match n with
  | O => w
  | Datatypes.S n' => passes n' settle (reconcileScaleDownDrain settle w).2
  end.

(** Without a settle the drain takes four passes: cordon, deallocate, drop, and
    release the replicas. *)
Example drain_runs :
  let w := passes 4 0 (drainWorld 0 exampleServers) in
  rev (w_stmts w)
  = [DeallocateStmt ["srv-3"] true; CordonStmt "srv-3"; DeallocateStmt ["srv-3"] true;
     DeallocateStmt ["srv-3"] true; DeallocateStmt ["srv-3"] false; DropStmt "srv-3"] /\
  scaleDownDrainInProgress (w_cluster (passes 3 0 (drainWorld 0 exampleServers))) = true /\
  scaleDownDrainInProgress (w_cluster w) = false.
Proof. vm_compute. done. Qed.

Lemma exampleServers_distinct : distinctIDs exampleServers.
Proof. split; [by repeat constructor|by apply (bool_decide_unpack _); vm_compute]. Qed.

(** C1: the statements of one pass over a scale-down, whatever Neo4j answers and
    whichever writes fail. Only servers the scale-down removes are cordoned,
    deallocated or dropped, each at its stage, and only servers the drain
    cordoned and the spec keeps are enabled. Every deallocation directly
    follows a dry run of the same servers; a server is cordoned only after a
    dry run of its deallocation, or once a deallocation has begun. A pass that
    cannot list the servers sends nothing. *)
Theorem drain_statements {S} `{!ScaleDownClient S} (settle : Z) (w : World S) (sts : StatefulSet) :
  w_stsCached w = Found sts ->
  0 < sp_Servers (cl_Spec (w_cluster w)) < default 0 (sts_Replicas sts) ->
  (forall reported, listing w = Ok reported -> distinctIDs reported) ->
  let w' := (reconcileScaleDownDrain settle w).2 in
  match listing w with
  | Err _ => w_stmts w' = w_stmts w
  | Ok reported =>
      sent (passTrace (cordonedByDrain (w_cluster w)) (knownRows w reported) reported
              (cl_Name (w_cluster w)) (sp_Servers (cl_Spec (w_cluster w)))) w w'
  end.
Proof.
  intros Hsts Hn Hid. cbv zeta. destruct (listing w) as [reported|e] eqn:El.
  - eapply (drain_rule settle _ _ w sts Hsts Hn). intros w1 r Hl Hst. pose proof Hst as (_ & _ & Hname & Hrows & _).
    assert (r = reported) as -> by congruence.
    pose proof (drainReported_sends settle (sp_Servers (cl_Spec (w_cluster w))) (default 0 (sts_Replicas sts)) reported w1) as H.
    cbv zeta in H. rewrite Hname, Hrows, (proj1 (asStarted_record w w1 Hst)) in H.
    apply H. rewrite knownRows_ids; by apply Hid.
  - destruct (drain_rule settle (fun l => l = []) _ w sts Hsts Hn) as (l & -> & ->); [|done]. congruence.
Qed.

Lemma drain_statements_witness :
  sent (passTrace [] (knownRows (drainWorld 0 exampleServers) exampleServers) exampleServers "c" 3)
    (drainWorld 0 exampleServers) (reconcileScaleDownDrain 0 (drainWorld 0 exampleServers)).2 /\
  CordonStmt "srv-3" ∈ w_stmts (reconcileScaleDownDrain 0 (drainWorld 0 exampleServers)).2.
Proof.
  split.
  - refine (drain_statements 0 (drainWorld 0 exampleServers)
      (mkStatefulSet "c-server" ∅ 4 (Some 4) [("neo4j", "neo4j:2026.08.1")] None 4 4 4 "rev-a" "rev-a") _ _ _).
    + reflexivity.
    + split; reflexivity.
    + intros reported [= <-]. apply exampleServers_distinct.
  - vm_compute. left.
Defined.

(** * The settle *)

Lemma pad_isDigit w n : allBytes isDigit (gotime.pad w n) = true.
Proof.
  revert n. induction w as [|w IH]; intros n; [done|]. cbn [gotime.pad].
  rewrite allBytes_app, IH. simpl. rewrite andb_true_r.
  pose proof (digits_isDigit 0 (String (ascii_of_N (Z.to_N (48 + n mod 10))) EmptyString) (0 * 10 + n mod 10)) as H.
  cbn [strconv.digits] in H. rewrite digit_of_mod in H. specialize (H eq_refl). simpl in H. by rewrite andb_true_r in H.
Qed.

Lemma TrimSpace_visible s : allBytes (fun c => negb (strings.isSpace c)) s = true -> strings.TrimSpace s = s.
Proof.
  intros H. unfold strings.TrimSpace, strings.trimFunc.
  assert (Hl : strings.trimLeftFunc strings.isSpace s = s).
  { destruct s as [|c s]; [done|]. simpl in *. apply andb_true_iff in H as [Hc _]. breflect. by rewrite Hc. }
  rewrite Hl. clear Hl. induction s as [|c s IH]; [done|]. simpl in *. apply andb_true_iff in H as [Hc Hs]. breflect.
  rewrite IH by done. destruct s; [by rewrite Hc|done].
Qed.

Lemma isDigit_visible s : allBytes isDigit s = true -> allBytes (fun c => negb (strings.isSpace c)) s = true.
Proof.
  apply allBytes_impl. intros c. destruct c as [[] [] [] [] [] [] [] []]; vm_compute; done.
Qed.

Lemma FormatNano_visible t : allBytes (fun c => negb (strings.isSpace c)) (gotime.FormatNano t) = true.
Proof.
  assert (Hp : forall w n, allBytes (fun c => negb (strings.isSpace c)) (gotime.pad w n) = true)
    by (intros; apply isDigit_visible, pad_isDigit).
  unfold gotime.FormatNano, gotime.formatSeconds.
  destruct (gotime.civilFromDays _) as [[y m] d]. rewrite !allBytes_app, !Hp. reflexivity.
Qed.

Lemma Contains_dot s t : strings.Contains (s +:+ "." +:+ t) "." = true.
Proof.
  unfold strings.Contains. induction s as [|c s IH]; [by destruct t|]. cbn [String.append strings.Index].
  destruct (strings.HasPrefix _ _); [done|]. by destruct (strings.Index _ _).
Qed.

(** A cordon recorded at [t] reads back as [t]. *)
Lemma cordonedAt_written c t :
  0 <= yearOf t < 10000 -> annotation c ScaleDownCordonedAtAnnotation = gotime.FormatNano t ->
  cordonedAt c = Some t.
Proof.
  intros Hy Ha. unfold cordonedAt. rewrite Ha, TrimSpace_visible by apply FormatNano_visible.
  rewrite Parse_FormatNano by done. unfold gotime.FormatNano. by rewrite Contains_dot.
Qed.

(** Ids as a record holds them: not empty, no comma, no space around. *)
Definition cleanID (id : string) : Prop :=
  id <> EmptyString /\ allBytes (fun d => negb (Ascii.eqb d ",")) id = true /\ strings.TrimSpace id = id.

Lemma annotationIDs_clean c key id : id ∈ annotationIDs c key -> cleanID id.
Proof.
  unfold annotationIDs. intros [Hin Hne]%list_elem_of_In%filter_In. breflect.
  apply in_map_iff in Hin as (w & <- & Hw%list_elem_of_In). apply Split_elem_absent in Hw.
  split_and!; [done|by apply allBytes_trim|apply trimFunc_idem].
Qed.

Lemma annotationIDs_Join c key l :
  Forall cleanID l -> annotation c key = strings.Join l "," -> annotationIDs c key = l.
Proof.
  intros Hl Ha. unfold annotationIDs. rewrite Ha. destruct l as [|i l]; [done|].
  rewrite Split_Join; [|done|].
  2: { eapply Forall_impl; [exact Hl|]. by intros ? (? & ? & ?). }
  revert Hl. generalize (i :: l). clear i l Ha. induction l as [|i l IH]; intros Hl; [done|].
  apply Forall_cons in Hl as [(Hne & _ & Ht) Hl]. simpl. rewrite Ht.
  destruct (String.eqb_spec i EmptyString); [done|]. simpl. by rewrite IH.
Qed.

(** A cordon of [id] at [t] is on record. *)
Definition onRecord (t : Z) (id : string) (c : Cluster) : Prop :=
  annotation c ScaleDownCordonedAtAnnotation = gotime.FormatNano t /\ id ∈ cordonedByDrain c.

Lemma cordonSettle_waits settle now t id c ids :
  0 <= yearOf t < 10000 -> onRecord t id c -> now < t + settle -> 0 < settle -> id ∈ ids ->
  0 < (cordonSettle settle now c ids).2.
Proof.
  intros Hy [Ha Hid] Hn Hs Hin. unfold cordonSettle. destruct (Z.leb_spec settle 0); [lia|].
  rewrite (cordonedAt_written c t) by done.
  assert (Ho : existsb (fun id => bool_decide (id ∈ cordonedByDrain c)) ids = true).
  { apply existsb_exists. exists id. rewrite <-list_elem_of_In. split; [done|]. by apply bool_decide_eq_true. }
  rewrite Ho. simpl. destruct (Z.ltb_spec 0 (t + settle - now)); lia.
Qed.

(** The statement does not deallocate [id]. *)
Definition spares (id : string) (stmt : statement) : Prop :=
  match stmt with DeallocateStmt ids false => id ∉ ids | _ => True end.

Section Settle.
Context {S : Type} `{!ScaleDownClient S}.
Variables (settle t : Z) (id : string).
Hypothesis Hyear : 0 <= yearOf t < 10000.
Hypothesis Hsettle : 0 < settle.

Lemma drainStep_spares desired active (w : World S) :
  onRecord t id (w_cluster w) -> w_now w < t + settle ->
  sent (Forall (spares id)) w (drainStep settle desired active (planScaleDownStep active) w).2.
Proof.
  intros Hrec Hnow. unfold drainStep.
  destruct (sd_phase (planScaleDownStep active)) eqn:Ep; unfold now_, cluster_.
  - clear Hrec Hnow. as_sends w. sends_step.
  - clear Hrec Hnow. as_sends w. sends_step.
    apply cordonServers_sends; [apply _|]. intros i Hi. by repeat constructor.
  - rewrite !bind_gets.
    pose proof (fun ids => cordonSettle_waits settle (w_now w) t id (w_cluster w) ids Hyear Hrec Hnow Hsettle) as Hw.
    specialize (Hw (sd_serverIDs (planScaleDownStep active))).
    destruct (cordonSettle _ _ _ _) as [from remaining]. cbn [snd] in Hw. clear Hrec Hnow.
    as_sends w.
    destruct (Z.ltb_spec 0 remaining) as [_|Hr]; [sends_step|].
    assert (Hn : id ∉ sd_serverIDs (planScaleDownStep active)) by (intros Hin; specialize (Hw Hin); lia).
    sends_step; by repeat constructor.
  - clear Hrec Hnow. as_sends w. sends_step.
  - clear Hrec Hnow. as_sends w. sends_step.
    apply dropServers_sends; [apply _|]. intros i Hi. by repeat constructor.
Qed.

Lemma drainActive_spares desired current active (w : World S) :
  onRecord t id (w_cluster w) -> w_now w < t + settle ->
  sent (Forall (spares id)) w (drainActive settle desired current active w).2.
Proof.
  intros Hrec Hnow. unfold drainActive. rewrite bind_run.
  assert (Hask : w_cluster (ask MinimumSystemPrimaries w).2 = w_cluster w /\
    w_now (ask MinimumSystemPrimaries w).2 = w_now w /\ w_stmts (ask MinimumSystemPrimaries w).2 = w_stmts w).
  { unfold ask. by destruct (MinimumSystemPrimaries (w_neo4j w)). }
  destruct (ask MinimumSystemPrimaries w) as [m w1]. cbn [fst snd] in *. destruct Hask as (Hc & Hn & Hq).
  rewrite <-Hc in Hrec. rewrite <-Hn in Hnow. clear Hc Hn.
  apply (sent_trans _ _ w1); [by apply sent_refl; [apply _|]|]. clear Hq w.
  destruct (desired <? m); [clear; as_sends w1; sends_step|].
  destruct (existsb deallocationBegun active); [by apply drainStep_spares|].
  rewrite bind_run. unfold send. destruct (DeallocateServers _ true _) as [e n]; cbn [fst snd].
  match goal with |- context [set_w_stmts ?a ?b] => set (w2 := set_w_stmts a b) end.
  apply (sent_trans _ _ w2).
  { exists [DeallocateStmt (map serverIdentifier active) true]. split; [done|by repeat constructor]. }
  destruct e as [e|]; [clearbody w2; clear; as_sends w2; sends_step|by apply drainStep_spares].
Qed.

(** Enabling servers does not change the record. *)
Lemma enableServers_frame record rows name ids enabled (w : World S) :
  let w' := (enableServers record rows name ids enabled w).2 in
  w_cluster w' = w_cluster w /\ w_now w' = w_now w.
Proof.
  cbv zeta. revert enabled w. induction ids as [|i ids IH]; intros enabled w; cbn [enableServers]; [done|].
  destruct (rows !! i) as [s|]; [|apply IH]. destruct (_ && _); [|apply IH].
  rewrite bind_run. unfold send. destruct (EnableServer i (w_neo4j w)) as [[e|] n]; cbn [fst snd]; [done|apply (IH _ (set_w_stmts _ (set_w_neo4j n w)))].
Qed.

Lemma giveBackCordoned_record servers ids (w : World S) :
  onRecord t id (w_cluster w) -> id ∉ ids ->
  let w' := (giveBackCordoned servers ids w).2 in
  onRecord t id (w_cluster w') /\ w_now w' = w_now w.
Proof.
  intros [Ha Hid] Hn. cbv zeta. unfold giveBackCordoned, cluster_. rewrite bind_gets, bind_run.
  match goal with |- context [enableServers ?r ?b ?nm ?i ?e w] =>
    pose proof (enableServers_frame r b nm i e w) as [Hc Hw]; destruct (enableServers r b nm i e w) as [[enabled|er] w1] end;
    cbn [fst snd] in *; [|by unfold onRecord; cbn; rewrite Hc].
  set (remaining := List.filter _ _).
  assert (Hr : id ∈ remaining).
  { apply list_elem_of_In, filter_In. rewrite <-list_elem_of_In. split; [done|]. by rewrite bool_decide_eq_false_2. }
  destruct remaining as [|r0 rs] eqn:Er; [by apply elem_of_nil in Hr|]. cbn [length Nat.eqb].
  rewrite bind_run.
  match goal with |- context [setDrainAnnotations ?v w1] =>
    pose proof (setDrainAnnotations_copy v w1 ltac:(repeat constructor; by intros []%elem_of_nil)) as H; cbv zeta in H;
    destruct (setDrainAnnotations v w1) as [e w2] end.
  cbn [fst snd] in H. destruct H as (Ho & _ & Hann).
  assert (Hrec : onRecord t id (w_cluster w2) /\ w_now w2 = w_now w).
  { split; [split|].
    - rewrite Hann. simpl. by rewrite Hc.
    - unfold cordonedByDrain. rewrite (annotationIDs_Join _ _ (r0 :: rs)); [done| |].
      + rewrite <-Er. apply Forall_forall. intros i Hi%list_elem_of_In. apply filter_In in Hi as [Hi _].
        apply (annotationIDs_clean (w_cluster w) ScaleDownCordonedServersAnnotation). by apply list_elem_of_In.
      + rewrite Hann. done.
    - unfold sameOutside in Ho. destruct Ho as (Ho & _). by rewrite Ho. }
  destruct e as [e|]; [done|]. by destruct (0 <? length enabled)%nat.
Qed.

Lemma setDrainServers_record ids (w : World S) :
  onRecord t id (w_cluster w) ->
  let w' := (setDrainServers ids w).2 in
  onRecord t id (w_cluster w') /\ w_now w' = w_now w.
Proof.
  intros [Ha Hid]. cbv zeta. unfold setDrainServers. rewrite bind_run.
  match goal with |- context [setDrainAnnotations ?v ?w0] =>
    assert (Hw1 : w_cluster w0 = w_cluster w /\ w_now w0 = w_now w) by (by destruct ids);
    set (w1 := w0) in *;
    pose proof (setDrainAnnotations_copy v w1 ltac:(by apply (bool_decide_unpack _); vm_compute)) as H; cbv zeta in H;
    destruct (setDrainAnnotations v w1) as [e w2] end.
  destruct Hw1 as [Hc Hn].
  cbn [fst snd] in *. destruct H as ((Ho & _) & _ & Hann). rewrite Ho, Hn. split; [|done].
  unfold onRecord, cordonedByDrain, annotationIDs. rewrite !Hann. simpl. by rewrite Hc.
Qed.

Lemma drainReported_spares desired current reported (w : World S) :
  NoDup (serverIdentifier <$> knownRows w reported) ->
  onRecord t id (w_cluster w) -> w_now w < t + settle ->
  sent (Forall (spares id)) w (drainReported settle desired current reported w).2.
Proof.
  intros Hnd Hrec Hnow.
  set (I (w1 : World S) := onRecord t id (w_cluster w1) /\ w_now w1 = w_now w).
  apply (drainReported_rule settle (Forall (spares id)) _ I (fun keep w1 => id ∉ keep -> I w1)); [done|done|done| |].
  - intros w1 keep [Hr Hn] Hkeep. split.
    + apply giveBackCordoned_sends; [apply _|]. intros. by repeat constructor.
    + intros _ Hni. destruct (giveBackCordoned_record (knownRows w reported) keep w1 Hr Hni). split; [done|congruence].
  - intros w1 keep active ids HJ Hkeep Hact _ w2. destruct (decide (id ∈ keep)) as [Hin|Hni].
    + apply (sends_impl (drainTrace active)); [|apply drainActive_sends]. intros l [[Hf _] _].
      eapply Forall_impl; [exact Hf|]. intros [] Hst; try done. destruct dryRun; [done|]. intros Hid.
      destruct (Hst id Hid) as (s & Hs & Hsid & _). apply Hact, list_elem_of_In, filter_In in Hs as [Hs Hrm].
      apply list_elem_of_In in Hs. unfold removable in Hrm. breflect.
      rewrite (Hkeep id s Hin) in H0; [done|]. rewrite <-Hsid. by apply byID_unique.
    + destruct (HJ Hni) as [Hr Hn]. destruct (setDrainServers_record ids w1 Hr) as [Hr2 Hn2]. fold w2 in Hr2, Hn2.
      apply drainActive_spares; [done|]. by rewrite Hn2, Hn.
Qed.
End Settle.

(** The settle. While less than the settle time has passed since a cordon
    the drain recorded, no pass deallocates the server, whatever Neo4j answers
    and whichever writes fail. *)
Theorem settle_respected {S} `{!ScaleDownClient S} (settle t : Z) (id : string) (w : World S) (sts : StatefulSet) :
  w_stsCached w = Found sts ->
  0 < sp_Servers (cl_Spec (w_cluster w)) < default 0 (sts_Replicas sts) ->
  (forall reported, listing w = Ok reported -> distinctIDs reported) ->
  0 <= yearOf t < 10000 ->
  onRecord t id (w_cluster w) ->
  w_now w < t + settle -> 0 < settle ->
  sent (Forall (spares id)) w (reconcileScaleDownDrain settle w).2.
Proof.
  intros Hsts Hn Hid Hy [Ha Hc] Hnow Hs. eapply (drain_rule settle _ _ w sts Hsts Hn).
  intros w1 reported Hl Hst. pose proof Hst as (Hnow1 & _ & _ & Hrows & _). apply (drainReported_spares settle t id Hy Hs).
  - rewrite Hrows, knownRows_ids; by apply Hid.
  - destruct (asStarted_record w w1 Hst) as [H1 H2]. by split; [rewrite H2|rewrite H1].
  - by rewrite Hnow1.
Qed.

(** Half a minute into a settle of a minute. *)
Definition settlingWorld : World exampleNeo4j :=
  let c := set_cl_Annotations
    {[ScaleDownCordonedServersAnnotation := "srv-3"; ScaleDownCordonedAtAnnotation := "1970-01-01T00:00:00.000000000Z"]}
    drainCluster in
  set_w_cluster c (set_w_stored c (drainWorld (30 * second)
    (map exampleServer [0; 1; 2] ++ ex_rows (setState ["srv-3"] "Cordoned" ["system"] (mkExampleNeo4j [exampleServer 3]))))).

Lemma settle_respected_witness :
  sent (Forall (spares "srv-3")) settlingWorld (reconcileScaleDownDrain (60 * second) settlingWorld).2 /\
  DeallocateStmt ["srv-3"] false ∈ w_stmts (reconcileScaleDownDrain (20 * second) settlingWorld).2.
Proof.
  split.
  - refine (settle_respected (60 * second) 0 "srv-3" settlingWorld
      (mkStatefulSet "c-server" ∅ 4 (Some 4) [("neo4j", "neo4j:2026.08.1")] None 4 4 4 "rev-a" "rev-a") _ _ _ _ _ _ _).
    + reflexivity.
    + split; reflexivity.
    + intros reported [= <-]. split; [by repeat constructor|by apply (bool_decide_unpack _); vm_compute].
    + vm_compute. done.
    + split; [reflexivity|]. apply (bool_decide_unpack _). vm_compute. exact I.
    + reflexivity.
    + reflexivity.
  - vm_compute. left.
Defined.

(** * The record of a cordon *)

Section Record.
Context {S : Type} `{!ScaleDownClient S}.
Variables (settle now : Z).

Definition noCordon (stmt : statement) : Prop := match stmt with CordonStmt _ => False | _ => True end.

(** Every cordon sent from [w] to [w'] is on record in the stored cluster. *)
Definition cordonsStored (w w' : World S) : Prop :=
  exists l, w_stmts w' = l ++ w_stmts w /\ forall id, CordonStmt id ∈ l -> onRecord now id (w_stored w').

#[local] Instance cordonsStored_passes : Passes (Forall noCordon) cordonsStored.
Proof.
  split.
  - intros w w' H. by apply sent_refl; [apply _|].
  - intros w w' H. exists []. split; [done|]. by intros id []%elem_of_nil.
  - intros w w1 w' (l0 & H0 & Hn) (l & H1 & Hl). exists (l ++ l0). rewrite H1, H0, app_assoc. split; [done|].
    intros id [Hin|Hin]%elem_of_app; [by apply Hl|]. rewrite Forall_forall in Hn. by destruct (Hn _ Hin).
Qed.

(** The copy and the stored cluster have the same record. *)
Definition recordSynced (w : World S) : Prop :=
  forall key, key = ScaleDownCordonedServersAnnotation \/ key = ScaleDownCordonedAtAnnotation ->
  annotation (w_stored w) key = annotation (w_cluster w) key.

Lemma setDrainAnnotations_now values (w : World S) : w_now (setDrainAnnotations values w).2 = w_now w.
Proof.
  unfold setDrainAnnotations, cluster_, gets, modify. unfold mbind, W_bind, mret, W_ret. destruct (negb _); [done|].
  match goal with |- context [retryOnConflict DefaultRetry ?f keepCopy keepCopy ?w1] =>
    pose proof (retryOnConflict_spec DefaultRetry f keepCopy keepCopy w1) as Hr;
    destruct (retryOnConflict DefaultRetry f keepCopy keepCopy w1) as [r w'] end. cbn [snd].
  by destruct Hr as [(-> & _) _].
Qed.

Lemma setDrainAnnotations_synced values (w : World S) :
  NoDup values.*1 -> recordSynced w ->
  (forall key, key ∈ values.*1 -> annotation (w_stored w) key = annotation (w_cluster w) key) ->
  (setDrainAnnotations values w).1 = None -> recordSynced (setDrainAnnotations values w).2.
Proof.
  intros Hnd Hs Hv Hok key Hkey.
  destruct (setDrainAnnotations_copy values w Hnd) as (_ & _ & Hc). cbv zeta in Hc. rewrite Hc.
  destruct (List.find _ values) as [kv|] eqn:Ef.
  - apply find_some in Ef as [Hin He]. breflect. subst key. apply list_elem_of_In in Hin.
    apply setDrainAnnotations_stored; try done. intros kv' Hkv'. apply Hv. by apply list_elem_of_fmap_2.
  - rewrite setDrainAnnotations_other; [by apply Hs|]. intros ([k v] & E & Hin)%list_elem_of_fmap.
    eapply find_none in Ef; [|by apply list_elem_of_In]. simpl in *. subst key. by autorewrite with go in Ef.
Qed.

(** A handler that changes no annotation of the stored cluster. *)
Definition annotationsKept {A} (m : W S A) : Prop :=
  forall w, cl_Annotations (w_stored (m w).2) = cl_Annotations (w_stored w).

Lemma annotationsKept_bind {A B} (m : W S A) (k : A -> W S B) :
  annotationsKept m -> (forall a, annotationsKept (k a)) -> annotationsKept (m ≫= k).
Proof. intros Hm Hk w. rewrite bind_run. by rewrite Hk, Hm. Qed.

Lemma annotationsKept_pure {A} (m : W S A) : (forall w, w_stored (m w).2 = w_stored w) -> annotationsKept m.
Proof. intros H w. by rewrite H. Qed.

Lemma cordonServers_stored ids : annotationsKept (cordonServers (S := S) ids).
Proof.
  induction ids as [|i ids IH]; [by intros w|]. cbn [cordonServers]. apply annotationsKept_bind.
  - apply annotationsKept_pure. intros w. unfold send. by destruct (CordonServer i _).
  - intros [e|]; [by apply annotationsKept_pure|done].
Qed.

Lemma pendingCondition_stored message : annotationsKept (pendingCondition (S := S) message).
Proof.
  unfold pendingCondition. apply annotationsKept_bind; [|by intros; apply annotationsKept_pure].
  unfold setScaleDownConditionPersisted, now_. apply annotationsKept_bind; [by apply annotationsKept_pure|].
  intros n. apply annotationsKept_bind; [|by intros; apply annotationsKept_pure]. intros w.
  match goal with |- context [retryOnConflict DefaultRetry ?f keepCopy keepCopy w] =>
    pose proof (retryOnConflict_spec DefaultRetry f keepCopy keepCopy w) as Hr;
    destruct (retryOnConflict DefaultRetry f keepCopy keepCopy w) as [[v|e] w'] end; cbn [snd].
  - destruct Hr as [_ [[-> _]|(latest & Hl & -> & _)]]; [done|].
    destruct (SetNamedCondition _ _ _ _ _ _ _) as [conds b]. by simplify_eq/=.
  - by destruct Hr as [_ ->].
Qed.

Lemma noCordon_stored w w' : sent (Forall noCordon) w w' -> cordonsStored w w'.
Proof.
  intros H. apply (passes_trans (Forall noCordon) cordonsStored w w' w'); [done|]. by apply (passes_quiet (Forall noCordon) cordonsStored).
Qed.

(** The rest of a cordon step, once the record is written. *)
Lemma cordon_rest (m : W S (option string)) (ids : list string) (w : World S) :
  annotationsKept m -> sends (Forall (fun stmt => exists i, stmt = CordonStmt i /\ i ∈ ids)) m ->
  (forall i, i ∈ ids -> onRecord now i (w_stored w)) -> cordonsStored w (m w).2.
Proof.
  intros Hk Hs Hrec. destruct (Hs w) as (l & Hl & Hf). exists l. split; [done|]. intros i Hi.
  rewrite Forall_forall in Hf. destruct (Hf _ Hi) as (j & [= <-] & Hj). specialize (Hrec i Hj).
  unfold onRecord, cordonedByDrain, annotationIDs, annotation in *. by rewrite Hk.
Qed.

Lemma drainStep_cordons desired active (w : World S) :
  recordSynced w -> w_now w = now -> Forall cleanID (map serverIdentifier active) ->
  cordonsStored w (drainStep settle desired active (planScaleDownStep active) w).2.
Proof.
  intros Hsync Hnow Hclean. unfold drainStep.
  destruct (sd_phase (planScaleDownStep active)) eqn:Ep; unfold now_, cluster_.
  1, 4: apply noCordon_stored; clear Hsync Hnow; as_sends w; sends_step.
  2: { apply noCordon_stored. clear Hsync Hnow. as_sends w. sends_step; by repeat constructor. }
  2: { apply noCordon_stored. clear Hsync Hnow. as_sends w. sends_step.
       apply dropServers_sends; [apply _|]. intros. by repeat constructor. }
  rewrite !bind_gets, bind_run. set (ids := sd_serverIDs (planScaleDownStep active)).
  set (union := unionIDs (cordonedByDrain (w_cluster w)) ids).
  assert (Hu : Forall cleanID union).
  { apply Forall_forall. intros i. unfold union, unionIDs. rewrite Strings_elem, elem_of_remove_dups, elem_of_app.
    intros [Hi|Hi]; [by eapply annotationIDs_clean|].
    destruct (plan_ids active i Hi) as (s & Hs & <- & _). rewrite Forall_forall in Hclean. apply Hclean.
    by apply (list_elem_of_fmap_2 serverIdentifier). }
  match goal with |- context [setDrainAnnotations ?v w] => set (values := v) end.
  assert (Hnd : NoDup values.*1) by (by apply (bool_decide_unpack _); vm_compute).
  assert (Hst : (setDrainAnnotations values w).1 = None -> forall i, i ∈ ids ->
    onRecord now i (w_stored (setDrainAnnotations values w).2)).
  { intros Hok i Hi.
    assert (Hv : forall kv, kv ∈ values -> annotation (w_stored w) kv.1 = annotation (w_cluster w) kv.1).
    { intros kv [->|[->|[]%elem_of_nil]%elem_of_cons]%elem_of_cons; apply Hsync; [by left|by right]. }
    pose proof (setDrainAnnotations_stored values w Hnd Hok Hv) as Hw. split.
    - rewrite <-Hnow. apply (Hw (ScaleDownCordonedAtAnnotation, gotime.FormatNano (w_now w))). right. left.
    - unfold cordonedByDrain. rewrite (annotationIDs_Join _ _ union Hu).
      + unfold union, unionIDs. rewrite Strings_elem, elem_of_remove_dups, elem_of_app. by right.
      + apply (Hw (ScaleDownCordonedServersAnnotation, strings.Join union ",")). left. }
  pose proof (quiet_setDrainAnnotations values w) as Hq.
  destruct (setDrainAnnotations values w) as [[e|] w1]; cbn [fst snd] in *.
  { apply (passes_quiet (Forall noCordon) cordonsStored). exact Hq. }
  apply (passes_skip (Forall noCordon) cordonsStored w w1); [exact Hq|].
  specialize (Hst eq_refl). clear Hq.
  apply (cordon_rest _ ids); [| |done].
  - apply annotationsKept_bind; [apply cordonServers_stored|]. intros [|]; [|by apply annotationsKept_pure].
    cbn [negb]. apply annotationsKept_bind; [by apply annotationsKept_pure|]. intros _.
    apply annotationsKept_bind; [by apply annotationsKept_pure|]. intros c.
    destruct (cordonSettle _ _ _ _) as [[from|] remaining]; [|apply pendingCondition_stored].
    destruct (0 <? remaining); [|apply pendingCondition_stored].
    apply annotationsKept_bind; [by apply annotationsKept_pure|intros; apply pendingCondition_stored].
  - sends_step. apply cordonServers_sends; [apply _|]. intros i Hi. constructor; [by exists i|done].
Qed.

Lemma drainActive_cordons desired current active (w : World S) :
  recordSynced w -> w_now w = now -> Forall cleanID (map serverIdentifier active) ->
  cordonsStored w (drainActive settle desired current active w).2.
Proof.
  intros Hsync Hnow Hclean. unfold drainActive. rewrite bind_run. unfold ask.
  destruct (MinimumSystemPrimaries (w_neo4j w)) as [m n]. cbn [fst snd].
  apply (passes_skip (Forall noCordon) cordonsStored w (set_w_neo4j n w)); [done|].
  assert (Hsync1 : recordSynced (set_w_neo4j n w)) by done.
  assert (Hnow1 : w_now (set_w_neo4j n w) = now) by done.
  revert Hsync1 Hnow1. generalize (set_w_neo4j n w) as w1. clear w Hsync Hnow. intros w Hsync Hnow.
  destruct (desired <? m); [apply noCordon_stored; clear Hsync Hnow; as_sends w; sends_step|].
  destruct (existsb deallocationBegun active); [by apply drainStep_cordons|].
  rewrite bind_run. unfold send. destruct (DeallocateServers _ true _) as [e n']. cbn [fst snd].
  match goal with |- context [set_w_stmts ?a ?b] => set (w2 := set_w_stmts a b) end.
  apply (passes_trans (Forall noCordon) cordonsStored w w2).
  { exists [DeallocateStmt (map serverIdentifier active) true]. split; [done|by repeat constructor]. }
  destruct e as [e|]; [|by apply drainStep_cordons].
  apply noCordon_stored. clearbody w2. clear. as_sends w2. sends_step.
Qed.

Lemma giveBackCordoned_now servers ids (w : World S) : w_now (giveBackCordoned servers ids w).2 = w_now w.
Proof.
  unfold giveBackCordoned, cluster_. rewrite bind_gets, bind_run.
  match goal with |- context [enableServers ?r ?b ?nm ?i ?e w] =>
    pose proof (enableServers_frame r b nm i e w) as [_ Hn];
    destruct (enableServers r b nm i e w) as [[enabled|er] w1] end; cbn [fst snd] in *; [|done].
  rewrite bind_run, <-Hn. match goal with |- context [setDrainAnnotations ?v w1] =>
    pose proof (setDrainAnnotations_now v w1) as Hd; destruct (setDrainAnnotations v w1) as [[e|] w2] end; cbn [fst snd] in *; [done|].
  by destruct (0 <? length enabled)%nat.
Qed.

Lemma setDrainServers_now ids (w : World S) : w_now (setDrainServers ids w).2 = w_now w.
Proof. unfold setDrainServers. rewrite bind_run, setDrainAnnotations_now. by destruct ids. Qed.

Lemma giveBackCordoned_synced servers ids (w : World S) :
  recordSynced w -> (giveBackCordoned servers ids w).1 = None -> recordSynced (giveBackCordoned servers ids w).2.
Proof.
  intros Hs. unfold giveBackCordoned, cluster_. rewrite bind_gets, bind_run.
  assert (Hst : forall record rows name ids enabled (w : World S),
    w_stored (enableServers record rows name ids enabled w).2 = w_stored w).
  { clear. intros record rows name ids. induction ids as [|i ids IH]; intros enabled w; cbn [enableServers]; [done|].
    destruct (rows !! i) as [s|]; [|apply IH]. destruct (_ && _); [|apply IH].
    rewrite bind_run. unfold send. destruct (EnableServer i (w_neo4j w)) as [[e|] n]; cbn [fst snd]; [done|]. by rewrite IH. }
  match goal with |- context [enableServers ?r ?b ?nm ?i ?e w] =>
    specialize (Hst r b nm i e w); pose proof (enableServers_frame r b nm i e w) as [Hc _];
    destruct (enableServers r b nm i e w) as [[enabled|er] w1] end; cbn [fst snd] in *; [|done].
  assert (Hs1 : recordSynced w1) by (unfold recordSynced; by rewrite Hc, Hst).
  rewrite bind_run. match goal with |- context [setDrainAnnotations ?v w1] => set (values := v) end.
  assert (Hk : NoDup values.*1 /\ forall key, key ∈ values.*1 ->
    key = ScaleDownCordonedServersAnnotation \/ key = ScaleDownCordonedAtAnnotation).
  { unfold values. destruct (_ =? 0)%nat; rewrite !fmap_cons; simpl fst.
    - split; [by apply (bool_decide_unpack _); vm_compute|]. intros key. rewrite !elem_of_cons. set_solver.
    - split; [by apply (bool_decide_unpack _); vm_compute|]. intros key. rewrite !elem_of_cons. set_solver. }
  destruct Hk as [Hnd Hk].
  pose proof (setDrainAnnotations_synced values w1 Hnd Hs1 (fun key Hkey => Hs1 key (Hk key Hkey))) as Hsync.
  destruct (setDrainAnnotations values w1) as [[e|] w2]; cbn [fst snd] in *; [done|]. intros _.
  specialize (Hsync eq_refl). by destruct (0 <? length enabled)%nat.
Qed.

Lemma setDrainServers_synced ids (w : World S) : recordSynced w -> recordSynced (setDrainServers ids w).2.
Proof.
  intros Hs key Hkey. unfold setDrainServers. rewrite bind_run.
  match goal with |- context [setDrainAnnotations ?v ?w0] =>
    assert (Hw1 : w_cluster w0 = w_cluster w /\ w_stored w0 = w_stored w) by (by destruct ids);
    set (w1 := w0) in *; set (values := v) end.
  assert (Hn : key ∉ values.*1).
  { unfold values. rewrite !fmap_cons, !not_elem_of_cons. simpl fst.
    destruct Hkey as [-> | ->]; (split_and!; [done..|apply not_elem_of_nil]). }
  rewrite setDrainAnnotations_other by done.
  assert (Hnd : NoDup values.*1) by (by apply (bool_decide_unpack _); vm_compute).
  destruct (setDrainAnnotations_copy values w1 Hnd) as (_ & _ & Ha). cbv zeta in Ha. rewrite Ha.
  destruct Hw1 as [-> ->].
  destruct (List.find _ values) as [kv|] eqn:Ef; [|by apply Hs]. destruct Hn.
  apply find_some in Ef as [Hin He]. breflect. subst key. apply list_elem_of_fmap_2. by apply list_elem_of_In.
Qed.
End Record.

(** A server is cordoned only once the drain's record of it is stored: after
    a pass that started from the stored record, every server it cordoned is on
    record in the API server with the time of the pass, whatever failed. *)
Theorem cordon_recorded {S} `{!ScaleDownClient S} (settle : Z) (w : World S) (sts : StatefulSet) :
  w_stsCached w = Found sts ->
  0 < sp_Servers (cl_Spec (w_cluster w)) < default 0 (sts_Replicas sts) ->
  (forall reported, listing w = Ok reported ->
     distinctIDs reported /\ Forall (fun s => cleanID (si_ID s)) reported) ->
  recordSynced w ->
  let w' := (reconcileScaleDownDrain settle w).2 in
  exists l, w_stmts w' = l ++ w_stmts w /\
    forall id, CordonStmt id ∈ l -> onRecord (w_now w) id (w_stored w').
Proof.
  intros Hsts Hn Hid Hsync. cbv zeta. set (R := cordonsStored (S := S) (w_now w)). change (R w (reconcileScaleDownDrain settle w).2).
  assert (HR : Passes (Forall noCordon) R) by apply cordonsStored_passes.
  apply (drain_rule settle (Forall noCordon) R w sts Hsts Hn). intros w1 reported Hl Hst.
  pose proof Hst as (Hnow & _ & _ & Hrows & Hann). destruct (Hid reported Hl) as [Hd Hclean].
  assert (Hsync1 : recordSynced w1).
  { intros key Hkey. destruct (Hann key) as [-> ->]; [by destruct Hkey as [-> | ->]..|by apply Hsync]. }
  set (I (w2 : World S) := recordSynced w2 /\ w_now w2 = w_now w).
  apply (drainReported_rule settle (Forall noCordon) R I (fun _ => I)).
  - rewrite Hrows, knownRows_ids; [apply Hd|done].
  - intros b. by split.
  - done.
  - intros w2 keep [Hs2 Hn2] _. split.
    + apply giveBackCordoned_sends; [apply _|]. intros. by repeat constructor.
    + intros Hok. split; [by apply giveBackCordoned_synced|]. by rewrite giveBackCordoned_now.
  - intros w2 keep active ids [Hs2 Hn2] _ Hact _. apply drainActive_cordons.
    + by apply setDrainServers_synced.
    + by rewrite setDrainServers_now.
    + apply Forall_forall. intros i (s & -> & Hs)%(list_elem_of_fmap serverIdentifier).
      apply Hact, list_elem_of_In, filter_In in Hs as [Hs _]. apply list_elem_of_In in Hs.
      assert (Hi : serverIdentifier s ∈ serverIdentifier <$> knownRows w1 reported) by by apply list_elem_of_fmap_2.
      rewrite knownRows_ids in Hi by done. apply list_elem_of_fmap in Hi as (r & -> & Hr).
      rewrite Forall_forall in Hclean. by apply Hclean.
Qed.

Lemma cordon_recorded_witness :
  exists l, w_stmts (reconcileScaleDownDrain 0 (drainWorld 0 exampleServers)).2 = l ++ [] /\
    forall id, CordonStmt id ∈ l -> onRecord 0 id (w_stored (reconcileScaleDownDrain 0 (drainWorld 0 exampleServers)).2).
Proof.
  refine (cordon_recorded 0 (drainWorld 0 exampleServers)
    (mkStatefulSet "c-server" ∅ 4 (Some 4) [("neo4j", "neo4j:2026.08.1")] None 4 4 4 "rev-a" "rev-a") _ _ _ _).
  - reflexivity.
  - split; reflexivity.
  - intros reported [= <-]. split; [apply exampleServers_distinct|].
    repeat constructor; vm_compute; done.
  - intros key _. reflexivity.
Defined.
