(* ===== verification/DrainHold.v ===== *)
(** How long the replicas are held during a scale-down
    (src/internal/controller/scale_down.go), what setting one back gives back,
    and that a refusal is announced once. *)
From S2P Require Import Prelude GoStrings ClusterTypes GoRFC3339 Conditions UpgradeRules UpgradeRecord World ServerIdentity Availability ScaleDown DrainSafety.

Open Scope Z_scope.

(** * Handlers that leave the hold alone *)

Definition isHold (key : string) : Prop :=
  key = ScaleDownHeldPodsAnnotation \/ key = ScaleDownDrainingServersAnnotation.

Section HoldKept.
Context {S : Type} `{!ScaleDownClient S}.

(** A handler that does not change the hold on the pass's copy. *)
Definition holdKept {A} (m : W S A) : Prop :=
  forall w key, isHold key -> annotation (w_cluster (m w).2) key = annotation (w_cluster w) key.

Lemma holdKept_bind {A B} (m : W S A) (k : A -> W S B) :
  holdKept m -> (forall a, holdKept (k a)) -> holdKept (m ≫= k).
Proof. intros Hm Hk w key H. rewrite bind_run. by rewrite Hk, Hm. Qed.

Lemma holdKept_pure {A} (m : W S A) : (forall w, w_cluster (m w).2 = w_cluster w) -> holdKept m.
Proof. intros H w key _. by rewrite H. Qed.

Lemma holdKept_ret {A} (a : A) : holdKept (mret a).
Proof. by apply holdKept_pure. Qed.

Lemma holdKept_gets {A} (f : World S -> A) : holdKept (gets f).
Proof. by apply holdKept_pure. Qed.

Lemma holdKept_event r m : holdKept (event (S := S) r m).
Proof. by apply holdKept_pure. Qed.

Lemma holdKept_wake n : holdKept (wake (S := S) n).
Proof. by apply holdKept_pure. Qed.

Lemma holdKept_send {A} stmt (call : S -> A * S) : holdKept (send stmt call).
Proof. apply holdKept_pure. intros w. unfold send. by destruct (call (w_neo4j w)). Qed.

Lemma holdKept_ask {A} (call : S -> A * S) : holdKept (ask call).
Proof. apply holdKept_pure. intros w. unfold ask. by destruct (call (w_neo4j w)). Qed.

Lemma holdKept_addresses c l : holdKept (withKnownAddresses (S := S) c l).
Proof. apply holdKept_pure. intros w. apply withKnownAddresses_cluster. Qed.

Lemma holdKept_annotations values :
  NoDup values.*1 -> (forall key, isHold key -> key ∉ values.*1) -> holdKept (setDrainAnnotations (S := S) values).
Proof.
  intros Hnd Hn w key Hkey. destruct (setDrainAnnotations_copy values w Hnd) as (_ & _ & Ha). cbv zeta in Ha.
  rewrite Ha. destruct (List.find _ values) as [kv|] eqn:Ef; [|done]. destruct (Hn key Hkey).
  apply find_some in Ef as [Hin He]. breflect. subst key. apply list_elem_of_fmap_2. by apply list_elem_of_In.
Qed.

Lemma holdKept_retry {A} steps (f : Cluster -> option Cluster * A) :
  holdKept (retryOnConflict (S := S) steps f keepCopy keepCopy).
Proof. apply holdKept_pure. intros w. apply retryOnConflict_copy. Qed.

Lemma holdKept_cordonServers ids : holdKept (cordonServers (S := S) ids).
Proof.
  induction ids as [|i ids IH]; [apply holdKept_ret|]. cbn [cordonServers]. apply holdKept_bind; [apply holdKept_send|].
  intros [e|]; [apply holdKept_ret|done].
Qed.

Lemma holdKept_dropServers ids : holdKept (dropServers (S := S) ids).
Proof.
  induction ids as [|i ids IH]; [apply holdKept_ret|]. cbn [dropServers]. apply holdKept_bind; [apply holdKept_send|].
  intros [e|]; [|done]. destruct (drainAlreadyUnderway e); [done|apply holdKept_ret].
Qed.

Lemma holdKept_enableServers record rows name ids enabled :
  holdKept (enableServers (S := S) record rows name ids enabled).
Proof. apply holdKept_pure. intros w. apply enableServers_frame. Qed.
End HoldKept.

Create HintDb hold discriminated.
#[export] Hint Resolve holdKept_ret holdKept_gets holdKept_event holdKept_wake holdKept_send holdKept_ask
  holdKept_addresses holdKept_retry holdKept_cordonServers holdKept_dropServers holdKept_enableServers : hold.

(** The values written are not the hold's. *)
Ltac not_hold :=
  apply holdKept_annotations;
    [by apply (bool_decide_unpack _); vm_compute
    |intros ? [-> | ->]; rewrite ?fmap_cons, ?not_elem_of_cons; split_and?; first [apply not_elem_of_nil | done]].

Ltac hold_step :=
  repeat first
    [ progress intros
    | match goal with |- holdKept (_ ≫= _) => apply holdKept_bind end
    | solve [auto with hold]
    | match goal with
      | |- holdKept (setDrainAnnotations (_ :: (if ?b then _ else _))) => destruct b
      | |- holdKept (if ?b then _ else _) => destruct b
      | |- holdKept (match ?x with _ => _ end) => destruct x
      end
    | not_hold ].

Section Hold.
Context {S : Type} `{!ScaleDownClient S}.
Variable settle : Z.

Lemma holdKept_condition status reason message :
  holdKept (setScaleDownConditionPersisted (S := S) status reason message).
Proof. unfold setScaleDownConditionPersisted, now_. hold_step. Qed.
#[local] Hint Resolve holdKept_condition : hold.

Lemma holdKept_block msg : holdKept (blockScaleDown (S := S) msg).
Proof. unfold blockScaleDown. hold_step. Qed.

Lemma holdKept_pending message : holdKept (pendingCondition (S := S) message).
Proof. unfold pendingCondition. hold_step. Qed.
#[local] Hint Resolve holdKept_block holdKept_pending : hold.

Lemma holdKept_giveBack servers ids : holdKept (giveBackCordoned (S := S) servers ids).
Proof. unfold giveBackCordoned, cluster_. hold_step. Qed.

Lemma holdKept_drainStep desired active step : holdKept (drainStep (S := S) settle desired active step).
Proof. unfold drainStep, now_, cluster_. hold_step. Qed.
#[local] Hint Resolve holdKept_giveBack holdKept_drainStep : hold.

Lemma holdKept_drainActive desired current active : holdKept (drainActive (S := S) settle desired current active).
Proof. unfold drainActive. hold_step. Qed.
End Hold.

(** * The hold is on *)

Lemma TrimSpace_visible_byte s : allBytes strings.isSpace s = false -> strings.TrimSpace s <> EmptyString.
Proof.
  intros H. unfold strings.TrimSpace, strings.trimFunc.
  induction s as [|c s IH]; [done|]. simpl in *. destruct (strings.isSpace c) eqn:Ec; [by apply IH|].
  simpl. rewrite Ec. by destruct (strings.trimRightFunc strings.isSpace s).
Qed.

Lemma TrimSpace_spaces s : allBytes strings.isSpace s = true -> strings.TrimSpace s = EmptyString.
Proof.
  intros H. unfold strings.TrimSpace, strings.trimFunc.
  assert (E : strings.trimLeftFunc strings.isSpace s = EmptyString); [|by rewrite E].
  induction s as [|c s IH]; [done|]. simpl in *. apply andb_true_iff in H as [-> H]. by apply IH.
Qed.

Lemma Join_visible x l sep :
  allBytes strings.isSpace x = false -> allBytes strings.isSpace (strings.Join (x :: l) sep) = false.
Proof. intros H. destruct l as [|y l]; cbn [strings.Join]; [done|]. by rewrite allBytes_app, H. Qed.

Lemma cleanID_visible i : cleanID i -> allBytes strings.isSpace i = false.
Proof.
  intros (Hne & _ & Ht). destruct (allBytes strings.isSpace i) eqn:E; [|done].
  apply TrimSpace_spaces in E. congruence.
Qed.

Lemma inProgress_held c v :
  annotation c ScaleDownHeldPodsAnnotation = v -> allBytes strings.isSpace v = false ->
  scaleDownDrainInProgress c = true.
Proof.
  intros Ha Hv. unfold scaleDownDrainInProgress. rewrite Ha. apply orb_true_iff. right.
  by apply negb_true_iff, String.eqb_neq, TrimSpace_visible_byte.
Qed.

Lemma inProgress_draining c v :
  annotation c ScaleDownDrainingServersAnnotation = v -> allBytes strings.isSpace v = false ->
  scaleDownDrainInProgress c = true.
Proof.
  intros Ha Hv. unfold scaleDownDrainInProgress. rewrite Ha. apply orb_true_iff. left.
  by apply negb_true_iff, String.eqb_neq, TrimSpace_visible_byte.
Qed.

(** Only pods below [desired] run a server Neo4j has not dropped. *)
Definition drained (rows : list ServerInfo) (clusterName : string) (desired : Z) : Prop :=
  forall s, s ∈ rows -> stateIs s "dropped" = true \/ exists ord, serverOrdinal s clusterName = Some ord /\ ord < desired.

Lemma nothing_removed rows clusterName desired :
  initialRemovedServerIDs rows clusterName desired = [] ->
  unidentifiedRemovedServerIDs rows clusterName desired = ([], EmptyString) ->
  drained rows clusterName desired.
Proof.
  intros Hi Hu s Hs. destruct (stateIs s "dropped") eqn:Ed; [by left|]. right.
  destruct (serverOrdinal s clusterName) as [ord|] eqn:Eo.
  - exists ord. split; [done|]. destruct (Z.leb_spec desired ord) as [Hle|]; [|done].
    assert (Hin : serverIdentifier s ∈ initialRemovedServerIDs rows clusterName desired).
    { apply list_elem_of_omap. exists s. rewrite Ed, Eo. by destruct (Z.leb_spec desired ord); [|lia]. }
    rewrite Hi in Hin. by apply elem_of_nil in Hin.
  - exfalso. revert Hu. unfold unidentifiedRemovedServerIDs. set (unknown := omap _ (List.filter _ rows)).
    assert (Hin : serverIdentifier s ∈ unknown).
    { apply list_elem_of_omap. exists s. rewrite Eo. split; [|done].
      apply list_elem_of_In, filter_In. rewrite <-list_elem_of_In. by rewrite Ed. }
    destruct unknown as [|u us]; [by apply elem_of_nil in Hin|].
    destruct (map _ _) as [|m ms]; intros [= H].
    pose proof (Strings_length (u :: us)) as Hl. by rewrite H in Hl.
Qed.

Lemma drainSet_grows cluster rows reported desired unidentified :
  let idSet := (drainSet cluster rows reported desired unidentified).1 in
  (forall id, id ∈ initialRemovedServerIDs rows (cl_Name cluster) desired -> id ∈ idSet) /\
  (forall id, id ∈ unidentified -> id ∈ idSet).
Proof.
  cbv zeta. unfold drainSet.
  set (start := list_to_set (initialRemovedServerIDs _ _ _) ∪ _ : gset string).
  assert (Hg : forall id keep start, id ∈ start -> id ∈ (fold_left (recordedServer (byID rows)
      (reportedOrdinals reported (cl_Name cluster)) (cl_Name cluster) desired)
      (drainServerIDsFromAnnotation cluster) (start, keep) : gset string * list string).1).
  { induction (drainServerIDsFromAnnotation cluster) as [|i ids IH]; intros id keep st Hid; [done|].
    cbn [fold_left]. unfold recordedServer at 2.
    destruct (byID rows !! i) as [s|]; [|by apply IH]. destruct (stateIs s "dropped"); [by apply IH|].
    destruct (keptByTheSpec _ _ _ _); apply IH; [done|]. set_solver. }
  split; intros id Hid; apply Hg; set_solver.
Qed.

Lemma drainSet_ids cluster rows reported desired id :
  id ∈ (drainSet cluster rows reported desired (unidentifiedRemovedServerIDs rows (cl_Name cluster) desired).1).1 ->
  id ∈ serverIdentifier <$> rows \/ id ∈ drainServerIDsFromAnnotation cluster.
Proof.
  unfold drainSet. set (start := list_to_set (initialRemovedServerIDs _ _ _) ∪ _ : gset string).
  assert (Hstart : id ∈ start -> id ∈ serverIdentifier <$> rows).
  { unfold start. rewrite elem_of_union, !elem_of_list_to_set.
    intros [H|H]; [apply (initialRemoved_not_kept rows ∅) in H|apply (unidentified_not_kept rows ∅) in H];
      destruct H as (s & Hs & <- & _); by apply list_elem_of_fmap_2. }
  clearbody start. generalize (@nil string). revert start Hstart.
  induction (drainServerIDsFromAnnotation cluster) as [|i ids IH]; intros start Hstart keep; [by intros; left; apply Hstart|].
  cbn [fold_left]. unfold recordedServer at 2. intros H.
  assert (Hr : id ∈ serverIdentifier <$> rows \/ id = i \/ id ∈ ids); [|rewrite elem_of_cons; tauto].
  destruct (byID rows !! i) as [s|]; [|apply IH in H; tauto].
  destruct (stateIs s "dropped"); [apply IH in H; tauto|].
  destruct (keptByTheSpec _ _ _ _); [apply IH in H; tauto|].
  destruct (decide (id = i)) as [->|Hne]; [tauto|]. apply IH in H; [tauto|]. intros Hin. apply Hstart. set_solver.
Qed.

Section HoldPass.
Context {S : Type} `{!ScaleDownClient S}.
Variable settle : Z.

Lemma inProgress_kept {A} (m : W S A) w :
  holdKept m -> scaleDownDrainInProgress (w_cluster (m w).2) = scaleDownDrainInProgress (w_cluster w).
Proof. intros H. unfold scaleDownDrainInProgress.
  by rewrite (H w _ (or_introl eq_refl)), (H w _ (or_intror eq_refl)). Qed.

Lemma holdPods_inProgress pods (w : World S) :
  allBytes strings.isSpace (strings.Join pods ",") = false ->
  scaleDownDrainInProgress (w_cluster (holdPods pods w).2) = true.
Proof.
  intros Hv. unfold holdPods.
  match goal with |- context [setDrainAnnotations ?v w] =>
    destruct (setDrainAnnotations_copy v w ltac:(by apply (bool_decide_unpack _); vm_compute)) as (_ & _ & Ha) end.
  eapply inProgress_held; [apply Ha|done].
Qed.

Lemma setDrainServers_inProgress ids (w : World S) :
  ids <> [] -> Forall cleanID ids -> scaleDownDrainInProgress (w_cluster (setDrainServers ids w).2) = true.
Proof.
  intros Hne Hc. destruct ids as [|i ids]; [done|]. apply Forall_cons in Hc as [Hi _].
  unfold setDrainServers. rewrite bind_run.
  match goal with |- context [setDrainAnnotations ?v ?w0] =>
    destruct (setDrainAnnotations_copy v w0 ltac:(by apply (bool_decide_unpack _); vm_compute)) as (_ & _ & Ha) end.
  eapply inProgress_draining; [apply Ha|]. by apply Join_visible, cleanID_visible.
Qed.

Lemma provisional_visible clusterName current desired :
  desired < current ->
  allBytes strings.isSpace (strings.Join (provisionalDrainHoldNames clusterName current desired) ",") = false.
Proof.
  intros H. unfold provisionalDrainHoldNames. rewrite seqZ_cons by lia. cbn [map]. apply Join_visible.
  unfold podName. rewrite !allBytes_app. apply andb_false_iff. by right.
Qed.

Lemma drainReported_hold desired current reported (w : World S) :
  desired < current ->
  Forall cleanID (serverIdentifier <$> knownRows w reported) ->
  scaleDownDrainInProgress (w_cluster w) = true ->
  scaleDownDrainInProgress (w_cluster (drainReported settle desired current reported w).2) = true \/
  drained (knownRows w reported) (cl_Name (w_cluster w)) desired.
Proof.
  intros Hlt Hclean Hin. unfold drainReported, cluster_. rewrite bind_gets, bind_run, withKnownAddresses_rows.
  cbn [from_option]. set (rows := knownRows w reported) in *. change (id rows) with rows.
  rewrite <-(inProgress_kept _ w (holdKept_addresses (w_cluster w) (Some reported))) in Hin.
  set (w1 := (withKnownAddresses _ _ w).2) in *. clearbody w1.
  set (clusterName := cl_Name (w_cluster w)).
  pose proof (drainSet_grows (w_cluster w) rows reported desired (unidentifiedRemovedServerIDs rows clusterName desired).1) as Hgrow.
  cbv zeta in Hgrow. fold clusterName in Hgrow.
  destruct (unidentifiedRemovedServerIDs rows clusterName desired) as [unidentified undecided] eqn:Eu. cbn [fst] in Hgrow.
  destruct (serversPastUndoing _ _ _ _ _ _) as [|p past].
  2: { left. rewrite inProgress_kept; [done|]. apply holdKept_bind; [apply holdKept_block|intros; apply holdKept_ret]. }
  assert (Hids : Forall cleanID (sort.Strings (elements (drainSet (w_cluster w) rows reported desired unidentified).1))).
  { apply Forall_forall. intros i. rewrite Strings_elem, elem_of_elements.
    change unidentified with (unidentified, undecided).1. rewrite <-Eu. intros [Hi|Hi]%drainSet_ids.
    - rewrite Forall_forall in Hclean. by apply Hclean.
    - by eapply annotationIDs_clean. }
  destruct (drainSet (w_cluster w) rows reported desired unidentified) as [idSet keep]. cbn [fst] in *. rewrite bind_run.
  set (give := match keep with [] => _ | _ => _ end).
  assert (Hgive : holdKept give) by (unfold give; destruct keep; [apply holdKept_ret|apply holdKept_giveBack]).
  rewrite <-(inProgress_kept give w1 Hgive) in Hin. destruct (give w1) as [[e|] w2]; cbn [fst snd] in *; [by left|].
  set (ids := sort.Strings (elements idSet)) in *.
  destruct ((length ids =? 0)%nat && (undecided =? "")%string) eqn:Enone.
  - right. breflect. subst undecided.
    assert (Hempty : idSet = ∅).
    { apply leibniz_equiv, elements_empty_inv, nil_length_inv. rewrite <-(Strings_length (elements idSet)). by apply Nat.eqb_eq. }
    destruct Hgrow as [Hg1 Hg2]. apply nothing_removed.
    + apply elem_of_nil_inv. intros i Hi. specialize (Hg1 i Hi). set_solver.
    + rewrite Eu. f_equal. apply elem_of_nil_inv. intros i Hi. specialize (Hg2 i Hi). set_solver.
  - left. destruct ((length (activeServers ids (byID rows)) =? 0)%nat && _) eqn:Ewait.
    + rewrite bind_run. by apply holdPods_inProgress, provisional_visible.
    + rewrite bind_run. assert (Hne : ids <> []).
      { intros E. rewrite E in Enone, Ewait. simpl in *. destruct (String.eqb undecided ""); done. }
      pose proof (setDrainServers_inProgress ids w2 Hne Hids) as Hp.
      destruct (setDrainServers ids w2) as [[e|] w3]; cbn [fst snd] in *; [done|].
      rewrite inProgress_kept; [done|apply holdKept_drainActive].
Qed.
End HoldPass.

(** C3: the replicas are held. During a scale-down, after every pass the pass's
    copy carries the hold the StatefulSet is applied with, whatever Neo4j
    answers and whichever writes fail, until SHOW SERVERS has been read and only
    pods the spec keeps run a server that is not dropped. *)
Theorem hold_until_drained {S} `{!ScaleDownClient S} (settle : Z) (w : World S) (sts : StatefulSet) :
  w_stsCached w = Found sts ->
  0 < sp_Servers (cl_Spec (w_cluster w)) < default 0 (sts_Replicas sts) ->
  (forall reported, listing w = Ok reported ->
     distinctIDs reported /\ Forall (fun s => cleanID (si_ID s)) reported) ->
  scaleDownDrainInProgress (w_cluster (reconcileScaleDownDrain settle w).2) = true \/
  exists reported, listing w = Ok reported /\
    drained (knownRows w reported) (cl_Name (w_cluster w)) (sp_Servers (cl_Spec (w_cluster w))).
Proof.
  intros Hsts Hn Hid. unfold reconcileScaleDownDrain, cluster_.
  rewrite !bind_gets, Hsts. set (desired := sp_Servers (cl_Spec (w_cluster w))) in *.
  destruct (Z.leb_spec desired 0); [lia|]. destruct (Z.leb_spec (default 0 (sts_Replicas sts)) desired); [lia|].
  set (hold := if negb (scaleDownDrainInProgress (w_cluster w)) then _ else _).
  assert (Hh : (asStarted w (hold w).2 /\ listing (hold w).2 = listing w) /\
    scaleDownDrainInProgress (w_cluster (hold w).2) = true).
  { unfold hold. destruct (scaleDownDrainInProgress (w_cluster w)) eqn:E; cbn [negb]; [done|].
    split; [apply holdPods_frame|]. by apply holdPods_inProgress, provisional_visible. }
  rewrite bind_run. destruct (hold w) as [[e|] w1]; cbn [fst snd] in *; destruct Hh as [[Hf Hl] Hp]; [by left|].
  destruct Hf as (_ & _ & Hname & Hrows & _).
  unfold mbind, W_bind, ask. rewrite <-Hl in Hid |- *. revert Hid. unfold listing.
  destruct (Connect (w_neo4j w1)) as [[e|] n]; [by left|]. cbn [w_neo4j set_w_neo4j].
  destruct (ListServersFromLeader n) as [[reported|e] n']; cbn [fst]; intros Hid; [|by left].
  destruct (Hid reported eq_refl) as [Hd Hc].
  set (w2 := set_w_neo4j n' (set_w_neo4j n w1)).
  destruct (drainReported_hold settle desired (default 0 (sts_Replicas sts)) reported w2) as [?|Hdr]; [lia| |done|by left|].
  - change (Forall cleanID (serverIdentifier <$> knownRows w1 reported)). rewrite knownRows_ids by done.
    apply Forall_fmap. done.
  - right. exists reported. split; [done|]. change (knownRows w2 reported) with (knownRows w1 reported) in Hdr.
    change (w_cluster w2) with (w_cluster w1) in Hdr. by rewrite Hrows, Hname in Hdr.
Qed.

Lemma hold_until_drained_witness :
  scaleDownDrainInProgress (w_cluster (reconcileScaleDownDrain 0 (drainWorld 0 exampleServers)).2) = true \/
  exists reported, listing (drainWorld 0 exampleServers) = Ok reported /\
    drained (knownRows (drainWorld 0 exampleServers) reported) "c" 3.
Proof.
  refine (hold_until_drained 0 (drainWorld 0 exampleServers)
    (mkStatefulSet "c-server" ∅ 4 (Some 4) [("neo4j", "neo4j:2026.08.1")] None 4 4 4 "rev-a" "rev-a") _ _ _).
  - reflexivity.
  - split; reflexivity.
  - intros reported [= <-]. split; [apply exampleServers_distinct|].
    repeat constructor; vm_compute; done.
Defined.

(** * The system database's minimum *)

Definition onlyEnables (stmt : statement) : Prop :=
  match stmt with EnableStmt _ => True | _ => False end.

(** A scale-down below the system database's minimum number of primaries
    never cordons, deallocates (not even as a dry run) or drops a server, and
    the replicas stay held. *)
Theorem minimum_respected {S} `{!ScaleDownClient S} (settle m : Z) (w : World S) (sts : StatefulSet) :
  (forall n, (MinimumSystemPrimaries n).1 = m) ->
  w_stsCached w = Found sts ->
  0 < sp_Servers (cl_Spec (w_cluster w)) < default 0 (sts_Replicas sts) ->
  (forall reported, listing w = Ok reported -> distinctIDs reported) ->
  sp_Servers (cl_Spec (w_cluster w)) < m ->
  sent (Forall onlyEnables) w (reconcileScaleDownDrain settle w).2.
Proof.
  intros Hm Hsts Hn Hid Hlt. apply (drain_rule settle (Forall onlyEnables) _ w sts Hsts Hn).
  intros w1 reported Hl Hst. pose proof Hst as (_ & _ & _ & Hrows & _).
  apply (drainReported_rule settle (Forall onlyEnables) _ (fun _ => True) (fun _ _ => True)); try done.
  - rewrite Hrows, knownRows_ids; by apply Hid.
  - intros w2 keep _ _. split; [|done]. apply giveBackCordoned_sends; [apply _|]. intros. by repeat constructor.
  - intros w2 keep active ids _ _ _ _. cbv zeta. unfold drainActive. rewrite bind_run.
    set (w3 := (setDrainServers ids w2).2). clearbody w3.
    assert (Ha : (ask MinimumSystemPrimaries w3).1 = m).
    { unfold ask. specialize (Hm (w_neo4j w3)). by destruct (MinimumSystemPrimaries (w_neo4j w3)). }
    pose proof (quiet_ask MinimumSystemPrimaries w3) as Hq. rewrite Ha.
    destruct (Z.ltb_spec (sp_Servers (cl_Spec (w_cluster w))) m); [|lia].
    destruct (ask MinimumSystemPrimaries w3) as [a w4]. cbn [fst snd] in *.
    apply (sent_trans _ _ w4); [by apply sent_refl; [apply _|]|]. clear. as_sends w4. sends_step.
Qed.

(** The spec asks for two servers of four. *)
Definition tooFewWorld : World exampleNeo4j :=
  set_w_cluster (set_cl_Spec (set_sp_Servers 2 (cl_Spec drainCluster)) drainCluster) (drainWorld 0 exampleServers).

Lemma minimum_respected_witness :
  sent (Forall onlyEnables) tooFewWorld (reconcileScaleDownDrain 0 tooFewWorld).2 /\
  scaleDownDrainInProgress (w_cluster (reconcileScaleDownDrain 0 tooFewWorld).2) = true.
Proof.
  split; [|vm_compute; reflexivity].
  refine (minimum_respected 0 3 tooFewWorld
    (mkStatefulSet "c-server" ∅ 4 (Some 4) [("neo4j", "neo4j:2026.08.1")] None 4 4 4 "rev-a" "rev-a") _ _ _ _ _).
  - reflexivity.
  - reflexivity.
  - split; reflexivity.
  - intros reported [= <-]. apply exampleServers_distinct.
  - reflexivity.
Defined.

(** * A scale-down set back *)

Section SetBack.
Context {S : Type} `{!ScaleDownClient S}.
Variable settle : Z.

(** Enabling that went through sent ENABLE for every server it is for. *)
Lemma enableServers_all record rows name ids enabled (w : World S) :
  match (enableServers record rows name ids enabled w).1 with
  | Err _ => True
  | Ok _ => forall id s, id ∈ ids -> rows !! id = Some s -> id ∈ record -> stateIs s "cordoned" = true ->
      EnableStmt id ∈ w_stmts (enableServers record rows name ids enabled w).2
  end /\
  forall stmt, stmt ∈ w_stmts w -> stmt ∈ w_stmts (enableServers record rows name ids enabled w).2.
Proof.
  revert enabled w. induction ids as [|i ids IH]; intros enabled w; cbn [enableServers].
  { split; [|done]. by intros id s []%elem_of_nil. }
  destruct (rows !! i) as [s|] eqn:Er.
  2: { destruct (IH enabled w) as [H1 H2]. split; [|done]. destruct (_.1); [|done].
       intros id s [->|Hi]%elem_of_cons; [congruence|by apply H1]. }
  destruct (bool_decide (i ∈ record) && stateIs s "cordoned") eqn:Eb.
  2: { destruct (IH enabled w) as [H1 H2]. split; [|done]. destruct (_.1); [|done].
       intros id s' [->|Hi]%elem_of_cons; [|by apply H1]. intros Hs Hr Hc. simplify_eq.
       rewrite bool_decide_eq_true_2 in Eb by done. by rewrite Hc in Eb. }
  rewrite bind_run. unfold send. destruct (EnableServer i (w_neo4j w)) as [[e|] n]; cbn [fst snd].
  { split; [done|]. intros stmt Hst. by right. }
  match goal with |- context [enableServers _ _ _ _ ?en ?w1] => destruct (IH en w1) as [H1 H2] end.
  split; [|intros stmt Hst; apply H2; by right].
  destruct (_.1); [|done]. intros id s' [->|Hi]%elem_of_cons; [|by apply H1]. intros _ _ _. apply H2. left.
Qed.

(** The servers a set-back refuses over: touched by the drain, and past undoing. *)
Definition pastUndoing (w : World S) (current : Z) (reported : list ServerInfo) : list ServerInfo :=
  serversPastUndoing (knownRows w reported) reported (cl_Name (w_cluster w)) current (drainTouched (w_cluster w)) true.

(** ENABLE for a server on the record that Neo4j lists Cordoned. *)
Definition givesBack (record : list string) (rows : list ServerInfo) (stmt : statement) : Prop :=
  match stmt with
  | EnableStmt id => id ∈ record /\ exists s, s ∈ rows /\ serverIdentifier s = id /\ stateIs s "cordoned" = true
  | _ => False
  end.

Lemma giveBack_all servers (w : World S) :
  let record := cordonedByDrain (w_cluster w) in
  let w' := (giveBackCordoned servers record w).2 in
  sent (Forall (givesBack record servers)) w w' /\
  (cordonedByDrain (w_cluster w') <> record \/ (giveBackCordoned servers record w).1 = None ->
   forall id s, id ∈ record -> byID servers !! id = Some s -> stateIs s "cordoned" = true -> EnableStmt id ∈ w_stmts w').
Proof.
  cbv zeta. set (record := cordonedByDrain (w_cluster w)). split.
  - apply giveBackCordoned_sends; [apply _|]. intros id s Hid Hs Hr Hc. constructor; [|done]. split; [done|].
    apply byID_elem in Hs as [? ?]. by exists s.
  - unfold giveBackCordoned, cluster_. rewrite bind_gets, bind_run. fold record.
    match goal with |- context [enableServers ?r ?b ?nm ?i ?e w] =>
      destruct (enableServers_all r b nm i e w) as [Hall _]; pose proof (enableServers_frame r b nm i e w) as [Hc _];
      destruct (enableServers r b nm i e w) as [[enabled|er] w1] end; cbn [fst snd] in *.
    + intros _ id s Hid Hs Hst. rewrite bind_run.
      match goal with |- context [setDrainAnnotations ?v w1] =>
        pose proof (quiet_setDrainAnnotations v w1) as Hq; destruct (setDrainAnnotations v w1) as [[e|] w2] end; cbn [fst snd] in *.
      * cbn. rewrite Hq. eapply Hall; [by apply Strings_elem|done..].
      * assert (Hin : EnableStmt id ∈ w_stmts w2) by (rewrite Hq; eapply Hall; [by apply Strings_elem|done..]).
        by destruct (0 <? length enabled)%nat.
    + intros [Hne|]; [|done]. destruct Hne. cbn. by rewrite Hc.
Qed.

Lemma setBack_listed {B} (k : list ServerInfo -> W S B) (none : B) (w : World S) reported :
  listing w = Ok reported ->
  (e ← ask Connect;
   match e with
   | Some _ => mret none
   | None => r ← ask ListServersFromLeader;
             match r with Err _ => mret none | Ok reported => k reported end
   end) w = k reported (set_w_neo4j (ListServersFromLeader (Connect (w_neo4j w)).2).2 w).
Proof.
  unfold listing, mbind, W_bind, ask. destruct (Connect (w_neo4j w)) as [[e|] n]; [done|]. cbn [w_neo4j set_w_neo4j].
  cbn [snd]. destruct (ListServersFromLeader n) as [r n']. cbn [fst]. by intros ->.
Qed.

Lemma block_copy msg (w : World S) : w_cluster (blockScaleDown msg w).2 = w_cluster w.
Proof.
  unfold blockScaleDown, setScaleDownConditionPersisted, now_. rewrite !bind_run. cbn [gets fst snd].
  match goal with |- context [retryOnConflict DefaultRetry ?f keepCopy keepCopy w] =>
    pose proof (retryOnConflict_copy DefaultRetry f w) as Hk; destruct (retryOnConflict DefaultRetry f keepCopy keepCopy w) as [r w'] end.
  cbn [fst snd mret W_ret] in *. unfold mret, W_ret. cbn [fst snd]. by destruct r as [[]|].
Qed.

(** After the servers are given back nothing more is sent, and the record
    changes only if they were all given back. *)
Lemma giveBack_then servers ids (w : World S) :
  let m : W S (option string) :=
    e ← giveBackCordoned servers ids;
    match e with Some _ => mret None | None => settleScaleDownCondition scaleDownNotInProgressMessage ;; clearDrainRecords end in
  let w' := (m w).2 in
  w_stmts w' = w_stmts (giveBackCordoned servers ids w).2 /\
  forall record, cordonedByDrain (w_cluster w') <> record ->
    cordonedByDrain (w_cluster (giveBackCordoned servers ids w).2) <> record \/ (giveBackCordoned servers ids w).1 = None.
Proof.
  cbv zeta. rewrite bind_run. destruct (giveBackCordoned servers ids w) as [[e|] w1]; cbn [fst snd].
  - split; [done|]. intros record H. by left.
  - split; [|by right]. assert (Hq : quiet (settleScaleDownCondition (S := S) scaleDownNotInProgressMessage ;; clearDrainRecords)) by quiet_step.
    apply Hq.
Qed.
End SetBack.

(** A scale-down set back (the spec asks for as many servers as there are,
    or more). The pass sends ENABLE and nothing else, for servers the drain
    cordoned and Neo4j still lists Cordoned; it sends nothing and keeps the
    drain's record when a server the drain touched is past undoing; and the
    record goes only once ENABLE was sent for every cordoned server on it. *)
Theorem set_back_gives_back {S} `{!ScaleDownClient S} (settle : Z) (w : World S) (sts : StatefulSet)
    (reported : list ServerInfo) :
  w_stsCached w = Found sts ->
  0 < sp_Servers (cl_Spec (w_cluster w)) -> default 0 (sts_Replicas sts) <= sp_Servers (cl_Spec (w_cluster w)) ->
  listing w = Ok reported -> distinctIDs reported ->
  let record := cordonedByDrain (w_cluster w) in
  let rows := knownRows w reported in
  let w' := (reconcileScaleDownDrain settle w).2 in
  sent (Forall (givesBack record rows)) w w' /\
  (record <> [] \/ drainServerIDsFromAnnotation (w_cluster w) <> [] ->
   (pastUndoing w (default 0 (sts_Replicas sts)) reported <> [] ->
      w_stmts w' = w_stmts w /\ cl_Annotations (w_cluster w') = cl_Annotations (w_cluster w)) /\
   (cordonedByDrain (w_cluster w') <> record ->
      forall s, s ∈ rows -> serverIdentifier s ∈ record -> stateIs s "cordoned" = true ->
      EnableStmt (serverIdentifier s) ∈ w_stmts w')).
Proof.
  intros Hsts Hd Hle Hl Hids. cbv zeta. set (record := cordonedByDrain (w_cluster w)). set (rows := knownRows w reported).
  unfold reconcileScaleDownDrain, cluster_. rewrite !bind_gets, Hsts.
  destruct (Z.leb_spec (sp_Servers (cl_Spec (w_cluster w))) 0); [lia|].
  destruct (Z.leb_spec (default 0 (sts_Replicas sts)) (sp_Servers (cl_Spec (w_cluster w)))); [|lia].
  unfold setBackScaleDown, cluster_. rewrite bind_gets. fold record.
  destruct (_ && _) eqn:Ee.
  - split; [apply quiet_sends; [apply _|quiet_step]|]. intros Hne. exfalso. breflect.
    apply Nat.eqb_eq in H1, H2. destruct Hne as [Hne|Hne]; apply Hne; by apply nil_length_inv.
  - rewrite (setBack_listed _ None w reported Hl). set (w1 := set_w_neo4j _ w). assert (Hrows : knownRows w1 reported = rows) by done.
    change (w_cluster w) with (w_cluster w1). rewrite bind_run, withKnownAddresses_rows, Hrows.
    cbn [from_option]. change (id rows) with rows.
    pose proof (withKnownAddresses_cluster w1 (w_cluster w1) (Some reported)) as Hcl.
    pose proof (quiet_addresses (w_cluster w1) (Some reported) w1) as Hq.
    set (w2 := (withKnownAddresses _ _ w1).2) in *. clearbody w2.
    assert (Hst : w_stmts w2 = w_stmts w) by by rewrite Hq.
    unfold pastUndoing. fold rows. change (w_cluster w) with (w_cluster w1).
    destruct (serversPastUndoing _ _ _ _ _ _) as [|p past].
    + pose proof (giveBack_all rows w2) as Hg. cbv zeta in Hg. rewrite Hcl in Hg.
      change (cordonedByDrain (w_cluster w1)) with record in Hg |- *. destruct Hg as [Hg1 Hg2].
      pose proof (giveBack_then rows record w2) as Hthen. cbv zeta in Hthen.
      set (w' := (_ w2).2) in Hthen |- *. destruct Hthen as (Hstmts & Hkept).
      assert (Hs : sent (Forall (givesBack record rows)) w w').
      { unfold sent in *. rewrite Hstmts. by rewrite <-Hst. }
      split; [done|]. intros _. split; [done|]. intros Hne s Hs' Hid Hc. rewrite Hstmts.
      apply (Hg2 (Hkept record Hne) (serverIdentifier s) s); try done.
      apply byID_unique; [|done]. unfold rows. rewrite knownRows_ids by done. apply Hids.
    + match goal with |- context [(blockScaleDown ?m ≫= ?k) w2] =>
        pose proof (quiet_block m w2) as Hqb; pose proof (block_copy m w2) as Hcb;
        set (w' := ((blockScaleDown m ≫= k) w2).2) end.
      assert (Hw' : w_stmts w' = w_stmts w /\ w_cluster w' = w_cluster w).
      { unfold w'. rewrite bind_run. unfold mret, W_ret. cbn [snd]. rewrite Hqb, Hcb, Hst. by rewrite Hcl. }
      destruct Hw' as [Hs' Hc']. split; [by apply sent_refl; [apply _|]|]. intros _.
      split; [intros _; by rewrite Hc'|]. intros Hne. destruct Hne. by rewrite Hc'.
Qed.

(** srv-3 is cordoned and on record, and the spec asks for four servers again. *)
Definition setBackWorld : World exampleNeo4j :=
  set_w_cluster (set_cl_Spec (set_sp_Servers 4 (cl_Spec drainCluster)) (w_cluster settlingWorld)) settlingWorld.

Lemma set_back_gives_back_witness :
  (forall s, s ∈ knownRows setBackWorld (ex_rows (w_neo4j setBackWorld)) -> serverIdentifier s ∈ ["srv-3"] ->
     stateIs s "cordoned" = true ->
     EnableStmt (serverIdentifier s) ∈ w_stmts (reconcileScaleDownDrain 0 setBackWorld).2) /\
  w_stmts (reconcileScaleDownDrain 0 setBackWorld).2 = [EnableStmt "srv-3"].
Proof.
  split; [|vm_compute; reflexivity].
  refine (proj2 (proj2 (set_back_gives_back 0 setBackWorld
    (mkStatefulSet "c-server" ∅ 4 (Some 4) [("neo4j", "neo4j:2026.08.1")] None 4 4 4 "rev-a" "rev-a")
    (ex_rows (w_neo4j setBackWorld)) _ _ _ _ _) _) _).
  - reflexivity.
  - reflexivity.
  - vm_compute. done.
  - reflexivity.
  - split; [by repeat constructor|by apply (bool_decide_unpack _); vm_compute].
  - left. vm_compute. done.
  - vm_compute. done.
Defined.
