(* ===== verification/UpgradeWrites.v ===== *)
(** The writes of a rolling upgrade to the cluster's status: the record, with
    the phase it ends and the condition that follows it; a stop; a start a check
    refused; what the servers started on; a topology change that waits; and the
    pods the operator replaces (patchUpgradeStatus and failUpgrade of
    rolling_upgrade_statemachine.go, updateUpgradeStatus of rolling_upgrade.go,
    upgrade_start.go, upgrade_started_target.go, upgrade_topology.go and
    stuck_server_pods.go, under src/internal/controller). What a handler returns
    is the delay after which the pass is run again, 0 for none. *)
From S2P Require Import Prelude GoStrings ClusterTypes Conditions Version UpgradeRules UpgradeRecord World ServerIdentity Availability UpgradeRepair ScaleDown.

Open Scope Z_scope.

Definition upgradeStepRequeue : Z := 15 * second.
Definition upgradeTransitionRequeue : Z := 5 * second.

(** Assign status.upgradeStatus. *)
Definition setRecord (us : option UpgradeStatus) (cluster : Cluster) : Cluster :=
  set_cl_Status (set_cs_UpgradeStatus us (cl_Status cluster)) cluster.

Definition recordOf (cluster : Cluster) : option UpgradeStatus := cs_UpgradeStatus (cl_Status cluster).

(** [cluster.Status.UpgradeStatus = latest.Status.UpgradeStatus]. *)
Definition mirrorRecord (latest copy : Cluster) : Cluster := setRecord (recordOf latest) copy.

(** * The record *)

(** What one attempt of [patchUpgradeStatus] writes, with the phase it ends. *)
Definition patchBody {A} (now : Z) (mutate : UpgradeStatus -> UpgradeStatus * A) (latest : Cluster)
  : option Cluster * (A * option endedUpgradePhase) :=
  let us := default emptyUpgradeStatus (recordOf latest) in
  let '(us', a) := mutate us in
  let '(us', ended) := stampUpgradePhaseTransition us' (us_Phase us) (us_PhaseStartTime us) now in
  (Some (syncStalledCondition now (setRecord (Some us') latest)).1, (a, ended)).

(** What one attempt of [updateUpgradeStatus] writes; [tag] is the pass's
    spec.image.tag. *)
Definition statusBody (now : Z) (tag phase currentStep lastError reported : string) (latest : Cluster)
  : option Cluster * option endedUpgradePhase :=
  match recordOf latest with
  | None => (None, None)
  | Some us =>
      let us' := set_us_Message currentStep (set_us_CurrentStep currentStep (set_us_Phase phase us)) in
      let us' := if String.eqb lastError EmptyString then us' else set_us_LastError lastError us' in
      let '(st, us') :=
        if String.eqb phase upgradePhaseCompleted then
          let us' := set_us_CompletionTime (Some now) us' in
          let st := set_cs_Version tag (set_cs_LastUpgradeTime (Some now) (cl_Status latest)) in
          let st := set_cs_RunningVersion (default EmptyString (runningVersionFor tag reported)) st in
          (st, match resolvedTargetVersionFor (Some us') reported with
               | Some resolved => set_us_ResolvedTargetVersion resolved us'
               | None => us'
               end)
        else (cl_Status latest, us') in
      let '(us', ended) := stampUpgradePhaseTransition us' (us_Phase us) (us_PhaseStartTime us) now in
      (Some (syncStalledCondition now (setRecord (Some us') (set_cl_Status st latest))).1, ended)
  end.

Section Writes.
Context {S : Type}.

Definition recordEndedUpgradePhase (ended : option endedUpgradePhase) : W S unit :=
  match ended with
  | Some e => modify (fun w => set_w_observed (e :: w_observed w) w)
  | None => mret tt
  end.

(** A metric of an upgrade that ended, well or not. *)
Definition RecordUpgrade (success : bool) : W S unit :=
  modify (fun w => set_w_upgrades (success :: w_upgrades w) w).

Definition patchUpgradeStatus {A} (mutate : UpgradeStatus -> UpgradeStatus * A) : W S (result A) :=
  now ← now_;
  r ← retryOnConflict DefaultBackoff (patchBody now mutate) mirrorRecord keepCopy;
  match r with
  | Err e => mret (Err e)
  | Ok (a, ended) => recordEndedUpgradePhase ended ;; mret (Ok a)
  end.

(** An update that returns nothing. *)
Definition noting (mutate : UpgradeStatus -> UpgradeStatus) (us : UpgradeStatus) : UpgradeStatus * unit :=
  (mutate us, tt).

Definition updateUpgradeStatus (phase currentStep lastError reported : string) : W S (option string) :=
  now ← now_;
  cluster ← cluster_;
  match recordOf cluster with
  | None => mret None
  | Some _ =>
      r ← retryOnConflict DefaultBackoff
            (statusBody now (sp_ImageTag (cl_Spec cluster)) phase currentStep lastError reported)
            mirrorRecord keepCopy;
      match r with
      | Err e => mret (Some e)
      | Ok ended => recordEndedUpgradePhase ended ;; mret None
      end
  end.

(** * The cluster's message *)

Definition clusterShortUpgradeMessage (us : UpgradeStatus) : string :=
  "Neo4j cluster's upgrade to " +:+ us_TargetVersion us
  +:+ " is in progress (status.upgradeStatus): the servers that could not start are replaced first, then the rest one at a time".

Definition noteUpgradeInClusterMessage : W S unit :=
  cluster ← cluster_;
  let phase := cs_Phase (cl_Status cluster) in
  if String.eqb phase PhaseReady && bool_decide (serversUnavailableSince (cl_Status cluster) = None) then
    updateClusterStatus PhaseReady (clusterReadyMessage cluster) ;; mret tt
  else if upgradeStateMachineActive cluster && clusterHasFormed (cl_Status cluster)
          && (String.eqb phase PhaseReady || String.eqb phase PhaseDegraded || String.eqb phase PhaseForming)
  then match recordOf cluster with
       | Some us => updateClusterStatus phase (clusterShortUpgradeMessage us) ;; mret tt
       | None => mret tt
       end
  else mret tt.

(** * A stop *)

Definition stopPhase (cluster : Cluster) : string :=
  if autoPauseOnFailure cluster then upgradePhasePaused else upgradePhaseFailed.

(** The record of a stopped step, and whether its cause is new. *)
Definition stopMutate (phase step cause : string) (prepare : UpgradeStatus -> UpgradeStatus)
    (us : UpgradeStatus) : UpgradeStatus * bool :=
  let s := prepare us in
  (set_us_Message step (set_us_CurrentStep step (set_us_LastError cause (set_us_Phase phase s))),
   negb (String.eqb (us_LastError s) cause)).

(** [prepare] runs first, in the same write; no caller passes any. *)
Definition failUpgrade (cause : string) (prepare : list (UpgradeStatus -> UpgradeStatus)) : W S Z :=
  cluster ← cluster_;
  let paused := autoPauseOnFailure cluster in
  let step := if paused then "Upgrade paused due to failure - manual intervention required"
              else "Rolling upgrade failed" in
  r ← patchUpgradeStatus (stopMutate (stopPhase cluster) step cause (fun us => fold_left (fun s p => p s) prepare us));
  match r with
  | Err _ => mret upgradeStepRequeue
  | Ok announce =>
      RecordUpgrade false ;;
      noteUpgradeInClusterMessage ;;
      (if negb announce then mret tt
       else if paused then event "UpgradePaused" ("Upgrade paused: " +:+ cause)
       else event "UpgradeFailed" ("Rolling upgrade failed: " +:+ cause)) ;;
      mret (if paused then 0 else upgradeTransitionRequeue)
  end.

(** The record of a refused start, and whether it changed. *)
Definition refuseMutate (phase step cause : string) (prepare : UpgradeStatus -> UpgradeStatus)
    (us : UpgradeStatus) : UpgradeStatus * bool :=
  let s := prepare us in
  let s := set_us_Message step (set_us_CurrentStep step (set_us_LastError cause (set_us_Phase phase s))) in
  (s, negb (String.eqb (us_Phase us) (us_Phase s))
      || negb (String.eqb (us_TargetVersion us) (us_TargetVersion s))
      || negb (String.eqb (us_LastError us) (us_LastError s))).

(** [requeue] is the reconciler's RequeueAfter. *)
Definition refuseUpgradeStart (requeue : Z) (cause : string) (prepare : UpgradeStatus -> UpgradeStatus)
  : W S Z :=
  cluster ← cluster_;
  let pause := autoPauseOnFailure cluster in
  let step := if pause then "Upgrade paused before it started - manual intervention required"
              else "Rolling upgrade refused before it started; it is tried again" in
  r ← patchUpgradeStatus (refuseMutate (stopPhase cluster) step cause prepare);
  match r with
  | Err _ => mret upgradeStepRequeue
  | Ok changed =>
      (if (changed : bool) then
         RecordUpgrade false ;;
         if pause then event "UpgradePaused" ("Upgrade paused: " +:+ cause)
         else event "UpgradeFailed" ("Rolling upgrade failed: " +:+ cause)
       else mret tt) ;;
      noteUpgradeInClusterMessage ;;
      mret (if pause then requeue else upgradeStartRetry + upgradeTransitionRequeue)
  end.

(** * What the servers started on *)

(** What one attempt of [recordStartedTarget] writes, and whether it wrote. *)
Definition startedBody (target : string) (latest : Cluster) : option Cluster * bool :=
  match recordOf latest with
  | None => (None, false)
  | Some l =>
      if negb (String.eqb (us_TargetVersion l) target) then (None, false)
      else (Some (setRecord (Some (set_us_StartedTargetVersion target l)) latest), true)
  end.

Definition recordStartedTarget : W S unit :=
  cluster ← cluster_;
  pods ← gets w_podsCached;
  match recordOf cluster with
  | None => mret tt
  | Some us =>
      let target := us_TargetVersion us in
      if String.eqb target EmptyString || String.eqb (us_StartedTargetVersion us) target
         || String.eqb (us_Phase us) upgradePhaseCompleted then mret tt
      else match targetStartedOnAServer pods target with
      | Err _ | Ok false => mret tt
      | Ok true =>
          r ← retryOnConflict DefaultRetry (startedBody target) keepCopy keepCopy;
          match r with
          | Ok true =>
              modify (fun w => set_w_cluster
                (setRecord (Some (set_us_StartedTargetVersion target us)) (w_cluster w)) w)
          | _ => mret tt
          end
      end
  end.

(** What one attempt of [forgetAbandonedUpgrade] writes. *)
Definition forgetBody (now : Z) (target phase : string) (latest : Cluster) : option Cluster * unit :=
  match recordOf latest with
  | None => (None, tt)
  | Some l =>
      if negb (String.eqb (us_TargetVersion l) target) || negb (String.eqb (us_Phase l) phase) then (None, tt)
      else (Some (syncStalledCondition now (setRecord None latest)).1, tt)
  end.

Definition forgetAbandonedUpgrade : W S unit :=
  now ← now_;
  cluster ← cluster_;
  sts ← gets w_stsCached;
  pods ← gets w_podsCached;
  match recordOf cluster with
  | None => mret tt
  | Some us =>
      if negb (upgradeAbandoned cluster (serverImageInPlace cluster sts pods)) then mret tt
      else
        r ← retryOnConflict DefaultRetry (forgetBody now (us_TargetVersion us) (us_Phase us)) keepCopy keepCopy;
        match r with
        | Err _ => mret tt
        | Ok _ => modify (fun w => set_w_cluster (setRecord None (w_cluster w)) w)
        end
  end.

(** * A topology change that waits *)

Definition ConditionTypeTopologyChangeDeferred : string := "TopologyChangeDeferred".
Definition ConditionReasonWaitsForUpgrade : string := "WaitsForUpgrade".
Definition ConditionReasonWaitsForRemovedServers : string := "WaitsForRemovedServers".
Definition ConditionReasonNoTopologyChangeWaits : string := "NoTopologyChangeWaits".

Definition noTopologyChangeWaits (have : option Condition) : wanted :=
  let message :=
    match have with
    | None => "No change of spec.topology.servers waits for an upgrade"
    | Some c =>
        if String.eqb (c_Status c) ConditionFalse && negb (String.eqb (c_Message c) EmptyString) then c_Message c
        else if String.eqb (c_Reason c) ConditionReasonWaitsForRemovedServers
        then "No change of spec.topology.servers waits for the pods and volumes of removed servers"
        else "No change of spec.topology.servers waits for an upgrade"
    end in
  mkWanted ConditionTypeTopologyChangeDeferred ConditionFalse ConditionReasonNoTopologyChangeWaits message.

Definition topologyDeferral (cluster : Cluster) (requested servers : Z) : wanted :=
  if requested =? servers then
    noTopologyChangeWaits (findCondition (cs_Conditions (cl_Status cluster)) ConditionTypeTopologyChangeDeferred)
  else
    let '(target, phase) := match recordOf cluster with
                            | Some us => (us_TargetVersion us, us_Phase us)
                            | None => (EmptyString, EmptyString)
                            end in
    mkWanted ConditionTypeTopologyChangeDeferred ConditionTrue ConditionReasonWaitsForUpgrade
      ("spec.topology.servers is " +:+ strconv.Itoa requested +:+ "; the server StatefulSet keeps "
       +:+ strconv.Itoa servers +:+ " servers until the upgrade to " +:+ target +:+ " (" +:+ phase
       +:+ ", status.upgradeStatus) completes: a rolling upgrade changes no topology").

Definition withCondition (now generation : Z) (want : wanted) (cluster : Cluster) : Cluster :=
  setConditions cluster
    (SetNamedCondition now (cs_Conditions (cl_Status cluster)) (wt_Type want) generation
       (wt_Status want) (wt_Reason want) (wt_Message want)).1.

(** The condition as stored before the write, and whether it wrote. *)
Definition writeTopologyDeferral (want : wanted) : W S (option Condition * bool) :=
  now ← now_;
  cluster ← cluster_;
  let have := findCondition (cs_Conditions (cl_Status cluster)) ConditionTypeTopologyChangeDeferred in
  let write :=
    r ← retryOnConflict DefaultRetry
          (fun latest => (Some (withCondition now (cl_Generation cluster) want latest),
                          findCondition (cs_Conditions (cl_Status latest)) (wt_Type want)))
          keepCopy keepCopy;
    match r with
    | Err _ => mret (None, false)
    | Ok before =>
        modify (fun w => set_w_cluster (withCondition now (cl_Generation cluster) want (w_cluster w)) w) ;;
        mret (before, true)
    end in
  match have with
  | None => if String.eqb (wt_Status want) ConditionFalse then mret (None, false) else write
  | Some c =>
      if String.eqb (c_Status c) (wt_Status want) && String.eqb (c_Reason c) (wt_Reason want)
         && String.eqb (c_Message c) (wt_Message want)
      then mret (Some c, false) else write
  end.

Definition reportTopologyDeferral (requested servers : Z) : W S unit :=
  cluster ← cluster_;
  writeTopologyDeferral (topologyDeferral cluster requested servers) ;; mret tt.

Definition holdTopologyWhileUpgradeHolds : W S bool :=
  cluster ← cluster_;
  sts ← gets w_stsCached;
  let requested := sp_Servers (cl_Spec cluster) in
  match sts with
  | Found sts =>
      match sts_Replicas sts with
      | None => mret false
      | Some servers =>
          if (requested =? servers) || (keptUpgradePartition cluster (Some sts) =? 0)
             || scaleDownDrainInProgress cluster then mret false
          else
            reportTopologyDeferral requested servers ;;
            modify (fun w => set_w_cluster
              (set_cl_Spec (set_sp_Servers servers (cl_Spec (w_cluster w))) (w_cluster w)) w) ;;
            mret true
      end
  | _ => mret false
  end.

(** * Pods the operator replaces *)

(** The deletion of a pod: the API server marks it, unless the call fails. *)
Definition deletePod (pod : Pod) : W S (option string) := fun w =>
  let mark pods := map (fun p => if String.eqb (pod_Name p) (pod_Name pod) then set_pod_Deleting true p else p) pods in
  let deleted w := set_w_pods (match w_pods w with Ok pods => Ok (mark pods) | Err e => Err e end) w in
  match w_podDeletes w with
  | [] => (None, deleted w)
  | None :: rest => (None, deleted (set_w_podDeletes rest w))
  | Some e :: rest => (Some e, set_w_podDeletes rest w)
  end.

Fixpoint replaceEach (live : StatefulSet) (stuck : list (Pod * string)) : W S unit :=
  match stuck with
  | [] => mret tt
  | (pod, why) :: rest =>
      e ← deletePod pod;
      match e with
      | Some _ => replaceEach live rest
      | None =>
          let cause := strings.TrimSuffix (strings.TrimPrefix why (pod_Name pod +:+ " (")) ")" in
          event "ServerPodReplaced"
            ("Deleted pod " +:+ pod_Name pod +:+ ", which cannot start on revision " +:+ pod_Revision pod
             +:+ " (" +:+ cause +:+ "), so that StatefulSet " +:+ sts_Name live
             +:+ " creates it again from its update revision " +:+ sts_UpdateRevision live
             +:+ "; a StatefulSet does not replace such a pod itself on every Kubernetes version (MaxUnavailableStatefulSet in 1.35.0-1.35.3)") ;;
          replaceEach live rest
      end
  end.

Definition replaceStuckServerPods (live : StatefulSet) (pods : list Pod) : W S unit :=
  replaceEach live (stuckServerPods live pods).

Definition replaceStuckServerPodsUncached (live : StatefulSet) : W S unit :=
  pods ← gets w_pods;
  match pods with
  | Err _ => mret tt
  | Ok pods => replaceStuckServerPods live pods
  end.

Definition reconcileStuckServerPods : W S unit :=
  cached ← gets w_stsCached;
  match cached with
  | Found cached =>
      match sts_Replicas cached with
      | None => mret tt
      | Some replicas =>
          if (replicas <=? sts_ReadyReplicas cached)
             || (String.eqb (sts_UpdateRevision cached) (sts_CurrentRevision cached)
                 && (sts_Generation cached <=? sts_ObservedGeneration cached))
          then mret tt
          else
            live ← gets w_sts;
            match live with
            | Found live => replaceStuckServerPodsUncached live
            | _ => mret tt
            end
      end
  | _ => mret tt
  end.

(** * The image change that waits *)

Definition holdCauseNotReady : string := "not-ready".

Definition announceHeldImageChange (desiredImage : string) : W S unit :=
  cluster ← cluster_;
  let key := clusterKey cluster in
  let store announced :=
    modify (fun w => set_w_deferred
      (<[key := HeldImage (mkHeldImageChange desiredImage holdCauseNotReady announced)]> (w_deferred w)) w) in
  if upgradeHeld cluster
     && match recordOf cluster with
        | Some us => String.eqb (us_TargetVersion us) (sp_ImageTag (cl_Spec cluster))
        | None => false
        end
  then store true
  else
    prev ← gets (fun w => w_deferred w !! key);
    let held := match prev with
                | Some (HeldImage h) => h
                | _ => mkHeldImageChange EmptyString EmptyString false
                end in
    if negb (String.eqb (hi_image held) desiredImage) || negb (String.eqb (hi_cause held) holdCauseNotReady)
    then store false
    else if negb (hi_announced held) then
      event "UpgradeDeferred" ("Image change to " +:+ desiredImage
        +:+ " deferred until the cluster is Ready with every server available; the rolling-upgrade state machine will perform it") ;;
      store true
    else mret tt.
End Writes.

(** * The record and the phases it ends *)

(** What a move of the stored record from [old] to [new] ends. *)
Definition endedBy (now : Z) (old new : UpgradeStatus) : list endedUpgradePhase :=
  match us_PhaseStartTime old with
  | Some start =>
      if String.eqb (us_Phase new) (us_Phase old) || negb (isTimedUpgradePhase (us_Phase old)) then []
      else [mkEndedUpgradePhase (us_Phase old) (Z.max 0 (now - start))]
  | None => []
  end.

Definition storedRecord {S} (w : World S) : UpgradeStatus := default emptyUpgradeStatus (recordOf (w_stored w)).

Lemma recordOf_stalled now us cluster :
  recordOf (syncStalledCondition now (setRecord us cluster)).1 = us.
Proof.
  unfold syncStalledCondition, setConditions. repeat case_match; done.
Qed.

Lemma stamp_spec us old now :
  let '(us', ended) := stampUpgradePhaseTransition us (us_Phase old) (us_PhaseStartTime old) now in
  us' = (if String.eqb (us_Phase us) (us_Phase old) then us else set_us_PhaseStartTime (Some now) us) /\ option_list ended = endedBy now old us'.
Proof.
  unfold stampUpgradePhaseTransition, endedBy.
  destruct (String.eqb_spec (us_Phase us) (us_Phase old)) as [E|E].
  - split; [done|]. rewrite E. autorewrite with go. by destruct (us_PhaseStartTime old).
  - apply String.eqb_neq in E.
    destruct (us_PhaseStartTime old) as [start|]; [|done].
    destruct (isTimedUpgradePhase (us_Phase old)); split; try done; cbn; rewrite E; [|done].
    cbn. do 2 f_equal. destruct (Z.ltb_spec (now - start) 0); lia.
Qed.

Lemma endedBy_refl now us : endedBy now us us = [].
Proof. unfold endedBy. autorewrite with go. by destruct (us_PhaseStartTime us). Qed.

Section Observed.
Context {S : Type}.

Lemma recordEnded_spec ended (w : World S) :
  (recordEndedUpgradePhase ended w).2 = set_w_observed (option_list ended ++ w_observed w) w.
Proof. destruct ended; [done|]. by destruct w. Qed.

(** A patch of the record: it failed and stored nothing, or the record stored is
    what the update made of the stored one, the pass's copy follows, and the
    phase it ended is observed. *)
Lemma patch_spec {A} (mutate : UpgradeStatus -> UpgradeStatus * A) (w : World S) :
  let '(r, w') := patchUpgradeStatus mutate w in
  let old := storedRecord w in
  sameOutside w (set_w_observed (w_observed w) w') /\
  match r with
  | Err _ => w_stored w' = w_stored w /\ w_observed w' = w_observed w
  | Ok a => exists us new,
      mutate old = (us, a) /\
      new = (if String.eqb (us_Phase us) (us_Phase old) then us else set_us_PhaseStartTime (Some (w_now w)) us) /\
      w_stored w' = (syncStalledCondition (w_now w) (setRecord (Some new) (w_stored w))).1 /\
      recordOf (w_cluster w') = Some new /\
      w_observed w' = endedBy (w_now w) old new ++ w_observed w
  end.
Proof.
  unfold patchUpgradeStatus, now_. rewrite bind_gets, bind_run.
  pose proof (retryOnConflict_spec DefaultBackoff (patchBody (w_now w) mutate) mirrorRecord keepCopy w) as H.
  destruct (retryOnConflict _ _ _ _ w) as [[[a ended]|e] w1]; destruct H as [Hs H]; cbn [fst snd].
  - rewrite bind_run. cbn. rewrite recordEnded_spec.
    split; [etrans; [exact Hs|]; destruct Hs as (? & ? & ? & ? & ? & ? & ? & ? & ? & Ho & ?); by repeat split|].
    destruct H as [[_ [seen Hn]]|(latest & Hf & Hw & copy & Hc)].
    { unfold patchBody in Hn. repeat case_match; done. }
    revert Hf. unfold patchBody. fold (storedRecord w). destruct (mutate (storedRecord w)) as [us a'] eqn:Em.
    pose proof (stamp_spec us (storedRecord w) (w_now w)) as Hst.
    destruct (stampUpgradePhaseTransition _ _ _ _) as [new ended']. destruct Hst as [Hnew Hend].
    intros [= <- <- <-]. exists us, new.
    split_and!; [done|done|exact Hw| |].
    + change (recordOf (w_cluster w1) = Some new). rewrite Hc. unfold keepCopy, mirrorRecord.
      by rewrite recordOf_stalled.
    + cbn. rewrite Hend. f_equal. apply Hs.
  - split; [etrans; [exact Hs|]; destruct Hs as (? & ? & ? & ? & ? & ? & ? & ? & ? & Ho & ?); by repeat split|].
    split; [exact H|]. apply Hs.
Qed.

Lemma syncStalled_record now cluster : recordOf (syncStalledCondition now cluster).1 = recordOf cluster.
Proof. unfold syncStalledCondition, setConditions. repeat case_match; done. Qed.

(** The same for [updateUpgradeStatus]. *)
Lemma update_spec phase step err reported (w : World S) :
  let '(r, w') := updateUpgradeStatus phase step err reported w in
  let old := storedRecord w in
  let new := storedRecord w' in
  w_observed w' = endedBy (w_now w) old new ++ w_observed w /\
  (us_Phase new = us_Phase old \/ us_PhaseStartTime new = Some (w_now w)).
Proof.
  pose proof (endedBy_refl (w_now w) (storedRecord w)) as Hid.
  unfold updateUpgradeStatus, now_, cluster_. rewrite !bind_gets.
  destruct (recordOf (w_cluster w)) as [have|];
    [|unfold mret, W_ret; cbv beta iota zeta; rewrite Hid; by auto].
  rewrite bind_run.
  match goal with |- context [retryOnConflict _ ?f ?pre ?post w] =>
    pose proof (retryOnConflict_spec DefaultBackoff f pre post w) as H; set (body := f) in * end.
  destruct (retryOnConflict _ body _ _ w) as [[ended|e] w1]; destruct H as [Hs H]; cbn [fst snd].
  - rewrite bind_run. cbn. rewrite recordEnded_spec. destruct Hs as (_ & _ & _ & _ & _ & _ & _ & _ & _ & Ho & _).
    unfold storedRecord in *. cbn. rewrite Ho. clear Ho.
    destruct H as [[-> [seen Hn]]|(latest & Hf & -> & _)].
    { rewrite Hid. unfold body, statusBody in Hn. destruct (recordOf seen); [|by injection Hn as <-; auto].
      repeat case_match; done. }
    revert Hf. unfold body, statusBody. destruct (recordOf (w_stored w)) as [us|]; [|done]. cbn [default].
    match goal with |- context [let '(st, us') := ?x in _] => destruct x as [st us1] end.
    pose proof (stamp_spec us1 us (w_now w)) as Hst.
    destruct (stampUpgradePhaseTransition _ _ _ _) as [new ended']. destruct Hst as [Hnew Hend].
    intros [= <- <-]. rewrite recordOf_stalled. cbn [default]. split; [by rewrite Hend|].
    rewrite Hnew. destruct (String.eqb_spec (us_Phase us1) (us_Phase us)); [by left|by right].
  - unfold mret, W_ret; cbv beta iota zeta. unfold storedRecord in *. rewrite H, Hid. split; [|by left].
    by destruct Hs as (_ & _ & _ & _ & _ & _ & _ & _ & _ & Ho & _).
Qed.

(** A phase of an upgrade is timed once, by the write that ends it. However
    often a write of the record conflicts, fails or is repeated, the durations
    observed are those of the timed phase the stored record left by it, from the
    start the stored record carried, and none when the phase stayed; and a phase
    the record enters starts when it is stored. *)
Theorem phase_observed_once {A} (mutate : UpgradeStatus -> UpgradeStatus * A)
    (phase step err reported : string) (w : World S) :
  let patched := (patchUpgradeStatus mutate w).2 in
  let updated := (updateUpgradeStatus phase step err reported w).2 in
  (w_observed patched = endedBy (w_now w) (storedRecord w) (storedRecord patched) ++ w_observed w /\
   (us_Phase (storedRecord patched) = us_Phase (storedRecord w) \/
    us_PhaseStartTime (storedRecord patched) = Some (w_now w))) /\
  (w_observed updated = endedBy (w_now w) (storedRecord w) (storedRecord updated) ++ w_observed w /\
   (us_Phase (storedRecord updated) = us_Phase (storedRecord w) \/
    us_PhaseStartTime (storedRecord updated) = Some (w_now w))).
Proof.
  pose proof (patch_spec mutate w) as Hp. pose proof (update_spec phase step err reported w) as Hu.
  destruct (updateUpgradeStatus phase step err reported w) as [r2 w2].
  destruct (patchUpgradeStatus mutate w) as [[a|e] w1]; destruct Hp as [_ Hp]; cbn; (split; [|exact Hu]).
  - destruct Hp as (us & new & _ & Hnew & Hst & _ & Ho).
    assert (storedRecord w1 = new) as -> by (unfold storedRecord; by rewrite Hst, recordOf_stalled).
    split; [done|]. rewrite Hnew. destruct (String.eqb_spec (us_Phase us) (us_Phase (storedRecord w)));
      [by left|by right].
  - destruct Hp as [Hst Ho]. unfold storedRecord in *. rewrite Hst. split; [|by left].
    by rewrite endedBy_refl.
Qed.
End Observed.

(** * What the writes keep *)

Section Kept.
Context {S : Type}.

(** The server StatefulSet as the API server has it, Neo4j, and the statements
    of a drain. *)
Definition apartView (w : World S) : getResult StatefulSet * S * list statement :=
  (w_sts w, w_neo4j w, w_stmts w).
Abbreviation keepsApart := (keeps (S := S) (same apartView)).

Lemma keepsApart_retry {A} steps (f : Cluster -> option Cluster * A) pre post :
  keepsApart (retryOnConflict steps f pre post).
Proof.
  intros w. destruct (retryOnConflict_outside steps f pre post w) 
    as (_ & Hs & _ & _ & _ & _ & _ & _ & _ & _ & _ & _ & _ & _ & _ & Hn & Ht).
  unfold same, apartView. by rewrite Hs, Hn, Ht.
Qed.
#[local] Hint Resolve keepsApart_retry : keeps.

Lemma keepsApart_event reason message : keepsApart (event reason message).
Proof. by intros w. Qed.
#[local] Hint Resolve keepsApart_event : keeps.

Lemma keepsApart_ended ended : keepsApart (recordEndedUpgradePhase ended).
Proof. by destruct ended; intros w. Qed.
#[local] Hint Resolve keepsApart_ended : keeps.

Lemma keepsApart_patch {A} (mutate : UpgradeStatus -> UpgradeStatus * A) : keepsApart (patchUpgradeStatus mutate).
Proof. unfold patchUpgradeStatus, now_. keep. Qed.

Lemma keepsApart_update phase step err reported : keepsApart (updateUpgradeStatus phase step err reported).
Proof. unfold updateUpgradeStatus, now_, cluster_. keep. Qed.

Lemma keepsApart_status phase message rec extra : keepsApart (writeClusterStatus phase message rec extra).
Proof. unfold writeClusterStatus, now_, cluster_. keep. Qed.
#[local] Hint Resolve keepsApart_patch keepsApart_update keepsApart_status : keeps.

Lemma keepsApart_version phase message version extra :
  keepsApart (updateClusterStatusWithVersion phase message version extra).
Proof. unfold updateClusterStatusWithVersion. keep. Qed.
#[local] Hint Resolve keepsApart_version : keeps.

Lemma keepsApart_note : keepsApart noteUpgradeInClusterMessage.
Proof. unfold noteUpgradeInClusterMessage, updateClusterStatus, cluster_. keep. Qed.
#[local] Hint Resolve keepsApart_note : keeps.

Lemma keepsApart_fail cause prepare : keepsApart (failUpgrade cause prepare).
Proof. unfold failUpgrade, cluster_, RecordUpgrade. keep. Qed.

Lemma keepsApart_refuse requeue cause prepare : keepsApart (refuseUpgradeStart requeue cause prepare).
Proof. unfold refuseUpgradeStart, cluster_, RecordUpgrade. keep. Qed.

Lemma keepsApart_started : keepsApart recordStartedTarget.
Proof. unfold recordStartedTarget, cluster_. keep. Qed.

Lemma keepsApart_deferral requested servers : keepsApart (reportTopologyDeferral requested servers).
Proof. unfold reportTopologyDeferral, writeTopologyDeferral, now_, cluster_. keep. Qed.

Lemma keepsApart_delete pod : keepsApart (deletePod pod).
Proof. intros w. unfold deletePod, same, apartView. by destruct (w_podDeletes w) as [|[e|] rest]. Qed.
#[local] Hint Resolve keepsApart_delete : keeps.

Lemma keepsApart_replace live : keepsApart (replaceStuckServerPodsUncached live).
Proof.
  unfold replaceStuckServerPodsUncached, replaceStuckServerPods. keep.
  generalize (stuckServerPods live a). intros stuck. induction stuck as [|[pod why] rest IH]; cbn [replaceEach]; keep.
Qed.
End Kept.

#[export] Hint Resolve keepsApart_retry keepsApart_event keepsApart_patch keepsApart_update keepsApart_version keepsApart_note
  keepsApart_fail keepsApart_refuse keepsApart_started keepsApart_deferral keepsApart_replace : keeps.

(** * A stop *)

(** The announcements of a stop. *)
Definition stopEvents {S} (w : World S) : list (string * string) :=
  List.filter (fun e => String.eqb e.1 "UpgradePaused" || String.eqb e.1 "UpgradeFailed") (w_events w).

(** What says that an upgrade stopped: the stored record, its Stalled
    condition, the announcements and the metrics of upgrades. *)
Definition stopView {S} (w : World S) : option UpgradeStatus * option Condition * list (string * string) * list bool :=
  (recordOf (w_stored w), findCondition (cs_Conditions (cl_Status (w_stored w))) ConditionTypeStalled,
   stopEvents w, w_upgrades w).

Lemma statusUpdate_stored now acted replicas phase message version c latest v :
  statusUpdate now acted replicas phase message (mkStatusRecord version None None) [] c = (Some latest, v) ->
  recordOf latest = recordOf c /\
  findCondition (cs_Conditions (cl_Status latest)) ConditionTypeStalled
  = findCondition (cs_Conditions (cl_Status c)) ConditionTypeStalled.
Proof.
  unfold statusUpdate. destruct (PhaseToConditionStatus phase) as [condStatus condReason]. cbv zeta.
  destruct (_ && _); [done|]. intros [= <- _]. unfold recordOf. cbn.
  split; [by destruct (cs_UpgradeStatus (cl_Status c))|].
  by rewrite SetReadyCondition_named, find_SetNamedCondition.
Qed.

Section Stop.
Context {S : Type}.

Lemma keepsStop_status phase message version :
  keeps (S := S) (same stopView) (updateClusterStatusWithVersion phase message version []).
Proof.
  assert (Hr : forall now acted replicas, keeps (S := S) (same stopView)
    (retryOnConflict DefaultBackoff
       (statusUpdate now acted replicas phase message (mkStatusRecord version None None) []) keepCopy keepCopy)).
  { intros. apply keeps_pair; [apply keeps_pair; [apply keeps_pair|]|].
    1: apply (retryOnConflict_stored recordOf).
    2: apply (retryOnConflict_stored (fun c => findCondition (cs_Conditions (cl_Status c)) ConditionTypeStalled)).
    1,2: intros c latest v H; apply (statusUpdate_stored _ _ _ _ _ _ _ _ _ H).
    all: eapply keeps_weaken; [|apply retryOnConflict_outside]; intros w w' H; unfold same, stopEvents.
    all: destruct H as (_ & _ & _ & _ & _ & _ & _ & _ & He & _ & Hu & _); congruence. }
  unfold updateClusterStatusWithVersion, writeClusterStatus, now_, cluster_. keep. by intros w.
Qed.

Lemma keepsStop_note : keeps (S := S) (same stopView) noteUpgradeInClusterMessage.
Proof.
  pose proof keepsStop_status as H.
  unfold noteUpgradeInClusterMessage, updateClusterStatus, cluster_. keep.
Qed.

(** C39: a step that fails stops the upgrade, and only once the stop is
    recorded. Either the write of the record failed: nothing is stored,
    announced or counted, and the pass is run again to stop it. Or the stored
    record is Paused or Failed as spec.upgradeStrategy asks, with the cause, at
    the target and partition it was at; the Stalled condition is True; the
    failure is counted once; it is announced exactly when the cause is not the
    one recorded last; and only a Failed upgrade is run again unasked. In no case
    does the StatefulSet change. *)
Theorem failUpgrade_stops (cause : string) (w : World S) :
  let '(delay, w') := failUpgrade cause [] w in
  let old := storedRecord w in
  let pause := autoPauseOnFailure (w_cluster w) in
  w_sts w' = w_sts w /\
  ((delay = upgradeStepRequeue /\ w_stored w' = w_stored w /\ w_events w' = w_events w /\
    w_upgrades w' = w_upgrades w) \/
   (exists new condition,
    recordOf (w_stored w') = Some new /\
    us_Phase new = (if pause then upgradePhasePaused else upgradePhaseFailed) /\
    us_LastError new = cause /\ us_TargetVersion new = us_TargetVersion old /\
    us_CurrentPartition new = us_CurrentPartition old /\
    us_StartedTargetVersion new = us_StartedTargetVersion old /\
    findCondition (cs_Conditions (cl_Status (w_stored w'))) ConditionTypeStalled = Some condition /\
    c_Status condition = ConditionTrue /\
    w_upgrades w' = false :: w_upgrades w /\
    stopEvents w' = (if String.eqb (us_LastError old) cause then []
                     else [if pause then ("UpgradePaused", "Upgrade paused: " +:+ cause)
                           else ("UpgradeFailed", "Rolling upgrade failed: " +:+ cause)]) ++ stopEvents w /\
    delay = (if pause then 0 else upgradeTransitionRequeue))).
Proof.
  pose proof (keepsApart_fail (S := S) cause [] w) as Hsts. unfold same, apartView in Hsts.
  destruct (failUpgrade cause [] w) as [delay w'] eqn:Ef. cbn [snd] in Hsts.
  injection Hsts as Hsts _ _. split; [exact Hsts|]. clear Hsts.
  revert Ef. unfold failUpgrade, cluster_. rewrite bind_gets, bind_run. cbv zeta.
  match goal with |- context [patchUpgradeStatus ?m w] =>
    pose proof (patch_spec m w) as Hp; destruct (patchUpgradeStatus m w) as [[announce|e] w1] end;
  destruct Hp as [Hs Hp]; cbn [fst snd].
  - intros Ef. right. destruct Hp as (us & new & Hm & Hnew & Hst & _ & _).
    unfold RecordUpgrade, modify in Ef. rewrite bind_run in Ef. cbn [fst snd] in Ef. rewrite bind_run in Ef.
    set (w2 := set_w_upgrades (false :: w_upgrades w1) w1) in Ef.
    pose proof (keepsStop_note w2) as Hn. unfold same in Hn.
    destruct (noteUpgradeInClusterMessage w2) as [[] w3]. cbn [fst snd] in Hn, Ef.
    destruct Hs as (_ & _ & _ & _ & _ & _ & _ & _ & He & _ & Hu & _). cbn in He, Hu.
    unfold stopView, stopEvents in Hn. cbn in Hn.
    rewrite He, Hu, Hst, recordOf_stalled, find_syncStalled in Hn. cbn in Hn.
    apply pair_equal_spec in Hn as [Hn Hu3]. apply pair_equal_spec in Hn as [Hn He3].
    apply pair_equal_spec in Hn as [Hr3 Hc3]. unfold stopMutate in Hm. cbn in Hm. injection Hm as <- <-.
    assert (Hstop : us_Phase new = stopPhase (w_cluster w)) by (rewrite Hnew; by destruct (String.eqb _ _)).
    assert (Hstopped : stoppedPhase (Some new) = true).
    { unfold stoppedPhase. rewrite Hstop. unfold stopPhase. by destruct (autoPauseOnFailure _). }
    unfold stoppedPhase in Hstopped. rewrite Hstopped in Hc3.
    assert (Hw' : w_stored w' = w_stored w3 /\ w_upgrades w' = w_upgrades w3 /\
      stopEvents w' = (if String.eqb (us_LastError (storedRecord w)) cause then []
        else [if autoPauseOnFailure (w_cluster w) then ("UpgradePaused", "Upgrade paused: " +:+ cause)
              else ("UpgradeFailed", "Rolling upgrade failed: " +:+ cause)]) ++ stopEvents w3 /\
      delay = (if autoPauseOnFailure (w_cluster w) then 0 else upgradeTransitionRequeue)).
    { destruct (String.eqb (us_LastError (storedRecord w)) cause); [by injection Ef as <- <-|].
      by destruct (autoPauseOnFailure (w_cluster w)); injection Ef as <- <-. }
    destruct Hw' as (-> & -> & -> & ->). unfold stopEvents at 1. rewrite He3, Hu3.
    eexists new, _. split_and!; [exact Hr3|exact Hstop|..|exact Hc3|done|done|done|done];
      rewrite Hnew; by destruct (String.eqb _ _).
  - intros [= <- <-]. left. destruct Hp as [Hst _].
    destruct Hs as (_ & _ & _ & _ & _ & _ & _ & _ & He & _ & Hu & _). cbn in He, Hu. by split_and!.
Qed.
End Stop.
