(* ===== verification/UpgradeMachine.v ===== *)
(** The rolling upgrade as a state machine, one step per pass: Staging writes the
    target's template under a partition that restarts nothing that is up, Rolling
    lowers the partition one server at a time behind its gates, Stabilizing and
    Verifying check the cluster and complete (rolling_upgrade_statemachine.go,
    handleRollingUpgrade and isUpgradeRequired of
    neo4jenterprisecluster_controller.go, updateServerStatefulSet of
    rolling_upgrade.go, preUpgradeCheck of upgrade_start.go, and the update branch
    of createOrUpdateResourceInternal for the server StatefulSet, under
    src/internal/controller). Neo4j is the interface [UpgradeClient]. *)
From S2P Require Import Prelude GoStrings ClusterTypes Conditions Version UpgradeRules UpgradeRecord World ServerIdentity Availability UpgradeRepair ScaleDown UpgradeWrites.

Open Scope Z_scope.

(** * The client *)

(** What the machine asks Neo4j ([neo4jclient.Client]); [CreateClient] is
    createNeo4jClient and [CreatePodClient] createPodSpecificNeo4jClient, whose
    calls take the pod. A call may change the state of Neo4j. *)
Class UpgradeClient (S : Type) := {
  CreateClient : S -> option string * S;
  GetServerList : S -> result (list ServerInfo) * S;
  ListServers : S -> result (list ServerInfo) * S;
  ValidateUpgradeSafety : S -> option string * S;
  IsClusterHealthy : S -> result bool * S;
  GetClusterConsensusState : S -> result bool * S;
  IsClusterReplicationHealthy : S -> result bool * S;
  CreatePodClient : string -> S -> option string * S;
  ClusterStatusCheck : string -> S -> result (list ClusterStatusCheckRow) * S;
  DatabaseAllocations : string -> S -> result (list DatabaseAllocation) * S
}.

(** * The decision of the Rolling step *)

Record upgradeRollObservation := mkRollObservation {
  ro_Replicas : Z;
  ro_Partition : Z;
  ro_Generation : Z;
  ro_ObservedGeneration : Z;
  ro_UpdatedReplicas : Z;
  ro_ReadyReplicas : Z;
  ro_LastRolledAvailable : bool;
  ro_LastRolledDatabasesCaughtUp : bool
}.

Inductive upgradeRollDecision := rollWait | rollLower | rollDone.

Definition planUpgradeRollStep (o : upgradeRollObservation) : upgradeRollDecision :=
  if ro_ObservedGeneration o <? ro_Generation o then rollWait
  else if ro_UpdatedReplicas o <? ro_Replicas o - ro_Partition o then rollWait
  else if ro_ReadyReplicas o <? ro_Replicas o then rollWait
  else if (ro_Partition o <? ro_Replicas o) && negb (ro_LastRolledAvailable o) then rollWait
  else if (ro_Partition o <? ro_Replicas o) && negb (ro_LastRolledDatabasesCaughtUp o) then rollWait
  else if ro_Partition o =? 0 then rollDone
  else rollLower.

(** * The server StatefulSet *)

(** What the builder renders of the fields the machine reads: the name, the
    replica count, one container with the spec's image, a RollingUpdate strategy
    without a partition. *)
Definition buildServerStatefulSet (cluster : Cluster) : StatefulSet :=
  mkStatefulSet (cl_Name cluster +:+ "-server") ∅ 0 (Some (sp_Servers (cl_Spec cluster)))
    [(Neo4jContainer, sp_ImageRepo (cl_Spec cluster) +:+ ":" +:+ sp_ImageTag (cl_Spec cluster))]
    (Some None) 0 0 0 EmptyString EmptyString.

Definition RestoreInProgressAnnotation : string := "neo4j.com/restore-in-progress".
Definition recreateRestoreRevisionAnnotation : string := "neo4j.com/recreate-restore-revision".

Definition replicasReconciliationPaused (owner : Cluster) : bool :=
  bool_decide (is_Some (cl_Annotations owner !! RestoreInProgressAnnotation)).

(** The strategies are one once defaulted: no strategy and no partition are
    partition 0. *)
Definition sameUpdateStrategy (a b : option (option Z)) : bool :=
  default 0 (default None a) =? default 0 (default None b).

(** The strategy a write of the template stores over [live]'s. *)
Definition appliedStrategy (cluster : Cluster) (live desired : StatefulSet) : option (option Z) :=
  let strategy := sts_RollingUpdate desired in
  let strategy :=
    if upgradeStateMachineActive cluster || upgradeHeld cluster then
      match statefulSetPartition live, strategy with
      | Some p, Some None => Some (Some p)
      | _, _ => strategy
      end
    else strategy in
  if sameUpdateStrategy (sts_RollingUpdate live) strategy then sts_RollingUpdate live else strategy.

(** [restoreHeldTemplate]: [remembered] is the deleted StatefulSet the operator
    still remembers, [readRevisionTemplate] reads the containers of a
    ControllerRevision. *)
Definition restoreHeldTemplate (remembered : option StatefulSet)
    (readRevisionTemplate : string -> result (list (string * string))) (sts : StatefulSet) : StatefulSet :=
  let '(partition, _) := restorePending sts in
  if (sts_ObservedGeneration sts <? sts_Generation sts) || String.eqb (sts_CurrentRevision sts) EmptyString
  then sts
  else
    let revision := default EmptyString (sts_Annotations sts !! recreateRestoreRevisionAnnotation) in
    let sts := set_sts_Annotations
                 (delete recreateRestoreRevisionAnnotation
                    (delete recreateRestorePartitionAnnotation (sts_Annotations sts))) sts in
    match partition with
    | None => sts
    | Some p =>
        let restore containers sts :=
          set_sts_RollingUpdate (Some (Some p)) (set_sts_Containers containers sts) in
        match remembered with
        | Some prev =>
            restore (sts_Containers prev)
              (set_sts_Annotations (sts_Annotations sts ∪ sts_Annotations prev) sts)
        | None =>
            if String.eqb revision EmptyString then sts
            else match readRevisionTemplate revision with
                 | Err _ => sts
                 | Ok containers => restore containers sts
                 end
        end
    end.

(** * The text of a refusal *)

Definition quoted (s : string) : string := String "034" (s +:+ String "034" EmptyString).

Definition fieldErrorText (e : fieldError) : string :=
  match e with
  | FieldInvalid path value detail => path +:+ ": Invalid value: " +:+ quoted value +:+ ": " +:+ detail
  | FieldNotSupported path value supported =>
      path +:+ ": Unsupported value: " +:+ quoted value +:+ ": supported values: "
      +:+ strings.Join (map quoted supported) ", "
  end.

(** [ErrorList.ToAggregate().Error()]: each text once, in order. *)
Definition ToAggregate (errs : list fieldError) : string :=
  match fold_left (fun seen e => let t := fieldErrorText e in
                                 if existsb (String.eqb t) seen then seen else seen ++ [t]) errs [] with
  | [t] => t
  | ts => "[" +:+ strings.Join ts ", " +:+ "]"
  end.

Definition validateVersionCompatibility (cluster : Cluster) : option string :=
  match ValidateTagAgainstRunning cluster with
  | [] => None
  | errs => Some (ToAggregate errs)
  end.

(** The API server's text for a server StatefulSet that is not there. *)
Definition stsNotFound (cluster : Cluster) : string :=
  "statefulsets.apps " +:+ quoted (cl_Name cluster +:+ "-server") +:+ " not found".

Definition validateStatefulSetsReady (cluster : Cluster) (sts : getResult StatefulSet) : option string :=
  match sts with
  | NotFound => Some ("failed to get server StatefulSet: " +:+ stsNotFound cluster)
  | GetFailed e => Some ("failed to get server StatefulSet: " +:+ e)
  | Found sts =>
      match sts_Replicas sts with
      | None => Some "server StatefulSet has no replicas configured"
      | Some replicas =>
          if negb (sts_ReadyReplicas sts =? replicas) then
            Some ("server StatefulSet not ready: " +:+ strconv.Itoa (sts_ReadyReplicas sts) +:+ "/"
                  +:+ strconv.Itoa replicas +:+ " replicas ready")
          else None
      end
  end.

(** * Whether an upgrade is to start *)

(** [sts] and [pods] are the cached reads. *)
Definition isUpgradeRequired (now : Z) (cluster : Cluster) (sts : getResult StatefulSet)
    (pods : result (list Pod)) : bool :=
  let spec := cl_Spec cluster in
  let status := cl_Status cluster in
  let tag := sp_ImageTag spec in
  if negb (String.eqb (cs_Phase status) "Ready")
     || negb (bool_decide (serversUnavailableSince status = None))
  then match heldUpgradeRepair cluster sts pods with Some _ => true | None => false end
  else if upgradeWaitsForUser cluster then false
  else match sts with
  | Found sts =>
      match sts_Containers sts with
      | [] => false
      | (_, currentImage) :: _ =>
          let desiredImage := sp_ImageRepo spec +:+ ":" +:+ tag in
          if negb (String.eqb currentImage desiredImage)
          then negb (startRefusedRecently (recordOf cluster) tag now)
          else
            if negb (upgradeHeld cluster)
               || match recordOf cluster with
                  | Some us => negb (String.eqb (us_TargetVersion us) tag)
                  | None => true
                  end
               || String.eqb (cs_Version status) tag
            then false
            else match sts_Replicas sts with
                 | None => false
                 | Some replicas =>
                     if sts_ReadyReplicas sts <? replicas then false
                     else negb (startRefusedRecently (recordOf cluster) tag now)
                 end
      end
  | _ => false
  end.

Section Machine.
Context {S : Type} `{!ScaleDownClient S, !UpgradeClient S}.

(** The reconciler's ScaleDownSettle and RequeueAfter. *)
Variables settle requeue : Z.
(** The error of CalculateTopologyPlacement or ApplyTopologyConstraints. *)
Variable topologyError : Cluster -> option string.
(** ConfigMapManager.ReconcileConfigMap: whether it stamped the template to
    restart the servers, and its error. *)
Variable reconcileConfigMap : Cluster -> bool * option string.
Variable remembered : option StatefulSet.
Variable readRevisionTemplate : string -> result (list (string * string)).

(** ** Writing the StatefulSet *)

(** The API server counts a change of the spec in the generation. *)
Definition sameSpec (a b : StatefulSet) : bool :=
  bool_decide (sts_Replicas a = sts_Replicas b) && bool_decide (sts_Containers a = sts_Containers b)
  && bool_decide (sts_RollingUpdate a = sts_RollingUpdate b).

Definition storedAs (old new : StatefulSet) : StatefulSet :=
  if sameSpec old new then new else set_sts_Generation (sts_Generation old + 1) new.

(** [retry.RetryOnConflict] around a read-modify-write of the server
    StatefulSet. A read of a copy that is not the stored one ends in a
    conflict. *)
Fixpoint writeStatefulSet (steps : nat) (mutate : StatefulSet -> StatefulSet) : W S (option string) :=
  match steps with
  | O => mret (Some "conflict")
  | Datatypes.S steps' =>
      a ← nextStsAttempt;
      match a with
      | StsFails e => mret (Some e)
      | StsConflicts => writeStatefulSet steps' mutate
      | StsSucceeds =>
          sts ← gets w_sts;
          match sts with
          | NotFound => mret (Some "not found")
          | GetFailed e => mret (Some e)
          | Found sts => modify (set_w_sts (Found (storedAs sts (mutate sts)))) ;; mret None
          end
      end
  end.

(** The read after the write can fail too. *)
Definition updateServerStatefulSet (mutate : StatefulSet -> StatefulSet) : W S (option string) :=
  e ← writeStatefulSet DefaultBackoff mutate;
  match e with
  | Some e => mret (Some e)
  | None =>
      a ← nextStsAttempt;
      mret (match a with StsFails e => Some e | _ => None end)
  end.

Definition buildDesiredServerStatefulSet (cluster : Cluster) : result StatefulSet :=
  match topologyError cluster with
  | Some e => Err e
  | None => Ok (buildServerStatefulSet cluster)
  end.

(** The update branch of [createOrUpdateResourceInternal] for the server
    StatefulSet: a change of the image is a significant change of the template,
    so the containers are [desired]'s, and an unchanged one leaves them equal. The
    merge of environment, init containers, volumes and annotations with those of
    the plugins is that of TemplateApply.v, on the whole pod template. *)
Definition applyStatefulSet (owner : Cluster) (desired sts : StatefulSet) : StatefulSet :=
  if (restorePending sts).2 then restoreHeldTemplate remembered readRevisionTemplate sts
  else
    let replicas := if replicasReconciliationPaused owner || scaleDownDrainInProgress owner
                    then sts_Replicas sts else sts_Replicas desired in
    set_sts_Containers (sts_Containers desired)
      (set_sts_RollingUpdate (appliedStrategy owner sts desired) (set_sts_Replicas replicas sts)).

Definition createOrUpdateResource (desired : StatefulSet) : W S (option string) :=
  owner ← cluster_;
  writeStatefulSet DefaultRetry (applyStatefulSet owner desired).

Definition ReconcileConfigMap : W S (option string) :=
  cluster ← cluster_;
  let '(stamped, e) := reconcileConfigMap cluster in
  modify (fun w => if stamped then
    match w_sts w with
    | Found sts => set_w_sts (Found (set_sts_Generation (sts_Generation sts + 1) sts)) w
    | _ => w
    end else w) ;;
  mret e.

(** ** Staging *)

(** The uncached read of the record. *)
Definition storedUpgradeStatus : W S (option UpgradeStatus) :=
  gets (fun w => match w_clusterRead w with Some _ => None | None => recordOf (w_stored w) end).

Definition stageMutate (now partition : Z) (us : UpgradeStatus) : UpgradeStatus :=
  let step := "Rolling servers to the target version" in
  set_us_Message step (set_us_CurrentStep step
    (set_us_StepStartTime (Some now) (set_us_CurrentPartition (Some partition)
       (set_us_Phase upgradePhaseRolling us)))).

(** The end of Staging: the template, the ConfigMap, the record. *)
Definition stageAt (desired : StatefulSet) (partition : Z) : W S Z :=
  now ← now_;
  e ← createOrUpdateResource (set_sts_RollingUpdate (Some (Some partition)) desired);
  match e with
  | Some _ => mret upgradeStepRequeue
  | None =>
      e ← ReconcileConfigMap;
      match e with
      | Some _ => mret upgradeStepRequeue
      | None =>
          patchUpgradeStatus (noting (stageMutate now partition)) ;;
          mret upgradeTransitionRequeue
      end
  end.

(** Where Staging puts the partition, [None] while it waits. *)
Definition stagePartition (cluster : Cluster) (live desired : StatefulSet) (replicas : Z) (pods : list Pod)
  : option Z :=
  let partition := stagingPartition live desired replicas in
  let down := serversDownIn cluster live pods in
  let down := match down with
              | Some d => if bool_decide (serverImage desired ∈ dn_images d) then None else Some d
              | None => None
              end in
  let partition := match down with
                   | Some d => if dn_partition d <? partition then dn_partition d else partition
                   | None => partition
                   end in
  let '(moved, waitFor) := retargetPartition live pods partition (bool_decide (is_Some down)) in
  if negb (String.eqb waitFor EmptyString) then None
  else
    let partition := if moved <? partition then moved else partition in
    if imageChanges live desired && (partition <? replicas)
       && negb (String.eqb (serverNotReadyBelow live pods partition down) EmptyString)
    then None
    else Some partition.

Definition stepUpgradeStaging : W S Z :=
  now ← now_;
  cluster ← cluster_;
  if upgradeStepDeadlineExceeded (recordOf cluster) (getUpgradeTimeout (cl_Spec cluster)) now
  then failUpgrade "timed out staging the target pod template" []
  else
    fresh ← storedUpgradeStatus;
    let target := match recordOf cluster with Some us => us_TargetVersion us | None => EmptyString end in
    if match fresh with
       | Some f => negb (String.eqb (us_Phase f) upgradePhaseStaging)
                   || negb (String.eqb (us_TargetVersion f) target)
       | None => false
       end
    then mret upgradeTransitionRequeue
    else
      live ← gets w_sts;
      match live with
      | NotFound => failUpgrade ("failed to get server StatefulSet: " +:+ stsNotFound cluster) []
      | GetFailed e => failUpgrade ("failed to get server StatefulSet: " +:+ e) []
      | Found live =>
          let replicas := default 0 (sts_Replicas live) in
          if replicas =? 0 then failUpgrade "server StatefulSet has zero replicas configured" []
          else match buildDesiredServerStatefulSet cluster with
          | Err e => failUpgrade e []
          | Ok desired =>
              if (restorePending live).2 then
                createOrUpdateResource desired ;; mret upgradeTransitionRequeue
              else
                let desired := set_sts_Replicas (Some replicas) desired in
                pods ← gets w_pods;
                match pods with
                | Err _ => mret upgradeStepRequeue
                | Ok pods =>
                    match stagePartition cluster live desired replicas pods with
                    | None => mret upgradeStepRequeue
                    | Some partition => stageAt desired partition
                    end
                end
          end
      end.

(** ** Rolling *)

Definition isServerAvailable (podName : string) : W S (bool * string) :=
  e ← ask CreateClient;
  match e with
  | Some _ => mret (false, EmptyString)
  | None =>
      servers ← ask GetServerList;
      mret (match servers with
            | Err _ => (false, EmptyString)
            | Ok servers => podServerAvailable servers podName
            end)
  end.

(** The database gate on the pod; an error is a gate that does not open. *)
Definition lastRolledDatabasesCaughtUp (podName : string) : W S (result (bool * list string)) :=
  e ← ask (CreatePodClient podName);
  match e with
  | Some e => mret (Err e)
  | None =>
      checks ← ask (ClusterStatusCheck podName);
      match checks with
      | Err e => mret (Err e)
      | Ok checks =>
          allocs ← ask (DatabaseAllocations podName);
          mret (match allocs with
                | Err e => Err e
                | Ok allocs => Ok (evaluateDatabaseGate podName checks allocs)
                end)
      end
  end.

(** The Neo4j part of the Rolling step's observation of the pod rolled last:
    available, its databases caught up, the ones that lag, and the record the
    step goes on with. *)
Definition observeLastRolled (partition : Z) (podName : string) (us : UpgradeStatus)
  : W S (bool * bool * list string * UpgradeStatus) :=
  '(available, version) ← isServerAvailable podName;
  if negb available then mret (false, false, [], us)
  else
    us ← (match resolvedTargetVersionFor (Some us) version with
          | None => mret us
          | Some _ =>
              patchUpgradeStatus (noting (fun s =>
                match resolvedTargetVersionFor (Some s) version with
                | Some want => set_us_ResolvedTargetVersion want s
                | None => s
                end)) ;;
              cluster ← cluster_;
              mret (default us (recordOf cluster))
          end);
    gate ← lastRolledDatabasesCaughtUp podName;
    match gate with
    | Err _ => mret (true, false, [], us)
    | Ok (true, _) => mret (true, true, [], us)
    | Ok (false, notReady) =>
        let msg := databaseGateMessage partition notReady in
        (if String.eqb (us_Message us) msg then mret tt
         else patchUpgradeStatus (noting (set_us_Message msg)) ;; mret tt) ;;
        mret (true, false, notReady, us)
    end.

Definition progressTo (upgraded inProgress pending : Z) (us : UpgradeStatus) : UpgradeStatus :=
  match us_Progress us with
  | None => us
  | Some p => set_us_Progress (Some (mkUpgradeProgress (up_Total p) upgraded inProgress pending (up_Servers p))) us
  end.

Definition rolledMutate (now replicas : Z) (us : UpgradeStatus) : UpgradeStatus :=
  let step := "All servers rolled; waiting for cluster stabilization" in
  progressTo replicas 0 0
    (set_us_Message step (set_us_CurrentStep step
       (set_us_StepStartTime (Some now) (set_us_Phase upgradePhaseStabilizing us)))).

Definition lowerMutate (now replicas partition : Z) (us : UpgradeStatus) : UpgradeStatus :=
  let step := "Rolling server ordinal " +:+ strconv.Itoa (partition - 1) in
  progressTo (replicas - partition) 1 (Z.max 0 (partition - 1))
    (set_us_Message step (set_us_CurrentStep step
       (set_us_StepStartTime (Some now) (set_us_CurrentPartition (Some (partition - 1)) us)))).

(** The partition the walk is at. *)
Definition walkPartition (us : UpgradeStatus) (live : StatefulSet) (replicas : Z) : Z :=
  match us_CurrentPartition us with
  | Some p => p
  | None => default replicas (statefulSetPartition live)
  end.

(** The action on the observation. *)
Definition actOnRoll (cluster : Cluster) (live : StatefulSet) (replicas partition : Z)
    (available caughtUp : bool) (lagging : list string) (us : UpgradeStatus) : W S Z :=
  now ← now_;
  let obs := mkRollObservation replicas partition (sts_Generation live) (sts_ObservedGeneration live)
               (sts_UpdatedReplicas live) (sts_ReadyReplicas live) available caughtUp in
  match planUpgradeRollStep obs with
  | rollWait =>
      if upgradeStepDeadlineExceeded (Some us) (getUpgradeTimeout (cl_Spec cluster)) now then
        failUpgrade (if (0 <? length lagging)%nat
          then "timed out waiting for the databases on server ordinal " +:+ strconv.Itoa partition
               +:+ " to catch up (" +:+ databaseNameList lagging +:+ ")"
          else "timed out waiting for server ordinal " +:+ strconv.Itoa partition
               +:+ " to roll and rejoin the cluster") []
      else mret upgradeStepRequeue
  | rollDone =>
      patchUpgradeStatus (noting (rolledMutate now replicas)) ;; mret upgradeTransitionRequeue
  | rollLower =>
      e ← updateServerStatefulSet (set_sts_RollingUpdate (Some (Some (partition - 1))));
      match e with
      | Some _ => mret upgradeStepRequeue
      | None =>
          patchUpgradeStatus (noting (lowerMutate now replicas partition)) ;; mret upgradeStepRequeue
      end
  end.

Definition stepUpgradeRolling : W S Z :=
  recordStartedTarget ;;
  cluster ← cluster_;
  let us := default emptyUpgradeStatus (recordOf cluster) in
  live ← gets w_sts;
  match live with
  | NotFound => failUpgrade ("failed to get server StatefulSet: " +:+ stsNotFound cluster) []
  | GetFailed _ => mret upgradeStepRequeue
  | Found live =>
      let replicas := default 0 (sts_Replicas live) in
      if replicas =? 0 then failUpgrade "server StatefulSet has zero replicas configured" []
      else
        (if sts_ReadyReplicas live <? replicas then replaceStuckServerPodsUncached live else mret tt) ;;
        reportTopologyDeferral (sp_Servers (cl_Spec cluster)) replicas ;;
        let partition := walkPartition us live replicas in
        let podName := cl_Name cluster +:+ "-server-" +:+ strconv.Itoa partition in
        let settled := (sts_Generation live <=? sts_ObservedGeneration live)
                       && (replicas - partition <=? sts_UpdatedReplicas live)
                       && (replicas <=? sts_ReadyReplicas live) in
        '(available, caughtUp, lagging, us) ←
          (if settled && (partition <? replicas) then observeLastRolled partition podName us
           else mret (false, false, [], us));
        actOnRoll cluster live replicas partition available caughtUp lagging us
  end.

(** ** Stabilizing and Verifying *)

Definition verifyingMutate (now : Z) (step : string) (us : UpgradeStatus) : UpgradeStatus :=
  set_us_Message step (set_us_CurrentStep step
    (set_us_StepStartTime (Some now) (set_us_Phase upgradePhaseVerifying us))).

Definition transitionToVerifying (step : string) : W S Z :=
  now ← now_;
  patchUpgradeStatus (noting (verifyingMutate now step)) ;; mret upgradeTransitionRequeue.

(** A check that answers, and answers yes. *)
Definition answersYes (r : result bool) : bool := match r with Ok b => b | Err _ => false end.

(** Health, then consensus, then replication, each asked only after the one
    before it answered yes. *)
Definition clusterStable : W S bool :=
  e ← ask CreateClient;
  match e with
  | Some _ => mret false
  | None =>
      ok ← ask IsClusterHealthy;
      if negb (answersYes ok) then mret false
      else
        consensus ← ask GetClusterConsensusState;
        if negb (answersYes consensus) then mret false
        else
          replicating ← ask IsClusterReplicationHealthy;
          mret (answersYes replicating)
  end.

Definition stepUpgradeStabilizing : W S Z :=
  now ← now_;
  cluster ← cluster_;
  if match sp_UpgradeStrategy (cl_Spec cluster) with
     | Some st => negb (st_PostUpgradeHealthCheck st)
     | None => false
     end
  then transitionToVerifying "Post-upgrade health check disabled; verifying versions"
  else
    healthy ← clusterStable;
    if negb healthy then
      if upgradeStepDeadlineExceeded (recordOf cluster) (getStabilizationTimeout (cl_Spec cluster)) now
      then failUpgrade "cluster failed to stabilize after the rolling upgrade" []
      else mret upgradeStepRequeue
    else transitionToVerifying "Cluster stable; verifying server versions".

Definition completeUpgrade (reported : string) : W S (option string) :=
  cluster ← cluster_;
  e ← updateUpgradeStatus upgradePhaseCompleted "Rolling upgrade completed successfully" EmptyString reported;
  match e with
  | Some e => mret (Some e)
  | None =>
      updateClusterStatusWithVersion PhaseReady "Rolling upgrade completed successfully"
        (sp_ImageTag (cl_Spec cluster)) [] ;;
      mret None
  end.

Definition stepUpgradeVerifying : W S Z :=
  now ← now_;
  cluster ← cluster_;
  let late := upgradeStepDeadlineExceeded (recordOf cluster) (getHealthCheckTimeout (cl_Spec cluster)) now in
  e ← ask CreateClient;
  match e with
  | Some e =>
      if late then failUpgrade ("failed to create Neo4j client for verification: " +:+ e) []
      else mret upgradeStepRequeue
  | None =>
      let tag := sp_ImageTag (cl_Spec cluster) in
      servers ← (if String.eqb tag EmptyString then mret (Err EmptyString) else ask ListServers);
      match verifyVersionUpgrade tag servers with
      | Err e =>
          if late then failUpgrade ("post-upgrade version verification failed: " +:+ e) []
          else mret upgradeStepRequeue
      | Ok reported =>
          e ← completeUpgrade reported;
          match e with
          | Some _ => mret upgradeTransitionRequeue
          | None =>
              RecordUpgrade true ;;
              event "UpgradeCompleted" "Rolling upgrade completed successfully" ;;
              mret requeue
          end
      end
  end.

(** ** Starting *)

Definition preUpgradeCheck : W S (option string) :=
  cluster ← cluster_;
  e ← ask CreateClient;
  match e with
  | Some e => mret (Some ("failed to create Neo4j client: " +:+ e))
  | None =>
      e ← ask ValidateUpgradeSafety;
      match e with
      | Some e => mret (Some ("upgrade safety validation failed: " +:+ e))
      | None =>
          servers ← ask GetServerList;
          match servers with
          | Err e => mret (Some ("failed to read the versions the servers run: " +:+ e))
          | Ok servers =>
              let tag := sp_ImageTag (cl_Spec cluster) in
              let reported := highestReportedVersion servers (fun _ => true) in
              mret (if TagBelowReportedVersion reported tag then
                      Some ("a server runs " +:+ reported +:+ " (SHOW SERVERS), and spec.image.tag " +:+ tag
                            +:+ " is below it: Neo4j does not support downgrades. Set the tag to "
                            +:+ reported +:+ " or later")
                    else None)
          end
      end
  end.

(** The write of the new record and what follows it. *)
Definition beginUpgrade (held : option UpgradeStatus) (previousVersion targetVersion : string)
    (record : UpgradeStatus -> UpgradeStatus) (repair : option serversDown) : W S Z :=
  cluster ← cluster_;
  r ← patchUpgradeStatus (noting record);
  match r with
  | Err _ => mret upgradeTransitionRequeue
  | Ok _ =>
      modify (fun w => set_w_deferred (delete (clusterKey cluster) (w_deferred w)) w) ;;
      noteUpgradeInClusterMessage ;;
      let heldPhase := match held with Some us => us_Phase us | None => EmptyString end in
      let heldTarget := match held with Some us => us_TargetVersion us | None => EmptyString end in
      let move := previousVersion +:+ " -> " +:+ targetVersion in
      event "UpgradeStarted"
        (match repair with
         | Some d => "Rolling upgrade resumed after it was " +:+ heldPhase +:+ ": " +:+ move +:+ "; "
                     +:+ strings.Join (dn_failing d) ", " +:+ " cannot start on " +:+ heldTarget
                     +:+ " and is replaced first"
         | None =>
             if sameHeldUpgrade held previousVersion
             then "Rolling upgrade resumed after it was " +:+ heldPhase +:+ ": " +:+ move
             else "Rolling upgrade started: " +:+ move
         end) ;;
      mret upgradeTransitionRequeue
  end.

(** A step that a check lets through or ends. *)
Definition startChecked (held : option UpgradeStatus) (previousVersion targetVersion : string) (servers now : Z)
    (repair : option serversDown) : W S Z :=
  cluster ← cluster_;
  sts ← gets w_stsCached;
  let record _ := newUpgradeRecord held previousVersion targetVersion servers now in
  let begin := beginUpgrade held previousVersion targetVersion record repair in
  match validateVersionCompatibility cluster with
  | Some e => refuseUpgradeStart requeue ("version compatibility check failed: " +:+ e) record
  | None =>
      match repair with
      | Some _ => begin
      | None =>
          match validateStatefulSetsReady cluster sts with
          | Some _ => mret upgradeStepRequeue
          | None =>
              if match sp_UpgradeStrategy (cl_Spec cluster) with
                 | Some st => st_PreUpgradeHealthCheck st
                 | None => true
                 end
              then
                e ← preUpgradeCheck;
                match e with
                | Some e => refuseUpgradeStart requeue e record
                | None => begin
                end
              else begin
          end
      end
  end.

Definition startRollingUpgrade : W S Z :=
  now ← now_;
  cluster ← cluster_;
  if scaleDownDrainInProgress cluster then
    reconcileScaleDownDrain settle ;;
    announceUpgradeDeferredByDrain ;;
    mret upgradeStepRequeue
  else
    live ← gets w_stsCached;
    let servers := match live with
                   | Found live => default (sp_Servers (cl_Spec cluster)) (sts_Replicas live)
                   | _ => sp_Servers (cl_Spec cluster)
                   end in
    recordStartedTarget ;;
    cluster ← cluster_;
    pods ← gets w_podsCached;
    let held := recordOf cluster in
    startChecked held (cs_Version (cl_Status cluster)) (sp_ImageTag (cl_Spec cluster)) servers now
      (heldUpgradeRepair cluster live pods).

(** ** One pass *)

Definition retargetMutate (now : Z) (newTarget : string) (us : UpgradeStatus)
  : UpgradeStatus * (bool * string * string) :=
  let step := "Re-staging: upgrade target changed mid-flight" in
  (set_us_Message step (set_us_CurrentStep step (set_us_StepStartTime (Some now)
     (set_us_TargetVersion newTarget (set_us_Phase upgradePhaseStaging us)))),
   (negb (String.eqb (us_TargetVersion us) newTarget), us_TargetVersion us, us_Phase us)).

Definition retargetUpgrade : W S Z :=
  now ← now_;
  recordStartedTarget ;;
  cluster ← cluster_;
  match ValidateTagAgainstRunning cluster with
  | _ :: _ => mret upgradeTransitionRequeue
  | [] =>
      let newTarget := sp_ImageTag (cl_Spec cluster) in
      r ← patchUpgradeStatus (retargetMutate now newTarget);
      match r with
      | Err _ => mret upgradeTransitionRequeue
      | Ok (announce, previous, during) =>
          noteUpgradeInClusterMessage ;;
          (if (announce : bool) then
             event "UpgradeRetargeted" ("Rolling upgrade retargeted from " +:+ previous +:+ " to " +:+ newTarget
               +:+ " during " +:+ during +:+ "; the new target is staged")
           else mret tt) ;;
          mret upgradeTransitionRequeue
      end
  end.

Definition resumeMutate (now : Z) (us : UpgradeStatus) : UpgradeStatus :=
  set_us_CurrentStep "Resuming interrupted upgrade"
    (set_us_StepStartTime (Some now) (set_us_Phase upgradePhaseStaging us)).

(** The phases that decide from the record as stored. *)
Definition decidesFromStored (phase : string) : bool :=
  String.eqb phase upgradePhaseRolling || String.eqb phase upgradePhaseStabilizing
  || String.eqb phase upgradePhaseVerifying.

Definition handleRollingUpgrade : W S Z :=
  now ← now_;
  cluster ← cluster_;
  let phase := match recordOf cluster with Some us => us_Phase us | None => EmptyString end in
  let target := match recordOf cluster with Some us => us_TargetVersion us | None => EmptyString end in
  if upgradeStateMachineActive cluster && negb (String.eqb phase upgradePhaseLegacyInProgress)
     && negb (String.eqb target (sp_ImageTag (cl_Spec cluster)))
  then retargetUpgrade
  else
    stored ← gets (fun w => match w_clusterRead w with Some e => Err e | None => Ok (w_stored w) end);
    if decidesFromStored phase && negb (String.eqb (upgradeRecordMovedOn cluster stored) EmptyString)
    then mret upgradeTransitionRequeue
    else if String.eqb phase upgradePhaseStaging then stepUpgradeStaging
    else if String.eqb phase upgradePhaseRolling then stepUpgradeRolling
    else if String.eqb phase upgradePhaseStabilizing then stepUpgradeStabilizing
    else if String.eqb phase upgradePhaseVerifying then stepUpgradeVerifying
    else if String.eqb phase upgradePhaseLegacyInProgress then
      patchUpgradeStatus (noting (resumeMutate now)) ;; mret upgradeTransitionRequeue
    else startRollingUpgrade.
End Machine.
