(* ===== verification/Recreate.v ===== *)
(** A server StatefulSet that a storage expansion deleted is created again as it
    was (statefulset_recreate.go and the create branch of
    createOrUpdateResourceInternal): what it takes from the deleted one or from
    the revisions its orphaned pods run, and the two steps that keep the servers
    below a held partition on the revision they run. Of a pod template the
    containers with their images are modelled; reading a ControllerRevision is a
    parameter. *)
From S2P Require Import Prelude GoStrings ClusterTypes Conditions UpgradeRules UpgradeRecord World UpgradeMachine.

Open Scope Z_scope.

Abbreviation Template := (list (string * string)).

(** * What a StatefulSet is created again from *)

(** [recreateSource]; [rs_updateStrategy] and [rs_annotations] are known only
    from memory. *)
Record recreateSource := mkRecreateSource {
  rs_template : Template;
  rs_replicas : option Z;
  rs_updateStrategy : option (option (option Z));
  rs_annotations : option (gmap string string);
  rs_updateRevision : string;
  rs_currentRevision : string;
  rs_from : string
}.

(** A deleted StatefulSet as it is kept: the object and the UIDs of its owners. *)
Record deletedStatefulSet := mkDeletedStatefulSet { ds_sts : StatefulSet; ds_owners : list string }.

(** [deletedStatefulSets], by namespace and name. *)
Abbreviation deletedStatefulSets := (gmap string deletedStatefulSet).

Definition statefulSetKey (namespace name : string) : string := namespace +:+ "/" +:+ name.

Definition rememberStatefulSet (namespace : string) (sts : deletedStatefulSet) (d : deletedStatefulSets) : deletedStatefulSets :=
  <[statefulSetKey namespace (sts_Name (ds_sts sts)) := sts]> d.

Definition forgetStatefulSet (namespace name : string) (d : deletedStatefulSets) : deletedStatefulSets :=
  delete (statefulSetKey namespace name) d.

Definition ownedBy (sts : deletedStatefulSet) (uid : string) : bool := bool_decide (uid ∈ ds_owners sts).

Definition rememberedStatefulSet (d : deletedStatefulSets) (namespace name ownerUID : string) : option StatefulSet :=
  match d !! statefulSetKey namespace name with
  | None => None
  | Some prev =>
      if negb (String.eqb ownerUID EmptyString) && negb (ownedBy prev ownerUID) then None
      else Some (ds_sts prev)
  end.

(** [orphanRevision]: an ordinal, -1 for none, and a revision. *)
Abbreviation orphanRevision := (Z * string)%type.

Definition orphanStep (name : string) (acc : orphanRevision * orphanRevision) (pod : Pod) : orphanRevision * orphanRevision :=
  let '(lowest, highest) := acc in
  match statefulSetOrdinal name (pod_Name pod) with
  | None => acc
  | Some ordinal =>
      if pod_Deleting pod || String.eqb (pod_Revision pod) EmptyString then acc
      else
        (if (lowest.1 <? 0) || (ordinal <? lowest.1) then (ordinal, pod_Revision pod) else lowest,
         if highest.1 <? ordinal then (ordinal, pod_Revision pod) else highest)
  end.

Definition orphanedRevisions (name : string) (pods : result (list Pod)) : orphanRevision * orphanRevision :=
  match pods with
  | Err _ => ((-1, EmptyString), (-1, EmptyString))
  | Ok pods => fold_left (orphanStep name) pods ((-1, EmptyString), (-1, EmptyString))
  end.

Section Source.
(** Reading the pod template of a ControllerRevision. *)
Variable readRevisionTemplate : string -> result Template.

Definition source (d : deletedStatefulSets) (namespace name ownerUID : string) (pods : result (list Pod)) : option recreateSource :=
  let '(lowest, highest) := orphanedRevisions name pods in
  match rememberedStatefulSet d namespace name ownerUID with
  | Some prev =>
      Some (mkRecreateSource (sts_Containers prev) (sts_Replicas prev) (Some (sts_RollingUpdate prev))
              (Some (sts_Annotations prev))
              (if String.eqb (sts_UpdateRevision prev) EmptyString then highest.2 else sts_UpdateRevision prev)
              (if String.eqb (sts_CurrentRevision prev) EmptyString then lowest.2 else sts_CurrentRevision prev)
              "the deleted StatefulSet")
  | None =>
      if String.eqb highest.2 EmptyString then None
      else match readRevisionTemplate highest.2 with
           | Err _ => None
           | Ok template =>
               Some (mkRecreateSource template (Some (highest.1 + 1)) None None highest.2 lowest.2
                       ("ControllerRevision " +:+ highest.2))
           end
  end.

Definition applyTo (s : recreateSource) (sts : StatefulSet) : StatefulSet :=
  let sts := set_sts_Containers (rs_template s) sts in
  let sts := match rs_replicas s with Some r => set_sts_Replicas (Some r) sts | None => sts end in
  let sts := match rs_updateStrategy s with Some u => set_sts_RollingUpdate u sts | None => sts end in
  match rs_annotations s with
  | Some annotations => set_sts_Annotations (annotations ∪ sts_Annotations sts) sts
  | None => sts
  end.

(** The first step of a two-step recreate, and whether it is one. *)
Definition holdBelowPartition (s : recreateSource) (sts : StatefulSet) : StatefulSet * bool :=
  match statefulSetPartition sts, sts_Replicas sts with
  | Some partition, Some frozen =>
      if (partition <=? 0) || String.eqb (rs_currentRevision s) EmptyString
         || String.eqb (rs_currentRevision s) (rs_updateRevision s)
      then (sts, false)
      else match readRevisionTemplate (rs_currentRevision s) with
           | Err _ => (sts, false)
           | Ok below =>
               (set_sts_Annotations
                  (<[recreateRestoreRevisionAnnotation := rs_updateRevision s]>
                     (<[recreateRestorePartitionAnnotation := strconv.Itoa partition]> (sts_Annotations sts)))
                  (set_sts_RollingUpdate (Some (Some frozen)) (set_sts_Containers below sts)), true)
           end
  | _, _ => (sts, false)
  end.

(** The create branch, for the server StatefulSet of [owner], whose UID is
    [ownerUID]: what is sent to the API server. *)
Definition newServerStatefulSet (owner : Cluster) (ownerUID : string) (d : deletedStatefulSets)
    (pods : result (list Pod)) (desired : StatefulSet) : StatefulSet :=
  let recreate := source d (cl_Namespace owner) (sts_Name desired) ownerUID pods in
  let sts := match recreate with Some s => applyTo s desired | None => desired end in
  let sts := match sts_RollingUpdate sts with
             | Some None => set_sts_RollingUpdate (Some (partitionForNewServerStatefulSet owner (sts_Replicas sts))) sts
             | _ => sts
             end in
  match recreate with
  | Some s => (holdBelowPartition s sts).1
  | None => sts
  end.

(** What is kept in memory after a write: [created] a create, [restored] the
    second step. *)
Definition keptAfterWrite (namespace : string) (created restored : bool) (sts : StatefulSet) (d : deletedStatefulSets) : deletedStatefulSets :=
  if (created && negb (restorePending sts).2) || restored then forgetStatefulSet namespace (sts_Name sts) d else d.
End Source.

(** * Every server keeps its revision *)

Section Revisions.
Variable revs : string -> result Template.

(** What Kubernetes documents of a partition: a pod below it is created from the
    current revision, the others from the template. *)
Definition comesBackOn (sts : StatefulSet) (ordinal : Z) : result Template :=
  if ordinal <? default 0 (statefulSetPartition sts) then revs (sts_CurrentRevision sts) else Ok (sts_Containers sts).

(** The StatefulSet controller has taken in a new StatefulSet: its template is
    now its current revision. *)
Definition recorded (sts live : StatefulSet) : Prop :=
  sts_Name live = sts_Name sts /\ sts_Annotations live = sts_Annotations sts /\ sts_Replicas live = sts_Replicas sts /\
  sts_Containers live = sts_Containers sts /\ sts_RollingUpdate live = sts_RollingUpdate sts /\
  sts_ObservedGeneration live = sts_Generation live /\ sts_CurrentRevision live <> EmptyString /\
  revs (sts_CurrentRevision live) = Ok (sts_Containers sts).

Lemma restorePending_ann a b : sts_Annotations a = sts_Annotations b -> restorePending a = restorePending b.
Proof. unfold restorePending. by intros ->. Qed.

Lemma not_pending sts : (restorePending sts).2 = false <-> sts_Annotations sts !! recreateRestorePartitionAnnotation = None.
Proof.
  unfold restorePending. destruct (_ !! _); [|done]. destruct (strconv.ParseInt _ _ _) as [p [e|]]; [done|].
  by destruct (p <? 0).
Qed.

Lemma recorded_partition sts live : recorded sts live -> statefulSetPartition live = statefulSetPartition sts.
Proof. intros (_ & _ & _ & _ & H & _). unfold statefulSetPartition. by rewrite H. Qed.

(** A StatefulSet about to be created with its partition, and its first step. *)
Section Steps.
Variables (s : recreateSource) (sts live : StatefulSet) (p r : Z) (below : Template).
Hypothesis Hp : statefulSetPartition sts = Some p.
Hypothesis Hr : sts_Replicas sts = Some r.
Hypothesis Hrange : 0 <= p <= maxInt32.
Hypothesis Hclear : (restorePending sts).2 = false.
Hypothesis Hcur : rs_currentRevision s <> EmptyString.
Hypothesis Hbelow : revs (rs_currentRevision s) = Ok below.
Hypothesis Hlive : recorded (holdBelowPartition revs s sts).1 live.

(** One step: nobody below the partition, or everybody on one revision. *)
Lemma one_step : p = 0 \/ rs_currentRevision s = rs_updateRevision s -> holdBelowPartition revs s sts = (sts, false).
Proof.
  intros H. unfold holdBelowPartition. rewrite Hp, Hr. destruct H as [-> | ->]; [done|].
  by rewrite String.eqb_refl, !orb_true_r.
Qed.

Lemma first_step : 0 < p -> rs_currentRevision s <> rs_updateRevision s ->
  sts_Containers live = below /\ statefulSetPartition live = Some r /\ sts_Replicas live = Some r /\
  restorePending live = (Some p, true) /\
  sts_Annotations live !! recreateRestoreRevisionAnnotation = Some (rs_updateRevision s) /\
  revs (sts_CurrentRevision live) = Ok below.
Proof.
  intros Hpos Hne. pose proof (recorded_partition _ _ Hlive) as Hpart.
  destruct Hlive as (_ & Ha & Hrep & Hc & _ & _ & _ & Hrev). revert Ha Hrep Hc Hrev Hpart.
  unfold holdBelowPartition. rewrite Hp, Hr, Hbelow.
  rewrite (proj2 (Z.leb_gt p 0)) by done. rewrite (proj2 (String.eqb_neq _ _) Hcur), (proj2 (String.eqb_neq _ _) Hne). simpl.
  intros Ha Hrep Hc Hrev Hpart. rewrite Hr in Hrep. split_and!; [done|done|done| | |done].
  - unfold restorePending. rewrite Ha, lookup_insert_ne by done. rewrite lookup_insert_eq.
    rewrite (ParseInt_digits _ p) by first [apply Itoa_ne_empty|apply digits_Itoa; lia|unfold minInt32; lia].
    by rewrite (proj2 (Z.ltb_ge p 0)) by lia.
  - by rewrite Ha, lookup_insert_eq.
Qed.

(** The template the second step writes back: the deleted StatefulSet's, or the
    one of the revision the first step recorded. *)
Variables (rem : option StatefulSet) (owner : Cluster) (desired : StatefulSet).
Hypothesis Hrem :
  (exists prev, rem = Some prev /\ sts_Containers prev = sts_Containers sts /\ (restorePending prev).2 = false) \/
  (rem = None /\ rs_updateRevision s <> EmptyString /\ revs (rs_updateRevision s) = Ok (sts_Containers sts)).
Hypothesis Hsame : rs_currentRevision s = rs_updateRevision s -> below = sts_Containers sts.

Definition secondStep : StatefulSet :=
  if (restorePending live).2 then applyStatefulSet rem revs owner desired live else live.

Definition asBefore : Prop :=
  (forall n, 0 <= n < r -> n < p -> comesBackOn live n = Ok below) /\
  (forall n, 0 <= n < r -> comesBackOn secondStep n = if n <? p then Ok below else Ok (sts_Containers sts)) /\
  sts_Containers secondStep = sts_Containers sts /\ statefulSetPartition secondStep = Some p /\
  sts_Replicas secondStep = Some r /\ (restorePending secondStep).2 = false.

Lemma one_step_keeps : p = 0 \/ rs_currentRevision s = rs_updateRevision s -> asBefore.
Proof.
  intros H1. pose proof (recorded_partition _ _ Hlive) as Hpart. destruct Hlive as (_ & Ha & Hrep & Hc & _ & _ & _ & Hrev).
  rewrite (one_step H1) in *. cbn [fst] in *. rewrite Hp in Hpart. rewrite Hr in Hrep.
  assert (restorePending live = restorePending sts) as Epend by (by apply restorePending_ann).
  assert (forall n, 0 <= n < r -> comesBackOn live n = if n <? p then Ok below else Ok (sts_Containers sts)) as Hback.
  { intros n Hn. unfold comesBackOn. rewrite Hpart, Hrev, Hc. simpl. destruct (Z.ltb_spec n p); [|done].
    destruct H1 as [-> |E]; [lia|]. by rewrite (Hsame E). }
  unfold asBefore, secondStep. rewrite Epend, Hclear. split_and!; try done.
  - intros n Hn Hlt. rewrite (Hback n Hn). by rewrite (proj2 (Z.ltb_lt n p)).
  - by rewrite Epend.
Qed.

Lemma restored_annotations : (restorePending live).2 = true ->
  rem = None \/ (exists prev, rem = Some prev /\ (restorePending prev).2 = false) ->
  sts_ObservedGeneration live = sts_Generation live -> sts_CurrentRevision live <> EmptyString ->
  (restorePending (restoreHeldTemplate rem revs live)).2 = false.
Proof.
  intros Hpend Hprev Hobs Hne. apply not_pending. unfold restoreHeldTemplate. destruct (restorePending live) as [q b].
  rewrite Hobs, Z.ltb_irrefl, (proj2 (String.eqb_neq _ _) Hne). simpl.
  assert (forall m : gmap string string, delete recreateRestoreRevisionAnnotation
    (delete recreateRestorePartitionAnnotation m) !! recreateRestorePartitionAnnotation = None) as Hdel.
  { intros m. rewrite lookup_delete_ne by done. apply lookup_delete_eq. }
  destruct q as [q|]; [|apply Hdel]. destruct Hprev as [-> |(prev & -> & Hprev)].
  - case_match; [apply Hdel|]. case_match; apply Hdel.
  - simpl. apply lookup_union_None. split; [apply Hdel|by apply not_pending].
Qed.

Lemma two_steps_keep : 0 < p -> rs_currentRevision s <> rs_updateRevision s -> asBefore.
Proof.
  intros Hpos Hne. destruct (first_step Hpos Hne) as (Hc & Hpart & Hrep & Hpend & Hann & Hrev).
  destruct Hlive as (_ & _ & _ & _ & _ & Hobs & Hcne & _).
  assert ((restorePending live).2 = true) as Hp2 by (by rewrite Hpend).
  assert (secondStep = restoreHeldTemplate rem revs live) as E2 by (unfold secondStep, applyStatefulSet; by rewrite Hp2).
  assert (sts_Containers secondStep = sts_Containers sts /\ statefulSetPartition secondStep = Some p /\
          sts_Replicas secondStep = Some r /\ sts_CurrentRevision secondStep = sts_CurrentRevision live) as (Ec & Ep & Er & Ecur).
  { rewrite E2. unfold restoreHeldTemplate. rewrite Hpend, Hobs, Z.ltb_irrefl, (proj2 (String.eqb_neq _ _) Hcne), Hann. simpl.
    destruct Hrem as [(prev & -> & Hprev & _)|(-> & Hu & Hrevu)].
    - by split_and!.
    - rewrite (proj2 (String.eqb_neq _ _) Hu), Hrevu. by split_and!. }
  unfold asBefore. split_and!; [| |done|done|done|].
  - intros n Hn _. unfold comesBackOn. rewrite Hpart, Hrev. simpl. by rewrite (proj2 (Z.ltb_lt n r)) by lia.
  - intros n _. unfold comesBackOn. by rewrite Ep, Ecur, Ec, Hrev.
  - rewrite E2. apply restored_annotations; try done. destruct Hrem as [(prev & -> & _ & H)|(-> & _)]; eauto.
Qed.

Lemma recreate_as_before : asBefore.
Proof.
  destruct (decide (p = 0 \/ rs_currentRevision s = rs_updateRevision s)) as [H|H]; [by apply one_step_keeps|].
  apply two_steps_keep; [lia|naive_solver].
Qed.
End Steps.
End Revisions.

Lemma applyTo_fields s sts :
  sts_Containers (applyTo s sts) = rs_template s /\
  sts_Replicas (applyTo s sts) = match rs_replicas s with Some r => Some r | None => sts_Replicas sts end /\
  sts_RollingUpdate (applyTo s sts) = default (sts_RollingUpdate sts) (rs_updateStrategy s) /\
  sts_Annotations (applyTo s sts) = default ∅ (rs_annotations s) ∪ sts_Annotations sts.
Proof.
  unfold applyTo. destruct (rs_replicas s), (rs_updateStrategy s), (rs_annotations s); simpl;
    split_and!; try done; by rewrite (left_id_L ∅ (∪)).
Qed.

(** C14: the StatefulSet a storage expansion deleted, and which the operator
    remembers, is created again so that every server keeps its revision: until the
    held template is back, a server below the partition comes back on the revision
    it runs, whatever the spec asks for; and in the end every server comes back on
    what it came back on before, with the same template, partition and replica
    count, and no step left to do. This is for a remembered StatefulSet with an
    explicit partition (of int32), a replica count and both revisions named, whose
    two ControllerRevisions can be read and with no template held back already; when
    the current revision cannot be read the StatefulSet is created on the held
    template, which is not covered. *)
Theorem recreate_keeps_revisions (revs : string -> result Template) (owner : Cluster) (uid : string)
    (d : deletedStatefulSets) (pods : result (list Pod)) (desired old live : StatefulSet) (p r : Z) (below : Template) :
  rememberedStatefulSet d (cl_Namespace owner) (sts_Name desired) uid = Some old ->
  statefulSetPartition old = Some p -> sts_Replicas old = Some r -> 0 <= p <= maxInt32 ->
  (restorePending old).2 = false -> (restorePending desired).2 = false ->
  sts_CurrentRevision old <> EmptyString -> sts_UpdateRevision old <> EmptyString ->
  revs (sts_CurrentRevision old) = Ok below -> revs (sts_UpdateRevision old) = Ok (sts_Containers old) ->
  recorded revs (newServerStatefulSet revs owner uid d pods desired) live ->
  let final := secondStep revs live (Some old) owner desired in
  (forall n, 0 <= n < r -> n < p -> comesBackOn revs live n = Ok below) /\
  (forall n, 0 <= n < r -> comesBackOn revs final n = comesBackOn revs old n) /\
  sts_Containers final = sts_Containers old /\ statefulSetPartition final = Some p /\ sts_Replicas final = Some r /\
  (restorePending final).2 = false.
Proof.
  intros Hrem Hp Hr Hrange Hcl Hcld Hcur Hupd Hbelow Hrevu Hlive. unfold newServerStatefulSet, source in Hlive.
  destruct (orphanedRevisions _ _) as [lowest highest]. rewrite Hrem in Hlive.
  rewrite (proj2 (String.eqb_neq _ _) Hcur), (proj2 (String.eqb_neq _ _) Hupd) in Hlive.
  set (s := mkRecreateSource _ _ _ _ _ _ _) in Hlive.
  destruct (applyTo_fields s desired) as (Ec & Er & Eru & Ea).
  change (sts_Containers (applyTo s desired) = sts_Containers old) in Ec. change (rs_replicas s) with (sts_Replicas old) in Er. change (rs_updateStrategy s) with (Some (sts_RollingUpdate old)) in Eru.
  rewrite Hr in Er.
  assert (sts_RollingUpdate old = Some (Some p)) as Eold.
  { unfold statefulSetPartition in Hp. destruct (sts_RollingUpdate old) as [q|]; [by rewrite Hp|done]. }
  change (default (sts_RollingUpdate desired) (Some (sts_RollingUpdate old))) with (sts_RollingUpdate old) in Eru.
  rewrite Eold in Eru. rewrite Eru in Hlive.
  assert ((restorePending (applyTo s desired)).2 = false) as Ecl.
  { apply not_pending. rewrite Ea. apply lookup_union_None. split; by apply not_pending. }
  assert (asBefore revs (applyTo s desired) live p r below (Some old) owner desired) as (H1 & H2 & H3 & H4 & H5 & H6).
  { apply (recreate_as_before revs s); try done.
    - left. exists old. by rewrite Ec.
    - intros E. simpl in E. rewrite E, Hrevu in Hbelow. rewrite Ec. by injection Hbelow. }
  split_and!; [exact H1| |congruence|exact H4|exact H5|exact H6].
  intros n Hn. rewrite (H2 n Hn). unfold comesBackOn. by rewrite Hp, Hbelow, Ec.
Qed.

(** The same after a restart of the operator, which has forgotten the deleted
    StatefulSet: template and revisions are those of the pods that still run,
    and the partition that of the held upgrade's record. *)
Theorem recreate_after_restart (revs : string -> result Template) (owner : Cluster) (uid : string)
    (d : deletedStatefulSets) (pods : result (list Pod)) (desired live : StatefulSet) (p lo hi : Z)
    (c u : string) (below held : Template) :
  rememberedStatefulSet d (cl_Namespace owner) (sts_Name desired) uid = None ->
  orphanedRevisions (sts_Name desired) pods = ((lo, c), (hi, u)) -> c <> EmptyString -> u <> EmptyString ->
  revs c = Ok below -> revs u = Ok held ->
  sts_RollingUpdate desired = Some None -> (restorePending desired).2 = false ->
  partitionForNewServerStatefulSet owner (Some (hi + 1)) = Some p -> 0 <= p <= maxInt32 ->
  recorded revs (newServerStatefulSet revs owner uid d pods desired) live ->
  let final := secondStep revs live None owner desired in
  (forall n, 0 <= n < hi + 1 -> n < p -> comesBackOn revs live n = Ok below) /\
  (forall n, 0 <= n < hi + 1 -> comesBackOn revs final n = if n <? p then Ok below else Ok held) /\
  sts_Containers final = held /\ statefulSetPartition final = Some p /\ sts_Replicas final = Some (hi + 1) /\
  (restorePending final).2 = false.
Proof.
  intros Hrem Horph Hc Hu Hbelow Hheld Hru Hcl Hp Hrange Hlive. unfold newServerStatefulSet, source in Hlive.
  rewrite Horph, Hrem in Hlive. cbn [fst snd] in Hlive. rewrite (proj2 (String.eqb_neq _ _) Hu), Hheld in Hlive.
  set (s := mkRecreateSource _ _ _ _ _ _ _) in Hlive.
  destruct (applyTo_fields s desired) as (Ec & Er & Eru & Ea).
  change (sts_RollingUpdate (applyTo s desired) = sts_RollingUpdate desired) in Eru. rewrite Hru in Eru.
  change (sts_Replicas (applyTo s desired) = Some (hi + 1)) in Er.
  change (sts_Annotations (applyTo s desired) = ∅ ∪ sts_Annotations desired) in Ea.
  rewrite Eru, Er, Hp in Hlive. set (sts := set_sts_RollingUpdate _ _) in Hlive.
  assert (sts_Containers sts = held) as Es by exact Ec. rewrite <- Es.
  apply (recreate_as_before revs s sts live p (hi + 1) below); try done.
  - right. split_and!; [done|done|]. by rewrite Es.
  - intros E. simpl in E. rewrite E, Hheld in Hbelow. rewrite Es. by injection Hbelow.
Qed.

(** * Which pods the revisions are read from *)

(** The ordinal of a pod of the StatefulSet [name] that is not being deleted and
    names its revision. *)
Definition orphanOrdinal (name : string) (pod : Pod) : option Z :=
  match statefulSetOrdinal name (pod_Name pod) with
  | Some n => if pod_Deleting pod || String.eqb (pod_Revision pod) EmptyString then None else Some n
  | None => None
  end.

Lemma orphanOrdinal_nonneg name pod n : orphanOrdinal name pod = Some n -> 0 <= n.
Proof.
  unfold orphanOrdinal. destruct (statefulSetOrdinal name (pod_Name pod)) as [m|] eqn:E; [|done].
  apply statefulSetOrdinal_inv in E as [? _]. case_match; [done|]. intros [= <-]. lia.
Qed.

Lemma orphanStep_eq name lowest highest pod :
  orphanStep name (lowest, highest) pod =
  match orphanOrdinal name pod with
  | None => (lowest, highest)
  | Some n => (if (lowest.1 <? 0) || (n <? lowest.1) then (n, pod_Revision pod) else lowest,
               if highest.1 <? n then (n, pod_Revision pod) else highest)
  end.
Proof. unfold orphanStep, orphanOrdinal. destruct (statefulSetOrdinal _ _); [|done]. by destruct (_ || _). Qed.

(** [best] is the ordinal and revision of a pod of [pods]. *)
Definition oneOf (name : string) (pods : list Pod) (best : orphanRevision) : Prop :=
  exists pod, pod ∈ pods /\ orphanOrdinal name pod = Some best.1 /\ pod_Revision pod = best.2.

Lemma oneOf_app name pods pod best : oneOf name pods best -> oneOf name (pods ++ [pod]) best.
Proof. intros (q & Hq & H). exists q. split; [apply elem_of_app; by left|done]. Qed.

Lemma oneOf_last name pods pod n : orphanOrdinal name pod = Some n -> oneOf name (pods ++ [pod]) (n, pod_Revision pod).
Proof. intros H. exists pod. split; [apply elem_of_app; right; by apply list_elem_of_singleton|done]. Qed.

(** The lowest and the highest of the pods, when there is one. *)
Theorem orphanedRevisions_spec name pods :
  let '(lowest, highest) := orphanedRevisions name (Ok pods) in
  ((forall pod, pod ∈ pods -> orphanOrdinal name pod = None) /\ lowest = (-1, EmptyString) /\ highest = (-1, EmptyString)) \/
  (oneOf name pods lowest /\ oneOf name pods highest /\
   forall pod n, pod ∈ pods -> orphanOrdinal name pod = Some n -> lowest.1 <= n <= highest.1).
Proof.
  unfold orphanedRevisions. induction pods as [|pod pods IH] using rev_ind; simpl.
  - left. split_and!; [|done|done]. by intros pod ?%not_elem_of_nil.
  - rewrite fold_left_app. simpl. destruct (fold_left _ pods _) as [lowest highest]. rewrite orphanStep_eq.
    destruct (orphanOrdinal name pod) as [n|] eqn:En.
    + right. pose proof (orphanOrdinal_nonneg _ _ _ En). pose proof (oneOf_last name pods pod n En) as Hlast.
      destruct IH as [(Hnone & -> & ->)|(Hl & Hh & Hb)].
      * rewrite (proj2 (Z.ltb_lt (-1, EmptyString).1 n)) by (simpl; lia). split_and!; [exact Hlast|exact Hlast|].
        intros q m [Hq| ->%list_elem_of_singleton]%elem_of_app Hm; [by rewrite (Hnone q Hq) in Hm|].
        rewrite En in Hm. injection Hm as <-. simpl. lia.
      * pose proof Hl as (l & Hlin & Hlo & _). pose proof (orphanOrdinal_nonneg _ _ _ Hlo).
        assert (forall q m, q ∈ pods ++ [pod] -> orphanOrdinal name q = Some m -> m = n \/ lowest.1 <= m <= highest.1) as Hb'.
        { intros q m [Hq| ->%list_elem_of_singleton]%elem_of_app Hm; [right; by eapply Hb|left; congruence]. }
        assert (lowest.1 <= highest.1) by (specialize (Hb l _ Hlin Hlo); lia).
        rewrite (proj2 (Z.ltb_ge lowest.1 0)) by lia. simpl.
        destruct (Z.ltb_spec n lowest.1), (Z.ltb_spec highest.1 n); split_and!;
          try exact Hlast; try (by apply oneOf_app);
          intros q m Hq Hm; destruct (Hb' q m Hq Hm); simpl; lia.
    + destruct IH as [(Hnone & -> & ->)|(Hl & Hh & Hb)]; [left|right]; split_and!; try done; try (by apply oneOf_app).
      * intros q [Hq| ->%list_elem_of_singleton]%elem_of_app; [by apply Hnone|done].
      * intros q m [Hq| ->%list_elem_of_singleton]%elem_of_app Hm; [by eapply Hb|congruence].
Qed.

(** * A held upgrade of three servers *)
Module RecreateSample.

Definition oldTemplate : Template := [("neo4j", "neo4j:2026.07.1")].
Definition heldTemplate : Template := [("neo4j", "neo4j:2026.08.1")].

(** Server 2 runs the target, 0 and 1 the version before; the walk stopped at
    partition 2. *)
Definition deleted : StatefulSet :=
  mkStatefulSet "c-server" ∅ 7 (Some 3) heldTemplate (Some (Some 2)) 7 1 3 "rev-a" "rev-b".

Definition revisions (name : string) : result Template :=
  if String.eqb name "rev-a" then Ok oldTemplate else if String.eqb name "rev-b" then Ok heldTemplate else Err "not found".

Definition sampleOwner : Cluster :=
  mkCluster "c" "ns" 3 ∅ (mkClusterSpec "neo4j" "2026.08.1" 3 None)
    (mkClusterStatus PhaseReady EmptyString "2026.07.1" EmptyString None None [] None true 3 None).

Definition memory : deletedStatefulSets := rememberStatefulSet "ns" (mkDeletedStatefulSet deleted ["uid-1"]) ∅.

(** The first step as the StatefulSet controller has recorded it. *)
Definition firstLive : StatefulSet :=
  mkStatefulSet "c-server"
    {[recreateRestoreRevisionAnnotation := "rev-b"; recreateRestorePartitionAnnotation := "2"]} 1 (Some 3) oldTemplate
    (Some (Some 3)) 1 0 0 "rev-a" "rev-a".

Lemma sample_recorded :
  recorded revisions (newServerStatefulSet revisions sampleOwner "uid-1" memory (Ok []) (buildServerStatefulSet sampleOwner)) firstLive.
Proof. unfold recorded. split_and!; vm_compute; first [reflexivity|discriminate]. Qed.

Lemma recreate_keeps_revisions_witness :
  let final := secondStep revisions firstLive (Some deleted) sampleOwner (buildServerStatefulSet sampleOwner) in
  comesBackOn revisions final 1 = Ok oldTemplate /\ comesBackOn revisions final 2 = Ok heldTemplate /\
  forall n, 0 <= n < 3 -> comesBackOn revisions final n = comesBackOn revisions deleted n.
Proof.
  cbv zeta. split; [vm_compute; reflexivity|]. split; [vm_compute; reflexivity|].
  apply (recreate_keeps_revisions revisions sampleOwner "uid-1" memory (Ok []) (buildServerStatefulSet sampleOwner) deleted
           firstLive 2 3 oldTemplate);
    first [exact sample_recorded|unfold maxInt32; lia|vm_compute; reflexivity|vm_compute; discriminate].
Defined.
End RecreateSample.
