(* ===== verification/UpgradeSafety.v ===== *)
(** What the upgrade's state machine does to the cluster: when a pass moves the
    partition and what it has seen before it does, what a stale copy of the
    record can and cannot do, what a new target is held to, when an upgrade is
    complete, and that it and a scale-down's drain never run at the same time.
    The theorems hold of any world: any outcome of each write, any answer of
    Neo4j, any stale read. *)
From S2P Require Import Prelude GoStrings ClusterTypes Conditions Version UpgradeRules UpgradeRecord World ServerIdentity Availability UpgradeRepair ScaleDown UpgradeWrites UpgradeMachine.

Open Scope Z_scope.

(** * What the parts keep *)

Section Kept.
Context {S : Type} `{!ScaleDownClient S, !UpgradeClient S}.

(** What an upgrade is: the server StatefulSet and the stored record. *)
Definition walkView (w : World S) : getResult StatefulSet * option UpgradeStatus :=
  (w_sts w, recordOf (w_stored w)).
Abbreviation keepsWalk := (keeps (S := S) (same walkView)).

Lemma keepsWalk_retry {A} steps (f : Cluster -> option Cluster * A) pre post :
  (forall c latest v, f c = (Some latest, v) -> recordOf latest = recordOf c) ->
  keepsWalk (retryOnConflict steps f pre post).
Proof.
  intros H. apply keeps_pair; [|by apply (retryOnConflict_stored recordOf)].
  intros w. destruct (retryOnConflict_outside steps f pre post w) as (_ & Hs & _). exact Hs.
Qed.

Lemma keepsWalk_event reason message : keepsWalk (event reason message).
Proof. by intros w. Qed.
#[local] Hint Resolve keepsWalk_event : keeps.

Lemma keepsWalk_ask {A} (call : S -> A * S) : keepsWalk (ask call).
Proof. intros w. unfold ask, same, walkView. by destruct (call (w_neo4j w)). Qed.
#[local] Hint Resolve keepsWalk_ask : keeps.

Lemma keepsWalk_send {A} stmt (call : S -> A * S) : keepsWalk (send stmt call).
Proof. intros w. unfold send, same, walkView. by destruct (call (w_neo4j w)). Qed.
#[local] Hint Resolve keepsWalk_send : keeps.

Lemma keepsWalk_annotations values : keepsWalk (setDrainAnnotations values).
Proof.
  unfold setDrainAnnotations, cluster_. keep. apply keepsWalk_retry. by intros c latest v [= <- _].
Qed.
#[local] Hint Resolve keepsWalk_annotations : keeps.

Lemma keepsWalk_condition status reason message :
  keepsWalk (setScaleDownConditionPersisted status reason message).
Proof.
  unfold setScaleDownConditionPersisted, now_. keep. apply keepsWalk_retry. intros c latest v.
  destruct (SetNamedCondition _ _ _ _ _ _ _). by intros [= <- _].
Qed.
#[local] Hint Resolve keepsWalk_condition : keeps.

Lemma keepsWalk_settle message : keepsWalk (settleScaleDownCondition message).
Proof.
  unfold settleScaleDownCondition, now_. keep. apply keepsWalk_retry. intros c latest v.
  destruct (negb _); [done|]. destruct (SetNamedCondition _ _ _ _ _ _ _). by intros [= <- _].
Qed.
#[local] Hint Resolve keepsWalk_settle : keeps.

Lemma keepsWalk_block message : keepsWalk (blockScaleDown message).
Proof. unfold blockScaleDown. keep. Qed.
#[local] Hint Resolve keepsWalk_block : keeps.

Lemma keepsWalk_records : keepsWalk clearDrainRecords.
Proof. unfold clearDrainRecords, setDrainServers. keep. Qed.
#[local] Hint Resolve keepsWalk_records : keeps.

Lemma keepsWalk_enable record rows name ids enabled : keepsWalk (enableServers record rows name ids enabled).
Proof. revert enabled. induction ids as [|id rest IH]; intros; cbn [enableServers]; keep. Qed.
#[local] Hint Resolve keepsWalk_enable : keeps.

Lemma keepsWalk_giveBack servers ids : keepsWalk (giveBackCordoned servers ids).
Proof. unfold giveBackCordoned, cluster_. keep. Qed.
#[local] Hint Resolve keepsWalk_giveBack : keeps.

Lemma keepsWalk_addresses cluster servers : keepsWalk (withKnownAddresses cluster servers).
Proof.
  intros w. unfold withKnownAddresses. destruct servers as [l|]; [|done]. cbn. by destruct (fillAddresses _ l).
Qed.
#[local] Hint Resolve keepsWalk_addresses : keeps.

Lemma keepsWalk_cordon ids : keepsWalk (cordonServers ids).
Proof. induction ids; cbn [cordonServers]; keep. Qed.
#[local] Hint Resolve keepsWalk_cordon : keeps.

Lemma keepsWalk_drop ids : keepsWalk (dropServers ids).
Proof. induction ids; cbn [dropServers]; keep. Qed.
#[local] Hint Resolve keepsWalk_drop : keeps.

Lemma keepsWalk_step settle desired active step : keepsWalk (drainStep settle desired active step).
Proof. unfold drainStep, pendingCondition, wake, now_, cluster_. keep. Qed.
#[local] Hint Resolve keepsWalk_step : keeps.

Lemma keepsWalk_active settle desired current active : keepsWalk (drainActive settle desired current active).
Proof. unfold drainActive. keep. Qed.
#[local] Hint Resolve keepsWalk_active : keeps.

Lemma keepsWalk_reported settle desired current reported :
  keepsWalk (drainReported settle desired current reported).
Proof. unfold drainReported, holdPods, setDrainServers, cluster_. keep. Qed.
#[local] Hint Resolve keepsWalk_reported : keeps.

Lemma keepsWalk_setBack current : keepsWalk (setBackScaleDown current).
Proof. unfold setBackScaleDown, cluster_. keep. Qed.
#[local] Hint Resolve keepsWalk_setBack : keeps.

Lemma keepsWalk_drain settle : keepsWalk (reconcileScaleDownDrain settle).
Proof. unfold reconcileScaleDownDrain, holdPods, cluster_. keep. Qed.

Lemma keepsWalk_announce : keepsWalk announceUpgradeDeferredByDrain.
Proof. unfold announceUpgradeDeferredByDrain, cluster_. keep. Qed.
End Kept.

(** * When the partition moves *)

Section Partition.
Context {S : Type} `{!ScaleDownClient S, !UpgradeClient S}.
Variables settle requeue : Z.
Variable topologyError : Cluster -> option string.
Variable reconcileConfigMap : Cluster -> bool * option string.
Variable remembered : option StatefulSet.
Variable readRevisionTemplate : string -> result (list (string * string)).

Abbreviation handle := (handleRollingUpgrade (S := S) settle requeue topologyError reconcileConfigMap remembered
  readRevisionTemplate).

(** The StatefulSet alone, kept by a handler that asks Neo4j. *)
Abbreviation keepsSts := (keeps (S := S) (same w_sts)).

Lemma keepsSts_apart {A} (m : W S A) : keeps (same apartView) m -> keepsSts m.
Proof. intros H w. specialize (H w). unfold same, apartView in *. congruence. Qed.

Lemma keepsSts_ask {A} (call : S -> A * S) : keepsSts (ask call).
Proof. intros w. unfold ask, same. by destruct (call (w_neo4j w)). Qed.
#[local] Hint Resolve keepsSts_ask : keeps.
#[local] Hint Extern 4 (keeps (same w_sts) _) => (apply keepsSts_apart; solve [eauto 2 with keeps]) : keeps.

Lemma keepsSts_observe partition pod us : keepsSts (observeLastRolled partition pod us).
Proof. unfold observeLastRolled, isServerAvailable, lastRolledDatabasesCaughtUp, cluster_. keep. Qed.

Lemma keepsSts_stabilizing : keepsSts stepUpgradeStabilizing.
Proof. unfold stepUpgradeStabilizing, clusterStable, transitionToVerifying, now_, cluster_. keep. Qed.

Lemma keepsSts_verifying : keepsSts (stepUpgradeVerifying requeue).
Proof. unfold stepUpgradeVerifying, completeUpgrade, RecordUpgrade, now_, cluster_. keep. Qed.

Lemma keepsSts_start : keepsSts (startRollingUpgrade settle requeue).
Proof.
  unfold startRollingUpgrade, startChecked, beginUpgrade, preUpgradeCheck, now_, cluster_. keep.
  all: intros w; pose proof (keepsWalk_drain settle w); pose proof (keepsWalk_announce w); unfold same, walkView in *; congruence.
Qed.

Lemma keepsSts_retarget : keepsSts retargetUpgrade.
Proof. unfold retargetUpgrade, now_, cluster_. keep. Qed.

(** The gates of the server rolled last, as Neo4j, in state [n] when the step
    asks, answers them: SHOW SERVERS lists it as a member and Available, and on
    the server itself every database has caught up. *)
Definition gatesOpen (pod : string) (n : S) : Prop :=
  let n1 := (CreateClient n).2 in
  let n2 := (GetServerList n1).2 in
  let n3 := (CreatePodClient pod n2).2 in
  let n4 := (ClusterStatusCheck pod n3).2 in
  exists servers s checks allocs,
    (GetServerList n1).1 = Ok servers /\ s ∈ servers /\
    addressIsPod (si_Address s) pod = true /\ serverServes s = true /\
    (ClusterStatusCheck pod n3).1 = Ok checks /\ (DatabaseAllocations pod n4).1 = Ok allocs /\
    (evaluateDatabaseGate pod checks allocs).1 = true.

Lemma podServerAvailable_true servers pod version :
  podServerAvailable servers pod = (true, version) ->
  exists s, s ∈ servers /\ addressIsPod (si_Address s) pod = true /\ serverServes s = true.
Proof.
  induction servers as [|s rest IH]; cbn; [done|]. destruct (_ && _) eqn:E.
  - intros _. breflect. exists s. split_and!; [left|done..].
  - intros H. destruct (IH H) as (s' & Hs & ?). exists s'. split; [by right|done].
Qed.

Lemma ask_run {A} (call : S -> A * S) (w : World S) :
  ask call w = ((call (w_neo4j w)).1, set_w_neo4j (call (w_neo4j w)).2 w).
Proof. unfold ask. by destruct (call (w_neo4j w)). Qed.

Lemma isServerAvailable_true pod version (w : World S) :
  (isServerAvailable pod w).1 = (true, version) ->
  let n1 := (CreateClient (w_neo4j w)).2 in
  w_neo4j (isServerAvailable pod w).2 = (GetServerList n1).2 /\
  exists servers s, (GetServerList n1).1 = Ok servers /\ s ∈ servers /\
    addressIsPod (si_Address s) pod = true /\ serverServes s = true.
Proof.
  unfold isServerAvailable. rewrite bind_run, ask_run. cbn [fst snd].
  destruct (CreateClient (w_neo4j w)) as [[e|] n1]; cbn [fst snd]; [done|].
  rewrite bind_run, ask_run. cbn. destruct (GetServerList n1) as [[servers|e] n2]; cbn; [|done].
  intros H. split; [done|]. destruct (podServerAvailable_true _ _ _ H) as (s & ?). by exists servers, s.
Qed.

Lemma caughtUp_true pod names (w : World S) :
  (lastRolledDatabasesCaughtUp pod w).1 = Ok (true, names) ->
  let n1 := (CreatePodClient pod (w_neo4j w)).2 in
  exists checks allocs, (ClusterStatusCheck pod n1).1 = Ok checks /\
    (DatabaseAllocations pod (ClusterStatusCheck pod n1).2).1 = Ok allocs /\
    (evaluateDatabaseGate pod checks allocs).1 = true.
Proof.
  unfold lastRolledDatabasesCaughtUp. rewrite bind_run, ask_run. cbn [fst snd].
  destruct (CreatePodClient pod (w_neo4j w)) as [[e|] n1]; cbn [fst snd]; [done|].
  rewrite bind_run, ask_run. cbn.
  destruct (ClusterStatusCheck pod n1) as [[checks|e] n2]; cbn [fst snd]; [|done].
  rewrite bind_run, ask_run. cbn. destruct (DatabaseAllocations pod n2) as [[allocs|e] n3]; cbn; [|done].
  intros [= H]. exists checks, allocs. by rewrite H.
Qed.

(** The step sees both gates open only when they are. *)
Lemma observe_gates partition pod us lag us' (w : World S) :
  (observeLastRolled partition pod us w).1 = (true, true, lag, us') -> gatesOpen pod (w_neo4j w).
Proof.
  unfold observeLastRolled. rewrite bind_run. pose proof (isServerAvailable_true pod) as Ha.
  destruct (isServerAvailable pod w) as [[available version] w1] eqn:E. specialize (Ha version w).
  rewrite E in Ha. cbn [fst snd] in *. destruct available; cbn [negb]; [|done].
  destruct (Ha eq_refl) as (Hn & servers & s & Hsrv & Hin & Haddr & Hserves). rewrite bind_run.
  match goal with |- context [(lastRolledDatabasesCaughtUp pod ≫= ?k) ?w2] =>
    set (w2' := w2); assert (Hw2 : w_neo4j w2' = w_neo4j w1) end.
  { subst w2'. match goal with |- w_neo4j (?m w1).2 = _ => assert (Hk : keeps (same apartView) m) end.
    { unfold cluster_. keep. }
    specialize (Hk w1). unfold same, apartView in Hk. congruence. }
  rewrite bind_run. pose proof (caughtUp_true pod) as Hc.
  destruct (lastRolledDatabasesCaughtUp pod w2') as [[[[] names]|e] w3] eqn:Eg; cbn [fst snd].
  - intros _. specialize (Hc names w2'). rewrite Eg in Hc. destruct (Hc eq_refl) as (checks & allocs & H1 & H2 & H3).
    rewrite Hw2, Hn in H1, H2. exists servers, s, checks, allocs. by split_and!.
  - rewrite bind_run. by destruct (_ w3).
  - done.
Qed.

(** A write of the StatefulSet stores what its body makes of the stored one, or
    nothing; it touches nothing else. *)
Lemma writeStatefulSet_spec steps mutate (w : World S) live :
  w_sts w = Found live ->
  let '(e, w') := writeStatefulSet steps mutate w in
  (e <> None /\ w_sts w' = Found live) \/ (e = None /\ w_sts w' = Found (storedAs live (mutate live))).
Proof.
  revert w. induction steps as [|n IH]; intros w Hw; cbn [writeStatefulSet]; [by left|].
  rewrite bind_run.
  assert (Hn : w_sts (nextStsAttempt w).2 = Found live).
  { unfold nextStsAttempt. by destruct (w_stsAttempts w). }
  destruct (nextStsAttempt w) as [a w1]. cbn [fst snd] in *.
  destruct a as [|e|]; [|by left|by apply IH].
  rewrite bind_gets, Hn. by right.
Qed.

(** What a pass does to the StatefulSet [live] of the world [w] it runs in. *)
Definition target (w : World S) : StatefulSet :=
  buildServerStatefulSet (w_cluster w).

(** Staging stores the target's template, the replica count kept, at the
    partition [stagePartition] finds, and only for a record that is Staging
    towards this target on the pass's copy, and as stored too when the uncached
    read succeeds and there is a stored record. *)
Definition staged (w : World S) (live live' : StatefulSet) : Prop :=
  exists us pods replicas q,
    recordOf (w_cluster w) = Some us /\ us_Phase us = upgradePhaseStaging /\
    us_TargetVersion us = sp_ImageTag (cl_Spec (w_cluster w)) /\
    (forall fresh, w_clusterRead w = None -> recordOf (w_stored w) = Some fresh ->
       us_Phase fresh = upgradePhaseStaging /\ us_TargetVersion fresh = us_TargetVersion us) /\
    (restorePending live).2 = false /\
    w_pods w = Ok pods /\ sts_Replicas live = Some replicas /\ replicas <> 0 /\
    stagePartition (w_cluster w) live (set_sts_Replicas (Some replicas) (target w)) replicas pods = Some q /\
    sts_Replicas live' = Some replicas /\ sts_Containers live' = sts_Containers (target w) /\
    default 0 (statefulSetPartition live') = q.

(** Staging gives a StatefulSet created again its held template back. *)
Definition restored (w : World S) (live live' : StatefulSet) : Prop :=
  (exists us, recordOf (w_cluster w) = Some us /\ us_Phase us = upgradePhaseStaging) /\
  (restorePending live).2 = true /\
  live' = storedAs live (restoreHeldTemplate remembered readRevisionTemplate live).

(** Rolling lowers the partition of the walk by one, once the StatefulSet
    controller has seen the spec, every server from the partition up runs the
    target, every server is ready, and the server rolled last is back with its
    databases; and only for the record as stored. *)
Definition lowered (w : World S) (live live' : StatefulSet) : Prop :=
  exists us stored replicas p,
    recordOf (w_cluster w) = Some us /\ us_Phase us = upgradePhaseRolling /\
    us_TargetVersion us = sp_ImageTag (cl_Spec (w_cluster w)) /\
    recordOf (w_stored w) = Some stored /\ us_Phase stored = us_Phase us /\
    us_TargetVersion stored = us_TargetVersion us /\ us_CurrentPartition stored = us_CurrentPartition us /\
    sts_Replicas live = Some replicas /\ p = walkPartition us live replicas /\ p <> 0 /\
    sts_Generation live <= sts_ObservedGeneration live /\
    replicas - p <= sts_UpdatedReplicas live /\ replicas <= sts_ReadyReplicas live /\
    (p < replicas -> gatesOpen (cl_Name (w_cluster w) +:+ "-server-" +:+ strconv.Itoa p) (w_neo4j w)) /\
    live' = storedAs live (set_sts_RollingUpdate (Some (Some (p - 1))) live).

(** What [recordStartedTarget] changes of the pass's copy: the version recorded
    as started, at most. *)
Lemma started_copy (w : World S) us :
  recordOf (w_cluster w) = Some us ->
  exists v, w_cluster (recordStartedTarget w).2 = setRecord (Some (set_us_StartedTargetVersion v us)) (w_cluster w).
Proof.
  intros Hus.
  assert (Hid : exists v, w_cluster w = setRecord (Some (set_us_StartedTargetVersion v us)) (w_cluster w)).
  { exists (us_StartedTargetVersion us). unfold recordOf in Hus. destruct (w_cluster w) as [? ? ? ? ? []].
    cbn in *. unfold setRecord. cbn. by destruct us; subst. }
  unfold recordStartedTarget, cluster_. rewrite !bind_gets, Hus. cbv zeta.
  destruct (_ || _); [done|]. destruct (targetStartedOnAServer _ _) as [[]|]; [|done..].
  rewrite bind_run. pose proof (retryOnConflict_keepCopy DefaultRetry (startedBody (us_TargetVersion us)) w) as Hc.
  unfold same in Hc. destruct (retryOnConflict _ _ _ _ w) as [[[]|] w1]; cbn in *; rewrite Hc; [|done..].
  by eexists.
Qed.

Lemma sts_after {A} (m : W S A) (w : World S) live :
  keepsSts m -> w_sts w = Found live -> w_sts (m w).2 = Found live.
Proof. intros Hm Hw. rewrite <-Hw. apply Hm. Qed.

Lemma lower_moves (w : World S) live replicas partition now :
  w_sts w = Found live ->
  let lower :=
    e ← updateServerStatefulSet (set_sts_RollingUpdate (Some (Some (partition - 1))));
    match e with
    | Some _ => mret upgradeStepRequeue
    | None => patchUpgradeStatus (noting (lowerMutate now replicas partition)) ;; mret upgradeStepRequeue
    end in
  w_sts (lower w).2 = Found live \/
  w_sts (lower w).2 = Found (storedAs live (set_sts_RollingUpdate (Some (Some (partition - 1))) live)).
Proof.
  intros Hw. cbv zeta. rewrite bind_run. unfold updateServerStatefulSet. rewrite bind_run.
  match goal with |- context [writeStatefulSet ?n ?m w] =>
    pose proof (writeStatefulSet_spec n m w live Hw) as H; destruct (writeStatefulSet n m w) as [e w1] end.
  destruct H as [[He H]|[-> H]]; cbn [fst snd].
  - destruct e as [e|]; [|done]. by left.
  - right. rewrite bind_run.
    assert (Hn : w_sts (nextStsAttempt w1).2 = w_sts w1) by (unfold nextStsAttempt; by destruct (w_stsAttempts w1)).
    destruct (nextStsAttempt w1) as [a w2]. cbn [fst snd] in *. rewrite <-Hn in H.
    destruct a; cbn [mret W_ret fst snd]; [|done|]; apply sts_after; [keep|done|keep|done].
Qed.

Lemma plan_lower o :
  planUpgradeRollStep o = rollLower ->
  ro_Generation o <= ro_ObservedGeneration o /\ ro_Replicas o - ro_Partition o <= ro_UpdatedReplicas o /\
  ro_Replicas o <= ro_ReadyReplicas o /\ ro_Partition o <> 0 /\
  (ro_Partition o < ro_Replicas o -> ro_LastRolledAvailable o = true /\ ro_LastRolledDatabasesCaughtUp o = true).
Proof.
  unfold planUpgradeRollStep. zcases; try done; destruct (ro_LastRolledAvailable o), (ro_LastRolledDatabasesCaughtUp o);
    try done; intros _; split_and!; try lia; try done.
Qed.

(** The Rolling step once it has its observation: the partition moves only when
    the observation says everything is in place. *)
Lemma act_moves (w : World S) cluster live replicas p available caughtUp lagging us :
  w_sts w = Found live ->
  let w' := (actOnRoll cluster live replicas p available caughtUp lagging us w).2 in
  w_sts w' = Found live \/
  (p <> 0 /\ sts_Generation live <= sts_ObservedGeneration live /\
   replicas - p <= sts_UpdatedReplicas live /\ replicas <= sts_ReadyReplicas live /\
   (p < replicas -> available = true /\ caughtUp = true) /\
   w_sts w' = Found (storedAs live (set_sts_RollingUpdate (Some (Some (p - 1))) live))).
Proof.
  intros Hw. cbv zeta. unfold actOnRoll, now_. rewrite bind_gets.
  destruct (planUpgradeRollStep _) eqn:Hplan.
  - left. apply sts_after; [keep|done].
  - destruct (lower_moves w live replicas p (w_now w) Hw) as [H|H]; [by left|]. right.
    apply plan_lower in Hplan. cbn in Hplan. destruct Hplan as (H1 & H2 & H3 & H4 & H5). by split_and!.
  - left. apply sts_after; [keep|done].
Qed.

Lemma rolling_moves (w : World S) live us :
  w_sts w = Found live -> recordOf (w_cluster w) = Some us ->
  let w' := (stepUpgradeRolling w).2 in
  w_sts w' = Found live \/
  exists replicas p, sts_Replicas live = Some replicas /\ p = walkPartition us live replicas /\ p <> 0 /\
    sts_Generation live <= sts_ObservedGeneration live /\
    replicas - p <= sts_UpdatedReplicas live /\ replicas <= sts_ReadyReplicas live /\
    (p < replicas -> gatesOpen (cl_Name (w_cluster w) +:+ "-server-" +:+ strconv.Itoa p) (w_neo4j w)) /\
    w_sts w' = Found (storedAs live (set_sts_RollingUpdate (Some (Some (p - 1))) live)).
Proof.
  intros Hlive Hus. cbv zeta. unfold stepUpgradeRolling, cluster_. rewrite bind_run.
  destruct (started_copy w us Hus) as [v Hcopy].
  pose proof (keepsApart_started w) as H1. destruct (recordStartedTarget w) as [[] w1].
  unfold same, apartView in H1. injection H1 as Hs1 Hn1 _. cbn [fst snd] in *.
  rewrite !bind_gets, Hs1, Hlive, Hcopy. cbv zeta.
  destruct (sts_Replicas live) as [replicas|]; cbn [from_option]; unfold id;
    [|left; change (0 =? 0) with true; cbv iota; apply sts_after; [keep|congruence]].
  destruct (replicas =? 0); [left; apply sts_after; [keep|congruence]|].
  rewrite bind_run.
  match goal with |- context [(?m w1).2] => assert (Hk : keeps (same apartView) m) by keep;
    specialize (Hk w1); destruct (m w1) as [[] w2] end.
  unfold same, apartView in Hk. injection Hk as Hs2 Hn2 _. cbn [fst snd] in *. rewrite bind_run.
  pose proof (keepsApart_deferral (sp_Servers (cl_Spec (w_cluster w))) replicas w2) as Hk.
  destruct (reportTopologyDeferral _ _ w2) as [[] w3].
  unfold same, apartView in Hk. injection Hk as Hs3 Hn3 _. cbn [fst snd] in *.
  change (recordOf (setRecord ?r ?c)) with r. cbn [from_option].
  set (us1 := set_us_StartedTargetVersion v us).
  assert (Hp : walkPartition us1 live replicas = walkPartition us live replicas) by done. rewrite Hp.
  set (p := walkPartition us live replicas). change (cl_Name (setRecord _ (w_cluster w))) with (cl_Name (w_cluster w)).
  set (pod := cl_Name (w_cluster w) +:+ "-server-" +:+ strconv.Itoa p).
  rewrite bind_run.
  destruct (_ && (p <? replicas)) eqn:Esettled.
  - pose proof (observe_gates p pod us1) as Hg. pose proof (keepsSts_observe p pod us1 w3) as Hs4.
    destruct (observeLastRolled p pod us1 w3) as [[[[available caughtUp] lagging] us2] w4] eqn:Eo.
    unfold same in Hs4. cbn [fst snd] in *.
    destruct (act_moves w4 (setRecord (Some us1) (w_cluster w)) live replicas p available caughtUp lagging us2)
      as [H|(H1 & H2 & H3 & H4 & H5 & H6)]; [congruence|by left|].
    right. exists replicas, p. split_and!; try done. intros Hlt. destruct (H5 Hlt) as [-> ->].
    specialize (Hg lagging us2 w3). rewrite Eo in Hg. rewrite <-Hn1, <-Hn2, <-Hn3. by apply Hg.
  - cbn [fst snd mret W_ret].
    destruct (act_moves w3 (setRecord (Some us1) (w_cluster w)) live replicas p false false [] us1)
      as [H|(H1 & H2 & H3 & H4 & H5 & H6)]; [congruence|by left|].
    right. exists replicas, p. split_and!; try done. intros Hlt. by destruct (H5 Hlt).
Qed.

(** Two StatefulSets with the same spec. *)
Definition specOf (sts : StatefulSet) : option Z * list (string * string) * option (option Z) :=
  (sts_Replicas sts, sts_Containers sts, sts_RollingUpdate sts).

Lemma storedAs_spec old new : specOf (storedAs old new) = specOf new.
Proof. unfold storedAs. by destruct (sameSpec old new). Qed.

Lemma applied_partition owner live desired q :
  sts_RollingUpdate desired = Some (Some q) ->
  default 0 (default None (appliedStrategy owner live desired)) = q.
Proof.
  intros Hq. unfold appliedStrategy, sameUpdateStrategy. rewrite Hq.
  assert (Hs : (if upgradeStateMachineActive owner || upgradeHeld owner
    then match statefulSetPartition live with Some p => Some (Some q) | None => Some (Some q) end
    else Some (Some q)) = Some (Some q)) by by destruct (_ || _), (statefulSetPartition live).
  rewrite Hs. cbn. by destruct (Z.eqb_spec (default 0 (default None (sts_RollingUpdate live))) q).
Qed.

(** What the template's write makes of the StatefulSet. *)
Lemma applied_spec owner desired live q :
  (restorePending live).2 = false -> sts_RollingUpdate desired = Some (Some q) ->
  sts_Replicas desired = sts_Replicas live ->
  let live' := applyStatefulSet remembered readRevisionTemplate owner desired live in
  sts_Replicas live' = sts_Replicas live /\ sts_Containers live' = sts_Containers desired /\
  default 0 (statefulSetPartition live') = q.
Proof.
  intros Hr Hq Hn. cbv zeta. unfold applyStatefulSet. rewrite Hr. cbn. rewrite Hn.
  split_and!; [by destruct (_ || _)|done|]. unfold statefulSetPartition. cbn.
  pose proof (applied_partition owner live desired q Hq) as Hp. by destruct (appliedStrategy _ _ _).
Qed.

Lemma stageAt_moves (w : World S) live desired q :
  w_sts w = Found live -> (restorePending live).2 = false -> sts_Replicas desired = sts_Replicas live ->
  let w' := (stageAt reconcileConfigMap remembered readRevisionTemplate desired q w).2 in
  w_sts w' = Found live \/
  exists live', w_sts w' = Found live' /\ sts_Replicas live' = sts_Replicas live /\
    sts_Containers live' = sts_Containers desired /\ default 0 (statefulSetPartition live') = q.
Proof.
  intros Hw Hr Hn. cbv zeta. unfold stageAt, createOrUpdateResource, cluster_, now_. rewrite bind_gets, bind_run, bind_gets.
  set (desired' := set_sts_RollingUpdate (Some (Some q)) desired).
  match goal with |- context [writeStatefulSet ?n ?m w] =>
    pose proof (writeStatefulSet_spec n m w live Hw) as H; destruct (writeStatefulSet n m w) as [e w1] end.
  destruct H as [[He H]|[-> H]]; cbn [fst snd]; [destruct e; [by left|done]|].
  right. set (live1 := applyStatefulSet _ _ _ desired' live) in H.
  destruct (applied_spec (w_cluster w) desired' live q Hr eq_refl Hn) as (H1 & H2 & H3). fold live1 in H1, H2, H3.
  pose proof (storedAs_spec live live1) as Hspec. unfold specOf in Hspec. injection Hspec as E1 E2 E3.
  unfold ReconcileConfigMap, cluster_. rewrite bind_run, bind_gets.
  destruct (reconcileConfigMap (w_cluster w1)) as [stamped e2]. cbn [fst snd]. rewrite bind_run. cbn.
  assert (Hlive' : forall sts, sts_Replicas sts = sts_Replicas live1 -> sts_Containers sts = sts_Containers live1 ->
    sts_RollingUpdate sts = sts_RollingUpdate live1 ->
    sts_Replicas sts = sts_Replicas live /\ sts_Containers sts = sts_Containers desired /\
    default 0 (statefulSetPartition sts) = q).
  { intros sts R1 R2 R3. unfold statefulSetPartition in *. rewrite R1, R2, R3. done. }
  match goal with |- context [match e2 with _ => _ end ?w2] =>
    assert (Hw2 : exists sts, w_sts w2 = Found sts /\ sts_Replicas sts = sts_Replicas live1 /\
      sts_Containers sts = sts_Containers live1 /\ sts_RollingUpdate sts = sts_RollingUpdate live1) end.
  { rewrite H. destruct stamped; (eexists; split; [reflexivity || exact H|by cbn]). }
  destruct Hw2 as (sts & Hsts & R1 & R2 & R3). exists sts. split; [|by apply Hlive'].
  destruct e2; [exact Hsts|]. apply sts_after; [keep|exact Hsts].
Qed.

Lemma staging_moves (w : World S) live us :
  w_sts w = Found live -> recordOf (w_cluster w) = Some us -> us_Phase us = upgradePhaseStaging ->
  us_TargetVersion us = sp_ImageTag (cl_Spec (w_cluster w)) ->
  let w' := (stepUpgradeStaging topologyError reconcileConfigMap remembered readRevisionTemplate w).2 in
  w_sts w' = Found live \/
  exists live', w_sts w' = Found live' /\ (staged w live live' \/ restored w live live').
Proof.
  intros Hw Hus Hph Htgt. cbv zeta. unfold stepUpgradeStaging, storedUpgradeStatus, now_, cluster_.
  rewrite !bind_gets. rewrite Hus. cbv zeta.
  destruct (upgradeStepDeadlineExceeded _ _ _); [left; apply sts_after; [keep|done]|]. rewrite bind_gets.
  match goal with |- context [if ?b then mret _ else _] => destruct b eqn:Efresh end; [by left|].
  rewrite bind_gets, Hw.
  destruct (sts_Replicas live) as [replicas|] eqn:Hrep; cbn [from_option]; unfold id;
    [|left; change (0 =? 0) with true; cbv iota; apply sts_after; [keep|done]].
  destruct (Z.eqb_spec replicas 0); [left; apply sts_after; [keep|done]|].
  unfold buildDesiredServerStatefulSet. destruct (topologyError (w_cluster w)); [left; apply sts_after; [keep|done]|].
  destruct (restorePending live).2 eqn:Hr.
  - unfold createOrUpdateResource, cluster_. rewrite bind_run, bind_gets.
    match goal with |- context [writeStatefulSet ?n ?m w] =>
      pose proof (writeStatefulSet_spec n m w live Hw) as H; destruct (writeStatefulSet n m w) as [e w1] end.
    cbn [fst snd mret W_ret]. destruct H as [[_ H]|[_ H]]; [by left|]. right. eexists. split; [exact H|]. right.
    unfold restored. split_and!; [by exists us|done|]. unfold applyStatefulSet. by rewrite Hr.
  - rewrite bind_gets. destruct (w_pods w) as [pods|e] eqn:Hpods; [|by left].
    destruct (stagePartition _ _ _ _ _) as [q|] eqn:Hq; [|by left].
    set (desired := set_sts_Replicas (Some replicas) (buildServerStatefulSet (w_cluster w))) in *.
    destruct (stageAt_moves w live desired q Hw Hr) as [H|(live' & H & H1 & H2 & H3)]; [by rewrite Hrep|by left|].
    right. exists live'. split; [exact H|]. left. rewrite Hrep in H1. exists us, pods, replicas, q.
    split_and!; try done. intros fresh Hread Hfresh. rewrite Hread, Hfresh in Efresh. by breflect.
Qed.

(** C2: the partition of the server StatefulSet. A pass of the state machine leaves
    the StatefulSet as the API server has it, except in three cases. Staging stores
    the target's template at the partition it computed, the replica count unchanged,
    only when the record on the pass's copy is Staging towards spec.image.tag, and
    not when the uncached read succeeded and shows a stored record in another phase
    or towards another target (a failed read, or a stored cluster without a record,
    does not hold it back). Staging gives a StatefulSet created again its held
    template back. Rolling lowers the partition p of the walk, which is not 0, to
    exactly p - 1, and only after the StatefulSet controller has observed the spec,
    every server from p up runs the target, every server is ready, and the server
    rolled last is available in SHOW SERVERS with every database on it caught up,
    for a record whose phase, target and partition are those stored. *)
Theorem partition_moves (w : World S) (live : StatefulSet) :
  w_sts w = Found live ->
  let w' := (handle w).2 in
  w_sts w' = Found live \/
  exists live', w_sts w' = Found live' /\ (staged w live live' \/ restored w live live' \/ lowered w live live').
Proof.
  intros Hw. cbv zeta. unfold handleRollingUpgrade, now_, cluster_. rewrite !bind_gets. cbv zeta.
  destruct (upgradeStateMachineActive (w_cluster w) && _ && _) eqn:Eretarget;
    [left; apply sts_after; [apply keepsSts_retarget|done]|].
  rewrite bind_gets. destruct (decidesFromStored _ && _) eqn:Emoved; [by left|].
  assert (Hact : forall us, recordOf (w_cluster w) = Some us ->
    us_Phase us = upgradePhaseStaging \/ us_Phase us = upgradePhaseRolling ->
    us_TargetVersion us = sp_ImageTag (cl_Spec (w_cluster w))).
  { intros us Hus Hph. unfold upgradeStateMachineActive in Eretarget. fold (recordOf (w_cluster w)) in Eretarget.
    rewrite Hus in Eretarget. destruct Hph as [Hph|Hph]; rewrite Hph in Eretarget; cbn in Eretarget;
      apply negb_false_iff in Eretarget; by apply String.eqb_eq. }
  destruct (recordOf (w_cluster w)) as [us|] eqn:Hus; [|left; apply sts_after; [apply keepsSts_start|done]].
  destruct (String.eqb_spec (us_Phase us) upgradePhaseStaging) as [Hph|_].
  { destruct (staging_moves w live us Hw Hus Hph) as [H|(live' & H & H')]; [by apply Hact; auto|by left|].
    right. exists live'. split; [exact H|]. by destruct H'; auto. }
  destruct (String.eqb_spec (us_Phase us) upgradePhaseRolling) as [Hph|_].
  { destruct (rolling_moves w live us Hw Hus)
      as [H|(replicas & p & H1 & H2 & H3 & H4 & H5 & H6 & H7 & H8)]; [by left|].
    right. eexists. split; [exact H8|]. right. right. rewrite Hph in Emoved.
    change (decidesFromStored upgradePhaseRolling) with true in Emoved. apply negb_false_iff, String.eqb_eq in Emoved.
    apply upgradeRecordMovedOn_iff in Emoved as (st & have & want & Hst & Hhave & Hwant & E1 & E2 & E3).
    fold (recordOf (w_cluster w)) in Hhave. rewrite Hus in Hhave. injection Hhave as <-.
    destruct (w_clusterRead w); [done|]. injection Hst as <-.
    exists us, want, replicas, p. split_and!; auto. }
  left. apply sts_after; [|done].
  repeat match goal with |- keepsSts (if ?b then _ else _) => destruct b end;
    [apply keepsSts_stabilizing|apply keepsSts_verifying|keep|apply keepsSts_start].
Qed.
End Partition.

(** * How the record moves *)

(** A move of the stored record that keeps its target and does not complete
    it. *)
Definition walks (old new : UpgradeStatus) : Prop :=
  us_TargetVersion new = us_TargetVersion old /\
  (us_Phase new = us_Phase old \/ us_Phase new <> upgradePhaseCompleted).

Definition recordWalks {S} (w w' : World S) : Prop := walks (storedRecord w) (storedRecord w').

#[global] Instance recordWalks_preorder S : PreOrder (@recordWalks S).
Proof.
  split; [by intros w; split; auto|]. unfold recordWalks, walks. intros w1 w2 w3 [T1 P1] [T2 P2].
  split; [congruence|]. destruct P1 as [P1|P1], P2 as [P2|P2]; rewrite ?P2, ?P1; auto.
Qed.

Section Record.
Context {S : Type} `{!ScaleDownClient S, !UpgradeClient S}.
Variables settle requeue : Z.
Variable topologyError : Cluster -> option string.
Variable reconcileConfigMap : Cluster -> bool * option string.
Variable remembered : option StatefulSet.
Variable readRevisionTemplate : string -> result (list (string * string)).

Abbreviation handle := (handleRollingUpgrade (S := S) settle requeue topologyError reconcileConfigMap remembered
  readRevisionTemplate).
Abbreviation keepsRecord := (keeps (S := S) (same (fun w => recordOf (w_stored w)))).
Abbreviation keepsWalks := (keeps (S := S) recordWalks).

Lemma keepsWalks_record {A} (m : W S A) : keepsRecord m -> keepsWalks m.
Proof. intros H w. specialize (H w). unfold same in H. unfold recordWalks, storedRecord. rewrite H. split; auto. Qed.

Lemma keepsWalks_patch {A} (mutate : UpgradeStatus -> UpgradeStatus * A) :
  (forall us, walks us (mutate us).1) -> keepsWalks (patchUpgradeStatus mutate).
Proof.
  intros Hm w. pose proof (patch_spec mutate w) as H. unfold recordWalks.
  destruct (patchUpgradeStatus mutate w) as [[a|e] w']; destruct H as [_ H]; cbn [snd].
  - destruct H as (us & new & Hmut & Hnew & Hst & _ & _). specialize (Hm (storedRecord w)). rewrite Hmut in Hm.
    unfold storedRecord at 2. rewrite Hst, recordOf_stalled. cbn. rewrite Hnew. by destruct (String.eqb _ _).
  - destruct H as [Hst _]. unfold storedRecord. rewrite Hst. split; auto.
Qed.

Lemma keepsRecord_status phase message version :
  keepsRecord (updateClusterStatusWithVersion phase message version []).
Proof. intros w. pose proof (keepsStop_status phase message version w) as H. unfold same, stopView in *. congruence. Qed.

Lemma keepsRecord_note : keepsRecord noteUpgradeInClusterMessage.
Proof. intros w. pose proof (keepsStop_note w) as H. unfold same, stopView in *. congruence. Qed.

Lemma keepsRecord_event reason message : keepsRecord (event reason message).
Proof. by intros w. Qed.

Lemma keepsRecord_ask {A} (call : S -> A * S) : keepsRecord (ask call).
Proof. intros w. unfold ask, same. by destruct (call (w_neo4j w)). Qed.

Lemma keepsRecord_deferral requested servers : keepsRecord (reportTopologyDeferral requested servers).
Proof.
  unfold reportTopologyDeferral, writeTopologyDeferral, now_, cluster_. keep.
  all: apply (retryOnConflict_stored recordOf); by intros ? ? ? [= <- _].
Qed.

Lemma keepsRecord_replace live : keepsRecord (replaceStuckServerPodsUncached live).
Proof.
  assert (Hd : forall pod, keepsRecord (deletePod pod)).
  { intros pod w. unfold deletePod, same. by destruct (w_podDeletes w) as [|[e|] rest]. }
  pose proof keepsRecord_event as He.
  unfold replaceStuckServerPodsUncached, replaceStuckServerPods. keep. generalize (stuckServerPods live a).
  intros stuck. induction stuck as [|[pod why] rest IH]; cbn [replaceEach]; keep.
Qed.

Lemma keepsRecord_sts steps mutate : keepsRecord (writeStatefulSet steps mutate).
Proof.
  assert (Hn : keepsRecord nextStsAttempt).
  { intros w. unfold nextStsAttempt, same. by destruct (w_stsAttempts w). }
  induction steps as [|n IH]; cbn [writeStatefulSet]; keep.
Qed.

Lemma keepsRecord_updateSts mutate : keepsRecord (updateServerStatefulSet mutate).
Proof.
  pose proof keepsRecord_sts as Hs. unfold updateServerStatefulSet. keep.
  intros w. unfold nextStsAttempt, same. by destruct (w_stsAttempts w).
Qed.

#[local] Hint Resolve keepsRecord_status keepsRecord_note keepsRecord_event keepsRecord_ask keepsRecord_deferral
  keepsRecord_replace keepsRecord_sts keepsRecord_updateSts : keeps.
#[local] Hint Extern 4 (keeps recordWalks _) => (apply keepsWalks_record; solve [eauto 2 with keeps]) : keeps.

Lemma keepsWalks_fail cause : keepsWalks (failUpgrade cause []).
Proof.
  assert (Hp : forall c step, keepsWalks (patchUpgradeStatus
    (stopMutate (stopPhase c) step cause (fun us => fold_left (fun s p => p s) [] us)))).
  { intros c step. apply keepsWalks_patch. intros us. split; [done|right]. cbn. unfold stopPhase.
    by destruct (autoPauseOnFailure c). }
  unfold failUpgrade, RecordUpgrade, cluster_. keep. all: apply keeps_modify; intros w; split; auto.
Qed.
#[local] Hint Resolve keepsWalks_fail : keeps.

Lemma keepsWalks_started : keepsWalks recordStartedTarget.
Proof.
  unfold recordStartedTarget, cluster_. keep.
  2: apply keeps_modify; intros w; split; auto.
  intros w. pose proof (retryOnConflict_spec DefaultRetry (startedBody (us_TargetVersion u)) keepCopy keepCopy w) as H.
  unfold recordWalks, storedRecord. destruct (retryOnConflict _ _ _ _ w) as [[b|e] w']; destruct H as [_ H]; cbn [snd];
    [|rewrite H; split; auto].
  destruct H as [[-> _]|(latest & Hf & -> & _)]; [split; auto|]. unfold startedBody in Hf.
  destruct (recordOf (w_stored w)); [|done]. destruct (negb _); [done|]. injection Hf as <- _. split; auto.
Qed.
#[local] Hint Resolve keepsWalks_started : keeps.

(** The updates of the walk keep the target and complete nothing. *)
Lemma walks_noting (mutate : UpgradeStatus -> UpgradeStatus) :
  (forall us, us_TargetVersion (mutate us) = us_TargetVersion us) ->
  (forall us, us_Phase (mutate us) = us_Phase us \/ us_Phase (mutate us) <> upgradePhaseCompleted) ->
  keepsWalks (patchUpgradeStatus (noting mutate)).
Proof. intros Ht Hp. apply keepsWalks_patch. intros us. split; [apply Ht|apply Hp]. Qed.

Lemma progressTo_same u i p us :
  us_TargetVersion (progressTo u i p us) = us_TargetVersion us /\ us_Phase (progressTo u i p us) = us_Phase us.
Proof. unfold progressTo. by destruct (us_Progress us). Qed.

Lemma keepsWalks_observe partition pod us : keepsWalks (observeLastRolled partition pod us).
Proof.
  assert (H1 : forall version, keepsWalks (patchUpgradeStatus (noting (fun s =>
    match resolvedTargetVersionFor (Some s) version with
    | Some want => set_us_ResolvedTargetVersion want s | None => s end)))).
  { intros version. apply walks_noting; intros u; destruct (resolvedTargetVersionFor _ _); auto. }
  assert (H2 : forall msg, keepsWalks (patchUpgradeStatus (noting (set_us_Message msg)))).
  { intros msg. apply walks_noting; auto. }
  unfold observeLastRolled, isServerAvailable, lastRolledDatabasesCaughtUp, cluster_. keep.
Qed.
#[local] Hint Resolve keepsWalks_observe : keeps.

Lemma keepsWalks_staging :
  keepsWalks (stepUpgradeStaging topologyError reconcileConfigMap remembered readRevisionTemplate).
Proof.
  assert (H1 : forall now q, keepsWalks (patchUpgradeStatus (noting (stageMutate now q)))).
  { intros now q. apply walks_noting; [done|]. by right. }
  unfold stepUpgradeStaging, stageAt, createOrUpdateResource, ReconcileConfigMap, storedUpgradeStatus, now_, cluster_.
  keep. all: apply keeps_modify; intros w; unfold recordWalks; destruct b; [|by split; auto].
  all: by destruct (w_sts w); split; auto.
Qed.

Lemma keepsWalks_rolling : keepsWalks stepUpgradeRolling.
Proof.
  assert (H1 : forall now n, keepsWalks (patchUpgradeStatus (noting (rolledMutate now n)))).
  { intros now n. apply walks_noting; intros us; unfold rolledMutate;
      match goal with |- context [progressTo ?u ?i ?p ?x] => destruct (progressTo_same u i p x) as [E1 E2] end;
      rewrite ?E1, ?E2; [done|by right]. }
  assert (H2 : forall now n p, keepsWalks (patchUpgradeStatus (noting (lowerMutate now n p)))).
  { intros now n p. apply walks_noting; intros us; unfold lowerMutate;
      match goal with |- context [progressTo ?u ?i ?p ?x] => destruct (progressTo_same u i p x) as [E1 E2] end;
      rewrite ?E1, ?E2; [done|by left]. }
  unfold stepUpgradeRolling, actOnRoll, now_, cluster_. keep.
Qed.

Lemma keepsWalks_stabilizing : keepsWalks stepUpgradeStabilizing.
Proof.
  assert (H1 : forall now step, keepsWalks (patchUpgradeStatus (noting (verifyingMutate now step)))).
  { intros now step. apply walks_noting; [done|]. by right. }
  unfold stepUpgradeStabilizing, clusterStable, transitionToVerifying, now_, cluster_. keep.
Qed.

(** The tag the spec asks for, and the pass's copy once it has recorded what the
    servers started on: what the version rule is asked about. *)
Definition tagOf (w : World S) : string := sp_ImageTag (cl_Spec (w_cluster w)).
Definition ruled (w : World S) : Cluster := w_cluster (recordStartedTarget w).2.

Lemma ruled_spec (w : World S) : cl_Spec (ruled w) = cl_Spec (w_cluster w).
Proof.
  unfold ruled. destruct (recordOf (w_cluster w)) as [us|] eqn:Hus.
  - by destruct (started_copy w us Hus) as [v ->].
  - unfold recordStartedTarget, cluster_. by rewrite !bind_gets, Hus.
Qed.

(** The stored record moves to a Staging one for the spec's tag, which the rule
    accepted. *)
Definition begins (w w' : World S) : Prop :=
  ValidateTagAgainstRunning (ruled w) = [] /\
  us_TargetVersion (storedRecord w') = tagOf w /\ us_Phase (storedRecord w') = upgradePhaseStaging.

(** Or to a stopped one for the spec's tag. *)
Definition refuses (w w' : World S) : Prop :=
  us_TargetVersion (storedRecord w') = tagOf w /\
  (us_Phase (storedRecord w') = upgradePhasePaused \/ us_Phase (storedRecord w') = upgradePhaseFailed).

(** What follows a patch keeps the record it stored. *)
Lemma patch_then {A B} (mutate : UpgradeStatus -> UpgradeStatus * A) (k : A -> W S B) (err : B) (w : World S) :
  (forall a, keepsRecord (k a)) ->
  let w' := ((r ← patchUpgradeStatus mutate; match r with Err _ => mret err | Ok a => k a end) w).2 in
  recordWalks w w' \/
  (us_TargetVersion (storedRecord w') = us_TargetVersion (mutate (storedRecord w)).1 /\
   us_Phase (storedRecord w') = us_Phase (mutate (storedRecord w)).1).
Proof.
  intros Hk. cbv zeta. rewrite bind_run. pose proof (patch_spec mutate w) as H.
  destruct (patchUpgradeStatus mutate w) as [[a|e] w1]; destruct H as [_ H]; cbn [fst snd].
  - right. destruct H as (us & new & Hmut & Hnew & Hst & _ & _). rewrite Hmut. cbn [fst].
    specialize (Hk a w1). unfold same in Hk. unfold storedRecord at 1 2. rewrite Hk, Hst, recordOf_stalled. cbn.
    rewrite Hnew. by destruct (String.eqb _ _).
  - left. destruct H as [Hst _]. cbn. unfold recordWalks, storedRecord. rewrite Hst. split; auto.
Qed.

Lemma retarget_moves (w : World S) :
  let w' := (retargetUpgrade w).2 in recordWalks w w' \/ begins w w'.
Proof.
  cbv zeta. unfold retargetUpgrade, now_, cluster_. rewrite bind_gets, bind_run.
  pose proof (keepsWalks_started w) as Hs. pose proof (ruled_spec w) as Hspec. unfold begins, ruled in *.
  destruct (recordStartedTarget w) as [[] w1]. cbn [fst snd] in *. rewrite bind_gets.
  destruct (ValidateTagAgainstRunning (w_cluster w1)) as [|err errs]; [|by left].
  edestruct (patch_then (retargetMutate (w_now w) (sp_ImageTag (cl_Spec (w_cluster w1))))
    (fun '(announce, previous, during) =>
       noteUpgradeInClusterMessage ;;
       (if (announce : bool) then
          event "UpgradeRetargeted" ("Rolling upgrade retargeted from " +:+ previous +:+ " to "
            +:+ sp_ImageTag (cl_Spec (w_cluster w1)) +:+ " during " +:+ during +:+ "; the new target is staged")
        else mret tt) ;;
       mret upgradeTransitionRequeue) upgradeTransitionRequeue w1) as [H|[H1 H2]].
  { intros [[announce previous] during]. keep. }
  - left. etrans; [exact Hs|exact H].
  - right. split; [done|]. unfold tagOf. rewrite <-Hspec. split; [exact H1|exact H2].
Qed.

Lemma begin_moves held previous now servers repair (w : World S) tag :
  let record := fun _ : UpgradeStatus => newUpgradeRecord held previous tag servers now in
  let w' := (beginUpgrade held previous tag record repair w).2 in
  recordWalks w w' \/
  (us_TargetVersion (storedRecord w') = tag /\ us_Phase (storedRecord w') = upgradePhaseStaging).
Proof.
  cbv zeta. unfold beginUpgrade, cluster_. rewrite bind_gets.
  assert (Hrec : us_TargetVersion (newUpgradeRecord held previous tag servers now) = tag /\
    us_Phase (newUpgradeRecord held previous tag servers now) = upgradePhaseStaging).
  { unfold newUpgradeRecord. repeat case_match; done. }
  destruct Hrec as [R1 R2].
  match goal with |- context [(_ ≫= (fun r => match r with Ok _ => ?k | Err _ => _ end))] =>
    pose proof (patch_then (noting (fun _ => newUpgradeRecord held previous tag servers now)) (fun _ : unit => k)
      upgradeTransitionRequeue w) as H end.
  cbn [noting fst] in H. rewrite R1, R2 in H. apply H. intros _. keep.
Qed.

Lemma refuse_moves held previous now servers cause (w : World S) tag :
  let record := fun _ : UpgradeStatus => newUpgradeRecord held previous tag servers now in
  let w' := (refuseUpgradeStart requeue cause record w).2 in
  recordWalks w w' \/
  (us_TargetVersion (storedRecord w') = tag /\
   (us_Phase (storedRecord w') = upgradePhasePaused \/ us_Phase (storedRecord w') = upgradePhaseFailed)).
Proof.
  cbv zeta. unfold refuseUpgradeStart, cluster_. rewrite bind_gets. cbv zeta.
  assert (Hrec : us_TargetVersion (newUpgradeRecord held previous tag servers now) = tag).
  { unfold newUpgradeRecord. repeat case_match; done. }
  match goal with |- context [(patchUpgradeStatus ?m ≫= (fun r => match r with Ok c => @?k c | Err _ => _ end))] =>
    pose proof (patch_then m k upgradeStepRequeue w) as H end.
  destruct H as [H|[H1 H2]].
  { intros a. unfold RecordUpgrade. keep. }
  - left. exact H.
  - right. split; [etrans; [exact H1|exact Hrec]|].
    assert (Hph : us_Phase (storedRecord (refuseUpgradeStart requeue cause
      (fun _ => newUpgradeRecord held previous tag servers now) w).2) = stopPhase (w_cluster w)) by exact H2.
    unfold refuseUpgradeStart, cluster_ in Hph. rewrite bind_gets in Hph. rewrite Hph.
    unfold stopPhase. destruct (autoPauseOnFailure (w_cluster w)); auto.
Qed.

Lemma keepsRecord_drain : keepsRecord (reconcileScaleDownDrain settle).
Proof. intros w. pose proof (keepsWalk_drain settle w) as H. unfold same, walkView in *. congruence. Qed.

Lemma keepsRecord_announce : keepsRecord announceUpgradeDeferredByDrain.
Proof. intros w. pose proof (keepsWalk_announce w) as H. unfold same, walkView in *. congruence. Qed.

Lemma keepsRecord_preUpgrade : keepsRecord preUpgradeCheck.
Proof. unfold preUpgradeCheck, cluster_. keep. Qed.

(** The checks of a start: an accepted tag begins, a refused one is recorded. *)
Lemma checked_moves held previous servers now repair (w : World S) tag :
  let w' := (startChecked requeue held previous tag servers now repair w).2 in
  recordWalks w w' \/
  (us_TargetVersion (storedRecord w') = tag /\
   (us_Phase (storedRecord w') = upgradePhasePaused \/ us_Phase (storedRecord w') = upgradePhaseFailed \/
    (us_Phase (storedRecord w') = upgradePhaseStaging /\ ValidateTagAgainstRunning (w_cluster w) = []))).
Proof.
  cbv zeta. unfold startChecked, cluster_. rewrite !bind_gets. cbv zeta.
  assert (Href : forall w1 cause, recordWalks w w1 ->
    let w' := (refuseUpgradeStart requeue cause (fun _ => newUpgradeRecord held previous tag servers now) w1).2 in
    recordWalks w w' \/ (us_TargetVersion (storedRecord w') = tag /\
      (us_Phase (storedRecord w') = upgradePhasePaused \/ us_Phase (storedRecord w') = upgradePhaseFailed))).
  { intros w1 cause H1. cbv zeta. destruct (refuse_moves held previous now servers cause w1 tag) as [H|H]; [|by right].
    left. etrans; [exact H1|exact H]. }
  unfold validateVersionCompatibility. destruct (ValidateTagAgainstRunning (w_cluster w)) as [|e es] eqn:Hv.
  2: { destruct (Href w ("version compatibility check failed: " +:+ ToAggregate (e :: es)) ltac:(done)) as [H|(H1 & H2)];
         [by left|]. right. split; [exact H1|]. destruct H2; auto. }
  assert (Hbeg : forall w1, recordWalks w w1 ->
    let w' := (beginUpgrade held previous tag (fun _ => newUpgradeRecord held previous tag servers now) repair w1).2 in
    recordWalks w w' \/ (us_TargetVersion (storedRecord w') = tag /\ us_Phase (storedRecord w') = upgradePhaseStaging)).
  { intros w1 H1. cbv zeta. destruct (begin_moves held previous now servers repair w1 tag) as [H|H]; [|by right].
    left. etrans; [exact H1|exact H]. }
  assert (Hbeg' : forall w1, recordWalks w w1 ->
    let w' := (beginUpgrade held previous tag (fun _ => newUpgradeRecord held previous tag servers now) repair w1).2 in
    recordWalks w w' \/ (us_TargetVersion (storedRecord w') = tag /\
      (us_Phase (storedRecord w') = upgradePhasePaused \/ us_Phase (storedRecord w') = upgradePhaseFailed \/
       (us_Phase (storedRecord w') = upgradePhaseStaging /\ @nil fieldError = [])))).
  { intros w1 H1. cbv zeta. destruct (Hbeg w1 H1) as [H|[H2 H3]]; [by left|]. right. auto 6. }
  destruct repair as [d|]; [by apply Hbeg'|].
  destruct (validateStatefulSetsReady _ _); [by left|].
  match goal with |- context [if ?b then _ else _] => destruct b end; [|by apply Hbeg'].
  rewrite bind_run. pose proof (keepsWalks_record _ keepsRecord_preUpgrade w) as Hpre.
  destruct (preUpgradeCheck w) as [[e|] w1]; cbn [fst snd] in *; [|by apply Hbeg'].
  destruct (Href w1 e Hpre) as [H|(H1 & H2)]; [by left|]. right. split; [exact H1|]. destruct H2; auto.
Qed.

Lemma start_moves (w : World S) :
  let w' := (startRollingUpgrade settle requeue w).2 in recordWalks w w' \/ begins w w' \/ refuses w w'.
Proof.
  cbv zeta. unfold startRollingUpgrade, now_, cluster_. rewrite !bind_gets.
  destruct (scaleDownDrainInProgress (w_cluster w)).
  { left. apply keepsWalks_record. pose proof keepsRecord_drain. pose proof keepsRecord_announce. keep. }
  rewrite bind_gets, bind_run. pose proof (keepsWalks_started w) as Hs. pose proof (ruled_spec w) as Hspec.
  unfold begins, refuses, ruled, tagOf in *. destruct (recordStartedTarget w) as [[] w1]. cbn [fst snd] in *.
  rewrite !bind_gets. rewrite Hspec.
  match goal with |- context [startChecked requeue ?h ?p ?t ?n ?now ?r w1] =>
    destruct (checked_moves h p n now r w1 t) as [H|(H1 & H2)] end.
  - left. etrans; [exact Hs|exact H].
  - right. destruct H2 as [H2|[H2|[H2 H3]]]; auto.
Qed.

(** The Completed write moves the record only together with status.version. *)
Lemma update_completed step reported (w : World S) :
  let w' := (updateUpgradeStatus upgradePhaseCompleted step EmptyString reported w).2 in
  recordOf (w_stored w') = recordOf (w_stored w) \/
  (cs_Version (cl_Status (w_stored w')) = tagOf w /\ us_TargetVersion (storedRecord w') = us_TargetVersion (storedRecord w)).
Proof.
  cbv zeta. unfold updateUpgradeStatus, now_, cluster_. rewrite !bind_gets.
  destruct (recordOf (w_cluster w)); [|by left]. rewrite bind_run.
  match goal with |- context [retryOnConflict ?n ?f ?pre ?post w] =>
    pose proof (retryOnConflict_spec n f pre post w) as H; set (body := f) in *;
    destruct (retryOnConflict n body pre post w) as [[ended|e] w1] end;
    destruct H as [_ H]; cbn [fst snd]; [|by left; rewrite <-H].
  rewrite bind_run. cbn. rewrite recordEnded_spec.
  destruct H as [[Hst _]|(latest & Hf & Hst & _)]; [left; cbn; by rewrite Hst|]. right.
  unfold storedRecord. cbn [w_stored set_w_observed]. rewrite Hst. unfold body, statusBody in Hf. clear body Hst.
  destruct (recordOf (w_stored w)) as [us|]; [|done]. rewrite !String.eqb_refl in Hf. cbv beta iota zeta in Hf.
  destruct (stampUpgradePhaseTransition _ _ _ _) as [new ended'] eqn:Est. injection Hf as <- _.
  rewrite recordOf_stalled. split.
  - unfold syncStalledCondition, setConditions. repeat case_match; done.
  - match type of Est with stampUpgradePhaseTransition ?x _ _ _ = _ => pose proof (stamp_spec x us (w_now w)) as Hs end.
    rewrite Est in Hs. destruct Hs as [-> _]. cbn [from_option]. unfold id.
    destruct (String.eqb _ _), (resolvedTargetVersionFor _ _); done.
Qed.

Lemma keepsVersion_status phase message tag (w : World S) :
  tag <> EmptyString ->
  cs_Version (cl_Status (w_stored w)) = tag ->
  cs_Version (cl_Status (w_stored (updateClusterStatusWithVersion phase message tag [] w).2)) = tag.
Proof.
  intros Hne%String.eqb_neq Hv. unfold updateClusterStatusWithVersion, writeClusterStatus, now_, cluster_.
  rewrite bind_run, !bind_gets, bind_run.
  match goal with |- context [retryOnConflict ?n ?f ?pre ?post w] =>
    pose proof (retryOnConflict_spec n f pre post w) as H; set (body := f) in *;
    destruct (retryOnConflict n body pre post w) as [[[changed before]|e] w1] end;
    destruct H as [_ H]; cbn [fst snd]; [|cbn; congruence].
  rewrite bind_run. match goal with |- context [(if ?b then _ else _) w1] => destruct b end; cbn.
  all: destruct H as [[-> _]|(latest & Hf & -> & _)]; [done|]; unfold body, statusUpdate in Hf; cbn in Hf;
    destruct (PhaseToConditionStatus phase); destruct (_ && _); [done|]; injection Hf as <- _; cbn; by rewrite Hne.
Qed.

(** The stored record completes with every Enabled server, of which there is
    one, reporting the tag, which becomes the version of the cluster. *)
Definition completes (w w' : World S) : Prop :=
  cs_Version (cl_Status (w_stored w')) = tagOf w /\
  us_TargetVersion (storedRecord w') = us_TargetVersion (storedRecord w) /\
  exists servers, (ListServers (CreateClient (w_neo4j w)).2).1 = Ok servers /\
    (exists s, s ∈ servers /\ si_State s = "Enabled") /\
    forall s, s ∈ servers -> si_State s = "Enabled" -> versionsMatch (si_Version s) (tagOf w) = true.

Lemma verifying_moves (w : World S) :
  let w' := (stepUpgradeVerifying requeue w).2 in recordWalks w w' \/ completes w w'.
Proof.
  cbv zeta. unfold stepUpgradeVerifying, now_, cluster_, completes. rewrite !bind_gets, bind_run, ask_run. cbn [fst snd].
  fold (tagOf w). set (w1 := set_w_neo4j _ w).
  assert (Hfail : forall w2 (b : bool) cause, recordOf (w_stored w2) = recordOf (w_stored w) ->
    recordWalks w ((if b then failUpgrade cause [] else mret upgradeStepRequeue) w2).2).
  { intros w2 b cause Hw2. assert (Hk : keepsWalks (if b then failUpgrade cause [] else mret upgradeStepRequeue)) by keep.
    etrans; [|apply Hk]. unfold recordWalks, storedRecord. rewrite Hw2. by split; auto. }
  destruct (CreateClient (w_neo4j w)).1 as [e|]; [left; by apply Hfail|]. rewrite bind_run.
  destruct (String.eqb_spec (tagOf w) EmptyString) as [Et|Et].
  { cbn [fst snd mret W_ret]. unfold verifyVersionUpgrade. rewrite Et. cbn. left. by apply Hfail. }
  rewrite ask_run. cbn [fst snd]. set (w2 := set_w_neo4j _ w1).
  destruct (ListServers (w_neo4j w1)).1 as [servers|e] eqn:Hl.
  2: { unfold verifyVersionUpgrade. apply String.eqb_neq in Et. rewrite Et. left. by apply Hfail. }
  destruct (verifyVersionUpgrade (tagOf w) (Ok servers)) as [reported|e] eqn:Hv; [|left; by apply Hfail].
  apply verifyVersionUpgrade_sound in Hv. rewrite bind_run. unfold completeUpgrade, cluster_. rewrite bind_gets, bind_run.
  pose proof (update_completed "Rolling upgrade completed successfully" reported w2) as Hu.
  destruct (updateUpgradeStatus _ _ _ reported w2) as [e w3]. cbn [fst snd] in Hu.
  assert (Hcase : forall w4, recordOf (w_stored w4) = recordOf (w_stored w3) ->
    (cs_Version (cl_Status (w_stored w3)) = tagOf w -> cs_Version (cl_Status (w_stored w4)) = tagOf w) ->
    recordWalks w w4 \/ (cs_Version (cl_Status (w_stored w4)) = tagOf w /\
      us_TargetVersion (storedRecord w4) = us_TargetVersion (storedRecord w) /\
      exists servers0, (ListServers (CreateClient (w_neo4j w)).2).1 = Ok servers0 /\
        (exists s, s ∈ servers0 /\ si_State s = "Enabled") /\
        (forall s, s ∈ servers0 -> si_State s = "Enabled" -> versionsMatch (si_Version s) (tagOf w) = true))).
  { intros w4 Hr Hver. unfold recordWalks, storedRecord in *. rewrite Hr. destruct Hu as [Hu|[Hu1 Hu2]].
    - left. rewrite Hu. by split; auto.
    - right. split; [by apply Hver|]. split; [exact Hu2|]. exists servers. split; [exact Hl|exact Hv]. }
  destruct e as [e|]; cbn [fst snd]; [by apply Hcase|]. rewrite bind_run.
  match goal with |- context [updateClusterStatusWithVersion ?p ?m ?t ?x w3] =>
    pose proof (keepsRecord_status p m t w3) as Hr;
    pose proof (keepsVersion_status p m t w3) as Hver;
    destruct (updateClusterStatusWithVersion p m t x w3) as [b w4] end.
  apply Hcase; [exact Hr|]. by apply Hver.
Qed.

(** The copy the pass verified for is the record as stored. *)
Definition verifying (w : World S) : Prop :=
  exists have want, recordOf (w_cluster w) = Some have /\ recordOf (w_stored w) = Some want /\
    us_Phase have = upgradePhaseVerifying /\ us_Phase want = us_Phase have /\
    us_TargetVersion want = us_TargetVersion have /\ us_TargetVersion have = tagOf w.

(** Every way a pass moves the stored record. *)
Lemma handle_moves (w : World S) :
  let w' := (handle w).2 in
  recordWalks w w' \/ begins w w' \/ refuses w w' \/ (verifying w /\ completes w w').
Proof.
  cbv zeta. unfold handleRollingUpgrade, now_, cluster_. rewrite !bind_gets. cbv zeta.
  destruct (upgradeStateMachineActive (w_cluster w) && _ && _) eqn:Eretarget.
  { destruct (retarget_moves w) as [H|H]; auto. }
  rewrite bind_gets. destruct (decidesFromStored _ && _) eqn:Emoved; [by left|].
  destruct (recordOf (w_cluster w)) as [us|] eqn:Hus; [|destruct (start_moves w) as [H|[H|H]]; auto].
  destruct (String.eqb_spec (us_Phase us) upgradePhaseStaging); [left; apply keepsWalks_staging|].
  destruct (String.eqb_spec (us_Phase us) upgradePhaseRolling); [left; apply keepsWalks_rolling|].
  destruct (String.eqb_spec (us_Phase us) upgradePhaseStabilizing); [left; apply keepsWalks_stabilizing|].
  destruct (String.eqb_spec (us_Phase us) upgradePhaseVerifying) as [Hph|].
  { destruct (verifying_moves w) as [H|H]; [by left|]. do 3 right. split; [|exact H].
    rewrite Hph in Emoved. change (decidesFromStored upgradePhaseVerifying) with true in Emoved.
    apply negb_false_iff, String.eqb_eq in Emoved.
    apply upgradeRecordMovedOn_iff in Emoved as (st & have & want & Hst & Hhave & Hwant & E1 & E2 & E3).
    fold (recordOf (w_cluster w)) in Hhave. rewrite Hus in Hhave. injection Hhave as <-.
    destruct (w_clusterRead w); [done|]. injection Hst as <-. exists us, want. split_and!; try done.
    unfold upgradeStateMachineActive in Eretarget. fold (recordOf (w_cluster w)) in Eretarget.
    rewrite Hus, Hph in Eretarget. cbn in Eretarget. apply negb_false_iff in Eretarget. by apply String.eqb_eq. }
  destruct (String.eqb (us_Phase us) upgradePhaseLegacyInProgress); [|destruct (start_moves w) as [H|[H|H]]; auto].
  left. assert (Hk : keepsWalks (patchUpgradeStatus (noting (resumeMutate (w_now w))))).
  { apply walks_noting; [done|]. by right. }
  match goal with |- recordWalks w (?m w).2 => assert (Hm : keepsWalks m) by keep; apply Hm end.
Qed.

(** An upgrade never turns to a version below one a server has started on.
    A pass that changes the target of the stored record sets it to spec.image.tag,
    and either stops that upgrade, or stages it after the rule held the tag to
    every version the cluster records as run, read after the pass recorded what
    the servers have started on. *)
Theorem new_target_not_below (w : World S) :
  let w' := (handle w).2 in
  us_TargetVersion (storedRecord w') <> us_TargetVersion (storedRecord w) ->
  us_TargetVersion (storedRecord w') = tagOf w /\
  (us_Phase (storedRecord w') = upgradePhasePaused \/ us_Phase (storedRecord w') = upgradePhaseFailed \/
   (us_Phase (storedRecord w') = upgradePhaseStaging /\
    forall v recorded target, v ∈ recordedVersions (cl_Status (ruled w)) ->
      (forall us, recordOf (ruled w) = Some us -> us_PreviousVersion us = cs_Version (cl_Status (ruled w))) ->
      parseVersion v = Some recorded -> parseVersion (tagOf w) = Some target ->
      isDowngrade recorded target = false)).
Proof.
  cbv zeta. intros Hne. destruct (handle_moves w) as [[H _]|[(H1 & H2 & H3)|[[H1 H2]|[_ (_ & H & _)]]]]; [done| | |done].
  - split; [exact H2|]. right. right. split; [exact H3|]. intros v recorded target Hin Hprev Hv Ht.
    unfold tagOf in Ht. rewrite <-ruled_spec in Ht.
    by apply (accepted_tag_not_below (ruled w) v recorded target H1 Ht Hin Hprev).
  - split; [exact H1|]. destruct H2; auto.
Qed.

(** an upgrade completes only verified. The stored record becomes Completed
    only in a pass whose copy was Verifying towards spec.image.tag and was the
    record as stored, after SHOW SERVERS listed an Enabled server and every
    Enabled server reported a version the tag names; the same write makes the tag
    the version of the cluster. *)
Theorem completes_verified (w : World S) :
  let w' := (handle w).2 in
  us_Phase (storedRecord w') = upgradePhaseCompleted -> us_Phase (storedRecord w) <> upgradePhaseCompleted ->
  verifying w /\ completes w w'.
Proof.
  cbv zeta. intros Hnew Hold. destruct (handle_moves w) as [[_ H]|[(_ & _ & H)|[[_ H]|H]]]; [| | |done].
  - destruct H; congruence.
  - rewrite Hnew in H. done.
  - rewrite Hnew in H. by destruct H.
Qed.

(** An upgrade and the drain of a scale-down exclude each other. While a
    drain is in progress and no upgrade is active, a pass starts none: it leaves
    the StatefulSet and the stored record as they are, runs the drain's own pass,
    and comes back. *)
Theorem drain_excludes_start (w : World S) :
  scaleDownDrainInProgress (w_cluster w) = true -> upgradeStateMachineActive (w_cluster w) = false ->
  let '(delay, w') := handle w in
  delay = upgradeStepRequeue /\ w_sts w' = w_sts w /\ recordOf (w_stored w') = recordOf (w_stored w) /\
  w_stmts w' = w_stmts (reconcileScaleDownDrain settle w).2.
Proof.
  intros Hdrain Hact. assert (Hstart : handle w = startRollingUpgrade settle requeue w).
  { unfold handleRollingUpgrade, now_, cluster_. rewrite !bind_gets, Hact. cbn [andb]. rewrite bind_gets.
    unfold upgradeStateMachineActive in Hact. fold (recordOf (w_cluster w)) in Hact.
    destruct (recordOf (w_cluster w)) as [us|]; [|done].
    unfold decidesFromStored. repeat (apply orb_false_iff in Hact as [? Hact]).
    cbn in Hact. repeat match goal with H : _ || _ = false |- _ => apply orb_false_iff in H as [? ?] end.
    repeat match goal with H : String.eqb _ _ = false |- _ => rewrite H; clear H end. done. }
  rewrite Hstart. unfold startRollingUpgrade, now_, cluster_. rewrite !bind_gets, Hdrain. rewrite bind_run.
  pose proof (keepsWalk_drain settle w) as H1. destruct (reconcileScaleDownDrain settle w) as [e w1].
  cbn [fst snd] in *. rewrite bind_run. pose proof (keepsWalk_announce w1) as H2.
  assert (H3 : keeps (same w_stmts) (announceUpgradeDeferredByDrain (S := S))).
  { unfold announceUpgradeDeferredByDrain, cluster_. keep; by intros w2. }
  specialize (H3 w1). destruct (announceUpgradeDeferredByDrain w1) as [[] w2]. cbn [fst snd mret W_ret].
  unfold same, walkView in *. cbn in H1, H2, H3. simplify_eq. split_and!; congruence.
Qed.
End Record.

(** * An upgrade of three servers *)

Module Sample.
(** Neo4j as the rows of SHOW SERVERS, with every check passing. *)
#[global] Instance client : UpgradeClient (list ServerInfo) := {|
  CreateClient n := (None, n);
  GetServerList n := (Ok n, n);
  ListServers n := (Ok n, n);
  ValidateUpgradeSafety n := (None, n);
  IsClusterHealthy n := (Ok true, n);
  GetClusterConsensusState n := (Ok true, n);
  IsClusterReplicationHealthy n := (Ok true, n);
  CreatePodClient _ n := (None, n);
  ClusterStatusCheck pod n := (Ok [mkClusterStatusCheckRow "neo4j" "id" pod true "APPLYING" true EmptyString], n);
  DatabaseAllocations pod n :=
    (Ok [mkDatabaseAllocation "neo4j" (pod +:+ ".c-headless:7687") "primary" "online" "online"], n)
|}.

#[global] Instance drainClient : ScaleDownClient (list ServerInfo) := {|
  Connect n := (None, n);
  ListServersFromLeader n := (Ok n, n);
  MinimumSystemPrimaries n := (3, n);
  CordonServer _ n := (None, n);
  EnableServer _ n := (None, n);
  DeallocateServers _ _ n := (None, n);
  DropServer _ n := (None, n)
|}.

Definition row (ordinal : Z) (version : string) : ServerInfo :=
  let pod := "c-server-" +:+ strconv.Itoa ordinal in
  mkServerInfo pod pod (pod +:+ ".c-headless:7687") "Enabled" "Available" ["neo4j"] version.

Definition rows (version : string) : list ServerInfo := [row 0 version; row 1 version; row 2 version].

Definition record (phase target : string) (partition : option Z) : UpgradeStatus :=
  mkUpgradeStatus phase (Some 0) (Some 0) (Some 0) partition None EmptyString "5.26.31-enterprise" target
    EmptyString "5.26.31-enterprise" (Some (mkUpgradeProgress 3 0 0 3 None)) EmptyString EmptyString.

Definition cluster (tag : string) (annotations : gmap string string) (us : option UpgradeStatus) : Cluster :=
  mkCluster "c" "ns" 1 annotations (mkClusterSpec "neo4j" tag 3 None)
    (mkClusterStatus PhaseReady EmptyString "5.26.31-enterprise" EmptyString None us [] None true 1 None).

Definition sts (tag : string) (partition : Z) : StatefulSet :=
  mkStatefulSet "c-server" ∅ 2 (Some 3) [("neo4j", "neo4j:" +:+ tag)] (Some (Some partition)) 2 (3 - partition) 3
    "rev-a" "rev-b".

Definition world (c : Cluster) (s : StatefulSet) (n : list ServerInfo) : World (list ServerInfo) :=
  mkWorld 0 c c (Found s) (Found s) (Ok []) (Ok []) [] [] None [] [] [] [] ∅ ∅ ∅ [] n [].

Definition run (w : World (list ServerInfo)) : World (list ServerInfo) :=
  (handleRollingUpgrade 0 minute (fun _ => None) (fun _ => (false, None)) None (fun _ => Err "gone") w).2.

(** Server 2 has rolled and is back: the pass releases server 1. *)
Definition rolling : World (list ServerInfo) :=
  world (cluster "5.26.33-enterprise" ∅ (Some (record upgradePhaseRolling "5.26.33-enterprise" (Some 2))))
    (sts "5.26.33-enterprise" 2) (rows "5.26.33").

Lemma partition_moves_witness :
  (match w_sts (run rolling) with Found s => statefulSetPartition s | _ => None end) = Some 1 /\
  (w_sts (run rolling) = Found (sts "5.26.33-enterprise" 2) \/
   exists live', w_sts (run rolling) = Found live' /\
     (staged rolling (sts "5.26.33-enterprise" 2) live' \/
      restored None (fun _ => Err "gone") rolling (sts "5.26.33-enterprise" 2) live' \/
      lowered rolling (sts "5.26.33-enterprise" 2) live')).
Proof.
  split; [vm_compute; reflexivity|].
  refine (partition_moves 0 minute (fun _ => None) (fun _ => (false, None)) None (fun _ => Err "gone") rolling
    (sts "5.26.33-enterprise" 2) _).
  reflexivity.
Defined.

(** The user asks for another tag half-way. *)
Definition retargeted : World (list ServerInfo) :=
  world (cluster "5.26.34-enterprise" ∅ (Some (record upgradePhaseRolling "5.26.33-enterprise" (Some 2))))
    (sts "5.26.33-enterprise" 2) (rows "5.26.33").

Lemma new_target_not_below_witness :
  us_TargetVersion (storedRecord (run retargeted)) = "5.26.34-enterprise" /\
  us_Phase (storedRecord (run retargeted)) = upgradePhaseStaging.
Proof.
  split; [|vm_compute; reflexivity].
  refine (proj1 (new_target_not_below 0 minute (fun _ => None) (fun _ => (false, None)) None (fun _ => Err "gone")
    retargeted _)).
  vm_compute. discriminate.
Defined.

(** Every server reports the target. *)
Definition verifyingWorld : World (list ServerInfo) :=
  world (cluster "5.26.33-enterprise" ∅ (Some (record upgradePhaseVerifying "5.26.33-enterprise" (Some 0))))
    (sts "5.26.33-enterprise" 0) (rows "5.26.33").

Lemma completes_verified_witness :
  us_Phase (storedRecord (run verifyingWorld)) = upgradePhaseCompleted /\ completes verifyingWorld (run verifyingWorld).
Proof.
  split; [vm_compute; reflexivity|].
  refine (proj2 (completes_verified 0 minute (fun _ => None) (fun _ => (false, None)) None (fun _ => Err "gone")
    verifyingWorld _ _)); vm_compute; [reflexivity|discriminate].
Defined.

(** A tag changed during a drain. *)
Definition draining : World (list ServerInfo) :=
  world (cluster "5.26.33-enterprise" {[ScaleDownDrainingServersAnnotation := "c-server-3"]} None)
    (sts "5.26.31-enterprise" 0) (rows "5.26.31").

Lemma drain_excludes_start_witness :
  w_sts (run draining) = Found (sts "5.26.31-enterprise" 0) /\ recordOf (w_stored (run draining)) = None.
Proof.
  pose proof (drain_excludes_start 0 minute (fun _ => None) (fun _ => (false, None)) None (fun _ => Err "gone")
    draining eq_refl eq_refl) as H.
  unfold run. destruct (handleRollingUpgrade _ _ _ _ _ _ draining) as [delay w'].
  destruct H as (_ & H1 & H2 & _). split; [exact H1|exact H2].
Defined.
End Sample.
