(* ===== verification/UpgradeProgress.v ===== *)
(** An upgrade ends. Where the API server takes every write, the StatefulSet
    controller rolls out what a pass releases before the next one, and Neo4j
    answers every check, each pass of the state machine makes its step, and a
    walk from partition [k] completes after [k + 3] passes. *)
From S2P Require Import Prelude GoStrings ClusterTypes Conditions Version UpgradeRules UpgradeRecord World ServerIdentity Availability UpgradeRepair ScaleDown UpgradeWrites UpgradeMachine UpgradeSafety.

Open Scope Z_scope.

(** What the machine reads of a cluster to choose its step. *)
Definition stepView (c : Cluster) : string * ClusterSpec * option (string * string * option Z) :=
  (cl_Name c, cl_Spec c,
   (fun us => (us_Phase us, us_TargetVersion us, us_CurrentPartition us)) <$> recordOf c).

Section Progress.
Context {S : Type} `{!ScaleDownClient S, !UpgradeClient S}.
Variables settle requeue : Z.
Variable topologyError : Cluster -> option string.
Variable reconcileConfigMap : Cluster -> bool * option string.
Variable remembered : option StatefulSet.
Variable readRevisionTemplate : string -> result (list (string * string)).

(** The cluster's name, its server count and its tag. *)
Variables (name : string) (replicas : Z) (tag : string).
Hypothesis Hreplicas : 1 <= replicas.

(** States of Neo4j in which it answers: [good] is kept by every call, SHOW
    SERVERS lists each of the cluster's servers as a member and Available, the
    databases of each have caught up, the cluster is healthy, and every Enabled
    server reports the tag. *)
Variable good : S -> Prop.
Definition podOf (ordinal : Z) : string := name +:+ "-server-" +:+ strconv.Itoa ordinal.
Hypothesis good_client : forall n, good n -> (CreateClient n).1 = None /\ good (CreateClient n).2.
Hypothesis good_servers : forall n, good n -> good (GetServerList n).2 /\
  exists servers, (GetServerList n).1 = Ok servers /\
    forall o, 0 <= o < replicas -> exists version, podServerAvailable servers (podOf o) = (true, version).
Hypothesis good_pod : forall o n, 0 <= o < replicas -> good n ->
  (CreatePodClient (podOf o) n).1 = None /\ good (CreatePodClient (podOf o) n).2.
Hypothesis good_checks : forall o n, 0 <= o < replicas -> good n ->
  good (ClusterStatusCheck (podOf o) n).2 /\
  good (DatabaseAllocations (podOf o) (ClusterStatusCheck (podOf o) n).2).2 /\
  exists checks allocs, (ClusterStatusCheck (podOf o) n).1 = Ok checks /\
    (DatabaseAllocations (podOf o) (ClusterStatusCheck (podOf o) n).2).1 = Ok allocs /\
    evaluateDatabaseGate (podOf o) checks allocs = (true, []).
Hypothesis good_healthy : forall n, good n ->
  ((IsClusterHealthy n).1 = Ok true /\ good (IsClusterHealthy n).2) /\
  ((GetClusterConsensusState n).1 = Ok true /\ good (GetClusterConsensusState n).2) /\
  ((IsClusterReplicationHealthy n).1 = Ok true /\ good (IsClusterReplicationHealthy n).2).
Hypothesis good_versions : forall n, good n -> good (ListServers n).2 /\
  exists servers reported, (ListServers n).1 = Ok servers /\ verifyVersionUpgrade tag (Ok servers) = Ok reported.

Abbreviation handle := (handleRollingUpgrade (S := S) settle requeue topologyError reconcileConfigMap remembered
  readRevisionTemplate).

(** Between two passes the StatefulSet controller rolls out what the partition
    releases, and the caches catch up. *)
Definition rolledOut (s : StatefulSet) : StatefulSet :=
  mkStatefulSet (sts_Name s) (sts_Annotations s) (sts_Generation s) (sts_Replicas s) (sts_Containers s)
    (sts_RollingUpdate s) (sts_Generation s) (replicas - default 0 (statefulSetPartition s)) replicas
    (sts_CurrentRevision s) (sts_UpdateRevision s).

Definition between (w : World S) : World S :=
  match w_sts w with
  | Found s => set_w_cluster (w_stored w) (set_w_stsCached (Found (rolledOut s)) (set_w_sts (Found (rolledOut s)) w))
  | _ => w
  end.

Definition upgradePass (w : World S) : World S := (handle (between w)).2.

Fixpoint upgradePasses (k : nat) (w : World S) : World S :=
  match k with O => w | Datatypes.S k' => upgradePasses k' (upgradePass w) end.

(** The upgrade is in [phase], at partition [k], and no write will fault. *)
Definition upgradeAt (phase : string) (k : Z) (w : World S) : Prop :=
  (exists spec, stepView (w_stored w) = (name, spec, Some (phase, tag, Some k)) /\ sp_ImageTag spec = tag) /\
  (exists s, w_sts w = Found s /\ sts_Replicas s = Some replicas /\ statefulSetPartition s = Some k) /\
  w_attempts w = [] /\ w_stsAttempts w = [] /\ w_clusterRead w = None /\ good (w_neo4j w).

(** What the observations of a pass leave as it is. *)
Definition calm (w w' : World S) : Prop :=
  stepView (w_stored w') = stepView (w_stored w) /\ (w_attempts w = [] -> w_attempts w' = []) /\
  w_stsAttempts w' = w_stsAttempts w /\ w_clusterRead w' = w_clusterRead w /\ w_sts w' = w_sts w /\
  (good (w_neo4j w) -> good (w_neo4j w')).

#[local] Instance calm_preorder : PreOrder calm.
Proof.
  split; [by intros w; repeat split|]. unfold calm. intros w1 w2 w3 (A1 & A2 & A3 & A4 & A5 & A6) (B1 & B2 & B3 & B4 & B5 & B6).
  split_and!; first [congruence|auto].
Qed.

Abbreviation keepsCalm := (keeps (S := S) calm).

Lemma keepsCalm_retry {A} steps (f : Cluster -> option Cluster * A) pre post :
  (forall c latest v, f c = (Some latest, v) -> stepView latest = stepView c) ->
  keepsCalm (retryOnConflict steps f pre post).
Proof.
  intros Hf w. pose proof (retryOnConflict_stored (S := S) stepView steps f pre post Hf w) as Hs.
  pose proof (retryOnConflict_outside steps f pre post w)
    as (_ & H1 & _ & _ & _ & H2 & H3 & _ & _ & _ & _ & _ & _ & _ & _ & H4 & _).
  unfold calm, same in *. split_and!; try done; [|by rewrite H4].
  intros Ha. destruct steps as [|n]; [done|]. cbn [retryOnConflict]. unfold nextAttempt. rewrite Ha.
  destruct (f (w_stored w)) as [[latest|] v]; done.
Qed.

Lemma keepsCalm_modify f :
  (forall w, w_stored (f w) = w_stored w /\ w_attempts (f w) = w_attempts w /\ w_stsAttempts (f w) = w_stsAttempts w /\
     w_clusterRead (f w) = w_clusterRead w /\ w_sts (f w) = w_sts w /\ w_neo4j (f w) = w_neo4j w) ->
  keepsCalm (modify f).
Proof.
  intros H w. destruct (H w) as (E1 & E2 & E3 & E4 & E5 & E6). unfold calm. cbn.
  rewrite E1, E2, E3, E4, E5, E6. by repeat split.
Qed.

Lemma keepsCalm_patch (mutate : UpgradeStatus -> UpgradeStatus) :
  (forall us, us_Phase (mutate us) = us_Phase us /\ us_TargetVersion (mutate us) = us_TargetVersion us /\
     us_CurrentPartition (mutate us) = us_CurrentPartition us) ->
  forall w, is_Some (recordOf (w_stored w)) -> calm w (patchUpgradeStatus (noting mutate) w).2.
Proof.
  intros Hm w [us0 Hus]. pose proof (patch_spec (noting mutate) w) as H.
  assert (Ha : w_attempts w = [] -> w_attempts (patchUpgradeStatus (noting mutate) w).2 = []).
  { intros Ha. unfold patchUpgradeStatus, now_. rewrite bind_gets, bind_run, retryOnConflict_clean by done.
    destruct (patchBody _ _ _) as [[latest|] [a ended]]; cbn; rewrite bind_run; cbn; by rewrite recordEnded_spec. }
  destruct (patchUpgradeStatus (noting mutate) w) as [r w']. cbn [snd] in *.
  destruct H as [(_ & H1 & _ & _ & _ & H2 & H3 & _ & _ & _ & _ & _ & _ & _ & _ & H4 & _) H]. cbn in H1, H2, H3, H4.
  unfold calm. rewrite H4. split_and!; try done. unfold storedRecord in H. rewrite Hus in H. cbn [from_option] in H. unfold id in H.
  destruct r as [[]|e]; [|by destruct H as [-> _]].
  destruct H as (us & new & [= <-] & Hnew & -> & _ & _). destruct (Hm us0) as (E1 & E2 & E3).
  unfold stepView. rewrite recordOf_stalled, Hus.
  assert (Hsync : forall c, cl_Name (syncStalledCondition (w_now w) c).1 = cl_Name c /\
    cl_Spec (syncStalledCondition (w_now w) c).1 = cl_Spec c).
  { intros c. unfold syncStalledCondition, setConditions. repeat case_match; done. }
  destruct (Hsync (setRecord (Some new) (w_stored w))) as [-> ->]. cbn.
  rewrite Hnew, E1, String.eqb_refl. by rewrite E1, E2, E3.
Qed.

(** The same while there is a record. *)
Definition calmly (w w' : World S) : Prop := is_Some (recordOf (w_stored w)) -> calm w w'.

#[local] Instance calmly_preorder : PreOrder calmly.
Proof.
  split; [by intros w _|]. intros w1 w2 w3 H12 H23 H. specialize (H12 H). etrans; [exact H12|]. apply H23.
  destruct H12 as [Hv _]. unfold stepView in Hv. destruct H as [us Hus]. rewrite Hus in Hv.
  by destruct (recordOf (w_stored w2)).
Qed.

Abbreviation keepsCalmly := (keeps (S := S) calmly).

Lemma keepsCalmly_calm {A} (m : W S A) : keepsCalm m -> keepsCalmly m.
Proof. intros H w _. apply H. Qed.

Lemma keepsCalmly_modify f :
  (forall w, w_stored (f w) = w_stored w /\ w_attempts (f w) = w_attempts w /\ w_stsAttempts (f w) = w_stsAttempts w /\
     w_clusterRead (f w) = w_clusterRead w /\ w_sts (f w) = w_sts w /\ w_neo4j (f w) = w_neo4j w) ->
  keepsCalmly (modify f).
Proof. intros H. by apply keepsCalmly_calm, keepsCalm_modify. Qed.

Lemma keepsCalmly_started : keepsCalmly recordStartedTarget.
Proof.
  unfold recordStartedTarget, cluster_. keep.
  apply keepsCalmly_calm, keepsCalm_retry. intros c latest v. unfold startedBody, stepView.
  destruct (recordOf c) as [l|] eqn:Hl; [|done]. destruct (negb _); [done|]. by intros [= <- _].
Qed.

Lemma keepsCalmly_event reason message : keepsCalmly (event reason message).
Proof. by apply keepsCalmly_modify. Qed.

Lemma keepsCalmly_deferral requested servers : keepsCalmly (reportTopologyDeferral requested servers).
Proof.
  unfold reportTopologyDeferral, writeTopologyDeferral, now_, cluster_. keep.
  all: first [by apply keepsCalmly_modify|apply keepsCalmly_calm, keepsCalm_retry; by intros ? ? ? [= <- _]].
Qed.

Lemma keepsCalmly_replace live : keepsCalmly (replaceStuckServerPodsUncached live).
Proof.
  assert (Hd : forall pod, keepsCalmly (deletePod pod)).
  { intros pod w _. unfold deletePod, calm. by destruct (w_podDeletes w) as [|[e|] rest]; cbn; repeat split. }
  pose proof keepsCalmly_event as He.
  unfold replaceStuckServerPodsUncached, replaceStuckServerPods. keep. generalize (stuckServerPods live a).
  intros stuck. induction stuck as [|[pod why] rest IH]; cbn [replaceEach]; keep.
Qed.

(** The observation of a server Neo4j lists and whose databases have caught up. *)
Lemma observe_good o us (w : World S) :
  0 <= o < replicas -> good (w_neo4j w) -> is_Some (recordOf (w_stored w)) ->
  let '(r, w') := observeLastRolled o (podOf o) us w in
  (exists us', r = (true, true, [], us')) /\ calm w w'.
Proof.
  intros Ho Hg Hus. unfold observeLastRolled. rewrite bind_run. unfold isServerAvailable.
  rewrite bind_run, ask_run. destruct (good_client (w_neo4j w) Hg) as [Hc Hg1]. cbn [fst snd]. rewrite Hc, bind_run, ask_run.
  destruct (good_servers _ Hg1) as (Hg2 & servers & Hs & Hav). cbn [fst snd w_neo4j set_w_neo4j]. rewrite Hs.
  destruct (Hav o Ho) as [version Hv]. cbn [fst snd mret W_ret]. rewrite Hv. cbv beta iota. cbn [negb].
  set (w1 := set_w_neo4j (GetServerList (CreateClient (w_neo4j w)).2).2 _). rewrite bind_run.
  assert (H1 : calm w w1) by by repeat split.
  match goal with |- context [(?m w1).2] => assert (H2 : calm w1 (m w1).2) end.
  { destruct (resolvedTargetVersionFor (Some us) version); [|done]. rewrite bind_run.
    assert (Hp : calm w1 (patchUpgradeStatus (noting (fun s => match resolvedTargetVersionFor (Some s) version with
      | Some want => set_us_ResolvedTargetVersion want s | None => s end)) w1).2).
    { apply keepsCalm_patch; [|done]. intros u. by destruct (resolvedTargetVersionFor (Some u) version). }
    exact Hp. }
  match goal with |- context [(?m w1).2] => destruct (m w1) as [us2 w2] end. cbn [fst snd] in *.
  assert (Hg3 : good (w_neo4j w2)) by apply H2, Hg2.
  unfold lastRolledDatabasesCaughtUp. rewrite bind_run. rewrite bind_run, ask_run.
  destruct (good_pod o _ Ho Hg3) as [Hp Hg4]. cbn [fst snd]. rewrite Hp, bind_run, ask_run.
  destruct (good_checks o _ Ho Hg4) as (Hg5 & Hg6 & checks & allocs & Hch & Hal & Hgate).
  cbn [fst snd w_neo4j set_w_neo4j]. rewrite Hch, bind_run, ask_run. cbn [fst snd w_neo4j set_w_neo4j mret W_ret].
  rewrite Hal, Hgate. split; [by eexists|]. etrans; [exact H1|]. etrans; [exact H2|]. by repeat split.
Qed.

(** ** One pass *)

(** The step of a phase. *)
Definition stepOf (phase : string) : W S Z :=
  if String.eqb phase upgradePhaseRolling then stepUpgradeRolling
  else if String.eqb phase upgradePhaseStabilizing then stepUpgradeStabilizing
  else stepUpgradeVerifying requeue.

(** The world a pass runs in, and the step it takes. *)
Lemma pass_step phase k (w : World S) :
  decidesFromStored phase = true -> upgradeAt phase k w ->
  exists us s, upgradePass w = (stepOf phase (between w)).2 /\
    w_cluster (between w) = w_stored w /\ w_stored (between w) = w_stored w /\
    recordOf (w_stored w) = Some us /\ us_Phase us = phase /\ us_TargetVersion us = tag /\
    us_CurrentPartition us = Some k /\ cl_Name (w_stored w) = name /\ sp_ImageTag (cl_Spec (w_stored w)) = tag /\
    w_sts (between w) = Found (rolledOut s) /\ sts_Replicas s = Some replicas /\ statefulSetPartition s = Some k /\
    w_attempts (between w) = [] /\ w_stsAttempts (between w) = [] /\ w_clusterRead (between w) = None /\
    good (w_neo4j (between w)).
Proof.
  intros Hph ((spec & Hview & Htag) & (s & Hs & Hrep & Hpart) & Ha & Hsa & Hread & Hg).
  unfold stepView in Hview. destruct (recordOf (w_stored w)) as [us|] eqn:Hus; [|done]. cbn in Hview.
  injection Hview as Hname Hspec Hp Ht Hk.
  assert (Hb : w_cluster (between w) = w_stored w /\ w_stored (between w) = w_stored w /\
    w_sts (between w) = Found (rolledOut s) /\ w_attempts (between w) = [] /\ w_stsAttempts (between w) = [] /\
    w_clusterRead (between w) = None /\ good (w_neo4j (between w))) by (unfold between; by rewrite Hs).
  destruct Hb as (B1 & B2 & B3 & B4 & B5 & B6 & B7). exists us, s. rewrite Hspec. split_and!; try done.
  unfold upgradePass, handleRollingUpgrade, now_, cluster_. rewrite !bind_gets, B1, Hus. cbv zeta.
  rewrite Ht, Hspec, Htag. autorewrite with go. rewrite bind_gets, B6, B2, Hp.
  assert (Hm : upgradeRecordMovedOn (w_stored w) (Ok (w_stored w)) = EmptyString).
  { apply upgradeRecordMovedOn_iff. exists (w_stored w), us, us. by split_and!. }
  rewrite Hm. autorewrite with go. unfold decidesFromStored in Hph. unfold stepOf.
  destruct (String.eqb_spec phase upgradePhaseRolling) as [->|]; [done|].
  destruct (String.eqb_spec phase upgradePhaseStabilizing) as [->|]; [done|]. cbn in Hph. rewrite Hph.
  apply String.eqb_eq in Hph as ->. done.
Qed.

(** A patch without faults. *)
Lemma patch_clean (mutate : UpgradeStatus -> UpgradeStatus) (w : World S) us :
  w_attempts w = [] -> recordOf (w_stored w) = Some us ->
  let '(r, w') := patchUpgradeStatus (noting mutate) w in
  r = Ok tt /\
  stepView (w_stored w') = (cl_Name (w_stored w), cl_Spec (w_stored w),
    Some (us_Phase (mutate us), us_TargetVersion (mutate us), us_CurrentPartition (mutate us))) /\
  w_attempts w' = [] /\ w_stsAttempts w' = w_stsAttempts w /\ w_clusterRead w' = w_clusterRead w /\
  w_sts w' = w_sts w /\ w_neo4j w' = w_neo4j w.
Proof.
  intros Ha Hus. unfold patchUpgradeStatus, now_. rewrite bind_gets, bind_run, retryOnConflict_clean by done.
  unfold patchBody. rewrite Hus. cbn [from_option]. unfold id. cbn [noting].
  pose proof (stamp_spec (mutate us) us (w_now w)) as Hs.
  destruct (stampUpgradePhaseTransition _ _ _ _) as [new ended]. destruct Hs as [Hnew _].
  cbn [fst snd]. rewrite bind_run, recordEnded_spec. cbn [fst snd mret W_ret]. split; [by destruct ended|].
  cbn [w_stored w_attempts w_stsAttempts w_clusterRead w_sts w_neo4j set_w_observed set_w_stored set_w_cluster].
  split_and!; try done. unfold stepView. rewrite recordOf_stalled.
  assert (Hsync : forall c, cl_Name (syncStalledCondition (w_now w) c).1 = cl_Name c /\
    cl_Spec (syncStalledCondition (w_now w) c).1 = cl_Spec c).
  { intros c. unfold syncStalledCondition, setConditions. repeat case_match; done. }
  destruct (Hsync (setRecord (Some new) (w_stored w))) as [-> ->]. cbn. rewrite Hnew.
  by destruct (String.eqb (us_Phase (mutate us)) (us_Phase us)).
Qed.

(** The end of a step that patches the record. *)
Lemma patched_at phase' k' (mutate : UpgradeStatus -> UpgradeStatus) (w : World S) us s (delay : Z) :
  w_attempts w = [] -> w_stsAttempts w = [] -> w_clusterRead w = None -> good (w_neo4j w) ->
  recordOf (w_stored w) = Some us -> cl_Name (w_stored w) = name -> sp_ImageTag (cl_Spec (w_stored w)) = tag ->
  w_sts w = Found s -> sts_Replicas s = Some replicas -> statefulSetPartition s = Some k' ->
  us_Phase (mutate us) = phase' -> us_TargetVersion (mutate us) = tag -> us_CurrentPartition (mutate us) = Some k' ->
  upgradeAt phase' k' ((patchUpgradeStatus (noting mutate) ;; mret delay) w).2.
Proof.
  intros Ha Hsa Hr Hg Hus Hn Ht Hs Hrep Hp M1 M2 M3. rewrite bind_run.
  pose proof (patch_clean mutate w us Ha Hus) as H.
  destruct (patchUpgradeStatus (noting mutate) w) as [r w']. cbn [fst snd mret W_ret].
  destruct H as (_ & H1 & H2 & H3 & H4 & H5 & H6). unfold upgradeAt. rewrite H1, M1, M2, M3, Hn, H3, H4, H5, H6.
  split_and!; eauto 6.
Qed.

(** The Rolling step gets to its action, with everything in place. *)
Lemma rolling_acts k (w : World S) us s :
  0 <= k <= replicas -> recordOf (w_cluster w) = Some us -> us_CurrentPartition us = Some k ->
  w_sts w = Found (rolledOut s) -> sts_Replicas s = Some replicas -> statefulSetPartition s = Some k ->
  is_Some (recordOf (w_stored w)) -> cl_Name (w_cluster w) = name -> good (w_neo4j w) ->
  exists cluster available caughtUp lagging us' w3,
    calm w w3 /\ (k < replicas -> available = true /\ caughtUp = true) /\
    (stepUpgradeRolling w).2
    = (actOnRoll cluster (rolledOut s) replicas k available caughtUp lagging us' w3).2.
Proof.
  intros Hk Hus Hcp Hs Hrep Hpart Hst Hname Hg. unfold stepUpgradeRolling, cluster_. rewrite bind_run.
  destruct (started_copy w us Hus) as [v Hcopy]. pose proof (keepsCalmly_started w Hst) as C1.
  destruct (recordStartedTarget w) as [[] w1]. cbn [fst snd] in *. rewrite !bind_gets.
  pose proof C1 as (V1 & _ & _ & _ & S1 & G1). rewrite S1, Hs, Hcopy. cbv zeta.
  change (sts_Replicas (rolledOut s)) with (sts_Replicas s). rewrite Hrep. cbn [from_option]. unfold id.
  destruct (Z.eqb_spec replicas 0); [lia|]. rewrite bind_run.
  change (sts_ReadyReplicas (rolledOut s)) with replicas. rewrite Z.ltb_irrefl. cbn [fst snd mret W_ret]. rewrite bind_run.
  assert (Hst1 : is_Some (recordOf (w_stored w1))).
  { unfold stepView in V1. destruct Hst as [u Hu]. rewrite Hu in V1. by destruct (recordOf (w_stored w1)). }
  match goal with |- context [reportTopologyDeferral ?a ?b w1] =>
    pose proof (keepsCalmly_deferral a b w1 Hst1) as C2; destruct (reportTopologyDeferral a b w1) as [[] w2] end.
  cbn [fst snd] in *. assert (Hst2 : is_Some (recordOf (w_stored w2))).
  { destruct C2 as [V2 _]. unfold stepView in V2. destruct Hst1 as [u Hu]. rewrite Hu in V2.
    by destruct (recordOf (w_stored w2)). }
  set (us1 := set_us_StartedTargetVersion v us).
  change (recordOf (setRecord (Some us1) (w_cluster w))) with (Some us1). cbn [from_option].
  assert (Hp : walkPartition us1 (rolledOut s) replicas = k) by (unfold walkPartition; cbn; by rewrite Hcp).
  rewrite Hp. change (cl_Name (setRecord (Some us1) (w_cluster w))) with (cl_Name (w_cluster w)). rewrite Hname.
  fold (podOf k). rewrite bind_run.
  assert (Hset : (sts_Generation (rolledOut s) <=? sts_ObservedGeneration (rolledOut s))
    && (replicas - k <=? sts_UpdatedReplicas (rolledOut s)) && (replicas <=? replicas) = true).
  { rewrite !andb_true_iff, !Z.leb_le. unfold rolledOut. cbn [sts_Generation sts_ObservedGeneration sts_UpdatedReplicas].
    rewrite Hpart. cbn. lia. }
  change (sts_ReadyReplicas (rolledOut s)) with replicas. rewrite Hset. cbn [andb].
  destruct (Z.ltb_spec k replicas) as [Hlt|Hge].
  - pose proof (observe_good k us1 w2 ltac:(lia)) as Ho.
    destruct (observeLastRolled k (podOf k) us1 w2) as [r w3].
    destruct Ho as [[us3 ->] C3]; [by apply C2, G1|done|]. cbn [fst snd].
    exists (setRecord (Some us1) (w_cluster w)), true, true, [], us3, w3.
    split_and!; [etrans; [exact C1|]; by etrans|done|done].
  - exists (setRecord (Some us1) (w_cluster w)), false, false, [], us1, w2.
    split_and!; [by etrans|lia|done].
Qed.

Lemma rolled_plan k available caughtUp s :
  statefulSetPartition s = Some k -> (k < replicas -> available = true /\ caughtUp = true) ->
  planUpgradeRollStep (mkRollObservation replicas k (sts_Generation (rolledOut s))
    (sts_ObservedGeneration (rolledOut s)) (sts_UpdatedReplicas (rolledOut s)) (sts_ReadyReplicas (rolledOut s))
    available caughtUp) = (if k =? 0 then rollDone else rollLower).
Proof.
  intros Hp Hav. unfold planUpgradeRollStep. cbn. rewrite Hp. cbn. rewrite !Z.ltb_irrefl.
  destruct (Z.ltb_spec k replicas) as [Hlt|Hge]; [destruct (Hav Hlt) as [-> ->]|]; done.
Qed.

Lemma pass_lowers k (w : World S) :
  0 < k <= replicas -> upgradeAt upgradePhaseRolling k w -> upgradeAt upgradePhaseRolling (k - 1) (upgradePass w).
Proof.
  intros Hk Hat. destruct (pass_step upgradePhaseRolling k w eq_refl Hat)
    as (us & s & -> & B1 & B2 & Hus & Hph & Ht & Hcp & Hn & Htag & Hs & Hrep & Hpart & Ha & Hsa & Hr & Hg).
  change (stepOf upgradePhaseRolling) with (stepUpgradeRolling (S := S)).
  destruct (rolling_acts k (between w) us s) as (cluster & available & caughtUp & lagging & us' & w3 & C & Hav & ->);
    rewrite ?B1, ?B2; try done; [lia|]. destruct C as (V & A & SA & R & St & G). rewrite B2 in V.
  unfold actOnRoll, now_. rewrite bind_gets, rolled_plan by done. destruct (Z.eqb_spec k 0); [lia|].
  unfold updateServerStatefulSet. rewrite bind_run, bind_run.
  assert (Hw : writeStatefulSet DefaultBackoff (set_sts_RollingUpdate (Some (Some (k - 1)))) w3
    = (None, set_w_sts (Found (storedAs (rolledOut s) (set_sts_RollingUpdate (Some (Some (k - 1))) (rolledOut s)))) w3)).
  { unfold DefaultBackoff. cbn [writeStatefulSet]. rewrite bind_run. unfold nextStsAttempt. rewrite SA, Hsa. cbn [fst snd].
    rewrite bind_gets, St, Hs. done. }
  rewrite Hw. cbn [fst snd]. set (s' := storedAs _ _). set (w4 := set_w_sts (Found s') w3). rewrite bind_run.
  assert (Hn4 : nextStsAttempt w4 = (StsSucceeds, w4)).
  { unfold nextStsAttempt. cbn. by rewrite SA, Hsa. }
  rewrite Hn4. cbn [fst snd mret W_ret].
  pose proof (storedAs_spec (rolledOut s) (set_sts_RollingUpdate (Some (Some (k - 1))) (rolledOut s))) as Hspec.
  fold s' in Hspec. unfold specOf in Hspec. cbn in Hspec. injection Hspec as E1 E2 E3.
  unfold stepView in V. rewrite Hus in V. destruct (recordOf (w_stored w3)) as [us3|] eqn:Hus3; [|done]. cbn in V.
  injection V as V1 V2 V3 V4 V5.
  apply (patched_at _ _ _ w4 us3 s'); try done; cbn; rewrite ?V1, ?V2; auto.
  - by rewrite SA.
  - by rewrite R.
  - by rewrite E1.
  - unfold statefulSetPartition. by rewrite E3.
  - unfold lowerMutate. match goal with |- context [progressTo ?a ?b ?c ?x] =>
      destruct (progressTo_same a b c x) as [_ ->] end. cbn. congruence.
  - unfold lowerMutate. match goal with |- context [progressTo ?a ?b ?c ?x] =>
      destruct (progressTo_same a b c x) as [-> _] end. cbn. congruence.
  - unfold lowerMutate, progressTo. by destruct (us_Progress _).
Qed.

Lemma pass_rolled (w : World S) :
  upgradeAt upgradePhaseRolling 0 w -> upgradeAt upgradePhaseStabilizing 0 (upgradePass w).
Proof.
  intros Hat. destruct (pass_step upgradePhaseRolling 0 w eq_refl Hat)
    as (us & s & -> & B1 & B2 & Hus & Hph & Ht & Hcp & Hn & Htag & Hs & Hrep & Hpart & Ha & Hsa & Hr & Hg).
  change (stepOf upgradePhaseRolling) with (stepUpgradeRolling (S := S)).
  destruct (rolling_acts 0 (between w) us s) as (cluster & available & caughtUp & lagging & us' & w3 & C & Hav & ->);
    rewrite ?B1, ?B2; try done; [lia|]. destruct C as (V & A & SA & R & St & G). rewrite B2 in V.
  unfold actOnRoll, now_. rewrite bind_gets, rolled_plan by done. change (0 =? 0) with true. cbv iota.
  unfold stepView in V. rewrite Hus in V. destruct (recordOf (w_stored w3)) as [us3|] eqn:Hus3; [|done]. cbn in V.
  injection V as V1 V2 V3 V4 V5.
  apply (patched_at _ _ _ w3 us3 (rolledOut s)); try done; rewrite ?V1, ?V2, ?SA, ?R, ?St; auto;
    unfold rolledMutate; match goal with |- context [progressTo ?a ?b ?c ?x] =>
      destruct (progressTo_same a b c x) as [E1 E2] end; rewrite ?E1, ?E2; try done; [cbn; congruence|].
  unfold progressTo. destruct (us_Progress _); cbn; congruence.
Qed.

Lemma pass_stable (w : World S) :
  upgradeAt upgradePhaseStabilizing 0 w -> upgradeAt upgradePhaseVerifying 0 (upgradePass w).
Proof.
  intros Hat. destruct (pass_step upgradePhaseStabilizing 0 w eq_refl Hat)
    as (us & s & -> & B1 & B2 & Hus & Hph & Ht & Hcp & Hn & Htag & Hs & Hrep & Hpart & Ha & Hsa & Hr & Hg).
  change (stepOf upgradePhaseStabilizing) with (stepUpgradeStabilizing (S := S)).
  assert (Hend : forall w1 step, calm (between w) w1 -> upgradeAt upgradePhaseVerifying 0 (transitionToVerifying step w1).2).
  { intros w1 step (V & A & SA & R & St & G). rewrite B2 in V. unfold transitionToVerifying, now_. rewrite bind_gets.
    unfold stepView in V. rewrite Hus in V. destruct (recordOf (w_stored w1)) as [us3|] eqn:Hus3; [|done]. cbn in V.
    injection V as V1 V2 V3 V4 V5.
    apply (patched_at _ _ _ w1 us3 (rolledOut s)); try done; rewrite ?V1, ?V2, ?SA, ?R, ?St; auto; cbn; congruence. }
  unfold stepUpgradeStabilizing, now_, cluster_. rewrite !bind_gets.
  match goal with |- context [if ?b then transitionToVerifying _ else _] => destruct b end; [by apply Hend|].
  rewrite bind_run. unfold clusterStable. rewrite bind_run, ask_run.
  destruct (good_client _ Hg) as [-> G1]. cbn [fst snd]. rewrite bind_run, ask_run. cbn [fst snd w_neo4j set_w_neo4j].
  destruct (good_healthy _ G1) as [[-> G2] _]. cbn [answersYes negb]. rewrite bind_run, ask_run.
  cbn [fst snd w_neo4j set_w_neo4j]. destruct (good_healthy _ G2) as [_ [[-> G3] _]]. cbn [answersYes negb].
  rewrite bind_run, ask_run. cbn [fst snd w_neo4j set_w_neo4j]. destruct (good_healthy _ G3) as [_ [_ [-> G4]]].
  cbn [answersYes negb fst snd mret W_ret]. apply Hend. by repeat split.
Qed.

(** An update of the record without faults, to Completed. *)
Lemma update_clean step reported (w : World S) us :
  w_attempts w = [] -> recordOf (w_cluster w) = Some us -> recordOf (w_stored w) = Some us ->
  let '(e, w') := updateUpgradeStatus upgradePhaseCompleted step EmptyString reported w in
  e = None /\ us_Phase (storedRecord w') = upgradePhaseCompleted /\
  cs_Version (cl_Status (w_stored w')) = sp_ImageTag (cl_Spec (w_cluster w)).
Proof.
  intros Ha Hc Hus. unfold updateUpgradeStatus, now_, cluster_. rewrite !bind_gets, Hc.
  rewrite bind_run, retryOnConflict_clean by done. unfold statusBody. rewrite Hus, !String.eqb_refl. cbv beta iota zeta.
  match goal with |- context [stampUpgradePhaseTransition ?x ?p ?t ?n] =>
    pose proof (stamp_spec x us n) as Hs; destruct (stampUpgradePhaseTransition x p t n) as [new ended] end.
  destruct Hs as [Hnew _]. cbn [fst snd]. rewrite bind_run, recordEnded_spec. cbn [fst snd mret W_ret].
  unfold storedRecord. cbn [w_stored set_w_observed set_w_stored set_w_cluster]. rewrite recordOf_stalled.
  split_and!; [done| |].
  - cbn [from_option]. unfold id. rewrite Hnew. destruct (String.eqb _ _), (resolvedTargetVersionFor _ _); done.
  - unfold syncStalledCondition, setConditions. repeat case_match; done.
Qed.

Lemma pass_completes (w : World S) :
  tag <> EmptyString -> upgradeAt upgradePhaseVerifying 0 w ->
  us_Phase (storedRecord (upgradePass w)) = upgradePhaseCompleted /\ cs_Version (cl_Status (w_stored (upgradePass w))) = tag.
Proof.
  intros Htag0 Hat. destruct (pass_step upgradePhaseVerifying 0 w eq_refl Hat)
    as (us & s & -> & B1 & B2 & Hus & Hph & Ht & Hcp & Hn & Htag & Hs & Hrep & Hpart & Ha & Hsa & Hr & Hg).
  change (stepOf upgradePhaseVerifying) with (stepUpgradeVerifying (S := S) requeue).
  unfold stepUpgradeVerifying, now_, cluster_. rewrite !bind_gets, bind_run, ask_run, B1, Htag.
  destruct (good_client _ Hg) as [-> G1]. cbn [fst snd]. rewrite bind_run.
  apply String.eqb_neq in Htag0 as Htag1. rewrite Htag1, ask_run. cbn [fst snd w_neo4j set_w_neo4j].
  destruct (good_versions _ G1) as (G2 & servers & reported & -> & Hv). rewrite Hv. rewrite bind_run.
  unfold completeUpgrade, cluster_. rewrite bind_gets, bind_run. set (w1 := set_w_neo4j _ _).
  assert (Hc1 : w_cluster w1 = w_stored w) by exact B1. assert (Hs1 : w_stored w1 = w_stored w) by exact B2.
  pose proof (update_clean "Rolling upgrade completed successfully" reported w1 us Ha
    ltac:(by rewrite Hc1) ltac:(by rewrite Hs1)) as H.
  destruct (updateUpgradeStatus _ _ _ reported w1) as [e w2]. destruct H as (-> & H1 & H2). cbn [fst snd].
  rewrite Hc1, Htag in *. rewrite bind_run.
  match goal with |- context [updateClusterStatusWithVersion ?p ?m ?t ?x w2] =>
    pose proof (keepsRecord_status p m t w2) as K1; pose proof (keepsVersion_status p m t w2 Htag0 H2) as K2;
    destruct (updateClusterStatusWithVersion p m t x w2) as [b w3] end.
  unfold same in K1. cbn [fst snd mret W_ret] in *. split; [|exact K2].
  transitivity (us_Phase (storedRecord w3)); [reflexivity|]. unfold storedRecord in *. by rewrite K1.
Qed.

(** C4: an upgrade completes. With three or however many servers, a walk at
    partition [k] with [k] servers left completes after [k + 3] passes: one that
    releases each of them, one that sees the last one back, one that finds the
    cluster stable and one that verifies it; then the tag is the version of the
    cluster. It is assumed that no write faults, that the StatefulSet controller
    rolls out what a pass releases before the next, and that Neo4j answers the
    checks. *)
Theorem upgrade_completes (k : nat) (w : World S) :
  tag <> EmptyString -> Z.of_nat k <= replicas -> upgradeAt upgradePhaseRolling (Z.of_nat k) w ->
  let w' := upgradePasses (k + 3) w in
  us_Phase (storedRecord w') = upgradePhaseCompleted /\ cs_Version (cl_Status (w_stored w')) = tag.
Proof.
  intros Htag. revert w. induction k as [|k IH]; intros w Hk Hat; cbv zeta.
  - cbn [Nat.add upgradePasses]. apply pass_completes; [done|]. by apply pass_stable, pass_rolled.
  - cbn [Nat.add upgradePasses]. apply IH; [lia|]. replace (Z.of_nat k) with (Z.of_nat (Datatypes.S k) - 1) by lia.
    apply pass_lowers; [lia|done].
Qed.
End Progress.

(** Three servers, one of them rolled: five passes. *)
Lemma upgrade_completes_witness :
  us_Phase (storedRecord (upgradePasses 0 minute (fun _ => None) (fun _ => (false, None)) None (fun _ => Err "gone") 3 5
    Sample.rolling)) = upgradePhaseCompleted.
Proof.
  refine (proj1 (upgrade_completes 0 minute (fun _ => None) (fun _ => (false, None)) None (fun _ => Err "gone")
    "c" 3 "5.26.33-enterprise" _ (fun n => n = Sample.rows "5.26.33") _ _ _ _ _ _ 2 Sample.rolling _ _ _)).
  - lia.
  - intros n ->. split; reflexivity.
  - intros n ->. split; [reflexivity|]. exists (Sample.rows "5.26.33"). split; [reflexivity|].
    intros o Ho. exists "5.26.33". assert (o = 0 \/ o = 1 \/ o = 2) as [->|[->| ->]] by lia; vm_compute; reflexivity.
  - intros o n Ho ->. split; reflexivity.
  - intros o n Ho ->. split; [reflexivity|]. split; [reflexivity|]. do 2 eexists. split; [reflexivity|]. split; [reflexivity|].
    assert (o = 0 \/ o = 1 \/ o = 2) as [->|[->| ->]] by lia; vm_compute; reflexivity.
  - intros n ->. repeat split; reflexivity.
  - intros n ->. split; [reflexivity|]. exists (Sample.rows "5.26.33"), "5.26.33". split; [reflexivity|].
    vm_compute. reflexivity.
  - discriminate.
  - lia.
  - split; [eexists; split; [reflexivity|reflexivity]|]. split; [eexists; split; [reflexivity|]; split; reflexivity|].
    repeat split; reflexivity.
Defined.
