(* ===== verification/Privileges.v ===== *)
(** Privilege statements as text (src/internal/neo4j/privileges.go and
    privilege_rules.go): the canonical form the controller compares by, the
    tokens Cypher reads as names, the databases a statement is scoped to, the
    REVOKE of a statement and the statement for another role, and the Cypher of a
    structured rule. The source ranges over runes and tests them against ASCII
    characters only, so on UTF-8 text it does what these functions do on bytes. *)
From S2P Require Import Prelude GoStrings.

Open Scope Z_scope.

(** The characters the scanners test. *)
Definition quoteChar : ascii := "'".
Definition dquoteChar : ascii := "034".
Definition backtick : ascii := "`".
Definition backslash : ascii := "\".

Definition escapeBackticks (s : string) : string := strings.ReplaceAllByte s backtick "``".

Definition quoted (name : string) : string := "`" +:+ escapeBackticks name +:+ "`".

(** * Keywords *)

Definition privilegeKeywordList : list string :=
  ["GRANT"; "DENY"; "REVOKE"; "IMMUTABLE"; "ON"; "TO"; "FROM"; "DATABASE"; "DATABASES"; "GRAPH"; "GRAPHS";
   "DBMS"; "HOME"; "DEFAULT"; "NODES"; "NODE"; "RELATIONSHIPS"; "RELATIONSHIP"; "ELEMENTS"; "ELEMENT"; "FOR";
   "ALL"; "ACCESS"; "READ"; "MATCH"; "TRAVERSE"; "WRITE"; "CREATE"; "DELETE"; "DROP"; "ALTER"; "SET";
   "REMOVE"; "LOAD"; "INDEX"; "CONSTRAINT"; "PRIVILEGE"; "PRIVILEGES"; "ROLE"; "ROLES"; "USER"; "USERS";
   "NAME"; "NAMES"; "LABEL"; "LABELS"; "NEW"; "TYPE"; "TYPES"; "PROPERTY"; "EXECUTE"; "PROCEDURE";
   "PROCEDURES"; "FUNCTION"; "FUNCTIONS"; "BOOSTED"; "MANAGEMENT"; "TRANSACTION"; "SHOW"; "START"; "STOP";
   "TERMINATE"; "ASSIGN"; "IMPERSONATE"; "AUTH"; "SERVER"; "COMPOSITE"; "ALIAS"; "ALIASES"; "OF"; "AS";
   "ANY"; "AWAIT"; "WAIT"; "WHERE"; "IS"; "NULL"; "NOT"; "IN"; "AND"; "OR"].

Definition privilegeKeywords (t : string) : bool := existsb (String.eqb t) privilegeKeywordList.

Definition scopeKeywords (t : string) : bool :=
  existsb (String.eqb t) ["GRAPH"; "GRAPHS"; "DATABASE"; "DATABASES"].

Definition segmentKeywords (t : string) : bool :=
  existsb (String.eqb t) ["NODE"; "NODES"; "RELATIONSHIP"; "RELATIONSHIPS"; "ELEMENT"; "ELEMENTS"].

Definition isLetter (c : ascii) : bool :=
  let n := nat_of_ascii c in (Nat.leb 65 n && Nat.leb n 90) || (Nat.leb 97 n && Nat.leb n 122).

(** [simpleIdentifierRe]: a letter, then letters, digits and underscores. *)
Definition simpleIdentifier (s : string) : bool :=
  match s with
  | String c s' => isLetter c && allBytes (fun c => isLetter c || isDigit c || Ascii.eqb c "_") s'
  | EmptyString => false
  end.

(** The text between the first and the last byte of a token quoted with
    backticks. *)
Definition unquoted (t : string) : option string :=
  match t with
  | String c t' =>
      if Ascii.eqb c backtick && (2 <=? Z.of_nat (String.length t)) && strings.HasSuffix t' "`"
      then Some (strings.upto (String.length t' - 1) t') else None
  | EmptyString => None
  end.

Definition redundantlyBacktickedIdentifier (t : string) : option string :=
  match unquoted t with
  | Some inner => if simpleIdentifier inner && negb (privilegeKeywords (strings.ToUpper inner)) then Some inner else None
  | None => None
  end.

(** * White space *)

(** inSingle, inDouble and inBacktick of the source: at most one holds. *)
Inductive quoteMode := Outside | InSingle | InDouble | InBacktick.

(** The mode after a quote character that is not escaped. *)
Definition toggle (m : quoteMode) (c : ascii) : quoteMode :=
  match m with
  | Outside => if Ascii.eqb c quoteChar then InSingle else if Ascii.eqb c dquoteChar then InDouble
               else if Ascii.eqb c backtick then InBacktick else Outside
  | InSingle => if Ascii.eqb c quoteChar then Outside else InSingle
  | InDouble => if Ascii.eqb c dquoteChar then Outside else InDouble
  | InBacktick => if Ascii.eqb c backtick then Outside else InBacktick
  end.

Definition inString (m : quoteMode) : bool := match m with InSingle | InDouble => true | _ => false end.

Definition blank (c : ascii) : bool := strings.byteIn c (String " " (String "009" (String "010" (String "013" EmptyString)))).

Fixpoint collapseFrom (m : quoteMode) (escape prevWasSpace : bool) (s : string) : string :=
  match s with
  | EmptyString => EmptyString
  | String c s' =>
      if escape then String c (collapseFrom m false false s')
      else if Ascii.eqb c backslash then String c (collapseFrom m (inString m) false s')
      else if match m with Outside => blank c | _ => false end then
        if prevWasSpace then collapseFrom m false true s'
        else String " " (collapseFrom m false true s')
      else String c (collapseFrom (toggle m c) false false s')
  end.

Definition collapseWhitespacePreservingQuotes (s : string) : string := collapseFrom Outside false false s.

(** * Tokens *)

Record privilegeItem := mkItem { it_text : string; it_token : bool }.

(** The token collected so far, put before the items that follow it. *)
Definition flushToken (token : string) (items : list privilegeItem) : list privilegeItem :=
  match token with EmptyString => items | _ => mkItem token true :: items end.

Definition separatorChar (c : ascii) : bool := strings.byteIn c "{}(),*/:;".

Definition char (c : ascii) : string := String c EmptyString.

Fixpoint itemsFrom (m : quoteMode) (escape : bool) (token : string) (s : string) : list privilegeItem :=
  match s with
  | EmptyString => flushToken token []
  | String c s' =>
      let token' := token +:+ char c in
      if escape then itemsFrom m false token' s'
      else
        match m with
        | InSingle | InDouble =>
            if Ascii.eqb c backslash then itemsFrom m true token' s'
            else if Ascii.eqb c (match m with InSingle => quoteChar | _ => dquoteChar end)
            then flushToken token' (itemsFrom Outside false EmptyString s')
            else itemsFrom m false token' s'
        | InBacktick =>
            if Ascii.eqb c backtick then
              match s' with
              | String d s'' =>
                  if Ascii.eqb d backtick then itemsFrom InBacktick false (token' +:+ "`") s''
                  else flushToken token' (itemsFrom Outside false EmptyString s')
              | EmptyString => flushToken token' []
              end
            else itemsFrom InBacktick false token' s'
        | Outside =>
            if Ascii.eqb c quoteChar || Ascii.eqb c dquoteChar || Ascii.eqb c backtick
            then flushToken token (itemsFrom (toggle Outside c) false (char c) s')
            else if blank c then flushToken token (mkItem " " false :: itemsFrom Outside false EmptyString s')
            else if separatorChar c then flushToken token (mkItem (char c) false :: itemsFrom Outside false EmptyString s')
            else itemsFrom Outside false token' s'
        end
  end.

Definition privilegeItems (s : string) : list privilegeItem := itemsFrom Outside false EmptyString s.

(** The text of an item as the keyword tests read it. *)
Definition upper (it : privilegeItem) : string :=
  if it_token it then strings.ToUpper (it_text it) else it_text it.

Definition upperIs (it : privilegeItem) (word : string) : bool := String.eqb (upper it) word.

(** Whether the token [it] is a name, after the significant items [sig] with
    their verdicts, the last one first. *)
Definition nameHere (braces parens : Z) (sig : list (privilegeItem * bool)) (it : privilegeItem) : bool :=
  if strings.HasPrefix (it_text it) "`" then true
  else if 0 <? braces then true
  else
    let prev := fst <$> head sig in
    let prev2 := head (tail sig) in
    let prevSep (texts : list string) :=
      match prev with Some p => negb (it_token p) && existsb (String.eqb (it_text p)) texts | None => false end in
    let prevWord (f : string -> bool) := match prev with Some p => it_token p && f (upper p) | None => false end in
    let prev2Is (f : privilegeItem -> bool -> bool) := match prev2 with Some (p, named) => f p named | None => false end in
    if 0 <? parens then prevSep ["("; ","; ":"]
    else if prevSep [","] then prev2Is (fun _ named => named)
    else if prevWord scopeKeywords && prev2Is (fun p _ => upperIs p "ON") then true
    else if prevWord segmentKeywords
            && prev2Is (fun p named => named || String.eqb (it_text p) "*" || upperIs p "GRAPH") then true
    else if prevWord (fun w => String.eqb w "LABEL" || String.eqb w "LABELS")
            && prev2Is (fun p _ => upperIs p "SET" || upperIs p "REMOVE") then true
    else prevWord (fun w => String.eqb w "TO" || String.eqb w "FROM").

Definition depthAfter (opening closing : string) (it : privilegeItem) (n : Z) : Z :=
  if String.eqb (it_text it) opening then n + 1 else if String.eqb (it_text it) closing then n - 1 else n.

Fixpoint identFrom (braces parens : Z) (sig : list (privilegeItem * bool)) (items : list privilegeItem) : list bool :=
  match items with
  | [] => []
  | it :: rest =>
      if it_token it then
        let named := nameHere braces parens sig it in
        named :: identFrom braces parens ((it, named) :: sig) rest
      else
        false :: identFrom (depthAfter "{" "}" it braces) (depthAfter "(" ")" it parens)
                   (if String.eqb (it_text it) " " then sig else (it, false) :: sig) rest
  end.

(** Per item, whether Cypher reads it as a name. *)
Definition identifierPositions (items : list privilegeItem) : list bool := identFrom 0 0 [] items.

Definition canonicalText (it : privilegeItem) (named : bool) : string :=
  if negb (it_token it) then it_text it
  else match redundantlyBacktickedIdentifier (it_text it) with
       | Some inner => inner
       | None => if privilegeKeywords (strings.ToUpper (it_text it)) && negb named
                 then strings.ToUpper (it_text it) else it_text it
       end.

Definition concatText (l : list string) : string := fold_right String.append EmptyString l.

Definition upperCaseReservedKeywords (s : string) : string :=
  let items := privilegeItems s in
  concatText (zip_with canonicalText items (identifierPositions items)).

Definition CanonicalisePrivilegeStatement (stmt : string) : string :=
  let s := strings.TrimSpace (strings.TrimSuffix (strings.TrimSpace stmt) ";") in
  match s with
  | EmptyString => EmptyString
  | _ => upperCaseReservedKeywords (collapseWhitespacePreservingQuotes s)
  end.

(** * Revoking *)

Definition reSpaceChar (c : ascii) : bool :=
  strings.byteIn c (String "009" (String "010" (String "012" (String "013" " ")))).

(** [tokenSplit.Split(s, -1)]: the text between the runs of white space. *)
Fixpoint splitSpaces (inRun : bool) (s : string) : list string :=
  match s with
  | EmptyString => [EmptyString]
  | String c s' =>
      if reSpaceChar c then
        if inRun then splitSpaces true s' else EmptyString :: splitSpaces true s'
      else match splitSpaces false s' with
           | w :: rest => String c w :: rest
           | [] => [char c]
           end
  end.

Definition tokenSplit (s : string) : list string := splitSpaces false s.

(** The last bare TO that has a token before and after it. *)
Definition lastTo (tokens : list string) : option nat :=
  List.find (fun i => String.eqb (nth i tokens EmptyString) "TO") (rev (seq 1 (length tokens - 2))).

Definition DerivePrivilegeRevoke (stmt : string) : result string :=
  let canon := CanonicalisePrivilegeStatement stmt in
  match canon with
  | EmptyString => Err "empty privilege statement"
  | _ =>
      let tokens := tokenSplit canon in
      if (length tokens <? 4)%nat then Err ("privilege statement too short: '" +:+ stmt +:+ "'")
      else
        let verb := strings.ToUpper (nth 0 tokens EmptyString) in
        if String.eqb verb "GRANT" || String.eqb verb "DENY" then
          match lastTo tokens with
          | None => Err ("statement missing TO <role>: '" +:+ stmt +:+ "'")
          | Some i =>
              Ok ("REVOKE " +:+ verb +:+ " " +:+ strings.Join (drop 1 (take i tokens)) " "
                  +:+ " FROM " +:+ strings.Join (drop (S i) tokens) " ")
          end
        else Err ("statement must start with GRANT or DENY, got '" +:+ nth 0 tokens EmptyString +:+ "'")
  end.

(** * Names *)

(** One name as written: [partLen] is the length of the part so far, [inQuote]
    inside backticks. *)
Fixpoint parseNameFrom (inQuote : bool) (partLen : nat) (s : string) : option string :=
  match s with
  | EmptyString => if inQuote || (partLen =? 0)%nat then None else Some EmptyString
  | String c s' =>
      if inQuote then
        if negb (Ascii.eqb c backtick) then String c <$> parseNameFrom true (S partLen) s'
        else match s' with
             | String d s'' =>
                 if Ascii.eqb d backtick then String backtick <$> parseNameFrom true (S partLen) s''
                 else if (partLen =? 0)%nat || negb (Ascii.eqb d ".") then None
                 else parseNameFrom false partLen s'
             | EmptyString => if (partLen =? 0)%nat then None else Some EmptyString
             end
      else if Ascii.eqb c "." then
        if (partLen =? 0)%nat then None else String c <$> parseNameFrom false 0 s'
      else if Ascii.eqb c backtick then
        if (partLen =? 0)%nat then parseNameFrom true 0 s' else None
      else String c <$> parseNameFrom false (S partLen) s'
  end.

Definition parseName (t : string) : option string := parseNameFrom false 0 t.

Definition PrivilegeStatementMatchesRole (stmt role : string) : bool :=
  let canon := CanonicalisePrivilegeStatement stmt in
  match canon with
  | EmptyString => false
  | _ =>
      let tokens := tokenSplit canon in
      let n := length tokens in
      if (n <? 3)%nat then false
      else if negb (String.eqb (nth (n - 2) tokens EmptyString) "TO") then false
      else
        let last := nth (n - 1) tokens EmptyString in
        strings.EqualFold (default (strings.Trim last "`") (parseName last)) role
  end.

Definition PrivilegeStatementVerb (stmt : string) : string :=
  match CanonicalisePrivilegeStatement stmt with
  | EmptyString => EmptyString
  | canon =>
      let first := strings.ToUpper (strings.cutBefore canon " ") in
      if String.eqb first "GRANT" then "GRANT" else if String.eqb first "DENY" then "DENY" else EmptyString
  end.

(** * Scopes *)

Definition flushWord (cur : string) (tokens : list string) : list string :=
  match cur with EmptyString => tokens | _ => cur :: tokens end.

Fixpoint tokensFrom (inBacktick : bool) (cur : string) (s : string) : list string :=
  match s with
  | EmptyString => flushWord cur []
  | String c s' =>
      if Ascii.eqb c backtick then tokensFrom (negb inBacktick) (cur +:+ char c) s'
      else if inBacktick then tokensFrom inBacktick (cur +:+ char c) s'
      else if Ascii.eqb c "," then flushWord cur ("," :: tokensFrom false EmptyString s')
      else if blank c then flushWord cur (tokensFrom false EmptyString s')
      else tokensFrom false (cur +:+ char c) s'
  end.

Definition privilegeTokens (s : string) : list string := tokensFrom false EmptyString s.

Record privilegeScope := mkScope { ps_names : list string; ps_unreadable : bool }.

Definition addName (name : string) (s : privilegeScope) : privilegeScope := mkScope (name :: ps_names s) (ps_unreadable s).
Definition setUnreadable (s : privilegeScope) : privilegeScope := mkScope (ps_names s) true.

Definition listSeparator (t : string) : bool := String.eqb t "," || String.eqb t "*".

(** The ON clauses of the tokens; [names] inside the list of names of one. *)
Fixpoint scanFrom (scopes : string -> bool) (names : bool) (tokens : list string) : privilegeScope :=
  match tokens with
  | [] => mkScope [] false
  | t :: rest =>
      if names && negb (privilegeKeywords t) then
        if listSeparator t then scanFrom scopes true rest
        else match parseName t with
             | Some name => addName name (scanFrom scopes true rest)
             | None => setUnreadable (scanFrom scopes true rest)
             end
      else if String.eqb t "ON" then
        match rest with
        | [] => mkScope [] true
        | scope :: rest' =>
            if existsb (String.eqb scope) ["DEFAULT"; "HOME"; "DBMS"] then scanFrom scopes false rest
            else if scopeKeywords scope then
              if scopes scope then scanFrom scopes true rest' else scanFrom scopes false rest
            else setUnreadable (scanFrom scopes false rest)
        end
      else scanFrom scopes false rest
  end.

Definition scanPrivilegeScopes (stmt : string) (scopes : string -> bool) : privilegeScope :=
  let tokens := privilegeTokens (CanonicalisePrivilegeStatement stmt) in
  let s := scanFrom scopes false tokens in
  if existsb (String.eqb "ON") tokens then s else setUnreadable s.

Definition PrivilegeDatabaseTargets (stmt : string) : list string := ps_names (scanPrivilegeScopes stmt scopeKeywords).

Definition PrivilegeGraphTargets (stmt : string) : list string :=
  ps_names (scanPrivilegeScopes stmt (fun t => String.eqb t "GRAPH" || String.eqb t "GRAPHS")).

Definition PrivilegeAliasDependence (stmt : string) : list string * bool :=
  match CanonicalisePrivilegeStatement stmt with
  | EmptyString => ([], false)
  | _ =>
      let s := scanPrivilegeScopes stmt scopeKeywords in
      if ps_unreadable s then ([], true) else (ps_names s, false)
  end.

Fixpoint foldNames (names : bool) (tokens : list string) : list string :=
  match tokens with
  | [] => []
  | t :: rest =>
      if names && negb (privilegeKeywords t) then
        (if listSeparator t then t else strings.ToLower t) :: foldNames true rest
      else if String.eqb t "ON" then
        match rest with
        | [] => [t]
        | scope :: rest' => if scopeKeywords scope then t :: scope :: foldNames true rest' else t :: foldNames false rest
        end
      else t :: foldNames false rest
  end.

Definition FoldPrivilegeDatabaseNames (stmt : string) : string :=
  strings.Join (foldNames false (privilegeTokens (CanonicalisePrivilegeStatement stmt))) " ".

(** * Another grantee *)

(** The scan for the grantee: the quote that is open, where the word at hand
    starts, and where the last TO does. *)
Record granteeScan := mkGranteeScan { gs_quote : option ascii; gs_word : option nat; gs_to : option nat }.

Definition endWord (s : string) (i : nat) (st : granteeScan) : granteeScan :=
  match gs_word st with
  | Some start =>
      let isTo := strings.EqualFold (strings.upto (i - start) (strings.from start s)) "TO"
                  && (0 <? start)%nat
                  && match String.get (start - 1) s with Some c => blank c | None => false end in
      mkGranteeScan (gs_quote st) None (if isTo then Some start else gs_to st)
  | None => st
  end.

Definition granteeStep (s : string) (i : nat) (c : ascii) (st : granteeScan) : granteeScan :=
  match gs_quote st with
  | Some q => if Ascii.eqb c q then mkGranteeScan None (gs_word st) (gs_to st) else st
  | None =>
      if Ascii.eqb c backtick || Ascii.eqb c quoteChar || Ascii.eqb c dquoteChar then
        let st := endWord s i st in mkGranteeScan (Some c) (gs_word st) (gs_to st)
      else if isLetter c then
        match gs_word st with
        | None => mkGranteeScan None (Some i) (gs_to st)
        | Some _ => st
        end
      else match gs_word st with
           | None => st
           | Some _ => if blank c then endWord s i st else mkGranteeScan None None (gs_to st)
           end
  end.

Fixpoint granteeFrom (s : string) (i : nat) (rest : string) (st : granteeScan) : granteeScan :=
  match rest with
  | EmptyString => st
  | String c rest' => granteeFrom s (S i) rest' (granteeStep s i c st)
  end.

Definition ReplacePrivilegeGrantee (stmt role : string) : result string :=
  let s := strings.TrimSpace (strings.TrimSuffix (strings.TrimSpace stmt) ";") in
  match gs_to (granteeFrom s 0 s (mkGranteeScan None None None)) with
  | None => Err ("statement missing TO <role>: '" +:+ stmt +:+ "'")
  | Some i =>
      Ok (strings.TrimRight (strings.upto i s) (String " " (String "009" (String "010" (String "013" EmptyString))))
          +:+ " TO " +:+ quoted role)
  end.

(** * Structured rules *)

Record PrivilegeRule := mkPrivilegeRule {
  pr_Grant : string;
  pr_Deny : string;
  pr_OnDatabase : string;
  pr_OnGraph : string;
  pr_Nodes : list string;
  pr_Relationships : list string;
  pr_Elements : list string;
  pr_Properties : list string
}.

(** A [RuleProblem]: the field and the detail. *)
Definition RuleProblem : Type := string * string.

Definition listProblem (values : list string) : string :=
  let fix go l :=
    match l with
    | [] => EmptyString
    | v :: rest =>
        if String.eqb (strings.TrimSpace v) EmptyString then "names must not be empty"
        else if String.eqb v "*" && (1 <? length values)%nat then "'*' means all, so it must be the only entry"
        else go rest
    end in
  go values.

Definition ruleAction (r : PrivilegeRule) : string :=
  if String.eqb (pr_Deny r) EmptyString || negb (String.eqb (pr_Grant r) EmptyString)
  then pr_Grant r else pr_Deny r.

Definition given (s : string) : bool := negb (String.eqb s EmptyString).

Definition segmentProblem (field : string) (values : list string) : list RuleProblem :=
  match values with
  | [] => []
  | _ => match listProblem values with EmptyString => [] | p => [(field, p)] end
  end.

Definition segmentCount (r : PrivilegeRule) : nat :=
  length (List.filter (fun v : list string => (0 <? length v)%nat) [pr_Nodes r; pr_Relationships r; pr_Elements r]).

Definition PrivilegeRuleProblems (r : PrivilegeRule) : list RuleProblem :=
  let action := ruleAction r in
  let acc := String.eqb action "ACCESS" in
  (if given (pr_Grant r) && given (pr_Deny r) then [("deny", "set exactly one of grant or deny")]
   else if negb (given (pr_Grant r)) && negb (given (pr_Deny r)) then [("grant", "set exactly one of grant or deny")]
   else [])
  ++
  (if given (pr_OnDatabase r) && given (pr_OnGraph r) then [("onGraph", "set exactly one of onDatabase or onGraph")]
   else if acc && given (pr_OnGraph r) then [("onGraph", "ACCESS applies to a database: use onDatabase, not onGraph")]
   else if negb acc && given action && given (pr_OnDatabase r)
   then [("onDatabase", action +:+ " applies to a graph: use onGraph, not onDatabase")]
   else if acc && negb (given (pr_OnDatabase r))
   then [("onDatabase", "ACCESS is a database privilege: set onDatabase (a database name, or '*')")]
   else if negb acc && given action && negb (given (pr_OnGraph r))
   then [("onGraph", action +:+ " is a graph privilege: set onGraph (a database name, or '*')")]
   else [])
  ++ segmentProblem "nodes" (pr_Nodes r) ++ segmentProblem "relationships" (pr_Relationships r)
  ++ segmentProblem "elements" (pr_Elements r)
  ++
  (if acc || String.eqb action "WRITE" then
     (if (0 <? length (pr_Properties r))%nat then [("properties", action +:+ " takes no properties")] else [])
     ++ (if (0 <? segmentCount r)%nat then [("nodes", action +:+ " takes no nodes, relationships or elements")] else [])
   else if String.eqb action "TRAVERSE" then
     (if (0 <? length (pr_Properties r))%nat
      then [("properties", "TRAVERSE takes no properties; use READ or MATCH")] else [])
   else if String.eqb action "READ" || String.eqb action "MATCH" then
     match pr_Properties r with
     | [] => [("properties", action +:+ " needs properties: the property names, or ['*'] for all")]
     | _ => match listProblem (pr_Properties r) with EmptyString => [] | p => [("properties", p)] end
     end
   else [])
  ++ (if (1 <? segmentCount r)%nat
      then [("relationships", "set at most one of nodes, relationships and elements: one rule per segment")] else []).

Definition nameOrAll (name : string) : string := if String.eqb name "*" then "*" else quoted name.

Definition nameList (names : list string) : string :=
  if (length names =? 1)%nat && String.eqb (nth 0 names EmptyString) "*" then "*"
  else strings.Join (map quoted names) ", ".

Definition RenderPrivilegeRule (r : PrivilegeRule) (role : string) : result string :=
  match PrivilegeRuleProblems r with
  | (field, detail) :: _ => Err ("invalid privilege rule: " +:+ field +:+ ": " +:+ detail)
  | [] =>
      let verb := if given (pr_Deny r) then "DENY" else "GRANT" in
      let action := if given (pr_Deny r) then pr_Deny r else pr_Grant r in
      Ok (verb +:+ " " +:+ action
          +:+ (if String.eqb action "READ" || String.eqb action "MATCH"
               then " {" +:+ nameList (pr_Properties r) +:+ "}" else EmptyString)
          +:+ (if String.eqb action "ACCESS" then " ON DATABASE " +:+ nameOrAll (pr_OnDatabase r)
               else " ON GRAPH " +:+ nameOrAll (pr_OnGraph r))
          +:+ (match pr_Nodes r, pr_Relationships r, pr_Elements r with
               | _ :: _, _, _ => " NODES " +:+ nameList (pr_Nodes r)
               | [], _ :: _, _ => " RELATIONSHIPS " +:+ nameList (pr_Relationships r)
               | [], [], _ :: _ => " ELEMENTS " +:+ nameList (pr_Elements r)
               | [], [], [] => EmptyString
               end)
          +:+ " TO " +:+ quoted role)
  end.

Definition PrivilegeRuleTarget (r : PrivilegeRule) : string :=
  let t := if given (pr_OnDatabase r) then pr_OnDatabase r else pr_OnGraph r in
  if String.eqb t "*" then EmptyString else t.

Definition PrivilegeRuleTargetField (r : PrivilegeRule) : string :=
  if given (pr_OnDatabase r) then "onDatabase" else "onGraph".
