(* ===== verification/PrivilegeScope.v ===== *)
(** What the controller reads out of a statement it rendered itself
    (RenderPrivilegeRule of src/internal/neo4j/privilege_rules.go, read by
    CanonicalisePrivilegeStatement and scanPrivilegeScopes of privileges.go): the
    canonical form of a statement made of words and quoted names, its tokens, and
    the scope they give. *)
From S2P Require Import Prelude GoStrings Privileges.

Open Scope Z_scope.

(** * Statements as pieces

    The statements the renderer writes are made of words in upper case and
    punctuation ([Lit]) and of quoted names ([Nam]). *)

Inductive piece := Lit (s : string) | Nam (n : string).

(** How the canonical form shows a name. *)
Definition display (n : string) : string :=
  if simpleIdentifier n && negb (privilegeKeywords (strings.ToUpper n)) then n else quoted n.

Definition pieceText (p : piece) : string := match p with Lit s => s | Nam n => quoted n end.
Definition pieceDisplay (p : piece) : string := match p with Lit s => s | Nam n => display n end.
Definition textOf (ps : list piece) : string := concatText (map pieceText ps).
Definition displayOf (ps : list piece) : string := concatText (map pieceDisplay ps).

(** A character the scanners take for itself. *)
Definition plainChar (c : ascii) : bool :=
  negb (Ascii.eqb c quoteChar || Ascii.eqb c dquoteChar || Ascii.eqb c backtick || Ascii.eqb c backslash).

(** A literal has plain characters, single spaces for white space, words in
    upper case, and ends a token. *)
Fixpoint litSpaces (prev : bool) (s : string) : option bool :=
  match s with
  | EmptyString => Some prev
  | String c s' =>
      if negb (plainChar c) then None
      else if blank c then if prev || negb (Ascii.eqb c " ") then None else litSpaces true s' else litSpaces false s'
  end.

Fixpoint closed (s : string) : bool :=
  match s with
  | EmptyString => false
  | String c EmptyString => blank c || separatorChar c
  | String _ s' => closed s'
  end.

Definition canonicalItem (it : privilegeItem) : bool :=
  negb (it_token it)
  || String.eqb (strings.ToUpper (it_text it)) (it_text it) && negb (strings.HasPrefix (it_text it) "`").

Definition litOK (s : string) : bool := closed s && forallb canonicalItem (privilegeItems s).

Fixpoint piecesOK (prev : bool) (ps : list piece) : bool :=
  match ps with
  | [] => true
  | Lit s :: rest => litOK s && match litSpaces prev s with Some p => piecesOK p rest | None => false end
  | Nam _ :: rest => match rest with Nam _ :: _ => false | _ => piecesOK false rest end
  end.

(** ** Quoted names *)

Lemma escape_cons c n :
  escapeBackticks (String c n) = if Ascii.eqb c backtick then String backtick (String backtick (escapeBackticks n))
                                 else String c (escapeBackticks n).
Proof. reflexivity. Qed.

Lemma collapse_escaped n t :
  collapseFrom InBacktick false false (escapeBackticks n +:+ String backtick t) =
  escapeBackticks n +:+ String backtick (collapseFrom Outside false false t).
Proof.
  induction n as [|c n IH]; [done|]. rewrite escape_cons.
  destruct (Ascii.eqb_spec c backtick) as [->|Hc]; simpl; [by rewrite IH|].
  destruct (Ascii.eqb_spec c backslash) as [->|Hb]; simpl; [by rewrite IH|].
  rewrite (proj2 (Ascii.eqb_neq _ _) Hc). by rewrite IH.
Qed.

Lemma quoted_app n t : quoted n +:+ t = String backtick (escapeBackticks n +:+ String backtick t).
Proof. unfold quoted. cbn. by rewrite string_app_assoc. Qed.

Lemma collapse_quoted p n t :
  collapseFrom Outside false p (quoted n +:+ t) = quoted n +:+ collapseFrom Outside false false t.
Proof. rewrite !quoted_app. cbn. f_equal. apply collapse_escaped. Qed.

Definition startsQuoted (t : string) : bool :=
  match t with String c _ => Ascii.eqb c backtick | EmptyString => false end.

Lemma items_escaped tok n t :
  startsQuoted t = false -> tok <> EmptyString ->
  itemsFrom InBacktick false tok (escapeBackticks n +:+ String backtick t) =
  mkItem (tok +:+ escapeBackticks n +:+ "`") true :: itemsFrom Outside false EmptyString t.
Proof.
  intros Ht. revert tok. induction n as [|c n IH]; intros tok Htok.
  - simpl. destruct t as [|d t']; [by destruct tok|].
    cbn in Ht. rewrite Ht. by destruct tok.
  - rewrite escape_cons. destruct (Ascii.eqb_spec c backtick) as [->|Hc].
    + cbn. rewrite IH by (by destruct tok). by rewrite !string_app_assoc.
    + simpl. rewrite (proj2 (Ascii.eqb_neq _ _) Hc), IH by (by destruct tok). by rewrite string_app_assoc.
Qed.

Lemma items_quoted n t :
  startsQuoted t = false ->
  itemsFrom Outside false EmptyString (quoted n +:+ t) =
  mkItem (quoted n) true :: itemsFrom Outside false EmptyString t.
Proof. intros Ht. rewrite quoted_app. cbn. by rewrite items_escaped. Qed.

(** ** Literals *)

Lemma plainChar_toggle c : plainChar c = true -> toggle Outside c = Outside /\ Ascii.eqb c backslash = false.
Proof. unfold plainChar. intros H. breflect. unfold toggle. by rewrite H, H2, H1. Qed.

Lemma collapse_lit p p' s t :
  litSpaces p s = Some p' ->
  collapseFrom Outside false p (s +:+ t) = s +:+ collapseFrom Outside false p' t.
Proof.
  revert p. induction s as [|c s IH]; intros p; cbn [litSpaces collapseFrom String.append]; [by intros [= ->]|].
  destruct (plainChar c) eqn:Ep; [|done]. destruct (plainChar_toggle c Ep) as [Ht ->]. cbn [negb].
  destruct (blank c) eqn:Eb.
  - destruct p; [done|]. destruct (Ascii.eqb_spec c " ") as [->|]; [|done]. cbn [orb negb]. intros H. by rewrite (IH true H).
  - intros H. by rewrite Ht, (IH false H).
Qed.

Lemma flushToken_app tok l k : flushToken tok (l ++ k) = flushToken tok l ++ k.
Proof. by destruct tok. Qed.

Lemma items_lit p p' tok s t :
  litSpaces p s = Some p' -> closed s = true ->
  itemsFrom Outside false tok (s +:+ t) = itemsFrom Outside false tok s ++ itemsFrom Outside false EmptyString t.
Proof.
  revert p tok. induction s as [|c s IH]; intros p tok Hs Hc; [done|]. simpl in Hs.
  destruct (plainChar c) eqn:Ep; [|done]. cbn [negb] in Hs.
  assert (Hq : (Ascii.eqb c quoteChar || Ascii.eqb c dquoteChar || Ascii.eqb c backtick) = false).
  { unfold plainChar in Ep. breflect. by rewrite H, H2, H1. }
  simpl. rewrite Hq. destruct (blank c) eqn:Eb; [|destruct (separatorChar c) eqn:Es].
  - rewrite <-flushToken_app. f_equal. simpl. f_equal. destruct s as [|d s]; [done|].
    destruct (p || _); [done|]. by apply (IH true).
  - rewrite <-flushToken_app. f_equal. simpl. f_equal. destruct s as [|d s]; [done|]. by apply (IH false).
  - destruct s as [|d s]; [simpl in Hc; by rewrite Eb, Es in Hc|]. by apply (IH false).
Qed.

Definition itemText (l : list privilegeItem) : string := concatText (map it_text l).

Lemma itemText_cons it l : itemText (it :: l) = it_text it +:+ itemText l.
Proof. reflexivity. Qed.

Lemma itemText_flush tok l : itemText (flushToken tok l) = tok +:+ itemText l.
Proof. by destruct tok. Qed.

Lemma itemText_lit p p' tok s :
  litSpaces p s = Some p' -> itemText (itemsFrom Outside false tok s) = tok +:+ s.
Proof.
  revert p tok. induction s as [|c s IH]; intros p tok Hs; [exact (itemText_flush tok [])|]. simpl in Hs.
  destruct (plainChar c) eqn:Ep; [|done]. cbn [negb] in Hs. simpl.
  assert (Hq : (Ascii.eqb c quoteChar || Ascii.eqb c dquoteChar || Ascii.eqb c backtick) = false).
  { unfold plainChar in Ep. breflect. by rewrite H, H2, H1. }
  rewrite Hq. destruct (blank c) eqn:Eb; [|destruct (separatorChar c) eqn:Es].
  - destruct p; [done|]. destruct (Ascii.eqb_spec c " ") as [->|]; [|done]. cbn [orb negb] in Hs.
    by rewrite itemText_flush, itemText_cons, (IH true).
  - by rewrite itemText_flush, itemText_cons, (IH false).
  - rewrite (IH false) by done. by rewrite string_app_assoc.
Qed.

Lemma canonicalText_lit it b : canonicalItem it = true -> canonicalText it b = it_text it.
Proof.
  unfold canonicalItem, canonicalText. destruct (it_token it); [|done]. cbn [negb orb]. intros H. breflect.
  assert (unquoted (it_text it) = None) as E.
  { destruct (it_text it) as [|c u]; [done|]. cbn in H0. rewrite andb_false_iff in H0. unfold unquoted.
    destruct (Ascii.eqb_spec c backtick) as [->|]; [|done]. destruct H0 as [H0|H0]; [done|]. by destruct u. }
  unfold redundantlyBacktickedIdentifier. rewrite E, H. by destruct (_ && _).
Qed.

(** ** Names, shown *)

Definition noBacktick (s : string) : bool := allBytes (fun c => negb (Ascii.eqb c backtick)) s.

Lemma escape_plain n : noBacktick n = true -> escapeBackticks n = n.
Proof.
  induction n as [|c n IH]; [done|]. rewrite escape_cons. unfold noBacktick. simpl. intros H. breflect.
  rewrite H. by rewrite IH.
Qed.

Lemma escape_none n : noBacktick (escapeBackticks n) = true -> noBacktick n = true.
Proof.
  induction n as [|c n IH]; [done|]. rewrite escape_cons. unfold noBacktick in *. simpl.
  destruct (Ascii.eqb_spec c backtick) as [->|Hc]; simpl; [done|]. rewrite (proj2 (Ascii.eqb_neq _ _) Hc). exact IH.
Qed.

Lemma letter_not_backtick c : isLetter c = true -> Ascii.eqb c backtick = false.
Proof. by destruct c as [[] [] [] [] [] [] [] []]. Qed.

Lemma identChar_not_backtick c : isLetter c || isDigit c || Ascii.eqb c "_" = true -> Ascii.eqb c backtick = false.
Proof. by destruct c as [[] [] [] [] [] [] [] []]. Qed.

Lemma simple_noBacktick n : simpleIdentifier n = true -> noBacktick n = true.
Proof.
  destruct n as [|c n]; [done|]. unfold simpleIdentifier, noBacktick. simpl. intros H. breflect.
  rewrite letter_not_backtick by done. simpl. eapply allBytes_impl; [|done].
  intros d Hd. by rewrite (identChar_not_backtick d Hd).
Qed.

Lemma unquoted_quoted n : unquoted (quoted n) = Some (escapeBackticks n).
Proof.
  unfold quoted, unquoted. set (e := escapeBackticks n). cbn [String.append].
  change (Ascii.eqb "`" backtick) with true.
  assert (Hl : String.length (e +:+ "`") = S (String.length e)) by (rewrite string_length_app; simpl; lia).
  cbn [String.length]. rewrite Hl. destruct (Z.leb_spec 2 (Z.of_nat (S (S (String.length e))))); [|lia].
  unfold strings.HasSuffix. rewrite Hl. cbn [String.length]. rewrite !Nat.sub_1_r. cbn [Nat.pred].
  rewrite from_length_app, upto_length_app. simpl. done.
Qed.

Lemma quoted_not_keyword n : privilegeKeywords (strings.ToUpper (quoted n)) = false.
Proof.
  unfold quoted. cbn [String.append strings.ToUpper]. change (strings.upperByte "`") with backtick.
  by generalize (strings.ToUpper (escapeBackticks n +:+ "`")).
Qed.

Lemma canonicalText_quoted n b : canonicalText (mkItem (quoted n) true) b = display n.
Proof.
  unfold canonicalText, redundantlyBacktickedIdentifier, display. cbn [it_token it_text negb].
  rewrite unquoted_quoted, quoted_not_keyword. destruct (simpleIdentifier n) eqn:En.
  - rewrite escape_plain by (by apply simple_noBacktick). rewrite En. by destruct (privilegeKeywords _).
  - destruct (simpleIdentifier (escapeBackticks n)) eqn:Ee; [|done].
    pose proof (escape_none n (simple_noBacktick _ Ee)) as Hn. rewrite (escape_plain n Hn) in Ee. congruence.
Qed.

(** ** The canonical form of pieces *)

Definition itemsOf (ps : list piece) : list privilegeItem :=
  flat_map (fun p => match p with Lit s => privilegeItems s | Nam n => [mkItem (quoted n) true] end) ps.

Lemma closed_ne s : closed s = true -> s <> EmptyString.
Proof. by destruct s. Qed.

Lemma litSpaces_start p p' s t :
  litSpaces p s = Some p' -> s <> EmptyString -> startsQuoted (s +:+ t) = false.
Proof.
  destruct s as [|c s]; [done|]. cbn. unfold plainChar. intros H _.
  destruct (Ascii.eqb c backtick); [|done]. by rewrite !orb_true_r in H.
Qed.

Lemma pieces_start p ps :
  piecesOK p ps = true -> match ps with Nam _ :: _ => False | _ => True end -> startsQuoted (textOf ps) = false.
Proof.
  destruct ps as [|[s|n] rest]; [done| |done]. cbn [piecesOK]. unfold litOK. intros H _. breflect.
  destruct (litSpaces p s) as [p'|] eqn:E; [|done]. apply (litSpaces_start p p'); [done|by apply closed_ne].
Qed.

Lemma collapse_pieces p ps : piecesOK p ps = true -> collapseFrom Outside false p (textOf ps) = textOf ps.
Proof.
  revert p. induction ps as [|[s|n] rest IH]; intros p; [done| |]; cbn [piecesOK]; intros H.
  - apply andb_true_iff in H as [_ H]. destruct (litSpaces p s) as [p'|] eqn:E; [|done].
    change (textOf (Lit s :: rest)) with (s +:+ textOf rest). by rewrite (collapse_lit p p'), IH.
  - change (textOf (Nam n :: rest)) with (quoted n +:+ textOf rest). rewrite collapse_quoted, IH; [done|].
    by destruct rest as [|[] ?].
Qed.

Lemma items_pieces p ps : piecesOK p ps = true -> itemsFrom Outside false EmptyString (textOf ps) = itemsOf ps.
Proof.
  revert p. induction ps as [|[s|n] rest IH]; intros p; [done| |]; cbn [piecesOK]; intros H.
  - unfold litOK in H. breflect. destruct (litSpaces p s) as [p'|] eqn:E; [|done].
    change (textOf (Lit s :: rest)) with (s +:+ textOf rest). by rewrite (items_lit p p'), (IH p').
  - change (textOf (Nam n :: rest)) with (quoted n +:+ textOf rest).
    assert (Hr : piecesOK false rest = true /\ match rest with Nam _ :: _ => False | _ => True end)
      by (by destruct rest as [|[] ?]).
    destruct Hr as [Hr Hs]. rewrite items_quoted, (IH false); [done..|by apply (pieces_start false)].
Qed.

Lemma identFrom_length b q sig items : length (identFrom b q sig items) = length items.
Proof.
  revert b q sig. induction items as [|it items IH]; intros; [done|]. cbn [identFrom].
  destruct (it_token it); cbn; by rewrite IH.
Qed.

Lemma concatText_app l k : concatText (l ++ k) = concatText l +:+ concatText k.
Proof. induction l as [|s l IH]; [done|]. cbn. unfold concatText in IH. by rewrite IH, string_app_assoc. Qed.

Lemma canonical_lits items bs :
  forallb canonicalItem items = true -> length bs = length items ->
  concatText (zip_with canonicalText items bs) = itemText items.
Proof.
  revert bs. induction items as [|it items IH]; intros [|b bs]; [done..|]. cbn [forallb]. intros H Hl. breflect.
  cbn [zip_with]. rewrite itemText_cons. change (concatText (?a :: ?l)) with (a +:+ concatText l).
  rewrite canonicalText_lit by done. rewrite IH by (done || by injection Hl). done.
Qed.

Lemma canonical_pieces p ps bs :
  piecesOK p ps = true -> length bs = length (itemsOf ps) ->
  concatText (zip_with canonicalText (itemsOf ps) bs) = displayOf ps.
Proof.
  revert p bs. induction ps as [|[s|n] rest IH]; intros p bs; [done| |]; cbn [piecesOK]; intros H Hl.
  - unfold litOK in H. breflect. destruct (litSpaces p s) as [p'|] eqn:E; [|done].
    change (itemsOf (Lit s :: rest)) with (privilegeItems s ++ itemsOf rest) in *. rewrite length_app in Hl.
    rewrite <-(take_drop (length (privilegeItems s)) bs), zip_with_app by (rewrite length_take; lia).
    rewrite concatText_app, canonical_lits by (done || rewrite length_take; lia).
    rewrite (IH p') by (done || rewrite length_drop; lia). unfold privilegeItems. by rewrite (itemText_lit p p').
  - change (itemsOf (Nam n :: rest)) with (mkItem (quoted n) true :: itemsOf rest) in *.
    destruct bs as [|b bs]; [done|]. cbn [zip_with]. change (concatText (?a :: ?l)) with (a +:+ concatText l).
    rewrite canonicalText_quoted. rewrite (IH false); [done| |by injection Hl]. by destruct rest as [|[] ?].
Qed.

Lemma upperCase_pieces ps :
  piecesOK false ps = true -> upperCaseReservedKeywords (collapseWhitespacePreservingQuotes (textOf ps)) = displayOf ps.
Proof.
  intros H. unfold upperCaseReservedKeywords, collapseWhitespacePreservingQuotes.
  rewrite collapse_pieces by done. unfold privilegeItems. rewrite (items_pieces false) by done.
  apply (canonical_pieces false); [done|]. apply identFrom_length.
Qed.

Lemma trimRight_end f v c : f c = false -> strings.trimRightFunc f (v +:+ String c EmptyString) = v +:+ String c EmptyString.
Proof.
  intros Hc. induction v as [|d v IH]; simpl; [by rewrite Hc|]. rewrite IH. by destruct v.
Qed.

(** A statement that starts with a word and ends with a quoted name is what the
    trimming leaves of it. *)
Lemma trim_statement c u v :
  strings.isSpace c = false -> String c u = v +:+ "`" ->
  strings.TrimSpace (strings.TrimSuffix (strings.TrimSpace (String c u)) ";") = String c u.
Proof.
  intros Hc Hv. assert (Ht : strings.TrimSpace (String c u) = String c u).
  { unfold strings.TrimSpace, strings.trimFunc. cbn [strings.trimLeftFunc]. rewrite Hc, Hv. by apply trimRight_end. }
  rewrite Ht. assert (Hs : strings.HasSuffix (String c u) ";" = false).
  { rewrite Hv. unfold strings.HasSuffix. rewrite string_length_app. cbn [String.length].
    rewrite Nat.add_sub, from_length_app. apply andb_false_r. }
  unfold strings.TrimSuffix. by rewrite Hs.
Qed.

Lemma canonical_statement ps c u v :
  piecesOK false ps = true -> textOf ps = String c u -> strings.isSpace c = false -> textOf ps = v +:+ "`" ->
  CanonicalisePrivilegeStatement (textOf ps) = displayOf ps.
Proof.
  intros Hps Hc Hsp Hv. unfold CanonicalisePrivilegeStatement.
  rewrite Hc, (trim_statement c u v) by (done || by rewrite <-Hc). cbv beta iota. rewrite <-Hc. by apply upperCase_pieces.
Qed.

(** ** Its tokens *)

Lemma tokens_escaped cur n t :
  tokensFrom true cur (escapeBackticks n +:+ String backtick t) = tokensFrom false (cur +:+ escapeBackticks n +:+ "`") t.
Proof.
  revert cur. induction n as [|c n IH]; intros cur; [done|]. rewrite escape_cons.
  destruct (Ascii.eqb_spec c backtick) as [->|Hc]; cbn.
  - rewrite IH. by rewrite !string_app_assoc.
  - rewrite (proj2 (Ascii.eqb_neq _ _) Hc), IH. by rewrite string_app_assoc.
Qed.

Lemma identChar_plain c :
  isLetter c || isDigit c || Ascii.eqb c "_" = true ->
  Ascii.eqb c backtick = false /\ Ascii.eqb c "," = false /\ blank c = false /\ Ascii.eqb c "." = false.
Proof. by destruct c as [[] [] [] [] [] [] [] []]. Qed.

Lemma simple_identChars n :
  simpleIdentifier n = true -> allBytes (fun c => isLetter c || isDigit c || Ascii.eqb c "_") n = true.
Proof. destruct n as [|c n]; [done|]. simpl. intros H. breflect. by rewrite H, H0. Qed.

Lemma tokens_display cur n t :
  tokensFrom false cur (display n +:+ t) = tokensFrom false (cur +:+ display n) t.
Proof.
  unfold display. destruct (simpleIdentifier n) eqn:En; [|cbn [andb]].
  - destruct (negb _) eqn:Ek; cbn [andb].
    + clear Ek. apply simple_identChars in En. revert cur.
      induction n as [|c n IH]; intros cur; [by rewrite string_app_nil_r|]. simpl in En. breflect.
      destruct (identChar_plain c H) as (E1 & E2 & E3 & _). cbn [String.append tokensFrom]. rewrite E1, E2, E3.
      rewrite IH by done. by rewrite string_app_assoc.
    + rewrite quoted_app. cbn. rewrite tokens_escaped. by rewrite string_app_assoc.
  - rewrite quoted_app. cbn. rewrite tokens_escaped. by rewrite string_app_assoc.
Qed.

(** The words a literal ends, and the one it leaves open. *)
Fixpoint litWords (cur s : string) : list string * string :=
  match s with
  | EmptyString => ([], cur)
  | String c s' =>
      if Ascii.eqb c "," then let '(l, r) := litWords EmptyString s' in (flushWord cur ("," :: l), r)
      else if blank c then let '(l, r) := litWords EmptyString s' in (flushWord cur l, r)
      else litWords (cur +:+ char c) s'
  end.

Lemma flushWord_app cur l k : flushWord cur (l ++ k) = flushWord cur l ++ k.
Proof. by destruct cur. Qed.

Lemma tokens_lit cur s t :
  noBacktick s = true ->
  tokensFrom false cur (s +:+ t) = (litWords cur s).1 ++ tokensFrom false (litWords cur s).2 t.
Proof.
  revert cur. induction s as [|c s IH]; intros cur; [done|]. unfold noBacktick. simpl. intros H. breflect.
  rewrite H. destruct (Ascii.eqb c ","); [|destruct (blank c)]; [..|by apply IH];
    rewrite IH by done; destruct (litWords EmptyString s) as [l r]; cbn [fst snd]; by rewrite <-flushWord_app.
Qed.

(** ** Names in a statement *)

Fixpoint namePieces (ns : list string) : list piece :=
  match ns with
  | [] => []
  | [n] => [Nam n]
  | n :: rest => Nam n :: Lit ", " :: namePieces rest
  end.

Lemma displayOf_cons p ps : displayOf (p :: ps) = pieceDisplay p +:+ displayOf ps.
Proof. reflexivity. Qed.

Lemma displayOf_app ps qs : displayOf (ps ++ qs) = displayOf ps +:+ displayOf qs.
Proof. unfold displayOf. by rewrite map_app, concatText_app. Qed.

Lemma textOf_app ps qs : textOf (ps ++ qs) = textOf ps +:+ textOf qs.
Proof. unfold textOf. by rewrite map_app, concatText_app. Qed.

Lemma textOf_names ns : textOf (namePieces ns) = strings.Join (map quoted ns) ", ".
Proof.
  induction ns as [|n [|n' ns] IH]; [done|apply string_app_nil_r|].
  change (textOf (namePieces (n :: n' :: ns))) with (quoted n +:+ ", " +:+ textOf (namePieces (n' :: ns))).
  by rewrite IH.
Qed.

Lemma piecesOK_names p ns k :
  ns <> [] -> match k with Nam _ :: _ => False | _ => True end -> piecesOK false k = true ->
  piecesOK p (namePieces ns ++ k) = true.
Proof.
  intros Hne Hk Hok. revert p. induction ns as [|n [|n' ns] IH]; intros p; [done| |].
  - cbn. by destruct k as [|[] ?].
  - cbn [namePieces app piecesOK]. change (litOK ", ") with true. cbn [andb litSpaces]. simpl. by apply IH.
Qed.

Lemma display_head n : exists c u, display n = String c u /\ (isLetter c = true \/ c = backtick).
Proof.
  unfold display. destruct (_ && _) eqn:E; [|by exists backtick, (escapeBackticks n +:+ "`"); auto].
  destruct n as [|c n]; [done|]. exists c, n. simpl in E. breflect. auto.
Qed.

Lemma display_ne n : display n <> EmptyString.
Proof. by destruct (display_head n) as (c & u & -> & _). Qed.

Lemma keyword_upper k : privilegeKeywords k = true -> strings.ToUpper k = k.
Proof.
  unfold privilegeKeywords. rewrite existsb_exists. intros (x & Hx & E). breflect. subst x.
  assert (H : forallb (fun k => String.eqb (strings.ToUpper k) k) privilegeKeywordList = true) by done.
  rewrite forallb_forall in H. by apply String.eqb_eq, H.
Qed.

Lemma display_not_keyword n : privilegeKeywords (display n) = false.
Proof.
  unfold display. destruct (_ && _) eqn:E.
  - breflect. destruct (privilegeKeywords n) eqn:Ek; [|done]. rewrite (keyword_upper n Ek) in H0. congruence.
  - destruct (privilegeKeywords (quoted n)) eqn:Ek; [|done]. pose proof (quoted_not_keyword n) as H.
    rewrite (keyword_upper _ Ek) in H. congruence.
Qed.

Lemma display_not_ON n : display n <> "ON".
Proof. intros E. pose proof (display_not_keyword n) as H. by rewrite E in H. Qed.

(** The tokens of a list of names, of which the last is still open. *)
Lemma tokens_names cur ns t :
  cur = EmptyString \/ cur = "{" -> ns <> [] ->
  exists l w, tokensFrom false cur (displayOf (namePieces ns) +:+ t) = l ++ tokensFrom false w t /\
    Forall (fun x => x <> "ON") l /\ w <> EmptyString /\ w <> "ON" /\ w +:+ "}" <> "ON".
Proof.
  intros Hcur Hne. revert cur Hcur. induction ns as [|n [|n' ns] IH]; intros cur Hcur; [done| |].
  - exists [], (cur +:+ display n). change (displayOf (namePieces [n])) with (display n +:+ EmptyString).
    rewrite string_app_nil_r, tokens_display. split; [done|]. split; [done|].
    destruct (display_head n) as (c & u & E & Hc). pose proof (display_not_ON n) as Hon. rewrite E in Hon |- *.
    destruct Hcur as [-> | ->]; cbn; (split; [done|]); (split; [done|]); [|done].
    intros [= -> E']. destruct u as [|d [|d' u]]; done.
  - destruct (IH ltac:(done) EmptyString (or_introl eq_refl)) as (l & w & E & Hl & Hw).
    exists ((cur +:+ display n) :: "," :: l), w. split; [|split; [|exact Hw]].
    + change (displayOf (namePieces (n :: n' :: ns))) with (display n +:+ ", " +:+ displayOf (namePieces (n' :: ns))).
      rewrite !string_app_assoc, tokens_display.
      assert (Hc : cur +:+ display n <> EmptyString).
      { pose proof (display_ne n). by destruct Hcur as [-> | ->]; destruct (display n). }
      rewrite tokens_lit by done. change (litWords ?c ", ") with (flushWord c [","], EmptyString). cbn [fst snd].
      rewrite E. by destruct (cur +:+ display n).
    + constructor; [|by constructor]. destruct Hcur as [-> | ->]; [apply display_not_ON|done].
Qed.

Lemma scan_skip scopes l rest :
  Forall (fun x => x <> "ON") l -> scanFrom scopes false (l ++ rest) = scanFrom scopes false rest.
Proof.
  induction 1 as [|x l Hx _ IH]; [done|]. cbn [app scanFrom andb].
  by rewrite (proj2 (String.eqb_neq _ _) Hx), IH.
Qed.

Lemma scan_none scopes l : Forall (fun x => x <> "ON") l -> scanFrom scopes false l = mkScope [] false.
Proof. intros H. rewrite <-(app_nil_r l). by rewrite scan_skip. Qed.

(** ** Reading a name back *)

Lemma parseName_escaped k n :
  (k + String.length n <> 0)%nat -> parseNameFrom true k (escapeBackticks n +:+ "`") = Some n.
Proof.
  revert k. induction n as [|c n IH]; intros k Hk.
  - cbn in *. destruct (Nat.eqb_spec k 0); [lia|done].
  - rewrite escape_cons. destruct (Ascii.eqb_spec c backtick) as [->|Hc]; cbn.
    { rewrite !Ascii.eqb_refl. cbn. by rewrite IH by lia. }
    rewrite (proj2 (Ascii.eqb_neq _ _) Hc). cbn. by rewrite IH by lia.
Qed.

Lemma parseName_quoted n : n <> EmptyString -> parseName (quoted n) = Some n.
Proof. intros Hn. unfold parseName, quoted. cbn. apply parseName_escaped. by destruct n. Qed.

Lemma parseName_simple n : simpleIdentifier n = true -> parseName n = Some n.
Proof.
  intros H. pose proof (simple_identChars n H) as Hn. unfold parseName.
  assert (Hk : forall k, (k + String.length n <> 0)%nat -> parseNameFrom false k n = Some n).
  { clear H. induction n as [|c n IH]; intros k Hk.
    - cbn in *. destruct (Nat.eqb_spec k 0); [lia|done].
    - simpl in Hn. breflect. destruct (identChar_plain c H) as (E1 & _ & _ & E4). cbn. rewrite E1, E4.
      by rewrite IH by (done || lia). }
  apply Hk. by destruct n.
Qed.

Lemma parseName_display n : n <> EmptyString -> parseName (display n) = Some n.
Proof.
  intros Hn. unfold display. destruct (_ && _) eqn:E; [|by apply parseName_quoted]. breflect. by apply parseName_simple.
Qed.

Lemma display_not_separator n : listSeparator (display n) = false.
Proof.
  destruct (display_head n) as (c & u & -> & Hc). unfold listSeparator. apply orb_false_iff.
  split; apply String.eqb_neq; intros [= -> _]; by destruct Hc.
Qed.

(** ** What a scope clause names *)

(** The pieces of the target of a rule and of its segment. *)
Definition targetPiece (t : string) : piece := if String.eqb t "*" then Lit "*" else Nam t.

Definition listPieces (lit : string) (ns : list string) : list piece :=
  if (length ns =? 1)%nat && String.eqb (nth 0 ns EmptyString) "*" then [Lit (lit +:+ "*")]
  else Lit lit :: namePieces ns.

Definition targetNames (t : string) : list string := if String.eqb t "*" then [] else [t].

(** Words that close the target's list of names. *)
Definition segmentLit (s : string) : Prop := s = " NODES " \/ s = " RELATIONSHIPS " \/ s = " ELEMENTS ".

Lemma tail_tokens w role :
  w <> EmptyString ->
  tokensFrom false w (displayOf [Lit " TO "; Nam role]) = [w; "TO"; display role].
Proof.
  intros Hw. rewrite displayOf_cons, tokens_lit by done. cbn -[display displayOf]. destruct w as [|c w]; [done|].
  rewrite displayOf_cons. cbn [pieceDisplay flushWord app]. rewrite tokens_display.
  change (displayOf []) with EmptyString. cbn. pose proof (display_ne role). by destruct (display role).
Qed.

Lemma segment_words lit w :
  segmentLit lit -> w <> EmptyString ->
  noBacktick lit = true /\ noBacktick (lit +:+ "*") = true /\
  exists k, privilegeKeywords k = true /\ k <> "ON" /\
    litWords w lit = ([w; k], EmptyString) /\ litWords w (lit +:+ "*") = ([w; k], "*").
Proof.
  intros Hlit Hw. destruct w as [|c w]; [done|].
  destruct Hlit as [->|[->| ->]]; (split; [done|]); (split; [done|]);
    [exists "NODES"|exists "RELATIONSHIPS"|exists "ELEMENTS"]; done.
Qed.

(** What follows the target names nothing: its first token is a keyword and none
    is ON. *)
Lemma rest_tokens w segment role :
  w <> EmptyString ->
  segment = [] \/ (exists lit ns, segmentLit lit /\ ns <> [] /\ segment = listPieces lit ns) ->
  exists k l, tokensFrom false w (displayOf (segment ++ [Lit " TO "; Nam role])) = w :: k :: l /\
    privilegeKeywords k = true /\ Forall (fun x => x <> "ON") (k :: l).
Proof.
  intros Hw [->|(lit & ns & Hlit & Hne & ->)].
  - exists "TO", [display role]. rewrite <-tail_tokens by done. split; [done|]. split; [done|].
    repeat constructor; [done|]. apply display_not_ON.
  - destruct (segment_words lit w Hlit Hw) as (Hb & Hb' & k & Hk & Hon & E1 & E2). exists k.
    unfold listPieces. destruct (_ && _) eqn:Estar; rewrite displayOf_app.
    + exists ["*"; "TO"; display role]. change (displayOf [Lit ?s]) with (s +:+ EmptyString).
      rewrite string_app_nil_r, tokens_lit, E2 by done. cbn [fst snd]. rewrite tail_tokens by done.
      split; [done|]. split; [done|]. repeat constructor; try done. apply display_not_ON.
    + rewrite displayOf_cons, string_app_assoc. cbn [pieceDisplay]. rewrite tokens_lit, E1 by done. cbn [fst snd].
      destruct (tokens_names EmptyString ns (displayOf [Lit " TO "; Nam role]) (or_introl eq_refl) Hne)
        as (l & w' & E & Hl & Hw' & Hon' & _).
      exists (l ++ [w'; "TO"; display role]). rewrite E, tail_tokens by done. split; [done|]. split; [done|].
      constructor; [done|]. apply Forall_app. split; [done|]. repeat constructor; try done. apply display_not_ON.
Qed.

(** ** The statement of a rule *)

(** The actions the API accepts in grant and deny. *)
Definition privilegeActions : list string := ["ACCESS"; "TRAVERSE"; "READ"; "MATCH"; "WRITE"].

Definition ruleVerb (r : PrivilegeRule) : string := if given (pr_Deny r) then "DENY" else "GRANT".

Definition readsProperties (action : string) : bool := String.eqb action "READ" || String.eqb action "MATCH".

Definition scopeLit (action : string) : string := if String.eqb action "ACCESS" then " ON DATABASE " else " ON GRAPH ".

Definition scopeWord (action : string) : string := if String.eqb action "ACCESS" then "DATABASE" else "GRAPH".

Definition headPieces (verb action : string) (properties : list string) : list piece :=
  let start := verb +:+ " " +:+ action in
  let scope := scopeLit action in
  if negb (readsProperties action) then [Lit (start +:+ scope)]
  else if (length properties =? 1)%nat && String.eqb (nth 0 properties EmptyString) "*"
  then [Lit (start +:+ " {*}" +:+ scope)]
  else Lit (start +:+ " {") :: namePieces properties ++ [Lit ("}" +:+ scope)].

Definition segmentPieces (r : PrivilegeRule) : list piece :=
  match pr_Nodes r, pr_Relationships r, pr_Elements r with
  | _ :: _, _, _ => listPieces " NODES " (pr_Nodes r)
  | [], _ :: _, _ => listPieces " RELATIONSHIPS " (pr_Relationships r)
  | [], [], _ :: _ => listPieces " ELEMENTS " (pr_Elements r)
  | [], [], [] => []
  end.

Definition ruleScope (r : PrivilegeRule) : string :=
  if String.eqb (ruleAction r) "ACCESS" then pr_OnDatabase r else pr_OnGraph r.

Definition rulePieces (r : PrivilegeRule) (role : string) : list piece :=
  headPieces (ruleVerb r) (ruleAction r) (pr_Properties r) ++ targetPiece (ruleScope r)
    :: segmentPieces r ++ [Lit " TO "; Nam role].

(** A rule that renders has one verb, one scope of its action's kind, and the
    properties its action needs. *)
Lemma ruleProblems_none r :
  PrivilegeRuleProblems r = [] -> ruleAction r ∈ privilegeActions ->
  (if given (pr_Deny r) then pr_Deny r else pr_Grant r) = ruleAction r /\
  given (ruleScope r) = true /\ (if String.eqb (ruleAction r) "ACCESS" then pr_OnGraph r else pr_OnDatabase r) = EmptyString /\
  (readsProperties (ruleAction r) = true -> pr_Properties r <> []).
Proof.
  intros H Ha. unfold PrivilegeRuleProblems in H. apply app_eq_nil in H as [H1 H].
  apply app_eq_nil in H as [H2 H]. do 3 apply app_eq_nil in H as [_ H]. apply app_eq_nil in H as [H3 _].
  assert (Hg : given (ruleAction r) = true) by (unfold privilegeActions in Ha; repeat apply elem_of_cons in Ha as [->|Ha]; try done; by apply elem_of_nil in Ha).
  split_and!.
  - unfold ruleAction, given in *. by destruct (String.eqb (pr_Grant r) _), (String.eqb (pr_Deny r) _).
  - unfold ruleScope in *. rewrite Hg in H2.
    by destruct (String.eqb (ruleAction r) "ACCESS"), (given (pr_OnDatabase r)), (given (pr_OnGraph r)).
  - rewrite Hg in H2. unfold given in H2.
    destruct (String.eqb (ruleAction r) "ACCESS"), (String.eqb_spec (pr_OnDatabase r) EmptyString),
      (String.eqb_spec (pr_OnGraph r) EmptyString); try done.
  - unfold readsProperties. intros Hr Hp. rewrite Hp in H3. clear H1 H2.
    destruct (String.eqb_spec (ruleAction r) "ACCESS") as [E|_]; [by rewrite E in Hr|].
    destruct (String.eqb_spec (ruleAction r) "WRITE") as [E|_]; [by rewrite E in Hr|].
    destruct (String.eqb_spec (ruleAction r) "TRAVERSE") as [E|_]; [by rewrite E in Hr|].
    rewrite Hr in H3. done.
Qed.

Lemma nameList_text lit ns : lit +:+ nameList ns = textOf (listPieces lit ns).
Proof.
  unfold nameList, listPieces. destruct (_ && _).
  - change (textOf [Lit ?s]) with (s +:+ EmptyString). by rewrite string_app_nil_r.
  - change (textOf (Lit lit :: ?k)) with (lit +:+ textOf k). by rewrite textOf_names.
Qed.

Lemma head_text verb action properties :
  textOf (headPieces verb action properties) =
  verb +:+ " " +:+ action +:+ (if readsProperties action then " {" +:+ nameList properties +:+ "}" else EmptyString)
  +:+ scopeLit action.
Proof.
  unfold headPieces. set (scope := scopeLit action).
  destruct (readsProperties action); cbn [negb].
  - unfold nameList. destruct (_ && _).
    + change (textOf [Lit ?s]) with (s +:+ EmptyString). rewrite string_app_nil_r, !string_app_assoc. done.
    + change (textOf (Lit ?s :: ?k)) with (s +:+ textOf k). rewrite textOf_app, textOf_names, !string_app_assoc.
      change (textOf [Lit ?s]) with (s +:+ EmptyString). by rewrite string_app_nil_r.
  - change (textOf [Lit ?s]) with (s +:+ EmptyString). by rewrite string_app_nil_r, !string_app_assoc.
Qed.

Lemma render_pieces r role stmt :
  ruleAction r ∈ privilegeActions -> RenderPrivilegeRule r role = Ok stmt ->
  PrivilegeRuleProblems r = [] /\ stmt = textOf (rulePieces r role).
Proof.
  intros Ha. unfold RenderPrivilegeRule. destruct (PrivilegeRuleProblems r) as [|[]] eqn:E; [|done].
  destruct (ruleProblems_none r E Ha) as (-> & _). intros [= <-]. split; [done|].
  unfold rulePieces. rewrite textOf_app, head_text, !string_app_assoc. fold (ruleVerb r). fold (readsProperties (ruleAction r)).
  do 4 f_equal. change (textOf (?p :: ?k)) with (pieceText p +:+ textOf k). rewrite textOf_app.
  change (textOf [Lit " TO "; Nam role]) with (" TO " +:+ quoted role +:+ EmptyString). rewrite string_app_nil_r.
  assert (Ht : pieceText (targetPiece (ruleScope r)) = nameOrAll (ruleScope r))
    by (unfold targetPiece, nameOrAll; by destruct (String.eqb _ _)).
  assert (Hs : textOf (segmentPieces r) = match pr_Nodes r, pr_Relationships r, pr_Elements r with
    | _ :: _, _, _ => " NODES " +:+ nameList (pr_Nodes r)
    | [], _ :: _, _ => " RELATIONSHIPS " +:+ nameList (pr_Relationships r)
    | [], [], _ :: _ => " ELEMENTS " +:+ nameList (pr_Elements r)
    | [], [], [] => EmptyString end).
  { unfold segmentPieces. destruct (pr_Nodes r), (pr_Relationships r), (pr_Elements r); by rewrite ?nameList_text. }
  rewrite Ht, Hs. unfold ruleScope, scopeLit. destruct (String.eqb (ruleAction r) "ACCESS"); by rewrite ?string_app_assoc.
Qed.

(** The segment of a rule: none, or one list of names. *)
Definition segmentOf (ps : list piece) : Prop :=
  ps = [] \/ exists lit ns, segmentLit lit /\ ns <> [] /\ ps = listPieces lit ns.

Lemma segmentOf_rule r : segmentOf (segmentPieces r).
Proof.
  unfold segmentOf, segmentLit, segmentPieces.
  destruct (pr_Nodes r) as [|n l]; [|right; exists " NODES ", (n :: l); auto].
  destruct (pr_Relationships r) as [|n l]; [|right; exists " RELATIONSHIPS ", (n :: l); auto].
  destruct (pr_Elements r) as [|n l]; [by left|right; exists " ELEMENTS ", (n :: l); auto].
Qed.

Definition startsLit (ps : list piece) : Prop := match ps with Nam _ :: _ => False | _ => True end.

Lemma piecesOK_segment ps role :
  segmentOf ps -> piecesOK false (ps ++ [Lit " TO "; Nam role]) = true /\ startsLit (ps ++ [Lit " TO "; Nam role]).
Proof.
  intros [->|(lit & ns & Hlit & Hne & ->)]; [done|]. unfold listPieces. destruct (_ && _); cbn [app].
  - split; [|done]. by destruct Hlit as [->|[->| ->]].
  - split; [|done]. cbn [piecesOK]. destruct Hlit as [->|[->| ->]]; simpl; by apply piecesOK_names.
Qed.

Lemma piecesOK_target p t ps :
  piecesOK false ps = true -> startsLit ps -> piecesOK p (targetPiece t :: ps) = true.
Proof. intros Hps Hs. unfold targetPiece. destruct (String.eqb t "*"); [done|]. cbn. by destruct ps as [|[] ?]. Qed.

Lemma verb_cases r : ruleVerb r = "GRANT" \/ ruleVerb r = "DENY".
Proof. unfold ruleVerb. destruct (given _); auto. Qed.

(** Case analysis on the verb and the action of a rule. *)
Ltac action_cases Hv Ha :=
  destruct Hv as [-> | ->]; unfold privilegeActions in Ha;
  repeat (apply elem_of_cons in Ha as [-> | Ha]); try (by apply elem_of_nil in Ha).

Lemma piecesOK_head verb action properties k :
  verb = "GRANT" \/ verb = "DENY" -> action ∈ privilegeActions ->
  (readsProperties action = true -> properties <> []) -> (forall p, piecesOK p k = true) ->
  piecesOK false (headPieces verb action properties ++ k) = true.
Proof.
  intros Hv Ha Hp Hk. unfold headPieces. destruct (_ && _) eqn:Estar.
  - action_cases Hv Ha; simpl; apply Hk.
  - destruct (readsProperties action) eqn:Er; cbn [negb]; [|action_cases Hv Ha; done || apply Hk].
    cbn [app]. rewrite <-app_assoc. specialize (Hp eq_refl).
    assert (Hok : piecesOK false (namePieces properties ++ [Lit ("}" +:+ scopeLit action)] ++ k) = true)
      by (apply piecesOK_names; [done..|]; unfold scopeLit; destruct (String.eqb action "ACCESS"); apply Hk).
    action_cases Hv Ha; try done; exact Hok.
Qed.

Lemma start_words verb action :
  verb = "GRANT" \/ verb = "DENY" -> action ∈ privilegeActions ->
  let start := verb +:+ " " +:+ action in
  (noBacktick (start +:+ " {") = true /\ litWords EmptyString (start +:+ " {") = ([verb; action], "{")) /\
  (noBacktick (start +:+ scopeLit action) = true /\
   litWords EmptyString (start +:+ scopeLit action) = ([verb; action; "ON"; scopeWord action], EmptyString)) /\
  (noBacktick (start +:+ " {*}" +:+ scopeLit action) = true /\
   litWords EmptyString (start +:+ " {*}" +:+ scopeLit action) = ([verb; action; "{*}"; "ON"; scopeWord action], EmptyString)) /\
  verb <> "ON" /\ action <> "ON" /\ scopeKeywords (scopeWord action) = true.
Proof. intros Hv Ha start. subst start. action_cases Hv Ha; split_and!; done. Qed.

Lemma close_words action w :
  noBacktick ("}" +:+ scopeLit action) = true /\
  litWords w ("}" +:+ scopeLit action) = ([w +:+ "}"; "ON"; scopeWord action], EmptyString).
Proof.
  unfold scopeLit, scopeWord. destruct (String.eqb action "ACCESS"); (split; [done|]);
    change (litWords w _) with (flushWord (w +:+ "}") ["ON"; "DATABASE"], EmptyString)
    || change (litWords w _) with (flushWord (w +:+ "}") ["ON"; "GRAPH"], EmptyString); by destruct w.
Qed.

Lemma head_tokens verb action properties t :
  verb = "GRANT" \/ verb = "DENY" -> action ∈ privilegeActions ->
  (readsProperties action = true -> properties <> []) ->
  exists l, tokensFrom false EmptyString (displayOf (headPieces verb action properties) +:+ t) =
      l ++ "ON" :: scopeWord action :: tokensFrom false EmptyString t /\
    Forall (fun x => x <> "ON") l /\ scopeKeywords (scopeWord action) = true.
Proof.
  intros Hv Ha Hp. destruct (start_words verb action Hv Ha) as ((B1 & W1) & (B2 & W2) & (B3 & W3) & N1 & N2 & Hs).
  unfold headPieces. destruct (readsProperties action); cbn [negb].
  - destruct (_ && _).
    + exists [verb; action; "{*}"]. change (displayOf [Lit ?s]) with (s +:+ EmptyString).
      rewrite string_app_nil_r, tokens_lit, W3 by done.
      split; [done|]. split; [by repeat constructor|done].
    + specialize (Hp eq_refl). rewrite displayOf_cons, displayOf_app, string_app_assoc. cbn [pieceDisplay].
      rewrite tokens_lit, W1 by done. cbn [fst snd].
      destruct (tokens_names "{" properties (displayOf [Lit ("}" +:+ scopeLit action)] +:+ t) (or_intror eq_refl) Hp)
        as (l & w & E & Hl & Hw & Hon & Hon').
      exists (verb :: action :: l ++ [w +:+ "}"]). rewrite string_app_assoc, E.
      change (displayOf [Lit ?s]) with (s +:+ EmptyString). destruct (close_words action w) as [B4 W4].
      rewrite string_app_nil_r, tokens_lit, W4 by done. cbn [fst snd]. split; [|split; [|done]].
      * cbn. by rewrite <-app_assoc.
      * repeat constructor; try done. apply Forall_app. split; [done|]. by repeat constructor.
  - exists [verb; action]. change (displayOf [Lit ?s]) with (s +:+ EmptyString).
    rewrite string_app_nil_r, tokens_lit, W2 by done. split; [done|]. split; [by repeat constructor|done].
Qed.

Lemma scan_names w k l :
  privilegeKeywords k = true -> Forall (fun x => x <> "ON") (k :: l) -> privilegeKeywords w = false ->
  scanFrom scopeKeywords true (w :: k :: l) =
  if listSeparator w then mkScope [] false
  else match parseName w with Some name => mkScope [name] false | None => mkScope [] true end.
Proof.
  intros Hk Hl Hw. inversion Hl as [|? ? Hon Hrest]; subst. cbn [scanFrom]. rewrite Hw, Hk. cbn [negb andb].
  rewrite (proj2 (String.eqb_neq _ _) Hon), (scan_none _ _ Hrest).
  by destruct (listSeparator w), (parseName w).
Qed.

(** The scope of the statement a rule renders to is the rule's. *)
Lemma rule_scan r role :
  PrivilegeRuleProblems r = [] -> ruleAction r ∈ privilegeActions ->
  let tokens := privilegeTokens (displayOf (rulePieces r role)) in
  scanFrom scopeKeywords false tokens = mkScope (targetNames (ruleScope r)) false /\ existsb (String.eqb "ON") tokens = true.
Proof.
  intros Hp Ha. destruct (ruleProblems_none r Hp Ha) as (_ & Hg & _ & Hprop). cbv zeta. unfold rulePieces, privilegeTokens.
  rewrite displayOf_app. set (tl := targetPiece _ :: _).
  destruct (head_tokens (ruleVerb r) (ruleAction r) (pr_Properties r) (displayOf tl) (verb_cases r) Ha Hprop)
    as (l & -> & Hl & Hs).
  split; [|rewrite existsb_app; cbn; by rewrite orb_true_r].
  rewrite scan_skip by done. cbn [scanFrom andb]. rewrite Hs. change (String.eqb "ON" "ON") with true.
  assert (Hd : existsb (String.eqb (scopeWord (ruleAction r))) ["DEFAULT"; "HOME"; "DBMS"] = false)
    by (unfold scopeWord; by destruct (String.eqb _ _)).
  rewrite Hd. unfold tl. rewrite displayOf_cons. unfold targetPiece, targetNames.
  destruct (String.eqb_spec (ruleScope r) "*") as [_|Hstar]; cbn [pieceDisplay].
  - rewrite tokens_lit by done. change (litWords EmptyString "*") with (@nil string, "*"). cbn [fst snd app].
    destruct (rest_tokens "*" (segmentPieces r) role ltac:(done) (segmentOf_rule r)) as (k & m & -> & Hk & Hm).
    by rewrite scan_names.
  - rewrite tokens_display. cbn [String.append].
    destruct (rest_tokens (display (ruleScope r)) (segmentPieces r) role (display_ne _) (segmentOf_rule r)) as (k & m & -> & Hk & Hm).
    rewrite scan_names, display_not_separator, parseName_display by (done || apply display_not_keyword || by intros E; rewrite E in Hg). done.
Qed.

Lemma textOf_snoc ps n : exists v, textOf (ps ++ [Nam n]) = v +:+ "`".
Proof.
  exists (textOf ps +:+ "`" +:+ escapeBackticks n). rewrite textOf_app, !string_app_assoc.
  change (textOf [Nam n]) with (quoted n +:+ EmptyString). by rewrite string_app_nil_r.
Qed.

Lemma rule_canonical r role :
  PrivilegeRuleProblems r = [] -> ruleAction r ∈ privilegeActions ->
  CanonicalisePrivilegeStatement (textOf (rulePieces r role)) = displayOf (rulePieces r role).
Proof.
  intros Hp Ha. destruct (ruleProblems_none r Hp Ha) as (_ & _ & _ & Hprop).
  destruct (piecesOK_segment (segmentPieces r) role (segmentOf_rule r)) as [Hok Hs].
  assert (Hall : piecesOK false (rulePieces r role) = true)
    by (apply piecesOK_head; [apply verb_cases|done..|intros p; by apply piecesOK_target]).
  destruct (textOf_snoc (headPieces (ruleVerb r) (ruleAction r) (pr_Properties r) ++ targetPiece (ruleScope r) ::
    segmentPieces r ++ [Lit " TO "]) role) as [v Hv].
  rewrite <-app_assoc in Hv. cbn [app] in Hv. rewrite <-app_assoc in Hv. fold (rulePieces r role) in Hv.
  assert (Hc : exists c u, textOf (rulePieces r role) = String c u /\ strings.isSpace c = false).
  { unfold rulePieces. rewrite textOf_app, head_text, !string_app_assoc.
    destruct (verb_cases r) as [-> | ->]; cbn [String.append]; eauto. }
  destruct Hc as (c & u & Hc & Hsp). by apply (canonical_statement _ c u v).
Qed.

Definition ruleTargets (r : PrivilegeRule) : list string :=
  match PrivilegeRuleTarget r with EmptyString => [] | t => [t] end.

Lemma ruleTargets_scope r :
  PrivilegeRuleProblems r = [] -> ruleAction r ∈ privilegeActions -> targetNames (ruleScope r) = ruleTargets r.
Proof.
  intros Hp Ha. destruct (ruleProblems_none r Hp Ha) as (_ & Hg & Ho & _).
  unfold ruleTargets, PrivilegeRuleTarget, targetNames, ruleScope in *.
  destruct (String.eqb (ruleAction r) "ACCESS"); rewrite ?Ho; [rewrite Hg|cbn [given String.eqb negb]];
    (destruct (String.eqb _ "*"); [done|]); unfold given in Hg; by destruct (pr_OnDatabase r), (pr_OnGraph r).
Qed.

(** C7: the database of a structured rule is the one its statement is scoped to,
    whatever characters the database, the labels, the properties and the role
    have: the controller reads back from the rendered Cypher exactly the name the
    rule gives ("*" names none), and reads it whole, so no name can widen or
    redirect a grant. *)
Theorem RenderPrivilegeRule_scope (r : PrivilegeRule) (role stmt : string) :
  ruleAction r ∈ privilegeActions -> RenderPrivilegeRule r role = Ok stmt ->
  PrivilegeDatabaseTargets stmt = ruleTargets r /\ PrivilegeAliasDependence stmt = (ruleTargets r, false).
Proof.
  intros Ha Hr. destruct (render_pieces r role stmt Ha Hr) as [Hp ->].
  unfold PrivilegeDatabaseTargets, PrivilegeAliasDependence, scanPrivilegeScopes.
  rewrite rule_canonical by done. destruct (rule_scan r role Hp Ha) as [E1 E2]. rewrite E2, E1.
  cbn [ps_names ps_unreadable]. rewrite ruleTargets_scope by done. split; [done|].
  clear E1. revert E2. by destruct (displayOf (rulePieces r role)).
Qed.

Lemma RenderPrivilegeRule_scope_witness :
  PrivilegeDatabaseTargets "GRANT READ {`a} ON GRAPH b`} ON GRAPH `sales`` TO x` NODES `On`, `B` TO `r`" = ["sales` TO x"] /\
  PrivilegeAliasDependence "GRANT READ {`a} ON GRAPH b`} ON GRAPH `sales`` TO x` NODES `On`, `B` TO `r`" = (["sales` TO x"], false).
Proof.
  apply (RenderPrivilegeRule_scope (mkPrivilegeRule "READ" EmptyString EmptyString "sales` TO x" ["On"; "B"] [] []
    ["a} ON GRAPH b"]) "r"); [by apply (bool_decide_unpack _); vm_compute|reflexivity].
Defined.
