(* ===== verification/TargetWait.v ===== *)
(** Waiting for the cluster an object depends on, and what an object announces
    while something stays wrong: the wait on a target that is not ready or cannot
    be reached (src/internal/controller/target_wait.go), the quiet retry of a
    transient error (transient_retry.go) and the advisory warnings
    (advisory_warnings.go). What the driver's error values say (not reachable,
    transient, refused for good) are fields of [clientError]; time.Now() is an
    argument. *)
From S2P Require Import Prelude GoStrings ClusterTypes Conditions.

Open Scope Z_scope.

(** An error of a call: its text, targetUnreachable, IsTransientError, and
    isPermanentServerRejection or lastingStatusWriteFailure of it. *)
Record clientError := mkClientError {
  e_msg : string;
  e_unreachable : bool;
  e_transient : bool;
  e_permanent : bool
}.

Definition plainError (msg : string) : clientError := mkClientError msg false false false.

(** [fmt.Errorf("prefix: %w", err)] *)
Definition wrapClient (prefix : string) (e : clientError) : clientError :=
  mkClientError (prefix +:+ ": " +:+ e_msg e) (e_unreachable e) (e_transient e) (e_permanent e).

Definition ConditionTypeClusterNotReady : string := "ClusterNotReady".
Definition ConditionReasonClusterNotReady : string := "ClusterNotReady".
Definition ConditionReasonClusterUnreachable : string := "ClusterUnreachable".
Definition ConditionReasonSecretPending : string := "SecretPending".
Definition EventReasonClusterNotFound : string := "ClusterNotFound".
Definition EventReasonConnectionFailed : string := "ConnectionFailed".

Definition PhaseReadyName : string := "Ready".
Definition PhasePendingName : string := "Pending".

Definition targetUnreachableGrace : Z := 5 * minute.

(** * A target that cannot serve *)

Definition readyAtGeneration (readyPhase phase : string) (conditions : list Condition) (generation : Z) : bool :=
  if negb (String.eqb phase readyPhase) then false
  else match findCondition conditions ConditionTypeReady with
       | Some ready => String.eqb (c_Status ready) ConditionTrue && (c_ObservedGeneration ready =? generation)
       | None => false
       end.

Definition settledAtGeneration (phase : string) (conditions : list Condition) (generation : Z) : bool :=
  if readyAtGeneration PhaseReadyName phase conditions generation then true
  else if String.eqb phase EmptyString || String.eqb phase "Ready" then false
  else match findCondition conditions ConditionTypeReady with
       | Some ready =>
           if negb (String.eqb (c_Status ready) ConditionFalse) || negb (c_ObservedGeneration ready =? generation)
           then false
           else negb (existsb (String.eqb (c_Reason ready))
                        [ConditionReasonClusterNotReady; ConditionReasonClusterUnreachable;
                         EventReasonClusterNotFound; ConditionReasonSecretPending])
       | None => false
       end.

(** The conditions, whether the wait has lasted, and whether the object keeps
    its Ready. *)
Definition noteTargetWait (now : Z) (conditions : list Condition) (phase : string) (generation : Z)
    (readyPhase reason msg : string) : list Condition * (bool * bool) :=
  let conditions :=
    (SetNamedCondition now conditions ConditionTypeClusterNotReady generation ConditionTrue reason msg).1 in
  let lasting :=
    String.eqb reason ConditionReasonClusterUnreachable
    && match findCondition conditions ConditionTypeClusterNotReady with
       | Some c => targetUnreachableGrace <? now - c_LastTransitionTime c
       | None => false
       end in
  (conditions, if lasting then (true, false)
               else (false, readyAtGeneration readyPhase phase conditions generation)).

(** The conditions, phase and message after it, and whether the wait has
    lasted. *)
Definition recordTargetWait (now : Z) (conditions : list Condition) (phase message : string) (generation : Z)
    (reason msg : string) : list Condition * string * string * bool :=
  let '(conditions, (lasting, _)) := noteTargetWait now conditions phase generation PhaseReadyName reason msg in
  if lasting then (conditions, phase, message, true)
  else if settledAtGeneration phase conditions generation then (conditions, phase, message, false)
  else ((SetReadyCondition now conditions generation ConditionFalse reason msg).1, PhasePendingName, msg, false).

Definition targetRefDisplay (clusterRef : string) : string := "clusterRef " +:+ fmt.q clusterRef.

Definition targetUnreachableMessage (clusterRef : string) (err : clientError) : string :=
  targetRefDisplay clusterRef +:+ " reads Ready but cannot be reached: " +:+ e_msg err.

(** The target answered: the conditions, and whether that changed them. *)
Definition targetAnswered (now : Z) (conditions : list Condition) (generation : Z) : list Condition * bool :=
  let recorded :=
    match findCondition conditions ConditionTypeClusterNotReady with
    | Some before => String.eqb (c_Status before) ConditionFalse && String.eqb (c_Reason before) "ClusterReady"
                     && String.eqb (c_Message before) EmptyString && (c_ObservedGeneration before =? generation)
    | None => false
    end in
  if recorded then (conditions, false)
  else ((SetNamedCondition now conditions ConditionTypeClusterNotReady generation ConditionFalse "ClusterReady" EmptyString).1, true).

(** * Transient errors *)

Definition transientRetry : Z := 5 * second.
Definition transientStreakGap : Z := 2 * minute.

Definition statementTransient (err : clientError) : bool := negb (e_unreachable err) && e_transient err.

(** An error a database kind waits out: not reachable, or to be retried. *)
Definition targetAway (err : clientError) : bool :=
  if e_unreachable err || statementTransient err then true
  else strings.Contains (e_msg err) "Neo.TransientError."
       && negb (strings.Contains (e_msg err) "Neo.TransientError.Transaction.Terminated")
       && negb (strings.Contains (e_msg err) "Neo.TransientError.Transaction.LockClientStopped").

Definition targetAwayMessage (clusterRef : string) (err : clientError) : string :=
  if e_unreachable err then targetUnreachableMessage clusterRef err
  else targetRefDisplay clusterRef +:+ " reads Ready but cannot serve the request: " +:+ e_msg err.

(** A [transientStreak]. *)
Record transientStreak := mkStreak { st_first : Z; st_last : Z }.

(** Whether the error is retried quietly, and the streak remembered. *)
Definition quiet (now : Z) (prev : option transientStreak) (err : clientError) : bool * option transientStreak :=
  if negb (statementTransient err) then (false, prev)
  else
    let first := match prev with
                 | Some p => if now - st_last p <=? transientStreakGap then st_first p else now
                 | None => now
                 end in
    (negb (targetUnreachableGrace <? now - first), Some (mkStreak first now)).

(** * Advisory warnings *)

Definition advisoryWarningRefresh : Z := 30 * minute.

(** One warning of a pass: the warnings the pass has taken so far, and the
    events. *)
Definition recordWarning (now : Z) (previous : gmap string Z) (acc : gmap string Z * list string) (warning : string)
  : gmap string Z * list string :=
  let '(current, events) := acc in
  match current !! warning with
  | Some _ => (current, events)
  | None =>
      match previous !! warning with
      | Some at_ =>
          if now - at_ <? advisoryWarningRefresh then (<[warning := at_]> current, events)
          else (<[warning := now]> current, events ++ [warning])
      | None => (<[warning := now]> current, events ++ [warning])
      end
  end.

(** [recordScoped] for one object, reason and scope: what is remembered
    afterwards, and the warnings announced. *)
Definition recordScoped (now : Z) (previous : gmap string Z) (warnings : list string) : gmap string Z * list string :=
  fold_left (recordWarning now previous) warnings (∅, []).

(** * An outage of the target *)

(** Passes that find the target not reachable, each at its time and with its
    message: the object's conditions, phase and message after them, and what each
    pass made of the wait. *)
Fixpoint outage (generation : Z) (passes : list (Z * string)) (st : list Condition * string * string)
  : (list Condition * string * string) * list bool :=
  match passes with
  | [] => (st, [])
  | (now, msg) :: rest =>
      let '(conditions, phase, message) := st in
      let '(st', lasting) := recordTargetWait now conditions phase message generation ConditionReasonClusterUnreachable msg in
      let '(final, verdicts) := outage generation rest st' in (final, lasting :: verdicts)
  end.

(** The wait on record: since when. *)
Definition unreachableSince (conditions : list Condition) (t : Z) : Prop :=
  exists c, findCondition conditions ConditionTypeClusterNotReady = Some c /\ c_Status c = ConditionTrue /\
    c_Reason c = ConditionReasonClusterUnreachable /\ c_LastTransitionTime c = t.

Lemma find_SetReady now cs generation status reason message t :
  ConditionTypeReady <> t -> findCondition (SetReadyCondition now cs generation status reason message).1 t = findCondition cs t.
Proof.
  intros Ht. etransitivity; [apply (find_SetNamedCondition now cs ConditionTypeReady)|]. by rewrite (proj2 (String.eqb_neq _ _) Ht).
Qed.

(** The condition a pass leaves on record: the time of the first, and nothing but
    it and Ready changes. *)
Lemma wait_step now cs phase message generation msg st' lasting :
  recordTargetWait now cs phase message generation ConditionReasonClusterUnreachable msg = (st', lasting) ->
  forall t, (unreachableSince cs t \/ (forall t', ~ unreachableSince cs t') /\ t = now) ->
  unreachableSince st'.1.1 t /\ lasting = (targetUnreachableGrace <? now - t).
Proof.
  unfold recordTargetWait, noteTargetWait. rewrite String.eqb_refl. cbn [andb].
  set (cs' := (SetNamedCondition _ _ _ _ _ _ _).1).
  assert (Hf : findCondition cs' ConditionTypeClusterNotReady =
    Some (conditionAfter now (findCondition cs ConditionTypeClusterNotReady) ConditionTypeClusterNotReady generation ConditionTrue
            ConditionReasonClusterUnreachable msg)) by (subst cs'; by rewrite find_SetNamedCondition).
  rewrite Hf. set (c := conditionAfter _ _ _ _ _ _ _) in *.
  assert (Hc : forall t, unreachableSince cs t \/ (forall t', ~ unreachableSince cs t') /\ t = now -> c_LastTransitionTime c = t).
  { intros t. subst c. unfold conditionAfter. cbn [c_LastTransitionTime].
    destruct (findCondition cs ConditionTypeClusterNotReady) as [old|] eqn:Eo.
    - destruct (String.eqb (c_Status old) ConditionTrue && _) eqn:E; breflect.
      + intros [(c & Hc & _ & _ & Ht)|[Hn _]]; [congruence|]. exfalso. apply (Hn (c_LastTransitionTime old)). by exists old.
      + intros [(c & Hc & H1 & H2 & _)|[_ ->]]; [|done]. exfalso. rewrite Eo in Hc. injection Hc as <-.
        rewrite H1, H2, !String.eqb_refl in E. done.
    - intros [(c & Hc & _)|[_ ->]]; [congruence|done]. }
  intros Hst t Ht. specialize (Hc t Ht).
  assert (Hs' : unreachableSince cs' t) by (exists c; split_and!; [done|done|done|done]).
  revert Hst. cbn [fst snd]. rewrite Hc. destruct (targetUnreachableGrace <? now - t) eqn:El; [by intros [= <- <-]|].
  destruct (settledAtGeneration phase cs' generation); intros [= <- <-]; [done|]. split; [|done].
  destruct Hs' as (c' & H1 & H2). exists c'. cbn [fst]. by rewrite find_SetReady.
Qed.

Lemma outage_from generation t0 passes st :
  unreachableSince st.1.1 t0 ->
  (outage generation passes st).2 = map (fun '(now, _) => targetUnreachableGrace <? now - t0) passes.
Proof.
  revert st. induction passes as [|[now msg] passes IH]; intros [[cs phase] message] Hs; cbn [outage map]; [done|].
  destruct (recordTargetWait _ _ _ _ _ _ _) as [st' lasting] eqn:E. destruct (wait_step _ _ _ _ _ _ _ _ E t0) as [Hs' ->]; [by left|].
  specialize (IH st' Hs'). destruct (outage generation passes st') as [final verdicts]. cbn in *. by rewrite IH.
Qed.

(** An outage is counted from its first pass. However many passes find the
    target not reachable, and however their messages differ, a pass calls the
    outage lasting exactly when the first was more than five minutes before. *)
Theorem outage_clock generation t0 msg0 passes st :
  (forall t, ~ unreachableSince st.1.1 t) ->
  (outage generation ((t0, msg0) :: passes) st).2
  = map (fun '(now, _) => targetUnreachableGrace <? now - t0) ((t0, msg0) :: passes).
Proof.
  destruct st as [[cs phase] message]. intros Hn. cbn [outage map].
  destruct (recordTargetWait _ _ _ _ _ _ _) as [st' lasting] eqn:E. destruct (wait_step _ _ _ _ _ _ _ _ E t0) as [Hs' ->]; [by right|].
  pose proof (outage_from generation t0 passes st' Hs') as IH. destruct (outage generation passes st') as [final verdicts].
  cbn in *. by rewrite IH.
Qed.

(** ** What the object keeps *)

Lemma settled_find phase cs cs' generation :
  findCondition cs' ConditionTypeReady = findCondition cs ConditionTypeReady ->
  settledAtGeneration phase cs' generation = settledAtGeneration phase cs generation.
Proof. intros H. unfold settledAtGeneration, readyAtGeneration. by rewrite H. Qed.

(** An outage does not touch the outcome an object has on record. When its
    status records one of its own for its generation, Ready or a failure, every
    pass of an outage leaves its phase, its message and its Ready condition, and
    the outcome stays on record. *)
Theorem outage_keeps_outcome generation passes conditions phase message :
  settledAtGeneration phase conditions generation = true ->
  let '(conditions', phase', message') := (outage generation passes (conditions, phase, message)).1 in
  phase' = phase /\ message' = message /\
  findCondition conditions' ConditionTypeReady = findCondition conditions ConditionTypeReady /\
  settledAtGeneration phase' conditions' generation = true.
Proof.
  revert conditions. induction passes as [|[now msg] passes IH]; intros cs Hs; cbn [outage]; [done|].
  unfold recordTargetWait, noteTargetWait. set (cs' := (SetNamedCondition _ _ _ _ _ _ _).1).
  assert (Hf : findCondition cs' ConditionTypeReady = findCondition cs ConditionTypeReady)
    by (subst cs'; by rewrite find_SetNamedCondition).
  assert (Hs' : settledAtGeneration phase cs' generation = true) by (by rewrite (settled_find _ cs)).
  specialize (IH cs' Hs'). rewrite <-Hf.
  destruct (String.eqb _ _ && _); [|rewrite Hs'];
    destruct (outage generation passes (cs', phase, message)) as [[[a b] c] verdicts]; exact IH.
Qed.

Module OutageSample.
Definition ready : Condition := mkCondition ConditionTypeReady ConditionTrue 1 0 "RoleReady" "in sync".
Definition passes : list (Z * string) := [(0, "refused"); (4 * minute, "reset"); (6 * minute, "refused")].

Lemma outage_clock_witness : (outage 1 passes ([ready], "Ready", "in sync")).2 = [false; false; true].
Proof.
  unfold passes. rewrite (outage_clock 1 0 "refused" [(4 * minute, "reset"); (6 * minute, "refused")]); [vm_compute; reflexivity|].
  intros t (c & Hc & _). vm_compute in Hc. discriminate.
Defined.

Lemma outage_keeps_outcome_witness :
  let '(conditions', phase', message') := (outage 1 passes ([ready], "Ready", "in sync")).1 in
  phase' = "Ready" /\ message' = "in sync" /\
  findCondition conditions' ConditionTypeReady = findCondition [ready] ConditionTypeReady /\
  settledAtGeneration phase' conditions' 1 = true.
Proof. apply (outage_keeps_outcome 1 passes [ready] "Ready" "in sync"). vm_compute. reflexivity. Defined.
End OutageSample.
