(* ===== verification/OwnedKeys.v ===== *)
(** Who owns a key of an object the operator shares with other writers
    (owned_keys.go): the operator records the keys it set, so that a later pass
    sets what the spec asks for now, removes what it asked for before, and leaves
    what cert-manager, an ingress controller or a user wrote. The records are
    comma-separated lists, as are those on the StatefulSet (PodTemplate.v). *)
From S2P Require Import Prelude GoStrings.

Open Scope Z_scope.

(** * Comma-separated lists *)

Definition comma : ascii := ","%char.

(** [splitCSVTokens]: the tokens of a list, trimmed, in order. *)
Definition splitCSVTokens (l : string) : list string :=
  List.filter (fun t => negb (String.eqb t EmptyString)) (strings.TrimSpace <$> strings.Split l comma).

Definition splitCSVSet (s : string) : gset string := list_to_set (splitCSVTokens s).

Definition splitOwnedKeys (csv : string) : list string :=
  if String.eqb csv EmptyString then [] else splitCSVTokens csv.

Definition ownedKeysCSV (keys : list string) : string := strings.Join (sort.Strings keys) ",".

(** * Metadata *)

Definition ownedAnnotationKeysAnnotation : string := "neo4j.com/owned-annotation-keys".
Definition ownedLabelKeysAnnotation : string := "neo4j.com/owned-label-keys".

Definition mergeOwnedStringMap (live desired : gmap string string) (previousOwned : list string) : gmap string string * list string :=
  let out := fold_left (fun out k => match desired !! k with Some _ => out | None => delete k out end) previousOwned live in
  (desired ∪ out, sort.Strings (map_to_list desired).*1).

Definition stringMapsEqual (a b : gmap string string) : bool :=
  (size a =? size b)%nat && forallb (fun kv => bool_decide (b !! kv.1 = Some kv.2)) (map_to_list a).

Record Metadata := mkMetadata { md_Annotations : gmap string string; md_Labels : gmap string string }.

(** The record of the keys owned in one map. *)
Definition stampOwned (key : string) (owned : list string) (annos : gmap string string) : gmap string string :=
  match owned with
  | [] => delete key annos
  | _ => <[key := ownedKeysCSV owned]> annos
  end.

(** The object after the pass, and whether it changed. *)
Definition applyOwnedMetadata (obj : Metadata) (desiredAnnotations desiredLabels : gmap string string) : Metadata * bool :=
  let annos := md_Annotations obj in
  let labels := md_Labels obj in
  let prevOwnedAnnos := splitOwnedKeys (default EmptyString (annos !! ownedAnnotationKeysAnnotation)) in
  let prevOwnedLabels := splitOwnedKeys (default EmptyString (annos !! ownedLabelKeysAnnotation)) in
  let '(newAnnos, ownedAnnos) := mergeOwnedStringMap annos desiredAnnotations prevOwnedAnnos in
  let '(newLabels, ownedLabels) := mergeOwnedStringMap labels desiredLabels prevOwnedLabels in
  let newAnnos := stampOwned ownedAnnotationKeysAnnotation ownedAnnos newAnnos in
  let newAnnos := stampOwned ownedLabelKeysAnnotation ownedLabels newAnnos in
  let changedAnnos := negb (stringMapsEqual annos newAnnos) in
  let changedLabels := negb (stringMapsEqual labels newLabels) in
  (mkMetadata (if changedAnnos then newAnnos else annos) (if changedLabels then newLabels else labels),
   changedAnnos || changedLabels).

(** * Lists that come back as they were written *)

(** A name a list can hold: not empty, without a comma, with no blank at its
    ends. Kubernetes' names and keys are such. *)
Definition cleanName (k : string) : bool :=
  negb (String.eqb k EmptyString) && allBytes (fun c => negb (Ascii.eqb c comma)) k && String.eqb (strings.TrimSpace k) k.

Lemma cleanName_spec k : cleanName k = true ->
  k <> EmptyString /\ allBytes (fun c => negb (Ascii.eqb c comma)) k = true /\ strings.TrimSpace k = k.
Proof.
  unfold cleanName. rewrite !andb_true_iff, negb_true_iff, String.eqb_neq, String.eqb_eq. tauto.
Qed.

Lemma splitCSVTokens_empty : splitCSVTokens EmptyString = [].
Proof. reflexivity. Qed.

Lemma splitCSVTokens_Join l : Forall (fun k => cleanName k = true) l -> splitCSVTokens (strings.Join l ",") = l.
Proof.
  intros Hl. destruct l as [|x l]; [done|]. unfold splitCSVTokens. change "," with (String comma EmptyString).
  rewrite Split_Join; [|done|eapply Forall_impl; [exact Hl|]; intros k Hk; by apply cleanName_spec in Hk as (_ & ? & _)].
  assert (strings.TrimSpace <$> (x :: l) = x :: l) as ->.
  { rewrite <- (list_fmap_id (x :: l)) at 2. apply list_fmap_ext. intros i k Hk.
    apply list_elem_of_lookup_2 in Hk. rewrite Forall_forall in Hl. by apply (cleanName_spec _ (Hl _ Hk)). }
  apply filter_all. eapply Forall_impl; [exact Hl|]. intros k Hk. apply cleanName_spec in Hk as (Hk & _).
  by apply negb_true_iff, String.eqb_neq.
Qed.

Lemma Forall_sorted (P : string -> Prop) l : Forall P l -> Forall P (sort.Strings l).
Proof. intros H. by rewrite (Strings_perm l). Qed.

(** What a record holds comes back. *)
Lemma splitOwnedKeys_CSV keys : Forall (fun k => cleanName k = true) keys -> splitOwnedKeys (ownedKeysCSV keys) = sort.Strings keys.
Proof.
  intros Hk. unfold splitOwnedKeys, ownedKeysCSV.
  destruct (String.eqb _ _) eqn:E; [|by apply splitCSVTokens_Join, Forall_sorted].
  apply String.eqb_eq in E. pose proof (splitCSVTokens_Join _ (Forall_sorted _ _ Hk)) as H. rewrite E in H. by rewrite <- H.
Qed.

Lemma splitCSVSet_CSV keys : Forall (fun k => cleanName k = true) keys -> splitCSVSet (ownedKeysCSV keys) = list_to_set keys.
Proof.
  intros Hk. unfold splitCSVSet, ownedKeysCSV. rewrite splitCSVTokens_Join by by apply Forall_sorted.
  apply set_eq. intros x. by rewrite !elem_of_list_to_set, Strings_elem.
Qed.

Lemma splitCSVTokens_clean l t : t ∈ splitCSVTokens l -> cleanName t = true.
Proof.
  unfold splitCSVTokens. intros Ht. apply list_elem_of_In, filter_In in Ht as [Ht Hne].
  apply list_elem_of_In, list_elem_of_fmap in Ht as (w & -> & Hw).
  unfold cleanName. unfold strings.TrimSpace in *. rewrite Hne, allBytes_trim by by eapply Split_elem_absent. simpl.
  apply String.eqb_eq, trimFunc_idem.
Qed.

(** * The merge *)

Lemma fold_delete (desired : gmap string string) previousOwned (live : gmap string string) k :
  fold_left (fun out k => match desired !! k with Some _ => out | None => delete k out end) previousOwned live !! k =
  match desired !! k with
  | Some _ => live !! k
  | None => if bool_decide (k ∈ previousOwned) then None else live !! k
  end.
Proof.
  revert live. induction previousOwned as [|x l IH]; intros live; cbn [fold_left].
  { rewrite bool_decide_eq_false_2 by apply not_elem_of_nil. by destruct (desired !! k). }
  rewrite IH. destruct (decide (k = x)) as [->|Hx].
  - destruct (desired !! x); [done|]. rewrite (bool_decide_eq_true_2 (x ∈ x :: l)) by apply list_elem_of_here.
    destruct (bool_decide _); [done|]. apply lookup_delete_eq.
  - assert ((match desired !! x with Some _ => live | None => delete x live end) !! k = live !! k) as ->.
    { destruct (desired !! x); [done|]. by rewrite lookup_delete_ne. }
    rewrite (bool_decide_ext (k ∈ x :: l) (k ∈ l)); [done|]. rewrite elem_of_cons. tauto.
Qed.

(** Key by key: the desired value; nothing where the operator asked for one
    before; else what was there. *)
Lemma mergeOwnedStringMap_lookup live desired previousOwned k :
  (mergeOwnedStringMap live desired previousOwned).1 !! k =
  match desired !! k with
  | Some v => Some v
  | None => if bool_decide (k ∈ previousOwned) then None else live !! k
  end.
Proof.
  unfold mergeOwnedStringMap. cbn [fst]. rewrite lookup_union, fold_delete.
  destruct (desired !! k) as [v|]; [by rewrite union_Some_l|]. by rewrite (left_id None _).
Qed.

Lemma stringMapsEqual_eq a b : stringMapsEqual a b = true <-> a = b.
Proof.
  unfold stringMapsEqual. rewrite andb_true_iff, Nat.eqb_eq, forallb_forall. split.
  - intros [Hs Hf]. assert (a ⊆ b) as Hsub.
    { apply map_subseteq_spec. intros k v Hk. specialize (Hf (k, v)). simpl in Hf. apply bool_decide_eq_true in Hf; [done|].
      apply list_elem_of_In. by apply elem_of_map_to_list. }
    apply map_eq. intros k. destruct (a !! k) as [v|] eqn:Ea; [by rewrite (lookup_weaken _ _ _ _ Ea Hsub)|].
    destruct (b !! k) as [v|] eqn:Eb; [|done]. exfalso.
    assert (a ⊂ b) as Hlt.
    { apply map_subset_alt. split; [done|]. exists k. by split. }
    apply map_subset_size in Hlt. lia.
  - intros ->. split; [done|]. intros [k v] H. apply list_elem_of_In, elem_of_map_to_list in H. by apply bool_decide_eq_true.
Qed.

(** * The operator and the other writers *)

(** A write of an object's metadata: a pass of the operator, or another party's
    write of one key. *)
Inductive metaWrite :=
| OperatorApplies (annos labels : gmap string string)
| OtherAnnotates (key : string) (value : option string)
| OtherLabels (key : string) (value : option string).

Definition setKey (key : string) (value : option string) (m : gmap string string) : gmap string string :=
  partial_alter (fun _ => value) key m.

Definition metaStep (m : Metadata) (w : metaWrite) : Metadata :=
  match w with
  | OperatorApplies annos labels => (applyOwnedMetadata m annos labels).1
  | OtherAnnotates k v => mkMetadata (setKey k v (md_Annotations m)) (md_Labels m)
  | OtherLabels k v => mkMetadata (md_Annotations m) (setKey k v (md_Labels m))
  end.

(** What it should look like: what the operator last asked for, and what the
    others wrote, side by side. *)
Record metaSpec := mkMetaSpec {
  ms_ownAnnotations : gmap string string;
  ms_ownLabels : gmap string string;
  ms_otherAnnotations : gmap string string;
  ms_otherLabels : gmap string string
}.

Definition specStep (s : metaSpec) (w : metaWrite) : metaSpec :=
  match w with
  | OperatorApplies annos labels => mkMetaSpec annos labels (ms_otherAnnotations s) (ms_otherLabels s)
  | OtherAnnotates k v => mkMetaSpec (ms_ownAnnotations s) (ms_ownLabels s) (setKey k v (ms_otherAnnotations s)) (ms_otherLabels s)
  | OtherLabels k v => mkMetaSpec (ms_ownAnnotations s) (ms_ownLabels s) (ms_otherAnnotations s) (setKey k v (ms_otherLabels s))
  end.

Definition bookkeeping (k : string) : bool :=
  String.eqb k ownedAnnotationKeysAnnotation || String.eqb k ownedLabelKeysAnnotation.

Definition ownedRecord (own : gmap string string) : option string :=
  if decide (own = ∅) then None else Some (ownedKeysCSV (map_to_list own).*1).

(** The object holds what the specification says, and the two records. *)
Definition holds (m : Metadata) (s : metaSpec) : Prop :=
  (forall k, bookkeeping k = false -> md_Annotations m !! k = (ms_ownAnnotations s ∪ ms_otherAnnotations s) !! k) /\
  md_Annotations m !! ownedAnnotationKeysAnnotation = ownedRecord (ms_ownAnnotations s) /\
  md_Annotations m !! ownedLabelKeysAnnotation = ownedRecord (ms_ownLabels s) /\
  md_Labels m = ms_ownLabels s ∪ ms_otherLabels s.

Section Sharing.
(** The keys the operator manages: it sets no other, the others set none of
    them, and the records are nobody's to set. *)
Variable managedAnnotations managedLabels : gset string.

Definition keepsApart (w : metaWrite) : Prop :=
  match w with
  | OperatorApplies annos labels => dom annos ⊆ managedAnnotations /\ dom labels ⊆ managedLabels
  | OtherAnnotates k _ => (k ∉ managedAnnotations) /\ bookkeeping k = false
  | OtherLabels k _ => k ∉ managedLabels
  end.

Definition apartNow (s : metaSpec) : Prop :=
  dom (ms_ownAnnotations s) ⊆ managedAnnotations /\ dom (ms_ownLabels s) ⊆ managedLabels /\
  dom (ms_otherAnnotations s) ## managedAnnotations /\ dom (ms_otherLabels s) ## managedLabels.

Context (Hclean : forall k, k ∈ managedAnnotations ∪ managedLabels -> cleanName k = true /\ bookkeeping k = false).

Lemma managed_clean (own : gmap string string) managed : dom own ⊆ managed -> managed ⊆ managedAnnotations ∪ managedLabels ->
  Forall (fun k => cleanName k = true) (map_to_list own).*1.
Proof.
  intros Hd Hm. apply Forall_forall. intros k ([? v] & -> & Hk)%list_elem_of_fmap. simpl.
  apply elem_of_map_to_list, elem_of_dom_2 in Hk. apply Hclean. set_solver.
Qed.

Lemma recordedKeys (own : gmap string string) managed k : dom own ⊆ managed -> managed ⊆ managedAnnotations ∪ managedLabels ->
  k ∈ splitOwnedKeys (default EmptyString (ownedRecord own)) <-> k ∈ dom own.
Proof.
  intros Hd Hm. unfold ownedRecord. destruct (decide (own = ∅)) as [->|Hne]; simpl.
  - rewrite dom_empty_L. set_solver.
  - rewrite splitOwnedKeys_CSV by by eapply managed_clean. rewrite Strings_elem, list_elem_of_fmap, elem_of_dom. split.
    + intros ([? v] & -> & Hk). apply elem_of_map_to_list in Hk. by exists v.
    + intros [v Hv]. exists (k, v). split; [done|]. by apply elem_of_map_to_list.
Qed.

Lemma stampOwned_sorted key (own : gmap string string) annos :
  stampOwned key (sort.Strings (map_to_list own).*1) annos = partial_alter (fun _ => ownedRecord own) key annos.
Proof.
  unfold stampOwned, ownedRecord. destruct (decide (own = ∅)) as [->|Hne].
  - by rewrite map_to_list_empty.
  - destruct (sort.Strings _) as [|x l] eqn:E.
    + exfalso. apply Hne. apply map_to_list_empty_iff.
      pose proof (Strings_length (map_to_list own).*1) as Hl. rewrite E, length_fmap in Hl. simpl in Hl. by destruct (map_to_list own).
    + rewrite <- E. unfold ownedKeysCSV. by rewrite (Strings_unique (sort.Strings _) (map_to_list own).*1) by apply Strings_perm.
Qed.

(** What the merge makes of a map that holds the operator's keys and the others'. *)
Lemma merge_own (live own other desired : gmap string string) managed k :
  dom own ⊆ managed -> dom other ## managed -> dom desired ⊆ managed -> managed ⊆ managedAnnotations ∪ managedLabels ->
  live !! k = (own ∪ other) !! k ->
  (mergeOwnedStringMap live desired (splitOwnedKeys (default EmptyString (ownedRecord own)))).1 !! k = (desired ∪ other) !! k.
Proof.
  intros Ho Hx Hd Hm Hl. rewrite mergeOwnedStringMap_lookup, lookup_union. destruct (desired !! k) as [v|] eqn:E.
  - by rewrite union_Some_l.
  - rewrite (left_id None _). destruct (bool_decide _) eqn:Hk;
    [apply bool_decide_eq_true in Hk|apply bool_decide_eq_false in Hk]; rewrite (recordedKeys _ managed) in Hk by done.
    + symmetry. apply not_elem_of_dom. set_solver.
    + rewrite Hl, lookup_union, (not_elem_of_dom_1 _ _ Hk). by rewrite (left_id None _).
Qed.

Lemma applyOwnedMetadata_new m desiredAnnotations desiredLabels :
  let newLabels := (mergeOwnedStringMap (md_Labels m) desiredLabels
                      (splitOwnedKeys (default EmptyString (md_Annotations m !! ownedLabelKeysAnnotation)))).1 in
  let newAnnos := partial_alter (fun _ => ownedRecord desiredLabels) ownedLabelKeysAnnotation
                    (partial_alter (fun _ => ownedRecord desiredAnnotations) ownedAnnotationKeysAnnotation
                       (mergeOwnedStringMap (md_Annotations m) desiredAnnotations
                          (splitOwnedKeys (default EmptyString (md_Annotations m !! ownedAnnotationKeysAnnotation)))).1) in
  applyOwnedMetadata m desiredAnnotations desiredLabels =
  (mkMetadata newAnnos newLabels, negb (bool_decide (md_Annotations m = newAnnos)) || negb (bool_decide (md_Labels m = newLabels))).
Proof.
  intros newLabels newAnnos. unfold applyOwnedMetadata.
  rewrite (surjective_pairing (mergeOwnedStringMap (md_Annotations m) _ _)), (surjective_pairing (mergeOwnedStringMap (md_Labels m) _ _)).
  change (mergeOwnedStringMap (md_Annotations m) ?d ?p).2 with (sort.Strings (map_to_list d).*1).
  change (mergeOwnedStringMap (md_Labels m) ?d ?p).2 with (sort.Strings (map_to_list d).*1).
  rewrite !stampOwned_sorted. fold newLabels newAnnos.
  assert (forall a b : gmap string string, stringMapsEqual a b = bool_decide (a = b)) as Heq.
  { intros a b. apply eq_true_iff_eq. by rewrite stringMapsEqual_eq, bool_decide_eq_true. }
  rewrite !Heq. f_equal. f_equal; case_bool_decide; by simpl.
Qed.

Lemma step_holds m s w : apartNow s -> keepsApart w -> holds m s -> holds (metaStep m w) (specStep s w) /\ apartNow (specStep s w).
Proof.
  intros (Ha & Hl & Hxa & Hxl) Hw (H1 & H2 & H3 & H4). destruct w as [da dl|k v|k v]; simpl in Hw.
  - destruct Hw as [Hda Hdl]. split; [|done]. cbn [metaStep specStep]. rewrite applyOwnedMetadata_new. cbn [fst].
    rewrite H2, H3, H4. split_and!; cbn [md_Annotations md_Labels ms_ownAnnotations ms_ownLabels ms_otherAnnotations ms_otherLabels].
    + intros k [Hk1 Hk2]%orb_false_iff. rewrite !lookup_partial_alter_ne by (intros <-; by rewrite String.eqb_refl in *).
      apply (merge_own _ (ms_ownAnnotations s) _ _ managedAnnotations); [done..|set_solver|]. apply H1. unfold bookkeeping. by rewrite Hk1, Hk2.
    + rewrite lookup_partial_alter_ne by done. apply lookup_partial_alter_eq.
    + apply lookup_partial_alter_eq.
    + apply map_eq. intros k. apply (merge_own _ (ms_ownLabels s) _ _ managedLabels); [done..|set_solver|done].
  - destruct Hw as [Hk Hb]. split.
    + apply orb_false_iff in Hb as [Hb1%String.eqb_neq Hb2%String.eqb_neq]. split_and!; simpl; unfold setKey.
      * intros k' Hk'. destruct (decide (k' = k)) as [->|Hne].
        -- rewrite lookup_partial_alter_eq, lookup_union, lookup_partial_alter_eq.
           by rewrite (not_elem_of_dom_1 (ms_ownAnnotations s) k), (left_id None _) by set_solver.
        -- rewrite lookup_partial_alter_ne, lookup_union, lookup_partial_alter_ne, <- lookup_union by done. by apply H1.
      * by rewrite lookup_partial_alter_ne.
      * by rewrite lookup_partial_alter_ne.
      * done.
    + split_and!; simpl; [done..| |done]. intros x Hx. destruct (decide (x = k)) as [->|Hne]; [done|].
      apply Hxa. rewrite elem_of_dom in *. unfold setKey in Hx. by rewrite lookup_partial_alter_ne in Hx.
  - split.
    + split_and!; simpl; [done..|]. rewrite H4. apply map_eq. intros k'. unfold setKey. rewrite lookup_union.
      destruct (decide (k' = k)) as [->|Hne].
      * rewrite !lookup_partial_alter_eq. by rewrite (not_elem_of_dom_1 (ms_ownLabels s) k), (left_id None _) by set_solver.
      * by rewrite !lookup_partial_alter_ne, lookup_union.
    + split_and!; simpl; [done..|]. intros x Hx. destruct (decide (x = k)) as [->|Hne]; [done|].
      apply Hxl. rewrite elem_of_dom in *. unfold setKey in Hx. by rewrite lookup_partial_alter_ne in Hx.
Qed.

Lemma steps_hold ws : forall m s, apartNow s -> Forall keepsApart ws -> holds m s ->
  holds (foldl metaStep m ws) (foldl specStep s ws) /\ apartNow (foldl specStep s ws).
Proof.
  induction ws as [|w ws IH]; intros m s Hs Hws Hm; [done|]. apply Forall_cons in Hws as [Hw Hws].
  destruct (step_holds m s w Hs Hw Hm) as [H1 H2]. by apply IH.
Qed.

(** An object that holds the specification is one the operator's pass leaves. *)
Lemma holds_settled m s : apartNow s -> holds m s -> applyOwnedMetadata m (ms_ownAnnotations s) (ms_ownLabels s) = (m, false).
Proof.
  intros Hs Hm. pose proof Hm as (H1 & H2 & H3 & H4). destruct Hs as (Ha & Hl & Hxa & Hxl).
  destruct (step_holds m s (OperatorApplies (ms_ownAnnotations s) (ms_ownLabels s))) as [(G1 & G2 & G3 & G4) _]; [done..|].
  cbn [metaStep specStep] in *. rewrite applyOwnedMetadata_new in *. cbn [fst md_Annotations md_Labels] in *.
  set (newA := partial_alter _ _ _) in *. set (newL := (mergeOwnedStringMap (md_Labels m) _ _).1) in *.
  assert (newA = md_Annotations m) as ->.
  { apply map_eq. intros k. destruct (bookkeeping k) eqn:Hk; [|rewrite G1, H1 by done; done].
    apply orb_true_iff in Hk as [->%String.eqb_eq | ->%String.eqb_eq]; [by rewrite G2, H2|by rewrite G3, H3]. }
  assert (newL = md_Labels m) as -> by (rewrite G4, H4; done).
  rewrite !bool_decide_eq_true_2 by done. by destruct m.
Qed.
End Sharing.

(** An object's annotations and labels under any interleaving of the
    operator's passes and the writes of others: with each side keeping to its own
    keys, the object always holds what the operator last asked for and exactly
    what the others wrote, as if each had a map of its own; and a pass that asks
    for the same again finds nothing to write. *)
Theorem metadata_shared (managedAnnotations managedLabels : gset string) (m : Metadata) (s : metaSpec) (ws : list metaWrite) :
  (forall k, k ∈ managedAnnotations ∪ managedLabels -> cleanName k = true /\ bookkeeping k = false) ->
  apartNow managedAnnotations managedLabels s -> Forall (keepsApart managedAnnotations managedLabels) ws -> holds m s ->
  let m' := foldl metaStep m ws in let s' := foldl specStep s ws in
  holds m' s' /\ applyOwnedMetadata m' (ms_ownAnnotations s') (ms_ownLabels s') = (m', false).
Proof.
  intros Hclean Hs Hws Hm m' s'. destruct (steps_hold _ _ Hclean ws m s Hs Hws Hm) as [H1 H2].
  split; [exact H1|]. by eapply holds_settled.
Qed.

Module OwnedKeysSample.
Definition managed : gset string := {["neo4j.com/a"; "neo4j.com/b"]}.
Definition mesh : gmap string string := {["mesh.io/inject" := "true"]}.
Definition start : Metadata := mkMetadata mesh ∅.
Definition begun : metaSpec := mkMetaSpec ∅ ∅ mesh ∅.
Definition writes : list metaWrite :=
  [OperatorApplies {["neo4j.com/a" := "1"; "neo4j.com/b" := "2"]} ∅; OtherAnnotates "mesh.io/rev" (Some "7");
   OperatorApplies {["neo4j.com/b" := "3"]} ∅].

Lemma start_holds : holds start begun.
Proof. split_and!; done. Qed.

Lemma managed_names k : k ∈ managed ∪ ∅ -> cleanName k = true /\ bookkeeping k = false.
Proof. unfold managed. rewrite (right_id_L ∅ (∪)). intros [->%elem_of_singleton | ->%elem_of_singleton]%elem_of_union; by vm_compute. Qed.

Lemma writes_apart : Forall (keepsApart managed ∅) writes.
Proof. repeat apply Forall_cons_2; try apply Forall_nil_2; split; try done; unfold managed; set_solver. Qed.

Lemma metadata_shared_witness :
  applyOwnedMetadata (foldl metaStep start writes) {["neo4j.com/b" := "3"]} ∅ = (foldl metaStep start writes, false).
Proof.
  apply (metadata_shared managed ∅ start begun writes managed_names).
  - split_and!; simpl; unfold managed; set_solver.
  - exact writes_apart.
  - exact start_holds.
Defined.

Example shared_sample : md_Annotations (foldl metaStep start writes) =
  {["mesh.io/inject" := "true"; "mesh.io/rev" := "7"; "neo4j.com/b" := "3"; "neo4j.com/owned-annotation-keys" := "neo4j.com/b"]}.
Proof. vm_compute. reflexivity. Qed.
End OwnedKeysSample.
