(* ===== verification/JsonList.v ===== *)
(** NEO4J_PLUGINS, a JSON list of names several controllers add to and take from
    (MergeNeo4jPluginList and RemoveFromNeo4jPluginList of plugin_controller.go),
    with what it uses of encoding/json: reading a list of strings and writing
    one. Strings are bytes; text is taken to be valid UTF-8, and U+2028 and
    U+2029, which json.Marshal escapes, are left as they are. *)
From S2P Require Import Prelude GoStrings OwnedKeys.

Open Scope Z_scope.

Module json.

Definition quote : ascii := "034"%char.
Definition backslash : ascii := "092"%char.

Definition isBlank (c : ascii) : bool :=
  match Ascii.nat_of_ascii c with 9%nat | 10%nat | 13%nat | 32%nat => true | _ => false end.

Definition isControl (c : ascii) : bool := (Ascii.N_of_ascii c <? 32)%N.

Fixpoint skipBlank (s : string) : string :=
  match s with
  | String c s' => if isBlank c then skipBlank s' else s
  | EmptyString => EmptyString
  end.

Definition hexDigit (c : ascii) : option N :=
  let n := Ascii.N_of_ascii c in
  if (48 <=? n)%N && (n <=? 57)%N then Some (n - 48)%N
  else if (97 <=? n)%N && (n <=? 102)%N then Some (n - 87)%N
  else if (65 <=? n)%N && (n <=? 70)%N then Some (n - 55)%N
  else None.

(** The code unit of the four digits after [\u]. *)
Definition hex4 (a b c d : ascii) : option N :=
  match hexDigit a, hexDigit b, hexDigit c, hexDigit d with
  | Some a, Some b, Some c, Some d => Some (((a * 16 + b) * 16 + c) * 16 + d)%N
  | _, _, _, _ => None
  end.

Definition byte (n : N) : ascii := Ascii.ascii_of_N n.

(** The UTF-8 encoding of a code point. *)
Definition utf8 (n : N) : string :=
  if (n <? 128)%N then String (byte n) EmptyString
  else if (n <? 2048)%N then String (byte (192 + n / 64)) (String (byte (128 + n mod 64)) EmptyString)
  else if (n <? 65536)%N then
    String (byte (224 + n / 4096)) (String (byte (128 + n / 64 mod 64)) (String (byte (128 + n mod 64)) EmptyString))
  else
    String (byte (240 + n / 262144)) (String (byte (128 + n / 4096 mod 64))
      (String (byte (128 + n / 64 mod 64)) (String (byte (128 + n mod 64)) EmptyString))).

Definition replacementChar : N := 65533.

Definition isSurrogate (n : N) : bool := (55296 <=? n)%N && (n <? 57344)%N.

(** The code point of two surrogates; [None] when they are not a pair. *)
Definition surrogatePair (hi lo : N) : option N :=
  if (55296 <=? hi)%N && (hi <? 56320)%N && (56320 <=? lo)%N && (lo <? 57344)%N
  then Some ((hi - 55296) * 1024 + (lo - 56320) + 65536)%N else None.

(** The byte a short escape stands for. *)
Definition shortEscape (c : ascii) : option ascii :=
  if Ascii.eqb c quote then Some quote
  else if Ascii.eqb c backslash then Some backslash
  else if Ascii.eqb c "/"%char then Some "/"%char
  else if Ascii.eqb c "b"%char then Some (byte 8)
  else if Ascii.eqb c "f"%char then Some (byte 12)
  else if Ascii.eqb c "n"%char then Some (byte 10)
  else if Ascii.eqb c "r"%char then Some (byte 13)
  else if Ascii.eqb c "t"%char then Some (byte 9)
  else None.

Definition prepend (p : string) (r : option (string * string)) : option (string * string) :=
  match r with Some (s, rest) => Some (p +:+ s, rest) | None => None end.

(** A string literal after its opening quote: its value and what follows it. *)
Fixpoint stringBody (s : string) : option (string * string) :=
  match s with
  | EmptyString => None
  | String c s' =>
      if Ascii.eqb c quote then Some (EmptyString, s')
      else if Ascii.eqb c backslash then
        match s' with
        | EmptyString => None
        | String e rest =>
            if Ascii.eqb e "u"%char then
              match rest with
              | String a1 (String a2 (String a3 (String a4 rest4))) =>
                  match hex4 a1 a2 a3 a4 with
                  | None => None
                  | Some n =>
                      if isSurrogate n then
                        match rest4 with
                        | String b1 (String b2 (String a5 (String a6 (String a7 (String a8 rest10))))) =>
                            match (if Ascii.eqb b1 backslash && Ascii.eqb b2 "u"%char then hex4 a5 a6 a7 a8 ≫= surrogatePair n else None) with
                            | Some m => prepend (utf8 m) (stringBody rest10)
                            | None => prepend (utf8 replacementChar) (stringBody rest4)
                            end
                        | _ => prepend (utf8 replacementChar) (stringBody rest4)
                        end
                      else prepend (utf8 n) (stringBody rest4)
                  end
              | _ => None
              end
            else match shortEscape e with
                 | Some b => prepend (String b EmptyString) (stringBody rest)
                 | None => None
                 end
        end
      else if isControl c then None
      else prepend (String c EmptyString) (stringBody s')
  end.

(** An element of a list of strings: a literal, or null, which leaves the zero
    value. *)
Definition element (s : string) : option (string * string) :=
  match s with
  | String c s' => if Ascii.eqb c quote then stringBody s'
                   else match strings.CutPrefix s "null" with Some r => Some (EmptyString, r) | None => None end
  | EmptyString => None
  end.

(** The elements from the first on, up to the closing bracket. *)
Fixpoint elements (fuel : nat) (s : string) : option (list string * string) :=
  match fuel with
  | O => None
  | S fuel' =>
      match element (skipBlank s) with
      | None => None
      | Some (x, rest) =>
          match skipBlank rest with
          | String c rest' =>
              if Ascii.eqb c "]"%char then Some ([x], rest')
              else if Ascii.eqb c comma then
                match elements fuel' rest' with
                | Some (xs, r) => Some (x :: xs, r)
                | None => None
                end
              else None
          | EmptyString => None
          end
      end
  end.

Definition listFrom (s : string) : option (list string * string) :=
  match s with
  | String c s' =>
      if Ascii.eqb c "["%char then
        match skipBlank s' with
        | String d rest => if Ascii.eqb d "]"%char then Some ([], rest) else elements (S (String.length s')) s'
        | EmptyString => None
        end
      else match strings.CutPrefix s "null" with Some r => Some ([], r) | None => None end
  | EmptyString => None
  end.

(** [json.Unmarshal] into a list of strings; [None] for an error. *)
Definition Unmarshal (s : string) : option (list string) :=
  match listFrom (skipBlank s) with
  | Some (l, rest) => if String.eqb (skipBlank rest) EmptyString then Some l else None
  | None => None
  end.

Definition hexChar (n : N) : ascii := if (n <? 10)%N then byte (48 + n) else byte (87 + n).

Definition escapeByte (c : ascii) : string :=
  let n := Ascii.N_of_ascii c in
  if Ascii.eqb c quote then String backslash (String quote EmptyString)
  else if Ascii.eqb c backslash then String backslash (String backslash EmptyString)
  else if (n =? 8)%N then String backslash "b"
  else if (n =? 12)%N then String backslash "f"
  else if (n =? 10)%N then String backslash "n"
  else if (n =? 13)%N then String backslash "r"
  else if (n =? 9)%N then String backslash "t"
  else if (n <? 32)%N || Ascii.eqb c "<"%char || Ascii.eqb c ">"%char || Ascii.eqb c "&"%char then
    String backslash (String "u"%char (String "0"%char (String "0"%char (String (hexChar (n / 16)) (String (hexChar (n mod 16)) EmptyString)))))
  else String c EmptyString.

Fixpoint escape (s : string) : string :=
  match s with
  | EmptyString => EmptyString
  | String c s' => escapeByte c +:+ escape s'
  end.

Definition literal (s : string) : string := String quote (escape s +:+ String quote EmptyString).

(** [json.Marshal] of a list that is not nil. *)
Definition Marshal (l : list string) : string := "[" +:+ strings.Join (literal <$> l) "," +:+ "]".
End json.

(** * The list of plugins *)

Definition readList (existing : string) : option (list string) :=
  if String.eqb (strings.TrimSpace existing) EmptyString then Some [] else json.Unmarshal existing.

(** [None]: the value is not a JSON list of strings. *)
Definition MergeNeo4jPluginList (existing newPlugin : string) : option string :=
  match readList existing with
  | None => None
  | Some plugins =>
      if bool_decide (newPlugin ∈ plugins) then Some existing
      else Some (json.Marshal (plugins ++ [newPlugin]))
  end.

Definition RemoveFromNeo4jPluginList (existing remove : string) : option string :=
  if String.eqb (strings.TrimSpace existing) EmptyString then Some existing
  else match json.Unmarshal existing with
       | None => None
       | Some plugins =>
           let remaining := List.filter (fun p => negb (String.eqb p remove)) plugins in
           if (length remaining =? length plugins)%nat then Some existing
           else Some (json.Marshal remaining)
       end.

(** * Reading back what was written *)

Lemma stringBody_escapeByte c s : json.stringBody (json.escapeByte c +:+ s) = json.prepend (String c EmptyString) (json.stringBody s).
Proof. destruct c as [[] [] [] [] [] [] [] []]; reflexivity. Qed.

Lemma stringBody_escape s r : json.stringBody (json.escape s +:+ String json.quote r) = Some (s, r).
Proof.
  induction s as [|c s IH]; cbn [json.escape]; [reflexivity|].
  by rewrite string_app_assoc, stringBody_escapeByte, IH.
Qed.

Lemma element_literal s r : json.element (json.literal s +:+ r) = Some (s, r).
Proof.
  unfold json.literal. change (String json.quote ?x +:+ r) with (String json.quote (x +:+ r)).
  rewrite string_app_assoc. unfold json.element. rewrite Ascii.eqb_refl. apply stringBody_escape.
Qed.

Lemma skipBlank_literal s r : json.skipBlank (json.literal s +:+ r) = json.literal s +:+ r.
Proof. reflexivity. Qed.

Lemma elements_Join l : forall fuel r, l <> [] -> (length l <= fuel)%nat ->
  json.elements fuel (strings.Join (json.literal <$> l) "," +:+ String "]" r) = Some (l, r).
Proof.
  induction l as [|x l IH]; intros fuel r Hne Hlen; [done|]. destruct fuel as [|fuel]; simpl in Hlen; [lia|].
  cbn [json.elements]. destruct l as [|y l].
  - change (strings.Join (json.literal <$> [x]) ",") with (json.literal x). rewrite skipBlank_literal, element_literal. reflexivity.
  - change (strings.Join (json.literal <$> (x :: y :: l)) ",")
      with (json.literal x +:+ "," +:+ strings.Join (json.literal <$> (y :: l)) ",").
    rewrite !string_app_assoc, skipBlank_literal, element_literal.
    change (json.skipBlank ("," +:+ ?z)) with (String comma z). cbv beta iota.
    change (Ascii.eqb comma "]") with false. rewrite Ascii.eqb_refl. cbv iota. rewrite IH; [done|done|simpl in *; lia].
Qed.

Lemma literal_length s : (2 <= String.length (json.literal s))%nat.
Proof. unfold json.literal. simpl. rewrite string_length_app. simpl. lia. Qed.

Lemma Join_length l : (length l <= String.length (strings.Join (json.literal <$> l) ","))%nat.
Proof.
  induction l as [|x l IH]; [simpl; lia|]. pose proof (literal_length x). destruct l as [|y l]; [simpl in *; lia|].
  change (strings.Join (json.literal <$> (x :: y :: l)) ",") with (json.literal x +:+ "," +:+ strings.Join (json.literal <$> (y :: l)) ",").
  rewrite !string_length_app. simpl in *. lia.
Qed.

(** A list the operator writes is the list it reads. *)
Lemma Unmarshal_Marshal l : json.Unmarshal (json.Marshal l) = Some l.
Proof.
  unfold json.Unmarshal, json.Marshal.
  change (json.skipBlank ("[" +:+ ?x)) with (String "[" x).
  assert (json.listFrom (String "[" (strings.Join (json.literal <$> l) "," +:+ "]")) = Some (l, EmptyString)) as ->; [|reflexivity].
  destruct l as [|x l]; [reflexivity|]. unfold json.listFrom. change (Ascii.eqb "[" "[") with true. cbv iota.
  set (s := strings.Join _ _ +:+ "]").
  assert (exists s', json.skipBlank s = String json.quote s') as [s' ->].
  { unfold s. destruct l as [|y l].
    - eexists. change (strings.Join (json.literal <$> [x]) ",") with (json.literal x). rewrite skipBlank_literal. unfold json.literal. reflexivity.
    - eexists. change (strings.Join (json.literal <$> (x :: y :: l)) ",") with (json.literal x +:+ "," +:+ strings.Join (json.literal <$> (y :: l)) ",").
      rewrite !string_app_assoc, skipBlank_literal. unfold json.literal. reflexivity. }
  change (Ascii.eqb json.quote "]") with false. cbv iota. unfold s. apply elements_Join; [done|].
  rewrite string_length_app. pose proof (Join_length (x :: l)). lia.
Qed.

Lemma Marshal_not_blank l : String.eqb (strings.TrimSpace (json.Marshal l)) EmptyString = false.
Proof.
  unfold json.Marshal, strings.TrimSpace, strings.trimFunc. simpl.
  destruct (strings.trimRightFunc _ _); reflexivity.
Qed.

Lemma readList_Marshal l : readList (json.Marshal l) = Some l.
Proof. unfold readList. by rewrite Marshal_not_blank, Unmarshal_Marshal. Qed.

Lemma Merge_reads s l p s' : readList s = Some l -> MergeNeo4jPluginList s p = Some s' ->
  readList s' = Some (if bool_decide (p ∈ l) then l else l ++ [p]).
Proof.
  intros Hl. unfold MergeNeo4jPluginList. rewrite Hl. case_bool_decide; intros [= <-]; [done|apply readList_Marshal].
Qed.

Lemma Remove_reads s l p s' : readList s = Some l -> RemoveFromNeo4jPluginList s p = Some s' ->
  readList s' = Some (List.filter (fun q => negb (String.eqb q p)) l) /\ (p ∉ l -> s' = s).
Proof.
  unfold readList at 1, RemoveFromNeo4jPluginList. destruct (String.eqb (strings.TrimSpace s) EmptyString) eqn:Eb.
  - intros [= <-] [= <-]. split; [unfold readList; by rewrite Eb|done].
  - intros Hl. rewrite Hl. destruct (Nat.eqb _ _) eqn:En; intros [= <-].
    + apply Nat.eqb_eq in En. split; [|done]. unfold readList. rewrite Eb, Hl. f_equal.
      clear - En. revert En. induction l as [|x l IH]; simpl; [done|]. destruct (negb _); simpl; [intros [= H]; f_equal; by apply IH|].
      intros H. pose proof (filter_length_le (fun q => negb (String.eqb q p)) l). lia.
    + split; [apply readList_Marshal|]. intros Hp. exfalso. apply Nat.eqb_neq in En. apply En. f_equal. apply filter_all.
      apply Forall_forall. intros x Hx. apply negb_true_iff, String.eqb_neq. intros ->. done.
Qed.

(** Adding a name to NEO4J_PLUGINS and taking it out again: of a value that
    reads as a list, adding succeeds, keeps every name and its order, appends the
    name once, and is the value itself, byte for byte, when the name is there;
    taking it out leaves every other name in order, gives back the value itself
    when the name is not there, and undoes the addition. *)
Theorem plugin_list_exact (s p : string) (l : list string) :
  readList s = Some l ->
  exists s' s'', MergeNeo4jPluginList s p = Some s' /\ RemoveFromNeo4jPluginList s' p = Some s'' /\
    readList s' = Some (if bool_decide (p ∈ l) then l else l ++ [p]) /\
    readList s'' = Some (List.filter (fun q => negb (String.eqb q p)) l) /\
    (p ∈ l -> s' = s) /\ MergeNeo4jPluginList s' p = Some s' /\ RemoveFromNeo4jPluginList s'' p = Some s''.
Proof.
  intros Hl. destruct (MergeNeo4jPluginList s p) as [s'|] eqn:Em; [|unfold MergeNeo4jPluginList in Em; rewrite Hl in Em; by case_bool_decide].
  pose proof (Merge_reads _ _ _ _ Hl Em) as Hl'.
  assert (forall t l', readList t = Some l' -> exists t', RemoveFromNeo4jPluginList t p = Some t') as Hrem.
  { intros t l' Ht. unfold readList in Ht. unfold RemoveFromNeo4jPluginList.
    destruct (String.eqb (strings.TrimSpace t) EmptyString); [by eexists|]. rewrite Ht.
    destruct (Nat.eqb _ _); by eexists. }
  destruct (Hrem s' _ Hl') as [s'' Es]. exists s', s''. destruct (Remove_reads _ _ _ _ Hl' Es) as [Hr _].
  assert (List.filter (fun q => negb (String.eqb q p)) (if bool_decide (p ∈ l) then l else l ++ [p]) =
          List.filter (fun q => negb (String.eqb q p)) l) as Ef.
  { case_bool_decide; [done|]. rewrite List.filter_app. simpl. rewrite String.eqb_refl. simpl. by rewrite app_nil_r. }
  rewrite Ef in Hr. split_and!; try done.
  - intros Hp. unfold MergeNeo4jPluginList in Em. rewrite Hl, bool_decide_eq_true_2 in Em by done. congruence.
  - unfold MergeNeo4jPluginList. rewrite Hl', bool_decide_eq_true_2; [done|]. case_bool_decide; [done|]. apply elem_of_app. right. apply list_elem_of_here.
  - destruct (Hrem s'' _ Hr) as [t Et]. destruct (Remove_reads _ _ _ _ Hr Et) as [_ Hsame]. rewrite Et. f_equal. apply Hsame.
    rewrite list_elem_of_In, filter_In, String.eqb_refl. by intros [_ ?].
Qed.

Module JsonSample.
Definition two : string := json.Marshal ["apoc"; "n10s"].

Lemma plugin_list_exact_witness : exists s' s'', MergeNeo4jPluginList two "bloom" = Some s' /\ RemoveFromNeo4jPluginList s' "bloom" = Some s'' /\
  readList s' = Some ["apoc"; "n10s"; "bloom"] /\ readList s'' = Some ["apoc"; "n10s"].
Proof.
  destruct (plugin_list_exact two "bloom" ["apoc"; "n10s"]) as (s' & s'' & H1 & H2 & H3 & H4 & _); [reflexivity|].
  exists s', s''. repeat split; [exact H1|exact H2|exact H3|exact H4].
Defined.

(** The value's own spelling does not matter, and what is no list of strings is
    refused. *)
Example spellings : json.Unmarshal "[ null , 3 ]" = None /\ json.Unmarshal " [ null ] " = Some [EmptyString] /\ json.Unmarshal "null" = Some [] /\
  json.Unmarshal (json.Marshal ["<a>"; EmptyString]) = Some ["<a>"; EmptyString].
Proof. repeat split. Qed.
End JsonSample.
