(* ===== verification/PodTemplate.v ===== *)
(** The pod template of the server StatefulSet, which the cluster controller, the
    plugins and Aura Fleet Management all write (lines 1392 to 1880 of
    neo4jenterprisecluster_controller.go, owned_keys.go, and mergeOwnedByName of
    neo4jenterprisestandalone_controller.go): what of it the cluster rendered,
    when it differs from what the cluster wants, and the merge that keeps the
    rest. Fields the code compares as a whole (a security context, a volume's
    source) are their rendering, equal exactly when the code finds them equal. *)
From S2P Require Import Prelude GoStrings OwnedKeys.

Open Scope Z_scope.

(** * Data *)

Record EnvVar := mkEnvVar { ev_Name : string; ev_Value : string; ev_ValueFrom : option string }.

#[global] Instance EnvVar_eq_dec : EqDecision EnvVar.
Proof. solve_decision. Defined.

(** [ct_CPULimit] and [ct_MemoryLimit] are 0 where no limit is set; of a volume
    mount its volume's name is kept. *)
Record Container := mkContainer {
  ct_Name : string;
  ct_Image : string;
  ct_Env : list EnvVar;
  ct_VolumeMounts : list string;
  ct_CPULimit : Z;
  ct_MemoryLimit : Z;
  ct_SecurityContext : string;
  ct_Rest : string
}.

#[global] Instance Container_eq_dec : EqDecision Container.
Proof. solve_decision. Defined.

Definition set_ct_Env (v : list EnvVar) (c : Container) : Container :=
  mkContainer (ct_Name c) (ct_Image c) v (ct_VolumeMounts c) (ct_CPULimit c) (ct_MemoryLimit c) (ct_SecurityContext c) (ct_Rest c).

(** A source of a projected volume: a Secret with the keys it projects and their
    paths, or something else. *)
Inductive projection :=
| SecretProjection (name : string) (items : list (string * string))
| OtherProjection (rendering : string).

#[global] Instance projection_eq_dec : EqDecision projection.
Proof. solve_decision. Defined.

Inductive VolumeSource :=
| ProjectedSource (sources : list projection)
| OtherSource (rendering : string).

#[global] Instance VolumeSource_eq_dec : EqDecision VolumeSource.
Proof. solve_decision. Defined.

Record Volume := mkVolume { vol_Name : string; vol_Source : VolumeSource }.

#[global] Instance Volume_eq_dec : EqDecision Volume.
Proof. solve_decision. Defined.

Record PodTemplate := mkPodTemplate {
  pt_Labels : gmap string string;
  pt_Annotations : gmap string string;
  pt_Containers : list Container;
  pt_InitContainers : list Container;
  pt_Volumes : list Volume;
  pt_SecurityContext : string;
  pt_ServiceAccountName : string;
  pt_Rest : string
}.

#[global] Instance PodTemplate_eq_dec : EqDecision PodTemplate.
Proof. solve_decision. Defined.

Definition set_pt_Labels (v : gmap string string) (t : PodTemplate) : PodTemplate :=
  mkPodTemplate v (pt_Annotations t) (pt_Containers t) (pt_InitContainers t) (pt_Volumes t) (pt_SecurityContext t) (pt_ServiceAccountName t) (pt_Rest t).
Definition set_pt_Annotations (v : gmap string string) (t : PodTemplate) : PodTemplate :=
  mkPodTemplate (pt_Labels t) v (pt_Containers t) (pt_InitContainers t) (pt_Volumes t) (pt_SecurityContext t) (pt_ServiceAccountName t) (pt_Rest t).
Definition set_pt_Containers (v : list Container) (t : PodTemplate) : PodTemplate :=
  mkPodTemplate (pt_Labels t) (pt_Annotations t) v (pt_InitContainers t) (pt_Volumes t) (pt_SecurityContext t) (pt_ServiceAccountName t) (pt_Rest t).
Definition set_pt_InitContainers (v : list Container) (t : PodTemplate) : PodTemplate :=
  mkPodTemplate (pt_Labels t) (pt_Annotations t) (pt_Containers t) v (pt_Volumes t) (pt_SecurityContext t) (pt_ServiceAccountName t) (pt_Rest t).
Definition set_pt_Volumes (v : list Volume) (t : PodTemplate) : PodTemplate :=
  mkPodTemplate (pt_Labels t) (pt_Annotations t) (pt_Containers t) (pt_InitContainers t) v (pt_SecurityContext t) (pt_ServiceAccountName t) (pt_Rest t).

(** The StatefulSet as its writers see it: its annotations hold the records of
    who wrote what. [ts_Selector] is the labels its selector matches. *)
Record ServerSet := mkServerSet {
  ts_Name : string;
  ts_Annotations : gmap string string;
  ts_Replicas : Z;
  ts_ReadyReplicas : Z;
  ts_Selector : option (gmap string string);
  ts_Template : PodTemplate
}.

#[global] Instance ServerSet_eq_dec : EqDecision ServerSet.
Proof. solve_decision. Defined.

Definition set_ts_Annotations (v : gmap string string) (s : ServerSet) : ServerSet :=
  mkServerSet (ts_Name s) v (ts_Replicas s) (ts_ReadyReplicas s) (ts_Selector s) (ts_Template s).
Definition set_ts_Template (v : PodTemplate) (s : ServerSet) : ServerSet :=
  mkServerSet (ts_Name s) (ts_Annotations s) (ts_Replicas s) (ts_ReadyReplicas s) (ts_Selector s) v.

Definition tsAnnotation (s : ServerSet) (key : string) : string := default EmptyString (ts_Annotations s !! key).
Definition annotateSet (key value : string) (s : ServerSet) : ServerSet := set_ts_Annotations (<[key := value]> (ts_Annotations s)) s.

(** * Environment *)

(** Of a repeated name the last one wins. *)
Definition envByName (env : list EnvVar) : gmap string EnvVar :=
  fold_left (fun m e => <[ev_Name e := e]> m) env ∅.

(** The env of the first container: the cluster controller's reading. *)
Definition firstEnv (t : PodTemplate) : list EnvVar :=
  match pt_Containers t with c :: _ => ct_Env c | [] => [] end.

(** The container named neo4j: the plugins' reading. *)
Definition neo4jContainer (t : PodTemplate) : option Container :=
  List.find (fun c => String.eqb (ct_Name c) "neo4j") (pt_Containers t).

Definition neo4jContainerEnv (t : PodTemplate) : list EnvVar :=
  match neo4jContainer t with Some c => ct_Env c | None => [] end.

(** The template with the neo4j container's env edited. *)
Fixpoint editNeo4j (f : list EnvVar -> list EnvVar) (cs : list Container) : list Container :=
  match cs with
  | [] => []
  | c :: rest => if String.eqb (ct_Name c) "neo4j" then set_ct_Env (f (ct_Env c)) c :: rest else c :: editNeo4j f rest
  end.

Definition setNeo4jEnv (env : list EnvVar) (t : PodTemplate) : PodTemplate :=
  set_pt_Containers (editNeo4j (fun _ => env) (pt_Containers t)) t.

Definition setFirstEnv (env : list EnvVar) (t : PodTemplate) : PodTemplate :=
  match pt_Containers t with
  | c :: rest => set_pt_Containers (set_ct_Env env c :: rest) t
  | [] => t
  end.

(** * What the cluster rendered *)

Definition ownedEnvVarsAnnotation : string := "neo4j.com/cluster-controller-env-vars".
Definition ownedInitContainersAnnotation : string := "neo4j.com/cluster-controller-init-containers".
Definition ownedVolumesAnnotation : string := "neo4j.com/cluster-controller-volumes".
Definition clusterTemplateHashAnnotation : string := "neo4j.com/cluster-template-hash".
Definition standaloneOwnedEnvVarsAnnotation : string := "neo4j.com/standalone-controller-env-vars".
Definition PluginInitContainersAnnotation : string := "neo4j.com/plugin-init-containers".

Definition readOwnedEnvVarNames (sts : ServerSet) : gset string :=
  let raw := tsAnnotation sts ownedEnvVarsAnnotation in
  if String.eqb raw EmptyString then ∅ else splitCSVSet raw.

Definition sortedNamesCSV {T} (items : list T) (nameOf : T -> string) : string :=
  strings.Join (sort.Strings (nameOf <$> items)) ",".

Definition writeOwnedEnvVarNames (desired : list EnvVar) (sts : ServerSet) : ServerSet :=
  annotateSet ownedEnvVarsAnnotation (sortedNamesCSV desired ev_Name) sts.

Record ownedTemplateItems := mkOwnedTemplateItems {
  oi_env : gset string;
  oi_initContainers : gset string;
  oi_volumes : gset string
}.

Definition parsePluginInitOwned (raw : string) : gset string := splitCSVSet raw.
Definition formatPluginInitOwned (owned : gset string) : string := strings.Join (sort.Strings (elements owned)) ",".

(** The volumes some of the containers mount. *)
Definition mountedBy (cs : list Container) : gset string := list_to_set (cs ≫= ct_VolumeMounts).

Definition readOwnedTemplateItems (sts : ServerSet) (live : PodTemplate) : ownedTemplateItems :=
  let initContainers :=
    match ts_Annotations sts !! ownedInitContainersAnnotation with
    | Some raw => splitCSVSet raw
    | None =>
        let plugins := parsePluginInitOwned (default EmptyString (pt_Annotations live !! PluginInitContainersAnnotation)) in
        list_to_set (List.filter (fun n => negb (bool_decide (n ∈ plugins))) (ct_Name <$> pt_InitContainers live))
    end in
  let volumes :=
    match ts_Annotations sts !! ownedVolumesAnnotation with
    | Some raw => splitCSVSet raw
    | None =>
        let ours := fun c => bool_decide (ct_Name c ∈ initContainers) in
        let usedByOwn := mountedBy (pt_Containers live) ∪ mountedBy (List.filter ours (pt_InitContainers live)) in
        let usedByPlugin := mountedBy (List.filter (fun c => negb (ours c)) (pt_InitContainers live)) in
        list_to_set (List.filter (fun n => bool_decide (n ∈ usedByOwn) || negb (bool_decide (n ∈ usedByPlugin)))
                       (vol_Name <$> pt_Volumes live))
    end in
  mkOwnedTemplateItems (readOwnedEnvVarNames sts) initContainers volumes.

Definition writeOwnedTemplateItems (desired : PodTemplate) (sts : ServerSet) : ServerSet :=
  annotateSet ownedVolumesAnnotation (sortedNamesCSV (pt_Volumes desired) vol_Name)
    (annotateSet ownedInitContainersAnnotation (sortedNamesCSV (pt_InitContainers desired) ct_Name)
       (writeOwnedEnvVarNames (firstEnv desired) sts)).

(** * Differences *)

Section Named.
Context {T : Type} (nameOf : T -> string).

Definition namesOf (l : list T) : gset string := list_to_set (nameOf <$> l).

(** [current] less what is neither desired nor was rendered before. *)
Definition withoutForeign (current desired : list T) (previousOwned : gset string) : list T :=
  List.filter (fun c => bool_decide (nameOf c ∈ namesOf desired) || bool_decide (nameOf c ∈ previousOwned)) current.

(** The desired items, then those of others. *)
Definition mergeOwnedByName (current desired : list T) (previousOwned : gset string) : list T :=
  desired ++ List.filter (fun c => negb (bool_decide (nameOf c ∈ namesOf desired)) && negb (bool_decide (nameOf c ∈ previousOwned))) current.
End Named.

(** The variables of others, then the desired ones. *)
Definition mergeEnvVars (current desired : list EnvVar) (previousOwned : gset string) : list EnvVar :=
  List.filter (fun e => negb (bool_decide (ev_Name e ∈ previousOwned)) && negb (bool_decide (ev_Name e ∈ namesOf ev_Name desired))) current
  ++ desired.

Definition envVarSourceEqual (a b : option string) : bool := bool_decide (a = b).

Definition envVarsEqual (current desired : list EnvVar) (previousOwned : gset string) : bool :=
  let currentMap := envByName current in
  forallb (fun env =>
    match currentMap !! ev_Name env with
    | None => false
    | Some currentEnv =>
        String.eqb (ev_Value currentEnv) (ev_Value env) && envVarSourceEqual (ev_ValueFrom currentEnv) (ev_ValueFrom env)
    end) desired
  && forallb (fun name =>
       bool_decide (name ∈ namesOf ev_Name desired)
       || match currentMap !! name with Some _ => false | None => true end) (elements previousOwned).

Definition volumesEqual (current desired : list Volume) (previousOwned : gset string) : bool :=
  let current := withoutForeign vol_Name current desired previousOwned in
  (length current =? length desired)%nat
  && forallb (fun vol => bool_decide (vol_Name vol ∈ namesOf vol_Name current)) desired.

(** Position by position, as far as both go. *)
Fixpoint sameContainers (current desired : list Container) : bool :=
  match current, desired with
  | [], _ => true
  | _ :: _, [] => false
  | c :: cs, d :: ds => String.eqb (ct_Name c) (ct_Name d) && String.eqb (ct_Image c) (ct_Image d) && sameContainers cs ds
  end.

Definition initContainersEqual (current desired : list Container) (previousOwned : gset string) : bool :=
  let current := withoutForeign ct_Name current desired previousOwned in
  (length current =? length desired)%nat && sameContainers current desired.

Definition resourcesEqual (current desired : Container) : bool :=
  (ct_CPULimit current =? ct_CPULimit desired) && (ct_MemoryLimit current =? ct_MemoryLimit desired).

Definition containerSecurityContextEqual (current desired : string) : bool := String.eqb current desired.
Definition securityContextEqual (current desired : string) : bool := String.eqb current desired.

(** The containers pair by pair: some pair differs in image, limits or security
    context. *)
Fixpoint criticalContainers (current desired : list Container) : bool :=
  match current, desired with
  | [], _ => false
  | _ :: _, [] => true
  | c :: cs, d :: ds =>
      negb (String.eqb (ct_Image c) (ct_Image d)) || negb (resourcesEqual c d)
      || negb (containerSecurityContextEqual (ct_SecurityContext c) (ct_SecurityContext d))
      || criticalContainers cs ds
  end.

Definition hasCriticalTemplateChanges (current desired : PodTemplate) : bool :=
  negb (length (pt_Containers current) =? length (pt_Containers desired))%nat
  || criticalContainers (pt_Containers current) (pt_Containers desired)
  || negb (securityContextEqual (pt_SecurityContext current) (pt_SecurityContext desired))
  || negb (String.eqb (pt_ServiceAccountName current) (pt_ServiceAccountName desired)).

Definition hasSignificantTemplateChanges (current desired : PodTemplate) (previousOwned : ownedTemplateItems) : bool :=
  hasCriticalTemplateChanges current desired
  || match pt_Containers current, pt_Containers desired with
     | c :: _, d :: _ => negb (envVarsEqual (ct_Env c) (ct_Env d) (oi_env previousOwned))
     | _, _ => false
     end
  || negb (volumesEqual (pt_Volumes current) (pt_Volumes desired) (oi_volumes previousOwned))
  || negb (initContainersEqual (pt_InitContainers current) (pt_InitContainers desired) (oi_initContainers previousOwned)).

Section Hash.
(** The SHA-256 of the template's JSON. *)
Variable podTemplateSpecHash : PodTemplate -> string.

Definition setClusterTemplateHash (desired : PodTemplate) (sts : ServerSet) : ServerSet :=
  annotateSet clusterTemplateHashAnnotation (podTemplateSpecHash desired) sts.

Definition isTemplateChangeSignificant (current desired : PodTemplate) (sts : ServerSet) : bool :=
  if ts_ReadyReplicas sts <? ts_Replicas sts then
    hasCriticalTemplateChanges current desired
    || match ts_Annotations sts !! clusterTemplateHashAnnotation with
       | Some stamped => negb (String.eqb (podTemplateSpecHash desired) stamped)
       | None => false
       end
  else
    hasSignificantTemplateChanges current desired (readOwnedTemplateItems sts current)
    || negb (String.eqb (podTemplateSpecHash desired) (tsAnnotation sts clusterTemplateHashAnnotation)).
End Hash.

(** * Annotations of the template *)

Definition operatorManagedPodAnnotations : list string :=
  ["prometheus.io/scrape"; "prometheus.io/port"; "prometheus.io/path"; "neo4j.com/pod-identity-hash"].

Definition mergePodTemplateAnnotations (live desired : gmap string string) : gmap string string :=
  desired ∪ filter (fun kv => kv.1 ∉ operatorManagedPodAnnotations) live.

(** * Lemmas *)

(** The variables of one name, in order. *)
Definition envAt (n : string) (env : list EnvVar) : list EnvVar := List.filter (fun e => String.eqb (ev_Name e) n) env.

Lemma envAt_app n a b : envAt n (a ++ b) = envAt n a ++ envAt n b.
Proof. apply List.filter_app. Qed.

Lemma envAt_None n env : n ∉ ev_Name <$> env -> envAt n env = [].
Proof.
  intros H. apply filter_none, Forall_forall. intros e He. apply String.eqb_neq. intros <-. apply H. by apply list_elem_of_fmap_2.
Qed.

Lemma envAt_name n env e : e ∈ envAt n env -> ev_Name e = n.
Proof. intros H. apply list_elem_of_In, filter_In in H as [_ H]. by apply String.eqb_eq. Qed.

Lemma envAt_elem n env e : e ∈ envAt n env <-> e ∈ env /\ ev_Name e = n.
Proof. unfold envAt. by rewrite !list_elem_of_In, filter_In, String.eqb_eq. Qed.

(** Lookup by name sees the last variable of that name, and nothing else. *)
Lemma envByName_at env n : envByName env !! n = last (envAt n env).
Proof.
  unfold envByName. assert (forall m : gmap string EnvVar,
    fold_left (fun m e => <[ev_Name e := e]> m) env m !! n = match last (envAt n env) with Some e => Some e | None => m !! n end) as H.
  { induction env as [|e env IH]; intros m; [done|]. cbn [fold_left]. rewrite IH. unfold envAt. cbn [List.filter].
    destruct (String.eqb (ev_Name e) n) eqn:E.
    - apply String.eqb_eq in E. subst n. fold (envAt (ev_Name e) env). rewrite lookup_insert_eq.
      rewrite last_cons. by destruct (last (envAt (ev_Name e) env)).
    - apply String.eqb_neq in E. by rewrite lookup_insert_ne. }
  rewrite H. destruct (last _); [done|]. apply lookup_empty.
Qed.

Lemma envByName_names env n : is_Some (envByName env !! n) <-> n ∈ ev_Name <$> env.
Proof.
  rewrite envByName_at, last_is_Some. rewrite list_elem_of_fmap. split.
  - intros H. destruct (envAt n env) as [|e l] eqn:E; [done|]. exists e.
    assert (e ∈ envAt n env) as [He <-]%envAt_elem by (rewrite E; apply list_elem_of_here). done.
  - intros (e & -> & He) H. apply (not_elem_of_nil e). rewrite <- H. by apply envAt_elem.
Qed.

Lemma envAt_NoDup env e : NoDup (ev_Name <$> env) -> e ∈ env -> envAt (ev_Name e) env = [e].
Proof.
  induction env as [|x env IH]; [by intros _ ?%elem_of_nil|]. rewrite fmap_cons, NoDup_cons. intros [Hx Hnd] He. unfold envAt. cbn [List.filter].
  apply elem_of_cons in He as [<-|He].
  - rewrite String.eqb_refl. f_equal. by apply envAt_None.
  - assert (ev_Name x <> ev_Name e) as Hne by (intros E; apply Hx; rewrite E; by apply list_elem_of_fmap_2).
    apply String.eqb_neq in Hne. rewrite Hne. by apply IH.
Qed.

Lemma envByName_NoDup env e : NoDup (ev_Name <$> env) -> e ∈ env -> envByName env !! ev_Name e = Some e.
Proof. intros H1 H2. by rewrite envByName_at, envAt_NoDup. Qed.

Lemma envAt_filter n (f : EnvVar -> bool) env : (forall e, ev_Name e = n -> f e = true) -> envAt n (List.filter f env) = envAt n env.
Proof.
  intros H. induction env as [|e env IH]; [done|]. unfold envAt in *. cbn [List.filter].
  destruct (f e) eqn:Ef, (String.eqb (ev_Name e) n) eqn:E; cbn [List.filter]; rewrite ?E, IH; try done.
  apply String.eqb_eq in E. rewrite H in Ef by done. discriminate.
Qed.

Lemma envAt_filter_none n (f : EnvVar -> bool) env : (forall e, ev_Name e = n -> f e = false) -> envAt n (List.filter f env) = [].
Proof.
  intros H. apply filter_none, Forall_forall. intros e He. apply list_elem_of_In, filter_In in He as [_ He].
  apply String.eqb_neq. intros E. rewrite H in He; done.
Qed.

(** Edits that keep names and leave the variables called [n]. *)
Lemma envAt_omap n (f : EnvVar -> option EnvVar) env :
  (forall e, ev_Name e = n -> f e = Some e) -> (forall e e', f e = Some e' -> ev_Name e' = ev_Name e) ->
  envAt n (omap f env) = envAt n env.
Proof.
  intros H1 H2. induction env as [|e env IH]; [done|]. unfold envAt in *. cbn [omap list_omap List.filter].
  destruct (String.eqb (ev_Name e) n) eqn:E.
  - rewrite H1 by by apply String.eqb_eq. cbn [List.filter]. by rewrite E, IH.
  - destruct (f e) as [e'|] eqn:Ef; [|exact IH]. cbn [List.filter]. by rewrite (H2 _ _ Ef), E, IH.
Qed.

Lemma namesOf_elem {T} (nameOf : T -> string) l x : x ∈ namesOf nameOf l <-> x ∈ nameOf <$> l.
Proof. unfold namesOf. by rewrite elem_of_list_to_set. Qed.

(** The two readings of the env agree when neo4j is the first container. *)
Lemma firstEnv_neo4j t c rest : pt_Containers t = c :: rest -> ct_Name c = "neo4j" -> neo4jContainer t = Some c /\ neo4jContainerEnv t = ct_Env c.
Proof. intros Hc Hn. unfold neo4jContainerEnv, neo4jContainer. by rewrite Hc; simpl; rewrite Hn. Qed.

Lemma mergeEnvVars_at current desired owned n :
  envAt n (mergeEnvVars current desired owned) =
  (if bool_decide (n ∈ owned) || bool_decide (n ∈ ev_Name <$> desired) then [] else envAt n current) ++ envAt n desired.
Proof.
  unfold mergeEnvVars. rewrite envAt_app. f_equal. destruct (bool_decide (n ∈ owned)) eqn:E1; simpl.
  - apply envAt_filter_none. intros e <-. apply bool_decide_eq_true in E1. by rewrite bool_decide_eq_true_2.
  - destruct (bool_decide (n ∈ ev_Name <$> desired)) eqn:E2; simpl.
    + apply envAt_filter_none. intros e <-. apply bool_decide_eq_true in E2.
      rewrite (bool_decide_eq_true_2 (ev_Name e ∈ namesOf ev_Name desired)) by by apply namesOf_elem. by rewrite andb_false_r.
    + apply envAt_filter. intros e <-. apply bool_decide_eq_false in E1, E2.
      rewrite !bool_decide_eq_false_2; [done|by rewrite namesOf_elem|done].
Qed.

(** * What the cluster finds in place *)

Section InPlace.
Context {T : Type} (nameOf : T -> string).

(** After a merge, what is not foreign is what was desired. *)
Lemma withoutForeign_merge current desired owned :
  withoutForeign nameOf (mergeOwnedByName nameOf current desired owned) desired (namesOf nameOf desired) = desired.
Proof.
  unfold withoutForeign, mergeOwnedByName. rewrite List.filter_app.
  rewrite filter_all, filter_none, app_nil_r; [done| |].
  - apply Forall_forall. intros c Hc. apply list_elem_of_In, filter_In in Hc as [_ Hc].
    apply andb_true_iff in Hc as [Hc _]. apply negb_true_iff in Hc. by rewrite Hc.
  - apply Forall_forall. intros c Hc. rewrite bool_decide_eq_true_2; [done|]. apply namesOf_elem. by apply list_elem_of_fmap_2.
Qed.

(** What a merge keeps of others. *)
Lemma mergeOwnedByName_elem current desired owned x :
  x ∈ mergeOwnedByName nameOf current desired owned <->
  x ∈ desired \/ (x ∈ current /\ nameOf x ∉ nameOf <$> desired /\ nameOf x ∉ owned).
Proof.
  unfold mergeOwnedByName. rewrite elem_of_app. apply or_iff_compat_l.
  rewrite list_elem_of_In, filter_In, andb_true_iff, !negb_true_iff, !bool_decide_eq_false, namesOf_elem, <- list_elem_of_In. tauto.
Qed.
End InPlace.

Lemma sameContainers_refl cs : sameContainers cs cs = true.
Proof. induction cs as [|c cs IH]; simpl; [done|]. by rewrite !String.eqb_refl. Qed.

Lemma volumesEqual_desired current desired owned :
  withoutForeign vol_Name current desired owned = desired -> volumesEqual current desired owned = true.
Proof.
  intros H. unfold volumesEqual. rewrite H, Nat.eqb_refl. simpl. apply forallb_forall. intros v Hv.
  apply bool_decide_eq_true, namesOf_elem. apply list_elem_of_fmap_2. by apply list_elem_of_In.
Qed.

Lemma initContainersEqual_desired current desired owned :
  withoutForeign ct_Name current desired owned = desired -> initContainersEqual current desired owned = true.
Proof. intros H. unfold initContainersEqual. by rewrite H, Nat.eqb_refl, sameContainers_refl. Qed.

(** Containers that agree on what is compared. *)
Definition critical (c : Container) : string * string * Z * Z * string :=
  (ct_Name c, ct_Image c, ct_CPULimit c, ct_MemoryLimit c, ct_SecurityContext c).

Lemma criticalContainers_same cs ds : critical <$> cs = critical <$> ds -> criticalContainers cs ds = false.
Proof.
  revert ds. induction cs as [|c cs IH]; intros [|d ds] H; [done..|]. injection H as _ Hi Hc Hm Hs Hr.
  simpl. unfold resourcesEqual, containerSecurityContextEqual. rewrite Hi, Hc, Hm, Hs, !String.eqb_refl, !Z.eqb_refl. simpl. by apply IH.
Qed.

Lemma criticalContainers_images cs ds : length cs = length ds -> criticalContainers cs ds = false -> ct_Image <$> cs = ct_Image <$> ds.
Proof.
  revert ds. induction cs as [|c cs IH]; intros [|d ds] Hl; [done..|]. simpl in *. intros H.
  apply orb_false_iff in H as [H H2]. apply orb_false_iff in H as [H _]. apply orb_false_iff in H as [H _].
  apply negb_false_iff, String.eqb_eq in H. f_equal; [done|]. apply IH; [lia|done].
Qed.
