(* ===== verification/PluginSettings.v ===== *)
(** A Neo4jPlugin and what it asks of its target: the names it puts in
    NEO4J_PLUGINS and whether the target's image can install them
    (validation/plugin_entrypoint.go, plugin_refused.go), its settings and its
    tokens in the shared procedure lists (plugin_conf_settings.go,
    resources/cluster.go), which of several CRs installs a plugin
    (plugin_controller.go), and where a plugin records what it wrote
    (plugin_env_ownership.go). *)
From S2P Require Import Prelude GoStrings UpgradeRules OwnedKeys.

Open Scope Z_scope.

(** * The resource *)

Record PluginSecurity := mkPluginSecurity {
  ps_AllowedProcedures : list string;
  ps_DeniedProcedures : list string;
  ps_Sandbox : bool
}.

Record Neo4jPlugin := mkNeo4jPlugin {
  np_Name : string;
  np_UID : string;
  np_CreationTimestamp : Z;
  np_Deleting : bool;
  np_Ready : bool;
  np_ClusterRef : string;
  np_SpecName : string;
  np_Enabled : bool;
  np_InstallMode : string;
  np_Config : gmap string string;
  np_Dependencies : list string;
  np_Security : option PluginSecurity
}.

(** The target of a plugin, a cluster or a standalone: its image tag, and whether
    its spec installs Aura Fleet Management. *)
Record DeploymentInfo := mkDeploymentInfo {
  di_Type : string;
  di_Name : string;
  di_ImageTag : string;
  di_Fleet : bool
}.

Definition isPreBakedInstallMode (plugin : Neo4jPlugin) : bool := String.eqb (np_InstallMode plugin) "PreBaked".
Definition isVerifiedDownloadInstallMode (plugin : Neo4jPlugin) : bool := String.eqb (np_InstallMode plugin) "VerifiedDownload".
Definition shouldSkipNeo4jPluginsEnv (plugin : Neo4jPlugin) : bool := isPreBakedInstallMode plugin || isVerifiedDownloadInstallMode plugin.

(** * What an image installs *)

Definition EntrypointPluginName (name : string) : string :=
  if String.eqb name "gds" then "graph-data-science"
  else if String.eqb name "neosemantics" then "n10s"
  else name.

Definition FleetManagementPlugin : string := "fleet-management".
Definition FleetManagementProcedures : string := "fleetManagement.*".

(** [versionKey] and the comparison of two keys; a version without a patch is
    the newest of its line. *)
Definition versionKey (v : VersionInfo) : Z * Z * Z :=
  (vi_Major v, vi_Minor v, if vi_HasPatch v then vi_Patch v else strconv.maxInt64).

Definition releaseKeyLe (a b : Z * Z * Z) : bool :=
  let '(a1, a2, a3) := a in let '(b1, b2, b3) := b in
  (a1 <? b1) || ((a1 =? b1) && ((a2 <? b2) || ((a2 =? b2) && (a3 <=? b3)))).

Definition entrypointPluginLists : list (string * list string) :=
  [("5.26.0", ["apoc"; "apoc-extended"; "bloom"; "genai"; "graph-data-science"; "n10s"]);
   ("5.26.11", ["apoc"; "apoc-extended"; "bloom"; "fleet-management"; "genai"; "graph-data-science"; "n10s"]);
   ("2025.01.0", ["apoc"; "apoc-extended"; "bloom"; "genai"; "graph-data-science"; "n10s"]);
   ("2025.05.0", ["apoc"; "apoc-extended"; "bloom"; "genai"; "graph-data-science"]);
   ("2025.08.0", ["apoc"; "apoc-extended"; "bloom"; "fleet-management"; "genai"; "graph-data-science"])].

Definition entrypointBrokenPlugins : list (string * string) := [("n10s", "5.26.22"); ("n10s", "2025.01.0")].

(** Whether the entry that starts at release [from] holds for [v]. *)
Definition sinceRelease (from : string) (v : VersionInfo) : bool :=
  match parseVersion from with
  | None => false
  | Some f => Bool.eqb (2025 <=? vi_Major f) (2025 <=? vi_Major v) && releaseKeyLe (versionKey f) (versionKey v)
  end.

Definition entrypointPluginNames (tag : string) : option (list string) :=
  match parseVersion tag with
  | None => None
  | Some v =>
      if negb ((vi_Major v =? 5) && (vi_Minor v =? 26)) && (vi_Major v <? 2025) then None
      else fold_left (fun names l => if sinceRelease l.1 v then Some l.2 else names) entrypointPluginLists None
  end.

Definition brokenEntrypointPlugin (name : string) (v : VersionInfo) : bool :=
  existsb (fun b => String.eqb b.1 name && sinceRelease b.2 v) entrypointBrokenPlugins.

Definition FleetManagementBuiltIn (tag : string) : bool :=
  match parseVersion tag with
  | None => false
  | Some v =>
      if vi_Major v <? 2025 then false
      else match parseVersion "2026.03.0" with Some f => releaseKeyLe (versionKey f) (versionKey v) | None => false end
  end.

(** The names a plugin puts in NEO4J_PLUGINS, as the spec gives them and as the
    entrypoint knows them. *)
Definition managedPluginEntries (plugin : Neo4jPlugin) : list (string * string) :=
  if negb (np_Enabled plugin) || String.eqb (np_InstallMode plugin) "PreBaked" || String.eqb (np_InstallMode plugin) "VerifiedDownload"
  then []
  else (fun n => (n, EntrypointPluginName n)) <$>
         List.filter (fun n => negb (String.eqb n EmptyString)) (np_SpecName plugin :: np_Dependencies plugin).

(** The entries [imageTag]'s image cannot install or run; their wording is left
    out. *)
Definition ManagedPluginImageErrors (plugin : Neo4jPlugin) (imageTag : string) : list (string * string) :=
  match managedPluginEntries plugin with
  | [] => []
  | entries =>
      match entrypointPluginNames imageTag, parseVersion imageTag with
      | Some known, Some v =>
          List.filter (fun e => negb (bool_decide (e.2 ∈ known)) || brokenEntrypointPlugin e.2 v) entries
      | _, _ => []
      end
  end.

Definition pluginOnImage (plugin : Neo4jPlugin) (imageTag : string) : bool :=
  np_Enabled plugin && match ManagedPluginImageErrors plugin imageTag with [] => true | _ => false end.

Definition pluginOnTarget (plugin : Neo4jPlugin) (deployment : DeploymentInfo) : bool := pluginOnImage plugin (di_ImageTag deployment).

(** The names a Managed plugin adds to NEO4J_PLUGINS. *)
Definition pluginEntries (plugin : Neo4jPlugin) : list string :=
  EntrypointPluginName (np_SpecName plugin) :: (EntrypointPluginName <$> np_Dependencies plugin).

(** * Settings *)

Definition additiveConfKeys : list string :=
  ["dbms.security.procedures.unrestricted"; "dbms.security.procedures.allowlist"; "dbms.security.procedures.denylist";
   "dbms.security.http_auth_allowlist"; "server.unmanaged_extension_classes"].

Definition Neo4jSettingEnvVarName (key : string) : string :=
  "NEO4J_" +:+ strings.ReplaceAllByte (strings.ReplaceAllByte key "_"%char "__") "."%char "_".

Definition IsAdditiveConfKey (key : string) : bool := bool_decide (key ∈ additiveConfKeys).

Definition IsAdditiveConfEnvName (name : string) : bool :=
  existsb (fun key => String.eqb (Neo4jSettingEnvVarName key) name) additiveConfKeys.

Definition AllowlistSetting : string := "dbms.security.procedures.allowlist".

(** The tokens of [l], each once, in the order of their first. *)
Definition unionTokens (l : list string) : list string :=
  fold_left (fun toks t => if bool_decide (t ∈ toks) then toks else toks ++ [t]) l [].

Definition unionCSV (a b : string) : string := strings.Join (unionTokens (splitCSVTokens a ++ splitCSVTokens b)) ",".
Definition MergeConfListValues (a b : string) : string := unionCSV a b.

Definition subtractCSV (value remove : string) : string :=
  strings.Join (List.filter (fun t => negb (bool_decide (t ∈ splitCSVSet remove))) (splitCSVTokens value)) ",".

Definition sameCSVSet (a b : string) : bool := bool_decide (splitCSVSet a = splitCSVSet b).

Definition automaticPluginSecuritySettings (pluginName : string) : gmap string string :=
  if String.eqb pluginName "bloom" then
    {["dbms.security.procedures.unrestricted" := "bloom.*"; "dbms.security.http_auth_allowlist" := "/,/browser.*,/bloom.*";
      "server.unmanaged_extension_classes" := "com.neo4j.bloom.server=/bloom"]}
  else if String.eqb pluginName "graph-data-science" || String.eqb pluginName "gds" then
    {["dbms.security.procedures.unrestricted" := "gds.*,apoc.load.*"]}
  else if String.eqb pluginName "fleet-management" then
    {["dbms.security.procedures.unrestricted" := "fleetManagement.*"; "dbms.security.procedures.allowlist" := "fleetManagement.*"]}
  else ∅.

Definition specSecuritySettings (plugin : Neo4jPlugin) : gmap string string :=
  match np_Security plugin with
  | None => ∅
  | Some sec =>
      let allowed := strings.Join (ps_AllowedProcedures sec) "," in
      let settings : gmap string string :=
        match ps_AllowedProcedures sec with
        | [] => ∅
        | _ => let m : gmap string string := {["dbms.security.procedures.allowlist" := allowed]} in
               if ps_Sandbox sec then m else <["dbms.security.procedures.unrestricted" := allowed]> m
        end in
      match ps_DeniedProcedures sec with
      | [] => settings
      | denied => <["dbms.security.procedures.denylist" := strings.Join denied ","]> settings
      end
  end.

Definition pluginSecuritySettings (plugin : Neo4jPlugin) : gmap string string :=
  specSecuritySettings plugin ∪ automaticPluginSecuritySettings (np_SpecName plugin).

Definition fleetAutomaticAllowlist (plugin : Neo4jPlugin) (key : string) : bool :=
  String.eqb key AllowlistSetting && String.eqb (EntrypointPluginName (np_SpecName plugin)) FleetManagementPlugin.

Definition additiveOnly (m : gmap string string) : gmap string string := filter (fun kv => IsAdditiveConfKey kv.1 = true) m.

Definition pluginListSettings (plugin : Neo4jPlugin) : gmap string string :=
  let automatic := filter (fun kv => fleetAutomaticAllowlist plugin kv.1 = false)
                     (additiveOnly (automaticPluginSecuritySettings (np_SpecName plugin))) in
  let out := additiveOnly (specSecuritySettings plugin) ∪ automatic in
  map_fold (fun k v out => <[k := MergeConfListValues (default EmptyString (out !! k)) v]> out) out (additiveOnly (np_Config plugin)).

Definition pluginConfKeyIsNonDynamic (key : string) : bool :=
  bool_decide (key ∈ ["gds.enterprise.license_file"; "dbms.bloom.license_file"; "dbms.security.procedures.allowlist";
                      "dbms.security.procedures.denylist"; "dbms.security.procedures.unrestricted"]).

Definition pluginConfKeyIsSecurity (key : string) : bool :=
  strings.HasPrefix key "dbms.security." || strings.HasPrefix key "server.unmanaged_extension_classes"
  || strings.HasPrefix key "dbms.bloom.".

Definition pluginConfKey (key : string) : bool := pluginConfKeyIsNonDynamic key || pluginConfKeyIsSecurity key.

Definition pluginConfSettings (plugin : Neo4jPlugin) : gmap string string :=
  filter (fun kv => pluginConfKey kv.1 = true) (np_Config plugin)
  ∪ (specSecuritySettings plugin ∪ automaticPluginSecuritySettings (np_SpecName plugin)).

Definition pluginSecurityRemovalSettings (plugin : Neo4jPlugin) : gmap string string :=
  map_fold (fun k v out =>
    match out !! k with
    | Some existing => if IsAdditiveConfKey k then <[k := MergeConfListValues existing v]> out else <[k := v]> out
    | None => <[k := v]> out
    end) (automaticPluginSecuritySettings (np_SpecName plugin)) (pluginSecuritySettings plugin).

(** The variables a plugin sets as a whole. *)
Definition pluginOwnedEnvNames (plugin : Neo4jPlugin) (deployment : DeploymentInfo) : gset string :=
  let standalone := String.eqb (di_Type deployment) "standalone" in
  set_map Neo4jSettingEnvVarName
    (dom (filter (fun kv => IsAdditiveConfKey kv.1 || (standalone && pluginConfKey kv.1) = false) (np_Config plugin)) : gset string)
  ∪ (if standalone then ∅
     else set_map Neo4jSettingEnvVarName
            (dom (filter (fun kv => IsAdditiveConfKey kv.1 = false) (pluginSecuritySettings plugin)) : gset string)).

(** * Which resource installs a plugin *)

Definition sameTuplePlugins (items : list Neo4jPlugin) (plugin : Neo4jPlugin) : list Neo4jPlugin :=
  List.filter (fun c => negb (String.eqb (np_Name c) (np_Name plugin)) && String.eqb (np_ClusterRef c) (np_ClusterRef plugin)
                        && String.eqb (np_SpecName c) (np_SpecName plugin) && negb (np_Deleting c)) items.

Definition winsTuple (candidate current : Neo4jPlugin) : bool :=
  if negb (Bool.eqb (np_Enabled candidate) (np_Enabled current)) then np_Enabled candidate
  else if negb (np_CreationTimestamp candidate =? np_CreationTimestamp current)
  then np_CreationTimestamp candidate <? np_CreationTimestamp current
  else sort.leb (np_UID candidate) (np_UID current) && negb (String.eqb (np_UID candidate) (np_UID current)).

Definition tupleWinner (cs : list Neo4jPlugin) : option Neo4jPlugin :=
  fold_left (fun winner c => match winner with
                             | None => Some c
                             | Some w => if winsTuple c w then Some c else winner
                             end) cs None.

(** The CR that installs the plugin, or nothing when no other contests it. *)
Definition checkForDuplicatePlugin (items : list Neo4jPlugin) (plugin : Neo4jPlugin) : string :=
  match sameTuplePlugins items plugin with
  | [] => EmptyString
  | cs => np_Name (fold_left (fun winner c => if winsTuple c winner then c else winner) cs plugin)
  end.

(** [Reconcile] holds back an enabled CR another one wins over. *)
Definition heldBack (items : list Neo4jPlugin) (plugin : Neo4jPlugin) : bool :=
  let winner := checkForDuplicatePlugin items plugin in
  np_Enabled plugin && negb (String.eqb winner EmptyString) && negb (String.eqb winner (np_Name plugin)).

Definition pluginSuccessor (items : list Neo4jPlugin) (plugin : Neo4jPlugin) (deployment : DeploymentInfo) : option Neo4jPlugin :=
  if np_Enabled plugin && negb (np_Deleting plugin) then None
  else match tupleWinner (sameTuplePlugins items plugin) with
       | Some winner => if pluginOnTarget winner deployment then Some winner else None
       | None => None
       end.

(** The plugins of the target other than [plugin], of those listed. The sort by
    name decides no result and is left out. *)
Definition otherPlugins (items : list Neo4jPlugin) (plugin : Neo4jPlugin) (deployment : DeploymentInfo) : list Neo4jPlugin :=
  List.filter (fun o => negb (String.eqb (np_Name o) (np_Name plugin) || negb (String.eqb (np_ClusterRef o) (np_ClusterRef plugin))
                              || negb (pluginOnTarget o deployment) || np_Deleting o || String.eqb (np_SpecName o) (np_SpecName plugin))) items
  ++ match pluginSuccessor items plugin deployment with Some s => [s] | None => [] end.

(** * Records *)

Definition pluginEnvVarsAnnotationPrefix : string := "neo4j.com/plugin-env-vars.".
Definition pluginEntriesAnnotationPrefix : string := "neo4j.com/plugin-entries.".

Section Records.
(** The first eight hex digits of the SHA-256 of a name. *)
Variable shortHash : string -> string.

Definition pluginRecordKey (prefix plugin : string) : string :=
  let room := (63 - String.length (strings.TrimPrefix prefix "neo4j.com/"))%nat in
  if (String.length plugin <=? room)%nat then prefix +:+ plugin
  else prefix +:+ strings.upto (room - 9) plugin +:+ "-" +:+ shortHash plugin.

Definition pluginEnvVarsAnnotation (plugin : string) : string := pluginRecordKey pluginEnvVarsAnnotationPrefix plugin.
Definition pluginEntriesAnnotation (plugin : string) : string := pluginRecordKey pluginEntriesAnnotationPrefix plugin.
End Records.
