(* ===== verification/PluginWrites.v ===== *)
(** The edits a Neo4jPlugin makes on its target's StatefulSet and takes off again
    (plugin_env_ownership.go, and applyPluginEnv, applyVerifiedDownload and
    writePluginToTarget of plugin_controller.go). The order in which Go visits a
    plugin's spec.config, the init container and volumes the resource builder
    renders for it, and the comparison of an init container with a rendered one
    are parameters. *)
From S2P Require Import Prelude GoStrings OwnedKeys JsonList PodTemplate PluginSettings.

Open Scope Z_scope.

(** * Edits of an env list *)

Definition set_ev_Value (v : string) (e : EnvVar) : EnvVar := mkEnvVar (ev_Name e) v (ev_ValueFrom e).

Definition hasEnv (name : string) (env : list EnvVar) : bool := existsb (fun e => String.eqb (ev_Name e) name) env.

(** The first variable of that name. *)
Definition findEnvVar (env : list EnvVar) (name : string) : option EnvVar :=
  List.find (fun e => String.eqb (ev_Name e) name) env.

Fixpoint editFirst (name : string) (f : EnvVar -> EnvVar) (env : list EnvVar) : list EnvVar :=
  match env with
  | [] => []
  | e :: rest => if String.eqb (ev_Name e) name then f e :: rest else e :: editFirst name f rest
  end.

(** The value of the first variable of that name, or a new one. *)
Definition setEnvValue (name value : string) (env : list EnvVar) : list EnvVar :=
  if hasEnv name env then editFirst name (set_ev_Value value) env else env ++ [mkEnvVar name value None].

Definition NEO4J_PLUGINS : string := "NEO4J_PLUGINS".

(** [neo4jPluginsList]: the first of them that is a plain JSON list. *)
Definition neo4jPluginsList (env : list EnvVar) : list string :=
  fold_right (fun e rest =>
    if negb (String.eqb (ev_Name e) NEO4J_PLUGINS) || bool_decide (ev_ValueFrom e <> None)
       || String.eqb (strings.TrimSpace (ev_Value e)) EmptyString
    then rest
    else match json.Unmarshal (ev_Value e) with Some names => names | None => rest end) [] env.

(** * Adding *)

(** The names one after the other. *)
Fixpoint mergeNames (value : string) (names : list string) : option string :=
  match names with
  | [] => Some value
  | n :: rest => match MergeNeo4jPluginList value n with Some v => mergeNames v rest | None => None end
  end.

Definition newPluginsValue (names : list string) : string :=
  "[" +:+ strings.Join ((fun n => String json.quote (n +:+ String json.quote EmptyString)) <$> names) "," +:+ "]".

(** [None]: the list is no JSON list. *)
Definition addEntries (plugin : Neo4jPlugin) (env : list EnvVar) : option (list EnvVar) :=
  if shouldSkipNeo4jPluginsEnv plugin then Some env
  else match findEnvVar env NEO4J_PLUGINS with
       | None => Some (env ++ [mkEnvVar NEO4J_PLUGINS (newPluginsValue (pluginEntries plugin)) None])
       | Some e => match mergeNames (ev_Value e) (pluginEntries plugin) with
                   | Some v => Some (editFirst NEO4J_PLUGINS (set_ev_Value v) env)
                   | None => None
                   end
       end.

Definition mergePluginSecurityEnv (env : list EnvVar) (settings : gmap string string) : list EnvVar :=
  fold_left (fun env key =>
    let envName := Neo4jSettingEnvVarName key in
    let value := default EmptyString (settings !! key) in
    match findEnvVar env envName with
    | Some e => setEnvValue envName (if IsAdditiveConfKey key then MergeConfListValues (ev_Value e) value else value) env
    | None => env ++ [mkEnvVar envName value None]
    end) (sort.Strings (map_to_list settings).*1) env.

Definition removePluginSecurityEnv (env : list EnvVar) (settings : gmap string string) : list EnvVar :=
  let remove : gmap string string := list_to_map ((fun kv => (Neo4jSettingEnvVarName kv.1, kv.2)) <$> map_to_list (additiveOnly settings)) in
  omap (fun e => match remove !! ev_Name e with
                 | Some toks => let v := subtractCSV (ev_Value e) toks in
                                if String.eqb v EmptyString then None else Some (set_ev_Value v e)
                 | None => Some e
                 end) env.

Definition removeStandalonePluginConfEnv (env : list EnvVar) (plugin : Neo4jPlugin) (removal : gmap string string) : list EnvVar :=
  let conf := pluginConfSettings plugin in
  let tokens := map_fold (fun k v tokens =>
                  match tokens !! k with
                  | Some existing => <[k := MergeConfListValues existing v]> tokens
                  | None => <[k := v]> tokens
                  end) removal (additiveOnly conf) in
  let scalar : gmap string string :=
    list_to_map ((fun kv => (Neo4jSettingEnvVarName kv.1, kv.2)) <$> map_to_list (filter (fun kv => IsAdditiveConfKey kv.1 = false) conf)) in
  List.filter (fun e => negb (bool_decide (scalar !! ev_Name e = Some (ev_Value e)) && bool_decide (ev_ValueFrom e = None)))
    (removePluginSecurityEnv env tokens).

(** The settings a cluster's plugin merges into the env: scalars, and its tokens
    in the shared lists. *)
Definition clusterSecuritySettings (plugin : Neo4jPlugin) : gmap string string :=
  pluginListSettings plugin ∪ filter (fun kv => IsAdditiveConfKey kv.1 = false) (pluginSecuritySettings plugin).

(** * Taking away *)

Definition withoutEnvNames (names keep : gset string) (env : list EnvVar) : list EnvVar * list string :=
  let drop := fun name => bool_decide (name ∈ names) && negb (bool_decide (name ∈ keep)) && negb (IsAdditiveConfEnvName name) in
  (List.filter (fun e => negb (drop (ev_Name e))) env,
   sort.Strings (elements (list_to_set (List.filter drop (ev_Name <$> env)) : gset string))).

(** A shared list's new value. *)
Definition pluginListValue (live : string) (own : list string) (claimed : gset string) : string :=
  let kept := fold_left (fun kept t =>
                if bool_decide (t ∈ kept) || negb (bool_decide (t ∈ own) || bool_decide (t ∈ claimed)) then kept else kept ++ [t])
                (splitCSVTokens live) [] in
  let kept := fold_left (fun kept t => if bool_decide (t ∈ kept) then kept else kept ++ [t]) own kept in
  let value := strings.Join kept "," in
  if sameCSVSet live value then live else value.

(** Tokens by variable. *)
Definition tokensByName (own : gmap string string) : gmap string (list string) :=
  map_fold (fun key tokens acc =>
    let name := Neo4jSettingEnvVarName key in
    <[name := splitCSVTokens (MergeConfListValues (strings.Join (default [] (acc !! name)) ",") tokens)]> acc) ∅ own.

Definition claimedTokens (others : list Neo4jPlugin) (name : string) : gset string :=
  list_to_set (others ≫= fun o =>
    map_to_list (pluginListSettings o) ≫= fun kv =>
      if String.eqb (Neo4jSettingEnvVarName kv.1) name then splitCSVTokens kv.2 else []).

Definition listsEnv (own : gmap string string) (others : list Neo4jPlugin) (targetOwned : gset string) (env : list EnvVar) : list EnvVar :=
  let ownTokens := tokensByName own in
  omap (fun e =>
    if negb (IsAdditiveConfEnvName (ev_Name e)) then Some e
    else if bool_decide (ev_Name e ∈ targetOwned) || bool_decide (ev_ValueFrom e <> None) then Some e
    else let value := pluginListValue (ev_Value e) (default [] (ownTokens !! ev_Name e)) (claimedTokens others (ev_Name e)) in
         if String.eqb value EmptyString then None else Some (set_ev_Value value e)) env
  ++ omap (fun name =>
       if negb (hasEnv name env) && negb (bool_decide (name ∈ targetOwned)) then
         match default [] (ownTokens !! name) with [] => None | toks => Some (mkEnvVar name (strings.Join toks ",") None) end
       else None) (sort.Strings (map_to_list ownTokens).*1).

Definition setClusterPluginLists (own : gmap string string) (others : list Neo4jPlugin) (targetOwned : gset string) (t : PodTemplate) : PodTemplate :=
  match neo4jContainer t with
  | None => t
  | Some c => setNeo4jEnv (listsEnv own others targetOwned (ct_Env c)) t
  end.

Definition allowlistEnvName : string := Neo4jSettingEnvVarName AllowlistSetting.

Definition fleetOnlyAllowlist (t : PodTemplate) : bool :=
  match findEnvVar (neo4jContainerEnv t) allowlistEnvName with
  | Some e => bool_decide (ev_ValueFrom e = None) && bool_decide (splitCSVSet (ev_Value e) = {[FleetManagementProcedures]})
  | None => false
  end.

Definition targetOwnedEnvNames (sts : ServerSet) : gset string :=
  readOwnedEnvVarNames sts ∪ splitCSVSet (tsAnnotation sts standaloneOwnedEnvVarsAnnotation).

Definition setPluginEnvRecord (key : string) (owned : gset string) (sts : ServerSet) : ServerSet :=
  if decide (owned = ∅) then set_ts_Annotations (delete key (ts_Annotations sts)) sts
  else annotateSet key (ownedKeysCSV (elements owned)) sts.

(** The names of one variable less those dropped; [None] when it is no JSON list. *)
Fixpoint removeNames (value : string) (names : list string) : option string :=
  match names with
  | [] => Some value
  | n :: rest => match RemoveFromNeo4jPluginList value n with Some v => removeNames v rest | None => None end
  end.

Definition withoutPluginEntries (env : list EnvVar) (names : list string) (others : list Neo4jPlugin) (deployment : DeploymentInfo) : option (list EnvVar) :=
  let keep : gset string := list_to_set (List.filter (fun o => negb (shouldSkipNeo4jPluginsEnv o)) others ≫= pluginEntries)
                            ∪ (if di_Fleet deployment then {["fleet-management"]} else ∅) in
  let gone := List.filter (fun n => negb (bool_decide (n ∈ keep))) names in
  mapM (fun e => if negb (String.eqb (ev_Name e) NEO4J_PLUGINS) || bool_decide (ev_ValueFrom e <> None) then Some e
                 else match removeNames (ev_Value e) gone with Some v => Some (set_ev_Value v e) | None => None end) env.

(** * Init containers and volumes *)

Definition PluginInitContainerName (pluginName : string) : string := "plugin-init-" +:+ pluginName.
Definition PluginCAVolumeName : string := "plugin-ca".
Definition authVolumeName (pluginName : string) : string := "plugin-auth-" +:+ pluginName.

Definition podSpecMountsVolume (t : PodTemplate) (name : string) : bool :=
  existsb (fun c => bool_decide (name ∈ ct_VolumeMounts c)) (pt_InitContainers t ++ pt_Containers t).

Definition podSpecHasVolume (t : PodTemplate) (name : string) : bool := existsb (fun v => String.eqb (vol_Name v) name) (pt_Volumes t).

Definition trustedCAProjections (v : Volume) : list string :=
  match vol_Source v with
  | OtherSource _ => [EmptyString]
  | ProjectedSource sources =>
      sort.Strings (sources ≫= fun s =>
        match s with
        | OtherProjection _ => [EmptyString]
        | SecretProjection name [] => [name +:+ "/"]
        | SecretProjection name items => (fun kp => name +:+ "/" +:+ kp.1 +:+ "/" +:+ kp.2) <$> items
        end)
  end.

Definition sameTrustedCAs (a b : Volume) : bool := bool_decide (trustedCAProjections a = trustedCAProjections b).

Definition dropFirstVolume (name : string) : list Volume -> list Volume :=
  fix go vs := match vs with
               | [] => []
               | v :: rest => if String.eqb (vol_Name v) name then rest else v :: go rest
               end.

Definition replaceFirstVolume (new : Volume) : list Volume -> list Volume :=
  fix go vs := match vs with
               | [] => []
               | v :: rest => if String.eqb (vol_Name v) PluginCAVolumeName
                              then (if sameTrustedCAs v new then v else new) :: rest else v :: go rest
               end.

Definition setPluginCAVolume (desired : option Volume) (t : PodTemplate) : PodTemplate :=
  match desired with
  | None => if podSpecHasVolume t PluginCAVolumeName && negb (podSpecMountsVolume t PluginCAVolumeName)
            then set_pt_Volumes (dropFirstVolume PluginCAVolumeName (pt_Volumes t)) t else t
  | Some v => if podSpecHasVolume t PluginCAVolumeName then set_pt_Volumes (replaceFirstVolume v (pt_Volumes t)) t
              else set_pt_Volumes (pt_Volumes t ++ [v]) t
  end.

Definition withoutPluginInitContainer (plugin : Neo4jPlugin) (t : PodTemplate) : PodTemplate :=
  let containerName := PluginInitContainerName (np_SpecName plugin) in
  let t := set_pt_InitContainers (List.filter (fun c => negb (String.eqb (ct_Name c) containerName)) (pt_InitContainers t)) t in
  let caUnused := negb (podSpecMountsVolume t PluginCAVolumeName) in
  let t := set_pt_Volumes (List.filter (fun v => negb (String.eqb (vol_Name v) (authVolumeName (np_SpecName plugin))
                                                      || (caUnused && String.eqb (vol_Name v) PluginCAVolumeName))) (pt_Volumes t)) t in
  let owned := parsePluginInitOwned (default EmptyString (pt_Annotations t !! PluginInitContainersAnnotation)) in
  if bool_decide (containerName ∈ owned) then
    let owned := owned ∖ {[containerName]} in
    if decide (owned = ∅) then set_pt_Annotations (delete PluginInitContainersAnnotation (pt_Annotations t)) t
    else set_pt_Annotations (<[PluginInitContainersAnnotation := formatPluginInitOwned owned]> (pt_Annotations t)) t
  else t.

Definition successorDownloads (plugin : Neo4jPlugin) (others : list Neo4jPlugin) : bool :=
  existsb (fun o => String.eqb (np_SpecName o) (np_SpecName plugin) && isVerifiedDownloadInstallMode o) others.

(** [pluginListTokens] of a removal from a standalone. *)
Definition listTokensOf (plugin : Neo4jPlugin) (settings : gmap string string) : gmap string string :=
  map_fold (fun k v out => <[k := MergeConfListValues (default EmptyString (out !! k)) v]> out) (additiveOnly settings)
    (additiveOnly (np_Config plugin)).

Definition pluginListTokens (plugin : Neo4jPlugin) (others : list Neo4jPlugin) (targetOwned : gset string) : gmap string string :=
  let tokens := fold_left (fun tokens o =>
    map_fold (fun k v tokens => match tokens !! k with Some mine => <[k := subtractCSV mine v]> tokens | None => tokens end)
      tokens (listTokensOf o (pluginSecuritySettings o))) others (listTokensOf plugin (pluginSecurityRemovalSettings plugin)) in
  filter (fun kv => kv.2 <> EmptyString /\ Neo4jSettingEnvVarName kv.1 ∉ targetOwned) tokens.

(** * The plugin on its target *)

Section Plugin.
(** Go visits a map in any order. *)
Variable order : gmap string string -> list (string * string).
(** The first digits of a name's SHA-256. *)
Variable shortHash : string -> string.
(** What the resource builder renders for a VerifiedDownload plugin, the CA
    volume of its target, and whether every field a rendered container sets is
    so in a live one (equality.Semantic.DeepDerivative). *)
Variable initContainerFor : Neo4jPlugin -> Container.
Variable authVolumeFor : Neo4jPlugin -> option Volume.
Variable caVolume : option Volume.
Variable derivative : Container -> Container -> bool.

Definition applyPluginEnv (plugin : Neo4jPlugin) (deployment : DeploymentInfo) (env : list EnvVar) : option (list EnvVar) :=
  let standalone := String.eqb (di_Type deployment) "standalone" in
  match addEntries plugin env with
  | None => None
  | Some env =>
      let env := fold_left (fun env kv =>
                   if (standalone && pluginConfKey kv.1) || IsAdditiveConfKey kv.1 then env
                   else setEnvValue (Neo4jSettingEnvVarName kv.1) kv.2 env) (order (np_Config plugin)) env in
      Some (if standalone then removeStandalonePluginConfEnv env plugin (pluginSecurityRemovalSettings plugin)
            else mergePluginSecurityEnv env (clusterSecuritySettings plugin))
  end.

Fixpoint placeInit (desired : Container) (cs : list Container) : list Container :=
  match cs with
  | [] => [desired]
  | c :: rest => if String.eqb (ct_Name c) (ct_Name desired) then (if derivative desired c then c else desired) :: rest
                 else c :: placeInit desired rest
  end.

Definition applyVerifiedDownload (plugin : Neo4jPlugin) (t : PodTemplate) : PodTemplate :=
  let desired := initContainerFor plugin in
  let t := set_pt_InitContainers (placeInit desired (pt_InitContainers t)) t in
  let t := match authVolumeFor plugin with
           | Some v => if podSpecHasVolume t (vol_Name v) then t else set_pt_Volumes (pt_Volumes t ++ [v]) t
           | None => t
           end in
  let t := setPluginCAVolume caVolume t in
  let owned := parsePluginInitOwned (default EmptyString (pt_Annotations t !! PluginInitContainersAnnotation)) in
  if bool_decide (ct_Name desired ∈ owned) then t
  else set_pt_Annotations (<[PluginInitContainersAnnotation := formatPluginInitOwned ({[ct_Name desired]} ∪ owned)]> (pt_Annotations t)) t.

(** [None]: no neo4j container, or NEO4J_PLUGINS is no JSON list. *)
Definition applyPluginToTemplate (plugin : Neo4jPlugin) (deployment : DeploymentInfo) (t : PodTemplate) : option PodTemplate :=
  match neo4jContainer t with
  | None => None
  | Some c =>
      match applyPluginEnv plugin deployment (ct_Env c) with
      | None => None
      | Some env =>
          let t := setNeo4jEnv env t in
          Some (if isVerifiedDownloadInstallMode plugin then applyVerifiedDownload plugin t else t)
      end
  end.

Definition envKey (plugin : Neo4jPlugin) : string := pluginEnvVarsAnnotation shortHash (np_Name plugin).
Definition entriesKey (plugin : Neo4jPlugin) : string := pluginEntriesAnnotation shortHash (np_Name plugin).

Definition envOwnedElsewhere (sts : ServerSet) (plugin : Neo4jPlugin) (deployment : DeploymentInfo) (others : list Neo4jPlugin) : gset string :=
  targetOwnedEnvNames sts
  ∪ list_to_set (List.filter (fun kv => negb (String.eqb kv.1 (envKey plugin)) && strings.HasPrefix kv.1 pluginEnvVarsAnnotationPrefix)
                   (map_to_list (ts_Annotations sts)) ≫= fun kv => splitCSVTokens kv.2)
  ∪ ⋃ ((fun o => pluginOwnedEnvNames o deployment) <$> others).

Definition editTemplateEnv (f : list EnvVar -> list EnvVar) (sts : ServerSet) : ServerSet :=
  match neo4jContainer (ts_Template sts) with
  | None => sts
  | Some c => set_ts_Template (setNeo4jEnv (f (ct_Env c)) (ts_Template sts)) sts
  end.

(** The StatefulSet, and what was taken out of NEO4J_PLUGINS. *)
Definition applyPluginEntries (sts : ServerSet) (plugin : Neo4jPlugin) (deployment : DeploymentInfo) (others : list Neo4jPlugin) : ServerSet * list string :=
  let want : gset string := if shouldSkipNeo4jPluginsEnv plugin then ∅ else list_to_set (pluginEntries plugin) in
  match ts_Annotations sts !! entriesKey plugin with
  | None => (setPluginEnvRecord (entriesKey plugin) want sts, [])
  | Some recorded =>
      let stale := sort.Strings (elements (splitCSVSet recorded ∖ want)) in
      match stale, neo4jContainer (ts_Template sts) with
      | _ :: _, Some c =>
          if bool_decide (NEO4J_PLUGINS ∈ targetOwnedEnvNames sts) then (setPluginEnvRecord (entriesKey plugin) want sts, [])
          else match withoutPluginEntries (ct_Env c) stale others deployment with
               | None => (sts, [])
               | Some env =>
                   let before := neo4jPluginsList (ct_Env c) in
                   let after := neo4jPluginsList env in
                   let gone := List.filter (fun n => bool_decide (n ∈ before) && negb (bool_decide (n ∈ after))) stale in
                   (setPluginEnvRecord (entriesKey plugin) want (set_ts_Template (setNeo4jEnv env (ts_Template sts)) sts),
                    (fun n => "NEO4J_PLUGINS[" +:+ n +:+ "]") <$> gone)
               end
      | _, _ => (setPluginEnvRecord (entriesKey plugin) want sts, [])
      end
  end.

(** [None]: an error; the names are those removed. [others] is what
    [otherPlugins] lists. *)
Definition applyPlugin (sts : ServerSet) (plugin : Neo4jPlugin) (deployment : DeploymentInfo) (others : list Neo4jPlugin) : option (ServerSet * list string) :=
  match applyPluginToTemplate plugin deployment (ts_Template sts) with
  | None => None
  | Some t =>
      let sts := set_ts_Template t sts in
      let want := pluginOwnedEnvNames plugin deployment in
      let stale := splitCSVSet (tsAnnotation sts (envKey plugin)) ∖ want in
      let '(env, removed) := withoutEnvNames stale (envOwnedElsewhere sts plugin deployment others) (neo4jContainerEnv t) in
      let sts := editTemplateEnv (fun _ => env) sts in
      let sts := setPluginEnvRecord (envKey plugin) want sts in
      let '(sts, removed) :=
        if String.eqb (di_Type deployment) "standalone" then (sts, removed)
        else
          let before := fleetOnlyAllowlist (ts_Template sts) in
          let sts := set_ts_Template (setClusterPluginLists (pluginListSettings plugin) others (targetOwnedEnvNames sts) (ts_Template sts)) sts in
          let gone := before && String.eqb (EntrypointPluginName (np_SpecName plugin)) FleetManagementPlugin
                      && match findEnvVar (neo4jContainerEnv (ts_Template sts)) allowlistEnvName with None => true | Some _ => false end in
          (sts, if gone then removed ++ [allowlistEnvName] else removed) in
      let '(sts, gone) := applyPluginEntries sts plugin deployment others in
      Some (sts, sort.Strings (removed ++ gone))
  end.

Definition withoutPlugin (sts : ServerSet) (plugin : Neo4jPlugin) (deployment : DeploymentInfo) (others : list Neo4jPlugin) : ServerSet :=
  let targetOwned := targetOwnedEnvNames sts in
  let sts :=
    match neo4jContainer (ts_Template sts) with
    | None => sts
    | Some c =>
        let names := splitCSVSet (tsAnnotation sts (envKey plugin)) ∪ pluginOwnedEnvNames plugin deployment in
        let env := (withoutEnvNames names (envOwnedElsewhere sts plugin deployment others) (ct_Env c)).1 in
        let env := if String.eqb (di_Type deployment) "standalone"
                   then removePluginSecurityEnv env (pluginListTokens plugin others targetOwned)
                   else listsEnv ∅ others targetOwned env in
        let entries := splitCSVSet (tsAnnotation sts (entriesKey plugin))
                       ∪ (if shouldSkipNeo4jPluginsEnv plugin then ∅ else list_to_set (pluginEntries plugin)) in
        let env := if bool_decide (NEO4J_PLUGINS ∈ targetOwned) || bool_decide (entries = ∅) then env
                   else default env (withoutPluginEntries env (sort.Strings (elements entries)) others deployment) in
        set_ts_Template (setNeo4jEnv env (ts_Template sts)) sts
    end in
  let sts := if successorDownloads plugin others then sts
             else set_ts_Template (withoutPluginInitContainer plugin (ts_Template sts)) sts in
  set_ts_Annotations (delete (entriesKey plugin) (delete (envKey plugin) (ts_Annotations sts))) sts.

(** * Writes *)

Definition changedEnvNames (before after : list EnvVar) : list string :=
  let was := envByName before in let is_ := envByName after in
  sort.Strings (elements (dom (filter (fun kv => was !! kv.1 <> Some kv.2) is_)
                          ∪ (dom was ∖ dom is_) : gset string)).

Definition ownedEnvNames (names : list string) (owned : gset string) : list string :=
  List.filter (fun n => bool_decide (n ∈ owned)) names.

(** The variables of the cluster's own the edits would change. *)
Definition ownedEnvRefusal (before after : ServerSet) (deployment : DeploymentInfo) : list string :=
  if negb (String.eqb (di_Type deployment) "cluster") then []
  else ownedEnvNames (changedEnvNames (neo4jContainerEnv (ts_Template before)) (neo4jContainerEnv (ts_Template after)))
         (readOwnedEnvVarNames before).

(** What one attempt of a write does to the stored StatefulSet. *)
Inductive pluginWrite :=
| WritesNothing
| WritesRecords (sts : ServerSet)
| WritesTemplate (sts : ServerSet)
| RefusesOwned (names : list string)
| WriteFails.

Definition writeOf (before after : ServerSet) (refusal : list string) : pluginWrite :=
  if decide (ts_Template before = ts_Template after) then
    if stringMapsEqual (ts_Annotations before) (ts_Annotations after) then WritesNothing else WritesRecords after
  else match refusal with [] => WritesTemplate after | _ => RefusesOwned refusal end.

Definition writePluginToTarget (sts : ServerSet) (plugin : Neo4jPlugin) (deployment : DeploymentInfo) (others : list Neo4jPlugin) : pluginWrite :=
  match applyPlugin sts plugin deployment others with
  | None => WriteFails
  | Some (after, _) => writeOf sts after (ownedEnvRefusal sts after deployment)
  end.

Definition writeRemoval (sts : ServerSet) (plugin : Neo4jPlugin) (deployment : DeploymentInfo) (others : list Neo4jPlugin) : pluginWrite :=
  writeOf sts (withoutPlugin sts plugin deployment others) [].

Definition stored (sts : ServerSet) (w : pluginWrite) : ServerSet :=
  match w with WritesRecords s | WritesTemplate s => s | _ => sts end.
End Plugin.
