(* ===== verification/TemplateApply.v ===== *)
(** The cluster controller's write of the server pod template: the update branch
    of createOrUpdateResourceInternal, with the variables it hands to the plugins
    when it stops setting them (cluster_env_lists.go, plugin_entries_handover.go)
    and Aura Fleet Management's name in NEO4J_PLUGINS (fleet_plugin.go,
    fleet_owned_plugins.go, fleet_disable.go). *)
From S2P Require Import Prelude GoStrings UpgradeRules UpgradeRecord OwnedKeys JsonList PodTemplate PluginSettings PluginWrites.

Open Scope Z_scope.

(** * Aura Fleet Management *)

Definition fleetManagementPluginEntry : string := "fleet-management".
Definition fleetEntriesAnnotation : string := "neo4j.com/aura-fleet-management-entries".

Definition fleetEntryRecorded (sts : ServerSet) : bool :=
  bool_decide (fleetManagementPluginEntry ∈ splitCSVSet (tsAnnotation sts fleetEntriesAnnotation)).

Definition setFleetEntryRecord (recorded : bool) (sts : ServerSet) : ServerSet :=
  if recorded then annotateSet fleetEntriesAnnotation fleetManagementPluginEntry sts
  else set_ts_Annotations (delete fleetEntriesAnnotation (ts_Annotations sts)) sts.

Definition neo4jPluginsOwnedByTarget (sts : ServerSet) : bool := bool_decide (NEO4J_PLUGINS ∈ targetOwnedEnvNames sts).

Inductive fleetResult :=
| FleetNoContainer
| FleetNotAList
| FleetUnchanged
| FleetAdded (env : list EnvVar).

Definition addFleetManagementPlugin (t : PodTemplate) : fleetResult :=
  match neo4jContainer t with
  | None => FleetNoContainer
  | Some c =>
      if FleetManagementBuiltIn (imageTag (ct_Image c)) then FleetUnchanged
      else match findEnvVar (ct_Env c) NEO4J_PLUGINS with
           | None => match MergeNeo4jPluginList EmptyString fleetManagementPluginEntry with
                     | None => FleetNotAList
                     | Some updated => FleetAdded (ct_Env c ++ [mkEnvVar NEO4J_PLUGINS updated None])
                     end
           | Some e =>
               if bool_decide (ev_ValueFrom e <> None) then FleetUnchanged
               else match MergeNeo4jPluginList (ev_Value e) fleetManagementPluginEntry with
                    | None => FleetNotAList
                    | Some updated =>
                        if String.eqb updated (ev_Value e) then FleetUnchanged
                        else FleetAdded (editFirst NEO4J_PLUGINS (set_ev_Value updated) (ct_Env c))
                    end
           end
  end.

(** [None]: the template has no neo4j container. *)
Definition addFleetEntryInWrite (sts : ServerSet) : option ServerSet :=
  let sts := if neo4jPluginsOwnedByTarget sts then setFleetEntryRecord false sts else sts in
  match addFleetManagementPlugin (ts_Template sts) with
  | FleetNoContainer => None
  | FleetNotAList | FleetUnchanged => Some sts
  | FleetAdded env =>
      let sts := set_ts_Template (setNeo4jEnv env (ts_Template sts)) sts in
      Some (if neo4jPluginsOwnedByTarget sts then sts else setFleetEntryRecord true sts)
  end.

(** The cluster's own NEO4J_PLUGINS as it renders it. *)
Definition ownNeo4jPluginsWithFleet (e : EnvVar) (installs : bool) (tag : string) : EnvVar :=
  if negb installs || bool_decide (ev_ValueFrom e <> None) || FleetManagementBuiltIn tag then e
  else match MergeNeo4jPluginList (ev_Value e) fleetManagementPluginEntry with
       | Some merged => set_ev_Value merged e
       | None => e
       end.

(** * Variables handed to the plugins *)

Section Apply.
Variable podTemplateSpecHash : PodTemplate -> string.
Variable shortHash : string -> string.

Definition hasRecord (sts : ServerSet) (p : Neo4jPlugin) : bool :=
  bool_decide (ts_Annotations sts !! envKey shortHash p <> None) || bool_decide (ts_Annotations sts !! entriesKey shortHash p <> None).

(** By variable, what the cluster's plugins that have written ask for. *)
Definition writtenPluginLists (cluster : DeploymentInfo) (sts : ServerSet) (plugins : list Neo4jPlugin) : gmap string string :=
  fold_left (fun values p =>
    if negb (String.eqb (np_ClusterRef p) (di_Name cluster)) || np_Deleting p || negb (pluginOnImage p (di_ImageTag cluster))
       || negb (hasRecord sts p)
    then values
    else map_fold (fun key tokens values =>
           let name := Neo4jSettingEnvVarName key in
           <[name := MergeConfListValues (default EmptyString (values !! name)) tokens]> values) values (pluginListSettings p))
    plugins ∅.

(** [plugins]: [None] when they cannot be listed. *)
Definition handOverSharedLists (cluster : DeploymentInfo) (plugins : option (list Neo4jPlugin)) (sts : ServerSet)
    (merged current desired : list EnvVar) (previousOwned : gset string) : list EnvVar :=
  let released := List.filter (fun n => bool_decide (n ∈ previousOwned) && negb (bool_decide (n ∈ namesOf ev_Name desired))
                                        && IsAdditiveConfEnvName n) (ev_Name <$> current) in
  match plugins with
  | None => merged
  | Some plugins =>
      let values := writtenPluginLists cluster sts plugins in
      merged ++ omap (fun n => match values !! n with
                               | Some v => if String.eqb v EmptyString then None else Some (mkEnvVar n v None)
                               | None => None
                               end) released
  end.

(** The plugins installed on [sts] with the names each puts in NEO4J_PLUGINS, by
    the plugin's name. *)
Definition installedPluginEntries (cluster : DeploymentInfo) (sts : ServerSet) (plugins : list Neo4jPlugin) : gmap string (list string) :=
  fold_left (fun out p =>
    if negb (String.eqb (np_ClusterRef p) (di_Name cluster)) || np_Deleting p || negb (pluginOnImage p (di_ImageTag cluster))
       || shouldSkipNeo4jPluginsEnv p
    then out
    else if negb (np_Ready p) && negb (hasRecord sts p) then out
    else <[np_Name p := pluginEntries p]> out) plugins ∅.

Definition appendNew (names : list string) (n : string) : list string := if bool_decide (n ∈ names) then names else names ++ [n].

(** The env and the StatefulSet with each plugin's record. *)
Definition handOverNeo4jPlugins (cluster : DeploymentInfo) (plugins : option (list Neo4jPlugin)) (sts : ServerSet)
    (merged current desired : list EnvVar) (previousOwned : gset string) : list EnvVar * ServerSet :=
  if negb (bool_decide (NEO4J_PLUGINS ∈ previousOwned)) || bool_decide (NEO4J_PLUGINS ∈ namesOf ev_Name desired)
     || bool_decide (NEO4J_PLUGINS ∈ namesOf ev_Name merged)
  then (merged, sts)
  else match envByName current !! NEO4J_PLUGINS, plugins with
       | Some live, Some plugins =>
           if bool_decide (ev_ValueFrom live <> None) then (merged, sts)
           else
             let entries := installedPluginEntries cluster sts plugins in
             if decide (entries = ∅) then (merged, sts)
             else
               let owners := sort.Strings (map_to_list entries).*1 in
               let entriesOf := fun owner => default [] (entries !! owner) in
               let wanted := owners ≫= entriesOf in
               let names := fold_left appendNew (List.filter (fun n => bool_decide (n ∈ wanted)) (neo4jPluginsList [live])) [] in
               let names := fold_left appendNew wanted names in
               let sts := fold_left (fun sts owner =>
                            setPluginEnvRecord (pluginEntriesAnnotation shortHash owner) (list_to_set (entriesOf owner)) sts) owners sts in
               (merged ++ [mkEnvVar NEO4J_PLUGINS (json.Marshal names) None], sts)
       | _, _ => (merged, sts)
       end.

(** * The write *)

(** The desired template with the labels the selector needs. *)
Definition withSelectorLabels (selector : gmap string string) (desired : PodTemplate) : PodTemplate :=
  set_pt_Labels (selector ∪ pt_Labels desired) desired.

(** The template is applied: [updated] is what the cluster renders. *)
Definition applyUpdated (cluster : DeploymentInfo) (plugins : option (list Neo4jPlugin)) (sts : ServerSet) (updated : PodTemplate) : ServerSet :=
  let live := ts_Template sts in
  let owned := readOwnedTemplateItems sts live in
  let currentEnv := firstEnv live in
  let desiredEnv := firstEnv updated in
  let merged := mergeEnvVars currentEnv desiredEnv (oi_env owned) in
  let merged := handOverSharedLists cluster plugins sts merged currentEnv desiredEnv (oi_env owned) in
  let '(merged, sts) := handOverNeo4jPlugins cluster plugins sts merged currentEnv desiredEnv (oi_env owned) in
  let template :=
    set_pt_Annotations (mergePodTemplateAnnotations (pt_Annotations live) (pt_Annotations updated))
      (set_pt_Volumes (mergeOwnedByName vol_Name (pt_Volumes live) (pt_Volumes updated) (oi_volumes owned))
         (set_pt_InitContainers (mergeOwnedByName ct_Name (pt_InitContainers live) (pt_InitContainers updated) (oi_initContainers owned))
            (setFirstEnv merged updated))) in
  setClusterTemplateHash podTemplateSpecHash updated (writeOwnedTemplateItems updated (set_ts_Template template sts)).

(** The update branch for the template of the server StatefulSet; [None]: an
    error, and nothing is written. *)
Definition updateTemplate (cluster : DeploymentInfo) (plugins : option (list Neo4jPlugin)) (desired : PodTemplate) (sts : ServerSet) : option ServerSet :=
  match ts_Selector sts with
  | Some selector =>
      let updated := withSelectorLabels selector desired in
      if isTemplateChangeSignificant podTemplateSpecHash (ts_Template sts) updated sts then
        let sts := applyUpdated cluster plugins sts updated in
        if di_Fleet cluster then addFleetEntryInWrite sts else Some sts
      else Some sts
  | None =>
      let live := pt_Annotations (ts_Template sts) in
      Some (setClusterTemplateHash podTemplateSpecHash desired
              (writeOwnedTemplateItems desired
                 (set_ts_Template (set_pt_Annotations (mergePodTemplateAnnotations live (pt_Annotations desired)) desired) sts)))
  end.
End Apply.
