(* ===== verification/TemplateWf.v ===== *)
(** Names in a pod template stay distinct under every write of it: the API
    server refuses a repeated container or volume, and of a repeated variable the
    container sees the last. *)
From S2P Require Import Prelude GoStrings UpgradeRules UpgradeRecord OwnedKeys JsonList PodTemplate PluginSettings PluginWrites TemplateApply.

Open Scope Z_scope.

(** * Names under edits *)

Abbreviation names := (fmap (M := list) ev_Name).

Lemma findEnvVar_None env n : findEnvVar env n = None <-> n ∉ names env.
Proof.
  unfold findEnvVar. rewrite list_elem_of_fmap. split.
  - intros H (e & -> & He). apply list_elem_of_In in He. apply (List.find_none _ _ H) in He. by rewrite String.eqb_refl in He.
  - intros H. destruct (List.find _ env) as [e|] eqn:E; [|done]. apply List.find_some in E as [Hin He%String.eqb_eq].
    exfalso. apply H. exists e. split; [done|]. by apply list_elem_of_In.
Qed.

Lemma findEnvVar_Some env n e : findEnvVar env n = Some e -> e ∈ env /\ ev_Name e = n.
Proof. intros H. apply List.find_some in H as [Hin He%String.eqb_eq]. by split; [apply list_elem_of_In|]. Qed.

(** The first variable of a name. *)
Lemma findEnvVar_at env n : findEnvVar env n = head (envAt n env).
Proof. unfold findEnvVar, envAt. induction env as [|e env IH]; simpl; [done|]. by destruct (String.eqb _ _). Qed.

Lemma hasEnv_spec n env : hasEnv n env = true <-> n ∈ names env.
Proof.
  unfold hasEnv. rewrite existsb_exists, list_elem_of_fmap. split.
  - intros (e & He & <-%String.eqb_eq). exists e. split; [done|]. by apply list_elem_of_In.
  - intros (e & -> & He). exists e. split; [by apply list_elem_of_In|apply String.eqb_refl].
Qed.

Lemma hasEnv_false n env : hasEnv n env = false <-> n ∉ names env.
Proof. rewrite <- hasEnv_spec. by destruct (hasEnv n env). Qed.

Lemma editFirst_names name f env : (forall e, ev_Name (f e) = ev_Name e) -> names (editFirst name f env) = names env.
Proof.
  intros H. induction env as [|e env IH]; [done|]. cbn [editFirst]. destruct (String.eqb _ _); rewrite !fmap_cons; [by rewrite H|by rewrite IH].
Qed.

Lemma setEnvValue_names name value env :
  names (setEnvValue name value env) = if hasEnv name env then names env else names env ++ [name].
Proof. unfold setEnvValue. destruct (hasEnv name env); [by apply editFirst_names|by rewrite fmap_app]. Qed.

Lemma NoDup_snoc {A} (l : list A) x : NoDup l -> x ∉ l -> NoDup (l ++ [x]).
Proof. intros Hl Hx. apply NoDup_app. split_and!; [done| |apply NoDup_singleton]. intros y Hy ->%list_elem_of_singleton. done. Qed.

Lemma NoDup_filter_by {A B} (f : A -> B) (p : A -> bool) l : NoDup (f <$> l) -> NoDup (f <$> List.filter p l).
Proof.
  induction l as [|x l IH]; [done|]. rewrite fmap_cons, NoDup_cons. intros [Hx Hl]. cbn [List.filter]. destruct (p x); [|by apply IH].
  rewrite fmap_cons. apply NoDup_cons. split; [|by apply IH]. intros (y & E & Hy)%list_elem_of_fmap. apply Hx. rewrite E.
  apply list_elem_of_fmap_2. apply list_elem_of_In in Hy. apply filter_In in Hy as [Hy _]. by apply list_elem_of_In.
Qed.

Lemma filter_names_sub {A B} (f : A -> B) (p : A -> bool) l x : x ∈ f <$> List.filter p l -> x ∈ f <$> l.
Proof.
  intros (y & -> & Hy)%list_elem_of_fmap. apply list_elem_of_fmap_2. apply list_elem_of_In in Hy. apply filter_In in Hy as [Hy _].
  by apply list_elem_of_In.
Qed.

(** A partial edit that keeps names. *)
Lemma NoDup_omap_names (f : EnvVar -> option EnvVar) env : (forall e e', f e = Some e' -> ev_Name e' = ev_Name e) ->
  (forall n, n ∈ names (omap f env) -> n ∈ names env) /\ (NoDup (names env) -> NoDup (names (omap f env))).
Proof.
  intros Hf. assert (forall env n, n ∈ names (omap f env) -> n ∈ names env) as Hsub.
  { intros env' n (e' & -> & (e & He & Hfe)%list_elem_of_omap)%list_elem_of_fmap. rewrite (Hf _ _ Hfe). by apply list_elem_of_fmap_2. }
  split; [apply Hsub|]. induction env as [|e env IH]; [done|]. rewrite fmap_cons, NoDup_cons. intros [He Hnd]. cbn [omap list_omap].
  destruct (f e) as [e'|] eqn:E; [|by apply IH]. rewrite fmap_cons. apply NoDup_cons. split; [|by apply IH].
  rewrite (Hf _ _ E). intros Hin. by apply He, Hsub.
Qed.

Section EnvEdits.
Context (env : list EnvVar) (Hnd : NoDup (names env)).

Lemma setEnvValue_NoDup name value : NoDup (names (setEnvValue name value env)).
Proof.
  rewrite setEnvValue_names. destruct (hasEnv name env) eqn:E; [done|]. apply NoDup_snoc; [done|]. by apply hasEnv_false.
Qed.

Lemma addEntries_NoDup plugin env' : addEntries plugin env = Some env' -> NoDup (names env').
Proof.
  unfold addEntries. destruct (shouldSkipNeo4jPluginsEnv plugin); [by intros [= <-]|].
  destruct (findEnvVar env NEO4J_PLUGINS) eqn:E.
  - destruct (mergeNames _ _); intros [= <-]. by rewrite editFirst_names.
  - intros [= <-]. rewrite fmap_app. apply NoDup_snoc; [done|]. by apply findEnvVar_None.
Qed.

Lemma withoutPluginEntries_names gone others deployment env' : withoutPluginEntries env gone others deployment = Some env' -> names env' = names env.
Proof.
  unfold withoutPluginEntries. rewrite mapM_Some. clear Hnd.
  induction 1 as [|e e' l l' He _ IH]; [done|]. rewrite !fmap_cons, IH. f_equal.
  destruct (negb _ || _); [by injection He as <-|]. destruct (removeNames _ _); [|done]. by injection He as <-.
Qed.

Lemma removePluginSecurityEnv_NoDup settings : NoDup (names (removePluginSecurityEnv env settings)).
Proof.
  unfold removePluginSecurityEnv. apply NoDup_omap_names; [|done]. intros e e'. destruct (_ !! ev_Name e); [|by intros [= <-]].
  destruct (String.eqb _ _); [done|]. by intros [= <-].
Qed.
End EnvEdits.

Lemma mergePluginSecurityEnv_NoDup settings env : NoDup (names env) -> NoDup (names (mergePluginSecurityEnv env settings)).
Proof.
  unfold mergePluginSecurityEnv. generalize (sort.Strings (map_to_list settings).*1) as keys. intros keys. revert env.
  induction keys as [|k keys IH]; intros env Hnd; [done|]. cbn [fold_left]. apply IH.
  destruct (findEnvVar env _) eqn:E; [by apply setEnvValue_NoDup|]. rewrite fmap_app. apply NoDup_snoc; [done|]. by apply findEnvVar_None.
Qed.

Lemma removeStandalone_NoDup env plugin removal : NoDup (names env) -> NoDup (names (removeStandalonePluginConfEnv env plugin removal)).
Proof. intros H. unfold removeStandalonePluginConfEnv. by apply NoDup_filter_by, removePluginSecurityEnv_NoDup. Qed.

Lemma listsEnv_keeps own others (targetOwned : gset string) (e e' : EnvVar) :
  (if negb (IsAdditiveConfEnvName (ev_Name e)) then Some e
   else if bool_decide (ev_Name e ∈ targetOwned) || bool_decide (ev_ValueFrom e <> None) then Some e
   else let value := pluginListValue (ev_Value e) (default [] (tokensByName own !! ev_Name e)) (claimedTokens others (ev_Name e)) in
        if String.eqb value EmptyString then None else Some (set_ev_Value value e)) = Some e' -> ev_Name e' = ev_Name e.
Proof. destruct (negb _); [by intros [= <-]|]. destruct (_ || _); [by intros [= <-]|]. cbv zeta. destruct (String.eqb _ _); [done|]. by intros [= <-]. Qed.

Lemma listsEnv_NoDup own others targetOwned env : NoDup (names env) -> NoDup (names (listsEnv own others targetOwned env)).
Proof.
  intros Hnd. unfold listsEnv. rewrite fmap_app. apply NoDup_app. split_and!.
  - apply NoDup_omap_names; [|done]. intros e e'. apply listsEnv_keeps.
  - intros n Hn Hn'. apply NoDup_omap_names in Hn; [|intros e e'; apply listsEnv_keeps].
    apply list_elem_of_fmap in Hn' as (e & -> & (k & _ & He)%list_elem_of_omap).
    destruct (negb (hasEnv k env) && _) eqn:E; [|done]. apply andb_true_iff in E as [E _]. apply negb_true_iff, hasEnv_false in E.
    destruct (default [] _); [done|]. injection He as <-. by apply E.
  - assert (NoDup (sort.Strings (map_to_list (tokensByName own)).*1)) as Hk by (rewrite Strings_perm; apply NoDup_fst_map_to_list).
    revert Hk. generalize (sort.Strings (map_to_list (tokensByName own)).*1) as ks. clear. intros ks.
    induction ks as [|k ks IH]; [intros _; apply NoDup_nil_2|]. rewrite NoDup_cons. intros [Hk Hks]. cbn [omap list_omap].
    destruct (negb _ && _); [|by apply IH]. destruct (default [] _) as [|t ts]; [by apply IH|]. rewrite fmap_cons. apply NoDup_cons. split; [|by apply IH].
    intros (e & Ee & (k' & Hk' & He)%list_elem_of_omap)%list_elem_of_fmap. simpl in Ee. apply Hk.
    destruct (negb _ && _); [|done]. destruct (default [] _); [done|]. injection He as <-. simpl in Ee. by subst k'.
Qed.

(** * Templates with distinct names *)

Record distinctNames (t : PodTemplate) : Prop := mkDistinctNames {
  dn_containers : NoDup (ct_Name <$> pt_Containers t);
  dn_env : Forall (fun c => NoDup (names (ct_Env c))) (pt_Containers t);
  dn_init : NoDup (ct_Name <$> pt_InitContainers t);
  dn_volumes : NoDup (vol_Name <$> pt_Volumes t)
}.

Lemma distinct_neo4j t c : distinctNames t -> neo4jContainer t = Some c -> NoDup (names (ct_Env c)).
Proof.
  intros [_ He _ _] Hc. apply List.find_some in Hc as [Hc _]. rewrite Forall_forall in He. apply He. by apply list_elem_of_In.
Qed.

Lemma distinct_neo4jEnv t : distinctNames t -> NoDup (names (neo4jContainerEnv t)).
Proof. intros Ht. unfold neo4jContainerEnv. destruct (neo4jContainer t) eqn:E; [by eapply distinct_neo4j|apply NoDup_nil_2]. Qed.

Lemma distinct_firstEnv t : distinctNames t -> NoDup (names (firstEnv t)).
Proof. intros [_ He _ _]. unfold firstEnv. destruct (pt_Containers t); [apply NoDup_nil_2|]. by apply Forall_cons in He as [? _]. Qed.

Lemma editNeo4j_distinct f cs : (forall c, c ∈ cs -> NoDup (names (f (ct_Env c)))) -> Forall (fun c => NoDup (names (ct_Env c))) cs ->
  Forall (fun c => NoDup (names (ct_Env c))) (editNeo4j f cs) /\ ct_Name <$> editNeo4j f cs = ct_Name <$> cs.
Proof.
  intros Hf. induction cs as [|c cs IH]; [done|]. rewrite Forall_cons. intros [Hc Hcs]. cbn [editNeo4j]. destruct (String.eqb _ _).
  - split; [|done]. apply Forall_cons. split; [|done]. simpl. apply Hf. apply list_elem_of_here.
  - destruct IH as [I1 I2]; [intros x Hx; apply Hf; by right|done|]. rewrite fmap_cons, I2. split; [|done]. by apply Forall_cons.
Qed.

Lemma setNeo4jEnv_distinct env t : distinctNames t -> NoDup (names env) -> distinctNames (setNeo4jEnv env t).
Proof.
  intros [H1 H2 H3 H4] He. destruct (editNeo4j_distinct (fun _ => env) (pt_Containers t)) as [I1 I2]; [done..|].
  split; cbn [setNeo4jEnv set_pt_Containers pt_Containers pt_InitContainers pt_Volumes]; [by rewrite I2|done..].
Qed.

Lemma mergeOwnedByName_distinct {T} (nameOf : T -> string) current desired owned :
  NoDup (nameOf <$> current) -> NoDup (nameOf <$> desired) -> NoDup (nameOf <$> mergeOwnedByName nameOf current desired owned).
Proof.
  intros Hc Hd. unfold mergeOwnedByName. rewrite fmap_app. apply NoDup_app. split_and!; [done| |by apply NoDup_filter_by].
  intros n Hn (x & -> & Hx)%list_elem_of_fmap. apply list_elem_of_In, filter_In in Hx as [_ Hx].
  rewrite andb_true_iff, negb_true_iff, bool_decide_eq_false, namesOf_elem in Hx. tauto.
Qed.

(** * The cluster's write *)

Lemma mergeEnvVars_distinct current desired owned :
  NoDup (names current) -> NoDup (names desired) -> NoDup (names (mergeEnvVars current desired owned)).
Proof.
  intros Hc Hd. unfold mergeEnvVars. rewrite fmap_app. apply NoDup_app. split_and!; [by apply NoDup_filter_by| |done].
  intros n (x & -> & Hx)%list_elem_of_fmap Hn. apply list_elem_of_In, filter_In in Hx as [_ Hx].
  rewrite andb_true_iff, !negb_true_iff, !bool_decide_eq_false, namesOf_elem in Hx. tauto.
Qed.

Lemma NoDup_omap_new (f : string -> option EnvVar) l : (forall n e, f n = Some e -> ev_Name e = n) -> NoDup l ->
  NoDup (names (omap f l)) /\ forall n, n ∈ names (omap f l) -> n ∈ l.
Proof.
  intros Hf Hl. assert (forall l n, n ∈ names (omap f l) -> n ∈ l) as Hsub.
  { intros l' n (e & -> & (k & Hk & He)%list_elem_of_omap)%list_elem_of_fmap. by rewrite (Hf _ _ He). }
  split; [|apply Hsub]. induction Hl as [|n l Hn Hl IH]; [apply NoDup_nil_2|]. cbn [omap list_omap]. destruct (f n) as [e|] eqn:E; [|done].
  rewrite fmap_cons. apply NoDup_cons. split; [|done]. rewrite (Hf _ _ E). intros H. by apply Hn, Hsub.
Qed.

Lemma handOverSharedLists_distinct shortHash cluster plugins sts current desired owned :
  NoDup (names current) -> NoDup (names desired) ->
  NoDup (names (handOverSharedLists shortHash cluster plugins sts (mergeEnvVars current desired owned) current desired owned)).
Proof.
  intros Hc Hd. pose proof (mergeEnvVars_distinct current desired owned Hc Hd) as Hm. unfold handOverSharedLists.
  destruct plugins as [ps|]; [|done]. rewrite fmap_app.
  destruct (NoDup_omap_new (fun n => match writtenPluginLists shortHash cluster sts ps !! n with
    | Some v => if String.eqb v EmptyString then None else Some (mkEnvVar n v None) | None => None end)
    (List.filter (fun n => bool_decide (n ∈ owned) && negb (bool_decide (n ∈ namesOf ev_Name desired)) && IsAdditiveConfEnvName n) (names current)))
    as [I1 I2].
  - intros n e. destruct (_ !! n); [|done]. destruct (String.eqb _ _); [done|]. by intros [= <-].
  - rewrite <- (list_fmap_id (List.filter _ _)). apply NoDup_filter_by. by rewrite list_fmap_id.
  - apply NoDup_app. split_and!; [done| |exact I1]. intros n Hn Hn'. apply I2 in Hn'. apply list_elem_of_In, filter_In in Hn' as [_ Hb].
    rewrite !andb_true_iff, negb_true_iff, bool_decide_eq_true, bool_decide_eq_false, namesOf_elem in Hb.
    unfold mergeEnvVars in Hn. rewrite fmap_app, elem_of_app in Hn. destruct Hn as [(x & -> & Hx)%list_elem_of_fmap|Hn]; [|tauto].
    apply list_elem_of_In, filter_In in Hx as [_ Hx]. rewrite andb_true_iff, !negb_true_iff, !bool_decide_eq_false in Hx. tauto.
Qed.

Lemma handOverNeo4jPlugins_distinct shortHash cluster plugins sts merged current desired owned :
  NoDup (names merged) -> NoDup (names (handOverNeo4jPlugins shortHash cluster plugins sts merged current desired owned).1).
Proof.
  intros Hm. unfold handOverNeo4jPlugins. destruct (negb _ || _ || _) eqn:E; [done|]. apply orb_false_iff in E as [_ E].
  apply bool_decide_eq_false in E. rewrite namesOf_elem in E.
  destruct (envByName current !! NEO4J_PLUGINS); [|done]. destruct plugins as [ps|]; [|done].
  destruct (bool_decide _); [done|]. destruct (decide _); [done|]. cbn [fst]. rewrite fmap_app. by apply NoDup_snoc.
Qed.

Lemma applyUpdated_distinct hash shortHash cluster plugins sts updated :
  distinctNames (ts_Template sts) -> distinctNames updated ->
  distinctNames (ts_Template (applyUpdated hash shortHash cluster plugins sts updated)).
Proof.
  intros Hl Hu. unfold applyUpdated.
  pose proof (handOverSharedLists_distinct shortHash cluster plugins sts (firstEnv (ts_Template sts)) (firstEnv updated)
    (oi_env (readOwnedTemplateItems sts (ts_Template sts))) (distinct_firstEnv _ Hl) (distinct_firstEnv _ Hu)) as H1.
  match goal with |- context [handOverNeo4jPlugins ?a ?b ?p ?s ?m ?cu ?d ?o] =>
    pose proof (handOverNeo4jPlugins_distinct a b p s m cu d o H1) as H2; destruct (handOverNeo4jPlugins a b p s m cu d o) as [merged sts1] end.
  cbn [fst] in H2. unfold setClusterTemplateHash, writeOwnedTemplateItems, writeOwnedEnvVarNames, annotateSet.
  cbn [ts_Template set_ts_Annotations set_ts_Template]. destruct Hl as [_ _ L3 L4], Hu as [U1 U2 U3 U4].
  split; cbn [pt_Containers pt_InitContainers pt_Volumes set_pt_Annotations set_pt_Volumes set_pt_InitContainers].
  - unfold setFirstEnv. destruct (pt_Containers updated) eqn:E; [by rewrite E|]. done.
  - unfold setFirstEnv. destruct (pt_Containers updated) eqn:E; [by rewrite E|]. apply Forall_cons in U2 as [_ U2]. by apply Forall_cons.
  - by apply mergeOwnedByName_distinct.
  - by apply mergeOwnedByName_distinct.
Qed.

Lemma addFleetManagementPlugin_distinct t env : distinctNames t -> addFleetManagementPlugin t = FleetAdded env -> NoDup (names env).
Proof.
  intros Ht. unfold addFleetManagementPlugin. destruct (neo4jContainer t) as [c|] eqn:Ec; [|done]. pose proof (distinct_neo4j _ _ Ht Ec) as Hc.
  destruct (FleetManagementBuiltIn _); [done|]. destruct (findEnvVar (ct_Env c) NEO4J_PLUGINS) as [e|] eqn:E.
  - destruct (bool_decide _); [done|]. destruct (MergeNeo4jPluginList _ _); [|done]. destruct (String.eqb _ _); [done|].
    intros [= <-]. by rewrite editFirst_names.
  - destruct (MergeNeo4jPluginList _ _); [|done]. intros [= <-]. rewrite fmap_app. apply NoDup_snoc; [done|]. by apply findEnvVar_None.
Qed.

Lemma addFleetEntryInWrite_distinct sts sts' : distinctNames (ts_Template sts) -> addFleetEntryInWrite sts = Some sts' -> distinctNames (ts_Template sts').
Proof.
  intros Ht. unfold addFleetEntryInWrite.
  assert (ts_Template (if neo4jPluginsOwnedByTarget sts then setFleetEntryRecord false sts else sts) = ts_Template sts) as ->
    by (by destruct (neo4jPluginsOwnedByTarget sts)).
  destruct (addFleetManagementPlugin (ts_Template sts)) as [| | |env] eqn:E; intros Heq; [discriminate Heq|apply (inj Some) in Heq as <-..].
  - by destruct (neo4jPluginsOwnedByTarget sts).
  - by destruct (neo4jPluginsOwnedByTarget sts).
  - pose proof (setNeo4jEnv_distinct env _ Ht (addFleetManagementPlugin_distinct _ _ Ht E)) as H.
    destruct (neo4jPluginsOwnedByTarget (set_ts_Template _ _)); exact H.
Qed.

Lemma withSelectorLabels_distinct selector t : distinctNames t -> distinctNames (withSelectorLabels selector t).
Proof. by intros [? ? ? ?]. Qed.

Lemma updateTemplate_distinct hash shortHash cluster plugins desired sts sts' :
  distinctNames (ts_Template sts) -> distinctNames desired ->
  updateTemplate hash shortHash cluster plugins desired sts = Some sts' -> distinctNames (ts_Template sts').
Proof.
  intros Hl Hd. unfold updateTemplate. destruct (ts_Selector sts) as [sel|].
  - destruct (isTemplateChangeSignificant _ _ _ _); [|by intros [= <-]].
    pose proof (applyUpdated_distinct hash shortHash cluster plugins sts _ Hl (withSelectorLabels_distinct sel _ Hd)) as Ha.
    destruct (di_Fleet cluster); [by apply addFleetEntryInWrite_distinct|by intros [= <-]].
  - intros [= <-]. by destruct Hd.
Qed.

(** * A plugin's write *)

Section Plugin.
Context (order : gmap string string -> list (string * string)) (shortHash : string -> string).
Context (initContainerFor : Neo4jPlugin -> Container) (authVolumeFor : Neo4jPlugin -> option Volume) (caVolume : option Volume).
Context (derivative : Container -> Container -> bool).
Context (HcaName : forall v, caVolume = Some v -> vol_Name v = PluginCAVolumeName).

Lemma applyPluginEnv_distinct plugin deployment env env' : NoDup (names env) ->
  applyPluginEnv order plugin deployment env = Some env' -> NoDup (names env').
Proof.
  intros Hnd. unfold applyPluginEnv. destruct (addEntries plugin env) as [env1|] eqn:E; [|done]. intros [= <-].
  apply addEntries_NoDup in E; [|done]. set (env2 := fold_left _ _ _).
  assert (NoDup (names env2)) as H2.
  { unfold env2. generalize (order (np_Config plugin)) as kvs. intros kvs. clear env2. revert env1 E.
    induction kvs as [|kv kvs IH]; intros env1 E; [done|]. cbn [fold_left]. apply IH. destruct (_ || _); [done|]. by apply setEnvValue_NoDup. }
  destruct (String.eqb _ _); [by apply removeStandalone_NoDup|by apply mergePluginSecurityEnv_NoDup].
Qed.

Lemma placeInit_names desired cs :
  ct_Name <$> placeInit derivative desired cs =
  if bool_decide (ct_Name desired ∈ ct_Name <$> cs) then ct_Name <$> cs else (ct_Name <$> cs) ++ [ct_Name desired].
Proof.
  induction cs as [|c cs IH]; [done|]. cbn [placeInit]. destruct (String.eqb (ct_Name c) (ct_Name desired)) eqn:E.
  - apply String.eqb_eq in E. rewrite !fmap_cons, bool_decide_eq_true_2 by (rewrite E; apply list_elem_of_here).
    destruct (derivative desired c); [done|]. by rewrite E.
  - apply String.eqb_neq in E. rewrite !fmap_cons, IH. rewrite (bool_decide_ext (ct_Name desired ∈ ct_Name c :: _) (ct_Name desired ∈ ct_Name <$> cs)).
    + by destruct (bool_decide _).
    + rewrite elem_of_cons. split; [intros [H|H]; [congruence|done]|by right].
Qed.

Lemma podSpecHasVolume_spec t n : podSpecHasVolume t n = true <-> n ∈ vol_Name <$> pt_Volumes t.
Proof.
  unfold podSpecHasVolume. rewrite existsb_exists, list_elem_of_fmap. split.
  - intros (v & Hv & <-%String.eqb_eq). exists v. split; [done|]. by apply list_elem_of_In.
  - intros (v & -> & Hv). exists v. split; [by apply list_elem_of_In|apply String.eqb_refl].
Qed.

Lemma podSpecHasVolume_false t n : podSpecHasVolume t n = false <-> n ∉ vol_Name <$> pt_Volumes t.
Proof. rewrite <- podSpecHasVolume_spec. by destruct (podSpecHasVolume t n). Qed.

Lemma dropFirstVolume_sub name vs : NoDup (vol_Name <$> vs) -> NoDup (vol_Name <$> dropFirstVolume name vs) /\
  forall n, n ∈ vol_Name <$> dropFirstVolume name vs -> n ∈ vol_Name <$> vs.
Proof.
  induction vs as [|v vs IH]; [done|]. rewrite fmap_cons, NoDup_cons. intros [Hv Hnd]. cbn [dropFirstVolume]. destruct (String.eqb _ _).
  - split; [done|]. intros n Hn. by right.
  - destruct (IH Hnd) as [I1 I2]. rewrite fmap_cons. split; [apply NoDup_cons; split; [|exact I1]; intros H; by apply Hv, I2|].
    intros n [->|Hn]%elem_of_cons; [left|right; by apply I2].
Qed.

Lemma replaceFirstVolume_names v vs : vol_Name v = PluginCAVolumeName -> vol_Name <$> replaceFirstVolume v vs = vol_Name <$> vs.
Proof.
  intros Hv. induction vs as [|x vs IH]; [done|]. cbn [replaceFirstVolume]. destruct (String.eqb (vol_Name x) PluginCAVolumeName) eqn:E.
  - apply String.eqb_eq in E. rewrite !fmap_cons. f_equal. destruct (sameTrustedCAs x v); [done|]. by rewrite Hv.
  - by rewrite !fmap_cons, IH.
Qed.

Lemma setPluginCAVolume_distinct t : distinctNames t -> distinctNames (setPluginCAVolume caVolume t).
Proof.
  intros [H1 H2 H3 H4]. unfold setPluginCAVolume. destruct caVolume as [v|].
  - destruct (podSpecHasVolume t PluginCAVolumeName) eqn:E; split; cbn [pt_Containers pt_InitContainers pt_Volumes set_pt_Volumes]; try done.
    + rewrite replaceFirstVolume_names by by apply HcaName. done.
    + rewrite fmap_app. apply NoDup_snoc; [done|]. rewrite (HcaName v eq_refl). by apply podSpecHasVolume_false.
  - destruct (_ && _); [|done]. split; cbn [pt_Containers pt_InitContainers pt_Volumes set_pt_Volumes]; try done. by apply dropFirstVolume_sub.
Qed.

Lemma applyVerifiedDownload_distinct plugin t : distinctNames t ->
  distinctNames (applyVerifiedDownload initContainerFor authVolumeFor caVolume derivative plugin t).
Proof.
  intros Ht. unfold applyVerifiedDownload.
  set (t1 := set_pt_InitContainers _ t). assert (distinctNames t1) as H1.
  { destruct Ht as [A B C D]. split; cbn; try done. rewrite placeInit_names. case_bool_decide; [done|]. by apply NoDup_snoc. }
  set (t2 := match authVolumeFor plugin with Some v => _ | None => _ end). assert (distinctNames t2) as H2.
  { unfold t2. destruct (authVolumeFor plugin) as [v|]; [|done]. destruct (podSpecHasVolume t1 (vol_Name v)) eqn:E; [done|].
    apply podSpecHasVolume_false in E. destruct H1 as [A B C D]. split; cbn [pt_Containers pt_InitContainers pt_Volumes set_pt_Volumes]; try done.
    rewrite fmap_app. by apply NoDup_snoc. }
  pose proof (setPluginCAVolume_distinct t2 H2) as H3. case_bool_decide; [done|]. by destruct H3.
Qed.

Lemma applyPluginToTemplate_distinct plugin deployment t t' : distinctNames t ->
  applyPluginToTemplate order initContainerFor authVolumeFor caVolume derivative plugin deployment t = Some t' -> distinctNames t'.
Proof.
  intros Ht. unfold applyPluginToTemplate. destruct (neo4jContainer t) as [c|] eqn:Ec; [|done].
  destruct (applyPluginEnv order plugin deployment (ct_Env c)) as [env|] eqn:E; [|done]. intros [= <-].
  apply applyPluginEnv_distinct in E; [|by eapply distinct_neo4j]. pose proof (setNeo4jEnv_distinct env t Ht E) as H.
  destruct (isVerifiedDownloadInstallMode plugin); [by apply applyVerifiedDownload_distinct|done].
Qed.

Lemma withoutEnvNames_distinct gone keep env : NoDup (names env) -> NoDup (names (withoutEnvNames gone keep env).1).
Proof. apply NoDup_filter_by. Qed.

Lemma setClusterPluginLists_distinct own others targetOwned t : distinctNames t -> distinctNames (setClusterPluginLists own others targetOwned t).
Proof.
  intros Ht. unfold setClusterPluginLists. destruct (neo4jContainer t) as [c|] eqn:Ec; [|done].
  apply setNeo4jEnv_distinct; [done|]. apply listsEnv_NoDup. by eapply distinct_neo4j.
Qed.

Lemma record_template key owned sts : ts_Template (setPluginEnvRecord key owned sts) = ts_Template sts.
Proof. unfold setPluginEnvRecord. by destruct (decide _). Qed.

Lemma applyPluginEntries_distinct sts plugin deployment others : distinctNames (ts_Template sts) ->
  distinctNames (ts_Template (applyPluginEntries shortHash sts plugin deployment others).1).
Proof.
  intros Ht. unfold applyPluginEntries. destruct (ts_Annotations sts !! _) as [rec|]; [|by cbn [fst]; rewrite record_template].
  destruct (sort.Strings _); [by cbn [fst]; rewrite record_template|].
  destruct (neo4jContainer (ts_Template sts)) as [c|] eqn:Ec; [|by cbn [fst]; rewrite record_template].
  destruct (bool_decide _); [by cbn [fst]; rewrite record_template|].
  destruct (withoutPluginEntries _ _ _ _) as [env|] eqn:E; [|done]. cbn [fst]. rewrite record_template. cbn [ts_Template set_ts_Template].
  apply setNeo4jEnv_distinct; [done|]. rewrite (withoutPluginEntries_names _ _ _ _ _ E). by eapply distinct_neo4j.
Qed.

Lemma applyPlugin_distinct sts plugin deployment others sts' removed : distinctNames (ts_Template sts) ->
  applyPlugin order shortHash initContainerFor authVolumeFor caVolume derivative sts plugin deployment others = Some (sts', removed) ->
  distinctNames (ts_Template sts').
Proof.
  intros Ht. unfold applyPlugin. destruct (applyPluginToTemplate _ _ _ _ _ _ _ _) as [t|] eqn:E; [|done].
  apply applyPluginToTemplate_distinct in E; [|done].
  rewrite (surjective_pairing (withoutEnvNames _ _ _)).
  pose proof (distinct_neo4jEnv _ E) as He.
  match goal with |- context [editTemplateEnv (fun _ => ?x) ?s] => set (env := x); set (sts1 := editTemplateEnv (fun _ => env) s) end.
  assert (distinctNames (ts_Template sts1)) as H1.
  { unfold sts1, editTemplateEnv. cbn [ts_Template set_ts_Template]. destruct (neo4jContainer t); [|done].
    cbn [ts_Template set_ts_Template]. apply setNeo4jEnv_distinct; [done|]. by apply withoutEnvNames_distinct. }
  set (sts2 := setPluginEnvRecord _ _ sts1). assert (distinctNames (ts_Template sts2)) as H2 by (unfold sts2; by rewrite record_template).
  destruct (String.eqb (di_Type deployment) "standalone").
  - rewrite (surjective_pairing (applyPluginEntries _ _ _ _ _)). intros [= <- <-]. by apply applyPluginEntries_distinct.
  - rewrite (surjective_pairing (applyPluginEntries _ _ _ _ _)). intros [= <- <-]. apply applyPluginEntries_distinct.
    cbn [ts_Template set_ts_Template]. by apply setClusterPluginLists_distinct.
Qed.

Lemma withoutPluginInitContainer_distinct plugin t : distinctNames t -> distinctNames (withoutPluginInitContainer plugin t).
Proof.
  intros [A B C D]. unfold withoutPluginInitContainer.
  set (t1 := set_pt_InitContainers _ t). set (t2 := set_pt_Volumes _ t1).
  assert (distinctNames t2) as H2.
  { split; cbn [t2 t1 pt_Containers pt_InitContainers pt_Volumes set_pt_Volumes set_pt_InitContainers]; try done; by apply NoDup_filter_by. }
  destruct (bool_decide _); [|done]. destruct H2. by destruct (decide _).
Qed.

Lemma withoutPlugin_distinct sts plugin deployment others : distinctNames (ts_Template sts) ->
  distinctNames (ts_Template (withoutPlugin shortHash sts plugin deployment others)).
Proof.
  intros Ht. unfold withoutPlugin. cbn [ts_Template set_ts_Annotations].
  match goal with |- context [match neo4jContainer (ts_Template sts) with Some c => @?f c | None => sts end] =>
    set (sts1 := match neo4jContainer (ts_Template sts) with Some c => f c | None => sts end) end.
  assert (distinctNames (ts_Template sts1)) as H1.
  { unfold sts1. destruct (neo4jContainer (ts_Template sts)) as [c|] eqn:Ec; [|done]. cbn [ts_Template set_ts_Template].
    apply setNeo4jEnv_distinct; [done|]. set (env2 := if String.eqb (di_Type deployment) "standalone" then _ else _).
    assert (NoDup (names env2)) as H2.
    { pose proof (withoutEnvNames_distinct (splitCSVSet (tsAnnotation sts (envKey shortHash plugin)) ∪ pluginOwnedEnvNames plugin deployment)
        (envOwnedElsewhere shortHash sts plugin deployment others) _ (distinct_neo4j _ _ Ht Ec)) as H.
      unfold env2. destruct (String.eqb _ _); [by apply removePluginSecurityEnv_NoDup|by apply listsEnv_NoDup]. }
    destruct (_ || _); [done|]. destruct (withoutPluginEntries _ _ _ _) as [env|] eqn:E; [|done].
    change (default env2 (Some env)) with env. by rewrite (withoutPluginEntries_names _ _ _ _ _ E). }
  destruct (successorDownloads plugin others); [done|]. cbn [ts_Template set_ts_Template]. by apply withoutPluginInitContainer_distinct.
Qed.
End Plugin.

(** * All the writers *)

(** A pass of the cluster controller, of a plugin, of a plugin's removal, or a
    change of the servers' number. *)
Inductive templateWrite :=
| ClusterPass (cluster : DeploymentInfo) (plugins : option (list Neo4jPlugin)) (desired : PodTemplate)
| PluginPass (plugin : Neo4jPlugin) (deployment : DeploymentInfo) (others : list Neo4jPlugin)
| RemovalPass (plugin : Neo4jPlugin) (deployment : DeploymentInfo) (others : list Neo4jPlugin)
| ServersBecome (replicas ready : Z).

Section Writers.
Context (hash : PodTemplate -> string) (order : gmap string string -> list (string * string)) (shortHash : string -> string).
Context (initContainerFor : Neo4jPlugin -> Container) (authVolumeFor : Neo4jPlugin -> option Volume) (caVolume : option Volume).
Context (derivative : Container -> Container -> bool).

Definition templateStep (sts : ServerSet) (w : templateWrite) : ServerSet :=
  match w with
  | ClusterPass cluster plugins desired => default sts (updateTemplate hash shortHash cluster plugins desired sts)
  | PluginPass plugin deployment others =>
      stored sts (writePluginToTarget order shortHash initContainerFor authVolumeFor caVolume derivative sts plugin deployment others)
  | RemovalPass plugin deployment others => stored sts (writeRemoval shortHash sts plugin deployment others)
  | ServersBecome replicas ready => mkServerSet (ts_Name sts) (ts_Annotations sts) replicas ready (ts_Selector sts) (ts_Template sts)
  end.

Lemma stored_writeOf before after refusal : stored before (writeOf before after refusal) = before \/ stored before (writeOf before after refusal) = after.
Proof.
  unfold writeOf. destruct (decide _); [destruct (stringMapsEqual _ _); [by left|by right]|]. destruct refusal; [by right|by left].
Qed.
End Writers.

(** Whatever the cluster controller, the plugins and their removals write to
    the server pod template, in any order, its containers, init containers,
    volumes and each container's variables keep distinct names, when those the
    cluster renders are. *)
Theorem template_names_distinct (hash : PodTemplate -> string) (order : gmap string string -> list (string * string))
    (shortHash : string -> string) (initContainerFor : Neo4jPlugin -> Container) (authVolumeFor : Neo4jPlugin -> option Volume)
    (caVolume : option Volume) (derivative : Container -> Container -> bool) (sts : ServerSet) (ws : list templateWrite) :
  (forall v, caVolume = Some v -> vol_Name v = PluginCAVolumeName) ->
  (forall cluster plugins desired, ClusterPass cluster plugins desired ∈ ws -> distinctNames desired) ->
  distinctNames (ts_Template sts) ->
  distinctNames (ts_Template (foldl (templateStep hash order shortHash initContainerFor authVolumeFor caVolume derivative) sts ws)).
Proof.
  intros Hca. revert sts. induction ws as [|w ws IH]; intros sts Hws Ht; [done|]. cbn [foldl]. apply IH.
  { intros cl ps d Hin. eapply Hws. right. exact Hin. }
  destruct w as [cl ps d|p dep others|p dep others|rep ready]; cbn [templateStep].
  - destruct (updateTemplate _ _ _ _ _ _) as [sts'|] eqn:E; [|done]. change (default sts (Some sts')) with sts'.
    eapply updateTemplate_distinct; [exact Ht| |exact E]. eapply Hws. apply list_elem_of_here.
  - unfold writePluginToTarget. destruct (applyPlugin _ _ _ _ _ _ _ _ _ _) as [[after removed]|] eqn:E; [|done].
    destruct (stored_writeOf sts after (ownedEnvRefusal sts after dep)) as [-> | ->]; [done|]. by eapply applyPlugin_distinct.
  - unfold writeRemoval. destruct (stored_writeOf sts (withoutPlugin shortHash sts p dep others) []) as [-> | ->]; [done|].
    by apply withoutPlugin_distinct.
  - done.
Qed.

(** * A cluster with a plugin *)

Module TemplateSample.
Definition renderedEnv : list EnvVar := [mkEnvVar "NEO4J_EDITION" "enterprise" None; mkEnvVar "NEO4J_AUTH" EmptyString (Some "neo4j-auth")].
Definition neo4j (image : string) (env : list EnvVar) : Container := mkContainer "neo4j" image env ["data"] 2000 4096 EmptyString EmptyString.
Definition sidecar : Container := mkContainer "exporter" "exporter:1" [] [] 0 0 EmptyString EmptyString.
Definition waiter : Container := mkContainer "prepare" "busybox:1" [] ["data"] 0 0 EmptyString EmptyString.

Definition template (image : string) : PodTemplate :=
  mkPodTemplate {["app" := "db"]} {["checksum" := "1"]} [neo4j image renderedEnv; sidecar] [waiter]
    [mkVolume "data" (OtherSource "claim")] EmptyString "neo4j" EmptyString.

Definition selector : gmap string string := {["app" := "db"]}.
Definition fresh : ServerSet := mkServerSet "db-server" ∅ 3 3 (Some selector) (template "neo4j:5.26.0-enterprise").

Definition cluster : DeploymentInfo := mkDeploymentInfo "cluster" "db" "5.26.0-enterprise" false.
Definition apoc : Neo4jPlugin :=
  mkNeo4jPlugin "my-apoc" "u1" 1 false false "db" "apoc" true "Managed" {["apoc.export.file.enabled" := "true"]} [] None.
Definition gds : Neo4jPlugin :=
  mkNeo4jPlugin "my-gds" "u2" 2 false false "db" "graph-data-science" true "VerifiedDownload" ∅ [] None.

(** Stand-ins for what the model leaves open. *)
Definition hash (t : PodTemplate) : string := strings.Join (ct_Image <$> pt_Containers t) "+".
Definition shortHash (s : string) : string := "00000000".
Definition order (m : gmap string string) : list (string * string) := map_to_list m.
Definition initContainerFor (p : Neo4jPlugin) : Container :=
  mkContainer (PluginInitContainerName (np_SpecName p)) "curl:1" [] ["data"; PluginCAVolumeName; authVolumeName (np_SpecName p)] 0 0 EmptyString EmptyString.
Definition authVolumeFor (p : Neo4jPlugin) : option Volume := Some (mkVolume (authVolumeName (np_SpecName p)) (OtherSource "secret")).
Definition caVolume : option Volume := Some (mkVolume PluginCAVolumeName (ProjectedSource [SecretProjection "ca" []])).
Definition derivative (want live : Container) : bool := bool_decide (want = live).

Abbreviation step := (templateStep hash order shortHash initContainerFor authVolumeFor caVolume derivative).

Definition upgraded : PodTemplate := template "neo4j:5.26.1-enterprise".
Definition writes : list templateWrite :=
  [PluginPass apoc cluster [gds]; PluginPass gds cluster [apoc]; ClusterPass cluster (Some [apoc; gds]) upgraded; RemovalPass apoc cluster [gds]].

(** What they leave: the plugins' items beside the cluster's. *)
Example writes_leave :
  let t := ts_Template (foldl step fresh writes) in
  ct_Image <$> pt_Containers t = ["neo4j:5.26.1-enterprise"; "exporter:1"] /\
  ct_Name <$> pt_InitContainers t = ["prepare"; "plugin-init-graph-data-science"] /\
  vol_Name <$> pt_Volumes t = ["data"; "plugin-auth-graph-data-science"; "plugin-ca"].
Proof. vm_compute. done. Qed.

Lemma template_distinct image : distinctNames (template image).
Proof.
  split; cbn [template pt_Containers pt_InitContainers pt_Volumes]; [apply (bool_decide_unpack _); vm_compute; reflexivity| |apply NoDup_singleton..].
  repeat (apply Forall_cons; split); [apply (bool_decide_unpack _); vm_compute; reflexivity|apply NoDup_nil_2|apply Forall_nil_2].
Qed.

Lemma template_names_distinct_witness : distinctNames (ts_Template (foldl step fresh writes)).
Proof.
  apply template_names_distinct.
  - intros v Hv. injection Hv as <-. reflexivity.
  - intros cl ps d Hin. apply list_elem_of_In in Hin. cbv [writes] in Hin.
    destruct Hin as [E|[E|[E|[E|[]]]]]; try discriminate E. injection E as _ _ <-. apply template_distinct.
  - apply template_distinct.
Defined.
End TemplateSample.
