(* ===== verification/TemplateSafety.v ===== *)
(** Several writers of one pod template: the cluster controller's write is exact
    (its own items as rendered, the others' as they were), it settles, and no
    write of a plugin, nor a plugin's removal, makes it write again. *)
From S2P Require Import Prelude GoStrings UpgradeRules UpgradeRecord OwnedKeys JsonList PodTemplate PluginSettings PluginWrites TemplateApply TemplateWf.

Open Scope Z_scope.

(** * Edits by name *)

Lemma envAt_editFirst_ne n name f env : (forall e, ev_Name (f e) = ev_Name e) -> n <> name -> envAt n (editFirst name f env) = envAt n env.
Proof.
  intros Hf Hn. induction env as [|e env IH]; [done|]. unfold envAt in *. simpl. destruct (String.eqb (ev_Name e) name) eqn:E; simpl.
  - apply String.eqb_eq in E. rewrite Hf, E. by rewrite (proj2 (String.eqb_neq name n)).
  - by rewrite IH.
Qed.

Lemma envAt_single_ne n name value : n <> name -> envAt n [mkEnvVar name value None] = [].
Proof. intros H. unfold envAt. simpl. by rewrite (proj2 (String.eqb_neq name n)). Qed.

(** Containers other than in their env. *)
Lemma editNeo4j_critical f cs : critical <$> editNeo4j f cs = critical <$> cs.
Proof. induction cs as [|c cs IH]; [done|]. cbn [editNeo4j]. destruct (String.eqb _ _); rewrite !fmap_cons; [done|by rewrite IH]. Qed.

Lemma neo4j_setNeo4jEnv t c rest env : pt_Containers t = c :: rest -> ct_Name c = "neo4j" ->
  pt_Containers (setNeo4jEnv env t) = set_ct_Env env c :: rest.
Proof. intros Hc Hn. unfold setNeo4jEnv. cbn [pt_Containers set_pt_Containers]. by rewrite Hc; simpl; rewrite Hn. Qed.

(** * What the cluster renders, and what it finds in place *)

Definition ownItems (updated : PodTemplate) : ownedTemplateItems :=
  mkOwnedTemplateItems (namesOf ev_Name (firstEnv updated)) (namesOf ct_Name (pt_InitContainers updated)) (namesOf vol_Name (pt_Volumes updated)).

(** A rendered template: neo4j is its first container, its variables have
    different names, names are such as Kubernetes takes, and none is one of a
    plugin's. *)
Record rendered (t : PodTemplate) : Prop := mkRendered {
  rd_neo4j : exists c rest, pt_Containers t = c :: rest /\ ct_Name c = "neo4j";
  rd_env : NoDup (ev_Name <$> firstEnv t);
  rd_cleanEnv : Forall (fun n => cleanName n = true) (ev_Name <$> firstEnv t);
  rd_cleanInit : Forall (fun n => cleanName n = true) (ct_Name <$> pt_InitContainers t);
  rd_cleanVolumes : Forall (fun n => cleanName n = true) (vol_Name <$> pt_Volumes t);
  rd_init : forall n, n ∈ ct_Name <$> pt_InitContainers t -> strings.HasPrefix n "plugin-init-" = false;
  rd_volumes : forall n, n ∈ vol_Name <$> pt_Volumes t -> n <> PluginCAVolumeName /\ strings.HasPrefix n "plugin-auth-" = false
}.

Section Settled.
Variable podTemplateSpecHash : PodTemplate -> string.

(** The records say what the cluster renders. *)
Definition recordsOf (updated : PodTemplate) (annos : gmap string string) : Prop :=
  annos !! ownedEnvVarsAnnotation = Some (sortedNamesCSV (firstEnv updated) ev_Name) /\
  annos !! ownedInitContainersAnnotation = Some (sortedNamesCSV (pt_InitContainers updated) ct_Name) /\
  annos !! ownedVolumesAnnotation = Some (sortedNamesCSV (pt_Volumes updated) vol_Name) /\
  annos !! clusterTemplateHashAnnotation = Some (podTemplateSpecHash updated).

Definition inPlace (updated : PodTemplate) (sts : ServerSet) : Prop :=
  let t := ts_Template sts in
  recordsOf updated (ts_Annotations sts) /\
  critical <$> pt_Containers t = critical <$> pt_Containers updated /\
  pt_SecurityContext t = pt_SecurityContext updated /\ pt_ServiceAccountName t = pt_ServiceAccountName updated /\
  (forall e, e ∈ firstEnv updated -> envByName (firstEnv t) !! ev_Name e = Some e) /\
  withoutForeign vol_Name (pt_Volumes t) (pt_Volumes updated) (namesOf vol_Name (pt_Volumes updated)) = pt_Volumes updated /\
  withoutForeign ct_Name (pt_InitContainers t) (pt_InitContainers updated) (namesOf ct_Name (pt_InitContainers updated)) = pt_InitContainers updated.

Lemma splitCSV_names {T} (nameOf : T -> string) l : Forall (fun n => cleanName n = true) (nameOf <$> l) ->
  splitCSVSet (sortedNamesCSV l nameOf) = namesOf nameOf l.
Proof. intros H. by apply (splitCSVSet_CSV (nameOf <$> l)). Qed.

Lemma readOwned_records updated sts : rendered updated -> recordsOf updated (ts_Annotations sts) ->
  readOwnedTemplateItems sts (ts_Template sts) = ownItems updated /\ readOwnedEnvVarNames sts = namesOf ev_Name (firstEnv updated).
Proof.
  intros Hr (H1 & H2 & H3 & _).
  assert (readOwnedEnvVarNames sts = namesOf ev_Name (firstEnv updated)) as He.
  { unfold readOwnedEnvVarNames, tsAnnotation. rewrite H1. simpl.
    rewrite splitCSV_names by apply rd_cleanEnv, Hr. destruct (String.eqb _ _) eqn:E; [|done].
    apply String.eqb_eq in E. rewrite <- splitCSV_names by apply rd_cleanEnv, Hr. by rewrite E. }
  split; [|exact He]. unfold readOwnedTemplateItems. rewrite H2, H3, He. unfold ownItems.
  by rewrite (splitCSV_names ct_Name), (splitCSV_names vol_Name) by apply Hr.
Qed.

Lemma inPlace_significant updated sts : rendered updated -> inPlace updated sts ->
  hasCriticalTemplateChanges (ts_Template sts) updated = false /\
  hasSignificantTemplateChanges (ts_Template sts) updated (ownItems updated) = false.
Proof.
  intros Hr (Hrec & Hc & Hs & Ha & He & Hv & Hi).
  assert (hasCriticalTemplateChanges (ts_Template sts) updated = false) as Hcrit.
  { unfold hasCriticalTemplateChanges, securityContextEqual. rewrite criticalContainers_same by done.
    apply (f_equal length) in Hc. rewrite !length_fmap in Hc. by rewrite Hc, Nat.eqb_refl, Hs, Ha, !String.eqb_refl. }
  split; [done|]. unfold hasSignificantTemplateChanges. rewrite Hcrit. cbn [oi_volumes oi_initContainers oi_env ownItems].
  rewrite (volumesEqual_desired _ _ _ Hv), (initContainersEqual_desired _ _ _ Hi). rewrite !orb_false_r. simpl.
  destruct (pt_Containers (ts_Template sts)) as [|c cs] eqn:E1; [done|]. destruct (pt_Containers updated) as [|d ds] eqn:E2; [done|].
  unfold firstEnv in *. rewrite E1, E2 in *. apply negb_false_iff. unfold envVarsEqual. apply andb_true_iff. split; apply forallb_forall.
  - intros e Hin. rewrite He by by apply list_elem_of_In. unfold envVarSourceEqual. by rewrite String.eqb_refl, bool_decide_eq_true_2.
  - intros n Hn. apply list_elem_of_In, elem_of_elements in Hn. by rewrite bool_decide_eq_true_2.
Qed.

(** What is in place is not written again. *)
Lemma inPlace_settled updated sts : rendered updated -> inPlace updated sts ->
  isTemplateChangeSignificant podTemplateSpecHash (ts_Template sts) updated sts = false.
Proof.
  intros Hr Hp. destruct (inPlace_significant _ _ Hr Hp) as [H1 H2]. destruct Hp as (Hrec & _).
  destruct (readOwned_records _ _ Hr Hrec) as [Ho _]. destruct Hrec as (_ & _ & _ & Hh).
  unfold isTemplateChangeSignificant. rewrite H1, Ho, H2, Hh. unfold tsAnnotation. rewrite Hh. simpl. rewrite String.eqb_refl. by destruct (_ <? _).
Qed.
End Settled.

Definition clusterKeys : list string :=
  [ownedEnvVarsAnnotation; ownedInitContainersAnnotation; ownedVolumesAnnotation; clusterTemplateHashAnnotation].

(** A write that leaves all of that leaves it in place. *)
Lemma inPlace_keeps hash updated sts sts' :
  inPlace hash updated sts ->
  (forall k, k ∈ clusterKeys -> ts_Annotations sts' !! k = ts_Annotations sts !! k) ->
  critical <$> pt_Containers (ts_Template sts') = critical <$> pt_Containers (ts_Template sts) ->
  pt_SecurityContext (ts_Template sts') = pt_SecurityContext (ts_Template sts) ->
  pt_ServiceAccountName (ts_Template sts') = pt_ServiceAccountName (ts_Template sts) ->
  (forall n, n ∈ ev_Name <$> firstEnv updated ->
     envByName (firstEnv (ts_Template sts')) !! n = envByName (firstEnv (ts_Template sts)) !! n) ->
  (forall owned, owned = namesOf vol_Name (pt_Volumes updated) ->
     withoutForeign vol_Name (pt_Volumes (ts_Template sts')) (pt_Volumes updated) owned =
     withoutForeign vol_Name (pt_Volumes (ts_Template sts)) (pt_Volumes updated) owned) ->
  (forall owned, owned = namesOf ct_Name (pt_InitContainers updated) ->
     withoutForeign ct_Name (pt_InitContainers (ts_Template sts')) (pt_InitContainers updated) owned =
     withoutForeign ct_Name (pt_InitContainers (ts_Template sts)) (pt_InitContainers updated) owned) ->
  inPlace hash updated sts'.
Proof.
  intros ((R1 & R2 & R3 & R4) & Hc & Hs & Ha & He & Hv & Hi) Hk Hc' Hs' Ha' He' Hv' Hi'. split_and!.
  - unfold recordsOf. rewrite !Hk by (unfold clusterKeys; set_solver). done.
  - by rewrite Hc'.
  - by rewrite Hs'.
  - by rewrite Ha'.
  - intros e Hin. rewrite He' by by apply list_elem_of_fmap_2. by apply He.
  - by rewrite Hv'.
  - by rewrite Hi'.
Qed.

(** * Keys *)

Lemma recordKey_prefix shortHash prefix p : strings.HasPrefix (pluginRecordKey shortHash prefix p) prefix = true.
Proof. unfold pluginRecordKey. destruct (_ <=? _)%nat; rewrite ?string_app_assoc; apply HasPrefix_app. Qed.

Lemma envKey_cluster shortHash p k : k ∈ clusterKeys -> k <> envKey shortHash p.
Proof.
  intros Hk ->. pose proof (recordKey_prefix shortHash pluginEnvVarsAnnotationPrefix (np_Name p)) as H.
  unfold envKey, pluginEnvVarsAnnotation in Hk. unfold clusterKeys in Hk. rewrite !elem_of_cons in Hk.
  destruct Hk as [E|[E|[E|[E|E]]]]; [rewrite E in H; discriminate H..|by apply elem_of_nil in E].
Qed.

Lemma entriesAnnotation_cluster shortHash name k : k ∈ clusterKeys -> k <> pluginEntriesAnnotation shortHash name.
Proof.
  intros Hk ->. pose proof (recordKey_prefix shortHash pluginEntriesAnnotationPrefix name) as H.
  unfold pluginEntriesAnnotation in Hk. unfold clusterKeys in Hk. rewrite !elem_of_cons in Hk.
  destruct Hk as [E|[E|[E|[E|E]]]]; [rewrite E in H; discriminate H..|by apply elem_of_nil in E].
Qed.

Lemma setPluginEnvRecord_ne key owned sts k : k <> key -> ts_Annotations (setPluginEnvRecord key owned sts) !! k = ts_Annotations sts !! k.
Proof. intros Hk. unfold setPluginEnvRecord. destruct (decide _); simpl; [by rewrite lookup_delete_ne|by rewrite lookup_insert_ne]. Qed.

(** * What the cluster hands over *)

Lemma fold_records shortHash (f : string -> gset string) owners : forall sts,
  let sts' := fold_left (fun sts owner => setPluginEnvRecord (pluginEntriesAnnotation shortHash owner) (f owner) sts) owners sts in
  ts_Template sts' = ts_Template sts /\ ts_Selector sts' = ts_Selector sts /\ ts_Replicas sts' = ts_Replicas sts /\
  ts_ReadyReplicas sts' = ts_ReadyReplicas sts /\
  (forall k, (forall name, k <> pluginEntriesAnnotation shortHash name) -> ts_Annotations sts' !! k = ts_Annotations sts !! k).
Proof.
  induction owners as [|o owners IH]; intros sts; [done|]. cbn [fold_left].
  destruct (IH (setPluginEnvRecord (pluginEntriesAnnotation shortHash o) (f o) sts)) as (I1 & I2 & I3 & I4 & I5).
  cbv zeta in *. rewrite I1, I2, I3, I4. split_and!; [unfold setPluginEnvRecord; by destruct (decide _)..|].
  intros k Hk. rewrite I5 by done. by apply setPluginEnvRecord_ne.
Qed.

Section HandOver.
Context (shortHash : string -> string) (cluster : DeploymentInfo) (plugins : option (list Neo4jPlugin)) (sts : ServerSet).
Context (merged current desired : list EnvVar) (previousOwned : gset string).

Lemma handOverSharedLists_shape : exists extra, handOverSharedLists shortHash cluster plugins sts merged current desired previousOwned = merged ++ extra /\
  forall e, e ∈ extra -> ev_Name e ∈ previousOwned /\ (ev_Name e ∉ ev_Name <$> desired) /\ IsAdditiveConfEnvName (ev_Name e) = true /\ ev_Name e ∈ ev_Name <$> current.
Proof.
  unfold handOverSharedLists. destruct plugins as [ps|]; [|exists []; split; [by rewrite app_nil_r|by intros e ?%elem_of_nil]].
  eexists. split; [done|]. intros e (n & Hn & He)%list_elem_of_omap. apply list_elem_of_In, filter_In in Hn as [Hn Hb].
  rewrite !andb_true_iff, negb_true_iff, bool_decide_eq_true, bool_decide_eq_false, namesOf_elem in Hb. apply list_elem_of_In in Hn.
  destruct (writtenPluginLists _ _ _ _ !! n); [|done]. destruct (String.eqb _ _); [done|]. injection He as <-. simpl. tauto.
Qed.

Lemma handOverNeo4jPlugins_shape : exists extra sts',
  handOverNeo4jPlugins shortHash cluster plugins sts merged current desired previousOwned = (merged ++ extra, sts') /\
  (forall e, e ∈ extra -> ev_Name e = NEO4J_PLUGINS /\ NEO4J_PLUGINS ∈ previousOwned /\ NEO4J_PLUGINS ∉ ev_Name <$> desired) /\
  ts_Template sts' = ts_Template sts /\ ts_Selector sts' = ts_Selector sts /\ ts_Replicas sts' = ts_Replicas sts /\
  ts_ReadyReplicas sts' = ts_ReadyReplicas sts /\
  (forall k, (forall name, k <> pluginEntriesAnnotation shortHash name) -> ts_Annotations sts' !! k = ts_Annotations sts !! k).
Proof.
  unfold handOverNeo4jPlugins.
  assert (exists extra sts', (merged, sts) = (merged ++ extra, sts') /\
    (forall e, e ∈ extra -> ev_Name e = NEO4J_PLUGINS /\ NEO4J_PLUGINS ∈ previousOwned /\ NEO4J_PLUGINS ∉ ev_Name <$> desired) /\
    ts_Template sts' = ts_Template sts /\ ts_Selector sts' = ts_Selector sts /\ ts_Replicas sts' = ts_Replicas sts /\
    ts_ReadyReplicas sts' = ts_ReadyReplicas sts /\
    (forall k, (forall name, k <> pluginEntriesAnnotation shortHash name) -> ts_Annotations sts' !! k = ts_Annotations sts !! k)) as Hsame.
  { exists [], sts. rewrite app_nil_r. split_and!; try done. by intros e ?%elem_of_nil. }
  destruct (negb _ || _ || _) eqn:E; [done|]. apply orb_false_iff in E as [E _]. apply orb_false_iff in E as [E1 E2].
  apply negb_false_iff, bool_decide_eq_true in E1. apply bool_decide_eq_false in E2. rewrite namesOf_elem in E2.
  destruct (envByName current !! NEO4J_PLUGINS) as [live|]; [|done]. destruct plugins as [ps|]; [|done].
  destruct (bool_decide (ev_ValueFrom live <> None)); [done|]. destruct (decide _); [done|].
  eexists _, _. split; [done|]. split; [intros e ->%list_elem_of_singleton; done|].
  apply (fold_records shortHash (fun owner => list_to_set (default [] (installedPluginEntries shortHash cluster sts ps !! owner)))).
Qed.
End HandOver.

(** * The cluster's write *)

Section Apply.
Context (hash : PodTemplate -> string) (shortHash : string -> string) (cluster : DeploymentInfo) (plugins : option (list Neo4jPlugin)).
Context (sts : ServerSet) (updated : PodTemplate).
Context (Hr : rendered updated).

Abbreviation applied := (applyUpdated hash shortHash cluster plugins sts updated).
Abbreviation owned := (readOwnedTemplateItems sts (ts_Template sts)).

(** The env written: the others' variables, the desired ones, and those handed
    over. *)
Lemma applied_shape : exists extra,
  firstEnv (ts_Template applied) = mergeEnvVars (firstEnv (ts_Template sts)) (firstEnv updated) (oi_env owned) ++ extra /\
  (forall e, e ∈ extra -> ev_Name e ∈ oi_env owned /\ (ev_Name e ∉ ev_Name <$> firstEnv updated) /\
     (IsAdditiveConfEnvName (ev_Name e) = true \/ ev_Name e = NEO4J_PLUGINS)) /\
  critical <$> pt_Containers (ts_Template applied) = critical <$> pt_Containers updated /\
  pt_InitContainers (ts_Template applied) =
    mergeOwnedByName ct_Name (pt_InitContainers (ts_Template sts)) (pt_InitContainers updated) (oi_initContainers owned) /\
  pt_Volumes (ts_Template applied) = mergeOwnedByName vol_Name (pt_Volumes (ts_Template sts)) (pt_Volumes updated) (oi_volumes owned) /\
  pt_Annotations (ts_Template applied) = mergePodTemplateAnnotations (pt_Annotations (ts_Template sts)) (pt_Annotations updated) /\
  pt_SecurityContext (ts_Template applied) = pt_SecurityContext updated /\
  pt_ServiceAccountName (ts_Template applied) = pt_ServiceAccountName updated /\
  ts_Selector applied = ts_Selector sts /\ ts_Replicas applied = ts_Replicas sts /\ ts_ReadyReplicas applied = ts_ReadyReplicas sts /\
  recordsOf hash updated (ts_Annotations applied) /\
  (forall k, k ∉ clusterKeys -> (forall name, k <> pluginEntriesAnnotation shortHash name) -> ts_Annotations applied !! k = ts_Annotations sts !! k).
Proof.
  destruct (rd_neo4j _ Hr) as (c & rest & Hc & _). unfold applyUpdated.
  destruct (handOverSharedLists_shape shortHash cluster plugins sts (mergeEnvVars (firstEnv (ts_Template sts)) (firstEnv updated) (oi_env owned))
    (firstEnv (ts_Template sts)) (firstEnv updated) (oi_env owned)) as (x1 & -> & H1).
  match goal with |- context [handOverNeo4jPlugins ?a ?b ?p ?s ?m ?cu ?d ?o] =>
    destruct (handOverNeo4jPlugins_shape a b p s m cu d o) as (x2 & sts1 & -> & H2 & _ & Hsel & Hrep & Hready & Hann) end.
  exists (x1 ++ x2). unfold setFirstEnv. rewrite Hc. rewrite <- app_assoc.
  unfold setClusterTemplateHash, writeOwnedTemplateItems, writeOwnedEnvVarNames, annotateSet.
  set (template := set_pt_Annotations _ _).
  cbn [ts_Template ts_Annotations ts_Selector ts_Replicas ts_ReadyReplicas set_ts_Annotations set_ts_Template].
  unfold template. clear template.
  cbn [pt_Containers pt_InitContainers pt_Volumes pt_Annotations pt_SecurityContext pt_ServiceAccountName
    set_pt_Annotations set_pt_Volumes set_pt_InitContainers set_pt_Containers].
  split_and!; try done.
  - intros e [He|He]%elem_of_app; [destruct (H1 _ He) as (? & ? & ? & _); tauto|]. destruct (H2 _ He) as (-> & ? & ?). tauto.
  - unfold recordsOf. split_and!.
    + do 3 (rewrite lookup_insert_ne by done). apply lookup_insert_eq.
    + do 2 (rewrite lookup_insert_ne by done). apply lookup_insert_eq.
    + rewrite lookup_insert_ne by done. apply lookup_insert_eq.
    + apply lookup_insert_eq.
  - intros k Hk Hn. unfold clusterKeys in Hk. rewrite !not_elem_of_cons in Hk. destruct Hk as (K1 & K2 & K3 & K4 & _).
    rewrite !lookup_insert_ne by done. by apply Hann.
Qed.

(** Variable by variable. *)
Lemma applied_env n :
  let env := firstEnv (ts_Template applied) in
  (forall e, e ∈ firstEnv updated -> ev_Name e = n -> envAt n env = [e]) /\
  (n ∉ ev_Name <$> firstEnv updated -> n ∉ oi_env owned -> envAt n env = envAt n (firstEnv (ts_Template sts))) /\
  (n ∉ ev_Name <$> firstEnv updated -> n ∈ oi_env owned -> IsAdditiveConfEnvName n = false -> n <> NEO4J_PLUGINS -> envAt n env = []).
Proof.
  destruct applied_shape as (extra & Henv & Hx & _). cbv zeta. rewrite Henv, envAt_app, mergeEnvVars_at. split_and!.
  - intros e He <-. rewrite (bool_decide_eq_true_2 (ev_Name e ∈ ev_Name <$> _)) by by apply list_elem_of_fmap_2.
    rewrite orb_true_r. rewrite (envAt_NoDup _ _ (rd_env _ Hr) He). simpl. f_equal. apply envAt_None.
    intros (x & Ex & Hin)%list_elem_of_fmap. destruct (Hx _ Hin) as (_ & Hnot & _). apply Hnot. rewrite <- Ex. by apply list_elem_of_fmap_2.
  - intros Hd Ho. rewrite !bool_decide_eq_false_2 by done. simpl. rewrite (envAt_None _ (firstEnv updated)), (envAt_None _ extra), !app_nil_r; [done| |done].
    intros (x & -> & Hin)%list_elem_of_fmap. by destruct (Hx _ Hin).
  - intros Hd Ho Ha Hp. rewrite (bool_decide_eq_true_2 (n ∈ oi_env owned)) by done. simpl.
    rewrite (envAt_None _ (firstEnv updated)), (envAt_None _ extra); [done| |done].
    intros (x & -> & Hin)%list_elem_of_fmap. destruct (Hx _ Hin) as (_ & _ & [H|H]); [congruence|done].
Qed.

Lemma applied_inPlace : inPlace hash updated applied.
Proof.
  destruct applied_shape as (extra & Henv & Hx & Hc & Hi & Hv & Ha & Hs & Hsa & _ & _ & _ & Hrec & _). split_and!; try done.
  - intros e He. rewrite envByName_at. by rewrite (proj1 (applied_env (ev_Name e)) e He eq_refl).
  - rewrite Hv. apply withoutForeign_merge.
  - rewrite Hi. apply withoutForeign_merge.
Qed.
End Apply.

(** * Aura Fleet Management's name *)

(** A NEO4J_PLUGINS the cluster renders carries fleet-management already, or
    cannot take it. *)
Definition carriesFleet (updated : PodTemplate) : Prop :=
  forall c rest e, pt_Containers updated = c :: rest -> e ∈ ct_Env c -> ev_Name e = NEO4J_PLUGINS ->
  ownNeo4jPluginsWithFleet e true (imageTag (ct_Image c)) = e.

(** As the cluster renders it, it does. *)
Lemma ownNeo4jPlugins_idem e tag :
  ownNeo4jPluginsWithFleet (ownNeo4jPluginsWithFleet e true tag) true tag = ownNeo4jPluginsWithFleet e true tag.
Proof.
  unfold ownNeo4jPluginsWithFleet at 2 3. simpl. destruct (bool_decide _ || _) eqn:E; [unfold ownNeo4jPluginsWithFleet; by simpl; rewrite E|].
  destruct (MergeNeo4jPluginList (ev_Value e) _) as [merged|] eqn:Em;
    [|unfold ownNeo4jPluginsWithFleet; simpl; by rewrite E, Em].
  assert (MergeNeo4jPluginList merged fleetManagementPluginEntry = Some merged) as Eq.
  { unfold MergeNeo4jPluginList in Em. destruct (readList (ev_Value e)) as [l|] eqn:El; [|done].
    assert (readList merged = Some (if bool_decide (fleetManagementPluginEntry ∈ l) then l else l ++ [fleetManagementPluginEntry])) as Hm.
    { eapply Merge_reads; [exact El|]. unfold MergeNeo4jPluginList. by rewrite El. }
    unfold MergeNeo4jPluginList. rewrite Hm, bool_decide_eq_true_2; [done|]. case_bool_decide; [done|]. apply elem_of_app. right. apply list_elem_of_here. }
  unfold ownNeo4jPluginsWithFleet. simpl. by rewrite E, Eq.
Qed.

Section Live.
Context (hash : PodTemplate -> string) (updated : PodTemplate) (Hr : rendered updated) (sts : ServerSet) (Hp : inPlace hash updated sts).

(** The live first container is neo4j, on the image rendered. *)
Lemma live_neo4j : exists c rest d drest, pt_Containers (ts_Template sts) = c :: rest /\ ct_Name c = "neo4j" /\
  pt_Containers updated = d :: drest /\ ct_Image c = ct_Image d.
Proof.
  destruct (rd_neo4j _ Hr) as (d & drest & Hd & Hn). destruct Hp as (_ & Hc & _). rewrite Hd, fmap_cons in Hc.
  destruct (pt_Containers (ts_Template sts)) as [|c rest]; [done|]. rewrite fmap_cons in Hc. injection Hc as E1 E2 _ _ _ _.
  exists c, rest, d, drest. split_and!; [done|congruence|done|done].
Qed.

Lemma live_env : neo4jContainerEnv (ts_Template sts) = firstEnv (ts_Template sts).
Proof.
  destruct live_neo4j as (c & rest & _ & _ & Hc & Hn & _). destruct (firstEnv_neo4j _ _ _ Hc Hn) as [_ ->]. unfold firstEnv. by rewrite Hc.
Qed.

(** Setting the neo4j container's env. *)
Lemma live_setEnv env : firstEnv (setNeo4jEnv env (ts_Template sts)) = env /\
  critical <$> pt_Containers (setNeo4jEnv env (ts_Template sts)) = critical <$> pt_Containers (ts_Template sts).
Proof.
  destruct live_neo4j as (c & rest & _ & _ & Hc & Hn & _). split; [|apply editNeo4j_critical].
  unfold firstEnv. by rewrite (neo4j_setNeo4jEnv _ _ _ _ Hc Hn).
Qed.

Lemma fleetKey_cluster k : k ∈ clusterKeys -> k <> fleetEntriesAnnotation.
Proof. unfold clusterKeys. rewrite !elem_of_cons, elem_of_nil. by intros [->|[->|[->|[->|[]]]]]. Qed.

Lemma fleet_keeps_env env n : carriesFleet updated -> distinctNames (ts_Template sts) ->
  addFleetManagementPlugin (ts_Template sts) = FleetAdded env -> n ∈ names (firstEnv updated) ->
  envAt n env = envAt n (firstEnv (ts_Template sts)).
Proof.
  intros Hfl Hd. destruct live_neo4j as (c & rest & d & drest & Hc & Hn & Hud & Himg).
  assert (firstEnv (ts_Template sts) = ct_Env c) as Hfe by (unfold firstEnv; by rewrite Hc). rewrite Hfe.
  pose proof (distinct_firstEnv _ Hd) as Hnd. rewrite Hfe in Hnd.
  unfold addFleetManagementPlugin. rewrite (proj1 (firstEnv_neo4j _ _ _ Hc Hn)).
  destruct (FleetManagementBuiltIn (imageTag (ct_Image c))) eqn:Eb; [done|].
  intros Hadd (e & -> & He)%list_elem_of_fmap. destruct (decide (ev_Name e = NEO4J_PLUGINS)) as [Hname|Hname].
  - exfalso. assert (e ∈ ct_Env d) as Hed by (unfold firstEnv in He; by rewrite Hud in He).
    pose proof (Hfl d drest e Hud Hed Hname) as Hcf.
    destruct Hp as (_ & _ & _ & _ & Henv & _). specialize (Henv e He). rewrite Hfe, Hname, envByName_at in Henv.
    assert (e ∈ ct_Env c) as Hec. { apply last_Some_elem_of in Henv. by apply envAt_elem in Henv as [? _]. }
    assert (findEnvVar (ct_Env c) NEO4J_PLUGINS = Some e) as Hfind by (rewrite findEnvVar_at, <- Hname, envAt_NoDup by done; done).
    rewrite Hfind in Hadd. unfold ownNeo4jPluginsWithFleet in Hcf. rewrite <- Himg, Eb in Hcf.
    destruct (bool_decide (ev_ValueFrom e <> None)); [done|]. simpl in Hcf.
    destruct (MergeNeo4jPluginList (ev_Value e) fleetManagementPluginEntry) as [v|]; [|done].
    rewrite <- Hcf, String.eqb_refl in Hadd. done.
  - destruct (findEnvVar (ct_Env c) NEO4J_PLUGINS) as [e0|].
    + destruct (bool_decide _); [done|]. destruct (MergeNeo4jPluginList _ _); [|done]. destruct (String.eqb _ _); [done|].
      injection Hadd as <-. by apply envAt_editFirst_ne.
    + destruct (MergeNeo4jPluginList _ _); [|done]. injection Hadd as <-. rewrite envAt_app, envAt_single_ne by done. by rewrite app_nil_r.
Qed.

Lemma fleet_inPlace sts' : carriesFleet updated -> distinctNames (ts_Template sts) -> addFleetEntryInWrite sts = Some sts' -> inPlace hash updated sts'.
Proof.
  intros Hfl Hd. unfold addFleetEntryInWrite. set (sts1 := if neo4jPluginsOwnedByTarget sts then _ else _).
  assert (ts_Template sts1 = ts_Template sts /\ forall k, k ∈ clusterKeys -> ts_Annotations sts1 !! k = ts_Annotations sts !! k) as [Ht1 Hk1].
  { unfold sts1. destruct (neo4jPluginsOwnedByTarget sts); [|done]. split; [done|]. intros k Hk. simpl. rewrite lookup_delete_ne; [done|].
    intros E. by apply (fleetKey_cluster k). }
  assert (inPlace hash updated sts1) as Hp1 by (apply (inPlace_keeps _ _ _ _ Hp); rewrite ?Ht1; done).
  rewrite Ht1. destruct (addFleetManagementPlugin (ts_Template sts)) as [| | |env] eqn:E; intros Heq; [discriminate Heq|apply (inj Some) in Heq as <-..]; try exact Hp1.
  destruct (live_setEnv env) as [Hfe Hcr].
  assert (forall s, ts_Template s = setNeo4jEnv env (ts_Template sts) -> (forall k, k ∈ clusterKeys -> ts_Annotations s !! k = ts_Annotations sts !! k) ->
    inPlace hash updated s) as Hgen.
  { intros s Hs Hk. apply (inPlace_keeps _ _ _ _ Hp); rewrite ?Hs; try done. intros n Hn. rewrite Hfe, !envByName_at.
    by rewrite (fleet_keeps_env _ _ Hfl Hd E Hn). }
  destruct (neo4jPluginsOwnedByTarget (set_ts_Template _ _)); apply Hgen; try done.
  intros k Hk. simpl. rewrite lookup_insert_ne; [by apply Hk1|]. intros Ek. by apply (fleetKey_cluster k).
Qed.
End Live.

(** * What the plugins leave of the cluster's items *)

Section Foreign.
Context {T : Type} (nameOf : T -> string) (desired : list T).

Definition ofCluster (cur : list T) : list T := withoutForeign nameOf cur desired (namesOf nameOf desired).

Lemma ofCluster_cons x cur : ofCluster (x :: cur) = if bool_decide (nameOf x ∈ nameOf <$> desired) then x :: ofCluster cur else ofCluster cur.
Proof.
  unfold ofCluster, withoutForeign. cbn [List.filter]. rewrite orb_diag.
  rewrite (bool_decide_ext (nameOf x ∈ namesOf nameOf desired) (nameOf x ∈ nameOf <$> desired)) by apply namesOf_elem. done.
Qed.

Lemma ofCluster_foreign x cur : nameOf x ∉ nameOf <$> desired -> ofCluster (x :: cur) = ofCluster cur.
Proof. intros H. by rewrite ofCluster_cons, bool_decide_eq_false_2. Qed.

Lemma ofCluster_snoc cur x : nameOf x ∉ nameOf <$> desired -> ofCluster (cur ++ [x]) = ofCluster cur.
Proof.
  intros H. induction cur as [|c cur IH]; [by apply ofCluster_foreign|]. rewrite <- app_comm_cons, !ofCluster_cons, IH. done.
Qed.

Lemma ofCluster_filter (p : T -> bool) cur : (forall x, nameOf x ∈ nameOf <$> desired -> p x = true) -> ofCluster (List.filter p cur) = ofCluster cur.
Proof.
  intros H. induction cur as [|c cur IH]; [done|]. cbn [List.filter]. destruct (p c) eqn:E; rewrite !ofCluster_cons, ?IH; [done|].
  case_bool_decide as Hc; [|done]. by rewrite H in E.
Qed.
End Foreign.

Section PluginItems.
Context (initContainerFor : Neo4jPlugin -> Container) (authVolumeFor : Neo4jPlugin -> option Volume) (caVolume : option Volume).
Context (derivative : Container -> Container -> bool).
Context (HinitName : forall p, ct_Name (initContainerFor p) = PluginInitContainerName (np_SpecName p)).
Context (HauthName : forall p v, authVolumeFor p = Some v -> vol_Name v = authVolumeName (np_SpecName p)).
Context (HcaName : forall v, caVolume = Some v -> vol_Name v = PluginCAVolumeName).
Context (updated : PodTemplate) (Hr : rendered updated).

Abbreviation ownInit := (ofCluster ct_Name (pt_InitContainers updated)).
Abbreviation ownVolumes := (ofCluster vol_Name (pt_Volumes updated)).

Lemma pluginInit_foreign p : PluginInitContainerName p ∉ ct_Name <$> pt_InitContainers updated.
Proof. intros H. apply (rd_init _ Hr) in H. unfold PluginInitContainerName in H. by rewrite HasPrefix_app in H. Qed.

Lemma pluginAuth_foreign p : authVolumeName p ∉ vol_Name <$> pt_Volumes updated.
Proof. intros H. apply (rd_volumes _ Hr) in H as [_ H]. unfold authVolumeName in H. by rewrite HasPrefix_app in H. Qed.

Lemma pluginCA_foreign : PluginCAVolumeName ∉ vol_Name <$> pt_Volumes updated.
Proof. intros H. by apply (rd_volumes _ Hr) in H as [H _]. Qed.

Lemma placeInit_own p cs : ownInit (placeInit derivative (initContainerFor p) cs) = ownInit cs.
Proof.
  induction cs as [|c cs IH]; cbn [placeInit].
  - apply ofCluster_foreign. rewrite HinitName. apply pluginInit_foreign.
  - destruct (String.eqb (ct_Name c) (ct_Name (initContainerFor p))) eqn:E; [|by rewrite !ofCluster_cons, IH].
    apply String.eqb_eq in E. assert (ct_Name c ∉ ct_Name <$> pt_InitContainers updated) as Hc by (rewrite E, HinitName; apply pluginInit_foreign).
    rewrite (ofCluster_foreign _ _ c) by done. destruct (derivative _ c); apply ofCluster_foreign; [done|]. by rewrite <- E.
Qed.

Lemma dropFirst_own vs : ownVolumes (dropFirstVolume PluginCAVolumeName vs) = ownVolumes vs.
Proof.
  induction vs as [|v vs IH]; [done|]. cbn [dropFirstVolume]. destruct (String.eqb (vol_Name v) PluginCAVolumeName) eqn:E;
    [|by rewrite !ofCluster_cons, <- IH].
  apply String.eqb_eq in E. rewrite ofCluster_foreign; [done|]. rewrite E. apply pluginCA_foreign.
Qed.

Lemma replaceFirst_own v vs : vol_Name v = PluginCAVolumeName -> ownVolumes (replaceFirstVolume v vs) = ownVolumes vs.
Proof.
  intros Hv. induction vs as [|x vs IH]; [done|]. cbn [replaceFirstVolume]. destruct (String.eqb (vol_Name x) PluginCAVolumeName) eqn:E;
    [|by rewrite !ofCluster_cons, <- IH].
  apply String.eqb_eq in E. rewrite (ofCluster_foreign _ _ x) by (rewrite E; apply pluginCA_foreign).
  apply ofCluster_foreign. destruct (sameTrustedCAs x v); [rewrite E|rewrite Hv]; apply pluginCA_foreign.
Qed.

(** Parts of the template only the cluster writes. *)
Definition clusterPart (t : PodTemplate) :=
  (critical <$> pt_Containers t, pt_SecurityContext t, pt_ServiceAccountName t, ownVolumes (pt_Volumes t), ownInit (pt_InitContainers t)).

Lemma setNeo4jEnv_part env t : clusterPart (setNeo4jEnv env t) = clusterPart t.
Proof. unfold clusterPart, setNeo4jEnv. cbn [pt_Containers pt_SecurityContext pt_ServiceAccountName pt_Volumes pt_InitContainers set_pt_Containers]. by rewrite editNeo4j_critical. Qed.

Lemma setPluginCAVolume_part t : clusterPart (setPluginCAVolume caVolume t) = clusterPart t /\ pt_Containers (setPluginCAVolume caVolume t) = pt_Containers t.
Proof.
  unfold setPluginCAVolume. destruct caVolume as [v|].
  - destruct (podSpecHasVolume t PluginCAVolumeName); (split; [|done]); unfold clusterPart; cbn [pt_Containers pt_SecurityContext pt_ServiceAccountName pt_Volumes pt_InitContainers set_pt_Volumes].
    + by rewrite replaceFirst_own by by apply HcaName.
    + rewrite ofCluster_snoc; [done|]. rewrite (HcaName v eq_refl). apply pluginCA_foreign.
  - destruct (_ && _); [|done]. split; [|done]. unfold clusterPart.
    cbn [pt_Containers pt_SecurityContext pt_ServiceAccountName pt_Volumes pt_InitContainers set_pt_Volumes]. by rewrite dropFirst_own.
Qed.

Lemma applyVerifiedDownload_part p t : let t' := applyVerifiedDownload initContainerFor authVolumeFor caVolume derivative p t in
  clusterPart t' = clusterPart t /\ pt_Containers t' = pt_Containers t.
Proof.
  unfold applyVerifiedDownload. set (t1 := set_pt_InitContainers _ t).
  assert (clusterPart t1 = clusterPart t /\ pt_Containers t1 = pt_Containers t) as [H1 C1].
  { split; [|done]. unfold clusterPart, t1. cbn [pt_Containers pt_SecurityContext pt_ServiceAccountName pt_Volumes pt_InitContainers set_pt_InitContainers].
    by rewrite placeInit_own. }
  set (t2 := match authVolumeFor p with Some v => _ | None => _ end).
  assert (clusterPart t2 = clusterPart t /\ pt_Containers t2 = pt_Containers t) as [H2 C2].
  { unfold t2. destruct (authVolumeFor p) as [v|] eqn:Ev; [|done]. destruct (podSpecHasVolume t1 (vol_Name v)); [done|]. split; [|done].
    rewrite <- H1. unfold clusterPart. cbn [pt_Containers pt_SecurityContext pt_ServiceAccountName pt_Volumes pt_InitContainers set_pt_Volumes].
    rewrite ofCluster_snoc; [done|]. rewrite (HauthName _ _ Ev). apply pluginAuth_foreign. }
  destruct (setPluginCAVolume_part t2) as [H3 C3]. cbv zeta. case_bool_decide; [by rewrite H3, C3|].
  split; [|by rewrite <- C2, <- C3]. by rewrite <- H2, <- H3.
Qed.

Lemma withoutPluginInitContainer_part p t : let t' := withoutPluginInitContainer p t in
  clusterPart t' = clusterPart t /\ pt_Containers t' = pt_Containers t.
Proof.
  unfold withoutPluginInitContainer. set (t1 := set_pt_InitContainers _ t). set (t2 := set_pt_Volumes _ t1).
  assert (clusterPart t2 = clusterPart t) as H2.
  { unfold clusterPart, t2, t1. cbn [pt_Containers pt_SecurityContext pt_ServiceAccountName pt_Volumes pt_InitContainers set_pt_Volumes set_pt_InitContainers].
    rewrite !ofCluster_filter; [done| |].
    - intros c Hc. apply negb_true_iff, String.eqb_neq. intros E. rewrite E in Hc. by apply pluginInit_foreign in Hc.
    - intros v Hv. apply negb_true_iff, orb_false_iff. split; [|apply andb_false_iff; right]; apply String.eqb_neq; intros E; rewrite E in Hv;
        [by apply pluginAuth_foreign in Hv|by apply pluginCA_foreign in Hv]. }
  cbv zeta. case_bool_decide; [|done]. by destruct (decide _).
Qed.
End PluginItems.

(** * A plugin's write and its removal *)

Lemma critical_neo4j updated t : rendered updated -> critical <$> pt_Containers t = critical <$> pt_Containers updated ->
  neo4jContainerEnv t = firstEnv t /\ exists c rest, pt_Containers t = c :: rest /\ ct_Name c = "neo4j".
Proof.
  intros Hr Hc. destruct (rd_neo4j _ Hr) as (d & drest & Hd & Hn). rewrite Hd, fmap_cons in Hc.
  destruct (pt_Containers t) as [|c rest] eqn:E; [done|]. rewrite fmap_cons in Hc. injection Hc as E1 _ _ _ _ _.
  assert (ct_Name c = "neo4j") as Hcn by congruence. split; [|by exists c, rest].
  destruct (firstEnv_neo4j _ _ _ E Hcn) as [_ ->]. unfold firstEnv. by rewrite E.
Qed.

Lemma changedEnvNames_not before after n : n ∉ changedEnvNames before after -> envByName after !! n = envByName before !! n.
Proof.
  unfold changedEnvNames. rewrite Strings_elem, elem_of_elements, not_elem_of_union, elem_of_difference, !elem_of_dom. intros [H1 H2].
  destruct (envByName after !! n) as [e|] eqn:E.
  - destruct (decide (envByName before !! n = Some e)) as [->|Hne]; [done|]. exfalso. apply H1. exists e. by apply map_lookup_filter_Some.
  - destruct (envByName before !! n) as [e|] eqn:E'; [|done]. exfalso. apply H2. split; [by eexists|]. by intros [? ?].
Qed.

Section PluginPasses.
Context (hash : PodTemplate -> string) (order : gmap string string -> list (string * string)) (shortHash : string -> string).
Context (initContainerFor : Neo4jPlugin -> Container) (authVolumeFor : Neo4jPlugin -> option Volume) (caVolume : option Volume).
Context (derivative : Container -> Container -> bool).
Context (HinitName : forall p, ct_Name (initContainerFor p) = PluginInitContainerName (np_SpecName p)).
Context (HauthName : forall p v, authVolumeFor p = Some v -> vol_Name v = authVolumeName (np_SpecName p)).
Context (HcaName : forall v, caVolume = Some v -> vol_Name v = PluginCAVolumeName).
Context (updated : PodTemplate) (Hr : rendered updated).

Abbreviation part := (clusterPart updated).

Lemma inPlace_part sts sts' : inPlace hash updated sts -> part (ts_Template sts') = part (ts_Template sts) ->
  (forall k, k ∈ clusterKeys -> ts_Annotations sts' !! k = ts_Annotations sts !! k) ->
  (forall n, n ∈ names (firstEnv updated) -> envByName (firstEnv (ts_Template sts')) !! n = envByName (firstEnv (ts_Template sts)) !! n) ->
  inPlace hash updated sts'.
Proof.
  intros Hp Hpart Hk He. injection Hpart as E1 E2 E3 E4 E5. apply (inPlace_keeps _ _ _ _ Hp); try done; intros owned ->; [exact E4|exact E5].
Qed.

Lemma editTemplateEnv_part f sts : part (ts_Template (editTemplateEnv f sts)) = part (ts_Template sts) /\ ts_Annotations (editTemplateEnv f sts) = ts_Annotations sts.
Proof. unfold editTemplateEnv. destruct (neo4jContainer (ts_Template sts)); [|done]. split; [apply setNeo4jEnv_part|done]. Qed.

Lemma setClusterPluginLists_part own others targetOwned t : part (setClusterPluginLists own others targetOwned t) = part t.
Proof. unfold setClusterPluginLists. destruct (neo4jContainer t); [apply setNeo4jEnv_part|done]. Qed.

Lemma applyPluginEntries_part sts p dep others : let sts' := (applyPluginEntries shortHash sts p dep others).1 in
  part (ts_Template sts') = part (ts_Template sts) /\
  forall k, k <> entriesKey shortHash p -> ts_Annotations sts' !! k = ts_Annotations sts !! k.
Proof.
  unfold applyPluginEntries. cbv zeta.
  assert (forall want, part (ts_Template (setPluginEnvRecord (entriesKey shortHash p) want sts)) = part (ts_Template sts) /\
    forall k, k <> entriesKey shortHash p -> ts_Annotations (setPluginEnvRecord (entriesKey shortHash p) want sts) !! k = ts_Annotations sts !! k) as Hrec.
  { intros want. split; [by rewrite record_template|]. intros k Hk. by apply setPluginEnvRecord_ne. }
  destruct (ts_Annotations sts !! _) as [rec|]; [|apply Hrec].
  destruct (sort.Strings _); [apply Hrec|]. destruct (neo4jContainer (ts_Template sts)) as [c|]; [|apply Hrec].
  destruct (bool_decide _); [apply Hrec|]. destruct (withoutPluginEntries _ _ _ _) as [env|]; [|done]. cbn [fst]. split.
  - rewrite record_template. apply setNeo4jEnv_part.
  - intros k Hk. by rewrite setPluginEnvRecord_ne.
Qed.

Lemma applyPluginToTemplate_part p dep t t' :
  applyPluginToTemplate order initContainerFor authVolumeFor caVolume derivative p dep t = Some t' -> part t' = part t.
Proof.
  unfold applyPluginToTemplate. destruct (neo4jContainer t) as [c|]; [|done]. destruct (applyPluginEnv _ _ _ _) as [env|]; [|done].
  intros H. apply (inj Some) in H as <-. destruct (isVerifiedDownloadInstallMode p); [|apply setNeo4jEnv_part].
  destruct (applyVerifiedDownload_part initContainerFor authVolumeFor caVolume derivative HinitName HauthName HcaName updated Hr p (setNeo4jEnv env t)) as [-> _].
  apply setNeo4jEnv_part.
Qed.

Lemma applyPlugin_part sts p dep others sts' removed :
  applyPlugin order shortHash initContainerFor authVolumeFor caVolume derivative sts p dep others = Some (sts', removed) ->
  part (ts_Template sts') = part (ts_Template sts) /\
  forall k, k <> envKey shortHash p -> k <> entriesKey shortHash p -> ts_Annotations sts' !! k = ts_Annotations sts !! k.
Proof.
  unfold applyPlugin. destruct (applyPluginToTemplate _ _ _ _ _ _ _ _) as [t|] eqn:E; [|done]. apply applyPluginToTemplate_part in E.
  rewrite (surjective_pairing (withoutEnvNames _ _ _)).
  match goal with |- context [editTemplateEnv ?f ?s] => set (sts1 := editTemplateEnv f s); destruct (editTemplateEnv_part f s) as [H1 A1] end.
  fold sts1 in H1, A1. set (sts2 := setPluginEnvRecord _ _ sts1).
  assert (part (ts_Template sts2) = part (ts_Template sts)) as H2 by (unfold sts2; rewrite record_template, H1; exact E).
  assert (forall k, k <> envKey shortHash p -> ts_Annotations sts2 !! k = ts_Annotations sts !! k) as A2.
  { intros k Hk. unfold sts2. rewrite setPluginEnvRecord_ne, A1 by done. done. }
  destruct (String.eqb (di_Type dep) "standalone"); rewrite (surjective_pairing (applyPluginEntries _ _ _ _ _));
    intros H; apply (inj Some) in H; injection H as <- _.
  - destruct (applyPluginEntries_part sts2 p dep others) as [H3 A3]. split; [by rewrite H3|]. intros k K1 K2. by rewrite A3, A2.
  - match goal with |- context [applyPluginEntries _ ?s _ _ _] => destruct (applyPluginEntries_part s p dep others) as [H3 A3] end.
    split; [rewrite H3; cbn [ts_Template set_ts_Template]; by rewrite setClusterPluginLists_part|]. intros k K1 K2. rewrite A3 by done. by apply A2.
Qed.

(** No write of a plugin touches what the cluster finds in place. *)
Lemma pluginPass_inPlace sts p dep others : di_Type dep = "cluster" -> inPlace hash updated sts ->
  inPlace hash updated (stored sts (writePluginToTarget order shortHash initContainerFor authVolumeFor caVolume derivative sts p dep others)).
Proof.
  intros Hdep Hp. unfold writePluginToTarget. destruct (applyPlugin _ _ _ _ _ _ _ _ _ _) as [[after removed]|] eqn:E; [|done].
  apply applyPlugin_part in E as [Hpart Hann].
  assert (forall k, k ∈ clusterKeys -> ts_Annotations after !! k = ts_Annotations sts !! k) as Hk.
  { intros k Hk. apply Hann; [by apply envKey_cluster|by apply entriesAnnotation_cluster]. }
  unfold writeOf. destruct (decide (ts_Template sts = ts_Template after)) as [Ht|Ht].
  - destruct (stringMapsEqual _ _); [done|]. cbn [stored]. apply (inPlace_part sts); try done. intros n _. by rewrite Ht.
  - destruct (ownedEnvRefusal sts after dep) eqn:Eo; [|done]. cbn [stored]. apply (inPlace_part sts); try done. intros n Hn.
    unfold ownedEnvRefusal in Eo. rewrite Hdep in Eo.
    change (String.eqb "cluster" "cluster") with true in Eo. cbn [negb] in Eo.
    assert (n ∉ changedEnvNames (neo4jContainerEnv (ts_Template sts)) (neo4jContainerEnv (ts_Template after))) as Hch.
    { intros Hin. destruct Hp as (Hrec & _). destruct (readOwned_records _ _ _ Hr Hrec) as [_ Ho].
      assert (n ∈ ownedEnvNames (changedEnvNames (neo4jContainerEnv (ts_Template sts)) (neo4jContainerEnv (ts_Template after))) (readOwnedEnvVarNames sts)) as Hbad.
      { unfold ownedEnvNames. apply list_elem_of_In, filter_In. split; [by apply list_elem_of_In|]. apply bool_decide_eq_true. rewrite Ho. by apply namesOf_elem. }
      rewrite Eo in Hbad. by apply elem_of_nil in Hbad. }
    apply changedEnvNames_not in Hch. pose proof Hp as (_ & Hc & _). injection Hpart as Ec _ _ _ _.
    destruct (critical_neo4j updated (ts_Template sts) Hr Hc) as [<- _]. destruct (critical_neo4j updated (ts_Template after) Hr) as [<- _]; [|done].
    by rewrite Ec.
Qed.

(** ** The removal *)

Lemma withoutEnvNames_at n gone keep env : n ∈ keep -> envAt n (withoutEnvNames gone keep env).1 = envAt n env.
Proof.
  intros Hn. apply envAt_filter. intros e ->. rewrite (bool_decide_eq_true_2 (n ∈ keep)) by done. by rewrite andb_false_r.
Qed.

Lemma listsEnv_owned_at n others targetOwned env : n ∈ targetOwned -> envAt n (listsEnv ∅ others targetOwned env) = envAt n env.
Proof.
  intros Hn. unfold listsEnv. rewrite envAt_app.
  assert (sort.Strings (map_to_list (tokensByName ∅)).*1 = []) as -> by reflexivity. cbn [omap list_omap]. rewrite app_nil_r.
  apply envAt_omap.
  - intros e ->. rewrite (bool_decide_eq_true_2 (n ∈ targetOwned)) by done. by destruct (negb _).
  - intros e e'. apply listsEnv_keeps.
Qed.

Lemma withoutPluginEntries_at n env gone others dep env' : n <> NEO4J_PLUGINS -> withoutPluginEntries env gone others dep = Some env' -> envAt n env' = envAt n env.
Proof.
  intros Hn. unfold withoutPluginEntries. rewrite mapM_Some. induction 1 as [|e e' l l' He _ IH]; [done|].
  unfold envAt in *. cbn [List.filter]. rewrite IH. destruct (String.eqb (ev_Name e) NEO4J_PLUGINS) eqn:E; cbn [negb orb] in He.
  - apply String.eqb_eq in E. assert (ev_Name e' = NEO4J_PLUGINS) as E'.
    { destruct (bool_decide _); [by injection He as <-|]. destruct (removeNames _ _); [|done]. by injection He as <-. }
    by rewrite E, E', (proj2 (String.eqb_neq NEO4J_PLUGINS n)) by done.
  - by injection He as <-.
Qed.

Lemma removalPass_inPlace sts p dep others : di_Type dep = "cluster" -> inPlace hash updated sts ->
  inPlace hash updated (stored sts (writeRemoval shortHash sts p dep others)).
Proof.
  intros Hdep Hp. unfold writeRemoval. destruct (stored_writeOf sts (withoutPlugin shortHash sts p dep others) []) as [-> | ->]; [done|].
  destruct (live_neo4j hash updated Hr sts Hp) as (c & rest & _ & _ & Hc & Hn & _). pose proof (firstEnv_neo4j _ _ _ Hc Hn) as [Hneo _].
  assert (firstEnv (ts_Template sts) = ct_Env c) as Hfe by (unfold firstEnv; by rewrite Hc).
  assert (forall n, n ∈ names (firstEnv updated) -> n ∈ targetOwnedEnvNames sts) as Hown.
  { intros n Hin. unfold targetOwnedEnvNames. apply elem_of_union_l. destruct Hp as (Hrec & _). destruct (readOwned_records _ _ _ Hr Hrec) as [_ ->].
    by apply namesOf_elem. }
  unfold withoutPlugin. rewrite Hneo, Hdep. change (String.eqb "cluster" "standalone") with false. cbv iota.
  set (env1 := (withoutEnvNames _ _ _).1). set (env2 := listsEnv ∅ others (targetOwnedEnvNames sts) env1).
  set (env3 := if bool_decide (NEO4J_PLUGINS ∈ targetOwnedEnvNames sts) || _ then env2 else _).
  set (sts1 := set_ts_Template (setNeo4jEnv env3 (ts_Template sts)) sts).
  assert (forall n, n ∈ names (firstEnv updated) -> envAt n env3 = envAt n (ct_Env c)) as Henv.
  { intros n Hin. assert (envAt n env2 = envAt n (ct_Env c)) as H2.
    { unfold env2. rewrite listsEnv_owned_at by by apply Hown. apply withoutEnvNames_at. unfold envOwnedElsewhere.
      apply elem_of_union_l, elem_of_union_l. by apply Hown. }
    unfold env3. destruct (bool_decide (NEO4J_PLUGINS ∈ targetOwnedEnvNames sts) || _) eqn:Eb; [done|]. apply orb_false_iff in Eb as [Eb _].
    apply bool_decide_eq_false in Eb. destruct (withoutPluginEntries env2 _ _ _) as [env'|] eqn:Ew; [|done].
    change (default env2 (Some env')) with env'. rewrite (withoutPluginEntries_at n _ _ _ _ _ ltac:(intros ->; by apply Eb, Hown) Ew). done. }
  apply (inPlace_part sts _ Hp).
  - cbn [ts_Template set_ts_Annotations]. destruct (successorDownloads p others); cbn [sts1 ts_Template set_ts_Template]; [apply setNeo4jEnv_part|].
    destruct (withoutPluginInitContainer_part updated Hr p (setNeo4jEnv env3 (ts_Template sts))) as [-> _]. apply setNeo4jEnv_part.
  - intros k Hk. cbn [ts_Annotations set_ts_Annotations].
    rewrite lookup_delete_ne by (intros E; by apply (entriesAnnotation_cluster shortHash (np_Name p) k Hk)).
    rewrite lookup_delete_ne by (intros E; by apply (envKey_cluster shortHash p k Hk)).
    by destruct (successorDownloads p others).
  - intros n Hin. cbn [ts_Template set_ts_Annotations].
    assert (forall t, pt_Containers t = pt_Containers (setNeo4jEnv env3 (ts_Template sts)) -> firstEnv t = env3) as Hft.
    { intros t Ht. unfold firstEnv. by rewrite Ht, (neo4j_setNeo4jEnv _ _ _ _ Hc Hn). }
    assert (firstEnv (ts_Template (if successorDownloads p others then sts1
              else set_ts_Template (withoutPluginInitContainer p (ts_Template sts1)) sts1)) = env3) as ->.
    { destruct (successorDownloads p others); apply Hft; [done|]. cbn [ts_Template set_ts_Template sts1].
      apply (withoutPluginInitContainer_part updated Hr). }
    by rewrite Hfe, !envByName_at, Henv.
Qed.
End PluginPasses.

(** * The selector *)

Lemma record_selector key owned sts : ts_Selector (setPluginEnvRecord key owned sts) = ts_Selector sts.
Proof. unfold setPluginEnvRecord. by destruct (decide _). Qed.

Lemma editTemplateEnv_selector f sts : ts_Selector (editTemplateEnv f sts) = ts_Selector sts.
Proof. unfold editTemplateEnv. by destruct (neo4jContainer _). Qed.

Lemma applyPluginEntries_selector shortHash sts p dep others : ts_Selector (applyPluginEntries shortHash sts p dep others).1 = ts_Selector sts.
Proof.
  unfold applyPluginEntries. destruct (ts_Annotations sts !! _) as [rec|]; [|apply record_selector].
  destruct (sort.Strings _); [apply record_selector|]. destruct (neo4jContainer (ts_Template sts)) as [c|]; [|apply record_selector].
  destruct (bool_decide _); [apply record_selector|]. destruct (withoutPluginEntries _ _ _ _) as [env|]; [|done]. cbn [fst]. by rewrite record_selector.
Qed.

Lemma applyPlugin_selector order shortHash ic av ca derivative sts p dep others sts' removed :
  applyPlugin order shortHash ic av ca derivative sts p dep others = Some (sts', removed) -> ts_Selector sts' = ts_Selector sts.
Proof.
  unfold applyPlugin. destruct (applyPluginToTemplate _ _ _ _ _ _ _ _) as [t|]; [|done].
  rewrite (surjective_pairing (withoutEnvNames _ _ _)).
  destruct (String.eqb (di_Type dep) "standalone"); rewrite (surjective_pairing (applyPluginEntries _ _ _ _ _));
    intros H; apply (inj Some) in H; injection H as <- _;
    rewrite applyPluginEntries_selector; cbn [ts_Selector set_ts_Template]; by rewrite record_selector, editTemplateEnv_selector.
Qed.

Lemma withoutPlugin_selector shortHash sts p dep others : ts_Selector (withoutPlugin shortHash sts p dep others) = ts_Selector sts.
Proof.
  unfold withoutPlugin. cbn [ts_Selector set_ts_Annotations]. destruct (successorDownloads p others); cbn [ts_Selector set_ts_Template];
    by destruct (neo4jContainer (ts_Template sts)).
Qed.

Lemma addFleet_selector sts sts' : addFleetEntryInWrite sts = Some sts' -> ts_Selector sts' = ts_Selector sts.
Proof.
  unfold addFleetEntryInWrite. set (sts1 := if neo4jPluginsOwnedByTarget sts then _ else _).
  assert (ts_Selector sts1 = ts_Selector sts) as H1 by (unfold sts1; by destruct (neo4jPluginsOwnedByTarget sts)).
  destruct (addFleetManagementPlugin _) as [| | |env]; intros Heq; [discriminate Heq|apply (inj Some) in Heq as <-..]; try exact H1.
  destruct (neo4jPluginsOwnedByTarget (set_ts_Template _ _)); exact H1.
Qed.

(** Aura Fleet Management's name changes one variable. *)
Lemma addFleet_others updated sts sts' : rendered updated -> critical <$> pt_Containers (ts_Template sts) = critical <$> pt_Containers updated ->
  addFleetEntryInWrite sts = Some sts' ->
  (forall n, n <> NEO4J_PLUGINS -> envAt n (firstEnv (ts_Template sts')) = envAt n (firstEnv (ts_Template sts))) /\
  pt_InitContainers (ts_Template sts') = pt_InitContainers (ts_Template sts) /\ pt_Volumes (ts_Template sts') = pt_Volumes (ts_Template sts) /\
  pt_Annotations (ts_Template sts') = pt_Annotations (ts_Template sts) /\
  critical <$> pt_Containers (ts_Template sts') = critical <$> pt_Containers (ts_Template sts).
Proof.
  intros Hr Hc. destruct (critical_neo4j updated _ Hr Hc) as [_ (c & rest & Ec & En)]. unfold addFleetEntryInWrite.
  set (sts1 := if neo4jPluginsOwnedByTarget sts then _ else _).
  assert (ts_Template sts1 = ts_Template sts) as Ht by (unfold sts1; by destruct (neo4jPluginsOwnedByTarget sts)). rewrite Ht.
  destruct (addFleetManagementPlugin (ts_Template sts)) as [| | |env] eqn:E; intros Heq; [discriminate Heq|apply (inj Some) in Heq as <-..];
    [by rewrite Ht..|].
  match goal with |- context [ts_Template (if ?b then ?x else ?y)] =>
    assert (ts_Template (if b then x else y) = setNeo4jEnv env (ts_Template sts)) as Hf by by destruct b end.
  rewrite Hf. split_and!; try done; [|apply editNeo4j_critical].
  intros n Hn. assert (forall t, pt_Containers t = set_ct_Env env c :: rest -> firstEnv t = env) as Hft by (intros t Et; unfold firstEnv; by rewrite Et).
  rewrite (Hft (setNeo4jEnv env (ts_Template sts))) by by apply neo4j_setNeo4jEnv.
  unfold firstEnv. rewrite Ec. revert E. unfold addFleetManagementPlugin. rewrite (proj1 (firstEnv_neo4j _ _ _ Ec En)).
  destruct (FleetManagementBuiltIn _); [done|]. destruct (findEnvVar (ct_Env c) NEO4J_PLUGINS) as [e0|].
  - destruct (bool_decide _); [done|]. destruct (MergeNeo4jPluginList _ _); [|done]. destruct (String.eqb _ _); [done|].
    intros [= <-]. by apply envAt_editFirst_ne.
  - destruct (MergeNeo4jPluginList _ _); [|done]. intros [= <-]. rewrite envAt_app, envAt_single_ne by done. by rewrite app_nil_r.
Qed.

Lemma rendered_labels selector t : rendered t -> rendered (withSelectorLabels selector t).
Proof. by intros [? ? ? ? ? ? ?]. Qed.

(** * Claims *)

Lemma critical_images (cs ds : list Container) : critical <$> cs = critical <$> ds -> ct_Image <$> cs = ct_Image <$> ds.
Proof. intros H. apply (f_equal (fmap (fun '(_, image, _, _, _) => image))) in H. rewrite <- !list_fmap_compose in H. exact H. Qed.

(** The write of a template that changed. *)
Lemma updateTemplate_writes hash shortHash cluster plugins desired sts sts' selector : ts_Selector sts = Some selector ->
  isTemplateChangeSignificant hash (ts_Template sts) (withSelectorLabels selector desired) sts = true ->
  updateTemplate hash shortHash cluster plugins desired sts = Some sts' ->
  let applied := applyUpdated hash shortHash cluster plugins sts (withSelectorLabels selector desired) in
  (if di_Fleet cluster then addFleetEntryInWrite applied else Some applied) = Some sts'.
Proof. intros Hs Hc. unfold updateTemplate. by rewrite Hs, Hc. Qed.

(** C38: when the cluster's template changed, what is written to a StatefulSet with
    a selector holds, variable by variable, exactly the one the cluster renders; a
    variable it neither renders nor recorded as its own is as it was; one it
    rendered before and no longer does is gone, unless it is NEO4J_PLUGINS or one of
    the configuration variables plugins add to, all of which may be handed over to
    plugins instead. With Fleet Management on, NEO4J_PLUGINS is left out of all of
    this, since its entry is added to that list. Init containers and volumes are
    those rendered followed by the others', annotations are merged, and the images
    are those rendered. *)
Theorem template_write_exact (hash : PodTemplate -> string) (shortHash : string -> string) (cluster : DeploymentInfo)
    (plugins : option (list Neo4jPlugin)) (desired : PodTemplate) (sts sts' : ServerSet) (selector : gmap string string) :
  ts_Selector sts = Some selector -> rendered desired ->
  isTemplateChangeSignificant hash (ts_Template sts) (withSelectorLabels selector desired) sts = true ->
  updateTemplate hash shortHash cluster plugins desired sts = Some sts' ->
  let owned := readOwnedTemplateItems sts (ts_Template sts) in
  let live := ts_Template sts in
  let written := ts_Template sts' in
  (forall n, n <> NEO4J_PLUGINS \/ di_Fleet cluster = false ->
     (forall e, e ∈ firstEnv desired -> ev_Name e = n -> envAt n (firstEnv written) = [e]) /\
     (n ∉ ev_Name <$> firstEnv desired -> n ∉ oi_env owned -> envAt n (firstEnv written) = envAt n (firstEnv live)) /\
     (n ∉ ev_Name <$> firstEnv desired -> n ∈ oi_env owned -> IsAdditiveConfEnvName n = false -> n <> NEO4J_PLUGINS ->
        envAt n (firstEnv written) = [])) /\
  pt_InitContainers written = mergeOwnedByName ct_Name (pt_InitContainers live) (pt_InitContainers desired) (oi_initContainers owned) /\
  pt_Volumes written = mergeOwnedByName vol_Name (pt_Volumes live) (pt_Volumes desired) (oi_volumes owned) /\
  pt_Annotations written = mergePodTemplateAnnotations (pt_Annotations live) (pt_Annotations desired) /\
  ct_Image <$> pt_Containers written = ct_Image <$> pt_Containers desired.
Proof.
  intros Hs Hr Hc Hw. apply (updateTemplate_writes _ _ _ _ _ _ _ _ Hs Hc) in Hw. cbv zeta in *.
  apply (rendered_labels selector) in Hr. set (updated := withSelectorLabels selector desired) in *.
  destruct (applied_shape hash shortHash cluster plugins sts updated Hr) as (extra & _ & _ & Hcr & Hi & Hv & Ha & _).
  pose proof (applied_env hash shortHash cluster plugins sts updated Hr) as He. cbv zeta in He.
  set (applied := applyUpdated _ _ _ _ _ _) in *.
  assert (forall t, critical <$> pt_Containers t = critical <$> pt_Containers updated -> ct_Image <$> pt_Containers t = ct_Image <$> pt_Containers desired) as Himg.
  { intros t Ht. by apply critical_images. }
  destruct (di_Fleet cluster).
  - destruct (addFleet_others updated applied sts' Hr Hcr Hw) as (Fe & -> & -> & -> & Fc). split_and!; [|done..|apply Himg; by rewrite Fc].
    intros n [Hn|Hn]; [|done]. rewrite Fe by done. apply He.
  - apply (inj Some) in Hw as <-. split_and!; [|done..|by apply Himg]. intros n _. apply He.
Qed.

(** The writes after it: passes of the cluster with the same template, of the
    plugins of clusters, and changes of the servers' number. *)
Definition laterWrite (desired : PodTemplate) (w : templateWrite) : Prop :=
  match w with
  | ClusterPass _ _ d => d = desired
  | PluginPass _ deployment _ | RemovalPass _ deployment _ => di_Type deployment = "cluster"
  | ServersBecome _ _ => True
  end.

Section Later.
Context (hash : PodTemplate -> string) (order : gmap string string -> list (string * string)) (shortHash : string -> string).
Context (initContainerFor : Neo4jPlugin -> Container) (authVolumeFor : Neo4jPlugin -> option Volume) (caVolume : option Volume).
Context (derivative : Container -> Container -> bool).
Context (HinitName : forall p, ct_Name (initContainerFor p) = PluginInitContainerName (np_SpecName p)).
Context (HauthName : forall p v, authVolumeFor p = Some v -> vol_Name v = authVolumeName (np_SpecName p)).
Context (HcaName : forall v, caVolume = Some v -> vol_Name v = PluginCAVolumeName).
Context (desired : PodTemplate) (selector : gmap string string) (Hr : rendered desired).

Abbreviation settled sts := (ts_Selector sts = Some selector /\ inPlace hash (withSelectorLabels selector desired) sts).

Lemma settled_pass cluster plugins sts : settled sts -> updateTemplate hash shortHash cluster plugins desired sts = Some sts.
Proof. intros [Hs Hp]. unfold updateTemplate. rewrite Hs, inPlace_settled; [done| |done]. by apply rendered_labels. Qed.

Lemma settled_step sts w : laterWrite desired w -> settled sts ->
  settled (templateStep hash order shortHash initContainerFor authVolumeFor caVolume derivative sts w).
Proof.
  intros Hw Hst. destruct w as [cl ps d|p dep others|p dep others|rep ready]; cbn [laterWrite templateStep] in *.
  - subst d. rewrite settled_pass by done. done.
  - destruct Hst as [Hs Hp]. split; [|apply pluginPass_inPlace; try done; by apply rendered_labels].
    unfold writePluginToTarget. destruct (applyPlugin _ _ _ _ _ _ _ _ _ _) as [[after removed]|] eqn:E; [|done].
    destruct (stored_writeOf sts after (ownedEnvRefusal sts after dep)) as [-> | ->]; [done|]. by rewrite (applyPlugin_selector _ _ _ _ _ _ _ _ _ _ _ _ E).
  - destruct Hst as [Hs Hp]. split; [|apply removalPass_inPlace; try done; by apply rendered_labels].
    unfold writeRemoval. destruct (stored_writeOf sts (withoutPlugin shortHash sts p dep others) []) as [-> | ->]; [done|].
    by rewrite withoutPlugin_selector.
  - exact Hst.
Qed.

Lemma settled_steps ws : forall sts, Forall (laterWrite desired) ws -> settled sts ->
  settled (foldl (templateStep hash order shortHash initContainerFor authVolumeFor caVolume derivative) sts ws).
Proof.
  induction ws as [|w ws IH]; intros sts Hws Hst; [done|]. apply Forall_cons in Hws as [Hw Hws]. cbn [foldl]. apply IH; [done|]. by apply settled_step.
Qed.

Lemma write_settles cluster plugins sts sts1 :
  distinctNames desired -> distinctNames (ts_Template sts) -> (di_Fleet cluster = true -> carriesFleet desired) ->
  ts_Selector sts = Some selector ->
  isTemplateChangeSignificant hash (ts_Template sts) (withSelectorLabels selector desired) sts = true ->
  updateTemplate hash shortHash cluster plugins desired sts = Some sts1 -> settled sts1.
Proof.
  intros Hd Hl Hf Hs Hc Hw. apply (updateTemplate_writes _ _ _ _ _ _ _ _ Hs Hc) in Hw. cbv zeta in Hw.
  pose proof (rendered_labels selector _ Hr) as Hru.
  pose proof (applied_inPlace hash shortHash cluster plugins sts _ Hru) as Hp.
  destruct (applied_shape hash shortHash cluster plugins sts _ Hru) as (_ & _ & _ & _ & _ & _ & _ & _ & _ & Hsel & _).
  pose proof (applyUpdated_distinct hash shortHash cluster plugins sts _ Hl (withSelectorLabels_distinct selector _ Hd)) as Hda.
  set (applied := applyUpdated _ _ _ _ _ _) in *. destruct (di_Fleet cluster).
  - split; [rewrite (addFleet_selector _ _ Hw); by rewrite Hsel|]. by apply (fleet_inPlace hash _ Hru applied Hp); [apply Hf|..].
  - apply (inj Some) in Hw as <-. split; [by rewrite Hsel|done].
Qed.
End Later.

(** C37: once the cluster's pass has written its template, no later write of a
    plugin, no removal of one and no change of the servers' number, in any order
    and number, makes a pass of the cluster with the same template write again:
    it leaves the StatefulSet exactly as it finds it. *)
Theorem no_tug_of_war (hash : PodTemplate -> string) (order : gmap string string -> list (string * string)) (shortHash : string -> string)
    (initContainerFor : Neo4jPlugin -> Container) (authVolumeFor : Neo4jPlugin -> option Volume) (caVolume : option Volume)
    (derivative : Container -> Container -> bool) (cluster cluster' : DeploymentInfo) (plugins plugins' : option (list Neo4jPlugin))
    (desired : PodTemplate) (selector : gmap string string) (sts sts1 : ServerSet) (ws : list templateWrite) :
  (forall p, ct_Name (initContainerFor p) = PluginInitContainerName (np_SpecName p)) ->
  (forall p v, authVolumeFor p = Some v -> vol_Name v = authVolumeName (np_SpecName p)) ->
  (forall v, caVolume = Some v -> vol_Name v = PluginCAVolumeName) ->
  rendered desired -> distinctNames desired -> distinctNames (ts_Template sts) ->
  (di_Fleet cluster = true -> carriesFleet desired) ->
  ts_Selector sts = Some selector ->
  isTemplateChangeSignificant hash (ts_Template sts) (withSelectorLabels selector desired) sts = true ->
  updateTemplate hash shortHash cluster plugins desired sts = Some sts1 ->
  Forall (laterWrite desired) ws ->
  let sts2 := foldl (templateStep hash order shortHash initContainerFor authVolumeFor caVolume derivative) sts1 ws in
  updateTemplate hash shortHash cluster' plugins' desired sts2 = Some sts2.
Proof.
  intros Hi Ha Hca Hr Hd Hl Hf Hs Hc Hw Hws. cbv zeta. apply (settled_pass _ _ _ selector Hr). apply settled_steps; try done.
  by apply (write_settles hash shortHash desired selector Hr cluster plugins sts).
Qed.

Module SharedTemplateSample.
Import TemplateSample.

(** The cluster's write after the two plugins'. *)
Definition live : ServerSet := foldl step fresh [PluginPass apoc cluster [gds]; PluginPass gds cluster [apoc]].
Definition written : ServerSet := step live (ClusterPass cluster (Some [apoc; gds]) upgraded).

Lemma template_rendered image : rendered (template image).
Proof.
  split.
  - by exists (neo4j image renderedEnv), [sidecar].
  - apply (bool_decide_unpack _). vm_compute. reflexivity.
  - apply (bool_decide_unpack _). vm_compute. reflexivity.
  - apply (bool_decide_unpack _). vm_compute. reflexivity.
  - apply (bool_decide_unpack _). vm_compute. reflexivity.
  - intros n ->%list_elem_of_singleton. reflexivity.
  - intros n ->%list_elem_of_singleton. split; [done|reflexivity].
Qed.

Lemma template_write_exact_witness :
  envAt "NEO4J_PLUGINS" (firstEnv (ts_Template written)) = envAt "NEO4J_PLUGINS" (firstEnv (ts_Template live)) /\
  envAt "NEO4J_EDITION" (firstEnv (ts_Template written)) = [mkEnvVar "NEO4J_EDITION" "enterprise" None].
Proof.
  destruct (template_write_exact hash shortHash cluster (Some [apoc; gds]) upgraded live written selector) as (H & _).
  - vm_compute. reflexivity.
  - apply template_rendered.
  - vm_compute. reflexivity.
  - vm_compute. reflexivity.
  - destruct (H "NEO4J_PLUGINS") as (_ & Hothers & _); [right; reflexivity|]. destruct (H "NEO4J_EDITION") as (Hown & _); [right; reflexivity|].
    split; [apply Hothers; apply (bool_decide_unpack _); vm_compute; reflexivity|]. apply Hown; [apply list_elem_of_here|reflexivity].
Defined.

Lemma live_distinct : distinctNames (ts_Template live).
Proof. split; apply (bool_decide_unpack _); vm_compute; reflexivity. Qed.

Lemma no_tug_of_war_witness :
  let sts2 := foldl step written [RemovalPass apoc cluster [gds]; PluginPass gds cluster []; ServersBecome 5 5] in
  updateTemplate hash shortHash cluster (Some [gds]) upgraded sts2 = Some sts2.
Proof.
  apply (no_tug_of_war hash order shortHash initContainerFor authVolumeFor caVolume derivative cluster cluster (Some [apoc; gds]) (Some [gds])
    upgraded selector live written).
  - intros p. reflexivity.
  - intros p v Hv. injection Hv as <-. reflexivity.
  - intros v Hv. injection Hv as <-. reflexivity.
  - apply template_rendered.
  - apply template_distinct.
  - apply live_distinct.
  - intros Hf. discriminate Hf.
  - vm_compute. reflexivity.
  - vm_compute. reflexivity.
  - vm_compute. reflexivity.
  - repeat (apply Forall_cons; split); [reflexivity|reflexivity|exact I|apply Forall_nil_2].
Defined.
End SharedTemplateSample.
