(* ===== verification/PluginChoice.v ===== *)
(** Several Neo4jPlugins may name the same plugin of the same target: of those
    enabled exactly one installs it, whichever of them is looked at and in
    whatever order they are listed (checkForDuplicatePlugin and the guard of
    Reconcile, plugin_controller.go). *)
From S2P Require Import Prelude GoStrings OwnedKeys PluginSettings.

Open Scope Z_scope.

(** * The order of the candidates *)

(** [a] has the plugin before [b], in the words of the code's comment: enabled
    before disabled, then the older, then the lower UID. *)
Definition before (a b : Neo4jPlugin) : Prop :=
  (np_Enabled a = true /\ np_Enabled b = false) \/
  (np_Enabled a = np_Enabled b /\
   (np_CreationTimestamp a < np_CreationTimestamp b \/
    (np_CreationTimestamp a = np_CreationTimestamp b /\ sort.leb (np_UID a) (np_UID b) = true /\ np_UID a <> np_UID b))).

Lemma winsTuple_before a b : winsTuple a b = true <-> before a b.
Proof.
  unfold winsTuple, before. destruct (Bool.eqb (np_Enabled a) (np_Enabled b)) eqn:E; simpl.
  - apply Bool.eqb_prop in E. destruct (Z.eqb_spec (np_CreationTimestamp a) (np_CreationTimestamp b)) as [Et|Et]; simpl.
    + rewrite andb_true_iff, negb_true_iff, String.eqb_neq. split; [intros [? ?]; right; split; [done|right; done]|].
      intros [[? ?]|[_ [?|(_ & ? & ?)]]]; [congruence|lia|done].
    + rewrite Z.ltb_lt. split; [intros ?; right; tauto|]. intros [[? ?]|[_ [?|(? & _)]]]; [congruence|lia|done].
  - apply Bool.eqb_false_iff in E. split; [intros Ha; left; split; [done|by destruct (np_Enabled b); [rewrite Ha in E|]]|]. intros [[-> _]|[? _]]; done.
Qed.

Lemma before_irrefl a : ~ before a a.
Proof. intros [[-> H]|[_ [?|(_ & _ & H)]]]; [done|lia|done]. Qed.

Lemma before_trans a b c : before a b -> before b c -> before a c.
Proof.
  unfold before. intros [[A1 B1]|[E1 H1]] [[A2 B2]|[E2 H2]].
  - congruence.
  - left. split; congruence.
  - left. split; congruence.
  - right. split; [congruence|]. destruct H1 as [H1|(T1 & L1 & N1)], H2 as [H2|(T2 & L2 & N2)]; try (left; lia).
    right. split_and!; [lia|by apply (le_trans _ (np_UID b))|]. intros E. apply N1. rewrite <- E in L2. by apply (anti_symm sort.le).
Qed.

Lemma before_total a b : np_UID a <> np_UID b -> before a b \/ before b a.
Proof.
  intros Hu. unfold before. destruct (np_Enabled a) eqn:Ea, (np_Enabled b) eqn:Eb; try tauto;
    destruct (Z.lt_trichotomy (np_CreationTimestamp a) (np_CreationTimestamp b)) as [H|[H|H]]; try tauto;
    destruct (total sort.le (np_UID a) (np_UID b)) as [L|L]; unfold sort.le in L; assert (np_UID b <> np_UID a) by congruence; auto 10 with lia.
Qed.

(** * The winner *)

Definition firstOf (start : Neo4jPlugin) (cs : list Neo4jPlugin) : Neo4jPlugin := best winsTuple start cs.

Lemma firstOf_spec cs start : let f := firstOf start cs in
  f ∈ start :: cs /\ (f = start \/ before f start) /\ forall c, c ∈ cs -> ~ before c f.
Proof.
  destruct (best_spec winsTuple) with (candidates := cs) (start := start) as (H1 & H2 & H3).
  - intros a. apply not_true_is_false. rewrite winsTuple_before. apply before_irrefl.
  - intros a b c. rewrite !winsTuple_before. apply before_trans.
  - cbv zeta. unfold firstOf. split_and!; [done|by rewrite <- winsTuple_before|]. intros c Hc Hb%winsTuple_before. rewrite (H3 c) in Hb; [done|by right].
Qed.

(** * The one that installs *)

(** The resources that ask for plugin [name] on target [ref]. *)
Definition asks (ref name : string) (p : Neo4jPlugin) : Prop :=
  np_ClusterRef p = ref /\ np_SpecName p = name /\ np_Deleting p = false /\ np_Enabled p = true.

Section Items.
Context (items : list Neo4jPlugin).
Context (Hnames : NoDup (np_Name <$> items)) (Huids : NoDup (np_UID <$> items)) (Hnonempty : forall p, p ∈ items -> np_Name p <> EmptyString).

Lemma sameTuple_elem p c : c ∈ sameTuplePlugins items p <->
  c ∈ items /\ np_Name c <> np_Name p /\ np_ClusterRef c = np_ClusterRef p /\ np_SpecName c = np_SpecName p /\ np_Deleting c = false.
Proof.
  unfold sameTuplePlugins. rewrite list_elem_of_In, filter_In, <- list_elem_of_In, !andb_true_iff, !negb_true_iff, !String.eqb_eq, String.eqb_neq. tauto.
Qed.

(** Held back exactly when another of its tuple comes before. *)
Lemma heldBack_spec p : p ∈ items -> np_Enabled p = true ->
  heldBack items p = false <-> forall c, c ∈ sameTuplePlugins items p -> before p c.
Proof.
  intros Hp He. unfold heldBack, checkForDuplicatePlugin. rewrite He. destruct (sameTuplePlugins items p) as [|c0 cs0] eqn:Ecs.
  { simpl. split; [intros _ c ?%elem_of_nil; done|done]. }
  rewrite <- Ecs. change (fold_left _ (sameTuplePlugins items p) p) with (firstOf p (sameTuplePlugins items p)).
  destruct (firstOf_spec (sameTuplePlugins items p) p) as (F1 & F2 & F3). set (f := firstOf p _) in *.
  assert (f ∈ items) as Hf by (apply elem_of_cons in F1 as [F1|F1]; [by rewrite F1|by apply sameTuple_elem in F1 as [? _]]).
  rewrite andb_true_l, andb_false_iff, !negb_false_iff, !String.eqb_eq. split.
  - intros [E|E]; [by apply Hnonempty in Hf|]. apply (NoDup_fmap_inj np_Name items) in E; [|done..]. intros c Hc.
    assert (np_UID p <> np_UID c) as Hu.
    { intros Eu. pose proof (proj1 (sameTuple_elem _ _) Hc) as (Hci & Hcn & _). apply Hcn. by rewrite (NoDup_fmap_inj np_UID items p c). }
    destruct (before_total p c Hu) as [?|Hb]; [done|]. exfalso. apply (F3 c Hc). by rewrite E.
  - intros H. right. apply elem_of_cons in F1 as [F1|F1]; [by rewrite F1|]. destruct F2 as [F2|F2]; [by rewrite F2|]. exfalso.
    apply (before_irrefl p), (before_trans _ f); [by apply H|done].
Qed.
End Items.

(** of the enabled Neo4jPlugins that name one plugin of one target, exactly
    one is not held back, so two never write the same entries in turn; it is the
    one that comes before all the others. *)
Theorem one_installer (items : list Neo4jPlugin) (ref name : string) (some : Neo4jPlugin) :
  NoDup (np_Name <$> items) -> NoDup (np_UID <$> items) -> (forall p, p ∈ items -> np_Name p <> EmptyString) ->
  some ∈ items -> asks ref name some ->
  exists p, (p ∈ items /\ asks ref name p /\ heldBack items p = false) /\
    (forall q, q ∈ items -> asks ref name q -> heldBack items q = false -> q = p) /\
    (forall q, q ∈ items -> asks ref name q -> q = p \/ before p q).
Proof.
  intros Hn Hu He Hin Hasks.
  destruct (firstOf_spec (sameTuplePlugins items some) some) as (F1 & F2 & F3). set (p := firstOf some _) in *.
  assert (p ∈ items /\ asks ref name p) as [Hp Hpa].
  { apply elem_of_cons in F1 as [F1|F1]; [by rewrite F1|]. apply sameTuple_elem in F1 as (Hp & _ & E1 & E2 & E3). split; [done|].
    destruct Hasks as (<- & <- & _ & Hen). split_and!; try done. destruct F2 as [F2|[[? _]|[F2 _]]]; congruence. }
  assert (forall q, q ∈ items -> np_ClusterRef q = ref -> np_SpecName q = name -> np_Deleting q = false -> q = p \/ before p q) as Hfirst.
  { intros q Hq E1 E2 E3. destruct (decide (np_UID p = np_UID q)) as [E|Hne]; [left; by symmetry; apply (NoDup_fmap_inj np_UID items)|].
    destruct (before_total p q Hne) as [?|Hb]; [by right|]. exfalso.
    destruct (decide (np_Name q = np_Name some)) as [E|Hns].
    - apply (NoDup_fmap_inj np_Name items) in E as ->; [|done..]. destruct F2 as [F2|F2]; [by rewrite F2 in Hne|].
      by apply (before_irrefl p), (before_trans _ some).
    - apply (F3 q); [|done]. apply sameTuple_elem. destruct Hasks as (<- & <- & _). done. }
  destruct Hpa as (P1 & P2 & P3 & P4). exists p. split_and!; try done.
  - apply heldBack_spec; try done. intros c (Hc & Hcn & E1 & E2 & E3)%sameTuple_elem.
    destruct (Hfirst c) as [->|?]; try done; congruence.
  - intros q Hq (Q1 & Q2 & Q3 & Q4) Hheld. destruct (Hfirst q Hq Q1 Q2 Q3) as [?|Hb]; [done|]. exfalso.
    apply (before_irrefl p), (before_trans _ q); [done|]. apply (proj1 (heldBack_spec items Hn Hu He q Hq Q4) Hheld).
    apply sameTuple_elem. split_and!; try done; [|congruence..]. intros E. apply (NoDup_fmap_inj np_Name items) in E as ->; [|done..].
    by apply before_irrefl in Hb.
  - intros q Hq (Q1 & Q2 & Q3 & _). by apply Hfirst.
Qed.

Module ChoiceSample.
Definition apocCR (name uid : string) (created : Z) (enabled : bool) : Neo4jPlugin :=
  mkNeo4jPlugin name uid created false false "db" "apoc" enabled "Managed" ∅ [] None.
Definition listed : list Neo4jPlugin := [apocCR "c" "u3" 7 true; apocCR "b" "u2" 5 true; apocCR "a" "u1" 1 false].

Example second_installs : (fun p => (np_Name p, heldBack listed p)) <$> listed = [("c", true); ("b", false); ("a", false)].
Proof. vm_compute. reflexivity. Qed.

Lemma one_installer_witness : exists p, (p ∈ listed /\ asks "db" "apoc" p /\ heldBack listed p = false) /\
    (forall q, q ∈ listed -> asks "db" "apoc" q -> heldBack listed q = false -> q = p) /\
    (forall q, q ∈ listed -> asks "db" "apoc" q -> q = p \/ before p q).
Proof.
  apply (one_installer listed "db" "apoc" (apocCR "c" "u3" 7 true)).
  - apply (bool_decide_unpack _). vm_compute. reflexivity.
  - apply (bool_decide_unpack _). vm_compute. reflexivity.
  - intros p Hp. apply list_elem_of_In in Hp. destruct Hp as [<-|[<-|[<-|[]]]]; discriminate.
  - apply list_elem_of_here.
  - split; [reflexivity|split; [reflexivity|split; reflexivity]].
Defined.
End ChoiceSample.
