(* ===== verification/Storage.v ===== *)
(** The expansion of a cluster's volumes (storage_expansion.go), the advisory on a
    StorageClass that cannot change (storage_class_change.go,
    validation/storage_validator.go) and the quantities a user types
    (user_quantity.go). An expansion patches the claims, then deletes the server
    StatefulSet leaving its pods, which the next pass creates again (Recreate.v).
    What the API server holds of claims is a state beside the world of the pass;
    parsing a quantity and reading a StorageClass are parameters. *)
From S2P Require Import Prelude GoStrings GoTime ClusterTypes Conditions UpgradeRules UpgradeRecord World ServerIdentity Availability UpgradeMachine TargetWait Recreate.

Open Scope Z_scope.

(** * Claims *)

(** What is read of a PersistentVolumeClaim: its name, its labels, its
    StorageClass and the storage it requests. *)
Record PVC := mkPVC {
  pvc_Name : string;
  pvc_Labels : gmap string string;
  pvc_StorageClassName : option string;
  pvc_Storage : Z
}.

Definition set_pvc_Storage (v : Z) (p : PVC) : PVC :=
  mkPVC (pvc_Name p) (pvc_Labels p) (pvc_StorageClassName p) v.

Definition volumeNameToRole (volumeName : string) : string :=
  if String.eqb volumeName "backup-storage" then "backup" else "server".

Definition claimOf (stsName volumeName : string) (pvc : PVC) : bool :=
  match strings.CutPrefix (pvc_Name pvc) (volumeName +:+ "-" +:+ stsName +:+ "-") with
  | None => false
  | Some suffix => match strconv.Atoi suffix with Some _ => true | None => false end
  end.

Definition labelledFor (clusterName volumeName : string) (pvc : PVC) : bool :=
  bool_decide (pvc_Labels pvc !! "neo4j.com/cluster" = Some clusterName)
  && bool_decide (pvc_Labels pvc !! "neo4j.com/role" = Some (volumeNameToRole volumeName)).

Inductive pvcSizeState := pvcSizeMatch | pvcSizeExpand | pvcSizeShrink.

(** The first claim of another size decides. *)
Fixpoint compareSizes (pvcs : list PVC) (desiredSize : Z) : pvcSizeState :=
  match pvcs with
  | [] => pvcSizeMatch
  | pvc :: rest =>
      if desiredSize <? pvc_Storage pvc then pvcSizeShrink
      else if pvc_Storage pvc <? desiredSize then pvcSizeExpand
      else compareSizes rest desiredSize
  end.

Record storageExpansionResult := mkStorageExpansionResult {
  se_needed : bool;
  se_dataExpansion : bool;
  se_shrinkDetected : bool;
  se_shrinkMessage : string
}.

Definition storageExpansionFailedPrefix : string := "Storage expansion failed: ".

Definition storageExpansionRetry (cluster : Cluster) : bool :=
  String.eqb (cs_Phase (cl_Status cluster)) "Failed"
  && (cs_ObservedGeneration (cl_Status cluster) =? cl_Generation cluster)
  && strings.HasPrefix (cs_Message (cl_Status cluster)) storageExpansionFailedPrefix.

(** * The advisory on the StorageClass *)

Definition dataVolumeClasses (pvcs : list PVC) : gmap string string :=
  fold_left (fun classes pvc => <[pvc_Name pvc := default EmptyString (pvc_StorageClassName pvc)]> classes) pvcs ∅.

(** The volumes of one class, and what is said of them. *)
Definition volumesOf (volumeClasses : gmap string string) (class : string) : list string :=
  sort.Strings (fst <$> List.filter (fun vc => String.eqb vc.2 class) (map_to_list volumeClasses)).

Definition otherClasses (className : string) (volumeClasses : gmap string string) : list string :=
  sort.Strings (elements (list_to_set (List.filter (fun c => negb (String.eqb c className)) (snd <$> map_to_list volumeClasses)) : gset string)).

Definition classPart (volumeClasses : gmap string string) (class : string) : string :=
  let volumes := volumesOf volumeClasses class in
  strings.Join volumes ", " +:+ " " +:+ (if (length volumes =? 1)%nat then "uses" else "use") +:+ " "
  +:+ (if String.eqb class EmptyString then "no StorageClass" else "StorageClass " +:+ quoted class).

Definition StorageClassChangeWarning (className : string) (volumeClasses : gmap string string) : string :=
  if String.eqb className EmptyString then EmptyString
  else
    match otherClasses className volumeClasses with
    | [] => EmptyString
    | classes =>
        "spec.storage.className " +:+ quoted className +:+ " has no effect on the data volumes that already exist ("
        +:+ strings.Join (classPart volumeClasses <$> classes) "; "
        +:+ "): a volume keeps the StorageClass it was created with, and so does the StatefulSet's volume claim template. To move the data to "
        +:+ quoted className
        +:+ ", back it up and restore it into a deployment created with that class; otherwise set spec.storage.className to the class the volumes use"
    end.

(** * The state of a pass *)

(** The outcome of one read-modify-write of a claim. *)
Inductive pvcAttempt :=
| PvcSucceeds
| PvcGetFails (msg : string)
| PvcUpdateFails (msg : string)
| PvcConflicts.

Inductive storageAction :=
| WrotePVC (name : string) (size : Z)
| DeletedSet (sts : StatefulSet).

(** [sg_pvcs] are the stored claims and [sg_lists] what the coming reads of the
    cache list (the whole namespace; none left: nothing), [sg_attempts] and
    [sg_deletes] the outcomes of the coming writes of claims and deletions of
    StatefulSets, [sg_gone] whether the deleted StatefulSet is gone within the
    wait, [sg_memory] deletedServerStatefulSets, [sg_warned] the advisories
    announced for the StorageClass, and [sg_log] what was done, last first. *)
Record Storage := mkStorage {
  sg_pvcs : gmap string PVC;
  sg_lists : list (result (list PVC));
  sg_attempts : list pvcAttempt;
  sg_deletes : list (option string);
  sg_gone : bool;
  sg_memory : deletedStatefulSets;
  sg_warned : gmap string Z;
  sg_log : list storageAction
}.

Definition SW (S A : Type) : Type := World S * Storage -> A * (World S * Storage).
#[global] Instance SW_ret S : MRet (SW S) := fun A a s => (a, s).
#[global] Instance SW_bind S : MBind (SW S) := fun A B f m s => let '(a, s') := m s in f a s'.

Section Expansion.
Context {S : Type}.

(** spec.storage.size and spec.storage.className; the UIDs that own the server
    StatefulSet; resource.ParseQuantity; and the StorageClass of a name with its
    allowVolumeExpansion. *)
Variables (size className : string) (owners : list string).
Variable ParseQuantity : string -> option Z.
Variable storageClass : string -> getResult (option bool).

Definition liftW {A} (m : W S A) : SW S A := fun s => let '(a, w') := m s.1 in (a, (w', s.2)).
Definition getStorage {A} (f : Storage -> A) : SW S A := fun s => (f s.2, s).
Definition setStorage (f : Storage -> Storage) : SW S unit := fun s => (tt, (s.1, f s.2)).

Definition nextList : SW S (result (list PVC)) := fun s =>
  let g := s.2 in
  match sg_lists g with
  | [] => (Ok [], s)
  | l :: rest => (l, (s.1, mkStorage (sg_pvcs g) rest (sg_attempts g) (sg_deletes g) (sg_gone g) (sg_memory g) (sg_warned g) (sg_log g)))
  end.

Definition nextPvcAttempt : SW S pvcAttempt := fun s =>
  let g := s.2 in
  match sg_attempts g with
  | [] => (PvcSucceeds, s)
  | a :: rest => (a, (s.1, mkStorage (sg_pvcs g) (sg_lists g) rest (sg_deletes g) (sg_gone g) (sg_memory g) (sg_warned g) (sg_log g)))
  end.

Definition storePVC (name : string) (desiredSize : Z) : SW S unit := setStorage (fun g =>
  mkStorage (alter (set_pvc_Storage desiredSize) name (sg_pvcs g)) (sg_lists g) (sg_attempts g) (sg_deletes g) (sg_gone g)
    (sg_memory g) (sg_warned g) (WrotePVC name desiredSize :: sg_log g)).

Definition setMemory (f : deletedStatefulSets -> deletedStatefulSets) : SW S unit := setStorage (fun g =>
  mkStorage (sg_pvcs g) (sg_lists g) (sg_attempts g) (sg_deletes g) (sg_gone g) (f (sg_memory g)) (sg_warned g) (sg_log g)).

Definition setWarned (v : gmap string Z) : SW S unit := setStorage (fun g =>
  mkStorage (sg_pvcs g) (sg_lists g) (sg_attempts g) (sg_deletes g) (sg_gone g) (sg_memory g) v (sg_log g)).

(** Deleting with the Orphan policy: the pods are left alone. *)
Definition deleteSet (sts : StatefulSet) : SW S (option string) := fun s =>
  let g := s.2 in
  let '(e, rest) := match sg_deletes g with [] => (None, []) | e :: rest => (e, rest) end in
  let log := match e with None => DeletedSet sts :: sg_log g | Some _ => sg_log g end in
  (e, (s.1, mkStorage (sg_pvcs g) (sg_lists g) (sg_attempts g) rest (sg_gone g) (sg_memory g) (sg_warned g) log)).

(** * The operations *)

Definition parseUserQuantity (path value : string) : result Z :=
  match ParseQuantity value with
  | None => Err (path +:+ " " +:+ quoted value +:+ " is not a valid Kubernetes quantity (e.g. " +:+ quoted "50Gi" +:+ ")")
  | Some q => if q <=? 0 then Err (path +:+ " " +:+ quoted value +:+ " must be greater than zero") else Ok q
  end.

Definition findPVCsForStatefulSet (clusterName stsName volumeName : string) : SW S (result (list PVC)) :=
  l ← nextList;
  match l with
  | Err e => mret (Err ("failed to list PVCs by label: " +:+ e))
  | Ok items =>
      match List.filter (claimOf stsName volumeName) (List.filter (labelledFor clusterName volumeName) items) with
      | (_ :: _) as matched => mret (Ok matched)
      | [] =>
          l ← nextList;
          match l with
          | Err e => mret (Err ("failed to list all PVCs in namespace: " +:+ e))
          | Ok items => mret (Ok (List.filter (claimOf stsName volumeName) items))
          end
      end
  end.

Definition serverSetName (cluster : Cluster) : string := cl_Name cluster +:+ "-server".

Definition comparePVCSizes (clusterName stsName volumeName : string) (desiredSize : Z) : SW S (result pvcSizeState) :=
  pvcs ← findPVCsForStatefulSet clusterName stsName volumeName;
  match pvcs with
  | Err e => mret (Err e)
  | Ok pvcs => mret (Ok (compareSizes pvcs desiredSize))
  end.

Definition checkStorageExpansionNeeded (cluster : Cluster) : SW S (result storageExpansionResult) :=
  match parseUserQuantity "spec.storage.size" size with
  | Err e => mret (Err e)
  | Ok desired =>
      state ← comparePVCSizes (cl_Name cluster) (serverSetName cluster) "data" desired;
      match state with
      | Err e => mret (Err e)
      | Ok pvcSizeShrink =>
          mret (Ok (mkStorageExpansionResult false false true
            ("spec.storage.size (" +:+ size +:+ ") is smaller than existing data PVCs; PVC shrink is not supported by Kubernetes")))
      | Ok pvcSizeExpand => mret (Ok (mkStorageExpansionResult true true false EmptyString))
      | Ok pvcSizeMatch => mret (Ok (mkStorageExpansionResult false false false EmptyString))
      end
  end.

Definition validateStorageClassExpandable (pvc : PVC) : option string :=
  match pvc_StorageClassName pvc with
  | None | Some EmptyString =>
      Some ("PVC " +:+ pvc_Name pvc +:+ " has no StorageClass set; cannot determine if expansion is supported")
  | Some class =>
      match storageClass class with
      | NotFound => Some ("StorageClass " +:+ quoted class +:+ " not found; cannot validate volume expansion support")
      | GetFailed e => Some ("failed to get StorageClass " +:+ quoted class +:+ ": " +:+ e)
      | Found (Some true) => None
      | Found _ =>
          Some ("StorageClass " +:+ quoted class +:+ " does not allow volume expansion (allowVolumeExpansion is not true); update the StorageClass or use a different one")
      end
  end.

Fixpoint patchSteps (steps : nat) (name : string) (desiredSize : Z) : SW S (option string) :=
  match steps with
  | O => mret (Some "conflict")
  | Datatypes.S steps' =>
      a ← nextPvcAttempt;
      match a with
      | PvcGetFails e => mret (Some e)
      | PvcUpdateFails e => mret (Some e)
      | PvcConflicts => patchSteps steps' name desiredSize
      | PvcSucceeds =>
          stored ← getStorage (fun g => sg_pvcs g !! name);
          match stored with
          | None => mret (Some "not found")
          | Some _ => storePVC name desiredSize ;; mret None
          end
      end
  end.

Definition patchPVCSize (pvc : PVC) (desiredSize : Z) : SW S (option string) :=
  patchSteps DefaultRetry (pvc_Name pvc) desiredSize.

(** The loop over the claims that are too small. *)
Fixpoint patchPVCs (pvcs : list PVC) (desiredSize : Z) : SW S (option string) :=
  match pvcs with
  | [] => mret None
  | pvc :: rest =>
      if desiredSize <=? pvc_Storage pvc then patchPVCs rest desiredSize
      else
        e ← patchPVCSize pvc desiredSize;
        match e with
        | Some e => mret (Some ("failed to patch PVC " +:+ pvc_Name pvc +:+ ": " +:+ e))
        | None => patchPVCs rest desiredSize
        end
  end.

Definition orphanDeleteStatefulSet (namespace name : string) : SW S (option string) :=
  sts ← liftW (gets w_stsCached);
  match sts with
  | NotFound => mret None
  | GetFailed e => mret (Some e)
  | Found sts =>
      setMemory (rememberStatefulSet namespace (mkDeletedStatefulSet sts owners)) ;;
      deleteSet sts
  end.

Definition expandVolumes (cluster : Cluster) (stsName volumeName : string) (desiredSize : Z) : SW S (option string) :=
  pvcs ← findPVCsForStatefulSet (cl_Name cluster) stsName volumeName;
  match pvcs with
  | Err e => mret (Some ("failed to find PVCs for " +:+ stsName +:+ "/" +:+ volumeName +:+ ": " +:+ e))
  | Ok [] => mret None
  | Ok ((first :: _) as pvcs) =>
      match validateStorageClassExpandable first with
      | Some e => mret (Some e)
      | None =>
          e ← patchPVCs pvcs desiredSize;
          match e with
          | Some e => mret (Some e)
          | None =>
              e ← orphanDeleteStatefulSet (cl_Namespace cluster) stsName;
              match e with
              | Some e => mret (Some ("failed to orphan-delete StatefulSet " +:+ stsName +:+ ": " +:+ e))
              | None => mret None
              end
          end
      end
  end.

Definition announceWarnings (warnings : list string) : SW S unit :=
  now ← liftW now_;
  previous ← getStorage sg_warned;
  let '(current, announced) := recordScoped now previous warnings in
  setWarned current ;;
  liftW (modify (fun w => set_w_events (((fun m => ("ValidationWarning", m)) <$> rev announced) ++ w_events w) w)).

Definition recordStorageClassChange (cluster : Cluster) : SW S unit :=
  pvcs ← findPVCsForStatefulSet (cl_Name cluster) (serverSetName cluster) "data";
  match pvcs with
  | Err _ => mret tt
  | Ok pvcs =>
      let w := StorageClassChangeWarning className (dataVolumeClasses pvcs) in
      announceWarnings (if String.eqb w EmptyString then [] else [w])
  end.

(** Whether the StatefulSet is gone within the wait; then reads no longer find
    it. *)
Definition waitStatefulSetGone : SW S bool :=
  gone ← getStorage sg_gone;
  if (gone : bool) then
    liftW (modify (fun w => set_w_sts NotFound (set_w_stsCached NotFound w))) ;; mret true
  else mret false.

(** Whether to requeue, or the error. *)
Definition reconcileStorageExpansion : SW S (result bool) :=
  cluster ← liftW cluster_;
  recordStorageClassChange cluster ;;
  r ← checkStorageExpansionNeeded cluster;
  match r with
  | Err e => mret (Err e)
  | Ok result =>
      if se_shrinkDetected result then
        changed ← liftW (updateClusterStatus "Failed" ("Storage shrink not supported: " +:+ se_shrinkMessage result));
        (if (changed : bool) then
           liftW (event "StorageExpansionFailed" ("Storage shrink rejected: " +:+ se_shrinkMessage result))
         else mret tt) ;;
        mret (Err ("storage shrink not supported: " +:+ se_shrinkMessage result))
      else if negb (se_needed result) then mret (Ok false)
      else
        (if storageExpansionRetry cluster then mret tt
         else
           liftW (updateClusterStatus "Expanding" "Expanding storage volumes") ;;
           liftW (event "StorageExpansionStarted" "Storage expansion started")) ;;
        e ← (if se_dataExpansion result then
               match parseUserQuantity "spec.storage.size" size with
               | Err e => liftW (updateClusterStatus "Failed" (storageExpansionFailedPrefix +:+ e)) ;; mret (Some e)
               | Ok desiredSize =>
                   e ← expandVolumes cluster (serverSetName cluster) "data" desiredSize;
                   match e with
                   | None => mret None
                   | Some e =>
                       changed ← liftW (updateClusterStatus "Failed" (storageExpansionFailedPrefix +:+ e));
                       (if (changed : bool) then
                          liftW (event "StorageExpansionFailed" ("Failed to expand data storage: " +:+ e))
                        else mret tt) ;;
                       mret (Some e)
                   end
               end
             else mret None);
        match e with
        | Some e => mret (Err e)
        | None =>
            liftW (event "StorageExpansionCompleted" "Storage expansion completed successfully") ;;
            kept ← getStorage (fun g => rememberedStatefulSet (sg_memory g) (cl_Namespace cluster) (serverSetName cluster) EmptyString);
            match kept with
            | None => mret (Ok true)
            | Some _ => gone ← waitStatefulSetGone; mret (Ok (negb gone))
            end
        end
  end.
End Expansion.

(** * What a pass does to claims and to the StatefulSet *)

Lemma bindS {S A B} (m : SW S A) (k : A -> SW S B) s : (m ≫= k) s = k (m s).1 (m s).2.
Proof. unfold mbind, SW_bind. by destruct (m s). Qed.

(** [m] adds to the log, and what it adds satisfies [Q]. *)
Definition adds {S A} (m : SW S A) (s : World S * Storage) (Q : list storageAction -> A -> World S * Storage -> Prop) : Prop :=
  exists new, sg_log (m s).2.2 = new ++ sg_log s.2 /\ Q new (m s).1 (m s).2.

Section Adds.
Context {S : Type}.
Implicit Types s : World S * Storage.

Lemma adds_ret {A} (a : A) s (Q : list storageAction -> A -> World S * Storage -> Prop) : Q [] a s -> adds (mret a) s Q.
Proof. intros H. by exists []. Qed.

Lemma adds_bind {A B} (m : SW S A) (k : A -> SW S B) s Q R :
  adds m s Q ->
  (forall new a s', Q new a s' -> adds (k a) s' (fun new' b s'' => R (new' ++ new) b s'')) ->
  adds (m ≫= k) s R.
Proof.
  intros (new & Hlog & HQ) Hk. destruct (Hk _ _ _ HQ) as (new' & Hlog' & HR).
  exists (new' ++ new). rewrite bindS. split; [|done]. by rewrite Hlog', Hlog, app_assoc.
Qed.

Lemma adds_conseq {A} (m : SW S A) s (Q R : list storageAction -> A -> World S * Storage -> Prop) :
  adds m s Q -> (forall new a s', Q new a s' -> R new a s') -> adds m s R.
Proof. intros (new & Hlog & HQ) H. exists new. auto. Qed.

(** After an operation that adds nothing. *)
Lemma adds_then {A B} (m : SW S A) (k : A -> SW S B) s (Q : A -> World S * Storage -> Prop) R :
  adds m s (fun new a s' => new = [] /\ Q a s') -> (forall a s', Q a s' -> adds (k a) s' R) -> adds (m ≫= k) s R.
Proof.
  intros Hm Hk. eapply adds_bind; [exact Hm|]. intros new a s' [-> HQ].
  eapply adds_conseq; [by apply Hk|]. intros new' b s''. by rewrite app_nil_r.
Qed.

(** Operations that do nothing to claims or StatefulSets. *)
Definition idle {A} (m : SW S A) : Prop :=
  forall s, sg_log (m s).2.2 = sg_log s.2 /\ sg_memory (m s).2.2 = sg_memory s.2 /\
    sg_lists (m s).2.2 `suffix_of` sg_lists s.2.

Lemma idle_ret {A} (a : A) : idle (mret a).
Proof. done. Qed.

Lemma idle_bind {A B} (m : SW S A) (k : A -> SW S B) : idle m -> (forall a, idle (k a)) -> idle (m ≫= k).
Proof.
  intros Hm Hk s. rewrite bindS. destruct (Hm s) as (H1 & H2 & H3). destruct (Hk (m s).1 (m s).2) as (K1 & K2 & K3).
  split_and!; [congruence|congruence|by etrans].
Qed.

Lemma idle_lift {A} (m : W S A) : idle (liftW m).
Proof. intros s. unfold liftW. by destruct (m s.1). Qed.

Lemma idle_get {A} (f : Storage -> A) : idle (getStorage f).
Proof. done. Qed.

Lemma idle_list : idle nextList.
Proof.
  intros [w g]. unfold nextList. simpl. destruct (sg_lists g) as [|l rest] eqn:E; simpl; (split_and!; [done|done|]).
  - rewrite E. reflexivity.
  - by exists [l].
Qed.

Lemma idle_warned v : idle (setWarned v).
Proof. done. Qed.

Lemma adds_idle {A} (m : SW S A) s : idle m ->
  adds m s (fun new _ s' => new = [] /\ sg_memory s'.2 = sg_memory s.2 /\ sg_lists s'.2 `suffix_of` sg_lists s.2).
Proof. intros H. exists []. split; [apply H|]. split; [done|]. apply H. Qed.
End Adds.

Create HintDb idle discriminated.
#[export] Hint Resolve idle_ret idle_lift idle_get idle_list idle_warned : idle.
Ltac idle :=
  repeat match goal with
  | |- idle (_ ≫= _) => apply idle_bind; [|intros ?]
  | |- idle (match ?x with _ => _ end) => destruct x
  | |- idle _ => solve [eauto with idle]
  end.

Section Safety.
Context {S : Type} (size className : string) (owners : list string) (ParseQuantity : string -> option Z)
  (storageClass : string -> getResult (option bool)).
Implicit Types s : World S * Storage.

Lemma idle_find clusterName stsName volumeName : idle (S := S) (findPVCsForStatefulSet clusterName stsName volumeName).
Proof. unfold findPVCsForStatefulSet. idle. Qed.
#[local] Hint Resolve idle_find : idle.

Lemma idle_classChange cluster : idle (S := S) (recordStorageClassChange className cluster).
Proof. unfold recordStorageClassChange, announceWarnings. idle. Qed.

Lemma idle_check cluster : idle (S := S) (checkStorageExpansionNeeded size ParseQuantity cluster).
Proof. unfold checkStorageExpansionNeeded, comparePVCSizes. idle. Qed.

Lemma idle_wait : idle (S := S) waitStatefulSetGone.
Proof. unfold waitStatefulSetGone. idle. Qed.

(** What a listing of the claims shows: the labelled claims of the StatefulSet,
    or all that are named as its claims. *)
Definition claimsIn (cluster : Cluster) (lists : list (result (list PVC))) (pvcs : list PVC) : Prop :=
  exists items, Ok items ∈ lists /\
    (pvcs = List.filter (claimOf (serverSetName cluster) "data") (List.filter (labelledFor (cl_Name cluster) "data") items) \/
     pvcs = List.filter (claimOf (serverSetName cluster) "data") items).

Lemma nextList_spec s l s' : nextList s = (l, s') ->
  (l = Ok [] /\ s' = s) \/ sg_lists s.2 = l :: sg_lists s'.2.
Proof.
  destruct s as [w g]. unfold nextList. simpl. destruct (sg_lists g) as [|l' rest] eqn:E; intros [= <- <-]; [by left|by right].
Qed.

Lemma find_claims cluster s pvcs : (findPVCsForStatefulSet (cl_Name cluster) (serverSetName cluster) "data" s).1 = Ok pvcs ->
  pvcs <> [] -> claimsIn cluster (sg_lists s.2) pvcs.
Proof.
  unfold findPVCsForStatefulSet. rewrite bindS. destruct (nextList s) as [l s1] eqn:E1. simpl.
  apply nextList_spec in E1. destruct l as [items|]; [|done].
  destruct (List.filter (claimOf _ _) (List.filter _ items)) as [|m ms] eqn:Em.
  - rewrite bindS. destruct (nextList s1) as [l2 s2] eqn:E2. simpl. apply nextList_spec in E2.
    destruct l2 as [items2|]; [|done]. simpl. intros [= <-] Hne. exists items2. split; [|by right].
    destruct E2 as [[[= ->] _]|E2]; [by destruct Hne|]. destruct E1 as [[_ ->]|E1]; [rewrite E2; constructor|].
    rewrite E1, E2. do 2 constructor.
  - simpl. intros [= <-] Hne. exists items. split; [|left; symmetry; exact Em].
    destruct E1 as [[[= ->] _]|E1]; [done|]. rewrite E1. constructor.
Qed.

Lemma claimsIn_claim cluster lists pvcs pvc : claimsIn cluster lists pvcs -> pvc ∈ pvcs ->
  claimOf (serverSetName cluster) "data" pvc = true.
Proof.
  intros (items & _ & [-> | ->]) H; apply list_elem_of_In, filter_In in H; by destruct H.
Qed.

Lemma claimsIn_suffix cluster l l' pvcs : l `suffix_of` l' -> claimsIn cluster l pvcs -> claimsIn cluster l' pvcs.
Proof.
  intros [k ->] (items & Hin & H). exists items. split; [apply elem_of_app; by right|done].
Qed.

(** ** The claims *)

Lemma patch_adds steps name q : forall s,
  adds (S := S) (patchSteps steps name q) s (fun new e s' =>
    sg_memory s'.2 = sg_memory s.2 /\ sg_lists s'.2 = sg_lists s.2 /\ s'.1 = s.1 /\
    new = match e with None => [WrotePVC name q] | Some _ => [] end).
Proof.
  induction steps as [|steps IH]; intros [w g]; simpl; [by apply adds_ret|].
  eapply adds_then with (Q := fun _ s' => sg_memory s'.2 = sg_memory g /\ sg_lists s'.2 = sg_lists g /\ s'.1 = w).
  { exists []. unfold nextPvcAttempt. simpl. by destruct (sg_attempts g). }
  intros a s' (Hm & Hl & Hw). destruct a; try (by apply adds_ret).
  - exists (match sg_pvcs s'.2 !! name with Some _ => [WrotePVC name q] | None => [] end).
    rewrite bindS. unfold getStorage. cbn [fst snd]. destruct (sg_pvcs s'.2 !! name); [|done].
    rewrite bindS. unfold storePVC, setStorage. cbn. by split_and!.
  - eapply adds_conseq; [apply IH|]. simpl. intros new b s'' (-> & -> & -> & ->). done.
Qed.

(** Only claims that are too small are written, each to the new size; when no
    write fails, all of them are. *)
Lemma patches_add pvcs q : forall s,
  adds (S := S) (patchPVCs pvcs q) s (fun new e s' =>
    sg_memory s'.2 = sg_memory s.2 /\ sg_lists s'.2 = sg_lists s.2 /\ s'.1 = s.1 /\
    (forall a, a ∈ new -> exists pvc, pvc ∈ pvcs /\ pvc_Storage pvc < q /\ a = WrotePVC (pvc_Name pvc) q) /\
    (e = None -> forall pvc, pvc ∈ pvcs -> q <= pvc_Storage pvc \/ WrotePVC (pvc_Name pvc) q ∈ new)).
Proof.
  induction pvcs as [|pvc pvcs IH]; intros s; simpl.
  - apply adds_ret. split_and!; [done..| |]; [by intros a ?%not_elem_of_nil|by intros _ p ?%not_elem_of_nil].
  - destruct (Z.leb_spec q (pvc_Storage pvc)).
    + eapply adds_conseq; [apply IH|]. intros new e s' (Hm & Hl & Hw & H1 & H2). split_and!; [done..| |].
      * intros a (p & Hp & Ha)%H1. exists p. split; [by constructor|done].
      * intros He p [-> |Hp]%elem_of_cons; [by left|by apply H2].
    + eapply adds_bind; [apply patch_adds|]. intros new e s' (Hm & Hl & Hw & ->). destruct e as [e|].
      * apply adds_ret. split_and!; [done..| |done]. by intros a ?%not_elem_of_nil.
      * eapply adds_conseq; [apply IH|]. intros new' e' s'' (Hm' & Hl' & Hw' & H1 & H2).
        split_and!; [congruence..| |].
        -- intros a [(p & Hp & Ha)%H1| ->%list_elem_of_singleton]%elem_of_app; [exists p; split; [by constructor|done]|].
           exists pvc. split_and!; [constructor|lia|done].
        -- intros He p [-> |Hp]%elem_of_cons; [right; apply elem_of_app; right; by apply list_elem_of_singleton|].
           destruct (H2 He p Hp); [by left|right; apply elem_of_app; by left].
Qed.

(** ** The StatefulSet *)

Lemma orphanDelete_adds namespace name s :
  adds (S := S) (orphanDeleteStatefulSet owners namespace name) s (fun new e s' =>
    new = [] \/ exists sts, new = [DeletedSet sts] /\ e = None /\ w_stsCached s.1 = Found sts /\
      rememberedStatefulSet (sg_memory s'.2) namespace (sts_Name sts) EmptyString = Some sts).
Proof.
  unfold orphanDeleteStatefulSet. eapply adds_then with (Q := fun a s' => a = w_stsCached s.1 /\ s' = s).
  { exists []. destruct s. done. }
  intros a s' [-> ->]. destruct (w_stsCached s.1) as [sts| |e] eqn:E; try (apply adds_ret; by left).
  eapply adds_then with (Q := fun _ s' => rememberedStatefulSet (sg_memory s'.2) namespace (sts_Name sts) EmptyString = Some sts).
  { exists []. split; [done|]. split; [done|]. simpl. unfold rememberedStatefulSet, rememberStatefulSet. simpl.
    by rewrite lookup_insert_eq. }
  intros _ s' Hrem. destruct s' as [w' g']. unfold adds, deleteSet. simpl in *.
  destruct (sg_deletes g') as [|[e|] rest]; simpl.
  - exists [DeletedSet sts]. split; [done|]. right. by exists sts.
  - exists []. split; [done|]. by left.
  - exists [DeletedSet sts]. split; [done|]. right. by exists sts.
Qed.

(** ** The expansion

    What an expansion to [q] may do: write claims it has listed that are too
    small, whose StorageClass allows it, and then delete the StatefulSet, when
    every claim listed has the size and the operator remembers the StatefulSet. *)
Definition expansion (cluster : Cluster) (q : Z) (lists : list (result (list PVC))) (new : list storageAction)
    (done : Prop) (g' : Storage) : Prop :=
  new = [] \/
  exists dels writes pvcs first, new = dels ++ writes /\ claimsIn cluster lists pvcs /\ head pvcs = Some first /\
    validateStorageClassExpandable storageClass first = None /\
    (forall a, a ∈ writes -> exists pvc, pvc ∈ pvcs /\ pvc_Storage pvc < q /\ a = WrotePVC (pvc_Name pvc) q) /\
    (dels = [] \/
     exists sts, dels = [DeletedSet sts] /\ done /\
       rememberedStatefulSet (sg_memory g') (cl_Namespace cluster) (sts_Name sts) EmptyString = Some sts /\
       forall pvc, pvc ∈ pvcs -> q <= pvc_Storage pvc \/ WrotePVC (pvc_Name pvc) q ∈ writes).

Lemma expandVolumes_adds cluster q s :
  adds (S := S) (expandVolumes owners storageClass cluster (serverSetName cluster) "data" q) s
    (fun new e s' => expansion cluster q (sg_lists s.2) new (e = None) s'.2).
Proof.
  unfold expandVolumes.
  eapply adds_then with (Q := fun a s' =>
    forall pvcs, a = Ok pvcs -> pvcs <> [] -> claimsIn cluster (sg_lists s.2) pvcs).
  { destruct (adds_idle (findPVCsForStatefulSet (cl_Name cluster) (serverSetName cluster) "data") s)
      as (new & Hlog & -> & _); [apply idle_find|].
    exists []. split; [exact Hlog|]. split; [done|]. intros pvcs. apply find_claims. }
  intros [[|first rest]|e] s1 Hfound; [apply adds_ret; by left| |apply adds_ret; by left].
  specialize (Hfound (first :: rest) eq_refl ltac:(done)).
  destruct (validateStorageClassExpandable storageClass first) as [e|] eqn:Ev; [apply adds_ret; by left|].
  eapply adds_bind; [apply patches_add|]. intros writes e s2 (_ & _ & _ & Hw & Hall). destruct e as [e|].
  - apply adds_ret. right. exists [], writes, (first :: rest), first. split_and!; try done. by left.
  - eapply adds_bind; [apply orphanDelete_adds|]. intros dels e s3 Hdel.
    assert (forall e' : option string, (e = None -> e' = None) ->
      adds (mret e' : SW S _) s3 (fun new' b s'' => expansion cluster q (sg_lists s.2) ((new' ++ dels) ++ writes) (b = None) s''.2)) as Hret.
    { intros e' He. apply adds_ret. right. exists dels, writes, (first :: rest), first. split_and!; try done.
      destruct Hdel as [-> |(sts & -> & -> & _ & Hrem)]; [by left|right]. exists sts. split_and!; [done|by apply He|done|by apply Hall]. }
    destruct e as [e|]; by apply Hret.
Qed.

Lemma parse_positive q : parseUserQuantity ParseQuantity "spec.storage.size" size = Ok q -> ParseQuantity size = Some q /\ 0 < q.
Proof.
  unfold parseUserQuantity. destruct (ParseQuantity size) as [q'|]; [|done]. destruct (Z.leb_spec q' 0); [done|]. by intros [= <-].
Qed.

Lemma expansion_weaken cluster q l l' new (done done' : Prop) g g' :
  expansion cluster q l new done g -> l `suffix_of` l' -> (done -> done') -> sg_memory g' = sg_memory g ->
  expansion cluster q l' new done' g'.
Proof.
  intros [-> |(dels & writes & pvcs & first & -> & Hc & Hf & Hv & Hw & Hd)] Hl Hdone Hm; [by left|right].
  exists dels, writes, pvcs, first. split_and!; [done|by eapply claimsIn_suffix|done|done|done|].
  destruct Hd as [-> |(sts & -> & Hd & Hr & Hall)]; [by left|right]. exists sts. rewrite Hm. split_and!; auto.
Qed.

(** What a pass may do, its result being [ok] or not. *)
Definition passDoes (cluster : Cluster) (lists : list (result (list PVC))) (new : list storageAction) (ok : Prop) (g' : Storage) : Prop :=
  new = [] \/ exists q, ParseQuantity size = Some q /\ 0 < q /\ expansion cluster q lists new ok g'.

Lemma does_weaken cluster l l' new (ok ok' : Prop) g g' :
  passDoes cluster l new ok g -> l `suffix_of` l' -> (ok -> ok') -> sg_memory g' = sg_memory g -> passDoes cluster l' new ok' g'.
Proof.
  intros [-> |(q & Hq & Hpos & He)] Hl Hok Hm; [by left|right]. exists q. split_and!; [done|done|].
  by apply (expansion_weaken cluster q l l' new ok ok' g).
Qed.

Lemma does_idle {A} (m : SW S A) s cluster lists (ok : A -> Prop) : idle m ->
  adds m s (fun new a s' => passDoes cluster lists new (ok a) s'.2).
Proof. intros Hm. eapply adds_conseq; [by apply adds_idle|]. intros new a s' [-> _]. by left. Qed.

(** First something idle. *)
Lemma does_after {A B} (m : SW S A) (k : A -> SW S B) s cluster (ok : B -> Prop) : idle m ->
  (forall a s', sg_lists s'.2 `suffix_of` sg_lists s.2 ->
     adds (k a) s' (fun new b s'' => passDoes cluster (sg_lists s'.2) new (ok b) s''.2)) ->
  adds (m ≫= k) s (fun new b s'' => passDoes cluster (sg_lists s.2) new (ok b) s''.2).
Proof.
  intros Hm Hk. eapply adds_then; [apply adds_conseq with (1 := adds_idle m s Hm)|].
  - intros new a s' (-> & _ & H). split; [done|]. exact H.
  - intros a s' H. eapply adds_conseq; [by apply Hk|]. intros new b s'' Hd.
    by apply (does_weaken cluster (sg_lists s'.2) (sg_lists s.2) new (ok b) (ok b) s''.2).
Qed.

(** Then something idle that keeps the result good. *)
Lemma does_before {A B} (m : SW S A) (k : A -> SW S B) s cluster (ok : A -> Prop) (ok' : B -> Prop) :
  adds m s (fun new a s' => passDoes cluster (sg_lists s.2) new (ok a) s'.2) ->
  (forall a, idle (k a)) -> (forall a s', ok a -> ok' (k a s').1) ->
  adds (m ≫= k) s (fun new b s'' => passDoes cluster (sg_lists s.2) new (ok' b) s''.2).
Proof.
  intros Hm Hk Hok. eapply adds_bind; [exact Hm|]. intros new a s' Hd. exists []. destruct (Hk a s') as (Hlog & Hmem & _).
  split; [exact Hlog|]. simpl. eapply does_weaken; [exact Hd|done|apply Hok|exact Hmem].
Qed.

Lemma pass_adds s :
  adds (reconcileStorageExpansion size className owners ParseQuantity storageClass) s
    (fun new r s' => passDoes (w_cluster s.1) (sg_lists s.2) new (exists requeue, r = Ok requeue) s'.2).
Proof.
  unfold reconcileStorageExpansion.
  eapply adds_then with (Q := fun a s' => a = w_cluster s.1 /\ s' = s); [exists []; by destruct s|].
  intros cluster s' [-> ->]. set (cluster := w_cluster s.1).
  apply does_after; [apply idle_classChange|]. intros _ s1 _. apply does_after; [apply idle_check|]. intros r s2 _.
  destruct r as [r|e]; [|apply does_idle; idle]. destruct (se_shrinkDetected r); [apply does_idle; idle|].
  destruct (negb (se_needed r)); [apply does_idle; idle|]. apply does_after; [idle|]. intros _ s3 _.
  apply does_before with (ok := fun e => e = None).
  - destruct (se_dataExpansion r); [|apply does_idle; idle].
    destruct (parseUserQuantity ParseQuantity "spec.storage.size" size) as [q|e] eqn:Eq; [|apply does_idle; idle].
    apply parse_positive in Eq as [Hq Hpos]. apply does_before with (ok := fun e => e = None).
    + eapply adds_conseq; [apply expandVolumes_adds|]. intros new e s' He. right. by exists q.
    + intros a. idle.
    + by intros a s' ->.
  - intros a. pose proof idle_wait. idle.
  - intros a s' ->. rewrite !bindS. simpl. destruct (rememberedStatefulSet _ _ _ _); [|by eexists].
    rewrite bindS. simpl. by eexists.
Qed.
End Safety.

(** C15: a pass deletes the server StatefulSet for an expansion last, when it has
    written every data claim it listed that was too small (or found it large
    enough), the size parses to a positive quantity, the StorageClass of the first
    claim allows expansion, the operator remembers the StatefulSet, and the pass
    ends without an error; claims are only ever enlarged, to that size, and only
    those named as the StatefulSet's data claims. Otherwise it does nothing to
    either. *)
Theorem expansion_safe {S} (size className : string) (owners : list string) (ParseQuantity : string -> option Z)
    (storageClass : string -> getResult (option bool)) (w : World S) (g : Storage) :
  let '(r, (_, g')) := reconcileStorageExpansion size className owners ParseQuantity storageClass (w, g) in
  exists dels writes, sg_log g' = dels ++ writes ++ sg_log g /\
    ((dels = [] /\ writes = []) \/
     exists q pvcs first, ParseQuantity size = Some q /\ 0 < q /\
       claimsIn (w_cluster w) (sg_lists g) pvcs /\ head pvcs = Some first /\
       validateStorageClassExpandable storageClass first = None /\
       (forall a, a ∈ writes -> exists pvc, pvc ∈ pvcs /\ claimOf (serverSetName (w_cluster w)) "data" pvc = true /\
          pvc_Storage pvc < q /\ a = WrotePVC (pvc_Name pvc) q) /\
       (dels = [] \/
        exists sts requeue, dels = [DeletedSet sts] /\ r = Ok requeue /\
          rememberedStatefulSet (sg_memory g') (cl_Namespace (w_cluster w)) (sts_Name sts) EmptyString = Some sts /\
          forall pvc, pvc ∈ pvcs -> q <= pvc_Storage pvc \/ WrotePVC (pvc_Name pvc) q ∈ writes)).
Proof.
  pose proof (pass_adds size className owners ParseQuantity storageClass (w, g)) as (new & Hlog & Hdoes).
  destruct (reconcileStorageExpansion _ _ _ _ _ (w, g)) as [r [w' g']]. simpl in *.
  destruct Hdoes as [-> |(q & Hq & Hpos & [-> |(dels & writes & pvcs & first & -> & Hc & Hf & Hv & Hw & Hd)])].
  1-2: exists [], []; split; [exact Hlog|by left].
  exists dels, writes. split; [by rewrite Hlog, app_assoc|]. right. exists q, pvcs, first. split_and!; try done.
  - intros a (pvc & Hp & Hs & Ha)%Hw. exists pvc. split_and!; try done. by eapply claimsIn_claim.
  - destruct Hd as [-> |(sts & -> & [requeue Hr] & Hrem & Hall)]; [by left|right]. by exists sts, requeue.
Qed.

(** * Samples *)
Module StorageSample.
Import RecreateSample.

Definition sampleClaim (name : string) (storage : Z) : PVC :=
  mkPVC name {["neo4j.com/cluster" := "c"; "neo4j.com/role" := "server"]} (Some "fast") storage.

Definition quantity (s : string) : option Z := strconv.Atoi s.
Definition fast (name : string) : getResult (option bool) := if String.eqb name "fast" then Found (Some true) else NotFound.

Definition sampleWorld : World unit :=
  mkWorld 0 sampleOwner sampleOwner (Found deleted) (Found deleted) (Ok []) (Ok []) [] [] None [] [] [] [] ∅ ∅ ∅ [] tt [].

Definition storageOf (claims : list PVC) : Storage :=
  mkStorage (list_to_map ((fun p => (pvc_Name p, p)) <$> claims)) [Ok claims; Ok claims; Ok claims] [] [] true ∅ ∅ [].

Definition logOf (claims : list PVC) : list storageAction :=
  sg_log (reconcileStorageExpansion "20" "fast" ["uid-1"] quantity fast (sampleWorld, storageOf claims)).2.2.

Example expansion_sample :
  logOf [sampleClaim "data-c-server-0" 10; sampleClaim "data-c-server-1" 10; sampleClaim "data-c-server-backup-0" 10] =
  [DeletedSet deleted; WrotePVC "data-c-server-1" 20; WrotePVC "data-c-server-0" 20].
Proof. vm_compute. reflexivity. Qed.

(** Of claims both smaller and larger than the size, the first listed decides
    whether the size is refused as a shrink. *)
Theorem first_claim_decides :
  logOf [sampleClaim "data-c-server-0" 10; sampleClaim "data-c-server-1" 30] = [DeletedSet deleted; WrotePVC "data-c-server-0" 20] /\
  logOf [sampleClaim "data-c-server-1" 30; sampleClaim "data-c-server-0" 10] = [].
Proof. vm_compute. split; reflexivity. Qed.
End StorageSample.
