(* ===== verification/ObjectPatch.v ===== *)
(** Finalizers (src/internal/controller/object_patch.go): addFinalizer and
    removeFinalizer write metadata.finalizers alone, with a JSON patch that tests
    the list it was computed from, while other writers change the object between
    any two calls. A list that moved is read again and the write retried. *)
From S2P Require Import Prelude.

(** * JSON patches of metadata.finalizers *)

(** The API server stores an empty list as an absent one: a test for null
    passes on it. *)
Inductive patchOp :=
| TestList (value : list string)
| SetList (value : list string)
| AppendLast (value : string)
| TestAt (i : nat) (value : string)
| RemoveAt (i : nat).

Definition applyOp (op : patchOp) (l : list string) : option (list string) :=
  match op with
  | TestList v => if decide (l = v) then Some l else None
  | SetList v => Some v
  | AppendLast v => Some (l ++ [v])
  | TestAt i v => if decide (l !! i = Some v) then Some l else None
  | RemoveAt i => match l !! i with Some _ => Some (delete i l) | None => None end
  end.

(** Every operation applies, or none does. *)
Fixpoint applyPatch (ops : list patchOp) (l : list string) : option (list string) :=
  match ops with
  | [] => Some l
  | op :: rest => applyOp op l ≫= applyPatch rest
  end.

Definition finalizerAddition (current : list string) (finalizer : string) : list patchOp :=
  match current with
  | [] => [TestList []; SetList [finalizer]]
  | _ => [TestList current; AppendLast finalizer]
  end.

Definition finalizerRemoval (i : nat) (finalizer : string) : list patchOp :=
  [TestAt i finalizer; RemoveAt i].

(** * The API server *)

Inductive apiError :=
| NotFoundError
| ListMoved        (* 422 Invalid, a conflict, or a failed test *)
| OtherError (msg : string).

Definition finalizerListMoved (e : apiError) : bool := match e with ListMoved => true | _ => false end.

(** What happens at one call: what other writers did to the stored list since the
    last one ([None]: the object is gone), and the call's own failure, if any. *)
Record apiStep := mkApiStep {
  as_others : option (list string) -> option (list string);
  as_fails : option apiError
}.

(** [ow_copy] is the pass's copy of the list; [ow_writes] lists what the operator's
    writes found and left, last first. After the steps given nothing else happens. *)
Record ObjWorld := mkObjWorld {
  ow_stored : option (list string);
  ow_copy : list string;
  ow_steps : list apiStep;
  ow_writes : list (list string * list string)
}.

Definition OW (A : Type) : Type := ObjWorld -> A * ObjWorld.

#[global] Instance OW_ret : MRet OW := fun A (a : A) w => (a, w).
#[global] Instance OW_bind : MBind OW := fun A B (f : A -> OW B) (m : OW A) w => let '(a, w') := m w in f a w'.

(** One call: what others did, then the call's failure or nothing. *)
Definition nextStep : OW (option apiError) := fun w =>
  match ow_steps w with
  | [] => (None, w)
  | s :: rest => (as_fails s, mkObjWorld (as_others s (ow_stored w)) (ow_copy w) rest (ow_writes w))
  end.

Definition getObject : OW (option apiError) := fun w =>
  let '(failed, w) := nextStep w in
  match failed with
  | Some e => (Some e, w)
  | None =>
      match ow_stored w with
      | None => (Some NotFoundError, w)
      | Some l => (None, mkObjWorld (ow_stored w) l (ow_steps w) (ow_writes w))
      end
  end.

Definition patchFinalizers (ops : list patchOp) : OW (option apiError) := fun w =>
  let '(failed, w) := nextStep w in
  match failed with
  | Some e => (Some e, w)
  | None =>
      match ow_stored w with
      | None => (Some NotFoundError, w)
      | Some l =>
          match applyPatch ops l with
          | None => (Some ListMoved, w)
          | Some l' => (None, mkObjWorld (Some l') l' (ow_steps w) ((l, l') :: ow_writes w))
          end
      end
  end.

(** [retry.OnError] with DefaultBackoff's four steps. *)
Fixpoint retryOnMoved (steps : nat) (f : OW (option apiError)) (last : option apiError) : OW (option apiError) :=
  match steps with
  | O => mret last
  | S steps' =>
      r ← f;
      match r with
      | None => mret None
      | Some e => if finalizerListMoved e then retryOnMoved steps' f (Some e) else mret (Some e)
      end
  end.

(** The first round uses the pass's copy, a later one reads the object again. *)
Definition withReread (body : OW (option apiError)) : OW (option apiError) :=
  r ← body;
  match r with
  | None => mret None
  | Some e =>
      if finalizerListMoved e then
        retryOnMoved 3 (g ← getObject; match g with Some e => mret (Some e) | None => body end) (Some e)
      else mret (Some e)
  end.

Definition getCopy : OW (list string) := fun w => (ow_copy w, w).

Definition addBody (finalizer : string) : OW (option apiError) :=
  current ← getCopy;
  if decide (finalizer ∈ current) then mret None else patchFinalizers (finalizerAddition current finalizer).

Definition addFinalizer (finalizer : string) : OW (option apiError) := withReread (addBody finalizer).

(** slices.Index *)
Definition indexOf (finalizer : string) (l : list string) : option nat := fst <$> list_find (fun x => x = finalizer) l.

Definition removeBody (finalizer : string) : OW (option apiError) :=
  current ← getCopy;
  match indexOf finalizer current with
  | None => mret None
  | Some i => patchFinalizers (finalizerRemoval i finalizer)
  end.

Definition removeFinalizer (finalizer : string) : OW (option apiError) :=
  r ← withReread (removeBody finalizer);
  mret (match r with Some NotFoundError => None | r => r end).

(** * What the writes do *)

(** A write that appends [finalizer] to the list it finds, which had none. *)
Definition appends (finalizer : string) (write : list string * list string) : Prop :=
  finalizer ∉ write.1 /\ write.2 = write.1 ++ [finalizer].

(** A write that takes one entry [finalizer] out of the list it finds. *)
Definition takesOut (finalizer : string) (write : list string * list string) : Prop :=
  exists l r, write.1 = l ++ finalizer :: r /\ write.2 = l ++ r.

(** [m] makes only writes of a kind, at most one, none when it fails. *)
Definition oneWrite (P : list string * list string -> Prop) (m : OW (option apiError)) : Prop :=
  forall w r w', m w = (r, w') ->
    ow_writes w' = ow_writes w \/
    (r = None /\ exists b a, ow_writes w' = (b, a) :: ow_writes w /\ P (b, a) /\ ow_stored w' = Some a /\ ow_copy w' = a).

Lemma nextStep_writes w r w' : nextStep w = (r, w') -> ow_writes w' = ow_writes w /\ ow_copy w' = ow_copy w.
Proof. unfold nextStep. destruct (ow_steps w); by intros [= <- <-]. Qed.

Lemma getObject_writes w r w' : getObject w = (r, w') -> ow_writes w' = ow_writes w.
Proof.
  unfold getObject. destruct (nextStep w) as [[e|] w1] eqn:E; apply nextStep_writes in E as [E _].
  - by intros [= <- <-].
  - destruct (ow_stored w1); by intros [= <- <-].
Qed.

Lemma patch_oneWrite (P : list string * list string -> Prop) ops :
  (forall l l', applyPatch ops l = Some l' -> P (l, l')) -> oneWrite P (patchFinalizers ops).
Proof.
  intros HP w r w'. unfold patchFinalizers.
  destruct (nextStep w) as [[e|] w1] eqn:E; apply nextStep_writes in E as [E _]; [intros [= <- <-]; by left|].
  destruct (ow_stored w1) as [l|]; [|intros [= <- <-]; by left].
  destruct (applyPatch ops l) as [l'|] eqn:Ea; intros [= <- <-]; [|by left].
  right. split; [done|]. exists l, l'. cbn. rewrite E. auto.
Qed.

Lemma addition_appends finalizer current l l' :
  finalizer ∉ current -> applyPatch (finalizerAddition current finalizer) l = Some l' -> appends finalizer (l, l').
Proof.
  intros Hn. destruct current as [|x current]; cbn [finalizerAddition applyPatch applyOp].
  - destruct (decide (l = [])) as [->|]; [|done]. intros [= <-]. split; [apply not_elem_of_nil|done].
  - destruct (decide (l = x :: current)) as [->|]; [|done]. intros [= <-]. by split.
Qed.

Lemma removal_takesOut finalizer i l l' :
  applyPatch (finalizerRemoval i finalizer) l = Some l' -> takesOut finalizer (l, l').
Proof.
  cbn. destruct (decide (l !! i = Some finalizer)) as [E|]; [|done]. cbn. rewrite E. intros [= <-].
  exists (take i l), (drop (S i) l). cbn. split; [by rewrite take_drop_middle|]. by rewrite delete_take_drop.
Qed.

Lemma oneWrite_ret P r : oneWrite P (mret r).
Proof. intros w r' w' [= <- <-]. by left. Qed.

Lemma oneWrite_after P {A} (m : OW A) (f : A -> OW (option apiError)) :
  (forall w a w', m w = (a, w') -> ow_writes w' = ow_writes w) -> (forall a, oneWrite P (f a)) -> oneWrite P (m ≫= f).
Proof.
  intros Hm Hf w r w'. unfold mbind, OW_bind. destruct (m w) as [a w1] eqn:E. apply Hm in E. intros H.
  destruct (Hf a w1 r w' H) as [H'|(-> & b & a' & H1 & H2)]; [left; congruence|].
  right. split; [done|]. exists b, a'. by rewrite <-E.
Qed.

(** A round that fails has written nothing, so another may. *)
Lemma oneWrite_then P m (k : option apiError -> OW (option apiError)) :
  oneWrite P m -> k None = mret None -> (forall e, oneWrite P (k (Some e))) -> oneWrite P (m ≫= k).
Proof.
  intros Hm Hn Hk w r w'. unfold mbind, OW_bind. destruct (m w) as [r1 w1] eqn:E.
  destruct (Hm w r1 w1 E) as [Hw|(-> & Hw)].
  - destruct r1 as [e|]; [|rewrite Hn; intros [= <- <-]; by left]. intros H.
    destruct (Hk e w1 r w' H) as [H'|(-> & b & a & H1 & H2)]; [left; congruence|].
    right. split; [done|]. exists b, a. by rewrite <-Hw.
  - rewrite Hn. intros [= <- <-]. by right.
Qed.

Lemma retry_oneWrite P steps f last : oneWrite P f -> oneWrite P (retryOnMoved steps f last).
Proof.
  intros Hf. revert last. induction steps as [|steps IH]; intros last; cbn [retryOnMoved]; [apply oneWrite_ret|].
  apply oneWrite_then; [done..|]. intros e. destruct (finalizerListMoved e); [apply IH|apply oneWrite_ret].
Qed.

Lemma withReread_oneWrite P body : oneWrite P body -> oneWrite P (withReread body).
Proof.
  intros Hb. apply oneWrite_then; [done..|]. intros e. destruct (finalizerListMoved e); [|apply oneWrite_ret].
  apply retry_oneWrite. apply oneWrite_after; [apply getObject_writes|]. intros [e'|]; [apply oneWrite_ret|done].
Qed.

Lemma addBody_oneWrite finalizer : oneWrite (appends finalizer) (addBody finalizer).
Proof.
  apply oneWrite_after; [by intros w a w' [= _ <-]|]. intros current. destruct (decide _) as [|Hn]; [apply oneWrite_ret|].
  apply patch_oneWrite. intros l l'. by apply addition_appends.
Qed.

Lemma removeBody_oneWrite finalizer : oneWrite (takesOut finalizer) (removeBody finalizer).
Proof.
  apply oneWrite_after; [by intros w a w' [= _ <-]|]. intros current. destruct (indexOf _ _) as [i|]; [|apply oneWrite_ret].
  apply patch_oneWrite. intros l l'. apply removal_takesOut.
Qed.

(** C8: However other writers change the object between the calls, addFinalizer
    and removeFinalizer write it at most once and never after a failure: the
    first appends its finalizer to a list that had none, the second takes one
    entry out, and every other entry, also one added since the pass read the
    object, stays where it is. *)
Theorem finalizer_writes_exact finalizer w :
  (let '(r, w') := addFinalizer finalizer w in
   ow_writes w' = ow_writes w \/
   r = None /\ exists b a, ow_writes w' = (b, a) :: ow_writes w /\ finalizer ∉ b /\ a = b ++ [finalizer]) /\
  (let '(r, w') := removeFinalizer finalizer w in
   ow_writes w' = ow_writes w \/
   r = None /\ exists l l', ow_writes w' = (l ++ finalizer :: l', l ++ l') :: ow_writes w).
Proof.
  split.
  - destruct (addFinalizer finalizer w) as [r w'] eqn:E.
    destruct (withReread_oneWrite _ _ (addBody_oneWrite finalizer) _ _ _ E) as [?|(-> & b & a & H1 & [H2 H3] & _)]; [by left|].
    right. split; [done|]. exists b, a. auto.
  - unfold removeFinalizer, mbind, OW_bind. destruct (withReread (removeBody finalizer) w) as [r w'] eqn:E. cbn.
    destruct (withReread_oneWrite _ _ (removeBody_oneWrite finalizer) _ _ _ E) as [?|(-> & b & a & H1 & (l & l' & H2 & H3) & _)]; [by left|].
    right. split; [done|]. cbn in H2, H3. subst. eauto.
Qed.

(** ** Undisturbed *)

Lemma nextStep_quiet w : ow_steps w = [] -> nextStep w = (None, w).
Proof. unfold nextStep. by intros ->. Qed.

Lemma patch_quiet ops w l :
  ow_steps w = [] -> ow_stored w = Some l ->
  patchFinalizers ops w =
  match applyPatch ops l with
  | Some l' => (None, mkObjWorld (Some l') l' [] ((l, l') :: ow_writes w))
  | None => (Some ListMoved, w)
  end.
Proof. intros Hs Hl. unfold patchFinalizers. rewrite nextStep_quiet, Hl, Hs by done. by destruct (applyPatch ops l). Qed.

Lemma indexOf_Some finalizer l i : indexOf finalizer l = Some i -> l !! i = Some finalizer.
Proof. unfold indexOf. intros ([j x] & (H & -> & _)%list_find_Some & ->)%fmap_Some. done. Qed.

Lemma indexOf_elem finalizer l : finalizer ∈ l -> exists i, indexOf finalizer l = Some i.
Proof.
  intros H. unfold indexOf. destruct (list_find _ l) as [[i x]|] eqn:E; [by exists i|].
  apply list_find_None in E. rewrite Forall_forall in E. by destruct (E finalizer H).
Qed.

Lemma removal_applies finalizer i l : l !! i = Some finalizer -> applyPatch (finalizerRemoval i finalizer) l = Some (delete i l).
Proof. intros H. cbn. rewrite decide_True by done. cbn. by rewrite H. Qed.

Lemma addition_same finalizer l : applyPatch (finalizerAddition l finalizer) l = Some (l ++ [finalizer]).
Proof. destruct l as [|x l]; [done|]. cbn. by rewrite decide_True by done. Qed.

Lemma addition_moved finalizer current l : l <> current -> applyPatch (finalizerAddition current finalizer) l = None.
Proof. intros H. destruct current; cbn; by rewrite decide_False. Qed.

Lemma addFinalizer_quiet finalizer w l :
  ow_steps w = [] -> ow_stored w = Some l -> finalizer ∉ ow_copy w ->
  exists w', addFinalizer finalizer w = (None, w') /\
    ow_stored w' = Some (if decide (finalizer ∈ l) then l else l ++ [finalizer]).
Proof.
  intros Hs Hl Hc. unfold addFinalizer, withReread, mbind, OW_bind, addBody, getCopy, mbind, OW_bind.
  rewrite decide_False, (patch_quiet _ w l) by done. destruct (decide (l = ow_copy w)) as [->|Hne].
  - rewrite addition_same, decide_False by done. eexists. split; reflexivity.
  - rewrite addition_moved by done. cbn [finalizerListMoved retryOnMoved]. unfold mbind, OW_bind, getObject.
    rewrite nextStep_quiet, Hl by done. cbn [ow_copy]. destruct (decide (finalizer ∈ l)) as [Hin|Hin].
    + eexists. split; [reflexivity|]. done.
    + rewrite (patch_quiet _ _ l) by done. rewrite addition_same. eexists. split; reflexivity.
Qed.

Lemma removeFinalizer_quiet finalizer w l :
  ow_steps w = [] -> ow_stored w = Some l -> finalizer ∈ ow_copy w -> finalizer ∈ l ->
  exists w' l', removeFinalizer finalizer w = (None, w') /\ ow_stored w' = Some l' /\ takesOut finalizer (l, l').
Proof.
  intros Hs Hl Hc Hin. destruct (indexOf_elem _ _ Hc) as [i Hi]. destruct (indexOf_elem _ _ Hin) as [j Hj].
  unfold removeFinalizer, withReread, mbind, OW_bind, removeBody, getCopy, mbind, OW_bind.
  rewrite Hi, (patch_quiet _ w l) by done. destruct (applyPatch (finalizerRemoval i finalizer) l) as [l'|] eqn:Ea.
  - eexists _, l'. split; [reflexivity|]. split; [done|]. by apply removal_takesOut in Ea.
  - cbn [finalizerListMoved retryOnMoved]. unfold mbind, OW_bind, getObject. rewrite nextStep_quiet, Hl by done. cbn [ow_copy].
    rewrite Hj, (patch_quiet _ _ l) by done. rewrite (removal_applies _ _ _ (indexOf_Some _ _ _ Hj)).
    eexists _, _. split; [reflexivity|]. split; [done|]. apply (removal_takesOut _ j).
    by apply removal_applies, indexOf_Some.
Qed.

(** A stale copy does not stop either. When nobody else writes during the pass,
    from any copy of the object: addFinalizer leaves the stored list with the
    finalizer, appended unless it was there, and removeFinalizer takes it out,
    reading the object again where the copy does not match. *)
Theorem finalizer_from_stale_copy finalizer w l :
  ow_steps w = [] -> ow_stored w = Some l ->
  (finalizer ∉ ow_copy w -> exists w', addFinalizer finalizer w = (None, w') /\
     ow_stored w' = Some (if decide (finalizer ∈ l) then l else l ++ [finalizer])) /\
  (finalizer ∈ ow_copy w -> finalizer ∈ l -> exists w' l', removeFinalizer finalizer w = (None, w') /\
     ow_stored w' = Some l' /\ takesOut finalizer (l, l')).
Proof. intros Hs Hl. split; [by apply addFinalizer_quiet|by apply removeFinalizer_quiet]. Qed.

Module PatchSample.
Lemma finalizer_from_stale_copy_witness :
  exists w' l', removeFinalizer "role" (mkObjWorld (Some ["other"; "role"]) ["role"] [] []) = (None, w') /\
    ow_stored w' = Some l' /\ takesOut "role" (["other"; "role"], l').
Proof.
  apply (proj2 (finalizer_from_stale_copy "role" (mkObjWorld (Some ["other"; "role"]) ["role"] [] []) ["other"; "role"] eq_refl eq_refl)).
  - by left.
  - right. by left.
Defined.
End PatchSample.
