(* ===== verification/DeletionWait.v ===== *)
(** The target an object refers to, and a deletion that has to remove something
    there (src/internal/controller/cluster_resolver.go, target_gone.go,
    deletion_wait.go and finalizer_deletion.go): what becomes of it with its target,
    when it waits, and when the finalizer is released all the same. Several kinds
    delete in this way; what they need of their pass is the interface
    [CleanupPass]. *)
From S2P Require Import Prelude GoStrings GoTime GoRFC3339 ClusterTypes Conditions Availability TargetWait ObjectPatch.

Open Scope Z_scope.

(** * The target *)

Record DeploymentMeta := mkDeployment {
  dm_UID : string;
  dm_Repo : string;
  dm_Tag : string;
  dm_Deleting : bool;
  dm_RetentionPolicy : string
}.

Inductive ResolvedTarget :=
| TargetMissing
| TargetCluster (status : ClusterStatus) (m : DeploymentMeta)
| TargetStandalone (ready : bool) (m : DeploymentMeta).

Definition targetFound (t : ResolvedTarget) : bool := match t with TargetMissing => false | _ => true end.

Definition IsReady (t : ResolvedTarget) : bool :=
  match t with
  | TargetCluster status _ => clusterAcceptsWork status
  | TargetStandalone ready _ => ready
  | TargetMissing => false
  end.

(** ** Its fate *)

Inductive targetFate := targetHolds | targetTakesIt | targetVolumesKept.

Definition fateOfPresent (m : DeploymentMeta) : targetFate :=
  if negb (dm_Deleting m) || String.eqb (dm_RetentionPolicy m) "Retain" then targetHolds else targetTakesIt.

(** [claims]: for each volume claim of the instance, whether it is being deleted,
    or the error of listing them. *)
Definition fateOfTarget (t : ResolvedTarget) (claims : list bool + clientError) : targetFate + clientError :=
  match t with
  | TargetCluster _ m | TargetStandalone _ m => inl (fateOfPresent m)
  | TargetMissing =>
      match claims with
      | inr e => inr e
      | inl claims => inl (if existsb negb claims then targetVolumesKept else targetTakesIt)
      end
  end.

(** ** The notice that it went away *)

Definition targetGoneNoticeDelay : Z := minute.

Definition hadFoundTarget (conditions : list Condition) : bool :=
  match findCondition conditions ConditionTypeReady with
  | Some ready => negb (String.eqb (c_Reason ready) EventReasonClusterNotFound)
  | None => false
  end.

(** Whether the Warning is due, and the time remembered. *)
Definition announceGone (since : option Z) (entered hadTarget : bool) (now : Z) : bool * option Z :=
  if entered then (if hadTarget then (false, Some now) else (true, None))
  else match since with
       | None => (false, None)
       | Some t => if now - t <? targetGoneNoticeDelay then (false, since) else (true, None)
       end.

(** * A deletion that waits *)

Definition finalizerDeletionGracePeriod : Z := 5 * minute.

Definition deletionGracePeriodExceeded (ts : option Z) (now : Z) : bool :=
  match ts with Some t => finalizerDeletionGracePeriod <? now - t | None => false end.

Definition deletionDeadline (ts : option Z) (now : Z) : Z :=
  match ts with Some t => t + finalizerDeletionGracePeriod | None => now + finalizerDeletionGracePeriod end.

Definition targetDownCause (clusterRef : string) : string :=
  targetRefDisplay clusterRef +:+ " is not Ready or does not accept connections yet".

Definition connectFailedCause (clusterRef : string) (e : clientError) : string :=
  if e_unreachable e then targetDownCause clusterRef
  else "cannot connect to " +:+ targetRefDisplay clusterRef +:+ ": " +:+ e_msg e.

Definition statementFailedCause (clusterRef statement : string) (e : clientError) : string :=
  if e_unreachable e then targetDownCause clusterRef else statement +:+ " failed: " +:+ e_msg e.

Definition volumesKeptCause (ref : string) : string :=
  targetRefDisplay ref +:+ " was deleted and its volumes were kept (storage.retentionPolicy: Retain); a deployment created again from them still has it".

Definition apiErrorText (e : apiError) : clientError :=
  match e with
  | NotFoundError => plainError "not found"
  | ListMoved => plainError "the finalizers are no longer what the copy had"
  | OtherError msg => plainError msg
  end.

(** What a deletion needs of the pass it is part of: the time, events, and the
    pass's results "run again after" and "failed". *)
Class CleanupPass (M : Type -> Type) (R : Type) := {
  passNow : M Z;
  passEvent : string -> string -> M unit;
  passAgain : Z -> R;
  passErrored : clientError -> R
}.

Section Cleanup.
Context {M : Type -> Type} {R : Type} `{!MRet M, !MBind M, !CleanupPass M R}.

(** Kind-specific parts: [dc_record] writes a message to the status and reports
    whether that changed it, [dc_release] removes the finalizer. *)
Record deletionCleanup := mkCleanup {
  dc_deletionTimestamp : option Z;
  dc_reason : string;
  dc_leftBehind : string;
  dc_byHand : string;
  dc_record : string -> M bool;
  dc_release : M R;
  dc_requeue : Z
}.

Definition waitMessage (d : deletionCleanup) (cause : string) (now : Z) : string :=
  "deletion waits to remove " +:+ dc_leftBehind d +:+ ": " +:+ cause +:+ "; if that still holds at "
  +:+ gotime.FormatRFC3339 (deletionDeadline (dc_deletionTimestamp d) now)
  +:+ ", the finalizer is released and it is left in Neo4j".

Definition releaseMessage (d : deletionCleanup) (cause : string) : string :=
  "Released the finalizer without removing " +:+ dc_leftBehind d +:+ ": " +:+ cause +:+ ", "
  +:+ gotime.DurationString finalizerDeletionGracePeriod
  +:+ " after the deletion was requested. It is still in Neo4j; remove it by hand: " +:+ dc_byHand d.

Definition blocked (d : deletionCleanup) (cause : string) : M R :=
  now ← passNow;
  if negb (deletionGracePeriodExceeded (dc_deletionTimestamp d) now) then
    let msg := waitMessage d cause now in
    changed ← dc_record d msg;
    (if (changed : bool) then passEvent (dc_reason d) msg else mret tt) ;;
    mret (passAgain (if dc_requeue d <=? 0 then 30 * second else dc_requeue d))
  else
    passEvent (dc_reason d) (releaseMessage d cause) ;;
    dc_release d.

Definition retryTransient (d : deletionCleanup) (e : clientError) (now : Z) : bool :=
  statementTransient e && negb (deletionGracePeriodExceeded (dc_deletionTimestamp d) now).

Definition failedCleanup (d : deletionCleanup) (cause : string) (e : clientError) : M R :=
  now ← passNow;
  if retryTransient d e now then mret (passAgain transientRetry) else blocked d cause.

(** [None]: the cleanup should run. *)
Definition settleByTarget (d : deletionCleanup) (ref : string) (t : ResolvedTarget) (claims : list bool + clientError)
  : M (option R) :=
  match fateOfTarget t claims with
  | inr e => mret (Some (passErrored e))
  | inl targetTakesIt => r ← dc_release d; mret (Some r)
  | inl targetVolumesKept => r ← blocked d (volumesKeptCause ref); mret (Some r)
  | inl targetHolds => mret None
  end.
End Cleanup.
