(* ===== verification/Roles.v ===== *)
(** The Neo4jRole resource and what a pass of its controller reads and changes
    (src/api/v1beta1/neo4jrole_types.go, src/internal/controller/
    neo4jrole_controller.go and neo4jrole_rules.go): the role and its stored copy,
    the outcome of each status write, the events, and Neo4j through the interface
    [RoleClient]. A handler is a function on this world. *)
From S2P Require Import Prelude GoStrings ClusterTypes Conditions Privileges TargetWait.

Open Scope Z_scope.

(** * The resource *)

Record PrivilegeRendering := mkRendering {
  re_Statement : string;
  re_Rows : list string;
  re_Ambiguous : bool
}.

Record RoleStatus := mkRoleStatus {
  rs_Conditions : list Condition;
  rs_Phase : string;
  rs_Message : string;
  rs_ObservedGeneration : Z;
  rs_AppliedPrivileges : list string;
  rs_PrivilegeDrift : bool;
  rs_PrivilegeRenderings : list PrivilegeRendering;
  rs_PrivilegeRenderingScope : string;
  rs_UnattributedPrivileges : list string
}.

Record RoleSpec := mkRoleSpec {
  rp_ClusterRef : string;
  rp_Name : string;
  rp_CopyOf : string;
  rp_Privileges : list string;
  rp_PrivilegeRules : list PrivilegeRule;
  rp_EnforcePrivileges : bool;
  rp_AdoptBuiltin : bool;
  rp_DeletionPolicy : string
}.

Record Neo4jRole := mkRole {
  ro_Name : string;
  ro_Generation : Z;
  ro_Spec : RoleSpec;
  ro_Status : RoleStatus
}.

Definition set_ro_Status (st : RoleStatus) (r : Neo4jRole) : Neo4jRole :=
  mkRole (ro_Name r) (ro_Generation r) (ro_Spec r) st.

(** The fields learn mode keeps its state in. *)
Definition setLearned (scope : string) (renderings : list PrivilegeRendering) (baseline : list string)
    (st : RoleStatus) : RoleStatus :=
  mkRoleStatus (rs_Conditions st) (rs_Phase st) (rs_Message st) (rs_ObservedGeneration st)
    (rs_AppliedPrivileges st) (rs_PrivilegeDrift st) renderings scope baseline.

Definition set_rs_Conditions (v : list Condition) (st : RoleStatus) : RoleStatus :=
  mkRoleStatus v (rs_Phase st) (rs_Message st) (rs_ObservedGeneration st) (rs_AppliedPrivileges st)
    (rs_PrivilegeDrift st) (rs_PrivilegeRenderings st) (rs_PrivilegeRenderingScope st) (rs_UnattributedPrivileges st).

(** The fields the phase writers assign. *)
Definition setPhase (conditions : list Condition) (phase message : string) (generation : Z) (st : RoleStatus) : RoleStatus :=
  mkRoleStatus conditions phase message generation (rs_AppliedPrivileges st) (rs_PrivilegeDrift st)
    (rs_PrivilegeRenderings st) (rs_PrivilegeRenderingScope st) (rs_UnattributedPrivileges st).

(** [appliedPrivileges] nil leaves the field. *)
Definition setApplied (applied : option (list string)) (drift : bool) (st : RoleStatus) : RoleStatus :=
  mkRoleStatus (rs_Conditions st) (rs_Phase st) (rs_Message st) (rs_ObservedGeneration st)
    (default (rs_AppliedPrivileges st) applied) drift
    (rs_PrivilegeRenderings st) (rs_PrivilegeRenderingScope st) (rs_UnattributedPrivileges st).

Definition effectiveRoleName (role : Neo4jRole) : string :=
  let name := rp_Name (ro_Spec role) in if String.eqb name EmptyString then ro_Name role else name.

Definition rolePrivilegeStatements (role : Neo4jRole) : list string :=
  rp_Privileges (ro_Spec role)
  ++ flat_map (fun rule => match RenderPrivilegeRule rule (effectiveRoleName role) with Ok stmt => [stmt] | Err _ => [] end)
       (rp_PrivilegeRules (ro_Spec role)).

(** * Neo4j *)

(** A row of SHOW ROLE PRIVILEGES AS COMMANDS. *)
Record PrivilegeCommand := mkCommand { pc_Command : string; pc_Immutable : bool }.

Record AliasInfo := mkAlias { al_Name : string; al_Database : string; al_URL : string }.

(** The columns of SHOW DATABASES the controller reads. *)
Record DatabaseInfo := mkDatabase { db_Name : string; db_Type : string }.

(** What the controller asks Neo4j; a call changes its state. *)
Class RoleClient (S : Type) := {
  ShowRolePrivileges : string -> S -> (list PrivilegeCommand + clientError) * S;
  ExecutePrivilegeStatement : string -> S -> option clientError * S;
  GrantAndReadPrivileges : string -> string -> S -> ((list string * list string) + clientError) * S;
  ProbePrivilegeRendering : string -> string -> S -> (list string + clientError) * S;
  GetDatabases : S -> (list DatabaseInfo + clientError) * S;
  ShowAliases : S -> (list AliasInfo + clientError) * S
}.

(** * The world of a pass *)

(** The outcome of one read-modify-write of the role's status. *)
Inductive roleAttempt :=
| RoleSucceeds
| RoleGetFails (e : clientError)
| RoleUpdateFails (e : clientError)
| RoleConflicts (seen : Neo4jRole).

(** [rw_prunes]: the installed CRD does not declare learn mode's fields, and the
    API server drops them from every write. [rw_sent] lists the statements sent
    to change the role's privileges, last first. [rw_cache] is the rendering
    cache, [rw_warned] the advisory warnings of this role by event reason. *)
Record RoleWorld (S : Type) := mkRoleWorld {
  rw_now : Z;
  rw_role : Neo4jRole;
  rw_stored : Neo4jRole;
  rw_attempts : list roleAttempt;
  rw_prunes : bool;
  rw_events : list (string * string);
  rw_streak : option transientStreak;
  rw_warned : gmap string (gmap string Z);
  rw_cache : gmap string (list string * Z);
  rw_neo4j : S;
  rw_sent : list string
}.
Arguments mkRoleWorld {S}.
Arguments rw_now {S} _.
Arguments rw_role {S} _.
Arguments rw_stored {S} _.
Arguments rw_attempts {S} _.
Arguments rw_prunes {S} _.
Arguments rw_events {S} _.
Arguments rw_streak {S} _.
Arguments rw_warned {S} _.
Arguments rw_cache {S} _.
Arguments rw_neo4j {S} _.
Arguments rw_sent {S} _.

Definition set_rw_role {S} (v : Neo4jRole) (w : RoleWorld S) : RoleWorld S :=
  mkRoleWorld (rw_now w) v (rw_stored w) (rw_attempts w) (rw_prunes w) (rw_events w) (rw_streak w) (rw_warned w)
    (rw_cache w) (rw_neo4j w) (rw_sent w).
Definition set_rw_stored {S} (v : Neo4jRole) (w : RoleWorld S) : RoleWorld S :=
  mkRoleWorld (rw_now w) (rw_role w) v (rw_attempts w) (rw_prunes w) (rw_events w) (rw_streak w) (rw_warned w)
    (rw_cache w) (rw_neo4j w) (rw_sent w).
Definition set_rw_attempts {S} (v : list roleAttempt) (w : RoleWorld S) : RoleWorld S :=
  mkRoleWorld (rw_now w) (rw_role w) (rw_stored w) v (rw_prunes w) (rw_events w) (rw_streak w) (rw_warned w)
    (rw_cache w) (rw_neo4j w) (rw_sent w).
Definition set_rw_events {S} (v : list (string * string)) (w : RoleWorld S) : RoleWorld S :=
  mkRoleWorld (rw_now w) (rw_role w) (rw_stored w) (rw_attempts w) (rw_prunes w) v (rw_streak w) (rw_warned w)
    (rw_cache w) (rw_neo4j w) (rw_sent w).
Definition set_rw_streak {S} (v : option transientStreak) (w : RoleWorld S) : RoleWorld S :=
  mkRoleWorld (rw_now w) (rw_role w) (rw_stored w) (rw_attempts w) (rw_prunes w) (rw_events w) v (rw_warned w)
    (rw_cache w) (rw_neo4j w) (rw_sent w).
Definition set_rw_warned {S} (v : gmap string (gmap string Z)) (w : RoleWorld S) : RoleWorld S :=
  mkRoleWorld (rw_now w) (rw_role w) (rw_stored w) (rw_attempts w) (rw_prunes w) (rw_events w) (rw_streak w) v
    (rw_cache w) (rw_neo4j w) (rw_sent w).
Definition set_rw_cache {S} (v : gmap string (list string * Z)) (w : RoleWorld S) : RoleWorld S :=
  mkRoleWorld (rw_now w) (rw_role w) (rw_stored w) (rw_attempts w) (rw_prunes w) (rw_events w) (rw_streak w)
    (rw_warned w) v (rw_neo4j w) (rw_sent w).
Definition set_rw_neo4j {S} (v : S) (w : RoleWorld S) : RoleWorld S :=
  mkRoleWorld (rw_now w) (rw_role w) (rw_stored w) (rw_attempts w) (rw_prunes w) (rw_events w) (rw_streak w)
    (rw_warned w) (rw_cache w) v (rw_sent w).
Definition set_rw_sent {S} (v : list string) (w : RoleWorld S) : RoleWorld S :=
  mkRoleWorld (rw_now w) (rw_role w) (rw_stored w) (rw_attempts w) (rw_prunes w) (rw_events w) (rw_streak w)
    (rw_warned w) (rw_cache w) (rw_neo4j w) v.

Definition RW (S : Type) (A : Type) : Type := RoleWorld S -> A * RoleWorld S.

#[global] Instance RW_ret S : MRet (RW S) := fun A (a : A) w => (a, w).
#[global] Instance RW_bind S : MBind (RW S) := fun A B (f : A -> RW S B) (m : RW S A) w =>
  let '(a, w') := m w in f a w'.

(** What a pass returns: the role is in sync, the pass stopped and is run again
    after a delay, or it stopped with an error and controller-runtime's backoff. *)
Inductive roleResult :=
| Synced (requeue : Z)
| Stopped (requeue : Z)
| Errored (e : clientError).

#[global] Instance PrivilegeRendering_eq_dec : EqDecision PrivilegeRendering.
Proof. solve_decision. Defined.
#[global] Instance RoleStatus_eq_dec : EqDecision RoleStatus.
Proof. solve_decision. Defined.

Section Operations.
Context {S : Type} `{!RoleClient S}.

Definition getsR {A} (f : RoleWorld S -> A) : RW S A := fun w => (f w, w).
Definition modifyR (f : RoleWorld S -> RoleWorld S) : RW S unit := fun w => (tt, f w).

(** A call of the client. *)
Definition askR {A} (call : S -> A * S) : RW S A := fun w =>
  let '(a, n) := call (rw_neo4j w) in (a, set_rw_neo4j n w).

(** A call that sends a statement. *)
Definition sendR {A} (stmt : string) (call : S -> A * S) : RW S A := fun w =>
  let '(a, n) := call (rw_neo4j w) in (a, set_rw_neo4j n (set_rw_sent (stmt :: rw_sent w) w)).

Definition eventR (reason message : string) : RW S unit :=
  modifyR (fun w => set_rw_events ((reason, message) :: rw_events w) w).

Definition nextRoleAttempt : RW S roleAttempt := fun w =>
  match rw_attempts w with
  | [] => (RoleSucceeds, w)
  | a :: rest => (a, set_rw_attempts rest w)
  end.

(** What the API server keeps of a write. *)
Definition kept (prunes : bool) (r : Neo4jRole) : Neo4jRole :=
  if prunes then set_ro_Status (setLearned EmptyString [] [] (ro_Status r)) r else r.

(** [retry.RetryOnConflict] with DefaultBackoff's four steps around a
    read-modify-write of the role; the body returns what it writes ([None]:
    nothing) and a value. *)
Fixpoint retryRole {A} (steps : nat) (f : Neo4jRole -> option Neo4jRole * A) : RW S (A + clientError) := fun w =>
  match steps with
  | O => (inr (plainError "conflict"), w)
  | Datatypes.S steps' =>
      let '(a, w) := nextRoleAttempt w in
      match a with
      | RoleGetFails e => (inr e, w)
      | RoleSucceeds =>
          match f (rw_stored w) with
          | (None, v) => (inl v, w)
          | (Some latest, v) => (inl v, set_rw_stored (kept (rw_prunes w) latest) w)
          end
      | RoleUpdateFails e =>
          match f (rw_stored w) with
          | (None, v) => (inl v, w)
          | (Some _, _) => (inr e, w)
          end
      | RoleConflicts seen =>
          match f seen with
          | (None, v) => (inl v, w)
          | (Some _, _) => retryRole steps' f w
          end
      end
  end.

Definition roleBackoff : nat := 4.

(** ** Status writes *)

Definition roleStatusBody (now : Z) (phase readyStatus readyReason message : string) (applied : option (list string))
    (drift : bool) (latest : Neo4jRole) : option Neo4jRole * (bool * bool) :=
  let st := ro_Status latest in
  let phaseMoved := negb (String.eqb (rs_Phase st) phase) in
  let '(conditions, ready) := SetReadyCondition now (rs_Conditions st) (ro_Generation latest) readyStatus readyReason message in
  (Some (set_ro_Status (setApplied applied drift (setPhase conditions phase message (ro_Generation latest) st)) latest),
   (phaseMoved || negb (String.eqb (rs_Message st) message) || ready, phaseMoved)).

(** [writeStatus]: whether the write changed what it reports, and whether it
    entered the phase. *)
Definition writeRoleStatus (phase readyStatus readyReason message : string) (applied : option (list string))
    (drift : bool) : RW S (bool * bool) :=
  now ← getsR rw_now;
  r ← retryRole roleBackoff (roleStatusBody now phase readyStatus readyReason message applied drift);
  mret (match r with inl v => v | inr _ => (false, false) end).

Definition setRoleStatus (phase readyStatus readyReason message : string) (applied : option (list string)) (drift : bool)
  : RW S bool :=
  r ← writeRoleStatus phase readyStatus readyReason message applied drift; mret r.1.

Definition EventReasonRoleSyncFailed : string := "RoleSyncFailed".
Definition EventReasonRoleReady : string := "RoleReady".
Definition EventReasonPrivilegesApplied : string := "PrivilegesApplied".
Definition EventReasonPrivilegesDriftKept : string := "PrivilegesDriftKept".
Definition EventReasonPrivilegeUnknownDatabase : string := "PrivilegeNamesUnknownDatabase".
Definition ReasonGraphPrivilegeOnComposite : string := "GraphPrivilegeOnComposite".
Definition ConditionTypePrivilegesSynced : string := "PrivilegesSynced".
Definition ConditionTypePrivilegesResolve : string := "PrivilegesResolve".
Definition ConditionReasonRoleReady : string := "RoleReady".
Definition ConditionReasonPrivilegesWaitForDatabase : string := "PrivilegesWaitForDatabase".
Definition ConditionReasonPrivilegesSynced : string := "PrivilegesMatch".
Definition ConditionReasonPrivilegesDrifted : string := "PrivilegesDrifted".
Definition ConditionReasonPrivilegesUnattributed : string := "UnattributedPrivileges".

Definition setRoleCondition (condType status reason message : string) : RW S bool :=
  now ← getsR rw_now;
  r ← retryRole roleBackoff (fun latest =>
        let st := ro_Status latest in
        let '(conditions, changed) := SetNamedCondition now (rs_Conditions st) condType (ro_Generation latest) status reason message in
        (Some (set_ro_Status (setPhase conditions (rs_Phase st) (rs_Message st) (ro_Generation latest) st) latest), changed));
  mret (match r with inl changed => changed | inr _ => false end).

Definition readyBody (now : Z) (message : string) (applied : list string) (drift : bool) (waiting : Z)
    (latest : Neo4jRole) : option Neo4jRole * bool :=
  let st := ro_Status latest in
  let announced :=
    String.eqb (rs_Phase st) "Ready"
    && match findCondition (rs_Conditions st) ConditionTypeReady with
       | Some prior => String.eqb (c_Status prior) ConditionTrue && String.eqb (c_Reason prior) ConditionReasonRoleReady
       | None => false
       end in
  let reason := if (0 <? waiting) && negb announced then ConditionReasonPrivilegesWaitForDatabase
                else ConditionReasonRoleReady in
  let conditions := (SetReadyCondition now (rs_Conditions st) (ro_Generation latest) ConditionTrue reason message).1 in
  (Some (set_ro_Status (setApplied (Some applied) drift (setPhase conditions "Ready" message (ro_Generation latest) st)) latest),
   String.eqb reason ConditionReasonRoleReady && negb announced).

Definition writeReady (message : string) (applied : list string) (drift : bool) (waiting : Z) : RW S bool :=
  now ← getsR rw_now;
  r ← retryRole roleBackoff (readyBody now message applied drift waiting);
  mret (match r with inl announce => announce | inr _ => false end).

Definition reportReady (roleName readyMsg : string) (final : list string) (drift : bool) (waiting : Z) : RW S unit :=
  announce ← writeReady readyMsg final drift waiting;
  if (announce : bool) then
    eventR EventReasonRoleReady ("Role " +:+ fmt.q roleName +:+ " is ready (" +:+ strconv.Itoa (Z.of_nat (length final))
      +:+ " privileges in sync)")
  else mret tt.

(** ** Failures *)

Definition waitForTarget (reason msg : string) : RW S bool :=
  now ← getsR rw_now;
  r ← retryRole roleBackoff (fun latest =>
        let st := ro_Status latest in
        let '(conditions, phase, message, lasting) :=
          recordTargetWait now (rs_Conditions st) (rs_Phase st) (rs_Message st) (ro_Generation latest) reason msg in
        let st' := setPhase conditions phase message (ro_Generation latest) st in
        (if decide (st' = st) then None else Some (set_ro_Status st' latest), lasting));
  mret (match r with inl lasting => lasting | inr _ => false end).

Definition unreachable (err : clientError) (requeue : Z) : RW S roleResult :=
  role ← getsR rw_role;
  lasting ← waitForTarget ConditionReasonClusterUnreachable
              (targetUnreachableMessage (rp_ClusterRef (ro_Spec role)) err);
  (if (lasting : bool) then
     let msg := "failed to connect to Neo4j for more than 5m0s: " +:+ e_msg err in
     changed ← setRoleStatus "Failed" ConditionFalse EventReasonConnectionFailed msg None false;
     if (changed : bool) then eventR EventReasonConnectionFailed msg else mret tt
   else mret tt) ;;
  mret (Stopped requeue).

(** [err] [None] is a refusal the controller made itself. *)
Definition fail (label : string) (err : option clientError) (requeue : Z) : RW S roleResult :=
  let report :=
    let msg := match err with Some e => label +:+ ": " +:+ e_msg e | None => label end in
    changed ← setRoleStatus "Failed" ConditionFalse EventReasonRoleSyncFailed msg None false;
    (if (changed : bool) then eventR EventReasonRoleSyncFailed msg else mret tt) ;;
    mret (match err with
          | None => Stopped requeue
          | Some e => if e_permanent e then Stopped requeue else Errored e
          end) in
  match err with
  | None => report
  | Some e =>
      if e_unreachable e then unreachable e requeue
      else
        now ← getsR rw_now;
        streak ← getsR rw_streak;
        let '(retried, streak) := quiet now streak e in
        modifyR (set_rw_streak streak) ;;
        if retried then mret (Stopped transientRetry) else report
  end.

(** ** Privileges *)

(** A command in canonical form, unless that is empty. *)
Definition canonOf (shown : string) : option string :=
  match CanonicalisePrivilegeStatement shown with EmptyString => None | canon => Some canon end.

(** The role's rows: in canonical form and sorted, which of them are immutable,
    and how each is shown. *)
Definition readPrivileges (rows : list PrivilegeCommand) : list string * gset string * gmap string string :=
  let byCanonical := fold_left (fun m row => match canonOf (pc_Command row) with
                                             | Some canon => <[canon := pc_Command row]> m
                                             | None => m
                                             end) rows ∅ in
  let immutable := fold_left (fun s row => match canonOf (pc_Command row) with
                                           | Some canon => if pc_Immutable row then {[canon]} ∪ s else s
                                           | None => s
                                           end) rows ∅ in
  (sort.Strings (elements (dom byCanonical)), immutable, byCanonical).

Definition fetchCurrentPrivileges (roleName : string)
  : RW S ((list string * gset string * gmap string string) + clientError) :=
  r ← askR (ShowRolePrivileges roleName);
  mret (match r with inl rows => inl (readPrivileges rows) | inr e => inr e end).

Definition setDifference (a b : list string) : list string :=
  List.filter (fun x => negb (existsb (String.eqb x) b)) a.

(** The revocations: whether one was kept, which rows were revoked (in order) and
    the warnings, or the result the pass returns. *)
Fixpoint revokeRows (toRemove : list string) (immutableSet : gset string) (currentByCanonical : gmap string string)
    (requeue : Z) (drift : bool) (revoked kept : list string)
  : RW S ((bool * list string * list string) + roleResult) :=
  match toRemove with
  | [] => mret (inl (drift, revoked, kept))
  | canon :: rest =>
      if bool_decide (canon ∈ immutableSet) then
        revokeRows rest immutableSet currentByCanonical requeue true revoked
          (kept ++ ["cannot revoke immutable privilege " +:+ fmt.q canon])
      else
        let original := match default EmptyString (currentByCanonical !! canon) with EmptyString => canon | o => o end in
        match DerivePrivilegeRevoke original with
        | Err e =>
            revokeRows rest immutableSet currentByCanonical requeue true revoked
              (kept ++ ["cannot derive REVOKE for " +:+ fmt.q original +:+ ": " +:+ e])
        | Ok revoke =>
            e ← sendR revoke (ExecutePrivilegeStatement revoke);
            match e with
            | Some e => res ← fail ("revoke privilege " +:+ fmt.q revoke +:+ " failed") (Some e) requeue; mret (inr res)
            | None => revokeRows rest immutableSet currentByCanonical requeue drift (revoked ++ [canon]) kept
            end
        end
  end.

Definition recordWarnings (reason : string) (warnings : list string) : RW S unit :=
  now ← getsR rw_now;
  warned ← getsR rw_warned;
  let '(mine, events) := recordScoped now (default ∅ (warned !! reason)) warnings in
  modifyR (fun w => set_rw_warned (<[reason := mine]> warned) (set_rw_events (rev (map (fun m => (reason, m)) events) ++ rw_events w) w)).

Definition revokeUnwanted (toRemove : list string) (immutableSet : gset string) (currentByCanonical : gmap string string)
    (requeue : Z) : RW S ((bool * list string) + roleResult) :=
  r ← revokeRows toRemove immutableSet currentByCanonical requeue false [] [];
  match r with
  | inr res => mret (inr res)
  | inl (drift, revoked, kept) => recordWarnings EventReasonPrivilegesDriftKept kept ;; mret (inl (drift, revoked))
  end.

(** ** Databases *)

Definition lowerNames (names : list string) : gset string := list_to_set (map strings.ToLower names).

(** The names a privilege can target, the aliases, and whether those were
    listed. *)
Definition resolvableDatabaseNames : RW S ((gset string * list AliasInfo * bool) + clientError) :=
  databases ← askR GetDatabases;
  match databases with
  | inr e => mret (inr e)
  | inl databases =>
      let known := lowerNames (map db_Name databases) in
      aliases ← askR ShowAliases;
      mret (inl (match aliases with
                 | inl aliases => (known ∪ lowerNames (map al_Name aliases), aliases, true)
                 | inr _ => (known, [], false)
                 end))
  end.

(** Each name once, ignoring case, the first spelling kept. *)
Definition distinctPrivilegeTargets (stmts : list string) (targets : string -> list string) : list string :=
  (fold_left (fun acc name =>
     let '(named, seen) := acc in
     let key := strings.ToLower name in
     if bool_decide (key ∈ seen) then (named, seen) else (named ++ [name], {[key]} ∪ seen))
     (flat_map targets stmts) (([] : list string), (∅ : gset string))).1.

Definition roleDatabaseNames (role : Neo4jRole) : list string :=
  distinctPrivilegeTargets (rolePrivilegeStatements role) PrivilegeDatabaseTargets.

Definition unresolvedDatabaseNames (named : list string) (known : gset string) : list string :=
  List.filter (fun name => negb (bool_decide (strings.ToLower name ∈ known))) named.

Definition compositesAmong (named : list string) (databases : list DatabaseInfo) : list string :=
  let composite := lowerNames (map db_Name (List.filter (fun db => String.eqb (db_Type db) "composite") databases)) in
  List.filter (fun name => bool_decide (strings.ToLower name ∈ composite)) named.

Definition compositeGraphTargets (role : Neo4jRole) : RW S (list string) :=
  let named := distinctPrivilegeTargets (rolePrivilegeStatements role) PrivilegeGraphTargets in
  match named with
  | [] => mret []
  | _ =>
      databases ← askR GetDatabases;
      mret (match databases with inl databases => compositesAmong named databases | inr _ => [] end)
  end.

Definition quoteAndJoin (names : list string) : string :=
  strings.Join (map fmt.q names) ", ".

Definition pluralDo (n : nat) : string := if (n =? 1)%nat then "does" else "do".
Definition pluralIs (n : nat) : string := if (n =? 1)%nat then "is" else "are".

Definition ruleFieldsNaming (role : Neo4jRole) (name : string) : list string :=
  concat (imap (fun i rule =>
    let t := PrivilegeRuleTarget rule in
    if given t && strings.EqualFold t name
    then ["spec.privilegeRules[" +:+ strconv.Itoa (Z.of_nat i) +:+ "]." +:+ PrivilegeRuleTargetField rule] else [])
    (rp_PrivilegeRules (ro_Spec role))).

Definition emDash : string := " " +:+ String "226" (String "128" (String "148" " ")).

Definition unresolvedMessage (role : Neo4jRole) (roleName : string) (unresolved : list string) : string :=
  let fields := flat_map (ruleFieldsNaming role) unresolved in
  "role " +:+ fmt.q roleName +:+ " grants privileges on " +:+ quoteAndJoin unresolved +:+ ", which "
  +:+ pluralDo (length unresolved) +:+ " not exist on this cluster and " +:+ pluralIs (length unresolved)
  +:+ " not an alias for a database that does. Those privileges are not applied" +:+ emDash +:+ "they would grant access to nothing" +:+ emDash +:+ "and the rest of the role is. On a DR cluster this is usually the replica's name: a replica of " +:+ fmt.q "foo" +:+ " is called " +:+ fmt.q "foo-replica" +:+ ", and privileges attach to the database, not to an alias" +:+ emDash +:+ "rewrite the database name in spec.privileges or spec.privilegeRules. If the database is simply not created yet, this clears by itself once it is."
  +:+ match fields with [] => EmptyString | _ => " Named by " +:+ strings.Join fields ", " +:+ "." end.

Definition compositeMessage (roleName : string) (composites : list string) : string :=
  "role " +:+ fmt.q roleName +:+ " grants GRAPH privileges on " +:+ quoteAndJoin composites +:+ ", which "
  +:+ pluralIs (length composites)
  +:+ " composite database(s). Neo4j accepts such a grant and shows it back, but it does nothing: graph privileges attach to a composite's CONSTITUENT target databases, not to the composite. Grant ACCESS on the composite (that part is needed), and grant the graph privileges on each constituent's target database instead.".

Definition reportUnresolvedPrivilegeDatabases (roleName : string) : RW S unit :=
  role ← getsR rw_role;
  match roleDatabaseNames role with
  | [] =>
      setRoleCondition ConditionTypePrivilegesResolve ConditionTrue "NoDatabaseScopedPrivileges"
        "no privilege names a specific database" ;; mret tt
  | named =>
      known ← resolvableDatabaseNames;
      match known with
      | inr _ => mret tt
      | inl (known, _, _) =>
          composites ← compositeGraphTargets role;
          match composites with
          | _ :: _ =>
              let msg := compositeMessage roleName composites in
              changed ← setRoleCondition ConditionTypePrivilegesResolve ConditionFalse ReasonGraphPrivilegeOnComposite msg;
              if (changed : bool) then eventR EventReasonPrivilegeUnknownDatabase msg else mret tt
          | [] =>
              match unresolvedDatabaseNames named known with
              | [] =>
                  setRoleCondition ConditionTypePrivilegesResolve ConditionTrue "AllDatabasesResolve"
                    ("every database named by a privilege exists (" +:+ strings.Join named ", " +:+ ")") ;; mret tt
              | unresolved =>
                  let msg := unresolvedMessage role roleName unresolved in
                  changed ← setRoleCondition ConditionTypePrivilegesResolve ConditionFalse "DatabaseNotFound" msg;
                  if (changed : bool) then eventR EventReasonPrivilegeUnknownDatabase msg else mret tt
              end
          end
      end
  end.

(** ** The end of a pass *)

Definition finishReconcile (roleName : string) (applied revoked unresolved : Z) (drift : bool)
    (syncedStatus syncedReason syncedMsg : string) (requeue : Z) : RW S roleResult :=
  reportUnresolvedPrivilegeDatabases roleName ;;
  final ← fetchCurrentPrivileges roleName;
  match final with
  | inr e => fail "post-apply read failed" (Some e) requeue
  | inl (final, _, _) =>
      setRoleCondition ConditionTypePrivilegesSynced syncedStatus syncedReason syncedMsg ;;
      (if 0 <? applied + revoked then
         eventR EventReasonPrivilegesApplied ("applied " +:+ strconv.Itoa applied +:+ " added / " +:+ strconv.Itoa revoked
           +:+ " revoked privileges")
       else mret tt) ;;
      let n := strconv.Itoa (Z.of_nat (length final)) in
      reportReady roleName
        ("role " +:+ fmt.q roleName +:+ " is in sync (" +:+ n
         +:+ (if 0 <? unresolved
              then " privileges; " +:+ strconv.Itoa unresolved +:+ " skipped until their database exists, see PrivilegesResolve)"
              else " privileges)"))
        final drift unresolved ;;
      mret (Synced requeue)
  end.
End Operations.
