(* ===== verification/RoleLearn.v ===== *)
(** Learn mode of the role controller (src/internal/controller/
    neo4jrole_learn.go, with the alias fingerprint of neo4jrole_normalise.go): how
    Neo4j stored each statement is learned from the operator's own GRANT, kept in
    the status, and decides which rows are revoked. A map from strings to true is
    a set. scopeDigest is SHA-256 cut to 16 digits, a parameter here. *)
From S2P Require Import Prelude GoStrings ClusterTypes Conditions Privileges TargetWait Roles.

Open Scope Z_scope.

(** * What is remembered *)

Record learnedRendering := mkLearned { lr_rows : list string; lr_ambiguous : bool }.

Record learnState := mkLearnState {
  ls_scope : string;
  ls_renderings : gmap string learnedRendering;
  ls_baseline : gset string;
  ls_raw : gmap string string
}.

Definition newLearnState (scope : string) : learnState := mkLearnState scope ∅ ∅ ∅.

Definition set_ls_renderings (v : gmap string learnedRendering) (s : learnState) : learnState :=
  mkLearnState (ls_scope s) v (ls_baseline s) (ls_raw s).
Definition set_ls_baseline (v : gset string) (s : learnState) : learnState :=
  mkLearnState (ls_scope s) (ls_renderings s) v (ls_raw s).
Definition set_ls_raw (v : gmap string string) (s : learnState) : learnState :=
  mkLearnState (ls_scope s) (ls_renderings s) (ls_baseline s) v.

(** [remember], on the map of how rows were shown: the first showing stays. *)
Definition remember (raw : gmap string string) (shown : string) : gmap string string :=
  match canonOf shown with
  | Some canon => match raw !! canon with Some _ => raw | None => <[canon := shown]> raw end
  | None => raw
  end.

(** The canonical forms of rows as shown. *)
Definition canonRows (shown : list string) : list string := omap canonOf shown.

(** [rememberAll]: the rows as a set, and the map. *)
Definition rememberAll (raw : gmap string string) (shown : list string) : gset string * gmap string string :=
  (list_to_set (canonRows shown), fold_left remember shown raw).

Definition shownAs (s : learnState) (canon : string) : string := default canon (ls_raw s !! canon).

Definition sortedKeys (m : gset string) : list string := sort.Strings (elements m).

Definition loadRendering (s : learnState) (r : PrivilegeRendering) : learnState :=
  set_ls_raw (fold_left remember (re_Rows r) (ls_raw s))
    (set_ls_renderings
       (<[re_Statement r := mkLearned (sort.Strings (canonRows (re_Rows r))) (re_Ambiguous r)]> (ls_renderings s)) s).

Definition learnStateFromStatus (st : RoleStatus) : learnState :=
  let s := fold_left loadRendering (rs_PrivilegeRenderings st) (newLearnState (rs_PrivilegeRenderingScope st)) in
  let rows := rs_UnattributedPrivileges st in
  set_ls_raw (fold_left remember rows (ls_raw s)) (set_ls_baseline (list_to_set (canonRows rows)) s).

Fixpoint toRenderings (s : learnState) (seen : gset string) (stmts : list string) : list PrivilegeRendering :=
  match stmts with
  | [] => []
  | stmt :: rest =>
      match ls_renderings s !! stmt with
      | Some lr =>
          if bool_decide (stmt ∈ seen) then toRenderings s seen rest
          else mkRendering stmt (map (shownAs s) (lr_rows lr)) (lr_ambiguous lr) :: toRenderings s ({[stmt]} ∪ seen) rest
      | None => toRenderings s seen rest
      end
  end.

Definition toStatus (s : learnState) (stmts : list string) : list PrivilegeRendering * list string :=
  (toRenderings s ∅ stmts, map (shownAs s) (sortedKeys (ls_baseline s))).

(** * One learning pass *)

Record learnOutcome := mkOutcome {
  lo_state : learnState;
  lo_desired : gmap string string;
  lo_current : gset string;
  lo_added : Z;
  lo_ambiguous : list string;
  lo_unresolved : list string
}.

Definition set_lo_state (v : learnState) (o : learnOutcome) : learnOutcome :=
  mkOutcome v (lo_desired o) (lo_current o) (lo_added o) (lo_ambiguous o) (lo_unresolved o).

Definition setRendering (stmt : string) (lr : learnedRendering) (o : learnOutcome) : learnOutcome :=
  set_lo_state (set_ls_renderings (<[stmt := lr]> (ls_renderings (lo_state o))) (lo_state o)) o.

(** [add], for every row: the first statement to claim one keeps it. *)
Definition claim (rows : list string) (stmt : string) (o : learnOutcome) : learnOutcome :=
  mkOutcome (lo_state o)
    (fold_left (fun m row => match m !! row with Some _ => m | None => <[row := stmt]> m end) rows (lo_desired o))
    (lo_current o) (lo_added o) (lo_ambiguous o) (lo_unresolved o).

Definition addAmbiguous (stmt : string) (o : learnOutcome) : learnOutcome :=
  mkOutcome (lo_state o) (lo_desired o) (lo_current o) (lo_added o) (lo_ambiguous o ++ [stmt]) (lo_unresolved o).

Definition addUnresolved (stmt : string) (o : learnOutcome) : learnOutcome :=
  mkOutcome (lo_state o) (lo_desired o) (lo_current o) (lo_added o) (lo_ambiguous o) (lo_unresolved o ++ [stmt]).

(** The outcome after a grant was read: what it was shown and the rows now. *)
Definition afterGrant (raw : gmap string string) (current : gset string) (added : bool) (o : learnOutcome) : learnOutcome :=
  mkOutcome (set_ls_raw raw (lo_state o)) (lo_desired o) current (lo_added o + if added then 1 else 0)
    (lo_ambiguous o) (lo_unresolved o).

Definition storedFormRows (canon : string) (current : gset string) : list string :=
  if bool_decide (canon ∈ current) then [canon]
  else
    let key := FoldPrivilegeDatabaseNames canon in
    sort.Strings (List.filter (fun row => String.eqb (FoldPrivilegeDatabaseNames row) key) (elements current)).

Definition orphanedRows (prior : learnState) (stmts : list string) : gset string :=
  list_to_set (flat_map (fun '(stmt, lr) => if existsb (String.eqb stmt) stmts then [] else lr_rows lr)
                 (map_to_list (ls_renderings prior))).

Definition subsetOf (rows : list string) (current : gset string) : bool :=
  forallb (fun row => bool_decide (row ∈ current)) rows.

(** What a grant taught: the rows it created, those learned before that are
    still there, or, when there are none, the statement's own text. *)
Definition learnedRows (had : option learnedRendering) (fallback : string) (before after : gset string) : gset string :=
  let rows := after ∖ before in
  let rows := match had with
              | Some p => if lr_ambiguous p then rows
                          else rows ∪ list_to_set (List.filter (fun row => bool_decide (row ∈ after)) (lr_rows p))
              | None => rows
              end in
  if bool_decide (rows = ∅) then list_to_set (storedFormRows fallback after) else rows.

Section Learn.
Context {S : Type} `{!RoleClient S}.
Variable scopeDigest : string -> string.

(** A statement settled without a grant: its rows are known and there. *)
Definition settledRows (had : option learnedRendering) (relearnAll : bool) (fallback : string) (current : gset string)
  : option (learnedRendering) :=
  match had with
  | None => None
  | Some p =>
      if relearnAll then None
      else if lr_ambiguous p then
        match storedFormRows fallback current with
        | [] => Some p
        | rows => Some (mkLearned rows false)
        end
      else if subsetOf (lr_rows p) current then Some p
      else None
  end.

(** One statement of the spec. *)
Definition learnStatement (roleName : string) (resolves : string -> bool) (prior : learnState) (relearnAll : bool)
    (stmt : string) (o : learnOutcome) : RW S (learnOutcome * option clientError) :=
  let fallback := CanonicalisePrivilegeStatement stmt in
  let had := ls_renderings prior !! stmt in
  if negb (resolves stmt) then
    mret (addUnresolved stmt (match had with Some p => setRendering stmt p o | None => o end), None)
  else
    match settledRows had relearnAll fallback (lo_current o) with
    | Some p =>
        let o := setRendering stmt p o in
        mret (if lr_ambiguous p then addAmbiguous stmt o else claim (lr_rows p) stmt o, None)
    | None =>
        r ← sendR stmt (GrantAndReadPrivileges roleName stmt);
        match r with
        | inr e =>
            mret (set_lo_state (set_ls_renderings (ls_renderings (lo_state o) ∪ ls_renderings prior) (lo_state o)) o,
                  Some e)
        | inl (before, after) =>
            let '(b, raw) := rememberAll (ls_raw (lo_state o)) before in
            let '(a, raw) := rememberAll raw after in
            let o := afterGrant raw a (negb (bool_decide (a ∖ b = ∅))) o in
            let rows := learnedRows had fallback b a in
            mret (if bool_decide (rows = ∅) then addAmbiguous stmt (setRendering stmt (mkLearned [] true) o)
                  else claim (sortedKeys rows) stmt (setRendering stmt (mkLearned (sortedKeys rows) false) o), None)
        end
    end.

(** The statements in turn; [seen] those handled before. *)
Fixpoint learnStatements (roleName : string) (resolves : string -> bool) (prior : learnState) (relearnAll : bool)
    (stmts : list string) (seen : gset string) (o : learnOutcome) : RW S (learnOutcome * option (string * clientError)) :=
  match stmts with
  | [] => mret (o, None)
  | stmt :: rest =>
      if String.eqb (CanonicalisePrivilegeStatement stmt) EmptyString || bool_decide (stmt ∈ seen)
      then learnStatements roleName resolves prior relearnAll rest seen o
      else
        r ← learnStatement roleName resolves prior relearnAll stmt o;
        match r with
        | (o, Some e) => mret (o, Some (stmt, e))
        | (o, None) => learnStatements roleName resolves prior relearnAll rest ({[stmt]} ∪ seen) o
        end
  end.

(** While some statement's rows are unknown, a row nobody claims may be one of
    them. *)
Definition keepUnclaimed (prior : learnState) (stmts : list string) (o : learnOutcome) : learnOutcome :=
  match lo_ambiguous o with
  | [] => o
  | _ =>
      set_lo_state (set_ls_baseline (ls_baseline (lo_state o)
        ∪ (lo_current o ∖ dom (lo_desired o) ∖ orphanedRows prior stmts)) (lo_state o)) o
  end.

(** The state a pass starts with, and whether it learns everything again. *)
Definition learnStart (prior : learnState) (scope : string) (current : list string) (forceRelearn : bool)
  : learnOutcome * bool :=
  let digest := if String.eqb scope EmptyString && negb (String.eqb (ls_scope prior) EmptyString)
                then ls_scope prior else scopeDigest scope in
  let '(rows, raw) := rememberAll (ls_raw prior) current in
  let first := String.eqb (ls_scope prior) EmptyString in
  let baseline := if first then rows else ls_baseline prior ∩ rows in
  (mkOutcome (mkLearnState digest ∅ baseline raw) ∅ rows 0 [] [],
   forceRelearn || (negb first && (negb (bool_decide (ls_baseline prior ⊆ rows)) || negb (String.eqb (ls_scope prior) digest)))).

Definition learnDesired (roleName : string) (stmts : list string) (resolves : string -> bool) (prior : learnState)
    (scope : string) (current : list string) (forceRelearn : bool)
  : RW S (learnOutcome * option (string * clientError)) :=
  let '(o, relearnAll) := learnStart prior scope current forceRelearn in
  r ← learnStatements roleName resolves prior relearnAll stmts ∅ o;
  match r with
  | (o, Some e) => mret (o, Some e)
  | (o, None) => mret (keepUnclaimed prior stmts o, None)
  end.

(** * The pass *)

Definition crdOutdated : clientError :=
  mkClientError ("the installed Neo4jRole CRD predates this operator and drops status.privilegeRenderings, which --privilege-normalisation=learn needs; upgrade the CRDs (kubectl apply -f the chart's crds/ directory" +:+ emDash +:+ "helm upgrade does not update CRDs)")
    false false true.

(** [setLearnState]: the write, only if something changed; the value says whether
    it wrote. *)
Definition setLearnState (st : learnState) (stmts : list string) : RW S (option clientError) :=
  let '(renderings, baseline) := toStatus st stmts in
  r ← retryRole roleBackoff (fun latest =>
        let status := ro_Status latest in
        if bool_decide (rs_PrivilegeRenderingScope status = ls_scope st)
           && bool_decide (rs_PrivilegeRenderings status = renderings)
           && bool_decide (rs_UnattributedPrivileges status = baseline)
        then (None, false)
        else (Some (set_ro_Status (setLearned (ls_scope st) renderings baseline status) latest), true));
  prunes ← getsR rw_prunes;
  match r with
  | inr e => mret (Some e)
  | inl wrote =>
      if wrote && prunes && negb (String.eqb (ls_scope st) EmptyString) then mret (Some crdOutdated)
      else
        modifyR (fun w => set_rw_role (set_ro_Status (setLearned (ls_scope st) renderings baseline (ro_Status (rw_role w)))
                                         (rw_role w)) w) ;;
        mret None
  end.

(** [shownRows], of the map from canonical form to the row as shown. *)
Definition shownRows (byCanonical : gmap string string) : list string :=
  sort.Strings (map (fun '(canon, shown) => if String.eqb shown EmptyString then canon else shown) (map_to_list byCanonical)).

Definition aliasesNamedBy (stmt : string) (aliases : list AliasInfo) : list string :=
  flat_map (fun name => flat_map (fun a =>
      if strings.EqualFold (al_Name a) name then
        [if given (al_URL a) then "`" +:+ al_Name a +:+ "` is a remote alias"
         else "`" +:+ al_Name a +:+ "` is an alias for database `" +:+ al_Database a +:+ "`"]
      else []) aliases) (PrivilegeAliasDependence stmt).1.

Definition summarise (items : list string) (max : nat) : string :=
  if (length items <=? max)%nat then quoteAndJoin items
  else quoteAndJoin (take max items) +:+ " and " +:+ strconv.Itoa (Z.of_nat (length items - max)) +:+ " more".

Definition pluralThem (n : nat) : string := if (n =? 1)%nat then "it" else "them".
Definition pluralThey (n : nat) : string := if (n =? 1)%nat then "it" else "they".

Definition unattributedMessage (rows ambiguous : list string) (aliases : list AliasInfo) : string :=
  let first :=
    match rows with
    | [] => EmptyString
    | _ => "learn mode (--privilege-normalisation=learn) cannot attribute " +:+ strconv.Itoa (Z.of_nat (length rows))
           +:+ " privilege row(s) on this role to a spec statement, so it does not revoke them: " +:+ summarise rows 5
           +:+ ". Remove unwanted rows by hand" +:+ emDash +:+ "learn mode re-learns once a row it could not attribute goes away."
    end in
  let through := flat_map (fun stmt => aliasesNamedBy stmt aliases) ambiguous in
  let second :=
    match ambiguous with
    | [] => EmptyString
    | _ =>
        (if given first then " " else EmptyString)
        +:+ "learn mode (--privilege-normalisation=learn) cannot tell which stored rows belong to " +:+ summarise ambiguous 5
        +:+ ": granting " +:+ pluralThem (length ambiguous) +:+ " added no row, because the role already had everything "
        +:+ pluralThey (length ambiguous) +:+ " grants"
        +:+ match through with
            | [] => EmptyString
            | _ => emDash +:+ strings.Join through "; " +:+ ", and Neo4j stores a privilege on an alias as one on its target, which another privilege of the role already grants"
            end
        +:+ ". While that is so, no row the role has and no statement claims is revoked. To clear it, "
        +:+ match through with [] => EmptyString | _ => "grant on the target database instead of the alias, or " end
        +:+ "remove the statement another one already covers."
    end in
  first +:+ second +:+ " Or run the operator with --privilege-normalisation=probe, which attributes every row exactly.".


(** The PrivilegesSynced condition a pass ends with. *)
Definition syncedVerdict (drift : bool) (lo : learnOutcome) (aliases : list AliasInfo) : string * string * string :=
  let unattributed := map (shownAs (lo_state lo))
    (List.filter (fun row => negb (bool_decide (row ∈ dom (lo_desired lo)))) (sortedKeys (ls_baseline (lo_state lo)))) in
  if drift then (ConditionFalse, ConditionReasonPrivilegesDrifted,
                 "some privileges could not be reconciled (e.g. immutable). See events.")
  else match unattributed, lo_ambiguous lo with
       | [], [] => (ConditionTrue, ConditionReasonPrivilegesSynced, "privileges match spec")
       | _, _ => (ConditionUnknown, ConditionReasonPrivilegesUnattributed,
                  unattributedMessage unattributed (lo_ambiguous lo) aliases)
       end.

Definition applyFailed (stmt : string) : string := "apply privilege " +:+ fmt.q stmt +:+ " failed".
Definition persistFailed : string := "persisting learned privilege renderings failed".
Definition fetchFailed : string := "fetch current privileges failed".

(** A learning pass whose outcome is persisted, or the result the caller
    returns. *)
Definition learnAndPersist (roleName : string) (stmts : list string) (resolves : string -> bool) (prior : learnState)
    (scope : string) (current : list string) (forceRelearn : bool) (requeue : Z) : RW S (learnOutcome + roleResult) :=
  r ← learnDesired roleName stmts resolves prior scope current forceRelearn;
  match r with
  | (lo, Some (stmt, e)) =>
      setLearnState (lo_state lo) stmts ;;
      res ← fail (applyFailed stmt) (Some e) requeue; mret (inr res)
  | (lo, None) =>
      e ← setLearnState (lo_state lo) stmts;
      match e with
      | Some e => res ← fail persistFailed (Some e) requeue; mret (inr res)
      | None => mret (inl lo)
      end
  end.

(** First meeting: the rows the role has are recorded before anything is
    granted. *)
Definition meetRole (prior : learnState) (scope : string) (current stmts : list string) (requeue : Z)
  : RW S (learnState + roleResult) :=
  if negb (String.eqb (ls_scope prior) EmptyString) then mret (inl prior)
  else
    let '(rows, raw) := rememberAll ∅ current in
    let first := mkLearnState (scopeDigest scope) ∅ rows raw in
    e ← setLearnState first stmts;
    match e with
    | Some e => res ← fail persistFailed (Some e) requeue; mret (inr res)
    | None => mret (inl first)
    end.

(** The rows nobody wants. *)
Definition unwanted (enforce : bool) (lo : learnOutcome) (now : list string) : list string :=
  if enforce
  then List.filter (fun row => negb (bool_decide (row ∈ dom (lo_desired lo)) || bool_decide (row ∈ ls_baseline (lo_state lo)))) now
  else [].

(** After a revocation of an orphaned row everything is learned again. *)
Definition relearnAfterRevoke (roleName : string) (stmts : list string) (resolves : string -> bool) (prior : learnState)
    (scope : string) (lo : learnOutcome) (revoked : list string) (requeue : Z) : RW S ((learnOutcome * Z) + roleResult) :=
  if negb (existsb (fun row => bool_decide (row ∈ orphanedRows prior stmts)) revoked) then mret (inl (lo, lo_added lo))
  else
    r ← fetchCurrentPrivileges roleName;
    match r with
    | inr e => res ← fail fetchFailed (Some e) requeue; mret (inr res)
    | inl (_, _, after) =>
        r ← learnAndPersist roleName stmts resolves (lo_state lo) scope (shownRows after) true requeue;
        match r with
        | inr res => mret (inr res)
        | inl relearned => mret (inl (relearned, lo_added lo + lo_added relearned))
        end
    end.

Definition reconcileLearned (roleName scope : string) (aliases : list AliasInfo) (resolves : string -> bool) (requeue : Z)
  : RW S roleResult :=
  r ← fetchCurrentPrivileges roleName;
  match r with
  | inr e => fail fetchFailed (Some e) requeue
  | inl (_, _, currentShown) =>
      role ← getsR rw_role;
      let current := shownRows currentShown in
      let stmts := rolePrivilegeStatements role in
      r ← meetRole (learnStateFromStatus (ro_Status role)) scope current stmts requeue;
      match r with
      | inr res => mret res
      | inl prior =>
          r ← learnAndPersist roleName stmts resolves prior scope current false requeue;
          match r with
          | inr res => mret res
          | inl lo =>
              r ← fetchCurrentPrivileges roleName;
              match r with
              | inr e => fail fetchFailed (Some e) requeue
              | inl (now, immutableSet, currentByCanonical) =>
                  r ← revokeUnwanted (unwanted (rp_EnforcePrivileges (ro_Spec role)) lo now) immutableSet
                        currentByCanonical requeue;
                  match r with
                  | inr res => mret res
                  | inl (drift, revoked) =>
                      r ← relearnAfterRevoke roleName stmts resolves prior scope lo revoked requeue;
                      match r with
                      | inr res => mret res
                      | inl (lo, applied) =>
                          let '(status, reason, msg) := syncedVerdict drift lo aliases in
                          finishReconcile roleName applied (Z.of_nat (length revoked)) (Z.of_nat (length (lo_unresolved lo)))
                            drift status reason msg requeue
                      end
                  end
              end
          end
      end
  end.
End Learn.

(** * What a rendering depends on *)

Definition aliasFingerprint (aliases : list AliasInfo) : string :=
  strings.Join (sort.Strings (map (fun a => strings.ToLower (al_Name a) +:+ "=" +:+ strings.ToLower (al_Database a)
    +:+ "@" +:+ al_URL a) aliases)) ",".

Definition roleAliasFingerprint (aliases : list AliasInfo) (stmts : list string) : string :=
  let deps := map PrivilegeAliasDependence stmts in
  if existsb snd deps then aliasFingerprint aliases
  else
    let named := lowerNames (flat_map fst deps) in
    aliasFingerprint (List.filter (fun a => bool_decide (strings.ToLower (al_Name a) ∈ named)) aliases).
