(* ===== verification/RoleSafety.v ===== *)
(** What learn mode does to a role (RoleLearn.v): a statement of the spec never
    loses a row, and nothing but the spec's rows and those the role had at first
    is left, as long as the operator is the only writer and every pass ends; and
    what it costs when it is not, or one does not. Neo4j is described by
    [RoleServer]: what a grant adds, a revocation removes and a read shows. *)
From S2P Require Import Prelude GoStrings ClusterTypes Conditions Privileges TargetWait Roles RoleLearn.

Open Scope Z_scope.

(** * Neo4j's part *)

(** The REVOKE derived from a row as [shown] removes that row. *)
Definition revokesRow {S : Type} `{!RoleClient S} (rows : S -> gset string) (shown : string) : Prop :=
  exists rv, DerivePrivilegeRevoke shown = Ok rv /\
    forall row n n', canonOf shown = Some row -> row ∈ rows n -> ExecutePrivilegeStatement rv n = (None, n') ->
      rows n' = rows n ∖ {[row]}.

(** A state of Neo4j as far as one role goes: [rows] are its privileges in
    canonical form, and [render stmt] those [stmt] is stored as. A GRANT adds its
    statement's rows, and the reads show the rows, none immutable and each with a
    REVOKE that removes it. A row with the text of a statement, the case of
    database names aside, is a row of it. *)
Class RoleServer {S : Type} `{!RoleClient S} (render : string -> gset string) (rows : S -> gset string) : Prop := {
  show_rows : forall role n cmds n', ShowRolePrivileges role n = (inl cmds, n') ->
    (list_to_set (omap (fun c => canonOf (pc_Command c)) cmds) : gset string) = rows n /\
    Forall (fun c => pc_Immutable c = false /\ revokesRow rows (pc_Command c)) cmds;
  grant_rows : forall role stmt n before after n', GrantAndReadPrivileges role stmt n = (inl (before, after), n') ->
    (list_to_set (canonRows before) : gset string) = rows n /\
    (list_to_set (canonRows after) : gset string) = rows n' /\ rows n' = rows n ∪ render stmt;
  own_text : forall n stmt row, row ∈ rows n ->
    FoldPrivilegeDatabaseNames row = FoldPrivilegeDatabaseNames (CanonicalisePrivilegeStatement stmt) -> row ∈ render stmt;
  show_keeps : forall role n, rows (ShowRolePrivileges role n).2 = rows n;
  databases_rows : forall n, rows (GetDatabases n).2 = rows n;
  aliases_rows : forall n, rows (ShowAliases n).2 = rows n
}.

(** * Sets *)

Lemma sortedKeys_elem (m : gset string) x : x ∈ sortedKeys m <-> x ∈ m.
Proof. unfold sortedKeys. by rewrite Strings_elem, elem_of_elements. Qed.

Lemma canonRows_elem shown x : x ∈ canonRows shown <-> exists s, s ∈ shown /\ canonOf s = Some x.
Proof. unfold canonRows. by rewrite list_elem_of_omap. Qed.

Lemma storedForm_elem canon (current : gset string) x :
  x ∈ storedFormRows canon current ->
  x ∈ current /\ FoldPrivilegeDatabaseNames x = FoldPrivilegeDatabaseNames canon.
Proof.
  unfold storedFormRows. destruct (bool_decide _) eqn:E; breflect.
  - rewrite list_elem_of_singleton. by intros ->.
  - rewrite Strings_elem. intros H. apply list_elem_of_In, filter_In in H as [H1 H2]. breflect.
    apply list_elem_of_In in H1. by rewrite elem_of_elements in H1.
Qed.

Lemma subsetOf_spec rows (current : gset string) : subsetOf rows current = true <-> forall x, x ∈ rows -> x ∈ current.
Proof.
  unfold subsetOf. rewrite forallb_forall. split; intros H x Hx.
  - apply list_elem_of_In, H in Hx. by breflect.
  - apply bool_decide_eq_true. by apply H, list_elem_of_In.
Qed.

Lemma orphanedRows_elem prior stmts x :
  x ∈ orphanedRows prior stmts <->
  exists t lr, ls_renderings prior !! t = Some lr /\ t ∉ stmts /\ x ∈ lr_rows lr.
Proof.
  unfold orphanedRows. rewrite elem_of_list_to_set, list_elem_of_In, in_flat_map. split.
  - intros ([t lr] & Hin & Hx). apply list_elem_of_In, elem_of_map_to_list in Hin. exists t, lr.
    destruct (existsb _ _) eqn:E; [done|]. split_and!; [done| |by apply list_elem_of_In].
    intros Ht. apply Bool.not_true_iff_false in E. apply E. apply existsb_exists. exists t.
    split; [by apply list_elem_of_In|apply String.eqb_refl].
  - intros (t & lr & Hl & Ht & Hx). exists (t, lr). split; [by apply list_elem_of_In, elem_of_map_to_list|].
    destruct (existsb _ _) eqn:E; [|by apply list_elem_of_In].
    apply existsb_exists in E as (y & Hy & E). breflect. subst y. by destruct Ht; apply list_elem_of_In.
Qed.

(** [claim] adds its rows to the desired ones. *)
Lemma claim_desired rows stmt o x : x ∈ dom (lo_desired (claim rows stmt o)) <-> x ∈ rows \/ x ∈ dom (lo_desired o).
Proof.
  cbn. generalize (lo_desired o). induction rows as [|r rows IH]; intros m; cbn.
  - rewrite elem_of_nil. tauto.
  - rewrite IH, elem_of_cons. destruct (m !! r) eqn:E; [|rewrite dom_insert; set_solver].
    assert (r ∈ dom m) by (apply elem_of_dom; eauto). set_solver.
Qed.


(** * What the state says *)

Section State.
Variable render : string -> gset string.

(** A row the state accounts for: unattributed, or learned for a statement. *)
Definition recorded (L : learnState) (x : string) : Prop :=
  x ∈ ls_baseline L \/ exists t lr, ls_renderings L !! t = Some lr /\ x ∈ lr_rows lr.

(** How rows were shown is remembered truly, and for every row of the state. *)
Record shownTruly (L : learnState) : Prop := {
  raw_true : forall canon shown, ls_raw L !! canon = Some shown -> canonOf shown = Some canon;
  raw_all : forall x, recorded L x -> is_Some (ls_raw L !! x)
}.

(** What is learned for a statement are rows of it, none while it is ambiguous. *)
Definition soundLearned (L : learnState) : Prop :=
  forall t lr, ls_renderings L !! t = Some lr ->
    CanonicalisePrivilegeStatement t <> EmptyString /\ (forall x, x ∈ lr_rows lr -> x ∈ render t) /\
    (lr_ambiguous lr = true -> lr_rows lr = []).

(** The state of a role with the rows [C] after a pass: sound, every row of a
    learned statement and every row of the role is recorded, and what is learned
    is there. *)
Record learnInv (L : learnState) (C : gset string) : Prop := {
  inv_shown : shownTruly L;
  inv_sound : soundLearned L;
  inv_covered : forall t lr x, ls_renderings L !! t = Some lr -> x ∈ render t -> recorded L x;
  inv_accounted : forall x, x ∈ C -> recorded L x;
  inv_present : forall t lr x, ls_renderings L !! t = Some lr -> x ∈ lr_rows lr -> x ∈ C
}.
End State.

(** ** Remembering *)

Definition rawTrue (raw : gmap string string) : Prop := forall canon shown, raw !! canon = Some shown -> canonOf shown = Some canon.

Lemma remember_true raw shown : rawTrue raw -> rawTrue (remember raw shown).
Proof.
  intros H. unfold remember. destruct (canonOf shown) as [c|] eqn:E; [|done]. destruct (raw !! c); [done|].
  intros canon s Hl. apply lookup_insert_Some in Hl as [[<- <-]|[_ Hl]]; [done|by apply H].
Qed.

Lemma remember_mono raw shown x : is_Some (raw !! x) -> is_Some (remember raw shown !! x).
Proof.
  intros H. unfold remember. destruct (canonOf shown) as [c|]; [|done]. destruct (raw !! c); [done|].
  destruct (decide (c = x)) as [->|Hne]; [rewrite lookup_insert_eq|rewrite lookup_insert_ne by done]; eauto.
Qed.

Lemma remember_self raw shown x : canonOf shown = Some x -> is_Some (remember raw shown !! x).
Proof.
  intros E. unfold remember. rewrite E. destruct (raw !! x) eqn:El; [by rewrite El|]. rewrite lookup_insert_eq. eauto.
Qed.

Lemma remembers_true l raw : rawTrue raw -> rawTrue (fold_left remember l raw).
Proof. revert raw. induction l as [|s l IH]; intros raw H; [done|]. by apply IH, remember_true. Qed.

Lemma remembers_mono l raw x : is_Some (raw !! x) -> is_Some (fold_left remember l raw !! x).
Proof. revert raw. induction l as [|s l IH]; intros raw H; [done|]. by apply IH, remember_mono. Qed.

Lemma remembers_all l raw x : x ∈ canonRows l -> is_Some (fold_left remember l raw !! x).
Proof.
  revert raw. induction l as [|s l IH]; intros raw H; [by apply elem_of_nil in H|].
  apply canonRows_elem in H as (s' & Hs & E). cbn [fold_left]. apply elem_of_cons in Hs as [->|Hs].
  - by apply remembers_mono, remember_self.
  - apply IH. apply canonRows_elem. eauto.
Qed.

(** ** The learned rows *)

Lemma learnedRows_sub had fallback (b a : gset string) x : x ∈ learnedRows had fallback b a -> x ∈ a.
Proof.
  unfold learnedRows. set (rows := match had with Some p => _ | None => _ end).
  assert (Hr : forall y, y ∈ rows -> y ∈ a).
  { subst rows. intros y. destruct had as [p|]; [destruct (lr_ambiguous p)|]; [set_solver| |set_solver].
    rewrite elem_of_union, elem_of_list_to_set. intros [H|H]; [set_solver|].
    apply list_elem_of_In, filter_In in H as [_ H]. by breflect. }
  destruct (bool_decide _); [|by apply Hr]. rewrite elem_of_list_to_set. intros H. by apply storedForm_elem in H as [H _].
Qed.

Lemma learnedRows_new had fallback (b a : gset string) x : x ∈ a -> x ∉ b -> x ∈ learnedRows had fallback b a.
Proof.
  intros Ha Hb. unfold learnedRows. set (rows := match had with Some p => _ | None => _ end).
  assert (Hr : x ∈ rows) by (subst rows; destruct had as [p|]; [destruct (lr_ambiguous p)|]; set_solver).
  destruct (bool_decide _) eqn:E; [|done]. breflect. set_solver.
Qed.

Lemma learnedRows_kept p fallback (b a : gset string) x :
  lr_ambiguous p = false -> x ∈ lr_rows p -> x ∈ a -> x ∈ learnedRows (Some p) fallback b a.
Proof.
  intros Hp Hx Ha. unfold learnedRows. rewrite Hp. set (rows := _ ∪ _).
  assert (Hr : x ∈ rows).
  { subst rows. apply elem_of_union_r. apply elem_of_list_to_set, list_elem_of_In, filter_In.
    split; [by apply list_elem_of_In|]. by apply bool_decide_eq_true. }
  destruct (bool_decide _) eqn:E; [|done]. breflect. set_solver.
Qed.

(** * The learning pass *)

Section Pass.
Context {S : Type} `{!RoleClient S} (render : string -> gset string) (rows : S -> gset string)
  `{!RoleServer render rows}.

Definition serverRows (w : RoleWorld S) : gset string := rows (rw_neo4j w).

Lemma learnedRows_sound stmt had n (b a : gset string) x :
  (forall p, had = Some p -> forall y, y ∈ lr_rows p -> y ∈ render stmt) -> a = rows n -> a = b ∪ render stmt ->
  x ∈ learnedRows had (CanonicalisePrivilegeStatement stmt) b a -> x ∈ render stmt.
Proof.
  intros Hhad Hn Ha Hx. pose proof (learnedRows_sub _ _ _ _ _ Hx) as Hin. unfold learnedRows in Hx.
  destruct (bool_decide _).
  - apply elem_of_list_to_set, storedForm_elem in Hx as [H1 H2]. apply (own_text n); [by rewrite <-Hn|done].
  - assert (Hnew : x ∈ a ∖ b -> x ∈ render stmt) by (rewrite Ha; set_solver).
    destruct had as [p|]; [destruct (lr_ambiguous p)|]; [by auto| |by auto].
    apply elem_of_union in Hx as [Hx|Hx]; [by auto|]. apply elem_of_list_to_set, list_elem_of_In, filter_In in Hx as [Hx _].
    apply (Hhad p eq_refl). by apply list_elem_of_In.
Qed.

(** The outcome while the statements are learned, from the state [prior] and the
    rows [C0]; [seen] are the statements handled. *)
Record learning (prior : learnState) (relearnAll : bool) (C0 : gset string) (seen : gset string)
    (o : learnOutcome) (w : RoleWorld S) : Prop := {
  lg_current : lo_current o = serverRows w;
  lg_grows : C0 ⊆ lo_current o;
  lg_dom : forall t, is_Some (ls_renderings (lo_state o) !! t) <-> t ∈ seen;
  lg_sound : soundLearned render (lo_state o);
  lg_new : forall x, x ∈ lo_current o -> x ∈ C0 \/ x ∈ dom (lo_desired o);
  lg_claimed : forall t lr x, ls_renderings (lo_state o) !! t = Some lr -> x ∈ lr_rows lr -> x ∈ dom (lo_desired o);
  lg_desired : forall x, x ∈ dom (lo_desired o) ->
    x ∈ lo_current o /\ exists t lr, ls_renderings (lo_state o) !! t = Some lr /\ x ∈ lr_rows lr;
  lg_prior : forall t p x, t ∈ seen -> ls_renderings prior !! t = Some p -> x ∈ lr_rows p -> x ∈ lo_current o ->
    x ∈ dom (lo_desired o);
  lg_granted : forall t, t ∈ seen -> render t ⊆ lo_current o \/
    (relearnAll = false /\ exists p, ls_renderings prior !! t = Some p /\ forall x, x ∈ lr_rows p -> x ∈ lo_current o);
  lg_raw : rawTrue (ls_raw (lo_state o));
  lg_raw_current : forall x, x ∈ lo_current o -> is_Some (ls_raw (lo_state o) !! x)
}.


(** One more statement: [o'] is [o] with the rows [lr] learned for [stmt]. *)
Lemma learning_step prior relearnAll C0 seen o w o' w' stmt lr :
  learning prior relearnAll C0 seen o w -> stmt ∉ seen -> CanonicalisePrivilegeStatement stmt <> EmptyString ->
  ls_renderings (lo_state o') = <[stmt := lr]> (ls_renderings (lo_state o)) ->
  (forall x, x ∈ dom (lo_desired o') <-> x ∈ lr_rows lr \/ x ∈ dom (lo_desired o)) ->
  lo_current o' = serverRows w' -> lo_current o ⊆ lo_current o' ->
  (forall x, x ∈ lr_rows lr -> x ∈ render stmt /\ x ∈ lo_current o') -> (lr_ambiguous lr = true -> lr_rows lr = []) ->
  (forall x, x ∈ lo_current o' -> x ∈ lo_current o \/ x ∈ lr_rows lr) ->
  (forall p x, ls_renderings prior !! stmt = Some p -> x ∈ lr_rows p -> x ∈ lo_current o' -> x ∈ lr_rows lr) ->
  (render stmt ⊆ lo_current o' \/
   (relearnAll = false /\ exists p, ls_renderings prior !! stmt = Some p /\ forall x, x ∈ lr_rows p -> x ∈ lo_current o')) ->
  rawTrue (ls_raw (lo_state o')) -> (forall x, x ∈ lo_current o' -> is_Some (ls_raw (lo_state o') !! x)) ->
  learning prior relearnAll C0 ({[stmt]} ∪ seen) o' w'.
Proof.
  intros H Hs Hc Hr Hd Hcur Hsub Hrow Hamb Hnew Hprior Hg Hraw Hrawc.
  split; [done|by pose proof (lg_grows _ _ _ _ _ _ H); set_solver| | | | | | | |done|done].
  - intros t. rewrite Hr, lookup_insert_is_Some, (lg_dom _ _ _ _ _ _ H). destruct (decide (stmt = t)); set_solver.
  - intros t l Hl. rewrite Hr in Hl. apply lookup_insert_Some in Hl as [[<- <-]|[_ Hl]].
    + split_and!; [done|intros x Hx; by apply Hrow|done].
    + by apply (lg_sound _ _ _ _ _ _ H).
  - intros x Hx. rewrite Hd. destruct (Hnew x Hx) as [Hx'|?]; [|tauto].
    destruct (lg_new _ _ _ _ _ _ H x Hx'); tauto.
  - intros t l x Hl Hx. rewrite Hd. rewrite Hr in Hl. apply lookup_insert_Some in Hl as [[<- <-]|[_ Hl]]; [by left|].
    right. by apply (lg_claimed _ _ _ _ _ _ H t l).
  - intros x Hx. rewrite Hd in Hx. rewrite Hr. destruct Hx as [Hx|Hx].
    + split; [by apply Hrow|]. exists stmt, lr. by rewrite lookup_insert_eq.
    + destruct (lg_desired _ _ _ _ _ _ H x Hx) as (H1 & t & l & H2 & H3). split; [set_solver|]. exists t, l.
      rewrite lookup_insert_ne; [done|]. intros ->. apply Hs, (lg_dom _ _ _ _ _ _ H). eauto.
  - intros t p x Ht Hp Hx Hin. rewrite Hd. apply elem_of_union in Ht as [Ht%elem_of_singleton|Ht].
    + subst t. left. by apply (Hprior p).
    + destruct (Hnew x Hin) as [Hin'|?]; [|by left]. right. by apply (lg_prior _ _ _ _ _ _ H t p).
  - intros t Ht. apply elem_of_union in Ht as [Ht%elem_of_singleton|Ht]; [by subst t|].
    destruct (lg_granted _ _ _ _ _ _ H t Ht) as [Hl|(Hf & p & Hp & Hl)]; [left; set_solver|].
    right. split; [done|]. exists p. split; [done|]. set_solver.
Qed.

Lemma settledRows_spec had relearnAll fallback (C : gset string) q :
  (forall p, had = Some p -> lr_ambiguous p = true -> lr_rows p = []) ->
  settledRows had relearnAll fallback C = Some q ->
  relearnAll = false /\ exists p, had = Some p /\ (forall x, x ∈ lr_rows p -> x ∈ lr_rows q /\ x ∈ C) /\
    (forall x, x ∈ lr_rows q -> x ∈ C /\ (x ∈ lr_rows p \/ FoldPrivilegeDatabaseNames x = FoldPrivilegeDatabaseNames fallback)) /\
    (lr_ambiguous q = true -> lr_rows q = []).
Proof.
  intros Hamb. unfold settledRows. destruct had as [p|]; [|done]. destruct relearnAll; [done|]. specialize (Hamb p eq_refl).
  destruct (lr_ambiguous p) eqn:Ea.
  - assert (Hp : forall x, x ∉ lr_rows p) by (intros x Hx; rewrite (Hamb eq_refl) in Hx; by apply elem_of_nil in Hx).
    destruct (storedFormRows fallback C) as [|r l] eqn:Er; intros [= <-]; (split; [done|]); exists p.
    + split_and!; [done|intros x Hx; by destruct (Hp x)..|by auto].
    + split_and!; [done|intros x Hx; by destruct (Hp x)| |done]. intros x Hx. cbn in Hx. rewrite <-Er in Hx.
      apply storedForm_elem in Hx as [H1 H2]. auto.
  - destruct (subsetOf (lr_rows p) C) eqn:Es; [|done]. intros [= <-]. split; [done|]. exists p.
    rewrite subsetOf_spec in Es. split_and!; auto. congruence.
Qed.

Lemma learn_settled prior relearnAll C0 seen stmt o w q :
  learning prior relearnAll C0 seen o w -> stmt ∉ seen -> CanonicalisePrivilegeStatement stmt <> EmptyString ->
  soundLearned render prior ->
  settledRows (ls_renderings prior !! stmt) relearnAll (CanonicalisePrivilegeStatement stmt) (lo_current o) = Some q ->
  learning prior relearnAll C0 ({[stmt]} ∪ seen)
    (if lr_ambiguous q then addAmbiguous stmt (setRendering stmt q o) else claim (lr_rows q) stmt (setRendering stmt q o)) w.
Proof.
  intros H Hs Hc Hprior Eq.
  apply settledRows_spec in Eq as (Hra & p & Hp & Hpq & Hq & Hamb); [|intros p Hp; by apply (Hprior stmt p)].
  assert (Hcur : lo_current o = serverRows w) by apply H.
  apply (learning_step _ _ _ seen o w _ _ stmt q H Hs Hc).
  - by destruct (lr_ambiguous q).
  - intros x. destruct (lr_ambiguous q); [|exact (claim_desired _ stmt (setRendering stmt q o) x)]. rewrite (Hamb eq_refl), elem_of_nil. cbn. tauto.
  - by destruct (lr_ambiguous q).
  - by destruct (lr_ambiguous q).
  - intros x Hx. destruct (Hq x Hx) as [H1 H2]. split; [|by destruct (lr_ambiguous q)].
    destruct H2 as [H2|H2]; [by apply (Hprior stmt p)|]. apply (own_text (rw_neo4j w)); [|done]. by rewrite Hcur in H1.
  - done.
  - intros x Hx. left. by destruct (lr_ambiguous q).
  - intros p' x Hp' Hx _. rewrite Hp in Hp'. injection Hp' as <-. by apply Hpq.
  - right. split; [done|]. exists p. split; [done|]. intros x Hx. destruct (lr_ambiguous q); by apply Hpq.
  - destruct (lr_ambiguous q); apply H.
  - destruct (lr_ambiguous q); apply H.
Qed.

(** The outcome once a grant is read. *)
Definition granted (had : option learnedRendering) (stmt : string) (before after : list string) (o : learnOutcome) : learnOutcome :=
  let '(b, raw) := rememberAll (ls_raw (lo_state o)) before in
  let '(a, raw) := rememberAll raw after in
  let o := afterGrant raw a (negb (bool_decide (a ∖ b = ∅))) o in
  let rows := learnedRows had (CanonicalisePrivilegeStatement stmt) b a in
  if bool_decide (rows = ∅) then addAmbiguous stmt (setRendering stmt (mkLearned [] true) o)
  else claim (sortedKeys rows) stmt (setRendering stmt (mkLearned (sortedKeys rows) false) o).

Lemma learn_granted prior relearnAll C0 seen stmt o w w' before after :
  learning prior relearnAll C0 seen o w -> stmt ∉ seen -> CanonicalisePrivilegeStatement stmt <> EmptyString ->
  soundLearned render prior ->
  list_to_set (canonRows before) = serverRows w -> list_to_set (canonRows after) = serverRows w' ->
  serverRows w' = serverRows w ∪ render stmt ->
  learning prior relearnAll C0 ({[stmt]} ∪ seen) (granted (ls_renderings prior !! stmt) stmt before after o) w'.
Proof.
  intros H Hs Hc Hprior Hb Ha Hw. unfold granted, rememberAll. rewrite Hb, Ha.
  assert (Hcur : lo_current o = serverRows w) by apply H.
  set (raw := fold_left remember after _). set (had := ls_renderings prior !! stmt).
  set (rs := learnedRows had _ _ _).
  assert (Hsound : forall x, x ∈ rs -> x ∈ render stmt /\ x ∈ serverRows w').
  { intros x Hx. split; [|by apply learnedRows_sub in Hx].
    apply (learnedRows_sound stmt had (rw_neo4j w') (serverRows w) (serverRows w')); [|done..].
    intros p Hp y. by apply (Hprior stmt p). }
  assert (Hnew : forall x, x ∈ serverRows w' -> x ∈ serverRows w \/ x ∈ rs).
  { intros x Hx. destruct (decide (x ∈ serverRows w)) as [|Hn]; [by left|]. right. by apply learnedRows_new. }
  assert (Hkeep : forall p x, had = Some p -> x ∈ lr_rows p -> x ∈ serverRows w' -> x ∈ rs).
  { intros p x Hp Hx Hin. destruct (lr_ambiguous p) eqn:Ep.
    - rewrite (proj2 (proj2 (Hprior stmt p Hp)) Ep) in Hx. by apply elem_of_nil in Hx.
    - subst rs. rewrite Hp. by apply learnedRows_kept. }
  set (lr := if bool_decide (rs = ∅) then mkLearned [] true else mkLearned (sortedKeys rs) false).
  assert (Hlr : forall x, x ∈ lr_rows lr <-> x ∈ rs).
  { intros x. subst lr. destruct (bool_decide _) eqn:E; breflect; cbn; [rewrite E|apply sortedKeys_elem].
    rewrite elem_of_nil. set_solver. }
  assert (Hraw : rawTrue raw) by (apply remembers_true, remembers_true, H).
  assert (Hall : forall x, x ∈ serverRows w' -> is_Some (raw !! x)).
  { intros x Hx. apply remembers_all. rewrite <-Ha in Hx. by apply elem_of_list_to_set in Hx. }
  set (o1 := afterGrant raw (serverRows w') _ o).
  set (out := if bool_decide (rs = ∅) then addAmbiguous stmt (setRendering stmt (mkLearned [] true) o1) else _).
  assert (Ho : ls_renderings (lo_state out) = <[stmt := lr]> (ls_renderings (lo_state o)) /\
    lo_current out = serverRows w' /\ ls_raw (lo_state out) = raw)
    by (subst out lr; by destruct (bool_decide (rs = ∅))).
  assert (Hd : forall x, x ∈ dom (lo_desired out) <-> x ∈ lr_rows lr \/ x ∈ dom (lo_desired o)).
  { intros x. subst out lr. destruct (bool_decide (rs = ∅)); [cbn; rewrite elem_of_nil; tauto|].
    exact (claim_desired _ stmt (setRendering stmt (mkLearned (sortedKeys rs) false) o1) x). }
  destruct Ho as (Ho1 & Ho2 & Ho3).
  apply (learning_step _ _ _ seen o w _ _ stmt lr H Hs Hc); rewrite ?Ho2, ?Ho3, ?Hcur; try done.
  - rewrite Hw. set_solver.
  - intros x Hx. by apply Hsound, Hlr.
  - subst lr. by destruct (bool_decide _).
  - intros x Hx. rewrite Hlr. by apply Hnew.
  - intros p x Hp Hx Hin. rewrite Hlr. by apply (Hkeep p).
  - left. rewrite Hw. set_solver.
Qed.

Lemma learnStatement_learning prior relearnAll C0 seen roleName resolves stmt o w o' w' :
  learning prior relearnAll C0 seen o w -> stmt ∉ seen -> CanonicalisePrivilegeStatement stmt <> EmptyString ->
  soundLearned render prior -> resolves stmt = true ->
  learnStatement roleName resolves prior relearnAll stmt o w = ((o', None), w') ->
  learning prior relearnAll C0 ({[stmt]} ∪ seen) o' w'.
Proof.
  intros H Hs Hc Hprior Hres. unfold learnStatement. rewrite Hres. cbn [negb].
  destruct (settledRows _ relearnAll _ (lo_current o)) as [q|] eqn:Eq.
  - intros [= <- <-]. by apply learn_settled.
  - unfold mbind, RW_bind, sendR. destruct (GrantAndReadPrivileges roleName stmt (rw_neo4j w)) as [[[before after]|e] n] eqn:Eg; [|done].
    destruct (grant_rows _ _ _ _ _ _ Eg) as (H1 & H2 & H3).
    intros [= <- <-]. by apply (learn_granted _ _ _ _ _ _ w).
Qed.


(** What a statement leaves alone. *)
Lemma learnStatement_keeps prior relearnAll roleName resolves stmt o w r w' :
  learnStatement roleName resolves prior relearnAll stmt o w = (r, w') ->
  ls_baseline (lo_state r.1) = ls_baseline (lo_state o) /\ ls_scope (lo_state r.1) = ls_scope (lo_state o).
Proof.
  unfold learnStatement. destruct (negb _); [intros [= <- _]; by destruct (ls_renderings prior !! stmt)|].
  destruct (settledRows _ _ _ _) as [q|]; [intros [= <- _]; by destruct (lr_ambiguous q)|].
  unfold mbind, RW_bind, sendR. destruct (GrantAndReadPrivileges _ _ _) as [[[b a]|e] n]; intros [= <- _]; [|done].
  cbn. by destruct (bool_decide _).
Qed.

Lemma learnStatements_learning prior relearnAll C0 roleName resolves stmts seen o w o' w' :
  learning prior relearnAll C0 seen o w -> soundLearned render prior -> (forall t : string, t ∈ stmts -> resolves t = true) ->
  learnStatements roleName resolves prior relearnAll stmts seen o w = ((o', None), w') ->
  (exists seen', learning prior relearnAll C0 seen' o' w' /\
     forall t : string, t ∈ seen' <-> t ∈ seen \/ (t ∈ stmts /\ CanonicalisePrivilegeStatement t <> EmptyString)) /\
  ls_baseline (lo_state o') = ls_baseline (lo_state o) /\ ls_scope (lo_state o') = ls_scope (lo_state o).
Proof.
  intros H Hprior. revert seen o w H. induction stmts as [|stmt stmts IH]; intros seen o w H Hres; cbn [learnStatements].
  - intros [= <- <-]. split; [|done]. exists seen. split; [done|]. intros t. rewrite elem_of_nil. tauto.
  - assert (Hres' : forall t, t ∈ stmts -> resolves t = true) by (intros t Ht; apply Hres; by right).
    destruct (_ || _) eqn:Eskip.
    + intros Hl. destruct (IH seen o w H Hres' Hl) as ((seen' & Hl' & Hs') & Hb). split; [|done]. exists seen'.
      split; [done|]. intros t. rewrite Hs', elem_of_cons. apply orb_true_iff in Eskip as [E|E]; breflect.
      * split; [tauto|]. intros [?|[[->|?] ?]]; [tauto|done|tauto].
      * split; [tauto|]. intros [?|[[->|?] ?]]; tauto.
    + breflect. unfold mbind, RW_bind.
      destruct (learnStatement roleName resolves prior relearnAll stmt o w) as [[o1 [e|]] w1] eqn:E1; [done|].
      pose proof (learnStatement_keeps _ _ _ _ _ _ _ _ _ E1) as [Hb1 Hs1]. cbn in Hb1, Hs1.
      pose proof (learnStatement_learning _ _ _ _ _ _ _ _ _ _ _ H H1 H0 Hprior (Hres stmt ltac:(by left)) E1) as H2.
      intros Hl. destruct (IH _ o1 w1 H2 Hres' Hl) as ((seen' & Hl' & Hs') & Hb & Hsc). split; [|split; congruence].
      exists seen'. split; [done|]. intros t. rewrite Hs', elem_of_union, elem_of_singleton, elem_of_cons.
      split; [|tauto]. intros [[->|?]|[? ?]]; tauto.
Qed.

(** * The outcome of a learning pass *)

(** What a learning pass leaves: [o] from the rows [C0] and the state [prior]. *)
Record learnedAll (prior : learnState) (stmts : list string) (o : learnOutcome) (w : RoleWorld S) : Prop := {
  la_current : lo_current o = serverRows w;
  la_shown : shownTruly (lo_state o);
  la_sound : soundLearned render (lo_state o);
  la_dom : forall t lr, ls_renderings (lo_state o) !! t = Some lr -> t ∈ stmts;
  la_granted : forall t, t ∈ stmts -> CanonicalisePrivilegeStatement t <> EmptyString -> render t ⊆ serverRows w;
  la_accounted : forall x, x ∈ serverRows w ->
    x ∈ dom (lo_desired o) \/ x ∈ ls_baseline (lo_state o) \/ x ∈ orphanedRows prior stmts;
  la_desired : forall x, x ∈ dom (lo_desired o) <->
    exists t lr, ls_renderings (lo_state o) !! t = Some lr /\ x ∈ lr_rows lr;
  la_present : forall x, x ∈ dom (lo_desired o) -> x ∈ serverRows w
}.

(** The end of a learning pass keeps what nobody claims while something is
    ambiguous. *)
Lemma keepUnclaimed_learned prior relearnAll C0 seen stmts o w :
  learning prior relearnAll C0 seen o w -> soundLearned render prior -> ls_baseline (lo_state o) = ls_baseline prior ∩ C0 ->
  (forall x, x ∈ C0 -> recorded prior x) ->
  (forall t : string, t ∈ seen -> t ∈ stmts) ->
  (forall t : string, t ∈ stmts -> CanonicalisePrivilegeStatement t <> EmptyString -> t ∈ seen) ->
  (relearnAll = false -> (ls_baseline prior ⊆ C0 /\
     (forall t lr x, ls_renderings prior !! t = Some lr -> x ∈ render t -> recorded prior x)) /\
     (forall t lr x, ls_renderings prior !! t = Some lr -> x ∈ lr_rows lr -> x ∈ C0)) ->
  learnedAll prior stmts (keepUnclaimed prior stmts o) w.
Proof.
  intros H Hsound Hb Hacc Hs1 Hs2 Hkept. set (o' := keepUnclaimed prior stmts o).
  assert (Hsame : lo_current o' = lo_current o /\ lo_desired o' = lo_desired o /\
    ls_renderings (lo_state o') = ls_renderings (lo_state o) /\ ls_raw (lo_state o') = ls_raw (lo_state o) /\
    ls_baseline (lo_state o) ⊆ ls_baseline (lo_state o') /\ ls_baseline (lo_state o') ⊆ lo_current o).
  { subst o'. unfold keepUnclaimed. pose proof (lg_grows _ _ _ _ _ _ H).
    destruct (lo_ambiguous o); cbn; split_and!; try done; set_solver. }
  destruct Hsame as (E1 & E2 & E3 & E4 & Hb1 & Hb2). pose proof (lg_current _ _ _ _ _ _ H) as Hcur.
  (* a row of a statement that left the spec is an orphan *)
  assert (Hrow : forall t lr x, ls_renderings prior !! t = Some lr -> x ∈ lr_rows lr -> x ∈ lo_current o ->
    x ∈ dom (lo_desired o) \/ x ∈ orphanedRows prior stmts).
  { intros t lr x Hl Hx Hin. destruct (decide (t ∈ stmts)) as [Ht|Ht].
    - left. apply (lg_prior _ _ _ _ _ _ H t lr); [|done..]. apply Hs2; [done|]. by apply (Hsound t lr).
    - right. apply orphanedRows_elem. eauto. }
  split.
  - by rewrite E1.
  - split; rewrite ?E4; [apply H|]. intros x [Hx|(t & lr & Hl & Hx)]; apply (lg_raw_current _ _ _ _ _ _ H); [set_solver|].
    rewrite E3 in Hl. by apply (lg_desired _ _ _ _ _ _ H), (lg_claimed _ _ _ _ _ _ H t lr).
  - intros t lr Hl. rewrite E3 in Hl. by apply (lg_sound _ _ _ _ _ _ H).
  - intros t lr Hl. rewrite E3 in Hl. apply Hs1, (lg_dom _ _ _ _ _ _ H). eauto.
  - intros t Ht Hc. rewrite <-Hcur. pose proof (lg_grows _ _ _ _ _ _ H) as Hg.
    destruct (lg_granted _ _ _ _ _ _ H t (Hs2 t Ht Hc)) as [?|(Hf & p & Hp & _)]; [done|].
    destruct (Hkept Hf) as [[Hbase Hcov] Hpre]. intros x Hx. apply Hg.
    destruct (Hcov t p x Hp Hx) as [Hx'|(t' & p' & Hp' & Hx')]; [set_solver|by apply (Hpre t' p')].
  - intros x Hx. rewrite <-Hcur in Hx. rewrite E2. destruct (lg_new _ _ _ _ _ _ H x Hx) as [Hx0|?]; [|tauto].
    destruct (Hacc x Hx0) as [Hx'|(t & lr & Hl & Hx')]; [right; left; set_solver|].
    destruct (Hrow t lr x Hl Hx' Hx); tauto.
  - intros x. rewrite E2, E3. split; [apply (lg_desired _ _ _ _ _ _ H)|].
    intros (t & lr & Hl & Hx). by apply (lg_claimed _ _ _ _ _ _ H t lr).
  - intros x. rewrite E2, <-Hcur. intros Hx. by apply (lg_desired _ _ _ _ _ _ H).
Qed.

Lemma learnDesired_learned scopeDigest prior stmts scope current force roleName resolves w o w' :
  ls_scope prior <> EmptyString -> rawTrue (ls_raw prior) -> soundLearned render prior ->
  list_to_set (canonRows current) = serverRows w -> (forall x, x ∈ serverRows w -> recorded prior x) ->
  (force = true \/ (forall t lr x, ls_renderings prior !! t = Some lr -> x ∈ render t -> recorded prior x) /\
     (forall t lr x, ls_renderings prior !! t = Some lr -> x ∈ lr_rows lr -> x ∈ serverRows w)) ->
  (forall t : string, t ∈ stmts -> resolves t = true) -> (forall s, scopeDigest s <> EmptyString) ->
  learnDesired scopeDigest roleName stmts resolves prior scope current force w = ((o, None), w') ->
  learnedAll prior stmts o w' /\ ls_scope (lo_state o) <> EmptyString.
Proof.
  intros Hsc Hraw Hsound Hcur Hacc Hforce Hres Hdig. unfold learnDesired, learnStart, rememberAll. rewrite Hcur.
  rewrite (proj2 (String.eqb_neq _ _) Hsc). cbn [negb andb].
  match goal with |- context [mkLearnState ?d _ _ _] => set (digest := d) end.
  assert (Hd : digest <> EmptyString) by (subst digest; by destruct (_ && _)).
  set (raw := fold_left remember current (ls_raw prior)). set (relearnAll := force || _).
  set (o0 := mkOutcome _ _ _ _ _ _). unfold mbind, RW_bind.
  destruct (learnStatements _ _ _ _ _ _ _ _) as [[o1 [e|]] w1] eqn:El; [done|]. intros [= <- <-].
  assert (H0 : learning prior relearnAll (serverRows w) ∅ o0 w).
  { subst o0. split; cbn [lo_current lo_state lo_desired ls_renderings ls_raw].
    - done.
    - done.
    - intros t. rewrite lookup_empty. split; [by intros [? ?]|by intros ?%elem_of_empty].
    - intros t lr Hl. cbn in Hl. by rewrite lookup_empty in Hl.
    - by left.
    - intros t lr x Hl. by rewrite lookup_empty in Hl.
    - intros x Hx. rewrite dom_empty in Hx. by apply elem_of_empty in Hx.
    - by intros t p x ?%elem_of_empty.
    - by intros t ?%elem_of_empty.
    - by apply remembers_true.
    - intros x Hx. apply remembers_all. rewrite <-Hcur in Hx. by apply elem_of_list_to_set in Hx. }
  destruct (learnStatements_learning _ _ _ _ _ _ _ _ _ _ _ H0 Hsound Hres El) as ((seen & H1 & Hseen) & Hb & Hsc1).
  cbn in Hb, Hsc1. split; [|by unfold keepUnclaimed; destruct (lo_ambiguous o1); cbn; rewrite Hsc1].
  apply (keepUnclaimed_learned prior relearnAll (serverRows w) seen); try done.
  - intros t Ht. apply Hseen in Ht as [Ht|Ht]; [set_solver|]. tauto.
  - intros t Ht Hc. apply Hseen. auto.
  - intros Hf. destruct force; [done|]. destruct Hforce as [?|[Hcov Hpre]]; [done|]. split; [|done]. split; [|done].
    subst relearnAll. cbn in Hf. breflect. by destruct (bool_decide (ls_baseline prior ⊆ serverRows w)) eqn:E; breflect.
Qed.

End Pass.

(** * Through the status and back *)

Lemma canonRows_shown L rows :
  rawTrue (ls_raw L) -> (forall x, x ∈ rows -> is_Some (ls_raw L !! x)) -> canonRows (map (shownAs L) rows) = rows.
Proof.
  intros Ht. induction rows as [|x rows IH]; intros Hr; [done|].
  destruct (Hr x (list_elem_of_here _ _)) as [s Hs]. unfold canonRows in *. cbn. unfold shownAs at 1. rewrite Hs. cbn.
  rewrite (Ht _ _ Hs). f_equal. apply IH. intros y Hy. apply Hr. by right.
Qed.

Lemma toRenderings_load L seen stmts s t :
  rawTrue (ls_raw L) -> (forall t lr x, ls_renderings L !! t = Some lr -> x ∈ lr_rows lr -> is_Some (ls_raw L !! x)) ->
  ls_renderings (fold_left loadRendering (toRenderings L seen stmts) s) !! t =
  (if decide (t ∈ stmts /\ t ∉ seen /\ is_Some (ls_renderings L !! t))
   then (fun lr => mkLearned (sort.Strings (lr_rows lr)) (lr_ambiguous lr)) <$> ls_renderings L !! t
   else ls_renderings s !! t).
Proof.
  intros Ht Hr. revert seen s. induction stmts as [|stmt stmts IH]; intros seen s; cbn [toRenderings].
  - destruct (decide _) as [[H _]|_]; [by apply elem_of_nil in H|done].
  - destruct (ls_renderings L !! stmt) as [lr|] eqn:El; [|rewrite IH].
    + destruct (bool_decide (stmt ∈ seen)) eqn:Es; breflect; [rewrite IH|].
      * destruct (decide (t ∈ stmts /\ _)) as [H|H], (decide (t ∈ stmt :: stmts /\ _)) as [H'|H']; try done; exfalso.
        -- apply H'. rewrite elem_of_cons. tauto.
        -- apply H. rewrite elem_of_cons in H'. destruct H' as ([->|?] & ? & ?); tauto.
      * cbn [fold_left]. rewrite IH. cbn [loadRendering ls_renderings set_ls_raw set_ls_renderings re_Statement re_Rows re_Ambiguous].
        rewrite canonRows_shown by (done || intros x Hx; by apply (Hr stmt lr)).
        destruct (decide (stmt = t)) as [<-|Hne].
        -- rewrite lookup_insert_eq, El. rewrite decide_False by set_solver. rewrite decide_True by (split_and!; [by left|done|eauto]).
           done.
        -- rewrite lookup_insert_ne by done.
           destruct (decide (t ∈ stmts /\ _)) as [H|H], (decide (t ∈ stmt :: stmts /\ _)) as [H'|H']; try done; exfalso.
           ++ apply H'. rewrite elem_of_cons. set_solver.
           ++ apply H. rewrite elem_of_cons in H'. set_solver.
    + destruct (decide (t ∈ stmts /\ _)) as [H|H], (decide (t ∈ stmt :: stmts /\ _)) as [H'|H']; try done; exfalso.
      * apply H'. rewrite elem_of_cons. tauto.
      * apply H. rewrite elem_of_cons in H'. destruct H' as ([->|?] & ? & [? ?]); [congruence|]. split_and!; eauto.
Qed.

Lemma load_scope l s : ls_scope (fold_left loadRendering l s) = ls_scope s.
Proof. revert s. induction l as [|r l IH]; intros s; [done|]. cbn. by rewrite IH. Qed.

Lemma load_raw l s :
  ls_raw (fold_left loadRendering l s) = fold_left remember (flat_map re_Rows l) (ls_raw s).
Proof. revert s. induction l as [|r l IH]; intros s; [done|]. cbn. rewrite IH, fold_left_app. done. Qed.

(** Every row a state has learned is among those it writes. *)
Lemma toRenderings_rows L seen stmts t lr x :
  rawTrue (ls_raw L) -> (forall y, y ∈ lr_rows lr -> is_Some (ls_raw L !! y)) -> t ∈ stmts -> t ∉ seen ->
  ls_renderings L !! t = Some lr -> x ∈ lr_rows lr -> x ∈ canonRows (flat_map re_Rows (toRenderings L seen stmts)).
Proof.
  intros Ht Hr Hin Hs Hl Hx. apply canonRows_elem. exists (shownAs L x). split.
  - apply list_elem_of_In, in_flat_map. exists (mkRendering t (map (shownAs L) (lr_rows lr)) (lr_ambiguous lr)).
    split; [|by apply in_map, list_elem_of_In]. revert seen Hin Hs.
    induction stmts as [|stmt stmts IH]; intros seen Hin Hs; [by apply elem_of_nil in Hin|]. cbn [toRenderings].
    apply elem_of_cons in Hin as [<-|Hin].
    + rewrite Hl, bool_decide_eq_false_2 by done. by left.
    + destruct (decide (stmt = t)) as [->|Hne]; [rewrite Hl, bool_decide_eq_false_2 by done; by left|].
      destruct (ls_renderings L !! stmt); [|by apply IH]. destruct (bool_decide _); [by apply IH|].
      right. apply IH; [done|]. set_solver.
  - destruct (Hr x Hx) as [s Hs']. unfold shownAs. rewrite Hs'. by apply Ht.
Qed.

(** The state learned from a status is the state it was written from. *)
Lemma reload L stmts st :
  shownTruly L -> (forall t lr, ls_renderings L !! t = Some lr -> t ∈ stmts) ->
  let '(renderings, baseline) := toStatus L stmts in
  let L' := learnStateFromStatus (setLearned (ls_scope L) renderings baseline st) in
  ls_scope L' = ls_scope L /\ ls_baseline L' = ls_baseline L /\ rawTrue (ls_raw L') /\
  (forall x, recorded L' x -> is_Some (ls_raw L' !! x)) /\
  forall t, ls_renderings L' !! t =
    (fun lr => mkLearned (sort.Strings (lr_rows lr)) (lr_ambiguous lr)) <$> ls_renderings L !! t.
Proof.
  intros [Ht Hall] Hdom. cbn [toStatus]. unfold learnStateFromStatus.
  cbn [setLearned rs_PrivilegeRenderings rs_PrivilegeRenderingScope rs_UnattributedPrivileges].
  assert (Hb : canonRows (map (shownAs L) (sortedKeys (ls_baseline L))) = sortedKeys (ls_baseline L)).
  { apply canonRows_shown; [done|]. intros x Hx. apply sortedKeys_elem in Hx. apply Hall. by left. }
  set (s := fold_left loadRendering _ _).
  assert (Hl : forall t, ls_renderings s !! t =
    (fun lr => mkLearned (sort.Strings (lr_rows lr)) (lr_ambiguous lr)) <$> ls_renderings L !! t).
  { intros t. subst s. rewrite toRenderings_load; [|done|intros t' lr x Hl Hx; apply Hall; right; eauto].
    destruct (ls_renderings L !! t) as [lr|] eqn:El.
    - rewrite decide_True; [done|]. split_and!; [by apply (Hdom t lr)|by apply not_elem_of_empty|eauto].
    - rewrite decide_False; [done|]. intros (_ & _ & [? ?]). congruence. }
  split_and!.
  - change (ls_scope s = ls_scope L). subst s. by rewrite load_scope.
  - cbn. rewrite Hb. apply set_eq. intros x. by rewrite elem_of_list_to_set, sortedKeys_elem.
  - apply remembers_true. subst s. rewrite load_raw. apply remembers_true. intros ? ? H. cbn in H. by rewrite lookup_empty in H.
  - cbn. intros x [Hx|(t & lr & Hlr & Hx)].
    + apply remembers_all. cbn in Hx. by apply elem_of_list_to_set in Hx.
    + apply remembers_mono. change (ls_renderings s !! t = Some lr) in Hlr. rewrite Hl in Hlr. apply fmap_Some in Hlr as (lr0 & Hl0 & ->).
      cbn in Hx. rewrite Strings_elem in Hx. subst s. rewrite load_raw. apply remembers_all, (toRenderings_rows L ∅ stmts t lr0); [done| |by apply (Hdom t lr0)|by apply not_elem_of_empty|done|done].
      intros y Hy. apply Hall. right. eauto.
  - exact Hl.
Qed.
