(* ===== verification/RolePass.v ===== *)
(** The steps of a pass of learn mode (reconcileLearned, RoleLearn.v): what most of
    it leaves alone ([leaves]), and what each step does to the role's privileges
    and to the learned state in its status, up to the reports a pass in sync ends
    with. *)
From S2P Require Import Prelude GoStrings ClusterTypes Conditions Privileges TargetWait Roles RoleLearn RoleSafety.

Open Scope Z_scope.

(** * What most of a pass leaves alone *)

(** The fields of the status learn mode keeps its state in. *)
Definition learnFields (r : Neo4jRole) : string * list PrivilegeRendering * list string :=
  let st := ro_Status r in (rs_PrivilegeRenderingScope st, rs_PrivilegeRenderings st, rs_UnattributedPrivileges st).

(** No read of the role is stale. *)
Definition freshRead (a : roleAttempt) : Prop := match a with RoleConflicts _ => False | _ => True end.

Lemma Forall_suffix {A} (P : A -> Prop) l l' : l' `suffix_of` l -> Forall P l -> Forall P l'.
Proof. intros [k ->]. rewrite Forall_app. by intros [_ H]. Qed.

Section Frame.
Context {S : Type} `{!RoleClient S} (render : string -> gset string) (rows : S -> gset string)
  `{!RoleServer render rows}.

Abbreviation serverRows := (serverRows rows).

(** [w'] after [w]: the same privileges and the same learned state in store. *)
Record after (w w' : RoleWorld S) : Prop := {
  after_rows : serverRows w' = serverRows w;
  after_fields : rw_prunes w = false -> learnFields (rw_stored w') = learnFields (rw_stored w);
  after_prunes : rw_prunes w' = rw_prunes w;
  after_attempts : rw_attempts w' `suffix_of` rw_attempts w;
  after_sent : rw_sent w' = rw_sent w;
  after_now : rw_now w' = rw_now w
}.

#[global] Instance after_preorder : PreOrder after.
Proof.
  split; [by intros w|]. intros w1 w2 w3 [H1 H2 H3 H4 H5 H6] [K1 K2 K3 K4 K5 K6]. split; [congruence| |congruence|by transitivity (rw_attempts w2)|congruence..].
  intros H. rewrite K2, H2 by congruence. done.
Qed.

Definition leaves {A} (m : RW S A) : Prop := forall w r w', m w = (r, w') -> after w w'.

Lemma leaves_ret {A} (a : A) : leaves (mret a).
Proof. by intros w r w' [= _ <-]. Qed.

Lemma leaves_bind {A B} (m : RW S A) (f : A -> RW S B) : leaves m -> (forall a, leaves (f a)) -> leaves (m ≫= f).
Proof.
  intros Hm Hf w r w'. unfold mbind, RW_bind. destruct (m w) as [a w1] eqn:E. intros H.
  transitivity w1; [by apply (Hm w a)|by apply (Hf a w1 r)].
Qed.

Lemma leaves_gets {A} (f : RoleWorld S -> A) : leaves (getsR f).
Proof. by intros w r w' [= _ <-]. Qed.

Lemma leaves_modify f : (forall w, after w (f w)) -> leaves (modifyR f).
Proof. by intros H w r w' [= _ <-]. Qed.

Lemma leaves_ask {A} (call : S -> A * S) : (forall n, rows (call n).2 = rows n) -> leaves (askR call).
Proof.
  intros H w r w'. unfold askR. specialize (H (rw_neo4j w)). destruct (call _) as [a n]. intros [= _ <-]. by split.
Qed.

Lemma leaves_event reason message : leaves (eventR reason message).
Proof. by apply leaves_modify. Qed.

(** A body that keeps the learned state. *)
Definition keepsFields {A} (f : Neo4jRole -> option Neo4jRole * A) : Prop :=
  forall r r' v, f r = (Some r', v) -> learnFields r' = learnFields r.

Lemma nextRoleAttempt_after w a w' :
  nextRoleAttempt w = (a, w') -> after w w' /\ rw_stored w' = rw_stored w /\
  (Forall freshRead (rw_attempts w) -> freshRead a).
Proof.
  unfold nextRoleAttempt. destruct (rw_attempts w) as [|x l] eqn:E; intros [= <- <-]; split_and!; try done.
  - split; try done. cbn. rewrite E. by exists [x].
  - by inversion 1.
Qed.

Lemma leaves_retry {A} n (f : Neo4jRole -> option Neo4jRole * A) : keepsFields f -> leaves (retryRole n f).
Proof.
  intros Hf. induction n as [|n IH]; intros w r w'; cbn [retryRole]; [by intros [= _ <-]|].
  destruct (nextRoleAttempt w) as [a w1] eqn:E. destruct (nextRoleAttempt_after _ _ _ E) as (Ha & Hs & _).
  destruct a as [|e|e|seen]; [|by intros [= _ <-]| |].
  - destruct (f (rw_stored w1)) as [[r'|] v] eqn:Ef; intros [= _ <-]; [|done]. transitivity w1; [done|].
    split; [done| |done..]. intros Hp. cbn. unfold kept. rewrite Hp. by apply (Hf _ _ _ Ef).
  - by destruct (f (rw_stored w1)) as [[r'|] v] eqn:Ef; intros [= _ <-].
  - destruct (f seen) as [[r'|] v]; intros H; [|by injection H as _ <-]. transitivity w1; [done|by apply (IH w1 r)].
Qed.
End Frame.

Create HintDb leaves.
#[export] Hint Resolve leaves_ret leaves_gets leaves_event : leaves.

(** Take a handler apart at its binds and branches. *)
Ltac leave :=
  repeat match goal with
    | |- leaves _ (_ ≫= _) => apply leaves_bind; [|intros ?]
    | |- leaves _ (let '(_, _) := ?x in _) => destruct x
    | |- leaves _ (if ?b then _ else _) => destruct b
    | |- leaves _ (match ?x with _ => _ end) => destruct x
    | |- leaves _ (retryRole _ _) => apply leaves_retry
    | |- leaves _ (modifyR _) => apply leaves_modify; by intros ?
    | _ => solve [eauto with leaves]
    end.

Section Frames.
Context {S : Type} `{!RoleClient S} (render : string -> gset string) (rows : S -> gset string)
  `{!RoleServer render rows}.

Abbreviation leaves := (leaves rows).

Lemma leaves_setRoleStatus phase status reason message applied drift :
  leaves (setRoleStatus phase status reason message applied drift).
Proof.
  unfold setRoleStatus, writeRoleStatus. leave. intros r r' v. unfold roleStatusBody.
  destruct (SetReadyCondition _ _ _ _ _ _) as [cs ready]. by intros [= <- _].
Qed.

Lemma leaves_setRoleCondition ty status reason message : leaves (setRoleCondition ty status reason message).
Proof. unfold setRoleCondition. leave. intros r r' v. destruct (SetNamedCondition _ _ _ _ _ _ _). by intros [= <- _]. Qed.

Lemma leaves_reportReady roleName readyMsg final drift waiting : leaves (reportReady roleName readyMsg final drift waiting).
Proof. unfold reportReady, writeReady. leave. intros r r' v. unfold readyBody. by intros [= <- _]. Qed.

Lemma leaves_waitForTarget reason msg : leaves (waitForTarget reason msg).
Proof.
  unfold waitForTarget. leave. intros r r' v. destruct (recordTargetWait _ _ _ _ _ _ _) as [[[cs phase] message] lasting].
  destruct (decide _); [done|]. by intros [= <- _].
Qed.

#[local] Hint Resolve leaves_setRoleStatus leaves_setRoleCondition leaves_reportReady leaves_waitForTarget : leaves.

Lemma leaves_fail label err requeue : leaves (fail label err requeue).
Proof. unfold fail, unreachable. leave. Qed.

Lemma leaves_recordWarnings reason warnings : leaves (recordWarnings reason warnings).
Proof. unfold recordWarnings. leave. Qed.

Lemma leaves_fetch roleName : leaves (fetchCurrentPrivileges roleName).
Proof. unfold fetchCurrentPrivileges. leave. apply leaves_ask, show_keeps. Qed.

Lemma leaves_reportUnresolved roleName : leaves (reportUnresolvedPrivilegeDatabases roleName).
Proof.
  unfold reportUnresolvedPrivilegeDatabases, resolvableDatabaseNames, compositeGraphTargets.
  leave; apply leaves_ask; apply databases_rows || apply aliases_rows.
Qed.

#[local] Hint Resolve leaves_fail leaves_fetch leaves_reportUnresolved : leaves.

Lemma leaves_finish roleName applied revoked unresolved drift status reason msg requeue :
  leaves (finishReconcile roleName applied revoked unresolved drift status reason msg requeue).
Proof. unfold finishReconcile. leave. Qed.
End Frames.

(** * The steps of a pass *)

Section Steps.
Context {S : Type} `{!RoleClient S} (render : string -> gset string) (rows : S -> gset string)
  `{!RoleServer render rows}.

Abbreviation serverRows := (serverRows rows).
Abbreviation after := (after rows).

(** A failure is never reported as in sync. *)
Definition neverSynced (m : RW S roleResult) : Prop := forall w k w', m w <> (Synced k, w').

Lemma neverSynced_bind {A} (m : RW S A) f : (forall a, neverSynced (f a)) -> neverSynced (m ≫= f).
Proof. intros H w k w'. unfold mbind, RW_bind. destruct (m w) as [a w1]. apply H. Qed.

Lemma fail_not_synced label err requeue : neverSynced (fail label err requeue).
Proof.
  unfold fail, unreachable. destruct err as [e|]; [destruct (e_unreachable e)|];
    repeat match goal with
      | |- neverSynced (_ ≫= _) => apply neverSynced_bind; intros ?
      | |- neverSynced (let '(_, _) := ?x in _) => destruct x
      | |- neverSynced (if ?b then _ else _) => destruct b
      end; intros w k w'; cbn; try destruct (e_permanent e); discriminate.
Qed.

(** Rows as shown, by canonical form, each with a REVOKE. *)
Definition shownRevocable (byCanonical : gmap string string) : Prop :=
  forall canon shown, byCanonical !! canon = Some shown ->
    canonOf shown = Some canon /\ revokesRow rows shown.

Definition revocable (c : PrivilegeCommand) : Prop :=
  pc_Immutable c = false /\ revokesRow rows (pc_Command c).

Lemma readFold cmds (m : gmap string string) :
  Forall revocable cmds -> shownRevocable m ->
  let m' := fold_left (fun (m : gmap string string) row => match canonOf (pc_Command row) with
              | Some canon => <[canon := pc_Command row]> m | None => m end) cmds m in
  dom m' = list_to_set (omap (fun c => canonOf (pc_Command c)) cmds) ∪ dom m /\ shownRevocable m'.
Proof.
  intros Hall. revert m. induction Hall as [|c cmds [_ Hc] _ IH]; intros m Hm; cbn; [split; [by rewrite (left_id_L ∅ (∪))|done]|].
  destruct (canonOf (pc_Command c)) as [x|] eqn:Ex; [|by apply IH].
  destruct (IH (<[x := pc_Command c]> m)) as [H1 H2].
  - intros canon shown Hl. apply lookup_insert_Some in Hl as [[<- <-]|[_ Hl]]; [done|by apply Hm].
  - split; [|done]. rewrite H1, dom_insert_L. cbn. by rewrite (assoc_L (∪)), (comm_L (∪) _ {[x]}).
Qed.

Lemma readPrivileges_spec cmds :
  Forall revocable cmds ->
  let '(now, immutable, byCanonical) := readPrivileges cmds in
  (forall x, x ∈ now <-> x ∈ dom byCanonical) /\ NoDup now /\ immutable = ∅ /\
  dom byCanonical = list_to_set (omap (fun c => canonOf (pc_Command c)) cmds) /\ shownRevocable byCanonical.
Proof.
  intros Hall. unfold readPrivileges.
  assert (Himm : forall s : gset string, fold_left (fun s row => match canonOf (pc_Command row) with
    | Some canon => if pc_Immutable row then {[canon]} ∪ s else s | None => s end) cmds s = s).
  { induction Hall as [|c cmds [Hc _] _ IH]; intros s; [done|]. cbn [fold_left]. rewrite Hc, IH. by destruct (canonOf _). }
  destruct (readFold cmds ∅ Hall) as [H1 H2]; [intros ? ? Hl; by rewrite lookup_empty in Hl|].
  rewrite dom_empty_L, (right_id_L ∅ (∪)) in H1. split_and!; try done.
  - intros x. by rewrite Strings_elem, elem_of_elements.
  - rewrite (Strings_perm _). apply NoDup_elements.
Qed.

Lemma fetch_spec roleName w now immutable byCanonical w' :
  fetchCurrentPrivileges roleName w = (inl (now, immutable, byCanonical), w') ->
  after w w' /\ rw_stored w' = rw_stored w /\ rw_role w' = rw_role w /\ (forall x, x ∈ now <-> x ∈ serverRows w') /\ NoDup now /\
  immutable = ∅ /\ dom byCanonical = serverRows w' /\ shownRevocable byCanonical.
Proof.
  intros H. pose proof (leaves_fetch render rows roleName _ _ _ H) as Ha. split; [done|]. revert H.
  unfold fetchCurrentPrivileges, mbind, RW_bind, askR.
  destruct (ShowRolePrivileges roleName (rw_neo4j w)) as [[cmds|e] n] eqn:E; [|done].
  destruct (show_rows _ _ _ _ E) as [H1 H2]. pose proof (readPrivileges_spec cmds H2) as Hr.
  destruct (readPrivileges cmds) as [[now' imm'] byC']. intros [= <- <- <- <-].
  destruct Hr as (R1 & R2 & R3 & R4 & R5). rewrite (after_rows _ _ _ Ha). rewrite H1 in R4. fold (serverRows w) in R4.
  rewrite R4 in R1. done.
Qed.

Lemma shownRows_spec byCanonical :
  shownRevocable byCanonical -> (list_to_set (canonRows (shownRows byCanonical)) : gset string) = dom byCanonical.
Proof.
  intros H. apply set_eq. intros x. rewrite elem_of_list_to_set, canonRows_elem, elem_of_dom. unfold shownRows.
  assert (Hne : forall canon shown, byCanonical !! canon = Some shown -> (String.eqb shown EmptyString) = false).
  { intros canon shown Hl. apply String.eqb_neq. intros ->. by apply H in Hl as [? _]. }
  split.
  - intros (s & Hs & Hc). rewrite Strings_elem, list_elem_of_fmap in Hs. destruct Hs as ([canon shown] & -> & Hin).
    apply elem_of_map_to_list in Hin. rewrite (Hne _ _ Hin) in Hc. destruct (H _ _ Hin) as [E _].
    rewrite E in Hc. injection Hc as ->. eauto.
  - intros [shown Hl]. exists shown. split; [|by apply H]. rewrite Strings_elem. apply list_elem_of_fmap.
    exists (x, shown). rewrite (Hne _ _ Hl). split; [done|by apply elem_of_map_to_list].
Qed.

(** ** The learned state in store *)

Definition stores (w : RoleWorld S) (L : learnState) (stmts : list string) : Prop :=
  learnFields (rw_stored w) = (ls_scope L, (toStatus L stmts).1, (toStatus L stmts).2).

Lemma setLearnState_stores L stmts w w' :
  Forall freshRead (rw_attempts w) -> rw_prunes w = false -> setLearnState L stmts w = (None, w') ->
  stores w' L stmts /\ serverRows w' = serverRows w /\ rw_prunes w' = false /\ rw_attempts w' `suffix_of` rw_attempts w.
Proof.
  intros Hf Hp. unfold setLearnState, stores. destruct (toStatus L stmts) as [renderings baseline].
  unfold mbind, RW_bind. set (f := fun latest : Neo4jRole => _).
  destruct (retryRole roleBackoff f w) as [r w1] eqn:Er. unfold getsR, modifyR, mret, RW_ret. destruct r as [wrote|e]; [|done].
  destruct (wrote && _ && _); [done|]. intros [= <-]. revert Er. unfold roleBackoff. cbn [retryRole].
  destruct (nextRoleAttempt w) as [a w2] eqn:E. destruct (nextRoleAttempt_after rows _ _ _ E) as (Ha & _ & Hfr).
  specialize (Hfr Hf). pose proof (after_prunes _ _ _ Ha) as Hp2. rewrite Hp in Hp2.
  pose proof (after_attempts _ _ _ Ha) as Hf2. pose proof (after_rows _ _ _ Ha) as Hr2.
  (* nothing to write, or written *)
  assert (Hnone : forall v, f (rw_stored w2) = (None, v) -> learnFields (rw_stored w2) = (ls_scope L, renderings, baseline)).
  { intros v. subst f. cbn. destruct (_ && _) eqn:Eb; [|done]. intros _. breflect. unfold learnFields. congruence. }
  destruct a as [|e|e|seen]; [|done| |done].
  - destruct (f (rw_stored w2)) as [[r'|] v] eqn:Ef; intros [= _ <-]; [|by eauto].
    split_and!; try done. cbn. rewrite Hp2. cbn. revert Ef. subst f. cbn. destruct (_ && _); [done|]. by intros [= <- _].
  - destruct (f (rw_stored w2)) as [[r'|] v] eqn:Ef; intros [= _ <-]. by eauto.
Qed.

(** The learning itself writes only to Neo4j. *)
Lemma learnStatement_world prior relearnAll roleName resolves stmt o w r w' :
  learnStatement roleName resolves prior relearnAll stmt o w = (r, w') ->
  rw_stored w' = rw_stored w /\ rw_role w' = rw_role w /\ rw_attempts w' = rw_attempts w /\ rw_prunes w' = rw_prunes w.
Proof.
  unfold learnStatement. destruct (negb _); [by intros [= _ <-]|]. destruct (settledRows _ _ _ _); [by intros [= _ <-]|].
  unfold mbind, RW_bind, sendR. destruct (GrantAndReadPrivileges _ _ _) as [[[b a]|e] n]; by intros [= _ <-].
Qed.

Lemma learnStatements_world prior relearnAll roleName resolves stmts seen o w r w' :
  learnStatements roleName resolves prior relearnAll stmts seen o w = (r, w') ->
  rw_stored w' = rw_stored w /\ rw_role w' = rw_role w /\ rw_attempts w' = rw_attempts w /\ rw_prunes w' = rw_prunes w.
Proof.
  revert seen o w. induction stmts as [|stmt stmts IH]; intros seen o w; cbn [learnStatements]; [by intros [= _ <-]|].
  destruct (_ || _); [apply IH|]. unfold mbind, RW_bind.
  destruct (learnStatement roleName resolves prior relearnAll stmt o w) as [[o1 [e|]] w1] eqn:E1.
  - intros [= _ <-]. by apply learnStatement_world in E1.
  - intros H. apply IH in H as (H1 & H2 & H3 & H4). apply learnStatement_world in E1 as (K1 & K2 & K3 & K4).
    split_and!; congruence.
Qed.

Lemma learnDesired_world scopeDigest roleName stmts resolves prior scope current force w r w' :
  learnDesired scopeDigest roleName stmts resolves prior scope current force w = (r, w') ->
  rw_stored w' = rw_stored w /\ rw_role w' = rw_role w /\ rw_attempts w' = rw_attempts w /\ rw_prunes w' = rw_prunes w.
Proof.
  unfold learnDesired. destruct (learnStart _ _ _ _ _) as [o relearnAll]. unfold mbind, RW_bind.
  destruct (learnStatements _ _ _ _ _ _ _ _) as [[o1 [e|]] w1] eqn:E; intros [= _ <-]; by apply learnStatements_world in E.
Qed.

(** What a learning pass needs of the state it starts from: rows truly shown and
    soundly attributed, every row of the role recorded and, unless everything is
    learned again, every learned row there and every row of a learned statement
    recorded. *)
Record learnable (prior : learnState) (force : bool) (C : gset string) : Prop := {
  lb_scope : ls_scope prior <> EmptyString;
  lb_raw : rawTrue (ls_raw prior);
  lb_sound : soundLearned render prior;
  lb_recorded : forall x, x ∈ C -> recorded prior x;
  lb_known : force = true \/ (forall t lr x, ls_renderings prior !! t = Some lr -> x ∈ render t -> recorded prior x) /\
     (forall t lr x, ls_renderings prior !! t = Some lr -> x ∈ lr_rows lr -> x ∈ C)
}.

(** What it leaves. *)
Record persisted (prior : learnState) (stmts : list string) (lo : learnOutcome) (w : RoleWorld S) : Prop := {
  pe_learned : learnedAll render rows prior stmts lo w;
  pe_scope : ls_scope (lo_state lo) <> EmptyString;
  pe_stored : stores w (lo_state lo) stmts;
  pe_prunes : rw_prunes w = false
}.

Lemma learnedAll_world prior stmts lo w w' :
  learnedAll render rows prior stmts lo w -> serverRows w' = serverRows w -> learnedAll render rows prior stmts lo w'.
Proof. intros [H1 H2 H3 H4 H5 H6 H7 H8] E. split; rewrite ?E; done. Qed.

Lemma learnAndPersist_spec scopeDigest roleName stmts resolves prior scope current force requeue w lo w' :
  (forall s, scopeDigest s <> EmptyString) -> (forall t : string, t ∈ stmts -> resolves t = true) ->
  Forall freshRead (rw_attempts w) -> rw_prunes w = false ->
  list_to_set (canonRows current) = serverRows w -> learnable prior force (serverRows w) ->
  learnAndPersist scopeDigest roleName stmts resolves prior scope current force requeue w = (inl lo, w') ->
  persisted prior stmts lo w' /\ rw_attempts w' `suffix_of` rw_attempts w.
Proof.
  intros Hdig Hres Hf Hp Hcur [H1 H2 H3 H4 H5]. unfold learnAndPersist, mbind, RW_bind.
  destruct (learnDesired _ _ _ _ _ _ _ _ w) as [[lo1 [[stmt e]|]] w1] eqn:El.
  { destruct (setLearnState _ _ _) as [? w2]. by destruct (fail _ _ _ _). }
  destruct (learnDesired_world _ _ _ _ _ _ _ _ _ _ _ El) as (_ & _ & Ea & Ep).
  destruct (setLearnState (lo_state lo1) stmts w1) as [[e|] w2] eqn:Es; [by destruct (fail _ _ _ _)|]. intros [= <- <-].
  destruct (learnDesired_learned render rows _ _ _ _ _ _ _ _ _ _ _ H1 H2 H3 Hcur H4 H5 Hres Hdig El) as [Hl Hs].
  apply setLearnState_stores in Es as (K1 & K2 & K3 & K4); [|congruence..].
  rewrite Ea in K4. split; [|done]. split; try done. by apply (learnedAll_world _ _ _ w1).
Qed.

(** ** Revoking *)

Lemma revokeRows_spec toRemove byCanonical requeue drift revoked kept w r w' :
  shownRevocable byCanonical -> NoDup toRemove -> (forall x, x ∈ toRemove -> x ∈ dom byCanonical /\ x ∈ serverRows w) ->
  revokeRows toRemove ∅ byCanonical requeue drift revoked kept w = (inl r, w') ->
  r = (drift, revoked ++ toRemove, kept) /\ serverRows w' = serverRows w ∖ list_to_set toRemove /\
  rw_stored w' = rw_stored w /\ rw_role w' = rw_role w /\ rw_attempts w' = rw_attempts w /\ rw_prunes w' = rw_prunes w.
Proof.
  intros Hm. revert revoked w. induction toRemove as [|canon rest IH]; intros revoked w Hnd Hin; cbn [revokeRows].
  - intros [= <- <-]. rewrite app_nil_r. split_and!; try done. cbn. by rewrite difference_empty_L.
  - destruct (Hin canon ltac:(by left)) as [[shown Hl]%elem_of_dom Hrow]. destruct (Hm _ _ Hl) as [Hc (rv & Hrv & Hrm)].
    rewrite bool_decide_eq_false_2 by apply not_elem_of_empty. rewrite Hl. unfold default, id.
    destruct shown as [|a s]; [done|]. rewrite Hrv. unfold mbind, RW_bind, sendR.
    destruct (ExecutePrivilegeStatement rv (rw_neo4j w)) as [[e|] n] eqn:Ex; [by destruct (fail _ _ _ _)|].
    pose proof (Hrm _ (rw_neo4j w) _ Hc Hrow Ex) as Hn. intros H.
    apply IH in H as (-> & H2 & H3 & H4 & H5 & H6); [|by inversion Hnd|].
    + rewrite <-app_assoc. split_and!; try done. rewrite H2. unfold RoleSafety.serverRows at 1. cbn. rewrite Hn.
      change (rows (rw_neo4j w)) with (serverRows w). by rewrite difference_difference_l_L.
    + intros x Hx. split; [apply Hin; by right|]. unfold RoleSafety.serverRows. cbn. rewrite Hn. apply elem_of_difference.
      split; [apply Hin; by right|]. rewrite elem_of_singleton. intros ->. by inversion Hnd.
Qed.

(** ** The whole pass *)

(** A state and what is read back of it agree. *)
Lemma learnInv_reload L L' C :
  learnInv render L C -> ls_baseline L' = ls_baseline L -> shownTruly L' ->
  (forall t, ls_renderings L' !! t = (fun lr => mkLearned (sort.Strings (lr_rows lr)) (lr_ambiguous lr)) <$> ls_renderings L !! t) ->
  learnInv render L' C.
Proof.
  intros [H1 H2 H3 H4 H5] Hb Hs Hr.
  assert (Hback : forall t lr, ls_renderings L' !! t = Some lr ->
    exists lr0, ls_renderings L !! t = Some lr0 /\ lr_ambiguous lr = lr_ambiguous lr0 /\ forall x, x ∈ lr_rows lr <-> x ∈ lr_rows lr0).
  { intros t lr Hl. rewrite Hr in Hl. apply fmap_Some in Hl as (lr0 & Hl & ->). exists lr0.
    split_and!; [done..|]. intros x. apply Strings_elem. }
  assert (Hrec : forall x, recorded L x -> recorded L' x).
  { intros x [Hx|(t & lr & Hl & Hx)]; [left; by rewrite Hb|]. right. eexists t, _. rewrite Hr, Hl. split; [done|].
    cbn. by rewrite Strings_elem. }
  split; [done| | | |].
  - intros t lr Hl. destruct (Hback t lr Hl) as (lr0 & Hl0 & Ha & Hx). destruct (H2 t lr0 Hl0) as (K1 & K2 & K3).
    split_and!; [done|intros x; rewrite Hx; apply K2|]. rewrite Ha. intros Ht. specialize (K3 Ht).
    destruct (lr_rows lr) as [|y l]; [done|]. exfalso. apply (not_elem_of_nil y). rewrite <-K3. apply Hx. by left.
  - intros t lr x Hl Hx. destruct (Hback t lr Hl) as (lr0 & Hl0 & _). apply Hrec. by apply (H3 t lr0).
  - intros x Hx. by apply Hrec, H4.
  - intros t lr x Hl Hx. destruct (Hback t lr Hl) as (lr0 & Hl0 & _ & Hiff). apply (H5 t lr0); [done|]. by apply Hiff.
Qed.

Lemma learnFields_state r scope renderings baseline :
  learnFields r = (scope, renderings, baseline) ->
  learnStateFromStatus (ro_Status r) = learnStateFromStatus (setLearned scope renderings baseline (ro_Status r)).
Proof. destruct r as [? ? ? []]. unfold learnFields. cbn. by intros [= -> -> ->]. Qed.

(** What a role in sync with [stmts] has: all of every statement, nothing else
    but the rows its status lists, and a state the next pass can start from. *)
Record inSync (stmts : list string) (w : RoleWorld S) : Prop := {
  sync_granted : forall t, t ∈ stmts -> CanonicalisePrivilegeStatement t <> EmptyString -> render t ⊆ serverRows w;
  sync_only : forall x, x ∈ serverRows w -> (exists t, t ∈ stmts /\ x ∈ render t) \/
    x ∈ canonRows (rs_UnattributedPrivileges (ro_Status (rw_stored w)));
  sync_state : learnInv render (learnStateFromStatus (ro_Status (rw_stored w))) (serverRows w);
  sync_prunes : rw_prunes w = false
}.

(** A learning pass no row of the role is left over from. *)
Definition settledWith (stmts : list string) (lo : learnOutcome) (w : RoleWorld S) : Prop :=
  exists prior, persisted prior stmts lo w /\
    forall x, x ∈ serverRows w -> x ∈ dom (lo_desired lo) \/ x ∈ ls_baseline (lo_state lo).

Lemma settled_inSync stmts lo w : settledWith stmts lo w -> inSync stmts w.
Proof.
  intros (prior & Hpe & Hrows). revert Hpe Hrows. intros [[H1 H2 H3 H4 H5 H6 H7 H8] Hsc Hst Hp] Hrows.
  assert (Hinv : learnInv render (lo_state lo) (serverRows w)).
  { assert (Hrec : forall x, x ∈ serverRows w -> recorded (lo_state lo) x).
    { intros x Hx. destruct (Hrows x Hx) as [Hd|Hb]; [|by left]. right. by apply H7. }
    split; try done.
    - intros t lr x Hl Hx. apply Hrec. apply (H5 t); [by apply (H4 t lr)|by apply (H3 t lr)|done].
    - intros t lr x Hl Hx. apply H8, H7. eauto. }
  pose proof (learnFields_state _ _ _ _ Hst) as Hstate.
  pose proof (reload (lo_state lo) stmts (ro_Status (rw_stored w)) H2 H4) as Hre.
  destruct (toStatus (lo_state lo) stmts) as [renderings baseline] eqn:Et. cbn [fst snd] in Hstate.
  destruct Hre as (R1 & R2 & R3 & R4 & R5). rewrite <-Hstate in R1, R2, R3, R4, R5.
  split; [done| | |done].
  - intros x Hx. destruct (Hrows x Hx) as [Hd|Hb].
    + left. apply H7 in Hd as (t & lr & Hl & Hxr). exists t. split; [by apply (H4 t lr)|]. by apply (H3 t lr).
    + right. rewrite <-R2 in Hb. by apply elem_of_list_to_set in Hb.
  - by apply (learnInv_reload (lo_state lo)).
Qed.

Lemma inSync_after stmts w w' : inSync stmts w -> after w w' -> inSync stmts w'.
Proof.
  intros [H1 H2 H3 H4] [K1 K2 K3 _ _ _]. specialize (K2 H4). unfold learnFields in K2. injection K2 as E1 E2 E3.
  assert (E : learnStateFromStatus (ro_Status (rw_stored w')) = learnStateFromStatus (ro_Status (rw_stored w)))
    by (unfold learnStateFromStatus; by rewrite E1, E2, E3).
  split; rewrite ?K1, ?E, ?E3; try done. congruence.
Qed.

(** The state a pass finds: never met, or as a pass in sync left it. *)
Definition knownRole (r : Neo4jRole) (C : gset string) : Prop :=
  rs_PrivilegeRenderingScope (ro_Status r) = EmptyString \/ learnInv render (learnStateFromStatus (ro_Status r)) C.

Lemma meetRole_spec scopeDigest role scope current stmts requeue w prior w' :
  (forall s, scopeDigest s <> EmptyString) -> Forall freshRead (rw_attempts w) -> rw_prunes w = false ->
  list_to_set (canonRows current) = serverRows w -> knownRole role (serverRows w) ->
  meetRole scopeDigest (learnStateFromStatus (ro_Status role)) scope current stmts requeue w = (inl prior, w') ->
  learnable prior false (serverRows w') /\ serverRows w' = serverRows w /\ rw_prunes w' = false /\
  rw_attempts w' `suffix_of` rw_attempts w.
Proof.
  intros Hdig Hf Hp Hcur Hk. set (L := learnStateFromStatus (ro_Status role)) in *.
  assert (Hsc : ls_scope L = rs_PrivilegeRenderingScope (ro_Status role)) by apply load_scope.
  unfold meetRole, rememberAll. rewrite Hcur. destruct (String.eqb (ls_scope L) EmptyString) eqn:E; breflect; cbn [negb].
  - unfold mbind, RW_bind. set (first := mkLearnState _ _ _ _).
    destruct (setLearnState first stmts w) as [[e|] w1] eqn:Es; [by destruct (fail _ _ _ _)|]. intros [= <- <-].
    apply setLearnState_stores in Es as (_ & H2 & H3 & H4); [|done..]. split_and!; try done. rewrite H2. split; [apply Hdig|..].
    + apply remembers_true. intros ? ? Hl. by rewrite lookup_empty in Hl.
    + intros t lr Hl. cbn in Hl. by rewrite lookup_empty in Hl.
    + intros x Hx. by left.
    + right. split; intros t lr x Hl; cbn in Hl; by rewrite lookup_empty in Hl.
  - intros [= <- <-]. destruct Hk as [Hk|[H1 H2 H3 H4 H5]]; [congruence|]. split_and!; try done.
    split; [done|exact (raw_true _ H1)|done|done|by right].
Qed.

(** A row nobody wants belonged to a statement that left the spec. *)
Lemma unwanted_spec prior stmts lo w now :
  learnedAll render rows prior stmts lo w -> (forall x, x ∈ now <-> x ∈ serverRows w) ->
  forall x, x ∈ unwanted true lo now <->
    x ∈ serverRows w /\ x ∉ dom (lo_desired lo) /\ x ∉ ls_baseline (lo_state lo) /\ x ∈ orphanedRows prior stmts.
Proof.
  intros H Hnow x. unfold unwanted. rewrite list_elem_of_In, filter_In, negb_true_iff, orb_false_iff, !bool_decide_eq_false.
  rewrite <-list_elem_of_In, Hnow. split; [|tauto]. intros (Hx & Hd & Hb). destruct (la_accounted _ _ _ _ _ _ H x Hx); tauto.
Qed.

(** After the revocations: in sync, everything learned again when one had to. *)
Lemma relearn_settled scopeDigest roleName stmts resolves prior scope lo now requeue w1 w lo' applied w' :
  (forall s, scopeDigest s <> EmptyString) -> (forall t : string, t ∈ stmts -> resolves t = true) ->
  persisted prior stmts lo w1 -> (forall x, x ∈ now <-> x ∈ serverRows w1) ->
  serverRows w = serverRows w1 ∖ list_to_set (unwanted true lo now) -> rw_prunes w = false ->
  learnFields (rw_stored w) = learnFields (rw_stored w1) -> Forall freshRead (rw_attempts w) ->
  relearnAfterRevoke scopeDigest roleName stmts resolves prior scope lo (unwanted true lo now) requeue w = (inl (lo', applied), w') ->
  settledWith stmts lo' w' /\ rw_attempts w' `suffix_of` rw_attempts w.
Proof.
  intros Hdig Hres Hpe Hnow Hw Hp Hst Hf. pose proof (pe_learned _ _ _ _ Hpe) as Hl.
  pose proof (unwanted_spec _ _ _ _ _ Hl Hnow) as Hun. unfold relearnAfterRevoke.
  assert (Hleft : forall x, x ∈ serverRows w -> x ∈ dom (lo_desired lo) \/ x ∈ ls_baseline (lo_state lo)).
  { intros x. rewrite Hw, elem_of_difference, elem_of_list_to_set, Hun. intros [Hx Hn].
    destruct (decide (x ∈ dom (lo_desired lo))) as [|Hd]; [by left|].
    destruct (decide (x ∈ ls_baseline (lo_state lo))) as [|Hb]; [by right|].
    destruct (la_accounted _ _ _ _ _ _ Hl x Hx); tauto. }
  destruct (existsb _ _) eqn:Ex; cbn [negb].
  - (* everything is granted again *)
    unfold mbind at 1, RW_bind at 1. destruct (fetchCurrentPrivileges roleName w) as [[[[now' imm'] byC]|e] w2] eqn:Ef;
      [|unfold mbind, RW_bind; by destruct (fail _ _ _ _)].
    apply fetch_spec in Ef as (Ha & _ & _ & _ & _ & _ & Hdom & Hby). unfold mbind, RW_bind.
    destruct (learnAndPersist _ _ _ _ _ _ _ _ _ w2) as [[relearned|res] w3] eqn:El; [|done]. intros [= <- _ <-].
    apply learnAndPersist_spec in El as [El Hsuf]; try done.
    + split; [|by transitivity (rw_attempts w2); [|apply Ha]]. exists (lo_state lo). split; [done|]. intros x Hx.
      destruct (la_accounted _ _ _ _ _ _ (pe_learned _ _ _ _ El) x Hx) as [?|[?|Ho]]; [by left|by right|].
      apply orphanedRows_elem in Ho as (t & lr & Ht & Hnt & _). by apply (la_dom _ _ _ _ _ _ Hl) in Ht.
    + by apply (Forall_suffix _ _ _ (after_attempts _ _ _ Ha)).
    + by rewrite (after_prunes _ _ _ Ha).
    + by rewrite shownRows_spec.
    + rewrite (after_rows _ _ _ Ha). split; [apply Hpe|exact (raw_true _ (la_shown _ _ _ _ _ _ Hl))|apply Hl| |by left].
      intros x Hx. destruct (Hleft x Hx) as [Hd|Hb]; [|by left]. right. by apply (la_desired _ _ _ _ _ _ Hl).
  - (* nothing was revoked *)
    intros [= <- _ <-]. assert (Hnone : unwanted true lo now = []).
    { destruct (unwanted true lo now) as [|x l]; [done|]. exfalso. destruct (proj1 (Hun x) ltac:(by left)) as (_ & _ & _ & Ho).
      cbn in Ex. by rewrite bool_decide_eq_true_2 in Ex. }
    rewrite Hnone in Hw. cbn in Hw. rewrite difference_empty_L in Hw.
    split; [|done]. exists prior. split; [|done]. split; [by apply (learnedAll_world _ _ _ w1)|apply Hpe| |done].
    unfold stores. rewrite Hst. apply Hpe.
Qed.

(** A step that stops the pass does not report it in sync. *)
Definition stopsFailed {A} (m : RW S (A + roleResult)) : Prop := forall w k w', m w <> (inr (Synced k), w').

Lemma stopsFailed_bind {A B} (m : RW S A) (f : A -> RW S (B + roleResult)) :
  (forall a, stopsFailed (f a)) -> stopsFailed (m ≫= f).
Proof. intros H w k w'. unfold mbind, RW_bind. destruct (m w) as [a w1]. apply H. Qed.

Lemma stopsFailed_then {A B} (m : RW S (A + roleResult)) (f : A + roleResult -> RW S (B + roleResult)) :
  stopsFailed m -> (forall a, stopsFailed (f (inl a))) -> (forall res, f (inr res) = mret (inr res)) -> stopsFailed (m ≫= f).
Proof.
  intros Hm Hf Hi w k w'. unfold mbind, RW_bind. destruct (m w) as [[a|res] w1] eqn:E; [apply Hf|].
  rewrite Hi. intros [= -> ->]. by apply Hm in E.
Qed.

Lemma stopsFailed_fail {A} label err requeue : stopsFailed (res ← fail label err requeue; mret (inr res : A + roleResult)).
Proof.
  intros w k w'. unfold mbind, RW_bind. destruct (fail label err requeue w) as [res w1] eqn:E.
  intros [= -> ->]. by apply fail_not_synced in E.
Qed.

Lemma stopsFailed_ret {A} (a : A) : stopsFailed (mret (inl a)).
Proof. by intros w k w'. Qed.

Lemma meetRole_stops scopeDigest prior scope current stmts requeue :
  stopsFailed (meetRole scopeDigest prior scope current stmts requeue).
Proof.
  unfold meetRole. destruct (negb _); [apply stopsFailed_ret|]. destruct (rememberAll _ _).
  apply stopsFailed_bind. intros [e|]; [apply stopsFailed_fail|apply stopsFailed_ret].
Qed.

Lemma learnAndPersist_stops scopeDigest roleName stmts resolves prior scope current force requeue :
  stopsFailed (learnAndPersist scopeDigest roleName stmts resolves prior scope current force requeue).
Proof.
  unfold learnAndPersist. apply stopsFailed_bind. intros [lo [[stmt e]|]]; apply stopsFailed_bind.
  - intros _. apply stopsFailed_fail.
  - intros [e|]; [apply stopsFailed_fail|apply stopsFailed_ret].
Qed.

Lemma revokeUnwanted_stops toRemove immutableSet byCanonical requeue :
  stopsFailed (revokeUnwanted toRemove immutableSet byCanonical requeue).
Proof.
  unfold revokeUnwanted. apply stopsFailed_then; [|intros [[drift revoked] kept]; apply stopsFailed_bind; intros _; apply stopsFailed_ret|done].
  enough (H : forall drift revoked kept, stopsFailed (revokeRows toRemove immutableSet byCanonical requeue drift revoked kept)) by apply H.
  induction toRemove as [|canon rest IH]; intros drift revoked kept; cbn [revokeRows]; [apply stopsFailed_ret|].
  destruct (bool_decide _); [apply IH|]. destruct (DerivePrivilegeRevoke _); [|apply IH].
  apply stopsFailed_bind. intros [e|]; [apply stopsFailed_fail|apply IH].
Qed.

Lemma relearnAfterRevoke_stops scopeDigest roleName stmts resolves prior scope lo revoked requeue :
  stopsFailed (relearnAfterRevoke scopeDigest roleName stmts resolves prior scope lo revoked requeue).
Proof.
  unfold relearnAfterRevoke. destruct (negb _); [apply stopsFailed_ret|]. apply stopsFailed_bind.
  intros [[[now imm] byC]|e]; [|apply stopsFailed_fail].
  apply stopsFailed_then; [apply learnAndPersist_stops|intros a; apply stopsFailed_ret|done].
Qed.

(** The revocations of a pass. *)
Lemma revokeUnwanted_spec toRemove byCanonical requeue w drift revoked w' :
  shownRevocable byCanonical -> NoDup toRemove -> (forall x, x ∈ toRemove -> x ∈ dom byCanonical /\ x ∈ serverRows w) ->
  revokeUnwanted toRemove ∅ byCanonical requeue w = (inl (drift, revoked), w') ->
  revoked = toRemove /\ serverRows w' = serverRows w ∖ list_to_set toRemove /\ rw_prunes w' = rw_prunes w /\
  (rw_prunes w = false -> learnFields (rw_stored w') = learnFields (rw_stored w)) /\
  rw_attempts w' `suffix_of` rw_attempts w.
Proof.
  intros Hm Hnd Hin. unfold revokeUnwanted, mbind, RW_bind.
  destruct (revokeRows _ _ _ _ _ _ _ w) as [[r|res] w1] eqn:E; [|done].
  apply revokeRows_spec in E as (-> & Hr & Hs & _ & Hf & Hp); [|done..]. rewrite app_nil_l.
  destruct (recordWarnings _ _ w1) as [u w2] eqn:E6. destruct (leaves_recordWarnings rows _ _ _ _ _ E6) as [K1 K2 K3 K4 _ _].
  intros [= _ <- <-]. rewrite K1, K3, Hr, <-Hf, <-Hs, <-Hp. done.
Qed.

(** A pass that reports the role in sync: its last learning pass, and the reports
    it ends with. *)
Lemma reconcileLearned_ends scopeDigest roleName scope aliases resolves requeue w k w' :
  (forall s, scopeDigest s <> EmptyString) -> Forall freshRead (rw_attempts w) -> rw_prunes w = false ->
  rp_EnforcePrivileges (ro_Spec (rw_role w)) = true ->
  (forall t, t ∈ rolePrivilegeStatements (rw_role w) -> resolves t = true) -> knownRole (rw_role w) (serverRows w) ->
  reconcileLearned scopeDigest roleName scope aliases resolves requeue w = (Synced k, w') ->
  exists lo w1 applied revoked unresolved drift,
    settledWith (rolePrivilegeStatements (rw_role w)) lo w1 /\ rw_attempts w1 `suffix_of` rw_attempts w /\
    let '(status, reason, msg) := syncedVerdict drift lo aliases in
    finishReconcile roleName applied revoked unresolved drift status reason msg requeue w1 = (Synced k, w').
Proof.
  intros Hdig Hf Hp Hen Hres Hk. unfold reconcileLearned, mbind, RW_bind.
  destruct (fetchCurrentPrivileges roleName w) as [[[[now0 imm0] byC0]|e] w1] eqn:E1; [|intros H; by apply fail_not_synced in H].
  apply fetch_spec in E1 as (Ha1 & _ & Hr1 & _ & _ & _ & Hd1 & Hby1). unfold getsR. rewrite Hr1.
  set (stmts := rolePrivilegeStatements (rw_role w)) in *. pose proof (after_attempts _ _ _ Ha1) as Hs1.
  destruct (meetRole _ _ _ _ _ _ w1) as [[prior|res] w2] eqn:E2; [|intros [= -> ->]; by apply meetRole_stops in E2].
  apply meetRole_spec in E2 as (Hlb & Hr2 & Hp2 & Hs2); [|done|by apply (Forall_suffix _ _ _ Hs1)|by rewrite (after_prunes _ _ _ Ha1)|by rewrite shownRows_spec|by rewrite (after_rows _ _ _ Ha1)].
  rewrite Hs1 in Hs2. pose proof (Forall_suffix _ _ _ Hs2 Hf) as Hf2.
  destruct (learnAndPersist _ _ _ _ _ _ _ _ _ w2) as [[lo|res] w3] eqn:E3; [|intros [= -> ->]; by apply learnAndPersist_stops in E3].
  apply learnAndPersist_spec in E3 as [E3 Hs3]; [|done..|by rewrite shownRows_spec, Hr2|done]. rewrite Hs2 in Hs3.
  destruct (fetchCurrentPrivileges roleName w3) as [[[[now imm] byC]|e] w4] eqn:E4; [|intros H; by apply fail_not_synced in H].
  apply fetch_spec in E4 as (Ha4 & Hst4 & _ & Hnow & Hnd & -> & Hd4 & Hby4). rewrite Hen.
  destruct (revokeUnwanted _ _ _ _ w4) as [[[drift revoked]|res] w5] eqn:E5; [|intros [= -> ->]; by apply revokeUnwanted_stops in E5].
  apply revokeUnwanted_spec in E5 as (-> & Hr5 & Hp5 & Hst5 & Hs5); [|done|by apply NoDup_ListNoDup, List.NoDup_filter, NoDup_ListNoDup|].
  2: { intros x Hx. rewrite Hd4, <-Hnow. apply list_elem_of_In, filter_In in Hx as [Hx _]. by rewrite list_elem_of_In. }
  rewrite (after_attempts _ _ _ Ha4), Hs3 in Hs5. pose proof (Forall_suffix _ _ _ Hs5 Hf) as Hf5.
  destruct (relearnAfterRevoke _ _ _ _ _ _ _ _ _ w5) as [[[lo' applied]|res] w6] eqn:E6;
    [|intros [= -> ->]; by apply relearnAfterRevoke_stops in E6].
  intros Hfin. rewrite (after_rows _ _ _ Ha4) in Hr5. setoid_rewrite (after_rows _ _ _ Ha4) in Hnow.
  assert (Hp4 : rw_prunes w4 = false) by (by rewrite (after_prunes _ _ _ Ha4), (pe_prunes _ _ _ _ E3)).
  rewrite Hp4 in Hp5. specialize (Hst5 Hp4). rewrite Hst4 in Hst5.
  destruct (relearn_settled _ _ _ _ _ _ _ _ _ _ _ _ _ _ Hdig Hres E3 Hnow Hr5 Hp5 Hst5 Hf5 E6) as [Hse Hs6]. rewrite Hs5 in Hs6. exists lo', w6, applied, (Z.of_nat (length (unwanted true lo now))),
    (Z.of_nat (length (lo_unresolved lo'))), drift. split; [exact Hse|]. split; [done|].
  destruct (syncedVerdict drift lo' aliases) as [[status reason] msg]. exact Hfin.
Qed.
End Steps.
