(* ===== verification/RolePromise.v ===== *)
(** What learn mode promises of a role only the operator writes: a pass that ends in
    sync leaves every row of every statement of the spec on the role, no other row
    than those its status lists as unattributed, and, when it says they match,
    exactly those of the spec. It holds along any history of such passes, whatever
    the spec does between them; [RoleSample] has a server it runs on and three
    histories it does not extend to. *)
From S2P Require Import Prelude GoStrings ClusterTypes Conditions Privileges TargetWait Roles RoleLearn RoleSafety RolePass.

Open Scope Z_scope.

(** * What learn mode promises *)

Section Claims.
Context {S : Type} `{!RoleClient S} (render : string -> gset string) (rows : S -> gset string)
  `{!RoleServer render rows}.
Variable scopeDigest : string -> string.
Hypothesis scopeDigest_given : forall s, scopeDigest s <> EmptyString.

(** A pass the promise is about: the spec enforces its privileges and names only
    databases that exist, the CRD is current, and no read of the role is stale. *)
Record enforced (resolves : string -> bool) (w : RoleWorld S) : Prop := {
  en_spec : rp_EnforcePrivileges (ro_Spec (rw_role w)) = true;
  en_resolves : forall t, t ∈ rolePrivilegeStatements (rw_role w) -> resolves t = true;
  en_prunes : rw_prunes w = false;
  en_fresh : Forall freshRead (rw_attempts w)
}.

(** The worlds passes in sync lead to, from a role never met, with anything done
    between them but to the role's privileges and its learned state. *)
Inductive roleHistory : RoleWorld S -> Prop :=
| never_met w : rs_PrivilegeRenderingScope (ro_Status (rw_role w)) = EmptyString -> roleHistory w
| after_pass w roleName scope aliases resolves requeue k w' next :
    roleHistory w -> enforced resolves w ->
    reconcileLearned scopeDigest roleName scope aliases resolves requeue w = (Synced k, w') ->
    learnFields (rw_role next) = learnFields (rw_stored w') -> serverRows rows next = serverRows rows w' ->
    roleHistory next.

Lemma history_known w : roleHistory w -> knownRole render (rw_role w) (serverRows rows w).
Proof.
  induction 1 as [w H|w roleName scope aliases resolves requeue k w' next _ IH [H1 H2 H3 H4] Hpass Hl Hr]; [by left|].
  right. apply (reconcileLearned_ends render rows) in Hpass; [|done..].
  destruct Hpass as (lo & w1 & applied & revoked & unresolved & drift & Hse & _ & Hfin).
  destruct (syncedVerdict drift lo aliases) as [[status reason] msg].
  pose proof (inSync_after _ _ _ _ _ (settled_inSync _ _ _ _ _ Hse) (leaves_finish render rows _ _ _ _ _ _ _ _ _ _ _ _ Hfin)) as Hs.
  rewrite (learnFields_state _ _ _ _ Hl). rewrite Hr.
  replace (learnStateFromStatus (setLearned _ _ _ (ro_Status (rw_role next))))
    with (learnStateFromStatus (ro_Status (rw_stored w'))) by done. apply Hs.
Qed.

(** C5: Learn mode keeps what the spec grants, along every history of this kind: it
    begins with a role whose status holds no learned state; each of its passes ends
    in sync and is an enforced one (enforcePrivileges is on, the database of every
    statement resolves, the CRD keeps the learned fields, no status read is stale);
    between passes anything may change, the statements of the spec too, except the
    role's privileges and its learned state; and the server answers as [RoleServer]
    says, so that no row is immutable and each row has a REVOKE that removes it.
    Then an enforced pass that reports the role in sync leaves on the role every row
    of every statement of the spec, also those another statement's rows hid when
    they were learned, and no other row than those the status lists as unattributed.
    Without these conditions it can fail: see [foreign_row_lost] for rows granted by
    someone else and [enforcement_toggle_lost] for a pass with enforcePrivileges
    off. *)
Theorem learn_mode_in_sync roleName scope aliases resolves requeue w k w' :
  roleHistory w -> enforced resolves w ->
  reconcileLearned scopeDigest roleName scope aliases resolves requeue w = (Synced k, w') ->
  (forall stmt, stmt ∈ rolePrivilegeStatements (rw_role w) -> CanonicalisePrivilegeStatement stmt <> EmptyString ->
    render stmt ⊆ serverRows rows w') /\
  (forall row, row ∈ serverRows rows w' ->
    (exists stmt, stmt ∈ rolePrivilegeStatements (rw_role w) /\ row ∈ render stmt) \/
    row ∈ canonRows (rs_UnattributedPrivileges (ro_Status (rw_stored w')))).
Proof.
  intros Hh [H1 H2 H3 H4] Hpass. pose proof (history_known w Hh) as Hk.
  apply (reconcileLearned_ends render rows) in Hpass; [|done..].
  destruct Hpass as (lo & w1 & applied & revoked & unresolved & drift & Hse & _ & Hfin).
  destruct (syncedVerdict drift lo aliases) as [[status reason] msg].
  destruct (inSync_after _ _ _ _ _ (settled_inSync _ _ _ _ _ Hse) (leaves_finish render rows _ _ _ _ _ _ _ _ _ _ _ _ Hfin))
    as [K1 K2 _ _]. by split.
Qed.

(** ** The verdict *)

(** The PrivilegesSynced condition a role shows. *)
Definition syncedCondition (r : Neo4jRole) : option Condition :=
  findCondition (rs_Conditions (ro_Status r)) ConditionTypePrivilegesSynced.

Lemma setRoleCondition_sets ty status reason message (w : RoleWorld S) u w' :
  rw_attempts w = [] -> setRoleCondition ty status reason message w = (u, w') ->
  rw_attempts w' = [] /\ exists c, findCondition (rs_Conditions (ro_Status (rw_stored w'))) ty = Some c /\ c_Status c = status.
Proof.
  intros Ha. unfold setRoleCondition, mbind, RW_bind, getsR, roleBackoff. cbn [retryRole]. unfold nextRoleAttempt. rewrite Ha.
  cbv beta iota zeta. set (st := ro_Status (rw_stored w)).
  pose proof (find_SetNamedCondition (rw_now w) (rs_Conditions st) ty (ro_Generation (rw_stored w)) status reason message ty) as Hfind.
  destruct (SetNamedCondition _ _ _ _ _ _ _) as [cs changed]. intros [= _ <-]. split; [done|].
  rewrite String.eqb_refl in Hfind. 
  exists (conditionAfter (rw_now w) (findCondition (rs_Conditions st) ty) ty (ro_Generation (rw_stored w)) status reason message).
  split; [|done]. rewrite <-Hfind. cbn. unfold kept. by destruct (rw_prunes w).
Qed.

Lemma reportReady_condition roleName readyMsg final drift waiting (w : RoleWorld S) u w' :
  rw_attempts w = [] -> reportReady roleName readyMsg final drift waiting w = (u, w') ->
  syncedCondition (rw_stored w') = syncedCondition (rw_stored w).
Proof.
  intros Ha. unfold reportReady, writeReady, mbind, RW_bind, getsR, roleBackoff. cbn [retryRole]. unfold nextRoleAttempt.
  rewrite Ha. set (body := readyBody _ _ _ _ _ _).
  assert (Hb : exists r, body.1 = Some r /\ syncedCondition (kept (rw_prunes w) r) = syncedCondition (rw_stored w)).
  { subst body. unfold readyBody. eexists. split; [reflexivity|]. unfold syncedCondition.
    etransitivity; [|apply (find_SetReady (rw_now w) _ (ro_Generation (rw_stored w)) ConditionTrue)]; [|done].
    unfold kept. by destruct (rw_prunes w). }
  destruct Hb as (r & Hr & Hc). destruct body as [[r'|] announce]; [|done]. injection Hr as ->. cbn.
  destruct announce; by intros [= _ <-].
Qed.

Lemma finish_condition roleName applied revoked unresolved drift status reason msg requeue w k w' :
  rw_attempts w = [] -> finishReconcile roleName applied revoked unresolved drift status reason msg requeue w = (Synced k, w') ->
  exists c, syncedCondition (rw_stored w') = Some c /\ c_Status c = status.
Proof.
  intros Ha. unfold finishReconcile, mbind, RW_bind.
  destruct (reportUnresolvedPrivilegeDatabases roleName w) as [u1 w1] eqn:E1.
  pose proof (after_attempts _ _ _ (leaves_reportUnresolved render rows _ _ _ _ E1)) as Ha1. rewrite Ha in Ha1. apply suffix_nil_inv in Ha1.
  destruct (fetchCurrentPrivileges roleName w1) as [[[[final imm] byC]|e] w2] eqn:E2; [|intros H; by apply fail_not_synced in H].
  pose proof (after_attempts _ _ _ (leaves_fetch render rows _ _ _ _ E2)) as Ha2. rewrite Ha1 in Ha2. apply suffix_nil_inv in Ha2.
  destruct (setRoleCondition _ _ _ _ w2) as [u3 w3] eqn:E3.
  apply setRoleCondition_sets in E3 as (Ha3 & c & Hc & Hst); [|done]. set (ev := if 0 <? _ then _ else _).
  destruct (ev w3) as [u4 w4] eqn:E4.
  assert (H4 : rw_attempts w4 = [] /\ rw_stored w4 = rw_stored w3).
  { revert E4. subst ev. destruct (0 <? _); by intros [= _ <-]. }
  destruct H4 as [Ha4 Hs4]. destruct (reportReady _ _ _ _ _ w4) as [u5 w5] eqn:E5.
  apply reportReady_condition in E5; [|done]. intros [= _ <-]. exists c. rewrite E5, Hs4. done.
Qed.

Lemma verdict_true drift lo aliases :
  (syncedVerdict drift lo aliases).1.1 = ConditionTrue -> ls_baseline (lo_state lo) ⊆ dom (lo_desired lo).
Proof.
  unfold syncedVerdict. destruct drift; [done|].
  destruct (List.filter _ _) as [|y l] eqn:Ef; [|done]. intros _ x Hx. destruct (decide (x ∈ dom (lo_desired lo))) as [|Hn]; [done|].
  exfalso. apply (not_elem_of_nil x). rewrite <-Ef. apply list_elem_of_In, filter_In. split.
  - by apply list_elem_of_In, sortedKeys_elem.
  - by rewrite bool_decide_eq_false_2.
Qed.

(** When every write of the status goes through, a pass in sync sets the
    PrivilegesSynced condition, and when that is True (privileges match spec) the
    role's rows are exactly those of the spec's statements. *)
Theorem match_is_exact roleName scope aliases resolves requeue w k w' :
  roleHistory w -> enforced resolves w -> rw_attempts w = [] ->
  reconcileLearned scopeDigest roleName scope aliases resolves requeue w = (Synced k, w') ->
  exists c, syncedCondition (rw_stored w') = Some c /\
    (c_Status c = ConditionTrue -> forall row, row ∈ serverRows rows w' <->
      exists stmt, stmt ∈ rolePrivilegeStatements (rw_role w) /\ CanonicalisePrivilegeStatement stmt <> EmptyString /\
        row ∈ render stmt).
Proof.
  intros Hh [H1 H2 H3 H4] Ha Hpass. pose proof (history_known w Hh) as Hk.
  apply (reconcileLearned_ends render rows) in Hpass; [|done..].
  destruct Hpass as (lo & w1 & applied & revoked & unresolved & drift & Hse & Hsuf & Hfin).
  rewrite Ha in Hsuf. apply suffix_nil_inv in Hsuf. pose proof (verdict_true drift lo aliases) as Hv.
  destruct (syncedVerdict drift lo aliases) as [[status reason] msg]. cbn in Hv.
  destruct (finish_condition _ _ _ _ _ _ _ _ _ _ _ _ Hsuf Hfin) as (c & Hc & Hst). exists c. split; [done|].
  intros Ht row. rewrite (after_rows _ _ _ (leaves_finish render rows _ _ _ _ _ _ _ _ _ _ _ _ Hfin)).
  destruct Hse as (prior & [[A1 A2 A3 A4 A5 A6 A7 A8] _ _ _] & Hrows). split.
  - intros Hrow. assert (Hd : row ∈ dom (lo_desired lo)) by (destruct (Hrows row Hrow) as [?|Hb]; [done|]; apply Hv; congruence || done).
    apply A7 in Hd as (t & lr & Hl & Hx). exists t. destruct (A3 t lr Hl) as (K1 & K2 & _).
    split_and!; [by apply (A4 t lr)|done|by apply K2].
  - intros (t & Ht' & Hc' & Hx). by apply (A5 t).
Qed.

(** What a pass learned survives the status. When the write of the learned
    state reports success, the state the next pass reads from the stored role has
    the same scope, the same unattributed rows and, for every statement, the same
    rows and ambiguity. *)
Theorem learnState_roundtrip L stmts (w w' : RoleWorld S) :
  shownTruly L -> (forall t lr, ls_renderings L !! t = Some lr -> t ∈ stmts) ->
  rw_prunes w = false -> Forall freshRead (rw_attempts w) -> setLearnState L stmts w = (None, w') ->
  let L' := learnStateFromStatus (ro_Status (rw_stored w')) in
  ls_scope L' = ls_scope L /\ ls_baseline L' = ls_baseline L /\ shownTruly L' /\
  forall t, match ls_renderings L !! t, ls_renderings L' !! t with
            | Some lr, Some lr' => lr_rows lr' ≡ₚ lr_rows lr /\ lr_ambiguous lr' = lr_ambiguous lr
            | None, None => True
            | _, _ => False
            end.
Proof.
  intros Hs Hd Hp Hf Hset. apply (setLearnState_stores rows) in Hset as (Hst & _); [|done..]. unfold stores in Hst.
  apply learnFields_state in Hst. pose proof (reload L stmts (ro_Status (rw_stored w')) Hs Hd) as Hre.
  destruct (toStatus L stmts) as [renderings baseline]. cbn [fst snd] in Hst. rewrite <-Hst in Hre.
  destruct Hre as (R1 & R2 & R3 & R4 & R5). split_and!; [done..|by split|].
  intros t. rewrite R5. destruct (ls_renderings L !! t) as [lr|]; cbn; [|done]. split; [apply Strings_perm|done].
Qed.
End Claims.

(** * A server, and what the promise does not cover *)

Module RoleSample.

(** Rows of a role r: ACCESS on three databases. *)
Definition rowX : string := "GRANT ACCESS ON DATABASE x TO r".
Definition rowY : string := "GRANT ACCESS ON DATABASE y TO r".
Definition rowZ : string := "GRANT ACCESS ON DATABASE z TO r".
Definition universe : list string := [rowX; rowY; rowZ].

(** A statement on a list of databases is stored as a row for each. *)
Definition onXY : string := "GRANT ACCESS ON DATABASE x, y TO r".
Definition onXZ : string := "GRANT ACCESS ON DATABASE x, z TO r".
Definition sameButGrantee (a b : string) : bool :=
  match ReplacePrivilegeGrantee a "g", ReplacePrivilegeGrantee b "g" with
  | Ok a, Ok b => String.eqb a b
  | _, _ => false
  end.
Definition stored (stmt : string) : list string :=
  if sameButGrantee stmt onXY then [rowX; rowY] else if sameButGrantee stmt onXZ then [rowX; rowZ] else [].

Definition render (stmt : string) : gset string :=
  list_to_set (List.filter (fun row => bool_decide (row ∈ stored stmt)
    || String.eqb (FoldPrivilegeDatabaseNames row) (FoldPrivilegeDatabaseNames (CanonicalisePrivilegeStatement stmt))) universe).

(** The state: the rows, and the GRANTs that go through before one fails
    ([None]: all). *)
Definition Server : Type := gset string * option nat.
Definition rowsOf (n : Server) : gset string := list_to_set universe ∩ n.1.
Definition shownOf (n : Server) : list string := List.filter (fun row => bool_decide (row ∈ n.1)) universe.

Definition grants (n : Server) : bool := match n.2 with Some O => false | _ => true end.

#[global] Instance sampleClient : RoleClient Server := {
  ShowRolePrivileges _ n := (inl (map (fun row => mkCommand row false) (shownOf n)), n);
  ExecutePrivilegeStatement rv n :=
    (None, if existsb (String.eqb rv) [onXY; onXZ] then (n.1 ∪ render rv, n.2) else (n.1 ∖ list_to_set (List.filter (fun row => match DerivePrivilegeRevoke row with
                                                        | Ok rv' => String.eqb rv' rv
                                                        | Err _ => false
                                                        end) universe), n.2));
  GrantAndReadPrivileges _ stmt n :=
    if grants n then
      let n' := (n.1 ∪ render stmt, option_map Nat.pred n.2) in (inl (shownOf n, shownOf n'), n')
    else (inr (plainError "connection reset"), n);
  ProbePrivilegeRendering role stmt n :=
    (inl (omap (fun row => match ReplacePrivilegeGrantee row role with Ok r => Some r | Err _ => None end) (stored stmt)), n);
  GetDatabases n := (inl [mkDatabase "x" "standard"; mkDatabase "y" "standard"; mkDatabase "z" "standard"], n);
  ShowAliases n := (inl [], n)
}.

Lemma shownOf_elem n x : x ∈ shownOf n <-> x ∈ rowsOf n.
Proof.
  unfold shownOf, rowsOf. rewrite list_elem_of_In, filter_In, bool_decide_eq_true, <-list_elem_of_In.
  by rewrite elem_of_intersection, elem_of_list_to_set.
Qed.

Lemma universe_canon x : x ∈ universe -> canonOf x = Some x.
Proof. intros H. apply list_elem_of_In in H. repeat destruct H as [<-|H]; [vm_compute; reflexivity..|done]. Qed.

Lemma canonRows_shownOf n : canonRows (shownOf n) = shownOf n.
Proof.
  unfold canonRows. assert (H : forall x, x ∈ shownOf n -> canonOf x = Some x).
  { intros x Hx. apply universe_canon. apply list_elem_of_In, filter_In in Hx as [Hx _]. by apply list_elem_of_In. }
  induction (shownOf n) as [|x l IH]; [done|]. cbn. rewrite (H x) by (by left). f_equal. apply IH. intros y Hy. apply H. by right.
Qed.

Lemma shown_commands l : omap (fun c => canonOf (pc_Command c)) (map (fun row => mkCommand row false) l) = canonRows l.
Proof. unfold canonRows. induction l as [|x l IH]; [done|]. cbn. rewrite IH. done. Qed.

Lemma shownOf_set n : list_to_set (shownOf n) = rowsOf n.
Proof. apply set_eq. intros x. by rewrite elem_of_list_to_set, shownOf_elem. Qed.

(** The REVOKEs of the rows are distinct. *)
Lemma revokes_row x : x ∈ universe -> revokesRow rowsOf x.
Proof.
  intros Hx. assert (Hrv : exists rv, DerivePrivilegeRevoke x = Ok rv /\
    existsb (String.eqb rv) [onXY; onXZ] = false /\
    List.filter (fun row => match DerivePrivilegeRevoke row with Ok rv' => String.eqb rv' rv | Err _ => false end) universe = [x]).
  { apply list_elem_of_In in Hx. repeat destruct Hx as [<-|Hx]; [eexists; split_and!; vm_compute; reflexivity..|done]. }
  destruct Hrv as (rv & H1 & H0 & H2). exists rv. split; [done|]. intros row n n' Hc Hin. rewrite (universe_canon x Hx) in Hc.
  injection Hc as <-. cbn [ExecutePrivilegeStatement sampleClient]. rewrite H0, H2. intros [= <-]. unfold rowsOf.
  cbn [fst]. rewrite (right_id_L ∅ (∪)). apply set_eq. intros y. rewrite !elem_of_difference, !elem_of_intersection, elem_of_difference. tauto.
Qed.

Lemma render_universe stmt x : x ∈ render stmt -> x ∈ universe.
Proof. unfold render. rewrite elem_of_list_to_set, !list_elem_of_In. by intros [H _]%filter_In. Qed.

Lemma grant_inv {A B C} (b b' a a' : A) (n n' : C) :
  ((inl (b, a) : A * A + B), n) = (inl (b', a'), n') -> b = b' /\ a = a' /\ n = n'.
Proof. by intros [= -> -> ->]. Qed.

#[global] Instance sampleServer : RoleServer render rowsOf.
Proof.
  split; [| | |reflexivity..].
  - intros role n cmds n' [= <- <-]. split.
    + rewrite shown_commands, canonRows_shownOf. apply shownOf_set.
    + apply Forall_fmap, Forall_forall. intros x Hx. split; [done|]. apply revokes_row.
      apply list_elem_of_In, filter_In in Hx as [Hx _]. by apply list_elem_of_In.
  - intros role stmt n before after n'. cbn [GrantAndReadPrivileges sampleClient]. destruct (grants n); [|done].
    intros (<- & <- & <-)%grant_inv.
    rewrite !canonRows_shownOf, !shownOf_set. split; [reflexivity|]. split; [reflexivity|]. apply set_eq. intros x. unfold rowsOf. cbn [fst].
    rewrite !elem_of_union, !elem_of_intersection, !elem_of_union, elem_of_list_to_set. pose proof (render_universe stmt x). tauto.
  - intros n stmt row Hrow Hf. unfold render. apply elem_of_list_to_set, list_elem_of_In, filter_In. split.
    + apply elem_of_intersection in Hrow as [Hrow _]. apply elem_of_list_to_set in Hrow. by apply list_elem_of_In.
    + apply orb_true_iff. right. by apply String.eqb_eq.
Qed.

(** ** Passes *)

Definition noStatus : RoleStatus := mkRoleStatus [] EmptyString EmptyString 0 [] false [] EmptyString [].
Definition roleOf (enforce : bool) (stmts : list string) (st : RoleStatus) : Neo4jRole :=
  mkRole "r" 1 (mkRoleSpec "c" EmptyString EmptyString stmts [] enforce false EmptyString) st.
Definition world (enforce : bool) (stmts : list string) (st : RoleStatus) (n : Server) : RoleWorld Server :=
  let r := roleOf enforce stmts st in mkRoleWorld 0 r r [] false [] None ∅ ∅ n [].

Definition digest (s : string) : string := "d" +:+ s.
Definition pass : RW Server roleResult := reconcileLearned digest "r" "scope" [] (fun _ => true) 30.

(** The next pass: the role as stored, with a new spec. *)
Definition then_ (enforce : bool) (stmts : list string) (w : RoleWorld Server) (n : Server) : RoleWorld Server :=
  world enforce stmts (ro_Status (rw_stored w)) n.

Definition synced (r : roleResult) : bool := match r with Synced _ => true | _ => false end.
Definition verdict (w : RoleWorld Server) : option string := c_Reason <$> syncedCondition (rw_stored w).

(** A statement joins the spec, another leaves it: the row of [onXZ] that [onXY]
    hid is granted again. *)
Definition world1 : RoleWorld Server := world true [onXY] noStatus (∅, None).
Definition world2 : RoleWorld Server := let w := (pass world1).2 in then_ true [onXY; onXZ] w (rw_neo4j w).
Definition world3 : RoleWorld Server := let w := (pass world2).2 in then_ true [onXZ] w (rw_neo4j w).

Lemma digest_given s : digest s <> EmptyString.
Proof. done. Qed.

Lemma sample_enforced stmts st n : enforced (fun _ => true) (world true stmts st n).
Proof. split; [done|done|done|apply Forall_nil_2]. Qed.

Lemma world3_enforced : enforced (fun _ => true) world3.
Proof. unfold world3, then_. apply sample_enforced. Qed.

Lemma pass_synced w : synced (pass w).1 = true -> exists k, pass w = (Synced k, (pass w).2).
Proof. destruct (pass w) as [[k|k|e] w']; [|done..]. by exists k. Qed.

Lemma history_next stmts st n k w' stmts' :
  pass (world true stmts st n) = (Synced k, w') -> roleHistory rowsOf digest (world true stmts st n) ->
  roleHistory rowsOf digest (then_ true stmts' w' (rw_neo4j w')).
Proof. intros Hp Hh. by apply (after_pass rowsOf digest (world true stmts st n) "r" "scope" [] (fun _ => true) 30 k w'); [|apply sample_enforced|..]. Qed.

Lemma sample_history : roleHistory rowsOf digest world3.
Proof.
  destruct (pass_synced world1) as [k1 H1]; [vm_compute; reflexivity|].
  destruct (pass_synced world2) as [k2 H2]; [vm_compute; reflexivity|].
  apply (history_next _ _ _ _ _ _ H2), (history_next _ _ _ _ _ _ H1). by apply never_met.
Qed.

Lemma learn_mode_in_sync_witness : rowX ∈ serverRows rowsOf (pass world3).2.
Proof.
  destruct (pass_synced world3) as [k H]; [vm_compute; reflexivity|].
  assert (Hr : rowX ∈ render onXZ) by (vm_compute; reflexivity).
  apply (proj1 (learn_mode_in_sync render rowsOf digest digest_given "r" "scope" [] (fun _ => true) 30 world3 k (pass world3).2
      sample_history world3_enforced H) onXZ);
    [by left|vm_compute; discriminate|exact Hr].
Defined.

Lemma match_is_exact_witness : exists c, syncedCondition (rw_stored (pass world3).2) = Some c /\ rowY ∉ serverRows rowsOf (pass world3).2.
Proof.
  destruct (pass_synced world3) as [k H]; [vm_compute; reflexivity|].
  destruct (match_is_exact render rowsOf digest digest_given "r" "scope" [] (fun _ => true) 30 world3 k (pass world3).2
      sample_history world3_enforced eq_refl H)
    as (c & Hc & Hexact). exists c. split; [exact Hc|].
  assert (Ht : c_Status c = ConditionTrue).
  { assert (E : option_map c_Status (syncedCondition (rw_stored (pass world3).2)) = Some ConditionTrue) by (vm_compute; reflexivity).
    rewrite Hc in E. by injection E. }
  rewrite (Hexact Ht). intros (stmt & Hin & _ & Hy). change (stmt ∈ [onXZ]) in Hin. apply list_elem_of_singleton in Hin. subst stmt.
  revert Hy. assert (Hn : bool_decide (rowY ∈ render onXZ) = false) by (vm_compute; reflexivity). by apply bool_decide_eq_false in Hn.
Defined.

Definition shownSame : gmap string string := list_to_map (map (fun row => (row, row)) universe).
Definition learnedXY : learnState :=
  mkLearnState "dscope" {[ onXY := mkLearned [rowX; rowY] false ]} {[ rowZ ]}
    shownSame.

Lemma shownSame_all x : x ∈ universe -> shownSame !! x = Some x.
Proof.
  intros H. apply elem_of_list_to_map_1.
  - apply NoDup_ListNoDup. repeat constructor; cbn; intuition discriminate.
  - by apply list_elem_of_In, (in_map (fun row => (row, row))), list_elem_of_In.
Qed.

Lemma learnState_roundtrip_witness :
  ls_baseline (learnStateFromStatus (ro_Status (rw_stored (setLearnState learnedXY [onXY] world1).2))) = {[ rowZ ]}.
Proof.
  assert (H : setLearnState learnedXY [onXY] world1 = (None, (setLearnState learnedXY [onXY] world1).2)) by (vm_compute; reflexivity).
  apply (learnState_roundtrip rowsOf learnedXY [onXY] world1 _); [|..|exact H].
  - split.
    + intros canon shown Hl. change (shownSame !! canon = Some shown) in Hl.
      apply elem_of_list_to_map_2, list_elem_of_In, in_map_iff in Hl as (x & [= -> ->] & Hx). by apply universe_canon, list_elem_of_In.
    + intros x Hx. assert (Hu : x ∈ universe).
      { destruct Hx as [Hx|(t & lr & Hl & Hx)].
        - change (x ∈ ({[ rowZ ]} : gset string)) in Hx. apply elem_of_singleton in Hx as ->. do 2 right. by left.
        - cbn [learnedXY ls_renderings] in Hl. apply lookup_singleton_Some in Hl as [_ <-]. cbn in Hx. apply elem_of_cons in Hx as [->|Hx]; [by left|].
          apply list_elem_of_singleton in Hx as ->. right. by left. }
      change (is_Some (shownSame !! x)). exists x. by apply shownSame_all.
  - intros t lr Hl. cbn [learnedXY ls_renderings] in Hl. apply lookup_singleton_Some in Hl as [<- _]. by left.
  - reflexivity.
  - apply Forall_nil_2.
Defined.

(** ** Outside it *)

(** Someone else's row: it hides a row of a new statement, is revoked as nobody's,
    and the statement is never granted again. The role reports a match without
    access to x. *)
Definition met : RoleWorld Server := (pass (world true [] noStatus (∅, None))).2.
Definition afterForeign : roleResult * RoleWorld Server := pass (then_ true [onXY] met ({[rowX]}, None)).
Definition afterForeign2 : roleResult * RoleWorld Server :=
  pass (then_ true [onXY] afterForeign.2 (rw_neo4j afterForeign.2)).

Theorem foreign_row_lost :
  synced afterForeign2.1 = true /\ verdict afterForeign2.2 = Some ConditionReasonPrivilegesSynced /\
  shownOf (rw_neo4j afterForeign2.2) = [rowY] /\ rowX ∈ render onXY.
Proof. vm_compute. done. Qed.

(** A grant that fails after the revocations: what it would have restored is lost,
    and later passes report a match. *)
Definition failed : roleResult * RoleWorld Server :=
  let w := (pass world2).2 in pass (then_ true [onXZ] w ((rw_neo4j w).1, Some O)).
Definition afterFailed : roleResult * RoleWorld Server := pass (then_ true [onXZ] failed.2 ((rw_neo4j failed.2).1, None)).

Theorem interrupted_relearn_lost :
  synced failed.1 = false /\ synced afterFailed.1 = true /\
  verdict afterFailed.2 = Some ConditionReasonPrivilegesSynced /\
  shownOf (rw_neo4j afterFailed.2) = [rowZ] /\ rowX ∈ render onXZ.
Proof. vm_compute. done. Qed.

(** enforcePrivileges turned off while a statement leaves the spec, and on again:
    what that statement hid is revoked and not granted again. *)
Definition lenient : roleResult * RoleWorld Server :=
  let w := (pass world2).2 in pass (then_ false [onXZ] w (rw_neo4j w)).
Definition strictAgain : roleResult * RoleWorld Server := pass (then_ true [onXZ] lenient.2 (rw_neo4j lenient.2)).

Theorem enforcement_toggle_lost :
  synced lenient.1 = true /\ synced strictAgain.1 = true /\
  verdict strictAgain.2 = Some ConditionReasonPrivilegesSynced /\
  shownOf (rw_neo4j strictAgain.2) = [rowZ] /\ rowX ∈ render onXZ.
Proof. vm_compute. done. Qed.
End RoleSample.
