(* ===== verification/RoleProbe.v ===== *)
(** Probe mode of the role controller (src/internal/controller/
    neo4jrole_normalise.go and the rest of Reconcile in neo4jrole_controller.go):
    how Neo4j stores each statement is asked once, with a throwaway role, and
    cached; the role's rows are compared with that. The name of a probe role
    (a prefix and random hex digits) is a parameter. *)
From S2P Require Import Prelude GoStrings ClusterTypes Conditions Privileges TargetWait Roles.

Open Scope Z_scope.

Definition renderingPlaceholderRole : string := "operator_rendering_grantee".
Definition renderingCacheTTL : Z := 60 * minute.
Definition renderingCacheMax : nat := 4096.

(** The byte 0. *)
Definition NUL : string := String "000" EmptyString.

(** * The cache *)

Abbreviation renderingCache := (gmap string (list string * Z)).

Definition cacheGet (now : Z) (key : string) (entries : renderingCache) : option (list string) :=
  match entries !! key with
  | Some (rows, at_) => if renderingCacheTTL <? now - at_ then None else Some rows
  | None => None
  end.

Definition cachePut (now : Z) (key : string) (rows : list string) (entries : renderingCache) : renderingCache :=
  <[key := (rows, now)]> (if (renderingCacheMax <=? size entries)%nat then ∅ else entries).

(** * Rendering *)

(** [ReplacePrivilegeGrantee] of every row, or none. *)
Fixpoint replaceGrantees (rows : list string) (role : string) : option (list string) :=
  match rows with
  | [] => Some []
  | row :: rest =>
      match ReplacePrivilegeGrantee row role with
      | Ok placeholder => cons placeholder <$> replaceGrantees rest role
      | Err _ => None
      end
  end.

Section Probe.
Context {S : Type} `{!RoleClient S}.
Variable probeRoleFor : string -> string.

(** The statement sent to the throwaway role, and the rows it was stored as. *)
Definition probeStatement (stmt : string) : RW S (option (list string)) :=
  match ReplacePrivilegeGrantee stmt (probeRoleFor stmt) with
  | Err _ => mret None
  | Ok probeStmt =>
      r ← askR (ProbePrivilegeRendering (probeRoleFor stmt) probeStmt);
      mret (match r with
            | inr _ | inl [] => None
            | inl stored => replaceGrantees stored renderingPlaceholderRole
            end)
  end.

Definition renderStatement (scope stmt : string) (probe : string -> bool) : RW S (option (list string)) :=
  match ReplacePrivilegeGrantee stmt renderingPlaceholderRole with
  | Err _ => mret None
  | Ok keyed =>
      let cacheable := given scope in
      let key := scope +:+ NUL +:+ keyed in
      now ← getsR rw_now;
      entries ← getsR rw_cache;
      match (if cacheable then cacheGet now key entries else None) with
      | Some rows => mret (Some rows)
      | None =>
          if negb (probe stmt) then mret None
          else
            r ← probeStatement stmt;
            match r with
            | None => mret None
            | Some rows =>
                (if cacheable then modifyR (fun w => set_rw_cache (cachePut now key rows (rw_cache w)) w) else mret tt) ;;
                mret (Some rows)
            end
      end
  end.

(** A row of the desired set and the statement that makes it: the first one. *)
Definition addDesired (stmt : string) (m : gmap string string) (canon : string) : gmap string string :=
  match m !! canon with Some _ => m | None => <[canon := stmt]> m end.

(** The rows a rendering stands for on the role, the statement's own text where one
    names no grantee. *)
Definition desiredRows (roleName fallback : string) (rows : list string) : list string :=
  map (fun row => match ReplacePrivilegeGrantee row roleName with
                  | Ok mapped => CanonicalisePrivilegeStatement mapped
                  | Err _ => fallback
                  end) rows.

Fixpoint normaliseFrom (scope roleName : string) (stmts : list string) (probe : string -> bool)
    (m : gmap string string) : RW S (gmap string string) :=
  match stmts with
  | [] => mret m
  | stmt :: rest =>
      let fallback := CanonicalisePrivilegeStatement stmt in
      if negb (given fallback) then normaliseFrom scope roleName rest probe m
      else
        r ← renderStatement scope stmt probe;
        normaliseFrom scope roleName rest probe
          (fold_left (addDesired stmt) (match r with None => [fallback] | Some rows => desiredRows roleName fallback rows end) m)
  end.

(** The desired rows, sorted, and the statement each comes from. *)
Definition normaliseDesired (scope roleName : string) (stmts : list string) (probe : string -> bool)
  : RW S (list string * gmap string string) :=
  m ← normaliseFrom scope roleName stmts probe ∅;
  mret (sort.Strings (elements (dom m)), m).

(** * The pass *)

(** The missing rows: the statements skipped for a missing database, and how many
    were executed; each is executed once. *)
Fixpoint applyMissing (toAdd : list string) (desiredByCanonical : gmap string string) (resolves : string -> bool)
    (requeue : Z) (unresolvable executed : gset string) (applied : Z) : RW S ((gset string * Z) + roleResult) :=
  match toAdd with
  | [] => mret (inl (unresolvable, applied))
  | canon :: rest =>
      let stmt := match default EmptyString (desiredByCanonical !! canon) with EmptyString => canon | s => s end in
      if negb (resolves stmt) then
        applyMissing rest desiredByCanonical resolves requeue ({[stmt]} ∪ unresolvable) executed applied
      else if bool_decide (stmt ∈ executed) then
        applyMissing rest desiredByCanonical resolves requeue unresolvable executed applied
      else
        e ← sendR stmt (ExecutePrivilegeStatement stmt);
        match e with
        | Some e => res ← fail ("apply privilege " +:+ fmt.q stmt +:+ " failed") (Some e) requeue; mret (inr res)
        | None =>
            applyMissing rest desiredByCanonical resolves requeue unresolvable ({[stmt]} ∪ executed) (applied + 1)
        end
  end.

Definition probeVerdict (drift : bool) : string * string * string :=
  if drift then (ConditionFalse, ConditionReasonPrivilegesDrifted,
                 "some privileges could not be reconciled (e.g. immutable). See events.")
  else (ConditionTrue, ConditionReasonPrivilegesSynced, "privileges match spec").

Definition reconcileProbed (roleName scope : string) (resolves : string -> bool) (requeue : Z) : RW S roleResult :=
  role ← getsR rw_role;
  d ← normaliseDesired scope roleName (rolePrivilegeStatements role) resolves;
  let '(desired, desiredByCanonical) := d in
  r ← fetchCurrentPrivileges roleName;
  match r with
  | inr e => fail "fetch current privileges failed" (Some e) requeue
  | inl (current, immutableSet, currentByCanonical) =>
      let toAdd := setDifference desired current in
      let toRemove := if rp_EnforcePrivileges (ro_Spec role) then setDifference current desired else [] in
      r ← applyMissing toAdd desiredByCanonical resolves requeue ∅ ∅ 0;
      match r with
      | inr res => mret res
      | inl (unresolvable, applied) =>
          r ← revokeUnwanted toRemove immutableSet currentByCanonical requeue;
          match r with
          | inr res => mret res
          | inl (drift, revoked) =>
              let '(status, reason, msg) := probeVerdict drift in
              finishReconcile roleName applied (Z.of_nat (length revoked)) (Z.of_nat (size unresolvable)) drift
                status reason msg requeue
          end
      end
  end.
End Probe.
