(* ===== verification/ProbeSafety.v ===== *)
(** What probe mode (RoleProbe.v) does to a role: whatever the role had and whatever
    happened before, a pass in sync leaves exactly the rows of the spec's
    statements, given a server that answers the probes ([ProbeServer]) and a cache
    that holds what it answered. *)
From S2P Require Import Prelude GoStrings ClusterTypes Conditions Privileges TargetWait Roles RoleLearn RoleSafety RolePass RolePromise RoleProbe.

Open Scope Z_scope.

(** * The cache *)

Lemma cachePut_size now key rows entries :
  (size entries <= renderingCacheMax)%nat -> (size (cachePut now key rows entries) <= renderingCacheMax)%nat.
Proof.
  intros H. unfold cachePut. assert (Hmax : (1 <= renderingCacheMax)%nat) by (apply Nat.leb_le; vm_compute; reflexivity).
  destruct (renderingCacheMax <=? size entries)%nat eqn:E.
  - rewrite map_size_insert, lookup_empty, map_size_empty. lia.
  - apply Nat.leb_gt in E. pose proof (map_size_insert key (rows, now) entries) as Hs.
    destruct (entries !! key); unfold id in Hs; lia.
Qed.

Lemma cacheGet_put now now' key key' rows entries got :
  cacheGet now' key' (cachePut now key rows entries) = Some got ->
  (key' = key /\ got = rows) \/ cacheGet now' key' entries = Some got.
Proof.
  unfold cacheGet, cachePut. destruct (decide (key' = key)) as [->|Hne].
  - rewrite lookup_insert_eq. destruct (_ <? _); [done|]. intros [= <-]. by left.
  - rewrite lookup_insert_ne by done. destruct (_ <=? _)%nat; [by rewrite lookup_empty|]. by right.
Qed.

(** * Neo4j's part *)

Section Probe.
Context {S : Type} `{!RoleClient S} (render : string -> gset string) (rows : S -> gset string)
  `{!RoleServer render rows}.
Variable roleName : string.
Variable probeRoleFor : string -> string.

(** The statements granted to the role. *)
Variable mine : string -> Prop.

(** [rs], for the placeholder role, is how [keyed] is stored: the rows of every
    statement of the role that reads so with the placeholder for its grantee. *)
Definition faithful (rs : list string) (keyed : string) : Prop :=
  forall stmt, mine stmt ->
    ReplacePrivilegeGrantee stmt renderingPlaceholderRole = Ok keyed ->
    (list_to_set (desiredRows roleName (CanonicalisePrivilegeStatement stmt) rs) : gset string) = render stmt.

(** A GRANT or DENY of the role adds its rows; a probe answers with them and leaves
    the role alone. *)
Class ProbeServer : Prop := {
  execute_rows : forall stmt n n', mine stmt ->
    ExecutePrivilegeStatement stmt n = (None, n') -> rows n' = rows n ∪ render stmt;
  probe_answers : forall stmt keyed n, mine stmt ->
    ReplacePrivilegeGrantee stmt renderingPlaceholderRole = Ok keyed ->
    exists probeStmt stored rs n', ReplacePrivilegeGrantee stmt (probeRoleFor stmt) = Ok probeStmt /\
      ProbePrivilegeRendering (probeRoleFor stmt) probeStmt n = (inl stored, n') /\ stored <> [] /\
      replaceGrantees stored renderingPlaceholderRole = Some rs /\ faithful rs keyed /\ rows n' = rows n
}.
Context `{PS : !ProbeServer}.

Abbreviation serverRows := (serverRows rows).

(** The statements of a role that is valid: each is granted to it. *)
Definition ownStatement (stmt : string) : Prop :=
  mine stmt /\
  exists keyed, ReplacePrivilegeGrantee stmt renderingPlaceholderRole = Ok keyed.

(** The cache holds what the server answered in this scope. *)
Definition truthful (scope : string) (w : RoleWorld S) : Prop :=
  forall now key got keyed, cacheGet now key (rw_cache w) = Some got -> key = scope +:+ NUL +:+ keyed -> faithful got keyed.

Lemma scope_key_inj scope a b : scope +:+ NUL +:+ a = scope +:+ NUL +:+ b -> a = b.
Proof. induction scope as [|c scope IH]; cbn; intros E; injection E as E; auto. Qed.

(** The rendering of a statement, from the cache or a probe. *)
Lemma renderStatement_spec scope stmt probe w r w' :
  ownStatement stmt -> probe stmt = true -> truthful scope w -> renderStatement probeRoleFor scope stmt probe w = (r, w') ->
  (exists rs, r = Some rs /\ (list_to_set (desiredRows roleName (CanonicalisePrivilegeStatement stmt) rs) : gset string) = render stmt) /\
  truthful scope w' /\ serverRows w' = serverRows w /\ rw_role w' = rw_role w.
Proof.
  intros [Hm [keyed Hk]] Hp Ht. unfold renderStatement. rewrite Hk, Hp. unfold mbind, RW_bind, getsR. cbn [negb].
  set (key := scope +:+ NUL +:+ keyed).
  destruct (if given scope then cacheGet (rw_now w) key (rw_cache w) else None) as [got|] eqn:Ec.
  - intros [= <- <-]. split; [|done]. exists got. split; [done|]. destruct (given scope); [|done].
    by apply (Ht (rw_now w) key got keyed Ec).
  - destruct (probe_answers stmt keyed (rw_neo4j w) Hm Hk) as (ps & stored & rs & n' & E1 & E2 & E3 & E4 & Hf & En).
    unfold probeStatement. rewrite E1. unfold mbind, RW_bind, askR. rewrite E2.
    destruct stored as [|x stored]; [done|]. cbn [mret RW_ret]. rewrite E4.
    assert (Hd : list_to_set (desiredRows roleName (CanonicalisePrivilegeStatement stmt) rs) = render stmt) by by apply Hf.
    destruct (given scope); intros [= <- <-].
    + split; [by exists rs|]. split; [|done]. intros now key' got keyed' Hg Hkey. cbn in Hg.
      apply cacheGet_put in Hg as [[-> ->]|Hg]; [|by apply (Ht now key')].
      apply scope_key_inj in Hkey. by subst keyed'.
    + split; [by exists rs|]. done.
Qed.

Lemma addDesired_fold stmt l m :
  dom (fold_left (addDesired stmt) l m) = dom m ∪ (list_to_set l : gset string) /\
  forall x s, fold_left (addDesired stmt) l m !! x = Some s -> m !! x = Some s \/ (s = stmt /\ x ∈ l).
Proof.
  revert m. induction l as [|y l IH]; intros m; cbn [fold_left].
  - split; [by rewrite list_to_set_nil, (right_id_L ∅ (∪))|]. auto.
  - destruct (IH (addDesired stmt m y)) as [H1 H2]. unfold addDesired in *. destruct (m !! y) as [s0|] eqn:E.
    + split; [|intros x s Hx; destruct (H2 x s Hx) as [?|[? ?]]; [by left|right; split; [done|by right]]].
      rewrite H1, list_to_set_cons. assert (y ∈ dom m) by (apply elem_of_dom; eauto). set_solver.
    + split; [rewrite H1, dom_insert_L, list_to_set_cons; set_solver|].
      intros x s Hx. destruct (H2 x s Hx) as [Hy|[? ?]]; [|right; split; [done|by right]].
      apply lookup_insert_Some in Hy as [[<- <-]|[_ Hy]]; [right; split; [done|by left]|by left].
Qed.

(** The rows of the spec. *)
Definition specRows (stmts : list string) (x : string) : Prop :=
  exists stmt, stmt ∈ stmts /\ CanonicalisePrivilegeStatement stmt <> EmptyString /\ x ∈ render stmt.

Lemma normaliseFrom_spec scope stmts probe m w m' w' :
  Forall ownStatement stmts -> (forall stmt : string, stmt ∈ stmts -> probe stmt = true) -> truthful scope w ->
  normaliseFrom probeRoleFor scope roleName stmts probe m w = (m', w') ->
  (forall x, x ∈ dom m' <-> x ∈ dom m \/ specRows stmts x) /\
  (forall x s, m' !! x = Some s -> m !! x = Some s \/ (s ∈ stmts /\ CanonicalisePrivilegeStatement s <> EmptyString /\ x ∈ render s)) /\
  truthful scope w' /\ serverRows w' = serverRows w /\ rw_role w' = rw_role w.
Proof.
  intros Hall. revert m w. induction Hall as [|stmt stmts Hown _ IH]; intros m w Hp Ht; cbn [normaliseFrom].
  - intros [= <- <-]. split_and!; try done; [|auto]. intros x. split; [by left|]. intros [?|(s & Hs & _)]; [done|].
    by apply elem_of_nil in Hs.
  - assert (Hp' : forall s, s ∈ stmts -> probe s = true) by (intros s Hs; apply Hp; by right).
    destruct (given (CanonicalisePrivilegeStatement stmt)) eqn:Eg; cbn [negb].
    + unfold mbind, RW_bind. destruct (renderStatement _ _ _ _ w) as [r w1] eqn:Er.
      apply renderStatement_spec in Er as ((rs & -> & Hrs) & Ht1 & Hr1 & Ho1); [|done|by apply Hp; left|done].
      destruct (addDesired_fold stmt (desiredRows roleName (CanonicalisePrivilegeStatement stmt) rs) m) as [Hd Hv].
      intros Hn. apply IH in Hn as (H1 & H2 & H3 & H4 & H5); [|done..]. split_and!; [| |done|congruence..].
      * intros x. rewrite H1, Hd, Hrs, elem_of_union. unfold given in Eg. breflect. split.
        -- intros [[?|?]|(s & ? & ? & ?)]; [by left|right; exists stmt; split_and!; [by left|done..]|].
           right. exists s. split_and!; [by right|done..].
        -- intros [?|(s & [->|Hs]%elem_of_cons & Hc & Hx)]; [tauto|tauto|]. right. by exists s.
      * intros x s Hx. destruct (H2 x s Hx) as [Hx'|[? ?]]; [|right; split; [by right|done]].
        destruct (Hv x s Hx') as [?|[-> Hin]]; [by left|]. right. split; [by left|]. unfold given in Eg. breflect.
        split; [done|]. rewrite <-Hrs. by apply elem_of_list_to_set.
    + intros Hn. apply IH in Hn as (H1 & H2 & H3); [|done..]. split_and!; [| |apply H3..].
      * intros x. rewrite H1. unfold given in Eg. breflect. split.
        -- intros [?|(s & ? & ? & ?)]; [by left|]. right. exists s. split_and!; [by right|done..].
        -- intros [?|(s & [->|Hs]%elem_of_cons & Hc & Hx)]; [by left|done|]. right. by exists s.
      * intros x s Hx. destruct (H2 x s Hx) as [?|[? ?]]; [by left|]. right. split; [by right|done].
Qed.

(** ** Applying *)

Definition statementOf (desiredByCanonical : gmap string string) (canon : string) : string :=
  match default EmptyString (desiredByCanonical !! canon) with EmptyString => canon | s => s end.

(** Every missing row's statement is executed; only statements of the spec are. *)
Lemma applyMissing_spec (stmts : list string) toAdd desiredByCanonical resolves requeue unresolvable executed applied w r w' :
  (forall stmt : string, stmt ∈ stmts -> resolves stmt = true /\ mine stmt) ->
  (forall canon, canon ∈ toAdd -> statementOf desiredByCanonical canon ∈ stmts) ->
  (forall stmt, stmt ∈ executed -> render stmt ⊆ serverRows w) ->
  applyMissing toAdd desiredByCanonical resolves requeue unresolvable executed applied w = (inl r, w') ->
  serverRows w ⊆ serverRows w' /\ (forall x, x ∈ serverRows w' -> x ∈ serverRows w \/ exists stmt, stmt ∈ stmts /\ x ∈ render stmt) /\
  (forall canon, canon ∈ toAdd -> render (statementOf desiredByCanonical canon) ⊆ serverRows w') /\
  rw_role w' = rw_role w.
Proof.
  intros Hs. revert executed unresolvable applied w.
  induction toAdd as [|canon toAdd IH]; intros executed unresolvable applied w Hin Hex; cbn [applyMissing].
  - intros [= _ <-]. split_and!; [done|by left| |done]. intros canon Hc. by apply elem_of_nil in Hc.
  - fold (statementOf desiredByCanonical canon). set (stmt := statementOf desiredByCanonical canon).
    assert (Hstmt : stmt ∈ stmts) by (apply Hin; by left). destruct (Hs stmt Hstmt) as [Hr Hm]. rewrite Hr. cbn [negb].
    assert (Hin' : forall c, c ∈ toAdd -> statementOf desiredByCanonical c ∈ stmts) by (intros c Hc; apply Hin; by right).
    destruct (bool_decide (stmt ∈ executed)) eqn:Ex; breflect.
    + intros Hn. apply IH in Hn as (H1 & H2 & H3 & H4); [|done..]. split_and!; try done.
      intros c [->|Hc]%elem_of_cons; [|by apply H3]. specialize (Hex _ Ex). set_solver.
    + unfold mbind, RW_bind, sendR. destruct (ExecutePrivilegeStatement stmt (rw_neo4j w)) as [[e|] n] eqn:Ee.
      { by destruct (fail _ _ _ _). }
      pose proof (execute_rows stmt _ _ Hm Ee) as Hrows. intros Hn.
      assert (Hw1 : RoleSafety.serverRows rows (set_rw_neo4j n (set_rw_sent (stmt :: rw_sent w) w)) = serverRows w ∪ render stmt) by done.
      apply IH in Hn as (H1 & H2 & H3 & H4); [|done|].
      2: { rewrite Hw1. intros s [->%elem_of_singleton|Hx]%elem_of_union; [set_solver|]. specialize (Hex _ Hx). set_solver. }
      rewrite Hw1 in H1. split_and!; [set_solver| | |done].
      * intros x Hx. destruct (H2 x Hx) as [Hx'|?]; [|by right]. rewrite Hw1 in Hx'.
        apply elem_of_union in Hx' as [?|?]; [by left|]. right. eauto.
      * intros c [->|Hc]%elem_of_cons; [|by apply H3]. fold stmt. set_solver.
Qed.

Lemma applyMissing_stops toAdd desiredByCanonical resolves requeue unresolvable executed applied :
  stopsFailed (applyMissing toAdd desiredByCanonical resolves requeue unresolvable executed applied).
Proof.
  revert unresolvable executed applied. induction toAdd as [|canon toAdd IH]; intros; cbn [applyMissing]; [apply stopsFailed_ret|].
  destruct (negb _); [apply IH|]. destruct (bool_decide _); [apply IH|].
  apply stopsFailed_bind. intros [e|]; [apply stopsFailed_fail|apply IH].
Qed.

Lemma setDifference_elem a b x : x ∈ setDifference a b <-> x ∈ a /\ x ∉ b.
Proof.
  unfold setDifference. rewrite list_elem_of_In, filter_In, negb_true_iff, <-list_elem_of_In, <-not_true_iff_false, existsb_exists.
  split; intros [H1 H2]; (split; [done|]).
  - intros Hb. apply H2. exists x. split; [by apply list_elem_of_In|apply String.eqb_refl].
  - intros (y & Hy & E). breflect. subst y. by apply H2, list_elem_of_In.
Qed.

Lemma renderStatement_size scope stmt probe w r w' :
  (size (rw_cache w) <= renderingCacheMax)%nat -> renderStatement probeRoleFor scope stmt probe w = (r, w') ->
  (size (rw_cache w') <= renderingCacheMax)%nat.
Proof.
  intros Hsz. unfold renderStatement. destruct (ReplacePrivilegeGrantee _ _) as [keyed|]; [|by intros [= _ <-]].
  unfold mbind, RW_bind, getsR. destruct (if given scope then _ else _); [by intros [= _ <-]|].
  destruct (negb _); [by intros [= _ <-]|]. destruct (probeStatement _ _ w) as [rs w1] eqn:E.
  assert (Hc : rw_cache w1 = rw_cache w).
  { revert E. unfold probeStatement. destruct (ReplacePrivilegeGrantee _ _); [|by intros [= _ <-]].
    unfold mbind, RW_bind, askR. destruct (ProbePrivilegeRendering _ _ _). by intros [= _ <-]. }
  destruct rs as [rs|]; [|by intros [= _ <-]; rewrite Hc].
  destruct (given scope); intros [= _ <-]; cbn; rewrite Hc; [by apply cachePut_size|done].
Qed.

(** C40: The rendering cache is bounded: from a cache of at most 4096 entries, the
    renderings of any list of statements, in any scope and whatever the server
    answers, leave at most 4096, so no sequence of passes outgrows it. *)
Theorem renderingCache_bounded scope stmts probe w :
  (size (rw_cache w) <= renderingCacheMax)%nat ->
  (size (rw_cache (normaliseDesired probeRoleFor scope roleName stmts probe w).2) <= renderingCacheMax)%nat.
Proof.
  intros Hsz. unfold normaliseDesired, mbind, RW_bind.
  enough (Hn : forall m, (size (rw_cache (normaliseFrom probeRoleFor scope roleName stmts probe m w).2) <= renderingCacheMax)%nat).
  { specialize (Hn ∅). by destruct (normaliseFrom _ _ _ _ _ _ w). }
  revert w Hsz. induction stmts as [|stmt stmts IH]; intros w Hsz m; cbn [normaliseFrom]; [done|].
  destruct (negb _); [by apply IH|]. unfold mbind, RW_bind. destruct (renderStatement _ _ _ _ w) as [r w1] eqn:E.
  apply IH. by apply (renderStatement_size _ _ _ _ _ _ Hsz E).
Qed.

(** C6: Probe mode is exact and needs no history. Whatever rows the role has that
    can be revoked, its own, someone else's or left by a pass that failed, a pass
    that reports the role in sync leaves on it exactly the rows Neo4j stores the
    spec's statements as. This is for an enforced spec (enforcePrivileges on, every
    statement granted to this role and its database resolved), for a cache that
    holds what the server answered in this scope, and for a server as [RoleServer]
    and [ProbeServer] say: it shows no immutable row, each row has a REVOKE that
    removes it, and every probe of a statement of the role answers with its
    rendering. *)
Theorem probe_exact scope resolves requeue w k w' :
  truthful scope w -> Forall ownStatement (rolePrivilegeStatements (rw_role w)) ->
  (forall stmt, stmt ∈ rolePrivilegeStatements (rw_role w) -> resolves stmt = true) ->
  rp_EnforcePrivileges (ro_Spec (rw_role w)) = true ->
  reconcileProbed probeRoleFor roleName scope resolves requeue w = (Synced k, w') ->
  forall row, row ∈ serverRows w' <-> specRows (rolePrivilegeStatements (rw_role w)) row.
Proof.
  intros Ht Hown Hres Hen. unfold reconcileProbed, normaliseDesired, mbind, RW_bind, getsR, mret, RW_ret.
  set (stmts := rolePrivilegeStatements (rw_role w)) in *.
  destruct (normaliseFrom _ _ _ _ _ _ w) as [m w1] eqn:E1.
  apply normaliseFrom_spec in E1 as (Hd & Hv & _ & Hr1 & Ho1); [|done..].
  destruct (fetchCurrentPrivileges roleName w1) as [[[[current imm] byC]|e] w2] eqn:E2; [|intros H; by apply fail_not_synced in H].
  apply (fetch_spec render rows) in E2 as (Ha2 & _ & _ & Hcur & Hnd & -> & Hd2 & Hby). rewrite Hen.
  destruct (applyMissing _ _ _ _ _ _ _ w2) as [[[unresolvable applied]|res] w3] eqn:E3.
  2: { intros [= -> ->]. by apply applyMissing_stops in E3. }
  set (stmts1 := List.filter (fun s => given (CanonicalisePrivilegeStatement s)) stmts).
  assert (Hval : forall x, x ∈ dom m -> statementOf m x ∈ stmts1 /\ x ∈ render (statementOf m x)).
  { intros x [s Hs]%elem_of_dom. unfold statementOf. rewrite Hs. unfold default, id.
    destruct (Hv x s Hs) as [Hs'|(H1 & H2 & H3)]; [by rewrite lookup_empty in Hs'|].
    assert (s ∈ stmts1); [|by destruct s]. apply list_elem_of_In, filter_In. split; [by apply list_elem_of_In|].
    unfold given. by rewrite (proj2 (String.eqb_neq _ _) H2). }
  set (desired := sort.Strings (elements (dom m))) in *.
  assert (Hdes : forall x, x ∈ desired <-> x ∈ dom m) by (intros x; subst desired; by rewrite Strings_elem, elem_of_elements).
  assert (P1 : forall s, s ∈ stmts1 -> resolves s = true /\ mine s).
  { intros s Hs. apply list_elem_of_In, filter_In in Hs as [Hs _]. apply list_elem_of_In in Hs.
    split; [by apply Hres|]. rewrite Forall_forall in Hown. by apply Hown. }
  assert (P2 : forall c, c ∈ setDifference desired current -> statementOf m c ∈ stmts1).
  { intros c Hc. apply setDifference_elem in Hc as [Hc _]. by apply Hval, Hdes. }
  assert (P3 : forall s, s ∈ (∅ : gset string) -> render s ⊆ serverRows w2) by by intros s ?%elem_of_empty.
  destruct (applyMissing_spec stmts1 _ _ _ _ _ _ _ _ _ _ P1 P2 P3 E3) as (H1 & H2 & H3 & _).
  destruct (revokeUnwanted _ _ _ _ w3) as [[[drift revoked]|res] w4] eqn:E4; [|intros [= -> ->]; by apply revokeUnwanted_stops in E4].
  apply (revokeUnwanted_spec rows) in E4 as (-> & Hr4 & _);
    [|done|by apply NoDup_ListNoDup, List.NoDup_filter, NoDup_ListNoDup|].
  2: { intros x Hx. apply setDifference_elem in Hx as [Hx _]. rewrite Hd2, <-Hcur. split; [done|]. by apply H1, Hcur. }
  destruct (probeVerdict drift) as [[status reason] msg]. intros Hfin row.
  rewrite (after_rows _ _ _ (leaves_finish render rows _ _ _ _ _ _ _ _ _ _ _ _ Hfin)), Hr4.
  rewrite elem_of_difference, elem_of_list_to_set, setDifference_elem, Hdes, Hcur.
  assert (Hspec : row ∈ dom m <-> specRows stmts row).
  { rewrite Hd, dom_empty_L. split; [intros [?%elem_of_empty|?]; done|by right]. }
  rewrite <-Hspec. split.
  - intros [Hx Hn]. destruct (H2 row Hx) as [Hc|(s & Hs & Hx')].
    + destruct (decide (row ∈ dom m)); tauto.
    + apply Hspec. apply list_elem_of_In, filter_In in Hs as [Hs Hg]. exists s. unfold given in Hg. breflect.
      split_and!; [by apply list_elem_of_In|done..].
  - intros Hm. split; [|tauto]. destruct (decide (row ∈ serverRows w2)) as [Hc|Hc]; [by apply H1|].
    apply (H3 row); [|by apply Hval]. apply setDifference_elem. by rewrite Hdes, Hcur.
Qed.
End Probe.

Module ProbeSample.
Import RoleSample.

Definition mine (stmt : string) : Prop := stmt ∈ [onXY; onXZ].
Definition probeRoleFor (_ : string) : string := "operator_privilege_probe_00000000".

Lemma mine_cases (P : string -> Prop) : P onXY -> P onXZ -> forall stmt, mine stmt -> P stmt.
Proof. unfold mine. intros H1 H2 stmt [->|H]%elem_of_cons; [done|]. apply list_elem_of_singleton in H as ->. done. Qed.

Definition keyedXY : string := Eval vm_compute in match ReplacePrivilegeGrantee onXY renderingPlaceholderRole with Ok k => k | Err _ => EmptyString end.
Definition keyedXZ : string := Eval vm_compute in match ReplacePrivilegeGrantee onXZ renderingPlaceholderRole with Ok k => k | Err _ => EmptyString end.

Definition placeholderRow (row : string) : string :=
  match ReplacePrivilegeGrantee row renderingPlaceholderRole with Ok r => r | Err _ => EmptyString end.

Definition faithfulTo (rows : list string) (keyed stmt : string) : Prop :=
  ReplacePrivilegeGrantee stmt renderingPlaceholderRole = Ok keyed ->
  (list_to_set (desiredRows "r" (CanonicalisePrivilegeStatement stmt) rows) : gset string) = render stmt.

Lemma faithful_XY : faithful render "r" mine (map placeholderRow [rowX; rowY]) keyedXY.
Proof.
  refine (mine_cases (faithfulTo (map placeholderRow [rowX; rowY]) keyedXY) _ _); [intros _|intros E; vm_compute in E; discriminate].
  apply (bool_decide_eq_true_1 _). vm_compute. reflexivity.
Qed.

Lemma faithful_XZ : faithful render "r" mine (map placeholderRow [rowX; rowZ]) keyedXZ.
Proof.
  refine (mine_cases (faithfulTo (map placeholderRow [rowX; rowZ]) keyedXZ) _ _); [intros E; vm_compute in E; discriminate|intros _].
  apply (bool_decide_eq_true_1 _). vm_compute. reflexivity.
Qed.

(** What the probes of the two statements answer. *)
Definition answers (stmt : string) (rs : list string) (keyed : string) : Prop :=
  ReplacePrivilegeGrantee stmt renderingPlaceholderRole = Ok keyed /\
  forall n, exists probeStmt stored n', ReplacePrivilegeGrantee stmt (probeRoleFor stmt) = Ok probeStmt /\
    ProbePrivilegeRendering (probeRoleFor stmt) probeStmt n = (inl stored, n') /\ stored <> [] /\
    replaceGrantees stored renderingPlaceholderRole = Some rs /\ rowsOf n' = rowsOf n.

Lemma answers_XY : answers onXY (map placeholderRow [rowX; rowY]) keyedXY.
Proof.
  split; [vm_compute; reflexivity|]. intros n. eexists _, _, n.
  split; [vm_compute; reflexivity|]. split; [vm_compute; reflexivity|]. split; [done|]. split; [vm_compute; reflexivity|reflexivity].
Qed.

Lemma answers_XZ : answers onXZ (map placeholderRow [rowX; rowZ]) keyedXZ.
Proof.
  split; [vm_compute; reflexivity|]. intros n. eexists _, _, n.
  split; [vm_compute; reflexivity|]. split; [vm_compute; reflexivity|]. split; [done|]. split; [vm_compute; reflexivity|reflexivity].
Qed.

Lemma probe_one stmt rs keyed0 : answers stmt rs keyed0 -> faithful render "r" mine rs keyed0 ->
  forall keyed n, ReplacePrivilegeGrantee stmt renderingPlaceholderRole = Ok keyed ->
    exists probeStmt stored rs n', ReplacePrivilegeGrantee stmt (probeRoleFor stmt) = Ok probeStmt /\
      ProbePrivilegeRendering (probeRoleFor stmt) probeStmt n = (inl stored, n') /\ stored <> [] /\
      replaceGrantees stored renderingPlaceholderRole = Some rs /\ faithful render "r" mine rs keyed /\ rowsOf n' = rowsOf n.
Proof.
  intros [H0 H] Hf keyed n Hk. rewrite H0 in Hk. injection Hk as <-. destruct (H n) as (ps & stored & n' & H1 & H2 & H3 & H4 & H5).
  by exists ps, stored, rs, n'.
Qed.

Lemma execute_grant stmt n n' : mine stmt -> ExecutePrivilegeStatement stmt n = (None, n') -> rowsOf n' = rowsOf n ∪ render stmt.
Proof.
  intros Hm. cbn [ExecutePrivilegeStatement sampleClient].
  assert (Hx : existsb (String.eqb stmt) [onXY; onXZ] = true).
  { apply existsb_exists. exists stmt. split; [by apply list_elem_of_In|apply String.eqb_refl]. }
  rewrite Hx. intros H. apply (f_equal snd) in H. cbn [snd] in H. subst n'. unfold rowsOf. cbn [fst].
  apply set_eq. intros x. rewrite !elem_of_union, !elem_of_intersection, elem_of_union, elem_of_list_to_set.
  pose proof (render_universe stmt x). tauto.
Qed.

#[global] Instance sampleProbe : ProbeServer render rowsOf "r" probeRoleFor mine.
Proof.
  split.
  - intros stmt n n'. apply execute_grant.
  - intros stmt keyed n [->|Hm]%elem_of_cons; [apply (probe_one _ _ _ answers_XY faithful_XY)|].
    apply list_elem_of_singleton in Hm as ->. apply (probe_one _ _ _ answers_XZ faithful_XZ).
Qed.

(** Someone else's row on the role: gone after the pass, and the spec's rows there. *)
Definition foreignWorld : RoleWorld Server := world true [onXY] noStatus ({[rowX; rowZ]}, None).
Definition probed : roleResult * RoleWorld Server :=
  reconcileProbed probeRoleFor "r" "scope" (fun _ => true) 30 foreignWorld.

Lemma foreign_own : Forall (ownStatement mine) (rolePrivilegeStatements (rw_role foreignWorld)).
Proof.
  change (Forall (ownStatement mine) [onXY]). apply Forall_cons. split; [|apply Forall_nil_2].
  split; [by left|]. exists keyedXY. vm_compute. reflexivity.
Qed.

Lemma foreign_truthful : truthful render "r" mine "scope" foreignWorld.
Proof. intros now key got keyed Hg. change (cacheGet now key ∅ = Some got) in Hg. unfold cacheGet in Hg. by rewrite lookup_empty in Hg. Qed.

Lemma synced_pair {A} (p : roleResult * A) : synced p.1 = true -> exists k, p = (Synced k, p.2).
Proof. destruct p as [[k|k|e] w']; [|done..]. by exists k. Qed.

Lemma probed_synced :
  exists k, reconcileProbed probeRoleFor "r" "scope" (fun _ => true) 30 foreignWorld = (Synced k, probed.2).
Proof.
  unfold probed. apply (synced_pair (reconcileProbed probeRoleFor "r" "scope" (fun _ => true) 30 foreignWorld)). vm_compute. reflexivity.
Qed.

Lemma probe_exact_witness : rowX ∈ serverRows rowsOf probed.2.
Proof.
  destruct probed_synced as [k H].
  apply (probe_exact render rowsOf "r" probeRoleFor mine "scope" (fun _ => true) 30 foreignWorld k probed.2);
    [exact foreign_truthful|exact foreign_own|reflexivity|reflexivity|exact H|].
  exists onXY. split; [by left|]. split; [vm_compute; discriminate|]. apply (bool_decide_eq_true_1 _). vm_compute. reflexivity.
Defined.

Lemma renderingCache_bounded_witness :
  (size (rw_cache (normaliseDesired probeRoleFor "scope" "r" [onXY] (fun _ => true) foreignWorld).2) <= renderingCacheMax)%nat.
Proof. apply (renderingCache_bounded "r" probeRoleFor "scope" [onXY] (fun _ => true) foreignWorld). apply Nat.leb_le. vm_compute. reflexivity. Defined.
End ProbeSample.
