(* ===== verification/RoleReconcile.v ===== *)
(** The whole pass of the role controller: Reconcile and handleDeletion of
    src/internal/controller/neo4jrole_controller.go, whose deletion is that of
    DeletionWait.v. What a pass reads of Kubernetes besides the role is [PassInput];
    the validation's result is read from it. *)
From S2P Require Import Prelude GoStrings GoTime GoRFC3339 ClusterTypes Conditions Availability Privileges TargetWait DeletionWait ObjectPatch Roles RoleLearn RoleProbe.

Open Scope Z_scope.

(** * The target's renderings *)

Definition renderingScope (t : ResolvedTarget) (aliasFingerprint : string) : string :=
  let '(uid, image) := match t with
                       | TargetCluster _ m | TargetStandalone _ m => (dm_UID m, dm_Repo m +:+ ":" +:+ dm_Tag m)
                       | TargetMissing => (EmptyString, EmptyString)
                       end in
  uid +:+ NUL +:+ image +:+ NUL +:+ aliasFingerprint.

Definition roleRenderingScope (t : ResolvedTarget) (aliases : list AliasInfo) (listed : bool) (stmts : list string) : string :=
  if negb listed then EmptyString else renderingScope t (roleAliasFingerprint aliases stmts).

(** * The world of a whole pass *)

(** What a pass finds. [pi_validation]: the validator's warnings and the text of
    its errors, if any. *)
Record PassInput := mkInput {
  pi_deletionTimestamp : option Z;
  pi_validation : list string * option string;
  pi_target : ResolvedTarget + clientError;
  pi_claims : list bool + clientError;
  pi_connect : option clientError
}.

(** What Neo4j is asked besides the privileges: whether the role is there, to
    create it and to drop it. *)
Class RoleAdmin (S : Type) := {
  ShowRole : string -> S -> (bool + clientError) * S;
  CreateRoleAdvanced : string -> string -> S -> option clientError * S;
  DropRoleIfExists : string -> S -> option clientError * S
}.

Record PassWorld (S : Type) := mkPassWorld {
  pw_role : RoleWorld S;
  pw_obj : ObjWorld;
  pw_gone : option Z
}.
Arguments mkPassWorld {S}.
Arguments pw_role {S} _.
Arguments pw_obj {S} _.
Arguments pw_gone {S} _.

Definition PW (S A : Type) : Type := PassWorld S -> A * PassWorld S.

#[global] Instance PW_ret S : MRet (PW S) := fun A (a : A) w => (a, w).
#[global] Instance PW_bind S : MBind (PW S) := fun A B (f : A -> PW S B) (m : PW S A) w =>
  let '(a, w') := m w in f a w'.

(** What a whole pass returns: done with nothing to run again, or as before. *)
Inductive passResult :=
| Done
| Ends (r : roleResult).

Definition NeoRoleFinalizer : string := "neo4j.com/role-finalizer".

Definition EventReasonValidationFailed : string := "ValidationFailed".
Definition EventReasonValidationWarning : string := "ValidationWarning".
Definition EventReasonRoleCreated : string := "RoleCreated".
Definition EventReasonRoleDeleted : string := "RoleDeleted".
Definition EventReasonRoleDeletionFailed : string := "RoleDeletionFailed".

(** ** Built-in roles *)

Definition IsBuiltInRole (name : string) : bool :=
  existsb (String.eqb name) ["PUBLIC"; "reader"; "editor"; "publisher"; "architect"; "admin"].

Section Pass.
Context {S : Type} `{!RoleClient S, !RoleAdmin S}.

Definition liftR {A} (m : RW S A) : PW S A := fun w =>
  let '(a, r) := m (pw_role w) in (a, mkPassWorld r (pw_obj w) (pw_gone w)).
Definition liftO {A} (m : OW A) : PW S A := fun w =>
  let '(a, o) := m (pw_obj w) in (a, mkPassWorld (pw_role w) o (pw_gone w)).

Definition release : PW S (option clientError) :=
  r ← liftO (removeFinalizer NeoRoleFinalizer); mret (apiErrorText <$> r).

Definition released : PW S passResult :=
  r ← release; mret (match r with Some e => Ends (Errored e) | None => Done end).

(** * The deletion *)

#[global] Instance roleCleanupPass : CleanupPass (PW S) passResult := {
  passNow := liftR (getsR rw_now);
  passEvent := fun reason msg => liftR (eventR reason msg);
  passAgain := fun requeue => Ends (Stopped requeue);
  passErrored := fun e => Ends (Errored e)
}.

Definition roleCleanup (role : Neo4jRole) (roleName : string) (ts : option Z) (requeue : Z) : deletionCleanup (M := PW S) (R := passResult) :=
  mkCleanup ts EventReasonRoleDeletionFailed
    ("role " +:+ fmt.q roleName +:+ " on " +:+ targetRefDisplay (rp_ClusterRef (ro_Spec role)))
    ("DROP ROLE " +:+ quoted roleName)
    (fun msg => liftR (setRoleStatus "Failed" ConditionFalse EventReasonRoleDeletionFailed msg None false))
    released requeue.

Definition askP {A} (call : S -> A * S) : PW S A := liftR (askR call).

Definition handleDeletion (input : PassInput) (roleName : string) (requeue : Z) : PW S passResult :=
  finalizers ← liftO getCopy;
  role ← liftR (getsR rw_role);
  if negb (bool_decide (NeoRoleFinalizer ∈ finalizers)) then mret Done
  else if IsBuiltInRole roleName then released
  else if strings.EqualFold (rp_DeletionPolicy (ro_Spec role)) "Retain" then released
  else
    let ref := rp_ClusterRef (ro_Spec role) in
    match pi_target input with
    | inr e => mret (Ends (Errored e))
    | inl t =>
        let d := roleCleanup role roleName (pi_deletionTimestamp input) requeue in
        settled ← settleByTarget d ref t (pi_claims input);
        match settled with
        | Some r => mret r
        | None =>
            if negb (IsReady t) then blocked d (targetDownCause ref)
            else match pi_connect input with
                 | Some e => failedCleanup d (connectFailedCause ref e) e
                 | None =>
                     r ← askP (DropRoleIfExists roleName);
                     match r with
                     | Some e => failedCleanup d (statementFailedCause ref "DROP ROLE" e) e
                     | None =>
                         liftR (eventR EventReasonRoleDeleted ("Role " +:+ fmt.q roleName +:+ " dropped")) ;;
                         released
                     end
                 end
        end
    end.

(** * Reconcile *)

(** Whether every database a statement names exists; unknown is not missing. *)
Definition resolvesIn (known : (gset string * list AliasInfo * bool) + clientError) (stmt : string) : bool :=
  match known with
  | inr _ => true
  | inl (known, _, _) => forallb (fun name => bool_decide (strings.ToLower name ∈ known)) (PrivilegeDatabaseTargets stmt)
  end.

Variable scopeDigest : string -> string.
Variable probeRoleFor : string -> string.

(** The role exists, or is created; the value is the result of a failure. *)
Definition ensureRole (role : Neo4jRole) (roleName : string) (requeue : Z) : RW S (option roleResult) :=
  info ← askR (ShowRole roleName);
  match info with
  | inr e => r ← fail "lookup failed" (Some e) requeue; mret (Some r)
  | inl true => mret None
  | inl false =>
      if IsBuiltInRole roleName then
        r ← fail ("built-in role " +:+ fmt.q roleName +:+ " not found in cluster") None requeue; mret (Some r)
      else
        e ← askR (CreateRoleAdvanced roleName (rp_CopyOf (ro_Spec role)));
        match e with
        | Some e => r ← fail "create role failed" (Some e) requeue; mret (Some r)
        | None => eventR EventReasonRoleCreated ("Role " +:+ fmt.q roleName +:+ " created") ;; mret None
        end
  end.

(** The privileges, in the mode the operator runs in. *)
Definition reconcilePrivileges (learnMode : bool) (role : Neo4jRole) (roleName : string) (t : ResolvedTarget) (requeue : Z)
  : RW S roleResult :=
  known ← resolvableDatabaseNames;
  let '(aliases, listed) := match known with inl (_, aliases, listed) => (aliases, listed) | inr _ => ([], false) end in
  let scope := roleRenderingScope t aliases listed (rolePrivilegeStatements role) in
  if learnMode then reconcileLearned scopeDigest roleName scope aliases (resolvesIn known) requeue
  else reconcileProbed probeRoleFor roleName scope (resolvesIn known) requeue.

Definition connected (learnMode : bool) (role : Neo4jRole) (roleName : string) (t : ResolvedTarget) (requeue : Z)
  : RW S roleResult :=
  setRoleCondition ConditionTypeClusterNotReady ConditionFalse "ClusterReady" EmptyString ;;
  ensured ← ensureRole role roleName requeue;
  match ensured with
  | Some r => mret r
  | None => reconcilePrivileges learnMode role roleName t requeue
  end.

(** A status write that is announced when it changed something. *)
Definition announceFailed (phase reason msg : string) : RW S unit :=
  changed ← setRoleStatus phase ConditionFalse reason msg None false;
  if (changed : bool) then eventR reason msg else mret tt.

Definition waitForMissing (role : Neo4jRole) (requeue : Z) : PW S passResult :=
  let msg := targetRefDisplay (rp_ClusterRef (ro_Spec role)) +:+ " not found" in
  let hadTarget := hadFoundTarget (rs_Conditions (ro_Status role)) in
  entered ← liftR (setRoleStatus "Pending" ConditionFalse EventReasonClusterNotFound msg None false);
  now ← liftR (getsR rw_now);
  due ← (fun w => let '(due, since) := announceGone (pw_gone w) entered hadTarget now in
                  (due, mkPassWorld (pw_role w) (pw_obj w) since));
  (if (due : bool) then liftR (eventR EventReasonClusterNotFound msg) else mret tt) ;;
  mret (Ends (Stopped requeue)).

Definition Reconcile (learnMode : bool) (input : PassInput) (requeue : Z) : PW S passResult :=
  role ← liftR (getsR rw_role);
  finalizers ← liftO getCopy;
  let roleName := effectiveRoleName role in
  let ref := rp_ClusterRef (ro_Spec role) in
  if bool_decide (pi_deletionTimestamp input <> None) then handleDeletion input roleName requeue
  else if negb (bool_decide (NeoRoleFinalizer ∈ finalizers)) then
    r ← liftO (addFinalizer NeoRoleFinalizer);
    mret (match r with Some e => Ends (Errored (apiErrorText e)) | None => Done end)
  else
    let '(warnings, errors) := pi_validation input in
    liftR (recordWarnings EventReasonValidationWarning warnings) ;;
    match errors with
    | Some text =>
        liftR (announceFailed "Failed" EventReasonValidationFailed ("validation failed: " +:+ text)) ;;
        mret (Ends (Stopped requeue))
    | None =>
        match pi_target input with
        | inr e => mret (Ends (Errored e))
        | inl t =>
            if negb (targetFound t) then waitForMissing role requeue
            else if negb (IsReady t) then
              liftR (waitForTarget ConditionReasonClusterNotReady (targetRefDisplay ref +:+ " is not Ready")) ;;
              mret (Ends (Stopped requeue))
            else match pi_connect input with
                 | Some e =>
                     if e_unreachable e then r ← liftR (unreachable e requeue); mret (Ends r)
                     else
                       liftR (announceFailed "Failed" EventReasonConnectionFailed ("failed to connect to Neo4j: " +:+ e_msg e)) ;;
                       mret (Ends (Errored e))
                 | None => r ← liftR (connected learnMode role roleName t requeue); mret (Ends r)
                 end
        end
    end.
End Pass.
