(* ===== verification/ReconcileSafety.v ===== *)
(** What a whole pass of the role controller (RoleReconcile.v) may do: when it sends
    statements to Neo4j, when a deletion releases the finalizer, and that it does
    so in the end. *)
From S2P Require Import Prelude GoStrings GoTime ClusterTypes Conditions Availability Privileges TargetWait DeletionWait ObjectPatch Roles RoleLearn RoleSafety RolePass RolePromise RoleProbe RoleReconcile.

Open Scope Z_scope.

(** * Frames *)

Section Frames.
Context {S : Type} `{!RoleClient S, !RoleAdmin S}.

(** [m] sends no statement to Neo4j. *)
Definition sendsNothing {A} (m : PW S A) : Prop := forall w r w', m w = (r, w') -> rw_sent (pw_role w') = rw_sent (pw_role w).

Lemma passSends_bind {A B} (m : PW S A) (f : A -> PW S B) : sendsNothing m -> (forall a, sendsNothing (f a)) -> sendsNothing (m ≫= f).
Proof.
  intros Hm Hf w r w'. unfold mbind, PW_bind. destruct (m w) as [a w1] eqn:E. intros H.
  rewrite (Hf a w1 r w' H). by apply (Hm w a).
Qed.

Lemma sends_ret {A} (a : A) : sendsNothing (mret a).
Proof. by intros w r w' [= _ <-]. Qed.

Lemma sends_liftR {A} (m : RW S A) : leaves (fun _ => ∅) m -> sendsNothing (liftR m).
Proof.
  intros Hm w r w'. unfold liftR. destruct (m (pw_role w)) as [a r1] eqn:E. intros [= _ <-]. cbn.
  by apply (after_sent _ _ _ (Hm _ _ _ E)).
Qed.

Lemma sends_liftO {A} (m : OW A) : sendsNothing (liftO m).
Proof. intros w r w'. unfold liftO. destruct (m (pw_obj w)) as [a o]. by intros [= _ <-]. Qed.

Lemma leaves_status phase status reason message applied drift :
  leaves (fun _ : S => ∅) (setRoleStatus phase status reason message applied drift).
Proof. apply leaves_setRoleStatus. Qed.

Lemma leaves_unreachable e requeue : leaves (fun _ : S => ∅) (unreachable e requeue).
Proof.
  unfold unreachable. leave; [apply leaves_waitForTarget|]. destruct a; leave. apply leaves_status.
Qed.

Lemma leaves_announceFailed phase reason msg : leaves (fun _ : S => ∅) (announceFailed phase reason msg).
Proof. unfold announceFailed. leave. apply leaves_status. Qed.

Lemma sends_released : sendsNothing released.
Proof. unfold released, release. repeat (apply passSends_bind; [|intros ?]); auto using sends_ret, sends_liftO. Qed.

Lemma sends_event reason msg : sendsNothing (liftR (eventR reason msg)).
Proof. apply sends_liftR, leaves_event. Qed.

Lemma sends_gets {A} (f : RoleWorld S -> A) : sendsNothing (liftR (getsR f)).
Proof. apply sends_liftR, leaves_gets. Qed.

Lemma sends_blocked role roleName ts requeue cause : sendsNothing (blocked (roleCleanup role roleName ts requeue) cause).
Proof.
  unfold blocked. apply passSends_bind; [apply sends_gets|]. intros now. destruct (negb _).
  - apply passSends_bind; [apply sends_liftR, leaves_status|]. intros changed. apply passSends_bind; [|intros _; apply sends_ret].
    destruct changed; [apply sends_event|apply sends_ret].
  - apply passSends_bind; [apply sends_event|]. intros _. apply sends_released.
Qed.

Lemma sends_failed role roleName ts requeue cause e : sendsNothing (failedCleanup (roleCleanup role roleName ts requeue) cause e).
Proof.
  unfold failedCleanup. apply passSends_bind; [apply sends_gets|]. intros now.
  destruct (retryTransient _ _ _); [apply sends_ret|apply sends_blocked].
Qed.

Lemma sends_deletion input roleName requeue : sendsNothing (handleDeletion input roleName requeue).
Proof.
  unfold handleDeletion. apply passSends_bind; [apply sends_liftO|]. intros finalizers.
  apply passSends_bind; [apply sends_gets|]. intros role. destruct (negb _); [apply sends_ret|].
  destruct (IsBuiltInRole _); [apply sends_released|]. destruct (strings.EqualFold _ _); [apply sends_released|].
  destruct (pi_target input) as [t|e]; [|apply sends_ret]. apply passSends_bind.
  - unfold settleByTarget. destruct (fateOfTarget _ _) as [[| |]|e]; try apply sends_ret.
    + apply passSends_bind; [apply sends_released|]. intros r. apply sends_ret.
    + apply passSends_bind; [apply sends_blocked|]. intros r. apply sends_ret.
  - intros [r|]; [apply sends_ret|]. destruct (negb _); [apply sends_blocked|].
    destruct (pi_connect input) as [e|]; [apply sends_failed|]. apply passSends_bind.
    + apply sends_liftR, leaves_ask. done.
    + intros [e|]; [apply sends_failed|]. apply passSends_bind; [apply sends_event|]. intros _. apply sends_released.
Qed.

Lemma sends_missing role requeue : sendsNothing (waitForMissing role requeue).
Proof.
  unfold waitForMissing. apply passSends_bind; [apply sends_liftR, leaves_status|]. intros entered.
  apply passSends_bind; [apply sends_gets|]. intros now. apply passSends_bind.
  - intros w r w'. destruct (announceGone _ _ _ _). by intros [= _ <-].
  - intros due. apply passSends_bind; [|intros _; apply sends_ret]. destruct due; [apply sends_event|apply sends_ret].
Qed.

(** A pass that may send statements. *)
Definition mayServe (input : PassInput) (w : PassWorld S) : Prop :=
  pi_deletionTimestamp input = None /\ NeoRoleFinalizer ∈ ow_copy (pw_obj w) /\ (pi_validation input).2 = None /\
  pi_connect input = None /\ exists t, pi_target input = inl t /\ IsReady t = true.

Variable scopeDigest : string -> string.
Variable probeRoleFor : string -> string.

(** In either mode the role controller changes a role's privileges in Neo4j only
    in a pass that found the role not being deleted, its finalizer in place, its
    spec valid, and the target there, ready and reachable. *)
Theorem statements_guarded learnMode input requeue w :
  rw_sent (pw_role (Reconcile scopeDigest probeRoleFor learnMode input requeue w).2) <> rw_sent (pw_role w) ->
  mayServe input w.
Proof.
  destruct (Reconcile _ _ _ _ _ w) as [r w'] eqn:E. cbn [snd]. revert E. destruct w as [rw ow gone].
  unfold Reconcile, mbind at 1 2, PW_bind at 1 2, liftR at 1, getsR at 1, liftO at 1, getCopy at 1. cbn [pw_role pw_obj pw_gone].
  set (w := mkPassWorld rw ow gone). set (role := rw_role rw). intros E Hsent.
  assert (Hno : forall m : PW S passResult, sendsNothing m -> m w = (r, w') -> mayServe input w)
    by (intros m Hm Hw; by apply Hm in Hw).
  destruct (bool_decide (pi_deletionTimestamp input <> None)) eqn:Ed; [by apply (Hno _ (sends_deletion _ _ _) E)|].
  destruct (bool_decide (NeoRoleFinalizer ∈ _)) eqn:Ef; cbn [negb] in E.
  2: { revert E. apply Hno. apply passSends_bind; [apply sends_liftO|]. intros x. apply sends_ret. }
  breflect. destruct (pi_validation input) as [warnings errors] eqn:Ev.
  assert (Hwarn : sendsNothing (liftR (recordWarnings EventReasonValidationWarning warnings)))
    by apply sends_liftR, leaves_recordWarnings.
  destruct errors as [text|].
  { revert E. apply Hno. apply passSends_bind; [done|]. intros _.
    apply passSends_bind; [apply sends_liftR, leaves_announceFailed|]. intros _. apply sends_ret. }
  destruct (pi_target input) as [t|e] eqn:Et.
  2: { revert E. apply Hno. apply passSends_bind; [done|]. intros _. apply sends_ret. }
  destruct (targetFound t) eqn:Efo; cbn [negb] in E.
  2: { revert E. apply Hno. apply passSends_bind; [done|]. intros _. apply sends_missing. }
  destruct (IsReady t) eqn:Er; cbn [negb] in E.
  2: { revert E. apply Hno. apply passSends_bind; [done|]. intros _.
       apply passSends_bind; [apply sends_liftR, leaves_waitForTarget|]. intros _. apply sends_ret. }
  destruct (pi_connect input) as [e|] eqn:Ec.
  { revert E. apply Hno. apply passSends_bind; [done|]. intros _. destruct (e_unreachable e).
    - apply passSends_bind; [apply sends_liftR, leaves_unreachable|]. intros x. apply sends_ret.
    - apply passSends_bind; [apply sends_liftR, leaves_announceFailed|]. intros _. apply sends_ret. }
  split_and!; [destruct (pi_deletionTimestamp input); [by destruct Ed|done]|done|by rewrite Ev|done|by exists t].
Qed.

(** * Deletion *)

Lemma liftR_obj {A} (m : RW S A) w r w' : liftR m w = (r, w') -> pw_obj w' = pw_obj w.
Proof. unfold liftR. destruct (m (pw_role w)) as [a r1]. by intros [= _ <-]. Qed.

Lemma released_role (w : PassWorld S) r w' : released w = (r, w') -> pw_role w' = pw_role w.
Proof.
  unfold released, release, mbind, PW_bind, liftO. destruct (removeFinalizer _ _) as [e o]. by intros [= _ <-].
Qed.

(** The Warning of a release that leaves something behind. *)
Definition warned (role : Neo4jRole) (roleName : string) (ts : option Z) (requeue : Z) (w : PassWorld S) : Prop :=
  exists cause, (EventReasonRoleDeletionFailed, releaseMessage (roleCleanup (S := S) role roleName ts requeue) cause) ∈ rw_events (pw_role w).

(** A blocked cleanup writes no finalizer before the deadline, and warns after. *)
Lemma blocked_writes role roleName ts requeue cause (w : PassWorld S) r w' :
  blocked (roleCleanup role roleName ts requeue) cause w = (r, w') -> pw_obj w' <> pw_obj w ->
  deletionGracePeriodExceeded ts (rw_now (pw_role w)) = true /\ warned role roleName ts requeue w'.
Proof.
  destruct w as [rw ow gone]. unfold blocked, mbind at 1, PW_bind at 1. cbn [passNow passEvent passAgain roleCleanupPass]. unfold liftR at 1, getsR. cbn [pw_role pw_obj pw_gone].
  cbn [dc_deletionTimestamp dc_release dc_reason dc_record roleCleanup].
  destruct (deletionGracePeriodExceeded ts (rw_now rw)) eqn:Eg; cbn [negb].
  - unfold mbind, PW_bind, liftR, eventR, modifyR. cbn [pw_role pw_obj pw_gone]. intros Hr _. split; [done|].
    apply released_role in Hr. exists cause. rewrite Hr. by left.
  - unfold mbind at 1, PW_bind at 1. destruct (liftR _ _) as [changed w1] eqn:E1. apply liftR_obj in E1. cbn in E1.
    unfold mbind, PW_bind. destruct changed; [|by intros [= _ <-]; rewrite E1].
    destruct (liftR _ w1) as [u w2] eqn:E2. apply liftR_obj in E2. intros [= _ <-]. by rewrite E2, E1.
Qed.

Lemma failed_writes role roleName ts requeue cause e (w : PassWorld S) r w' :
  failedCleanup (roleCleanup role roleName ts requeue) cause e w = (r, w') -> pw_obj w' <> pw_obj w ->
  deletionGracePeriodExceeded ts (rw_now (pw_role w)) = true /\ warned role roleName ts requeue w'.
Proof.
  destruct w as [rw ow gone]. unfold failedCleanup, mbind, PW_bind. cbn [passNow passAgain roleCleanupPass]. unfold liftR, getsR. cbn [pw_role pw_obj pw_gone].
  destruct (retryTransient _ _ _); [by intros [= _ <-]|]. apply blocked_writes.
Qed.

(** C9: A deletion releases the role's finalizer, in a pass that writes it, only if
    nothing is left to remove (a built-in role, a Retain policy, a target gone or
    going with its volumes, the role dropped in this pass) or the grace period is
    over; then a Warning says what stays in Neo4j and how to remove it. *)
Theorem deletion_release_justified input roleName requeue (w : PassWorld S) :
  let role := rw_role (pw_role w) in
  let w' := (handleDeletion input roleName requeue w).2 in
  ow_writes (pw_obj w') <> ow_writes (pw_obj w) ->
  IsBuiltInRole roleName = true \/ strings.EqualFold (rp_DeletionPolicy (ro_Spec role)) "Retain" = true \/
  (exists t, pi_target input = inl t /\ fateOfTarget t (pi_claims input) = inl targetTakesIt) \/
  (pi_connect input = None /\ (DropRoleIfExists roleName (rw_neo4j (pw_role w))).1 = None) \/
  (deletionGracePeriodExceeded (pi_deletionTimestamp input) (rw_now (pw_role w)) = true /\
   warned role roleName (pi_deletionTimestamp input) requeue w').
Proof.
  cbv zeta. destruct (handleDeletion input roleName requeue w) as [r w'] eqn:E. cbn [snd]. intros Hw.
  assert (Hobj : pw_obj w' <> pw_obj w) by congruence. clear Hw. revert E Hobj. destruct w as [rw ow gone].
  unfold handleDeletion, mbind at 1 2, PW_bind at 1 2, liftR at 1, getsR at 1, liftO at 1, getCopy. cbn [pw_role pw_obj pw_gone].
  destruct (negb _); [by intros [= _ <-]|]. destruct (IsBuiltInRole roleName); [by left|].
  destruct (strings.EqualFold _ _); [by right; left|]. destruct (pi_target input) as [t|e] eqn:Et; [|by intros [= _ <-]].
  unfold mbind at 1, PW_bind at 1, settleByTarget.
  destruct (fateOfTarget t (pi_claims input)) as [[| |]|e] eqn:Efate; [| | |by intros [= _ <-]].
  - cbn [mret PW_ret]. destruct (negb (IsReady t)).
    { intros H Ho. do 4 right. by apply (blocked_writes _ _ _ _ _ _ _ _ H Ho). }
    destruct (pi_connect input) as [e|] eqn:Ec.
    { intros H Ho. do 4 right. by apply (failed_writes _ _ _ _ _ _ _ _ _ H Ho). }
    unfold mbind at 1, PW_bind at 1, askP, liftR at 1, askR. cbn [pw_role pw_obj pw_gone].
    destruct (DropRoleIfExists roleName (rw_neo4j rw)) as [[e|] n] eqn:Ed; [|intros _ _; do 3 right; by left].
    intros H Ho. do 4 right. by apply (failed_writes _ _ _ _ _ _ _ _ _ H Ho).
  - intros _ _. right. right. left. by exists t.
  - unfold mbind, PW_bind. destruct (blocked (M := PW S) (R := passResult) _ _ _) as [r1 w1] eqn:Eb. intros [= _ <-] Ho.
    do 4 right. by apply (blocked_writes _ _ _ _ _ _ _ _ Eb Ho).
Qed.

(** ** It ends *)

Lemma released_quiet (w : PassWorld S) l :
  ow_steps (pw_obj w) = [] -> ow_stored (pw_obj w) = Some l -> NeoRoleFinalizer ∈ ow_copy (pw_obj w) -> NeoRoleFinalizer ∈ l ->
  exists w' l', released w = (Done, w') /\ ow_stored (pw_obj w') = Some l' /\ takesOut NeoRoleFinalizer (l, l').
Proof.
  intros Hs Hl Hc Hin. destruct (removeFinalizer_quiet _ _ _ Hs Hl Hc Hin) as (o & l' & Hr & H1 & H2).
  unfold released, release, mbind, PW_bind, liftO. rewrite Hr. by exists (mkPassWorld (pw_role w) o (pw_gone w)), l'.
Qed.

Lemma blocked_late role roleName ts requeue cause (w : PassWorld S) :
  deletionGracePeriodExceeded ts (rw_now (pw_role w)) = true ->
  exists w1, blocked (roleCleanup role roleName ts requeue) cause w = released w1 /\ pw_obj w1 = pw_obj w.
Proof.
  destruct w as [rw ow gone]. cbn [pw_role]. intros Hg. unfold blocked, mbind, PW_bind. cbn [passNow passEvent roleCleanupPass]. unfold liftR, getsR, eventR, modifyR.
  cbn [pw_role pw_obj pw_gone dc_deletionTimestamp dc_release roleCleanup]. rewrite Hg. cbn. eexists. split; [reflexivity|]. done.
Qed.

Lemma failed_late role roleName ts requeue cause e (w : PassWorld S) :
  deletionGracePeriodExceeded ts (rw_now (pw_role w)) = true ->
  exists w1, failedCleanup (roleCleanup role roleName ts requeue) cause e w = released w1 /\ pw_obj w1 = pw_obj w.
Proof.
  intros Hg. destruct (blocked_late role roleName ts requeue cause w Hg) as (w1 & H1 & H2). exists w1. split; [|done]. rewrite <-H1.
  destruct w as [rw ow gone]. unfold failedCleanup, mbind at 1, PW_bind at 1. cbn [passNow roleCleanupPass]. unfold liftR at 1, getsR, retryTransient.
  cbn [pw_role pw_obj pw_gone dc_deletionTimestamp roleCleanup] in *. rewrite Hg, andb_false_r. done.
Qed.

(** C10: A deletion ends. Once the grace period is over and the API server answers, a
    pass takes the finalizer off the role, whatever Neo4j and the target do: it
    does not wait for them any longer. *)
Theorem deletion_ends input roleName requeue (w : PassWorld S) l :
  deletionGracePeriodExceeded (pi_deletionTimestamp input) (rw_now (pw_role w)) = true ->
  (exists t, pi_target input = inl t) -> (exists claims, pi_claims input = inl claims) ->
  ow_steps (pw_obj w) = [] -> ow_stored (pw_obj w) = Some l -> NeoRoleFinalizer ∈ ow_copy (pw_obj w) -> NeoRoleFinalizer ∈ l ->
  exists w' l', handleDeletion input roleName requeue w = (Done, w') /\ ow_stored (pw_obj w') = Some l' /\
    takesOut NeoRoleFinalizer (l, l').
Proof.
  intros Hg [t Ht] [claims Hcl] Hs Hl Hc Hin.
  enough (Hend : exists w1, handleDeletion input roleName requeue w = released w1 /\ pw_obj w1 = pw_obj w).
  { destruct Hend as (w1 & -> & Ho). apply released_quiet; rewrite ?Ho; done. }
  destruct w as [rw ow gone]. cbn [pw_role pw_obj] in *.
  unfold handleDeletion, mbind at 1 2, PW_bind at 1 2, liftR at 1, getsR at 1, liftO at 1, getCopy. cbn [pw_role pw_obj pw_gone].
  rewrite bool_decide_eq_true_2 by done. cbn [negb]. set (w := mkPassWorld rw ow gone).
  destruct (IsBuiltInRole roleName); [by exists w|]. destruct (strings.EqualFold _ _); [by exists w|]. rewrite Ht, Hcl.
  unfold mbind at 1, PW_bind at 1, settleByTarget. set (role := rw_role rw).
  assert (Hfate : exists fate, fateOfTarget t (inl claims) = inl fate) by (destruct t; cbn; eauto).
  destruct Hfate as [fate ->]. destruct fate.
  - cbn [mret PW_ret]. destruct (negb (IsReady t)); [by apply blocked_late|]. destruct (pi_connect input) as [e|]; [by apply failed_late|].
    unfold mbind at 1, PW_bind at 1, askP, liftR at 1, askR. subst w. cbn [pw_role pw_obj pw_gone].
    destruct (DropRoleIfExists roleName (rw_neo4j rw)) as [[e|] n].
    + destruct (failed_late role roleName (pi_deletionTimestamp input) requeue
        (statementFailedCause (rp_ClusterRef (ro_Spec role)) "DROP ROLE" e) e (mkPassWorld (set_rw_neo4j n rw) ow gone) Hg) as (w1 & H1 & H2).
      exists w1. split; [exact H1|exact H2].
    + unfold mbind, PW_bind, liftR, eventR, modifyR. cbn [pw_role pw_obj pw_gone]. eexists. split; [reflexivity|]. done.
  - exists w. split; [|done]. unfold mbind, PW_bind. cbn [dc_release roleCleanup]. by destruct (released w).
  - destruct (blocked_late role roleName (pi_deletionTimestamp input) requeue
      (volumesKeptCause (rp_ClusterRef (ro_Spec role))) w Hg) as (w1 & H1 & H2). exists w1. split; [|done].
    transitivity (let '(a, w') := blocked (roleCleanup role roleName (pi_deletionTimestamp input) requeue) (volumesKeptCause (rp_ClusterRef (ro_Spec role))) w in (a, w')); [|rewrite H1; by destruct (released w1)].
    unfold mbind at 1, PW_bind at 1. by destruct (blocked (M := PW S) _ _ w).
Qed.
End Frames.

Module ReconcileSample.
Import RoleSample.

(** The role is there; it cannot be dropped. *)
#[global] Instance sampleAdmin : RoleAdmin Server := {
  ShowRole _ n := (inl true, n);
  CreateRoleAdvanced _ _ n := (None, n);
  DropRoleIfExists _ n := (Some (plainError "role is in use"), n)
}.

Definition readyTarget : ResolvedTarget := TargetStandalone true (mkDeployment "u" "neo4j" "5.26.0-enterprise" false "Delete").
Definition serving : PassInput := mkInput None ([], None) (inl readyTarget) (inl []) None.
Definition deleting (ts : Z) : PassInput := mkInput (Some ts) ([], None) (inl readyTarget) (inl []) None.
Definition passWorld (now : Z) : PassWorld Server :=
  let r := roleOf true [onXY] noStatus in
  mkPassWorld (mkRoleWorld now r r [] false [] None ∅ ∅ (∅, None) [])
    (mkObjWorld (Some ["other"; NeoRoleFinalizer]) ["other"; NeoRoleFinalizer] [] []) None.

Lemma served_sent :
  rw_sent (pw_role (Reconcile digest (fun _ => "probe") true serving 30 (passWorld 0)).2) = [onXY].
Proof. vm_compute. reflexivity. Qed.

Lemma statements_guarded_witness : mayServe serving (passWorld 0).
Proof.
  apply (statements_guarded digest (fun _ => "probe") true serving 30 (passWorld 0)). rewrite served_sent. discriminate.
Defined.

Lemma late : deletionGracePeriodExceeded (Some 0) (rw_now (pw_role (passWorld (6 * minute)))) = true.
Proof. vm_compute. reflexivity. Qed.

Lemma deletion_ends_witness :
  exists w' l', handleDeletion (deleting 0) "r" 30 (passWorld (6 * minute)) = (Done, w') /\
    ow_stored (pw_obj w') = Some l' /\ takesOut NeoRoleFinalizer (["other"; NeoRoleFinalizer], l').
Proof.
  apply (deletion_ends (deleting 0) "r" 30 (passWorld (6 * minute)) ["other"; NeoRoleFinalizer]).
  - exact late.
  - by exists readyTarget.
  - by exists [].
  - reflexivity.
  - reflexivity.
  - right. by left.
  - right. by left.
Defined.

(** The role cannot be dropped: released, with the Warning, after the deadline. *)
Lemma deletion_release_justified_witness :
  deletionGracePeriodExceeded (Some 0) (6 * minute) = true /\
  warned (roleOf true [onXY] noStatus) "r" (Some 0) 30 (handleDeletion (deleting 0) "r" 30 (passWorld (6 * minute))).2.
Proof.
  destruct (deletion_release_justified (deleting 0) "r" 30 (passWorld (6 * minute))) as [H|[H|[H|[H|H]]]].
  - vm_compute. discriminate.
  - vm_compute in H. discriminate.
  - vm_compute in H. discriminate.
  - destruct H as (t & [= <-] & H). vm_compute in H. discriminate.
  - destruct H as [_ H]. vm_compute in H. discriminate.
  - exact H.
Defined.
End ReconcileSample.
