(* ===== verification/GoRegexp.v ===== *)
(** Package regexp, as far as the operator's expressions need it: classes,
    repetitions of a class, alternatives, groups and the assertions, with the
    leftmost-first matching Go documents (the leftmost match, and of the matches
    there the one a backtracking search finds first).

    An expression of the source is a value of [regexp.re], written part by part;
    the matcher [regexp.run] takes what follows as a continuation, so that it is
    structural and needs no fuel. Text is bytes: the classes the source uses are
    ASCII, and a negated class takes a character of several bytes byte by byte, to
    the same end. [(?i)] folds ASCII letters (Go also folds the Kelvin sign and the
    long s, which no log of neo4j-admin has). The matcher is only used on
    expressions that never match the empty string. *)
From S2P Require Import Prelude GoStrings.

Module regexp.

Inductive re :=
| Empty
| One (f : ascii -> bool)
| Many (lazy : bool) (f : ascii -> bool)
| Cat (r s : re)
| Alt (r s : re)
| Group (n : nat) (r : re)
| TextBegin
| TextEnd
| LineBegin
| LineEnd
| WordBoundary.

(** What the groups matched, the last to close first. *)
Definition captures : Type := list (nat * string).

Definition group (n : nat) (m : captures) : string :=
  match List.find (fun p => (p.1 =? n)%nat) m with Some p => p.2 | None => EmptyString end.

(** The text between two points of a string, each given by what follows it. *)
Definition between (s rest : string) : string := strings.upto (String.length s - String.length rest) s.

Definition letter (c : ascii) : bool :=
  let n := nat_of_ascii c in ((65 <=? n) && (n <=? 90) || (97 <=? n) && (n <=? 122))%nat.

(** [\w]. *)
Definition word (c : ascii) : bool := letter c || isDigit c || Ascii.eqb c "_"%char.

Definition newline : ascii := "010"%char.

Definition wordAt (c : option ascii) : bool := match c with Some c => word c | None => false end.
Definition next (s : string) : option ascii := match s with String c _ => Some c | EmptyString => None end.

(** A point of the text: the byte before it, what follows, and the groups closed
    so far. A match is what follows it and its groups. *)
Definition cont : Type := option ascii -> string -> captures -> option (string * captures).

Section Repeat.
Context (lazy : bool) (f : ascii -> bool) (caps : captures) (k : cont).

Fixpoint repeat (prev : option ascii) (s : string) : option (string * captures) :=
  let more := match s with
              | String c s' => if f c then repeat (Some c) s' else None
              | EmptyString => None
              end in
  if lazy then match k prev s caps with Some m => Some m | None => more end
  else match more with Some m => Some m | None => k prev s caps end.

End Repeat.

Fixpoint run (r : re) (prev : option ascii) (s : string) (caps : captures) (k : cont) : option (string * captures) :=
  match r with
  | Empty => k prev s caps
  | One f => match s with String c s' => if f c then k (Some c) s' caps else None | EmptyString => None end
  | Many lazy f => repeat lazy f caps k prev s
  | Cat r1 r2 => run r1 prev s caps (fun prev' s' caps' => run r2 prev' s' caps' k)
  | Alt r1 r2 => match run r1 prev s caps k with Some m => Some m | None => run r2 prev s caps k end
  | Group n r1 => run r1 prev s caps (fun prev' s' caps' => k prev' s' ((n, between s s') :: caps'))
  | TextBegin => match prev with None => k prev s caps | Some _ => None end
  | TextEnd => match s with EmptyString => k prev s caps | String _ _ => None end
  | LineBegin => match prev with None => k prev s caps | Some c => if Ascii.eqb c newline then k prev s caps else None end
  | LineEnd => match s with EmptyString => k prev s caps | String c _ => if Ascii.eqb c newline then k prev s caps else None end
  | WordBoundary => if xorb (wordAt prev) (wordAt (next s)) then k prev s caps else None
  end.

(** The match that starts here. *)
Definition here (r : re) (prev : option ascii) (s : string) : option (string * captures) :=
  run r prev s [] (fun _ rest caps => Some (rest, caps)).

(** The leftmost match: where it starts, what follows it, its groups. *)
Fixpoint find (r : re) (prev : option ascii) (s : string) : option (string * string * captures) :=
  match here r prev s with
  | Some (rest, caps) => Some (s, rest, caps)
  | None => match s with String c s' => find r (Some c) s' | EmptyString => None end
  end.

Definition MatchString (r : re) (s : string) : bool := match find r None s with Some _ => true | None => false end.

(** [FindString], empty without a match. *)
Definition FindString (r : re) (s : string) : string :=
  match find r None s with Some (start, rest, _) => between start rest | None => EmptyString end.

Definition FindStringSubmatch (r : re) (s : string) : option captures :=
  match find r None s with Some (_, _, caps) => Some caps | None => None end.

(** [FindAllStringSubmatch(s, -1)], [skip] bytes of the last match being left. *)
Fixpoint findAll (r : re) (skip : nat) (prev : option ascii) (s : string) : list captures :=
  match s with
  | EmptyString => []
  | String c s' =>
      match skip with
      | S n => findAll r n (Some c) s'
      | O => match here r prev s with
             | Some (rest, caps) => caps :: findAll r (String.length s - String.length rest - 1) (Some c) s'
             | None => findAll r O (Some c) s'
             end
      end
  end.

Definition FindAllStringSubmatch (r : re) (s : string) : list captures := findAll r O None s.

(** * Parts of expressions *)

Definition byte (c : ascii) : re := One (Ascii.eqb c).
Definition isFold (c : ascii) : re := One (fun d => Ascii.eqb (strings.lowerByte c) (strings.lowerByte d)).

Fixpoint literal (p : string) : re :=
  match p with EmptyString => Empty | String c p' => Cat (byte c) (literal p') end.
Fixpoint literalFold (p : string) : re :=
  match p with EmptyString => Empty | String c p' => Cat (isFold c) (literalFold p') end.

Definition plus (lazy : bool) (f : ascii -> bool) : re := Cat (One f) (Many lazy f).
Definition optional (r : re) : re := Alt r Empty.
Definition digits (n : nat) : re := Nat.iter n (Cat (One isDigit)) Empty.
Definition oneOf (s : string) (c : ascii) : bool := strings.byteIn c s.
Definition noneOf (s : string) (c : ascii) : bool := negb (strings.byteIn c s).

(** [\s]: tab, newline, form feed, carriage return and space. *)
Definition space (c : ascii) : bool :=
  match Ascii.nat_of_ascii c with 9%nat | 10%nat | 12%nat | 13%nat | 32%nat => true | _ => false end.

End regexp.

(** * Lemmas *)

(** The byte before what follows a literal. *)
Fixpoint lastByte (prev : option ascii) (p : string) : option ascii :=
  match p with EmptyString => prev | String c p' => lastByte (Some c) p' end.

Lemma run_literal p : forall prev s caps k,
  regexp.run (regexp.literal p) prev s caps k =
  match strings.CutPrefix s p with Some rest => k (lastByte prev p) rest caps | None => None end.
Proof.
  induction p as [|c p IH]; intros prev s caps k; cbn [regexp.literal regexp.run lastByte].
  - unfold strings.CutPrefix. by destruct s.
  - unfold regexp.byte. destruct s as [|d s]; [done|]. cbn [regexp.run]. unfold strings.CutPrefix. cbn [strings.HasPrefix String.length strings.from].
    destruct (Ascii.eqb c d) eqn:E; [|done]. apply Ascii.eqb_eq in E as <-. cbn [andb]. rewrite IH. unfold strings.CutPrefix. done.
Qed.

Lemma between_app s t : regexp.between (s +:+ t) t = s.
Proof.
  unfold regexp.between. rewrite string_length_app. replace (String.length s + String.length t - String.length t)%nat with (String.length s) by lia.
  apply upto_length_app.
Qed.

(** An expression that begins with [^] only matches at the beginning. *)
Lemma match_anchored r s : regexp.MatchString (regexp.Cat regexp.TextBegin r) s = true -> is_Some (regexp.here r None s).
Proof.
  unfold regexp.MatchString.
  assert (forall s c, regexp.find (regexp.Cat regexp.TextBegin r) (Some c) s = None) as Hlate.
  { clear s. intros s. induction s as [|d s IH]; intros c; [done|]. cbn [regexp.find]. rewrite IH. done. }
  assert (regexp.here (regexp.Cat regexp.TextBegin r) None s = regexp.here r None s) as Hhere by done.
  intros H. destruct (regexp.here r None s) as [m|] eqn:E; [by exists m|exfalso].
  destruct s as [|c s]; cbn [regexp.find] in H; rewrite Hhere in H; [done|by rewrite Hlate in H].
Qed.
