(* ===== verification/BackupTypes.v ===== *)
(** The Neo4jBackup and the Jobs that carry it out
    (src/api/v1beta1/neo4jbackup_types.go, with the storage location of
    neo4jenterprisecluster_types.go and what the operator reads of batch/v1 Jobs).
    Restores read the same types (RestoreTypes.v). Times are nanoseconds since the
    Unix epoch, and a time Go leaves zero is [None]; of a Job's resources nothing is
    kept. *)
From S2P Require Import Prelude GoStrings ClusterTypes Conditions.

Open Scope Z_scope.

(** * Where backups are stored *)

Record PVCSpec := mkPVCSpec { pv_Name : string; pv_StorageClassName : string; pv_Size : string }.

(** [ci_AutoCreate]: the annotations of identity.autoCreate. *)
Record CloudIdentity := mkCloudIdentity { ci_Provider : string; ci_AutoCreate : option (gmap string string) }.

Record CloudBlock := mkCloudBlock {
  cb_Provider : string;
  cb_Identity : option CloudIdentity;
  cb_CredentialsSecretRef : string;
  cb_EndpointURL : string;
  cb_ForcePathStyle : bool
}.

Record StorageLocation := mkStorageLocation {
  sl_Type : string;
  sl_Bucket : string;
  sl_Path : string;
  sl_PVC : option PVCSpec;
  sl_Cloud : option CloudBlock
}.

(** * The spec *)

Record RetentionPolicy := mkRetentionPolicy { rp_MaxAge : string; rp_MaxCount : Z; rp_DeletePolicy : string }.

Record TempStorageSpec := mkTempStorageSpec { ts_Size : string; ts_StorageClassName : string }.

Record BackupOptions := mkBackupOptions {
  bo_Compress : option bool;
  bo_BackupType : string;
  bo_PageCache : string;
  bo_ParallelDownload : bool;
  bo_RemoteAddressResolution : option bool;
  bo_SkipRecovery : bool;
  bo_Validate : option bool;
  bo_AdditionalArgs : list string;
  bo_PreferDiffAsParent : bool;
  bo_TempPath : string;
  bo_TempStorage : option TempStorageSpec;
  bo_IncludeMetadata : string;
  bo_ParallelRecovery : bool;
  bo_KeepFailed : bool;
  bo_SplitArchivePartSize : string
}.

Record Neo4jBackupSpec := mkNeo4jBackupSpec {
  bs_InstanceRef : string;
  bs_Database : string;
  bs_AllDatabases : bool;
  bs_ShardedDatabase : string;
  bs_Storage : StorageLocation;
  bs_Schedule : string;
  bs_Mode : string;
  bs_Retention : option RetentionPolicy;
  bs_Options : option BackupOptions;
  bs_Suspend : bool;
  bs_ChainFromBackup : string
}.

(** * The status *)

Record BackupStats := mkBackupStats { bt_Size : string; bt_Duration : string; bt_Throughput : string; bt_FileCount : Z }.

Record ShardArtifact := mkShardArtifact { sa_ShardName : string; sa_Filename : string; sa_Size : Z; sa_Type : string }.

Record ShardedFamilyArtifacts := mkShardedFamilyArtifacts { sf_Family : string; sf_ShardArtifacts : list ShardArtifact }.

Record DatabaseArtifact := mkDatabaseArtifact { da_Database : string; da_Filename : string; da_Size : Z; da_Type : string }.

(** The message of a shard, which nothing writes, is left out. *)
Record ShardValidationStatus := mkShardValidationStatus { sv_ShardName : string; sv_Status : string }.

Record BackupValidationResult := mkBackupValidationResult {
  vr_OverallStatus : string;
  vr_PerShard : list ShardValidationStatus;
  vr_RawOutput : string
}.

Record BackupRun := mkBackupRun {
  br_RunID : string;
  br_StartTime : option Z;
  br_CompletionTime : option Z;
  br_Status : string;
  br_Error : string;
  br_Stats : option BackupStats;
  br_BackupsPath : string;
  br_ArtifactFilename : string;
  br_ArtifactType : string;
  br_ShardArtifacts : list ShardArtifact;
  br_DatabaseArtifacts : list DatabaseArtifact;
  br_ShardedDatabasesExcluded : list string;
  br_ShardedFamilies : list ShardedFamilyArtifacts;
  br_Validation : option BackupValidationResult
}.

(** Without nextRunTime, which nothing writes. *)
Record Neo4jBackupStatus := mkNeo4jBackupStatus {
  bu_Conditions : list Condition;
  bu_Phase : string;
  bu_Message : string;
  bu_LastRunTime : option Z;
  bu_LastSuccessTime : option Z;
  bu_Stats : option BackupStats;
  bu_ReplicationPullURI : string;
  bu_History : list BackupRun;
  bu_ObservedGeneration : Z
}.

Record Neo4jBackup := mkNeo4jBackup {
  bk_Name : string;
  bk_Namespace : string;
  bk_UID : string;
  bk_Generation : Z;
  bk_Finalizers : list string;
  bk_Deleting : bool;
  bk_Spec : Neo4jBackupSpec;
  bk_Status : Neo4jBackupStatus
}.

#[global] Instance BackupStats_eq_dec : EqDecision BackupStats.
Proof. solve_decision. Defined.
#[global] Instance ShardArtifact_eq_dec : EqDecision ShardArtifact.
Proof. solve_decision. Defined.
#[global] Instance ShardedFamilyArtifacts_eq_dec : EqDecision ShardedFamilyArtifacts.
Proof. solve_decision. Defined.
#[global] Instance DatabaseArtifact_eq_dec : EqDecision DatabaseArtifact.
Proof. solve_decision. Defined.
#[global] Instance ShardValidationStatus_eq_dec : EqDecision ShardValidationStatus.
Proof. solve_decision. Defined.
#[global] Instance BackupValidationResult_eq_dec : EqDecision BackupValidationResult.
Proof. solve_decision. Defined.
#[global] Instance BackupRun_eq_dec : EqDecision BackupRun.
Proof. solve_decision. Defined.
#[global] Instance Neo4jBackupStatus_eq_dec : EqDecision Neo4jBackupStatus.
Proof. solve_decision. Defined.

Definition bk_Storage (b : Neo4jBackup) : StorageLocation := bs_Storage (bk_Spec b).
Definition bk_History (b : Neo4jBackup) : list BackupRun := bu_History (bk_Status b).
Definition bk_Phase (b : Neo4jBackup) : string := bu_Phase (bk_Status b).

Definition set_bk_Finalizers (v : list string) (b : Neo4jBackup) : Neo4jBackup :=
  mkNeo4jBackup (bk_Name b) (bk_Namespace b) (bk_UID b) (bk_Generation b) v (bk_Deleting b) (bk_Spec b) (bk_Status b).
Definition set_bk_Status (v : Neo4jBackupStatus) (b : Neo4jBackup) : Neo4jBackup :=
  mkNeo4jBackup (bk_Name b) (bk_Namespace b) (bk_UID b) (bk_Generation b) (bk_Finalizers b) (bk_Deleting b) (bk_Spec b) v.
Definition set_bu_History (stats : option BackupStats) (v : list BackupRun) (s : Neo4jBackupStatus) : Neo4jBackupStatus :=
  mkNeo4jBackupStatus (bu_Conditions s) (bu_Phase s) (bu_Message s) (bu_LastRunTime s) (bu_LastSuccessTime s) stats
    (bu_ReplicationPullURI s) v (bu_ObservedGeneration s).
Definition set_bu_ReplicationPullURI (v : string) (s : Neo4jBackupStatus) : Neo4jBackupStatus :=
  mkNeo4jBackupStatus (bu_Conditions s) (bu_Phase s) (bu_Message s) (bu_LastRunTime s) (bu_LastSuccessTime s) (bu_Stats s)
    v (bu_History s) (bu_ObservedGeneration s).

Definition BackupTargetKindCluster : string := "Cluster".
Definition BackupTargetKindDatabase : string := "Database".
Definition BackupTargetKindShardedDatabase : string := "ShardedDatabase".

Definition Scope (s : Neo4jBackupSpec) : string :=
  if bs_AllDatabases s then BackupTargetKindCluster
  else if negb (String.eqb (bs_ShardedDatabase s) EmptyString) then BackupTargetKindShardedDatabase
  else BackupTargetKindDatabase.

Definition ScopedName (s : Neo4jBackupSpec) : string :=
  if String.eqb (Scope s) BackupTargetKindShardedDatabase then bs_ShardedDatabase s
  else if String.eqb (Scope s) BackupTargetKindCluster then bs_InstanceRef s
  else bs_Database s.

Definition CompressEffective (o : option BackupOptions) : bool :=
  match o with Some o => default true (bo_Compress o) | None => true end.

(** [options.validate] is set and true. *)
Definition validateRequested (s : Neo4jBackupSpec) : bool :=
  match bs_Options s with Some o => default false (bo_Validate o) | None => false end.

(** The directory the chain of the backup is written to. *)
Definition chainRoot (backup : Neo4jBackup) : string :=
  if negb (String.eqb (bs_ChainFromBackup (bk_Spec backup)) EmptyString) then bs_ChainFromBackup (bk_Spec backup) else bk_Name backup.

(** * Jobs *)

Record JobCondition := mkJobCondition {
  jc_Type : string;
  jc_Status : string;
  jc_Reason : string;
  jc_Message : string;
  jc_LastTransitionTime : option Z
}.

Record BackupJob := mkBackupJob {
  bj_Name : string;
  bj_UID : string;
  bj_Labels : gmap string string;
  bj_StartTime : option Z;
  bj_CompletionTime : option Z;
  bj_Active : Z;
  bj_Succeeded : Z;
  bj_Conditions : list JobCondition
}.

Definition JobComplete : string := "Complete".
Definition JobFailed : string := "Failed".

Definition jobConditionTrue (job : BackupJob) (condType : string) : bool :=
  existsb (fun c => String.eqb (jc_Type c) condType && String.eqb (jc_Status c) ConditionTrue) (bj_Conditions job).

Definition jobCondition (job : BackupJob) (t : string) : option JobCondition :=
  List.find (fun c => String.eqb (jc_Type c) t && String.eqb (jc_Status c) ConditionTrue) (bj_Conditions job).

(** The Job succeeded: its condition or its counter says so. *)
Definition jobSucceeded (job : BackupJob) : bool := jobConditionTrue job JobComplete || (0 <? bj_Succeeded job).
