(* ===== verification/RestoreTypes.v ===== *)
(** The Neo4jRestore, the backups it reads and what it decides from them without
    asking anyone (src/api/v1beta1/neo4jrestore_types.go, restore_outcome.go,
    restore_target.go, restore_point_in_time.go, backup_resolver.go, and
    neo4jrestore_controller.go): whether it ended, which run of a backup it reads,
    whether it runs online or with a Job that needs the instance stopped, and
    whether an answer that the database is online can be trusted. Times are
    nanoseconds since the Unix epoch; a time Go leaves zero is [None]. *)
From S2P Require Import Prelude GoStrings GoTime GoRFC3339 ClusterTypes Conditions UpgradeRecord Version UpgradeMachine BackupTypes.

Open Scope Z_scope.

(** * Resources *)

Record ResolvedRestoreSource := mkResolvedRestoreSource {
  rr_BackupRef : string;
  rr_Storage : option StorageLocation;
  rr_BackupPath : string;
  rr_ArtifactFilename : string;
  rr_ArtifactType : string;
  rr_DatabaseArtifacts : list DatabaseArtifact;
  rr_ShardedDatabasesExcluded : list string;
  rr_ResolvedAt : Z;
  rr_BackupCreatedAt : option Z;
  rr_BackupStartedAt : option Z
}.

Record BaseBackupSource := mkBaseBackupSource {
  bb_Type : string;
  bb_BackupRef : string;
  bb_Storage : option StorageLocation;
  bb_BackupPath : string
}.

(** [so_PITR]: spec.source.pitr, with its baseBackup. *)
Record RestoreSource := mkRestoreSource {
  so_Type : string;
  so_BackupRef : string;
  so_Storage : option StorageLocation;
  so_BackupPath : string;
  so_SourceDatabase : string;
  so_PointInTime : option Z;
  so_PITR : option (option BaseBackupSource)
}.

(** Of the hooks and of the temporary storage, whether there are any. *)
Record RestoreOptionsSpec := mkRestoreOptionsSpec {
  op_ReplaceExisting : bool;
  op_PreRestore : bool;
  op_PostRestore : bool;
  op_TempStorage : bool;
  op_TempPath : string;
  op_AdditionalArgs : list string
}.

Record Neo4jRestoreSpec := mkNeo4jRestoreSpec {
  rx_InstanceRef : string;
  rx_Source : RestoreSource;
  rx_Database : string;
  rx_AllDatabases : bool;
  rx_Options : option RestoreOptionsSpec;
  rx_StopCluster : bool;
  rx_Timeout : string
}.

Record DatabaseRestoreResult := mkDatabaseRestoreResult {
  dr_Database : string;
  dr_Phase : string;
  dr_Message : string;
  dr_CompletionTime : option Z
}.

Record RestoreBackupInfo := mkRestoreBackupInfo {
  bi_OriginalDatabase : string;
  bi_BackupPath : string;
  bi_BackupCreatedAt : option Z
}.

(** [rt_Duration] is status.stats.duration. *)
Record Neo4jRestoreStatus := mkNeo4jRestoreStatus {
  rt_Conditions : list Condition;
  rt_Phase : string;
  rt_Message : string;
  rt_StartTime : option Z;
  rt_CompletionTime : option Z;
  rt_ObservedGeneration : Z;
  rt_DatabaseResults : list DatabaseRestoreResult;
  rt_ResolvedSource : option ResolvedRestoreSource;
  rt_Duration : string;
  rt_BackupInfo : option RestoreBackupInfo
}.

Record Neo4jRestore := mkNeo4jRestore {
  nr_Name : string;
  nr_UID : string;
  nr_Generation : Z;
  nr_Annotations : gmap string string;
  nr_Finalizers : list string;
  nr_Deleting : bool;
  nr_Spec : Neo4jRestoreSpec;
  nr_Status : Neo4jRestoreStatus
}.

Definition set_nr_Annotations (v : gmap string string) (r : Neo4jRestore) : Neo4jRestore :=
  mkNeo4jRestore (nr_Name r) (nr_UID r) (nr_Generation r) v (nr_Finalizers r) (nr_Deleting r) (nr_Spec r) (nr_Status r).
Definition set_nr_Finalizers (v : list string) (r : Neo4jRestore) : Neo4jRestore :=
  mkNeo4jRestore (nr_Name r) (nr_UID r) (nr_Generation r) (nr_Annotations r) v (nr_Deleting r) (nr_Spec r) (nr_Status r).
Definition set_nr_Status (v : Neo4jRestoreStatus) (r : Neo4jRestore) : Neo4jRestore :=
  mkNeo4jRestore (nr_Name r) (nr_UID r) (nr_Generation r) (nr_Annotations r) (nr_Finalizers r) (nr_Deleting r) (nr_Spec r) v.
Definition set_rt_ResolvedSource (v : option ResolvedRestoreSource) (s : Neo4jRestoreStatus) : Neo4jRestoreStatus :=
  mkNeo4jRestoreStatus (rt_Conditions s) (rt_Phase s) (rt_Message s) (rt_StartTime s) (rt_CompletionTime s)
    (rt_ObservedGeneration s) (rt_DatabaseResults s) v (rt_Duration s) (rt_BackupInfo s).
(** What startRestore stamps on the pass's copy. *)
Definition set_rt_Started (start : option Z) (generation : Z) (s : Neo4jRestoreStatus) : Neo4jRestoreStatus :=
  mkNeo4jRestoreStatus (rt_Conditions s) (rt_Phase s) (rt_Message s) start (rt_CompletionTime s)
    generation (rt_DatabaseResults s) (rt_ResolvedSource s) (rt_Duration s) (rt_BackupInfo s).
Definition set_rt_Completed (completion : option Z) (message : string) (s : Neo4jRestoreStatus) : Neo4jRestoreStatus :=
  mkNeo4jRestoreStatus (rt_Conditions s) (rt_Phase s) message (rt_StartTime s) completion
    (rt_ObservedGeneration s) (rt_DatabaseResults s) (rt_ResolvedSource s) (rt_Duration s) (rt_BackupInfo s).
Definition set_rt_Provenance (duration : string) (info : option RestoreBackupInfo) (s : Neo4jRestoreStatus) : Neo4jRestoreStatus :=
  mkNeo4jRestoreStatus (rt_Conditions s) (rt_Phase s) (rt_Message s) (rt_StartTime s) (rt_CompletionTime s)
    (rt_ObservedGeneration s) (rt_DatabaseResults s) (rt_ResolvedSource s) duration info.
Definition set_rt_DatabaseResults (v : list DatabaseRestoreResult) (s : Neo4jRestoreStatus) : Neo4jRestoreStatus :=
  mkNeo4jRestoreStatus (rt_Conditions s) (rt_Phase s) (rt_Message s) (rt_StartTime s) (rt_CompletionTime s)
    (rt_ObservedGeneration s) v (rt_ResolvedSource s) (rt_Duration s) (rt_BackupInfo s).

(** The restore's Job: whose it is, the attempt recorded on it, its command, its
    conditions that are True, and the message of the last one. *)
Record RestoreJob := mkRestoreJob {
  rj_Controller : string;
  rj_Attempt : option string;
  rj_Command : string;
  rj_Deleting : bool;
  rj_Complete : bool;
  rj_Failed : bool;
  rj_Succeeded : Z;
  rj_CompletionTime : option Z;
  rj_LastMessage : option string
}.

(** What the restore reads of its target, a cluster or a standalone (one server);
    [tg_EnvHasSeedEndpoint]: spec.env sets the S3 endpoint. *)
Record TargetCR := mkTargetCR {
  tg_Annotations : gmap string string;
  tg_ImageRepo : string;
  tg_ImageTag : string;
  tg_Servers : Z;
  tg_PodIdentity : bool;
  tg_EnvHasSeedEndpoint : bool
}.

Definition set_tg_Annotations (v : gmap string string) (t : TargetCR) : TargetCR :=
  mkTargetCR v (tg_ImageRepo t) (tg_ImageTag t) (tg_Servers t) (tg_PodIdentity t) (tg_EnvHasSeedEndpoint t).

(** What a step of a restore fails with, as far as the passes tell errors apart:
    the backup has no successful run yet, the Job of an earlier attempt is still
    there, the spec is refused, the API server failed, or anything else. *)
Inductive restoreErr :=
| ErrBackupNotReady (msg : string)
| ErrStaleJob (msg : string)
| ErrRefusal (msg : string)
| ErrAPI (msg : string)
| ErrOther (msg : string).

Definition errText (e : restoreErr) : string :=
  match e with ErrBackupNotReady m | ErrStaleJob m | ErrRefusal m | ErrAPI m | ErrOther m => m end.

(** [fmt.Errorf("prefix: %w", err)]. *)
Definition wrapErr (prefix : string) (e : restoreErr) : restoreErr :=
  match e with
  | ErrBackupNotReady m => ErrBackupNotReady (prefix +:+ ": " +:+ m)
  | ErrStaleJob m => ErrStaleJob (prefix +:+ ": " +:+ m)
  | ErrRefusal m => ErrRefusal (prefix +:+ ": " +:+ m)
  | ErrAPI m => ErrAPI (prefix +:+ ": " +:+ m)
  | ErrOther m => ErrOther (prefix +:+ ": " +:+ m)
  end.

(** * Constants *)

Definition StatusCompleted : string := "Completed".
Definition StatusFailed : string := "Failed".
Definition StatusRunning : string := "Running".
Definition StatusPending : string := "Pending".
Definition SourceTypeBackup : string := "backup".
Definition RestoreFinalizer : string := "neo4j.com/restore-finalizer".
Definition AnnotationCypherRestoreIssued : string := "neo4j.com/cypher-restore-issued".
Definition AnnotationCypherRestoreObservedOffline : string := "neo4j.com/cypher-restore-observed-offline".
Definition AnnotationRestorePreHooksRan : string := "neo4j.com/restore-pre-hooks-ran".
Definition AnnotationPointInTimePath : string := "neo4j.com/point-in-time-path".
Definition AnnotationSeedProxyWaitStarted : string := "neo4j.com/seed-proxy-wait-started".
Definition originalReplicasAnnotation : string := "neo4j.neo4j.com/original-replicas".
Definition cypherRestoreOnlineTimeout : Z := 5 * 60 * second.
Definition cypherRestoreStaleOnlineGrace : Z := 30 * second.
Definition pointInTimeOnline : string := "online".
Definition defaultBackupStoragePath : string := "backups".
Definition backupArtifactFull : string := "FULL".

(** * Outcomes *)

(** Whether the restore ended at its current generation. *)
Definition restoreEndedAtGeneration (restore : Neo4jRestore) : bool :=
  let phase := rt_Phase (nr_Status restore) in
  if negb (String.eqb phase StatusCompleted) && negb (String.eqb phase StatusFailed) then false
  else rt_ObservedGeneration (nr_Status restore) =? nr_Generation restore.

Definition restoreReadyCondition (phase : string) : string * string :=
  if String.eqb phase StatusCompleted then (ConditionTrue, "RestoreCompleted")
  else if String.eqb phase StatusFailed then (ConditionFalse, "RestoreFailed")
  else if String.eqb phase StatusRunning then (ConditionUnknown, "RestoreRunning")
  else PhaseToConditionStatus phase.

Definition restoreOverwriteConfirmed (restore : Neo4jRestore) : bool :=
  match rx_Options (nr_Spec restore) with Some o => op_ReplaceExisting o | None => false end.

Definition hasPreRestore (restore : Neo4jRestore) : bool :=
  match rx_Options (nr_Spec restore) with Some o => op_PreRestore o | None => false end.
Definition hasPostRestore (restore : Neo4jRestore) : bool :=
  match rx_Options (nr_Spec restore) with Some o => op_PostRestore o | None => false end.

Definition restoreJobOfThisAttempt (restore : Neo4jRestore) (job : RestoreJob) : bool :=
  if negb (String.eqb (rj_Controller job) (nr_UID restore)) then false
  else match rj_Attempt job with
       | Some attempt => String.eqb attempt (strconv.Itoa (nr_Generation restore))
       | None => negb (String.eqb (rt_Phase (nr_Status restore)) StatusFailed)
                 && negb (String.eqb (rt_Phase (nr_Status restore)) StatusCompleted)
       end.

(** * What is read from a backup *)

Definition resolvedBackupSnapshot (restore : Neo4jRestore) : option (ResolvedRestoreSource * StorageLocation) :=
  match rt_ResolvedSource (nr_Status restore) with
  | Some rs => match rr_Storage rs with Some storage => Some (rs, storage) | None => None end
  | None => None
  end.

(** [r] started after [s]; one without a start time is the older. *)
Definition runStartedAfter (r s : BackupRun) : bool :=
  match br_StartTime r, br_StartTime s with Some a, Some b => b <? a | _, _ => false end.

Definition succeededRun (run : BackupRun) : bool := String.eqb (br_Status run) "Succeeded".

(** One run of the loop: the latest run and the earliest that covers the point
    in time, so far. *)
Definition runStep (pointInTime : option Z) (best : option BackupRun * option BackupRun) (run : BackupRun)
    : option BackupRun * option BackupRun :=
  let '(latest, covering) := best in
  if negb (succeededRun run) then best
  else
    let latest := match latest with
                  | None => Some run
                  | Some l => if runStartedAfter run l then Some run else latest
                  end in
    match pointInTime, br_StartTime run with
    | Some pit, Some start =>
        if start <? pit then (latest, covering)
        else match covering with
             | None => (latest, Some run)
             | Some c => if runStartedAfter c run then (latest, Some run) else (latest, covering)
             end
    | _, _ => (latest, covering)
    end.

(** [restoreRunIndex], as the run at the index it returns. *)
Definition restoreRun (history : list BackupRun) (pointInTime : option Z) : option BackupRun :=
  let '(latest, covering) := fold_left (runStep pointInTime) history (None, None) in
  match covering with Some _ => covering | None => latest end.

Definition pointInTimeCovered (restore : Neo4jRestore) (snap : option (ResolvedRestoreSource * StorageLocation)) : bool :=
  match so_PointInTime (rx_Source (nr_Spec restore)), snap with
  | Some pit, Some (rs, _) => match rr_BackupStartedAt rs with Some started => negb (started <? pit) | None => false end
  | _, _ => false
  end.

Definition restoreSourceDatabase (restore : Neo4jRestore) : string :=
  let source := so_SourceDatabase (rx_Source (nr_Spec restore)) in
  if String.eqb source EmptyString then rx_Database (nr_Spec restore) else source.

Definition artifactForDatabase (artifacts : list DatabaseArtifact) (database : string) : string :=
  match List.find (fun a => strings.EqualFold (da_Database a) database && negb (String.eqb (da_Filename a) EmptyString)) artifacts with
  | Some a => da_Filename a
  | None => EmptyString
  end.

Definition restoreSeedArtifacts (restore : Neo4jRestore) (snap : ResolvedRestoreSource) : list DatabaseArtifact :=
  if rx_AllDatabases (nr_Spec restore)
  then List.filter (fun a => negb (strings.EqualFold (da_Database a) "system")) (rr_DatabaseArtifacts snap)
  else if negb (String.eqb (rr_ArtifactFilename snap) EmptyString)
  then [mkDatabaseArtifact (restoreSourceDatabase restore) (rr_ArtifactFilename snap) 0 (rr_ArtifactType snap)]
  else List.filter (fun a => strings.EqualFold (da_Database a) (restoreSourceDatabase restore)) (rr_DatabaseArtifacts snap).

(** [ResolveBackupRef] of a backup that was read: its storage and the directory
    of its latest successful run; [None] when it has none yet. *)
Definition resolvedStorage (backup : Neo4jBackup) : option (StorageLocation * string) :=
  match List.find succeededRun (bk_History backup) with
  | None => None
  | Some run =>
      let s := bk_Storage backup in
      Some (if String.eqb (sl_Path s) EmptyString
            then mkStorageLocation (sl_Type s) (sl_Bucket s) defaultBackupStoragePath (sl_PVC s) (sl_Cloud s) else s,
            br_BackupsPath run)
  end.

(** What [ensureResolvedBackupSource] pins, [backup] being the read of the
    backup that follows ([None]: it failed). *)
Definition resolvedSnapshot (now : Z) (restore : Neo4jRestore) (storage : StorageLocation) (backupPath : string)
    (backup : option Neo4jBackup) : ResolvedRestoreSource :=
  let source := rx_Source (nr_Spec restore) in
  let run := match backup with Some b => restoreRun (bk_History b) (so_PointInTime source) | None => None end in
  let fullOnly := match backup with Some b => match bs_Options (bk_Spec b) with Some o => String.eqb (bo_BackupType o) backupArtifactFull | None => false end | None => false end in
  match run with
  | None => mkResolvedRestoreSource (so_BackupRef source) (Some storage) backupPath EmptyString EmptyString [] [] now None None
  | Some r =>
      mkResolvedRestoreSource (so_BackupRef source) (Some storage) backupPath (br_ArtifactFilename r)
        (if String.eqb (br_ArtifactType r) EmptyString && fullOnly then backupArtifactFull else br_ArtifactType r)
        (br_DatabaseArtifacts r) (br_ShardedDatabasesExcluded r) now (br_CompletionTime r) (br_StartTime r)
  end.

(** The file the most recent successful run of a backup holds for a database;
    the errors' advice is left out. *)
Definition latestSucceededArtifactFilename (backupRef database : string) (backup : Neo4jBackup) : result string :=
  match List.find succeededRun (bk_History backup) with
  | None => Err ("Neo4jBackup " +:+ quoted backupRef +:+ " has no Succeeded run with a captured ArtifactFilename")
  | Some run =>
      if negb (String.eqb (br_ArtifactFilename run) EmptyString) then Ok (br_ArtifactFilename run)
      else
        let fn := artifactForDatabase (br_DatabaseArtifacts run) database in
        if negb (String.eqb fn EmptyString) then Ok fn
        else if bs_AllDatabases (bk_Spec backup)
        then Err ("Neo4jBackup " +:+ quoted backupRef +:+ " is a kind:Cluster (all-databases) backup")
        else Err ("the most recent Succeeded run " +:+ quoted (br_RunID run) +:+ " of Neo4jBackup " +:+ quoted backupRef
                  +:+ " has no captured ArtifactFilename")
  end.

Definition buildSeedURIFromBackupStorage (storage : StorageLocation) (backupPath : string) : result string :=
  let base := sl_Path storage in
  let full :=
    if negb (String.eqb base EmptyString) && negb (String.eqb backupPath EmptyString)
    then strings.TrimRight base "/" +:+ "/" +:+ backupPath
    else if negb (String.eqb base EmptyString) then base else backupPath in
  let full := if strings.HasSuffix full "/" then full else full +:+ "/" in
  let uri := fun scheme => Ok (scheme +:+ sl_Bucket storage +:+ "/" +:+ strings.trimLeftFunc (fun c => Ascii.eqb c "/"%char) full) in
  if String.eqb (sl_Type storage) "s3" then uri "s3://"
  else if String.eqb (sl_Type storage) "gcs" then uri "gs://"
  else if String.eqb (sl_Type storage) "azure" then uri "azb://"
  else if String.eqb (sl_Type storage) "pvc" || String.eqb (sl_Type storage) EmptyString
  then Err ("seedBackupRef requires cloud-backed backup storage (s3, gcs, azure); got " +:+ quoted (sl_Type storage)
            +:+ " — copy backup artifacts to a cloud bucket or set spec.seedURI manually")
  else Err ("seedBackupRef does not support storage type " +:+ quoted (sl_Type storage)).

(** * Online or with a Job *)

Definition isPITR (restore : Neo4jRestore) : bool := String.eqb (so_Type (rx_Source (nr_Spec restore))) "pitr".
Definition hasPointInTime (restore : Neo4jRestore) : bool := bool_decide (so_PointInTime (rx_Source (nr_Spec restore)) <> None).

(** Why a restore to a point in time cannot run online; empty when it can. *)
Definition pointInTimeOnlineBlocker (restore : Neo4jRestore) (snap : option (ResolvedRestoreSource * StorageLocation))
    (calver exists_ : bool) : string :=
  let src := rx_Source (nr_Spec restore) in
  if isPITR restore then "source.type pitr replays separately stored transaction logs, which only neo4j-admin does"
  else if rx_AllDatabases (nr_Spec restore)
  then "an all-databases restore recreates the databases that exist, and Neo4j restores to a point in time only when creating a database"
  else if negb (String.eqb (so_Type src) SourceTypeBackup)
  then "source.type " +:+ quoted (so_Type src) +:+ " names a path, so the operator cannot tell which backup in it holds the point in time"
  else if negb calver then "Neo4j 5.26 cannot seed a database to a point in time (seedRestoreUntil arrived with CalVer)"
  else match snap with
       | None => "the backup's location is not resolved yet"
       | Some (rs, storage) =>
           if String.eqb (sl_Type storage) "pvc"
           then "the backup is on a PVC, which the seed proxy serves over HTTP, and Neo4j restores a seed to a point in time only from cloud storage"
           else if negb (pointInTimeCovered restore snap)
           then "no run of Neo4jBackup " +:+ quoted (rr_BackupRef rs) +:+ " started at or after "
                +:+ gotime.FormatRFC3339 (default 0 (so_PointInTime src)) +:+ ", so none is known to hold every transaction up to it"
           else if String.eqb (rr_ArtifactFilename rs) EmptyString
           then "Neo4jBackup " +:+ quoted (rr_BackupRef rs) +:+ " did not record the artifact of the run that holds the point in time"
           else if exists_
           then "database " +:+ quoted (rx_Database (nr_Spec restore))
                +:+ " exists, and Neo4j restores to a point in time only when creating a database (seedRestoreUntil is a CREATE DATABASE option); restore under a new name"
           else EmptyString
       end.

Definition pointInTimeOfflineReason (restore : Neo4jRestore) : string :=
  match nr_Annotations restore !! AnnotationPointInTimePath with
  | None => "a point-in-time restore runs online only once the operator has checked it can (CalVer, cloud storage, a new database)"
  | Some path => if String.eqb path pointInTimeOnline then EmptyString else strings.TrimPrefix path "offline: "
  end.

(** [standalone]: [None] when it is not known. *)
Definition standaloneHasPodIdentity (standalone : option TargetCR) : bool :=
  match standalone with Some s => tg_PodIdentity s | None => false end.

Definition noArtifact (snap : ResolvedRestoreSource) (artifacts : list DatabaseArtifact) : string :=
  match artifacts with
  | [] => "Neo4jBackup " +:+ quoted (rr_BackupRef snap) +:+ " did not record the artifact to seed from"
  | _ => match List.find (fun a => String.eqb (da_Filename a) EmptyString) artifacts with
         | Some a => "Neo4jBackup " +:+ quoted (rr_BackupRef snap) +:+ " did not record the artifact for database " +:+ quoted (da_Database a)
         | None => EmptyString
         end
  end.

Definition standaloneOfflineReason (restore : Neo4jRestore) (standalone : option TargetCR) : string :=
  let src := rx_Source (nr_Spec restore) in
  let pit := if isPITR restore || hasPointInTime restore then pointInTimeOfflineReason restore else EmptyString in
  if negb (String.eqb pit EmptyString) then pit
  else if negb (String.eqb (so_Type src) SourceTypeBackup)
  then "source.type " +:+ quoted (so_Type src)
       +:+ " gives a path, which may be a directory or part of a backup chain; only neo4j-admin resolves those"
  else match resolvedBackupSnapshot restore with
       | None => "the backup's location is not resolved yet"
       | Some (snap, storage) =>
           let credentials := match sl_Cloud storage with Some c => cb_CredentialsSecretRef c | None => EmptyString end in
           if negb (String.eqb (sl_Type storage) "pvc") && String.eqb credentials EmptyString && negb (standaloneHasPodIdentity standalone)
           then "the backup's cloud storage authenticates by pod identity (no credentialsSecretRef); online, the standalone's own pod fetches the seed, and it has no workload identity (set spec.podServiceAccountAnnotations on the standalone to give it one), while the restore Job's ServiceAccount can"
           else noArtifact snap (restoreSeedArtifacts restore snap)
       end.

Definition restoreRunsOffline (restore : Neo4jRestore) (isTrueCluster : bool) (standalone : option TargetCR) : bool :=
  if isTrueCluster then false else negb (String.eqb (standaloneOfflineReason restore standalone) EmptyString).

(** The restore holds the standalone stopped. *)
Definition holdsStopped (restore : Neo4jRestore) (standalone : TargetCR) : bool :=
  String.eqb (default EmptyString (tg_Annotations standalone !! RestoreInProgressAnnotation)) (nr_Name restore).

Definition restoreOnJobPath (restore : Neo4jRestore) (isTrueCluster : bool) (standalone : option TargetCR) : bool :=
  if isTrueCluster then false
  else if match standalone with Some s => holdsStopped restore s | None => false end then true
  else if bool_decide (is_Some (nr_Annotations restore !! AnnotationCypherRestoreIssued)) || match rt_DatabaseResults (nr_Status restore) with [] => false | _ => true end then false
  else restoreRunsOffline restore false standalone.

(** * The poll *)

Definition restoreBudget (restore : Neo4jRestore) : Z :=
  let timeout := rx_Timeout (nr_Spec restore) in
  if String.eqb timeout EmptyString then cypherRestoreOnlineTimeout
  else match ParseDuration timeout with
       | Some d => if 0 <? d then d else cypherRestoreOnlineTimeout
       | None => cypherRestoreOnlineTimeout
       end.

(** [time.Now().After(deadline)]. *)
Definition restoreExpired (now : Z) (restore : Neo4jRestore) : bool :=
  let budget := restoreBudget restore in
  let deadline := match nr_Annotations restore !! AnnotationCypherRestoreIssued with
                  | Some raw => match gotime.Parse raw with Some issuedAt => issuedAt + budget | None => now + budget end
                  | None => now + budget
                  end in
  deadline <? now.

Definition cypherRestoreOnlineAcceptable (restore : Neo4jRestore) (now : Z) : bool :=
  if String.eqb (default EmptyString (nr_Annotations restore !! AnnotationCypherRestoreObservedOffline)) "true" then true
  else match nr_Annotations restore !! AnnotationCypherRestoreIssued with
       | None => true
       | Some raw => match gotime.Parse raw with
                     | None => true
                     | Some issuedAt => cypherRestoreStaleOnlineGrace <=? now - issuedAt
                     end
       end.

(** * Names and versions *)

Definition asciiLetter (c : ascii) : bool :=
  let n := nat_of_ascii c in ((65 <=? n) && (n <=? 90) || (97 <=? n) && (n <=? 122))%nat.

Definition databaseNameByte (c : ascii) : bool := asciiLetter c || isDigit c || Ascii.eqb c "."%char || Ascii.eqb c "-"%char.

Definition maxDatabaseNameLength : nat := 65.

Definition IsValidDatabaseName (name : string) : bool :=
  match name with
  | EmptyString => false
  | String c rest => (String.length name <=? maxDatabaseNameLength)%nat && asciiLetter c && allBytes databaseNameByte rest
  end.
