(* ===== verification/RestoreRuns.v ===== *)
(** The run of a backup a restore reads (restoreRunIndex and
    ensureResolvedBackupSource, src/internal/controller/neo4jrestore_controller.go;
    definitions in RestoreTypes.v): of the runs that started at or after the point
    in time the earliest, and without any the most recent one that succeeded. *)
From S2P Require Import Prelude GoStrings GoTime GoRFC3339 ClusterTypes BackupTypes RestoreTypes.

Open Scope Z_scope.

(** * The run a restore reads *)

(** A run that can serve a point in time. *)
Definition covers (pit : Z) (run : BackupRun) : Prop :=
  succeededRun run = true /\ exists start, br_StartTime run = Some start /\ pit <= start.

(** No later than any other. *)
Definition notAfter (r s : BackupRun) : Prop := runStartedAfter r s = false.

(** What the loop holds after the runs [seen]. *)
Record runInvariant (pointInTime : option Z) (seen : list BackupRun) (latest covering : option BackupRun) : Prop := mkRunInvariant {
  ri_none : latest = None -> forall r, r ∈ seen -> succeededRun r = false;
  ri_latest : forall l, latest = Some l -> l ∈ seen /\ succeededRun l = true /\
    (br_StartTime l <> None -> forall r, r ∈ seen -> succeededRun r = true -> notAfter r l);
  ri_uncovered : covering = None -> forall pit r, pointInTime = Some pit -> r ∈ seen -> ~ covers pit r;
  ri_covering : forall c, covering = Some c -> exists pit, pointInTime = Some pit /\ c ∈ seen /\ covers pit c /\
    forall r, r ∈ seen -> covers pit r -> notAfter c r
}.

Lemma runStartedAfter_start r s : runStartedAfter r s = true <-> exists a b, br_StartTime r = Some a /\ br_StartTime s = Some b /\ b < a.
Proof.
  unfold runStartedAfter. destruct (br_StartTime r) as [a|], (br_StartTime s) as [b|];
    [|split; [done|intros (? & ? & ? & ? & _); congruence]..].
  rewrite Z.ltb_lt. split; [intros H; by exists a, b|]. intros (? & ? & E1 & E2 & H). congruence.
Qed.

Lemma notAfter_trans r s t : br_StartTime s <> None -> notAfter r s -> notAfter s t -> notAfter r t.
Proof.
  unfold notAfter. intros Hs H1 H2. apply not_true_is_false. intros (a & c & Ea & Ec & Hlt)%runStartedAfter_start.
  destruct (br_StartTime s) as [b|] eqn:Es; [|done]. unfold runStartedAfter in H1, H2. rewrite Ea, Es in H1. rewrite Es, Ec in H2.
  apply Z.ltb_ge in H1, H2. lia.
Qed.

Lemma notAfter_refl r : notAfter r r.
Proof. unfold notAfter, runStartedAfter. destruct (br_StartTime r); [apply Z.ltb_irrefl|done]. Qed.

Lemma after_notAfter r s : runStartedAfter r s = true -> notAfter s r /\ br_StartTime r <> None.
Proof.
  intros (a & b & Ea & Eb & Hlt)%runStartedAfter_start. unfold notAfter, runStartedAfter. rewrite Ea, Eb. split; [apply Z.ltb_ge; lia|done].
Qed.

Lemma covers_start pit r : covers pit r -> br_StartTime r <> None.
Proof. by intros (_ & start & -> & _). Qed.

(** The latest run so far. *)
Definition laterRun (latest : option BackupRun) (run : BackupRun) : option BackupRun :=
  match latest with None => Some run | Some l => if runStartedAfter run l then Some run else latest end.

Lemma runStep_invariant pointInTime seen latest covering run :
  runInvariant pointInTime seen latest covering ->
  runInvariant pointInTime (seen ++ [run]) (runStep pointInTime (latest, covering) run).1 (runStep pointInTime (latest, covering) run).2.
Proof.
  intros [I1 I2 I3 I4]. unfold runStep.
  assert (forall r, r ∈ seen ++ [run] <-> r ∈ seen \/ r = run) as Hin by (intros r; by rewrite elem_of_app, list_elem_of_singleton).
  destruct (succeededRun run) eqn:Es; cbn [negb].
  2: { split; cbn [fst snd].
       - intros E r [Hr| ->]%Hin; [by apply I1|done].
       - intros l E. destruct (I2 l E) as (L1 & L2 & L3). split_and!; [by apply Hin; left|done|]. intros Hs r [Hr| ->]%Hin Hok; [by apply L3|congruence].
       - intros E pit r Ep [Hr| ->]%Hin; [by apply I3|]. intros [Hok _]. congruence.
       - intros c E. destruct (I4 c E) as (pit & Ep & C1 & C2 & C3). exists pit. split_and!; [done|by apply Hin; left|done|].
         intros r [Hr| ->]%Hin Hc; [by apply C3|]. destruct Hc as [Hok _]. congruence. }
  change (match latest with None => Some run | Some l => if runStartedAfter run l then Some run else latest end) with (laterRun latest run).
  assert (exists l, laterRun latest run = Some l /\ l ∈ seen ++ [run] /\ succeededRun l = true /\
    (br_StartTime l <> None -> forall r, r ∈ seen ++ [run] -> succeededRun r = true -> notAfter r l)) as (l & El & L1 & L2 & L3).
  { unfold laterRun. destruct latest as [l|].
    - destruct (I2 l eq_refl) as (A1 & A2 & A3). destruct (runStartedAfter run l) eqn:Ea.
      + exists run. split_and!; [done|by apply Hin; right|done|]. intros Hs r [Hr| ->]%Hin Hok; [|apply notAfter_refl].
        destruct (after_notAfter _ _ Ea) as [Hlr _]. apply runStartedAfter_start in Ea as (a & b & Ea & Eb & _).
        apply (notAfter_trans r l run); [congruence|apply A3; [congruence|done..]|done].
      + exists l. split_and!; [done|by apply Hin; left|done|]. intros Hs r [Hr| ->]%Hin Hok; [by apply A3|done].
    - exists run. split_and!; [done|by apply Hin; right|done|]. intros Hs r [Hr| ->]%Hin Hok; [|apply notAfter_refl]. by rewrite (I1 eq_refl r Hr) in Hok. }
  rewrite El.
  assert (forall cov, (cov = None -> forall pit r, pointInTime = Some pit -> r ∈ seen ++ [run] -> ~ covers pit r) ->
    (forall c, cov = Some c -> exists pit, pointInTime = Some pit /\ c ∈ seen ++ [run] /\ covers pit c /\
       forall r, r ∈ seen ++ [run] -> covers pit r -> notAfter c r) -> runInvariant pointInTime (seen ++ [run]) (Some l) cov) as Hbuild.
  { intros cov H3 H4. split; try done. intros l' [= <-]. done. }
  (* a run that does not cover leaves the covering one *)
  assert ((forall pit, pointInTime = Some pit -> ~ covers pit run) -> runInvariant pointInTime (seen ++ [run]) (Some l) covering) as Hkeep.
  { intros Hno. apply Hbuild.
    - intros E pit r Ep [Hr| ->]%Hin; [by apply I3|by apply Hno].
    - intros c E. destruct (I4 c E) as (pit & Ep & C1 & C2 & C3). exists pit. split_and!; [done|by apply Hin; left|done|].
      intros r [Hr| ->]%Hin Hc; [by apply C3|by apply Hno in Hc]. }
  destruct pointInTime as [pit|]; [|by apply Hkeep]. destruct (br_StartTime run) as [start|] eqn:Est.
  2: { apply Hkeep. intros pit' _ (_ & s & E & _). congruence. }
  destruct (Z.ltb_spec start pit) as [Hlt|Hge].
  { apply Hkeep. intros pit' [= <-] (_ & s & E & Hs). assert (s = start) by congruence. lia. }
  assert (covers pit run) as Hcov by (split; [done|by exists start]).
  destruct covering as [c|].
  - destruct (I4 c eq_refl) as (pit' & [= <-] & C1 & C2 & C3). destruct (runStartedAfter c run) eqn:Ea; cbn [fst snd]; apply Hbuild; try done.
    + intros c' [= <-]. exists pit. split_and!; [done|by apply Hin; right|done|]. intros r [Hr| ->]%Hin Hc; [|apply notAfter_refl].
      destruct (after_notAfter _ _ Ea) as [Hrc _]. apply (notAfter_trans run c r); [by eapply covers_start|done|by apply C3].
    + intros c' [= <-]. exists pit. split_and!; [done|by apply Hin; left|done|]. intros r [Hr| ->]%Hin Hc; [by apply C3|done].
  - cbn [fst snd]. apply Hbuild; [done|]. intros c' [= <-]. exists pit. split_and!; [done|by apply Hin; right|done|].
    intros r [Hr| ->]%Hin Hc; [|apply notAfter_refl]. exfalso. by apply (I3 eq_refl pit r).
Qed.

Lemma runs_invariant pointInTime rest : forall seen latest covering,
  runInvariant pointInTime seen latest covering ->
  let '(l, c) := fold_left (runStep pointInTime) rest (latest, covering) in runInvariant pointInTime (seen ++ rest) l c.
Proof.
  induction rest as [|run rest IH]; intros seen latest covering Hi; cbn [fold_left]; [by rewrite app_nil_r|].
  rewrite (surjective_pairing (runStep pointInTime (latest, covering) run)).
  replace (seen ++ run :: rest) with ((seen ++ [run]) ++ rest) by by rewrite <- app_assoc. apply IH. by apply runStep_invariant.
Qed.

Lemma restoreRun_invariant history pointInTime : exists latest covering,
  runInvariant pointInTime history latest covering /\ restoreRun history pointInTime = match covering with Some _ => covering | None => latest end.
Proof.
  pose proof (runs_invariant pointInTime history [] None None) as H. unfold restoreRun.
  destruct (fold_left (runStep pointInTime) history (None, None)) as [l c]. exists l, c. split; [|done]. apply H.
  split; try done; [by intros _ r ?%elem_of_nil|]. by intros _ pit r _ ?%elem_of_nil.
Qed.

(** C20: a restore reads a successful run whenever the backup has one: of the runs
    that started at or after the point in time the earliest, and without any the
    most recent. The snapshot pinned from it covers the point in time exactly
    when some run of the backup does. *)
Theorem restore_run_exact (history : list BackupRun) (pointInTime : option Z) (now : Z) (restore : Neo4jRestore)
    (storage : StorageLocation) (path : string) (backup : Neo4jBackup) :
  (restoreRun history pointInTime = None <-> forall r, r ∈ history -> succeededRun r = false) /\
  (forall r, restoreRun history pointInTime = Some r -> r ∈ history /\ succeededRun r = true /\
     (forall pit r', pointInTime = Some pit -> r' ∈ history -> covers pit r' -> covers pit r /\ notAfter r r') /\
     ((forall pit r', pointInTime = Some pit -> r' ∈ history -> ~ covers pit r') -> br_StartTime r <> None ->
        forall r', r' ∈ history -> succeededRun r' = true -> notAfter r' r)) /\
  (pointInTimeCovered restore (Some (resolvedSnapshot now restore storage path (Some backup), storage)) = true <->
   exists pit r, so_PointInTime (rx_Source (nr_Spec restore)) = Some pit /\ r ∈ bk_History backup /\ covers pit r).
Proof.
  split; [|split].
  - destruct (restoreRun_invariant history pointInTime) as (l & c & [I1 I2 I3 I4] & ->). destruct c as [c|].
    + split; [done|]. intros H. destruct (I4 c eq_refl) as (pit & _ & C1 & [C2 _] & _). by rewrite H in C2.
    + split; [apply I1|]. intros H. destruct l as [l|]; [|done]. destruct (I2 l eq_refl) as (L1 & L2 & _). by rewrite H in L2.
  - intros r. destruct (restoreRun_invariant history pointInTime) as (l & c & [I1 I2 I3 I4] & ->). destruct c as [c|]; intros [= ->].
    + destruct (I4 r eq_refl) as (pit & Ep & C1 & C2 & C3). split_and!; [done|apply C2| |].
      * intros pit' r' [= ->]%(eq_trans (eq_sym Ep)) Hr' Hc. split; [done|by apply C3].
      * intros Hno. exfalso. by apply (Hno pit r).
    + destruct (I2 r eq_refl) as (L1 & L2 & L3). split_and!; [done|done| |].
      * intros pit r' Ep Hr' Hc. exfalso. by apply (I3 eq_refl pit r').
      * intros _ Hs. by apply L3.
  - unfold pointInTimeCovered, resolvedSnapshot. destruct (so_PointInTime (rx_Source (nr_Spec restore))) as [pit|]; [|split; [done|intros (? & ? & ? & _); done]].
    destruct (restoreRun_invariant (bk_History backup) (Some pit)) as (l & c & [I1 I2 I3 I4] & ->). destruct c as [c|].
    + destruct (I4 c eq_refl) as (pit' & [= <-] & C1 & C2 & _). split; [intros _; by exists pit, c|intros _]. cbn [rr_BackupStartedAt].
      destruct C2 as (_ & start & -> & Hs). apply negb_true_iff, Z.ltb_ge. lia.
    + split; [|intros (pit' & r & [= <-] & Hr & Hc); exfalso; by apply (I3 eq_refl pit r)].
      destruct l as [l|]; cbn [rr_BackupStartedAt]; [|done]. destruct (br_StartTime l) as [start|] eqn:Es; [|done].
      intros H%negb_true_iff%Z.ltb_ge. exfalso. destruct (I2 l eq_refl) as (L1 & L2 & _). apply (I3 eq_refl pit l); [done..|].
      split; [done|by exists start].
Qed.
