(* ===== verification/RestoreCommand.v ===== *)
(** The shell command of a restore Job (buildRestoreCommand, buildPITRRestoreCommand
    and buildAllDatabasesRestoreCommand of src/internal/controller, with the paths
    they read a backup from), and how the pod's /bin/sh reads it. The pod mounts the
    server's data and holds the admin password, so a field of the spec must reach
    neo4j-admin as part of one argument and never be interpreted. *)
From S2P Require Import Prelude GoStrings GoTime GoRFC3339 ClusterTypes Version UpgradeMachine BackupTypes RestoreTypes.

Open Scope Z_scope.

(** * The artifact to read *)

Definition shellQuote (s : string) : string := squote +:+ strings.ReplaceAllByte s "'" "'\''" +:+ squote.

(** The bytes of the classes in standardArtifactFilenameRegex. *)
Definition wordByte (c : ascii) : bool := asciiLetter c || isDigit c || Ascii.eqb c "_"%char.
Definition artifactNameByte (c : ascii) : bool := wordByte c || Ascii.eqb c "."%char || Ascii.eqb c "-"%char.
Definition stampByte (c : ascii) : bool := isDigit c || strings.byteIn c ".:T+-Z".

Fixpoint spanStamp (s : string) : string * string :=
  match s with
  | String c s' => if stampByte c then let '(a, b) := spanStamp s' in (String c a, b) else (EmptyString, s)
  | EmptyString => (EmptyString, EmptyString)
  end.

(** What follows a match of [20\d\d[\d.:T+\-Z]+\.backup]: the letters of
    "backup" are not stamp bytes, so the greedy run ends at the only dot that can
    start it. *)
Definition stampThenBackup (s : string) : option string :=
  match s with
  | String "2" (String "0" (String d1 (String d2 s'))) =>
      if isDigit d1 && isDigit d2 then
        let '(run, rest) := spanStamp s' in
        if (2 <=? String.length run)%nat && strings.HasSuffix run "." then strings.CutPrefix rest "backup" else None
      else None
  | _ => None
  end.

(** The lazy [[\w.-]*?] and what follows it: the shortest name before a dash from
    which the rest matches, and what follows the match. *)
Fixpoint lazyName (s : string) : option (string * string) :=
  match s with
  | EmptyString => None
  | String c s' =>
      match (if Ascii.eqb c "-"%char then stampThenBackup s' else None) with
      | Some rest => Some (EmptyString, rest)
      | None => if artifactNameByte c
                then match lazyName s' with Some (name, rest) => Some (String c name, rest) | None => None end
                else None
      end
  end.

(** The regex matches all of the name exactly when its match at the start ends
    there. *)
Definition artifactDatabase (filename : string) : string :=
  match filename with
  | EmptyString => EmptyString
  | String c s' =>
      if asciiLetter c then
        match lazyName s' with
        | Some (name, EmptyString) => String c name
        | _ => EmptyString
        end
      else EmptyString
  end.

Definition joinSlash (a b : string) : string := a +:+ "/" +:+ b.

(** [basePath/backupFile], or the one that is not empty. *)
Definition fullBackupPath (basePath backupFile : string) : string :=
  if negb (String.eqb basePath EmptyString) && negb (String.eqb backupFile EmptyString) then joinSlash basePath backupFile
  else if negb (String.eqb basePath EmptyString) then basePath else backupFile.

Definition cloudScheme (storageType : string) : option string :=
  if String.eqb storageType "s3" then Some "s3://"
  else if String.eqb storageType "gcs" then Some "gs://"
  else if String.eqb storageType "azure" then Some "azb://"
  else None.

Definition buildRestoreFromPath (source : RestoreSource) : string :=
  match so_Storage source with
  | None => so_BackupPath source
  | Some st =>
      let fullPath := fullBackupPath (sl_Path st) (so_BackupPath source) in
      match cloudScheme (sl_Type st) with
      | Some scheme => scheme +:+ sl_Bucket st +:+ "/" +:+ fullPath
      | None => if negb (String.eqb (so_BackupPath source) EmptyString) then "/backup/" +:+ so_BackupPath source else "/backup"
      end
  end.

Definition isLocalPVCRestoreSource (restore : Neo4jRestore) : bool :=
  let source := rx_Source (nr_Spec restore) in
  if negb (String.eqb (so_Type source) "storage") then false
  else match so_Storage source with
       | None => false
       | Some st => String.eqb (sl_Type st) EmptyString || String.eqb (sl_Type st) "pvc"
       end.

Definition isPVCBackupPath (backupPath : string) : bool := strings.HasPrefix backupPath "/backup".

Definition latestArtifactGlob : string := "-[0-9][0-9][0-9][0-9]-[0-9][0-9]-[0-9][0-9]T*.backup".

Definition latestArtifactSubstitution (dir databaseName : string) : string :=
  "$(ls " +:+ shellQuote dir +:+ "/" +:+ shellQuote (strings.ToLower databaseName) +:+ latestArtifactGlob +:+ " | tail -1)".

Definition resolveLocalPVCFromPath (backupPath databaseName : string) : string :=
  if String.eqb databaseName EmptyString || negb (strings.HasPrefix backupPath "/backup") then backupPath
  else latestArtifactSubstitution backupPath databaseName.

Definition standaloneRestoreArtifact (restore : Neo4jRestore) (dir : string) : restoreErr + string :=
  if String.eqb dir EmptyString then inr EmptyString
  else if strings.HasSuffix dir ".backup" then inr dir
  else match resolvedBackupSnapshot restore with
       | None => inr EmptyString
       | Some (snap, _) =>
           let want := so_SourceDatabase (rx_Source (nr_Spec restore)) in
           let have := artifactDatabase (rr_ArtifactFilename snap) in
           if negb (String.eqb (rr_ArtifactFilename snap) EmptyString)
              && negb (String.eqb want EmptyString) && negb (String.eqb have EmptyString) && negb (strings.EqualFold have want)
           then inl (ErrOther ("spec.source.sourceDatabase is " +:+ quoted want +:+ " but Neo4jBackup " +:+ quoted (rr_BackupRef snap)
                     +:+ " holds database " +:+ quoted have +:+ "; omit sourceDatabase for a backup of one database"))
           else
             let artifact := if negb (String.eqb (rr_ArtifactFilename snap) EmptyString) then rr_ArtifactFilename snap
                             else artifactForDatabase (rr_DatabaseArtifacts snap) (restoreSourceDatabase restore) in
             if String.eqb artifact EmptyString then inr EmptyString
             else inr (joinSlash (strings.TrimRight dir "/") artifact)
       end.

Definition standaloneRestoreFromPath (restore : Neo4jRestore) (backupPath : string) (pvc : bool) : restoreErr + string :=
  match standaloneRestoreArtifact restore backupPath with
  | inl err => inl err
  | inr file =>
      let source := restoreSourceDatabase restore in
      if negb (String.eqb file EmptyString) then inr (shellQuote file)
      else if pvc then inr (resolveLocalPVCFromPath backupPath source)
      else if String.eqb backupPath EmptyString then inr EmptyString
      else if negb (strings.EqualFold source (rx_Database (nr_Spec restore)))
      then inl (ErrOther ("restoring " +:+ quoted source +:+ " as " +:+ quoted (rx_Database (nr_Spec restore))
                +:+ " needs the exact .backup artifact: neo4j-admin restores under a different name only from a single file, and "
                +:+ backupPath +:+ " is a directory. Set source.backupPath to the <database>-<timestamp>.backup file (listed in the Neo4jBackup's status.history), or use source.type=backup"))
      else inr (shellQuote backupPath)
  end.

(** * The command *)

(** [t.Format("2006-01-02 15:04:05")]. *)
Definition FormatDateTime (t : Z) : string :=
  let s := gotime.formatSeconds (t / second) in
  strings.upto 10 s +:+ " " +:+ strings.from 11 s.

Definition tempReset : string := "rm -rf /tmp/restore-tmp && mkdir -p /tmp/restore-tmp && ".

Definition overwriteFlag (restore : Neo4jRestore) : string :=
  if restoreOverwriteConfirmed restore then " --overwrite-destination=true" else EmptyString.

(** The choice of --temp-path; [pvc] when the source is a PVC. *)
Definition tempPathFlag (restore : Neo4jRestore) (pvc : bool) : string :=
  let fallback := if pvc then " --temp-path=/tmp/restore-tmp" else EmptyString in
  match rx_Options (nr_Spec restore) with
  | Some o => if op_TempStorage o then " --temp-path=/tmp/neo4j-staging"
              else if negb (String.eqb (op_TempPath o) EmptyString) then " --temp-path=" +:+ shellQuote (op_TempPath o)
              else fallback
  | None => fallback
  end.

Definition restoreUntilFlag (restore : Neo4jRestore) : string :=
  match so_PointInTime (rx_Source (nr_Spec restore)) with
  | Some t => " --restore-until=" +:+ dquote +:+ FormatDateTime t +:+ dquote
  | None => EmptyString
  end.

Definition additionalArgs (restore : Neo4jRestore) : string :=
  match rx_Options (nr_Spec restore) with
  | Some o => fold_left (fun cmd arg => cmd +:+ " " +:+ shellQuote arg) (op_AdditionalArgs o) EmptyString
  | None => EmptyString
  end.

Definition userDatabasesFromArtifacts (arts : list DatabaseArtifact) : list string :=
  da_Database <$> List.filter (fun a => negb (strings.EqualFold (da_Database a) "system")) arts.

Definition filenameForDB (arts : list DatabaseArtifact) (db : string) : string :=
  match List.find (fun a => String.eqb (da_Database a) db) arts with Some a => da_Filename a | None => EmptyString end.

(** One database of the loop: what is appended to the builder. *)
Definition restoreOneDatabase (restore : Neo4jRestore) (dir fname db : string) : string :=
  tempReset +:+ GetRestoreCommand db (shellQuote (joinSlash dir fname)) +:+ overwriteFlag restore
  +:+ " --temp-path=/tmp/restore-tmp; ".

Fixpoint restoreEachDatabase (restore : Neo4jRestore) (arts : list DatabaseArtifact) (dir : string) (dbs : list string) : restoreErr + string :=
  match dbs with
  | [] => inr EmptyString
  | db :: dbs' =>
      let fname := filenameForDB arts db in
      if String.eqb fname EmptyString
      then inl (ErrOther ("all-databases restore: no artifact filename recorded for database " +:+ quoted db))
      else match restoreEachDatabase restore arts dir dbs' with
           | inl err => inl err
           | inr rest => inr (restoreOneDatabase restore dir fname db +:+ rest)
           end
  end.

Definition buildAllDatabasesRestoreCommand (restore : Neo4jRestore) : restoreErr + string :=
  match resolvedBackupSnapshot restore with
  | None => inl (ErrOther "all-databases restore: resolved backup source not available")
  | Some (snap, _) =>
      match userDatabasesFromArtifacts (rr_DatabaseArtifacts snap) with
      | [] => inl (ErrOther "all-databases restore: the resolved backup recorded no per-database artifacts")
      | dbs =>
          let dir := strings.TrimRight (buildRestoreFromPath (rx_Source (nr_Spec restore))) "/" in
          match restoreEachDatabase restore (rr_DatabaseArtifacts snap) dir dbs with
          | inl err => inl err
          | inr cmds => inr ("set -e; " +:+ cmds)
          end
      end
  end.

(** The path of the base backup of source.type pitr, [resolve] being
    resolveBackupRef. *)
Definition pitrBackupPath (resolve : string -> restoreErr + StorageLocation * string) (base : BaseBackupSource) : restoreErr + string :=
  if String.eqb (bb_Type base) "backup" then
    match resolve (bb_BackupRef base) with
    | inl err => inl (wrapErr "pitr base backup" err)
    | inr (storage, runPath) =>
        inr (buildRestoreFromPath (mkRestoreSource EmptyString EmptyString (Some storage) runPath EmptyString None None))
    end
  else if String.eqb (bb_Type base) "storage" then
    match bb_Storage base with
    | Some st =>
        let fullPath := fullBackupPath (sl_Path st) (bb_BackupPath base) in
        inr match cloudScheme (sl_Type st) with
            | Some scheme => scheme +:+ sl_Bucket st +:+ "/" +:+ fullPath
            | None => "/backup/" +:+ bb_BackupPath base
            end
    | None => inr (bb_BackupPath base)
    end
  else inl (ErrOther ("invalid base backup type: " +:+ bb_Type base)).

Definition buildPITRRestoreCommand (resolve : string -> restoreErr + StorageLocation * string) (restore : Neo4jRestore) : restoreErr + string :=
  match so_PITR (rx_Source (nr_Spec restore)) with
  | None => inl (ErrOther "PITR configuration is required for PITR restore")
  | Some base =>
      match match base with Some b => pitrBackupPath resolve b | None => inr EmptyString end with
      | inl err => inl err
      | inr backupPath =>
          if String.eqb backupPath EmptyString then inl (ErrOther "no backup source path could be determined for PITR restore")
          else
            let isPVC := isPVCBackupPath backupPath in
            match standaloneRestoreFromPath restore backupPath isPVC with
            | inl err => inl err
            | inr fromPath =>
                inr ((if isPVC then tempReset else EmptyString) +:+ GetRestoreCommand (rx_Database (nr_Spec restore)) fromPath
                     +:+ overwriteFlag restore +:+ tempPathFlag restore isPVC +:+ restoreUntilFlag restore)
            end
      end
  end.

(** [restore] is the copy whose source was resolved. A source type outside the
    cases leaves the path empty. *)
Definition buildRestoreCommand (resolve : string -> restoreErr + StorageLocation * string) (restore : Neo4jRestore) : restoreErr + string :=
  let source := rx_Source (nr_Spec restore) in
  if rx_AllDatabases (nr_Spec restore) then buildAllDatabasesRestoreCommand restore
  else if String.eqb (so_Type source) "pitr" then buildPITRRestoreCommand resolve restore
  else if String.eqb (so_Type source) SourceTypeBackup
  then inl (ErrOther "internal: source.type=backup reached buildRestoreCommand without being resolved")
  else
    let backupPath := if bool_decide (so_Type source ∈ ["storage"; "s3"; "gcs"; "azure"]) then buildRestoreFromPath source else EmptyString in
    let pvc := isLocalPVCRestoreSource restore in
    match standaloneRestoreFromPath restore backupPath pvc with
    | inl err => inl err
    | inr fromPath =>
        inr ((if pvc then tempReset else EmptyString) +:+ GetRestoreCommand (rx_Database (nr_Spec restore)) fromPath
             +:+ overwriteFlag restore +:+ tempPathFlag restore pvc +:+ restoreUntilFlag restore +:+ additionalArgs restore)
    end.

(** [resolveRestoreSource]: [resolve] is asked only without a pinned snapshot. *)
Definition resolveRestoreSource (resolve : string -> restoreErr + StorageLocation * string) (restore : Neo4jRestore) : restoreErr + RestoreSource :=
  let source := rx_Source (nr_Spec restore) in
  let concrete := fun storage path =>
    mkRestoreSource "storage" EmptyString (Some storage) path (so_SourceDatabase source) (so_PointInTime source) None in
  match resolvedBackupSnapshot restore with
  | Some (snap, storage) => inr (concrete storage (rr_BackupPath snap))
  | None =>
      if negb (String.eqb (so_Type source) SourceTypeBackup) then inr source
      else match resolve (so_BackupRef source) with
           | inl err => inl err
           | inr (storage, path) => inr (concrete storage path)
           end
  end.

Definition set_rx_Source (v : RestoreSource) (s : Neo4jRestoreSpec) : Neo4jRestoreSpec :=
  mkNeo4jRestoreSpec (rx_InstanceRef s) v (rx_Database s) (rx_AllDatabases s) (rx_Options s) (rx_StopCluster s) (rx_Timeout s).
Definition set_nr_Spec (v : Neo4jRestoreSpec) (r : Neo4jRestore) : Neo4jRestore :=
  mkNeo4jRestore (nr_Name r) (nr_UID r) (nr_Generation r) (nr_Annotations r) (nr_Finalizers r) (nr_Deleting r) v (nr_Status r).

(** The command createRestoreJob gives its Job: of the copy with the resolved
    source. *)
Definition restoreJobCommand (resolve : string -> restoreErr + StorageLocation * string) (restore : Neo4jRestore) : restoreErr + string :=
  match resolveRestoreSource resolve restore with
  | inl err => inl (wrapErr "failed to resolve restore source" err)
  | inr source =>
      match buildRestoreCommand resolve (set_nr_Spec (set_rx_Source source (nr_Spec restore)) restore) with
      | inl err => inl (wrapErr "failed to build restore command" err)
      | inr cmd => inr cmd
      end
  end.

(** * What the shell reads

    The characters of a script one by one, with the quoting taken off: a literal
    one, one with a meaning to the shell (an operator, an expansion, a glob), or
    the end of a word. A command substitution is read like the rest of the
    script. [None]: a quote is left open. *)
Inductive shTok := Lit (c : ascii) | Meta (c : ascii) | Break.

(** An unquoted character, other than a quote or a backslash. *)
Definition bareTok (c : ascii) : shTok := if Ascii.eqb c " "%char then Break else if shPlain c then Lit c else Meta c.

Fixpoint shScan (m : shMode) (s : string) : option (list shTok) :=
  match m, s with
  | Unquoted, EmptyString => Some []
  | _, EmptyString => None
  | Unquoted, String c s' =>
      if Ascii.eqb c "'"%char then shScan Single s'
      else if Ascii.eqb c "034"%char then shScan Double s'
      else if Ascii.eqb c "\"%char then match s' with String d s'' => cons (Lit d) <$> shScan Unquoted s'' | EmptyString => None end
      else cons (bareTok c) <$> shScan Unquoted s'
  | Single, String c s' => if Ascii.eqb c "'"%char then shScan Unquoted s' else cons (Lit c) <$> shScan Single s'
  | Double, String c s' =>
      if Ascii.eqb c "034"%char then shScan Unquoted s'
      else cons (if shDoubleSafe c then Lit c else Meta c) <$> shScan Double s'
  end.

Fixpoint lits (s : string) : list shTok := match s with EmptyString => [] | String c s' => Lit c :: lits s' end.

(** The tokens of a fixed text without quotes. *)
Fixpoint bare (s : string) : list shTok := match s with EmptyString => [] | String c s' => bareTok c :: bare s' end.

(** Words with a break between them. *)
Fixpoint shJoin (ws : list (list shTok)) : list shTok :=
  match ws with [] => [] | [w] => w | w :: ws' => w ++ Break :: shJoin ws' end.

(** Where neo4j-admin reads the backup: a path, or the newest artifact of a
    database in a directory, which the shell looks up. *)
Inductive seedPath := ExactPath (path : string) | NewestOf (dir database : string).

Definition pathTokens (p : seedPath) : list shTok :=
  match p with
  | ExactPath path => lits path
  | NewestOf dir database =>
      [Meta "$"%char; Meta "("%char]
      ++ shJoin [lits "ls"; lits dir ++ lits "/" ++ lits (strings.ToLower database) ++ bare latestArtifactGlob;
                 [Meta "|"%char]; lits "tail"; lits "-1"]
      ++ [Meta ")"%char]
  end.

(** One run of neo4j-admin: what it reads, the database it writes, and its other
    arguments. *)
Record adminRestore := mkAdminRestore { ar_From : seedPath; ar_Database : string; ar_Args : list string }.

Definition callTokens (a : adminRestore) : list shTok :=
  shJoin ([lits "neo4j-admin"; lits "database"; lits "restore"; lits "--from-path=" ++ pathTokens (ar_From a); lits (ar_Database a)]
          ++ (lits <$> ar_Args a)).

(** The arguments the spec asks for. *)
Definition overwriteArgs (restore : Neo4jRestore) : list string :=
  if restoreOverwriteConfirmed restore then ["--overwrite-destination=true"] else [].
Definition tempPathArgs (restore : Neo4jRestore) (pvc : bool) : list string :=
  let fallback := if pvc then ["--temp-path=/tmp/restore-tmp"] else [] in
  match rx_Options (nr_Spec restore) with
  | Some o => if op_TempStorage o then ["--temp-path=/tmp/neo4j-staging"]
              else if negb (String.eqb (op_TempPath o) EmptyString) then ["--temp-path=" +:+ op_TempPath o] else fallback
  | None => fallback
  end.
Definition restoreUntilArgs (restore : Neo4jRestore) : list string :=
  match so_PointInTime (rx_Source (nr_Spec restore)) with Some t => ["--restore-until=" +:+ FormatDateTime t] | None => [] end.
Definition userArgs (restore : Neo4jRestore) : list string :=
  match rx_Options (nr_Spec restore) with Some o => op_AdditionalArgs o | None => [] end.

(** ** Lemmas *)

(** The text [x] reads as [ts], whatever follows. *)
Definition scans (x : string) (ts : list shTok) : Prop :=
  forall rest, shScan Unquoted (x +:+ rest) = app ts <$> shScan Unquoted rest.

Lemma fmap_app_cons (t : shTok) ts (r : option (list shTok)) : cons t <$> (app ts <$> r) = app (t :: ts) <$> r.
Proof. by destruct r. Qed.

Lemma scans_nil : scans EmptyString [].
Proof. intros rest. by destruct (shScan Unquoted rest) eqn:E; cbn; rewrite E. Qed.

Lemma scans_app x ts x' ts' : scans x ts -> scans x' ts' -> scans (x +:+ x') (ts ++ ts').
Proof.
  intros H H' rest. rewrite string_app_assoc, H, H'. destruct (shScan Unquoted rest); [|done].
  cbn. by rewrite app_assoc.
Qed.

Lemma scans_whole x ts : scans x ts -> shScan Unquoted x = Some ts.
Proof. intros H. rewrite <- (string_app_nil_r x), H. cbn. by rewrite app_nil_r. Qed.

Lemma lits_app a b : lits (a +:+ b) = lits a ++ lits b.
Proof. induction a as [|c a IH]; [done|]. cbn. by rewrite <- IH. Qed.

(** A quoted field reads as its own characters, whatever they are. *)
Lemma scan_single s rest :
  shScan Single (strings.ReplaceAllByte s "'" "'\''" +:+ squote +:+ rest) = app (lits s) <$> shScan Unquoted rest.
Proof.
  induction s as [|c s IH]; [apply scans_nil|]. simpl strings.ReplaceAllByte. destruct (Ascii.eqb c "'") eqn:Ec.
  - apply Ascii.eqb_eq in Ec as ->.
    transitivity (cons (Lit "'"%char) <$> shScan Single (strings.ReplaceAllByte s "'" "'\''" +:+ squote +:+ rest)); [done|].
    rewrite IH. apply fmap_app_cons.
  - transitivity (cons (Lit c) <$> shScan Single (strings.ReplaceAllByte s "'" "'\''" +:+ squote +:+ rest)); [|rewrite IH; apply fmap_app_cons].
    change (String c (strings.ReplaceAllByte s "'" "'\''") +:+ squote +:+ rest)
      with (String c (strings.ReplaceAllByte s "'" "'\''" +:+ squote +:+ rest)).
    cbn [shScan]. by rewrite Ec.
Qed.

Lemma scans_quote s : scans (shellQuote s) (lits s).
Proof.
  intros rest. unfold shellQuote. change ((squote +:+ strings.ReplaceAllByte s "'" "'\''" +:+ squote) +:+ rest)
    with (String "'" ((strings.ReplaceAllByte s "'" "'\''" +:+ squote) +:+ rest)).
  rewrite string_app_assoc. apply scan_single.
Qed.

Lemma scans_dquote s : allBytes shDoubleSafe s = true -> scans (dquote +:+ s +:+ dquote) (lits s).
Proof.
  intros Hs rest. rewrite !string_app_assoc.
  change (shScan Unquoted (dquote +:+ s +:+ dquote +:+ rest)) with (shScan Double (s +:+ dquote +:+ rest)).
  induction s as [|c s IH]; [apply scans_nil|]. cbn [allBytes] in Hs. apply andb_true_iff in Hs as [Hc Hs].
  assert (Ascii.eqb c "034" = false) as Hq by (apply Ascii.eqb_neq; intros ->; done).
  change (String c s +:+ dquote +:+ rest) with (String c (s +:+ dquote +:+ rest)). cbn [shScan]. rewrite Hq, Hc, IH by done.
  apply fmap_app_cons.
Qed.

Definition bareByte (c : ascii) : bool := negb (strings.byteIn c "'\" || Ascii.eqb c "034"%char).

Lemma scans_bare s : allBytes bareByte s = true -> scans s (bare s).
Proof.
  intros Hs rest. induction s as [|c s IH]; [apply scans_nil|]. cbn [allBytes] in Hs. apply andb_true_iff in Hs as [Hc Hs].
  assert (Ascii.eqb c "'" = false /\ Ascii.eqb c "034" = false /\ Ascii.eqb c "\" = false) as (E1 & E2 & E3)
    by (repeat split; apply Ascii.eqb_neq; intros ->; done).
  change (String c s +:+ rest) with (String c (s +:+ rest)). cbn [shScan]. rewrite E1, E2, E3, IH by done. apply fmap_app_cons.
Qed.

Create HintDb scans.
#[export] Hint Resolve scans_nil scans_quote : scans.
#[export] Hint Extern 1 (scans ?s _) => (apply scans_bare; reflexivity) : scans.

(** A tail of the command: nothing, or a break and words. *)
Definition tailTokens (args : list string) : list shTok := flat_map (fun a => Break :: lits a) args.

Lemma tailTokens_app a b : tailTokens (a ++ b) = tailTokens a ++ tailTokens b.
Proof. apply flat_map_app. Qed.

Lemma shJoin_tail w args : shJoin (w :: (lits <$> args)) = w ++ tailTokens args.
Proof.
  revert w. induction args as [|a args IH]; intros w; [cbn; by rewrite app_nil_r|].
  rewrite fmap_cons. change (shJoin (w :: lits a :: (lits <$> args))) with (w ++ Break :: shJoin (lits a :: (lits <$> args))).
  by rewrite IH.
Qed.

Lemma callTokens_tail a :
  callTokens a = bare "neo4j-admin database restore --from-path=" ++ pathTokens (ar_From a) ++ Break :: lits (ar_Database a) ++ tailTokens (ar_Args a).
Proof.
  unfold callTokens.
  change ([lits "neo4j-admin"; lits "database"; lits "restore"; lits "--from-path=" ++ pathTokens (ar_From a); lits (ar_Database a)] ++ (lits <$> ar_Args a))
    with (lits "neo4j-admin" :: lits "database" :: lits "restore" :: (lits "--from-path=" ++ pathTokens (ar_From a)) :: lits (ar_Database a) :: (lits <$> ar_Args a)).
  change (shJoin (lits "neo4j-admin" :: lits "database" :: lits "restore" :: (lits "--from-path=" ++ pathTokens (ar_From a)) :: lits (ar_Database a) :: (lits <$> ar_Args a)))
    with (lits "neo4j-admin" ++ Break :: lits "database" ++ Break :: lits "restore" ++ Break :: (lits "--from-path=" ++ pathTokens (ar_From a)) ++ Break :: shJoin (lits (ar_Database a) :: (lits <$> ar_Args a))).
  rewrite shJoin_tail. reflexivity.
Qed.

Lemma allBytes_upto f n s : allBytes f s = true -> allBytes f (strings.upto n s) = true.
Proof.
  revert n. induction s as [|c s IH]; intros [|n]; try done. cbn. intros [Hc Hs]%andb_true_iff. by rewrite Hc, IH.
Qed.

Lemma allBytes_from f n s : allBytes f s = true -> allBytes f (strings.from n s) = true.
Proof. revert n. induction s as [|c s IH]; intros [|n]; try done. cbn. intros [Hc Hs]%andb_true_iff. by apply IH. Qed.

Lemma pad_safe w n : allBytes shDoubleSafe (gotime.pad w n) = true.
Proof.
  revert n. induction w as [|w IH]; intros n; [done|]. cbn [gotime.pad]. rewrite allBytes_app, IH. cbn [allBytes andb].
  rewrite andb_true_r. assert (0 <= n mod 10 < 10) as Hb by (apply Z.mod_pos_bound; lia). revert Hb. generalize (n mod 10). intros d Hd.
  assert (d = 0 \/ d = 1 \/ d = 2 \/ d = 3 \/ d = 4 \/ d = 5 \/ d = 6 \/ d = 7 \/ d = 8 \/ d = 9) as Hc by lia.
  by destruct_or! Hc; subst.
Qed.

Lemma FormatDateTime_safe t : allBytes shDoubleSafe (FormatDateTime t) = true.
Proof.
  assert (allBytes shDoubleSafe (gotime.formatSeconds (t / second)) = true) as H.
  { unfold gotime.formatSeconds. destruct (gotime.civilFromDays _) as [[y m] d]. rewrite !allBytes_app, !pad_safe. reflexivity. }
  unfold FormatDateTime. rewrite !allBytes_app, allBytes_upto, allBytes_from by done. reflexivity.
Qed.

(** One more argument, quoted or fixed. *)
Lemma scans_arg x w : scans x (lits w) -> scans (" " +:+ x) (tailTokens [w]).
Proof. intros H. replace (tailTokens [w]) with (bare " " ++ lits w) by (cbn; by rewrite app_nil_r). apply scans_app; [auto with scans|done]. Qed.

Lemma scans_fixed_quote p s : allBytes bareByte p = true -> bare p = lits p -> scans (p +:+ shellQuote s) (lits (p +:+ s)).
Proof. intros Hp E. rewrite lits_app, <- E. apply scans_app; [by apply scans_bare|apply scans_quote]. Qed.

Lemma scans_overwrite restore : scans (overwriteFlag restore) (tailTokens (overwriteArgs restore)).
Proof. unfold overwriteFlag, overwriteArgs. destruct (restoreOverwriteConfirmed restore); [|apply scans_nil]. apply (scans_arg "--overwrite-destination=true"). by apply scans_bare. Qed.

Lemma scans_tempPath restore pvc : scans (tempPathFlag restore pvc) (tailTokens (tempPathArgs restore pvc)).
Proof.
  unfold tempPathFlag, tempPathArgs.
  assert (scans (if pvc then " --temp-path=/tmp/restore-tmp" else EmptyString) (tailTokens (if pvc then ["--temp-path=/tmp/restore-tmp"] else []))) as Hf.
  { destruct pvc; [|apply scans_nil]. apply (scans_arg "--temp-path=/tmp/restore-tmp"). by apply scans_bare. }
  destruct (rx_Options (nr_Spec restore)) as [o|]; [|done]. destruct (op_TempStorage o).
  { apply (scans_arg "--temp-path=/tmp/neo4j-staging"). by apply scans_bare. }
  destruct (negb _); [|done]. apply (scans_arg ("--temp-path=" +:+ shellQuote (op_TempPath o))). by apply scans_fixed_quote.
Qed.

Lemma scans_until restore : scans (restoreUntilFlag restore) (tailTokens (restoreUntilArgs restore)).
Proof.
  unfold restoreUntilFlag, restoreUntilArgs. destruct (so_PointInTime _) as [t|]; [|apply scans_nil].
  apply (scans_arg ("--restore-until=" +:+ dquote +:+ FormatDateTime t +:+ dquote)). rewrite lits_app. apply scans_app.
  - apply (scans_bare "--restore-until="). reflexivity.
  - apply scans_dquote, FormatDateTime_safe.
Qed.

Lemma scans_additional restore : scans (additionalArgs restore) (tailTokens (userArgs restore)).
Proof.
  unfold additionalArgs, userArgs. destruct (rx_Options (nr_Spec restore)) as [o|]; [|apply scans_nil].
  assert (forall args acc ts, scans acc ts -> scans (fold_left (fun cmd arg => cmd +:+ " " +:+ shellQuote arg) args acc) (ts ++ tailTokens args)) as H.
  { induction args as [|a args IH]; intros acc ts Ha; [by rewrite app_nil_r|]. cbn [fold_left].
    replace (ts ++ tailTokens (a :: args)) with ((ts ++ tailTokens [a]) ++ tailTokens args) by (rewrite <- app_assoc; cbn; by rewrite app_nil_r).
    apply IH, scans_app; [done|]. apply scans_arg, scans_quote. }
  apply (H _ EmptyString []), scans_nil.
Qed.

Lemma scans_restoreCommand database x path :
  scans x (pathTokens path) ->
  scans (GetRestoreCommand database x) (bare "neo4j-admin database restore --from-path=" ++ pathTokens path ++ Break :: lits database).
Proof.
  intros Hx. unfold GetRestoreCommand. change (" --from-path=" +:+ x +:+ " " +:+ shellQuoteArg database) with (" --from-path=" +:+ (x +:+ " " +:+ shellQuote database)).
  rewrite <- string_app_assoc. apply scans_app; [by apply (scans_bare "neo4j-admin database restore --from-path=")|]. apply scans_app; [done|].
  change (Break :: lits database) with (bare " " ++ lits database). apply scans_app; [by apply scans_bare|apply scans_quote].
Qed.

(** A path reads as one word, or as the lookup of the newest artifact. *)
Lemma scans_substitution dir database :
  scans (latestArtifactSubstitution dir database) (pathTokens (NewestOf dir database)).
Proof.
  unfold latestArtifactSubstitution.
  replace (pathTokens (NewestOf dir database))
    with (bare "$(ls " ++ lits dir ++ bare "/" ++ lits (strings.ToLower database) ++ bare latestArtifactGlob ++ bare " | tail -1)").
  { repeat (apply scans_app; [auto with scans|]). auto with scans. }
  cbn [pathTokens shJoin]. repeat (rewrite <- app_assoc || rewrite <- app_comm_cons). reflexivity.
Qed.

(** Where neo4j-admin reads: the artifact that is known by name, else the newest of
    the directory on a PVC, else what the source names. *)
Definition seedOf (restore : Neo4jRestore) (dir file : string) (pvc : bool) : seedPath :=
  if negb (String.eqb file EmptyString) then ExactPath file
  else if pvc then NewestOf dir (restoreSourceDatabase restore) else ExactPath dir.

Lemma scans_fromPath restore backupPath pvc x :
  restoreSourceDatabase restore <> EmptyString -> (pvc = true -> strings.HasPrefix backupPath "/backup" = true) ->
  standaloneRestoreFromPath restore backupPath pvc = inr x ->
  exists file, standaloneRestoreArtifact restore backupPath = inr file /\ scans x (pathTokens (seedOf restore backupPath file pvc)).
Proof.
  intros Hdb Hpvc. unfold standaloneRestoreFromPath, seedOf. destruct (standaloneRestoreArtifact restore backupPath) as [e|file]; [done|].
  intros H. exists file. split; [done|]. revert H.
  destruct (negb (String.eqb file EmptyString)); [intros [= <-]; apply scans_quote|].
  destruct pvc.
  - intros [= <-]. unfold resolveLocalPVCFromPath. rewrite Hpvc by done.
    rewrite orb_false_r. destruct (String.eqb_spec (restoreSourceDatabase restore) EmptyString); [done|]. apply scans_substitution.
  - destruct (String.eqb_spec backupPath EmptyString) as [->|]; [intros [= <-]; apply scans_nil|].
    destruct (negb _); [done|]. intros [= <-]. apply scans_quote.
Qed.

(** ** The claim *)

(** The restore with its source resolved. *)
Definition resolvedCopy (source : RestoreSource) (restore : Neo4jRestore) : Neo4jRestore := set_nr_Spec (set_rx_Source source (nr_Spec restore)) restore.

(** The directory or file the source names. *)
Definition sourceDir (resolve : string -> restoreErr + StorageLocation * string) (restore : Neo4jRestore) : restoreErr + string :=
  let source := rx_Source (nr_Spec restore) in
  if isPITR restore then match so_PITR source with Some (Some base) => pitrBackupPath resolve base | _ => inr EmptyString end
  else inr (if bool_decide (so_Type source ∈ ["storage"; "s3"; "gcs"; "azure"]) then buildRestoreFromPath source else EmptyString).

(** The backup is on a PVC: by the storage of the source, or by the path of the base
    backup of source.type pitr. *)
Definition onPVC (restore : Neo4jRestore) (dir : string) : bool :=
  if isPITR restore then strings.HasPrefix dir "/backup"
  else String.eqb (so_Type (rx_Source (nr_Spec restore))) "storage"
       && match so_Storage (rx_Source (nr_Spec restore)) with Some st => bool_decide (sl_Type st ∈ [EmptyString; "pvc"]) | None => false end.

Lemma onPVC_local restore dir : isPITR restore = false -> onPVC restore dir = isLocalPVCRestoreSource restore.
Proof.
  intros H. unfold onPVC, isLocalPVCRestoreSource. rewrite H. destruct (String.eqb _ "storage"); [|done]. cbn [andb negb].
  destruct (so_Storage _) as [st|]; [|done]. case_bool_decide as Hs; rewrite elem_of_cons, list_elem_of_singleton in Hs.
  - destruct Hs as [-> | ->]; done.
  - destruct (String.eqb_spec (sl_Type st) EmptyString), (String.eqb_spec (sl_Type st) "pvc"); naive_solver.
Qed.

Lemma isLocalPVC_prefix restore : isLocalPVCRestoreSource restore = true ->
  strings.HasPrefix (if bool_decide (so_Type (rx_Source (nr_Spec restore)) ∈ ["storage"; "s3"; "gcs"; "azure"]) then buildRestoreFromPath (rx_Source (nr_Spec restore)) else EmptyString) "/backup" = true.
Proof.
  unfold isLocalPVCRestoreSource. destruct (String.eqb_spec (so_Type (rx_Source (nr_Spec restore))) "storage") as [->|]; [|done]. cbn [negb].
  rewrite bool_decide_true by set_solver. unfold buildRestoreFromPath. destruct (so_Storage _) as [st|]; [|done].
  intros H. unfold cloudScheme. apply orb_true_iff in H as [->%String.eqb_eq| ->%String.eqb_eq]; cbn [String.eqb]; by destruct (negb _).
Qed.

Lemma scans_single pvc restore x path until args :
  scans x (pathTokens path) -> scans until (tailTokens args) ->
  scans ((if pvc : bool then tempReset else EmptyString) +:+ GetRestoreCommand (rx_Database (nr_Spec restore)) x
         +:+ overwriteFlag restore +:+ tempPathFlag restore pvc +:+ until)
    ((if pvc then bare tempReset else []) ++
     callTokens (mkAdminRestore path (rx_Database (nr_Spec restore)) (overwriteArgs restore ++ tempPathArgs restore pvc ++ args))).
Proof.
  intros Hx Hu. rewrite callTokens_tail. cbn [ar_From ar_Database ar_Args]. rewrite !tailTokens_app. apply scans_app.
  { destruct pvc; auto with scans. }
  replace (bare "neo4j-admin database restore --from-path=" ++ pathTokens path ++ Break :: lits (rx_Database (nr_Spec restore)) ++ tailTokens (overwriteArgs restore) ++ tailTokens (tempPathArgs restore pvc) ++ tailTokens args)
    with ((bare "neo4j-admin database restore --from-path=" ++ pathTokens path ++ Break :: lits (rx_Database (nr_Spec restore))) ++ tailTokens (overwriteArgs restore) ++ tailTokens (tempPathArgs restore pvc) ++ tailTokens args)
    by (repeat (rewrite <- app_assoc || rewrite <- app_comm_cons); done).
  apply scans_app; [by apply scans_restoreCommand|]. apply scans_app; [apply scans_overwrite|]. by apply scans_app; [apply scans_tempPath|].
Qed.

Lemma buildRestore_words resolve restore cmd :
  rx_AllDatabases (nr_Spec restore) = false -> rx_Database (nr_Spec restore) <> EmptyString ->
  buildRestoreCommand resolve restore = inr cmd ->
  exists dir file, sourceDir resolve restore = inr dir /\ standaloneRestoreArtifact restore dir = inr file /\
    let pvc := onPVC restore dir in
    shScan Unquoted cmd = Some ((if pvc then bare tempReset else []) ++
      callTokens (mkAdminRestore (seedOf restore dir file pvc) (rx_Database (nr_Spec restore))
        (overwriteArgs restore ++ tempPathArgs restore pvc ++ restoreUntilArgs restore ++ if isPITR restore then [] else userArgs restore))).
Proof.
  intros Hall Hdb. unfold buildRestoreCommand. rewrite Hall.
  assert (restoreSourceDatabase restore <> EmptyString) as Hsrc.
  { unfold restoreSourceDatabase. by destruct (String.eqb_spec (so_SourceDatabase (rx_Source (nr_Spec restore))) EmptyString). }
  cbv zeta. pose proof (onPVC_local restore) as Hlocal. unfold sourceDir, onPVC in *. unfold isPITR in *. destruct (String.eqb (so_Type (rx_Source (nr_Spec restore))) "pitr") eqn:Ep.
  - unfold buildPITRRestoreCommand. destruct (so_PITR _) as [[base|]|]; [|done..]. destruct (pitrBackupPath resolve base) as [e|bp]; [done|].
    destruct (String.eqb bp EmptyString); [done|]. destruct (standaloneRestoreFromPath restore bp (isPVCBackupPath bp)) as [e|x] eqn:E; [done|].
    destruct (scans_fromPath _ _ _ _ Hsrc (fun H => H) E) as (file & Hf & Hx). intros H. apply (inj inr) in H as <-. exists bp, file. split_and!; [done..|].
    rewrite app_nil_r. apply scans_whole. apply scans_single; [done|apply scans_until].
  - destruct (String.eqb _ SourceTypeBackup); [done|].
    pose proof (isLocalPVC_prefix restore) as Hpre.
    destruct (standaloneRestoreFromPath _ _ _) as [e|x] eqn:E; [done|]. destruct (scans_fromPath _ _ _ _ Hsrc Hpre E) as (file & Hf & Hx).
    intros H. apply (inj inr) in H as <-. eexists _, file. split; [done|]. split; [done|]. rewrite (Hlocal EmptyString eq_refl). apply scans_whole, scans_single; [done|].
    rewrite tailTokens_app. apply scans_app; [apply scans_until|apply scans_additional].
Qed.

(** One database of an all-databases Job. *)
Definition oneCall (restore : Neo4jRestore) (arts : list DatabaseArtifact) (dir db : string) : list shTok :=
  bare tempReset ++ callTokens (mkAdminRestore (ExactPath (joinSlash dir (filenameForDB arts db))) db
    (overwriteArgs restore ++ ["--temp-path=/tmp/restore-tmp"])) ++ bare "; ".

Lemma scans_one restore arts dir db :
  scans (restoreOneDatabase restore dir (filenameForDB arts db) db) (oneCall restore arts dir db).
Proof.
  unfold restoreOneDatabase, oneCall. rewrite callTokens_tail. cbn [ar_From ar_Database ar_Args].
  rewrite tailTokens_app. apply scans_app; [auto with scans|].
  change (" --temp-path=/tmp/restore-tmp; ") with (" --temp-path=/tmp/restore-tmp" +:+ "; ").
  match goal with |- scans _ ?ts => replace ts with ((bare "neo4j-admin database restore --from-path=" ++ pathTokens (ExactPath (joinSlash dir (filenameForDB arts db))) ++ Break :: lits db)
    ++ tailTokens (overwriteArgs restore) ++ tailTokens ["--temp-path=/tmp/restore-tmp"] ++ bare "; ")
    by (repeat (rewrite <- app_assoc || rewrite <- app_comm_cons); done) end.
  apply scans_app; [apply scans_restoreCommand, scans_quote|]. apply scans_app; [apply scans_overwrite|].
  apply scans_app; [|auto with scans]. apply (scans_arg "--temp-path=/tmp/restore-tmp"). by apply scans_bare.
Qed.

Lemma scans_each restore arts dir : forall dbs cmds,
  restoreEachDatabase restore arts dir dbs = inr cmds -> scans cmds (flat_map (oneCall restore arts dir) dbs).
Proof.
  induction dbs as [|db dbs IH]; intros cmds; cbn [restoreEachDatabase flat_map]; [intros [= <-]; apply scans_nil|].
  destruct (String.eqb (filenameForDB arts db) EmptyString); [done|]. destruct (restoreEachDatabase _ _ _ dbs) as [e|rest]; [done|].
  intros H. apply (inj inr) in H as <-. apply scans_app; [apply scans_one|by apply IH].
Qed.

Lemma buildAll_words restore cmd :
  buildAllDatabasesRestoreCommand restore = inr cmd ->
  exists snap storage, resolvedBackupSnapshot restore = Some (snap, storage) /\
    shScan Unquoted cmd = Some (bare "set -e; " ++
      flat_map (oneCall restore (rr_DatabaseArtifacts snap) (strings.TrimRight (buildRestoreFromPath (rx_Source (nr_Spec restore))) "/"))
        (userDatabasesFromArtifacts (rr_DatabaseArtifacts snap))).
Proof.
  unfold buildAllDatabasesRestoreCommand. destruct (resolvedBackupSnapshot restore) as [[snap storage]|]; [|done].
  destruct (userDatabasesFromArtifacts (rr_DatabaseArtifacts snap)) as [|db dbs] eqn:Ed; [done|]. rewrite <- Ed.
  destruct (restoreEachDatabase _ _ _ _) as [e|cmds] eqn:E; [done|]. intros H. apply (inj inr) in H as <-. exists snap, storage. split; [done|].
  apply scans_whole, scans_app; [auto with scans|]. by apply scans_each.
Qed.

(** C19: the script of a restore Job, as the shell of its pod reads it. A restore of
    one database, with spec.database set, resets the temporary directory exactly
    when the backup is on a PVC and runs neo4j-admin once, for spec.database, from
    the file the source resolves to: the artifact a backup recorded, what the source
    names or, on a PVC, the newest file of its directory. --overwrite-destination is
    there exactly when replaceExisting is set; the temporary path, the point in time
    and, unless the source is of type pitr, the user's arguments follow, each one
    argument as it is written. An all-databases restore runs it once per user
    database the backup recorded, from that database's file. The only text of the
    script that the shell interprets is the operator's own: no character of a path,
    a name or an argument in it is, whatever it is. The newest file is looked up by
    an unquoted command substitution of the operator's; what the shell makes of the
    lookup's result, which it splits at blanks and expands, is not covered. *)
Theorem restore_command_words (resolve : string -> restoreErr + StorageLocation * string) (restore : Neo4jRestore) (cmd : string) :
  restoreJobCommand resolve restore = inr cmd ->
  exists source, resolveRestoreSource resolve restore = inr source /\
    (rx_AllDatabases (nr_Spec restore) = false -> rx_Database (nr_Spec restore) <> EmptyString ->
     let r := resolvedCopy source restore in
     exists dir file, sourceDir resolve r = inr dir /\ standaloneRestoreArtifact r dir = inr file /\
       shScan Unquoted cmd = Some ((if onPVC r dir then bare tempReset else []) ++
         callTokens (mkAdminRestore (seedOf r dir file (onPVC r dir)) (rx_Database (nr_Spec restore))
           (overwriteArgs restore ++ tempPathArgs restore (onPVC r dir) ++ restoreUntilArgs restore ++
            if isPITR r then [] else userArgs restore)))) /\
    (rx_AllDatabases (nr_Spec restore) = true ->
     exists snap storage, resolvedBackupSnapshot restore = Some (snap, storage) /\
       shScan Unquoted cmd = Some (bare "set -e; " ++
         flat_map (oneCall restore (rr_DatabaseArtifacts snap) (strings.TrimRight (buildRestoreFromPath source) "/"))
           (userDatabasesFromArtifacts (rr_DatabaseArtifacts snap)))).
Proof.
  unfold restoreJobCommand. destruct (resolveRestoreSource resolve restore) as [e|source] eqn:Es; [done|].
  destruct (buildRestoreCommand resolve _) as [e|c] eqn:E; [done|]. intros [= ->]. exists source. split; [done|].
  assert (so_PointInTime source = so_PointInTime (rx_Source (nr_Spec restore))) as Hpit.
  { revert Es. unfold resolveRestoreSource. destruct (resolvedBackupSnapshot restore) as [[snap st]|]; [by intros [= <-]|].
    destruct (negb _); [by intros [= <-]|]. destruct (resolve _) as [?|[st path]]; [done|by intros [= <-]]. }
  split; intros Hall.
  - intros Hdb. destruct (buildRestore_words resolve (resolvedCopy source restore) cmd Hall Hdb E) as (dir & file & Hdir & Hfile & H). exists dir, file. split; [done|]. split; [done|]. rewrite H.
    change (restoreUntilArgs (resolvedCopy source restore)) with (match so_PointInTime source with Some t => ["--restore-until=" +:+ FormatDateTime t] | None => [] end).
    by rewrite Hpit.
  - unfold buildRestoreCommand in E. cbn [rx_AllDatabases nr_Spec set_nr_Spec set_rx_Source] in E. rewrite Hall in E.
    destruct (buildAll_words _ _ E) as (snap & storage & Hs & H). by exists snap, storage.
Qed.

Lemma restore_command_words_witness :
  shScan Unquoted
      "rm -rf /tmp/restore-tmp && mkdir -p /tmp/restore-tmp && neo4j-admin database restore --from-path=$(ls '/backup/x'\''; id #'/'shop'-[0-9][0-9][0-9][0-9]-[0-9][0-9]-[0-9][0-9]T*.backup | tail -1) 'shop' --overwrite-destination=true --temp-path=/tmp/restore-tmp '$(id)'"
    = Some (bare tempReset ++ callTokens (mkAdminRestore (NewestOf "/backup/x'; id #" "shop") "shop"
        ["--overwrite-destination=true"; "--temp-path=/tmp/restore-tmp"; "$(id)"])).
Proof.
  set (restore := mkNeo4jRestore "r" "u" 1 ∅ [] false
    (mkNeo4jRestoreSpec "sa" (mkRestoreSource "storage" EmptyString (Some (mkStorageLocation "pvc" EmptyString EmptyString (Some (mkPVCSpec "c" EmptyString EmptyString)) None)) "x'; id #" EmptyString None None)
       "shop" false (Some (mkRestoreOptionsSpec true false false false EmptyString ["$(id)"])) true EmptyString)
    (mkNeo4jRestoreStatus [] EmptyString EmptyString None None 0 [] None EmptyString None)).
  destruct (restore_command_words (fun _ => inl (ErrOther "none")) restore _ eq_refl) as (source & Es & H & _).
  destruct (H eq_refl ltac:(discriminate)) as (dir & file & Ed & Ef & E). apply (inj inr) in Es as <-.
  vm_compute in Ed. injection Ed as <-. vm_compute in Ef. injection Ef as <-. exact E.
Defined.

Lemma restoreEach_ext restore restore' arts dir dbs :
  overwriteFlag restore = overwriteFlag restore' -> restoreEachDatabase restore arts dir dbs = restoreEachDatabase restore' arts dir dbs.
Proof. intros H. induction dbs as [|db dbs IH]; [done|]. cbn [restoreEachDatabase]. unfold restoreOneDatabase. by rewrite IH, H. Qed.

(** Of an all-databases restore the Job ignores the point in time: the command is
    the one without it. *)
Theorem all_databases_job_ignores_point_in_time (resolve : string -> restoreErr + StorageLocation * string) (restore : Neo4jRestore) (pointInTime : option Z) :
  rx_AllDatabases (nr_Spec restore) = true -> resolvedBackupSnapshot restore <> None ->
  let src := rx_Source (nr_Spec restore) in
  restoreJobCommand resolve (resolvedCopy (mkRestoreSource (so_Type src) (so_BackupRef src) (so_Storage src) (so_BackupPath src)
    (so_SourceDatabase src) pointInTime (so_PITR src)) restore) = restoreJobCommand resolve restore.
Proof.
  intros Hall Hsnap src. unfold restoreJobCommand, resolveRestoreSource, resolvedCopy.
  change (resolvedBackupSnapshot (set_nr_Spec _ restore)) with (resolvedBackupSnapshot restore).
  destruct (resolvedBackupSnapshot restore) as [[snap storage]|] eqn:E; [|done].
  unfold buildRestoreCommand. cbn [rx_AllDatabases nr_Spec set_nr_Spec set_rx_Source]. rewrite Hall.
  unfold buildAllDatabasesRestoreCommand.
  repeat match goal with |- context [resolvedBackupSnapshot ?r] => change (resolvedBackupSnapshot r) with (resolvedBackupSnapshot restore); rewrite E end.
  destruct (userDatabasesFromArtifacts _); [done|]. by erewrite restoreEach_ext.
Qed.

(** A snapshot pinned from a Neo4jBackup decides what the Job reads even when the
    spec has since been given another source. *)
Theorem pinned_source_wins (resolve : string -> restoreErr + StorageLocation * string) (restore : Neo4jRestore) (source : RestoreSource)
    (snap : ResolvedRestoreSource) (storage : StorageLocation) :
  resolvedBackupSnapshot restore = Some (snap, storage) ->
  exists s, resolveRestoreSource resolve (resolvedCopy source restore) = inr s /\
    so_Storage s = Some storage /\ so_BackupPath s = rr_BackupPath snap.
Proof.
  intros H. unfold resolveRestoreSource. change (resolvedBackupSnapshot (resolvedCopy source restore)) with (resolvedBackupSnapshot restore).
  rewrite H. by eexists.
Qed.
