(* ===== verification/RestoreWorld.v ===== *)
(** What a pass of the restore controller (neo4jrestore_controller.go) reads and
    changes, and the steps it is made of: the writes of its own status and
    annotations, the marker on the standalone, the stop and the start of its
    StatefulSet, and the Job. The API server's part is in the world (the outcomes of
    the coming calls); Neo4j, the pods, the hooks and the seed proxy are behind the
    class [RestoreEnv], whose state [S] any call may change. time.Now() is the same
    throughout a pass. Log lines, the advisory warnings, and the
    namespaces and advice in messages are left out. *)
From S2P Require Import Prelude GoStrings GoTime GoRFC3339 ClusterTypes Conditions UpgradeRecord Version UpgradeMachine BackupTypes RestoreTypes RestoreCommand.

Open Scope Z_scope.

(** * The world *)

(** The outcome of one read-modify-write: it goes through, the read or the write
    fails, or the copy read was not the stored one and the write conflicts. *)
Inductive writeAttempt (T : Type) :=
| Written
| ReadFails (e : string)
| WriteFails (e : string)
| Raced (seen : T).
Arguments Written {T}.
Arguments ReadFails {T} _.
Arguments WriteFails {T} _.
Arguments Raced {T} _.

(** A StatefulSet, as far as a restore changes it. *)
Record RestoreSet := mkRestoreSet { ss_Replicas : Z; ss_Annotations : gmap string string }.

(** What a pass did or saw; [HeldSeen]: the standalone carries this restore's
    marker. *)
Inductive restoreAction :=
| PodsSeen (n : nat)
| DatabaseSeen (db : string) (there : bool)
| HeldSeen
| ScaledTo (name : string) (replicas : Z)
| JobCreated (command : string)
| RecreateSent (db seedURI : string)
| CreateSent (db seedURI : string) (until : option Z)
| JobEnded
| RegisterSent (db : string)
| ReseedSent (db : string) (seeders : list string)
| HooksRan (post : bool)
| JobDeleted
| StatusWritten (phase : string)
| ProxyTornDown.

(** [xw_restore] is the pass's copy and [xw_stored] the API server's; [xw_fresh]:
    the stored one has not been written since the copy was read, so an Update of
    the copy is not refused. [xw_cluster] and [xw_standalone] are the resources
    spec.instanceRef names, [xw_sets] the StatefulSets by name, [xw_job] the Job
    under the restore's Job name. [xw_attempts], [xw_marks] and [xw_faults] are
    the outcomes of the coming writes of the restore, writes of the standalone
    and other API calls (none left: they succeed). [xw_lastTick]: the tick that
    falls on a wait's timeout is still taken. [xw_events] and [xw_log] list last
    first. *)
Record RestoreWorld (S : Type) := mkRestoreWorld {
  xw_now : Z;
  xw_lastTick : bool;
  xw_restore : Neo4jRestore;
  xw_stored : Neo4jRestore;
  xw_fresh : bool;
  xw_attempts : list (writeAttempt Neo4jRestore);
  xw_cluster : option TargetCR;
  xw_standalone : option TargetCR;
  xw_marks : list (writeAttempt TargetCR);
  xw_sets : gmap string RestoreSet;
  xw_job : option RestoreJob;
  xw_faults : list (option string);
  xw_events : list (string * string);
  xw_log : list restoreAction;
  xw_env : S
}.
Arguments mkRestoreWorld {S}.
Arguments xw_now {S} _.
Arguments xw_lastTick {S} _.
Arguments xw_restore {S} _.
Arguments xw_stored {S} _.
Arguments xw_fresh {S} _.
Arguments xw_attempts {S} _.
Arguments xw_cluster {S} _.
Arguments xw_standalone {S} _.
Arguments xw_marks {S} _.
Arguments xw_sets {S} _.
Arguments xw_job {S} _.
Arguments xw_faults {S} _.
Arguments xw_events {S} _.
Arguments xw_log {S} _.
Arguments xw_env {S} _.

Definition set_xw_restore {S} (v : Neo4jRestore) (w : RestoreWorld S) : RestoreWorld S :=
  mkRestoreWorld (xw_now w) (xw_lastTick w) v (xw_stored w) (xw_fresh w) (xw_attempts w) (xw_cluster w) (xw_standalone w) (xw_marks w) (xw_sets w) (xw_job w) (xw_faults w) (xw_events w) (xw_log w) (xw_env w).
Definition set_xw_stored {S} (v : Neo4jRestore) (w : RestoreWorld S) : RestoreWorld S :=
  mkRestoreWorld (xw_now w) (xw_lastTick w) (xw_restore w) v (xw_fresh w) (xw_attempts w) (xw_cluster w) (xw_standalone w) (xw_marks w) (xw_sets w) (xw_job w) (xw_faults w) (xw_events w) (xw_log w) (xw_env w).
Definition set_xw_fresh {S} (v : bool) (w : RestoreWorld S) : RestoreWorld S :=
  mkRestoreWorld (xw_now w) (xw_lastTick w) (xw_restore w) (xw_stored w) v (xw_attempts w) (xw_cluster w) (xw_standalone w) (xw_marks w) (xw_sets w) (xw_job w) (xw_faults w) (xw_events w) (xw_log w) (xw_env w).
Definition set_xw_attempts {S} (v : list (writeAttempt Neo4jRestore)) (w : RestoreWorld S) : RestoreWorld S :=
  mkRestoreWorld (xw_now w) (xw_lastTick w) (xw_restore w) (xw_stored w) (xw_fresh w) v (xw_cluster w) (xw_standalone w) (xw_marks w) (xw_sets w) (xw_job w) (xw_faults w) (xw_events w) (xw_log w) (xw_env w).
Definition set_xw_standalone {S} (v : option TargetCR) (w : RestoreWorld S) : RestoreWorld S :=
  mkRestoreWorld (xw_now w) (xw_lastTick w) (xw_restore w) (xw_stored w) (xw_fresh w) (xw_attempts w) (xw_cluster w) v (xw_marks w) (xw_sets w) (xw_job w) (xw_faults w) (xw_events w) (xw_log w) (xw_env w).
Definition set_xw_marks {S} (v : list (writeAttempt TargetCR)) (w : RestoreWorld S) : RestoreWorld S :=
  mkRestoreWorld (xw_now w) (xw_lastTick w) (xw_restore w) (xw_stored w) (xw_fresh w) (xw_attempts w) (xw_cluster w) (xw_standalone w) v (xw_sets w) (xw_job w) (xw_faults w) (xw_events w) (xw_log w) (xw_env w).
Definition set_xw_sets {S} (v : gmap string RestoreSet) (w : RestoreWorld S) : RestoreWorld S :=
  mkRestoreWorld (xw_now w) (xw_lastTick w) (xw_restore w) (xw_stored w) (xw_fresh w) (xw_attempts w) (xw_cluster w) (xw_standalone w) (xw_marks w) v (xw_job w) (xw_faults w) (xw_events w) (xw_log w) (xw_env w).
Definition set_xw_job {S} (v : option RestoreJob) (w : RestoreWorld S) : RestoreWorld S :=
  mkRestoreWorld (xw_now w) (xw_lastTick w) (xw_restore w) (xw_stored w) (xw_fresh w) (xw_attempts w) (xw_cluster w) (xw_standalone w) (xw_marks w) (xw_sets w) v (xw_faults w) (xw_events w) (xw_log w) (xw_env w).
Definition set_xw_faults {S} (v : list (option string)) (w : RestoreWorld S) : RestoreWorld S :=
  mkRestoreWorld (xw_now w) (xw_lastTick w) (xw_restore w) (xw_stored w) (xw_fresh w) (xw_attempts w) (xw_cluster w) (xw_standalone w) (xw_marks w) (xw_sets w) (xw_job w) v (xw_events w) (xw_log w) (xw_env w).
Definition set_xw_events {S} (v : list (string * string)) (w : RestoreWorld S) : RestoreWorld S :=
  mkRestoreWorld (xw_now w) (xw_lastTick w) (xw_restore w) (xw_stored w) (xw_fresh w) (xw_attempts w) (xw_cluster w) (xw_standalone w) (xw_marks w) (xw_sets w) (xw_job w) (xw_faults w) v (xw_log w) (xw_env w).
Definition set_xw_log {S} (v : list restoreAction) (w : RestoreWorld S) : RestoreWorld S :=
  mkRestoreWorld (xw_now w) (xw_lastTick w) (xw_restore w) (xw_stored w) (xw_fresh w) (xw_attempts w) (xw_cluster w) (xw_standalone w) (xw_marks w) (xw_sets w) (xw_job w) (xw_faults w) (xw_events w) v (xw_env w).
Definition set_xw_env {S} (v : S) (w : RestoreWorld S) : RestoreWorld S :=
  mkRestoreWorld (xw_now w) (xw_lastTick w) (xw_restore w) (xw_stored w) (xw_fresh w) (xw_attempts w) (xw_cluster w) (xw_standalone w) (xw_marks w) (xw_sets w) (xw_job w) (xw_faults w) (xw_events w) (xw_log w) v.

Definition XW (S A : Type) : Type := RestoreWorld S -> A * RestoreWorld S.

#[global] Instance XW_ret S : MRet (XW S) := fun A (a : A) w => (a, w).
#[global] Instance XW_bind S : MBind (XW S) := fun A B (f : A -> XW S B) (m : XW S A) w =>
  let '(a, w') := m w in f a w'.

(** What a pass returns: nothing more to do, run again later, or an error and
    controller-runtime's backoff. *)
Inductive xresult := XDone | XRequeue | XErr (e : string).

(** What projectSeedConfig did: nothing was missing, it patched the target, the
    target lacks [missing] and has not opted in, or it failed. *)
Inductive projection := NothingMissing | Projected | NotInherited (missing : string) | ProjectFailed (e : string).

(** The seed proxy: whether its Deployment is ready, whether it merges a chain
    first, why that failed (empty: it did not) and what it shows. *)
Record proxyState := mkProxyState { px_Available : bool; px_Merging : bool; px_MergeFailure : string; px_Diagnosis : string }.

(** What a pass asks for. [validateVersion]: validation.ValidateNeo4jVersion.
    [listPods]: the pods of the standalone, with whether each isPodReady.
    [dial]: the creation of a client. [onlineState]: online, total and the
    diagnosis. [createWithSeed]: CREATE DATABASE with the point in time, if any,
    and whether IF NOT EXISTS. [targetAway]: allDatabasesTargetAway of an error.
    [ensureSeedProxy] is given the claim and, per artifact, its directory, file,
    recorded type and database. [jobGone]: whether a Get of the Job under deletion
    is NotFound. *)
Class RestoreEnv (S : Type) := {
  validateVersion : string -> option string;
  targetAway : string -> bool;
  listPods : S -> result (list bool) * S;
  dial : S -> option string * S;
  databaseExists : string -> S -> result bool * S;
  verifyConnectivity : S -> option string * S;
  startDatabase : string -> S -> option string * S;
  createDatabase : string -> S -> option string * S;
  recreateWithSeed : Version -> string -> string -> S -> result bool * S;
  createWithSeed : string -> string -> option Z -> bool -> S -> option string * S;
  seedFailure : string -> S -> result string * S;
  onlineState : string -> S -> result (Z * Z * string) * S;
  listServerAddresses : S -> result (list (string * string)) * S;
  recreateFrom : Version -> string -> list string -> S -> result bool * S;
  runHooks : bool -> S -> option string * S;
  getBackup : string -> S -> getResult Neo4jBackup * S;
  shardedNames : S -> result (list (string * string)) * S;
  projectSeedConfig : string -> option CloudBlock -> S -> projection * S;
  seedCredsRolledOut : string -> S -> result bool * S;
  specEnvEndpointRolledOut : S -> result bool * S;
  standaloneIdentityRolledOut : S -> result bool * S;
  ensureSeedProxy : string -> list (string * string * string * string) -> S -> result proxyState * S;
  pvcSeedProxyURL : string -> string -> string -> string;
  teardownSeedProxy : S -> S;
  ensureTempStaging : S -> option string * S;
  ensureServiceAccount : S -> option string * S;
  jobGone : S -> bool * S;
  jobFailure : S -> string * S
}.

Section Steps.
Context {S : Type} `{!RestoreEnv S}.

Definition getsX {A} (f : RestoreWorld S -> A) : XW S A := fun w => (f w, w).
Definition modifyX (f : RestoreWorld S -> RestoreWorld S) : XW S unit := fun w => (tt, f w).
Definition copyX : XW S Neo4jRestore := getsX xw_restore.
Definition mutateX (f : Neo4jRestore -> Neo4jRestore) : XW S unit := modifyX (fun w => set_xw_restore (f (xw_restore w)) w).
Definition logX (a : restoreAction) : XW S unit := modifyX (fun w => set_xw_log (a :: xw_log w) w).
Definition eventX (reason message : string) : XW S unit := modifyX (fun w => set_xw_events ((reason, message) :: xw_events w) w).

(** A call of the environment. *)
Definition askX {A} (call : S -> A * S) : XW S A := fun w =>
  let '(a, s) := call (xw_env w) in (a, set_xw_env s w).

(** The outcome of an API call that is not a retried write. *)
Definition apiX : XW S (option string) := fun w =>
  match xw_faults w with [] => (None, w) | f :: rest => (f, set_xw_faults rest w) end.

Definition nextAttemptX : XW S (writeAttempt Neo4jRestore) := fun w =>
  match xw_attempts w with [] => (Written, w) | a :: rest => (a, set_xw_attempts rest w) end.

(** [retry.RetryOnConflict] around a read-modify-write of the stored restore; the
    body returns what it writes ([None]: nothing) and a value. *)
Fixpoint retryX {A} (steps : nat) (f : Neo4jRestore -> option Neo4jRestore * A) : XW S (A + string) := fun w =>
  match steps with
  | O => (inr "conflict", w)
  | Datatypes.S steps' =>
      let '(a, w) := nextAttemptX w in
      match a with
      | ReadFails e => (inr e, w)
      | Written =>
          match f (xw_stored w) with
          | (None, v) => (inl v, w)
          | (Some latest, v) => (inl v, set_xw_fresh false (set_xw_stored latest w))
          end
      | WriteFails e => match f (xw_stored w) with (None, v) => (inl v, w) | (Some _, _) => (inr e, w) end
      | Raced seen => match f seen with (None, v) => (inl v, w) | (Some _, _) => retryX steps' f w end
      end
  end.

(** retry.DefaultBackoff and retry.DefaultRetry. *)
Definition backoffSteps : nat := 4.
Definition retrySteps : nat := 5.

Definition nextMarkX : XW S (writeAttempt TargetCR) := fun w =>
  match xw_marks w with [] => (Written, w) | a :: rest => (a, set_xw_marks rest w) end.

(** The same of the standalone: the body returns what it writes or an error, and
    [absent] is the outcome when there is no standalone. *)
Fixpoint retryStandalone (steps : nat) (absent : option string) (f : TargetCR -> option TargetCR + string) : XW S (option string) := fun w =>
  match steps with
  | O => (Some "conflict", w)
  | Datatypes.S steps' =>
      let '(a, w) := nextMarkX w in
      match a, xw_standalone w with
      | ReadFails e, _ => (Some e, w)
      | _, None => (absent, w)
      | Written, Some s =>
          match f s with
          | inr e => (Some e, w)
          | inl None => (None, w)
          | inl (Some s') => (None, set_xw_standalone (Some s') w)
          end
      | WriteFails e, Some s =>
          match f s with inr e' => (Some e', w) | inl None => (None, w) | inl (Some _) => (Some e, w) end
      | Raced seen, Some _ =>
          match f seen with inr e => (Some e, w) | inl None => (None, w) | inl (Some _) => retryStandalone steps' absent f w end
      end
  end.

(** * Reads of the target *)

Definition getCluster : XW S (getResult TargetCR) :=
  fault ← apiX; c ← getsX xw_cluster;
  mret match fault, c with Some e, _ => GetFailed e | None, Some c => Found c | None, None => NotFound end.

Definition getStandalone : XW S (getResult TargetCR) :=
  fault ← apiX; s ← getsX xw_standalone;
  mret match fault, s with Some e, _ => GetFailed e | None, Some s => Found s | None, None => NotFound end.

Definition notFoundMessage : string := "not found".

Definition isRestoreTargetTrueCluster : XW S (result bool) :=
  c ← getCluster;
  match c with
  | Found _ => mret (Ok true)
  | GetFailed e => mret (Err e)
  | NotFound =>
      restore ← copyX; s ← getStandalone;
      mret match s with
           | Found _ => Ok false
           | GetFailed e => Err ("target " +:+ quoted (rx_InstanceRef (nr_Spec restore)) +:+ " not found as Cluster or Standalone: " +:+ e)
           | NotFound => Err ("target " +:+ quoted (rx_InstanceRef (nr_Spec restore)) +:+ " not found as Cluster or Standalone: " +:+ notFoundMessage)
           end
  end.

(** [getRestoreTarget]: whether it is a standalone, and the resource. *)
Definition getRestoreTarget : XW S (result (bool * TargetCR)) :=
  c ← getCluster;
  match c with
  | Found c => mret (Ok (false, c))
  | GetFailed e => mret (Err e)
  | NotFound =>
      restore ← copyX; s ← getStandalone;
      let missing := fun e => Err ("target " +:+ quoted (rx_InstanceRef (nr_Spec restore)) +:+ " not found as Neo4jEnterpriseCluster or Neo4jEnterpriseStandalone: " +:+ e) in
      mret match s with Found s => Ok (true, s) | GetFailed e => missing e | NotFound => missing notFoundMessage end
  end.

(** A standalone as a cluster of one server. *)
Definition standaloneAsCluster (s : TargetCR) : TargetCR :=
  mkTargetCR ∅ (tg_ImageRepo s) (tg_ImageTag s) 1 false false.

(** [getClusterRef]: any failure to read the cluster falls through to the
    standalone. *)
Definition getClusterRef : XW S (getResult TargetCR) :=
  c ← getCluster;
  match c with
  | Found c => mret (Found c)
  | _ => s ← getStandalone; mret match s with Found s => Found (standaloneAsCluster s) | NotFound => NotFound | GetFailed e => GetFailed e end
  end.

Definition restoreStandalone : XW S (option TargetCR) :=
  s ← getStandalone; mret match s with Found s => Some s | _ => None end.

Definition restoreOnJobPathX (isTrueCluster : bool) : XW S bool :=
  if isTrueCluster then mret false
  else (standalone ← restoreStandalone; restore ← copyX; mret (restoreOnJobPath restore false standalone)).

(** * The status *)

(** [d.Round(time.Second)] of a duration that is not negative. *)
Definition roundSecond (d : Z) : Z := (d + second / 2) / second * second.

Definition populateRestoreProvenance (restore : Neo4jRestore) : Neo4jRestoreStatus :=
  let st := nr_Status restore in
  let duration := match rt_StartTime st, rt_CompletionTime st with
                  | Some s, Some c => if c <? s then rt_Duration st else gotime.DurationString (roundSecond (c - s))
                  | _, _ => rt_Duration st
                  end in
  let original := if rx_AllDatabases (nr_Spec restore) then EmptyString else rx_Database (nr_Spec restore) in
  let '(path, created) :=
    match rt_ResolvedSource st with
    | Some rs => (if String.eqb (rr_ArtifactFilename rs) EmptyString then rr_BackupPath rs
                  else joinSlash (strings.TrimRight (rr_BackupPath rs) "/") (rr_ArtifactFilename rs), rr_BackupCreatedAt rs)
    | None => (so_BackupPath (rx_Source (nr_Spec restore)), None)
    end in
  let empty := String.eqb original EmptyString && String.eqb path EmptyString && bool_decide (created = None) in
  set_rt_Provenance duration (if empty then rt_BackupInfo st else Some (mkRestoreBackupInfo original path created)) st.

(** The body of transitionRestoreStatus, [copy] being the pass's. *)
Definition restoreStatusBody (now : Z) (copy : Neo4jRestore) (phase message : string) (latest : Neo4jRestore) : option Neo4jRestore * bool :=
  let st := nr_Status latest in
  let changed := negb (String.eqb (rt_Phase st) phase) || negb (String.eqb (rt_Message st) message) in
  let keep := fun (mine theirs : option Z) => match theirs with Some _ => theirs | None => mine end in
  let st := mkNeo4jRestoreStatus (rt_Conditions st) phase message
              (keep (rt_StartTime (nr_Status copy)) (rt_StartTime st)) (keep (rt_CompletionTime (nr_Status copy)) (rt_CompletionTime st))
              (nr_Generation latest) (rt_DatabaseResults st) (rt_ResolvedSource st) (rt_Duration st) (rt_BackupInfo st) in
  let st := if String.eqb phase StatusCompleted then populateRestoreProvenance (set_nr_Status st latest) else st in
  let '(condStatus, condReason) := restoreReadyCondition phase in
  let '(conditions, _) := SetReadyCondition now (rt_Conditions st) (nr_Generation latest) condStatus condReason message in
  (Some (set_nr_Status (mkNeo4jRestoreStatus conditions (rt_Phase st) (rt_Message st) (rt_StartTime st) (rt_CompletionTime st)
     (rt_ObservedGeneration st) (rt_DatabaseResults st) (rt_ResolvedSource st) (rt_Duration st) (rt_BackupInfo st)) latest), changed).

Definition endedPhase (phase : string) : bool := String.eqb phase StatusCompleted || String.eqb phase StatusFailed.

Definition transitionRestoreStatus (phase message : string) : XW S bool :=
  now ← getsX xw_now; copy ← copyX;
  r ← retryX backoffSteps (restoreStatusBody now copy phase message);
  _ ← match r with inl _ => logX (StatusWritten phase) | inr _ => mret tt end;
  _ ← (if endedPhase phase then modifyX (fun w => set_xw_env (teardownSeedProxy (xw_env w)) w) ≫= fun _ => logX ProxyTornDown else mret tt);
  mret match r with inl changed => changed | inr _ => false end.

Definition updateRestoreStatus (phase message : string) : XW S unit := _ ← transitionRestoreStatus phase message; mret tt.

(** [refuseRestore]: whether the write announced it. *)
Definition refuseRestore (statusMsg : string) : XW S bool := transitionRestoreStatus StatusFailed statusMsg.

(** * The restore's own annotations and pinned source *)

Definition withAnnotation (key value : string) (r : Neo4jRestore) : Neo4jRestore := set_nr_Annotations (<[key := value]> (nr_Annotations r)) r.
Definition withoutAnnotations (keys : list string) (r : Neo4jRestore) : Neo4jRestore :=
  set_nr_Annotations (fold_right delete (nr_Annotations r) keys) r.

(** A patch of one annotation; [keep]: one that is there stays. *)
Definition annotateBody (key value : string) (keep : bool) (latest : Neo4jRestore) : option Neo4jRestore * unit :=
  match nr_Annotations latest !! key with
  | Some old => if keep || String.eqb old value then (None, tt) else (Some (withAnnotation key value latest), tt)
  | None => (Some (withAnnotation key value latest), tt)
  end.

Definition markCypherRestoreIssued : XW S (option string) :=
  now ← getsX xw_now;
  let stamp := gotime.FormatRFC3339 now in
  r ← retryX retrySteps (annotateBody AnnotationCypherRestoreIssued stamp true);
  match r with
  | inr e => mret (Some e)
  | inl _ => _ ← mutateX (fun c => match nr_Annotations c !! AnnotationCypherRestoreIssued with
                                   | Some _ => c | None => withAnnotation AnnotationCypherRestoreIssued stamp c end);
             mret None
  end.

(** [setRestoreAnnotation]; markRestorePreHooksRan is this with "true". *)
Definition setRestoreAnnotation (key value : string) : XW S (option string) :=
  r ← retryX retrySteps (annotateBody key value false);
  match r with
  | inr e => mret (Some e)
  | inl _ => _ ← mutateX (withAnnotation key value); mret None
  end.

Definition markRestorePreHooksRan : XW S (option string) := setRestoreAnnotation AnnotationRestorePreHooksRan "true".

Definition markCypherRestoreObservedOffline : XW S (option string) :=
  restore ← copyX;
  if String.eqb (default EmptyString (nr_Annotations restore !! AnnotationCypherRestoreObservedOffline)) "true" then mret None
  else setRestoreAnnotation AnnotationCypherRestoreObservedOffline "true".

Definition attemptAnnotations : list string :=
  [AnnotationCypherRestoreIssued; AnnotationCypherRestoreObservedOffline; AnnotationRestorePreHooksRan; AnnotationPointInTimePath].

(** A patch that removes annotations; nothing when none is there. *)
Definition clearAnnotations (keys : list string) : XW S (option string) :=
  r ← retryX backoffSteps (fun latest =>
        if existsb (fun k => bool_decide (is_Some (nr_Annotations latest !! k))) keys
        then (Some (withoutAnnotations keys latest), tt) else (None, tt));
  match r with
  | inr e => mret (Some e)
  | inl _ => _ ← mutateX (withoutAnnotations keys); mret None
  end.

Definition clearCypherRestoreIssued : XW S (option string) := clearAnnotations attemptAnnotations.
Definition clearSeedProxyWaitStarted : XW S (option string) := clearAnnotations [AnnotationSeedProxyWaitStarted].

Definition clearResolvedSource : XW S (option string) :=
  r ← retryX backoffSteps (fun latest =>
        match rt_ResolvedSource (nr_Status latest) with
        | None => (None, tt)
        | Some _ => (Some (set_nr_Status (set_rt_ResolvedSource None (nr_Status latest)) latest), tt)
        end);
  match r with
  | inr e => mret (Some e)
  | inl _ => _ ← mutateX (fun c => set_nr_Status (set_rt_ResolvedSource None (nr_Status c)) c); mret None
  end.

(** [persistResolvedSource]: a snapshot that is there wins. *)
Definition persistResolvedSource (snapshot : ResolvedRestoreSource) : XW S (option string) :=
  r ← retryX backoffSteps (fun latest =>
        match rt_ResolvedSource (nr_Status latest) with
        | Some rs => match rr_Storage rs with
                     | Some _ => (None, rs)
                     | None => (Some (set_nr_Status (set_rt_ResolvedSource (Some snapshot) (nr_Status latest)) latest), snapshot)
                     end
        | None => (Some (set_nr_Status (set_rt_ResolvedSource (Some snapshot) (nr_Status latest)) latest), snapshot)
        end);
  match r with
  | inr e => mret (Some e)
  | inl rs => _ ← mutateX (fun c => set_nr_Status (set_rt_ResolvedSource (Some rs) (nr_Status c)) c); mret None
  end.

(** * The marker on the standalone *)

Definition restoreAlreadyStoppedInstance : XW S bool :=
  restore ← copyX; s ← getStandalone;
  let held := match s with Found s => holdsStopped restore s | _ => false end in
  _ ← (if held : bool then logX HeldSeen else mret tt);
  mret held.

Definition setRestoreInProgressAnnotation : XW S (option string) :=
  restore ← copyX;
  retryStandalone backoffSteps (Some notFoundMessage) (fun latest =>
    match tg_Annotations latest !! RestoreInProgressAnnotation with
    | Some existing =>
        if String.eqb existing (nr_Name restore) then inl None
        else inr ("standalone " +:+ quoted (rx_InstanceRef (nr_Spec restore)) +:+ " already has a restore in progress by Neo4jRestore "
                  +:+ quoted existing +:+ "; cannot start " +:+ quoted (nr_Name restore))
    | None => inl (Some (set_tg_Annotations (<[RestoreInProgressAnnotation := nr_Name restore]> (tg_Annotations latest)) latest))
    end).

Definition clearRestoreInProgressAnnotation : XW S (option string) :=
  restore ← copyX;
  retryStandalone backoffSteps None (fun latest =>
    match tg_Annotations latest !! RestoreInProgressAnnotation with
    | Some owner =>
        if String.eqb owner (nr_Name restore)
        then inl (Some (set_tg_Annotations (delete RestoreInProgressAnnotation (tg_Annotations latest)) latest))
        else inl None
    | None => inl None
    end).

(** * Stop and start *)

Definition getSet (name : string) : XW S (getResult RestoreSet) :=
  fault ← apiX; sets ← getsX xw_sets;
  mret match fault, sets !! name with Some e, _ => GetFailed e | None, Some s => Found s | None, None => NotFound end.

Definition resolveStatefulSetName : XW S (result string) :=
  restore ← copyX;
  let name := rx_InstanceRef (nr_Spec restore) in
  server ← getSet (name +:+ "-server");
  match server with
  | Found _ => mret (Ok (name +:+ "-server"))
  | _ =>
      own ← getSet name;
      mret match own with
           | Found _ => Ok name
           | _ => Err ("StatefulSet not found for " +:+ name +:+ " (tried " +:+ name +:+ "-server and " +:+ name +:+ ")")
           end
  end.

(** An Update of a StatefulSet. *)
Definition updateSet (name : string) (s : RestoreSet) : XW S (option string) :=
  fault ← apiX;
  match fault with
  | Some e => mret (Some e)
  | None => _ ← modifyX (fun w => set_xw_sets (<[name := s]> (xw_sets w)) w); _ ← logX (ScaledTo name (ss_Replicas s)); mret None
  end.

(** A List of the standalone's pods. *)
Definition podsX : XW S (result (list bool)) :=
  fault ← apiX;
  match fault with
  | Some e => mret (Err e)
  | None =>
      r ← askX listPods;
      _ ← match r with Ok pods => logX (PodsSeen (length pods)) | Err _ => mret tt end;
      mret r
  end.

(** The ticks of a wait, until the pods are gone. *)
Fixpoint waitStopped (ticks : nat) : XW S (option string) :=
  match ticks with
  | O => mret (Some "timeout waiting for cluster to stop")
  | Datatypes.S ticks' =>
      r ← podsX;
      match r with
      | Ok [] => mret None
      | _ => waitStopped ticks'
      end
  end.

(** A tick every ten seconds for five minutes. *)
Definition stopTicks (lastTick : bool) : nat := if lastTick then 30 else 29.

Definition stoppedSet (s : RestoreSet) : RestoreSet :=
  mkRestoreSet 0 (match ss_Annotations s !! originalReplicasAnnotation with
                  | Some _ => ss_Annotations s
                  | None => <[originalReplicasAnnotation := strconv.Itoa (ss_Replicas s)]> (ss_Annotations s)
                  end).

Definition stopCluster : XW S (option string) :=
  name ← resolveStatefulSetName;
  match name with
  | Err e => mret (Some e)
  | Ok name =>
      sts ← getSet name;
      match sts with
      | Found s =>
          e ← updateSet name (stoppedSet s);
          match e with
          | Some e => mret (Some ("failed to scale down StatefulSet: " +:+ e))
          | None => lastTick ← getsX xw_lastTick; waitStopped (stopTicks lastTick)
          end
      | NotFound => mret (Some ("failed to get StatefulSet: " +:+ notFoundMessage))
      | GetFailed e => mret (Some ("failed to get StatefulSet: " +:+ e))
      end
  end.

Definition minInt32 : Z := -2147483648.
Definition maxInt32 : Z := 2147483647.

(** The scale-up of a set that records its size; [inl None]: it does not. *)
Definition startedSet (s : RestoreSet) : option RestoreSet + string :=
  match ss_Annotations s !! originalReplicasAnnotation with
  | None => inl None
  | Some original =>
      match strconv.ParseInt original minInt32 maxInt32 with
      | (n, None) => inl (Some (mkRestoreSet n (delete originalReplicasAnnotation (ss_Annotations s))))
      | (_, Some _) => inr "failed to parse original replica count"
      end
  end.

Definition startCluster : XW S (option string) :=
  name ← resolveStatefulSetName;
  match name with
  | Err e => mret (Some e)
  | Ok name =>
      sts ← getSet name;
      match sts with
      | Found s =>
          match startedSet s with
          | inr e => mret (Some e)
          | inl None => mret None
          | inl (Some s') =>
              e ← updateSet name s';
              mret match e with Some e => Some ("failed to scale up StatefulSet: " +:+ e) | None => None end
          end
      | NotFound => mret (Some ("failed to get StatefulSet: " +:+ notFoundMessage))
      | GetFailed e => mret (Some ("failed to get StatefulSet: " +:+ e))
      end
  end.

(** [newStandaloneRestoreClient]. *)
Definition dialStandalone : XW S (option string) :=
  restore ← copyX; s ← getStandalone;
  let failed := fun e => "failed to get standalone " +:+ quoted (rx_InstanceRef (nr_Spec restore)) +:+ " for restore: " +:+ e in
  match s with
  | Found _ => askX dial
  | NotFound => mret (Some (failed notFoundMessage))
  | GetFailed e => mret (Some (failed e))
  end.

(** DatabaseExists, as a pass asks it. *)
Definition databaseExistsX (db : string) : XW S (result bool) :=
  r ← askX (databaseExists db);
  _ ← match r with Ok there => logX (DatabaseSeen db there) | Err _ => mret tt end;
  mret r.

(** The ticks of the wait for the standalone to serve: every thirty seconds for
    ten minutes. *)
Fixpoint waitReady (ticks : nat) (expected : Z) : XW S (option string) :=
  match ticks with
  | O => mret (Some "timeout waiting for cluster to be ready")
  | Datatypes.S ticks' =>
      r ← podsX;
      match r with
      | Ok pods =>
          if (Z.of_nat (length pods) =? expected) && forallb id pods then
            client ← dialStandalone;
            match client with
            | Some _ => waitReady ticks' expected
            | None => e ← askX verifyConnectivity; match e with Some _ => waitReady ticks' expected | None => mret None end
            end
          else waitReady ticks' expected
      | Err _ => waitReady ticks' expected
      end
  end.

Definition readyTicks (lastTick : bool) : nat := if lastTick then 20 else 19.

Definition waitForClusterReady (servers : Z) : XW S (option string) :=
  lastTick ← getsX xw_lastTick; waitReady (readyTicks lastTick) servers.

Definition refuseRestoreIfPodsRunning : XW S (option restoreErr) :=
  restore ← copyX; r ← podsX;
  match r with
  | Err e => mret (Some (ErrAPI ("failed to list server pods for restore preflight: " +:+ e)))
  | Ok [] => mret None
  | Ok pods =>
      standalone ← restoreStandalone;
      let reason := standaloneOfflineReason restore standalone in
      let why := if String.eqb reason EmptyString then EmptyString else " (it restores offline: " +:+ reason +:+ ")" in
      mret (Some (ErrRefusal ("restore " +:+ quoted (nr_Name restore) +:+ " cannot run against a running standalone" +:+ why +:+ ": "
        +:+ strconv.Itoa (Z.of_nat (length pods)) +:+ " server pod(s) of " +:+ quoted (rx_InstanceRef (nr_Spec restore))
        +:+ " are still present. Set spec.stopCluster=true to let the operator stop the instance for the restore, or scale it to 0 manually before applying this restore")))
  end.

(** * The Job *)

Definition getJob : XW S (getResult RestoreJob) :=
  fault ← apiX; j ← getsX xw_job;
  mret match fault, j with Some e, _ => GetFailed e | None, Some j => Found j | None, None => NotFound end.

Definition restoreJobName (restore : Neo4jRestore) : string := nr_Name restore +:+ "-restore".

(** The polls of clearEarlierRestoreJob. *)
Fixpoint waitJobGone (polls : nat) : XW S bool :=
  match polls with
  | O => mret false
  | Datatypes.S polls' =>
      gone ← askX jobGone;
      if gone : bool then (_ ← modifyX (set_xw_job None); mret true) else waitJobGone polls'
  end.

Definition clearEarlierRestoreJob : XW S (option restoreErr) :=
  restore ← copyX; existing ← getJob;
  let jobName := restoreJobName restore in
  match existing with
  | NotFound => mret None
  | GetFailed e => mret (Some (ErrAPI ("failed to read restore Job " +:+ quoted jobName +:+ ": " +:+ e)))
  | Found job =>
      if negb (rj_Deleting job) && restoreJobOfThisAttempt restore job then mret None
      else
        failed ← (if rj_Deleting job then mret None
                  else (fault ← apiX;
                        match fault with
                        | Some e => mret (Some (ErrAPI ("failed to delete an earlier attempt's restore Job " +:+ quoted jobName +:+ ": " +:+ e)))
                        | None => _ ← logX JobDeleted; mret None
                        end));
        match failed with
        | Some e => mret (Some e)
        | None =>
            gone ← waitJobGone 20;
            mret (if gone : bool then None
                  else Some (ErrStaleJob ("restore Job " +:+ quoted jobName +:+ " of an earlier attempt is still terminating")))
        end
  end.

(** [ResolveBackupRef]. *)
Definition resolveBackupRef (backupRef : string) : XW S (restoreErr + StorageLocation * string) :=
  if String.eqb backupRef EmptyString then mret (inl (ErrOther "backupRef is required"))
  else
    b ← askX (getBackup backupRef);
    mret match b with
         | NotFound => inl (ErrOther ("failed to get Neo4jBackup " +:+ quoted backupRef +:+ ": " +:+ notFoundMessage))
         | GetFailed e => inl (ErrAPI ("failed to get Neo4jBackup " +:+ quoted backupRef +:+ ": " +:+ e))
         | Found backup =>
             match resolvedStorage backup with
             | Some r => inr r
             | None => inl (ErrBackupNotReady ("Neo4jBackup " +:+ quoted backupRef
                 +:+ ": backup has no Succeeded run yet (status.history has no Succeeded run yet)"))
             end
         end.

(** Nothing is resolved: what the pure functions do not ask for. *)
Definition unresolved : restoreErr + StorageLocation * string := inl (ErrOther EmptyString).

(** resolveRestoreSource, asking only when it must. *)
Definition resolveSourceX (restore : Neo4jRestore) : XW S (restoreErr + RestoreSource) :=
  r ← (if bool_decide (resolvedBackupSnapshot restore = None) && String.eqb (so_Type (rx_Source (nr_Spec restore))) SourceTypeBackup
       then resolveBackupRef (so_BackupRef (rx_Source (nr_Spec restore))) else mret unresolved);
  mret (resolveRestoreSource (fun _ => r) restore).

Definition buildCommandX (restore : Neo4jRestore) : XW S (restoreErr + string) :=
  let source := rx_Source (nr_Spec restore) in
  let base := match so_PITR source with Some (Some b) => if String.eqb (bb_Type b) "backup" then Some (bb_BackupRef b) else None | _ => None end in
  r ← match base with
      | Some ref => if negb (rx_AllDatabases (nr_Spec restore)) && String.eqb (so_Type source) "pitr" then resolveBackupRef ref else mret unresolved
      | None => mret unresolved
      end;
  mret (buildRestoreCommand (fun _ => r) restore).

(** The Create of the Job, and the Job it adopts when there is one. *)
Definition createJobX (restore : Neo4jRestore) (command : string) : XW S (restoreErr + RestoreJob) :=
  fault ← apiX; existing ← getsX xw_job;
  match fault, existing with
  | Some e, _ => mret (inl (ErrAPI e))
  | None, None =>
      let job := mkRestoreJob (nr_UID restore) (Some (strconv.Itoa (nr_Generation restore))) command false false false 0 None None in
      _ ← modifyX (set_xw_job (Some job)); _ ← logX (JobCreated command); mret (inr job)
  | None, Some _ =>
      again ← getJob;
      mret match again with
           | Found job =>
               if rj_Deleting job || negb (restoreJobOfThisAttempt restore job)
               then inl (ErrStaleJob ("restore Job " +:+ quoted (restoreJobName restore) +:+ " belongs to an earlier attempt"))
               else inr job
           | NotFound => inl (ErrOther ("restore Job " +:+ restoreJobName restore +:+ " already exists but cannot be re-fetched: " +:+ notFoundMessage))
           | GetFailed e => inl (ErrAPI ("restore Job " +:+ restoreJobName restore +:+ " already exists but cannot be re-fetched: " +:+ e))
           end
  end.

Definition createRestoreJob : XW S (restoreErr + RestoreJob) :=
  restore ← copyX;
  staging ← (if match rx_Options (nr_Spec restore) with Some o => op_TempStorage o | None => false end then askX ensureTempStaging else mret None);
  match staging with
  | Some e => mret (inl (ErrOther ("failed to create temp staging PVC: " +:+ e)))
  | None =>
      stale ← clearEarlierRestoreJob;
      match stale with
      | Some e => mret (inl e)
      | None =>
          source ← resolveSourceX restore;
          match source with
          | inl e => mret (inl (wrapErr "failed to resolve restore source" e))
          | inr source =>
              let resolved := resolvedCopy source restore in
              account ← askX ensureServiceAccount;
              match account with
              | Some e => mret (inl (ErrOther ("failed to ensure restore ServiceAccount: " +:+ e)))
              | None =>
                  command ← buildCommandX resolved;
                  match command with
                  | inl e => mret (inl (wrapErr "failed to build restore command" e))
                  | inr command => createJobX restore command
                  end
              end
          end
      end
  end.
End Steps.
