(* ===== verification/RestoreSeed.v ===== *)
(** What must be in place before a restore seeds a database online
    (neo4jrestore_controller.go, neo4jrestore_alldatabases.go and
    restore_target.go): the credentials and the endpoint of a cloud store on the
    target's pods, the standalone's workload identity, and the proxy that serves a
    backup on a PVC, waited for only as long as the budget allows. *)
From S2P Require Import Prelude GoStrings GoTime GoRFC3339 ClusterTypes Conditions UpgradeRecord Version UpgradeMachine BackupTypes RestoreTypes RestoreCommand RestoreWorld.

Open Scope Z_scope.

Definition EventReasonRestoreFailed : string := "RestoreFailed".
Definition EventReasonSeedEndpointNotProjected : string := "SeedEndpointNotProjected".

Definition seedProxyWaitTimeout : Z := 3 * 60 * second.
Definition seedProxyMergeWaitTimeout : Z := 30 * 60 * second.

Definition seedProxyBudget (restore : Neo4jRestore) (merging : bool) : Z :=
  let fallback := if merging then seedProxyMergeWaitTimeout else seedProxyWaitTimeout in
  let timeout := rx_Timeout (nr_Spec restore) in
  if String.eqb timeout EmptyString then fallback
  else match ParseDuration timeout with Some d => if 0 <? d then d else fallback | None => fallback end.

Definition kindOf (standalone : bool) : string := if standalone then "standalone" else "cluster".

(** Whether the wait for the proxy is over, and since when. *)
Inductive pvcOutcome := SeedAt (uri : string) | SeedWait (r : xresult) | SeedError (e : string).

Definition cloudCredentials (storage : StorageLocation) : string :=
  match sl_Cloud storage with Some c => cb_CredentialsSecretRef c | None => EmptyString end.

Definition hasCustomEndpoint (storage : StorageLocation) : bool :=
  String.eqb (sl_Type storage) "s3"
  && match sl_Cloud storage with Some c => negb (String.eqb (cb_EndpointURL c) EmptyString) | None => false end.

Section Seed.
Context {S : Type} `{!RestoreEnv S}.

(** * Cloud storage *)

Definition awaitSeedConfig (standalone : bool) (missing : string) : XW S xresult :=
  restore ← copyX;
  let msg := kindOf standalone +:+ " " +:+ quoted (rx_InstanceRef (nr_Spec restore)) +:+ "'s server pods can't reach the seed source: missing " +:+ missing in
  _ ← (if negb (String.eqb (rt_Phase (nr_Status restore)) StatusPending) || negb (String.eqb (rt_Message (nr_Status restore)) msg) then
         announced ← transitionRestoreStatus StatusPending msg;
         if announced : bool then eventX EventReasonSeedEndpointNotProjected msg else mret tt
       else mret tt);
  mret XRequeue.

Definition waitPending (message : string) : XW S (option xresult) := _ ← updateRestoreStatus StatusPending message; mret (Some XRequeue).

(** [None]: ready. *)
Definition awaitSeedIdentity (standalone : bool) (storage : StorageLocation) : XW S (option xresult) :=
  if negb standalone || String.eqb (sl_Type storage) "pvc" || negb (String.eqb (cloudCredentials storage) EmptyString) then mret None
  else
    restore ← copyX;
    r ← askX standaloneIdentityRolledOut;
    let msg := "Waiting for standalone " +:+ quoted (rx_InstanceRef (nr_Spec restore)) +:+ "'s pod to run under its ServiceAccount, which carries its workload identity" in
    match r with
    | Ok true => mret None
    | Ok false => waitPending msg
    | Err e => waitPending (msg +:+ " (rollout check pending: " +:+ e +:+ ")")
    end.

(** A rollout that must be over; a check that fails counts as not over. *)
Definition awaitRollout (check : XW S (result bool)) (msg : string) : XW S (option xresult) :=
  r ← check;
  match r with Ok true => mret None | _ => waitPending msg end.

(** The credentials and the endpoint projected and rolled out, and the identity:
    of the one-database path (startClusterCypherRestore) and of
    ensureClusterSeedConfigReady. [None]: ready. *)
Definition ensureClusterSeedConfigReady (standalone : bool) (target : TargetCR) (storage : StorageLocation) : XW S (option xresult) :=
  restore ← copyX;
  let where_ := kindOf standalone +:+ " " +:+ quoted (rx_InstanceRef (nr_Spec restore)) in
  let creds := cloudCredentials storage in
  p ← askX (projectSeedConfig creds (sl_Cloud storage));
  match p with
  | NotInherited missing => r ← awaitSeedConfig standalone missing; mret (Some r)
  | ProjectFailed e => waitPending ("Retrying projection of seed configuration onto " +:+ where_ +:+ ": " +:+ e)
  | Projected => waitPending ("Projected seed configuration onto " +:+ where_ +:+ "; waiting for the rolling restart")
  | NothingMissing =>
      rolled ← (if String.eqb creds EmptyString then mret None
                else awaitRollout (askX (seedCredsRolledOut creds)) ("Waiting for " +:+ where_ +:+ " pods to roll out seed credentials Secret " +:+ quoted creds));
      match rolled with
      | Some r => mret (Some r)
      | None =>
          endpoint ← (if hasCustomEndpoint storage && tg_EnvHasSeedEndpoint target
                      then awaitRollout (askX specEnvEndpointRolledOut) ("Waiting for " +:+ where_ +:+ " pods to roll out the S3 endpoint")
                      else mret None);
          match endpoint with
          | Some r => mret (Some r)
          | None => awaitSeedIdentity standalone storage
          end
      end
  end.

(** * A backup on a PVC *)

Definition markSeedProxyWaitStarted : XW S (result Z) :=
  restore ← copyX;
  match nr_Annotations restore !! AnnotationSeedProxyWaitStarted ≫= gotime.Parse with
  | Some t => mret (Ok t)
  | None =>
      now ← getsX xw_now;
      let stamp := gotime.FormatRFC3339 now in
      r ← retryX retrySteps (fun latest =>
            match nr_Annotations latest !! AnnotationSeedProxyWaitStarted with
            | Some raw => (None, raw)
            | None => (Some (withAnnotation AnnotationSeedProxyWaitStarted stamp latest), stamp)
            end);
      match r with
      | inr e => mret (Err e)
      | inl stamp =>
          _ ← mutateX (withAnnotation AnnotationSeedProxyWaitStarted stamp);
          mret match gotime.Parse stamp with Some t => Ok t | None => Err "cannot parse the stamp" end
      end
  end.

(** The anchor, or the stored status.startTime when it cannot be stamped. *)
Definition seedProxyWaitStart : XW S (option Z) :=
  r ← markSeedProxyWaitStarted;
  match r with
  | Ok t => mret (Some t)
  | Err _ =>
      fault ← apiX; stored ← getsX xw_stored;
      mret match fault with Some _ => None | None => rt_StartTime (nr_Status stored) end
  end.

(** The wait for the proxy: [None] when it is up. *)
Definition awaitProxy (pvcName : string) (p : proxyState) : XW S (option (xresult + string)) :=
  if px_Available p then (_ ← clearSeedProxyWaitStarted; mret None)
  else if negb (String.eqb (px_MergeFailure p) EmptyString) then
    let msg := "the seed proxy could not merge the backup chain: " +:+ px_MergeFailure p in
    _ ← updateRestoreStatus StatusFailed msg; _ ← eventX EventReasonRestoreFailed msg; mret (Some (inr msg))
  else
    restore ← copyX; now ← getsX xw_now;
    anchor ← seedProxyWaitStart;
    let budget := seedProxyBudget restore (px_Merging p) in
    if match anchor with Some t => budget <? now - t | None => false end then
      let msg := "backup-seed-proxy Deployment did not become Ready within " +:+ gotime.DurationString budget +:+ ": " +:+ px_Diagnosis p in
      _ ← updateRestoreStatus StatusFailed msg; _ ← eventX EventReasonRestoreFailed msg; mret (Some (inr msg))
    else
      _ ← updateRestoreStatus StatusPending ("Waiting for backup-seed-proxy Deployment to become Ready (" +:+ px_Diagnosis p +:+ ")");
      mret (Some (inl XRequeue)).

(** The directory and the file of source.type storage. *)
Definition splitLastSlash (backupsPath fullPath : string) : string * string :=
  match strings.LastIndexByte fullPath "/"%char with
  | Some i => (strings.upto i fullPath, strings.from (Datatypes.S i) fullPath)
  | None => (backupsPath, fullPath)
  end.

(** The file of a backup that was read, or of the pinned snapshot. *)
Definition pvcArtifact (restore : Neo4jRestore) (backup : option Neo4jBackup) : string :=
  let pick := fun filename artifacts =>
    if String.eqb filename EmptyString then artifactForDatabase artifacts (restoreSourceDatabase restore) else filename in
  match resolvedBackupSnapshot restore with
  | Some (snap, _) => pick (rr_ArtifactFilename snap) (rr_DatabaseArtifacts snap)
  | None =>
      match backup with
      | Some b => match List.find succeededRun (bk_History b) with
                  | Some run => pick (br_ArtifactFilename run) (br_DatabaseArtifacts run)
                  | None => EmptyString
                  end
      | None => EmptyString
      end
  end.

(** What the backup recorded the file as. *)
Definition recordedType (restore : Neo4jRestore) (filename : string) : string :=
  match resolvedBackupSnapshot restore with
  | Some (snap, _) =>
      if String.eqb (so_Type (rx_Source (nr_Spec restore))) SourceTypeBackup
      then fold_left (fun acc a => if String.eqb (da_Filename a) filename then da_Type a else acc) (restoreSeedArtifacts restore snap) EmptyString
      else EmptyString
  | None => EmptyString
  end.

(** The directory and file to serve. *)
Definition pvcSeedFile (restore : Neo4jRestore) (backupsPath : string) : XW S (string * string + string) :=
  let source := rx_Source (nr_Spec restore) in
  if String.eqb (so_Type source) SourceTypeBackup then
    b ← (if bool_decide (resolvedBackupSnapshot restore <> None) then mret (inl None)
         else (b ← askX (getBackup (so_BackupRef source));
               mret match b with
                    | Found b => inl (Some b)
                    | NotFound => inr ("PVC restore: re-fetch backup " +:+ quoted (so_BackupRef source) +:+ ": " +:+ notFoundMessage)
                    | GetFailed e => inr ("PVC restore: re-fetch backup " +:+ quoted (so_BackupRef source) +:+ ": " +:+ e)
                    end));
    match b with
    | inr e => mret (inr e)
    | inl b =>
        let filename := pvcArtifact restore b in
        if String.eqb filename EmptyString then
          let msg := "Neo4jBackup " +:+ quoted (so_BackupRef source) +:+ " has no artifact for database " +:+ quoted (rx_Database (nr_Spec restore)) in
          _ ← updateRestoreStatus StatusFailed msg; mret (inr msg)
        else mret (inl (backupsPath, filename))
    end
  else if String.eqb (so_Type source) "storage" then
    mret (if String.eqb (so_BackupPath source) EmptyString
          then inr "PVC restore with type=storage requires source.backupPath to be set to the .backup file path under the PVC root"
          else inl (splitLastSlash backupsPath (so_BackupPath source)))
  else mret (inr ("PVC cluster restore not supported with source.type=" +:+ quoted (so_Type source))).

Definition resolveClusterPVCRestoreURI (storage : StorageLocation) (backupsPath : string) : XW S pvcOutcome :=
  restore ← copyX;
  match pv_Name <$> sl_PVC storage with
  | None | Some EmptyString => mret (SeedError "PVC-backed cluster restore requires storage.pvc.name to be set")
  | Some pvcName =>
      file ← pvcSeedFile restore backupsPath;
      match file with
      | inr e => mret (SeedError e)
      | inl (dir, filename) =>
          p ← askX (ensureSeedProxy pvcName [(dir, filename, recordedType restore filename, restoreSourceDatabase restore)]);
          match p with
          | Err e => mret (SeedError ("ensure PVC seed proxy: " +:+ e))
          | Ok p =>
              waited ← awaitProxy pvcName p;
              match waited with
              | Some (inl r) => mret (SeedWait r)
              | Some (inr e) => mret (SeedError e)
              | None => mret (SeedAt (pvcSeedProxyURL (nr_Name restore) dir filename))
              end
          end
      end
  end.

(** [None]: the proxy is up. *)
Definition ensurePVCSeedProxyReady (storage : StorageLocation) (seeds : list (string * string * string * string)) : XW S (option xresult) :=
  match pv_Name <$> sl_PVC storage with
  | None | Some EmptyString =>
      let msg := "PVC-backed all-databases restore requires storage.pvc.name to be set" in
      _ ← updateRestoreStatus StatusFailed msg; mret (Some (XErr msg))
  | Some pvcName =>
      p ← askX (ensureSeedProxy pvcName seeds);
      match p with
      | Err e => let msg := "ensure PVC seed proxy: " +:+ e in _ ← updateRestoreStatus StatusFailed msg; mret (Some (XErr msg))
      | Ok p =>
          waited ← awaitProxy pvcName p;
          mret match waited with Some (inl r) => Some r | Some (inr _) => Some XDone | None => None end
      end
  end.
End Seed.
