(* ===== verification/RestoreAll.v ===== *)
(** The all-databases restore (src/internal/controller/neo4jrestore_alldatabases.go):
    one action on one database per pass, driven from status.databaseResults, with an
    uncached read of the restore before a statement that wipes a database; and the
    registration of the databases a Job restored. The summaries of the progress
    recorder are left out. *)
From S2P Require Import Prelude GoStrings GoTime GoRFC3339 ClusterTypes Conditions UpgradeRecord Version UpgradeMachine TargetWait BackupTypes RestoreTypes RestoreCommand RestoreWorld RestoreSeed.

Open Scope Z_scope.

Definition EventReasonRestoreStarted : string := "RestoreStarted".
Definition EventReasonRestoreCompleted : string := "RestoreCompleted".
Definition EventReasonRestoreDatabaseFailed : string := "RestoreDatabaseFailed".

(** The version a restore falls back to. *)
Definition fallbackVersion : Version := mkVersion 5 26 0 false EmptyString.

Definition targetVersion (t : TargetCR) : Version :=
  match GetImageVersion (tg_ImageRepo t +:+ ":" +:+ tg_ImageTag t) with Ok v => v | Err _ => fallbackVersion end.

Definition notStarted (phase : string) : bool := String.eqb phase EmptyString || String.eqb phase StatusPending.

(** [ensureDatabaseResults]: a Pending entry per database that has none. *)
Definition seededResults (results : list DatabaseRestoreResult) (dbs : list string) : list DatabaseRestoreResult :=
  let existing := dr_Database <$> results in
  results ++ ((fun db => mkDatabaseRestoreResult db StatusPending EmptyString None) <$> List.filter (fun db => negb (bool_decide (db ∈ existing))) dbs).

(** The entry of a database, with its phase and message set. *)
Fixpoint setResult (now : Z) (db phase message : string) (results : list DatabaseRestoreResult) : list DatabaseRestoreResult :=
  match results with
  | [] => []
  | r :: rest =>
      if String.eqb (dr_Database r) db
      then mkDatabaseRestoreResult db phase message (if endedPhase phase then Some now else dr_CompletionTime r) :: rest
      else r :: setResult now db phase message rest
  end.

Definition resultOf (results : list DatabaseRestoreResult) (db : string) : option DatabaseRestoreResult :=
  List.find (fun r => String.eqb (dr_Database r) db) results.

(** The body of markDatabaseResult's write: whether it moved the restore into
    Running, and the database into Failed. *)
Definition databaseResultBody (results : list DatabaseRestoreResult) (db phase : string) (latest : Neo4jRestore)
    : option Neo4jRestore * (bool * bool) :=
  let st := nr_Status latest in
  let before := fold_left (fun acc r => if String.eqb (dr_Database r) db then dr_Phase r else acc) (rt_DatabaseResults st) EmptyString in
  let started := existsb (fun r => negb (notStarted (dr_Phase r))) (rt_DatabaseResults st) in
  let alreadyStarted := String.eqb (rt_Phase st) StatusRunning || started in
  let phase' := if endedPhase (rt_Phase st) then rt_Phase st else StatusRunning in
  (Some (set_nr_Status (mkNeo4jRestoreStatus (rt_Conditions st) phase' (rt_Message st) (rt_StartTime st) (rt_CompletionTime st)
           (rt_ObservedGeneration st) results (rt_ResolvedSource st) (rt_Duration st) (rt_BackupInfo st)) latest),
   (negb alreadyStarted && String.eqb phase' StatusRunning,
    String.eqb phase StatusFailed && negb (String.eqb before StatusFailed))).

Definition allDatabasesRestoreStartedMessage (results : list DatabaseRestoreResult) : string :=
  let named := 10%nat in
  let names := (fun r => quoted (dr_Database r)) <$> take named results in
  let rest := if (named <? length results)%nat then " and " +:+ strconv.Itoa (Z.of_nat (length results - named)) +:+ " more" else EmptyString in
  "All-databases restore started: " +:+ strconv.Itoa (Z.of_nat (length results)) +:+ " database(s), " +:+ strings.Join names ", " +:+ rest
  +:+ "; each one's progress is in status.databaseResults".

Definition seedingProgressMessage (state : result (Z * Z * string)) : string :=
  match state with
  | Err e => "seeding from backup; last status poll FAILED: " +:+ e
  | Ok (online, total, _) =>
      if total =? 0 then "seeding from backup; database has no allocations yet (recreate in progress)"
      else "seeding from backup; " +:+ strconv.Itoa online +:+ "/" +:+ strconv.Itoa total +:+ " allocations online"
  end.

(** Every allocation of the database is online. *)
Definition allOnline (state : result (Z * Z * string)) : bool :=
  match state with Ok (online, total, _) => (0 <? total) && (online =? total) | Err _ => false end.

Section AllDatabases.
Context {S : Type} `{!RestoreEnv S}.

Definition setCopyResults (results : list DatabaseRestoreResult) : XW S unit :=
  mutateX (fun c => set_nr_Status (set_rt_DatabaseResults results (nr_Status c)) c).

Definition copyResults : XW S (list DatabaseRestoreResult) := restore ← copyX; mret (rt_DatabaseResults (nr_Status restore)).

Definition ensureDatabaseResults (dbs : list string) : XW S unit :=
  results ← copyResults; setCopyResults (seededResults results dbs).

Definition markDatabaseResult (db phase message : string) : XW S unit :=
  now ← getsX xw_now; old ← copyResults;
  let results := setResult now db phase message old in
  _ ← setCopyResults results;
  r ← retryX backoffSteps (databaseResultBody results db phase);
  match r with
  | inr _ => mret tt
  | inl (entered, failed) =>
      _ ← (if entered : bool then eventX EventReasonRestoreStarted (allDatabasesRestoreStartedMessage results) else mret tt);
      if failed : bool then eventX EventReasonRestoreDatabaseFailed ("All-databases restore: database " +:+ quoted db +:+ " failed: " +:+ message) else mret tt
  end.

Definition noteDatabaseProgress (db message : string) : XW S unit :=
  results ← copyResults;
  match resultOf results db with
  | Some r => if String.eqb (dr_Message r) message then mret tt else markDatabaseResult db StatusRunning message
  | None => markDatabaseResult db StatusRunning message
  end.

(** An uncached read of the restore, which an operator always has. *)
Definition issueGuardAllowsRecreate (db : string) : XW S bool :=
  fault ← apiX; fresh ← getsX xw_stored;
  mret match fault with
       | Some _ => false
       | None => match resultOf (rt_DatabaseResults (nr_Status fresh)) db with
                 | Some r => notStarted (dr_Phase r)
                 | None => true
                 end
       end.

Definition awaitTargetBody (now : Z) (msg lastingMsg : string) (latest : Neo4jRestore) : option Neo4jRestore * bool :=
  let st := nr_Status latest in
  let previous := match findCondition (rt_Conditions st) ConditionTypeClusterNotReady with Some c => c_Message c | None => EmptyString end in
  let '(conditions, _) := SetNamedCondition now (rt_Conditions st) ConditionTypeClusterNotReady (nr_Generation latest) ConditionTrue ConditionReasonClusterUnreachable msg in
  let lasting := match findCondition conditions ConditionTypeClusterNotReady with
                 | Some c => targetUnreachableGrace <? now - c_LastTransitionTime c | None => false end in
  let conditions := if lasting then updateFound conditions ConditionTypeClusterNotReady (nr_Generation latest) lastingMsg else conditions in
  let announce := lasting && negb (String.eqb previous lastingMsg) in
  if decide (conditions = rt_Conditions st) then (None, announce)
  else (Some (set_nr_Status (mkNeo4jRestoreStatus conditions (rt_Phase st) (rt_Message st) (rt_StartTime st) (rt_CompletionTime st)
          (rt_ObservedGeneration st) (rt_DatabaseResults st) (rt_ResolvedSource st) (rt_Duration st) (rt_BackupInfo st)) latest), announce).

Definition awaitAllDatabasesTarget (standalone : bool) (cause : string) : XW S xresult :=
  restore ← copyX; now ← getsX xw_now;
  let where_ := kindOf standalone +:+ " " +:+ quoted (rx_InstanceRef (nr_Spec restore)) in
  let lastingMsg := where_ +:+ " has not answered for more than " +:+ gotime.DurationString targetUnreachableGrace
                    +:+ "; the restore waits for it and carries on where it was" in
  r ← retryX backoffSteps (awaitTargetBody now (where_ +:+ " does not answer: " +:+ cause) lastingMsg);
  _ ← match r with inl true => eventX EventReasonConnectionFailed (lastingMsg +:+ ": " +:+ cause) | _ => mret tt end;
  mret XRequeue.

Definition allDatabasesTargetAnswered : XW S unit :=
  now ← getsX xw_now;
  _ ← retryX backoffSteps (fun latest =>
        let st := nr_Status latest in
        match findCondition (rt_Conditions st) ConditionTypeClusterNotReady with
        | Some c =>
            if String.eqb (c_Status c) ConditionTrue
            then (Some (set_nr_Status (mkNeo4jRestoreStatus
                   (SetNamedCondition now (rt_Conditions st) ConditionTypeClusterNotReady (nr_Generation latest) ConditionFalse "ClusterReady" EmptyString).1
                   (rt_Phase st) (rt_Message st) (rt_StartTime st) (rt_CompletionTime st)
                   (rt_ObservedGeneration st) (rt_DatabaseResults st) (rt_ResolvedSource st) (rt_Duration st) (rt_BackupInfo st)) latest), tt)
            else (None, tt)
        | None => (None, tt)
        end);
  mret tt.

(** The hooks of one phase, [None] without any or when they succeed. *)
Definition runRestoreHooks (post : bool) : XW S (option string) :=
  restore ← copyX;
  if (if post then hasPostRestore restore else hasPreRestore restore) then (_ ← logX (HooksRan post); askX (runHooks post)) else mret None.

Definition finishAllDatabasesRestore : XW S xresult :=
  now ← getsX xw_now;
  _ ← mutateX (fun c => set_nr_Status (set_rt_Completed (Some now) (rt_Message (nr_Status c)) (nr_Status c)) c);
  results ← copyResults;
  let total := strconv.Itoa (Z.of_nat (length results)) in
  let failed := length (List.filter (fun r => String.eqb (dr_Phase r) StatusFailed) results) in
  if (0 <? failed)%nat then
    let msg := strconv.Itoa (Z.of_nat failed) +:+ " of " +:+ total +:+ " databases failed to restore; see status.databaseResults" in
    announced ← transitionRestoreStatus StatusFailed msg;
    _ ← (if announced : bool then eventX EventReasonRestoreFailed ("All-databases restore failed: " +:+ msg) else mret tt);
    mret XDone
  else
    hooks ← runRestoreHooks true;
    match hooks with
    | Some e => _ ← updateRestoreStatus StatusFailed ("Post-restore hooks failed: " +:+ e); mret (XErr e)
    | None =>
        let msg := "Restored " +:+ total +:+ " databases" in
        announced ← transitionRestoreStatus StatusCompleted msg;
        _ ← (if announced : bool then eventX EventReasonRestoreCompleted ("All-databases restore completed: " +:+ msg) else mret tt);
        mret XDone
    end.

(** A CREATE DATABASE and a recreate, as a pass sends them. *)
Definition sendCreate (db seedURI : string) (until : option Z) (ifNotExists : bool) : XW S (option string) :=
  _ ← logX (CreateSent db seedURI until); askX (createWithSeed db seedURI until ifNotExists).
Definition sendRecreate (version : Version) (db seedURI : string) : XW S (result bool) :=
  _ ← logX (RecreateSent db seedURI); askX (recreateWithSeed version db seedURI).

(** One database that has not started. *)
Definition issueDatabase (standalone : bool) (version : Version) (db seedURI : string) : XW S xresult :=
  restore ← copyX;
  allowed ← issueGuardAllowsRecreate db;
  if negb allowed then mret XRequeue
  else
    there ← databaseExistsX db;
    match there with
    | Err e =>
        if targetAway e then awaitAllDatabasesTarget standalone e
        else (_ ← updateRestoreStatus StatusPending ("Checking database " +:+ quoted db +:+ ": " +:+ e); mret XRequeue)
    | Ok true =>
        if negb (restoreOverwriteConfirmed restore) then
          _ ← markDatabaseResult db StatusFailed "database already exists; set spec.options.replaceExisting=true to overwrite it during an all-databases restore";
          mret XRequeue
        else
          r ← sendRecreate version db seedURI;
          match r with
          | Err e => _ ← markDatabaseResult db StatusFailed ("recreateDatabase failed: " +:+ e); mret XRequeue
          | Ok false =>
              _ ← markDatabaseResult db StatusFailed ("Neo4j " +:+ strconv.Itoa (Major version) +:+ "." +:+ strconv.Itoa (Minor version)
                    +:+ " does not support dbms.recreateDatabase; DROP DATABASE " +:+ quoted db +:+ " and re-run");
              mret XRequeue
          | Ok true => _ ← markDatabaseResult db StatusRunning "seeding from backup"; mret XRequeue
          end
    | Ok false =>
        e ← sendCreate db seedURI None true;
        match e with
        | Some e => _ ← markDatabaseResult db StatusFailed ("CREATE DATABASE with seedURI failed: " +:+ e); mret XRequeue
        | None => _ ← markDatabaseResult db StatusRunning "seeding from backup"; mret XRequeue
        end
    end.

(** One database that is being seeded. *)
Definition pollDatabase (db : string) : XW S xresult :=
  state ← askX (onlineState db);
  if allOnline state then (_ ← markDatabaseResult db StatusCompleted "online"; mret XRequeue)
  else (_ ← noteDatabaseProgress db (seedingProgressMessage state); mret XRequeue).

(** The first database that is not over. *)
Fixpoint driveDatabases (standalone : bool) (version : Version) (arts : list DatabaseArtifact) (seedURIFor : string -> string)
    (results : list DatabaseRestoreResult) : XW S xresult :=
  match results with
  | [] => finishAllDatabasesRestore
  | res :: rest =>
      let db := dr_Database res in
      if endedPhase (dr_Phase res) then driveDatabases standalone version arts seedURIFor rest
      else
        let fname := filenameForDB arts db in
        if String.eqb fname EmptyString then
          _ ← markDatabaseResult db StatusFailed "no .backup artifact filename recorded for this database in the source backup"; mret XRequeue
        else if notStarted (dr_Phase res) then issueDatabase standalone version db (seedURIFor fname)
        else if String.eqb (dr_Phase res) StatusRunning then pollDatabase db
        else driveDatabases standalone version arts seedURIFor rest
  end.

(** The seeds of the databases, per storage type; [inr]: not ready. *)
Definition allDatabasesSeeds (standalone : bool) (target : TargetCR) (snap : ResolvedRestoreSource) (storage : StorageLocation)
    : XW S ((string -> string) + xresult) :=
  restore ← copyX;
  if bool_decide (sl_Type storage ∈ ["s3"; "gcs"; "azure"]) then
    ready ← ensureClusterSeedConfigReady standalone target storage;
    match ready with
    | Some r => mret (inr r)
    | None =>
        match buildSeedURIFromBackupStorage storage (rr_BackupPath snap) with
        | Err e => _ ← updateRestoreStatus StatusFailed e; mret (inr (XErr e))
        | Ok dirURI => mret (inl (fun filename => joinSlash (strings.TrimRight dirURI "/") filename))
        end
    end
  else if String.eqb (sl_Type storage) "pvc" then
    ready ← ensurePVCSeedProxyReady storage
              ((fun a => (rr_BackupPath snap, da_Filename a, da_Type a, da_Database a))
               <$> List.filter (fun a => negb (strings.EqualFold (da_Database a) "system")) (rr_DatabaseArtifacts snap));
    mret match ready with
         | Some r => inr r
         | None => inl (fun filename => pvcSeedProxyURL (nr_Name restore) (rr_BackupPath snap) filename)
         end
  else
    let msg := "all-databases restore does not support storage type " +:+ quoted (sl_Type storage) +:+ " (expected s3, gcs, azure, or pvc)" in
    _ ← updateRestoreStatus StatusFailed msg; mret (inr (XErr msg)).

(** The pre-restore hooks of an attempt, once. *)
Definition preHooksOnce : XW S (option xresult) :=
  restore ← copyX;
  if hasPreRestore restore && negb (String.eqb (default EmptyString (nr_Annotations restore !! AnnotationRestorePreHooksRan)) "true") then
    e ← runRestoreHooks false;
    match e with
    | Some e => _ ← updateRestoreStatus StatusFailed ("Pre-restore hooks failed: " +:+ e); mret (Some (XErr e))
    | None => failed ← markRestorePreHooksRan; mret match failed with Some e => Some (XErr e) | None => None end
    end
  else mret None.

Definition startAllDatabasesRestore (ref : TargetCR) : XW S xresult :=
  t ← getRestoreTarget;
  match t with
  | Err e => _ ← updateRestoreStatus StatusFailed ("Target lookup failed: " +:+ e); mret (XErr e)
  | Ok (standalone, target) =>
      restore ← copyX;
      match resolvedBackupSnapshot restore with
      | None => _ ← updateRestoreStatus StatusPending "Waiting for the backup source to resolve before all-databases restore"; mret XRequeue
      | Some (snap, storage) =>
          match userDatabasesFromArtifacts (rr_DatabaseArtifacts snap) with
          | [] =>
              let msg := "all-databases restore: the resolved backup recorded no per-database artifacts" in
              _ ← updateRestoreStatus StatusFailed msg; mret (XErr msg)
          | dbs =>
              hooks ← preHooksOnce;
              match hooks with
              | Some r => mret r
              | None =>
                  _ ← ensureDatabaseResults dbs;
                  seeds ← allDatabasesSeeds standalone target snap storage;
                  match seeds with
                  | inr r => mret r
                  | inl seedURIFor =>
                      client ← askX dial;
                      match client with
                      | Some e =>
                          if targetAway e then awaitAllDatabasesTarget standalone e
                          else (_ ← updateRestoreStatus StatusPending ("Waiting to connect to " +:+ kindOf standalone +:+ " "
                                      +:+ quoted (rx_InstanceRef (nr_Spec restore)) +:+ ": " +:+ e); mret XRequeue)
                      | None =>
                          _ ← allDatabasesTargetAnswered;
                          results ← copyResults;
                          driveDatabases standalone (targetVersion ref) (rr_DatabaseArtifacts snap) seedURIFor results
                      end
                  end
              end
          end
      end
  end.

(** * After a Job *)

Definition registerDatabase (db : string) : XW S (option string) :=
  there ← databaseExistsX db;
  match there with
  | Err e => mret (Some e)
  | Ok true => askX (startDatabase db)
  | Ok false => _ ← logX (RegisterSent db); askX (createDatabase db)
  end.

(** The first error. *)
Fixpoint registerDatabases (dbs : list string) : XW S (option string) :=
  match dbs with
  | [] => mret None
  | db :: dbs' =>
      e ← registerDatabase db;
      _ ← match e with
          | Some e => markDatabaseResult db StatusFailed ("register after restore: " +:+ e)
          | None => markDatabaseResult db StatusCompleted "restored and online"
          end;
      rest ← registerDatabases dbs';
      mret match e with Some e => Some e | None => rest end
  end.

Definition registerAllDatabasesAfterRestore : XW S (option string) :=
  restore ← copyX;
  match resolvedBackupSnapshot restore with
  | None => mret (Some "all-databases restore: resolved source missing during registration")
  | Some (snap, _) =>
      let dbs := userDatabasesFromArtifacts (rr_DatabaseArtifacts snap) in
      _ ← ensureDatabaseResults dbs;
      client ← dialStandalone;
      match client with
      | Some e => mret (Some ("failed to create Neo4j client: " +:+ e))
      | None => registerDatabases dbs
      end
  end.
End AllDatabases.

(** When every database has a result that is over, whatever attempt it is of, the
    attempt ends without a statement. *)
Theorem ended_results_end_the_attempt {S : Type} `{!RestoreEnv S} standalone version arts seedURIFor results :
  Forall (fun r => endedPhase (dr_Phase r) = true) results ->
  driveDatabases (S := S) standalone version arts seedURIFor results = finishAllDatabasesRestore.
Proof. induction 1 as [|r results Hr _ IH]; cbn [driveDatabases]; [done|]. by rewrite Hr. Qed.
