(* ===== verification/RestorePass.v ===== *)
(** A pass of the restore controller (src/internal/controller/neo4jrestore_controller.go
    and restore_point_in_time.go): the validation of the spec, the online path
    (startClusterCypherRestore and the poll after it), the Job path (startRestore,
    checkRestoreProgress and the end of a Job), Reconcile and the deletion. *)
From S2P Require Import Prelude GoStrings GoTime GoRFC3339 ClusterTypes Conditions UpgradeRecord Version UpgradeMachine TargetWait BackupTypes RestoreTypes RestoreCommand RestoreWorld RestoreSeed RestoreAll.

Open Scope Z_scope.

Definition EventReasonDatabaseCreateFailed : string := "DatabaseCreateFailed".

Section Pass.
Context {S : Type} `{!RestoreEnv S}.

(** * Validation *)

Definition backupSourceError (restore : Neo4jRestore) : XW S (option restoreErr) :=
  let ref := so_BackupRef (rx_Source (nr_Spec restore)) in
  if String.eqb ref EmptyString then mret (Some (ErrOther "backupRef is required when source type is 'backup'"))
  else if bool_decide (resolvedBackupSnapshot restore <> None) then mret None
  else
    b ← askX (getBackup ref);
    let failed := fun e => "backup " +:+ quoted ref +:+ " not found: " +:+ e in
    mret match b with
         | Found _ => None
         | NotFound => Some (ErrOther (failed notFoundMessage))
         | GetFailed e => Some (ErrAPI (failed e))
         end.

Definition pitrSourceError (restore : Neo4jRestore) : XW S (option restoreErr) :=
  let source := rx_Source (nr_Spec restore) in
  match so_PITR source with
  | None => mret (Some (ErrOther "pitr configuration is required when source type is 'pitr'"))
  | Some base =>
      if bool_decide (base = None) && bool_decide (so_PointInTime source = None)
      then mret (Some (ErrOther "pitr requires baseBackup configuration or pointInTime (or both)"))
      else
        isCluster ← isRestoreTargetTrueCluster;
        mret match isCluster with
             | Ok true => Some (ErrOther ("source.type=pitr is not supported for cluster targets (instanceRef " +:+ quoted (rx_InstanceRef (nr_Spec restore)) +:+ ")"))
             | _ => None
             end
  end.

Definition sourceError (restore : Neo4jRestore) : XW S (option restoreErr) :=
  let source := rx_Source (nr_Spec restore) in
  if String.eqb (so_Type source) SourceTypeBackup then backupSourceError restore
  else if bool_decide (so_Type source ∈ ["storage"; "s3"; "gcs"; "azure"]) then
    mret (if String.eqb (strings.TrimSpace (strings.Trim (so_BackupPath source) "/")) EmptyString
          then Some (ErrOther ("source.backupPath is required when source type is " +:+ quoted (so_Type source))) else None)
  else if String.eqb (so_Type source) "pitr" then pitrSourceError restore
  else mret (Some (ErrOther ("invalid source type " +:+ quoted (so_Type source) +:+ ": must be one of: backup, storage, s3, gcs, azure, pitr"))).

(** The checks of the spec alone: the first error. *)
Definition allDatabasesError (restore : Neo4jRestore) : option string :=
  if rx_AllDatabases (nr_Spec restore) then
    if negb (String.eqb (rx_Database (nr_Spec restore)) EmptyString) then Some "spec.allDatabases is mutually exclusive with spec.database"
    else if negb (String.eqb (so_Type (rx_Source (nr_Spec restore))) SourceTypeBackup)
    then Some "spec.allDatabases requires source.type=backup (the operator reads the backup's per-database artifact map)"
    else None
  else None.

Definition databaseNameError (restore : Neo4jRestore) : option string :=
  let db := rx_Database (nr_Spec restore) in
  if rx_AllDatabases (nr_Spec restore) then None
  else if String.eqb db EmptyString then Some "spec.database is required (or set spec.allDatabases to restore every database in the backup)"
  else if strings.EqualFold db "system" then Some ("spec.database " +:+ quoted db +:+ " is not restorable")
  else if negb (IsValidDatabaseName db) then Some ("spec.database " +:+ quoted db +:+ " is invalid")
  else None.

Definition sourceDatabaseError (restore : Neo4jRestore) : option string :=
  let src := so_SourceDatabase (rx_Source (nr_Spec restore)) in
  if String.eqb src EmptyString then None
  else if rx_AllDatabases (nr_Spec restore) then Some "spec.source.sourceDatabase picks one database to restore under spec.database; it does not apply to spec.allDatabases"
  else if strings.EqualFold src "system" then Some ("spec.source.sourceDatabase " +:+ quoted src +:+ " is not restorable: the system database is managed by Neo4j")
  else if negb (IsValidDatabaseName src) then Some ("spec.source.sourceDatabase " +:+ quoted src +:+ " is invalid")
  else None.

Definition timeoutError (restore : Neo4jRestore) : option string :=
  let timeout := rx_Timeout (nr_Spec restore) in
  if String.eqb timeout EmptyString then None
  else match ParseDuration timeout with
       | Some d => if 0 <? d then None else Some ("spec.timeout " +:+ quoted timeout +:+ " is not a valid positive Go duration")
       | None => Some ("spec.timeout " +:+ quoted timeout +:+ " is not a valid positive Go duration")
       end.

Definition clusterPointInTimeError (restore : Neo4jRestore) : XW S (option restoreErr) :=
  if hasPointInTime restore && (negb (String.eqb (so_Type (rx_Source (nr_Spec restore))) SourceTypeBackup) || rx_AllDatabases (nr_Spec restore)) then
    isCluster ← isRestoreTargetTrueCluster;
    mret match isCluster with
         | Ok true => Some (ErrOther ("source.pointInTime on a cluster target (instanceRef " +:+ quoted (rx_InstanceRef (nr_Spec restore))
             +:+ ") needs source.type backup and a single spec.database"))
         | _ => None
         end
  else mret None.

Definition shardedError (restore : Neo4jRestore) : XW S (option restoreErr) :=
  let db := rx_Database (nr_Spec restore) in
  names ← askX shardedNames;
  mret match names with
       | Err e => Some (ErrAPI ("failed to check whether " +:+ quoted db +:+ " is a Neo4jShardedDatabase: " +:+ e))
       | Ok items =>
           match List.find (fun n => strings.EqualFold n.1 db || strings.EqualFold n.2 db) items with
           | Some n => Some (ErrOther ("database " +:+ quoted db +:+ " is a Neo4jShardedDatabase (CR " +:+ quoted n.1 +:+ ") — use the Neo4jShardedDatabase restore path instead"))
           | None => None
           end
       end.

(** The first check that fails; the advice in its message is left out. *)
Definition validateRestore : XW S (option restoreErr) :=
  restore ← copyX;
  match allDatabasesError restore with
  | Some e => mret (Some (ErrOther e))
  | None =>
      source ← sourceError restore;
      match source, databaseNameError restore, sourceDatabaseError restore, timeoutError restore with
      | Some e, _, _, _ => mret (Some e)
      | None, Some e, _, _ | None, None, Some e, _ | None, None, None, Some e => mret (Some (ErrOther e))
      | None, None, None, None =>
          pit ← clusterPointInTimeError restore;
          match pit with
          | Some e => mret (Some e)
          | None => shardedError restore
          end
      end
  end.

Definition checkDatabaseExists : XW S (option restoreErr) :=
  restore ← copyX; client ← dialStandalone;
  match client with
  | Some e => mret (Some (ErrOther ("failed to create Neo4j client: " +:+ e)))
  | None =>
      there ← databaseExistsX (rx_Database (nr_Spec restore));
      mret match there with
           | Err e => Some (ErrOther ("failed to check if database exists: " +:+ e))
           | Ok there =>
               if there && negb (restoreOverwriteConfirmed restore)
               then Some (ErrRefusal ("database " +:+ rx_Database (nr_Spec restore) +:+ " already exists. Use replaceExisting option or force flag to overwrite"))
               else None
           end
  end.

(** * The pinned source and the point in time *)

(** [None]: go on. *)
Definition ensureResolvedBackupSource : XW S (option xresult) :=
  restore ← copyX;
  let ref := so_BackupRef (rx_Source (nr_Spec restore)) in
  if negb (String.eqb (so_Type (rx_Source (nr_Spec restore))) SourceTypeBackup) || bool_decide (resolvedBackupSnapshot restore <> None)
  then mret None
  else
    r ← resolveBackupRef ref;
    match r with
    | inl (ErrBackupNotReady e) => _ ← updateRestoreStatus StatusPending ("Waiting for backup to complete: " +:+ e); mret (Some XRequeue)
    | inl e =>
        let msg := "Failed to resolve backupRef " +:+ quoted ref +:+ ": " +:+ errText e in
        _ ← updateRestoreStatus StatusFailed msg; mret (Some (XErr msg))
    | inr (storage, backupPath) =>
        b ← askX (getBackup ref);
        now ← getsX xw_now;
        failed ← persistResolvedSource (resolvedSnapshot now restore storage backupPath (match b with Found b => Some b | _ => None end));
        mret match failed with Some e => Some (XErr e) | None => None end
    end.

Definition decidePointInTimePath : XW S (option xresult) :=
  restore ← copyX;
  if negb (hasPointInTime restore) && negb (isPITR restore) then mret None
  else if bool_decide (is_Some (nr_Annotations restore !! AnnotationPointInTimePath)) then mret None
  else
    t ← getRestoreTarget;
    match t with
    | Err e => mret (Some (XErr e))
    | Ok (standalone, target) =>
        let calver := match GetImageVersion (tg_ImageRepo target +:+ ":" +:+ tg_ImageTag target) with Ok v => IsCalver v | Err _ => false end in
        let snap := resolvedBackupSnapshot restore in
        let why := pointInTimeOnlineBlocker restore snap calver false in
        let why := if String.eqb why EmptyString && standalone && holdsStopped restore target
                   then "this restore already holds the standalone stopped for an offline restore" else why in
        why ← (if negb (String.eqb why EmptyString) then mret (inl why)
               else (client ← askX dial;
                     match client with
                     | Some e => mret (inr e)
                     | None => there ← databaseExistsX (rx_Database (nr_Spec restore));
                               mret match there with
                                    | Ok there => inl (pointInTimeOnlineBlocker restore snap calver there)
                                    | Err e => inr e
                                    end
                     end));
        match why with
        | inr e =>
            _ ← updateRestoreStatus StatusPending ("Checking whether database " +:+ quoted (rx_Database (nr_Spec restore)) +:+ " exists on "
                  +:+ kindOf standalone +:+ " " +:+ quoted (rx_InstanceRef (nr_Spec restore)) +:+ " before a point-in-time restore: " +:+ e);
            mret (Some XRequeue)
        | inl why =>
            failed ← setRestoreAnnotation AnnotationPointInTimePath (if String.eqb why EmptyString then pointInTimeOnline else "offline: " +:+ why);
            match failed with
            | Some e => mret (Some (XErr e))
            | None =>
                if negb (String.eqb why EmptyString) && negb standalone then
                  let msg := "point-in-time restore into cluster " +:+ quoted (rx_InstanceRef (nr_Spec restore)) +:+ " cannot run: " +:+ why
                             +:+ ". A cluster restores only online" in
                  _ ← updateRestoreStatus StatusFailed msg; _ ← eventX EventReasonRestoreFailed msg; mret (Some XDone)
                else mret None
            end
        end
    end.

(** * Online *)

Definition onlineRestoreStartedMessage (standalone : bool) (restore : Neo4jRestore) (there : bool) (seedURI : string) : string :=
  "Online restore into " +:+ kindOf standalone +:+ " " +:+ quoted (rx_InstanceRef (nr_Spec restore)) +:+ ": database "
  +:+ quoted (rx_Database (nr_Spec restore)) +:+ " (" +:+ (if there then "recreate" else "create") +:+ "), seedURI=" +:+ seedURI
  +:+ (if standalone && rx_StopCluster (nr_Spec restore)
       then "; spec.stopCluster is ignored: the standalone is restored online and its other databases stay available (only a restore the server cannot seed itself stops the instance)"
       else EmptyString).

(** [latestSucceededArtifactFilename] of the backup as it is now. *)
Definition liveArtifact (restore : Neo4jRestore) (ref : string) : XW S (result string) :=
  b ← askX (getBackup ref);
  mret match b with
       | Found b => latestSucceededArtifactFilename ref (restoreSourceDatabase restore) b
       | NotFound => Err ("re-fetch backup " +:+ quoted ref +:+ ": " +:+ notFoundMessage)
       | GetFailed e => Err ("re-fetch backup " +:+ quoted ref +:+ ": " +:+ e)
       end.

Definition resolvedOrLiveArtifactFilename : XW S (result string) :=
  restore ← copyX;
  let ref := so_BackupRef (rx_Source (nr_Spec restore)) in
  match resolvedBackupSnapshot restore with
  | Some (snap, _) =>
      if negb (String.eqb (rr_ArtifactFilename snap) EmptyString) then mret (Ok (rr_ArtifactFilename snap))
      else liveArtifact restore ref
  | None => liveArtifact restore ref
  end.

Definition completeOnlineRestore (detail : string) : XW S xresult :=
  restore ← copyX;
  hooks ← runRestoreHooks true;
  match hooks with
  | Some e => _ ← updateRestoreStatus StatusFailed ("Post-restore hooks failed: " +:+ e); mret (XErr e)
  | None =>
      now ← getsX xw_now;
      _ ← mutateX (fun c => set_nr_Status (set_rt_Completed (Some now) (rt_Message (nr_Status c)) (nr_Status c)) c);
      _ ← updateRestoreStatus StatusCompleted ("Database " +:+ quoted (rx_Database (nr_Spec restore)) +:+ " restored online (" +:+ detail +:+ ")");
      _ ← eventX EventReasonRestoreCompleted ("Online restore completed for database " +:+ quoted (rx_Database (nr_Spec restore)));
      mret XDone
  end.

Definition pollClusterRestoreOnline : XW S xresult :=
  restore ← copyX; now ← getsX xw_now;
  let db := rx_Database (nr_Spec restore) in
  let budget := gotime.DurationString (restoreBudget restore) in
  let expired := restoreExpired now restore in
  t ← getRestoreTarget;
  client ← match t with Err e => mret (Some e) | Ok _ => askX dial end;
  match client with
  | Some e =>
      if expired then (_ ← updateRestoreStatus StatusFailed ("Restore did not converge to online within " +:+ budget +:+ ": connect failed: " +:+ e); mret XDone)
      else mret XRequeue
  | None =>
      failure ← askX (seedFailure db);
      match failure with
      | Ok (String _ _ as failMsg) =>
          let msg := "Restore of " +:+ quoted db +:+ " failed: " +:+ failMsg +:+ " — fix the cause, DROP DATABASE " +:+ db +:+ " IF EXISTS, and re-trigger" in
          _ ← updateRestoreStatus StatusFailed msg; _ ← eventX EventReasonRestoreFailed msg; mret XDone
      | _ =>
          state ← askX (onlineState db);
          let '(online, total, diag) := match state with Ok s => s | Err e => (0, 0, e) end in
          let counts := strconv.Itoa online +:+ "/" +:+ strconv.Itoa total in
          if allOnline state then
            if negb (cypherRestoreOnlineAcceptable restore now) then mret XRequeue
            else completeOnlineRestore (counts +:+ " allocations online")
          else
            _ ← match state with Ok _ => _ ← markCypherRestoreObservedOffline; mret tt | Err _ => mret tt end;
            if expired then
              _ ← updateRestoreStatus StatusFailed ("Restore did not converge to online within " +:+ budget +:+ " (" +:+ counts
                    +:+ " allocations online); last status: " +:+ diag +:+ " — increase spec.timeout for large stores");
              _ ← eventX EventReasonRestoreFailed ("Online restore for database " +:+ quoted db +:+ " did not converge online");
              mret XDone
            else mret XRequeue
      end
  end.

(** The storage and the directory to seed from; [inr]: the pass ends. *)
Definition onlineSource (restore : Neo4jRestore) : XW S (StorageLocation * string + xresult) :=
  let source := rx_Source (nr_Spec restore) in
  base ← match resolvedBackupSnapshot restore with
         | Some (snap, storage) => mret (inl (storage, rr_BackupPath snap))
         | None =>
             r ← resolveBackupRef (so_BackupRef source);
             match r with
             | inr r => mret (inl r)
             | inl (ErrBackupNotReady e) => _ ← updateRestoreStatus StatusPending ("Waiting for backup to complete: " +:+ e); mret (inr XRequeue)
             | inl e =>
                 if negb (String.eqb (so_Type source) SourceTypeBackup)
                 then mret (inl (mkStorageLocation EmptyString EmptyString EmptyString None None, EmptyString))
                 else (_ ← updateRestoreStatus StatusFailed ("Failed to resolve backupRef: " +:+ errText e); mret (inr (XErr (errText e))))
             end
         end;
  match base with
  | inr r => mret (inr r)
  | inl base =>
      if String.eqb (so_Type source) "storage" then
        match so_Storage source with
        | None => _ ← refuseRestore "source.storage is required when type=storage"; mret (inr XDone)
        | Some storage => mret (inl (storage, so_BackupPath source))
        end
      else mret (inl base)
  end.

(** The exact file of a cloud backup. *)
Definition cloudSeedURI (restore : Neo4jRestore) (dirURI : string) : XW S (string + xresult) :=
  if String.eqb (so_Type (rx_Source (nr_Spec restore))) SourceTypeBackup then
    fname ← resolvedOrLiveArtifactFilename;
    match fname with
    | Err e => _ ← updateRestoreStatus StatusFailed e; mret (inr (XErr e))
    | Ok fname => mret (inl (joinSlash (strings.TrimRight dirURI "/") fname))
    end
  else
    let uri := strings.TrimRight dirURI "/" in
    if strings.HasSuffix uri ".backup" then mret (inl uri)
    else (_ ← refuseRestore ("cluster restore with source.type=storage requires source.backupPath to be the exact .backup file; got a non-file path resolving to " +:+ quoted uri);
          mret (inr XDone)).

(** The seed, once it can be fetched; [inr]: the pass ends. The source repeats the
    waits of ensureClusterSeedConfigReady here, with messages that differ in detail. *)
Definition onlineSeedURI (standalone : bool) (target : TargetCR) (restore : Neo4jRestore) (storage : StorageLocation) (backupPath : string)
    : XW S (string + xresult) :=
  if bool_decide (sl_Type storage ∈ ["s3"; "gcs"; "azure"]) then
    match buildSeedURIFromBackupStorage storage backupPath with
    | Err e => _ ← updateRestoreStatus StatusFailed e; mret (inr (XErr e))
    | Ok dirURI =>
        uri ← cloudSeedURI restore dirURI;
        match uri with
        | inr r => mret (inr r)
        | inl uri =>
            ready ← ensureClusterSeedConfigReady standalone target storage;
            mret match ready with Some r => inr r | None => inl uri end
        end
    end
  else if String.eqb (sl_Type storage) "pvc" then
    o ← resolveClusterPVCRestoreURI storage backupPath;
    match o with
    | SeedAt uri => mret (inl uri)
    | SeedWait r => mret (inr r)
    | SeedError e => _ ← updateRestoreStatus StatusFailed e; mret (inr (XErr e))
    end
  else
    let msg := "online restore does not support storage type " +:+ quoted (sl_Type storage) +:+ " (expected s3, gcs, azure, or pvc)" in
    _ ← refuseRestore msg; mret (inr XDone).

(** The database exists: it is recreated from the seed. *)
Definition recreateOnline (standalone : bool) (restore : Neo4jRestore) (version : Version) (seedURI : string) : XW S xresult :=
  let db := rx_Database (nr_Spec restore) in
  if hasPointInTime restore then
    let msg := "database " +:+ quoted db +:+ " exists now; a point-in-time restore creates the database (seedRestoreUntil is a CREATE DATABASE option) — restore under a new name, or drop it and re-trigger the restore" in
    _ ← updateRestoreStatus StatusFailed msg; _ ← eventX EventReasonRestoreFailed msg; mret XDone
  else if negb (restoreOverwriteConfirmed restore) then
    let msg := "database " +:+ quoted db +:+ " already exists on the target " +:+ kindOf standalone
               +:+ "; a restore would WIPE and replace it. Set spec.options.replaceExisting=true to confirm, or restore to a different database" in
    announced ← refuseRestore msg;
    _ ← (if announced : bool then eventX EventReasonRestoreFailed msg else mret tt);
    mret XDone
  else
    r ← sendRecreate version db seedURI;
    match r with
    | Err e => _ ← updateRestoreStatus StatusFailed ("recreateDatabase failed: " +:+ e); mret (XErr e)
    | Ok false =>
        let msg := "Neo4j version " +:+ strconv.Itoa (Major version) +:+ "." +:+ strconv.Itoa (Minor version)
                   +:+ " doesn't support dbms.recreateDatabase; DROP DATABASE " +:+ quoted db +:+ " manually and re-run the restore" in
        _ ← updateRestoreStatus StatusFailed msg; mret (XErr msg)
    | Ok true =>
        failed ← markCypherRestoreIssued;
        match failed with
        | Some e => mret (XErr e)
        | None =>
            _ ← updateRestoreStatus StatusRunning ("Database " +:+ quoted db +:+ " recreate issued; waiting for seed to converge online (seedURI=" +:+ seedURI +:+ ")");
            mret XRequeue
        end
    end.

(** The database does not exist: it is created from the seed. *)
Definition createOnline (restore : Neo4jRestore) (seedURI : string) : XW S xresult :=
  let db := rx_Database (nr_Spec restore) in
  e ← sendCreate db seedURI (so_PointInTime (rx_Source (nr_Spec restore))) false;
  match e with
  | Some e => _ ← updateRestoreStatus StatusFailed ("CREATE DATABASE OPTIONS{seedURI} failed: " +:+ e); mret (XErr e)
  | None =>
      failure ← askX (seedFailure db);
      match failure with
      | Ok (String _ _ as failMsg) =>
          let msg := "Database " +:+ quoted db +:+ " was created but the seed FAILED: " +:+ failMsg +:+ " — fix the cause, DROP DATABASE " +:+ db
                     +:+ " IF EXISTS, and re-trigger the restore" in
          _ ← updateRestoreStatus StatusFailed msg; _ ← eventX EventReasonRestoreFailed msg; mret XDone
      | _ =>
          state ← askX (onlineState db);
          let online := match state with Ok (online, total, _) => negb (total =? 0) && (online =? total) | Err _ => false end in
          if online then completeOnlineRestore ("seedURI=" +:+ seedURI)
          else
            failed ← markCypherRestoreIssued;
            match failed with
            | Some e => mret (XErr e)
            | None => _ ← updateRestoreStatus StatusRunning ("Database " +:+ quoted db +:+ " created; waiting for the seed to converge online"); mret XRequeue
            end
      end
  end.

(** From the connection on. *)
Definition issueOnline (ref : TargetCR) (standalone : bool) (restore : Neo4jRestore) (seedURI : string) : XW S xresult :=
  client ← askX dial;
  match client with
  | Some e =>
      _ ← updateRestoreStatus StatusFailed ("Failed to connect to " +:+ kindOf standalone +:+ " " +:+ quoted (rx_InstanceRef (nr_Spec restore)) +:+ ": " +:+ e);
      mret (XErr e)
  | None =>
      there ← databaseExistsX (rx_Database (nr_Spec restore));
      match there with
      | Err e => _ ← updateRestoreStatus StatusFailed ("Database existence check failed: " +:+ e); mret (XErr e)
      | Ok there =>
          hooks ← runRestoreHooks false;
          match hooks with
          | Some e => _ ← updateRestoreStatus StatusFailed ("Pre-restore hooks failed: " +:+ e); mret (XErr e)
          | None =>
              _ ← eventX EventReasonRestoreStarted (onlineRestoreStartedMessage standalone restore there seedURI);
              if there : bool then recreateOnline standalone restore (targetVersion ref) seedURI else createOnline restore seedURI
          end
      end
  end.

Definition startClusterCypherRestore (ref : TargetCR) : XW S xresult :=
  restore ← copyX;
  if bool_decide (is_Some (nr_Annotations restore !! AnnotationCypherRestoreIssued)) then pollClusterRestoreOnline
  else
    t ← getRestoreTarget;
    match t with
    | Err e => _ ← updateRestoreStatus StatusFailed ("Target lookup failed: " +:+ e); mret (XErr e)
    | Ok (standalone, target) =>
        source ← onlineSource restore;
        match source with
        | inr r => mret r
        | inl (storage, backupPath) =>
            seed ← onlineSeedURI standalone target restore storage backupPath;
            match seed with
            | inr r => mret r
            | inl seedURI => issueOnline ref standalone restore seedURI
            end
        end
    end.

(** * The Job path *)

Definition restoreJobStartedMessage (jobName standalone offlineReason : string) (stopCluster_ : bool) : string :=
  if String.eqb offlineReason EmptyString then "Restore job " +:+ jobName +:+ " started"
  else if stopCluster_
  then "Restore job " +:+ jobName +:+ " started: restoring offline with neo4j-admin, which stops standalone " +:+ quoted standalone +:+ ": " +:+ offlineReason
  else "Restore job " +:+ jobName +:+ " started: restoring offline with neo4j-admin into standalone " +:+ quoted standalone +:+ ", which is stopped: " +:+ offlineReason.

Definition restoreClusterAfterFailure : XW S unit :=
  restore ← copyX;
  if rx_StopCluster (nr_Spec restore) then (_ ← startCluster; _ ← clearRestoreInProgressAnnotation; mret tt) else mret tt.

(** The stop of the standalone, or the check that it is stopped; [Some]: the pass
    ends. *)
Definition stopForRestore : XW S (option xresult) :=
  restore ← copyX;
  if rx_StopCluster (nr_Spec restore) then
    marked ← setRestoreInProgressAnnotation;
    match marked with
    | Some e => _ ← updateRestoreStatus StatusFailed ("Failed to coordinate cluster scale-down: " +:+ e); mret (Some (XErr e))
    | None =>
        stopped ← stopCluster;
        match stopped with
        | Some e =>
            _ ← clearRestoreInProgressAnnotation;
            _ ← updateRestoreStatus StatusFailed ("Failed to stop cluster: " +:+ e);
            mret (Some (XErr e))
        | None => mret None
        end
    end
  else
    running ← refuseRestoreIfPodsRunning;
    match running with
    | Some (ErrRefusal e) => _ ← refuseRestore e; mret (Some XDone)
    | Some e => _ ← updateRestoreStatus StatusFailed (errText e); mret (Some (XErr (errText e)))
    | None => mret None
    end.

(** The overwrite is confirmed, or there is nothing to overwrite, as far as it
    can be asked; [Some]: the pass ends. *)
Definition preflightOverwrite : XW S (option xresult) :=
  restore ← copyX;
  if restoreOverwriteConfirmed restore || rx_AllDatabases (nr_Spec restore) then mret None
  else
    stopped ← restoreAlreadyStoppedInstance;
    if stopped : bool then mret None
    else
      check ← checkDatabaseExists;
      match check with
      | None => mret None
      | Some (ErrRefusal e) => _ ← refuseRestore ("Database check failed: " +:+ e); mret (Some XDone)
      | Some e => _ ← updateRestoreStatus StatusFailed ("Database check failed: " +:+ errText e); mret (Some (XErr (errText e)))
      end.

Definition preflightHooks : XW S (option xresult) :=
  restore ← copyX;
  if hasPreRestore restore then
    stopped ← restoreAlreadyStoppedInstance;
    if stopped : bool then mret None
    else
      e ← runRestoreHooks false;
      match e with
      | Some e => _ ← updateRestoreStatus StatusFailed ("Pre-restore hooks failed: " +:+ e); mret (Some (XErr e))
      | None => mret None
      end
  else mret None.

Definition launchRestoreJob (offlineReason : string) : XW S xresult :=
  restore ← copyX;
  job ← createRestoreJob;
  match job with
  | inl (ErrBackupNotReady e) => _ ← updateRestoreStatus StatusPending ("Waiting for backup to complete: " +:+ e); mret XRequeue
  | inl (ErrStaleJob e) => _ ← updateRestoreStatus StatusPending ("Waiting for the previous attempt's Job to finish terminating: " +:+ e); mret XRequeue
  | inl e =>
      _ ← restoreClusterAfterFailure;
      _ ← updateRestoreStatus StatusFailed ("Failed to create restore job: " +:+ errText e);
      mret (XErr (errText e))
  | inr _ =>
      announced ← transitionRestoreStatus StatusRunning ("Restore job " +:+ restoreJobName restore +:+ " created");
      _ ← (if announced : bool
           then eventX EventReasonRestoreStarted (restoreJobStartedMessage (restoreJobName restore) (rx_InstanceRef (nr_Spec restore)) offlineReason (rx_StopCluster (nr_Spec restore)))
           else mret tt);
      mret XRequeue
  end.

(** The steps before the Job, each of which may end the pass. *)
Definition offlineRestore : XW S xresult :=
  standalone ← restoreStandalone; restore ← copyX;
  let offlineReason := standaloneOfflineReason restore standalone in
  refused ← preflightOverwrite;
  match refused with
  | Some r => mret r
  | None =>
      hooks ← preflightHooks;
      match hooks with
      | Some r => mret r
      | None =>
          running ← stopForRestore;
          match running with
          | Some r => mret r
          | None => launchRestoreJob offlineReason
          end
      end
  end.

(** A new generation drops what the last attempt left; [Some]: an error. *)
Definition freshAttempt : XW S (option string) :=
  restore ← copyX;
  let st := nr_Status restore in
  e ← (if negb (rt_ObservedGeneration st =? 0) && negb (rt_ObservedGeneration st =? nr_Generation restore) then
         e ← clearCypherRestoreIssued;
         match e with Some e => mret (Some e) | None => clearSeedProxyWaitStarted end
       else mret None);
  match e with
  | Some e => mret (Some e)
  | None =>
      restore ← copyX;
      match resolvedBackupSnapshot restore with
      | Some (snap, _) =>
          if String.eqb (so_Type (rx_Source (nr_Spec restore))) SourceTypeBackup
             && negb (String.eqb (rr_BackupRef snap) (so_BackupRef (rx_Source (nr_Spec restore))))
          then clearResolvedSource else mret None
      | None => mret None
      end
  end.

Definition startRestore (ref : TargetCR) : XW S xresult :=
  stale ← freshAttempt;
  match stale with
  | Some e => mret (XErr e)
  | None =>
      now ← getsX xw_now;
      _ ← mutateX (fun c => set_nr_Status (set_rt_Started (Some now) (nr_Generation c) (nr_Status c)) c);
      invalid ← validateRestore;
      match invalid with
      | Some (ErrAPI e) => _ ← updateRestoreStatus StatusFailed ("Validation failed: " +:+ e); mret (XErr e)
      | Some e => _ ← refuseRestore ("Validation failed: " +:+ errText e); mret XDone
      | None =>
          pinned ← ensureResolvedBackupSource;
          match pinned with
          | Some r => mret r
          | None =>
              decided ← decidePointInTimePath;
              match decided with
              | Some r => mret r
              | None =>
                  isCluster ← isRestoreTargetTrueCluster;
                  match isCluster with
                  | Err e => _ ← updateRestoreStatus StatusFailed ("Target lookup failed: " +:+ e); mret (XErr e)
                  | Ok isCluster =>
                      onJob ← restoreOnJobPathX isCluster;
                      restore ← copyX;
                      if onJob : bool then offlineRestore
                      else if rx_AllDatabases (nr_Spec restore) then startAllDatabasesRestore ref
                      else startClusterCypherRestore ref
                  end
              end
          end
      end
  end.

(** [updateRestoreStats]: an Update of the pass's copy, which goes through only
    while the stored restore is the one it was read from. *)
Definition updateRestoreStats (job : RestoreJob) : XW S unit :=
  _ ← mutateX (fun c => let st := nr_Status c in
        set_nr_Status (set_rt_Completed (match rj_CompletionTime job with Some t => Some t | None => rt_CompletionTime st end)
                         (match rj_LastMessage job with Some m => m | None => rt_Message st end) st) c);
  fault ← apiX; fresh ← getsX xw_fresh; copy ← copyX;
  match fault with
  | None => if fresh : bool then modifyX (fun w => set_xw_stored (set_nr_Status (nr_Status copy) (xw_stored w)) w) else mret tt
  | Some _ => mret tt
  end.

Definition createOrStartDatabase : XW S (option string) :=
  restore ← copyX; client ← dialStandalone;
  match client with
  | Some e => mret (Some ("failed to create Neo4j client: " +:+ e))
  | None =>
      there ← databaseExistsX (rx_Database (nr_Spec restore));
      match there with
      | Err e => mret (Some ("failed to check database existence: " +:+ e))
      | Ok true => askX (startDatabase (rx_Database (nr_Spec restore)))
      | Ok false => _ ← logX (RegisterSent (rx_Database (nr_Spec restore))); askX (createDatabase (rx_Database (nr_Spec restore)))
      end
  end.

(** Neo4j's own id of the first server, by its address. *)
Definition seedServer (name : string) (servers : list (string * string)) : list string :=
  match List.find (fun s => strings.Contains s.1 (name +:+ "-server-0")) servers with
  | Some s => if String.eqb s.2 EmptyString then [] else [s.2]
  | None => []
  end.

Definition recreateRestoredDatabaseOnCluster (ref : TargetCR) : XW S (option string) :=
  restore ← copyX;
  if tg_Servers ref <? 2 then mret None
  else if String.eqb (RecreateDatabaseProcedure (targetVersion ref)) EmptyString then mret None
  else
    client ← askX dial;
    match client with
    | Some e => mret (Some ("failed to create Neo4j client for recreate: " +:+ e))
    | None =>
        servers ← askX listServerAddresses;
        match servers with
        | Err e => mret (Some ("failed to list servers for recreate seed: " +:+ e))
        | Ok servers =>
            let seeders := seedServer (rx_InstanceRef (nr_Spec restore)) servers in
            _ ← logX (ReseedSent (rx_Database (nr_Spec restore)) seeders);
            r ← askX (recreateFrom (targetVersion ref) (rx_Database (nr_Spec restore)) seeders);
            mret match r with Err e => Some e | Ok _ => None end
        end
    end.

(** The standalone back and serving; [Some]: the pass ends. *)
Definition resumeCluster (ref : TargetCR) : XW S (option xresult) :=
  restore ← copyX;
  if rx_StopCluster (nr_Spec restore) then
    e ← startCluster;
    match e with
    | Some e => _ ← updateRestoreStatus StatusFailed ("Failed to start cluster after restore: " +:+ e); mret (Some (XErr e))
    | None =>
        _ ← clearRestoreInProgressAnnotation;
        e ← waitForClusterReady (tg_Servers ref);
        match e with
        | Some e => _ ← updateRestoreStatus StatusFailed ("Cluster not ready after restore: " +:+ e); mret (Some (XErr e))
        | None => mret None
        end
    end
  else mret None.

Definition handleRestoreSuccess (ref : TargetCR) (job : RestoreJob) : XW S xresult :=
  now ← getsX xw_now;
  _ ← mutateX (fun c => set_nr_Status (set_rt_Completed (Some now) (rt_Message (nr_Status c)) (nr_Status c)) c);
  _ ← updateRestoreStats job;
  resumed ← resumeCluster ref;
  match resumed with
  | Some r => mret r
  | None =>
      restore ← copyX;
      e ← (if rx_AllDatabases (nr_Spec restore) then registerAllDatabasesAfterRestore else createOrStartDatabase);
      _ ← match e with
          | Some e => eventX EventReasonDatabaseCreateFailed
                        (if rx_AllDatabases (nr_Spec restore) then "All-databases restore: one or more databases failed to come online: " +:+ e
                         else "Restore succeeded but failed to create database " +:+ quoted (rx_Database (nr_Spec restore)) +:+ ": " +:+ e)
          | None => mret tt
          end;
      hooks ← runRestoreHooks true;
      match hooks with
      | Some e => _ ← updateRestoreStatus StatusFailed ("Post-restore hooks failed: " +:+ e); mret (XErr e)
      | None =>
          e ← (if rx_AllDatabases (nr_Spec restore) then mret None else recreateRestoredDatabaseOnCluster ref);
          _ ← match e with
              | Some e => eventX EventReasonDatabaseCreateFailed
                            ("Restore succeeded but recreate-from-seed failed for " +:+ quoted (rx_Database (nr_Spec restore)) +:+ ": " +:+ e)
              | None => mret tt
              end;
          _ ← updateRestoreStatus StatusCompleted "Restore completed successfully";
          _ ← eventX EventReasonRestoreCompleted "Restore completed successfully";
          mret XDone
      end
  end.

(** A restore whose Job cannot bring it to an end any more. *)
Definition failRestoreJob (message event : string) : XW S xresult :=
  _ ← restoreClusterAfterFailure;
  _ ← updateRestoreStatus StatusFailed message;
  _ ← eventX EventReasonRestoreFailed event;
  mret XDone.

Definition checkRestoreJob (ref : TargetCR) : XW S xresult :=
  job ← getJob;
  match job with
  | NotFound => failRestoreJob "restore Job disappeared before completion was observed (TTL-collected); re-create the Neo4jRestore to retry"
                  "restore Job disappeared before completion was observed"
  | GetFailed e => mret (XErr e)
  | Found job =>
      if rj_Complete job || (0 <? rj_Succeeded job) then _ ← logX JobEnded; handleRestoreSuccess ref job
      else if rj_Failed job then
        _ ← restoreClusterAfterFailure;
        msg ← askX jobFailure;
        _ ← updateRestoreStatus StatusFailed msg; _ ← eventX EventReasonRestoreFailed msg; mret XDone
      else mret XRequeue
  end.

Definition checkRestoreProgress (ref : TargetCR) : XW S xresult :=
  restore ← copyX;
  if bool_decide (is_Some (nr_Annotations restore !! AnnotationCypherRestoreIssued)) then pollClusterRestoreOnline
  else
    isCluster ← isRestoreTargetTrueCluster;
    onJob ← match isCluster with Ok isCluster => restoreOnJobPathX isCluster | Err _ => mret true end;
    if onJob : bool then checkRestoreJob ref else startClusterCypherRestore ref.

(** * Reconcile *)

Definition routeToProgress : XW S bool :=
  restore ← copyX;
  if negb (String.eqb (rt_Phase (nr_Status restore)) StatusRunning) then mret false
  else if negb (rx_AllDatabases (nr_Spec restore)) then mret true
  else
    isCluster ← isRestoreTargetTrueCluster;
    match isCluster with Ok isCluster => restoreOnJobPathX isCluster | Err _ => mret false end.

(** [cleanupRestoreJobs]. *)
Definition cleanupRestoreJobs : XW S (option string) :=
  listed ← apiX;
  match listed with
  | Some e => mret (Some e)
  | None =>
      job ← getsX xw_job;
      match job with
      | None => mret None
      | Some _ => fault ← apiX;
                  match fault with
                  | Some e => mret (Some e)
                  | None => _ ← modifyX (set_xw_job None); _ ← logX JobDeleted; mret None
                  end
      end
  end.

(** addFinalizer and removeFinalizer (ObjectPatch.v), as one write. *)
Definition writeFinalizers (f : list string -> list string) : XW S (option string) :=
  fault ← apiX;
  match fault with
  | Some e => mret (Some e)
  | None => _ ← modifyX (fun w => set_xw_fresh false (set_xw_stored (set_nr_Finalizers (f (nr_Finalizers (xw_stored w))) (xw_stored w)) w)); mret None
  end.

Definition errorOr (e : option string) : xresult := match e with Some e => XErr e | None => XDone end.

Definition handleRestoreDeletion : XW S xresult :=
  restore ← copyX;
  if negb (bool_decide (RestoreFinalizer ∈ nr_Finalizers restore)) then mret XDone
  else
    e ← cleanupRestoreJobs;
    match e with
    | Some e => mret (XErr e)
    | None =>
        _ ← modifyX (fun w => set_xw_env (teardownSeedProxy (xw_env w)) w);
        _ ← logX ProxyTornDown;
        e ← (if String.eqb (rx_InstanceRef (nr_Spec restore)) EmptyString then mret None else clearRestoreInProgressAnnotation);
        match e with
        | Some e => mret (XErr e)
        | None => e ← writeFinalizers (List.filter (fun f => negb (String.eqb f RestoreFinalizer))); mret (errorOr e)
        end
    end.

(** A restore that was read. *)
Definition ReconcileRestore : XW S xresult :=
  restore ← copyX;
  if nr_Deleting restore then handleRestoreDeletion
  else if negb (bool_decide (RestoreFinalizer ∈ nr_Finalizers restore)) then
    e ← writeFinalizers (fun l => l ++ [RestoreFinalizer]); mret (errorOr e)
  else if restoreEndedAtGeneration restore then mret XDone
  else if String.eqb (rx_InstanceRef (nr_Spec restore)) EmptyString then
    _ ← refuseRestore "spec.instanceRef is required"; mret XDone
  else
    ref ← getClusterRef;
    match ref with
    | NotFound =>
        let msg := "Waiting for target to appear: target " +:+ quoted (rx_InstanceRef (nr_Spec restore))
                   +:+ " not found as Neo4jEnterpriseCluster or Neo4jEnterpriseStandalone: " +:+ notFoundMessage in
        announced ← transitionRestoreStatus StatusPending msg;
        _ ← (if announced : bool then eventX EventReasonClusterNotFound msg else mret tt);
        mret XRequeue
    | GetFailed e =>
        let msg := "target " +:+ quoted (rx_InstanceRef (nr_Spec restore)) +:+ " not found as Neo4jEnterpriseCluster or Neo4jEnterpriseStandalone: " +:+ e in
        _ ← updateRestoreStatus StatusFailed ("Failed to get target cluster: " +:+ msg); mret (XErr msg)
    | Found ref =>
        let bad := if String.eqb (tg_ImageTag ref) EmptyString then Some "Neo4j image tag is not specified" else validateVersion (tg_ImageTag ref) in
        match bad with
        | Some e => _ ← refuseRestore ("Neo4j version not supported: " +:+ e); mret XDone
        | None =>
            progress ← routeToProgress;
            if progress : bool then checkRestoreProgress ref else startRestore ref
        end
    end.
End Pass.
