(* ===== verification/RestoreSafety.v ===== *)
(** What a pass of the restore controller may do to the data it finds, read off the
    pass's log ([okLog]): a Job starts only while no pod of the standalone is left,
    and a database is overwritten only when the spec confirms it or nothing was
    there. *)
From S2P Require Import Prelude GoStrings GoTime GoRFC3339 ClusterTypes Conditions UpgradeRecord Version UpgradeMachine TargetWait BackupTypes RestoreTypes RestoreCommand RestoreWorld RestoreSeed RestoreAll RestorePass.

Open Scope Z_scope.

(** * The log *)

(** The last listing of the standalone's pods, if nothing was scaled since. *)
Fixpoint podsLast (log : list restoreAction) : option nat :=
  match log with
  | [] => None
  | PodsSeen n :: _ => Some n
  | ScaledTo _ _ :: _ => None
  | _ :: log' => podsLast log'
  end.

(** The last answer whether the database exists. *)
Fixpoint seenLast (db : string) (log : list restoreAction) : option bool :=
  match log with
  | [] => None
  | DatabaseSeen db' there :: log' => if String.eqb db' db then Some there else seenLast db log'
  | _ :: log' => seenLast db log'
  end.

Definition heldSeen (log : list restoreAction) : bool := existsb (fun a => match a with HeldSeen => true | _ => false end) log.

(** The pass found the restore's Job ended, with success. *)
Definition sawJobEnd (log : list restoreAction) : bool := existsb (fun a => match a with JobEnded => true | _ => false end) log.

(** Nothing is overwritten that the spec does not confirm: it does, or the
    database was not there, or this restore stopped the standalone in an earlier
    pass. *)
Definition overwriteJustified (restore : Neo4jRestore) (log : list restoreAction) : bool :=
  restoreOverwriteConfirmed restore || rx_AllDatabases (nr_Spec restore) || heldSeen log
  || bool_decide (seenLast (rx_Database (nr_Spec restore)) log = Some false).

(** The action, given what came before. *)
Definition okAction (restore : Neo4jRestore) (a : restoreAction) (before : list restoreAction) : bool :=
  let all := rx_AllDatabases (nr_Spec restore) in
  let its := fun db => all || String.eqb db (rx_Database (nr_Spec restore)) in
  match a with
  | JobCreated _ => bool_decide (podsLast before = Some O) && overwriteJustified restore before
  | RecreateSent db _ =>
      its db && restoreOverwriteConfirmed restore && bool_decide (seenLast db before = Some true) && (all || negb (hasPointInTime restore))
  | CreateSent db _ until =>
      its db && bool_decide (seenLast db before = Some false)
      && (all || bool_decide (until = so_PointInTime (rx_Source (nr_Spec restore))))
  | RegisterSent db => its db && sawJobEnd before && bool_decide (seenLast db before = Some false)
  | ReseedSent db _ => negb all && String.eqb db (rx_Database (nr_Spec restore)) && sawJobEnd before
  | ScaledTo _ _ => rx_StopCluster (nr_Spec restore)
  | _ => true
  end.

Fixpoint okLog (restore : Neo4jRestore) (log : list restoreAction) : bool :=
  match log with [] => true | a :: log' => okAction restore a log' && okLog restore log' end.

(** * Steps that only note things down *)

Definition quietAction (a : restoreAction) : bool :=
  match a with HeldSeen | JobEnded | HooksRan _ | JobDeleted | StatusWritten _ | ProxyTornDown => true | _ => false end.

Lemma podsLast_quiet new log : forallb quietAction new = true -> podsLast (new ++ log) = podsLast log.
Proof. induction new as [|a new IH]; [done|]. cbn. intros [Ha Hn]%andb_true_iff. by destruct a; try done; apply IH. Qed.

Lemma seenLast_quiet db new log : forallb quietAction new = true -> seenLast db (new ++ log) = seenLast db log.
Proof. induction new as [|a new IH]; [done|]. cbn. intros [Ha Hn]%andb_true_iff. by destruct a; try done; apply IH. Qed.

Lemma okLog_quiet restore new log : forallb quietAction new = true -> okLog restore (new ++ log) = okLog restore log.
Proof. induction new as [|a new IH]; [done|]. cbn. intros [Ha Hn]%andb_true_iff. rewrite IH by done. by destruct a. Qed.

Lemma heldSeen_app new log : heldSeen (new ++ log) = heldSeen new || heldSeen log.
Proof. apply existsb_app. Qed.

(** What a pass never changes of its restore. *)
Definition ident (r : Neo4jRestore) : string * string * Z * Neo4jRestoreSpec := (nr_Name r, nr_UID r, nr_Generation r, nr_Spec r).

Section Silence.
Context {S : Type} `{!RestoreEnv S}.

Record still (w w' : RestoreWorld S) : Prop := mkStill {
  still_ident : ident (xw_restore w') = ident (xw_restore w);
  still_sets : xw_sets w' = xw_sets w;
  still_log : exists new, xw_log w' = new ++ xw_log w /\ forallb quietAction new = true
}.

#[global] Instance still_preorder : PreOrder still.
Proof.
  split.
  - intros w. split; [done|done|by exists []].
  - intros w1 w2 w3 [H1 S1 (n1 & E1 & Q1)] [H2 S2 (n2 & E2 & Q2)]. split; [congruence|congruence|]. exists (n2 ++ n1).
    rewrite E2, E1, app_assoc, forallb_app, Q1, Q2. done.
Qed.

Definition silent {A} (m : XW S A) : Prop := forall w r w', m w = (r, w') -> still w w'.

Lemma silent_ret {A} (a : A) : silent (mret a).
Proof. by intros w r w' [= _ <-]. Qed.

Lemma silent_bind {A B} (m : XW S A) (f : A -> XW S B) : silent m -> (forall a, silent (f a)) -> silent (m ≫= f).
Proof.
  intros Hm Hf w r w'. unfold mbind, XW_bind. destruct (m w) as [a w1] eqn:E. intros H.
  transitivity w1; [by apply (Hm w a)|by apply (Hf a w1 r)].
Qed.

Lemma silent_gets {A} (f : RestoreWorld S -> A) : silent (getsX f).
Proof. by intros w r w' [= _ <-]. Qed.

Lemma silent_modify f :
  (forall w, xw_restore (f w) = xw_restore w /\ xw_sets (f w) = xw_sets w /\ xw_log (f w) = xw_log w) -> silent (modifyX f).
Proof. intros H w r w' [= _ <-]. destruct (H w) as (H1 & H2 & H3). split; [by rewrite H1|done|exists []; by rewrite H3]. Qed.

Lemma silent_mutate f : (forall c, ident (f c) = ident c) -> silent (mutateX f).
Proof. intros H w r w' [= _ <-]. split; [apply H|done|by exists []]. Qed.

Lemma silent_log a : quietAction a = true -> silent (logX a).
Proof. intros Ha w r w' [= _ <-]. split; [done|done|]. exists [a]. cbn. by rewrite Ha. Qed.

Lemma silent_event reason message : silent (eventX reason message).
Proof. by apply silent_modify. Qed.

Lemma silent_ask {A} (call : S -> A * S) : silent (askX call).
Proof. intros w r w'. unfold askX. destruct (call _) as [a s]. intros [= _ <-]. split; [done|done|by exists []]. Qed.

Lemma silent_api : silent apiX.
Proof. intros w r w'. unfold apiX. destruct (xw_faults w) as [|f l]; intros [= _ <-]; split; done || by exists []. Qed.

Lemma nextAttemptX_still w a w' : nextAttemptX w = (a, w') -> still w w' /\ xw_stored w' = xw_stored w.
Proof. unfold nextAttemptX. destruct (xw_attempts w) as [|x l]; intros [= _ <-]; split; try done; split; done || by exists []. Qed.

Lemma silent_retry {A} n (f : Neo4jRestore -> option Neo4jRestore * A) : silent (retryX n f).
Proof.
  induction n as [|n IH]; intros w r w'; cbn [retryX]; [by intros [= _ <-]|].
  destruct (nextAttemptX w) as [a w1] eqn:E. destruct (nextAttemptX_still _ _ _ E) as [Ha _].
  destruct a as [|e|e|seen]; [|by intros [= _ <-]| |].
  - destruct (f (xw_stored w1)) as [[r'|] v]; intros [= _ <-]; [|done]. transitivity w1; [done|]. split; [done|done|by exists []].
  - by destruct (f (xw_stored w1)) as [[r'|] v]; intros [= _ <-].
  - destruct (f seen) as [[r'|] v]; intros H; [|by injection H as _ <-]. transitivity w1; [done|by apply (IH w1 r)].
Qed.

Lemma silent_standalone n absent f : silent (retryStandalone n absent f).
Proof.
  induction n as [|n IH]; intros w r w'; cbn [retryStandalone]; [by intros [= _ <-]|].
  destruct (nextMarkX w) as [a w1] eqn:E.
  assert (still w w1) as Ha by (revert E; unfold nextMarkX; destruct (xw_marks w); intros [= _ <-]; split; done || by exists []).
  destruct a as [|e|e|seen], (xw_standalone w1) as [s|] eqn:Es;
    repeat match goal with |- context [f ?x] => destruct (f x) as [[?|]|?] end;
    try (intros [= _ <-]; first [done | transitivity w1; [done|]; split; [done|done|by exists []]]).
  intros H. transitivity w1; [done|by apply (IH w1 r)].
Qed.
End Silence.

Create HintDb silent.
#[export] Hint Resolve silent_ret silent_gets silent_event silent_ask silent_api silent_retry silent_standalone : silent.

(** Take a handler apart at its binds and branches. *)
Ltac hush :=
  repeat match goal with
    | |- silent (let _ := _ in _) => cbv zeta
    | |- silent (_ ≫= _) => apply silent_bind; [|intros ?]
    | |- silent (let '(_, _) := ?x in _) => destruct x
    | |- silent (if ?b then _ else _) => destruct b
    | |- silent (match ?x with _ => _ end) => destruct x
    | |- silent (modifyX _) => apply silent_modify; by intros ?
    | |- silent (mutateX _) => apply silent_mutate; intros ?; repeat case_match; done
    | |- silent (logX _) => by apply silent_log
    | _ => solve [eauto with silent]
    end.

Section SilentSteps.
Context {S : Type} `{!RestoreEnv S}.

Lemma silent_transition phase message : silent (S := S) (transitionRestoreStatus phase message).
Proof. unfold transitionRestoreStatus. hush. Qed.
Lemma silent_update phase message : silent (S := S) (updateRestoreStatus phase message).
Proof. unfold updateRestoreStatus. apply silent_bind; [apply silent_transition|intros; hush]. Qed.
Lemma silent_refuse message : silent (S := S) (refuseRestore message).
Proof. apply silent_transition. Qed.
#[local] Hint Resolve silent_transition silent_update silent_refuse : silent.

Lemma silent_clearAnnotations keys : silent (S := S) (clearAnnotations keys).
Proof. unfold clearAnnotations. hush. Qed.
Lemma silent_setAnnotation key value : silent (S := S) (setRestoreAnnotation key value).
Proof. unfold setRestoreAnnotation. hush. Qed.
#[local] Hint Resolve silent_clearAnnotations silent_setAnnotation : silent.

Lemma silent_markIssued : silent (S := S) markCypherRestoreIssued.
Proof. unfold markCypherRestoreIssued. hush. Qed.
Lemma silent_markOffline : silent (S := S) markCypherRestoreObservedOffline.
Proof. unfold markCypherRestoreObservedOffline, copyX. hush. Qed.
Lemma silent_clearResolved : silent (S := S) clearResolvedSource.
Proof. unfold clearResolvedSource. hush. Qed.
Lemma silent_persist snapshot : silent (S := S) (persistResolvedSource snapshot).
Proof. unfold persistResolvedSource. hush. Qed.
#[local] Hint Resolve silent_markIssued silent_markOffline silent_clearResolved silent_persist : silent.

Lemma silent_getCluster : silent (S := S) getCluster.
Proof. unfold getCluster. hush. Qed.
Lemma silent_getStandalone : silent (S := S) getStandalone.
Proof. unfold getStandalone. hush. Qed.
Lemma silent_getSet name : silent (S := S) (getSet name).
Proof. unfold getSet. hush. Qed.
Lemma silent_getJob : silent (S := S) getJob.
Proof. unfold getJob. hush. Qed.
Lemma silent_copy : silent (S := S) copyX.
Proof. apply silent_gets. Qed.
#[local] Hint Resolve silent_getCluster silent_getStandalone silent_getSet silent_getJob silent_copy : silent.

Lemma silent_isTrueCluster : silent (S := S) isRestoreTargetTrueCluster.
Proof. unfold isRestoreTargetTrueCluster. hush. Qed.
Lemma silent_getTarget : silent (S := S) getRestoreTarget.
Proof. unfold getRestoreTarget. hush. Qed.
Lemma silent_getClusterRef : silent (S := S) getClusterRef.
Proof. unfold getClusterRef. hush. Qed.
Lemma silent_restoreStandalone : silent (S := S) restoreStandalone.
Proof. unfold restoreStandalone. hush. Qed.
#[local] Hint Resolve silent_isTrueCluster silent_getTarget silent_getClusterRef silent_restoreStandalone : silent.

Lemma silent_onJobPath isCluster : silent (S := S) (restoreOnJobPathX isCluster).
Proof. unfold restoreOnJobPathX. hush. Qed.
Lemma silent_alreadyStopped : silent (S := S) restoreAlreadyStoppedInstance.
Proof. unfold restoreAlreadyStoppedInstance. hush. Qed.
Lemma silent_setMarker : silent (S := S) setRestoreInProgressAnnotation.
Proof. unfold setRestoreInProgressAnnotation. hush. Qed.
Lemma silent_clearMarker : silent (S := S) clearRestoreInProgressAnnotation.
Proof. unfold clearRestoreInProgressAnnotation. hush. Qed.
Lemma silent_resolveSetName : silent (S := S) resolveStatefulSetName.
Proof. unfold resolveStatefulSetName. hush. Qed.
Lemma silent_dialStandalone : silent (S := S) dialStandalone.
Proof. unfold dialStandalone. hush. Qed.
#[local] Hint Resolve silent_onJobPath silent_alreadyStopped silent_setMarker silent_clearMarker silent_resolveSetName silent_dialStandalone : silent.

Lemma silent_waitJobGone n : silent (S := S) (waitJobGone n).
Proof. induction n; cbn [waitJobGone]; hush. Qed.
#[local] Hint Resolve silent_waitJobGone : silent.
Lemma silent_clearEarlier : silent (S := S) clearEarlierRestoreJob.
Proof. unfold clearEarlierRestoreJob. hush. Qed.
Lemma silent_resolveBackup ref : silent (S := S) (resolveBackupRef ref).
Proof. unfold resolveBackupRef. hush. Qed.
#[local] Hint Resolve silent_clearEarlier silent_resolveBackup : silent.
Lemma silent_resolveSource restore : silent (S := S) (resolveSourceX restore).
Proof. unfold resolveSourceX. hush. Qed.
Lemma silent_buildCommand restore : silent (S := S) (buildCommandX restore).
Proof. unfold buildCommandX. hush. Qed.
#[local] Hint Resolve silent_resolveSource silent_buildCommand : silent.

Lemma silent_hooks post : silent (S := S) (runRestoreHooks post).
Proof. unfold runRestoreHooks. hush. Qed.
Lemma silent_setResults results : silent (S := S) (setCopyResults results).
Proof. unfold setCopyResults. hush. Qed.
Lemma silent_copyResults : silent (S := S) copyResults.
Proof. unfold copyResults. hush. Qed.
#[local] Hint Resolve silent_hooks silent_setResults silent_copyResults : silent.
Lemma silent_markResult db phase message : silent (S := S) (markDatabaseResult db phase message).
Proof. unfold markDatabaseResult. hush. Qed.
#[local] Hint Resolve silent_markResult : silent.
Lemma silent_noteProgress db message : silent (S := S) (noteDatabaseProgress db message).
Proof. unfold noteDatabaseProgress. hush. Qed.
Lemma silent_guard db : silent (S := S) (issueGuardAllowsRecreate db).
Proof. unfold issueGuardAllowsRecreate. hush. Qed.
Lemma silent_awaitTarget standalone cause : silent (S := S) (awaitAllDatabasesTarget standalone cause).
Proof. unfold awaitAllDatabasesTarget. hush. Qed.
Lemma silent_answered : silent (S := S) allDatabasesTargetAnswered.
Proof. unfold allDatabasesTargetAnswered. hush. Qed.
Lemma silent_ensureResults dbs : silent (S := S) (ensureDatabaseResults dbs).
Proof. unfold ensureDatabaseResults. hush. Qed.
#[local] Hint Resolve silent_noteProgress silent_guard silent_awaitTarget silent_answered silent_ensureResults : silent.
Lemma silent_finishAll : silent (S := S) finishAllDatabasesRestore.
Proof. unfold finishAllDatabasesRestore. hush. Qed.
Lemma silent_pollDatabase db : silent (S := S) (pollDatabase db).
Proof. unfold pollDatabase. hush. Qed.
Lemma silent_preHooks : silent (S := S) preHooksOnce.
Proof. unfold preHooksOnce, markRestorePreHooksRan. hush. Qed.
#[local] Hint Resolve silent_finishAll silent_pollDatabase silent_preHooks : silent.

Lemma silent_awaitSeedConfig standalone missing : silent (S := S) (awaitSeedConfig standalone missing).
Proof. unfold awaitSeedConfig. hush. Qed.
Lemma silent_waitPending message : silent (S := S) (waitPending message).
Proof. unfold waitPending. hush. Qed.
#[local] Hint Resolve silent_awaitSeedConfig silent_waitPending : silent.
Lemma silent_awaitIdentity standalone storage : silent (S := S) (awaitSeedIdentity standalone storage).
Proof. unfold awaitSeedIdentity. hush. Qed.
#[local] Hint Resolve silent_awaitIdentity : silent.
Lemma silent_seedConfig standalone target storage : silent (S := S) (ensureClusterSeedConfigReady standalone target storage).
Proof. unfold ensureClusterSeedConfigReady, awaitRollout. hush. Qed.
Lemma silent_markWait : silent (S := S) markSeedProxyWaitStarted.
Proof. unfold markSeedProxyWaitStarted. hush. Qed.
#[local] Hint Resolve silent_seedConfig silent_markWait : silent.
Lemma silent_waitStart : silent (S := S) seedProxyWaitStart.
Proof. unfold seedProxyWaitStart. hush. Qed.
#[local] Hint Resolve silent_waitStart : silent.
Lemma silent_awaitProxy pvc p : silent (S := S) (awaitProxy pvc p).
Proof. unfold awaitProxy, clearSeedProxyWaitStarted. hush. Qed.
#[local] Hint Resolve silent_awaitProxy : silent.
Lemma silent_pvcFile restore path : silent (S := S) (pvcSeedFile restore path).
Proof. unfold pvcSeedFile. hush. Qed.
#[local] Hint Resolve silent_pvcFile : silent.
Lemma silent_pvcURI storage path : silent (S := S) (resolveClusterPVCRestoreURI storage path).
Proof. unfold resolveClusterPVCRestoreURI. hush. Qed.
Lemma silent_pvcReady storage seeds : silent (S := S) (ensurePVCSeedProxyReady storage seeds).
Proof. unfold ensurePVCSeedProxyReady. hush. Qed.
#[local] Hint Resolve silent_pvcURI silent_pvcReady : silent.
Lemma silent_allSeeds standalone target snap storage : silent (S := S) (allDatabasesSeeds standalone target snap storage).
Proof. unfold allDatabasesSeeds. hush. Qed.

Lemma silent_liveArtifact restore ref : silent (S := S) (liveArtifact restore ref).
Proof. unfold liveArtifact. hush. Qed.
#[local] Hint Resolve silent_liveArtifact : silent.
Lemma silent_artifact : silent (S := S) resolvedOrLiveArtifactFilename.
Proof. unfold resolvedOrLiveArtifactFilename. hush. Qed.
#[local] Hint Resolve silent_artifact : silent.
Lemma silent_onlineSource restore : silent (S := S) (onlineSource restore).
Proof. unfold onlineSource. hush. Qed.
Lemma silent_cloudURI restore dir : silent (S := S) (cloudSeedURI restore dir).
Proof. unfold cloudSeedURI. hush. Qed.
#[local] Hint Resolve silent_cloudURI : silent.
Lemma silent_onlineURI standalone target restore storage path : silent (S := S) (onlineSeedURI standalone target restore storage path).
Proof. unfold onlineSeedURI. hush. Qed.
Lemma silent_complete detail : silent (S := S) (completeOnlineRestore detail).
Proof. unfold completeOnlineRestore. hush. Qed.
#[local] Hint Resolve silent_complete : silent.
Lemma silent_poll : silent (S := S) pollClusterRestoreOnline.
Proof. unfold pollClusterRestoreOnline. hush. Qed.

Lemma silent_backupError restore : silent (S := S) (backupSourceError restore).
Proof. unfold backupSourceError. hush. Qed.
Lemma silent_pitrError restore : silent (S := S) (pitrSourceError restore).
Proof. unfold pitrSourceError. hush. Qed.
#[local] Hint Resolve silent_backupError silent_pitrError : silent.
Lemma silent_sourceError restore : silent (S := S) (sourceError restore).
Proof. unfold sourceError. hush. Qed.
#[local] Hint Resolve silent_sourceError : silent.
Lemma silent_validate : silent (S := S) validateRestore.
Proof. unfold validateRestore, clusterPointInTimeError, shardedError. hush. Qed.
Lemma silent_ensureResolved : silent (S := S) ensureResolvedBackupSource.
Proof. unfold ensureResolvedBackupSource. hush. Qed.
Lemma silent_freshAttempt : silent (S := S) freshAttempt.
Proof. unfold freshAttempt, clearCypherRestoreIssued, clearSeedProxyWaitStarted. hush. Qed.
Lemma silent_stats job : silent (S := S) (updateRestoreStats job).
Proof. unfold updateRestoreStats. hush. Qed.
Lemma silent_route : silent (S := S) routeToProgress.
Proof. unfold routeToProgress. hush. Qed.
Lemma silent_cleanup : silent (S := S) cleanupRestoreJobs.
Proof. unfold cleanupRestoreJobs. hush. Qed.
Lemma silent_finalizers f : silent (S := S) (writeFinalizers f).
Proof. unfold writeFinalizers. hush. Qed.
#[local] Hint Resolve silent_cleanup silent_finalizers : silent.
Lemma silent_deletion : silent (S := S) handleRestoreDeletion.
Proof. unfold handleRestoreDeletion. hush. Qed.
Lemma silent_preflightHooks : silent (S := S) preflightHooks.
Proof. unfold preflightHooks. hush. Qed.
End SilentSteps.

#[export] Hint Resolve silent_transition silent_update silent_refuse silent_clearAnnotations silent_setAnnotation silent_markIssued silent_markOffline
  silent_clearResolved silent_persist silent_getCluster silent_getStandalone silent_getSet silent_getJob silent_copy silent_isTrueCluster silent_getTarget
  silent_getClusterRef silent_restoreStandalone silent_onJobPath silent_alreadyStopped silent_setMarker silent_clearMarker silent_resolveSetName
  silent_dialStandalone silent_waitJobGone silent_clearEarlier silent_resolveBackup silent_resolveSource silent_buildCommand silent_hooks silent_setResults
  silent_copyResults silent_markResult silent_noteProgress silent_guard silent_awaitTarget silent_answered silent_ensureResults silent_finishAll
  silent_pollDatabase silent_preHooks silent_awaitSeedConfig silent_waitPending silent_awaitIdentity silent_seedConfig silent_pvcURI silent_pvcReady
  silent_allSeeds silent_liveArtifact silent_artifact silent_onlineSource silent_cloudURI silent_onlineURI silent_complete silent_poll silent_validate
  silent_ensureResolved silent_freshAttempt silent_stats silent_route silent_cleanup silent_finalizers silent_deletion
  silent_preflightHooks : silent.

(** * The steps that act *)

Section Guarded.
Context {S : Type} `{!RestoreEnv S} (restore0 : Neo4jRestore).

Definition good (w : RestoreWorld S) : Prop := okLog restore0 (xw_log w) = true /\ ident (xw_restore w) = ident restore0.
Definition databaseSeen (db : string) (there : bool) (w : RestoreWorld S) : Prop := seenLast db (xw_log w) = Some there.
Definition podsGone (w : RestoreWorld S) : Prop := podsLast (xw_log w) = Some O.
Definition justified (w : RestoreWorld S) : Prop := overwriteJustified restore0 (xw_log w) = true.

(** A predicate the silent steps keep. *)
Definition stable (P : RestoreWorld S -> Prop) : Prop := forall w w', still w w' -> P w -> P w'.

Lemma stable_good : stable good.
Proof. intros w w' [Hi _ (new & E & Hq)] [H1 H2]. split; [by rewrite E, okLog_quiet|congruence]. Qed.
Lemma stable_seen db there : stable (databaseSeen db there).
Proof. intros w w' [_ _ (new & E & Hq)]. unfold databaseSeen. by rewrite E, seenLast_quiet. Qed.
Lemma stable_gone : stable podsGone.
Proof. intros w w' [_ _ (new & E & Hq)]. unfold podsGone. by rewrite E, podsLast_quiet. Qed.
Lemma stable_justified : stable justified.
Proof.
  intros w w' [_ _ (new & E & Hq)]. unfold justified, overwriteJustified. rewrite E, seenLast_quiet, heldSeen_app by done.
  destruct (restoreOverwriteConfirmed restore0); [done|]. destruct (rx_AllDatabases (nr_Spec restore0)); [done|].
  by destruct (heldSeen new), (heldSeen (xw_log w)).
Qed.
Lemma stable_and P Q : stable P -> stable Q -> stable (fun w => P w /\ Q w).
Proof. intros HP HQ w w' H [? ?]. split; [by apply (HP w)|by apply (HQ w)]. Qed.

Definition triple {A} (P : RestoreWorld S -> Prop) (m : XW S A) (Q : A -> RestoreWorld S -> Prop) : Prop :=
  forall w r w', m w = (r, w') -> P w -> Q r w'.

Lemma triple_mret {A} P (a : A) (Q : A -> RestoreWorld S -> Prop) : (forall w, P w -> Q a w) -> triple P (mret a) Q.
Proof. intros H w r w' [= <- <-]. apply H. Qed.

Lemma triple_then {A B} P (m : XW S A) Q (f : A -> XW S B) R : triple P m Q -> (forall a, triple (Q a) (f a) R) -> triple P (m ≫= f) R.
Proof. intros Hm Hf w r w'. unfold mbind, XW_bind. destruct (m w) as [a w1] eqn:E. intros H HP. by apply (Hf a w1), (Hm w). Qed.

Lemma triple_silent {A} P (m : XW S A) : silent m -> stable P -> triple P m (fun _ => P).
Proof. intros Hm HP w r w' E. apply HP. by apply (Hm w r). Qed.

Lemma triple_weaken {A} (P P' : RestoreWorld S -> Prop) (m : XW S A) (Q Q' : A -> RestoreWorld S -> Prop) :
  triple P' m Q' -> (forall w, P w -> P' w) -> (forall a w, Q' a w -> Q a w) -> triple P m Q.
Proof. intros H HP HQ w r w' E Hw. by apply HQ, (H w r w' E), HP. Qed.

(** The pass's copy, whose spec is the one the pass began with. *)
Lemma triple_copy P (Q : RestoreWorld S -> Prop) : (forall w, P w -> good w) -> triple P copyX (fun c w => P w /\ ident c = ident restore0).
Proof. intros H w r w' [= <- <-] HP. split; [done|]. by destruct (H w HP). Qed.

Definition keeps {A} (m : XW S A) : Prop := triple good m (fun _ => good).

Lemma keeps_silent {A} (m : XW S A) : silent m -> keeps m.
Proof. intros H. apply triple_silent; [done|apply stable_good]. Qed.
Lemma keeps_next {A B} (m : XW S A) (f : A -> XW S B) : keeps m -> (forall a, keeps (f a)) -> keeps (m ≫= f).
Proof. intros Hm Hf. by apply (triple_then _ _ _ _ _ Hm). Qed.

Lemma ident_spec c : ident c = ident restore0 -> nr_Spec c = nr_Spec restore0.
Proof. by intros [= _ _ _ ->]. Qed.
Lemma ident_confirmed c : ident c = ident restore0 -> restoreOverwriteConfirmed c = restoreOverwriteConfirmed restore0.
Proof. intros H%ident_spec. unfold restoreOverwriteConfirmed. by rewrite H. Qed.

(** ** Seeing *)

Lemma pods_seen : triple good podsX (fun r w => good w /\ (r = Ok [] -> podsGone w)).
Proof.
  unfold podsX. apply (triple_then _ _ _ _ _ (triple_silent good _ silent_api stable_good)). intros [e|].
  { apply triple_mret. by intros w ?. }
  apply (triple_then _ _ _ _ _ (triple_silent good _ (silent_ask _) stable_good)). intros [pods|e].
  - apply (triple_then _ _ (fun _ w => good w /\ podsLast (xw_log w) = Some (length pods))).
    { by intros w r w' [= _ <-] [H1 H2]. }
    intros _. apply triple_mret. intros w [H1 H2]. split; [done|]. intros [= ->]. done.
  - apply (triple_then _ _ (fun _ => good)); [by apply triple_mret|]. intros _. apply triple_mret. by intros w ?.
Qed.

Lemma exists_seen db : triple good (databaseExistsX db) (fun r w => good w /\ forall b, r = Ok b -> databaseSeen db b w).
Proof.
  unfold databaseExistsX. apply (triple_then _ _ _ _ _ (triple_silent good _ (silent_ask _) stable_good)). intros [b|e].
  - apply (triple_then _ _ (fun _ w => good w /\ databaseSeen db b w)).
    { intros w r w' [= _ <-] [H1 H2]. split; [by split|]. unfold databaseSeen. cbn. by rewrite String.eqb_refl. }
    intros _. apply triple_mret. intros w [H1 H2]. split; [done|]. intros b' [= <-]. done.
  - apply (triple_then _ _ (fun _ => good)); [by apply triple_mret|]. intros _. apply triple_mret. by intros w ?.
Qed.

Lemma keeps_exists db : keeps (databaseExistsX db).
Proof. eapply triple_weaken; [apply exists_seen|done|by intros ? ? []]. Qed.
Lemma keeps_pods : keeps podsX.
Proof. eapply triple_weaken; [apply pods_seen|done|by intros ? ? []]. Qed.

(** ** Statements *)

Lemma keeps_logged {A} P a (m : XW S A) :
  (forall w, P w -> good w /\ okAction restore0 a (xw_log w) = true) -> keeps m -> triple P (logX a ≫= fun _ => m) (fun _ => good).
Proof.
  intros HP Hm. apply (triple_then _ _ (fun _ => good)); [|by intros]. intros w r w' [= _ <-] Hw. destruct (HP w Hw) as [[H1 H2] H3].
  split; [cbn; by rewrite H3|done].
Qed.

Lemma recreate_guarded version db uri :
  rx_AllDatabases (nr_Spec restore0) = true \/ db = rx_Database (nr_Spec restore0) /\ hasPointInTime restore0 = false ->
  restoreOverwriteConfirmed restore0 = true ->
  triple (fun w => good w /\ databaseSeen db true w) (sendRecreate version db uri) (fun _ => good).
Proof.
  intros Hdb Hc. apply keeps_logged; [|by apply keeps_silent, silent_ask]. intros w [Hg Hs]. split; [done|].
  unfold databaseSeen in Hs. unfold okAction; cbv beta zeta iota. rewrite Hc, Hs.
  destruct Hdb as [-> | [-> ->]]; [done|]. rewrite String.eqb_refl. by destruct (rx_AllDatabases _).
Qed.

Lemma create_guarded db uri until ifNotExists :
  rx_AllDatabases (nr_Spec restore0) = true \/ db = rx_Database (nr_Spec restore0) /\ until = so_PointInTime (rx_Source (nr_Spec restore0)) ->
  triple (fun w => good w /\ databaseSeen db false w) (sendCreate db uri until ifNotExists) (fun _ => good).
Proof.
  intros Hdb. apply keeps_logged; [|by apply keeps_silent, silent_ask]. intros w [Hg Hs]. split; [done|].
  unfold databaseSeen in Hs. unfold okAction; cbv beta zeta iota. rewrite Hs.
  destruct Hdb as [-> | [-> ->]]; [done|]. rewrite String.eqb_refl, !bool_decide_true by done. by destruct (rx_AllDatabases _).
Qed.
End Guarded.

#[export] Hint Resolve stable_good stable_seen stable_gone stable_justified stable_and : silent.

Create HintDb restore_keeps.
(** A handler that keeps the log good, taken apart like [hush]. *)
Ltac keep :=
  repeat match goal with
    | |- keeps _ (let _ := _ in _) => cbv zeta
    | |- keeps _ _ => solve [eauto with restore_keeps | apply keeps_silent; hush]
    | |- keeps _ (_ ≫= _) => apply keeps_next; [|intros ?]
    | |- keeps _ (let '(_, _) := ?x in _) => destruct x
    | |- keeps _ (if ?b then _ else _) => destruct b
    | |- keeps _ (match ?x with _ => _ end) => destruct x
    end.
#[export] Hint Resolve keeps_exists keeps_pods : restore_keeps.

Section Handlers.
Context {S : Type} `{!RestoreEnv S} (restore0 : Neo4jRestore).

Abbreviation keeps := (keeps (S := S) restore0).
Abbreviation good := (good (S := S) restore0).

(** A step after which [P] still holds. *)
Lemma then_silent {A B} (P : RestoreWorld S -> Prop) (m : XW S A) (f : A -> XW S B) R :
  silent m -> stable P -> (forall a, triple P (f a) R) -> triple P (m ≫= f) R.
Proof. intros Hm HP Hf. by apply (triple_then _ _ (fun _ => P)); [apply triple_silent|]. Qed.

Lemma then_quiet {A B} (m : XW S A) (f : A -> XW S B) R : silent m -> (forall a, triple good (f a) R) -> triple good (m ≫= f) R.
Proof. intros Hm. apply then_silent; [done|auto with silent]. Qed.

Lemma then_keeps {A B} (P : RestoreWorld S -> Prop) (m : XW S A) (f : A -> XW S B) :
  triple P m (fun _ => good) -> (forall a, keeps (f a)) -> triple P (m ≫= f) (fun _ => good).
Proof. intros Hm Hf. by apply (triple_then _ _ _ _ _ Hm). Qed.

(** Reading the copy. *)
Lemma then_copy {B} (P : RestoreWorld S -> Prop) (f : Neo4jRestore -> XW S B) R :
  (forall w, P w -> good w) -> (forall c, ident c = ident restore0 -> triple P (f c) R) -> triple P (copyX ≫= f) R.
Proof.
  intros HP Hf w r w' E Hw. change ((copyX ≫= f) w) with (f (xw_restore w) w) in E. apply (Hf (xw_restore w)) in E; [by apply E|].
  by destruct (HP w Hw).
Qed.

Lemma keeps_copy {B} (f : Neo4jRestore -> XW S B) : (forall c, ident c = ident restore0 -> keeps (f c)) -> keeps (copyX ≫= f).
Proof. by apply then_copy. Qed.

Lemma triple_keeps {A} (P : RestoreWorld S -> Prop) (m : XW S A) : (forall w, P w -> good w) -> keeps m -> triple P m (fun _ => good).
Proof. intros HP Hm. by eapply triple_weaken. Qed.

(** ** All databases *)

Lemma keeps_issueDatabase standalone version db uri :
  rx_AllDatabases (nr_Spec restore0) = true -> keeps (issueDatabase standalone version db uri).
Proof.
  intros Hall. unfold issueDatabase. apply keeps_copy. intros c Hc. apply keeps_next; [apply keeps_silent; hush|].
  intros allowed. destruct (negb allowed); [keep|]. eapply triple_then; [apply exists_seen|]. intros [b|e]; cbv beta.
  - destruct b.
    + destruct (restoreOverwriteConfirmed c) eqn:Ec; cbn [negb].
      * apply then_keeps; [|intros [[]|]; keep]. eapply triple_weaken; [apply recreate_guarded|..]; [by left|by rewrite <- (ident_confirmed _ _ Hc)| |done].
        intros w [Hg Hs]. split; [done|by apply Hs].
      * apply triple_keeps; [by intros w []|keep].
    + apply then_keeps; [|intros [|]; keep]. eapply triple_weaken; [apply create_guarded; by left| |done]. intros w [Hg Hs]. split; [done|by apply Hs].
  - apply triple_keeps; [by intros w []|]. destruct (targetAway e); keep.
Qed.

Lemma keeps_drive standalone version arts uri results :
  rx_AllDatabases (nr_Spec restore0) = true -> keeps (driveDatabases standalone version arts uri results).
Proof.
  intros Hall. induction results as [|r results IH]; cbn [driveDatabases]; [keep|]. cbv zeta. destruct (endedPhase _); [done|].
  destruct (String.eqb _ EmptyString); [keep|]. destruct (notStarted _); [by apply keeps_issueDatabase|]. destruct (String.eqb _ StatusRunning); [keep|done].
Qed.

Lemma keeps_startAll ref : rx_AllDatabases (nr_Spec restore0) = true -> keeps (startAllDatabasesRestore ref).
Proof.
  intros Hall. unfold startAllDatabasesRestore. apply keeps_next; [keep|]. intros [[standalone target]|e]; [|keep].
  apply keeps_next; [keep|]. intros c. destruct (resolvedBackupSnapshot c) as [[snap storage]|]; [|keep].
  destruct (userDatabasesFromArtifacts _) as [|db dbs]; [keep|]. apply keeps_next; [keep|]. intros [x|]; [keep|]. apply keeps_next; [keep|]. intros _.
  apply keeps_next; [keep|]. intros [uri|x]; [|keep]. apply keeps_next; [keep|]. intros [e|]; [destruct (targetAway e); keep|].
  apply keeps_next; [keep|]. intros _. apply keeps_next; [keep|]. intros results. by apply keeps_drive.
Qed.

(** ** Online *)

Lemma keeps_recreateOnline standalone c version uri :
  ident c = ident restore0 ->
  triple (fun w => good w /\ databaseSeen (rx_Database (nr_Spec restore0)) true w) (recreateOnline standalone c version uri) (fun _ => good).
Proof.
  intros Hc. unfold recreateOnline. cbv zeta. destruct (hasPointInTime c) eqn:Ep; [apply triple_keeps; [by intros w []|keep]|].
  destruct (restoreOverwriteConfirmed c) eqn:Ec; cbn [negb]; [|apply triple_keeps; [by intros w []|keep]].
  apply then_keeps; [|intros [[]|]; keep]. rewrite (ident_spec _ _ Hc). apply recreate_guarded; [right|by rewrite <- (ident_confirmed _ _ Hc)].
  split; [done|]. unfold hasPointInTime in *. by rewrite <- (ident_spec _ _ Hc).
Qed.

Lemma keeps_createOnline c uri :
  ident c = ident restore0 ->
  triple (fun w => good w /\ databaseSeen (rx_Database (nr_Spec restore0)) false w) (createOnline c uri) (fun _ => good).
Proof.
  intros Hc. unfold createOnline. cbv zeta. apply then_keeps; [|intros [|]; keep]. rewrite (ident_spec _ _ Hc).
  apply create_guarded. by right.
Qed.

Lemma keeps_issueOnline ref standalone c uri : ident c = ident restore0 -> keeps (issueOnline ref standalone c uri).
Proof.
  intros Hc. unfold issueOnline. apply keeps_next; [keep|]. intros [e|]; [keep|]. rewrite (ident_spec _ _ Hc).
  eapply triple_then; [apply exists_seen|]. intros [b|e]; cbv beta; [|apply triple_keeps; [by intros w []|keep]].
  eapply (triple_weaken _ (fun w => good w /\ databaseSeen (rx_Database (nr_Spec restore0)) b w) _ _ (fun _ => good)); [|intros w [Hg Hs]; split; [done|by apply Hs]|done].
  apply then_silent; [hush|auto with silent|]. intros [e|]; [apply triple_keeps; [by intros w []|keep]|].
  apply then_silent; [hush|auto with silent|]. intros _. destruct b; [by apply keeps_recreateOnline|by apply keeps_createOnline].
Qed.

Lemma keeps_online ref : keeps (startClusterCypherRestore ref).
Proof.
  unfold startClusterCypherRestore. apply keeps_copy. intros c Hc. destruct (bool_decide _); [keep|].
  apply keeps_next; [keep|]. intros [[standalone target]|e]; [|keep]. apply keeps_next; [keep|]. intros [[storage path]|x]; [|keep].
  apply keeps_next; [keep|]. intros [uri|x]; [by apply keeps_issueOnline|keep].
Qed.

(** ** The Job *)

Lemma keeps_updateSet name s : rx_StopCluster (nr_Spec restore0) = true -> keeps (updateSet name s).
Proof.
  intros Hs. unfold updateSet. apply keeps_next; [keep|]. intros [e|]; [keep|]. apply keeps_next; [by intros w r w' [= _ <-]|]. intros _.
  apply keeps_logged; [|keep]. intros w Hg. by rewrite <- Hs.
Qed.

Lemma keeps_startCluster : rx_StopCluster (nr_Spec restore0) = true -> keeps startCluster.
Proof.
  intros Hs. unfold startCluster. apply keeps_next; [keep|]. intros [name|e]; [|keep]. apply keeps_next; [keep|]. intros [s| |e]; [|keep..].
  destruct (startedSet s) as [[s'|]|e]; [|keep..]. apply keeps_next; [by apply keeps_updateSet|intros; keep].
Qed.

Lemma keeps_afterFailure : keeps restoreClusterAfterFailure.
Proof.
  unfold restoreClusterAfterFailure. apply keeps_copy. intros c Hc. rewrite (ident_spec _ _ Hc).
  destruct (rx_StopCluster (nr_Spec restore0)) eqn:Es; [|keep]. apply keeps_next; [by apply keeps_startCluster|intros; keep].
Qed.

(** The pods are gone when a wait ends well. *)
Lemma waitStopped_gone n : triple good (waitStopped n) (fun r w => good w /\ (r = None -> podsGone w)).
Proof.
  induction n as [|n IH]; cbn [waitStopped]; [by apply triple_mret|]. eapply triple_then; [apply pods_seen|].
  intros [[|p pods]|e]; cbv beta; [apply triple_mret; intros w [Hg Hp]; split; [done|intros _; by apply Hp]|..];
    (eapply triple_weaken; [apply IH|by intros w []|done]).
Qed.

(** What the stop and the check before it keep. *)
Definition ready (w : RestoreWorld S) : Prop := good w /\ podsGone w /\ justified restore0 w.

(** A world that differs from [w] by listings of pods and changes of size only
    keeps what justified the overwrite. *)
Definition podAction (a : restoreAction) : bool := match a with PodsSeen _ | ScaledTo _ _ => true | _ => quietAction a end.
Definition podsOnly {A} (m : XW S A) : Prop :=
  forall w r w', m w = (r, w') -> exists new, xw_log w' = new ++ xw_log w /\ forallb podAction new = true.

Lemma podsOnly_silent {A} (m : XW S A) : silent m -> podsOnly m.
Proof.
  intros Hm w r w' E. destruct (Hm w r w' E) as [_ _ (new & El & Hq)]. exists new. split; [done|]. clear E El.
  induction new as [|a new IH]; [done|]. cbn in *. apply andb_true_iff in Hq as [Ha Hn]. rewrite IH by done. by destruct a.
Qed.
Lemma podsOnly_bind {A B} (m : XW S A) (f : A -> XW S B) : podsOnly m -> (forall a, podsOnly (f a)) -> podsOnly (m ≫= f).
Proof.
  intros Hm Hf w r w'. unfold mbind, XW_bind. destruct (m w) as [a w1] eqn:E. intros H.
  destruct (Hm _ _ _ E) as (n1 & E1 & Q1), (Hf _ _ _ _ H) as (n2 & E2 & Q2). exists (n2 ++ n1). by rewrite E2, E1, app_assoc, forallb_app, Q1, Q2.
Qed.
Lemma podsOnly_log a : podAction a = true -> podsOnly (logX a).
Proof. intros Ha w r w' [= _ <-]. exists [a]. cbn. by rewrite Ha. Qed.

Lemma podsOnly_modify f : (forall w, xw_log (f w) = xw_log w) -> podsOnly (modifyX f).
Proof. intros H w r w' [= _ <-]. exists []. by rewrite H. Qed.

Ltac pods :=
  repeat match goal with
    | |- podsOnly (let _ := _ in _) => cbv zeta
    | |- podsOnly _ => solve [apply podsOnly_silent; hush | by apply podsOnly_log | by apply podsOnly_modify | eauto]
    | |- podsOnly (_ ≫= _) => apply podsOnly_bind; [|intros ?]
    | |- podsOnly (if ?b then _ else _) => destruct b
    | |- podsOnly (match ?x with _ => _ end) => destruct x
    end.

Lemma podsOnly_pods : podsOnly podsX.
Proof. unfold podsX. pods. Qed.
Lemma podsOnly_stop : podsOnly stopForRestore.
Proof.
  assert (forall n, podsOnly (waitStopped n)) as Hw by (induction n; cbn [waitStopped]; pose proof podsOnly_pods; pods).
  assert (podsOnly stopCluster) as Hs by (unfold stopCluster, updateSet; pods).
  assert (podsOnly refuseRestoreIfPodsRunning) as Hr by (unfold refuseRestoreIfPodsRunning; pose proof podsOnly_pods; pods).
  unfold stopForRestore. pods.
Qed.

Lemma justified_pods {A} (m : XW S A) : podsOnly m -> triple (justified restore0) m (fun _ => justified restore0).
Proof.
  intros Hm w r w' E. destruct (Hm _ _ _ E) as (new & El & Hq). unfold justified, overwriteJustified. rewrite El, heldSeen_app. clear E El Hm.
  assert (forall db, seenLast db (new ++ xw_log w) = seenLast db (xw_log w)) as Hs.
  { intros db. induction new as [|a new IH]; [done|]. cbn in *. apply andb_true_iff in Hq as [Ha Hn]. destruct a; try done; by apply IH. }
  rewrite Hs. by destruct (restoreOverwriteConfirmed restore0), (rx_AllDatabases (nr_Spec restore0)), (heldSeen new), (heldSeen (xw_log w)).
Qed.

Lemma triple_and {A} (P P' : RestoreWorld S -> Prop) (m : XW S A) Q Q' :
  triple P m Q -> triple P' m Q' -> triple (fun w => P w /\ P' w) m (fun r w => Q r w /\ Q' r w).
Proof. intros H H' w r w' E [Hp Hp']. split; [by apply (H w)|by apply (H' w)]. Qed.

Lemma stop_gone : triple good stopForRestore (fun r w => good w /\ (r = None -> podsGone w)).
Proof.
  unfold stopForRestore. apply then_copy; [done|]. intros c Hc. rewrite (ident_spec _ _ Hc).
  destruct (rx_StopCluster (nr_Spec restore0)) eqn:Es.
  - apply then_quiet; [hush|]. intros [e|].
    { apply then_quiet; [hush|]. intros _. by apply triple_mret. }
    apply (triple_then _ _ (fun r w => good w /\ (r = None -> podsGone w))).
    + unfold stopCluster. apply then_quiet; [hush|]. intros [name|e]; [|by apply triple_mret].
      apply then_quiet; [hush|]. intros [s| |e]; [|by apply triple_mret..].
      apply (triple_then _ _ (fun _ => good)); [by apply keeps_updateSet|]. intros [e|]; [by apply triple_mret|].
      apply then_quiet; [hush|]. intros last. apply waitStopped_gone.
    + intros [e|]; cbv beta; [|apply triple_mret; intros w [Hg Hp]; split; [done|intros _; by apply Hp]].
      apply (triple_weaken _ good _ _ (fun (r : option xresult) w => good w /\ r = Some (XErr e))); [|by intros w []|by intros a w [? ->]].
      apply then_quiet; [hush|]. intros _.
      apply then_quiet; [hush|]. intros _. by apply triple_mret.
  - apply (triple_then _ _ (fun r w => good w /\ (r = None -> podsGone w))).
    + unfold refuseRestoreIfPodsRunning. apply then_copy; [done|]. intros c' _. eapply triple_then; [apply pods_seen|].
      intros [[|p pods]|e]; cbv beta; [apply triple_mret; intros w [Hg Hp]; split; [done|intros _; by apply Hp]| |apply triple_mret; by intros w []].
      apply (triple_then _ _ (fun _ => good)); [apply triple_keeps; [by intros w []|apply keeps_silent; hush]|]. intros s. cbv zeta. by apply triple_mret.
    + intros [e|]; cbv beta; [|apply triple_mret; intros w [Hg Hp]; split; [done|intros _; by apply Hp]].
      apply (triple_weaken _ good _ _ (fun (r : option xresult) w => good w /\ r <> None)); [|by intros w []|by intros a w [? Hn]].
      destruct e; (apply then_quiet; [hush|]; intros _; by apply triple_mret).
Qed.

Lemma stable_ready : stable ready.
Proof. apply stable_and; [auto with silent|]. apply stable_and; auto with silent. Qed.

Lemma createJob_guarded c command : triple ready (createJobX c command) (fun _ => good).
Proof.
  pose proof stable_ready. unfold createJobX. apply then_silent; [hush|done|]. intros fault.
  apply then_silent; [hush|done|]. intros existing. destruct fault, existing; try solve [apply triple_keeps; [by intros w []|keep]].
  cbv zeta. apply then_silent; [hush|done|]. intros _. apply keeps_logged; [|keep].
  intros w (Hg & Hp & Hj). split; [done|]. unfold podsGone, justified in *. cbn. by rewrite Hp, Hj.
Qed.

Lemma createRestoreJob_guarded : triple ready createRestoreJob (fun _ => good).
Proof.
  pose proof stable_ready. unfold createRestoreJob. apply then_silent; [hush|done|]. intros c.
  assert (forall e : restoreErr, triple ready (mret (M := XW S) (inl (B := RestoreJob) e)) (fun _ => good)) as Hr by (intros e; apply triple_mret; by intros w []).
  apply then_silent; [hush|done|]. intros [e|]; [apply Hr|]. apply then_silent; [hush|done|]. intros [e|]; [apply Hr|].
  apply then_silent; [hush|done|]. intros [e|source]; [apply Hr|]. cbv zeta. apply then_silent; [hush|done|]. intros [e|]; [apply Hr|].
  apply then_silent; [hush|done|]. intros [e|command]; [apply Hr|apply createJob_guarded].
Qed.

Lemma launch_guarded reason : triple ready (launchRestoreJob reason) (fun _ => good).
Proof.
  pose proof stable_ready. unfold launchRestoreJob. apply then_silent; [hush|done|]. intros c. apply then_keeps; [apply createRestoreJob_guarded|].
  pose proof keeps_afterFailure as Ha. intros [[e|e|e|e|e]|job]; cbv zeta; try solve [apply keeps_next; [exact Ha|intros _; keep]]; keep.
Qed.

(** The overwrite is justified after the preflight lets the pass on. *)
Lemma preflight_justified : triple good preflightOverwrite (fun r w => good w /\ (r = None -> justified restore0 w)).
Proof.
  unfold preflightOverwrite. apply then_copy; [done|]. intros c Hc. rewrite (ident_confirmed _ _ Hc), (ident_spec _ _ Hc).
  destruct (restoreOverwriteConfirmed restore0 || rx_AllDatabases (nr_Spec restore0)) eqn:Eo.
  { apply triple_mret. intros w Hg. split; [done|]. intros _. unfold justified, overwriteJustified. by rewrite Eo. }
  apply (triple_then _ _ (fun r w => good w /\ (r = true -> justified restore0 w))).
  { unfold restoreAlreadyStoppedInstance. apply then_quiet; [hush|]. intros c'.
    apply then_quiet; [hush|]. intros s. cbv zeta.
    apply (triple_then _ _ (fun _ w => good w /\ ((match s with Found s => holdsStopped c' s | _ => false end) = true -> justified restore0 w)));
      [|intros _; by apply triple_mret].
    destruct (match s with Found s => _ | _ => _ end); [|by apply triple_mret].
    intros w r w' [= _ <-] [H1 H2]. split; [by split|]. intros _. unfold justified, overwriteJustified. rewrite Eo. reflexivity. }
  intros [|]; cbv beta; [apply triple_mret; intros w [Hg Hj]; split; [done|intros _; by apply Hj]|].
  apply (triple_weaken _ good _ _ (fun (r : option xresult) w => good w /\ (r = None -> justified restore0 w))); [|by intros w []|done].
  apply (triple_then _ _ (fun r w => good w /\ (r = None -> justified restore0 w))).
  { unfold checkDatabaseExists. apply then_copy; [done|]. intros c' Hc'. apply then_quiet; [hush|].
    intros [e|]; [by apply triple_mret|]. eapply triple_then; [apply exists_seen|]. rewrite (ident_spec _ _ Hc'), (ident_confirmed _ _ Hc').
    intros [b|e]; cbv beta; [|apply triple_mret; by intros w []]. apply triple_mret. intros w [Hg Hs]. split; [done|].
    apply orb_false_iff in Eo as [-> Ea]. destruct b; [done|]. intros _. unfold justified, overwriteJustified.
    rewrite bool_decide_true by (by apply Hs). by rewrite orb_true_r. }
  intros [e|]; cbv beta; [|apply triple_mret; intros w [Hg Hj]; split; [done|intros _; by apply Hj]].
  apply (triple_weaken _ good _ _ (fun (r : option xresult) w => good w /\ r <> None)); [|by intros w []|by intros a w [? Hn]].
  destruct e; (apply then_quiet; [hush|]; intros _; by apply triple_mret).
Qed.

Lemma keeps_offline : keeps offlineRestore.
Proof.
  unfold offlineRestore. apply keeps_next; [keep|]. intros standalone. apply keeps_next; [keep|]. intros c. cbv zeta.
  eapply triple_then; [apply preflight_justified|]. intros [r|]; cbv beta; [apply triple_mret; by intros w []|].
  apply (triple_weaken _ (fun w => good w /\ justified restore0 w) _ _ (fun _ => good)); [|intros w [Hg Hj]; split; [done|by apply Hj]|done].
  apply then_silent; [hush|auto with silent|]. intros [r|]; [apply triple_mret; by intros w []|].
  apply (triple_then _ _ (fun r w => (good w /\ (r = None -> podsGone w)) /\ justified restore0 w)).
  { apply triple_and; [apply stop_gone|apply justified_pods, podsOnly_stop]. }
  intros [r|]; cbv beta; [apply triple_mret; by intros w [[]]|].
  eapply triple_weaken; [apply launch_guarded| |done]. intros w [[Hg Hp] Hj]. split; [done|]. split; [by apply Hp|done].
Qed.

Lemma keeps_decide : keeps decidePointInTimePath.
Proof. unfold decidePointInTimePath. keep. Qed.

Lemma keeps_start ref : keeps (startRestore ref).
Proof.
  unfold startRestore. apply keeps_next; [keep|]. intros [e|]; [keep|]. apply keeps_next; [keep|]. intros now. apply keeps_next; [keep|]. intros _.
  apply keeps_next; [keep|]. intros [[]|]; [keep..|]. apply keeps_next; [keep|]. intros [r|]; [keep|].
  apply keeps_next; [apply keeps_decide|]. intros [r|]; [keep|]. apply keeps_next; [keep|]. intros [isCluster|e]; [|keep].
  apply keeps_next; [keep|]. intros onJob. apply keeps_copy. intros c Hc. destruct onJob; [apply keeps_offline|].
  rewrite (ident_spec _ _ Hc). destruct (rx_AllDatabases (nr_Spec restore0)) eqn:Ea; [by apply keeps_startAll|apply keeps_online].
Qed.

Lemma keeps_waitReady servers : keeps (waitForClusterReady servers).
Proof.
  assert (forall n, keeps (waitReady n servers)) as Hw.
  { induction n as [|n IH]; cbn [waitReady]; [keep|]. apply keeps_next; [keep|]. intros [pods|e]; [|done]. destruct (_ && _); [|done].
    apply keeps_next; [keep|]. intros [e|]; [done|]. apply keeps_next; [keep|]. intros [e|]; [done|keep]. }
  unfold waitForClusterReady. apply keeps_next; [keep|]. intros last. apply Hw.
Qed.

(** ** After the Job *)

Definition jobSeen (w : RestoreWorld S) : Prop := sawJobEnd (xw_log w) = true.

(** The log only grows. *)
Definition grows {A} (m : XW S A) : Prop := forall w r w', m w = (r, w') -> exists new, xw_log w' = new ++ xw_log w.

Lemma grows_silent {A} (m : XW S A) : silent m -> grows m.
Proof. intros H w r w' E. destruct (H w r w' E) as [_ _ (new & ? & _)]. by exists new. Qed.
Lemma grows_bind {A B} (m : XW S A) (f : A -> XW S B) : grows m -> (forall a, grows (f a)) -> grows (m ≫= f).
Proof.
  intros Hm Hf w r w'. unfold mbind, XW_bind. destruct (m w) as [a w1] eqn:E. intros H. destruct (Hm _ _ _ E) as [n1 E1], (Hf _ _ _ _ H) as [n2 E2].
  exists (n2 ++ n1). by rewrite E2, E1, app_assoc.
Qed.
Lemma grows_log a : grows (logX a).
Proof. intros w r w' [= _ <-]. by exists [a]. Qed.
Lemma grows_modify f : (forall w, xw_log (f w) = xw_log w) -> grows (modifyX f).
Proof. intros H w r w' [= _ <-]. exists []. by rewrite H. Qed.

Ltac grow :=
  repeat match goal with
    | |- grows (let _ := _ in _) => cbv zeta
    | |- grows _ => solve [apply grows_silent; hush | by apply grows_log | by apply grows_modify | eauto]
    | |- grows (_ ≫= _) => apply grows_bind; [|intros ?]
    | |- grows (if ?b then _ else _) => destruct b
    | |- grows (match ?x with _ => _ end) => destruct x
    end.

Lemma grows_pods : grows podsX.
Proof. unfold podsX. grow. Qed.
Lemma grows_exists db : grows (databaseExistsX db).
Proof. unfold databaseExistsX. grow. Qed.
Lemma grows_waitReady servers : grows (waitForClusterReady servers).
Proof.
  pose proof grows_pods. assert (forall n, grows (waitReady n servers)) as Hw by (induction n; cbn [waitReady]; grow).
  unfold waitForClusterReady. grow.
Qed.
Lemma grows_startCluster : grows startCluster.
Proof. unfold startCluster, updateSet. pose proof grows_pods. grow. Qed.
Lemma grows_resume ref : grows (resumeCluster ref).
Proof. pose proof grows_startCluster. pose proof grows_waitReady. unfold resumeCluster. grow. Qed.

(** Good, and the Job seen to have ended. *)
Definition ended (w : RestoreWorld S) : Prop := good w /\ jobSeen w.

Lemma stable_ended : stable ended.
Proof.
  intros w w' Hs [Hg Hj]. split; [by apply (stable_good restore0 w)|]. destruct Hs as [_ _ (new & E & _)].
  unfold jobSeen, sawJobEnd in *. by rewrite E, existsb_app, Hj, orb_true_r.
Qed.
Lemma ended_grows {A} (m : XW S A) : keeps m -> grows m -> triple ended m (fun _ => ended).
Proof.
  intros Hk Hg w r w' E [H1 H2]. split; [by apply (Hk w r w' E)|]. destruct (Hg w r w' E) as [new En].
  unfold jobSeen, sawJobEnd in *. by rewrite En, existsb_app, H2, orb_true_r.
Qed.
Lemma ended_silent {A} (m : XW S A) : silent m -> triple ended m (fun _ => ended).
Proof. intros H. apply triple_silent; [done|apply stable_ended]. Qed.
Lemma ended_then {A B} (m : XW S A) (f : A -> XW S B) R : triple ended m (fun _ => ended) -> (forall a, triple ended (f a) R) -> triple ended (m ≫= f) R.
Proof. apply triple_then. Qed.
Lemma ended_quiet {A B} (m : XW S A) (f : A -> XW S B) R : silent m -> (forall a, triple ended (f a) R) -> triple ended (m ≫= f) R.
Proof. intros H. apply ended_then, ended_silent, H. Qed.
Lemma ended_copy {B} (f : Neo4jRestore -> XW S B) R : (forall c, ident c = ident restore0 -> triple ended (f c) R) -> triple ended (copyX ≫= f) R.
Proof. apply then_copy. by intros w []. Qed.
(** A statement, logged. *)
Lemma ended_logged {A} a (m : XW S A) (P : RestoreWorld S -> Prop) : (forall w, P w -> ended w /\ okAction restore0 a (xw_log w) = true) -> silent m ->
  triple P (logX a ≫= fun _ => m) (fun _ => ended).
Proof.
  intros HP Hm. apply (triple_then _ _ (fun _ => ended)); [|intros _; by apply ended_silent]. intros w r w' [= _ <-] Hw. destruct (HP w Hw) as [[[H1 H2] H3] H4].
  split; [split; [cbn; by rewrite H4|done]|]. unfold jobSeen, sawJobEnd in *. cbn. by rewrite H3, orb_true_r.
Qed.

(** A database that is started, or created when it is not there. *)
Lemma register_guarded db (refused : string -> string) : rx_AllDatabases (nr_Spec restore0) = true \/ db = rx_Database (nr_Spec restore0) ->
  triple ended (there ← databaseExistsX db;
                match there with
                | Err e => mret (Some (refused e))
                | Ok true => askX (startDatabase db)
                | Ok false => _ ← logX (RegisterSent db); askX (createDatabase db)
                end) (fun _ => ended).
Proof.
  intros Hdb.
  apply (triple_then _ _ (fun r w => ended w /\ (good w /\ forall b, r = Ok b -> databaseSeen db b w))).
  { eapply triple_weaken; [apply triple_and; [apply ended_grows; [apply keeps_exists|apply grows_exists]|apply (exists_seen restore0)]| |by intros a w []]. intros w Hw. split; [done|by destruct Hw]. }
  intros [[]|e]; cbv beta; [eapply triple_weaken; [apply ended_silent; hush|by intros w []|done]| |apply triple_mret; by intros w []].
  apply ended_logged; [|hush]. intros w [He [_ Hs]]. split; [done|]. destruct He as [_ Hj]. unfold jobSeen in Hj. specialize (Hs _ eq_refl). unfold databaseSeen in Hs.
  unfold okAction; cbv beta zeta iota. rewrite Hj, Hs. destruct Hdb as [-> | ->]; [done|]. rewrite String.eqb_refl. by rewrite orb_true_r.
Qed.

Lemma registerAll_guarded : rx_AllDatabases (nr_Spec restore0) = true -> triple ended registerAllDatabasesAfterRestore (fun _ => ended).
Proof.
  intros Ha. assert (forall dbs, triple ended (registerDatabases dbs) (fun _ => ended)) as Hr.
  { induction dbs as [|db dbs IH]; cbn [registerDatabases]; [apply ended_silent; hush|]. apply ended_then; [apply (register_guarded _ (fun e => e)); by left|]. intros e.
    apply ended_quiet; [destruct e; hush|]. intros _. apply ended_then; [done|]. intros; apply ended_silent; hush. }
  unfold registerAllDatabasesAfterRestore. apply ended_quiet; [hush|]. intros c. destruct (resolvedBackupSnapshot c) as [[snap st]|]; [|apply ended_silent; hush]. cbv zeta.
  apply ended_quiet; [hush|]. intros _. apply ended_quiet; [hush|]. intros [e|]; [apply ended_silent; hush|apply Hr].
Qed.

Lemma createOrStart_guarded : triple ended createOrStartDatabase (fun _ => ended).
Proof.
  unfold createOrStartDatabase. apply ended_copy. intros c Hc. rewrite (ident_spec _ _ Hc).
  apply ended_quiet; [hush|]. intros [e|]; [apply ended_silent; hush|]. apply (register_guarded _ (fun e => "failed to check database existence: " +:+ e)). by right.
Qed.

(** The database seeded again from the server whose files the Job wrote. *)
Lemma reseed_guarded ref : rx_AllDatabases (nr_Spec restore0) = false -> triple ended (recreateRestoredDatabaseOnCluster ref) (fun _ => ended).
Proof.
  intros Ha. unfold recreateRestoredDatabaseOnCluster. apply ended_copy. intros c Hc. rewrite (ident_spec _ _ Hc).
  destruct (tg_Servers ref <? 2); [apply ended_silent; hush|]. destruct (String.eqb _ _); [apply ended_silent; hush|].
  apply ended_quiet; [hush|]. intros [e|]; [apply ended_silent; hush|]. apply ended_quiet; [hush|]. intros [servers|e]; [|apply ended_silent; hush]. cbv zeta.
  apply ended_logged; [|hush]. intros w He. split; [done|]. destruct He as [_ Hj]. unfold jobSeen in Hj. unfold okAction; cbv beta zeta iota. by rewrite Ha, Hj, String.eqb_refl.
Qed.

Lemma keeps_resume ref : keeps (resumeCluster ref).
Proof.
  unfold resumeCluster. apply keeps_copy. intros c Hc. rewrite (ident_spec _ _ Hc). destruct (rx_StopCluster (nr_Spec restore0)) eqn:Es; [|keep].
  apply keeps_next; [by apply keeps_startCluster|]. intros [e|]; [keep|]. apply keeps_next; [keep|]. intros _.
  apply keeps_next; [apply keeps_waitReady|]. intros [e|]; keep.
Qed.

Lemma success_guarded ref job : triple ended (handleRestoreSuccess ref job) (fun _ => ended).
Proof.
  unfold handleRestoreSuccess. apply ended_quiet; [hush|]. intros now. apply ended_quiet; [hush|]. intros _. apply ended_quiet; [hush|]. intros _.
  apply ended_then; [apply ended_grows; [apply keeps_resume|apply grows_resume]|]. intros [r|]; [apply ended_silent; hush|].
  apply ended_copy. intros c Hc. rewrite (ident_spec _ _ Hc). apply ended_then.
  { destruct (rx_AllDatabases (nr_Spec restore0)) eqn:Ea; [by apply registerAll_guarded|apply createOrStart_guarded]. }
  intros e. apply ended_quiet; [destruct e; hush|]. intros _. apply ended_quiet; [hush|]. intros [e'|]; [apply ended_silent; hush|].
  apply ended_then; [destruct (rx_AllDatabases (nr_Spec restore0)) eqn:Ea; [apply ended_silent; hush|by apply reseed_guarded]|].
  intros e'. apply ended_silent. hush.
Qed.

Lemma keeps_success ref job : keeps (logX JobEnded ≫= fun _ => handleRestoreSuccess ref job).
Proof.
  apply (triple_then _ _ (fun _ => ended)); [by intros w r w' [= _ <-] [H1 H2]|]. intros _.
  eapply triple_weaken; [apply success_guarded|done|]. by intros a w [].
Qed.

Lemma keeps_progress ref : keeps (checkRestoreProgress ref).
Proof.
  unfold checkRestoreProgress. apply keeps_next; [keep|]. intros c. destruct (bool_decide _); [keep|]. apply keeps_next; [keep|]. intros isCluster.
  apply keeps_next; [destruct isCluster; keep|]. intros [|]; [|apply keeps_online]. unfold checkRestoreJob, failRestoreJob.
  apply keeps_next; [keep|]. intros [job| |e]; [|apply keeps_next; [apply keeps_afterFailure|intros; keep]|keep].
  destruct (_ || _); [apply keeps_success|]. destruct (rj_Failed job); [|keep]. apply keeps_next; [apply keeps_afterFailure|intros; keep].
Qed.

Lemma keeps_reconcile : keeps ReconcileRestore.
Proof.
  unfold ReconcileRestore. apply keeps_next; [keep|]. intros c. destruct (nr_Deleting c); [keep|]. destruct (negb _); [keep|].
  destruct (restoreEndedAtGeneration c); [keep|]. destruct (String.eqb _ EmptyString); [keep|]. apply keeps_next; [keep|]. intros [ref| |e]; [|keep..].
  cbv zeta. destruct (if String.eqb (tg_ImageTag ref) EmptyString then _ else _); [keep|]. apply keeps_next; [keep|].
  intros [|]; [apply keeps_progress|apply keeps_start].
Qed.
End Handlers.

(** C16: what a pass of the restore controller may do, whatever Neo4j and the API
    server answer and whichever calls fail. It creates the Job, which writes the
    standalone's files, only when the last listing of the standalone's pods, with no
    change of size since, came back empty; and, unless replaceExisting is set or all
    databases are restored (which leaves it to neo4j-admin), only when the last
    answer on the database said that it does not exist, or the pass found the
    restore's own marker on the standalone, which an earlier pass stopped. It
    recreates a database from a seed only with replaceExisting and when the last
    answer said that it exists, and creates one from a seed only when the last
    answer said that it does not; in a restore of one database both are for that
    database, the recreate never with a point in time and the create to exactly that
    of the spec (of a restore of all databases neither is said here). Only after it
    found the Job ended with success does it send the other two statements: a plain
    CREATE, for the database asked for, or one of an all-databases restore, that the
    last answer said does not exist; and, in a restore of one database, the recreate
    of that database on a cluster from the server the Job wrote. It changes the size
    of a StatefulSet only with stopCluster. *)
Theorem restore_actions_justified {S : Type} `{!RestoreEnv S} (w w' : RestoreWorld S) (r : xresult) :
  ReconcileRestore w = (r, w') -> xw_log w = [] -> okLog (xw_restore w) (xw_log w') = true.
Proof. intros E Hl. apply (keeps_reconcile (xw_restore w) w r w' E). split; [by rewrite Hl|done]. Qed.

(** * A restore that runs *)

(** An environment without state: the standalone's pods, and whether the database
    is there. *)
Definition plainEnv (pods : list bool) (there : bool) : RestoreEnv unit := {|
  validateVersion := fun _ => None;
  targetAway := fun _ => false;
  listPods := fun s => (Ok pods, s);
  dial := fun s => (None, s);
  databaseExists := fun _ s => (Ok there, s);
  verifyConnectivity := fun s => (None, s);
  startDatabase := fun _ s => (None, s);
  createDatabase := fun _ s => (None, s);
  recreateWithSeed := fun _ _ _ s => (Ok true, s);
  createWithSeed := fun _ _ _ _ s => (None, s);
  seedFailure := fun _ s => (Ok EmptyString, s);
  onlineState := fun _ s => (Ok (1, 1, EmptyString), s);
  listServerAddresses := fun s => (Ok [], s);
  recreateFrom := fun _ _ _ s => (Ok true, s);
  runHooks := fun _ s => (None, s);
  getBackup := fun _ s => (NotFound, s);
  shardedNames := fun s => (Ok [], s);
  projectSeedConfig := fun _ _ s => (NothingMissing, s);
  seedCredsRolledOut := fun _ s => (Ok true, s);
  specEnvEndpointRolledOut := fun s => (Ok true, s);
  standaloneIdentityRolledOut := fun s => (Ok true, s);
  ensureSeedProxy := fun _ _ s => (Ok (mkProxyState true false EmptyString EmptyString), s);
  pvcSeedProxyURL := fun name dir file => joinSlash (joinSlash name dir) file;
  teardownSeedProxy := fun s => s;
  ensureTempStaging := fun s => (None, s);
  ensureServiceAccount := fun s => (None, s);
  jobGone := fun s => (true, s);
  jobFailure := fun s => ("BackoffLimitExceeded", s)
|}.

Definition demoSource : RestoreSource :=
  mkRestoreSource "storage" EmptyString (Some (mkStorageLocation "pvc" EmptyString EmptyString (Some (mkPVCSpec "claim" EmptyString EmptyString)) None)) "nightly" EmptyString None None.

Definition demoStatus (phase : string) : Neo4jRestoreStatus := mkNeo4jRestoreStatus [] phase EmptyString None None 1 [] None EmptyString None.

(** A restore of the standalone "orders", from a path on a PVC. *)
Definition demoRestore (phase : string) (replace : bool) : Neo4jRestore :=
  mkNeo4jRestore "r1" "uid-1" 1 ∅ [RestoreFinalizer] false
    (mkNeo4jRestoreSpec "orders" demoSource "shop" false (Some (mkRestoreOptionsSpec replace false false false EmptyString [])) true EmptyString) (demoStatus phase).

Definition demoStandalone (annotations : gmap string string) : TargetCR := mkTargetCR annotations "neo4j" "5.26.0-enterprise" 1 false false.

Definition demoWorld (restore : Neo4jRestore) (standalone : TargetCR) (sets : gmap string RestoreSet) (job : option RestoreJob) : RestoreWorld unit :=
  mkRestoreWorld 0 false restore restore true [] None (Some standalone) [] sets job [] [] [] tt.

Lemma restore_actions_justified_witness :
  let w := demoWorld (demoRestore EmptyString true) (demoStandalone ∅) {["orders" := mkRestoreSet 1 ∅]} None in
  let w' := (@ReconcileRestore unit (plainEnv [] true) w).2 in
  okLog (demoRestore EmptyString true) (xw_log w') = true /\
  existsb (fun a => match a with JobCreated _ => true | _ => false end) (xw_log w') = true.
Proof.
  split; [|vm_compute; reflexivity].
  apply (@restore_actions_justified unit (plainEnv [] true)
           (demoWorld (demoRestore EmptyString true) (demoStandalone ∅) {["orders" := mkRestoreSet 1 ∅]} None) _
           (@ReconcileRestore unit (plainEnv [] true) (demoWorld (demoRestore EmptyString true) (demoStandalone ∅) {["orders" := mkRestoreSet 1 ∅]} None)).1);
    [|reflexivity].
  by destruct (@ReconcileRestore unit (plainEnv [] true) _).
Defined.
