(* ===== verification/RestoreSize.v ===== *)
(** The size of an instance across restores: a pass of the restore controller
    (neo4jrestore_controller.go) that stops a StatefulSet records its replicas in an
    annotation of the set, and a pass that starts it reads them back. Whatever fails
    and however many passes of whichever restores run, a set is either at its size or
    at zero with its size recorded; and when nothing fails, a Job that failed or
    disappeared leaves the standalone at its size, without the restore's marker. *)
From S2P Require Import Prelude GoStrings GoTime GoRFC3339 ClusterTypes Conditions UpgradeRecord Version UpgradeMachine TargetWait BackupTypes RestoreTypes RestoreCommand RestoreWorld RestoreSeed RestoreAll RestorePass RestoreSafety.

Open Scope Z_scope.

(** A StatefulSet of [n] replicas: it has them, or it is stopped and says so. *)
Definition sized (n : Z) (s : RestoreSet) : Prop :=
  ss_Replicas s = n /\ ss_Annotations s !! originalReplicasAnnotation = None
  \/ ss_Replicas s = 0 /\ exists o, ss_Annotations s !! originalReplicasAnnotation = Some o /\ strconv.ParseInt o minInt32 maxInt32 = (n, None).

Lemma ParseInt_Itoa32 n : 0 <= n <= maxInt32 -> strconv.ParseInt (strconv.Itoa n) minInt32 maxInt32 = (n, None).
Proof. intros H. apply ParseInt_digits; [apply Itoa_ne_empty|apply digits_Itoa|unfold minInt32]; lia. Qed.

Lemma sized_stopped n s : 0 <= n <= maxInt32 -> sized n s -> sized n (stoppedSet s).
Proof.
  intros Hn [[Hr Ha]|[Hr (o & Ho & Hp)]]; right; unfold stoppedSet.
  - rewrite Ha. cbn. split; [done|]. exists (strconv.Itoa n). rewrite Hr. split; [by rewrite lookup_insert_eq|by apply ParseInt_Itoa32].
  - rewrite Ho. cbn. eauto.
Qed.

Lemma sized_started n s s' : sized n s -> startedSet s = inl (Some s') -> ss_Replicas s' = n /\ ss_Annotations s' !! originalReplicasAnnotation = None.
Proof.
  intros [[Hr Ha]|[Hr (o & Ho & Hp)]]; unfold startedSet.
  - by rewrite Ha.
  - rewrite Ho, Hp. intros [= <-]. cbn. by rewrite lookup_delete_eq.
Qed.

(** * Every step of a pass *)

Section Framed.
Context {S : Type} `{!RestoreEnv S}.

(** The sets keep their sizes. *)
Definition keepsSize (sets sets' : gmap string RestoreSet) : Prop :=
  forall name s n, sets !! name = Some s -> 0 <= n <= maxInt32 -> sized n s -> exists s', sets' !! name = Some s' /\ sized n s'.

#[global] Instance keepsSize_preorder : PreOrder keepsSize.
Proof.
  split; [by intros sets name s n ? ? ?; exists s|]. intros a b c H1 H2 name s n E Hn Hs.
  destruct (H1 name s n E Hn Hs) as (s1 & E1 & Hs1). by apply (H2 name s1 n).
Qed.

Definition framed {A} (m : XW S A) : Prop := forall w r w', m w = (r, w') -> keepsSize (xw_sets w) (xw_sets w').

Lemma framed_silent {A} (m : XW S A) : silent m -> framed m.
Proof. intros Hm w r w' E. rewrite (still_sets _ _ (Hm w r w' E)). reflexivity. Qed.

Lemma framed_bind {A B} (m : XW S A) (f : A -> XW S B) : framed m -> (forall a, framed (f a)) -> framed (m ≫= f).
Proof.
  intros Hm Hf w r w'. unfold mbind, XW_bind. destruct (m w) as [a w1] eqn:E. intros H.
  transitivity (xw_sets w1); [by apply (Hm w a)|by apply (Hf a w1 r)].
Qed.

Lemma framed_log a : framed (logX a).
Proof. intros w r w' [= _ <-]. reflexivity. Qed.
End Framed.

Create HintDb restore_framed.
#[export] Hint Resolve framed_log : restore_framed.

(** A handler whose steps keep the sizes. *)
Ltac frame :=
  repeat match goal with
    | |- framed (let _ := _ in _) => cbv zeta
    | |- framed _ => solve [eauto with restore_framed | apply framed_silent; hush]
    | |- framed (_ ≫= _) => apply framed_bind; [|intros ?]
    | |- framed (let '(_, _) := ?x in _) => destruct x
    | |- framed (if ?b then _ else _) => destruct b
    | |- framed (match ?x with _ => _ end) => destruct x
    | |- framed (match ?x with _ => _ end _) => destruct x; cbv beta
    end.

Section Sizes.
Context {S : Type} `{!RestoreEnv S}.

(** A read of a set, at which the size is known. *)
Lemma getSet_found name (w : RestoreWorld S) s w' : getSet name w = (Found s, w') -> xw_sets w !! name = Some s /\ xw_sets w' = xw_sets w.
Proof.
  intros E. split; [|by apply (still_sets w), (silent_getSet name w _ _ E)]. revert E.
  unfold getSet, apiX, getsX, mret, XW_ret, mbind, XW_bind. destruct (xw_faults w) as [|[e|] l]; cbn; [|done|]; destruct (xw_sets w !! name); congruence.
Qed.

Lemma updateSet_sets name s (w : RestoreWorld S) e w' :
  updateSet name s w = (e, w') -> xw_sets w' = xw_sets w \/ xw_sets w' = <[name := s]> (xw_sets w).
Proof.
  unfold updateSet, apiX, modifyX, logX, mret, XW_ret, mbind, XW_bind. destruct (xw_faults w) as [|[f|] l]; cbn; intros [= _ <-]; eauto.
Qed.

(** A step that keeps the sizes when the set [name] is [s]. *)
Definition framedAt {A} (name : string) (s : RestoreSet) (m : XW S A) : Prop :=
  forall w r w', xw_sets w !! name = Some s -> m w = (r, w') -> keepsSize (xw_sets w) (xw_sets w').

Lemma then_getSet {A} name (f : getResult RestoreSet -> XW S A) :
  (forall s, framedAt name s (f (Found s))) -> framed (f NotFound) -> (forall e, framed (f (GetFailed e))) -> framed (getSet name ≫= f).
Proof.
  intros H1 H2 H3 w r w'. unfold mbind, XW_bind. destruct (getSet name w) as [a w1] eqn:E.
  destruct a as [s| |e]; [|rewrite <- (still_sets _ _ (silent_getSet name w _ _ E)); by apply H2 || by apply H3..].
  apply getSet_found in E as [Es E]. rewrite <- E. apply (H1 s). by rewrite E.
Qed.

Lemma framedAt_update {A} name s s' (m : option string -> XW S A) :
  (forall n, 0 <= n <= maxInt32 -> sized n s -> sized n s') -> (forall e, framed (m e)) -> framedAt name s (updateSet name s' ≫= m).
Proof.
  intros Hf Hm w r w' Es. unfold mbind, XW_bind. destruct (updateSet name s' w) as [e w2] eqn:Eu. intros H.
  transitivity (xw_sets w2); [|by apply (Hm e w2 r)]. destruct (updateSet_sets _ _ _ _ _ Eu) as [->| ->]; [reflexivity|].
  intros k s1 n Ek Hn Hs. destruct (decide (k = name)) as [->|Hk]; [|rewrite lookup_insert_ne by done; eauto].
  rewrite lookup_insert_eq. eexists. split; [done|]. assert (s1 = s) as -> by congruence. by apply Hf.
Qed.

Lemma framed_pods : framed (S := S) podsX.
Proof. unfold podsX. frame. Qed.
#[local] Hint Resolve framed_pods : restore_framed.

Lemma framed_exists db : framed (S := S) (databaseExistsX db).
Proof. unfold databaseExistsX. frame. Qed.
#[local] Hint Resolve framed_exists : restore_framed.

Lemma framed_waitStopped n : framed (S := S) (waitStopped n).
Proof. induction n; cbn [waitStopped]; frame. Qed.
#[local] Hint Resolve framed_waitStopped : restore_framed.

Lemma framed_stop : framed (S := S) stopCluster.
Proof.
  unfold stopCluster. apply framed_bind; [frame|]. intros [name|e]; [|frame]. apply then_getSet; [|frame|intros; frame].
  intros s. apply framedAt_update; [intros; by apply sized_stopped|intros [e|]; frame].
Qed.

Lemma framed_start : framed (S := S) startCluster.
Proof.
  unfold startCluster. apply framed_bind; [frame|]. intros [name|e]; [|frame]. apply then_getSet; [|frame|intros; frame].
  intros s. destruct (startedSet s) as [[s'|]|e] eqn:E; [|by intros w r w' _ [= _ <-]..].
  apply framedAt_update; [intros n Hn Hs; left; by apply (sized_started n s)|intros [e|]; frame].
Qed.
#[local] Hint Resolve framed_stop framed_start : restore_framed.

Lemma framed_afterFailure : framed (S := S) restoreClusterAfterFailure.
Proof. unfold restoreClusterAfterFailure. frame. Qed.
Lemma framed_running : framed (S := S) refuseRestoreIfPodsRunning.
Proof. unfold refuseRestoreIfPodsRunning. frame. Qed.
#[local] Hint Resolve framed_afterFailure framed_running : restore_framed.
Lemma framed_stopFor : framed (S := S) stopForRestore.
Proof. unfold stopForRestore. frame. Qed.
Lemma framed_createJob : framed (S := S) createRestoreJob.
Proof. unfold createRestoreJob, createJobX. frame. Qed.
#[local] Hint Resolve framed_stopFor framed_createJob : restore_framed.
Lemma framed_launch reason : framed (S := S) (launchRestoreJob reason).
Proof. unfold launchRestoreJob. frame. Qed.
Lemma framed_preflight : framed (S := S) preflightOverwrite.
Proof. unfold preflightOverwrite, checkDatabaseExists. frame. Qed.
#[local] Hint Resolve framed_launch framed_preflight : restore_framed.
Lemma framed_offline : framed (S := S) offlineRestore.
Proof. unfold offlineRestore. frame. Qed.

Lemma framed_issueDatabase standalone version db uri : framed (S := S) (issueDatabase standalone version db uri).
Proof. unfold issueDatabase, sendRecreate, sendCreate. frame. Qed.
#[local] Hint Resolve framed_offline framed_issueDatabase : restore_framed.
Lemma framed_drive standalone version arts uri results : framed (S := S) (driveDatabases standalone version arts uri results).
Proof. induction results; cbn [driveDatabases]; frame. Qed.
#[local] Hint Resolve framed_drive : restore_framed.
Lemma framed_startAll ref : framed (S := S) (startAllDatabasesRestore ref).
Proof. unfold startAllDatabasesRestore. frame. Qed.
Lemma framed_issueOnline ref standalone c uri : framed (S := S) (issueOnline ref standalone c uri).
Proof. unfold issueOnline, recreateOnline, createOnline, sendRecreate, sendCreate. frame. Qed.
#[local] Hint Resolve framed_startAll framed_issueOnline : restore_framed.
Lemma framed_online ref : framed (S := S) (startClusterCypherRestore ref).
Proof. unfold startClusterCypherRestore. frame. Qed.
Lemma framed_decide : framed (S := S) decidePointInTimePath.
Proof. unfold decidePointInTimePath. frame. Qed.
#[local] Hint Resolve framed_online framed_decide : restore_framed.
Lemma framed_startRestore ref : framed (S := S) (startRestore ref).
Proof. unfold startRestore. frame. Qed.

Lemma framed_register db : framed (S := S) (registerDatabase db).
Proof. unfold registerDatabase. frame. Qed.
#[local] Hint Resolve framed_register : restore_framed.
Lemma framed_registerDatabases dbs : framed (S := S) (registerDatabases dbs).
Proof. induction dbs; cbn [registerDatabases]; frame. Qed.
#[local] Hint Resolve framed_registerDatabases : restore_framed.
Lemma framed_waitReady n servers : framed (S := S) (waitReady n servers).
Proof. induction n; cbn [waitReady]; frame. Qed.
#[local] Hint Resolve framed_waitReady : restore_framed.
Lemma framed_success ref job : framed (S := S) (handleRestoreSuccess ref job).
Proof.
  unfold handleRestoreSuccess, resumeCluster, waitForClusterReady, registerAllDatabasesAfterRestore, createOrStartDatabase, recreateRestoredDatabaseOnCluster. frame.
Qed.
#[local] Hint Resolve framed_startRestore framed_success : restore_framed.
Lemma framed_progress ref : framed (S := S) (checkRestoreProgress ref).
Proof. unfold checkRestoreProgress, checkRestoreJob, failRestoreJob. frame. Qed.
#[local] Hint Resolve framed_progress : restore_framed.
Lemma framed_reconcile : framed (S := S) ReconcileRestore.
Proof. unfold ReconcileRestore. frame. Qed.

(** A pass of some restore, over the StatefulSets as they are. *)
Definition restorePass (sets sets' : gmap string RestoreSet) : Prop :=
  exists (w w' : RestoreWorld S) r, xw_sets w = sets /\ ReconcileRestore w = (r, w') /\ xw_sets w' = sets'.
End Sizes.

(** C17: no pass of a restore loses the size of an instance. Take a StatefulSet with
    its [n] replicas, and any number of passes of any restores, each over whatever
    the API server, Neo4j and the pods are by then and whichever of its calls fail:
    the set still has its [n] replicas, or it has none and its annotation reads
    [n]. *)
Theorem restores_keep_the_size {S : Type} `{!RestoreEnv S} (sets sets' : gmap string RestoreSet) (name : string) (s : RestoreSet) :
  rtc (restorePass (S := S)) sets sets' -> sets !! name = Some s ->
  0 <= ss_Replicas s <= maxInt32 -> ss_Annotations s !! originalReplicasAnnotation = None ->
  exists s', sets' !! name = Some s' /\ sized (ss_Replicas s) s'.
Proof.
  intros Hr Es Hn Ha. assert (keepsSize sets sets') as Hk.
  { clear -Hr. induction Hr as [|a b c (w & w' & r & <- & E & <-) _ IH]; [reflexivity|]. etransitivity; [by apply (framed_reconcile w r w')|done]. }
  apply (Hk name s); [done|done|by left].
Qed.

(** "orders" of three replicas, and a pass that stops it. *)
Lemma restores_keep_the_size_witness :
  let sets := {["orders" := mkRestoreSet 3 ∅]} in
  let w := demoWorld (demoRestore EmptyString true) (demoStandalone ∅) sets None in
  exists s', xw_sets (@ReconcileRestore unit (plainEnv [] true) w).2 !! "orders" = Some s' /\ sized 3 s'.
Proof.
  intros sets w. pose (E := surjective_pairing (@ReconcileRestore unit (plainEnv [] true) w)).
  refine (@restores_keep_the_size unit (plainEnv [] true) sets _ "orders" (mkRestoreSet 3 ∅)
            (rtc_l _ _ _ _ (ex_intro _ w (ex_intro _ _ (ex_intro _ _ (conj eq_refl (conj E eq_refl))))) (rtc_refl _ _)) eq_refl _ eq_refl).
  by split.
Defined.
