(* ===== verification/RestoreResume.v ===== *)
(** The end of a restore's Job (neo4jrestore_controller.go: checkRestoreProgress,
    handleRestoreSuccess, restoreClusterAfterFailure): when no call of the API server
    fails, the pass that finds the Job ended, or gone, brings the standalone back at
    its size, takes the restore's marker off it and ends the restore. *)
From S2P Require Import Prelude GoStrings GoTime GoRFC3339 ClusterTypes Conditions UpgradeRecord Version UpgradeMachine TargetWait BackupTypes RestoreTypes RestoreCommand RestoreWorld RestoreSeed RestoreAll RestorePass RestoreSafety RestoreSize.

Open Scope Z_scope.

Section Calm.
Context {S : Type} `{!RestoreEnv S}.

(** No call of the API server fails, none is raced. *)
Definition calm (w : RestoreWorld S) : Prop := xw_faults w = [] /\ xw_attempts w = [] /\ xw_marks w = [].

(** What a step leaves as it is in a calm world. *)
Record leaves (w w' : RestoreWorld S) : Prop := mkLeaves {
  leaves_calm : calm w';
  leaves_sets : xw_sets w' = xw_sets w;
  leaves_standalone : xw_standalone w' = xw_standalone w;
  leaves_ident : ident (xw_restore w') = ident (xw_restore w)
}.

Definition restful {A} (m : XW S A) : Prop := forall w r w', m w = (r, w') -> calm w -> leaves w w'.

Lemma leaves_trans w1 w2 w3 : leaves w1 w2 -> leaves w2 w3 -> leaves w1 w3.
Proof. intros [] []. split; congruence. Qed.

Lemma restful_ret {A} (a : A) : restful (mret a).
Proof. by intros w r w' [= _ <-] H. Qed.
Lemma restful_gets {A} (f : RestoreWorld S -> A) : restful (getsX f).
Proof. by intros w r w' [= _ <-] H. Qed.
Lemma restful_bind {A B} (m : XW S A) (f : A -> XW S B) : restful m -> (forall a, restful (f a)) -> restful (m ≫= f).
Proof.
  intros Hm Hf w r w'. unfold mbind, XW_bind. destruct (m w) as [a w1] eqn:E. intros H Hc. pose proof (Hm _ _ _ E Hc) as H1.
  apply (leaves_trans w w1); [done|]. apply (Hf a w1 r w' H). by apply H1.
Qed.
Lemma restful_mutate f : (forall c, ident (f c) = ident c) -> restful (mutateX f).
Proof. intros Hf w r w' [= _ <-] H. by split; [|..|apply Hf]. Qed.
Lemma restful_modify f :
  (forall w, calm (f w) = calm w /\ xw_sets (f w) = xw_sets w /\ xw_standalone (f w) = xw_standalone w /\ xw_restore (f w) = xw_restore w) -> restful (modifyX f).
Proof. intros Hf w r w' [= _ <-] H. destruct (Hf w) as (H1 & H2 & H3 & H4). split; [by rewrite H1|done|done|by rewrite H4]. Qed.
Lemma restful_log a : restful (logX a).
Proof. by apply restful_modify. Qed.
Lemma restful_event reason message : restful (eventX reason message).
Proof. by apply restful_modify. Qed.
Lemma restful_ask {A} (call : S -> A * S) : restful (askX call).
Proof. intros w r w'. unfold askX. destruct (call _) as [a s]. by intros [= _ <-] H. Qed.
Lemma restful_api : restful apiX.
Proof. intros w r w' E H. pose proof H as [Hf _]. revert E. unfold apiX. rewrite Hf. by intros [= _ <-]. Qed.

(** A write of the restore in a calm world goes through. *)
Lemma retryX_calm {A} n (f : Neo4jRestore -> option Neo4jRestore * A) w :
  calm w -> retryX (Datatypes.S n) f w =
    match f (xw_stored w) with (None, v) => (inl v, w) | (Some latest, v) => (inl v, set_xw_fresh false (set_xw_stored latest w)) end.
Proof. intros (_ & Ha & _). cbn [retryX]. unfold nextAttemptX. rewrite Ha. done. Qed.

Lemma restful_retry {A} n (f : Neo4jRestore -> option Neo4jRestore * A) : restful (retryX n f).
Proof.
  intros w r w' E H. destruct n as [|n]; [cbn in E; by injection E as _ <-|]. rewrite retryX_calm in E by done.
  destruct (f (xw_stored w)) as [[l|] v]; by injection E as _ <-.
Qed.
End Calm.

Create HintDb restful.
#[export] Hint Resolve restful_ret restful_gets restful_log restful_event restful_ask restful_api restful_retry : restful.

Ltac ease :=
  repeat match goal with
    | |- restful (let _ := _ in _) => cbv zeta
    | |- restful (_ ≫= _) => apply restful_bind; [|intros ?]
    | |- restful (let '(_, _) := ?x in _) => destruct x
    | |- restful (if ?b then _ else _) => destruct b
    | |- restful (match ?x with _ => _ end) => destruct x
    | |- restful (modifyX _) => apply restful_modify; by intros ?
    | |- restful (mutateX _) => apply restful_mutate; intros ?; repeat case_match; done
    | _ => solve [eauto with restful]
    end.

Section Ends.
Context {S : Type} `{!RestoreEnv S}.

Lemma restful_copy : restful (S := S) copyX.
Proof. apply restful_gets. Qed.
Lemma restful_getStandalone : restful (S := S) getStandalone.
Proof. unfold getStandalone. ease. Qed.
#[local] Hint Resolve restful_copy restful_getStandalone : restful.
Lemma restful_transition phase message : restful (S := S) (transitionRestoreStatus phase message).
Proof. unfold transitionRestoreStatus. ease. Qed.
Lemma restful_dial : restful (S := S) dialStandalone.
Proof. unfold dialStandalone. ease. Qed.
Lemma restful_pods : restful (S := S) podsX.
Proof. unfold podsX. ease. Qed.
Lemma restful_exists db : restful (S := S) (databaseExistsX db).
Proof. unfold databaseExistsX. ease. Qed.
Lemma restful_hooks post : restful (S := S) (runRestoreHooks post).
Proof. unfold runRestoreHooks. ease. Qed.
#[local] Hint Resolve restful_transition restful_dial restful_pods restful_exists restful_hooks : restful.
Lemma restful_update phase message : restful (S := S) (updateRestoreStatus phase message).
Proof. unfold updateRestoreStatus. ease. Qed.
Lemma restful_waitReady n servers : restful (S := S) (waitReady n servers).
Proof. induction n; cbn [waitReady]; ease. Qed.
#[local] Hint Resolve restful_update restful_waitReady : restful.
Lemma restful_ready servers : restful (S := S) (waitForClusterReady servers).
Proof. unfold waitForClusterReady. ease. Qed.
Lemma restful_stats job : restful (S := S) (updateRestoreStats job).
Proof. unfold updateRestoreStats. ease. Qed.
Lemma restful_register db : restful (S := S) (registerDatabase db).
Proof. unfold registerDatabase. ease. Qed.
Lemma restful_markResult db phase message : restful (S := S) (markDatabaseResult db phase message).
Proof. unfold markDatabaseResult, copyResults, setCopyResults. ease. Qed.
#[local] Hint Resolve restful_ready restful_stats restful_register restful_markResult : restful.
Lemma restful_registerDatabases dbs : restful (S := S) (registerDatabases dbs).
Proof. induction dbs; cbn [registerDatabases]; ease. Qed.
#[local] Hint Resolve restful_registerDatabases : restful.
Lemma restful_registerAll : restful (S := S) registerAllDatabasesAfterRestore.
Proof. unfold registerAllDatabasesAfterRestore, ensureDatabaseResults, copyResults, setCopyResults. ease. Qed.
Lemma restful_createOrStart : restful (S := S) createOrStartDatabase.
Proof. unfold createOrStartDatabase. ease. Qed.
Lemma restful_recreate ref : restful (S := S) (recreateRestoredDatabaseOnCluster ref).
Proof. unfold recreateRestoredDatabaseOnCluster. ease. Qed.
End Ends.
#[export] Hint Resolve restful_copy restful_getStandalone restful_transition restful_dial restful_pods restful_exists restful_hooks restful_update
  restful_waitReady restful_ready restful_stats restful_register restful_markResult restful_registerDatabases restful_registerAll restful_createOrStart
  restful_recreate : restful.

(** * The standalone is back *)

Section Back.
Context {S : Type} `{!RestoreEnv S} (restore0 : Neo4jRestore) (n : Z).

(** The StatefulSet [name] has its [n] replicas, and the standalone no marker of a
    restore. *)
Definition atSize (name : string) (w : RestoreWorld S) : Prop :=
  exists s, xw_sets w !! name = Some s /\ ss_Replicas s = n /\ ss_Annotations s !! originalReplicasAnnotation = None.
Definition unmarked (w : RestoreWorld S) : Prop :=
  exists s, xw_standalone w = Some s /\ tg_Annotations s !! RestoreInProgressAnnotation = None.

Definition back (w : RestoreWorld S) : Prop :=
  calm w /\ ident (xw_restore w) = ident restore0 /\ atSize (rx_InstanceRef (nr_Spec restore0)) w /\ unmarked w.
Definition over (w : RestoreWorld S) : Prop := endedPhase (rt_Phase (nr_Status (xw_stored w))) = true.

Lemma back_restful {A} (m : XW S A) : restful m -> triple back m (fun _ => back).
Proof.
  intros Hm w r w' E (Hc & Hi & Hs & Hu). destruct (Hm w r w' E Hc) as [H1 H2 H3 H4].
  split; [done|]. split; [congruence|]. unfold atSize, unmarked in *. by rewrite H2, H3.
Qed.

Lemma then_back {A B} (m : XW S A) (f : A -> XW S B) R : restful m -> (forall a, triple back (f a) R) -> triple back (m ≫= f) R.
Proof. intros Hm Hf. by apply (triple_then _ _ (fun _ => back)); [apply back_restful|]. Qed.

Lemma restoreStatusBody_phase now copy phase message latest :
  exists r, (restoreStatusBody now copy phase message latest).1 = Some r /\ rt_Phase (nr_Status r) = phase.
Proof.
  unfold restoreStatusBody. destruct (restoreReadyCondition phase) as [cs cr]. destruct (SetReadyCondition _ _ _ _ _ _) as [conds ch].
  eexists. split; [reflexivity|]. cbn. destruct (String.eqb phase StatusCompleted); [|done].
  unfold populateRestoreProvenance. cbn. by destruct (rt_ResolvedSource (nr_Status latest)).
Qed.

(** A write of the status in a calm world. *)
Lemma update_phase phase message w r w' :
  updateRestoreStatus phase message w = (r, w') -> calm w -> rt_Phase (nr_Status (xw_stored w')) = phase.
Proof.
  intros E Hc. revert E. unfold updateRestoreStatus, transitionRestoreStatus, copyX, getsX, mbind, XW_bind.
  rewrite (retryX_calm 3) by done. destruct (restoreStatusBody_phase (xw_now w) (xw_restore w) phase message (xw_stored w)) as (l & El & Hl).
  destruct (restoreStatusBody _ _ _ _ _) as [o v]. cbn in El. subst o. destruct (endedPhase phase); intros [= _ <-]; done.
Qed.

Lemma update_over {A} phase message (m : XW S A) :
  endedPhase phase = true -> (forall w r w', m w = (r, w') -> xw_stored w' = xw_stored w) -> restful m ->
  triple back (updateRestoreStatus phase message ≫= fun _ => m) (fun _ w => back w /\ over w).
Proof.
  intros Hp Hs Hm. apply (triple_then _ _ (fun _ w => back w /\ over w)).
  - intros w r w' E Hb. split; [by apply (back_restful _ (restful_update phase message) w r w' E)|].
    unfold over. by rewrite (update_phase _ _ _ _ _ E (proj1 Hb)).
  - intros _ w r w' E [Hb Ho]. split; [by apply (back_restful _ Hm w r w' E)|]. unfold over. by rewrite (Hs _ _ _ E).
Qed.

(** ** Starting it *)

Lemma getSet_calm name (w : RestoreWorld S) :
  calm w -> getSet name w = (match xw_sets w !! name with Some s => Found s | None => NotFound end, w).
Proof. intros (Hf & _). unfold getSet, apiX, getsX, mret, XW_ret, mbind, XW_bind. by rewrite Hf. Qed.

Lemma startCluster_calm w s :
  calm w -> ident (xw_restore w) = ident restore0 ->
  xw_sets w !! (rx_InstanceRef (nr_Spec restore0) +:+ "-server") = None -> xw_sets w !! rx_InstanceRef (nr_Spec restore0) = Some s -> sized n s ->
  exists w', startCluster w = (None, w') /\ calm w' /\ ident (xw_restore w') = ident restore0 /\ atSize (rx_InstanceRef (nr_Spec restore0)) w'
    /\ xw_standalone w' = xw_standalone w.
Proof.
  intros Hc Hi Hsrv Hs Hn. unfold startCluster, resolveStatefulSetName, copyX, getsX, mbind, XW_bind. rewrite (ident_spec _ _ Hi).
  rewrite (getSet_calm _ w), Hsrv by done. rewrite (getSet_calm _ w), Hs by done. cbn [mret XW_ret]. unfold mret at 1, XW_ret at 1.
  rewrite (getSet_calm _ w), Hs by done.
  destruct (startedSet s) as [[s'|]|e] eqn:Est.
  - destruct (sized_started n s s' Hn Est) as [Hr Ha]. pose proof Hc as (Hf & _).
    unfold updateSet, apiX, modifyX, logX, mbind, XW_bind. rewrite Hf. eexists. split; [reflexivity|]. split; [done|]. split; [done|].
    split; [|done]. exists s'. cbn. by rewrite lookup_insert_eq.
  - exists w. split; [done|]. split; [done|]. split; [done|]. split; [|done]. exists s. destruct Hn as [[Hr Ha]|[_ (o & Ho & Hp)]]; [done|].
    unfold startedSet in Est. by rewrite Ho, Hp in Est.
  - destruct Hn as [[Hr Ha]|[_ (o & Ho & Hp)]]; unfold startedSet in Est; [by rewrite Ha in Est|by rewrite Ho, Hp in Est].
Qed.

(** A StatefulSet of the name with "-server", of whichever instance, is taken for the
    standalone's. *)
Theorem server_suffix_wins (w : RestoreWorld S) s :
  calm w -> xw_sets w !! (rx_InstanceRef (nr_Spec (xw_restore w)) +:+ "-server") = Some s ->
  resolveStatefulSetName w = (Ok (rx_InstanceRef (nr_Spec (xw_restore w)) +:+ "-server"), w).
Proof. intros Hc Hs. unfold resolveStatefulSetName, copyX, getsX, mbind, XW_bind. by rewrite getSet_calm, Hs. Qed.

(** Its own marker comes off. *)
Lemma clearMarker_calm w s :
  calm w -> xw_standalone w = Some s -> tg_Annotations s !! RestoreInProgressAnnotation = Some (nr_Name (xw_restore w)) ->
  exists w', clearRestoreInProgressAnnotation w = (None, w') /\ calm w' /\ xw_restore w' = xw_restore w /\ xw_sets w' = xw_sets w /\ unmarked w'.
Proof.
  intros Hc Hs Ho. unfold clearRestoreInProgressAnnotation, copyX, getsX, mbind, XW_bind, backoffSteps. cbn [retryStandalone]. unfold nextMarkX.
  pose proof Hc as (_ & _ & Hm). rewrite Hm, Hs, Ho, String.eqb_refl. eexists. split; [reflexivity|]. split; [done|]. split; [done|]. split; [done|].
  eexists. split; [reflexivity|]. cbn. by rewrite lookup_delete_eq.
Qed.
End Back.

(** * The pass that finds the Job ended *)

Definition jobEnded (job : option RestoreJob) : bool :=
  match job with None => true | Some j => rj_Complete j || (0 <? rj_Succeeded j) || rj_Failed j end.

Section Ended.
Context {S : Type} `{!RestoreEnv S} (restore0 : Neo4jRestore) (n : Z).

(** The standalone is the one restored: its StatefulSet carries its name and is of
    [n] replicas, and its marker is this restore's. *)
Definition held (w : RestoreWorld S) : Prop :=
  calm w /\ ident (xw_restore w) = ident restore0
  /\ xw_sets w !! (rx_InstanceRef (nr_Spec restore0) +:+ "-server") = None
  /\ (exists s, xw_sets w !! rx_InstanceRef (nr_Spec restore0) = Some s /\ sized n s)
  /\ (exists s, xw_standalone w = Some s /\ tg_Annotations s !! RestoreInProgressAnnotation = Some (nr_Name restore0)).

Lemma held_restful {A} (m : XW S A) : restful m -> triple held m (fun _ => held).
Proof.
  intros Hm w r w' E (Hc & Hi & H1 & H2 & H3). destruct (Hm w r w' E Hc) as [E1 E2 E3 E4].
  split; [done|]. split; [congruence|]. by rewrite E2, E3.
Qed.

Lemma then_held {A B} (m : XW S A) (f : A -> XW S B) R : restful m -> (forall a, triple held (f a) R) -> triple held (m ≫= f) R.
Proof. intros Hm Hf. by apply (triple_then _ _ (fun _ => held)); [apply held_restful|]. Qed.

Lemma then_held_copy {B} (f : Neo4jRestore -> XW S B) R : (forall c, ident c = ident restore0 -> triple held (f c) R) -> triple held (copyX ≫= f) R.
Proof. intros Hf w r w' E Hw. apply (Hf (xw_restore w)) in E; [by apply E|]. by destruct Hw as (_ & H & _). Qed.

(** The start and the marker. *)
Lemma start_back {B} (f : option string -> XW S B) R :
  triple (back restore0 n) (f None) R ->
  triple held (e ← startCluster; match e with Some e => f (Some e) | None => _ ← clearRestoreInProgressAnnotation; f None end) R.
Proof.
  intros Hf w r w' E (Hc & Hi & H1 & (s & Hs & Hn) & (sa & Hsa & Hm)).
  destruct (startCluster_calm restore0 n w s Hc Hi H1 Hs Hn) as (w1 & E1 & Hc1 & Hi1 & Ha1 & Hsa1). rewrite Hsa in Hsa1.
  destruct (clearMarker_calm w1 sa Hc1 Hsa1) as (w2 & E2 & Hc2 & Hr2 & Hs2 & Hu2).
  { rewrite Hm. f_equal. by injection Hi1. }
  unfold mbind, XW_bind in E. rewrite E1, E2 in E. apply (Hf w2 r w' E). split; [done|]. split; [congruence|]. split; [|done].
  unfold atSize in *. by rewrite Hs2.
Qed.

Lemma afterFailure_back : rx_StopCluster (nr_Spec restore0) = true -> triple held restoreClusterAfterFailure (fun _ => back restore0 n).
Proof.
  intros Hst. unfold restoreClusterAfterFailure. apply then_held_copy. intros c Hc. rewrite (ident_spec _ _ Hc), Hst.
  intros w r w' E Hw. apply (start_back (fun _ => mret tt) (fun _ => back restore0 n)) with (w := w) (r := r); [by apply triple_mret| |done].
  revert E. unfold mbind, XW_bind. destruct (startCluster w) as [[e|] w1] eqn:Es; [|done].
  destruct Hw as (H0 & Hi & H1 & (s & Hs & Hn) & _). destruct (startCluster_calm restore0 n w s H0 Hi H1 Hs Hn) as (w2 & E2 & _). congruence.
Qed.

Lemma resume_back ref :
  rx_StopCluster (nr_Spec restore0) = true ->
  triple held (resumeCluster ref) (fun r w => back restore0 n w /\ (r <> None -> over w)).
Proof.
  intros Hst. unfold resumeCluster. apply then_held_copy. intros c Hc. rewrite (ident_spec _ _ Hc), Hst.
  apply (start_back (fun o => match o with
    | Some e => _ ← updateRestoreStatus StatusFailed ("Failed to start cluster after restore: " +:+ e); mret (Some (XErr e))
    | None => e ← waitForClusterReady (tg_Servers ref); _ end)).
  apply then_back; [ease|]. intros [e|]; [|by apply triple_mret].
  apply (triple_weaken _ (back restore0 n) _ _ (fun _ w => back restore0 n w /\ over w)); [|done|by intros a w []].
  apply update_over; [done|by intros w r w' [= _ <-]|ease].
Qed.

Lemma success_over ref job :
  rx_StopCluster (nr_Spec restore0) = true -> triple held (handleRestoreSuccess ref job) (fun _ w => back restore0 n w /\ over w).
Proof.
  intros Hst. unfold handleRestoreSuccess. apply then_held; [ease|]. intros now. apply then_held; [ease|]. intros _. apply then_held; [ease|]. intros _.
  apply (triple_then _ _ _ _ _ (resume_back ref Hst)). intros [r|]; [apply triple_mret; intros w [Hb Ho]; split; [done|by apply Ho]|].
  apply (triple_weaken _ (back restore0 n) _ _ (fun _ w => back restore0 n w /\ over w)); [|by intros w []|done].
  apply then_back; [ease|]. intros c. apply then_back; [ease|]. intros e. apply then_back; [ease|]. intros _. apply then_back; [ease|].
  intros [e'|]; [apply update_over; [done|by intros w r w' [= _ <-]|ease]|]. apply then_back; [ease|]. intros e'. apply then_back; [ease|]. intros _.
  apply update_over; [done|by intros w r w' [= _ <-]|ease].
Qed.

Lemma checkJob_over ref :
  rx_StopCluster (nr_Spec restore0) = true ->
  triple (fun w => held w /\ jobEnded (xw_job w) = true) (checkRestoreJob ref) (fun _ w => back restore0 n w /\ over w).
Proof.
  intros Hst w r w' E [Hw Hj]. revert E. unfold checkRestoreJob. unfold mbind at 1, XW_bind at 1.
  assert (getJob w = (match xw_job w with Some j => Found j | None => NotFound end, w)) as ->.
  { destruct Hw as [(Hf & _) _]. unfold getJob, apiX, getsX, mret, XW_ret, mbind, XW_bind. by rewrite Hf. }
  assert (forall {A} (m : XW S A) Q, triple (back restore0 n) m Q -> triple held (restoreClusterAfterFailure ≫= fun _ => m) Q) as Hfail.
  { intros A m Q Hm. by apply (triple_then _ _ _ _ _ (afterFailure_back Hst)). }
  destruct (xw_job w) as [j|] eqn:Ej; cbn in Hj.
  - destruct (rj_Complete j || (0 <? rj_Succeeded j)) eqn:Ec; [intros E; by apply (success_over ref j Hst (set_xw_log (JobEnded :: xw_log w) w) r w' E)|]. cbn in Hj. rewrite Hj.
    intros E. refine (Hfail _ _ (fun _ w => back restore0 n w /\ over w) _ w r w' E Hw).
    apply then_back; [ease|]. intros msg. apply update_over; [done|by intros ? ? ? [= _ <-]|ease].
  - unfold failRestoreJob. intros E. refine (Hfail _ _ (fun _ w => back restore0 n w /\ over w) _ w r w' E Hw). apply update_over; [done|by intros ? ? ? [= _ <-]|ease].
Qed.
End Ended.

(** C18: the end of a restore's Job. Say the restore is running, it stopped the
    standalone (its marker is on it, and the StatefulSet records its [n] replicas or
    has them back already) and no call of the API server fails. When its Job has
    succeeded, has failed or is no longer there, then the very next pass ends the
    restore (Completed or Failed), leaves the StatefulSet at [n] replicas without
    the record, and the standalone without the marker, so that the next restore and
    the standalone's own controller may go on; whatever Neo4j, the pods and the hooks
    answer. *)
Theorem ended_job_frees_the_standalone {S : Type} `{!RestoreEnv S} (w w' : RestoreWorld S) (r : xresult) (s : TargetCR) (n : Z) :
  let restore := xw_restore w in
  held restore n w -> rx_StopCluster (nr_Spec restore) = true -> jobEnded (xw_job w) = true ->
  nr_Deleting restore = false -> RestoreFinalizer ∈ nr_Finalizers restore ->
  rt_Phase (nr_Status restore) = StatusRunning -> nr_Annotations restore !! AnnotationCypherRestoreIssued = None ->
  rx_InstanceRef (nr_Spec restore) <> EmptyString -> xw_cluster w = None -> xw_standalone w = Some s ->
  tg_ImageTag s <> EmptyString -> validateVersion (tg_ImageTag s) = None ->
  ReconcileRestore w = (r, w') ->
  atSize n (rx_InstanceRef (nr_Spec restore)) w' /\ unmarked w' /\ endedPhase (rt_Phase (nr_Status (xw_stored w'))) = true.
Proof.
  intros restore Hw Hst Hj Hd Hf Hp Ha Hi Hcl Hsa Ht Hv E. pose proof Hw as ((Hfl & _) & _ & _ & _ & (s' & Hs' & Hm)).
  assert (s' = s) as -> by congruence. apply String.eqb_neq in Hi, Ht.
  assert (getCluster w = (NotFound, w)) as Ec by (unfold getCluster, apiX, getsX, mret, XW_ret, mbind, XW_bind; by rewrite Hfl, Hcl).
  assert (getStandalone w = (Found s, w)) as Es by (unfold getStandalone, apiX, getsX, mret, XW_ret, mbind, XW_bind; by rewrite Hfl, Hsa).
  assert (isRestoreTargetTrueCluster w = (Ok false, w)) as Et.
  { unfold isRestoreTargetTrueCluster, mbind, XW_bind. rewrite Ec. unfold copyX, getsX. by rewrite Es. }
  assert (restoreOnJobPathX false w = (true, w)) as Ej.
  { unfold restoreOnJobPathX, restoreStandalone, mbind, XW_bind. rewrite Es. unfold copyX, getsX, mret, XW_ret, restoreOnJobPath, holdsStopped.
    fold restore. rewrite Hm. cbn [default]. by rewrite String.eqb_refl. }
  assert (routeToProgress w = (true, w)) as Er.
  { unfold routeToProgress, copyX, getsX, mbind, XW_bind. fold restore. rewrite Hp. cbn [negb]. rewrite String.eqb_refl. cbn [negb].
    destruct (rx_AllDatabases _); [|done]. cbn [negb]. by rewrite Et. }
  assert (checkRestoreJob (standaloneAsCluster s) w = (r, w')) as Eck.
  { rewrite <- E. unfold ReconcileRestore, copyX, getsX. unfold mbind at 1, XW_bind at 1. fold restore. rewrite Hd, bool_decide_true by done. cbn [negb].
    assert (restoreEndedAtGeneration restore = false) as -> by (unfold restoreEndedAtGeneration; by rewrite Hp). rewrite Hi.
    unfold mbind, XW_bind, getClusterRef. unfold mbind, XW_bind. rewrite Ec, Es. cbn [mret XW_ret tg_ImageTag standaloneAsCluster].
    unfold mret, XW_ret. cbn [tg_ImageTag standaloneAsCluster]. rewrite Ht, Hv, Er. unfold checkRestoreProgress, mbind, XW_bind. cbn [copyX getsX].
    unfold copyX, getsX. fold restore. rewrite Ha, bool_decide_false, Et, Ej by (by intros []). done. }
  destruct (checkJob_over restore n (standaloneAsCluster s) Hst w r w' Eck) as [(_ & _ & H1 & H2) H3]; done.
Qed.

(** * A Job that fails *)

(** "orders" after its restore stopped it: the marker, and its three replicas on
    record. *)
Definition demoStopped : RestoreWorld unit :=
  demoWorld (demoRestore StatusRunning true) (demoStandalone {[RestoreInProgressAnnotation := "r1"]})
    {["orders" := mkRestoreSet 0 {[originalReplicasAnnotation := "3"]}]} None.

Lemma ended_job_frees_the_standalone_witness :
  let w' := (@ReconcileRestore unit (plainEnv [] true) demoStopped).2 in
  atSize 3 "orders" w' /\ unmarked w' /\ endedPhase (rt_Phase (nr_Status (xw_stored w'))) = true.
Proof.
  pose (E := surjective_pairing (@ReconcileRestore unit (plainEnv [] true) demoStopped)).
  refine (@ended_job_frees_the_standalone unit (plainEnv [] true) demoStopped _ _ (demoStandalone {[RestoreInProgressAnnotation := "r1"]}) 3
            _ eq_refl eq_refl eq_refl _ eq_refl eq_refl _ eq_refl eq_refl _ eq_refl E); clear E.
  - split; [done|]. split; [done|]. split; [by vm_compute|]. split; [|by eexists].
    eexists. split; [by vm_compute|]. right. split; [done|]. exists "3". by split; vm_compute.
  - by left.
  - done.
  - done.
Defined.
