(* ===== verification/BackupLog.v ===== *)
(** What a backup's Pod log says (src/internal/controller/neo4jbackup_log_parser.go
    and the shard names of neo4jbackup_sharded.go): the artifacts neo4j-admin wrote,
    their types, and the validation it printed. The artifact names recorded from the
    log are what a restore reads, so the theorem is that a run's own artifact is the
    one recorded. *)
From S2P Require Import Prelude GoStrings GoRegexp GoTime GoRFC3339 ClusterTypes Conditions BackupTypes RestoreTypes RestoreCommand.

Open Scope Z_scope.

(** * Lines *)

(** bufio.Scanner with the buffer of 1 MiB the parsers give it: a line that does
    not fit ends the scan. *)
Definition maxLine : Z := 1024 * 1024.

Definition dropCR (line : string) : string := strings.TrimSuffix line (String "013" EmptyString).

Fixpoint takeLines (lines : list string) : list string :=
  match lines with
  | [] => []
  | [EmptyString] => []
  | line :: rest => if maxLine <=? Z.of_nat (String.length line) then [] else dropCR line :: takeLines rest
  end.

Definition scanLines (log : string) : list string := takeLines (strings.Split log regexp.newline).

(** * Expressions *)

(** [(?:g|p)\d{3}]. *)
Definition shardSuffix : regexp.re := regexp.Cat (regexp.One (regexp.oneOf "gp")) (regexp.digits 3).

Definition shardArtifactFilenameRegex : regexp.re :=
  regexp.Group 1 (regexp.Cat
    (regexp.Group 2 (regexp.Cat (regexp.One regexp.letter) (regexp.Cat (regexp.Many false artifactNameByte)
       (regexp.Cat (regexp.literal "-") shardSuffix))))
    (regexp.Cat (regexp.literal "-") (regexp.Cat (regexp.plus false stampByte) (regexp.literal ".backup")))).

Definition shardArtifactSizeRegex : regexp.re :=
  regexp.Cat (regexp.Group 1 (regexp.plus false isDigit)) (regexp.Cat (regexp.Many false regexp.space)
    (regexp.Cat (regexp.literal "byte") (regexp.Cat (regexp.optional (regexp.literal "s")) regexp.WordBoundary))).

Definition standardArtifactFilenameRegex : regexp.re :=
  regexp.Group 1 (regexp.Cat
    (regexp.Group 2 (regexp.Cat (regexp.One regexp.letter) (regexp.Many true artifactNameByte)))
    (regexp.Cat (regexp.literal "-") (regexp.Cat
      (regexp.Group 3 (regexp.Cat (regexp.literal "20") (regexp.Cat (regexp.One isDigit) (regexp.Cat (regexp.One isDigit)
         (regexp.plus false stampByte)))))
      (regexp.literal ".backup")))).

Definition shardSuffixRegex : regexp.re := regexp.Cat (regexp.literal "-") (regexp.Cat shardSuffix regexp.TextEnd).

Definition backupTypeLineRegex : regexp.re :=
  regexp.Cat regexp.WordBoundary (regexp.Cat
    (regexp.Group 1 (regexp.Alt (regexp.literalFold "full") (regexp.literalFold "differential")))
    (regexp.Cat (regexp.literalFold " backup of database '") (regexp.Cat
      (regexp.Group 2 (regexp.plus false (regexp.noneOf "'"))) (regexp.literal "'")))).

Definition shardValidationStatusRegex : regexp.re :=
  let spaces := regexp.Many false regexp.space in
  let bar := regexp.literal "|" in
  regexp.Cat regexp.LineBegin (regexp.Cat spaces (regexp.Cat bar (regexp.Cat spaces (regexp.Cat
    (regexp.Group 1 (regexp.Cat (regexp.One regexp.letter) (regexp.Cat (regexp.Many false artifactNameByte)
       (regexp.Cat (regexp.literal "-") shardSuffix))))
    (regexp.Cat spaces (regexp.Cat bar (regexp.Cat (regexp.plus false (regexp.noneOf "|")) (regexp.Cat bar (regexp.Cat spaces
      (regexp.Cat (regexp.Group 2 (regexp.plus true (regexp.noneOf "|")))
        (regexp.Cat spaces (regexp.Cat bar (regexp.Cat spaces regexp.LineEnd))))))))))))).

(** The matches of the lines of a log, with the line of each. *)
Definition matchesOf (r : regexp.re) (log : string) : list (string * regexp.captures) :=
  flat_map (fun line => pair line <$> regexp.FindAllStringSubmatch r line) (scanLines log).

(** * Artifacts *)

(** The last match of the database wins. *)
Definition winner (dbName found : string) (m : regexp.captures) : string :=
  if strings.EqualFold (regexp.group 2 m) dbName then regexp.group 1 m else found.

Definition parseStandardArtifactFromLog (logContent dbName : string) : string :=
  if String.eqb dbName EmptyString then EmptyString
  else fold_left (winner dbName) (snd <$> matchesOf standardArtifactFilenameRegex logContent) EmptyString.

(** The databases in the order they appear, and the last file of each. *)
Definition addArtifact (acc : list string * gmap string string) (m : regexp.captures) : list string * gmap string string :=
  let '(order, byDB) := acc in
  let filename := regexp.group 1 m in
  let db := regexp.group 2 m in
  if regexp.MatchString shardSuffixRegex db then acc
  else (match byDB !! db with Some _ => order | None => order ++ [db] end, <[db := filename]> byDB).

Definition parseAllDatabaseArtifactsFromLog (logContent : string) : list DatabaseArtifact :=
  let '(order, byDB) := fold_left addArtifact (snd <$> matchesOf standardArtifactFilenameRegex logContent) ([], ∅) in
  (fun db => mkDatabaseArtifact db (default EmptyString (byDB !! db)) 0 EmptyString) <$> order.

Definition backupArtifactDiff : string := "DIFF".

Definition addType (types : gmap string string) (m : regexp.captures) : gmap string string :=
  let db := strings.ToLower (regexp.group 2 m) in
  if strings.EqualFold (regexp.group 1 m) "full" then <[db := backupArtifactFull]> types
  else match types !! db with Some _ => types | None => <[db := backupArtifactDiff]> types end.

Definition parseArtifactTypesFromLog (logContent : string) : gmap string string :=
  fold_left addType (regexp.FindAllStringSubmatch backupTypeLineRegex logContent) ∅.

Definition artifactTypeOf (types : gmap string string) (database : string) : string :=
  default EmptyString (types !! strings.ToLower database).

Definition set_sa_Type (t : string) (a : ShardArtifact) : ShardArtifact := mkShardArtifact (sa_ShardName a) (sa_Filename a) (sa_Size a) t.

Definition recordArtifactTypes (run : BackupRun) (logContent dbName : string) : BackupRun :=
  let types := parseArtifactTypesFromLog logContent in
  let shard := fun a => set_sa_Type (artifactTypeOf types (sa_ShardName a)) a in
  mkBackupRun (br_RunID run) (br_StartTime run) (br_CompletionTime run) (br_Status run) (br_Error run) (br_Stats run)
    (br_BackupsPath run) (br_ArtifactFilename run)
    (if String.eqb (br_ArtifactFilename run) EmptyString then br_ArtifactType run else artifactTypeOf types dbName)
    (shard <$> br_ShardArtifacts run)
    ((fun a => mkDatabaseArtifact (da_Database a) (da_Filename a) (da_Size a) (artifactTypeOf types (da_Database a))) <$> br_DatabaseArtifacts run)
    (br_ShardedDatabasesExcluded run)
    ((fun f => mkShardedFamilyArtifacts (sf_Family f) (shard <$> sf_ShardArtifacts f)) <$> br_ShardedFamilies run)
    (br_Validation run).

Definition differentialShards (artifacts : list ShardArtifact) : list string :=
  sa_ShardName <$> List.filter (fun a => String.eqb (sa_Type a) backupArtifactDiff) artifacts.

Definition runDifferentialShards (run : BackupRun) : list string :=
  differentialShards (br_ShardArtifacts run) ++ flat_map (fun f => differentialShards (sf_ShardArtifacts f)) (br_ShardedFamilies run).

(** * Sharded families *)

(** The name without the suffix of a shard; empty when it has none. *)
Definition shardFamily (db : string) : string :=
  let suffix := regexp.FindString shardSuffixRegex db in
  if String.eqb suffix EmptyString then EmptyString else strings.TrimSuffix db suffix.

Definition addFamily (out : list string) (m : regexp.captures) : list string :=
  let family := shardFamily (regexp.group 2 m) in
  if String.eqb family EmptyString || existsb (String.eqb family) out then out else out ++ [family].

Definition parseShardedFamiliesExcludedFromLog (logContent : string) : list string :=
  fold_left addFamily (snd <$> matchesOf standardArtifactFilenameRegex logContent) [].

(** The size of the line, when it has one that fits an int64. *)
Definition lineSize (line : string) : option Z :=
  match regexp.FindStringSubmatch shardArtifactSizeRegex line with
  | Some m => strconv.Atoi (regexp.group 1 m)
  | None => None
  end.

Definition addShard (out : gmap string ShardArtifact) (hit : string * regexp.captures) : gmap string ShardArtifact :=
  let '(line, m) := hit in
  let shardName := regexp.group 2 m in
  let a := default (mkShardArtifact EmptyString EmptyString 0 EmptyString) (out !! shardName) in
  <[shardName := mkShardArtifact shardName (regexp.group 1 m) (default (sa_Size a) (lineSize line)) (sa_Type a)]> out.

Definition parseShardArtifactsFromLog (logContent : string) : gmap string ShardArtifact :=
  fold_left addShard (matchesOf shardArtifactFilenameRegex logContent) ∅.

Definition groupShardedFamiliesFromLog (logContent : string) : list ShardedFamilyArtifacts :=
  let shards := parseShardArtifactsFromLog logContent in
  let names := sort.Strings (map_to_list shards).*1 in
  let families := sort.Strings (remove_dups (List.filter (fun f => negb (String.eqb f EmptyString)) (shardFamily <$> names))) in
  (fun f => mkShardedFamilyArtifacts f
     (omap (fun n => if String.eqb (shardFamily n) f then shards !! n else None) names)) <$> families.

(** [expected] with what the log says; of log names that differ in case only, one. *)
Definition mergeShardArtifactsFromLog (expected : list ShardArtifact) (fromLog : gmap string ShardArtifact) : list ShardArtifact :=
  match map_to_list fromLog with
  | [] => expected
  | found =>
      let byName : gmap string ShardArtifact := fold_left (fun m p => <[strings.ToLower p.1 := p.2]> m) found ∅ in
      (fun e => match byName !! strings.ToLower (sa_ShardName e) with
                | Some a => mkShardArtifact (sa_ShardName e)
                              (if String.eqb (sa_Filename a) EmptyString then sa_Filename e else sa_Filename a)
                              (if 0 <? sa_Size a then sa_Size a else sa_Size e) (sa_Type e)
                | None => e
                end) <$> expected
  end.

(** * Validation *)

Definition classifyShardValidationStatus (statusText : string) : string :=
  let trimmed := strings.TrimSpace statusText in
  if String.eqb trimmed "OK" then "OK"
  else
    let lower := strings.ToLower trimmed in
    if strings.Contains lower "ahead" then "Ahead"
    else if strings.Contains lower "behind" then "Behind"
    else "Unknown".

Definition validateRawOutputCap : nat := Z.to_nat 2048.

Definition truncateForRaw (s : string) : string :=
  if (String.length s <=? validateRawOutputCap)%nat then s
  else strings.upto validateRawOutputCap s +:+ String regexp.newline "…(truncated)".

Definition parseValidationFromLog (logBody : string) : option BackupValidationResult :=
  match regexp.FindAllStringSubmatch shardValidationStatusRegex logBody with
  | [] => if strings.Contains logBody "backup validate"
          then Some (mkBackupValidationResult "Unknown" [] (truncateForRaw logBody)) else None
  | matches =>
      let perShardByName : gmap string string :=
        fold_left (fun acc m => <[regexp.group 1 m := classifyShardValidationStatus (regexp.group 2 m)]> acc) matches ∅ in
      let perShard := (fun n => mkShardValidationStatus n (default EmptyString (perShardByName !! n)))
                        <$> sort.Strings (map_to_list perShardByName).*1 in
      Some (mkBackupValidationResult
              (if forallb (fun s => String.eqb (sv_Status s) "OK") perShard then "OK" else "Degraded")
              perShard (truncateForRaw logBody))
  end.

(** * The shards a run must have *)

(** [%03d]. *)
Definition pad3 (i : Z) : string := if i <? 1000 then gotime.pad 3 i else strconv.Itoa i.

(** What is read of a Neo4jShardedDatabase: spec.name, spec.clusterRef,
    spec.propertySharding.propertyShards, status.shardingReady and, of
    status.lastBackup, the run. *)
Record ShardedDatabase := mkShardedDatabase {
  sh_Name : string;
  sh_SpecName : string;
  sh_ClusterRef : string;
  sh_PropertyShards : Z;
  sh_ShardingReady : bool;
  sh_LastBackup : option (string * string * string * option Z)
}.

Definition expectedShardArtifacts (scopedName : string) (sd : ShardedDatabase) : list ShardArtifact :=
  let logical := strings.ToLower (if String.eqb (sh_SpecName sd) EmptyString then scopedName else sh_SpecName sd) in
  let stub := fun suffix => mkShardArtifact (logical +:+ suffix) EmptyString 0 EmptyString in
  stub "-g000" :: ((fun i => stub ("-p" +:+ pad3 (Z.of_nat i))) <$> List.seq 0 (Z.to_nat (sh_PropertyShards sd))).

Definition shardedLogicalName (scopedName : string) (sd : option ShardedDatabase) : string :=
  match sd with
  | Some sd => strings.ToLower (if String.eqb (sh_SpecName sd) EmptyString then scopedName else sh_SpecName sd)
  | None => strings.ToLower scopedName
  end.

Definition shardedBackupPatterns (logical : string) : list string :=
  let name := strings.ToLower logical in [name +:+ "-g*"; name +:+ "-p*"].

Definition matchesShardedBackupPattern (prefix name : string) : bool :=
  existsb (fun p => (String.length p <? String.length name)%nat && strings.HasPrefix name p) [prefix +:+ "-g"; prefix +:+ "-p"].

(** [^<name>-(g|p)\d{3}$]. *)
Definition shardedShardNamePattern (logicalName : string) : regexp.re :=
  regexp.Cat regexp.TextBegin (regexp.Cat (regexp.literal logicalName) (regexp.Cat (regexp.literal "-") (regexp.Cat shardSuffix regexp.TextEnd))).

Definition shardedGlobPoisoning (logical : string) (dbs : list string) : list string :=
  let prefix := strings.ToLower logical in
  fold_left (fun poisoning db =>
    let name := strings.ToLower db in
    if negb (matchesShardedBackupPattern prefix name) then poisoning
    else if regexp.MatchString (shardedShardNamePattern prefix) name then poisoning
    else if existsb (String.eqb db) poisoning then poisoning else poisoning ++ [db]) dbs [].
