(* ===== verification/BackupArtifact.v ===== *)
(** The artifact recorded for a run is the one its log names
    (standardArtifactFilenameRegex, parseStandardArtifactFromLog and
    parseAllDatabaseArtifactsFromLog of
    src/internal/controller/neo4jbackup_log_parser.go). The expression is related to
    [lazyName], which decides it in one pass over the text; a restore uses that to
    tell the database of an artifact. *)
From S2P Require Import Prelude GoStrings GoRegexp ClusterTypes Conditions BackupTypes RestoreTypes RestoreCommand BackupLog.

Open Scope Z_scope.

(** * The expression, in one pass *)

Lemma CutPrefix_Some s p t : strings.CutPrefix s p = Some t <-> s = p +:+ t.
Proof.
  split; [|intros ->; apply CutPrefix_app]. unfold strings.CutPrefix. destruct (strings.HasPrefix s p) eqn:E; [|done].
  apply HasPrefix_spec in E as [u ->]. rewrite from_length_app. by intros [= ->].
Qed.

Lemma CutPrefix_cons c s d p : strings.CutPrefix (String c s) (String d p) = if Ascii.eqb d c then strings.CutPrefix s p else None.
Proof. unfold strings.CutPrefix. cbn [strings.HasPrefix String.length strings.from]. by destruct (Ascii.eqb d c). Qed.

Lemma HasSuffix_dot c a : strings.HasSuffix (String c a) "." = match a with EmptyString => Ascii.eqb c "."%char | _ => strings.HasSuffix a "." end.
Proof.
  unfold strings.HasSuffix. destruct a as [|d a]; cbn [String.length Nat.sub Nat.leb andb strings.from]; [by destruct (Ascii.eqb_spec c "."%char) as [->|]; simpl; [|destruct (Ascii.eqb_spec c "."%char)]|].
  by rewrite Nat.sub_0_r.
Qed.

(** What follows [[\d.:T+\-Z]*\.backup] at the start of [s]. *)
Definition dotBackup (s : string) : option string :=
  let '(run, rest) := spanStamp s in if strings.HasSuffix run "." then strings.CutPrefix rest "backup" else None.

Lemma dotBackup_cons c s : dotBackup (String c s) =
  if stampByte c then match dotBackup s with Some t => Some t | None => strings.CutPrefix (String c s) ".backup" end else None.
Proof.
  unfold dotBackup. cbn [spanStamp]. destruct (stampByte c) eqn:Hc; [|done]. destruct (spanStamp s) as [a b] eqn:E.
  rewrite HasSuffix_dot. rewrite CutPrefix_cons. destruct a as [|d a].
  - assert (b = s) as ->. { destruct s as [|x s]; cbn in E; [by injection E|]. destruct (stampByte x); [destruct (spanStamp s)|]; by injection E. }
    change (strings.HasSuffix EmptyString ".") with false. rewrite Ascii.eqb_sym. done.
  - destruct (strings.HasSuffix (String d a) ".") eqn:Es; [destruct (strings.CutPrefix b "backup"); [done|]|]; destruct (Ascii.eqb "." c); try done;
      destruct s as [|x s]; try done; cbn [spanStamp] in E; destruct (stampByte x) eqn:Hx; try done; rewrite CutPrefix_cons;
      destruct (Ascii.eqb_spec "b" x) as [<-|]; done.
Qed.

(** A continuation that always succeeds. *)
Definition succeeds (k : regexp.cont) : Prop := forall prev s caps, is_Some (k prev s caps).

Lemma run_stamps whole caps k : succeeds k -> forall s prev,
  regexp.repeat false stampByte caps (fun prev' s' caps' => regexp.run (regexp.literal ".backup") prev' s' ((3%nat, regexp.between whole s') :: caps') k) prev s =
  match dotBackup s with
  | Some t => k (Some "p"%char) t ((3%nat, regexp.between whole (".backup" +:+ t)) :: caps)
  | None => None
  end.
Proof.
  intros Hk. induction s as [|c s IH]; intros prev; cbn [regexp.repeat]; [by rewrite run_literal|].
  rewrite dotBackup_cons, run_literal. destruct (stampByte c) eqn:Hc.
  - rewrite IH. destruct (dotBackup s) as [t|].
    + by destruct (Hk (Some "p"%char) t ((3%nat, regexp.between whole (".backup" +:+ t)) :: caps)) as [m ->].
    + destruct (strings.CutPrefix (String c s) ".backup") as [t|] eqn:E; [|done]. apply CutPrefix_Some in E as ->. done.
  - rewrite CutPrefix_cons. by destruct (Ascii.eqb_spec "." c) as [<-|].
Qed.

Lemma stampThenBackup_year s : stampThenBackup s =
  match strings.CutPrefix s "20" with
  | Some (String d1 (String d2 s')) => if isDigit d1 && isDigit d2 then match s' with
                                       | String c s'' => if stampByte c then dotBackup s'' else None
                                       | EmptyString => None
                                       end else None
  | _ => None
  end.
Proof.
  destruct s as [|c0 s]; [done|]. rewrite CutPrefix_cons. destruct (Ascii.eqb_spec "2" c0) as [<-|H0].
  2: { destruct c0 as [[] [] [] [] [] [] [] []]; done. }
  destruct s as [|c1 s]; [done|]. rewrite CutPrefix_cons. destruct (Ascii.eqb_spec "0" c1) as [<-|H1].
  2: { destruct c1 as [[] [] [] [] [] [] [] []]; done. }
  destruct s as [|d1 [|d2 s]]; try done. unfold stampThenBackup, strings.CutPrefix. cbn [strings.HasPrefix String.length strings.from].
  destruct (isDigit d1 && isDigit d2); [|done]. destruct s as [|c s]; [done|]. cbn [spanStamp]. destruct (stampByte c); [|done].
  unfold dotBackup. destruct (spanStamp s) as [a b]. cbn [String.length]. rewrite HasSuffix_dot. destruct a as [|x a]; done.
Qed.

(** The rest of the expression after the name and its dash. *)
Definition yearThenBackup : regexp.re :=
  regexp.Cat
    (regexp.Group 3 (regexp.Cat (regexp.literal "20") (regexp.Cat (regexp.One isDigit) (regexp.Cat (regexp.One isDigit)
       (regexp.plus false stampByte)))))
    (regexp.literal ".backup").

Lemma run_year whole caps k : succeeds k -> forall s prev,
  match stampThenBackup s with
  | Some t => exists year, regexp.run yearThenBackup prev s caps (fun p s' caps' => k p s' ((1%nat, regexp.between whole s') :: caps'))
      = k (Some "p"%char) t ((1%nat, regexp.between whole t) :: (3%nat, year) :: caps)
  | None => regexp.run yearThenBackup prev s caps (fun p s' caps' => k p s' ((1%nat, regexp.between whole s') :: caps')) = None
  end.
Proof.
  intros Hk s prev. rewrite stampThenBackup_year.
  replace (regexp.run _ _ _ _ _) with (match strings.CutPrefix s "20" with
    | Some s' => match s' with
                 | String d1 s' => if isDigit d1 then match s' with
                     | String d2 s' => if isDigit d2 then match s' with
                         | String c s'' => if stampByte c then
                             regexp.repeat false stampByte caps (fun prev' s' caps' => regexp.run (regexp.literal ".backup") prev' s' ((3%nat, regexp.between s s') :: caps')
                               (fun p s' caps' => k p s' ((1%nat, regexp.between whole s') :: caps'))) (Some c) s'' else None
                         | EmptyString => None end else None
                     | EmptyString => None end else None
                 | EmptyString => None end
    | None => None end).
  - destruct (strings.CutPrefix s "20") as [[|d1 [|d2 s']]|]; [done|by destruct (isDigit d1)| |done].
    destruct (isDigit d1), (isDigit d2); cbn [andb]; try done. destruct s' as [|c s']; [done|]. destruct (stampByte c); [|done].
    rewrite run_stamps by (intros ???; apply Hk). destruct (dotBackup s') as [t|]; [by eexists|done].
  - unfold yearThenBackup, regexp.plus. cbn [regexp.run]. rewrite run_literal. destruct (strings.CutPrefix s "20") as [[|d1 [|d2 [|c s']]]|]; done.
Qed.
(** The match at the start of [s]: the database, and what follows. *)
Definition standardHere (s : string) : option (string * string) :=
  match s with
  | EmptyString => None
  | String c s' => if regexp.letter c then match lazyName s' with Some (name, rest) => Some (String c name, rest) | None => None end else None
  end.

Lemma lazyName_split s name rest : lazyName s = Some (name, rest) -> exists t, s = name +:+ "-" +:+ t /\ stampThenBackup t = Some rest.
Proof.
  revert name. induction s as [|c s IH]; intros name; cbn [lazyName]; [done|]. destruct (Ascii.eqb_spec c "-"%char) as [->|Hc].
  - destruct (stampThenBackup s) as [t|] eqn:E; [intros [= <- <-]; by exists s|]. change (artifactNameByte "-"%char) with true. cbv iota.
    destruct (lazyName s) as [[n r]|]; [|done]. intros [= <- <-]. destruct (IH n eq_refl) as (t & -> & Ht). by exists t.
  - destruct (artifactNameByte c); [|done]. destruct (lazyName s) as [[n r]|]; [|done]. intros [= <- <-].
    destruct (IH n eq_refl) as (t & -> & Ht). by exists t.
Qed.

(** What the expression does after [name] was read of the group of the name that
    starts at [whole], for the match that starts there. *)
Lemma run_name whole : forall s name prev,
  whole = name +:+ s ->
  regexp.repeat true artifactNameByte [] (fun prev' s' caps' =>
    regexp.run (regexp.Cat (regexp.literal "-") yearThenBackup) prev' s' ((2%nat, regexp.between whole s') :: caps')
      (fun _ rest caps => Some (rest, (1%nat, regexp.between whole rest) :: caps))) prev s =
  match lazyName s with
  | Some (n, rest) => regexp.run yearThenBackup (Some "-"%char) (strings.from (S (String.length n)) s) [(2%nat, name +:+ n)]
      (fun _ rest caps => Some (rest, (1%nat, regexp.between whole rest) :: caps))
  | None => None
  end.
Proof.
  pose (k := (fun _ rest caps => Some (rest, caps)) : regexp.cont).
  assert (succeeds k) as Hk by (intros ???; by eexists).
  induction s as [|c s IH]; intros name prev Hw; cbn [regexp.repeat lazyName].
  { cbn [regexp.run]. by rewrite run_literal. }
  cbn [regexp.run]. rewrite run_literal, CutPrefix_cons.
  assert (regexp.between whole (String c s) = name) as -> by (rewrite Hw; apply between_app).
  assert (whole = (name +:+ String c EmptyString) +:+ s) as Hw' by (by rewrite Hw, string_app_assoc).
  specialize (IH _ (Some c) Hw').
  assert (forall n, (name +:+ String c EmptyString) +:+ n = name +:+ String c n) as Hn by (intros n; by rewrite string_app_assoc).
  rewrite (Ascii.eqb_sym "-"). destruct (Ascii.eqb_spec c "-"%char) as [->|Hc].
  - assert (strings.CutPrefix s EmptyString = Some s) as -> by (by destruct s).
    pose proof (run_year whole [(2%nat, name)] k Hk s (Some "-"%char)) as Hy. change (lastByte prev "-") with (Some "-"%char).
    unfold k in Hy. destruct (stampThenBackup s) as [t|].
    + destruct Hy as [y Hy]. cbn [String.length strings.from]. rewrite string_app_nil_r. etransitivity; [|symmetry; exact Hy].
      match type of Hy with ?e = _ => match goal with |- match ?e' with _ => _ end = _ => change e' with e end end. by rewrite Hy.
    + match type of Hy with ?e = _ => match goal with |- match ?e' with _ => _ end = _ => change e' with e end end. rewrite Hy. change (artifactNameByte "-"%char) with true. cbv iota. etransitivity; [exact IH|]. destruct (lazyName s) as [[n r]|]; [|done].
      by rewrite Hn.
  - destruct (artifactNameByte c); [|done]. etransitivity; [exact IH|]. destruct (lazyName s) as [[n r]|]; [|done]. by rewrite Hn.
Qed.

(** The expression matches exactly where the one pass does, with the same name. *)
Lemma here_standard prev s :
  match standardHere s with
  | Some (db, rest) => exists year, regexp.here standardArtifactFilenameRegex prev s
                         = Some (rest, [(1%nat, regexp.between s rest); (3%nat, year); (2%nat, db)])
  | None => regexp.here standardArtifactFilenameRegex prev s = None
  end.
Proof.
  unfold standardHere. destruct s as [|c s]; [done|]. destruct (regexp.letter c) eqn:El.
  2: { unfold regexp.here, standardArtifactFilenameRegex. cbn [regexp.run]. by rewrite El. }
  pose proof (run_name (String c s) s (String c EmptyString) (Some c) eq_refl) as Hr.
  match type of Hr with _ = ?rhs => assert (regexp.here standardArtifactFilenameRegex prev (String c s) = rhs) as Hh end.
  { rewrite <- Hr. unfold regexp.here, standardArtifactFilenameRegex. fold yearThenBackup. cbn [regexp.run]. rewrite El. reflexivity. }
  clear Hr.
  destruct (lazyName s) as [[n rest]|] eqn:E; [|done]. destruct (lazyName_split _ _ _ E) as (t & -> & Ht).
  assert (strings.from (S (String.length n)) (n +:+ "-" +:+ t) = t) as Hfrom.
  { replace (n +:+ "-" +:+ t) with ((n +:+ "-") +:+ t) by apply string_app_assoc.
    replace (S (String.length n)) with (String.length (n +:+ "-")) by (rewrite string_length_app; simpl; lia). apply from_length_app. }
  pose proof (run_year (String c (n +:+ "-" +:+ t)) [(2%nat, String c n)] (fun _ rest caps => Some (rest, caps)) ltac:(intros ???; by eexists) t (Some "-"%char)) as Hy.
  rewrite Ht in Hy. destruct Hy as [y Hy]. exists y. rewrite Hfrom in Hh. etransitivity; [exact Hh|exact Hy].
Qed.

(** * The matches of a line *)

(** The databases and file names found, [skip] bytes of the last match being left. *)
Fixpoint hits (skip : nat) (s : string) : list (string * string) :=
  match s with
  | EmptyString => []
  | String c s' =>
      match skip with
      | S n => hits n s'
      | O => match standardHere s with
             | Some (db, rest) => (db, regexp.between s rest) :: hits (String.length s - String.length rest - 1) s'
             | None => hits O s'
             end
      end
  end.

Definition hitOf (m : regexp.captures) : string * string := (regexp.group 2 m, regexp.group 1 m).

Lemma findAll_hits : forall s skip prev, hitOf <$> regexp.findAll standardArtifactFilenameRegex skip prev s = hits skip s.
Proof.
  induction s as [|c s IH]; intros skip prev; [done|]. cbn [regexp.findAll hits]. destruct skip as [|n]; [|apply IH].
  pose proof (here_standard prev (String c s)) as Hh. destruct (standardHere (String c s)) as [[db rest]|].
  - destruct Hh as [y ->]. rewrite fmap_cons, IH. done.
  - rewrite Hh. apply IH.
Qed.

Lemma hits_skip a b : hits (String.length a) (a +:+ b) = hits O b.
Proof. induction a as [|c a IH]; [done|]. apply IH. Qed.

(** A match ends before a byte that can be in none of its parts. *)
Definition sepByte (c : ascii) : bool := negb (artifactNameByte c) && negb (stampByte c).

Lemma sepByte_ne c d : sepByte c = true -> artifactNameByte d = true \/ stampByte d = true -> Ascii.eqb d c = false /\ Ascii.eqb c d = false.
Proof.
  unfold sepByte. intros [H1%negb_true_iff H2%negb_true_iff]%andb_true_iff Hd.
  rewrite (Ascii.eqb_sym c d). destruct (Ascii.eqb_spec d c) as [->|]; [|done]. destruct Hd; congruence.
Qed.

Lemma CutPrefix_sep c t p : allBytes (fun d => negb (Ascii.eqb d c)) p = true -> forall s,
  strings.CutPrefix (s +:+ String c t) p = (fun r => r +:+ String c t) <$> strings.CutPrefix s p.
Proof.
  induction p as [|d p IH]; intros Hp s.
  - unfold strings.CutPrefix. by destruct s.
  - cbn [allBytes] in Hp. apply andb_true_iff in Hp as [Hd%negb_true_iff Hp]. destruct s as [|e s]; cbn [String.append].
    + rewrite CutPrefix_cons, Hd. done.
    + rewrite !CutPrefix_cons. destruct (Ascii.eqb d e); [by apply IH|done].
Qed.

Section Separated.
Context (c : ascii) (t : string) (Hc : sepByte c = true).

Lemma sep_stamp : stampByte c = false.
Proof using Hc. unfold sepByte in Hc. apply andb_true_iff in Hc as [_ H]. by apply negb_true_iff. Qed.
Lemma sep_name : artifactNameByte c = false.
Proof using Hc. unfold sepByte in Hc. apply andb_true_iff in Hc as [H _]. by apply negb_true_iff. Qed.

Lemma sep_literal p : allBytes artifactNameByte p = true -> allBytes (fun d => negb (Ascii.eqb d c)) p = true.
Proof using Hc. apply allBytes_impl. intros d Hd. by rewrite (proj1 (sepByte_ne c d Hc (or_introl Hd))). Qed.

Lemma dotBackup_sep s : dotBackup (s +:+ String c t) = (fun r => r +:+ String c t) <$> dotBackup s.
Proof using Hc.
  induction s as [|d s IH]; cbn [String.append]; rewrite ?dotBackup_cons.
  - by rewrite sep_stamp.
  - destruct (stampByte d); [|done]. rewrite IH. destruct (dotBackup s); [done|].
    exact (CutPrefix_sep c t ".backup" (sep_literal ".backup" eq_refl) (String d s)).
Qed.

Lemma stampThenBackup_sep s : stampThenBackup (s +:+ String c t) = (fun r => r +:+ String c t) <$> stampThenBackup s.
Proof using Hc.
  assert (isDigit c = false) as Hdig. { pose proof sep_stamp as H. unfold stampByte in H. by apply orb_false_iff in H as [-> _]. }
  rewrite !stampThenBackup_year, (CutPrefix_sep c t "20" (sep_literal "20" eq_refl)).
  destruct (strings.CutPrefix s "20") as [[|d1 [|d2 [|e s']]]|]; cbn [fmap option_fmap option_map String.append].
  - destruct t; [done|]. by rewrite Hdig.
  - by rewrite Hdig, andb_false_r.
  - destruct (isDigit d1 && isDigit d2); [|done]. by rewrite sep_stamp.
  - destruct (isDigit d1 && isDigit d2); [|done]. destruct (stampByte e); [|done]. apply dotBackup_sep.
  - done.
Qed.

Lemma lazyName_sep s : lazyName (s +:+ String c t) = (fun p => (p.1, p.2 +:+ String c t)) <$> lazyName s.
Proof using Hc.
  induction s as [|d s IH]; cbn [String.append lazyName].
  - rewrite (proj2 (sepByte_ne c "-"%char Hc (or_introl eq_refl))), sep_name. done.
  - rewrite stampThenBackup_sep, IH. destruct (Ascii.eqb d "-"); [destruct (stampThenBackup s); [done|]|]; cbn [fmap option_fmap option_map];
      destruct (artifactNameByte d); try done; by destruct (lazyName s) as [[n r]|].
Qed.

Lemma standardHere_sep s : standardHere (s +:+ String c t) = (fun p => (p.1, p.2 +:+ String c t)) <$> standardHere s.
Proof using Hc.
  destruct s as [|d s]; cbn [String.append standardHere].
  - destruct (regexp.letter c) eqn:E; [|done]. pose proof sep_name as H. unfold artifactNameByte, wordByte in H.
    change (asciiLetter c) with (regexp.letter c) in H. by rewrite E in H.
  - destruct (regexp.letter d); [|done]. rewrite lazyName_sep. by destruct (lazyName s) as [[n r]|].
Qed.
End Separated.

Lemma dotBackup_shorter s : forall rest, dotBackup s = Some rest -> (String.length rest < String.length s)%nat /\ exists p, s = p +:+ ".backup" +:+ rest.
Proof.
  induction s as [|c s IH]; intros rest; [done|]. rewrite dotBackup_cons. destruct (stampByte c); [|done].
  destruct (dotBackup s) as [t|].
  - intros [= <-]. destruct (IH t eq_refl) as [H [p Ep]]. split; [cbn [String.length]; lia|exists (String c p); by rewrite Ep].
  - intros E%CutPrefix_Some. rewrite E, string_length_app. split; [cbn; lia|by exists EmptyString].
Qed.

Lemma stampThenBackup_shorter s rest : stampThenBackup s = Some rest -> (String.length rest < String.length s)%nat /\ exists p, s = p +:+ ".backup" +:+ rest.
Proof.
  rewrite stampThenBackup_year. destruct (strings.CutPrefix s "20") as [u|] eqn:E; [|done]. apply CutPrefix_Some in E as ->.
  destruct u as [|d1 [|d2 [|c u]]]; try done. { by destruct (isDigit d1 && isDigit d2). }
  destruct (isDigit d1 && isDigit d2); [|done]. destruct (stampByte c); [|done]. intros [H [p Ep]]%dotBackup_shorter.
  split; [rewrite string_length_app; cbn [String.length]; lia|]. rewrite Ep. by exists ("20" +:+ String d1 (String d2 (String c p))).
Qed.

Lemma standardHere_shorter s db rest : standardHere s = Some (db, rest) ->
  (String.length rest < String.length s)%nat /\ exists p, s = p +:+ ".backup" +:+ rest.
Proof.
  destruct s as [|c s]; [done|]. cbn [standardHere]. destruct (regexp.letter c); [|done]. destruct (lazyName s) as [[n r]|] eqn:E; [|done].
  intros [= _ <-]. destruct (lazyName_split _ _ _ E) as (t & -> & [H [p Ep]]%stampThenBackup_shorter).
  split; [cbn [String.length]; rewrite !string_length_app; cbn [String.length]; lia|]. rewrite Ep. exists (String c (n +:+ "-" +:+ p)). cbn. by rewrite !string_app_assoc.
Qed.

(** The matches before a separator, and those after it. *)
Lemma hits_sep c t : sepByte c = true -> forall s skip, (skip <= String.length s)%nat -> hits skip (s +:+ String c t) = hits skip s ++ hits O t.
Proof.
  intros Hc. induction s as [|d s IH]; intros skip Hs.
  - cbn [String.append hits]. destruct skip; [|cbn in Hs; lia]. cbn [app]. pose proof (standardHere_sep c t Hc EmptyString) as E. cbn [String.append] in E.
    by rewrite E.
  - cbn [String.append hits]. destruct skip as [|n]; [|apply IH; cbn in Hs; lia].
    pose proof (standardHere_sep c t Hc (String d s)) as E. cbn [String.append] in E. rewrite E.
    destruct (standardHere (String d s)) as [[db rest]|] eqn:Eh; cbn [fmap option_fmap option_map fst snd]; [|apply IH; lia].
    destruct (standardHere_shorter _ _ _ Eh) as [Hlt _]. cbn [String.length] in Hlt |- *.
    unfold regexp.between. cbn [String.length]. rewrite !string_length_app. cbn [String.length app]. rewrite IH by lia.
    f_equal; [f_equal|do 2 f_equal; lia].
    replace (S (String.length s + S (String.length t)) - (String.length rest + S (String.length t)))%nat with (S (String.length s) - String.length rest)%nat by lia.
    assert (forall k u v, (k <= String.length u)%nat -> strings.upto k (u +:+ v) = strings.upto k u) as Hup.
    { clear. induction k as [|k IH]; intros u v Hk; [by destruct u, v|]. destruct u as [|x u]; cbn in Hk; [lia|]. cbn. by rewrite IH by lia. }
    apply (Hup _ (String d s)). cbn [String.length]. lia.
Qed.

Lemma Contains_prefix p s t : strings.Contains s p = true -> strings.Contains (t +:+ s) p = true.
Proof.
  intros H. induction t as [|c t IH]; [done|]. revert IH. unfold strings.Contains. cbn [String.append strings.Index].
  destruct (strings.HasPrefix _ _); [done|]. by destruct (strings.Index (t +:+ s) p).
Qed.

Lemma Contains_spec s p : strings.Contains s p = true <-> exists a b, s = a +:+ p +:+ b.
Proof.
  split.
  - induction s as [|c s IH]; unfold strings.Contains; cbn [strings.Index].
    + destruct (strings.HasPrefix EmptyString p) eqn:E; [|done]. intros _. apply HasPrefix_spec in E as [u E]. by exists EmptyString, u.
    + destruct (strings.HasPrefix (String c s) p) eqn:E; [intros _; apply HasPrefix_spec in E as [u E]; by exists EmptyString, u|].
      intros H. destruct IH as (a & b & Es). { unfold strings.Contains. by destruct (strings.Index s p). } exists (String c a), b. by rewrite Es.
  - intros (a & b & ->). apply Contains_prefix. unfold strings.Contains. destruct (p +:+ b) eqn:E; cbn [strings.Index]; rewrite <- ?E, HasPrefix_app; done.
Qed.

(** Text without ".backup" has no match. *)
Lemma hits_silent s : strings.Contains s ".backup" = false -> forall skip, hits skip s = [].
Proof.
  induction s as [|c s IH]; intros H skip; [done|]. assert (strings.Contains s ".backup" = false) as Hs.
  { apply not_true_is_false. intros (a & b & E)%Contains_spec. apply not_true_iff_false in H. apply H, Contains_spec. exists (String c a), b. by rewrite E. }
  cbn [hits]. destruct skip; [|by apply IH]. destruct (standardHere (String c s)) as [[db rest]|] eqn:E; [|by apply IH].
  apply standardHere_shorter in E as [_ [p E]]. apply not_true_iff_false in H. destruct H. apply Contains_spec. by exists p, rest.
Qed.

(** * The artifact of a run *)

(** [<database>-<stamp>.backup], as neo4j-admin names its artifact. *)
Definition artifactOf (db stamp : string) : string := db +:+ "-" +:+ stamp +:+ ".backup".

(** A year of this century and more of the date. *)
Definition startsYear (s : string) : bool :=
  match strings.CutPrefix s "20" with Some (String d1 (String d2 _)) => isDigit d1 && isDigit d2 | _ => false end.

Definition stampOf (stamp : string) : bool :=
  startsYear stamp && (4 <? String.length stamp)%nat && allBytes stampByte stamp.

(** No dash of the name is followed by a year. *)
Fixpoint noYear (s : string) : bool :=
  match s with EmptyString => true | String c s' => negb (Ascii.eqb c "-"%char && startsYear s') && noYear s' end.

Definition databaseName (db : string) : bool :=
  match db with EmptyString => false | String c s => regexp.letter c && allBytes artifactNameByte s end.

Lemma dotBackup_stamp s post : allBytes stampByte s = true -> dotBackup (s +:+ ".backup" +:+ post) = Some post.
Proof.
  induction s as [|c s IH]; cbn [allBytes].
  - intros _. cbn [String.append]. rewrite dotBackup_cons. change (stampByte ".") with true. cbv iota. destruct (dotBackup _) as [t|] eqn:E.
    + cbn in E. done.
    + apply (CutPrefix_app ".backup").
  - intros [Hc Hs]%andb_true_iff. cbn [String.append]. rewrite dotBackup_cons, Hc. cbn [String.append] in IH. by rewrite IH.
Qed.

Lemma stampThenBackup_stamp stamp post : stampOf stamp = true -> stampThenBackup (stamp +:+ ".backup" +:+ post) = Some post.
Proof.
  unfold stampOf, startsYear. intros [[Hy Hl%Nat.ltb_lt]%andb_true_iff Hs]%andb_true_iff.
  destruct (strings.CutPrefix stamp "20") as [u|] eqn:E; [|done]. apply CutPrefix_Some in E as ->. destruct u as [|d1 [|d2 u]]; try done.
  rewrite stampThenBackup_year. rewrite string_app_assoc, CutPrefix_app. cbn [String.append]. rewrite Hy.
  destruct u as [|c u]; [cbn in Hl; lia|]. cbn [String.append]. rewrite allBytes_app in Hs. cbn [allBytes] in Hs.
  apply andb_true_iff in Hs as [_ [_ [_ [Hc Hu]%andb_true_iff]%andb_true_iff]%andb_true_iff]. rewrite Hc. by apply dotBackup_stamp.
Qed.

Lemma noStamp b rest : startsYear b = false -> stampThenBackup (b +:+ String "-" rest) = None.
Proof.
  rewrite stampThenBackup_year. unfold startsYear. destruct b as [|c0 b]; [done|]. cbn [String.append]. rewrite !CutPrefix_cons.
  destruct (Ascii.eqb "2" c0); [|done]. destruct b as [|c1 b]; [done|]. cbn [String.append]. rewrite !CutPrefix_cons. destruct (Ascii.eqb "0" c1); [|done].
  assert (forall x, strings.CutPrefix x EmptyString = Some x) as He by (by intros []). rewrite !He.
  destruct b as [|d1 [|d2 b]]; cbn [String.append].
  - by destruct rest.
  - intros _. by rewrite andb_false_r.
  - by intros ->.
Qed.

Lemma lazyName_artifact name stamp post : allBytes artifactNameByte name = true -> noYear name = true -> stampOf stamp = true ->
  lazyName (name +:+ "-" +:+ stamp +:+ ".backup" +:+ post) = Some (name, post).
Proof.
  intros Hn Hy Hs. set (rest := stamp +:+ ".backup" +:+ post) in *. induction name as [|c name IH].
  - change (EmptyString +:+ "-" +:+ rest) with (String "-" rest). cbn [lazyName]. rewrite Ascii.eqb_refl. subst rest. by rewrite stampThenBackup_stamp.
  - cbn [allBytes noYear] in Hn, Hy. apply andb_true_iff in Hn as [Hc Hn]. apply andb_true_iff in Hy as [Hd%negb_true_iff Hy].
    change (String c name +:+ "-" +:+ rest) with (String c (name +:+ "-" +:+ rest)). cbn [lazyName]. rewrite IH by done.
    destruct (Ascii.eqb c "-"); cbn [andb] in Hd; [|by rewrite Hc]. change ("-" +:+ rest) with (String "-" rest). rewrite noStamp by done. by rewrite Hc.
Qed.

Lemma hits_artifact db stamp post : databaseName db = true -> noYear db = true -> stampOf stamp = true ->
  hits O (artifactOf db stamp +:+ post) = (db, artifactOf db stamp) :: hits O post.
Proof.
  intros Hd Hy Hs. destruct db as [|c db]; [done|]. cbn [databaseName noYear] in Hd, Hy.
  apply andb_true_iff in Hd as [Hc Hd]. apply andb_true_iff in Hy as [_ Hy]. unfold artifactOf.
  set (tail := db +:+ "-" +:+ stamp +:+ ".backup"). change ((String c db +:+ "-" +:+ stamp +:+ ".backup") +:+ post) with (String c (tail +:+ post)).
  assert (standardHere (String c (tail +:+ post)) = Some (String c db, post)) as E.
  { cbn [standardHere]. rewrite Hc. subst tail. rewrite !string_app_assoc. rewrite lazyName_artifact by done. done. }
  cbn [hits]. rewrite E. f_equal.
  - f_equal. change (String c (tail +:+ post)) with (String c tail +:+ post). apply between_app.
  - cbn [String.length]. rewrite string_length_app. replace (S (String.length tail + String.length post) - String.length post - 1)%nat with (String.length tail) by lia.
    apply hits_skip.
Qed.

(** A line of a log: without a newline, and short enough to be scanned. *)
Definition logLine (line : string) : Prop :=
  allBytes (fun c => negb (Ascii.eqb c regexp.newline)) line = true /\ Z.of_nat (String.length line) < maxLine.

Lemma takeLines_app ls line rest : Forall logLine ls -> takeLines (ls ++ line :: rest) = (dropCR <$> ls) ++ takeLines (line :: rest).
Proof.
  induction 1 as [|l ls [_ Hl] Hls IH]; [done|]. rewrite <- app_comm_cons, fmap_cons.
  assert (takeLines (l :: ls ++ line :: rest) = if maxLine <=? Z.of_nat (String.length l) then [] else dropCR l :: takeLines (ls ++ line :: rest)) as ->
    by (destruct l, ls; done).
  destruct (Z.leb_spec maxLine (Z.of_nat (String.length l))); [lia|]. by rewrite IH.
Qed.

Lemma takeLines_elem ls l : l ∈ takeLines ls -> exists l', l' ∈ ls /\ l = dropCR l'.
Proof.
  induction ls as [|x ls IH]; [intros ?%elem_of_nil; done|]. intros H.
  assert (l ∈ (if maxLine <=? Z.of_nat (String.length x) then [] else dropCR x :: takeLines ls)) as H'.
  { destruct x; [|done]. destruct ls; [by apply elem_of_nil in H|done]. }
  destruct (maxLine <=? _); [by apply elem_of_nil in H'|]. apply elem_of_cons in H' as [->|H']; [exists x; split; [by left|done]|].
  destruct (IH H') as (l' & Hl & ->). exists l'. split; [by right|done].
Qed.

Lemma upto_from n line : strings.upto n line +:+ strings.from n line = line.
Proof. revert n. induction line as [|c line IH]; intros [|n]; cbn [strings.upto strings.from]; try done. cbn [String.append]. by rewrite IH. Qed.

Definition CR : string := String "013" EmptyString.

Lemma dropCR_cases line : dropCR line = line \/ line = dropCR line +:+ CR.
Proof.
  unfold dropCR, strings.TrimSuffix, strings.HasSuffix. destruct (_ && _) eqn:E; [|by left]. right.
  apply andb_true_iff in E as [_ E%String.eqb_eq]. unfold CR. rewrite <- E at 2. by rewrite upto_from.
Qed.

Lemma string_snoc s : s = EmptyString \/ exists t c, s = t +:+ String c EmptyString.
Proof. induction s as [|c s [->|(t & d & ->)]]; [by left|right; by exists EmptyString, c|right; by exists (String c t), d]. Qed.

Lemma snoc_inj t c u d : t +:+ String c EmptyString = u +:+ String d EmptyString -> t = u /\ c = d.
Proof.
  revert u. induction t as [|a t IH]; intros [|b u]; cbn [String.append].
  - by intros [= ->].
  - intros [= _ E]. by destruct u.
  - intros [= _ E]. by destruct t.
  - intros [= -> E]. by destruct (IH _ E) as [-> ->].
Qed.

Lemma dropCR_silent line : strings.Contains line ".backup" = false -> strings.Contains (dropCR line) ".backup" = false.
Proof.
  intros H. destruct (dropCR_cases line) as [->|E]; [done|]. apply not_true_is_false. intros (a & b & E')%Contains_spec.
  apply not_true_iff_false in H. apply H, Contains_spec. rewrite E, E'. exists a, (b +:+ CR). by rewrite !string_app_assoc.
Qed.

(** A carriage return is dropped from what follows an artifact. *)
Lemma dropCR_after x post : exists post', dropCR ((x +:+ "p") +:+ post) = (x +:+ "p") +:+ post' /\
  (strings.Contains post ".backup" = false -> strings.Contains post' ".backup" = false).
Proof.
  destruct (dropCR_cases ((x +:+ "p") +:+ post)) as [E|E]; [by exists post|]. destruct (string_snoc post) as [->|(t & c & ->)].
  - rewrite string_app_nil_r in E at 1. by apply snoc_inj in E as [_ ?].
  - exists t. rewrite <- string_app_assoc in E at 1. apply snoc_inj in E as [<- _]. split; [done|]. intros H.
    apply not_true_is_false. intros (a & b & ->)%Contains_spec. apply not_true_iff_false in H. apply H, Contains_spec.
    exists a, (b +:+ String c EmptyString). by rewrite !string_app_assoc.
Qed.

Lemma matches_hits log : hitOf <$> (snd <$> matchesOf standardArtifactFilenameRegex log) = flat_map (hits O) (scanLines log).
Proof.
  unfold matchesOf. induction (scanLines log) as [|l ls IH]; [done|]. cbn [flat_map]. rewrite !fmap_app, IH. f_equal.
  unfold regexp.FindAllStringSubmatch. rewrite <- (findAll_hits l O None). rewrite <- !list_fmap_compose. by apply list_fmap_ext.
Qed.

(** [winner] on a database and its file. *)
Definition winnerHit (dbName found : string) (h : string * string) : string := if strings.EqualFold h.1 dbName then h.2 else found.

Lemma winner_hits dbName ms found : fold_left (winner dbName) ms found = fold_left (winnerHit dbName) (hitOf <$> ms) found.
Proof. revert found. induction ms as [|m ms IH]; intros found; [done|]. apply IH. Qed.

Lemma flat_map_silent ls : Forall (fun l => strings.Contains l ".backup" = false) ls -> flat_map (hits O) (takeLines ls) = [].
Proof.
  intros H. assert (Forall (fun l => strings.Contains l ".backup" = false) (takeLines ls)) as H'.
  { apply Forall_forall. intros l (l' & Hl & ->)%takeLines_elem. apply dropCR_silent. by eapply Forall_forall in H. }
  induction H' as [|l ls' Hl _ IH]; [done|]. cbn [flat_map]. by rewrite hits_silent.
Qed.

Section Artifact.
Context (before after : list string) (pre : string) (sep : ascii) (db stamp post : string).
Let line : string := pre +:+ String sep (artifactOf db stamp +:+ post).
Let log : string := strings.Join (before ++ line :: after) (String regexp.newline EmptyString).
Context (Hlines : Forall logLine (before ++ line :: after)) (Hsep : sepByte sep = true)
  (Hdb : databaseName db = true) (Hyear : noYear db = true) (Hstamp : stampOf stamp = true)
  (Hafter : Forall (fun l => strings.Contains l ".backup" = false) (post :: after)).

(** The last match of the log is the artifact. *)
Lemma log_hits : exists earlier, flat_map (hits O) (scanLines log) = earlier ++ [(db, artifactOf db stamp)].
Proof using Hlines Hsep Hdb Hyear Hstamp Hafter.
  unfold scanLines, log. rewrite Split_Join; [|by destruct before|].
  2: { eapply Forall_impl; [exact Hlines|]. by intros l [H _]. }
  apply Forall_app in Hlines as [Hb [[_ Hl] _]%Forall_cons]. apply Forall_cons in Hafter as [Hpost Ha].
  rewrite takeLines_app by done. rewrite flat_map_app.
  assert (takeLines (line :: after) = dropCR line :: takeLines after) as ->.
  { assert (takeLines (line :: after) = if maxLine <=? Z.of_nat (String.length line) then [] else dropCR line :: takeLines after) as ->.
    { unfold line. destruct pre; done. } by destruct (Z.leb_spec maxLine (Z.of_nat (String.length line))); [lia|]. }
  cbn [flat_map]. rewrite flat_map_silent by done. rewrite app_nil_r.
  assert (exists x, artifactOf db stamp = x +:+ "p") as [x Ex].
  { exists (db +:+ "-" +:+ stamp +:+ ".backu"). unfold artifactOf. by rewrite !string_app_assoc. }
  assert (line = ((pre +:+ String sep x) +:+ "p") +:+ post) as El. { unfold line. rewrite Ex. by rewrite !string_app_assoc. }
  destruct (dropCR_after (pre +:+ String sep x) post) as (post' & E & Hp). rewrite <- El in E. rewrite E.
  assert (((pre +:+ String sep x) +:+ "p") +:+ post' = pre +:+ String sep (artifactOf db stamp +:+ post')) as ->.
  { rewrite Ex. by rewrite !string_app_assoc. }
  rewrite hits_sep by (done || lia). rewrite hits_artifact by done. rewrite (hits_silent post' (Hp Hpost)).
  eexists. by rewrite app_assoc.
Qed.
End Artifact.

(** The artifact a run wrote is the one recorded for it. Whatever else the log
    of a backup holds before it, when its last line that mentions a .backup file
    names <database>-<timestamp>.backup after a byte that is not part of a name, the
    file recorded for the database, however the spec spells it, is that one. The
    database's name must not have a dash followed by a year ([noYear]). *)
Theorem artifact_recorded (before after : list string) (pre : string) (sep : ascii) (db stamp post spec : string) :
  let line := pre +:+ String sep (artifactOf db stamp +:+ post) in
  Forall logLine (before ++ line :: after) -> sepByte sep = true ->
  databaseName db = true -> noYear db = true -> stampOf stamp = true ->
  Forall (fun l => strings.Contains l ".backup" = false) (post :: after) ->
  strings.EqualFold db spec = true ->
  parseStandardArtifactFromLog (strings.Join (before ++ line :: after) (String regexp.newline EmptyString)) spec = artifactOf db stamp.
Proof.
  intros line Hl Hsep Hdb Hy Hs Ha Hspec. unfold parseStandardArtifactFromLog.
  destruct (String.eqb_spec spec EmptyString) as [->|_]. { unfold strings.EqualFold in Hspec. by destruct db. }
  rewrite winner_hits, matches_hits. subst line. destruct (log_hits before after pre sep db stamp post Hl Hsep Hdb Hy Hs Ha) as [earlier ->].
  rewrite fold_left_app. cbn [fold_left]. unfold winnerHit. cbn [fst snd]. by rewrite Hspec.
Qed.

Lemma artifact_recorded_witness :
  parseStandardArtifactFromLog (strings.Join ["Start full backup of database 'orders'.";
    "wrote /backup/nightly/orders-2026-06-08T01-18-06.backup (77 bytes)"; "done"] (String regexp.newline EmptyString)) "Orders"
  = "orders-2026-06-08T01-18-06.backup".
Proof.
  apply (artifact_recorded ["Start full backup of database 'orders'."] ["done"] "wrote /backup/nightly" "/"%char
    "orders" "2026-06-08T01-18-06" " (77 bytes)" "Orders"); [|reflexivity..|repeat constructor|reflexivity].
  repeat constructor.
Defined.

(** A database whose name ends in a year is taken for the one named before it: its
    own backup records no artifact, and an all-databases backup of both records, for
    the shorter name, the other database's file, and nothing for the longer. *)
Theorem year_suffix_misread :
  let log := strings.Join ["wrote /backup/all/sales-2026-06-08T01-18-06.backup";
               "wrote /backup/all/sales-2024-2026-06-08T01-18-09.backup"] (String regexp.newline EmptyString) in
  parseStandardArtifactFromLog log "sales-2024" = EmptyString /\
  parseAllDatabaseArtifactsFromLog log = [mkDatabaseArtifact "sales" "sales-2024-2026-06-08T01-18-09.backup" 0 EmptyString] /\
  IsValidDatabaseName "sales-2024" = true.
Proof. vm_compute. done. Qed.
