(* ===== verification/BackupCommand.v ===== *)
(** The shell command of a backup's Job, the directory it writes to, and the script
    that prunes it (buildBackupCommand, buildToPath, effectiveRemoteAddressResolution,
    buildRetentionScript and parseFindTimeArg of
    src/internal/controller/neo4jbackup_controller.go, the addresses of
    src/internal/resources/cluster.go, and ReplicationPullURI of
    src/internal/validation/backup_replication_source.go), with what the pod mounts.
    resource.ParseQuantity is a parameter. *)
From S2P Require Import Prelude GoStrings GoRegexp GoTime GoRFC3339 ClusterTypes Conditions Version UpgradeMachine BackupTypes RestoreTypes RestoreCommand BackupLog BackupArtifact.

Open Scope Z_scope.

(** * The target *)

(** What a backup reads of its target, a cluster or a standalone dressed as one. *)
Record BackupTarget := mkBackupTarget {
  bg_Name : string;
  bg_Namespace : string;
  bg_Repo : string;
  bg_Tag : string;
  bg_Servers : Z;
  bg_Sharding : bool;
  bg_Phase : string;
  bg_Conditions : list Condition
}.

(** [standaloneAsCluster]. *)
Definition standaloneAsTarget (s : BackupTarget) : BackupTarget :=
  mkBackupTarget (bg_Name s) (bg_Namespace s) (bg_Repo s) (bg_Tag s) 1 false (bg_Phase s) [].

Definition BackupPort : Z := 6362.

Definition podAddress (pod name namespace : string) : string :=
  pod +:+ "." +:+ name +:+ "-headless." +:+ namespace +:+ ".svc.cluster.local:" +:+ strconv.Itoa BackupPort.

Definition BuildBackupFromAddresses (cluster : BackupTarget) : string :=
  strings.Join ((fun i => podAddress (bg_Name cluster +:+ "-server-" +:+ strconv.Itoa (Z.of_nat i)) (bg_Name cluster) (bg_Namespace cluster))
                <$> List.seq 0 (Z.to_nat (bg_Servers cluster))) ",".

Definition BuildStandaloneBackupFromAddress (standalone : BackupTarget) : string :=
  podAddress (bg_Name standalone +:+ "-0") (bg_Name standalone) (bg_Namespace standalone).

(** * Paths *)

Definition buildToPath (backup : Neo4jBackup) : string :=
  let st := bk_Storage backup in
  let p := if String.eqb (sl_Path st) EmptyString then defaultBackupStoragePath else sl_Path st in
  match cloudScheme (sl_Type st) with
  | Some scheme => scheme +:+ sl_Bucket st +:+ "/" +:+ p +:+ "/" +:+ chainRoot backup
  | None => "/backup/" +:+ chainRoot backup
  end.

Definition ReplicationPullURI (storage : StorageLocation) (backupsPath : string) : string :=
  match cloudScheme (sl_Type storage) with
  | None => EmptyString
  | Some scheme =>
      let part := fun s => let p := strings.Trim s "/" in if String.eqb p EmptyString then [] else [p] in
      scheme +:+ strings.Join ([strings.Trim (sl_Bucket storage) "/"] ++ part (sl_Path storage) ++ part backupsPath) "/" +:+ "/"
  end.

(** * The command *)

Definition effectiveBackupType (backup : Neo4jBackup) : string :=
  let t := match bs_Options (bk_Spec backup) with Some o => bo_BackupType o | None => EmptyString end in
  if (String.eqb t EmptyString || String.eqb t "AUTO") && String.eqb (sl_Type (bk_Storage backup)) "pvc"
     && String.eqb (Scope (bk_Spec backup)) BackupTargetKindShardedDatabase
  then backupArtifactFull else t.

Definition effectiveRemoteAddressResolution (backup : Neo4jBackup) (version : Version) (clusterHasSharding : bool) : bool :=
  match bs_Options (bk_Spec backup) ≫= bo_RemoteAddressResolution with
  | Some explicit => explicit
  | None =>
      if negb (SupportsRemoteAddressResolution version) then false
      else if String.eqb (Scope (bk_Spec backup)) BackupTargetKindShardedDatabase then true
      else if String.eqb (Scope (bk_Spec backup)) BackupTargetKindCluster then clusterHasSharding
      else false
  end.

Definition chainLockWaitSeconds : Z := 3600.

Definition flagIf (b : bool) (flag : string) : string := if b then flag else EmptyString.
Definition nonempty (s : string) : bool := negb (String.eqb s EmptyString).

Section Command.
Context (ParseQuantity : string -> option Z).

Definition splitArchivePartBytes (opts : option BackupOptions) : Z :=
  match opts with
  | None => 0
  | Some o =>
      if String.eqb (bo_SplitArchivePartSize o) EmptyString then 0
      else match ParseQuantity (bo_SplitArchivePartSize o) with
           | None => 0
           | Some q => if q <=? 0 then 0 else q
           end
  end.

(** The flags of options a version does not have. *)
Definition versionGate (backup : Neo4jBackup) (version : Version) (remoteAddrRes : bool) (tag : string) : option string :=
  match bs_Options (bk_Spec backup) with
  | None => None
  | Some o =>
      if bo_ParallelDownload o && negb (SupportsParallelDownload version)
      then Some ("--parallel-download requires CalVer 2025.11+ (image: " +:+ tag +:+ ")")
      else if remoteAddrRes && negb (SupportsRemoteAddressResolution version)
      then Some ("--remote-address-resolution requires CalVer 2025.09+ (image: " +:+ tag +:+ ")")
      else if bo_SkipRecovery o && negb (SupportsSkipRecovery version)
      then Some ("--skip-recovery requires CalVer 2025.11+ (image: " +:+ tag +:+ ")")
      else if bo_PreferDiffAsParent o && negb (SupportsPreferDiffAsParent version)
      then Some ("--prefer-diff-as-parent requires CalVer 2025.04+ (image: " +:+ tag +:+ ")")
      else if (0 <? splitArchivePartBytes (bs_Options (bk_Spec backup))) && negb (SupportsSplitArchive version)
      then Some ("spec.options.splitArchivePartSize requires Neo4j 2026.09 or later; the target runs " +:+ tag)
      else None
  end.

Definition imageVersion (cluster : BackupTarget) : Version :=
  match GetImageVersion (bg_Repo cluster +:+ ":" +:+ bg_Tag cluster) with Ok v => v | Err _ => mkVersion 5 26 0 false EmptyString end.

(** The flags of spec.options, in the order they are appended. *)
Definition optionFlags (version : Version) (o : BackupOptions) : string :=
  flagIf (negb (CompressEffective (Some o))) " --compress=false"
  +:+ flagIf (nonempty (bo_PageCache o)) (" --pagecache=" +:+ bo_PageCache o)
  +:+ (if nonempty (bo_TempPath o) then " --temp-path=" +:+ shellQuote (bo_TempPath o)
       else match bo_TempStorage o with Some _ => " --temp-path=/tmp/neo4j-staging" | None => EmptyString end)
  +:+ flagIf (bo_PreferDiffAsParent o) " --prefer-diff-as-parent"
  +:+ flagIf (bo_ParallelDownload o) " --parallel-download=true"
  +:+ flagIf (bo_SkipRecovery o) " --skip-recovery=true"
  +:+ flagIf (bo_ParallelRecovery o) " --parallel-recovery=true"
  +:+ flagIf (bo_KeepFailed o) " --keep-failed=true"
  +:+ flagIf (nonempty (bo_IncludeMetadata o) && SupportsMetadataOption version) (" --include-metadata=" +:+ bo_IncludeMetadata o)
  +:+ flagIf (0 <? splitArchivePartBytes (Some o)) (" --split-archive-part-size=" +:+ strconv.Itoa (splitArchivePartBytes (Some o)))
  +:+ fold_left (fun cmd arg => cmd +:+ " " +:+ shellQuote arg) (bo_AdditionalArgs o) EmptyString.

(** [dbNames] and [validateDBArg]. *)
Definition scopeNames (spec : Neo4jBackupSpec) (sharded : option ShardedDatabase) : list string * string :=
  if String.eqb (Scope spec) BackupTargetKindDatabase then ([ScopedName spec], ScopedName spec)
  else if String.eqb (Scope spec) BackupTargetKindShardedDatabase
  then (shardedBackupPatterns (shardedLogicalName (ScopedName spec) sharded), shardedLogicalName (ScopedName spec) sharded)
  else ([], EmptyString).

(** The command, [standalone] and [sharded] being what isStandaloneTarget and the
    Get of the Neo4jShardedDatabase found. *)
Definition buildBackupCommand (backup : Neo4jBackup) (cluster : BackupTarget) (standalone : option BackupTarget) (sharded : option ShardedDatabase)
    : result string :=
  let spec := bk_Spec backup in
  let version := imageVersion cluster in
  let remoteAddrRes := effectiveRemoteAddressResolution backup version (bg_Sharding cluster) in
  match versionGate backup version remoteAddrRes (bg_Tag cluster) with
  | Some e => Err e
  | None =>
      let toPath := buildToPath backup +:+ "/" in
      let fromAddresses := match standalone with Some s => BuildStandaloneBackupFromAddress s | None => BuildBackupFromAddresses cluster end in
      let allDatabases := String.eqb (Scope spec) BackupTargetKindCluster in
      let '(dbNames, validateDBArg) := scopeNames spec sharded in
      let cmd := GetBackupCommandForDatabases dbNames toPath allDatabases fromAddresses
                 +:+ flagIf (nonempty (effectiveBackupType backup)) (" --type=" +:+ effectiveBackupType backup)
                 +:+ match bs_Options spec with Some o => optionFlags version o | None => EmptyString end in
      let cmd := match bs_Options spec with
                 | Some o => if nonempty (bo_TempPath o) then "mkdir -p " +:+ shellQuote (bo_TempPath o) +:+ " && " +:+ cmd else cmd
                 | None => cmd
                 end in
      let cmd := cmd +:+ flagIf remoteAddrRes " --remote-address-resolution=true" in
      let cmd := if validateRequested spec && IsCalver version
                 then cmd +:+ " && (neo4j-admin backup validate --from-path=" +:+ shellQuote toPath +:+ " --database=" +:+ dquote
                      +:+ (if allDatabases then "*" else validateDBArg) +:+ dquote +:+ " || true)"
                 else cmd in
      Ok (if String.eqb (sl_Type (bk_Storage backup)) "pvc"
          then "mkdir -p " +:+ shellQuote toPath +:+ " && exec 9>" +:+ shellQuote (strings.TrimSuffix toPath "/" +:+ "/.chain.lock")
               +:+ " && flock -w " +:+ strconv.Itoa chainLockWaitSeconds +:+ " 9 && " +:+ cmd
          else cmd)
  end.
End Command.

(** * What the pod mounts *)

Inductive volumeSource := ClaimVolume (claim : string) | EmptyDirVolume | SecretVolume (secret key path : string).

Definition gcpCredentials (backup : Neo4jBackup) : option string :=
  match sl_Cloud (bk_Storage backup) with
  | Some c => if String.eqb (cb_Provider c) "gcp" && nonempty (cb_CredentialsSecretRef c) then Some (cb_CredentialsSecretRef c) else None
  | None => None
  end.

Definition hasTempStorage (backup : Neo4jBackup) : bool :=
  match bs_Options (bk_Spec backup) ≫= bo_TempStorage with Some _ => true | None => false end.

Definition buildVolumes (backup : Neo4jBackup) : list (string * volumeSource) :=
  let st := bk_Storage backup in
  ("backup-storage",
   match sl_PVC st with
   | Some p => if String.eqb (sl_Type st) "pvc" && nonempty (pv_Name p) then ClaimVolume (pv_Name p) else EmptyDirVolume
   | None => EmptyDirVolume
   end)
  :: match gcpCredentials backup with
     | Some ref => [("gcp-credentials", SecretVolume ref "GOOGLE_APPLICATION_CREDENTIALS_JSON" "credentials.json")]
     | None => []
     end
  ++ (if hasTempStorage backup then [("temp-staging", ClaimVolume (bk_Name backup +:+ "-temp-staging"))] else []).

Definition buildVolumeMounts (backup : Neo4jBackup) : list (string * string) :=
  [("backup-storage", "/backup")]
  ++ match gcpCredentials backup with Some _ => [("gcp-credentials", "/var/secrets/gcp")] | None => [] end
  ++ (if hasTempStorage backup then [("temp-staging", "/tmp/neo4j-staging")] else []).

(** * Retention *)

Definition nl : string := String regexp.newline EmptyString.
Definition unlines (ls : list string) : string := strings.Join ls nl +:+ nl.

(** The wrap-around of an int. *)
Definition wrap64 (n : Z) : Z := (n + 2 ^ 63) mod 2 ^ 64 - 2 ^ 63.

Definition parseFindTimeArg (maxAge : string) : string :=
  let len := String.length maxAge in
  if (len <? 2)%nat then "-mtime +7"
  else
    let unit := strings.from (len - 1) maxAge in
    match strconv.Atoi (strings.upto (len - 1) maxAge) with
    | None => "-mtime +7"
    | Some n =>
        if n <=? 0 then "-mtime +7"
        else if String.eqb unit "d" then "-mtime +" +:+ strconv.Itoa n
        else if String.eqb unit "h" then "-mmin +" +:+ strconv.Itoa (wrap64 (n * 60))
        else if String.eqb unit "m" then "-mmin +" +:+ strconv.Itoa n
        else if String.eqb unit "s"
        then let mins := Z.quot (wrap64 (n + 59)) 60 in "-mmin +" +:+ strconv.Itoa (if mins <? 1 then 1 else mins)
        else "-mtime +" +:+ strconv.Itoa n
    end.

Definition buildRetentionScript (policy : RetentionPolicy) (chainDir : string) : string :=
  let q := dquote in
  let find := "find " +:+ q +:+ "$BACKUP_DIR" +:+ q +:+ " -maxdepth 1 -type f -name '*.backup' " in
  let stat := find +:+ "-exec stat -c '%Y %n' {} + | " in
  unlines ["#!/bin/sh"; "set -e"; "BACKUP_DIR=" +:+ shellQuote ("/backup/" +:+ chainDir);
           "echo " +:+ q +:+ "Backup retention enforcement in $BACKUP_DIR" +:+ q;
           "[ -d " +:+ q +:+ "$BACKUP_DIR" +:+ q +:+ " ] || { echo " +:+ q +:+ "chain directory missing; nothing to prune" +:+ q +:+ "; exit 0; }"]
  +:+ (if 0 <? rp_MaxCount policy then
         nl +:+ unlines ["MAX_COUNT=" +:+ strconv.Itoa (rp_MaxCount policy);
           "FILE_COUNT=$(" +:+ find +:+ "| wc -l)";
           "echo " +:+ q +:+ "Found $FILE_COUNT backup artifacts" +:+ q;
           "if [ " +:+ q +:+ "$FILE_COUNT" +:+ q +:+ " -gt " +:+ q +:+ "$MAX_COUNT" +:+ q +:+ " ]; then";
           "    TO_DELETE=$((FILE_COUNT - MAX_COUNT))";
           "    echo " +:+ q +:+ "Deleting $TO_DELETE oldest artifacts (keeping $MAX_COUNT)" +:+ q;
           "    # Oldest-first by filesystem mtime — never coupled to the filename's";
           "    # timestamp format.";
           "    # busybox/alpine find lacks GNU printf-style output — stat -c '%Y %n'";
           "    # is the portable mtime listing (the previous GNU-only form made the";
           "    # whole script die under set -e, so retention never pruned anything).";
           "    " +:+ stat +:+ "\"; "        sort -n | \"; "        head -n " +:+ q +:+ "$TO_DELETE" +:+ q +:+ " | \";
           "        cut -d' ' -f2- | \"; "        while IFS= read -r f; do";
           "            # The artifact and, for a split archive, its data parts.";
           "            rm -f " +:+ q +:+ "$f" +:+ q +:+ " " +:+ q +:+ "$f" +:+ q +:+ ".*"; "        done";
           "    echo " +:+ q +:+ "Deleted $TO_DELETE old backup artifacts" +:+ q; "fi"]
       else EmptyString)
  +:+ (if nonempty (rp_MaxAge policy) then
         nl +:+ unlines ["# Delete backup artifacts older than " +:+ rp_MaxAge policy +:+ " — but always keep the newest one,";
           "# even if it has aged out (a retention policy must never delete the ONLY"; "# remaining backup).";
           "NEWEST=$(" +:+ stat +:+ "sort -rn | head -n1 | cut -d' ' -f2-)";
           find +:+ parseFindTimeArg (rp_MaxAge policy) +:+ " -print | while IFS= read -r f; do";
           "    [ " +:+ q +:+ "$f" +:+ q +:+ " = " +:+ q +:+ "$NEWEST" +:+ q +:+ " ] && continue";
           "    # The artifact and, for a split archive, its data parts.";
           "    rm -f " +:+ q +:+ "$f" +:+ q +:+ " " +:+ q +:+ "$f" +:+ q +:+ ".*"; "done";
           "echo " +:+ q +:+ "Removed backup artifacts older than " +:+ rp_MaxAge policy +:+ q]
       else EmptyString)
  +:+ "echo " +:+ q +:+ "Retention enforcement complete" +:+ q.

(** * What the shell reads *)

(** What the schema of the resource lets through of the fields that are not
    quoted, or only in double quotes: a database's name, and enumerations and a
    number. *)
Definition schemaBackup (spec : Neo4jBackupSpec) : bool :=
  allBytes databaseNameByte (bs_Database spec) &&
  match bs_Options spec with
  | None => true
  | Some o => existsb (String.eqb (bo_BackupType o)) [EmptyString; "FULL"; "DIFF"; "AUTO"]
              && allBytes (fun c => isDigit c || strings.byteIn c "KMG") (bo_PageCache o)
              && existsb (String.eqb (bo_IncludeMetadata o)) [EmptyString; "all"; "none"; "users"; "roles"]
  end.

(** The names of a target are DNS labels. *)
Definition dnsName (s : string) : bool := allBytes (fun c => asciiLetter c || isDigit c || strings.byteIn c ".-") s.
Definition dnsTarget (t : BackupTarget) : bool := dnsName (bg_Name t) && dnsName (bg_Namespace t).

Definition optArg (b : bool) (arg : string) : list string := if b then [arg] else [].

Section Words.
Context (ParseQuantity : string -> option Z).

Definition optionArgs (version : Version) (o : BackupOptions) : list string :=
  optArg (negb (CompressEffective (Some o))) "--compress=false"
  ++ optArg (nonempty (bo_PageCache o)) ("--pagecache=" +:+ bo_PageCache o)
  ++ (if nonempty (bo_TempPath o) then ["--temp-path=" +:+ bo_TempPath o]
      else match bo_TempStorage o with Some _ => ["--temp-path=/tmp/neo4j-staging"] | None => [] end)
  ++ optArg (bo_PreferDiffAsParent o) "--prefer-diff-as-parent"
  ++ optArg (bo_ParallelDownload o) "--parallel-download=true"
  ++ optArg (bo_SkipRecovery o) "--skip-recovery=true"
  ++ optArg (bo_ParallelRecovery o) "--parallel-recovery=true"
  ++ optArg (bo_KeepFailed o) "--keep-failed=true"
  ++ optArg (nonempty (bo_IncludeMetadata o) && SupportsMetadataOption version) ("--include-metadata=" +:+ bo_IncludeMetadata o)
  ++ optArg (0 <? splitArchivePartBytes ParseQuantity (Some o)) ("--split-archive-part-size=" +:+ strconv.Itoa (splitArchivePartBytes ParseQuantity (Some o)))
  ++ bo_AdditionalArgs o.

(** The databases of the scope, as neo4j-admin is given them. *)
Definition scopeDatabases (backup : Neo4jBackup) (sharded : option ShardedDatabase) : list string :=
  let spec := bk_Spec backup in
  if bs_AllDatabases spec then ["*"]
  else if nonempty (bs_ShardedDatabase spec) then shardedBackupPatterns (shardedLogicalName (bs_ShardedDatabase spec) sharded)
  else List.filter nonEmpty [bs_Database spec].

(** The arguments of neo4j-admin database backup. *)
Definition backupArgs (backup : Neo4jBackup) (cluster : BackupTarget) (standalone : option BackupTarget) (sharded : option ShardedDatabase) : list string :=
  let from := match standalone with Some s => BuildStandaloneBackupFromAddress s | None => BuildBackupFromAddresses cluster end in
  let version := imageVersion cluster in
  optArg (nonempty from) ("--from=" +:+ from) ++ ["--to-path=" +:+ buildToPath backup +:+ "/"]
  ++ scopeDatabases backup sharded
  ++ optArg (nonempty (effectiveBackupType backup)) ("--type=" +:+ effectiveBackupType backup)
  ++ match bs_Options (bk_Spec backup) with Some o => optionArgs version o | None => [] end
  ++ optArg (effectiveRemoteAddressResolution backup version (bg_Sharding cluster)) "--remote-address-resolution=true".

(** What is validated after the backup. *)
Definition validatedDatabase (backup : Neo4jBackup) (sharded : option ShardedDatabase) : string :=
  let spec := bk_Spec backup in
  if bs_AllDatabases spec then "*"
  else if nonempty (bs_ShardedDatabase spec) then shardedLogicalName (bs_ShardedDatabase spec) sharded else bs_Database spec.

(** The whole line: on a PVC the directory of the chain is made and locked first,
    then the temporary directory is made, the backup taken, and validated. *)
Definition backupTokens (backup : Neo4jBackup) (cluster : BackupTarget) (standalone : option BackupTarget) (sharded : option ShardedDatabase) : list shTok :=
  let toPath := buildToPath backup +:+ "/" in
  (if String.eqb (sl_Type (bk_Storage backup)) "pvc"
   then bare "mkdir -p " ++ lits toPath ++ bare " && exec 9>" ++ lits (buildToPath backup +:+ "/.chain.lock") ++ bare " && flock -w 3600 9 && " else [])
  ++ match bs_Options (bk_Spec backup) with
     | Some o => if nonempty (bo_TempPath o) then bare "mkdir -p " ++ lits (bo_TempPath o) ++ bare " && " else []
     | None => []
     end
  ++ bare "neo4j-admin database backup" ++ tailTokens (backupArgs backup cluster standalone sharded)
  ++ (if validateRequested (bk_Spec backup) && IsCalver (imageVersion cluster)
      then bare " && (neo4j-admin backup validate --from-path=" ++ lits toPath ++ bare " --database=" ++ lits (validatedDatabase backup sharded) ++ bare " || true)"
      else []).

Lemma scans_plain s : allBytes shPlain s = true -> scans s (lits s).
Proof.
  intros H. assert (bare s = lits s /\ allBytes bareByte s = true) as [<- ?]; [|by apply scans_bare].
  induction s as [|c s IH]; [done|]. cbn [allBytes bare lits] in *. apply andb_true_iff in H as [Hc Hs]. destruct (IH Hs) as [-> ->].
  assert (Ascii.eqb c " " = false) as Hsp by (apply Ascii.eqb_neq; intros ->; done). split.
  - unfold bareTok. by rewrite Hsp, Hc.
  - rewrite andb_true_r. unfold bareByte. apply negb_true_iff, orb_false_iff. split; [|apply Ascii.eqb_neq; intros ->; done].
    cbn [strings.byteIn]. repeat (apply orb_false_iff; split); try apply Ascii.eqb_neq; try (intros ->; done). done.
Qed.

Lemma scans_optArg b x w : (b = true -> scans x (lits w)) -> scans (flagIf b (" " +:+ x)) (tailTokens (optArg b w)).
Proof. destruct b; intros H; [by apply scans_arg, H|apply scans_nil]. Qed.

Lemma plain_arg p v : allBytes shPlain p = true -> allBytes shPlain v = true -> scans (p +:+ v) (lits (p +:+ v)).
Proof. intros Hp Hv. apply scans_plain. by rewrite allBytes_app, Hp, Hv. Qed.

Lemma plain_number n : 0 <= n -> allBytes shPlain (strconv.Itoa n) = true.
Proof.
  intros H. apply (allBytes_impl versionByte); [|by apply Itoa_versionBytes]. intros c Hc. unfold versionByte in Hc.
  apply orb_true_iff in Hc as [Hc|Hc]; [|by apply Ascii.eqb_eq in Hc as ->]. revert Hc. destruct c as [[] [] [] [] [] [] [] []]; done.
Qed.

Lemma tail_args a b x y : scans x (tailTokens a) -> scans y (tailTokens b) -> scans (x +:+ y) (tailTokens (a ++ b)).
Proof. intros Hx Hy. rewrite tailTokens_app. by apply scans_app. Qed.

Lemma enum_plain v l : existsb (String.eqb v) l = true -> Forall (fun s => allBytes shPlain s = true) l -> allBytes shPlain v = true.
Proof. intros H Hl. apply existsb_exists in H as (x & Hx & ->%String.eqb_eq). rewrite Forall_forall in Hl. apply Hl. by apply list_elem_of_In. Qed.

Lemma scans_options version o : schemaBackup (mkNeo4jBackupSpec EmptyString EmptyString false EmptyString (mkStorageLocation EmptyString EmptyString EmptyString None None)
    EmptyString EmptyString None (Some o) false EmptyString) = true ->
  scans (optionFlags ParseQuantity version o) (tailTokens (optionArgs version o)).
Proof.
  unfold schemaBackup. cbn [bs_Database bs_Options allBytes andb]. intros [[Ht Hp]%andb_true_iff Hm]%andb_true_iff.
  assert (allBytes shPlain (bo_PageCache o) = true) as Hp'.
  { eapply allBytes_impl; [|exact Hp]. intros c. destruct c as [[] [] [] [] [] [] [] []]; done. }
  assert (allBytes shPlain (bo_IncludeMetadata o) = true) as Hm' by (eapply enum_plain; [exact Hm|by repeat constructor]).
  unfold optionFlags, optionArgs.
  repeat apply tail_args; try (apply scans_optArg; intros _; by apply scans_plain).
  - destruct (nonempty (bo_TempPath o)); [apply (scans_arg ("--temp-path=" +:+ shellQuote (bo_TempPath o))); by apply scans_fixed_quote|].
    destruct (bo_TempStorage o); [by apply (scans_arg "--temp-path=/tmp/neo4j-staging"), scans_plain|apply scans_nil].
  - apply (scans_optArg _ ("--split-archive-part-size=" +:+ _)). intros H%Z.ltb_lt. apply plain_arg; [done|]. apply plain_number. lia.
  - assert (forall args acc ts, scans acc ts -> scans (fold_left (fun cmd arg => cmd +:+ " " +:+ shellQuote arg) args acc) (ts ++ tailTokens args)) as H.
    { induction args as [|a args IH]; intros acc ts Ha; [by rewrite app_nil_r|]. cbn [fold_left].
      replace (ts ++ tailTokens (a :: args)) with ((ts ++ tailTokens [a]) ++ tailTokens args) by (rewrite <- app_assoc; cbn; by rewrite app_nil_r).
      apply IH, scans_app; [done|]. apply scans_arg, scans_quote. }
    apply (H _ EmptyString []), scans_nil.
Qed.

(** The names neo4j-admin is given, each in double quotes. *)
Lemma scans_names names : Forall (fun n => allBytes shDoubleSafe n = true) names ->
  scans (fold_right (fun name acc => if String.eqb name EmptyString then acc else (" " +:+ dquote +:+ name +:+ dquote) +:+ acc) EmptyString names)
    (tailTokens (List.filter nonEmpty names)).
Proof.
  induction 1 as [|n names Hn _ IH]; [apply scans_nil|]. cbn [fold_right List.filter]. unfold nonEmpty at 1. destruct (String.eqb n EmptyString); [done|]. cbn [negb].
  change (n :: List.filter nonEmpty names) with ([n] ++ List.filter nonEmpty names). apply tail_args; [|done]. by apply scans_arg, scans_dquote.
Qed.

Lemma scans_backupCommand names path all from :
  allBytes shPlain from = true -> Forall (fun n => allBytes shDoubleSafe n = true) names ->
  scans (GetBackupCommandForDatabases names path all from)
    (bare "neo4j-admin database backup" ++ tailTokens (optArg (nonempty from) ("--from=" +:+ from) ++ ["--to-path=" +:+ path] ++ if all then ["*"] else List.filter nonEmpty names)).
Proof.
  intros Hf Hn. unfold GetBackupCommandForDatabases. rewrite (fold_left_app_string names (fun name => " " +:+ dquote +:+ name +:+ dquote)).
  set (tail := if all then " " +:+ dquote +:+ "*" +:+ dquote else
    fold_right (fun name acc => if String.eqb name EmptyString then acc else (" " +:+ dquote +:+ name +:+ dquote) +:+ acc) EmptyString names).
  replace (if all then _ else _) with ("neo4j-admin database backup" +:+ flagIf (nonempty from) (" " +:+ "--from=" +:+ from) +:+ (" " +:+ "--to-path=" +:+ shellQuote path) +:+ tail).
  2: { unfold tail, nonempty, flagIf. destruct all, (String.eqb from EmptyString); cbn [negb]; rewrite ?string_app_assoc; reflexivity. }
  apply scans_app; [by apply scans_bare|]. apply tail_args; [|apply tail_args].
  - apply scans_optArg. intros _. by apply plain_arg.
  - apply scans_arg. by apply scans_fixed_quote.
  - unfold tail. destruct all; [by apply scans_arg, scans_dquote|by apply scans_names].
Qed.
End Words.

Lemma TrimSuffix_app s t : strings.TrimSuffix (s +:+ t) t = s.
Proof.
  unfold strings.TrimSuffix, strings.HasSuffix. rewrite string_length_app.
  replace (String.length s + String.length t - String.length t)%nat with (String.length s) by lia.
  rewrite from_length_app, String.eqb_refl, upto_length_app. destruct (Nat.leb_spec (String.length t) (String.length s + String.length t)); [done|lia].
Qed.

Lemma dnsName_plain s : dnsName s = true -> allBytes shPlain s = true.
Proof. apply allBytes_impl. intros c. destruct c as [[] [] [] [] [] [] [] []]; done. Qed.

Lemma podAddress_plain pod name ns : allBytes shPlain pod = true -> dnsName name = true -> dnsName ns = true -> allBytes shPlain (podAddress pod name ns) = true.
Proof.
  intros Hp Hn%dnsName_plain Hs%dnsName_plain. unfold podAddress. rewrite !allBytes_app. by rewrite Hp, Hn, Hs.
Qed.

Lemma Join_plain l : Forall (fun s => allBytes shPlain s = true) l -> allBytes shPlain (strings.Join l ",") = true.
Proof.
  induction 1 as [|s l Hs Hl IH]; [done|]. destruct l as [|s' l]; [done|].
  change (strings.Join (s :: s' :: l) ",") with (s +:+ "," +:+ strings.Join (s' :: l) ","). rewrite !allBytes_app, Hs, IH. done.
Qed.

Lemma addresses_plain (cluster : BackupTarget) (standalone : option BackupTarget) :
  dnsTarget cluster = true -> match standalone with Some s => dnsTarget s | None => true end = true ->
  allBytes shPlain (match standalone with Some s => BuildStandaloneBackupFromAddress s | None => BuildBackupFromAddresses cluster end) = true.
Proof.
  intros [Hc1 Hc2]%andb_true_iff Hs. destruct standalone as [s|].
  - apply andb_true_iff in Hs as [H1 H2]. apply podAddress_plain; [|done..]. by rewrite allBytes_app, dnsName_plain.
  - apply Join_plain, Forall_fmap, Forall_forall. intros i _. cbn. apply podAddress_plain; [|done..].
    rewrite !allBytes_app. rewrite (dnsName_plain _ Hc1). cbn [andb]. apply plain_number. lia.
Qed.

Lemma lower_safe s : allBytes databaseNameByte s = true -> allBytes shDoubleSafe (strings.ToLower s) = true.
Proof.
  induction s as [|c s IH]; [done|]. cbn [allBytes strings.ToLower]. intros [Hc Hs]%andb_true_iff. rewrite IH by done. rewrite andb_true_r.
  revert Hc. destruct c as [[] [] [] [] [] [] [] []]; done.
Qed.

Lemma name_safe s : allBytes databaseNameByte s = true -> allBytes shDoubleSafe s = true.
Proof. apply allBytes_impl. intros c. destruct c as [[] [] [] [] [] [] [] []]; done. Qed.

(** The names a sharded backup builds its patterns from are database names. *)
Definition shardedSafe (spec : Neo4jBackupSpec) (sharded : option ShardedDatabase) : bool :=
  allBytes databaseNameByte (bs_ShardedDatabase spec) && match sharded with Some sd => allBytes databaseNameByte (sh_SpecName sd) | None => true end.

Lemma logical_safe spec sharded : shardedSafe spec sharded = true -> allBytes shDoubleSafe (shardedLogicalName (bs_ShardedDatabase spec) sharded) = true.
Proof.
  intros [H1 H2]%andb_true_iff. unfold shardedLogicalName. destruct sharded as [sd|]; [|by apply lower_safe].
  destruct (String.eqb (sh_SpecName sd) EmptyString); by apply lower_safe.
Qed.

Lemma logical_lower name sharded : strings.ToLower (shardedLogicalName name sharded) = shardedLogicalName name sharded.
Proof. unfold shardedLogicalName. destruct sharded; apply ToLower_idem. Qed.

(** The databases named in the command, by scope. *)
Lemma scope_cases spec : (bs_AllDatabases spec = true /\ Scope spec = BackupTargetKindCluster) \/
  (bs_AllDatabases spec = false /\ nonempty (bs_ShardedDatabase spec) = true /\ Scope spec = BackupTargetKindShardedDatabase) \/
  (bs_AllDatabases spec = false /\ nonempty (bs_ShardedDatabase spec) = false /\ Scope spec = BackupTargetKindDatabase).
Proof. unfold Scope, nonempty. destruct (bs_AllDatabases spec); [by left|right]. destruct (negb _); [by left|by right]. Qed.

Lemma scopeNames_spec backup sharded : schemaBackup (bk_Spec backup) = true -> shardedSafe (bk_Spec backup) sharded = true ->
  let all := String.eqb (Scope (bk_Spec backup)) BackupTargetKindCluster in
  let names := scopeNames (bk_Spec backup) sharded in
  Forall (fun n => allBytes shDoubleSafe n = true) names.1 /\
  (if all then ["*"] else List.filter nonEmpty names.1) = scopeDatabases backup sharded /\
  (if all then "*" else names.2) = validatedDatabase backup sharded /\ allBytes shDoubleSafe (validatedDatabase backup sharded) = true.
Proof.
  intros Hschema Hshard all names.
  pose proof Hschema as Hdb. unfold schemaBackup in Hdb. apply andb_true_iff in Hdb as [Hdb _]. pose proof (logical_safe _ _ Hshard) as Hl.
  unfold names, all, scopeNames, scopeDatabases, validatedDatabase, ScopedName.
    destruct (scope_cases (bk_Spec backup)) as [(-> & ->)|[(-> & -> & ->)|(-> & -> & ->)]];
      rewrite ?(eq_refl : String.eqb BackupTargetKindCluster BackupTargetKindDatabase = false),
        ?(eq_refl : String.eqb BackupTargetKindCluster BackupTargetKindShardedDatabase = false),
        ?(eq_refl : String.eqb BackupTargetKindShardedDatabase BackupTargetKindDatabase = false),
        ?(eq_refl : String.eqb BackupTargetKindShardedDatabase BackupTargetKindCluster = false),
        ?(eq_refl : String.eqb BackupTargetKindDatabase BackupTargetKindCluster = false),
        ?(eq_refl : String.eqb BackupTargetKindDatabase BackupTargetKindShardedDatabase = false), ?String.eqb_refl; cbn [fst snd].
    - by repeat split.
    - unfold shardedBackupPatterns. rewrite logical_lower.
      assert (forall x, nonEmpty (x +:+ "-g*") = true /\ nonEmpty (x +:+ "-p*") = true) as Hne by (by intros []).
      repeat split; [|..|done].
      + apply Forall_cons. split; [by rewrite allBytes_app, Hl|]. apply Forall_singleton. by rewrite allBytes_app, Hl.
      + cbn [List.filter]. by rewrite (proj1 (Hne _)), (proj2 (Hne _)).
    - repeat split; [|by apply name_safe]. apply Forall_singleton. by apply name_safe.
Qed.

Lemma type_plain backup : schemaBackup (bk_Spec backup) = true -> allBytes shPlain (effectiveBackupType backup) = true.
Proof.
  intros Hschema. unfold effectiveBackupType. destruct (_ && _); [done|]. unfold schemaBackup in Hschema. destruct (bs_Options (bk_Spec backup)) as [o|]; [|done].
  apply andb_true_iff in Hschema as [_ [[Ht _]%andb_true_iff _]%andb_true_iff]. eapply enum_plain; [exact Ht|by repeat constructor].
Qed.

(** The call of neo4j-admin, without the flag of the address resolution. *)
Lemma scans_admin ParseQuantity backup cluster standalone sharded :
  schemaBackup (bk_Spec backup) = true -> shardedSafe (bk_Spec backup) sharded = true ->
  dnsTarget cluster = true -> match standalone with Some s => dnsTarget s | None => true end = true ->
  scans (((GetBackupCommandForDatabases (scopeNames (bk_Spec backup) sharded).1 (buildToPath backup +:+ "/")
            (String.eqb (Scope (bk_Spec backup)) BackupTargetKindCluster)
            (match standalone with Some s => BuildStandaloneBackupFromAddress s | None => BuildBackupFromAddresses cluster end)
          +:+ flagIf (nonempty (effectiveBackupType backup)) (" --type=" +:+ effectiveBackupType backup)
          +:+ match bs_Options (bk_Spec backup) with Some o => optionFlags ParseQuantity (imageVersion cluster) o | None => EmptyString end))
         +:+ flagIf (effectiveRemoteAddressResolution backup (imageVersion cluster) (bg_Sharding cluster)) " --remote-address-resolution=true")
    (bare "neo4j-admin database backup" ++ tailTokens (backupArgs ParseQuantity backup cluster standalone sharded)).
Proof.
  intros Hschema Hshard Hc Hs. destruct (scopeNames_spec _ _ Hschema Hshard) as (Hn & Hd & _).
  unfold backupArgs. rewrite <- Hd. rewrite (app_assoc ["--to-path=" +:+ _]), (app_assoc (optArg (nonempty _) ("--from=" +:+ _))), tailTokens_app, app_assoc.
  rewrite !string_app_assoc. apply scans_app; [by apply scans_backupCommand; [apply addresses_plain|]|].
  apply tail_args; [|apply tail_args].
  - apply (scans_optArg _ ("--type=" +:+ _)). intros _. by apply plain_arg, type_plain.
  - unfold schemaBackup in Hschema. destruct (bs_Options (bk_Spec backup)) as [o|]; [|apply scans_nil]. apply scans_options.
    by apply andb_true_iff in Hschema as [_ H].
  - apply (scans_optArg _ "--remote-address-resolution=true"). intros _. by apply scans_plain.
Qed.

(** C26: the shell of a backup's Job runs neo4j-admin with the arguments the spec
    asks for, and nothing of the spec is interpreted. When the storage is a PVC the
    directory of the chain is made first and its lock taken; a temporary path is
    made; then neo4j-admin backs up exactly the databases of the scope from the
    target's addresses, every option one argument as it is written; and on request
    the result is validated, without failing the Job. The path, the temporary path
    and the user's arguments may be any text; the other fields are those the schema
    lets through. *)
Theorem backup_command_words (ParseQuantity : string -> option Z) (backup : Neo4jBackup) (cluster : BackupTarget)
    (standalone : option BackupTarget) (sharded : option ShardedDatabase) (cmd : string) :
  schemaBackup (bk_Spec backup) = true -> shardedSafe (bk_Spec backup) sharded = true ->
  dnsTarget cluster = true -> match standalone with Some s => dnsTarget s | None => true end = true ->
  buildBackupCommand ParseQuantity backup cluster standalone sharded = Ok cmd ->
  shScan Unquoted cmd = Some (backupTokens ParseQuantity backup cluster standalone sharded).
Proof.
  intros Hschema Hshard Hc Hs Hcmd. apply scans_whole. revert Hcmd. unfold buildBackupCommand.
  pose proof (scans_admin ParseQuantity _ _ _ _ Hschema Hshard Hc Hs) as Hadmin. destruct (scopeNames_spec _ _ Hschema Hshard) as (_ & _ & Hv & Hvs).
  destruct (scopeNames (bk_Spec backup) sharded) as [dbNames validateDBArg]. cbn [fst snd] in Hadmin, Hv.
  destruct (versionGate _ _ _ _ _) as [e|]; [done|]. cbv zeta. rewrite Hv. assert (forall x y : string, Ok x = Ok y -> x = y) as Hinj by congruence. intros <-%Hinj. unfold backupTokens.
  set (admin := bare "neo4j-admin database backup" ++ _) in *.
  match type of Hadmin with scans (?c +:+ ?r) _ => set (call := c) in *; set (remote := r) in * end.
  set (made := match bs_Options (bk_Spec backup) with
               | Some o => if nonempty (bo_TempPath o) then bare "mkdir -p " ++ lits (bo_TempPath o) ++ bare " && " else []
               | None => [] end).
  set (valid := if validateRequested _ && _ then _ else (_ : list shTok)).
  assert (forall x ts, scans x ts -> scans (if validateRequested (bk_Spec backup) && IsCalver (imageVersion cluster)
      then x +:+ " && (neo4j-admin backup validate --from-path=" +:+ shellQuote (buildToPath backup +:+ "/") +:+ " --database=" +:+ dquote
           +:+ validatedDatabase backup sharded +:+ dquote +:+ " || true)" else x) (ts ++ valid)) as Hvalid.
  { intros x ts Hx. unfold valid. destruct (_ && _); [|by rewrite app_nil_r]. repeat (apply scans_app; [by auto with scans|]).
    rewrite <- (string_app_assoc dquote), <- (string_app_assoc (dquote +:+ _)), (string_app_assoc dquote). apply scans_app; [by apply scans_dquote|auto with scans]. }
  assert (scans (match bs_Options (bk_Spec backup) with
     | Some o => if nonempty (bo_TempPath o) then "mkdir -p " +:+ shellQuote (bo_TempPath o) +:+ " && " +:+ call else call
     | None => call end +:+ remote) (made ++ admin)) as Hmade.
  { unfold made. destruct (bs_Options (bk_Spec backup)) as [o|]; [|done]. destruct (nonempty (bo_TempPath o)); [|done].
    rewrite !string_app_assoc, <- !app_assoc. repeat (apply scans_app; [by auto with scans|]). done. }
  specialize (Hvalid _ _ Hmade). rewrite <- app_assoc in Hvalid. destruct (String.eqb (sl_Type (bk_Storage backup)) "pvc"); [|done].
  rewrite TrimSuffix_app. change (bare " && flock -w 3600 9 && ") with (bare " && flock -w " ++ bare "3600" ++ bare " 9 && ").
  change (strconv.Itoa chainLockWaitSeconds) with "3600". rewrite <- !app_assoc. do 7 (apply scans_app; [by auto with scans|]). exact Hvalid.
Qed.

Definition demoOptions : BackupOptions :=
  mkBackupOptions None "FULL" "4G" false None false (Some true) ["--x=$(id)"; "it's"] false "/tmp/a b" None "all" false true EmptyString.
Definition demoBackup (storage : StorageLocation) (status : Neo4jBackupStatus) : Neo4jBackup :=
  mkNeo4jBackup "nightly" "ns" "u" 1 [] false
    (mkNeo4jBackupSpec "c" "orders" false EmptyString storage EmptyString EmptyString None (Some demoOptions) false EmptyString) status.
Definition demoStatus (history : list BackupRun) : Neo4jBackupStatus := mkNeo4jBackupStatus [] EmptyString EmptyString None None None EmptyString history 0.
Definition demoTarget : BackupTarget := mkBackupTarget "c" "ns" "neo4j" "2026.01.0-enterprise" 3 false "Ready" [].

Lemma backup_command_words_witness :
  let backup := demoBackup (mkStorageLocation "pvc" EmptyString EmptyString (Some (mkPVCSpec "claim" EmptyString EmptyString)) None) (demoStatus []) in
  shScan Unquoted (match buildBackupCommand (fun _ => None) backup demoTarget None None with Ok cmd => cmd | Err _ => EmptyString end)
  = Some (backupTokens (fun _ => None) backup demoTarget None None).
Proof. apply backup_command_words; reflexivity. Defined.

(** * The directory a backup writes and the ones its readers build *)

(** No slash at either end. *)
Definition trimmed (s : string) : Prop := strings.Trim s "/" = s.

Lemma trimLeft_length f t : (String.length (strings.trimLeftFunc f t) <= String.length t)%nat.
Proof. induction t as [|d t IH]; [done|]. cbn [strings.trimLeftFunc]. destruct (f d); cbn [String.length]; lia. Qed.

Lemma trimRight_length f t : (String.length (strings.trimRightFunc f t) <= String.length t)%nat.
Proof.
  induction t as [|d t IH]; [done|]. cbn [strings.trimRightFunc]. destruct (strings.trimRightFunc f t) as [|e u]; [destruct (f d)|]; cbn [String.length] in *; lia.
Qed.

Lemma trimLeft_eq f t : (String.length t <= String.length (strings.trimLeftFunc f t))%nat -> strings.trimLeftFunc f t = t.
Proof. destruct t as [|d t]; [done|]. cbn [strings.trimLeftFunc]. destruct (f d); [|done]. pose proof (trimLeft_length f t). cbn [String.length]. lia. Qed.

Lemma trimmed_sides s : trimmed s -> strings.trimLeftFunc (fun c => strings.byteIn c "/") s = s /\ strings.trimRightFunc (fun c => strings.byteIn c "/") s = s.
Proof.
  unfold trimmed, strings.Trim, strings.trimFunc. intros H. assert (strings.trimLeftFunc (fun c => strings.byteIn c "/") s = s) as Hl.
  { apply trimLeft_eq. rewrite <- H at 1. apply trimRight_length. }
  split; [done|]. by rewrite Hl in H.
Qed.

Lemma trimRight_app f x s : s <> EmptyString -> strings.trimRightFunc f s = s -> strings.trimRightFunc f (x +:+ s) = x +:+ s.
Proof.
  intros Hne Hs. induction x as [|c x IH]; [done|]. cbn [String.append strings.trimRightFunc]. rewrite IH. destruct (x +:+ s) eqn:E; [|done].
  exfalso. destruct x; [done|]. discriminate.
Qed.

Lemma slash_suffix s : strings.trimRightFunc (fun c => strings.byteIn c "/") s = s -> strings.HasSuffix s "/" = false.
Proof.
  intros H. apply not_true_is_false. unfold strings.HasSuffix. intros [_ E%String.eqb_eq]%andb_true_iff.
  assert (exists t, s = t +:+ "/") as [t ->].
  { exists (strings.upto (String.length s - String.length "/") s). rewrite <- E at 2. by rewrite upto_from. }
  assert (strings.trimRightFunc (fun c => strings.byteIn c "/") (t +:+ "/") = strings.trimRightFunc (fun c => strings.byteIn c "/") t) as Ht.
  { clear. induction t as [|c t IH]; [done|]. cbn [String.append strings.trimRightFunc]. by rewrite IH. }
  rewrite Ht in H. pose proof (trimRight_length (fun c => strings.byteIn c "/") t) as Hl. rewrite H, string_length_app in Hl. cbn in Hl. lia.
Qed.

Lemma trimLeft_app f s t : s <> EmptyString -> strings.trimLeftFunc f s = s -> strings.trimLeftFunc f (s +:+ t) = s +:+ t.
Proof.
  destruct s as [|c s]; [done|]. intros _. cbn [String.append strings.trimLeftFunc]. destruct (f c) eqn:E; [|done]. intros H.
  pose proof (trimLeft_length f s) as Hl. rewrite H in Hl. cbn in Hl. lia.
Qed.

(** C27: a restore reads a backup where it was written. For the storage and the
    directory a reader resolves from a backup whose runs recorded the directory of
    their chain, the path of the restore Job is the directory the backup Job was
    given; so is the URI a database is seeded from, when the path has no slash at
    its ends; and so is the URI published for replicas, when moreover the path is
    not empty. *)
Theorem backup_read_where_written (backup : Neo4jBackup) (source : RestoreSource) (storage : StorageLocation) (path : string) :
  resolvedStorage backup = Some (storage, path) ->
  Forall (fun run => br_BackupsPath run = chainRoot backup) (bk_History backup) ->
  chainRoot backup <> EmptyString -> trimmed (chainRoot backup) ->
  so_Storage source = Some storage -> so_BackupPath source = path ->
  buildRestoreFromPath source = buildToPath backup /\
  (cloudScheme (sl_Type (bk_Storage backup)) <> None -> trimmed (sl_Path (bk_Storage backup)) ->
   buildSeedURIFromBackupStorage storage path = Ok (buildToPath backup +:+ "/") /\
   (sl_Path (bk_Storage backup) <> EmptyString -> trimmed (sl_Bucket (bk_Storage backup)) ->
    ReplicationPullURI (bk_Storage backup) (chainRoot backup) = buildToPath backup +:+ "/")).
Proof.
  intros Hres Hruns Hne Hroot Hst Hpath.
  assert (path = chainRoot backup /\ storage = (if String.eqb (sl_Path (bk_Storage backup)) EmptyString
    then mkStorageLocation (sl_Type (bk_Storage backup)) (sl_Bucket (bk_Storage backup)) defaultBackupStoragePath (sl_PVC (bk_Storage backup)) (sl_Cloud (bk_Storage backup))
    else bk_Storage backup)) as [-> ->].
  { unfold resolvedStorage in Hres. destruct (List.find succeededRun (bk_History backup)) as [run|] eqn:Ef; [|done]. injection Hres as <- <-.
    apply find_some in Ef as [Hin _]. rewrite Forall_forall in Hruns. split; [|done]. apply Hruns. by apply list_elem_of_In. }
  set (st := bk_Storage backup) in *. set (root := chainRoot backup) in *.
  set (p := if String.eqb (sl_Path st) EmptyString then defaultBackupStoragePath else sl_Path st).
  set (st' := if String.eqb (sl_Path st) EmptyString then _ else st) in *.
  assert (sl_Type st' = sl_Type st /\ sl_Bucket st' = sl_Bucket st /\ sl_Path st' = p) as (Et & Eb & Ep) by (unfold st', p; by destruct (String.eqb (sl_Path st) EmptyString)).
  assert (String.eqb p EmptyString = false) as Hp by (unfold p; destruct (String.eqb (sl_Path st) EmptyString) eqn:E; [done|exact E]).
  assert (String.eqb root EmptyString = false) as Hr by (by apply String.eqb_neq).
  assert (buildToPath backup = match cloudScheme (sl_Type st) with Some scheme => scheme +:+ sl_Bucket st +:+ "/" +:+ p +:+ "/" +:+ root | None => "/backup/" +:+ root end) as Eto by done.
  split.
  - unfold buildRestoreFromPath. rewrite Hst, Hpath, Et, Eb, Ep, Eto. unfold fullBackupPath. rewrite Hp, Hr. cbn [negb andb].
    destruct (cloudScheme (sl_Type st)); done.
  - intros Hcloud Htrim. destruct (trimmed_sides _ Hroot) as [_ Hrr].
    assert (trimmed p) as Htp by (unfold p; by destruct (String.eqb (sl_Path st) EmptyString)). destruct (trimmed_sides _ Htp) as [Hpl Hpr].
    split.
    + unfold buildSeedURIFromBackupStorage. rewrite Et, Eb, Ep, Hp, Hr. cbn [negb andb].
      replace (strings.TrimRight p "/") with p by (symmetry; exact Hpr).
      rewrite (slash_suffix (p +:+ "/" +:+ root)). 2: { rewrite <- string_app_assoc. by apply trimRight_app. }
      rewrite string_app_assoc.
      replace (strings.trimLeftFunc _ (p +:+ ("/" +:+ root) +:+ "/")) with (p +:+ ("/" +:+ root) +:+ "/").
      2: { symmetry. rewrite (trimLeft_app _ p); [done|by apply String.eqb_neq|].
           rewrite <- Hpl at 2. clear. induction p as [|c p IH]; [done|]. cbn [strings.trimLeftFunc strings.byteIn]. rewrite orb_false_r. by destruct (Ascii.eqb c "/"). }
      rewrite Eto. unfold cloudScheme in *. destruct (String.eqb (sl_Type st) "s3"); [by rewrite !string_app_assoc|].
      destruct (String.eqb (sl_Type st) "gcs"); [by rewrite !string_app_assoc|]. destruct (String.eqb (sl_Type st) "azure"); [by rewrite !string_app_assoc|done].
    + intros Hpath' Hb. unfold ReplicationPullURI. rewrite Eto. destruct (cloudScheme (sl_Type st)) as [scheme|]; [|done].
      rewrite Htrim, Hroot, Hb. replace p with (sl_Path st). 2: { unfold p. by destruct (String.eqb_spec (sl_Path st) EmptyString). }
      destruct (String.eqb_spec (sl_Path st) EmptyString); [done|]. rewrite Hr. cbn [app strings.Join]. by rewrite !string_app_assoc.
Qed.

Definition demoRun (id status path : string) (start : Z) : BackupRun :=
  mkBackupRun id (Some start) (Some (start + 60 * second)) status EmptyString None path EmptyString EmptyString [] [] [] [] None.

Lemma backup_read_where_written_witness :
  let backup := demoBackup (mkStorageLocation "s3" "b" "prod/neo4j" None None) (demoStatus [demoRun "nightly-backup" "Succeeded" "nightly" 0]) in
  let source := mkRestoreSource "backup" "nightly" (Some (mkStorageLocation "s3" "b" "prod/neo4j" None None)) "nightly" EmptyString None None in
  buildRestoreFromPath source = buildToPath backup /\ buildToPath backup = "s3://b/prod/neo4j/nightly" /\
  buildSeedURIFromBackupStorage (mkStorageLocation "s3" "b" "prod/neo4j" None None) "nightly" = Ok "s3://b/prod/neo4j/nightly/" /\
  ReplicationPullURI (mkStorageLocation "s3" "b" "prod/neo4j" None None) "nightly" = "s3://b/prod/neo4j/nightly/".
Proof.
  intros backup source. destruct (backup_read_where_written backup source (mkStorageLocation "s3" "b" "prod/neo4j" None None) "nightly" eq_refl
    ltac:(repeat constructor) ltac:(discriminate) eq_refl eq_refl eq_refl) as [H1 H2].
  destruct (H2 ltac:(discriminate) eq_refl) as [H3 H4]. specialize (H4 ltac:(discriminate) eq_refl). by split_and!.
Defined.

(** The URI published for replicas leaves out the default directory: without
    spec.storage.path it names a directory the backup never writes to. *)
Theorem pull_uri_without_default_path (bucket root : string) :
  let backup := mkNeo4jBackup root "ns" "u" 1 [] false
    (mkNeo4jBackupSpec "c" "orders" false EmptyString (mkStorageLocation "s3" bucket EmptyString None None) "@daily" "replication-source" None None false EmptyString)
    (demoStatus []) in
  trimmed bucket -> trimmed root -> root <> EmptyString ->
  buildToPath backup = "s3://" +:+ bucket +:+ "/backups/" +:+ root /\
  ReplicationPullURI (bk_Storage backup) (chainRoot backup) = "s3://" +:+ bucket +:+ "/" +:+ root +:+ "/".
Proof.
  intros backup Hb Hr Hne. split; [done|]. unfold ReplicationPullURI, chainRoot.
  cbn [bk_Storage backup bs_Storage bk_Spec sl_Type sl_Bucket sl_Path bs_ChainFromBackup bk_Name String.eqb negb].
  change (cloudScheme "s3") with (Some "s3://"). cbv beta iota. unfold trimmed in *. rewrite Hb, Hr. change (strings.Trim EmptyString "/") with EmptyString.
  destruct (String.eqb_spec root EmptyString); [done|]. cbn [String.eqb app strings.Join]. by rewrite !string_app_assoc.
Qed.

(** * The age of a retention policy *)

(** [maxAgeShorthand] of src/internal/validation/backup_validator.go. *)
Definition maxAgeShorthand : regexp.re :=
  regexp.Cat regexp.TextBegin (regexp.Cat (regexp.One (regexp.oneOf "123456789")) (regexp.Cat (regexp.Many false isDigit)
    (regexp.Cat (regexp.One (regexp.oneOf "dhms")) regexp.TextEnd))).

Definition isValidMaxAge (maxAge : string) : bool := regexp.MatchString maxAgeShorthand maxAge.

(** The age as find(1) is asked for it: days, or minutes rounded up. *)
Definition ageArg (n : Z) (unit : ascii) : string :=
  if Ascii.eqb unit "d" then "-mtime +" +:+ strconv.Itoa n
  else "-mmin +" +:+ strconv.Itoa (if Ascii.eqb unit "h" then n * 60 else if Ascii.eqb unit "m" then n else (n + 59) / 60).

Lemma repeat_inv lazy f caps k : forall s prev m, regexp.repeat lazy f caps k prev s = Some m ->
  exists a b prev', s = a +:+ b /\ allBytes f a = true /\ k prev' b caps = Some m.
Proof.
  induction s as [|c s IH]; intros prev m; cbn [regexp.repeat].
  - intros H. exists EmptyString, EmptyString, prev. split_and!; [done|done|]. by destruct lazy, (k prev EmptyString caps).
  - assert ((if f c then regexp.repeat lazy f caps k (Some c) s else None) = Some m -> exists a b prev', String c s = a +:+ b /\ allBytes f a = true /\ k prev' b caps = Some m) as Hmore.
    { destruct (f c) eqn:Ef; [|done]. intros (a & b & p & -> & Ha & Hk)%IH. exists (String c a), b, p. split_and!; [done| |done]. cbn. by rewrite Ef. }
    assert (k prev (String c s) caps = Some m -> exists a b prev', String c s = a +:+ b /\ allBytes f a = true /\ k prev' b caps = Some m) as Hk
      by (intros H; by exists EmptyString, (String c s), prev).
    destruct lazy.
    + destruct (k prev (String c s) caps) eqn:E; [intros [= ->]; by apply Hk|apply Hmore].
    + destruct (if f c then _ else _) eqn:E; [intros [= ->]; by apply Hmore|apply Hk].
Qed.

Lemma validMaxAge_shape s : isValidMaxAge s = true -> exists c d u, s = String c d +:+ String u EmptyString /\
  regexp.oneOf "123456789" c = true /\ allBytes isDigit d = true /\ regexp.oneOf "dhms" u = true.
Proof.
  intros [[rest caps] H]%match_anchored. unfold regexp.here in H. cbn [regexp.run] in H.
  destruct s as [|c s]; [done|]. destruct (regexp.oneOf "123456789" c) eqn:Ec; [|done].
  apply repeat_inv in H as (d & b & p & -> & Hd & Hk). destruct b as [|u [|v b]]; [done| |by destruct (regexp.oneOf "dhms" u)].
  destruct (regexp.oneOf "dhms" u) eqn:Eu; [|done]. by exists c, d, u.
Qed.

Lemma digits_ge acc s n : 0 <= acc -> strconv.digits acc s = Some n -> acc <= n.
Proof.
  revert acc. induction s as [|c s IH]; intros acc Ha; cbn [strconv.digits]; [by intros [= <-]|].
  destruct (strconv.digit c) as [d|] eqn:E; [|done]. assert (0 <= d).
  { unfold strconv.digit in E. destruct (_ && _) eqn:Ec; [|done]. apply andb_true_iff in Ec as [H%N.leb_le _]. injection E as <-. lia. }
  intros H'%IH; lia.
Qed.

(** An age the validator accepts is applied as it is written. Of a maxAge it
    accepts, a whole number and a unit, find(1) is asked for that many days, or for
    the minutes that are its hours, minutes or seconds rounded up to the minute, as
    long as the number of minutes is an int. *)
Theorem retention_age_applied (maxAge : string) (n : Z) :
  isValidMaxAge maxAge = true ->
  exists digits unit, maxAge = digits +:+ String unit EmptyString /\ regexp.oneOf "dhms" unit = true /\ allBytes isDigit digits = true /\
    (strconv.digits 0 digits = Some n -> n * 60 <= strconv.maxInt64 -> 0 < n /\ parseFindTimeArg maxAge = ageArg n unit).
Proof.
  intros (c & d & u & -> & Hc & Hd & Hu)%validMaxAge_shape. exists (String c d), u. split_and!; [done|done| |].
  { cbn [allBytes]. rewrite Hd, andb_true_r. revert Hc. destruct c as [[] [] [] [] [] [] [] []]; done. }
  intros Hn Hmax.
  assert (0 < n) as Hpos.
  { cbn [strconv.digits] in Hn. destruct (strconv.digit c) as [x|] eqn:Ex; [|done]. apply digits_ge in Hn; [|revert Hc Ex; destruct c as [[] [] [] [] [] [] [] []]; try done; intros _ [= <-]; lia].
    revert Hc Ex. destruct c as [[] [] [] [] [] [] [] []]; try done; intros _ [= <-]; lia. }
  split; [done|]. unfold parseFindTimeArg. rewrite string_length_app. cbn [String.length].
  replace (S (String.length d) + 1 - 1)%nat with (String.length (String c d)) by (cbn; lia).
  destruct (Nat.ltb_spec (S (String.length d) + 1) 2); [lia|]. rewrite from_length_app, upto_length_app.
  rewrite (Atoi_digits (String c d) n) by (done || lia). destruct (Z.leb_spec n 0); [lia|].
  assert (forall m, 0 <= m <= strconv.maxInt64 -> wrap64 m = m) as Hwrap.
  { intros m Hm. unfold wrap64, strconv.maxInt64 in *. rewrite Z.mod_small; lia. }
  unfold ageArg. assert (forall x, String.eqb (String u EmptyString) (String x EmptyString) = Ascii.eqb u x) as Heq by (intros x; cbn; by destruct (Ascii.eqb u x)).
  rewrite !Heq. rewrite !Hwrap by (unfold strconv.maxInt64 in *; lia).
  destruct (Ascii.eqb u "d") eqn:Ed; [done|]. destruct (Ascii.eqb u "h") eqn:Eh; [done|]. destruct (Ascii.eqb u "m") eqn:Em; [done|].
  assert (Ascii.eqb u "s" = true) as ->. { unfold regexp.oneOf in Hu. cbn [strings.byteIn] in Hu. rewrite Ed, Eh, Em, orb_false_r in Hu. exact Hu. }
  rewrite Z.quot_div_nonneg by lia. assert (1 <= (n + 59) / 60) by (apply Z.div_le_lower_bound; lia). destruct (Z.ltb_spec ((n + 59) / 60) 1); [lia|done].
Qed.

Lemma retention_age_applied_witness : parseFindTimeArg "36h" = "-mmin +2160".
Proof.
  destruct (retention_age_applied "36h" 36 eq_refl) as (digits & unit & E & Hu & Hd & H).
  assert (digits = "36" /\ unit = "h"%char) as [-> ->].
  { change "36h" with ("36" +:+ String "h" EmptyString) in E. by apply snoc_inj in E as [<- <-]. }
  destruct (H eq_refl ltac:(vm_compute; discriminate)) as [_ ->]. reflexivity.
Defined.

(** A number of days that is no int is accepted, and prunes what is older than a
    week; a number of hours whose minutes overflow asks for a negative age. *)
Theorem retention_age_overflows :
  isValidMaxAge "9223372036854775808d" = true /\ parseFindTimeArg "9223372036854775808d" = "-mtime +7" /\
  isValidMaxAge "200000000000000000h" = true /\ parseFindTimeArg "200000000000000000h" = "-mmin +-6446744073709551616".
Proof. vm_compute. done. Qed.
