(* ===== verification/BackupHistory.v ===== *)
(** The runs a backup records (jobToBackupRun, backupRunAlreadyRecorded,
    sortBackupRunsNewestFirst, recordShardedExclusion, the runWarnings, and the writes of
    status.history in recordOneShotBackupRun and reconcileScheduledHistory, all of
    src/internal/controller/neo4jbackup_controller.go). A restore and a seed read
    the first run of the history that succeeded, so the theorems are about which
    runs are kept and in which order. *)
From S2P Require Import Prelude GoStrings GoRegexp GoTime GoRFC3339 ClusterTypes Conditions Version UpgradeMachine BackupTypes RestoreTypes RestoreCommand BackupLog BackupArtifact BackupCommand.

Open Scope Z_scope.

(** * A run of a Job *)

(** [d.Round(time.Second)], halves away from zero. *)
Definition roundDuration (d : Z) : Z := if d <? 0 then - ((- d + second / 2) / second * second) else (d + second / 2) / second * second.

(** The run, and whether the Job has ended. *)
Definition jobToBackupRun (job : BackupJob) (backupsPath : string) : BackupRun * bool :=
  let run := fun status stats => mkBackupRun (bj_Name job) (bj_StartTime job) (bj_CompletionTime job) status EmptyString stats backupsPath
                                   EmptyString EmptyString [] [] [] [] None in
  if jobSucceeded job
  then (run "Succeeded" (match bj_StartTime job, bj_CompletionTime job with
                         | Some s, Some c => Some (mkBackupStats EmptyString (gotime.DurationString (roundDuration (c - s))) EmptyString 0)
                         | _, _ => None
                         end), true)
  else if jobConditionTrue job JobFailed then (run "Failed" None, true)
  else (run EmptyString None, false).

Definition backupRunAlreadyRecorded (history : list BackupRun) (run : BackupRun) (jobUID : string) : bool :=
  if String.eqb (br_RunID run) EmptyString then false
  else existsb (fun existing => nonempty (br_RunID existing) &&
                  (String.eqb (br_RunID existing) (br_RunID run) || nonempty jobUID && String.eqb (br_RunID existing) jobUID)) history.

(** [jobFinishedAt]; [None] is the zero time. *)
Definition jobFinishedAt (job : BackupJob) : option Z :=
  match bj_CompletionTime job with
  | Some t => Some t
  | None => match List.find (fun c => (String.eqb (jc_Type c) JobComplete || String.eqb (jc_Type c) JobFailed)
                                      && String.eqb (jc_Status c) ConditionTrue && bool_decide (jc_LastTransitionTime c <> None)) (bj_Conditions job) with
            | Some c => jc_LastTransitionTime c
            | None => None
            end
  end.

Definition artifactCaptureGrace : Z := 5 * minute.

(** * What the log adds to it *)

Definition set_br_Error (v : string) (r : BackupRun) : BackupRun :=
  mkBackupRun (br_RunID r) (br_StartTime r) (br_CompletionTime r) (br_Status r) v (br_Stats r) (br_BackupsPath r) (br_ArtifactFilename r)
    (br_ArtifactType r) (br_ShardArtifacts r) (br_DatabaseArtifacts r) (br_ShardedDatabasesExcluded r) (br_ShardedFamilies r) (br_Validation r).
Definition set_br_ShardArtifacts (v : list ShardArtifact) (r : BackupRun) : BackupRun :=
  mkBackupRun (br_RunID r) (br_StartTime r) (br_CompletionTime r) (br_Status r) (br_Error r) (br_Stats r) (br_BackupsPath r) (br_ArtifactFilename r)
    (br_ArtifactType r) v (br_DatabaseArtifacts r) (br_ShardedDatabasesExcluded r) (br_ShardedFamilies r) (br_Validation r).
Definition set_br_ArtifactFilename (v : string) (r : BackupRun) : BackupRun :=
  mkBackupRun (br_RunID r) (br_StartTime r) (br_CompletionTime r) (br_Status r) (br_Error r) (br_Stats r) (br_BackupsPath r) v
    (br_ArtifactType r) (br_ShardArtifacts r) (br_DatabaseArtifacts r) (br_ShardedDatabasesExcluded r) (br_ShardedFamilies r) (br_Validation r).
Definition set_br_DatabaseArtifacts (v : list DatabaseArtifact) (r : BackupRun) : BackupRun :=
  mkBackupRun (br_RunID r) (br_StartTime r) (br_CompletionTime r) (br_Status r) (br_Error r) (br_Stats r) (br_BackupsPath r) (br_ArtifactFilename r)
    (br_ArtifactType r) (br_ShardArtifacts r) v (br_ShardedDatabasesExcluded r) (br_ShardedFamilies r) (br_Validation r).
Definition set_br_Sharded (excluded : list string) (families : list ShardedFamilyArtifacts) (r : BackupRun) : BackupRun :=
  mkBackupRun (br_RunID r) (br_StartTime r) (br_CompletionTime r) (br_Status r) (br_Error r) (br_Stats r) (br_BackupsPath r) (br_ArtifactFilename r)
    (br_ArtifactType r) (br_ShardArtifacts r) (br_DatabaseArtifacts r) excluded families (br_Validation r).
Definition set_br_Validation (v : option BackupValidationResult) (r : BackupRun) : BackupRun :=
  mkBackupRun (br_RunID r) (br_StartTime r) (br_CompletionTime r) (br_Status r) (br_Error r) (br_Stats r) (br_BackupsPath r) (br_ArtifactFilename r)
    (br_ArtifactType r) (br_ShardArtifacts r) (br_DatabaseArtifacts r) (br_ShardedDatabasesExcluded r) (br_ShardedFamilies r) v.

Record runWarning := mkRunWarning { rw_RunID : string; rw_Reason : string; rw_Message : string }.

(** [runWarnings.add]. *)
Definition addWarning (run : BackupRun) (reason message : string) (w : list runWarning) : list runWarning :=
  if String.eqb message EmptyString then w else w ++ [mkRunWarning (br_RunID run) reason message].

(** [runWarnings.emit]: the warnings of the runs in [recorded] ([None]: all). *)
Definition emittedWarnings (w : list runWarning) (recorded : option (list BackupRun)) : list (string * string) :=
  (fun x => (rw_Reason x, rw_Message x)) <$>
  List.filter (fun x => match recorded with Some runs => existsb (fun r => String.eqb (br_RunID r) (rw_RunID x)) runs | None => true end) w.

Definition EventReasonBackupShardedExcluded : string := "BackupShardedDatabasesExcluded".
Definition EventReasonBackupShardedDifferential : string := "BackupShardedDifferential".

Definition recordShardedExclusion (backup : Neo4jBackup) (run : BackupRun) (jobLog : string) : BackupRun * string :=
  match parseShardedFamiliesExcludedFromLog jobLog with
  | [] => (run, EmptyString)
  | families =>
      (set_br_Sharded families (groupShardedFamiliesFromLog jobLog) run,
       "all-databases backup captured property-sharded database(s) " +:+ strings.Join families ", "
       +:+ " as per-shard artifacts (status.shardedFamilies); they are NOT recreated by an all-databases restore — restore each from THIS backup via its Neo4jShardedDatabase CR with spec.seedBackupRef: "
       +:+ bk_Name backup)
  end.

Definition shardedPVCDifferentialWarning (backup : Neo4jBackup) (run : BackupRun) : string :=
  if negb (String.eqb (sl_Type (bk_Storage backup)) "pvc") || negb (String.eqb (br_Status run) "Succeeded") then EmptyString
  else match runDifferentialShards run with
       | [] => EmptyString
       | diffs =>
           let fix_ := if String.eqb (Scope (bk_Spec backup)) BackupTargetKindCluster
                       then "An all-databases backup's shards follow its backupType; back the sharded database up with its own Neo4jBackup (spec.shardedDatabase), which takes full backups on a PVC"
                       else "Later runs are full — AUTO and FULL take full backups of a sharded database on a PVC" in
           "run " +:+ br_RunID run +:+ " wrote differential backups of " +:+ strings.Join diffs ", "
           +:+ " to a PVC, which cannot seed a sharded database: over HTTP, Neo4j seeds one only from a full backup of every shard. "
           +:+ fix_ +:+ ", or keep them in cloud storage, where differentials seed directly"
       end.

(** The log of a run is read when something is parsed from it. *)
Definition wantsLog (backup : Neo4jBackup) (expected : list ShardArtifact) : bool :=
  match expected with [] => false | _ => true end
  || String.eqb (Scope (bk_Spec backup)) BackupTargetKindDatabase || String.eqb (Scope (bk_Spec backup)) BackupTargetKindCluster
  || validateRequested (bk_Spec backup).

(** What both paths do with a run, its expected shards and its log. *)
Definition describeRun (backup : Neo4jBackup) (expected : list ShardArtifact) (log : string) (run : BackupRun) : BackupRun * list runWarning :=
  let isStandardDB := String.eqb (Scope (bk_Spec backup)) BackupTargetKindDatabase in
  let isAllDatabases := String.eqb (Scope (bk_Spec backup)) BackupTargetKindCluster in
  let run := match expected with
             | [] => run
             | _ => set_br_ShardArtifacts (if nonempty log then mergeShardArtifactsFromLog expected (parseShardArtifactsFromLog log) else expected) run
             end in
  let run := if isStandardDB && nonempty log then set_br_ArtifactFilename (parseStandardArtifactFromLog log (ScopedName (bk_Spec backup))) run else run in
  let '(run, warnings) :=
    if isAllDatabases && nonempty log
    then let '(run, message) := recordShardedExclusion backup (set_br_DatabaseArtifacts (parseAllDatabaseArtifactsFromLog log) run) log in
         (run, addWarning run EventReasonBackupShardedExcluded message [])
    else (run, []) in
  if negb (nonempty log) then (run, warnings)
  else
    let run := recordArtifactTypes run log (ScopedName (bk_Spec backup)) in
    let warnings := addWarning run EventReasonBackupShardedDifferential (shardedPVCDifferentialWarning backup run) warnings in
    (match parseValidationFromLog log with Some v => set_br_Validation (Some v) run | None => run end, warnings).

(** The names a restore needs of a Succeeded run were not in the log. *)
Definition artifactsMissing (backup : Neo4jBackup) (run : BackupRun) : bool :=
  let scope := Scope (bk_Spec backup) in
  if String.eqb scope BackupTargetKindDatabase then String.eqb (br_ArtifactFilename run) EmptyString
  else if String.eqb scope BackupTargetKindCluster then match br_DatabaseArtifacts run with [] => true | _ => false end
  else existsb (fun a => String.eqb (sa_Filename a) EmptyString) (br_ShardArtifacts run).

(** * The writes of the history *)

Definition historyCap : nat := 10.

(** The body of the write of a one-time run, and whether it recorded it. *)
Definition oneShotBody (run : BackupRun) (jobUID : string) (latest : Neo4jBackup) : option Neo4jBackup * bool :=
  if backupRunAlreadyRecorded (bk_History latest) run jobUID then (None, false)
  else
    let stats := if String.eqb (br_Status run) "Succeeded"
                 then match br_Stats run with Some _ => br_Stats run | None => bu_Stats (bk_Status latest) end
                 else bu_Stats (bk_Status latest) in
    (Some (set_bk_Status (set_bu_History stats (take historyCap (run :: bk_History latest)) (bk_Status latest)) latest), true).

(** [a.StartTime.After(b.StartTime)]; the zero time is before any other. *)
Definition startAfter (a b : option Z) : bool :=
  match a, b with Some x, Some y => y <? x | Some _, None => true | None, _ => false end.

(** [a] sorts before [b]. *)
Definition newerRun (a b : BackupRun) : bool :=
  if bool_decide (br_StartTime a = br_StartTime b) then negb (sort.leb (br_RunID a) (br_RunID b))
  else startAfter (br_StartTime a) (br_StartTime b).

(** Not the other way round. *)
Definition runOrder (a b : BackupRun) : Prop := newerRun b a = false.

#[global] Instance runOrder_dec a b : Decision (runOrder a b).
Proof. unfold runOrder. apply _. Defined.

Definition sortBackupRunsNewestFirst (runs : list BackupRun) : list BackupRun := merge_sort runOrder runs.

(** What the loop over the Jobs has: the history so far, the runs it added, the
    Succeeded ones among them, and the warnings about them. *)
Record scanned := mkScanned { sc_History : list BackupRun; sc_Added : list BackupRun; sc_Succeeded : list BackupRun; sc_Warnings : list runWarning }.

Section Scheduled.
Context (expected : list ShardArtifact) (logOf failureOf : BackupJob -> string).

Definition scanJob (latest : Neo4jBackup) (acc : scanned) (job : BackupJob) : scanned :=
  let '(run, ended) := jobToBackupRun job (chainRoot latest) in
  if negb ended then acc
  else if backupRunAlreadyRecorded (sc_History acc) run (bj_UID job) then acc
  else
    let run := if String.eqb (br_Status run) "Failed" then set_br_Error (failureOf job) run else run in
    let log := if wantsLog latest expected then logOf job else EmptyString in
    let '(run, warnings) := describeRun latest expected log run in
    mkScanned (sc_History acc ++ [run]) (sc_Added acc ++ [run])
      (if String.eqb (br_Status run) "Succeeded" then sc_Succeeded acc ++ [run] else sc_Succeeded acc) (sc_Warnings acc ++ warnings).

Definition scanJobs (latest : Neo4jBackup) (jobs : list BackupJob) : scanned :=
  fold_left (scanJob latest) jobs (mkScanned (bk_History latest) [] [] []).

(** The body of the write of reconcileScheduledHistory: what it writes, the
    Succeeded runs it found, the warnings, and the history it recorded. *)
Definition scheduledBody (jobs : list BackupJob) (latest : Neo4jBackup)
    : option Neo4jBackup * (list BackupRun * list runWarning * option (list BackupRun)) :=
  let acc := scanJobs latest jobs in
  match sc_Added acc with
  | [] => (None, (sc_Succeeded acc, sc_Warnings acc, None))
  | _ =>
      let history := take historyCap (sortBackupRunsNewestFirst (sc_History acc)) in
      (Some (set_bk_Status (set_bu_History (bu_Stats (bk_Status latest)) history (bk_Status latest)) latest),
       (sc_Succeeded acc, sc_Warnings acc, Some history))
  end.
End Scheduled.

(** The run of the reverse lookup: the one that completed last. *)
Definition latestSucceeded (runs : list BackupRun) : option BackupRun :=
  match runs with
  | [] => None
  | r :: rest => Some (fold_left (fun best r =>
      match br_CompletionTime r with
      | Some t => match br_CompletionTime best with Some b => if b <? t then r else best | None => r end
      | None => best
      end) rest r)
  end.

(** * Lemmas *)

(** What a log adds leaves the rest of the run. *)
Definition sameRun (a b : BackupRun) : Prop :=
  br_RunID a = br_RunID b /\ br_StartTime a = br_StartTime b /\ br_CompletionTime a = br_CompletionTime b /\
  br_Status a = br_Status b /\ br_Error a = br_Error b /\ br_Stats a = br_Stats b /\ br_BackupsPath a = br_BackupsPath b.

#[global] Instance sameRun_equiv : Equivalence sameRun.
Proof. split; unfold sameRun; [done|by intros a b (?&?&?&?&?&?&?)|intros a b c (?&?&?&?&?&?&?) (?&?&?&?&?&?&?)]; split_and!; congruence. Qed.

Lemma describeRun_same backup expected log run : sameRun (describeRun backup expected log run).1 run.
Proof.
  unfold describeRun. set (r1 := match expected with [] => run | _ => _ end). assert (sameRun r1 run) as H1 by (unfold r1; by destruct expected). clearbody r1.
  set (r2 := if _ && nonempty log then set_br_ArtifactFilename _ r1 else r1). assert (sameRun r2 run) as H2 by (unfold r2; destruct (_ && _); exact H1). clearbody r2.
  set (rest := if String.eqb _ BackupTargetKindCluster && nonempty log then _ else _). assert (sameRun rest.1 run) as H3.
  { unfold rest, recordShardedExclusion. destruct (_ && _); [|exact H2]. destruct (parseShardedFamiliesExcludedFromLog log); exact H2. }
  destruct rest as [r3 ws]. cbn [fst] in H3. destruct (negb (nonempty log)); [done|]. cbv zeta.
  assert (sameRun (recordArtifactTypes r3 log (ScopedName (bk_Spec backup))) run) as H4 by exact H3.
  destruct (parseValidationFromLog log); exact H4.
Qed.

Lemma newerRun_irrefl a : newerRun a a = false.
Proof. unfold newerRun. rewrite bool_decide_true by done. assert (sort.leb (br_RunID a) (br_RunID a) = true) as ->; [|done]. by destruct (total sort.le (br_RunID a) (br_RunID a)). Qed.

Lemma newerRun_trans_neg a b c : newerRun b a = false -> newerRun c b = false -> newerRun c a = false.
Proof.
  unfold newerRun, startAfter. intros H1 H2.
  assert (sort.leb (br_RunID b) (br_RunID a) = true -> sort.leb (br_RunID c) (br_RunID b) = true -> sort.leb (br_RunID c) (br_RunID a) = true) as Ht
    by (intros; by apply (transitivity (R := sort.le) (x := br_RunID c) (y := br_RunID b))).
  assert (forall x y : Z, bool_decide (Some x = Some y) = (x =? y)) as Hd.
  { intros x y. destruct (Z.eqb_spec x y) as [->|]; [by apply bool_decide_true|apply bool_decide_false; congruence]. }
  destruct (br_StartTime a) as [x|], (br_StartTime b) as [y|], (br_StartTime c) as [z|]; rewrite ?Hd in *;
    rewrite ?(bool_decide_true (@None Z = None)) in * by done; rewrite ?(bool_decide_false (Some _ = None)), ?(bool_decide_false (None = Some _)) in * by done;
    repeat match goal with H : context [?x =? ?y] |- _ => destruct (Z.eqb_spec x y) | |- context [?x =? ?y] => destruct (Z.eqb_spec x y) end; subst;
    rewrite ?negb_false_iff, ?Z.ltb_ge in *; try done; try lia; by apply Ht.
Qed.

#[global] Instance runOrder_trans : Transitive runOrder.
Proof. intros a b c H1 H2. exact (newerRun_trans_neg a b c H1 H2). Qed.

Lemma newerRun_total a b : br_RunID a <> br_RunID b -> newerRun b a = false -> newerRun a b = true.
Proof.
  intros Hne. unfold newerRun, startAfter. case_bool_decide as E.
  - rewrite bool_decide_true by done. intros H%negb_false_iff. apply negb_true_iff, not_true_is_false. intros H'. apply Hne. by apply (anti_symm sort.le).
  - rewrite bool_decide_false by done. destruct (br_StartTime a) as [x|], (br_StartTime b) as [y|]; try done.
    rewrite Z.ltb_ge, Z.ltb_lt. intros H. assert (x <> y) by congruence. lia.
Qed.

#[global] Instance runOrder_total : Total runOrder.
Proof.
  intros a b. unfold runOrder. destruct (newerRun b a) eqn:E; [|by left]. right. unfold newerRun, startAfter in *. case_bool_decide as Es.
  - rewrite bool_decide_true by done. apply negb_true_iff in E. apply negb_false_iff. destruct (total sort.le (br_RunID b) (br_RunID a)) as [H|H]; [unfold sort.le in H; congruence|done].
  - rewrite bool_decide_false by done. destruct (br_StartTime a) as [x|], (br_StartTime b) as [y|]; try done. apply Z.ltb_ge. apply Z.ltb_lt in E. lia.
Qed.

(** * What is kept *)

(** Distinct runs, each with a name. *)
Definition distinctRuns (history : list BackupRun) : Prop := NoDup (br_RunID <$> history) /\ Forall (fun r => br_RunID r <> EmptyString) history.

Lemma not_recorded history run uid : br_RunID run <> EmptyString -> backupRunAlreadyRecorded history run uid = false -> (br_RunID run ∉ (br_RunID <$> history)).
Proof.
  intros Hne H Hin. apply list_elem_of_fmap in Hin as (e & Eq & He). unfold backupRunAlreadyRecorded in H.
  destruct (String.eqb_spec (br_RunID run) EmptyString); [done|]. apply not_true_iff_false in H. apply H, existsb_exists. exists e. split; [by apply list_elem_of_In|].
  rewrite <- Eq, String.eqb_refl, orb_true_l, andb_true_r. unfold nonempty. by destruct (String.eqb_spec (br_RunID run) EmptyString).
Qed.

Lemma distinct_snoc history run : distinctRuns history -> br_RunID run <> EmptyString -> (br_RunID run ∉ (br_RunID <$> history)) -> distinctRuns (history ++ [run]).
Proof.
  intros [H1 H2] Hne Hnew. split.
  - rewrite fmap_app. apply NoDup_app. split_and!; [done| |apply NoDup_singleton]. intros x Hx ->%list_elem_of_singleton. done.
  - apply Forall_app. split; [done|]. by apply Forall_singleton.
Qed.

(** The status of a run that ended. *)
Lemma ended_status job path run : jobToBackupRun job path = (run, true) ->
  br_RunID run = bj_Name job /\ br_BackupsPath run = path /\ br_StartTime run = bj_StartTime job /\ br_Status run = (if jobSucceeded job then "Succeeded" else "Failed").
Proof.
  unfold jobToBackupRun. destruct (jobSucceeded job); [by intros [= <-]|]. destruct (jobConditionTrue job JobFailed); [by intros [= <-]|done].
Qed.

Section Scan.
Context (expected : list ShardArtifact) (logOf failureOf : BackupJob -> string) (latest : Neo4jBackup).

(** A run recorded for a Job of the list. *)
Definition runOfJob (jobs : list BackupJob) (run : BackupRun) : Prop :=
  exists job, job ∈ jobs /\ (jobToBackupRun job (chainRoot latest)).2 = true /\ br_RunID run = bj_Name job /\
    br_BackupsPath run = chainRoot latest /\ br_StartTime run = bj_StartTime job /\ br_Status run = (if jobSucceeded job then "Succeeded" else "Failed").

Lemma scanJob_spec acc job seen : bj_Name job <> EmptyString ->
  sc_History acc = bk_History latest ++ sc_Added acc -> distinctRuns (sc_History acc) ->
  Forall (runOfJob seen) (sc_Added acc) -> sc_Succeeded acc = List.filter succeededRun (sc_Added acc) ->
  let acc' := scanJob expected logOf failureOf latest acc job in
  sc_History acc' = bk_History latest ++ sc_Added acc' /\ distinctRuns (sc_History acc') /\
  Forall (runOfJob (seen ++ [job])) (sc_Added acc') /\ sc_Succeeded acc' = List.filter succeededRun (sc_Added acc') /\
  (forall r, r ∈ sc_History acc -> r ∈ sc_History acc') /\
  ((jobToBackupRun job (chainRoot latest)).2 = true -> exists r, r ∈ sc_History acc' /\ (br_RunID r = bj_Name job \/ br_RunID r = bj_UID job)).
Proof.
  intros Hname Hh Hd Hadd Hsucc. unfold scanJob.
  assert (Forall (runOfJob (seen ++ [job])) (sc_Added acc)) as Hadd'.
  { eapply Forall_impl; [exact Hadd|]. intros r (j & Hj & H). exists j. split; [apply elem_of_app; by left|done]. }
  destruct (jobToBackupRun job (chainRoot latest)) as [run ended] eqn:Ej. cbn [snd]. destruct ended; cbn [negb].
  2: { by split_and!. }
  destruct (ended_status _ _ _ Ej) as (Eid & Epath & Est & Estat).
  destruct (backupRunAlreadyRecorded (sc_History acc) run (bj_UID job)) eqn:Er.
  { split_and!; try done. intros _. unfold backupRunAlreadyRecorded in Er. destruct (String.eqb (br_RunID run) EmptyString); [done|].
    apply existsb_exists in Er as (e & He & [_ H]%andb_true_iff). exists e. split; [by apply list_elem_of_In|]. apply orb_true_iff in H as [H|H].
    - left. apply String.eqb_eq in H. congruence.
    - right. apply andb_true_iff in H as [_ H]. by apply String.eqb_eq in H. }
  set (run' := if String.eqb (br_Status run) "Failed" then set_br_Error (failureOf job) run else run).
  assert (br_RunID run' = bj_Name job /\ br_BackupsPath run' = chainRoot latest /\ br_StartTime run' = bj_StartTime job /\ br_Status run' = (if jobSucceeded job then "Succeeded" else "Failed")) as (Ei & Ep & Es & Et)
    by (unfold run'; destruct (String.eqb (br_Status run) "Failed"); by split_and!).
  pose proof (describeRun_same latest expected (if wantsLog latest expected then logOf job else EmptyString) run') as (S1 & S2 & _ & S4 & _ & _ & S7).
  destruct (describeRun latest expected _ run') as [r ws]. cbn [fst] in S1, S2, S4, S7. cbn [sc_History sc_Added sc_Succeeded].
  assert (br_RunID r = bj_Name job) as Eid' by congruence.
  split_and!.
  - rewrite Hh. by rewrite <- app_assoc.
  - apply distinct_snoc; [done|congruence|]. rewrite Eid', <- Eid. apply (not_recorded _ _ (bj_UID job)); [congruence|done].
  - apply Forall_app. split; [done|]. apply Forall_singleton. exists job. split; [apply elem_of_app; right; by left|]. rewrite Ej. split_and!; [done|done|by rewrite S7|by rewrite S2|by rewrite S4].
  - rewrite List.filter_app. cbn [List.filter]. unfold succeededRun at 2. rewrite Hsucc. destruct (String.eqb (br_Status r) "Succeeded"); [done|by rewrite app_nil_r].
  - intros x Hx. apply elem_of_app. by left.
  - intros _. exists r. split; [apply elem_of_app; right; by left|by left].
Qed.

Lemma scanJobs_spec jobs : Forall (fun j => bj_Name j <> EmptyString) jobs -> distinctRuns (bk_History latest) ->
  let acc := scanJobs expected logOf failureOf latest jobs in
  sc_History acc = bk_History latest ++ sc_Added acc /\ distinctRuns (sc_History acc) /\
  Forall (runOfJob jobs) (sc_Added acc) /\ sc_Succeeded acc = List.filter succeededRun (sc_Added acc) /\
  (forall job, job ∈ jobs -> (jobToBackupRun job (chainRoot latest)).2 = true -> exists r, r ∈ sc_History acc /\ (br_RunID r = bj_Name job \/ br_RunID r = bj_UID job)).
Proof.
  intros Hj Hd. unfold scanJobs.
  assert (forall rest seen acc, Forall (fun j => bj_Name j <> EmptyString) rest ->
    sc_History acc = bk_History latest ++ sc_Added acc -> distinctRuns (sc_History acc) -> Forall (runOfJob seen) (sc_Added acc) ->
    sc_Succeeded acc = List.filter succeededRun (sc_Added acc) ->
    (forall job, job ∈ seen -> (jobToBackupRun job (chainRoot latest)).2 = true -> exists r, r ∈ sc_History acc /\ (br_RunID r = bj_Name job \/ br_RunID r = bj_UID job)) ->
    let acc' := fold_left (scanJob expected logOf failureOf latest) rest acc in
    sc_History acc' = bk_History latest ++ sc_Added acc' /\ distinctRuns (sc_History acc') /\ Forall (runOfJob (seen ++ rest)) (sc_Added acc') /\
    sc_Succeeded acc' = List.filter succeededRun (sc_Added acc') /\
    (forall job, job ∈ seen ++ rest -> (jobToBackupRun job (chainRoot latest)).2 = true -> exists r, r ∈ sc_History acc' /\ (br_RunID r = bj_Name job \/ br_RunID r = bj_UID job))) as H.
  { induction rest as [|j rest IH]; intros seen acc Hr H1 H2 H3 H4 H5; cbn [fold_left]; [by rewrite app_nil_r|].
    apply Forall_cons in Hr as [Hj' Hr]. destruct (scanJob_spec acc j seen Hj' H1 H2 H3 H4) as (I1 & I2 & I3 & I4 & I5 & I6).
    replace (seen ++ j :: rest) with ((seen ++ [j]) ++ rest) by by rewrite <- app_assoc. apply IH; [done..|].
    intros job [Hin| ->%list_elem_of_singleton]%elem_of_app He; [|by apply I6]. destruct (H5 job Hin He) as (r & Hr' & E). exists r. split; [by apply I5|done]. }
  apply (H jobs [] (mkScanned (bk_History latest) [] [] [])); [done|by rewrite app_nil_r|done|done|done|]. by intros job ?%elem_of_nil.
Qed.
End Scan.

(** * The history written *)

(** [a] is newer than every run after it. *)
Definition newestFirst (runs : list BackupRun) : Prop := StronglySorted (fun a b => newerRun a b = true) runs.

Lemma newest_of_sorted runs : NoDup (br_RunID <$> runs) -> StronglySorted runOrder runs -> newestFirst runs.
Proof.
  intros Hnd Hs. induction Hs as [|r rest Hs IH Hr]; [constructor|]. cbn in Hnd. apply NoDup_cons in Hnd as [Hn Hnd]. constructor; [by apply IH|].
  apply Forall_forall. intros r' Hr'. rewrite Forall_forall in Hr. apply newerRun_total; [|by apply Hr]. intros E. apply Hn. rewrite E. by apply list_elem_of_fmap_2.
Qed.

Lemma newest_take n runs : newestFirst runs -> newestFirst (take n runs) /\ forall k r, k ∈ take n runs -> r ∈ drop n runs -> newerRun k r = true.
Proof.
  intros Hs. revert n. induction Hs as [|r rest Hs IH Hr]; intros [|n]; cbn [take drop].
  - split; [constructor|]. by intros k r ?%elem_of_nil.
  - split; [constructor|]. by intros k r ?%elem_of_nil.
  - split; [constructor|]. by intros k r' ?%elem_of_nil.
  - destruct (IH n) as [I1 I2]. rewrite Forall_forall in Hr. split.
    + constructor; [done|]. apply Forall_forall. intros x Hx. apply Hr. by eapply elem_of_sublist; [|apply sublist_take].
    + intros k r' [->|Hk]%elem_of_cons Hr'; [|by apply I2]. apply Hr. by eapply elem_of_sublist; [|apply sublist_drop].
Qed.

Lemma distinct_take n runs : distinctRuns runs -> distinctRuns (take n runs).
Proof.
  intros [H1 H2]. rewrite <- (take_drop n runs) in H1, H2. rewrite fmap_app in H1. split; [by apply NoDup_app in H1 as [? _]|by apply Forall_app in H2 as [? _]].
Qed.

(** With the newest first, the restore's latest run is the first that succeeded. *)
Lemma restoreRun_first runs : newestFirst runs -> restoreRun runs None = List.find succeededRun runs.
Proof.
  intros Hs. unfold restoreRun.
  assert (forall l rest, Forall (fun r => newerRun l r = true) rest -> fold_left (runStep None) rest (Some l, None) = (Some l, None)) as Hkeep.
  { intros l rest. induction rest as [|r rest IH]; [done|]. intros [Hr Hrest]%Forall_cons. cbn [fold_left runStep]. destruct (succeededRun r); cbn [negb]; [|by apply IH].
    assert (runStartedAfter r l = false) as ->; [|by apply IH]. unfold newerRun, startAfter, runStartedAfter in *.
    destruct (br_StartTime l) as [x|], (br_StartTime r) as [y|]; try done. apply Z.ltb_ge. case_bool_decide as E; [injection E as ->; lia|]. apply Z.ltb_lt in Hr. lia. }
  induction Hs as [|r rest Hs IH Hr]; [done|]. cbn [fold_left runStep List.find]. destruct (succeededRun r); cbn [negb]; [|exact IH]. by rewrite Hkeep.
Qed.

Section Recorded.
Context (expected : list ShardArtifact) (logOf failureOf : BackupJob -> string).

(** The runs of the history and of the Jobs that ended, none twice. *)
Definition allRuns (jobs : list BackupJob) (latest : Neo4jBackup) (runs : list BackupRun) : Prop :=
  exists added, runs = bk_History latest ++ added /\ Forall (runOfJob latest jobs) added /\ distinctRuns runs /\
    forall job, job ∈ jobs -> (jobToBackupRun job (chainRoot latest)).2 = true -> exists r, r ∈ runs /\ (br_RunID r = bj_Name job \/ br_RunID r = bj_UID job).

(** C25: the write of a scheduled backup's history keeps, of the runs recorded
    before and the runs of the Jobs that ended since (one for each, whatever was
    recorded for it before), the ten newest, newest first and none twice; a run
    that is dropped is older than all ten. Without a write every Job that ended
    has its run already. Both readers of the history then agree: the first run
    that succeeded, which a seed takes, is the one a restore without a point in
    time takes. *)
Theorem history_newest_ten (jobs : list BackupJob) (latest : Neo4jBackup)
    (Hd : distinctRuns (bk_History latest)) (Hj : Forall (fun j => bj_Name j <> EmptyString) jobs) :
  exists runs, allRuns jobs latest runs /\
  match (scheduledBody expected logOf failureOf jobs latest).1 with
  | None => runs = bk_History latest
  | Some written =>
      (length (bk_History written) <= historyCap)%nat /\ distinctRuns (bk_History written) /\ newestFirst (bk_History written) /\
      (forall r, r ∈ bk_History written -> r ∈ runs) /\
      (forall r, r ∈ runs -> r ∈ bk_History written \/ length (bk_History written) = historyCap /\ forall k, k ∈ bk_History written -> newerRun k r = true) /\
      List.find succeededRun (bk_History written) = restoreRun (bk_History written) None
  end.
Proof.
  destruct (scanJobs_spec expected logOf failureOf latest jobs Hj Hd) as (H1 & H2 & H3 & _ & H5). unfold scheduledBody. set (acc := scanJobs _ _ _ _ _) in *.
  exists (sc_History acc). split; [by exists (sc_Added acc)|]. destruct (sc_Added acc) as [|a0 rest0] eqn:Ea; [by rewrite H1, app_nil_r|].
  cbn [fst]. set (sorted := sortBackupRunsNewestFirst (sc_History acc)).
  change (bk_History (set_bk_Status _ latest)) with (take historyCap sorted).
  assert (sorted ≡ₚ sc_History acc) as Hp by apply merge_sort_Permutation.
  assert (distinctRuns sorted) as Hds.
  { destruct H2 as [A B]. split; [by rewrite Hp|by rewrite Hp]. }
  assert (newestFirst sorted) as Hn by (apply newest_of_sorted; [apply Hds|apply (StronglySorted_merge_sort _)]).
  destruct (newest_take historyCap sorted Hn) as [T1 T2].
  split_and!.
  - rewrite length_take. lia.
  - by apply distinct_take.
  - done.
  - intros r Hr. rewrite <- Hp. by eapply elem_of_sublist; [|apply sublist_take].
  - intros r Hr. rewrite <- Hp, <- (take_drop historyCap sorted) in Hr. apply elem_of_app in Hr as [Hr|Hr]; [by left|right].
    split; [|intros k Hk; by apply T2]. rewrite length_take. assert (0 < length (drop historyCap sorted))%nat by (destruct (drop historyCap sorted); [by apply elem_of_nil in Hr|cbn; lia]).
    rewrite length_drop in *. lia.
  - by rewrite restoreRun_first.
Qed.
End Recorded.

(** A Job of the schedule, started at minute [at_]. *)
Definition demoJob (name : string) (at_ : Z) (type : string) : BackupJob :=
  mkBackupJob name ("uid-" +:+ name) ∅ (Some (at_ * minute)) (Some (at_ * minute + 30 * second)) 0 (if String.eqb type JobComplete then 1 else 0)
    [mkJobCondition type ConditionTrue EmptyString EmptyString (Some (at_ * minute + 30 * second))].
Definition demoScheduled (history : list BackupRun) : Neo4jBackup :=
  demoBackup (mkStorageLocation "pvc" EmptyString EmptyString (Some (mkPVCSpec "claim" EmptyString EmptyString)) None) (demoStatus history).

Lemma history_newest_ten_witness :
  let jobs := [demoJob "n-2" 2 JobFailed; demoJob "n-3" 3 JobComplete] in
  let latest := demoScheduled [demoRun "n-1" "Succeeded" "nightly" 60000] in
  exists runs, allRuns jobs latest runs /\
  match (scheduledBody [] (fun _ => EmptyString) (fun _ => "failed") jobs latest).1 with
  | None => runs = bk_History latest
  | Some written =>
      (length (bk_History written) <= historyCap)%nat /\ distinctRuns (bk_History written) /\ newestFirst (bk_History written) /\
      (forall r, r ∈ bk_History written -> r ∈ runs) /\
      (forall r, r ∈ runs -> r ∈ bk_History written \/ length (bk_History written) = historyCap /\ forall k, k ∈ bk_History written -> newerRun k r = true) /\
      List.find succeededRun (bk_History written) = restoreRun (bk_History written) None
  end.
Proof.
  apply (history_newest_ten [] (fun _ => EmptyString) (fun _ => "failed")).
  - split; [apply NoDup_singleton|by repeat constructor].
  - by repeat constructor.
Defined.

(** * A run the cap dropped *)

Definition busyJobs : list BackupJob :=
  [demoJob "n-01" 1 JobComplete; demoJob "n-02" 2 JobComplete; demoJob "n-03" 3 JobComplete; demoJob "n-04" 4 JobComplete; demoJob "n-05" 5 JobComplete;
   demoJob "n-06" 6 JobComplete; demoJob "n-07" 7 JobComplete; demoJob "n-08" 8 JobComplete; demoJob "n-09" 9 JobComplete; demoJob "n-10" 10 JobComplete;
   demoJob "n-11" 11 JobFailed].

(** Ten Jobs that succeeded are kept and three that failed, and the history holds
    ten runs. With ten and one, the pass that records them all reports the newest
    run that succeeded; the pass after it finds only the run the cap dropped, the
    oldest, and reports that one. *)
Theorem dropped_run_reported :
  let scan := scheduledBody [] (fun _ => EmptyString) (fun _ => "failed") busyJobs in
  let first := scan (demoScheduled []) in
  exists written, first.1 = Some written /\ br_RunID <$> latestSucceeded first.2.1.1 = Some "n-10" /\
    br_RunID <$> restoreRun (bk_History written) None = Some "n-10" /\
    br_RunID <$> latestSucceeded (scan written).2.1.1 = Some "n-01" /\ existsb (fun r => String.eqb (br_RunID r) "n-01") (bk_History written) = false.
Proof. eexists. split; [vm_compute; reflexivity|]. split_and!; vm_compute; reflexivity. Qed.
