(* ===== verification/BackupRules.v ===== *)
(** What a Neo4jBackup is refused for (src/internal/validation/backup_validator.go,
    backup_replication_source.go, sharding.go and backup_sharded_ref.go, and the
    chain's parent in neo4jbackup_controller.go), and what a spec that passes
    guarantees the Job built from it. resource.ParseQuantity, cron.ParseStandard
    (its error, a panic included) and NameIsDNSSubdomain are parameters. The value
    of a refusal that is a whole struct is left empty. *)
From S2P Require Import Prelude GoStrings GoRegexp ClusterTypes Conditions Version UpgradeRecord UpgradeRules UpgradeMachine BackupTypes RestoreTypes RestoreCommand BackupLog BackupCommand.

Open Scope Z_scope.

(** * Refusals *)

Inductive backupRefusal :=
| Refused (e : fieldError)
| Missing (path detail : string).

Definition refusalText (r : backupRefusal) : string :=
  match r with Refused e => fieldErrorText e | Missing path detail => path +:+ ": Required value: " +:+ detail end.

(** [ErrorList.ToAggregate().Error()]. *)
Definition refusalsText (rs : list backupRefusal) : string :=
  match fold_left (fun seen r => let t := refusalText r in if existsb (String.eqb t) seen then seen else seen ++ [t]) rs [] with
  | [t] => t
  | ts => "[" +:+ strings.Join ts ", " +:+ "]"
  end.

Definition invalid (path value detail : string) : backupRefusal := Refused (FieldInvalid path value detail).
Definition refuseIf (b : bool) (r : backupRefusal) : list backupRefusal := if b then [r] else [].
Definition refuseFor (path value : string) (e : option string) : list backupRefusal :=
  match e with Some detail => [invalid path value detail] | None => [] end.

(** * The rules of a backup *)

Definition maxScheduledBackupNameLength : Z := 40.

Definition ValidateScheduledBackupName (name : string) : option string :=
  if maxScheduledBackupNameLength <? Z.of_nat (String.length name)
  then Some ("backup name " +:+ quoted name +:+ " is too long for a scheduled backup (" +:+ strconv.Itoa (Z.of_nat (String.length name))
             +:+ " chars): the generated CronJob name " +:+ quoted (name +:+ "-backup-cron")
             +:+ " would exceed Kubernetes' 52-character CronJob name limit; use a name of at most "
             +:+ strconv.Itoa maxScheduledBackupNameLength +:+ " characters")
  else None.

Definition validateScopeSelection (spec : Neo4jBackupSpec) : list backupRefusal :=
  if String.eqb (bs_InstanceRef spec) EmptyString
  then [Missing "spec.instanceRef" "set spec.instanceRef + exactly one of spec.database/allDatabases/shardedDatabase"]
  else
    let scopes := (if nonempty (bs_Database spec) then 1 else 0) + (if bs_AllDatabases spec then 1 else 0)
                  + (if nonempty (bs_ShardedDatabase spec) then 1 else 0) in
    if scopes =? 0
    then [Missing "spec.database" "set exactly one scope: spec.database (single database), spec.allDatabases (instance-wide), or spec.shardedDatabase (a Neo4jShardedDatabase)"]
    else if 1 <? scopes
    then [invalid "spec.allDatabases" (if bs_AllDatabases spec then "true" else "false")
            "spec.database, spec.allDatabases, and spec.shardedDatabase are mutually exclusive — set exactly one"]
    else [].

(** [[A-Za-z0-9._/\-]]. *)
Definition shellSafeByte (c : ascii) : bool := regexp.letter c || isDigit c || regexp.oneOf "._/-" c.

Definition storageShellSafe : regexp.re :=
  regexp.Cat regexp.TextBegin (regexp.Cat (regexp.plus false shellSafeByte) regexp.TextEnd).

Definition supportedTypes : list string := ["s3"; "gcs"; "azure"; "pvc"].

Definition validateStorageType (storageType : string) : option string :=
  if String.eqb storageType EmptyString then Some "storage type cannot be empty"
  else if existsb (String.eqb storageType) supportedTypes then None
  else Some ("unsupported storage type. Supported types for Neo4j 5.26+: " +:+ strings.Join supportedTypes ", ").

Definition cloudProvider (storage : StorageLocation) : option string := cb_Provider <$> sl_Cloud storage.

Definition validateCloudConfiguration (cloud : CloudBlock) : list backupRefusal :=
  let validProviders := ["aws"; "gcp"; "azure"] in
  refuseIf (nonempty (cb_Provider cloud) && negb (existsb (String.eqb (cb_Provider cloud)) validProviders))
    (Refused (FieldNotSupported "spec.storage.cloud.provider" (cb_Provider cloud) validProviders))
  ++ refuseIf (match cb_Identity cloud with Some i => String.eqb (ci_Provider i) EmptyString | None => false end)
       (Missing "spec.storage.cloud.identity.provider" "identity provider must be specified").

Definition validateRetentionPolicy (retention : RetentionPolicy) : list backupRefusal :=
  refuseIf (nonempty (rp_MaxAge retention) && negb (isValidMaxAge (rp_MaxAge retention)))
    (invalid "spec.retention.maxAge" (rp_MaxAge retention)
       "must be a single-unit duration like '7d', '30d', '24h', '90m', or '45s' (compound values such as '1h30m' are not supported)")
  ++ refuseIf (rp_MaxCount retention <? 0) (invalid "spec.retention.maxCount" (strconv.Itoa (rp_MaxCount retention)) "max count must be non-negative")
  ++ refuseIf (nonempty (rp_DeletePolicy retention) && negb (String.eqb (rp_DeletePolicy retention) "Delete"))
       (Refused (FieldNotSupported "spec.retention.deletePolicy" (rp_DeletePolicy retention) ["Delete"]))
  ++ refuseIf (String.eqb (rp_MaxAge retention) EmptyString && (rp_MaxCount retention =? 0))
       (invalid "spec.retention" EmptyString "at least one retention criterion (maxAge or maxCount) must be specified").

Definition MinSplitArchivePartSize : Z := 2 ^ 30.

Definition deprecatedArgs : list string := ["--cc-graph"; "--cc-indexes"; "--cc-label-scan-store"; "--legacy-format"].

Definition validateBackupArg (arg : string) : option string :=
  match List.find (strings.HasPrefix arg) deprecatedArgs with
  | Some deprecated => Some ("argument '" +:+ deprecated +:+ "' is deprecated/removed in Neo4j 5.26+")
  | None => if negb (strings.HasPrefix arg "--") && negb (strings.HasPrefix arg "-") then Some "backup argument must start with '--' or '-'" else None
  end.

Definition argPath (i : nat) : string := "spec.options.additionalArgs[" +:+ strconv.Itoa (Z.of_nat i) +:+ "]".

Section Validate.
Context (ParseQuantity : string -> option Z) (ParseStandard : string -> option string) (NameIsDNSSubdomain : string -> list string).

Definition validateStorageProvider (storage : StorageLocation) : option string :=
  let storageType := strings.ToLower (sl_Type storage) in
  let needsProvider := fun p (e : string) => if bool_decide (cloudProvider storage = Some p) then None else Some e in
  if String.eqb storageType "s3" then
    if String.eqb (sl_Bucket storage) EmptyString then Some "S3 storage requires bucket name for Neo4j 5.26+"
    else needsProvider "aws" "S3 storage requires cloud provider 'aws' (set spec.storage.cloud.provider)"
  else if String.eqb storageType "gcs" then
    if String.eqb (sl_Bucket storage) EmptyString then Some "bucket name is required for Google Cloud Storage on Neo4j 5.26+"
    else needsProvider "gcp" "GCS storage requires cloud provider 'gcp' (set spec.storage.cloud.provider)"
  else if String.eqb storageType "azure" then
    if String.eqb (sl_Bucket storage) EmptyString then Some "container name is required for Azure Blob Storage on Neo4j 5.26+"
    else needsProvider "azure" "cloud provider 'azure' is required for Azure storage (set spec.storage.cloud.provider)"
  else if String.eqb storageType "pvc" then
    match sl_PVC storage with
    | None => Some "PVC storage requires spec.storage.pvc to be set"
    | Some pvc =>
        if String.eqb (strings.TrimSpace (pv_Name pvc)) EmptyString
        then Some "PVC storage requires spec.storage.pvc.name to reference an existing PVC — without it, backup artifacts are written to an EmptyDir and discarded when the Job's TTL elapses"
        else
          let size := strings.TrimSpace (pv_Size pvc) in
          if String.eqb size EmptyString then None
          else match ParseQuantity size with
               | None => Some ("spec.storage.pvc.size " +:+ quoted (pv_Size pvc) +:+ " is not a valid Kubernetes quantity (e.g. " +:+ quoted "50Gi" +:+ ")")
               | Some q => if q <=? 0 then Some ("spec.storage.pvc.size " +:+ quoted (pv_Size pvc) +:+ " must be greater than zero") else None
               end
    end
  else None.

Definition validateStorageConfiguration (storage : StorageLocation) : list backupRefusal :=
  (if String.eqb (sl_Type storage) EmptyString then [Missing "spec.storage.type" "storage type must be specified"]
   else refuseFor "spec.storage.type" (sl_Type storage) (validateStorageType (sl_Type storage)))
  ++ refuseFor "spec.storage" EmptyString (validateStorageProvider storage)
  ++ refuseIf (nonempty (sl_Bucket storage) && negb (regexp.MatchString storageShellSafe (sl_Bucket storage)))
       (invalid "spec.storage.bucket" (sl_Bucket storage) "bucket may only contain letters, digits, '.', '_', '-' and '/'")
  ++ refuseIf (nonempty (sl_Path storage) && negb (regexp.MatchString storageShellSafe (sl_Path storage)))
       (invalid "spec.storage.path" (sl_Path storage) "path may only contain letters, digits, '.', '_', '-' and '/'").

Definition validateSchedule (schedule : string) : option string :=
  let t := strings.TrimSpace schedule in
  if strings.HasPrefix t "TZ=" || strings.HasPrefix t "CRON_TZ="
  then Some ("cron schedule " +:+ quoted schedule +:+ " must not embed a timezone (TZ=/CRON_TZ=) — Kubernetes rejects timezone-prefixed CronJob schedules; use a plain UTC schedule such as " +:+ quoted "0 2 * * *")
  else match ParseStandard schedule with
       | Some perr => Some ("invalid cron schedule " +:+ quoted schedule +:+ ": " +:+ perr +:+ " (Kubernetes CronJob expects standard 5-field cron, e.g. "
                            +:+ quoted "0 2 * * *" +:+ ", or a macro like " +:+ quoted "@daily" +:+ ")")
       | None => None
       end.

(** A refusal of the size of a part, if any. *)
Definition splitArchivePartSizeError (value : string) : option string :=
  match ParseQuantity value with
  | None => Some "must be a Kubernetes quantity such as 500Gi or 1Ti"
  | Some q =>
      if q <? 0 then Some "must not be negative"
      else if q =? 0 then None
      else if q <? MinSplitArchivePartSize
      then Some ("must be at least 1Gi (1073741824 bytes), Neo4j's minimum part size; " +:+ value +:+ " is " +:+ strconv.Itoa q +:+ " bytes")
      else None
  end.

Definition validateBackupOptions (options : BackupOptions) : list backupRefusal :=
  (if nonempty (bo_SplitArchivePartSize options)
   then refuseFor "spec.options.splitArchivePartSize" (bo_SplitArchivePartSize options) (splitArchivePartSizeError (bo_SplitArchivePartSize options))
        ++ concat (imap (fun i arg => refuseIf (strings.HasPrefix arg "--split-archive-part-size")
                                        (invalid (argPath i) arg "spec.options.splitArchivePartSize is set; set the part size in one place")) (bo_AdditionalArgs options))
   else [])
  ++ concat (imap (fun i arg => refuseFor (argPath i) arg (validateBackupArg arg)) (bo_AdditionalArgs options)).

Definition Validate (backup : Neo4jBackup) : list backupRefusal :=
  let spec := bk_Spec backup in
  validateScopeSelection spec
  ++ validateStorageConfiguration (bs_Storage spec)
  ++ (if nonempty (bs_Schedule spec)
      then refuseFor "spec.schedule" (bs_Schedule spec) (validateSchedule (bs_Schedule spec))
           ++ refuseFor "metadata.name" (bk_Name backup) (ValidateScheduledBackupName (bk_Name backup))
      else [])
  ++ match sl_Cloud (bs_Storage spec) with Some cloud => validateCloudConfiguration cloud | None => [] end
  ++ match bs_Retention spec with Some retention => validateRetentionPolicy retention | None => [] end
  ++ match bs_Options spec with Some options => validateBackupOptions options | None => [] end
  ++ match bs_Options spec with
     | Some options => refuseIf (nonempty (bs_ShardedDatabase spec) && String.eqb (bo_BackupType options) "DIFF")
         (invalid "spec.options.backupType" (bo_BackupType options)
            "a sharded database cannot be backed up differentially: Neo4j refuses differential backups of property shards. Use AUTO (the default) or FULL")
     | None => []
     end
  ++ refuseIf (nonempty (bs_ChainFromBackup spec) && String.eqb (bs_ChainFromBackup spec) (bk_Name backup))
       (invalid "spec.chainFromBackup" (bs_ChainFromBackup spec) "cannot chain to self")
  ++ (if nonempty (bs_ChainFromBackup spec)
      then match NameIsDNSSubdomain (bs_ChainFromBackup spec) with
           | msg :: _ => [invalid "spec.chainFromBackup" (bs_ChainFromBackup spec) ("must be a valid resource name: " +:+ msg)]
           | [] => []
           end
      else [])
  ++ match bs_Options spec with
     | Some options =>
         let tp := bo_TempPath options in
         refuseIf (nonempty tp && (negb (strings.HasPrefix tp "/") || negb (regexp.MatchString storageShellSafe tp)))
           (invalid "spec.options.tempPath" tp "must be an absolute path containing only letters, digits, '.', '_', '-' and '/'")
     | None => []
     end.
End Validate.

(** * Replication sources *)

Definition BackupModeReplicationSource : string := "replication-source".

Definition sameStorageLocation (a b : StorageLocation) : bool :=
  String.eqb (sl_Type a) (sl_Type b) && String.eqb (sl_Bucket a) (sl_Bucket b)
  && String.eqb (strings.TrimSuffix (sl_Path a) "/") (strings.TrimSuffix (sl_Path b) "/").

(** One backup of the namespace: whether it writes to the same place and is not
    of this chain. *)
Definition competingWriter (backup other : Neo4jBackup) : bool :=
  let chain := bs_ChainFromBackup (bk_Spec backup) in
  let theirs := bs_ChainFromBackup (bk_Spec other) in
  negb (String.eqb (bk_Name other) (bk_Name backup) && String.eqb (bk_Namespace other) (bk_Namespace backup))
  && sameStorageLocation (bk_Storage backup) (bk_Storage other)
  && negb (String.eqb theirs (bk_Name backup) || String.eqb chain (bk_Name other))
  && negb (nonempty theirs && String.eqb theirs chain).

Definition ValidateReplicationSourceMode (backup : Neo4jBackup) (siblings : list Neo4jBackup) : list backupRefusal :=
  let spec := bk_Spec backup in
  if negb (String.eqb (bs_Mode spec) BackupModeReplicationSource) then []
  else
    refuseIf (bs_AllDatabases spec) (invalid "spec.allDatabases" "true"
      "mode=replication-source requires single-database scope; a cross-cluster replica pulls one database's chain and cannot consume the instance-wide artifact layout. Set spec.database instead")
    ++ refuseIf (nonempty (bs_ShardedDatabase spec)) (invalid "spec.shardedDatabase" (bs_ShardedDatabase spec)
         "mode=replication-source does not support property-sharded databases in this release")
    ++ refuseIf (negb (nonempty (bs_Database spec)) && negb (bs_AllDatabases spec) && negb (nonempty (bs_ShardedDatabase spec)))
         (Missing "spec.database" "mode=replication-source requires spec.database")
    ++ match bs_Retention spec with
       | Some _ => [invalid "spec.retention" EmptyString
           "mode=replication-source forbids an operator-side retention policy: pruning an artifact that a later differential chains from breaks the replica and forces a rebuild. Note that for cloud storage the operator does not prune at all — retention there is delegated to bucket lifecycle rules, which the operator cannot see and which will break the chain just as effectively"]
       | None => []
       end
    ++ refuseIf (String.eqb (strings.TrimSpace (bs_Schedule spec)) EmptyString) (Missing "spec.schedule"
         "mode=replication-source requires a schedule; without one the chain never advances and the replica's lag grows without bound")
    ++ ((fun other => invalid "spec.storage" EmptyString
           ("Neo4jBackup " +:+ quoted (bk_Name other) +:+ " writes to the same storage location and is not part of this chain; a second writer can interleave artifacts and break the differential chain a replica depends on. Give this replication source its own storage.path, or chain the other CR from it via spec.chainFromBackup"))
        <$> List.filter (competingWriter backup) siblings).

(** * The version of the target *)

Definition calverShape : regexp.re :=
  regexp.Cat regexp.TextBegin (regexp.Cat (regexp.literal "20") (regexp.Cat (regexp.digits 2) (regexp.Cat (regexp.literal ".") (regexp.Cat (regexp.digits 2)
    (regexp.Cat (regexp.optional (regexp.Cat (regexp.literal ".") (regexp.plus false isDigit))) regexp.TextEnd))))).
Definition semverShape : regexp.re :=
  regexp.Cat regexp.TextBegin (regexp.Cat (regexp.plus false isDigit) (regexp.Cat (regexp.literal ".") (regexp.Cat (regexp.plus false isDigit)
    (regexp.Cat (regexp.optional (regexp.Cat (regexp.literal ".") (regexp.plus false isDigit))) regexp.TextEnd)))).

Definition unsupported (version minimum : string) : string :=
  "Neo4j version " +:+ version +:+ " is not supported. Minimum required " +:+ minimum.

Definition validateSemverVersion (version : string) : option string :=
  match strings.Split version "." with
  | a :: b :: _ =>
      match strconv.Atoi a with
      | None => Some ("invalid major version: " +:+ a)
      | Some major =>
          match strconv.Atoi b with
          | None => Some ("invalid minor version: " +:+ b)
          | Some minor => if (major <? 5) || (major =? 5) && (minor <? 26) then Some (unsupported version "version is 5.26.0") else None
          end
      end
  | _ => Some ("invalid semver format: " +:+ version)
  end.

Definition validateCalverVersion (version : string) : option string :=
  match strings.Split version "." with
  | a :: b :: _ =>
      match strconv.Atoi a with
      | None => Some ("invalid year in calver: " +:+ a)
      | Some year =>
          match strconv.Atoi b with
          | None => Some ("invalid month in calver: " +:+ b)
          | Some month => if (year <? 2025) || (year =? 2025) && (month <? 1) then Some (unsupported version "calver version is 2025.01.0") else None
          end
      end
  | _ => Some ("invalid calver format: " +:+ version)
  end.

Definition ValidateNeo4jVersion (imageTag : string) : option string :=
  if String.eqb imageTag EmptyString then Some "Neo4j image tag is required"
  else
    let version := List.hd EmptyString (strings.Split imageTag "-") in
    if regexp.MatchString calverShape version then validateCalverVersion version
    else if regexp.MatchString semverShape version then validateSemverVersion version
    else Some ("invalid Neo4j version format: " +:+ version +:+ ". Expected semver (5.26+) or calver (2025.01+)").

(** * The parent of a chain *)

(** What validateChainParent compares once the parent was read. *)
Definition chainParentError (backup parent : Neo4jBackup) : option string :=
  let ps := bk_Spec parent in
  let bs := bk_Spec backup in
  let target := fun s => "{scope=" +:+ quoted (Scope s) +:+ " name=" +:+ quoted (ScopedName s) +:+ " instanceRef=" +:+ quoted (bs_InstanceRef s) +:+ "}" in
  let place := fun st => "{type=" +:+ quoted (sl_Type st) +:+ " bucket=" +:+ quoted (sl_Bucket st) +:+ " path=" +:+ quoted (sl_Path st) +:+ "}" in
  if negb (String.eqb (Scope ps) (Scope bs)) || negb (strings.EqualFold (ScopedName ps) (ScopedName bs)) || negb (String.eqb (bs_InstanceRef ps) (bs_InstanceRef bs))
  then Some ("chainFromBackup " +:+ quoted (bk_Name parent) +:+ " targets " +:+ target ps +:+ " but this backup targets " +:+ target bs
             +:+ "; chained backups must share the same target")
  else if negb (String.eqb (sl_Type (bs_Storage ps)) (sl_Type (bs_Storage bs))) || negb (String.eqb (sl_Bucket (bs_Storage ps)) (sl_Bucket (bs_Storage bs)))
       || negb (String.eqb (sl_Path (bs_Storage ps)) (sl_Path (bs_Storage bs)))
  then Some ("chainFromBackup " +:+ quoted (bk_Name parent) +:+ " uses storage " +:+ place (bs_Storage ps) +:+ " but this backup uses " +:+ place (bs_Storage bs)
             +:+ "; chained backups must share the same storage location")
  else None.

(** * Sharded databases *)

Definition IsNeo4jVersion202512OrHigher (imageTag : string) : bool :=
  if String.eqb imageTag EmptyString then false
  else match ParseVersion imageTag with
       | Ok version => IsCalver version && ((2025 <? Major version) || (Major version =? 2025) && (12 <=? Minor version))
       | Err _ => false
       end.

Definition IsClusterShardingReady (cluster : BackupTarget) : option string :=
  if negb (bg_Sharding cluster)
  then Some ("cluster " +:+ quoted (bg_Name cluster) +:+ " does not have property sharding enabled (spec.propertySharding.enabled=true required)")
  else if negb (IsNeo4jVersion202512OrHigher (bg_Tag cluster))
  then Some ("cluster " +:+ quoted (bg_Name cluster) +:+ " image tag " +:+ quoted (bg_Tag cluster) +:+ " is below the 2025.12 minimum for property sharding")
  else None.

Inductive preflightAction := preflightContinue | preflightWait (msg : string) | preflightFail (e : string).

(** The name of the resource whose logical name is [database], if the list was read. *)
Definition shardedDatabaseNamed (all : result (list ShardedDatabase)) (database : string) : string :=
  match all with
  | Err _ => EmptyString
  | Ok sds => match List.find (fun sd => strings.EqualFold (sh_SpecName sd) database) sds with Some sd => sh_Name sd | None => EmptyString end
  end.

(** [ResolveBackupShardedDatabase] for a backup of that scope: the error of the
    read, the refusal, or the resource. *)
Definition ResolveBackupShardedDatabase (backup : Neo4jBackup) (got : getResult ShardedDatabase) (all : result (list ShardedDatabase))
    : result (string + ShardedDatabase) :=
  let name := bs_ShardedDatabase (bk_Spec backup) in
  match got with
  | GetFailed e => Err e
  | NotFound =>
      let cr := shardedDatabaseNamed all name in
      Ok (inl ("Neo4jShardedDatabase " +:+ quoted name +:+ " not found in namespace " +:+ quoted (bk_Namespace backup)
        +:+ (if nonempty cr then "; Neo4jShardedDatabase " +:+ quoted cr +:+ " has spec.name " +:+ quoted name
                                 +:+ ", and spec.shardedDatabase takes the CR's metadata.name: set it to " +:+ quoted cr
             else EmptyString)))
  | Found sd =>
      if negb (String.eqb (sh_ClusterRef sd) (bs_InstanceRef (bk_Spec backup)))
      then Ok (inl ("Neo4jShardedDatabase " +:+ quoted (sh_Name sd) +:+ " references cluster " +:+ quoted (sh_ClusterRef sd)
                    +:+ " but spec.instanceRef is " +:+ quoted (bs_InstanceRef (bk_Spec backup))))
      else Ok (inr sd)
  end.

Definition shardedPreflightStatic (backup : Neo4jBackup) (cluster : BackupTarget) (got : getResult ShardedDatabase) (all : result (list ShardedDatabase)) : preflightAction :=
  if negb (String.eqb (Scope (bk_Spec backup)) BackupTargetKindShardedDatabase) then preflightContinue
  else match IsClusterShardingReady cluster with
       | Some e => preflightFail ("cluster preflight failed: " +:+ e)
       | None =>
           match ResolveBackupShardedDatabase backup got all with
           | Err e => preflightFail ("failed to fetch Neo4jShardedDatabase " +:+ quoted (ScopedName (bk_Spec backup)) +:+ ": " +:+ e)
           | Ok (inl detail) => preflightFail detail
           | Ok (inr sd) =>
               if negb (sh_ShardingReady sd) then preflightWait ("Neo4jShardedDatabase " +:+ quoted (sh_Name sd) +:+ " is not yet Ready") else preflightContinue
           end
       end.

(** * What a spec that passes guarantees *)

Lemma refuseIf_nil b r : refuseIf b r = [] -> b = false.
Proof. by destruct b. Qed.
Lemma refuseFor_nil path value e : refuseFor path value e = [] -> e = None.
Proof. by destruct e. Qed.

Lemma nonempty_spec s : nonempty s = true <-> s <> EmptyString.
Proof. unfold nonempty. destruct (String.eqb_spec s EmptyString); naive_solver. Qed.

Lemma shellSafe_bytes s : regexp.MatchString storageShellSafe s = true -> allBytes shellSafeByte s = true.
Proof.
  intros [[rest caps] H]%match_anchored. unfold regexp.plus, regexp.here in H. cbn [regexp.run] in H. destruct s as [|c s]; [done|]. destruct (shellSafeByte c) eqn:Ec; [|done].
  apply repeat_inv in H as (d & b & p & -> & Hd & Hk). destruct b; [|done]. cbn [allBytes]. by rewrite Ec, string_app_nil_r, Hd.
Qed.

Lemma safe_or_empty s : nonempty s && negb (regexp.MatchString storageShellSafe s) = false -> allBytes shellSafeByte s = true.
Proof. intros [H|H%negb_false_iff]%andb_false_iff; [|by apply shellSafe_bytes]. by destruct s. Qed.

Lemma concat_nil_elem {A} (ls : list (list A)) : concat ls = [] -> forall l, l ∈ ls -> l = [].
Proof. induction ls as [|l0 ls IH]; [by intros _ l ?%elem_of_nil|]. cbn. intros [-> H]%app_nil l [->|Hl]%elem_of_cons; [done|by apply IH]. Qed.

Section Passed.
Context (ParseQuantity : string -> option Z) (ParseStandard : string -> option string) (NameIsDNSSubdomain : string -> list string).

Lemma scope_selected spec : validateScopeSelection spec = [] -> ScopedName spec <> EmptyString /\
  (Scope spec = BackupTargetKindDatabase /\ bs_Database spec <> EmptyString /\ bs_AllDatabases spec = false /\ bs_ShardedDatabase spec = EmptyString \/
   Scope spec = BackupTargetKindCluster /\ bs_Database spec = EmptyString /\ bs_AllDatabases spec = true /\ bs_ShardedDatabase spec = EmptyString \/
   Scope spec = BackupTargetKindShardedDatabase /\ bs_Database spec = EmptyString /\ bs_AllDatabases spec = false /\ bs_ShardedDatabase spec <> EmptyString).
Proof.
  unfold validateScopeSelection, ScopedName, Scope, nonempty. destruct (String.eqb_spec (bs_InstanceRef spec) EmptyString) as [|Hi]; [done|].
  destruct (bs_AllDatabases spec), (String.eqb_spec (bs_Database spec) EmptyString), (String.eqb_spec (bs_ShardedDatabase spec) EmptyString);
    try (by intros); intros _; (split; [by cbn|]); naive_solver.
Qed.

(** Storage that outlives the Job: a claim, or a bucket of a provider. *)
Definition durableStorage (backup : Neo4jBackup) : Prop :=
  let st := bk_Storage backup in
  sl_Type st = "pvc" /\ (exists claim, claim <> EmptyString /\ ("backup-storage", ClaimVolume claim) ∈ buildVolumes backup) \/
  sl_Bucket st <> EmptyString /\ exists provider, cloudProvider st = Some provider /\ (sl_Type st, provider) ∈ [("s3", "aws"); ("gcs", "gcp"); ("azure", "azure")].

Lemma storage_durable backup : validateStorageConfiguration ParseQuantity (bk_Storage backup) = [] ->
  durableStorage backup /\ allBytes shellSafeByte (sl_Bucket (bk_Storage backup)) = true /\ allBytes shellSafeByte (sl_Path (bk_Storage backup)) = true.
Proof.
  unfold validateStorageConfiguration. intros [H1 [H2%refuseFor_nil [H3%refuseIf_nil H4%refuseIf_nil]%app_nil]%app_nil]%app_nil.
  split; [|split; by apply safe_or_empty]. unfold durableStorage. cbv zeta. set (st := bk_Storage backup) in *.
  destruct (String.eqb (sl_Type st) EmptyString); [done|]. apply refuseFor_nil in H1. unfold validateStorageType in H1. destruct (String.eqb (sl_Type st) EmptyString); [done|].
  destruct (existsb (String.eqb (sl_Type st)) supportedTypes) eqn:E; [|done]. apply existsb_exists in E as (t & Ht & Et%String.eqb_eq).
  unfold validateStorageProvider in H2. rewrite Et in H2.
  destruct Ht as [<-|[<-|[<-|[<-|[]]]]].
  1-3: right; cbv zeta in H2;
    repeat match type of H2 with context [String.eqb (strings.ToLower ?a) ?b] => let v := eval vm_compute in (String.eqb (strings.ToLower a) b) in change (String.eqb (strings.ToLower a) b) with v in H2 end;
    cbv iota in H2; destruct (String.eqb_spec (sl_Bucket st) EmptyString) as [|Hb]; [done|];
    case_bool_decide as Hp; [|done]; split; [done|]; eexists; split; [exact Hp|rewrite Et; set_solver].
  left. split; [done|]. destruct (sl_PVC st) as [pvc|] eqn:Ep; [|done]. destruct (String.eqb_spec (strings.TrimSpace (pv_Name pvc)) EmptyString) as [|Hn]; [done|].
  assert (pv_Name pvc <> EmptyString) as Hne by (by intros Hz; rewrite Hz in Hn).
  exists (pv_Name pvc). split; [done|]. unfold buildVolumes. fold st. rewrite Ep, Et. cbn [String.eqb Ascii.eqb Bool.eqb andb].
  assert (nonempty (pv_Name pvc) = true) as ->; [|by left]. by apply nonempty_spec.
Qed.

Lemma args_dash options : validateBackupOptions ParseQuantity options = [] ->
  Forall (fun arg => strings.HasPrefix arg "-" = true) (bo_AdditionalArgs options) /\
  (splitArchivePartBytes ParseQuantity (Some options) = 0 \/ MinSplitArchivePartSize <= splitArchivePartBytes ParseQuantity (Some options)).
Proof.
  unfold validateBackupOptions. intros [H1 H2]%app_nil. split.
  - clear H1. apply Forall_lookup. intros i arg Hi. assert (refuseFor (argPath i) arg (validateBackupArg arg) = []) as H3.
    { apply (concat_nil_elem _ H2).  apply list_elem_of_lookup. exists i. by rewrite list_lookup_imap, Hi. }
    apply refuseFor_nil in H3. unfold validateBackupArg in H3. destruct (List.find _ _); [done|]. destruct (strings.HasPrefix arg "-") eqn:E; [done|].
    destruct (strings.HasPrefix arg "--") eqn:E2; [|done]. apply HasPrefix_spec in E2 as [t ->]. done.
  - cbn [splitArchivePartBytes]. unfold nonempty in H1. destruct (String.eqb (bo_SplitArchivePartSize options) EmptyString); [by left|].
    apply app_nil in H1 as [H1%refuseFor_nil _]. unfold splitArchivePartSizeError in H1. destruct (ParseQuantity _) as [q|]; [|done].
    destruct (Z.ltb_spec q 0); [done|]. destruct (Z.eqb_spec q 0) as [Eq|]; [subst q; by left|]. destruct (Z.ltb_spec q MinSplitArchivePartSize); [done|].
    destruct (Z.leb_spec q 0); [lia|by right].
Qed.
End Passed.

(** C28: a backup the validator passes has what its Job relies on: one scope and a
    name for it; storage that outlives the Job, a claim that is mounted or a bucket
    of its type's provider; no character in the bucket, the path or the temporary
    path that a shell reads; a CronJob name Kubernetes takes; a retention policy
    that keeps something, with the one delete policy there is and an age of the
    accepted form, a number and a unit (a number too large overflows: see
    [retention_age_overflows]); parts Neo4j can write; only flags as additional
    arguments; never a differential backup of a sharded database; and a chain that
    is another backup's. *)
Theorem valid_backup_safe (ParseQuantity : string -> option Z) (ParseStandard : string -> option string) (NameIsDNSSubdomain : string -> list string)
    (backup : Neo4jBackup) : Validate ParseQuantity ParseStandard NameIsDNSSubdomain backup = [] ->
  let spec := bk_Spec backup in
  (ScopedName spec <> EmptyString /\
   (Scope spec = BackupTargetKindDatabase /\ bs_Database spec <> EmptyString /\ bs_AllDatabases spec = false /\ bs_ShardedDatabase spec = EmptyString \/
    Scope spec = BackupTargetKindCluster /\ bs_Database spec = EmptyString /\ bs_AllDatabases spec = true /\ bs_ShardedDatabase spec = EmptyString \/
    Scope spec = BackupTargetKindShardedDatabase /\ bs_Database spec = EmptyString /\ bs_AllDatabases spec = false /\ bs_ShardedDatabase spec <> EmptyString)) /\
  durableStorage backup /\
  allBytes shellSafeByte (sl_Bucket (bk_Storage backup)) = true /\ allBytes shellSafeByte (sl_Path (bk_Storage backup)) = true /\
  (bs_Schedule spec <> EmptyString -> ParseStandard (bs_Schedule spec) = None /\ (String.length (bk_Name backup +:+ "-backup-cron") <= 52)%nat) /\
  (forall r, bs_Retention spec = Some r -> 0 <= rp_MaxCount r /\ (rp_MaxAge r = EmptyString -> 0 < rp_MaxCount r) /\
     (rp_MaxAge r <> EmptyString -> isValidMaxAge (rp_MaxAge r) = true) /\ (rp_DeletePolicy r = EmptyString \/ rp_DeletePolicy r = "Delete")) /\
  (forall o, bs_Options spec = Some o -> allBytes shellSafeByte (bo_TempPath o) = true /\
     Forall (fun arg => strings.HasPrefix arg "-" = true) (bo_AdditionalArgs o) /\
     (splitArchivePartBytes ParseQuantity (Some o) = 0 \/ MinSplitArchivePartSize <= splitArchivePartBytes ParseQuantity (Some o))) /\
  (Scope spec = BackupTargetKindShardedDatabase -> effectiveBackupType backup <> "DIFF") /\
  (bs_ChainFromBackup spec <> EmptyString -> chainRoot backup <> bk_Name backup).
Proof.
  unfold Validate. cbv zeta. intros (H1 & (H2 & (H3 & (H4 & (H5 & (H6 & (H7 & (H8%refuseIf_nil & (H9 & H10)%app_nil)%app_nil)%app_nil)%app_nil)%app_nil)%app_nil)%app_nil)%app_nil)%app_nil.
  destruct (storage_durable _ _ H2) as (D1 & D2 & D3). split; [by apply scope_selected|]. split_and!; try done.
  - intros Hs%nonempty_spec. rewrite Hs in H3. apply app_nil in H3 as [H3%refuseFor_nil H3'%refuseFor_nil]. split.
    + unfold validateSchedule in H3. destruct (_ || _); [done|]. by destruct (ParseStandard _).
    + unfold ValidateScheduledBackupName, maxScheduledBackupNameLength in H3'. destruct (Z.ltb_spec 40 (Z.of_nat (String.length (bk_Name backup)))); [done|].
      rewrite string_length_app. change (String.length "-backup-cron") with 12%nat. lia.
  - intros r Er. rewrite Er in H5. unfold validateRetentionPolicy in H5.
    apply app_nil in H5 as [R1%refuseIf_nil [R2%refuseIf_nil%Z.ltb_ge [R3%refuseIf_nil R4%refuseIf_nil]%app_nil]%app_nil]. split_and!; [done| | |].
    + intros Ea. rewrite Ea in R4. cbn in R4. apply Z.eqb_neq in R4. lia.
    + intros Hn%nonempty_spec. rewrite Hn in R1. by apply negb_false_iff in R1.
    + unfold nonempty in R3. destruct (String.eqb_spec (rp_DeletePolicy r) EmptyString); [by left|right]. by destruct (String.eqb_spec (rp_DeletePolicy r) "Delete").
  - intros o Eo. rewrite Eo in H6, H10. destruct (args_dash _ _ H6) as [A1 A2]. split_and!; try done. apply safe_or_empty.
    apply refuseIf_nil in H10. apply andb_false_iff in H10 as [H|[_ H]%orb_false_iff]; rewrite H; [done|by rewrite andb_false_r].
  - intros Hs. unfold effectiveBackupType. rewrite Hs. destruct (bs_Options (bk_Spec backup)) as [o|]; [|by cbv zeta; destruct (String.eqb (sl_Type _) _)].
    apply refuseIf_nil in H7. assert (nonempty (bs_ShardedDatabase (bk_Spec backup)) = true) as Hn.
    { unfold Scope in Hs. destruct (bs_AllDatabases _); [done|]. unfold nonempty. by destruct (String.eqb (bs_ShardedDatabase (bk_Spec backup)) EmptyString). }
    rewrite Hn in H7. cbv zeta. match goal with |- (if ?b then _ else _) <> _ => destruct b; [done|] end. by destruct (String.eqb_spec (bo_BackupType o) "DIFF").
  - intros Hn%nonempty_spec. unfold chainRoot. rewrite Hn in H8. unfold nonempty in Hn. rewrite Hn. by destruct (String.eqb_spec (bs_ChainFromBackup (bk_Spec backup)) (bk_Name backup)).
Qed.

(** A nightly backup of one database to a bucket. *)
Definition scheduledDemo : Neo4jBackup :=
  mkNeo4jBackup "nightly" "ns" "u" 1 [] false
    (mkNeo4jBackupSpec "c" "orders" false EmptyString (mkStorageLocation "s3" "backups" "prod" None (Some (mkCloudBlock "aws" None EmptyString EmptyString false)))
       "0 2 * * *" EmptyString (Some (mkRetentionPolicy "7d" 0 EmptyString)) None false EmptyString) (demoStatus []).

Lemma valid_backup_safe_witness :
  durableStorage scheduledDemo /\ (String.length (bk_Name scheduledDemo +:+ "-backup-cron") <= 52)%nat.
Proof.
  destruct (valid_backup_safe (fun _ => None) (fun _ => None) (fun _ => []) scheduledDemo ltac:(vm_compute; reflexivity)) as (_ & H1 & _ & _ & H2 & _).
  split; [exact H1|]. apply H2. discriminate.
Defined.

(** * What the parent of a chain is not compared for *)

(** A parent on another claim passes: the two backups write the same directory
    name on different volumes, so the chain's artifacts are never together. *)
Theorem chain_across_claims (backup parent : Neo4jBackup) (c1 c2 : PVCSpec) :
  bs_Storage (bk_Spec backup) = mkStorageLocation "pvc" EmptyString EmptyString (Some c1) None ->
  bs_Storage (bk_Spec parent) = mkStorageLocation "pvc" EmptyString EmptyString (Some c2) None ->
  Scope (bk_Spec parent) = Scope (bk_Spec backup) -> ScopedName (bk_Spec parent) = ScopedName (bk_Spec backup) ->
  bs_InstanceRef (bk_Spec parent) = bs_InstanceRef (bk_Spec backup) ->
  chainParentError backup parent = None.
Proof.
  intros E1 E2 E3 E4 E5. unfold chainParentError, strings.EqualFold. rewrite E1, E2, E3, E4, E5, !String.eqb_refl. done.
Qed.

(** Nor is a parent that chains itself refused: then the parent writes to its own
    parent's directory, and the backup to one with the parent's name. *)
Theorem chain_of_two (backup parent : Neo4jBackup) :
  bs_ChainFromBackup (bk_Spec backup) = bk_Name parent -> bk_Name parent <> EmptyString ->
  bs_ChainFromBackup (bk_Spec parent) <> EmptyString -> bs_ChainFromBackup (bk_Spec parent) <> bk_Name parent ->
  chainRoot backup = bk_Name parent /\ chainRoot parent <> chainRoot backup.
Proof.
  intros E1 Hp Hc Hne. unfold chainRoot. rewrite E1.
  destruct (String.eqb_spec (bk_Name parent) EmptyString); [done|]. by destruct (String.eqb_spec (bs_ChainFromBackup (bk_Spec parent)) EmptyString).
Qed.
