(* ===== verification/BackupWorld.v ===== *)
(** What a pass of the backup controller (neo4jbackup_controller.go) reads and
    changes, and the steps it is made of: the writes of its status and history, the
    claims, the CronJob and the Jobs. Objects are read through the informers: the
    Jobs a pass lists are [bw_cachedJobs], which may lag behind the API server's
    [bw_jobs]; the outcomes of the coming calls are in the world. Pods, their logs
    and Neo4j's databases ([BackupEnv]) are the same throughout a pass, as is
    time.Now(). The client set and the API reader are there, as in the manager.
    Log lines, metrics and the advisory warnings are left out. *)
From S2P Require Import Prelude GoStrings GoRegexp GoTime GoRFC3339 ClusterTypes Conditions UpgradeRecord Version UpgradeRules UpgradeMachine Availability BackupTypes RestoreTypes RestoreCommand RestoreWorld BackupLog BackupArtifact BackupCommand BackupHistory BackupRules.

Open Scope Z_scope.

(** * The world *)

(** An error of the API server; [fa_Terminating]: the namespace is being deleted. *)
Record apiFault := mkApiFault { fa_Text : string; fa_Terminating : bool }.

(** What a step of a backup fails with, and what stderrors.Is and As find in it. *)
Inductive errorKind := ChainBusy | BackupTransient | InvalidQuantity | NamespaceTerminating | OtherError.
Record backupError := mkBackupError { be_Text : string; be_Kind : errorKind }.

Definition wrapError (prefix : string) (e : backupError) : backupError := mkBackupError (prefix +:+ ": " +:+ be_Text e) (be_Kind e).
Definition faultError (f : apiFault) : backupError := mkBackupError (fa_Text f) (if fa_Terminating f then NamespaceTerminating else OtherError).
Definition otherError (text : string) : backupError := mkBackupError text OtherError.

(** A pod of a Job: its conditions (type, status, message) and its waiting
    containers (name, reason, message). *)
Record BackupPod := mkBackupPod {
  bp_Name : string;
  bp_Phase : string;
  bp_Conditions : list (string * string * string);
  bp_Waiting : list (string * string * string)
}.

(** [ev_jobPods]: the pods of a Job; [ev_podLog]: the log of a pod; [ev_failure]:
    jobFailureMessage; [ev_openClient] and [ev_databases]: the connection to Neo4j
    and SHOW DATABASES. *)
Record BackupEnv := mkBackupEnv {
  ev_jobPods : string -> result (list BackupPod);
  ev_podLog : string -> getResult string;
  ev_failure : BackupJob -> string;
  ev_openClient : option string;
  ev_databases : result (list string);
  ev_parseQuantity : string -> option Z;
  ev_parseCron : string -> option string;
  ev_isDNSSubdomain : string -> list string
}.

(** A CronJob, as far as the operator sets it. *)
Record BackupCron := mkBackupCron { cj_Name : string; cj_Schedule : string; cj_Suspend : bool; cj_Labels : gmap string string; cj_Command : string }.

(** A claim; its owners are kinds and UIDs. *)
Record BackupClaim := mkBackupClaim { cm_Size : Z; cm_Class : string; cm_Owners : list (string * string) }.

(** What a pass did. *)
Inductive backupAction :=
| JobStarted (name command image : string) (volumes : list (string * volumeSource))
| CleanupStarted (name script : string)
| JobRemoved (name : string)
| CronWritten (cron : BackupCron)
| CronSuspended
| CronRemoved
| ClaimCreated (name : string) (claim : BackupClaim)
| PhaseWritten (phase : string)
| FinalizersSet.

Record BackupWorld := mkBackupWorld {
  bw_now : Z;
  bw_env : BackupEnv;
  bw_stored : Neo4jBackup;
  bw_attempts : list (writeAttempt Neo4jBackup);
  bw_others : list Neo4jBackup;
  bw_cluster : option BackupTarget;
  bw_standalone : option BackupTarget;
  bw_sharded : list ShardedDatabase;
  bw_jobs : list BackupJob;
  bw_cachedJobs : list BackupJob;
  bw_cron : option BackupCron;
  bw_claims : gmap string BackupClaim;
  bw_account : gmap string string;
  bw_faults : list (option apiFault);
  bw_events : list (string * string);
  bw_log : list backupAction
}.

Definition set_bw_stored (v : Neo4jBackup) (w : BackupWorld) : BackupWorld :=
  mkBackupWorld (bw_now w) (bw_env w) v (bw_attempts w) (bw_others w) (bw_cluster w) (bw_standalone w) (bw_sharded w) (bw_jobs w) (bw_cachedJobs w) (bw_cron w) (bw_claims w) (bw_account w) (bw_faults w) (bw_events w) (bw_log w).
Definition set_bw_attempts (v : list (writeAttempt Neo4jBackup)) (w : BackupWorld) : BackupWorld :=
  mkBackupWorld (bw_now w) (bw_env w) (bw_stored w) v (bw_others w) (bw_cluster w) (bw_standalone w) (bw_sharded w) (bw_jobs w) (bw_cachedJobs w) (bw_cron w) (bw_claims w) (bw_account w) (bw_faults w) (bw_events w) (bw_log w).
Definition set_bw_sharded (v : list ShardedDatabase) (w : BackupWorld) : BackupWorld :=
  mkBackupWorld (bw_now w) (bw_env w) (bw_stored w) (bw_attempts w) (bw_others w) (bw_cluster w) (bw_standalone w) v (bw_jobs w) (bw_cachedJobs w) (bw_cron w) (bw_claims w) (bw_account w) (bw_faults w) (bw_events w) (bw_log w).
Definition set_bw_jobs (v : list BackupJob) (w : BackupWorld) : BackupWorld :=
  mkBackupWorld (bw_now w) (bw_env w) (bw_stored w) (bw_attempts w) (bw_others w) (bw_cluster w) (bw_standalone w) (bw_sharded w) v (bw_cachedJobs w) (bw_cron w) (bw_claims w) (bw_account w) (bw_faults w) (bw_events w) (bw_log w).
Definition set_bw_cron (v : option BackupCron) (w : BackupWorld) : BackupWorld :=
  mkBackupWorld (bw_now w) (bw_env w) (bw_stored w) (bw_attempts w) (bw_others w) (bw_cluster w) (bw_standalone w) (bw_sharded w) (bw_jobs w) (bw_cachedJobs w) v (bw_claims w) (bw_account w) (bw_faults w) (bw_events w) (bw_log w).
Definition set_bw_claims (v : gmap string BackupClaim) (w : BackupWorld) : BackupWorld :=
  mkBackupWorld (bw_now w) (bw_env w) (bw_stored w) (bw_attempts w) (bw_others w) (bw_cluster w) (bw_standalone w) (bw_sharded w) (bw_jobs w) (bw_cachedJobs w) (bw_cron w) v (bw_account w) (bw_faults w) (bw_events w) (bw_log w).
Definition set_bw_account (v : gmap string string) (w : BackupWorld) : BackupWorld :=
  mkBackupWorld (bw_now w) (bw_env w) (bw_stored w) (bw_attempts w) (bw_others w) (bw_cluster w) (bw_standalone w) (bw_sharded w) (bw_jobs w) (bw_cachedJobs w) (bw_cron w) (bw_claims w) v (bw_faults w) (bw_events w) (bw_log w).
Definition set_bw_faults (v : list (option apiFault)) (w : BackupWorld) : BackupWorld :=
  mkBackupWorld (bw_now w) (bw_env w) (bw_stored w) (bw_attempts w) (bw_others w) (bw_cluster w) (bw_standalone w) (bw_sharded w) (bw_jobs w) (bw_cachedJobs w) (bw_cron w) (bw_claims w) (bw_account w) v (bw_events w) (bw_log w).
Definition set_bw_events (v : list (string * string)) (w : BackupWorld) : BackupWorld :=
  mkBackupWorld (bw_now w) (bw_env w) (bw_stored w) (bw_attempts w) (bw_others w) (bw_cluster w) (bw_standalone w) (bw_sharded w) (bw_jobs w) (bw_cachedJobs w) (bw_cron w) (bw_claims w) (bw_account w) (bw_faults w) v (bw_log w).
Definition set_bw_log (v : list backupAction) (w : BackupWorld) : BackupWorld :=
  mkBackupWorld (bw_now w) (bw_env w) (bw_stored w) (bw_attempts w) (bw_others w) (bw_cluster w) (bw_standalone w) (bw_sharded w) (bw_jobs w) (bw_cachedJobs w) (bw_cron w) (bw_claims w) (bw_account w) (bw_faults w) (bw_events w) v.

Definition BW (A : Type) : Type := BackupWorld -> A * BackupWorld.

#[global] Instance BW_ret : MRet BW := fun A (a : A) w => (a, w).
#[global] Instance BW_bind : MBind BW := fun A B (f : A -> BW B) (m : BW A) w => let '(a, w') := m w in f a w'.

Definition getsB {A} (f : BackupWorld -> A) : BW A := fun w => (f w, w).
Definition modifyB (f : BackupWorld -> BackupWorld) : BW unit := fun w => (tt, f w).
Definition logB (a : backupAction) : BW unit := modifyB (fun w => set_bw_log (a :: bw_log w) w).
Definition eventB (reason message : string) : BW unit := modifyB (fun w => set_bw_events ((reason, message) :: bw_events w) w).

(** The outcome of an API call that is not a retried write. *)
Definition apiB : BW (option apiFault) := fun w =>
  match bw_faults w with [] => (None, w) | f :: rest => (f, set_bw_faults rest w) end.

(** A read that finds an object or not. *)
Definition readB {A} (f : BackupWorld -> option A) : BW (getResult A) :=
  fault ← apiB; v ← getsB f;
  mret match fault, v with Some e, _ => GetFailed (fa_Text e) | None, Some a => Found a | None, None => NotFound end.

(** A list, or the error. *)
Definition listB {A} (f : BackupWorld -> list A) : BW (result (list A)) :=
  fault ← apiB; v ← getsB f;
  mret match fault with Some e => Err (fa_Text e) | None => Ok v end.

Definition nextAttemptB : BW (writeAttempt Neo4jBackup) := fun w =>
  match bw_attempts w with [] => (Written, w) | a :: rest => (a, set_bw_attempts rest w) end.

(** [retry.RetryOnConflict] around a read-modify-write of the stored backup. *)
Fixpoint retryB {A} (steps : nat) (f : Neo4jBackup -> option Neo4jBackup * A) : BW (A + string) := fun w =>
  match steps with
  | O => (inr "conflict", w)
  | S steps' =>
      let '(a, w) := nextAttemptB w in
      match a with
      | ReadFails e => (inr e, w)
      | Written =>
          match f (bw_stored w) with
          | (None, v) => (inl v, w)
          | (Some latest, v) => (inl v, set_bw_stored latest w)
          end
      | WriteFails e => match f (bw_stored w) with (None, v) => (inl v, w) | (Some _, _) => (inr e, w) end
      | Raced seen => match f seen with (None, v) => (inl v, w) | (Some _, _) => retryB steps' f w end
      end
  end.

(** * The status *)

Definition PhaseInvalid : string := "Invalid".
Definition PhaseWaiting : string := "Waiting".
Definition PhasePending : string := "Pending".
Definition PhaseRunning : string := "Running".
Definition PhaseCompleted : string := "Completed".
Definition PhaseFailed : string := "Failed".
Definition PhaseScheduled : string := "Scheduled".
Definition PhaseSuspended : string := "Suspended".

Definition backupStatusBody (now : Z) (phase message : string) (latest : Neo4jBackup) : option Neo4jBackup * bool :=
  let st := bk_Status latest in
  let changed := negb (String.eqb (bu_Phase st) phase) || negb (String.eqb (bu_Message st) message) in
  let entered := negb (String.eqb (bu_Phase st) phase) in
  let '(condStatus, condReason) := PhaseToConditionStatus phase in
  let '(conditions, _) := SetReadyCondition now (bu_Conditions st) (bk_Generation latest) condStatus condReason message in
  let st' := mkNeo4jBackupStatus conditions phase message
               (if String.eqb phase PhaseRunning && entered then Some now else bu_LastRunTime st)
               (if String.eqb phase PhaseCompleted && entered then Some now else bu_LastSuccessTime st)
               (bu_Stats st) (bu_ReplicationPullURI st) (bu_History st) (bk_Generation latest) in
  if bool_decide (st = st') then (None, false) else (Some (set_bk_Status st' latest), changed).

(** [updateBackupStatus]: whether the write changed the phase or the message. *)
Definition updateBackupStatus (phase message : string) : BW bool :=
  now ← getsB bw_now;
  r ← retryB backoffSteps (backupStatusBody now phase message);
  match r with inl changed => _ ← logB (PhaseWritten phase); mret changed | inr _ => mret false end.

Definition pullURIBody (pullURI : string) (latest : Neo4jBackup) : option Neo4jBackup * unit :=
  if String.eqb (bu_ReplicationPullURI (bk_Status latest)) pullURI then (None, tt)
  else (Some (set_bk_Status (set_bu_ReplicationPullURI pullURI (bk_Status latest)) latest), tt).

Definition setReplicationPullURI (pullURI : string) : BW unit :=
  _ ← retryB backoffSteps (pullURIBody pullURI); mret tt.

(** addFinalizer and removeFinalizer (ObjectPatch.v), as one write. *)
Definition writeBackupFinalizers (f : list string -> list string) : BW (option string) :=
  fault ← apiB;
  match fault with
  | Some e => mret (Some (fa_Text e))
  | None => _ ← modifyB (fun w => set_bw_stored (set_bk_Finalizers (f (bk_Finalizers (bw_stored w))) (bw_stored w)) w);
            _ ← logB FinalizersSet; mret None
  end.

(** * Labels and selections *)

Definition BackupJobSelector (backupName : string) : gmap string string :=
  <["app.kubernetes.io/name" := "neo4j-backup"]> (<["app.kubernetes.io/instance" := backupName]> ∅).

Definition backupTargetName (backup : Neo4jBackup) : string := bs_InstanceRef (bk_Spec backup).

Definition backupLabels (backup : Neo4jBackup) (component : string) : gmap string string :=
  BackupJobSelector (bk_Name backup) ∪
  <["app.kubernetes.io/component" := component]> (<["app.kubernetes.io/managed-by" := "neo4j-operator"]>
    (<["app.kubernetes.io/part-of" := chainRoot backup]> (<["neo4j.com/backup-target" := backupTargetName backup]> ∅))).

(** [client.MatchingLabels]. *)
Definition matchingLabels (sel : list (string * string)) (labels : gmap string string) : bool :=
  forallb (fun kv => bool_decide (labels !! kv.1 = Some kv.2)) sel.

Definition listJobs (sel : list (string * string)) : BW (result (list BackupJob)) :=
  listB (fun w => List.filter (fun j => matchingLabels sel (bj_Labels j)) (bw_cachedJobs w)).

(** * The pods of a Job *)

(** Whether a pod ran, and without one why none did. *)
Definition startupParts (pod : BackupPod) : list string :=
  omap (fun c => let '(type, status, message) := c in
          if String.eqb type "PodScheduled" && negb (String.eqb status ConditionTrue) && nonempty message
          then Some ("pod " +:+ bp_Name pod +:+ " unschedulable: " +:+ message) else None) (bp_Conditions pod)
  ++ omap (fun c => let '(name, reason, message) := c in
          if nonempty reason && negb (String.eqb reason "ContainerCreating") && negb (String.eqb reason "PodInitializing")
          then Some ("pod " +:+ bp_Name pod +:+ " container " +:+ name +:+ " waiting: " +:+ reason
                     +:+ (if nonempty message then ": " +:+ message else EmptyString)) else None) (bp_Waiting pod).

Definition backupJobStartupState (env : BackupEnv) (namespace jobName : string) : bool * string :=
  match ev_jobPods env jobName with
  | Err _ => (false, EmptyString)
  | Ok pods =>
      if existsb (fun p => String.eqb (bp_Phase p) "Running" || String.eqb (bp_Phase p) "Succeeded") pods then (true, EmptyString)
      else match pods ≫= startupParts with
           | [] => (false, "no diagnostic conditions on the backup pod yet — inspect with: kubectl describe pod -l batch.kubernetes.io/job-name="
                           +:+ jobName +:+ " -n " +:+ namespace)
           | parts => (false, strings.Join parts "; ")
           end
  end.

Definition fetchBackupPodLog (env : BackupEnv) (jobName : string) : result string :=
  match ev_jobPods env jobName with
  | Err e => Err ("list pods for Job " +:+ quoted jobName +:+ ": " +:+ e)
  | Ok pods =>
      match List.find (fun p => String.eqb (bp_Phase p) "Succeeded") pods, last pods with
      | Some chosen, _ | None, Some chosen =>
          match ev_podLog env (bp_Name chosen) with
          | Found log => Ok log
          | NotFound => Ok EmptyString
          | GetFailed e => Err e
          end
      | None, None => Ok EmptyString
      end
  end.

Definition backupPodExists (env : BackupEnv) (jobName : string) : bool :=
  match ev_jobPods env jobName with Ok (_ :: _) => true | _ => false end.
