(* ===== verification/BackupPass.v ===== *)
(** A pass of the backup controller (Reconcile of
    src/internal/controller/neo4jbackup_controller.go and everything it calls):
    the validation, the terminal guard, the target, the sharded preflight, the
    claims, the Job of a one-time backup and the CronJob of a scheduled one, what
    is recorded of a Job that ended, and the deletion. *)
From S2P Require Import Prelude GoStrings GoRegexp GoTime GoRFC3339 ClusterTypes Conditions UpgradeRecord Version UpgradeRules UpgradeMachine Availability TargetWait Storage BackupTypes RestoreTypes RestoreCommand RestoreWorld BackupLog BackupArtifact BackupCommand BackupHistory BackupRules BackupWorld.

Open Scope Z_scope.

(** What a pass returns. *)
Inductive passResult := PassDone | PassRequeue | PassError (e : string).

(** The next step, unless this one failed. *)
Definition thenB {A} (m : BW (option backupError)) (k : BW (A + backupError)) : BW (A + backupError) :=
  e ← m; match e with Some e => mret (inr e) | None => k end.

(** * Sharded databases *)

Definition shardedNamed (name : string) (w : BackupWorld) : option ShardedDatabase :=
  List.find (fun sd => String.eqb (sh_Name sd) name) (bw_sharded w).

Definition isShardedScope (backup : Neo4jBackup) : bool := String.eqb (Scope (bk_Spec backup)) BackupTargetKindShardedDatabase.

Definition applyShardedPreflight (backup : Neo4jBackup) (cluster : BackupTarget) : BW (option passResult) :=
  if negb (isShardedScope backup) then mret None
  else
    '(got, all) ← (match IsClusterShardingReady cluster with
                   | Some _ => mret ((NotFound : getResult ShardedDatabase), (Ok [] : result (list ShardedDatabase)))
                   | None => got ← readB (shardedNamed (bs_ShardedDatabase (bk_Spec backup)));
                             all ← (match got with NotFound => listB bw_sharded | _ => mret (Ok []) end);
                             mret (got, all)
                   end);
    match shardedPreflightStatic backup cluster got all with
    | preflightContinue => mret None
    | preflightWait msg => _ ← updateBackupStatus PhaseWaiting msg; mret (Some PassRequeue)
    | preflightFail e => _ ← updateBackupStatus PhaseFailed e; mret (Some PassDone)
    end.

Definition shardedLogicalNameForBackup (backup : Neo4jBackup) : BW string :=
  got ← readB (shardedNamed (ScopedName (bk_Spec backup)));
  mret (shardedLogicalName (ScopedName (bk_Spec backup)) (match got with Found sd => Some sd | _ => None end)).

Definition shardedPreflightGlobSafety (backup : Neo4jBackup) : BW (option backupError) :=
  if negb (isShardedScope backup) then mret None
  else
    env ← getsB bw_env;
    match ev_openClient env with
    | Some e => mret (Some (mkBackupError ("failed to open Neo4j client for glob-safety check: " +:+ e +:+ ": transient backup precondition") BackupTransient))
    | None =>
        match ev_databases env with
        | Err e => mret (Some (mkBackupError ("failed to list databases for glob-safety check: " +:+ e +:+ ": transient backup precondition") BackupTransient))
        | Ok dbs =>
            logical ← shardedLogicalNameForBackup backup;
            mret match shardedGlobPoisoning logical dbs with
                 | [] => None
                 | poisoning => Some (otherError ("backup patterns " +:+ strings.Join (shardedBackupPatterns logical) " " +:+ " would also match unrelated database(s): ["
                     +:+ strings.Join poisoning " " +:+ "] — rename or drop the conflicting database(s) before running this backup"))
                 end
        end
    end.

Definition expectedShardArtifactsForBackup (backup : Neo4jBackup) : BW (list ShardArtifact) :=
  if negb (isShardedScope backup) then mret []
  else (got ← readB (shardedNamed (ScopedName (bk_Spec backup)));
        mret match got with Found sd => expectedShardArtifacts (ScopedName (bk_Spec backup)) sd | _ => [] end).

Definition updateShardedDBLastBackup (backup : Neo4jBackup) (run : BackupRun) : BW unit :=
  if negb (isShardedScope backup) || negb (succeededRun run) then mret tt
  else
    fault ← apiB;
    match fault with
    | Some _ => mret tt
    | None => modifyB (fun w => set_bw_sharded
        ((fun sd => if String.eqb (sh_Name sd) (ScopedName (bk_Spec backup))
                    then mkShardedDatabase (sh_Name sd) (sh_SpecName sd) (sh_ClusterRef sd) (sh_PropertyShards sd) (sh_ShardingReady sd)
                           (Some (bk_Name backup, br_RunID run, br_BackupsPath run, br_CompletionTime run))
                    else sd) <$> bw_sharded w) w)
    end.

(** * The chain *)

Definition validateChainParent (backup : Neo4jBackup) : BW (option backupError) :=
  let name := bs_ChainFromBackup (bk_Spec backup) in
  if String.eqb name EmptyString then mret None
  else
    got ← readB (fun w => List.find (fun b => String.eqb (bk_Name b) name) (bw_others w));
    mret match got with
         | NotFound => Some (mkBackupError ("chainFromBackup " +:+ quoted name +:+ " not found in namespace " +:+ quoted (bk_Namespace backup)
                                            +:+ " (waiting for it to appear): transient backup precondition") BackupTransient)
         | GetFailed e => Some (otherError ("chainFromBackup " +:+ quoted name +:+ " lookup failed in namespace " +:+ quoted (bk_Namespace backup) +:+ ": " +:+ e))
         | Found parent => otherError <$> chainParentError backup parent
         end.

Definition chainSelector (backup : Neo4jBackup) : list (string * string) :=
  [("app.kubernetes.io/managed-by", "neo4j-operator"); ("app.kubernetes.io/part-of", chainRoot backup)].

Definition waitForChainConcurrencyClear (backup : Neo4jBackup) : BW (option backupError) :=
  jobs ← listJobs (chainSelector backup);
  mret match jobs with
       | Err e => Some (otherError ("list chained backup Jobs: " +:+ e))
       | Ok jobs => match List.find (fun j => 0 <? bj_Active j) jobs with
                    | Some j => Some (mkBackupError ("job " +:+ quoted (bj_Name j) +:+ " (chain root " +:+ quoted (chainRoot backup)
                                                     +:+ "): another backup in this chain is still running") ChainBusy)
                    | None => None
                    end
       end.

(** * Claims *)

(** The claim of a spec's size, created when there is none. *)
Definition createClaim (name path size class : string) (owners : list (string * string)) : BW (option backupError) :=
  env ← getsB bw_env;
  match parseUserQuantity (ev_parseQuantity env) path size with
  | Err e => mret (Some (mkBackupError e InvalidQuantity))
  | Ok q =>
      fault ← apiB;
      match fault with
      | Some f => mret (Some (faultError f))
      | None =>
          let claim := mkBackupClaim q class owners in
          _ ← modifyB (fun w => set_bw_claims (<[name := claim]> (bw_claims w)) w); _ ← logB (ClaimCreated name claim); mret None
      end
  end.

Definition ensureTempStagingPVC (backup : Neo4jBackup) : BW (option backupError) :=
  match bs_Options (bk_Spec backup) ≫= bo_TempStorage with
  | None => mret None
  | Some temp =>
      let pvcName := bk_Name backup +:+ "-temp-staging" in
      got ← readB (fun w => bw_claims w !! pvcName);
      match got with
      | Found _ => mret None
      | GetFailed e => mret (Some (otherError ("failed to get temp staging PVC " +:+ bk_Namespace backup +:+ "/" +:+ pvcName +:+ ": " +:+ e)))
      | NotFound => createClaim pvcName "spec.options.tempStorage.size" (ts_Size temp) (ts_StorageClassName temp) [("Neo4jBackup", bk_UID backup)]
      end
  end.

Definition ownedByBackup (backup : Neo4jBackup) (ref : string * string) : bool := String.eqb ref.2 (bk_UID backup) && String.eqb ref.1 "Neo4jBackup".

Definition stripBackupPVCOwnerRef (backup : Neo4jBackup) (pvcName : string) (pvc : BackupClaim) : BW (option backupError) :=
  if negb (existsb (ownedByBackup backup) (cm_Owners pvc)) then mret None
  else
    fault ← apiB;
    match fault with
    | Some f => mret (Some (faultError f))
    | None =>
        _ ← modifyB (fun w => set_bw_claims (alter (fun latest =>
               mkBackupClaim (cm_Size latest) (cm_Class latest) (List.filter (fun ref => negb (ownedByBackup backup ref)) (cm_Owners latest))) pvcName (bw_claims w)) w);
        mret None
    end.

Definition ensureBackupPVC (backup : Neo4jBackup) : BW (option backupError) :=
  match sl_PVC (bk_Storage backup) with
  | None => mret None
  | Some pvc =>
      if negb (String.eqb (sl_Type (bk_Storage backup)) "pvc") || String.eqb (pv_Name pvc) EmptyString then mret None
      else
        got ← readB (fun w => bw_claims w !! pv_Name pvc);
        match got with
        | Found claim => stripBackupPVCOwnerRef backup (pv_Name pvc) claim
        | GetFailed e => mret (Some (otherError ("failed to get backup PVC " +:+ bk_Namespace backup +:+ "/" +:+ pv_Name pvc +:+ ": " +:+ e)))
        | NotFound =>
            if String.eqb (pv_Size pvc) EmptyString then mret None
            else createClaim (pv_Name pvc) "spec.storage.pvc.size" (pv_Size pvc) (pv_StorageClassName pvc) []
        end
  end.

(** * The target *)

(** [getTargetCluster]: any failure to read a cluster falls through to the
    standalone. *)
Definition getTargetCluster (backup : Neo4jBackup) : BW (getResult BackupTarget) :=
  c ← readB bw_cluster;
  match c with
  | Found cluster => mret (Found cluster)
  | _ => s ← readB bw_standalone;
         mret match s with Found standalone => Found (standaloneAsTarget standalone) | NotFound => NotFound | GetFailed e => GetFailed e end
  end.

Definition targetErrorText (backup : Neo4jBackup) (e : string) : string :=
  "target " +:+ quoted (bs_InstanceRef (bk_Spec backup)) +:+ " not usable as Neo4jEnterpriseCluster or Neo4jEnterpriseStandalone in namespace "
  +:+ quoted (bk_Namespace backup) +:+ ": " +:+ e.

(** The standalone of isStandaloneTarget. *)
Definition isStandaloneTarget : BW (option BackupTarget) :=
  c ← readB bw_cluster;
  match c with
  | Found _ => mret None
  | _ => s ← readB bw_standalone; mret match s with Found standalone => Some standalone | _ => None end
  end.

Definition validateTargetVersion (cluster : BackupTarget) : option string :=
  if String.eqb (bg_Tag cluster) EmptyString then Some ("Neo4j image tag is not specified in cluster " +:+ bg_Name cluster)
  else ValidateNeo4jVersion (bg_Tag cluster).

Definition isClusterReady (cluster : BackupTarget) : bool :=
  String.eqb (bg_Phase cluster) PhaseReady || String.eqb (bg_Phase cluster) PhaseDegraded || hasReadyCondition (bg_Conditions cluster).

(** The command, with what it reads. *)
Definition backupCommandB (backup : Neo4jBackup) (cluster : BackupTarget) : BW (string + backupError) :=
  env ← getsB bw_env;
  standalone ← isStandaloneTarget;
  sharded ← (if isShardedScope backup then readB (shardedNamed (ScopedName (bk_Spec backup))) else mret NotFound);
  mret match buildBackupCommand (ev_parseQuantity env) backup cluster standalone (match sharded with Found sd => Some sd | _ => None end) with
       | Ok cmd => inl cmd
       | Err e => inr (otherError ("failed to build backup command: " +:+ e))
       end.

(** * The service account *)

Definition ensureBackupServiceAccount (backup : Neo4jBackup) : BW (option string) :=
  let annotations := match sl_Cloud (bk_Storage backup) with
                     | Some cloud => match cb_Identity cloud with Some i => default ∅ (ci_AutoCreate i) | None => ∅ end
                     | None => ∅
                     end in
  fault ← apiB;
  match fault with
  | Some f => mret (Some (fa_Text f))
  | None => _ ← modifyB (fun w => set_bw_account (annotations ∪ bw_account w) w); mret None
  end.

(** * The Job of a one-time backup *)

Definition jobNameOf (backup : Neo4jBackup) : string := bk_Name backup +:+ "-backup".
Definition cronNameOf (backup : Neo4jBackup) : string := bk_Name backup +:+ "-backup-cron".
Definition imageOf (cluster : BackupTarget) : string := bg_Repo cluster +:+ ":" +:+ bg_Tag cluster.

Definition cachedJob (name : string) (w : BackupWorld) : option BackupJob := List.find (fun j => String.eqb (bj_Name j) name) (bw_cachedJobs w).
Definition serverHasJob (name : string) (w : BackupWorld) : bool := existsb (fun j => String.eqb (bj_Name j) name) (bw_jobs w).

(** What createBackupJob and createBackupCronJob do before they write; [wait]:
    only the first waits for the chain. *)
Definition backupPreconditions (wait : bool) (backup : Neo4jBackup) (cluster : BackupTarget) : BW (string + backupError) :=
  thenB (shardedPreflightGlobSafety backup)
  (thenB (validateChainParent backup)
  (thenB (if wait then waitForChainConcurrencyClear backup else mret None)
  (thenB (e ← ensureTempStagingPVC backup; mret (wrapError "failed to create temp staging PVC" <$> e))
  (thenB (e ← ensureBackupPVC backup; mret (wrapError "failed to create backup PVC" <$> e))
   (backupCommandB backup cluster))))).

(** The name of the Job that was created or adopted. *)
Definition createBackupJob (backup : Neo4jBackup) (cluster : BackupTarget) : BW (string + backupError) :=
  r ← backupPreconditions true backup cluster;
  match r with
  | inr e => mret (inr e : string + backupError)
  | inl backupCmd =>
      let jobName := jobNameOf backup in
      fault ← apiB;
      match fault with
      | Some f => mret (inr (faultError f))
      | None =>
          there ← getsB (serverHasJob jobName);
          if (there : bool) then
            existing ← readB (cachedJob jobName);
            mret (match existing with
                  | Found job => inl (bj_Name job)
                  | _ => inr (otherError ("jobs.batch " +:+ quoted jobName +:+ " already exists"))
                  end : string + backupError)
          else
            _ ← modifyB (fun w => set_bw_jobs (bw_jobs w ++ [mkBackupJob jobName EmptyString (backupLabels backup "backup") None None 0 0 []]) w);
            _ ← logB (JobStarted jobName backupCmd (imageOf cluster) (buildVolumes backup));
            mret (inl jobName)
      end
  end.

(** * The CronJob of a scheduled one *)

Definition createBackupCronJob (backup : Neo4jBackup) (cluster : BackupTarget) : BW (BackupCron + backupError) :=
  r ← backupPreconditions false backup cluster;
  match r with
  | inr e => mret (inr e)
  | inl backupCmd =>
      fault ← apiB;
      match fault with
      | Some f => mret (inr (faultError f))
      | None =>
          let cron := mkBackupCron (cronNameOf backup) (bs_Schedule (bk_Spec backup)) false (backupLabels backup "backup-cron") backupCmd in
          _ ← modifyB (set_bw_cron (Some cron)); _ ← logB (CronWritten cron); mret (inl cron)
      end
  end.

Definition suspendBackupCronJob : BW (option string) :=
  got ← readB bw_cron;
  match got with
  | NotFound => mret None
  | GetFailed e => mret (Some e)
  | Found cron =>
      if cj_Suspend cron then mret None
      else
        fault ← apiB;
        match fault with
        | Some f => mret (Some (fa_Text f))
        | None => _ ← modifyB (set_bw_cron (Some (mkBackupCron (cj_Name cron) (cj_Schedule cron) true (cj_Labels cron) (cj_Command cron))));
                  _ ← logB CronSuspended; mret None
        end
  end.

Definition cleanupOrphanedCronJob : BW (option string) :=
  got ← readB bw_cron;
  match got with
  | NotFound => mret None
  | GetFailed e => mret (Some e)
  | Found _ =>
      fault ← apiB;
      match fault with
      | Some f => mret (Some (fa_Text f))
      | None => _ ← modifyB (set_bw_cron None); _ ← logB CronRemoved; mret None
      end
  end.

(** * The record of a Job that ended *)

Fixpoint emitB (warnings : list (string * string)) : BW unit :=
  match warnings with [] => mret tt | (reason, message) :: rest => _ ← eventB reason message; emitB rest end.

(** Whether the run is missing the names a restore needs, its pod is there and it
    ended within the grace. *)
Definition deferRecord (now : Z) (env : BackupEnv) (backup : Neo4jBackup) (job : BackupJob) (run : BackupRun) : bool :=
  succeededRun run && artifactsMissing backup run && backupPodExists env (bj_Name job)
  && match jobFinishedAt job with Some t => now - t <? artifactCaptureGrace | None => false end.

(** [recordOneShotBackupRun]: whether the phase may become final. *)
Definition recordOneShotBackupRun (backup : Neo4jBackup) (job : BackupJob) : BW bool :=
  let '(run, ended) := jobToBackupRun job (chainRoot backup) in
  if negb ended then mret true
  else
    env ← getsB bw_env; now ← getsB bw_now;
    let run := if String.eqb (br_Status run) "Failed" then set_br_Error (ev_failure env job) run else run in
    forLog ← expectedShardArtifactsForBackup backup;
    let log := if wantsLog backup forLog then match fetchBackupPodLog env (bj_Name job) with Ok log => log | Err _ => EmptyString end else EmptyString in
    expected ← expectedShardArtifactsForBackup backup;
    let '(run, warnings) := describeRun backup expected log run in
    if deferRecord now env backup job run then mret false
    else
      r ← retryB backoffSteps (oneShotBody run (bj_UID job));
      _ ← match r with inl true => emitB (emittedWarnings warnings None) | _ => mret tt end;
      _ ← updateShardedDBLastBackup backup run;
      mret true.

Definition reconcileScheduledHistory (backup : Neo4jBackup) : BW unit :=
  jobs ← listJobs [("app.kubernetes.io/instance", bk_Name backup)];
  match jobs with
  | Err _ => mret tt
  | Ok jobs =>
      env ← getsB bw_env;
      fault ← (if isShardedScope backup then apiB else mret None);
      shardeds ← getsB bw_sharded;
      let expected := fun latest : Neo4jBackup =>
        match fault with
        | Some _ => []
        | None => if isShardedScope latest
                  then match List.find (fun sd => String.eqb (sh_Name sd) (ScopedName (bk_Spec latest))) shardeds with
                       | Some sd => expectedShardArtifacts (ScopedName (bk_Spec latest)) sd | None => [] end
                  else []
        end in
      let logOf := fun job => match fetchBackupPodLog env (bj_Name job) with Ok log => log | Err _ => EmptyString end in
      r ← retryB backoffSteps (fun latest => scheduledBody (expected latest) logOf (ev_failure env) jobs latest);
      match r with
      | inr _ => mret tt
      | inl (succeeded, warnings, recorded) =>
          _ ← match recorded with Some history => emitB (emittedWarnings warnings (Some history)) | None => mret tt end;
          match latestSucceeded succeeded with Some run => updateShardedDBLastBackup backup run | None => mret tt end
      end
  end.

(** * The handlers *)

Definition EventReasonBackupScheduled : string := "BackupScheduled".
Definition EventReasonBackupStarted : string := "BackupStarted".
Definition EventReasonBackupCompleted : string := "BackupCompleted".
Definition EventReasonBackupFailed : string := "BackupFailed".
Definition EventReasonBackupRetentionCaveat : string := "BackupRetentionCaveat".
Definition EventReasonReplicationSourceCaveat : string := "ReplicationSourceCaveat".

(** A status write, announced when it changed the phase or the message. *)
Definition announceB (phase message reason event : string) : BW unit :=
  changed ← updateBackupStatus phase message;
  if (changed : bool) then eventB reason event else mret tt.

Definition reportInvalidBackupSpec (cause : string) : BW passResult :=
  let msg := "Invalid backup spec: " +:+ cause in
  _ ← announceB PhaseInvalid msg EventReasonBackupFailed msg; mret PassDone.

(** What a failure to create the Job or the CronJob ends the pass with. *)
Definition creationFailed (prefix : string) (e : backupError) : BW passResult :=
  match be_Kind e with
  | ChainBusy | BackupTransient => _ ← updateBackupStatus PhasePending (be_Text e); mret PassRequeue
  | InvalidQuantity => reportInvalidBackupSpec (be_Text e)
  | NamespaceTerminating => mret PassDone
  | OtherError => _ ← updateBackupStatus PhaseFailed (prefix +:+ ": " +:+ be_Text e); mret (PassError (be_Text e))
  end.

Definition scheduledBackupMessage (cron : BackupCron) : string :=
  "Backup scheduled with CronJob " +:+ cj_Name cron +:+ " (schedule " +:+ quoted (cj_Schedule cron) +:+ ")".

Definition handleScheduledBackup (backup : Neo4jBackup) (cluster : BackupTarget) : BW passResult :=
  e ← ensureBackupServiceAccount backup;
  match e with
  | Some e => mret (PassError e)
  | None =>
      r ← createBackupCronJob backup cluster;
      match r with
      | inr e => creationFailed "Failed to create CronJob" e
      | inl cron =>
          let msg := scheduledBackupMessage cron in
          _ ← announceB PhaseScheduled msg EventReasonBackupScheduled msg;
          _ ← reconcileScheduledHistory backup;
          mret PassRequeue
      end
  end.

Definition backupJobStartupTimeout : Z := 10 * minute.

Definition handleExistingBackupJob (backup : Neo4jBackup) (job : BackupJob) : BW passResult :=
  env ← getsB bw_env; now ← getsB bw_now;
  if jobSucceeded job then
    recorded ← recordOneShotBackupRun backup job;
    if negb recorded then (_ ← updateBackupStatus PhaseRunning "Backup completed; capturing artifact metadata from the backup Pod"; mret PassRequeue)
    else (_ ← announceB PhaseCompleted "Backup completed successfully" EventReasonBackupCompleted "Backup completed successfully"; mret PassDone)
  else if jobConditionTrue job JobFailed then
    let msg := ev_failure env job in
    _ ← announceB PhaseFailed msg EventReasonBackupFailed msg;
    _ ← recordOneShotBackupRun backup job;
    mret PassDone
  else
    let '(running, diag) := backupJobStartupState env (bk_Namespace backup) (bj_Name job) in
    if running then (_ ← updateBackupStatus PhaseRunning "Backup job is running"; mret PassRequeue)
    else
      let elapsed := match bj_StartTime job with Some t => now - t | None => 0 end in
      if backupJobStartupTimeout <? elapsed then
        let msg := "backup pod did not start within " +:+ gotime.DurationString backupJobStartupTimeout +:+ ": " +:+ diag
                   +:+ " — fix the cause and re-create the backup" in
        fault ← apiB;
        _ ← (match fault with
             | Some _ => mret tt
             | None => _ ← modifyB (fun w => set_bw_jobs (List.filter (fun j => negb (String.eqb (bj_Name j) (bj_Name job))) (bw_jobs w)) w);
                       logB (JobRemoved (bj_Name job))
             end);
        _ ← updateBackupStatus PhaseFailed msg;
        _ ← eventB EventReasonBackupFailed msg;
        mret PassDone
      else
        _ ← updateBackupStatus PhaseRunning (if nonempty diag then "Waiting for backup pod to start: " +:+ diag else "Backup job is running");
        mret PassRequeue.

Definition terminalPhase (backup : Neo4jBackup) : bool :=
  String.eqb (bk_Phase backup) PhaseCompleted || String.eqb (bk_Phase backup) PhaseFailed.

Definition handleOneTimeBackup (backup : Neo4jBackup) (cluster : BackupTarget) : BW passResult :=
  e ← cleanupOrphanedCronJob;
  match e with
  | Some e => mret (PassError e)
  | None =>
      if terminalPhase backup then mret PassDone
      else
        e ← ensureBackupServiceAccount backup;
        match e with
        | Some e => mret (PassError e)
        | None =>
            existing ← readB (cachedJob (jobNameOf backup));
            match existing with
            | Found job => handleExistingBackupJob backup job
            | GetFailed e => mret (PassError e)
            | NotFound =>
                r ← createBackupJob backup cluster;
                match r with
                | inr e => creationFailed "Failed to create backup job" e
                | inl name =>
                    _ ← updateBackupStatus PhaseRunning ("Backup job " +:+ name +:+ " created");
                    _ ← eventB EventReasonBackupStarted ("Backup job " +:+ name +:+ " started");
                    mret PassRequeue
                end
            end
        end
  end.

(** [oneTimeBackupDone]: a copy that is not terminal is checked against the API
    server. *)
Definition oneTimeBackupDone (backup : Neo4jBackup) : BW bool :=
  if nonempty (bs_Schedule (bk_Spec backup)) then mret false
  else if terminalPhase backup then mret true
  else
    fresh ← readB (fun w => Some (bw_stored w));
    mret match fresh with Found b => negb (nonempty (bs_Schedule (bk_Spec b))) && terminalPhase b | _ => false end.

(** * Deletion *)

Fixpoint deleteJobs (jobs : list BackupJob) : BW (option string) :=
  match jobs with
  | [] => mret None
  | job :: rest =>
      fault ← apiB;
      match fault with
      | Some f => mret (Some (fa_Text f))
      | None => _ ← modifyB (fun w => set_bw_jobs (List.filter (fun j => negb (String.eqb (bj_Name j) (bj_Name job))) (bw_jobs w)) w);
                _ ← logB (JobRemoved (bj_Name job)); deleteJobs rest
      end
  end.

Definition cleanupBackupJobs (backup : Neo4jBackup) : BW (option string) :=
  jobs ← listJobs [("app.kubernetes.io/instance", bk_Name backup); ("app.kubernetes.io/component", "backup")];
  match jobs with
  | Err e => mret (Some e)
  | Ok jobs =>
      e ← deleteJobs jobs;
      match e with
      | Some e => mret (Some e)
      | None =>
          let sel := [("app.kubernetes.io/instance", bk_Name backup); ("app.kubernetes.io/component", "backup-cron")] in
          crons ← listB (fun w => match bw_cron w with Some c => if matchingLabels sel (cj_Labels c) then [c] else [] | None => [] end);
          match crons with
          | Err e => mret (Some e)
          | Ok [] => mret None
          | Ok (_ :: _) =>
              fault ← apiB;
              match fault with
              | Some f => mret (Some (fa_Text f))
              | None => _ ← modifyB (set_bw_cron None); _ ← logB CronRemoved; mret None
              end
          end
      end
  end.

Definition cleanupJobNameFor (backup : Neo4jBackup) : string :=
  let uid := strings.upto 8 (strings.ReplaceAllByte (bk_UID backup) "-" EmptyString) in
  let suffix := "-cleanup" +:+ (if nonempty uid then "-" +:+ uid else EmptyString) in
  let maxNameLen := 63%nat in
  let base := bk_Name backup in
  (if (maxNameLen <? String.length base + String.length suffix)%nat then strings.upto (maxNameLen - String.length suffix) base else base) +:+ suffix.

Definition cleanupBackupArtifacts (backup : Neo4jBackup) : BW (option string) :=
  match bs_Retention (bk_Spec backup) with
  | None => mret None
  | Some policy =>
      match cloudScheme (sl_Type (bk_Storage backup)) with
      | Some _ => mret None
      | None =>
          _ ← (if String.eqb (effectiveBackupType backup) backupArtifactFull then mret tt
               else eventB EventReasonBackupRetentionCaveat "Retention pruning on a chain that may contain differential artifacts can orphan DIFFs whose parent FULL ages out; prefer backupType=FULL with retention, or prune via neo4j-admin backup aggregate");
          let script := buildRetentionScript policy (chainRoot backup) in
          let name := cleanupJobNameFor backup in
          fault ← apiB;
          match fault with
          | Some f => mret (Some ("failed to create cleanup job: " +:+ fa_Text f))
          | None =>
              there ← getsB (serverHasJob name);
              if (there : bool) then mret None
              else
                _ ← modifyB (fun w => set_bw_jobs (bw_jobs w ++ [mkBackupJob name EmptyString (backupLabels backup "cleanup") None None 0 0 []]) w);
                _ ← logB (CleanupStarted name script); mret None
          end
      end
  end.

Definition BackupFinalizer : string := "neo4j.com/backup-finalizer".

Definition handleBackupDeletion (backup : Neo4jBackup) : BW passResult :=
  if negb (bool_decide (BackupFinalizer ∈ bk_Finalizers backup)) then mret PassDone
  else
    e ← cleanupBackupJobs backup;
    match e with
    | Some e => mret (PassError e)
    | None =>
        e ← cleanupBackupArtifacts backup;
        match e with
        | Some e => mret (PassError e)
        | None => e ← writeBackupFinalizers (List.filter (fun f => negb (String.eqb f BackupFinalizer)));
                  mret match e with Some e => PassError e | None => PassDone end
        end
    end.

(** * The pass *)

(** The refusals of a spec, [siblings] being what was listed. *)
Definition backupRefusals (env : BackupEnv) (backup : Neo4jBackup) (siblings : list Neo4jBackup) : list backupRefusal :=
  Validate (ev_parseQuantity env) (ev_parseCron env) (ev_isDNSSubdomain env) backup ++ ValidateReplicationSourceMode backup siblings.

(** The directory a replica pulls from, published once. *)
Definition publishPullURI (backup : Neo4jBackup) : BW unit :=
  let pullURI := ReplicationPullURI (bk_Storage backup) (chainRoot backup) in
  if String.eqb (bs_Mode (bk_Spec backup)) BackupModeReplicationSource && negb (nonempty (bu_ReplicationPullURI (bk_Status backup))) && nonempty pullURI
  then (_ ← setReplicationPullURI pullURI;
        eventB EventReasonReplicationSourceCaveat ("Replication source ready. Downstream replicas should set source.pullURI=" +:+ pullURI
          +:+ ". NOTE: the operator cannot see object-store lifecycle rules — any rule that expires objects in this directory will break the differential chain and force the replica to be rebuilt. Exclude this path from lifecycle expiry."))
  else mret tt.

(** From the target on. *)
Definition runOnTarget (backup : Neo4jBackup) : BW passResult :=
  target ← getTargetCluster backup;
  match target with
  | NotFound =>
      let msg := "Waiting for target to appear: " +:+ targetErrorText backup "not found" in
      _ ← announceB PhaseWaiting msg EventReasonClusterNotFound msg; mret PassRequeue
  | GetFailed e =>
      let text := targetErrorText backup e in
      _ ← updateBackupStatus PhaseFailed ("Failed to get target cluster: " +:+ text); mret (PassError text)
  | Found cluster =>
      match validateTargetVersion cluster with
      | Some e => _ ← updateBackupStatus PhaseFailed ("Neo4j version not supported: " +:+ e); mret (PassError e)
      | None =>
          if negb (isClusterReady cluster) then (_ ← updateBackupStatus PhaseWaiting "Target cluster is not ready"; mret PassRequeue)
          else if bs_Suspend (bk_Spec backup) then
            e ← suspendBackupCronJob;
            match e with
            | Some e => mret (PassError e)
            | None => _ ← updateBackupStatus PhaseSuspended "Backup is suspended"; mret PassRequeue
            end
          else
            r ← applyShardedPreflight backup cluster;
            match r with
            | Some result => mret result
            | None => if nonempty (bs_Schedule (bk_Spec backup)) then handleScheduledBackup backup cluster else handleOneTimeBackup backup cluster
            end
      end
  end.

(** The pass of a backup that is neither deleted nor new. *)
Definition passBody (backup : Neo4jBackup) : BW passResult :=
  env ← getsB bw_env;
  siblings ← (if String.eqb (bs_Mode (bk_Spec backup)) BackupModeReplicationSource then listB bw_others else mret (Ok []));
  match backupRefusals env backup (match siblings with Ok l => l | Err _ => [] end) with
  | (_ :: _) as errs =>
      let msg := refusalsText errs in
      _ ← announceB PhaseInvalid ("Invalid backup spec: " +:+ msg) EventReasonBackupFailed msg; mret PassDone
  | [] =>
      _ ← publishPullURI backup;
      finished ← oneTimeBackupDone backup;
      if (finished : bool) then
        (e ← cleanupOrphanedCronJob; mret match e with Some e => PassError e | None => PassDone end)
      else runOnTarget backup
  end.

(** A pass, [backup] being the informer's copy. *)
Definition ReconcileBackup (backup : Neo4jBackup) : BW passResult :=
  if bk_Deleting backup then handleBackupDeletion backup
  else if negb (bool_decide (BackupFinalizer ∈ bk_Finalizers backup)) then
    (e ← writeBackupFinalizers (fun l => l ++ [BackupFinalizer]); mret match e with Some e => PassError e | None => PassDone end)
  else passBody backup.
