(* ===== verification/BackupSafety.v ===== *)
(** What a pass of the backup controller may do: the theorems about every action of
    a pass (BackupPass.v), about a backup that has ended, and about the deletion.
    [calm] steps change nothing but the backup's own status, the shared account and
    the sharded database's; the others are followed action by action. *)
From S2P Require Import Prelude GoStrings GoRegexp GoTime GoRFC3339 ClusterTypes Conditions UpgradeRecord Version UpgradeRules UpgradeMachine Availability TargetWait Storage BackupTypes RestoreTypes RestoreCommand RestoreWorld BackupLog BackupArtifact BackupCommand BackupHistory BackupRules BackupWorld BackupPass.

Open Scope Z_scope.

(** * Calm steps *)

Definition quietB (a : backupAction) : bool := match a with PhaseWritten _ | FinalizersSet => true | _ => false end.

(** What a pass reads and does not change. *)
Definition surroundings (w : BackupWorld) := (bw_now w, bw_env w, bw_others w, bw_cluster w, bw_standalone w, bw_cachedJobs w).

Record calmStep (w w' : BackupWorld) : Prop := mkCalm {
  calm_around : surroundings w' = surroundings w;
  calm_jobs : bw_jobs w' = bw_jobs w;
  calm_cron : bw_cron w' = bw_cron w;
  calm_log : exists new, bw_log w' = new ++ bw_log w /\ forallb quietB new = true
}.

#[global] Instance calmStep_preorder : PreOrder calmStep.
Proof.
  split.
  - intros w. split; [done..|by exists []].
  - intros w1 w2 w3 [A1 B1 C1 (n1 & E1 & Q1)] [A2 B2 C2 (n2 & E2 & Q2)]. split; [congruence..|]. exists (n2 ++ n1).
    by rewrite E2, E1, app_assoc, forallb_app, Q1, Q2.
Qed.

Definition calm {A} (m : BW A) : Prop := forall w r w', m w = (r, w') -> calmStep w w'.

Lemma calm_ret {A} (a : A) : calm (mret a).
Proof. by intros w r w' [= _ <-]. Qed.

Lemma calm_bind {A B} (m : BW A) (f : A -> BW B) : calm m -> (forall a, calm (f a)) -> calm (m ≫= f).
Proof.
  intros Hm Hf w r w'. unfold mbind, BW_bind. destruct (m w) as [a w1] eqn:E. intros H. transitivity w1; [by apply (Hm w a)|by apply (Hf a w1 r)].
Qed.

Lemma calm_gets {A} (f : BackupWorld -> A) : calm (getsB f).
Proof. by intros w r w' [= _ <-]. Qed.

Lemma calm_modify f : (forall w, surroundings (f w) = surroundings w /\ bw_jobs (f w) = bw_jobs w /\ bw_cron (f w) = bw_cron w /\ bw_log (f w) = bw_log w) -> calm (modifyB f).
Proof. intros H w r w' [= _ <-]. destruct (H w) as (H1 & H2 & H3 & H4). split; [done..|exists []; by rewrite H4]. Qed.

Lemma calm_logged a : quietB a = true -> calm (logB a).
Proof. intros Ha w r w' [= _ <-]. split; [done..|]. exists [a]. cbn. by rewrite Ha. Qed.

Lemma calm_event reason message : calm (eventB reason message).
Proof. by apply calm_modify. Qed.

Lemma calm_api : calm apiB.
Proof. intros w r w'. unfold apiB. destruct (bw_faults w); intros [= _ <-]; split; done || by exists []. Qed.

Lemma calm_read {A} (f : BackupWorld -> option A) : calm (readB f).
Proof. unfold readB. apply calm_bind; [apply calm_api|intros ?]. apply calm_bind; [apply calm_gets|intros ?; apply calm_ret]. Qed.

Lemma calm_list {A} (f : BackupWorld -> list A) : calm (listB f).
Proof. unfold listB. apply calm_bind; [apply calm_api|intros ?]. apply calm_bind; [apply calm_gets|intros ?; apply calm_ret]. Qed.

Lemma calm_retry {A} n (f : Neo4jBackup -> option Neo4jBackup * A) : calm (retryB n f).
Proof.
  induction n as [|n IH]; intros w r w'; cbn [retryB]; [by intros [= _ <-]|]. destruct (nextAttemptB w) as [a w1] eqn:E.
  assert (calmStep w w1) as Ha by (revert E; unfold nextAttemptB; destruct (bw_attempts w); intros [= _ <-]; split; done || by exists []).
  destruct a as [|e|e|seen]; [|by intros [= _ <-]| |].
  - destruct (f (bw_stored w1)) as [[b|] v]; intros [= _ <-]; [|done]. transitivity w1; [done|]. split; [done..|by exists []].
  - by destruct (f (bw_stored w1)) as [[b|] v]; intros [= _ <-].
  - destruct (f seen) as [[b|] v]; intros H; [|by injection H as _ <-]. transitivity w1; [done|by apply (IH w1 r)].
Qed.

Create HintDb calm.
#[export] Hint Resolve calm_ret calm_gets calm_event calm_api calm_read calm_list calm_retry : calm.

(** Take a handler apart at its binds and branches. *)
Ltac soothe :=
  repeat match goal with
    | |- calm (let _ := _ in _) => cbv zeta
    | |- calm (_ ≫= _) => apply calm_bind; [|intros ?]
    | |- calm (let '(_, _) := ?x in _) => destruct x
    | |- calm (if ?b then _ else _) => destruct b
    | |- calm (match ?x with _ => _ end) => destruct x
    | |- calm (modifyB _) => apply calm_modify; by intros ?
    | |- calm (logB _) => by apply calm_logged
    | _ => solve [eauto with calm]
    end.

Lemma calm_update phase message : calm (updateBackupStatus phase message).
Proof. unfold updateBackupStatus. soothe. Qed.
#[export] Hint Resolve calm_update : calm.
Lemma calm_announce phase message reason event : calm (announceB phase message reason event).
Proof. unfold announceB. soothe. Qed.
#[export] Hint Resolve calm_announce : calm.
Lemma calm_reportInvalid cause : calm (reportInvalidBackupSpec cause).
Proof. unfold reportInvalidBackupSpec. soothe. Qed.
#[export] Hint Resolve calm_reportInvalid : calm.
Lemma calm_creationFailed prefix e : calm (creationFailed prefix e).
Proof. unfold creationFailed. soothe. Qed.
Lemma calm_publish backup : calm (publishPullURI backup).
Proof. unfold publishPullURI, setReplicationPullURI. soothe. Qed.
Lemma calm_finalizers f : calm (writeBackupFinalizers f).
Proof. unfold writeBackupFinalizers. soothe. Qed.
Lemma calm_account backup : calm (ensureBackupServiceAccount backup).
Proof. unfold ensureBackupServiceAccount. soothe. Qed.
Lemma calm_preflight backup cluster : calm (applyShardedPreflight backup cluster).
Proof. unfold applyShardedPreflight. soothe. Qed.
Lemma calm_glob backup : calm (shardedPreflightGlobSafety backup).
Proof. unfold shardedPreflightGlobSafety, shardedLogicalNameForBackup. soothe. Qed.
Lemma calm_expected backup : calm (expectedShardArtifactsForBackup backup).
Proof. unfold expectedShardArtifactsForBackup. soothe. Qed.
Lemma calm_lastBackup backup run : calm (updateShardedDBLastBackup backup run).
Proof. unfold updateShardedDBLastBackup. soothe. Qed.
#[export] Hint Resolve calm_creationFailed calm_publish calm_finalizers calm_account calm_preflight calm_glob calm_expected calm_lastBackup : calm.
Lemma calm_emit warnings : calm (emitB warnings).
Proof. induction warnings as [|[reason message] rest IH]; cbn [emitB]; soothe. Qed.
#[export] Hint Resolve calm_emit : calm.
Lemma calm_record backup job : calm (recordOneShotBackupRun backup job).
Proof. unfold recordOneShotBackupRun. soothe. Qed.
Lemma calm_jobs_list sel : calm (listJobs sel).
Proof. apply calm_list. Qed.
#[export] Hint Resolve calm_record calm_jobs_list : calm.
Lemma calm_history backup : calm (reconcileScheduledHistory backup).
Proof. unfold reconcileScheduledHistory. soothe. Qed.
Lemma calm_parent backup : calm (validateChainParent backup).
Proof. unfold validateChainParent. soothe. Qed.
Lemma calm_chain backup : calm (waitForChainConcurrencyClear backup).
Proof. unfold waitForChainConcurrencyClear. soothe. Qed.
Lemma calm_standalone : calm isStandaloneTarget.
Proof. unfold isStandaloneTarget. soothe. Qed.
#[export] Hint Resolve calm_history calm_parent calm_chain calm_standalone : calm.
Lemma calm_command backup cluster : calm (backupCommandB backup cluster).
Proof. unfold backupCommandB. soothe. Qed.
Lemma calm_target backup : calm (getTargetCluster backup).
Proof. unfold getTargetCluster. soothe. Qed.
Lemma calm_done backup : calm (oneTimeBackupDone backup).
Proof. unfold oneTimeBackupDone. soothe. Qed.
Lemma calm_strip backup name claim : calm (stripBackupPVCOwnerRef backup name claim).
Proof. unfold stripBackupPVCOwnerRef. soothe. Qed.
#[export] Hint Resolve calm_command calm_target calm_done calm_strip : calm.

(** * Every action of a pass *)

Section Actions.
Context (backup : Neo4jBackup) (w0 : BackupWorld).

Definition targetSeen (cluster : BackupTarget) : Prop :=
  bw_cluster w0 = Some cluster \/ exists s, bw_standalone w0 = Some s /\ cluster = standaloneAsTarget s.

(** The target serves and its version is supported. *)
Definition usableTarget (cluster : BackupTarget) : Prop :=
  targetSeen cluster /\ validateTargetVersion cluster = None /\ isClusterReady cluster = true.

(** The spec was validated, and the backup is neither deleted nor suspended. *)
Definition accepted : Prop :=
  bk_Deleting backup = false /\ BackupFinalizer ∈ bk_Finalizers backup /\ bs_Suspend (bk_Spec backup) = false /\
  Validate (ev_parseQuantity (bw_env w0)) (ev_parseCron (bw_env w0)) (ev_isDNSSubdomain (bw_env w0)) backup = [].

(** The parent of the chain, if any, has the same target, storage type, bucket and
    path; the claim of a PVC is not compared. *)
Definition parentMatches : Prop :=
  bs_ChainFromBackup (bk_Spec backup) = EmptyString \/
  exists parent, parent ∈ bw_others w0 /\ bk_Name parent = bs_ChainFromBackup (bk_Spec backup) /\
    let ps := bk_Spec parent in let bs := bk_Spec backup in
    (Scope ps = Scope bs /\ strings.EqualFold (ScopedName ps) (ScopedName bs) = true /\ bs_InstanceRef ps = bs_InstanceRef bs) /\
    sl_Type (bs_Storage ps) = sl_Type (bs_Storage bs) /\ sl_Bucket (bs_Storage ps) = sl_Bucket (bs_Storage bs) /\ sl_Path (bs_Storage ps) = sl_Path (bs_Storage bs).

Definition chainIdle : Prop :=
  forall j, j ∈ bw_cachedJobs w0 -> matchingLabels (chainSelector backup) (bj_Labels j) = true -> bj_Active j <= 0.

(** The command of the Job or the CronJob. *)
Definition commandFor (cluster : BackupTarget) (cmd : string) : Prop :=
  exists standalone sharded, buildBackupCommand (ev_parseQuantity (bw_env w0)) backup cluster standalone sharded = Ok cmd.

(** The next call of the API server does not fail. *)
Definition callSucceeds (w : BackupWorld) : Prop := match bw_faults w with Some _ :: _ => False | _ => True end.

(** The backup has not ended, on the copy and, if the read succeeded, on the API
    server. *)
Definition notEnded : Prop :=
  bs_Schedule (bk_Spec backup) = EmptyString /\ terminalPhase backup = false /\
  (callSucceeds w0 -> bs_Schedule (bk_Spec (bw_stored w0)) <> EmptyString \/ terminalPhase (bw_stored w0) = false).

(** What each action is done for. *)
Definition justifiedB (a : backupAction) : Prop :=
  match a with
  | JobStarted name cmd image volumes =>
      accepted /\ notEnded /\ parentMatches /\ chainIdle /\ name = jobNameOf backup /\ cachedJob name w0 = None /\ serverHasJob name w0 = false /\
      volumes = buildVolumes backup /\ exists cluster, usableTarget cluster /\ image = imageOf cluster /\ commandFor cluster cmd
  | CronWritten cron =>
      accepted /\ parentMatches /\ cj_Name cron = cronNameOf backup /\ cj_Schedule cron = bs_Schedule (bk_Spec backup) /\ cj_Schedule cron <> EmptyString /\
      cj_Suspend cron = false /\ exists cluster, usableTarget cluster /\ commandFor cluster (cj_Command cron)
  | CronSuspended => bs_Suspend (bk_Spec backup) = true
  | CronRemoved => bk_Deleting backup = true \/ bs_Schedule (bk_Spec backup) = EmptyString
  | CleanupStarted name script =>
      bk_Deleting backup = true /\ exists policy, bs_Retention (bk_Spec backup) = Some policy /\ script = buildRetentionScript policy (chainRoot backup)
  | JobRemoved name =>
      bk_Deleting backup = true \/
      exists job start, cachedJob (jobNameOf backup) w0 = Some job /\ name = bj_Name job /\ jobSucceeded job = false /\ jobConditionTrue job JobFailed = false /\
        bj_StartTime job = Some start /\ backupJobStartupTimeout < bw_now w0 - start /\ (backupJobStartupState (bw_env w0) (bk_Namespace backup) name).1 = false
  | ClaimCreated name claim =>
      accepted /\ 0 < cm_Size claim /\
      (name = bk_Name backup +:+ "-temp-staging" \/
       cm_Owners claim = [] /\ exists pvc, sl_PVC (bk_Storage backup) = Some pvc /\ name = pv_Name pvc)
  | PhaseWritten _ | FinalizersSet => True
  end.

Definition around (w : BackupWorld) : Prop :=
  surroundings w = surroundings w0 /\ exists new, bw_log w = new ++ bw_log w0 /\ Forall justifiedB new.

(** Before any Job was created or deleted. *)
Definition before (w : BackupWorld) : Prop := around w /\ bw_jobs w = bw_jobs w0.

Lemma quiet_justified new : forallb quietB new = true -> Forall justifiedB new.
Proof. intros H. apply Forall_forall. intros a Ha. rewrite forallb_forall in H. apply list_elem_of_In, H in Ha. by destruct a. Qed.

Lemma around_calm w w' : calmStep w w' -> around w -> around w'.
Proof.
  intros [A _ _ (new & E & Q)] [S (old & E0 & H)]. split; [congruence|]. exists (new ++ old). rewrite E, E0, app_assoc. split; [done|].
  apply Forall_app. split; [by apply quiet_justified|done].
Qed.
Lemma before_calm w w' : calmStep w w' -> before w -> before w'.
Proof. intros H [H1 H2]. split; [by eapply around_calm|]. destruct H as [_ J _ _]. congruence. Qed.

Lemma around_logged a w : justifiedB a -> around w -> around (set_bw_log (a :: bw_log w) w).
Proof. intros Ha [S (old & E & H)]. split; [done|]. exists (a :: old). cbn. rewrite E. split; [done|by constructor]. Qed.

Definition tripleB {A} (P : BackupWorld -> Prop) (m : BW A) (Q : A -> BackupWorld -> Prop) : Prop := forall w r w', m w = (r, w') -> P w -> Q r w'.

Lemma tripleB_ret {A} P (a : A) (Q : A -> BackupWorld -> Prop) : (forall w, P w -> Q a w) -> tripleB P (mret a) Q.
Proof. intros H w r w' [= <- <-]. apply H. Qed.
Lemma tripleB_bind {A B} P (m : BW A) Q (f : A -> BW B) R : tripleB P m Q -> (forall a, tripleB (Q a) (f a) R) -> tripleB P (m ≫= f) R.
Proof. intros Hm Hf w r w'. unfold mbind, BW_bind. destruct (m w) as [a w1] eqn:E. intros H HP. by apply (Hf a w1), (Hm w). Qed.
Lemma tripleB_weaken {A} (P : BackupWorld -> Prop) (m : BW A) (Q Q' : A -> BackupWorld -> Prop) :
  tripleB P m Q' -> (forall a w, Q' a w -> Q a w) -> tripleB P m Q.
Proof. intros H HQ w r w' E Hw. by apply HQ, (H w r w' E). Qed.

Lemma tripleB_given {A} (P : BackupWorld -> Prop) (phi : Prop) (m : BW A) Q : (phi -> tripleB P m Q) -> tripleB (fun w => P w /\ phi) m Q.
Proof. intros H w r w' E [HP Hphi]. by apply (H Hphi w). Qed.

Lemma calm_around_triple {A} (m : BW A) : calm m -> tripleB around m (fun _ => around).
Proof. intros H w r w' E. apply around_calm. by apply (H w r). Qed.
Lemma calm_before_triple {A} (m : BW A) : calm m -> tripleB before m (fun _ => before).
Proof. intros H w r w' E. apply before_calm. by apply (H w r). Qed.

Lemma before_around {A} (m : BW A) : tripleB before m (fun _ => before) -> tripleB before m (fun _ => around).
Proof. intros H. eapply tripleB_weaken; [exact H|by intros ? ? []]. Qed.

(** ** Reads *)

Lemma read_seen {A} (f : BackupWorld -> option A) :
  (forall w, surroundings w = surroundings w0 -> f w = f w0) ->
  tripleB before (readB f) (fun r w => before w /\ match r with Found a => f w0 = Some a | NotFound => f w0 = None | GetFailed _ => True end).
Proof.
  intros Hf w r w' E Hb. split; [by apply (calm_before_triple (readB f) (calm_read f) w r w')|].
  unfold readB, mbind, BW_bind, apiB, getsB in E. destruct Hb as [[Hs _] _]. pose proof (Hf _ Hs) as Ef.
  destruct (bw_faults w) as [|[e|] rest]; injection E as <- <-; cbn; try done.
  - rewrite Ef. by destruct (f w0).
  - rewrite (Hf (set_bw_faults rest w) Hs). by destruct (f w0).
Qed.

Lemma jobs_listed sel :
  tripleB before (listJobs sel) (fun r w => before w /\ forall jobs, r = Ok jobs -> jobs = List.filter (fun j => matchingLabels sel (bj_Labels j)) (bw_cachedJobs w0)).
Proof.
  intros w r w' E Hb. split; [by apply (calm_before_triple _ (calm_jobs_list sel) w r w')|].
  unfold listJobs, listB, mbind, BW_bind, apiB, getsB in E. destruct Hb as [[Hs _] _]. injection Hs as _ _ _ _ _ Hs.
  destruct (bw_faults w) as [|[e|] rest]; injection E as <- <-; cbn; intros jobs [= <-]; by rewrite <- Hs.
Qed.

Lemma chain_seen : tripleB before (waitForChainConcurrencyClear backup) (fun r w => before w /\ (r = None -> chainIdle)).
Proof.
  unfold waitForChainConcurrencyClear. apply (tripleB_bind _ _ _ _ _ (jobs_listed _)). intros [jobs|e]; apply tripleB_ret; intros w [Hb Hj]; (split; [done|]); [|done].
  rewrite (Hj jobs eq_refl). destruct (List.find _ _) as [j|] eqn:E; [done|]. intros _ j Hin Hm.
  pose proof (List.find_none _ _ E j) as Hn. cbn in Hn. apply Z.ltb_ge, Hn, filter_In. split; [by apply list_elem_of_In|done].
Qed.

Lemma chainParent_same parent : chainParentError backup parent = None ->
  let ps := bk_Spec parent in let bs := bk_Spec backup in
  (Scope ps = Scope bs /\ strings.EqualFold (ScopedName ps) (ScopedName bs) = true /\ bs_InstanceRef ps = bs_InstanceRef bs) /\
  sl_Type (bs_Storage ps) = sl_Type (bs_Storage bs) /\ sl_Bucket (bs_Storage ps) = sl_Bucket (bs_Storage bs) /\ sl_Path (bs_Storage ps) = sl_Path (bs_Storage bs).
Proof.
  unfold chainParentError. cbv zeta. destruct (_ || _ || _) eqn:E1; [done|]. destruct (_ || _ || negb (String.eqb (sl_Path _) _)) eqn:E2; [done|]. intros _.
  apply orb_false_iff in E1 as [[A1%negb_false_iff%String.eqb_eq A2%negb_false_iff]%orb_false_iff A3%negb_false_iff%String.eqb_eq].
  apply orb_false_iff in E2 as [[B1%negb_false_iff%String.eqb_eq B2%negb_false_iff%String.eqb_eq]%orb_false_iff B3%negb_false_iff%String.eqb_eq]. done.
Qed.

Lemma parent_seen : tripleB before (validateChainParent backup) (fun r w => before w /\ (r = None -> parentMatches)).
Proof.
  unfold validateChainParent, parentMatches. cbv zeta. destruct (String.eqb_spec (bs_ChainFromBackup (bk_Spec backup)) EmptyString) as [E|E].
  { apply tripleB_ret. intros w ?. split; [done|]. by left. }
  eapply tripleB_bind; [apply read_seen; intros w [= _ _ -> _ _ _]; reflexivity|]. intros [parent| |e]; apply tripleB_ret; intros w [Hb Hf]; (split; [done|]); try done.
  destruct (chainParentError backup parent) eqn:Ec; [done|]. intros _. right. apply List.find_some in Hf as [Hin En%String.eqb_eq]. exists parent.
  split; [by apply list_elem_of_In|]. split; [done|]. by apply chainParent_same.
Qed.

(** ** Claims *)

Lemma claim_created name path size class owners : accepted ->
  (name = bk_Name backup +:+ "-temp-staging" \/ owners = [] /\ exists pvc, sl_PVC (bk_Storage backup) = Some pvc /\ name = pv_Name pvc) ->
  tripleB before (createClaim name path size class owners) (fun _ => before).
Proof.
  intros Ha Hn. unfold createClaim. eapply tripleB_bind; [apply calm_before_triple, calm_gets|]. intros env.
  destruct (parseUserQuantity _ _ _) as [q|e] eqn:Eq; [|by apply tripleB_ret].
  assert (0 < q) as Hq. { unfold parseUserQuantity in Eq. destruct (ev_parseQuantity env size) as [q'|]; [|done]. destruct (Z.leb_spec q' 0); [done|]. by injection Eq as <-. }
  eapply tripleB_bind; [apply calm_before_triple, calm_api|]. intros [f|]; [by apply tripleB_ret|]. cbv zeta.
  intros w r w' [= _ <-] [Hr Hj]. split; [|done].
  refine (around_logged _ (set_bw_claims (<[name:=mkBackupClaim q class owners]> (bw_claims w)) w) _ Hr). split_and!; [done|done|]. done.
Qed.

Lemma temp_claim : accepted -> tripleB before (ensureTempStagingPVC backup) (fun _ => before).
Proof.
  intros Ha. unfold ensureTempStagingPVC. destruct (_ ≫= _) as [temp|]; [|by apply tripleB_ret]. cbv zeta.
  eapply tripleB_bind; [apply calm_before_triple, calm_read|]. intros [c| |e]; try by apply tripleB_ret. apply claim_created; [done|by left].
Qed.

Lemma data_claim : accepted -> tripleB before (ensureBackupPVC backup) (fun _ => before).
Proof.
  intros Ha. unfold ensureBackupPVC. destruct (sl_PVC (bk_Storage backup)) as [pvc|] eqn:Ep; [|by apply tripleB_ret].
  destruct (_ || _); [by apply tripleB_ret|]. eapply tripleB_bind; [apply calm_before_triple, calm_read|]. intros [c| |e]; [|destruct (String.eqb _ _)|]; try by apply tripleB_ret.
  - apply calm_before_triple, calm_strip.
  - apply claim_created; [done|]. right. split; [done|]. by exists pvc.
Qed.

(** ** What comes before a Job or a CronJob *)

Lemma thenB_triple {A} (m : BW (option backupError)) (P : Prop) (k : BW (A + backupError)) (Q : A -> Prop) :
  tripleB before m (fun r w => before w /\ (r = None -> P)) ->
  (P -> tripleB before k (fun r w => before w /\ forall a, r = inl a -> Q a)) ->
  tripleB before (thenB m k) (fun r w => before w /\ forall a, r = inl a -> Q a).
Proof.
  intros Hm Hk. unfold thenB. eapply tripleB_bind; [exact Hm|]. intros [e|]; [apply tripleB_ret; by intros w [? _]|].
  intros w r w' E [Hb HP]. by apply (Hk (HP eq_refl) w).
Qed.

Lemma plain_triple {A} (m : BW (option A)) : tripleB before m (fun _ => before) -> tripleB before m (fun r w => before w /\ (r = None -> True)).
Proof. intros H. eapply tripleB_weaken; [exact H|done]. Qed.

Lemma wrapped_triple prefix (m : BW (option backupError)) : tripleB before m (fun _ => before) ->
  tripleB before (e ← m; mret (wrapError prefix <$> e)) (fun _ => before).
Proof. intros H. eapply tripleB_bind; [exact H|]. intros e. by apply tripleB_ret. Qed.

Lemma command_built cluster : tripleB before (backupCommandB backup cluster) (fun r w => before w /\ forall cmd, r = inl cmd -> commandFor cluster cmd).
Proof.
  unfold backupCommandB. eapply (tripleB_bind _ _ (fun env w => before w /\ env = bw_env w0)).
  { intros w r w' [= <- <-] Hb. split; [done|]. by destruct Hb as [[[= _ -> _ _ _ _] _] _]. }
  intros env. eapply (tripleB_bind _ _ (fun _ w => before w /\ env = bw_env w0)); [intros w r w' E [Hb ?]; split; [by apply (calm_before_triple _ calm_standalone w r)|done]|].
  intros standalone. eapply (tripleB_bind _ _ (fun _ w => before w /\ env = bw_env w0)).
  { intros w r w' E [Hb ?]. split; [|done]. refine (calm_before_triple _ _ w r w' E Hb). soothe. }
  intros sharded. apply tripleB_ret. intros w [Hb ->]. split; [done|]. intros cmd. destruct (buildBackupCommand _ _ _ _ _) as [c|e] eqn:E; [|done]. intros [= <-]. by eexists _, _.
Qed.

Lemma preconditions_met wait cluster : accepted -> tripleB before (backupPreconditions wait backup cluster)
  (fun r w => before w /\ forall cmd, r = inl cmd -> parentMatches /\ (wait = true -> chainIdle) /\ commandFor cluster cmd).
Proof.
  intros Ha. unfold backupPreconditions. eapply (thenB_triple _ True); [apply plain_triple, calm_before_triple, calm_glob|]. intros _.
  eapply thenB_triple; [apply parent_seen|]. intros Hp.
  apply (thenB_triple _ (wait = true -> chainIdle)).
  { destruct wait; [|by apply tripleB_ret]. eapply tripleB_weaken; [apply chain_seen|]. cbn. intros r w [? H]. split; [done|]. intros Hr _. by apply H. }
  intros Hc. eapply (thenB_triple _ True); [apply plain_triple, wrapped_triple, temp_claim, Ha|]. intros _.
  eapply (thenB_triple _ True); [apply plain_triple, wrapped_triple, data_claim, Ha|]. intros _.
  eapply tripleB_weaken; [apply command_built|]. cbn. intros r w [? H]. split; [done|]. intros cmd E. split_and!; [done|done|by apply H].
Qed.

(** ** The Job and the CronJob *)

Lemma job_justified cluster : accepted -> notEnded -> usableTarget cluster -> cachedJob (jobNameOf backup) w0 = None ->
  tripleB before (createBackupJob backup cluster) (fun _ => around).
Proof.
  intros Ha Hn Ht Hc. unfold createBackupJob. eapply tripleB_bind; [apply preconditions_met, Ha|]. intros [cmd|e]; [|apply tripleB_ret; by intros w [[? _] _]]. cbv zeta.
  apply tripleB_given. intros Hcmd. destruct (Hcmd cmd eq_refl) as (H1 & H2 & H3).
  eapply tripleB_bind; [apply calm_before_triple, calm_api|]. intros [f|]; [apply tripleB_ret; by intros w [? _]|].
  eapply (tripleB_bind _ _ (fun there w => before w /\ there = serverHasJob (jobNameOf backup) w0)).
  { intros w r w' [= <- <-] [Hr Hj]. split; [done|]. unfold serverHasJob. by rewrite Hj. }
  intros []; [|].
  - eapply (tripleB_bind _ _ (fun _ => around)); [|intros ?; apply tripleB_ret; by intros]. intros w r w' E [[Hr _] _]. by apply (calm_around_triple _ (calm_read (cachedJob (jobNameOf backup))) w r).
  - intros w r w' [= _ <-] [[Hr Hj] Hs]. refine (around_logged _ (set_bw_jobs _ w) _ Hr). cbn [justifiedB].
    refine (conj Ha (conj Hn (conj H1 (conj (H2 eq_refl) (conj eq_refl (conj Hc (conj (eq_sym Hs) (conj eq_refl _)))))))). exists cluster. by split_and!.
Qed.

Lemma cron_justified cluster : accepted -> usableTarget cluster -> bs_Schedule (bk_Spec backup) <> EmptyString ->
  tripleB before (createBackupCronJob backup cluster) (fun _ => around).
Proof.
  intros Ha Ht Hs. unfold createBackupCronJob. eapply tripleB_bind; [apply preconditions_met, Ha|]. intros [cmd|e]; [|apply tripleB_ret; by intros w [[? _] _]].
  apply tripleB_given. intros Hcmd. destruct (Hcmd cmd eq_refl) as (H1 & _ & H3).
  eapply tripleB_bind; [apply calm_before_triple, calm_api|]. intros [f|]; [apply tripleB_ret; by intros w [? _]|]. cbv zeta.
  intros w r w' [= _ <-] [Hr Hj]. refine (around_logged _ (set_bw_cron _ w) _ Hr). cbn [justifiedB cj_Name cj_Schedule cj_Suspend cj_Command].
  refine (conj Ha (conj H1 (conj eq_refl (conj eq_refl (conj Hs (conj eq_refl _)))))). exists cluster. by split_and!.
Qed.

Lemma orphan_justified : bk_Deleting backup = true \/ bs_Schedule (bk_Spec backup) = EmptyString -> tripleB before cleanupOrphanedCronJob (fun _ => before).
Proof.
  intros H. unfold cleanupOrphanedCronJob. eapply tripleB_bind; [apply calm_before_triple, calm_read|]. intros [c| |e]; try by apply tripleB_ret.
  eapply tripleB_bind; [apply calm_before_triple, calm_api|]. intros [f|]; [by apply tripleB_ret|].
  intros w r w' [= _ <-] [Hr Hj]. split; [|done]. by refine (around_logged _ (set_bw_cron _ w) _ Hr).
Qed.

Lemma suspend_justified : bs_Suspend (bk_Spec backup) = true -> tripleB before suspendBackupCronJob (fun _ => before).
Proof.
  intros H. unfold suspendBackupCronJob. eapply tripleB_bind; [apply calm_before_triple, calm_read|]. intros [c| |e]; try by apply tripleB_ret.
  destruct (cj_Suspend c); [by apply tripleB_ret|]. eapply tripleB_bind; [apply calm_before_triple, calm_api|]. intros [f|]; [by apply tripleB_ret|].
  intros w r w' [= _ <-] [Hr Hj]. split; [|done]. by refine (around_logged _ (set_bw_cron _ w) _ Hr).
Qed.

(** ** The handlers *)

Lemma removed_justified name jobs : justifiedB (JobRemoved name) -> tripleB around (_ ← modifyB (fun w => set_bw_jobs (jobs w) w); logB (JobRemoved name)) (fun _ => around).
Proof. intros H w r w' [= _ <-] Hr. by refine (around_logged _ (set_bw_jobs _ w) _ Hr). Qed.

Lemma started_late job : cachedJob (jobNameOf backup) w0 = Some job -> tripleB before (handleExistingBackupJob backup job) (fun _ => around).
Proof.
  intros Hc. unfold handleExistingBackupJob.
  eapply (tripleB_bind _ _ (fun env w => before w /\ env = bw_env w0)).
  { intros w r w' [= <- <-] Hb. split; [done|]. by destruct Hb as [[[= _ -> _ _ _ _] _] _]. }
  intros env. apply tripleB_given. intros ->. eapply (tripleB_bind _ _ (fun now w => before w /\ now = bw_now w0)).
  { intros w r w' [= <- <-] Hb. split; [done|]. by destruct Hb as [[[= -> _ _ _ _ _] _] _]. }
  intros now. apply tripleB_given. intros ->.
  destruct (jobSucceeded job) eqn:Es; [apply before_around, calm_before_triple; soothe|].
  destruct (jobConditionTrue job JobFailed) eqn:Ef; [apply before_around, calm_before_triple; soothe|].
  destruct (backupJobStartupState _ _ _) as [running diag] eqn:Er. destruct running; [apply before_around, calm_before_triple; soothe|]. cbv zeta.
  destruct (Z.ltb_spec backupJobStartupTimeout (match bj_StartTime job with Some t => bw_now w0 - t | None => 0 end)) as [Hlate|];
    [|apply before_around, calm_before_triple; soothe].
  eapply tripleB_bind; [apply before_around, calm_before_triple, calm_api|]. intros fault.
  eapply (tripleB_bind _ _ (fun _ => around)); [|intros _; apply calm_around_triple; soothe].
  destruct fault; [by apply tripleB_ret|]. apply removed_justified. right. unfold backupJobStartupTimeout, minute in Hlate.
  destruct (bj_StartTime job) as [start|] eqn:Et; [|unfold second in Hlate; lia]. exists job, start. split_and!; try done. by rewrite Er.
Qed.

Lemma onetime_justified cluster : accepted -> notEnded -> usableTarget cluster -> tripleB before (handleOneTimeBackup backup cluster) (fun _ => around).
Proof.
  intros Ha Hn Ht. unfold handleOneTimeBackup. eapply tripleB_bind; [apply orphan_justified; right; apply Hn|]. intros [e|]; [by apply tripleB_ret; intros ? []|].
  destruct (terminalPhase backup); [by apply tripleB_ret; intros ? []|]. eapply tripleB_bind; [apply calm_before_triple, calm_account|].
  intros [e|]; [by apply tripleB_ret; intros ? []|]. eapply tripleB_bind; [apply read_seen; by intros w [= _ _ _ _ _ Hw]; unfold cachedJob; rewrite Hw|].
  intros [job| |e]; [| |by apply tripleB_ret; intros ? [[] _]]; apply tripleB_given; intros Hc; [by apply started_late|].
  eapply tripleB_bind; [by apply job_justified|]. intros [name|e]; apply calm_around_triple; soothe.
Qed.

Lemma scheduled_justified cluster : accepted -> usableTarget cluster -> bs_Schedule (bk_Spec backup) <> EmptyString ->
  tripleB before (handleScheduledBackup backup cluster) (fun _ => around).
Proof.
  intros Ha Ht Hs. unfold handleScheduledBackup. eapply tripleB_bind; [apply calm_before_triple, calm_account|].
  intros [e|]; [by apply tripleB_ret; intros ? []|]. eapply tripleB_bind; [by apply cron_justified|]. intros [cron|e]; apply calm_around_triple; soothe.
Qed.

Lemma target_found : tripleB before (getTargetCluster backup) (fun r w => before w /\ forall cluster, r = Found cluster -> targetSeen cluster).
Proof.
  unfold getTargetCluster. eapply tripleB_bind; [apply read_seen; by intros w [= _ _ _ -> _ _]|]. intros r. apply tripleB_given.
  destruct r as [c| |e]; [intros Hc; apply tripleB_ret; intros w ?; split; [done|]; intros ? [= <-]; by left|intros _..];
    (eapply tripleB_bind; [apply read_seen; by intros w [= _ _ _ _ -> _]|]); intros [s| |e']; apply tripleB_ret; intros w [? Hs]; (split; [done|]); intros ? [= <-];
    right; by exists s.
Qed.

Lemma target_justified : bk_Deleting backup = false -> BackupFinalizer ∈ bk_Finalizers backup ->
  Validate (ev_parseQuantity (bw_env w0)) (ev_parseCron (bw_env w0)) (ev_isDNSSubdomain (bw_env w0)) backup = [] ->
  (bs_Schedule (bk_Spec backup) = EmptyString -> notEnded) -> tripleB before (runOnTarget backup) (fun _ => around).
Proof.
  intros Hd Hf Hv Hn. unfold runOnTarget. eapply tripleB_bind; [apply target_found|]. intros target. apply tripleB_given. intros Ht.
  destruct target as [cluster| |e]; [|apply before_around, calm_before_triple; soothe..].
  destruct (validateTargetVersion cluster) eqn:Ev; [apply before_around, calm_before_triple; soothe|].
  destruct (isClusterReady cluster) eqn:Er; cbn [negb]; [|apply before_around, calm_before_triple; soothe].
  assert (usableTarget cluster) as Hu by (split_and!; [by apply Ht|done|done]).
  destruct (bs_Suspend (bk_Spec backup)) eqn:Es.
  { eapply tripleB_bind; [by apply suspend_justified|]. intros [e|]; [by apply tripleB_ret; intros ? []|]. apply before_around, calm_before_triple; soothe. }
  assert accepted as Ha by (split_and!; done).
  eapply tripleB_bind; [apply calm_before_triple, calm_preflight|]. intros [result|]; [by apply tripleB_ret; intros ? []|].
  destruct (nonempty (bs_Schedule (bk_Spec backup))) eqn:En.
  - apply scheduled_justified; [done|done|]. by apply nonempty_spec.
  - apply onetime_justified; [done| |done]. apply Hn. unfold nonempty in En. by destruct (String.eqb_spec (bs_Schedule (bk_Spec backup)) EmptyString).
Qed.

(** ** Deletion *)

Lemma delete_justified jobs : bk_Deleting backup = true -> tripleB around (deleteJobs jobs) (fun _ => around).
Proof.
  intros Hd. induction jobs as [|job rest IH]; cbn [deleteJobs]; [by apply tripleB_ret|]. eapply tripleB_bind; [apply calm_around_triple, calm_api|].
  intros [f|]; [by apply tripleB_ret|]. eapply (tripleB_bind _ _ (fun _ => around)); [by intros w r w' [= _ <-]|]. intros _.
  eapply (tripleB_bind _ _ (fun _ => around)); [|by intros _]. intros w r w' [= _ <-] Hr. apply around_logged; [by left|done].
Qed.

Lemma deletion_justified : bk_Deleting backup = true -> tripleB around (handleBackupDeletion backup) (fun _ => around).
Proof.
  intros Hd. unfold handleBackupDeletion, cleanupBackupJobs, cleanupBackupArtifacts. destruct (bool_decide _); cbn [negb]; [|by apply tripleB_ret].
  eapply (tripleB_bind _ _ (fun _ => around)).
  - eapply tripleB_bind; [apply calm_around_triple, calm_jobs_list|]. intros [jobs|e]; [|by apply tripleB_ret].
    eapply tripleB_bind; [by apply delete_justified|]. intros [e|]; [by apply tripleB_ret|]. cbv zeta.
    eapply tripleB_bind; [apply calm_around_triple, calm_list|]. intros [[|c l]|e]; try by apply tripleB_ret.
    eapply tripleB_bind; [apply calm_around_triple, calm_api|]. intros [f|]; [by apply tripleB_ret|].
    intros w r w' [= _ <-] Hr. refine (around_logged _ (set_bw_cron _ w) _ Hr). by left.
  - intros [e|]; [by apply tripleB_ret|]. eapply (tripleB_bind _ _ (fun _ => around)).
    + destruct (bs_Retention (bk_Spec backup)) as [policy|] eqn:Ep; [|by apply tripleB_ret]. destruct (cloudScheme _); [by apply tripleB_ret|]. cbv zeta.
      eapply tripleB_bind; [apply calm_around_triple; soothe|]. intros ?. eapply tripleB_bind; [apply calm_around_triple, calm_api|]. intros [f|]; [by apply tripleB_ret|].
      eapply tripleB_bind; [apply calm_around_triple, calm_gets|]. intros []; [by apply tripleB_ret|].
      intros w r w' [= _ <-] Hr. refine (around_logged _ (set_bw_jobs _ w) _ Hr). split; [done|]. by exists policy.
    + intros [e|]; [by apply tripleB_ret|]. apply calm_around_triple. soothe.
Qed.
End Actions.

(** A one-time backup is not a replication source when its spec passes. *)
Lemma onetime_not_source env backup siblings : bs_Schedule (bk_Spec backup) = EmptyString -> backupRefusals env backup siblings = [] ->
  String.eqb (bs_Mode (bk_Spec backup)) BackupModeReplicationSource = false.
Proof.
  intros Hs. unfold backupRefusals. intros H. apply app_nil in H as [_ H]. unfold ValidateReplicationSourceMode in H. destruct (String.eqb (bs_Mode (bk_Spec backup)) BackupModeReplicationSource); [|done]. cbn [negb] in H.
  apply app_nil in H as [_ [_ [_ [_ [H _]%app_nil]%app_nil]%app_nil]%app_nil]. by rewrite Hs in H.
Qed.

Lemma ReconcileBackup_body backup w : bk_Deleting backup = false -> BackupFinalizer ∈ bk_Finalizers backup -> ReconcileBackup backup w = passBody backup w.
Proof. intros Hd Hf. unfold ReconcileBackup. rewrite Hd, bool_decide_true by done. done. Qed.

(** A backup with a schedule is never done. *)
Lemma scheduled_pass backup w0 : bk_Deleting backup = false -> BackupFinalizer ∈ bk_Finalizers backup -> bs_Schedule (bk_Spec backup) <> EmptyString ->
  tripleB (before backup w0) (passBody backup) (fun _ => around backup w0).
Proof.
  intros Hd Hf Hs. unfold passBody. eapply (tripleB_bind _ _ (fun env w => before backup w0 w /\ env = bw_env w0)).
  { intros w r w' [= <- <-] Hb. split; [done|]. by destruct Hb as [[[= _ -> _ _ _ _] _] _]. }
  intros env. apply tripleB_given. intros ->. eapply tripleB_bind; [apply calm_before_triple; soothe|]. intros siblings.
  destruct (backupRefusals _ _ _) as [|e rest] eqn:Er; [|apply before_around, calm_before_triple; soothe].
  eapply tripleB_bind; [apply calm_before_triple, calm_publish|]. intros ?. unfold oneTimeBackupDone.
  assert (nonempty (bs_Schedule (bk_Spec backup)) = true) as -> by by apply nonempty_spec.
  eapply tripleB_bind; [by apply (tripleB_ret (before backup w0) false (fun b w => before backup w0 w /\ b = false))|]. intros b. apply tripleB_given. intros ->.
  unfold backupRefusals in Er. apply app_nil in Er as [Hv _]. by apply target_justified.
Qed.

Lemma bindB_eq {A B} (m : BW A) (f : A -> BW B) w : (m ≫= f) w = let '(a, w') := m w in f a w'.
Proof. done. Qed.
Lemma bindB_gets {A B} (g : BackupWorld -> A) (f : A -> BW B) w : (getsB g ≫= f) w = f (g w) w.
Proof. done. Qed.
Lemma bindB_ret {A B} (a : A) (f : A -> BW B) w : (mret a ≫= f) w = f a w.
Proof. done. Qed.

(** A refusal is announced and ends the pass. *)
Lemma refused_calm msg w : exists w', calmStep w w' /\
  (_ ← announceB PhaseInvalid ("Invalid backup spec: " +:+ msg) EventReasonBackupFailed msg; mret PassDone) w = (PassDone, w').
Proof.
  unfold mbind, BW_bind. destruct (announceB PhaseInvalid ("Invalid backup spec: " +:+ msg) EventReasonBackupFailed msg w) as [u w'] eqn:E.
  exists w'. split; [by eapply calm_announce|done].
Qed.

(** A one-time backup that passes goes on with the world as it was. *)
Definition afterValidation (backup : Neo4jBackup) : BW passResult :=
  finished ← oneTimeBackupDone backup;
  if (finished : bool) then (e ← cleanupOrphanedCronJob; mret match e with Some e => PassError e | None => PassDone end) else runOnTarget backup.

Lemma onetime_valid backup w : bs_Schedule (bk_Spec backup) = EmptyString -> backupRefusals (bw_env w) backup [] = [] ->
  passBody backup w = afterValidation backup w.
Proof.
  intros Hs Hr. pose proof (onetime_not_source _ _ _ Hs Hr) as Em. unfold passBody, publishPullURI. rewrite bindB_gets, Em, bindB_ret. cbv beta iota zeta. rewrite Hr. done.
Qed.

Lemma onetime_pass backup w : bs_Schedule (bk_Spec backup) = EmptyString ->
  (exists w', calmStep w w' /\ passBody backup w = (PassDone, w')) \/
  backupRefusals (bw_env w) backup [] = [] /\ passBody backup w = afterValidation backup w.
Proof.
  intros Hs. destruct (backupRefusals (bw_env w) backup []) as [|e0 rest0] eqn:E0; [right; split; [done|by apply onetime_valid]|left].
  unfold passBody. rewrite bindB_gets, bindB_eq. destruct ((if String.eqb _ _ then listB bw_others else mret (Ok [])) w) as [siblings w1] eqn:El.
  assert (calmStep w w1) as Hc by (revert El; case_match; intros El; [by eapply calm_list|by eapply calm_ret]).
  destruct (backupRefusals (bw_env w) backup (match siblings with Ok l => l | Err _ => [] end)) as [|e rest] eqn:Er.
  - pose proof (onetime_not_source _ _ _ Hs Er) as Em. rewrite Em in El. injection El as <- <-. congruence.
  - destruct (refused_calm (refusalsText (e :: rest)) w1) as (w2 & Hc2 & E). exists w2. split; [by transitivity w1|exact E].
Qed.

(** What the read of the API server's copy decides. *)
Lemma done_read backup w b w' : bs_Schedule (bk_Spec backup) = EmptyString -> oneTimeBackupDone backup w = (b, w') -> b = false -> notEnded backup w.
Proof.
  intros Hs E ->. unfold oneTimeBackupDone in E. rewrite Hs in E. cbn [nonempty String.eqb negb] in E.
  destruct (terminalPhase backup) eqn:Et; [done|]. split_and!; [done|done|]. intros Hf. unfold readB, mbind, BW_bind, apiB, getsB in E. unfold callSucceeds in Hf.
  assert (negb (nonempty (bs_Schedule (bk_Spec (bw_stored w)))) && terminalPhase (bw_stored w) = false) as E' by (destruct (bw_faults w) as [|[f|] rest]; [by injection E|done|by injection E]).
  destruct (String.eqb_spec (bs_Schedule (bk_Spec (bw_stored w))) EmptyString) as [Ez|]; [right|by left].
  rewrite Ez in E'. done.
Qed.

(** C21: every action of a pass has its reason. A Job is started only for a backup
    that is not deleted, not suspended, has passed validation, has no schedule and
    has not ended, neither on the pass's copy nor, when that read succeeds, on the
    API server; its target serves and runs a supported version; a parent it chains
    from has the same scope, name, instance, storage type, bucket and path (the
    claim of a PVC is not compared); no Job of its chain is active; and no Job of
    its name exists. A CronJob is written, not suspended and with the backup's
    schedule, only for a backup that is not deleted, not suspended and has passed
    validation, with such a target and parent; it is suspended only for a suspended
    backup and removed only for a deleted one or one without a schedule. A Job is
    removed only in a deletion or when its pod did not start in time, and a prune is
    started only in a deletion. A claim the pass creates is the one for temporary
    files or the one the storage names, and the latter is created without an owner.
    *)
Theorem backup_actions_justified (backup : Neo4jBackup) (w : BackupWorld) :
  exists new, bw_log (ReconcileBackup backup w).2 = new ++ bw_log w /\ Forall (justifiedB backup w) new.
Proof.
  assert (around backup w w) as H0 by (split; [done|]; by exists []). assert (before backup w w) as Hb by done.
  cut (around backup w (ReconcileBackup backup w).2); [by intros [_ H]|]. destruct (bk_Deleting backup) eqn:Ed.
  { unfold ReconcileBackup. rewrite Ed. destruct (handleBackupDeletion backup w) as [r w'] eqn:E. by apply (deletion_justified backup w Ed w r). }
  destruct (decide (BackupFinalizer ∈ bk_Finalizers backup)) as [Hf|Hf].
  2: { unfold ReconcileBackup. rewrite Ed, bool_decide_false by done. cbn [negb]. refine (around_calm backup w _ _ _ H0). eapply (calm_bind _ _ (calm_finalizers _)); [intros ?; apply calm_ret|apply surjective_pairing]. }
  rewrite (ReconcileBackup_body backup w Ed Hf). destruct (passBody backup w) as [r w'] eqn:E.
  destruct (decide (bs_Schedule (bk_Spec backup) = EmptyString)) as [Hs|Hs]; [|by apply (scheduled_pass backup w Ed Hf Hs w r)].
  destruct (onetime_pass backup w Hs) as [(w2 & Hc & E2)|[Hr E2]]; rewrite E in E2; [injection E2 as _ ->; by eapply around_calm|].
  unfold afterValidation in E2. rewrite bindB_eq in E2. destruct (oneTimeBackupDone backup w) as [b w1] eqn:Eo.
  assert (before backup w w1) as Hb1 by (eapply before_calm; [by eapply calm_done|done]). symmetry in E2. destruct b.
  - refine (tripleB_bind _ _ _ _ (fun _ => around backup w) (orphan_justified backup w _) _ w1 r w' E2 Hb1); [by right|]. intros e. by apply tripleB_ret; intros ? [].
  - unfold backupRefusals in Hr. apply app_nil in Hr as [Hv _]. refine (target_justified backup w Ed Hf Hv _ w1 r w' E2 Hb1). intros _. by eapply done_read.
Qed.
