(* ===== verification/BackupEnd.v ===== *)
(** How a backup ends: a one-time backup that is Completed or Failed stays so, a
    Completed one has its run in the history, and a deleted one is released after
    its Jobs are gone. Then the passes in which this does not hold: an edit that is
    refused, a history that cannot be written, a cache that lags behind, and an API
    server that fails once. *)
From S2P Require Import Prelude GoStrings GoRegexp GoTime GoRFC3339 ClusterTypes Conditions UpgradeRecord Version UpgradeRules UpgradeMachine Availability TargetWait Storage BackupTypes RestoreTypes RestoreCommand RestoreWorld BackupLog BackupArtifact BackupCommand BackupHistory BackupRules BackupWorld BackupPass BackupSafety.

Open Scope Z_scope.

(** * A backup that has ended *)

(** The cleanup of a CronJob leaves the backup and the Jobs. *)
Lemma orphan_keeps w e w' : cleanupOrphanedCronJob w = (e, w') -> bw_stored w' = bw_stored w /\ bw_jobs w' = bw_jobs w /\ bw_claims w' = bw_claims w.
Proof.
  unfold cleanupOrphanedCronJob, readB, mbind, BW_bind, apiB, getsB, modifyB, logB. cbn.
  destruct (bw_faults w) as [|[f|] rest] eqn:Ef; cbn; [| by intros [= _ <-] |]; destruct (bw_cron w) as [c|] eqn:Ec; cbn; rewrite ?Ef, ?Ec; cbn; try (by intros [= _ <-]).
  destruct rest as [|[g|] rest]; by intros [= _ <-].
Qed.

(** C22: a one-time backup that has ended stays as it ended, whatever became of its
    Job and its target. It is Completed or Failed on the pass's copy, or on the API
    server while the copy lags behind and the uncached read of it succeeds (with a
    lagging copy and a failing read the pass cannot know). It is not being deleted,
    has its finalizer and its spec is valid. Then a pass writes neither its status
    nor its history and starts or removes no Job or claim; only a CronJob left from
    a schedule goes. *)
Theorem ended_backup_stays (backup : Neo4jBackup) (w : BackupWorld)
    (Hd : bk_Deleting backup = false) (Hf : BackupFinalizer ∈ bk_Finalizers backup) (Hs : bs_Schedule (bk_Spec backup) = EmptyString)
    (Hv : backupRefusals (bw_env w) backup [] = [])
    (He : terminalPhase backup = true \/ callSucceeds w /\ bs_Schedule (bk_Spec (bw_stored w)) = EmptyString /\ terminalPhase (bw_stored w) = true) :
  let w' := (ReconcileBackup backup w).2 in
  bw_stored w' = bw_stored w /\ bw_jobs w' = bw_jobs w /\ bw_claims w' = bw_claims w.
Proof.
  cbv zeta. rewrite (ReconcileBackup_body backup w Hd Hf).
  assert (exists w1, oneTimeBackupDone backup w = (true, w1) /\ bw_stored w1 = bw_stored w /\ bw_jobs w1 = bw_jobs w /\ bw_claims w1 = bw_claims w) as (w1 & E1 & S1 & J1 & C1).
  { unfold oneTimeBackupDone. rewrite Hs. cbn [nonempty String.eqb negb]. destruct (terminalPhase backup); [by exists w|].
    destruct He as [He|(Ef & Es & Et)]; [done|]. unfold readB, mbind, BW_bind, apiB, getsB. unfold callSucceeds in Ef. destruct (bw_faults w) as [|[f|] rest]; [|done|]; (eexists; split; [cbn; by rewrite Es, Et|done]). }
  rewrite (onetime_valid backup w Hs Hv). unfold afterValidation. rewrite bindB_eq, E1, bindB_eq.
  destruct (cleanupOrphanedCronJob w1) as [e w2] eqn:E2. destruct (orphan_keeps _ _ _ E2) as (S2 & J2 & C2). cbn. split_and!; congruence.
Qed.

(** * Concrete worlds *)

Definition quietEnv : BackupEnv :=
  mkBackupEnv (fun _ => Ok []) (fun _ => NotFound) (fun _ => "Backup job failed") None (Ok []) (fun _ => None) (fun _ => None) (fun _ => []).

Definition claimStorage : StorageLocation := mkStorageLocation "pvc" EmptyString EmptyString (Some (mkPVCSpec "backups" EmptyString EmptyString)) None.

(** A one-time backup of one database, in a phase. *)
Definition onceBackup (storage : StorageLocation) (phase : string) (history : list BackupRun) : Neo4jBackup :=
  mkNeo4jBackup "first" "ns" "uid-1" 1 [BackupFinalizer] false
    (mkNeo4jBackupSpec "c" "orders" false EmptyString storage EmptyString EmptyString None None false EmptyString)
    (mkNeo4jBackupStatus [] phase EmptyString None None None EmptyString history 1).

Definition readyTarget : BackupTarget := mkBackupTarget "c" "ns" "neo4j" "2026.01.0-enterprise" 3 false "Ready" [].

Definition worldOf (env : BackupEnv) (stored : Neo4jBackup) (attempts : list (writeAttempt Neo4jBackup)) (jobs cached : list BackupJob) (faults : list (option apiFault)) : BackupWorld :=
  mkBackupWorld (60 * minute) env stored attempts [] (Some readyTarget) None [] jobs cached None ∅ ∅ faults [] [].

(** The copy is from before the run ended, and the Job is gone. *)
Lemma ended_backup_stays_witness :
  let copy := onceBackup claimStorage PhaseRunning [] in
  let w := worldOf quietEnv (onceBackup claimStorage PhaseCompleted []) [] [] [] [] in
  bw_stored (ReconcileBackup copy w).2 = bw_stored w /\ bw_jobs (ReconcileBackup copy w).2 = [].
Proof.
  intros copy w. destruct (ended_backup_stays copy w eq_refl ltac:(by left) eq_refl ltac:(vm_compute; reflexivity) ltac:(right; vm_compute; done)) as (H1 & H2 & _).
  split; [exact H1|exact H2].
Defined.

(** * The run of a Completed backup *)

Lemma retry_first {A} n (f : Neo4jBackup -> option Neo4jBackup * A) w : bw_attempts w = [] ->
  retryB (S n) f w = match f (bw_stored w) with (None, v) => (inl v, w) | (Some latest, v) => (inl v, set_bw_stored latest w) end.
Proof. intros Ha. cbn [retryB]. unfold nextAttemptB. rewrite Ha. done. Qed.

(** A step that leaves the backup and the outcomes of its writes. *)
Definition leavesBackup {A} (m : BW A) : Prop := forall w r w', m w = (r, w') -> bw_stored w' = bw_stored w /\ bw_attempts w' = bw_attempts w /\ bw_env w' = bw_env w /\ bw_now w' = bw_now w.

Lemma leavesB_ret {A} (a : A) : leavesBackup (mret a).
Proof. by intros w r w' [= _ <-]. Qed.
Lemma leavesB_bind {A B} (m : BW A) (f : A -> BW B) : leavesBackup m -> (forall a, leavesBackup (f a)) -> leavesBackup (m ≫= f).
Proof.
  intros Hm Hf w r w'. rewrite bindB_eq. destruct (m w) as [a w1] eqn:E. intros H. destruct (Hm _ _ _ E) as (?&?&?&?), (Hf _ _ _ _ H) as (?&?&?&?). split_and!; congruence.
Qed.
Lemma leaves_read {A} (f : BackupWorld -> option A) : leavesBackup (readB f).
Proof. intros w r w'. unfold readB, mbind, BW_bind, apiB, getsB. destruct (bw_faults w); by intros [= _ <-]. Qed.
Lemma leaves_expected backup : leavesBackup (expectedShardArtifactsForBackup backup).
Proof. unfold expectedShardArtifactsForBackup. destruct (negb _); [apply leavesB_ret|]. apply leavesB_bind; [apply leaves_read|intros ?; apply leavesB_ret]. Qed.
Lemma leaves_emit ws : leavesBackup (emitB ws).
Proof. induction ws as [|[reason message] ws IH]; cbn [emitB]; [apply leavesB_ret|]. apply leavesB_bind; [by intros w r w' [= _ <-]|by intros ?]. Qed.
Lemma leaves_lastBackup backup run : leavesBackup (updateShardedDBLastBackup backup run).
Proof.
  unfold updateShardedDBLastBackup. destruct (_ || _); [apply leavesB_ret|]. apply leavesB_bind.
  - intros w r w'. unfold apiB. destruct (bw_faults w); by intros [= _ <-].
  - intros [f|]; [apply leavesB_ret|by intros w r w' [= _ <-]].
Qed.

(** The run of a Job in the history. When the history has a run under the Job's name
    or UID already, whatever that run says, it stays as it is; else the run of the
    Job comes first in it, Succeeded, in the chain's directory and, unless its pod is
    gone or the grace is over, with the names a restore needs. *)
Definition runInHistory (now : Z) (env : BackupEnv) (backup : Neo4jBackup) (job : BackupJob) (old new : list BackupRun) : Prop :=
  exists run, br_RunID run = bj_Name job /\
    if backupRunAlreadyRecorded old run (bj_UID job) then new = old
    else new = take historyCap (run :: old) /\ br_Status run = "Succeeded" /\ br_BackupsPath run = chainRoot backup /\
      (artifactsMissing backup run = true -> backupPodExists env (bj_Name job) = false \/
         forall t, jobFinishedAt job = Some t -> artifactCaptureGrace <= now - t).

Lemma recorded_in_history backup job w w' : jobSucceeded job = true -> bw_attempts w = [] -> recordOneShotBackupRun backup job w = (true, w') ->
  runInHistory (bw_now w) (bw_env w) backup job (bk_History (bw_stored w)) (bk_History (bw_stored w')) /\ bw_attempts w' = [].
Proof.
  intros Hs Ha. unfold recordOneShotBackupRun. destruct (jobToBackupRun job (chainRoot backup)) as [run0 ended] eqn:Ej.
  assert (ended = true /\ br_Status run0 = "Succeeded") as [-> Est] by (revert Ej; unfold jobToBackupRun; rewrite Hs; by intros [= <- <-]).
  destruct (ended_status _ _ _ Ej) as (Eid & Epath & _ & _). cbn [negb]. rewrite !bindB_gets, Est. change (String.eqb "Succeeded" "Failed") with false. cbv beta iota zeta.
  rewrite bindB_eq. destruct (expectedShardArtifactsForBackup backup w) as [e1 w1] eqn:E1. destruct (leaves_expected _ _ _ _ E1) as (S1 & A1 & _).
  rewrite bindB_eq. destruct (expectedShardArtifactsForBackup backup w1) as [e2 w2] eqn:E2. destruct (leaves_expected _ _ _ _ E2) as (S2 & A2 & _).
  set (log := if wantsLog backup e1 then _ else _). pose proof (describeRun_same backup e2 log run0) as (I1 & _ & _ & I4 & _ & _ & I7).
  destruct (describeRun backup e2 log run0) as [run ws]. cbn [fst] in *. cbv beta iota.
  destruct (deferRecord (bw_now w) (bw_env w) backup job run) eqn:Ed; [done|]. unfold backoffSteps. rewrite bindB_eq, retry_first by congruence.
  assert (forall x, leavesBackup (_ ← match x : bool + string with inl true => emitB (emittedWarnings ws None) | _ => mret tt end; _ ← updateShardedDBLastBackup backup run; mret true)) as Hend.
  { intros x. apply leavesB_bind; [destruct x as [[]|]; [apply leaves_emit|apply leavesB_ret..]|intros ?]. apply leavesB_bind; [apply leaves_lastBackup|intros ?; apply leavesB_ret]. }
  assert (artifactsMissing backup run = true -> backupPodExists (bw_env w) (bj_Name job) = false \/ forall t, jobFinishedAt job = Some t -> artifactCaptureGrace <= bw_now w - t) as Hmiss.
  { intros Hm. unfold deferRecord, succeededRun in Ed. rewrite I4, Est, Hm, String.eqb_refl in Ed. cbn [andb] in Ed.
    destruct (backupPodExists (bw_env w) (bj_Name job)); [right|by left]. intros t Et. rewrite Et in Ed. by apply Z.ltb_ge in Ed. }
  unfold oneShotBody. destruct (backupRunAlreadyRecorded _ _ _) eqn:Er; intros H.
  - destruct (Hend (inl false) _ _ _ H) as (S3 & A3 & _). split; [|congruence]. exists run. rewrite S3. rewrite S2, S1 in *. rewrite Er. split; [congruence|done].
  - destruct (Hend (inl true) _ _ _ H) as (S3 & A3 & _). split; [|rewrite A3; cbn; congruence]. exists run. rewrite S3. rewrite S2, S1 in *. rewrite Er. split_and!; [congruence|done|congruence|congruence|done].
Qed.

(** A record that is deferred writes nothing. *)
Lemma deferred_attempts backup job w w' : recordOneShotBackupRun backup job w = (false, w') -> bw_attempts w = [] -> bw_attempts w' = [].
Proof.
  unfold recordOneShotBackupRun. destruct (jobToBackupRun _ _) as [run0 ended]. destruct ended; cbn [negb]; [|done]. rewrite !bindB_gets, bindB_eq.
  destruct (expectedShardArtifactsForBackup backup w) as [e1 w1] eqn:E1. destruct (leaves_expected _ _ _ _ E1) as (_ & A1 & _). rewrite bindB_eq.
  destruct (expectedShardArtifactsForBackup backup w1) as [e2 w2] eqn:E2. destruct (leaves_expected _ _ _ _ E2) as (_ & A2 & _).
  destruct (describeRun _ _ _ _) as [run ws]. destruct (deferRecord _ _ _ _ _); [intros [= <-]; congruence|]. rewrite bindB_eq. destruct (retryB _ _ _) as [x w3]. rewrite bindB_eq.
  match goal with |- context [let '(_, _) := ?m w3 in _] => destruct (m w3) as [u w4] end. rewrite bindB_eq. destruct (updateShardedDBLastBackup backup run w4). done.
Qed.

Lemma status_written phase message w r w' : updateBackupStatus phase message w = (r, w') -> bw_attempts w = [] ->
  bk_Phase (bw_stored w') = phase /\ bk_History (bw_stored w') = bk_History (bw_stored w).
Proof.
  unfold updateBackupStatus. rewrite bindB_gets, bindB_eq. intros E Ha. unfold backoffSteps in E. rewrite retry_first in E by done. unfold backupStatusBody in E.
  destruct (PhaseToConditionStatus phase) as [cs cr]. destruct (SetReadyCondition _ _ _ _ _ _) as [conds c]. cbv zeta in E. case_bool_decide as Hst; injection E as _ <-; [|done].
  split; [|done]. unfold bk_Phase. cbn. by rewrite Hst.
Qed.

(** C23: a one-time backup becomes Completed with its run in the history, where a
    restore finds it. When the writes of the backup go through, the pass that finds
    the Job done either waits for the names in the pod's log, Running, or makes the
    backup Completed. In that case the run of the Job is the first of the history,
    Succeeded, with the names a restore needs unless the pod is gone or the Job
    ended too long ago; only when the history already had a run of the Job's name or
    UID, which the code takes to be this one whatever its status, is the history as
    it was. *)
Theorem completed_has_run (backup : Neo4jBackup) (job : BackupJob) (w : BackupWorld) (Hs : jobSucceeded job = true) (Ha : bw_attempts w = []) :
  let '(r, w') := handleExistingBackupJob backup job w in
  r = PassRequeue /\ bk_Phase (bw_stored w') = PhaseRunning \/
  r = PassDone /\ bk_Phase (bw_stored w') = PhaseCompleted /\
    runInHistory (bw_now w) (bw_env w) backup job (bk_History (bw_stored w)) (bk_History (bw_stored w')).
Proof.
  unfold handleExistingBackupJob. rewrite !bindB_gets, Hs, bindB_eq. destruct (recordOneShotBackupRun backup job w) as [b w1] eqn:Er. destruct b; cbn [negb].
  - destruct (recorded_in_history _ _ _ _ Hs Ha Er) as [Hh Ha1]. unfold announceB. rewrite !bindB_eq.
    destruct (updateBackupStatus PhaseCompleted "Backup completed successfully" w1) as [[] w2] eqn:Eu; destruct (status_written _ _ _ _ _ Eu Ha1) as [Hp Hk]; cbn; right; rewrite Hk; done.
  - rewrite bindB_eq. match goal with |- context [updateBackupStatus ?p ?m w1] => destruct (updateBackupStatus p m w1) as [c w2] eqn:Eu end. cbn. left. split; [done|].
    refine (proj1 (status_written _ _ _ _ _ Eu _)). by eapply deferred_attempts.
Qed.

(** A Job that succeeded, and the log of its pod. *)
Definition doneJob : BackupJob := demoJob "first-backup" 58 JobComplete.
Definition loggedEnv : BackupEnv :=
  mkBackupEnv (fun _ => Ok [mkBackupPod "pod-1" "Succeeded" [] []])
    (fun _ => Found "Backup command completed. Artifact created: /backup/first/orders-2026-02-03T10-20-30.backup")
    (fun _ => "Backup job failed") None (Ok []) (fun _ => None) (fun _ => None) (fun _ => []).

Lemma completed_has_run_witness :
  let backup := onceBackup claimStorage PhaseRunning [] in
  let w := worldOf loggedEnv backup [] [doneJob] [doneJob] [] in
  let '(r, w') := handleExistingBackupJob backup doneJob w in
  r = PassRequeue /\ bk_Phase (bw_stored w') = PhaseRunning \/
  r = PassDone /\ bk_Phase (bw_stored w') = PhaseCompleted /\
    runInHistory (bw_now w) (bw_env w) backup doneJob (bk_History (bw_stored w)) (bk_History (bw_stored w')).
Proof. intros backup w. apply (completed_has_run backup doneJob w); reflexivity. Defined.

(** * Deletion *)

(** A Job that was removed is not on the server, and stays gone. *)
Definition goneJobs (names : list string) (w : BackupWorld) : Prop :=
  Forall (fun n => JobRemoved n ∈ bw_log w /\ serverHasJob n w = false) names.

Lemma gone_filter n m w : serverHasJob n w = false ->
  serverHasJob n (set_bw_jobs (List.filter (fun j => negb (String.eqb (bj_Name j) m)) (bw_jobs w)) w) = false.
Proof.
  unfold serverHasJob. cbn. rewrite <- !not_true_iff_false, !existsb_exists. intros H (j & [Hj _]%filter_In & E). apply H. by exists j.
Qed.

Lemma deleteJobs_spec jobs : forall w e w' names, deleteJobs jobs w = (e, w') -> goneJobs names w ->
  bw_stored w' = bw_stored w /\ bw_cachedJobs w' = bw_cachedJobs w /\ bw_cron w' = bw_cron w /\ (e = None -> goneJobs (names ++ (bj_Name <$> jobs)) w').
Proof.
  induction jobs as [|job rest IH]; intros w e w' names; cbn [deleteJobs].
  { intros [= <- <-] H. split_and!; [done..|]. by rewrite app_nil_r. }
  rewrite bindB_eq. destruct (apiB w) as [fault w1] eqn:Ea.
  assert (bw_stored w1 = bw_stored w /\ bw_jobs w1 = bw_jobs w /\ bw_cachedJobs w1 = bw_cachedJobs w /\ bw_cron w1 = bw_cron w /\ bw_log w1 = bw_log w) as (S1 & J1 & C1 & R1 & L1)
    by (revert Ea; unfold apiB; destruct (bw_faults w); by intros [= _ <-]).
  destruct fault as [f|]; [intros [= <- <-] _; split_and!; done|]. rewrite !bindB_eq. intros E Hn.
  destruct (IH _ _ _ (names ++ [bj_Name job]) E) as (S2 & C2 & R2 & G2).
  - apply Forall_app. split; [eapply Forall_impl; [exact Hn|]; cbn|apply Forall_singleton; cbn].
    + intros n [Hl Hs]. rewrite L1. split; [by right|]. apply (gone_filter n (bj_Name job) w1). unfold serverHasJob in *. by rewrite J1.
    + split; [by left|]. unfold serverHasJob. cbn. apply not_true_iff_false. rewrite existsb_exists. intros (j & [_ Hj]%filter_In & E'). by rewrite E' in Hj.
  - cbn in *. split_and!; [congruence..|]. intros ->. rewrite <- app_assoc in G2. by apply G2.
Qed.

(** What a call changes besides the outcomes of the coming ones. *)
Lemma api_keeps w f w' : apiB w = (f, w') -> bw_stored w' = bw_stored w /\ bw_jobs w' = bw_jobs w /\ bw_cachedJobs w' = bw_cachedJobs w /\ bw_cron w' = bw_cron w /\ bw_log w' = bw_log w.
Proof. unfold apiB. destruct (bw_faults w); by intros [= _ <-]. Qed.

Definition jobsLeft (backup : Neo4jBackup) (w w' : BackupWorld) : Prop :=
  forall j, j ∈ bw_cachedJobs w -> matchingLabels [("app.kubernetes.io/instance", bk_Name backup); ("app.kubernetes.io/component", "backup")] (bj_Labels j) = true ->
    JobRemoved (bj_Name j) ∈ bw_log w' /\ (bj_Name j <> cleanupJobNameFor backup -> serverHasJob (bj_Name j) w' = false).

Definition cronLeft (backup : Neo4jBackup) (w' : BackupWorld) : Prop :=
  forall c, bw_cron w' = Some c -> matchingLabels [("app.kubernetes.io/instance", bk_Name backup); ("app.kubernetes.io/component", "backup-cron")] (cj_Labels c) = false.

Lemma cleanup_jobs backup w e w' : cleanupBackupJobs backup w = (e, w') ->
  bw_stored w' = bw_stored w /\ (e = None -> jobsLeft backup w w' /\ cronLeft backup w').
Proof.
  unfold cleanupBackupJobs, listJobs, listB. rewrite !bindB_eq. destruct (apiB w) as [f w1] eqn:E1. destruct (api_keeps _ _ _ E1) as (S1 & J1 & C1 & R1 & L1).
  rewrite bindB_gets. unfold mret at 1, BW_ret at 1. cbv beta iota. destruct f as [f|]; [by intros [= <- <-]|]. rewrite bindB_eq.
  destruct (deleteJobs _ w1) as [e2 w2] eqn:E2. destruct (deleteJobs_spec _ _ _ _ [] E2) as (S2 & C2 & R2 & G2); [constructor|]. cbn [app] in G2.
  destruct e2 as [e2|]; [intros [= <- <-]; split; [congruence|done]|]. cbv zeta. rewrite !bindB_eq. destruct (apiB w2) as [f3 w3] eqn:E3.
  destruct (api_keeps _ _ _ E3) as (S3 & J3 & C3 & R3 & L3). rewrite bindB_gets. unfold mret at 1, BW_ret at 1. cbv beta iota.
  destruct f3 as [f3|]; [intros [= <- <-]; split; [congruence|done]|].
  assert (forall w4, bw_log w3 ⊆ bw_log w4 -> bw_jobs w4 = bw_jobs w3 -> jobsLeft backup w w4) as Hjobs.
  { intros w4 L4 J4 j Hj Hm. specialize (G2 eq_refl). unfold goneJobs in G2. rewrite Forall_forall in G2. destruct (G2 (bj_Name j)) as [Hl Hs].
    - apply list_elem_of_fmap_2, list_elem_of_In, filter_In. rewrite C1. split; [by apply list_elem_of_In|done].
    - rewrite <- L3 in Hl. split; [by apply L4|]. intros _. unfold serverHasJob in *. by rewrite J4, J3. }
  destruct (bw_cron w3) as [c|] eqn:Ec; cbn zeta.
  2: { intros [= <- <-]. split; [congruence|]. intros _. split; [by apply Hjobs|]. intros c Hc. congruence. }
  destruct (matchingLabels _ (cj_Labels c)) eqn:Em.
  2: { intros [= <- <-]. split; [congruence|]. intros _. split; [by apply Hjobs|]. intros c' Hc. congruence. }
  rewrite bindB_eq. destruct (apiB w3) as [f4 w4] eqn:E4. destruct (api_keeps _ _ _ E4) as (S4 & J4 & C4 & R4 & L4).
  destruct f4 as [f4|]; [intros [= <- <-]; split; [congruence|done]|]. intros [= <- <-]. split; [cbn; congruence|]. intros _. split; [|done].
  apply Hjobs; cbn; [|done]. rewrite L4. by apply list_subseteq_cons.
Qed.

Lemma cleanup_artifacts backup w0 w e w' : cleanupBackupArtifacts backup w = (e, w') -> jobsLeft backup w0 w -> cronLeft backup w ->
  bw_stored w' = bw_stored w /\ (e = None -> jobsLeft backup w0 w' /\ cronLeft backup w' /\
    (bs_Retention (bk_Spec backup) <> None -> cloudScheme (sl_Type (bk_Storage backup)) = None -> serverHasJob (cleanupJobNameFor backup) w' = true)).
Proof.
  intros E Hj Hc. unfold cleanupBackupArtifacts in E. destruct (bs_Retention (bk_Spec backup)) as [policy|]; [|by injection E as <- <-].
  destruct (cloudScheme _); [by injection E as <- <-|]. cbv zeta in E. rewrite bindB_eq in E.
  match type of E with context [let '(_, _) := ?m w in _] => destruct (m w) as [u w1] eqn:E1 end.
  assert (bw_stored w1 = bw_stored w /\ bw_jobs w1 = bw_jobs w /\ bw_cron w1 = bw_cron w /\ bw_log w1 = bw_log w) as (S1 & J1 & R1 & L1)
    by (revert E1; case_match; by intros [= _ <-]).
  rewrite bindB_eq in E. destruct (apiB w1) as [f w2] eqn:E2. destruct (api_keeps _ _ _ E2) as (S2 & J2 & C2 & R2 & L2).
  destruct f as [f|]; [injection E as <- <-; split; [congruence|done]|]. rewrite bindB_gets in E.
  destruct (serverHasJob (cleanupJobNameFor backup) w2) eqn:Eh.
  - injection E as <- <-. split; [congruence|]. intros _. split_and!; [|intros c; rewrite R2, R1; apply Hc|done].
    intros j Hin Hm. destruct (Hj j Hin Hm) as [H1 H2]. rewrite L2, L1. split; [done|]. unfold serverHasJob in *. by rewrite J2, J1.
  - injection E as <- <-. split; [cbn; congruence|]. intros _. split_and!; [|intros c; cbn; rewrite R2, R1; apply Hc|].
    + intros j Hin Hm. destruct (Hj j Hin Hm) as [H1 H2]. split; [cbn; right; by rewrite L2, L1|]. intros Hne. specialize (H2 Hne). unfold serverHasJob in *. cbn.
      rewrite existsb_app, J2, J1, H2. cbn. rewrite orb_false_r. apply String.eqb_neq. congruence.
    + intros _ _. unfold serverHasJob. cbn. rewrite existsb_app. cbn. by rewrite String.eqb_refl, !orb_true_r.
Qed.

(** C24: a deleted backup is released last. A pass over it that ends without an error
    has taken the finalizer off, and by then every Job of the backup it saw was
    deleted, its CronJob is gone, and where a retention policy asks for it on a
    claim the Job that prunes the artifacts is there; on any failure before that
    the finalizers are as they were, so that the next pass tries again. *)
Theorem deletion_releases_last (backup : Neo4jBackup) (w : BackupWorld) (Hd : bk_Deleting backup = true) (Hf : BackupFinalizer ∈ bk_Finalizers backup) :
  let '(r, w') := ReconcileBackup backup w in
  match r with
  | PassDone => (BackupFinalizer ∉ bk_Finalizers (bw_stored w')) /\ jobsLeft backup w w' /\ cronLeft backup w' /\
      (bs_Retention (bk_Spec backup) <> None -> cloudScheme (sl_Type (bk_Storage backup)) = None -> serverHasJob (cleanupJobNameFor backup) w' = true)
  | _ => bk_Finalizers (bw_stored w') = bk_Finalizers (bw_stored w)
  end.
Proof.
  unfold ReconcileBackup. rewrite Hd. unfold handleBackupDeletion. rewrite bool_decide_true by done. cbn [negb]. rewrite bindB_eq.
  destruct (cleanupBackupJobs backup w) as [e1 w1] eqn:E1. destruct (cleanup_jobs _ _ _ _ E1) as [S1 H1]. destruct e1 as [e1|]; [cbn; congruence|].
  destruct (H1 eq_refl) as [Hj Hc]. rewrite bindB_eq. destruct (cleanupBackupArtifacts backup w1) as [e2 w2] eqn:E2.
  destruct (cleanup_artifacts _ w _ _ _ E2 Hj Hc) as [S2 H2]. destruct e2 as [e2|]; [cbn; congruence|]. destruct (H2 eq_refl) as (Hj2 & Hc2 & Hp).
  unfold writeBackupFinalizers. rewrite !bindB_eq. destruct (apiB w2) as [f w3] eqn:E3. destruct (api_keeps _ _ _ E3) as (S3 & J3 & C3 & R3 & L3).
  destruct f as [f|]; cbn; [congruence|]. split_and!.
  - intros Hin%list_elem_of_In%filter_In. destruct Hin as [_ H]. by rewrite String.eqb_refl in H.
  - intros j Hin Hm. destruct (Hj2 j Hin Hm) as [A B]. split; [cbn; right; by rewrite L3|]. unfold serverHasJob in *. cbn. by rewrite J3.
  - intros c. cbn. rewrite R3. apply Hc2.
  - intros A B. unfold serverHasJob in *. cbn. rewrite J3. by apply Hp.
Qed.

Definition deletedDemo : Neo4jBackup :=
  mkNeo4jBackup "first" "ns" "uid-1" 1 [BackupFinalizer] true
    (mkNeo4jBackupSpec "c" "orders" false EmptyString claimStorage EmptyString EmptyString (Some (mkRetentionPolicy "7d" 0 EmptyString)) None false EmptyString) (demoStatus []).

Lemma deletion_releases_last_witness :
  let w := worldOf quietEnv deletedDemo [] [] [] [] in
  (ReconcileBackup deletedDemo w).1 = PassDone /\ serverHasJob (cleanupJobNameFor deletedDemo) (ReconcileBackup deletedDemo w).2 = true.
Proof.
  intros w. split; [vm_compute; reflexivity|].
  pose proof (deletion_releases_last deletedDemo w eq_refl ltac:(by left)) as H.
  assert (ReconcileBackup deletedDemo w = (PassDone, (ReconcileBackup deletedDemo w).2)) as E by (vm_compute; reflexivity). rewrite E in H.
  destruct H as (_ & _ & _ & H). apply H; [discriminate|reflexivity].
Defined.

(** * Passes that end otherwise *)

(** A refused edit of a Completed backup makes it Invalid; the edit that puts it
    right starts the backup again. *)
Theorem refused_edit_reopens :
  let storage := mkStorageLocation "s3" "bucket" "prod" None (Some (mkCloudBlock "aws" None EmptyString EmptyString false)) in
  let broken := mkStorageLocation "s3" EmptyString "prod" None (Some (mkCloudBlock "aws" None EmptyString EmptyString false)) in
  let ended := onceBackup storage PhaseCompleted [demoRun "first-backup" "Succeeded" "first" 0] in
  let edited := onceBackup broken PhaseCompleted [demoRun "first-backup" "Succeeded" "first" 0] in
  let w1 := (ReconcileBackup edited (worldOf quietEnv edited [] [] [] [])).2 in
  let mended := set_bk_Status (bk_Status (bw_stored w1)) ended in
  bk_Phase (bw_stored (ReconcileBackup ended (worldOf quietEnv ended [] [] [] [])).2) = PhaseCompleted /\
  bk_Phase (bw_stored w1) = PhaseInvalid /\
  bj_Name <$> bw_jobs (ReconcileBackup mended (worldOf quietEnv mended [] [] [] [])).2 = ["first-backup"].
Proof. split_and!; vm_compute; reflexivity. Qed.

(** When the write of the history fails, the backup is Completed all the same and
    has no run that a restore could read. *)
Theorem completed_without_run :
  let backup := onceBackup claimStorage PhaseRunning [] in
  let '(r, w') := ReconcileBackup backup (worldOf loggedEnv backup [WriteFails "etcdserver: request timed out"] [doneJob] [doneJob] []) in
  r = PassDone /\ bk_Phase (bw_stored w') = PhaseCompleted /\ restoreRun (bk_History (bw_stored w')) None = None.
Proof. vm_compute. done. Qed.

(** The Job exists and runs, and the cache does not show it yet: the Get that
    should adopt it reads the same cache, and the backup is Failed for good. *)
Theorem lagging_cache_fails_running :
  let backup := onceBackup claimStorage PhasePending [] in
  let job := mkBackupJob "first-backup" "u" (backupLabels backup "backup") (Some 0) None 1 0 [] in
  let '(r, w') := ReconcileBackup backup (worldOf quietEnv backup [] [job] [] []) in
  bk_Phase (bw_stored w') = PhaseFailed /\ serverHasJob "first-backup" w' = true /\
  (ReconcileBackup (bw_stored w') (worldOf quietEnv (bw_stored w') [] [job] [job] [])).1 = PassDone.
Proof. vm_compute. done. Qed.

(** One failure of the API server while the target is read makes a one-time backup
    Failed; the retry the returned error asks for finds it ended. *)
Theorem outage_ends_backup :
  let backup := onceBackup claimStorage PhasePending [] in
  let outage := Some (mkApiFault "etcdserver: leader changed" false) in
  let '(r, w') := ReconcileBackup backup (worldOf quietEnv backup [] [] [] [None; outage; outage]) in
  (exists e, r = PassError e) /\ bk_Phase (bw_stored w') = PhaseFailed /\
  bw_jobs (ReconcileBackup (bw_stored w') (worldOf quietEnv (bw_stored w') [] [] [] [])).2 = [].
Proof. vm_compute. split; [by eexists|done]. Qed.
