(* ===== verification/DatabaseNames.v ===== *)
(** Two resources of one kind that give the same name on one target
    (src/internal/controller/duplicate_names.go): which of them owns the name, and
    to whom a deletion leaves it. The theorem is that all of them agree on one
    owner, so two passes never act on one database in turn. *)
From S2P Require Import Prelude GoStrings TargetWait.

Open Scope Z_scope.

(** * Claims on a name *)

(** One resource's claim: its own name, UID and creation time, the target, and the
    name in Neo4j. *)
Record nameClaim := mkClaim {
  cl_Object : string;
  cl_UID : string;
  cl_Created : Z;
  cl_Target : string;
  cl_Name : string;
  cl_Deleting : bool
}.

Definition sameName (a b : nameClaim) : bool :=
  negb (String.eqb (cl_Object b) (cl_Object a)) && String.eqb (cl_Target b) (cl_Target a) && strings.EqualFold (cl_Name b) (cl_Name a).

Definition ownsOver (a b : nameClaim) : bool :=
  if negb (cl_Created a =? cl_Created b) then cl_Created a <? cl_Created b
  else sort.leb (cl_UID a) (cl_UID b) && negb (String.eqb (cl_UID a) (cl_UID b)).

Definition nameOwner (self : nameClaim) (claims : list nameClaim) : string :=
  cl_Object (fold_left (fun owner c =>
    if cl_Deleting c || negb (sameName self c) then owner
    else if ownsOver c owner then c else owner) claims self).

Definition otherLiveClaim (self : nameClaim) (claims : list nameClaim) : string :=
  match fold_left (fun owner c =>
    if cl_Deleting c || negb (sameName self c) then owner
    else match owner with
         | None => Some c
         | Some o => if ownsOver c o then Some c else owner
         end) claims None with
  | None => EmptyString
  | Some owner => cl_Object owner
  end.

(** A kind whose resources claim names, as messages call it. *)
Record nameClaimKind := mkClaimKind { ck_kind : string; ck_what : string }.

Definition databaseNames : nameClaimKind := mkClaimKind "Neo4jDatabase" "database".

(** The message, empty when [self] owns its name. *)
Definition duplicate (k : nameClaimKind) (self : nameClaim) (claims : list nameClaim) : string :=
  let owner := nameOwner self claims in
  if String.eqb owner (cl_Object self) then EmptyString
  else "duplicate " +:+ ck_kind k +:+ ": " +:+ fmt.q owner +:+ " (older) already gives " +:+ ck_what k +:+ " " +:+ fmt.q (cl_Name self)
       +:+ " on " +:+ targetRefDisplay (cl_Target self)
       +:+ ", and Neo4j's names ignore case; delete or rename one of them before this one can reconcile".

Definition keptFor (k : nameClaimKind) (self : nameClaim) (claims : list nameClaim) : string :=
  let other := otherLiveClaim self claims in
  if String.eqb other EmptyString then EmptyString
  else ck_what k +:+ " " +:+ fmt.q (cl_Name self) +:+ " kept, not dropped: " +:+ ck_kind k +:+ " " +:+ fmt.q other +:+ " still gives it".

(** * One owner *)

Lemma ownsOver_irrefl a : ownsOver a a = false.
Proof. unfold ownsOver. by rewrite Z.eqb_refl, String.eqb_refl, andb_false_r. Qed.

Lemma ownsOver_trans a b c : ownsOver a b = true -> ownsOver b c = true -> ownsOver a c = true.
Proof.
  unfold ownsOver. destruct (Z.eqb_spec (cl_Created a) (cl_Created b)) as [E1|N1], (Z.eqb_spec (cl_Created b) (cl_Created c)) as [E2|N2];
    cbn [negb]; intros H1 H2; breflect; destruct (Z.eqb_spec (cl_Created a) (cl_Created c)) as [E3|N3]; cbn [negb]; try lia; breflect; try (apply Z.ltb_lt; lia).
  apply andb_true_iff. rewrite negb_true_iff, String.eqb_neq. split; [by apply (le_trans _ (cl_UID b))|].
  intros E. match goal with H : cl_UID a <> _ |- _ => apply H end. apply (anti_symm sort.le); [done|]. by rewrite E.
Qed.

Lemma ownsOver_total a b : cl_UID a <> cl_UID b -> ownsOver a b = true \/ ownsOver b a = true.
Proof.
  intros Hu. unfold ownsOver. rewrite (Z.eqb_sym (cl_Created b)). destruct (Z.eqb_spec (cl_Created a) (cl_Created b)); cbn [negb].
  - rewrite !andb_true_iff, !negb_true_iff, !String.eqb_neq. destruct (total sort.le (cl_UID a) (cl_UID b)); [left|right]; split; done || congruence.
  - rewrite !Z.ltb_lt. lia.
Qed.

(** The live claims that contest [self]'s name. *)
Definition contesting (self : nameClaim) (claims : list nameClaim) : list nameClaim :=
  List.filter (fun c => negb (cl_Deleting c) && sameName self c) claims.

Lemma fold_contesting {B} (self : nameClaim) (f : B -> nameClaim -> B) claims : forall b,
  fold_left (fun b c => if cl_Deleting c || negb (sameName self c) then b else f b c) claims b = fold_left f (contesting self claims) b.
Proof.
  unfold contesting. induction claims as [|c cs IH]; intros b; cbn [fold_left List.filter]; [done|].
  destruct (cl_Deleting c), (sameName self c); cbn [orb negb andb fold_left]; apply IH.
Qed.

Lemma nameOwner_best self claims : nameOwner self claims = cl_Object (best ownsOver self (contesting self claims)).
Proof. unfold nameOwner, best. f_equal. apply (fold_contesting self (fun owner c => if ownsOver c owner then c else owner)). Qed.

(** [a] and [b] give the same name on the same target. *)
Definition givesSame (a b : nameClaim) : Prop :=
  cl_Target a = cl_Target b /\ strings.ToLower (cl_Name a) = strings.ToLower (cl_Name b).

Lemma contesting_elem self claims c :
  c ∈ contesting self claims <-> c ∈ claims /\ cl_Deleting c = false /\ cl_Object c <> cl_Object self /\ givesSame c self.
Proof.
  unfold contesting, sameName, givesSame, strings.EqualFold. rewrite list_elem_of_In, filter_In, <-list_elem_of_In.
  rewrite !andb_true_iff, !negb_true_iff, !String.eqb_eq, String.eqb_neq. tauto.
Qed.

Lemma otherLiveClaim_fold self claims :
  otherLiveClaim self claims = match contesting self claims with [] => EmptyString | c :: cs => cl_Object (best ownsOver c cs) end.
Proof.
  unfold otherLiveClaim. rewrite (fold_contesting self (fun owner c => match owner with None => Some c | Some o => if ownsOver c o then Some c else owner end)).
  destruct (contesting self claims) as [|c cs]; [done|]. cbn [fold_left]. unfold best. generalize c. clear c.
  induction cs as [|c cs IH]; intros o; cbn [fold_left]; [done|]. destruct (ownsOver c o); apply IH.
Qed.

Lemma duplicate_empty k self claims : duplicate k self claims = EmptyString <-> nameOwner self claims = cl_Object self.
Proof. unfold duplicate. destruct (String.eqb _ _) eqn:E; breflect; [done|]. by split. Qed.

Lemma keptFor_empty k self claims : (forall c, c ∈ claims -> cl_Object c <> EmptyString) ->
  keptFor k self claims = EmptyString <-> contesting self claims = [].
Proof.
  intros Hne. unfold keptFor. rewrite otherLiveClaim_fold. destruct (contesting self claims) as [|c cs] eqn:E; [done|].
  destruct (best_spec ownsOver ownsOver_irrefl ownsOver_trans cs c) as (Hin & _). rewrite <-E in Hin. apply contesting_elem in Hin as [Hin _].
  rewrite (proj2 (String.eqb_neq _ _) (Hne _ Hin)). split; [|done]. destruct (ck_what k); done.
Qed.

Section Claims.
Context (claims : list nameClaim).
Context (Hnames : NoDup (cl_Object <$> claims)) (Huids : NoDup (cl_UID <$> claims)).

(** The owner of a live claim's name is a live claim of that name, before all the
    others of it. *)
Lemma owner_first self : self ∈ claims -> cl_Deleting self = false ->
  let owner := best ownsOver self (contesting self claims) in
  owner ∈ claims /\ cl_Deleting owner = false /\ givesSame owner self /\
  forall c, c ∈ claims -> cl_Deleting c = false -> givesSame c self -> c = owner \/ ownsOver owner c = true.
Proof.
  intros Hin Hlive. destruct (best_spec ownsOver ownsOver_irrefl ownsOver_trans (contesting self claims) self) as (H1 & _ & H3).
  cbv zeta. set (owner := best _ _ _) in *.
  assert (owner ∈ claims /\ cl_Deleting owner = false /\ givesSame owner self) as (Ho & Hl & Hs).
  { apply elem_of_cons in H1 as [->|(? & ? & _ & ?)%contesting_elem]; [|done]. done. }
  split_and!; try done. intros c Hc Hd Hg. destruct (decide (cl_UID c = cl_UID owner)) as [E|Hne]; [left; by apply (NoDup_fmap_inj cl_UID claims)|].
  destruct (ownsOver_total c owner Hne) as [E|E]; [|by right]. exfalso.
  assert (c ∈ self :: contesting self claims) as Hcs by (destruct (decide (cl_Object c = cl_Object self)) as [Es|];
    [rewrite (NoDup_fmap_inj cl_Object claims c self Hnames Hc Hin Es); apply list_elem_of_here|right; by apply contesting_elem]).
  by rewrite (H3 c Hcs) in E.
Qed.
End Claims.

(** C33: all the resources that give one name on one target agree on one owner, so
    that two never act on one database in turn. Of the live ones exactly one is no
    duplicate, the oldest (by UID among equals); and while a resource gives the
    name, the deletion of any other of them leaves the database to it. *)
Theorem one_owner_per_name (claims : list nameClaim) (self : nameClaim) :
  NoDup (cl_Object <$> claims) -> NoDup (cl_UID <$> claims) -> (forall c, c ∈ claims -> cl_Object c <> EmptyString) ->
  self ∈ claims -> cl_Deleting self = false ->
  exists owner, owner ∈ claims /\ cl_Deleting owner = false /\ givesSame owner self /\
    (forall c, c ∈ claims -> cl_Deleting c = false -> givesSame c self ->
      (duplicate databaseNames c claims = EmptyString <-> c = owner) /\ (c = owner \/ ownsOver owner c = true)) /\
    (forall d, d ∈ claims -> givesSame d self -> d <> self -> keptFor databaseNames d claims <> EmptyString).
Proof.
  intros Hn Hu Hne Hin Hlive. destruct (owner_first claims Hn Hu self Hin Hlive) as (H1 & H2 & H3 & H4).
  remember (best ownsOver self (contesting self claims)) as owner eqn:Eo. clear Eo. exists owner. split_and!; try done.
  - intros c Hc Hd Hg. split; [|by apply H4]. rewrite duplicate_empty, nameOwner_best.
    destruct (owner_first claims Hn Hu c Hc Hd) as (C1 & C2 & C3 & C4). remember (best ownsOver c (contesting c claims)) as mine eqn:Em. clear Em.
    assert (mine = owner) as Hm.
    { assert (givesSame mine self) as Hm by (unfold givesSame in *; intuition congruence).
      assert (givesSame owner c) as Ho by (unfold givesSame in *; intuition congruence).
      destruct (H4 mine C1 C2 Hm) as [?|E1]; [done|]. destruct (C4 owner H1 H2 Ho) as [?|E2]; [done|].
      pose proof (ownsOver_trans _ _ _ E1 E2) as E. by rewrite ownsOver_irrefl in E. }
    rewrite Hm. split; [|by intros ->]. intros E. symmetry. by apply (NoDup_fmap_inj cl_Object claims).
  - intros d Hd Hg Hds. rewrite keptFor_empty by done. intros E. assert (self ∈ contesting d claims) as Hs; [|by rewrite E in Hs; apply elem_of_nil in Hs].
    apply contesting_elem. split_and!; try done; [|unfold givesSame in *; intuition congruence].
    intros Eo. apply Hds. symmetry. by apply (NoDup_fmap_inj cl_Object claims).
Qed.

Module NamesSample.
Definition sales : nameClaim := mkClaim "a" "u1" 7 "c" "Sales" false.
Definition older : nameClaim := mkClaim "b" "u2" 5 "c" "sales" false.
Definition gone : nameClaim := mkClaim "d" "u3" 1 "c" "SALES" true.
Definition listed : list nameClaim := [sales; older; gone; mkClaim "e" "u4" 0 "other" "sales" false].

Lemma one_owner_per_name_witness : exists owner, owner ∈ listed /\ cl_Deleting owner = false /\ givesSame owner sales /\
    (forall c, c ∈ listed -> cl_Deleting c = false -> givesSame c sales ->
      (duplicate databaseNames c listed = EmptyString <-> c = owner) /\ (c = owner \/ ownsOver owner c = true)) /\
    (forall d, d ∈ listed -> givesSame d sales -> d <> sales -> keptFor databaseNames d listed <> EmptyString).
Proof.
  apply (one_owner_per_name listed sales).
  - apply (bool_decide_unpack _). vm_compute. reflexivity.
  - apply (bool_decide_unpack _). vm_compute. reflexivity.
  - intros c Hc. apply list_elem_of_In in Hc. destruct Hc as [<-|[<-|[<-|[<-|[]]]]]; discriminate.
  - apply list_elem_of_here.
  - reflexivity.
Defined.

(** The older one owns it, and the deletion of the third leaves it to that one. *)
Example older_owns : nameOwner sales listed = "b" /\ otherLiveClaim gone listed = "b".
Proof. vm_compute. split; reflexivity. Qed.
End NamesSample.
