(* ===== verification/DatabaseStatement.v ===== *)
(** The Neo4jDatabase (src/api/v1beta1/neo4jdatabase_types.go) and the CREATE DATABASE
    statement built from it (buildCreateDatabaseQuery of
    src/internal/neo4j/create_database.go, buildOptionsClause and the rest of
    src/internal/neo4j/client.go), with a reader of that statement: the server reads
    from text and parameters what the spec asked for. Where Go ranges over a map,
    the order is an argument. *)
From S2P Require Import Prelude GoStrings GoRFC3339 ClusterTypes Version RestoreTypes.

Open Scope Z_scope.

(** * The resource *)

Record DatabaseTopology := mkDatabaseTopology { dt_Primaries : Z; dt_Secondaries : Z }.

Record SeedConfiguration := mkSeedConfiguration { sc_RestoreUntil : string; sc_Config : gmap string string }.

(** [ds_InitialData]: the Cypher statements; [ds_SeedCredentials]: the Secret. *)
Record DatabaseSpec := mkDatabaseSpec {
  ds_ClusterRef : string;
  ds_Name : string;
  ds_Options : gmap string string;
  ds_InitialData : option (list string);
  ds_Wait : bool;
  ds_IfNotExists : bool;
  ds_Topology : option DatabaseTopology;
  ds_DefaultCypherLanguage : string;
  ds_SeedURI : string;
  ds_SeedConfig : option SeedConfiguration;
  ds_SeedCredentials : option string
}.

(** * The statement *)

(** What a driver parameter holds. *)
Inductive paramValue :=
| PString (s : string)
| PInt (n : Z).

Definition formatOptionKey (key : string) : string :=
  let cleanKey := strings.Trim key dquote in
  if strings.Contains cleanKey "." then strings.ReplaceAllByte cleanKey "." "_" else cleanKey.

Definition optionKeys (m : gmap string string) : list string := sort.Strings (elements (dom m)).

Definition SerializeSeedConfig (cfg : gmap string string) : string :=
  strings.Join (map (fun k => k +:+ "=" +:+ default EmptyString (cfg !! k)) (optionKeys cfg)) ",".

(** The options of a statement, by key; [options] in the order ranged over. *)
Definition mergedOptions (options : list (string * string)) (seedURI : string) (seedConfig : option SeedConfiguration) : gmap string string :=
  let merged := fold_left (fun m kv => <[formatOptionKey kv.1 := kv.2]> m) options ∅ in
  let merged := if String.eqb seedURI EmptyString then merged else <["seedURI" := seedURI]> merged in
  match seedConfig with
  | Some c =>
      let cfg := SerializeSeedConfig (sc_Config c) in
      if String.eqb cfg EmptyString then merged else <["seedConfig" := cfg]> merged
  | None => merged
  end.

(** The point in time of a seed: its entry in the clause and its parameter. *)
Definition restoreUntilPart (seedConfig : option SeedConfiguration) : option (string * paramValue) :=
  match seedConfig with
  | Some c =>
      if String.eqb (sc_RestoreUntil c) EmptyString then None
      else match strings.CutPrefix (sc_RestoreUntil c) "txId:" with
           | Some txid =>
               match strconv.Atoi txid with
               | Some n => Some ("seedRestoreUntil: $opt_seedRestoreUntil", PInt n)
               | None => None
               end
           | None => Some ("seedRestoreUntil: datetime($opt_seedRestoreUntil)", PString (sc_RestoreUntil c))
           end
  | None => None
  end.

(** The clause, and the parameters it refers to. *)
Definition buildOptionsClause (options : list (string * string)) (seedURI : string) (seedConfig : option SeedConfiguration)
  : string * gmap string paramValue :=
  let merged := mergedOptions options seedURI seedConfig in
  let keys := optionKeys merged in
  let parts := map (fun k => k +:+ ": $opt_" +:+ k) keys in
  let params := fold_left (fun m k => <["opt_" +:+ k := PString (default EmptyString (merged !! k))]> m) keys ∅ in
  let '(parts, params) :=
    match restoreUntilPart seedConfig with
    | Some (part, v) => (parts ++ [part], <["opt_seedRestoreUntil" := v]> params)
    | None => (parts, params)
    end in
  match parts with
  | [] => (EmptyString, ∅)
  | _ => (" OPTIONS {" +:+ strings.Join parts ", " +:+ "}", params)
  end.

Definition cypherLanguageClause (cypherVersion : string) : string :=
  if String.eqb cypherVersion "5" || String.eqb cypherVersion "25" then " DEFAULT LANGUAGE CYPHER " +:+ cypherVersion else EmptyString.

Definition pluralise (n : Z) (singular plural : string) : string := if n =? 1 then singular else plural.

Definition createTopologyClause (primaries secondaries : Z) : string :=
  let parts :=
    (if 0 <? primaries then [strconv.Itoa primaries +:+ " " +:+ pluralise primaries "PRIMARY" "PRIMARIES"] else [])
    ++ (if 0 <? secondaries then [strconv.Itoa secondaries +:+ " " +:+ pluralise secondaries "SECONDARY" "SECONDARIES"] else []) in
  match parts with
  | [] => EmptyString
  | _ => " TOPOLOGY " +:+ strings.Join parts " "
  end.

Definition DefaultLanguageForImage (imageTag requested : string) : string :=
  if String.eqb requested EmptyString then EmptyString
  else match ParseVersion imageTag with
       | Err _ => requested
       | Ok v => if negb (SupportsCypherLanguageVersion v) then EmptyString else requested
       end.

Record createDatabaseStatement := mkCreateDatabase {
  cd_name : string;
  cd_ifNotExists : bool;
  cd_cypherVersion : string;
  cd_primaries : Z;
  cd_secondaries : Z;
  cd_options : list (string * string);
  cd_seedURI : string;
  cd_seedConfig : option SeedConfiguration;
  cd_wait : bool
}.

Definition buildCreateDatabaseQuery (s : createDatabaseStatement) : string * gmap string paramValue :=
  let '(optClause, params) := buildOptionsClause (cd_options s) (cd_seedURI s) (cd_seedConfig s) in
  ("CREATE DATABASE `" +:+ cd_name s +:+ "`"
   +:+ (if cd_ifNotExists s then " IF NOT EXISTS" else EmptyString)
   +:+ cypherLanguageClause (cd_cypherVersion s)
   +:+ createTopologyClause (cd_primaries s) (cd_secondaries s)
   +:+ optClause
   +:+ (if cd_wait s then " WAIT" else " NOWAIT"), params).

(** The statement of the create method the controller chooses: plain or seeded,
    with a topology or without. *)
Definition createStatement (spec : DatabaseSpec) (options : list (string * string)) (topology : option DatabaseTopology) (cypherLanguage : string)
  : createDatabaseStatement :=
  let '(primaries, secondaries) := match topology with Some t => (dt_Primaries t, dt_Secondaries t) | None => (0, 0) end in
  let '(seedURI, seedConfig) :=
    if String.eqb (ds_SeedURI spec) EmptyString then (EmptyString, None) else (ds_SeedURI spec, ds_SeedConfig spec) in
  mkCreateDatabase (ds_Name spec) (ds_IfNotExists spec) cypherLanguage primaries secondaries options seedURI seedConfig (ds_Wait spec).

Definition dropStatement (name : string) : string := "DROP DATABASE `" +:+ name +:+ "`".

(** ** Credentials of a seed *)

(** [secret]: the keys of the Secret. *)
Definition validateCredentialKeys (secret : gset string) (scheme : string) : option string :=
  let hasKey key := bool_decide (key ∈ secret) in
  if String.eqb scheme "s3" then
    (if negb (hasKey "AWS_ACCESS_KEY_ID") || negb (hasKey "AWS_SECRET_ACCESS_KEY")
     then Some "S3 credentials secret must contain AWS_ACCESS_KEY_ID and AWS_SECRET_ACCESS_KEY" else None)
  else if String.eqb scheme "gs" then
    (if negb (hasKey "GOOGLE_APPLICATION_CREDENTIALS") then Some "GCS credentials secret must contain GOOGLE_APPLICATION_CREDENTIALS" else None)
  else if String.eqb scheme "azb" then
    (if negb (hasKey "AZURE_STORAGE_ACCOUNT") then Some "the Azure credentials secret must contain AZURE_STORAGE_ACCOUNT"
     else if negb (hasKey "AZURE_STORAGE_KEY") && negb (hasKey "AZURE_STORAGE_SAS_TOKEN")
     then Some "the Azure credentials secret must contain either AZURE_STORAGE_KEY or AZURE_STORAGE_SAS_TOKEN" else None)
  else if existsb (String.eqb scheme) ["http"; "https"; "ftp"] then None
  else Some ("unsupported seed URI scheme: " +:+ scheme).

(** [secret]: the keys of the Secret, or the error of reading it. *)
Definition PrepareCloudCredentials (spec : DatabaseSpec) (secret : gset string + string) : option string :=
  match ds_SeedCredentials spec with
  | None => None
  | Some _ =>
      match secret with
      | inr e => Some ("failed to get seed credentials secret: " +:+ e)
      | inl secret =>
          if String.eqb (ds_SeedURI spec) EmptyString then Some "seed URI is required when seed credentials are specified"
          else match strings.Index (ds_SeedURI spec) "://" with
               | None => Some ("invalid seed URI format: " +:+ ds_SeedURI spec)
               | Some schemeEnd => validateCredentialKeys secret (strings.upto schemeEnd (ds_SeedURI spec))
               end
      end
  end.

(** * Reading the statement *)

Inductive token :=
| TWord (w : string)
| TName (n : string)
| TSym (c : ascii).

Definition tickChar : ascii := "096".
Definition wordByte (c : ascii) : bool := asciiLetter c || isDigit c || Ascii.eqb c "_".

(** Cypher's lexical rules as far as a CREATE DATABASE statement uses them: words,
    names in backquotes (doubled inside) and punctuation. *)
Inductive lexState :=
| LBetween
| LWord (w : string)
| LName (n : string)
| LTick (n : string).

Definition lexStart (lex : lexState -> option (list token)) (c : ascii) : option (list token) :=
  if Ascii.eqb c " " then lex LBetween
  else if wordByte c then lex (LWord (String c EmptyString))
  else if Ascii.eqb c tickChar then lex (LName EmptyString)
  else if strings.byteIn c "{}:,$()" then cons (TSym c) <$> lex LBetween
  else None.

Fixpoint lexCypher (st : lexState) (s : string) : option (list token) :=
  match s with
  | EmptyString =>
      match st with
      | LBetween => Some []
      | LWord w => Some [TWord w]
      | LTick n => Some [TName n]
      | LName _ => None
      end
  | String c s' =>
      let continue st := lexCypher st s' in
      match st with
      | LBetween => lexStart continue c
      | LWord w => if wordByte c then continue (LWord (w +:+ String c EmptyString)) else cons (TWord w) <$> lexStart continue c
      | LName n => if Ascii.eqb c tickChar then continue (LTick n) else continue (LName (n +:+ String c EmptyString))
      | LTick n => if Ascii.eqb c tickChar then continue (LName (n +:+ String tickChar EmptyString)) else cons (TName n) <$> lexStart continue c
      end
  end.

(** An option as the server takes it: a parameter, or one read as a date. *)
Inductive optionValue :=
| OPlain (v : paramValue)
| ODateTime (v : paramValue).

Record createRead := mkCreateRead {
  rd_name : string;
  rd_ifNotExists : bool;
  rd_language : option string;
  rd_primaries : Z;
  rd_secondaries : Z;
  rd_options : list (string * optionValue);
  rd_wait : bool
}.

Definition isSym (c : ascii) (t : token) : bool := match t with TSym d => Ascii.eqb d c | _ => false end.

Definition keyword (w : string) (toks : list token) : option (list token) :=
  match toks with
  | TWord v :: rest => if String.eqb v w then Some rest else None
  | _ => None
  end.

Fixpoint keywords (ws : list string) (toks : list token) : option (list token) :=
  match ws with
  | [] => Some toks
  | w :: ws' => keyword w toks ≫= keywords ws'
  end.

Definition readCount (singular plural : string) (toks : list token) : Z * list token :=
  match toks with
  | TWord n :: TWord w :: rest =>
      if String.eqb w singular || String.eqb w plural then match strconv.digits 0 n with Some v => (v, rest) | None => (0, toks) end
      else (0, toks)
  | _ => (0, toks)
  end.

Definition readTopology (toks : list token) : Z * Z * list token :=
  match keyword "TOPOLOGY" toks with
  | Some r =>
      let '(primaries, r) := readCount "PRIMARY" "PRIMARIES" r in
      let '(secondaries, r) := readCount "SECONDARY" "SECONDARIES" r in
      (primaries, secondaries, r)
  | None => (0, 0, toks)
  end.

Fixpoint readEntries (params : gmap string paramValue) (toks : list token) : option (list (string * optionValue) * list token) :=
  let next (k : string) (v : option optionValue) (sep : token) (rest : list token) (more : option (list (string * optionValue) * list token)) :=
    match v with
    | None => None
    | Some v =>
        if isSym "}" sep then Some ([(k, v)], rest)
        else if isSym "," sep then (fun r => ((k, v) :: r.1, r.2)) <$> more else None
    end in
  match toks with
  | TWord k :: colon :: dollar :: TWord p :: sep :: rest =>
      if isSym ":" colon && isSym "$" dollar then next k (OPlain <$> params !! p) sep rest (readEntries params rest) else None
  | TWord k :: colon :: TWord f :: opening :: dollar :: TWord p :: closing :: sep :: rest =>
      if isSym ":" colon && String.eqb f "datetime" && isSym "(" opening && isSym "$" dollar && isSym ")" closing
      then next k (ODateTime <$> params !! p) sep rest (readEntries params rest) else None
  | _ => None
  end.

Definition readOptions (params : gmap string paramValue) (toks : list token) : option (list (string * optionValue) * list token) :=
  match keyword "OPTIONS" toks with
  | Some (opening :: rest) => if isSym "{" opening then readEntries params rest else None
  | Some [] => None
  | None => Some ([], toks)
  end.

Definition readExists (toks : list token) : bool * list token :=
  match keywords ["IF"; "NOT"; "EXISTS"] toks with Some r => (true, r) | None => (false, toks) end.

Definition readLanguage (toks : list token) : option string * list token :=
  match keywords ["DEFAULT"; "LANGUAGE"; "CYPHER"] toks with
  | Some (TWord v :: r) => (Some v, r)
  | _ => (None, toks)
  end.

Definition readWait (toks : list token) : option bool :=
  match toks with
  | [TWord w] => if String.eqb w "WAIT" then Some true else if String.eqb w "NOWAIT" then Some false else None
  | _ => None
  end.

Definition readClauses (params : gmap string paramValue) (name : string) (toks : list token) : option createRead :=
  let '(ifNotExists, toks) := readExists toks in
  let '(language, toks) := readLanguage toks in
  let '(primaries, secondaries, toks) := readTopology toks in
  match readOptions params toks with
  | Some (options, toks) => mkCreateRead name ifNotExists language primaries secondaries options <$> readWait toks
  | None => None
  end.

Definition readCreate (params : gmap string paramValue) (toks : list token) : option createRead :=
  match keywords ["CREATE"; "DATABASE"] toks with
  | Some (TName name :: rest) => readClauses params name rest
  | _ => None
  end.

Definition readStatement (q : string * gmap string paramValue) : option createRead := lexCypher LBetween q.1 ≫= readCreate q.2.

Example read_sample :
  readStatement (buildCreateDatabaseQuery (mkCreateDatabase "sales" true "25" 3 1 [("storeFormat", "block")] "s3://b/x"
    (Some (mkSeedConfiguration "2025-01-15T10:30:00Z" {["region" := "eu"]})) true))
  = Some (mkCreateRead "sales" true (Some "25") 3 1
      [("seedConfig", OPlain (PString "region=eu")); ("seedURI", OPlain (PString "s3://b/x")); ("storeFormat", OPlain (PString "block"));
       ("seedRestoreUntil", ODateTime (PString "2025-01-15T10:30:00Z"))] true).
Proof. vm_compute. reflexivity. Qed.

(** ** Lexing *)

(** Neither goes on a word nor doubles a backquote. *)
Definition clearStart (s : string) : bool :=
  match s with EmptyString => true | String c _ => negb (wordByte c) && negb (Ascii.eqb c tickChar) end.

(** The text [t] is the tokens [ks], whatever follows clear of it. *)
Definition lexes (t : string) (ks : list token) : Prop :=
  forall rest, clearStart rest = true -> lexCypher LBetween (t +:+ rest) = app ks <$> lexCypher LBetween rest.

Lemma clearStart_app t rest : clearStart t = true -> clearStart rest = true -> clearStart (t +:+ rest) = true.
Proof. by destruct t. Qed.

Lemma lexes_app t1 k1 t2 k2 : lexes t1 k1 -> lexes t2 k2 -> clearStart t2 = true -> lexes (t1 +:+ t2) (k1 ++ k2).
Proof.
  intros H1 H2 Hc rest Hr. rewrite string_app_assoc, H1, H2 by (done || by apply clearStart_app).
  destruct (lexCypher LBetween rest); cbn; [by rewrite <-app_assoc|done].
Qed.

Lemma lexes_nil : lexes EmptyString [].
Proof. intros rest _. cbn. by destruct (lexCypher LBetween rest). Qed.

Lemma lexes_space t ks : lexes t ks -> lexes (" " +:+ t) ks.
Proof. intros H rest Hr. exact (H rest Hr). Qed.

Lemma lexes_sym c t ks : strings.byteIn c "{}:,$()" = true -> lexes t ks -> lexes (String c t) (TSym c :: ks).
Proof.
  intros Hc H rest Hr. cbn [String.append lexCypher]. unfold lexStart.
  assert (Ascii.eqb c " " = false /\ wordByte c = false /\ Ascii.eqb c tickChar = false) as (-> & -> & ->)
    by (revert Hc; destruct c as [[] [] [] [] [] [] [] []]; done).
  rewrite Hc, H by done. by destruct (lexCypher LBetween rest).
Qed.

(** The end of a word. *)
Lemma lex_stop w rest : clearStart rest = true -> lexCypher (LWord w) rest = cons (TWord w) <$> lexCypher LBetween rest.
Proof. destruct rest as [|c rest]; [done|]. cbn [clearStart lexCypher]. intros [Hc%negb_true_iff _]%andb_true_iff. by rewrite Hc. Qed.
Lemma lex_word_more w : forall acc rest, allBytes wordByte w = true -> clearStart rest = true ->
  lexCypher (LWord acc) (w +:+ rest) = cons (TWord (acc +:+ w)) <$> lexCypher LBetween rest.
Proof.
  induction w as [|c w IH]; intros acc rest Hw Hr; cbn [String.append allBytes] in *.
  - rewrite string_app_nil_r. by apply lex_stop.
  - apply andb_true_iff in Hw as [Hc Hw]. cbn [lexCypher]. rewrite Hc, IH, string_app_assoc by done. done.
Qed.

Lemma lexes_word w : w <> EmptyString -> allBytes wordByte w = true -> lexes w [TWord w].
Proof.
  intros Hne Hw rest Hr. destruct w as [|c w]; [done|]. cbn [String.append allBytes] in *. apply andb_true_iff in Hw as [Hc Hw].
  cbn [lexCypher]. unfold lexStart. assert (Ascii.eqb c " " = false) as -> by (revert Hc; destruct c as [[] [] [] [] [] [] [] []]; done).
  rewrite Hc, lex_word_more by done. by destruct (lexCypher LBetween rest).
Qed.

Lemma lex_name_more n : forall acc rest, allBytes (fun c => negb (Ascii.eqb c tickChar)) n = true -> clearStart rest = true ->
  lexCypher (LName acc) (n +:+ String tickChar rest) = cons (TName (acc +:+ n)) <$> lexCypher LBetween rest.
Proof.
  induction n as [|c n IH]; intros acc rest Hn Hr; cbn [String.append allBytes] in *.
  - cbn [lexCypher]. rewrite Ascii.eqb_refl, string_app_nil_r. destruct rest as [|d rest]; [done|].
    cbn [clearStart lexCypher] in *. apply andb_true_iff in Hr as [_ Hr%negb_true_iff]. by rewrite Hr.
  - apply andb_true_iff in Hn as [Hc%negb_true_iff Hn]. cbn [lexCypher]. rewrite Hc, IH, string_app_assoc by done. done.
Qed.

Lemma lexes_name n : allBytes (fun c => negb (Ascii.eqb c tickChar)) n = true -> lexes ("`" +:+ n +:+ "`") [TName n].
Proof.
  intros Hn rest Hr. cbn [String.append lexCypher]. unfold lexStart. change (Ascii.eqb "`" " ") with false. change (wordByte "`") with false.
  change (Ascii.eqb "`" tickChar) with true. cbn iota. rewrite string_app_assoc. change ("`" +:+ rest) with (String tickChar rest).
  rewrite lex_name_more by done. by destruct (lexCypher LBetween rest).
Qed.

(** ** Entries *)

(** An entry: its key, and whether its parameter is read as a date. *)
Definition entryText (e : string * bool) : string :=
  e.1 +:+ (if e.2 then ": datetime($opt_" +:+ e.1 +:+ ")" else ": $opt_" +:+ e.1).
Definition entryTokens (e : string * bool) : list token :=
  TWord e.1 :: TSym ":" :: (if e.2 then [TWord "datetime"; TSym "("; TSym "$"; TWord ("opt_" +:+ e.1); TSym ")"]
                             else [TSym "$"; TWord ("opt_" +:+ e.1)]).
Fixpoint joinTokens (es : list (string * bool)) : list token :=
  match es with
  | [] => []
  | [e] => entryTokens e
  | e :: es' => entryTokens e ++ TSym "," :: joinTokens es'
  end.

Definition keyWord (k : string) : Prop := k <> EmptyString /\ allBytes wordByte k = true.

Lemma lexes_entry e : keyWord e.1 -> lexes (entryText e) (entryTokens e).
Proof.
  destruct e as [k []]; intros [Hne Hw]; unfold entryText, entryTokens; cbn [fst snd].
  - apply (lexes_app k [TWord k] (": datetime($opt_" +:+ k +:+ ")")); [by apply lexes_word| |done].
    apply (lexes_sym ":" (" " +:+ "datetime" +:+ "($opt_" +:+ k +:+ ")")); [done|]. apply lexes_space.
    apply (lexes_app "datetime" [TWord "datetime"]); [by apply lexes_word| |done].
    apply lexes_sym; [done|]. apply lexes_sym; [done|].
    apply (lexes_app ("opt_" +:+ k) [TWord ("opt_" +:+ k)] ")"); [apply lexes_word; [done|exact Hw]| |done]. apply lexes_sym; [done|]. apply lexes_nil.
  - apply (lexes_app k [TWord k] (": $opt_" +:+ k)); [by apply lexes_word| |done].
    apply (lexes_sym ":" (" " +:+ "$opt_" +:+ k)); [done|]. apply lexes_space. apply lexes_sym; [done|]. by apply lexes_word.
Qed.

Lemma lexes_entries (es : list (string * bool)) : Forall (fun e => keyWord e.1) es -> lexes (strings.Join (map entryText es) ", ") (joinTokens es).
Proof.
  induction 1 as [|e es He Hes IH]; [apply lexes_nil|]. destruct es as [|e' es]; [by apply lexes_entry|].
  cbn [map strings.Join joinTokens]. apply lexes_app; [by apply lexes_entry| |done].
  apply (lexes_sym "," (" " +:+ strings.Join (map entryText (e' :: es)) ", ")); [done|]. by apply lexes_space.
Qed.

Lemma readEntries_step params (e : string * bool) sep rest :
  readEntries params (entryTokens e ++ sep :: rest) =
  match (if snd e then ODateTime else OPlain) <$> params !! ("opt_" +:+ e.1) with
  | None => None
  | Some v =>
      if isSym "}" sep then Some ([(e.1, v)], rest)
      else if isSym "," sep then (fun r => ((e.1, v) :: r.1, r.2)) <$> readEntries params rest else None
  end.
Proof. by destruct e as [k []]. Qed.

Lemma readEntries_join params (value : string * bool -> optionValue) (es : list (string * bool)) rest :
  es <> [] -> (forall e : string * bool, e ∈ es -> (if snd e then ODateTime else OPlain) <$> params !! ("opt_" +:+ e.1) = Some (value e)) ->
  readEntries params (joinTokens es ++ TSym "}" :: rest) = Some (map (fun e => (e.1, value e)) es, rest).
Proof.
  intros Hne. induction es as [|e es IH]; [done|]. intros Hv. destruct es as [|e' es].
  - cbn [joinTokens map]. by rewrite readEntries_step, Hv by apply list_elem_of_here.
  - change (joinTokens (e :: e' :: es)) with (entryTokens e ++ TSym "," :: joinTokens (e' :: es)). rewrite <-app_assoc. cbn [app]. rewrite readEntries_step, Hv by apply list_elem_of_here.
    change (isSym "}" (TSym ",")) with false. change (isSym "," (TSym ",")) with true. cbn iota.
    rewrite IH; [done|done|]. intros x Hx. apply Hv. by right.
Qed.

(** ** The clauses *)

(** The point in time as the server takes it. *)
Definition wantedUntil (seedConfig : option SeedConfiguration) : option optionValue :=
  match seedConfig with
  | Some c =>
      if String.eqb (sc_RestoreUntil c) EmptyString then None
      else match strings.CutPrefix (sc_RestoreUntil c) "txId:" with
           | Some txid => (fun n => OPlain (PInt n)) <$> strconv.Atoi txid
           | None => Some (ODateTime (PString (sc_RestoreUntil c)))
           end
  | None => None
  end.

Definition untilDate (v : optionValue) : bool := match v with ODateTime _ => true | OPlain _ => false end.
Definition untilParam (v : optionValue) : paramValue := match v with ODateTime v | OPlain v => v end.

Lemma restoreUntilPart_wanted seedConfig :
  restoreUntilPart seedConfig = (fun v => (entryText ("seedRestoreUntil", untilDate v), untilParam v)) <$> wantedUntil seedConfig.
Proof.
  unfold restoreUntilPart, wantedUntil. destruct seedConfig as [c|]; [|done]. destruct (String.eqb _ _); [done|].
  destruct (strings.CutPrefix _ _) as [t|]; [|done]. by destruct (strconv.Atoi t).
Qed.

(** The options of a statement, in the order they are written. *)
Definition wantedOptions (s : createDatabaseStatement) : list (string * optionValue) :=
  let merged := mergedOptions (cd_options s) (cd_seedURI s) (cd_seedConfig s) in
  map (fun k => (k, OPlain (PString (default EmptyString (merged !! k))))) (optionKeys merged)
  ++ match wantedUntil (cd_seedConfig s) with Some v => [("seedRestoreUntil", v)] | None => [] end.

Lemma fold_params {A} (f : string -> string) (g : string -> A) keys : (forall a b, f a = f b -> a = b) ->
  forall k (m : gmap string A), k ∈ keys \/ m !! f k = Some (g k) -> fold_left (fun m k => <[f k := g k]> m) keys m !! f k = Some (g k).
Proof.
  intros Hf. induction keys as [|x keys IH]; intros k m Hk; cbn [fold_left].
  - destruct Hk as [Hk|Hk]; [by apply elem_of_nil in Hk|done].
  - apply IH. destruct (decide (k = x)) as [->|Hne]; [right; by rewrite lookup_insert_eq|].
    destruct Hk as [[?|?]%elem_of_cons|Hk]; [done|by left|]. right. rewrite lookup_insert_ne; [done|]. intros E. by apply Hne, Hf.
Qed.

Lemma optName_inj a b : "opt_" +:+ a = "opt_" +:+ b -> a = b.
Proof. by intros [= ->]. Qed.

(** What a statement's names must be for its text to be read as meant. *)
Definition safeStatement (s : createDatabaseStatement) : Prop :=
  allBytes (fun c => negb (Ascii.eqb c tickChar)) (cd_name s) = true /\
  forall k, is_Some (mergedOptions (cd_options s) (cd_seedURI s) (cd_seedConfig s) !! k) -> keyWord k /\ k <> "seedRestoreUntil".

(** The entries of the clause, and their values. *)
Definition entriesOf (s : createDatabaseStatement) : list (string * bool) := map (fun e => (e.1, untilDate e.2)) (wantedOptions s).

Lemma optionKeys_elem m k : k ∈ optionKeys m <-> is_Some (m !! k).
Proof. unfold optionKeys. by rewrite Strings_elem, elem_of_elements, elem_of_dom. Qed.

Lemma options_parts s : safeStatement s ->
  exists params, buildOptionsClause (cd_options s) (cd_seedURI s) (cd_seedConfig s) =
    match entriesOf s with [] => (EmptyString, ∅) | es => (" OPTIONS {" +:+ strings.Join (map entryText es) ", " +:+ "}", params) end /\
    (forall e, e ∈ wantedOptions s -> params !! ("opt_" +:+ e.1) = Some (untilParam e.2)).
Proof.
  intros [_ Hk]. unfold buildOptionsClause, entriesOf, wantedOptions. set (merged := mergedOptions _ _ _) in *.
  set (params0 := fold_left _ (optionKeys merged) ∅). rewrite restoreUntilPart_wanted.
  assert (Hp : forall k, k ∈ optionKeys merged -> params0 !! ("opt_" +:+ k) = Some (PString (default EmptyString (merged !! k))))
    by (intros k Hin; apply (fold_params (String.append "opt_") (fun k => PString (default EmptyString (merged !! k)))); [apply optName_inj|by left]).
  exists (match wantedUntil (cd_seedConfig s) with Some v => <["opt_seedRestoreUntil" := untilParam v]> params0 | None => params0 end).
  rewrite map_app, !map_map. split.
  - destruct (wantedUntil (cd_seedConfig s)) as [v|]; cbn [fmap option_fmap option_map].
    + destruct (optionKeys merged) as [|k ks]; cbn [map app]; [done|]. by rewrite map_app, map_map.
    + cbn [map]. rewrite !app_nil_r. destruct (optionKeys merged) as [|k ks]; cbn [map]; [done|]. by rewrite map_map.
  - intros e [He|He]%elem_of_app.
    + apply list_elem_of_fmap in He as (k & -> & Hin). cbn [fst snd untilParam]. rewrite <-(Hp k Hin).
      destruct (wantedUntil _); [|done]. rewrite lookup_insert_ne; [done|]. intros E%(optName_inj "seedRestoreUntil").
      by destruct (Hk k) as [_ ?]; [by apply optionKeys_elem|].
    + destruct (wantedUntil _) as [v|]; [|by apply elem_of_nil in He]. apply list_elem_of_singleton in He as ->. apply lookup_insert_eq.
Qed.

(** The tokens of the clause are read as the options it has. *)
Lemma options_clause s rest : safeStatement s -> keyword "OPTIONS" rest = None ->
  let '(clause, params) := buildOptionsClause (cd_options s) (cd_seedURI s) (cd_seedConfig s) in
  exists toks, lexes clause toks /\ clearStart clause = true /\ readOptions params (toks ++ rest) = Some (wantedOptions s, rest) /\
    (toks = [] \/ exists t, toks = TWord "OPTIONS" :: TSym "{" :: t).
Proof.
  intros Hs Hrest. destruct (options_parts s Hs) as (params & Hb & Hp). rewrite Hb. destruct Hs as [_ Hk].
  assert (Hes : Forall (fun e => keyWord (fst e)) (entriesOf s)).
  { unfold entriesOf, wantedOptions. rewrite map_app, Forall_app, !Forall_map. split.
    - apply Forall_forall. intros k Hin%optionKeys_elem. by apply Hk.
    - destruct (wantedUntil _); constructor; [|constructor]. split; [done|reflexivity]. }
  destruct (entriesOf s) as [|e es] eqn:Ee.
  - exists []. split_and!; [apply lexes_nil|done| |by left]. unfold readOptions. cbn [app]. rewrite Hrest.
    unfold entriesOf in Ee. by destruct (wantedOptions s).
  - exists (TWord "OPTIONS" :: TSym "{" :: joinTokens (e :: es) ++ [TSym "}"]). split_and!; [|done| |right; by eexists].
    + apply (lexes_space ("OPTIONS" +:+ " {" +:+ strings.Join (map entryText (e :: es)) ", " +:+ "}")).
      apply (lexes_app "OPTIONS" [TWord "OPTIONS"]); [by apply lexes_word| |done]. apply (lexes_space (String "{" _)), lexes_sym; [done|].
      apply lexes_app; [by apply lexes_entries| |done]. apply lexes_sym; [done|]. apply lexes_nil.
    + transitivity (readEntries params (joinTokens (e :: es) ++ TSym "}" :: rest)).
      { unfold readOptions. cbn [app]. rewrite <-app_assoc. reflexivity. }
      set (value := fun e : string * bool => (if snd e then ODateTime else OPlain) (default (PInt 0) (params !! ("opt_" +:+ fst e)))).
      assert (Hval : forall x, x ∈ wantedOptions s -> params !! ("opt_" +:+ fst x) = Some (untilParam (snd x)) /\ value (fst x, untilDate (snd x)) = snd x).
      { intros x Hx. specialize (Hp x Hx). split; [done|]. unfold value. cbn [fst snd]. rewrite Hp. by destruct x as [k []]. }
      rewrite (readEntries_join params value (e :: es)); [|done|].
      * rewrite <-Ee. unfold entriesOf. rewrite map_map. f_equal. f_equal. rewrite <-(map_id (wantedOptions s)) at 2.
        apply map_ext_in. intros x Hx%list_elem_of_In. cbn [fst]. rewrite (proj2 (Hval x Hx)). by destruct x.
      * intros x Hx. rewrite <-Ee in Hx. unfold entriesOf in Hx. apply list_elem_of_fmap in Hx as (y & -> & Hy).
        destruct (Hval y Hy) as [Hl _]. unfold value. cbn [fst snd]. by rewrite Hl.
Qed.

(** Clauses that are there or not: their tokens are read, and what follows is left. *)
Lemma keyword_other w v rest : v <> w -> keyword w (TWord v :: rest) = None.
Proof. intros H. cbn [keyword]. by rewrite (proj2 (String.eqb_neq v w) H). Qed.

Definition wantedLanguage (version : string) : option string :=
  if String.eqb version "5" || String.eqb version "25" then Some version else None.

Lemma lexes_language version :
  lexes (cypherLanguageClause version) (match wantedLanguage version with Some v => [TWord "DEFAULT"; TWord "LANGUAGE"; TWord "CYPHER"; TWord v] | None => [] end)
  /\ clearStart (cypherLanguageClause version) = true.
Proof.
  unfold cypherLanguageClause, wantedLanguage. destruct (String.eqb version "5" || String.eqb version "25") eqn:E; [|split; [apply lexes_nil|done]].
  split; [|done]. apply orb_true_iff in E. rewrite !String.eqb_eq in E.
  apply (lexes_space ("DEFAULT" +:+ " " +:+ "LANGUAGE" +:+ " " +:+ "CYPHER" +:+ " " +:+ version)).
  apply (lexes_app _ [TWord "DEFAULT"]); [by apply lexes_word| |done]. apply lexes_space.
  apply (lexes_app _ [TWord "LANGUAGE"]); [by apply lexes_word| |done]. apply lexes_space.
  apply (lexes_app _ [TWord "CYPHER"]); [by apply lexes_word| |done]. apply lexes_space. by destruct E as [-> | ->]; apply lexes_word.
Qed.

Definition countTokens (n : Z) (singular plural : string) : list token :=
  if 0 <? n then [TWord (strconv.Itoa n); TWord (pluralise n singular plural)] else [].
Definition topologyTokens (primaries secondaries : Z) : list token :=
  match countTokens primaries "PRIMARY" "PRIMARIES" ++ countTokens secondaries "SECONDARY" "SECONDARIES" with
  | [] => []
  | ks => TWord "TOPOLOGY" :: ks
  end.

Lemma digits_words s : allBytes isDigit s = true -> allBytes wordByte s = true.
Proof. apply allBytes_impl. intros c H. unfold wordByte. by rewrite H, orb_true_r. Qed.

Lemma lexes_count n singular plural : 0 < n -> keyWord singular -> keyWord plural ->
  lexes (strconv.Itoa n +:+ " " +:+ pluralise n singular plural) (countTokens n singular plural).
Proof.
  intros Hn [] []. unfold countTokens. rewrite (proj2 (Z.ltb_lt 0 n) Hn).
  apply (lexes_app _ [TWord (strconv.Itoa n)]); [apply lexes_word; [by apply Itoa_ne_empty|by apply digits_words, Itoa_digits; lia]| |done].
  apply lexes_space. unfold pluralise. destruct (n =? 1); by apply lexes_word.
Qed.

Lemma lexes_topology primaries secondaries :
  lexes (createTopologyClause primaries secondaries) (topologyTokens primaries secondaries) /\ clearStart (createTopologyClause primaries secondaries) = true.
Proof.
  assert (Hhead : forall t ks, lexes t ks -> lexes (" TOPOLOGY " +:+ t) (TWord "TOPOLOGY" :: ks)).
  { intros t ks Ht. apply (lexes_space ("TOPOLOGY" +:+ " " +:+ t)). apply (lexes_app _ [TWord "TOPOLOGY"]); [by apply lexes_word|by apply lexes_space|done]. }
  pose proof (lexes_count primaries "PRIMARY" "PRIMARIES") as Hp. pose proof (lexes_count secondaries "SECONDARY" "SECONDARIES") as Hs.
  unfold createTopologyClause, topologyTokens, countTokens in *.
  destruct (0 <? primaries) eqn:E1, (0 <? secondaries) eqn:E2; cbn [app]; breflect; split; try done.
  - apply Hhead. cbn [strings.Join]. apply (lexes_app _ [_; _]); [by apply Hp|by apply lexes_space, Hs|done].
  - by apply Hhead, Hp.
  - by apply Hhead, Hs.
  - apply lexes_nil.
Qed.

(** What may follow a topology. *)
Definition topologyEnds (rest : list token) : Prop := (exists w, rest = [TWord w]) \/ exists t, rest = TWord "OPTIONS" :: TSym "{" :: t.

Lemma readCount_ends singular plural rest : topologyEnds rest -> readCount singular plural rest = (0, rest).
Proof. by intros [[w ->]|[t ->]]. Qed.

Lemma readCount_other singular plural n w rest : w <> singular -> w <> plural ->
  readCount singular plural (TWord n :: TWord w :: rest) = (0, TWord n :: TWord w :: rest).
Proof. intros H1 H2. cbn [readCount]. by rewrite (proj2 (String.eqb_neq _ _) H1), (proj2 (String.eqb_neq _ _) H2). Qed.

Lemma readCount_count n singular plural rest : 0 < n -> readCount singular plural (countTokens n singular plural ++ rest) = (n, rest).
Proof.
  intros Hn. unfold countTokens. rewrite (proj2 (Z.ltb_lt 0 n) Hn). cbn [app readCount]. rewrite (digits_Itoa n) by lia.
  unfold pluralise. destruct (n =? 1); by rewrite String.eqb_refl, ?orb_true_r.
Qed.

(** A topology clause is read back, and what follows is left. *)
Lemma readTopology_wanted primaries secondaries rest : topologyEnds rest -> keyword "TOPOLOGY" rest = None ->
  readTopology (topologyTokens primaries secondaries ++ rest) = (Z.max 0 primaries, Z.max 0 secondaries, rest).
Proof.
  intros He Hk. unfold readTopology, topologyTokens.
  assert (Hcs : readCount "SECONDARY" "SECONDARIES" (countTokens secondaries "SECONDARY" "SECONDARIES" ++ rest) = (Z.max 0 secondaries, rest)).
  { destruct (Z.lt_ge_cases 0 secondaries) as [H|H]; [by rewrite readCount_count, Z.max_r by lia|]. unfold countTokens.
    rewrite (proj2 (Z.ltb_ge 0 secondaries) H), Z.max_l by lia. cbn [app]. by rewrite readCount_ends. }
  assert (Hcp : readCount "PRIMARY" "PRIMARIES" (countTokens primaries "PRIMARY" "PRIMARIES" ++ countTokens secondaries "SECONDARY" "SECONDARIES" ++ rest)
    = (Z.max 0 primaries, countTokens secondaries "SECONDARY" "SECONDARIES" ++ rest)).
  { destruct (Z.lt_ge_cases 0 primaries) as [H|H]; [by rewrite readCount_count, Z.max_r by lia|]. unfold countTokens at 1.
    rewrite (proj2 (Z.ltb_ge 0 primaries) H), Z.max_l by lia. cbn [app]. unfold countTokens.
    destruct (0 <? secondaries); [|by rewrite readCount_ends]. apply readCount_other; unfold pluralise; by destruct (secondaries =? 1). }
  destruct (countTokens primaries "PRIMARY" "PRIMARIES" ++ countTokens secondaries "SECONDARY" "SECONDARIES") as [|k ks] eqn:Ek.
  - cbn [app]. rewrite Hk. apply app_eq_nil in Ek as [E1 E2]. rewrite E1, E2 in Hcp. rewrite E2 in Hcs. cbn [app] in *. rewrite readCount_ends in Hcp, Hcs by done. congruence.
  - transitivity (let '(primaries, r) := readCount "PRIMARY" "PRIMARIES" ((k :: ks) ++ rest) in
                  let '(secondaries, r) := readCount "SECONDARY" "SECONDARIES" r in (primaries, secondaries, r)); [done|].
    by rewrite <-Ek, <-app_assoc, Hcp, Hcs.
Qed.

(** What the server reads of a statement. *)
Definition wantedCreate (s : createDatabaseStatement) : createRead :=
  mkCreateRead (cd_name s) (cd_ifNotExists s) (wantedLanguage (cd_cypherVersion s)) (Z.max 0 (cd_primaries s)) (Z.max 0 (cd_secondaries s))
    (wantedOptions s) (cd_wait s).

(** The tokens of each clause. *)
Definition existsTokens (s : createDatabaseStatement) : list token :=
  if cd_ifNotExists s then [TWord "IF"; TWord "NOT"; TWord "EXISTS"] else [].
Definition languageTokens (s : createDatabaseStatement) : list token :=
  match wantedLanguage (cd_cypherVersion s) with Some v => [TWord "DEFAULT"; TWord "LANGUAGE"; TWord "CYPHER"; TWord v] | None => [] end.
Definition lastWord (s : createDatabaseStatement) : string := if cd_wait s then "WAIT" else "NOWAIT".

Lemma lexes_create s clause toks :
  allBytes (fun c => negb (Ascii.eqb c tickChar)) (cd_name s) = true -> lexes clause toks -> clearStart clause = true ->
  lexes ("CREATE DATABASE `" +:+ cd_name s +:+ "`" +:+ (if cd_ifNotExists s then " IF NOT EXISTS" else EmptyString)
     +:+ cypherLanguageClause (cd_cypherVersion s) +:+ createTopologyClause (cd_primaries s) (cd_secondaries s) +:+ clause
     +:+ (if cd_wait s then " WAIT" else " NOWAIT"))
    (TWord "CREATE" :: TWord "DATABASE" :: TName (cd_name s) :: existsTokens s ++ languageTokens s
     ++ topologyTokens (cd_primaries s) (cd_secondaries s) ++ toks ++ [TWord (lastWord s)]).
Proof.
  intros Hn Ht Hc. destruct (lexes_language (cd_cypherVersion s)) as [Hl1 Hl2]. destruct (lexes_topology (cd_primaries s) (cd_secondaries s)) as [Ht1 Ht2].
  assert (Hlast : lexes (if cd_wait s then " WAIT" else " NOWAIT") [TWord (lastWord s)] /\ clearStart (if cd_wait s then " WAIT" else " NOWAIT") = true)
    by (unfold lastWord; destruct (cd_wait s); (split; [by apply (lexes_space _ [_]), lexes_word|done])).
  destruct Hlast as [Hw1 Hw2].
  assert (Hex : lexes (if cd_ifNotExists s then " IF NOT EXISTS" else EmptyString) (existsTokens s)).
  { unfold existsTokens. destruct (cd_ifNotExists s); [|apply lexes_nil]. apply (lexes_space ("IF" +:+ " " +:+ "NOT" +:+ " " +:+ "EXISTS")).
    apply (lexes_app _ [TWord "IF"]); [by apply lexes_word| |done]. apply lexes_space.
    apply (lexes_app _ [TWord "NOT"]); [by apply lexes_word| |done]. by apply lexes_space, lexes_word. }
  match goal with |- lexes (_ +:+ _ +:+ _ +:+ ?X) (_ :: _ :: _ :: ?ks) =>
    change (lexes ("CREATE" +:+ " " +:+ "DATABASE" +:+ " " +:+ "`" +:+ cd_name s +:+ "`" +:+ X) ([TWord "CREATE"] ++ [TWord "DATABASE"] ++ [TName (cd_name s)] ++ ks));
    replace ("`" +:+ cd_name s +:+ "`" +:+ X) with (("`" +:+ cd_name s +:+ "`") +:+ X) by (by rewrite !string_app_assoc)
  end.
  apply lexes_app; [by apply lexes_word| |done]. apply lexes_space. apply lexes_app; [by apply lexes_word| |done]. apply lexes_space.
  apply lexes_app; [by apply lexes_name| |].
  - repeat (apply lexes_app; [done| |repeat (apply clearStart_app; [done|]); done]). done.
  - apply clearStart_app; [by destruct (cd_ifNotExists s)|]. by repeat (apply clearStart_app; [done|]).
Qed.

(** Read back: the statement, its names being safe, is to the server what the spec
    asked for, each value bound to its own key. *)
Lemma create_statement_read s : safeStatement s -> readStatement (buildCreateDatabaseQuery s) = Some (wantedCreate s).
Proof.
  intros Hs. unfold readStatement, buildCreateDatabaseQuery. pose proof (options_clause s [TWord (lastWord s)] Hs) as Ho.
  destruct (buildOptionsClause _ _ _) as [clause params]. destruct Ho as (toks & Ht & Hc & Hr & Hk); [unfold lastWord; by destruct (cd_wait s)|].
  pose proof (lexes_create s clause toks (proj1 Hs) Ht Hc EmptyString ltac:(done)) as Hlex. rewrite string_app_nil_r in Hlex. cbn [fst snd].
  rewrite Hlex. cbn [lexCypher fmap option_fmap option_map mbind option_bind]. rewrite app_nil_r. clear Hlex Ht Hc.
  set (topo := topologyTokens _ _). set (tail := toks ++ [TWord (lastWord s)]) in *.
  assert (Htail : topologyEnds tail /\ keyword "TOPOLOGY" tail = None)
    by (subst tail; unfold lastWord; destruct Hk as [->|[t ->]]; (split; [|by destruct (cd_wait s)]); [left; by eexists|right; by eexists]).
  assert (Htopo : topo = [] \/ exists t, topo = TWord "TOPOLOGY" :: t)
    by (subst topo; unfold topologyTokens; destruct (countTokens _ _ _ ++ countTokens _ _ _); [by left|right; by eexists]).
  transitivity (readClauses params (cd_name s) (existsTokens s ++ languageTokens s ++ topo ++ tail)); [done|]. unfold readClauses.
  assert (readExists (existsTokens s ++ languageTokens s ++ topo ++ tail) = (cd_ifNotExists s, languageTokens s ++ topo ++ tail)) as ->.
  { unfold readExists, existsTokens. destruct (cd_ifNotExists s); [done|]. cbn [app]. subst tail. unfold languageTokens, lastWord.
    destruct Htopo as [->|[t1 ->]], Hk as [->|[t2 ->]]; destruct (cd_wait s), (wantedLanguage _); done. }
  assert (readLanguage (languageTokens s ++ topo ++ tail) = (wantedLanguage (cd_cypherVersion s), topo ++ tail)) as ->.
  { unfold readLanguage, languageTokens. destruct (wantedLanguage _); [done|]. subst tail. unfold lastWord.
    destruct Htopo as [->|[t1 ->]], Hk as [->|[t2 ->]]; by destruct (cd_wait s). }
  subst topo. rewrite readTopology_wanted, Hr by apply Htail. unfold wantedCreate, lastWord. by destruct (cd_wait s).
Qed.
