(* ===== verification/DatabaseRules.v ===== *)
(** What a Neo4jDatabase is refused for (src/internal/validation/database_validator.go),
    and that the CREATE DATABASE statement of a spec that passes is read by the server
    as the spec means it. url.Parse is a parameter (scheme, host and path, or its
    error), of which nothing is assumed. Only refusals are modelled, not the
    warnings; the options and the seed's configuration are given in the order ranged
    over. *)
From S2P Require Import Prelude GoStrings GoRFC3339 ClusterTypes Version UpgradeRules UpgradeMachine RestoreTypes DatabaseStatement.

Open Scope Z_scope.

(** * Refusals *)

Inductive databaseRefusal :=
| DRefused (e : fieldError)
| DInvalidInt (path : string) (value : Z) (detail : string)
| DRequired (path detail : string)
| DForbidden (path detail : string)
| DNotFound (path value : string).

Definition databaseRefusalText (r : databaseRefusal) : string :=
  match r with
  | DRefused e => fieldErrorText e
  | DInvalidInt path value detail => path +:+ ": Invalid value: " +:+ strconv.Itoa value +:+ ": " +:+ detail
  | DRequired path detail => path +:+ ": Required value: " +:+ detail
  | DForbidden path detail => path +:+ ": Forbidden: " +:+ detail
  | DNotFound path value => path +:+ ": Not found: " +:+ fmt.q value
  end.

Definition drefuse (b : bool) (r : databaseRefusal) : list databaseRefusal := if b then [r] else [].
Definition dinvalid (path value detail : string) : databaseRefusal := DRefused (FieldInvalid path value detail).

(** * The name *)

Definition minCreatedDatabaseNameLength : nat := 3.
Definition maxCreatedDatabaseNameLength : nat := 63.

Definition validateCreatedDatabaseNameLength (name path : string) : list databaseRefusal :=
  let n := String.length name in
  if String.eqb name EmptyString || ((minCreatedDatabaseNameLength <=? n) && (n <=? maxCreatedDatabaseNameLength))%nat then []
  else [dinvalid path name ("Neo4j requires a database name of 3 to 63 characters; this one has " +:+ strconv.Itoa (Z.of_nat n))].

(** [^[a-zA-Z][a-zA-Z0-9.\-]*$] *)
Definition neo4jDatabaseNamePattern (name : string) : bool :=
  match name with EmptyString => false | String c rest => asciiLetter c && allBytes databaseNameByte rest end.

Definition validateDatabaseName (name path : string) : list databaseRefusal :=
  if String.eqb name EmptyString then [DRequired path "database name is required"]
  else
    drefuse (maxDatabaseNameLength <? String.length name)%nat (dinvalid path name "must be no more than 65 characters")
    ++ drefuse (negb (neo4jDatabaseNamePattern name)) (dinvalid path name "must start with a letter and contain only letters, digits, dots, or dashes")
    ++ drefuse (strings.EqualFold name "system") (DForbidden path "'system' is a reserved database name").

(** * The topology *)

(** What is known of the deployment: nothing, a cluster with its servers and image
    tag, or a standalone with its image tag. *)
Inductive hostSeen :=
| HostUnknown
| HostCluster (servers : Z) (tag : string)
| HostStandalone (tag : string).

Definition hostTag (h : hostSeen) : string :=
  match h with HostUnknown => EmptyString | HostCluster _ tag | HostStandalone tag => tag end.

(** A sum of int32 values. *)
Definition wrap32 (n : Z) : Z := (n + 2147483648) mod 4294967296 - 2147483648.

Definition validateTopologyCounts (t : DatabaseTopology) : list databaseRefusal :=
  drefuse (dt_Primaries t <? 0) (DInvalidInt "spec.topology.primaries" (dt_Primaries t) "primaries cannot be negative")
  ++ drefuse (dt_Secondaries t <? 0) (DInvalidInt "spec.topology.secondaries" (dt_Secondaries t) "secondaries cannot be negative").

Definition validateDatabaseTopology (t : DatabaseTopology) (servers : Z) : list databaseRefusal :=
  validateTopologyCounts t
  ++ drefuse ((dt_Primaries t =? 0) && (0 <=? dt_Primaries t) && (0 <=? dt_Secondaries t))
       (DInvalidInt "spec.topology.primaries" (dt_Primaries t) "at least 1 primary is required for database operation")
  ++ (let total := wrap32 (dt_Primaries t + dt_Secondaries t) in
      drefuse ((0 <=? dt_Primaries t) && (0 <=? dt_Secondaries t) && (servers <? total))
        (dinvalid "spec.topology"
           (strconv.Itoa (dt_Primaries t) +:+ " primaries + " +:+ strconv.Itoa (dt_Secondaries t) +:+ " secondaries = " +:+ strconv.Itoa total +:+ " servers")
           ("database topology requires " +:+ strconv.Itoa total +:+ " servers but cluster only has " +:+ strconv.Itoa servers +:+ " servers available"))).

Definition validateTopology (spec : DatabaseSpec) (h : hostSeen) : list databaseRefusal :=
  match ds_Topology spec with
  | None => []
  | Some t =>
      match h with
      | HostStandalone _ | HostUnknown => validateTopologyCounts t
      | HostCluster servers _ => validateDatabaseTopology t servers
      end
  end.

(** * The language *)

Definition validateCypherLanguage (spec : DatabaseSpec) (imageTag : string) : list databaseRefusal :=
  let version := ds_DefaultCypherLanguage spec in
  let path := "spec.defaultCypherLanguage" in
  if String.eqb version EmptyString then []
  else if negb (String.eqb version "5") && negb (String.eqb version "25") then [DRefused (FieldNotSupported path version ["5"; "25"])]
  else match ParseVersion imageTag with
       | Ok parsed =>
           if negb (SupportsCypherLanguageVersion parsed) && String.eqb version "25"
           then [dinvalid path version ("not supported on Neo4j " +:+ imageTag +:+ ": Cypher 25 does not exist on the 5.26 LTS and the DEFAULT LANGUAGE CYPHER clause does not parse there. Remove the field, or run a CalVer image")]
           else []
       | Err _ => []
       end.

(** * The seed *)

Definition isValidRestoreUntilTxID (s : string) : bool :=
  negb (String.eqb s EmptyString) && allBytes isDigit s && match strconv.Atoi s with Some _ => true | None => false end.

(** [time.Parse] takes a fraction of a second whether the layout has one or not. *)
Definition isRFC3339Timestamp (s : string) : bool := match gotime.Parse s with Some _ => true | None => false end.

Definition cypherLiteralUnsafe (s : string) : bool :=
  negb (allBytes (fun c => negb (Ascii.eqb c "'" || Ascii.eqb c "`" || Ascii.eqb c "010" || Ascii.eqb c "013")) s).

(** [^[a-zA-Z0-9._-]+$] *)
Definition seedConfigKeyPattern (key : string) : bool :=
  negb (String.eqb key EmptyString) && allBytes (fun c => asciiLetter c || isDigit c || strings.byteIn c "._-") key.

Definition validateSeedConfigEntry (kv : string * string) : list databaseRefusal :=
  let path := "spec.seedConfig.config[" +:+ kv.1 +:+ "]" in
  drefuse (negb (seedConfigKeyPattern kv.1)) (dinvalid path kv.1 "seedConfig key may contain only letters, digits, dots, underscores and dashes")
  ++ drefuse (negb (allBytes (fun c => negb (strings.byteIn c ",=")) kv.2) || cypherLiteralUnsafe kv.2)
       (dinvalid path kv.2 "seedConfig value may not contain ',', '=', quote, backtick or newline characters").

Definition validateSeedConfiguration (c : SeedConfiguration) (config : list (string * string)) (imageTag : string) : list databaseRefusal :=
  let path := "spec.seedConfig.restoreUntil" in
  let until := sc_RestoreUntil c in
  (if String.eqb until EmptyString then []
   else
     (if strings.HasPrefix until "txId:" then
        drefuse (negb (isValidRestoreUntilTxID (strings.TrimPrefix until "txId:")))
          (dinvalid path until "txId: format requires a positive integer within int64 range (e.g., 'txId:12345')")
      else drefuse (negb (isRFC3339Timestamp until))
        (dinvalid path until "restoreUntil must be an RFC3339 timestamp (e.g., '2025-01-15T10:30:00Z') or a transaction ID (e.g., 'txId:12345')"))
     ++ match ParseVersion imageTag with
        | Ok parsed =>
            drefuse (negb (IsCalver parsed))
              (DForbidden path ("point-in-time seed (restoreUntil) requires Neo4j 2025.x+ (CalVer); target image " +:+ fmt.q imageTag +:+ " is a 5.x LTS line"))
        | Err _ => []
        end)
  ++ flat_map validateSeedConfigEntry config.

(** [secret]: the keys of the Secret, or the error of reading it and whether it was
    "not found". *)
Definition validateSecretKeysForScheme (scheme : string) (secret : gset string) : list databaseRefusal :=
  let path := "spec.seedCredentials.secretRef" in
  let required keys := flat_map (fun key => drefuse (negb (bool_decide (key ∈ secret))) (DRequired path ("secret must contain required key '" +:+ key +:+ "'"))) keys in
  let has key := bool_decide (key ∈ secret) in
  if String.eqb scheme "s3" then required ["AWS_ACCESS_KEY_ID"; "AWS_SECRET_ACCESS_KEY"]
  else if String.eqb scheme "gs" then required ["GOOGLE_APPLICATION_CREDENTIALS"]
  else if String.eqb scheme "azb" then
    drefuse (negb (has "AZURE_STORAGE_ACCOUNT")) (DRequired path "secret must contain AZURE_STORAGE_ACCOUNT for Azure Blob Storage")
    ++ drefuse (negb (has "AZURE_STORAGE_KEY") && negb (has "AZURE_STORAGE_SAS_TOKEN"))
         (DRequired path "secret must contain either AZURE_STORAGE_KEY or AZURE_STORAGE_SAS_TOKEN for Azure Blob Storage")
  else [].

Definition validateSeedCredentials (secretRef scheme : string) (secret : gset string + bool) : list databaseRefusal :=
  let path := "spec.seedCredentials.secretRef" in
  if String.eqb secretRef EmptyString then [DRequired path "secretRef is required when seedCredentials is specified"]
  else match secret with
       | inr notFound => drefuse notFound (DNotFound path ("Secret " +:+ secretRef +:+ " not found"))
       | inl secret => validateSecretKeysForScheme scheme secret
       end.

Definition supportedSchemes : list string := ["s3"; "gs"; "azb"; "https"; "http"; "ftp"].

(** A parsed URI. *)
Record parsedURI := mkParsedURI { pu_Scheme : string; pu_Host : string; pu_Path : string }.

Section Rules.
Variable urlParse : string -> result parsedURI.

Definition validateSeedURI (spec : DatabaseSpec) (config : list (string * string)) (secret : gset string + bool) (imageTag : string) : list databaseRefusal :=
  let path := "spec.seedURI" in
  let seedURI := ds_SeedURI spec in
  if String.eqb seedURI EmptyString then []
  else match urlParse seedURI with
       | Err e => [dinvalid path seedURI ("invalid URI format: " +:+ e)]
       | Ok uri =>
           if negb (existsb (String.eqb (pu_Scheme uri)) supportedSchemes)
           then [DRefused (FieldNotSupported path (pu_Scheme uri) supportedSchemes)]
           else if String.eqb (pu_Host uri) EmptyString then [dinvalid path seedURI "URI must specify a host"]
           else if String.eqb (pu_Path uri) EmptyString || String.eqb (pu_Path uri) "/"
           then [dinvalid path seedURI "URI must specify a path to the backup file"]
           else
             match ds_SeedConfig spec with Some c => validateSeedConfiguration c config imageTag | None => [] end
             ++ match ds_SeedCredentials spec with Some ref => validateSeedCredentials ref (pu_Scheme uri) secret | None => [] end
       end.

(** * The options *)

Definition validOptions : list string :=
  ["seedConfig"; "existingDataSeedServer"; "existingData"; "seedCredentials"; "seedURI"; "existingDataSeedInstance"; "existingMetadata"; "txLogEnrichment"; "storeFormat"].

Definition convertedKey (key : string) : string := strings.ReplaceAllByte (strings.Trim key dquote) "." "_".

Definition validateKnownOptionKeys (key value : string) : list databaseRefusal :=
  let path := "spec.options[" +:+ key +:+ "]" in
  let cleanKey := strings.Trim key dquote in
  let converted := convertedKey key in
  if negb (existsb (fun o => strings.EqualFold converted o || strings.EqualFold cleanKey o) validOptions)
  then [dinvalid path key ("'" +:+ cleanKey +:+ "' is not a valid CREATE DATABASE OPTIONS parameter. Valid options are: ["
          +:+ strings.Join validOptions " " +:+ "]. Note: Database-level configuration should be set via ALTER DATABASE or server configuration, not CREATE DATABASE OPTIONS.")]
  else
    let kind := strings.ToLower converted in
    if String.eqb kind "storeformat" then
      drefuse (negb (existsb (String.eqb value) ["standard"; "high_limit"; "block"])) (DRefused (FieldNotSupported path value ["standard"; "high_limit"; "block"]))
    else if String.eqb kind "txlogenrichment" then
      drefuse (negb (existsb (String.eqb (strings.ToUpper value)) ["OFF"; "DIFF"])) (DRefused (FieldNotSupported path (strings.ToUpper value) ["OFF"; "DIFF"]))
    else if String.eqb kind "existingdata" then
      drefuse (negb (existsb (String.eqb value) ["use"; "fail"])) (DRefused (FieldNotSupported path value ["use"; "fail"]))
    else [].

Definition validateOption (kv : string * string) : list databaseRefusal :=
  drefuse (String.eqb kv.2 EmptyString) (dinvalid ("spec.options[" +:+ kv.1 +:+ "]") kv.2 "option value cannot be empty")
  ++ validateKnownOptionKeys kv.1 kv.2.

Definition validateConfigurationConflicts (spec : DatabaseSpec) : list databaseRefusal :=
  drefuse (negb (String.eqb (ds_SeedURI spec) EmptyString) && match ds_InitialData spec with Some _ => true | None => false end)
    (dinvalid "spec.seedURI" (ds_SeedURI spec) "seedURI and initialData cannot be specified together - seed URI provides the initial data").

(** * All of them *)

Definition ValidateDatabase (spec : DatabaseSpec) (options config : list (string * string)) (h : hostSeen) (secret : gset string + bool) : list databaseRefusal :=
  validateDatabaseName (ds_Name spec) "spec.name"
  ++ validateCreatedDatabaseNameLength (ds_Name spec) "spec.name"
  ++ drefuse (String.eqb (ds_ClusterRef spec) EmptyString) (DRequired "spec.clusterRef" "clusterRef is required")
  ++ validateTopology spec h
  ++ validateCypherLanguage spec (hostTag h)
  ++ validateSeedURI spec config secret (hostTag h)
  ++ flat_map validateOption options
  ++ validateConfigurationConflicts spec.
End Rules.

(** * What a valid spec guarantees *)

Lemma drefuse_nil b r : drefuse b r = [] -> b = false.
Proof. by destruct b. Qed.

Lemma lower_letter c : asciiLetter (strings.lowerByte c) = asciiLetter c.
Proof. by destruct c as [[] [] [] [] [] [] [] []]. Qed.

Lemma lower_letters s : allBytes asciiLetter (strings.ToLower s) = allBytes asciiLetter s.
Proof. induction s as [|c s IH]; cbn [strings.ToLower allBytes]; [done|]. by rewrite lower_letter, IH. Qed.

(** A key that is a known option up to case is a word, and not the reserved one. *)
Lemma known_key k o : o ∈ validOptions -> strings.EqualFold k o = true -> keyWord k /\ k <> "seedRestoreUntil".
Proof.
  unfold strings.EqualFold. intros Ho E%String.eqb_eq.
  assert (allBytes asciiLetter o = true /\ strings.ToLower o <> EmptyString /\ strings.ToLower o <> strings.ToLower "seedRestoreUntil") as (H1 & H2 & H3).
  { apply list_elem_of_In in Ho. repeat (destruct Ho as [<-|Ho]; [vm_compute; repeat split; discriminate|]). destruct Ho. }
  split; [split|].
  - intros ->. by apply H2.
  - rewrite <-lower_letters, <-E, lower_letters in H1. revert H1. apply allBytes_impl. intros c Hc. unfold wordByte. by rewrite Hc.
  - intros ->. by apply H3.
Qed.

Lemma contains_dot s : strings.Contains s "." = false -> strings.ReplaceAllByte s "." "_" = s.
Proof.
  unfold strings.Contains. induction s as [|c s IH]; [done|]. cbn [strings.Index strings.HasPrefix strings.ReplaceAllByte].
  assert (strings.HasPrefix s EmptyString = true) as -> by (by destruct s). rewrite andb_true_r, (Ascii.eqb_sym "." c). destruct (Ascii.eqb c "."); [done|]. destruct (strings.Index s "."); [done|]. intros _. by rewrite IH.
Qed.

Lemma formatOptionKey_converted key : formatOptionKey key = convertedKey key.
Proof. unfold formatOptionKey, convertedKey. destruct (strings.Contains _ _) eqn:E; [done|]. by rewrite contains_dot. Qed.

(** No known option has a dot, so matching the key as it is or converted is one. *)
Lemma fold_no_dot s o : o ∈ validOptions -> strings.EqualFold s o = true -> strings.ReplaceAllByte s "." "_" = s.
Proof.
  intros Ho E. destruct (known_key s o Ho E) as [[_ Hw] _]. clear Ho E. induction s as [|c s IH]; [done|].
  cbn [allBytes strings.ReplaceAllByte] in *. apply andb_true_iff in Hw as [Hc Hw].
  destruct (Ascii.eqb c ".") eqn:E; [apply Ascii.eqb_eq in E as ->; done|]. by rewrite IH.
Qed.

Lemma option_key_safe key value : validateKnownOptionKeys key value = [] -> keyWord (formatOptionKey key) /\ formatOptionKey key <> "seedRestoreUntil".
Proof.
  unfold validateKnownOptionKeys. destruct (existsb _ validOptions) eqn:E; [|done]. intros _. rewrite formatOptionKey_converted.
  apply existsb_exists in E as (o & Ho%list_elem_of_In & [E|E]%orb_true_iff); [by apply (known_key _ o)|].
  unfold convertedKey. rewrite (fold_no_dot _ o) by done. by apply (known_key _ o).
Qed.

(** The keys of the merged options are those of the spec and of the seed. *)
Lemma fold_options_keys options : forall m k, is_Some (fold_left (fun m kv => <[formatOptionKey kv.1 := kv.2]> m) options m !! k) ->
  is_Some ((m : gmap string string) !! k) \/ exists kv, kv ∈ options /\ k = formatOptionKey kv.1.
Proof.
  induction options as [|kv options IH]; intros m k; cbn [fold_left]; [by left|]. intros [H|(kv' & H & ->)]%IH.
  - rewrite lookup_insert_is_Some' in H. destruct H as [<-|H]; [right; exists kv; split; [apply list_elem_of_here|done]|by left].
  - right. exists kv'. split; [by right|done].
Qed.

Lemma merged_key options seedURI seedConfig k : is_Some (mergedOptions options seedURI seedConfig !! k) ->
  k = "seedURI" \/ k = "seedConfig" \/ exists kv, kv ∈ options /\ k = formatOptionKey kv.1.
Proof.
  unfold mergedOptions. set (m := fold_left _ options ∅).
  assert (Hm : is_Some (m !! k) -> k = "seedURI" \/ k = "seedConfig" \/ exists kv, kv ∈ options /\ k = formatOptionKey kv.1).
  { intros [H|H]%fold_options_keys; [by rewrite lookup_empty in H; destruct H|tauto]. }
  assert (Hu : is_Some ((if String.eqb seedURI EmptyString then m else <["seedURI" := seedURI]> m) !! k) -> k = "seedURI" \/ k = "seedConfig" \/ exists kv, kv ∈ options /\ k = formatOptionKey kv.1).
  { destruct (String.eqb _ _); [done|]. rewrite lookup_insert_is_Some'. intros [<-|?]; [by left|by apply Hm]. }
  destruct seedConfig as [c|]; [|done]. destruct (String.eqb (SerializeSeedConfig _) _); [done|].
  rewrite lookup_insert_is_Some'. intros [<-|?]; [tauto|by apply Hu].
Qed.

(** The name has no backquote. *)
Lemma name_no_tick name : neo4jDatabaseNamePattern name = true -> allBytes (fun c => negb (Ascii.eqb c tickChar)) name = true.
Proof.
  assert (Hb : forall c, databaseNameByte c = true -> negb (Ascii.eqb c tickChar) = true) by (intros c; by destruct c as [[] [] [] [] [] [] [] []]).
  destruct name as [|c name]; [done|]. cbn [neo4jDatabaseNamePattern allBytes]. intros [Hc Hn]%andb_true_iff.
  rewrite Hb by (unfold databaseNameByte; by rewrite Hc). revert Hn. by apply allBytes_impl.
Qed.

Lemma valid_name name path : validateDatabaseName name path = [] -> neo4jDatabaseNamePattern name = true /\ strings.EqualFold name "system" = false.
Proof.
  unfold validateDatabaseName. destruct (String.eqb name EmptyString); [done|]. intros [_ [H1%drefuse_nil%negb_false_iff H2%drefuse_nil]%app_eq_nil]%app_eq_nil. done.
Qed.

(** The counts of a topology that is accepted, as far as their sum is an int32. *)
Lemma valid_topology t servers : validateDatabaseTopology t servers = [] -> dt_Primaries t + dt_Secondaries t < 2147483648 ->
  1 <= dt_Primaries t /\ 0 <= dt_Secondaries t /\ dt_Primaries t + dt_Secondaries t <= servers.
Proof.
  unfold validateDatabaseTopology, validateTopologyCounts. intros H Hsum.
  apply app_eq_nil in H as [[H1%drefuse_nil H2%drefuse_nil]%app_eq_nil [H3%drefuse_nil H4%drefuse_nil]%app_eq_nil]. cbv zeta in H4. apply Z.ltb_ge in H1, H2.
  rewrite (proj2 (Z.leb_le _ _) H1), (proj2 (Z.leb_le _ _) H2) in H3, H4. rewrite !andb_true_r in H3. cbn [andb] in H4.
  apply Z.eqb_neq in H3. apply Z.ltb_ge in H4. unfold wrap32 in H4. rewrite Z.mod_small in H4 by lia. lia.
Qed.

Lemma valid_counts spec h t : validateTopology spec h = [] -> ds_Topology spec = Some t -> 0 <= dt_Primaries t /\ 0 <= dt_Secondaries t.
Proof.
  unfold validateTopology. intros H E. rewrite E in H.
  assert (validateTopologyCounts t = []) as [H1%drefuse_nil H2%drefuse_nil]%app_eq_nil; [|lia].
  destruct h; try done. unfold validateDatabaseTopology in H. by apply app_eq_nil in H as [? _].
Qed.

Lemma valid_language spec tag : validateCypherLanguage spec tag = [] ->
  wantedLanguage (DefaultLanguageForImage tag (ds_DefaultCypherLanguage spec)) =
  (if String.eqb (DefaultLanguageForImage tag (ds_DefaultCypherLanguage spec)) EmptyString then None
   else Some (DefaultLanguageForImage tag (ds_DefaultCypherLanguage spec))).
Proof.
  unfold validateCypherLanguage, wantedLanguage, DefaultLanguageForImage. set (v := ds_DefaultCypherLanguage spec).
  destruct (String.eqb v EmptyString) eqn:E0; [done|]. destruct (String.eqb v "5") eqn:E5, (String.eqb v "25") eqn:E25; cbn [negb andb]; try done;
    intros _; destruct (ParseVersion tag) as [p|]; try (by rewrite ?E5, ?E25, E0); destruct (negb (SupportsCypherLanguageVersion p)); by rewrite ?E5, ?E25, ?E0.
Qed.

(** What the spec asks of the server on a host of this kind. *)
Definition askedTopology (spec : DatabaseSpec) (standalone : bool) : option DatabaseTopology := if standalone then None else ds_Topology spec.
Definition askedSeed (spec : DatabaseSpec) : option SeedConfiguration := if String.eqb (ds_SeedURI spec) EmptyString then None else ds_SeedConfig spec.

Lemma wanted_elem s k v : (k, v) ∈ wantedOptions s <->
  (exists text, mergedOptions (cd_options s) (cd_seedURI s) (cd_seedConfig s) !! k = Some text /\ v = OPlain (PString text)) \/
  (k = "seedRestoreUntil" /\ wantedUntil (cd_seedConfig s) = Some v).
Proof.
  unfold wantedOptions. set (m := mergedOptions _ _ _). rewrite elem_of_app. split; (intros [H|H]; [left|right]).
  - apply list_elem_of_fmap in H as (k' & [= -> ->] & [text Ht]%optionKeys_elem). exists text. by rewrite Ht.
  - destruct (wantedUntil _); [|by apply elem_of_nil in H]. by apply list_elem_of_singleton in H as [= -> ->].
  - destruct H as (text & Ht & ->). apply list_elem_of_fmap. exists k. rewrite optionKeys_elem, Ht. by split; [|eexists].
  - destruct H as [-> ->]. by apply list_elem_of_singleton.
Qed.

Lemma until_not_plain seedConfig text : wantedUntil seedConfig <> Some (OPlain (PString text)).
Proof.
  unfold wantedUntil. destruct seedConfig as [c|]; [|done]. destruct (String.eqb _ _); [done|]. destruct (strings.CutPrefix _ _) as [t|]; [|done].
  by destruct (strconv.Atoi t).
Qed.

(** C32: what the server reads of CREATE DATABASE is what the spec asks for. For a spec
    that passes validation, the text of the statement with its parameters is read
    as one statement with the spec's name, IF NOT EXISTS and WAIT, its counts of
    primaries and secondaries, and its language where the server has one; every
    option is bound to its own value, the seed's URI, configuration and point in
    time among them, and nothing else is an option. On a cluster the topology has
    a primary and fits its servers, the sum of the counts being an int32. *)
Theorem create_statement_reads_back (urlParse : string -> result parsedURI) (spec : DatabaseSpec) (options config : list (string * string))
    (h : hostSeen) (secret : gset string + bool) (standalone : bool) :
  ValidateDatabase urlParse spec options config h secret = [] ->
  let language := DefaultLanguageForImage (hostTag h) (ds_DefaultCypherLanguage spec) in
  let topology := askedTopology spec standalone in
  (exists r, readStatement (buildCreateDatabaseQuery (createStatement spec options topology language)) = Some r /\
    rd_name r = ds_Name spec /\ rd_ifNotExists r = ds_IfNotExists spec /\ rd_wait r = ds_Wait spec /\
    (rd_primaries r, rd_secondaries r) = match topology with Some t => (dt_Primaries t, dt_Secondaries t) | None => (0, 0) end /\
    rd_language r = (if String.eqb language EmptyString then None else Some language) /\
    (forall k v, (k, OPlain (PString v)) ∈ rd_options r <-> mergedOptions options (ds_SeedURI spec) (askedSeed spec) !! k = Some v) /\
    (forall v, ("seedRestoreUntil", v) ∈ rd_options r <-> wantedUntil (askedSeed spec) = Some v)) /\
  (forall t servers tag, ds_Topology spec = Some t -> h = HostCluster servers tag -> dt_Primaries t + dt_Secondaries t < 2147483648 ->
    1 <= dt_Primaries t /\ 0 <= dt_Secondaries t /\ dt_Primaries t + dt_Secondaries t <= servers).
Proof.
  unfold ValidateDatabase. intros H. cbv zeta.
  apply app_eq_nil in H as [Hname H]. apply app_eq_nil in H as [_ H]. apply app_eq_nil in H as [_ H]. apply app_eq_nil in H as [Htopo H].
  apply app_eq_nil in H as [Hlang H]. apply app_eq_nil in H as [_ H]. apply app_eq_nil in H as [Hopts _].
  set (s := createStatement _ _ _ _).
  assert (Hfields : cd_name s = ds_Name spec /\ cd_ifNotExists s = ds_IfNotExists spec /\ cd_wait s = ds_Wait spec /\ cd_options s = options /\
    cd_seedURI s = ds_SeedURI spec /\ cd_seedConfig s = askedSeed spec /\ cd_cypherVersion s = DefaultLanguageForImage (hostTag h) (ds_DefaultCypherLanguage spec) /\
    (cd_primaries s, cd_secondaries s) = match askedTopology spec standalone with Some t => (dt_Primaries t, dt_Secondaries t) | None => (0, 0) end).
  { unfold s, createStatement, askedSeed. destruct (askedTopology spec standalone) as [[p q]|]; destruct (String.eqb _ _) eqn:E; breflect; by rewrite ?E. }
  destruct Hfields as (F1 & F2 & F3 & F4 & F5 & F6 & F7 & F8).
  assert (Hsafe : safeStatement s).
  { split; [rewrite F1; by apply name_no_tick, (valid_name _ "spec.name")|]. rewrite F4, F5, F6. intros k [->|[->|(kv & Hin & ->)]]%merged_key; [done|done|].
    apply (option_key_safe kv.1 kv.2). assert (validateOption kv = []) as [_ ?]%app_eq_nil; [|done].
    apply list_elem_of_split in Hin as (l1 & l2 & ->). rewrite flat_map_app in Hopts. apply app_eq_nil in Hopts as [_ Hopts]. by apply app_eq_nil in Hopts as [? _]. }
  split.
  - exists (wantedCreate s). split; [by apply create_statement_read|]. unfold wantedCreate. cbn [rd_name rd_ifNotExists rd_wait rd_primaries rd_secondaries rd_language rd_options].
    split_and!; [done..| | | |].
    + rewrite <-F8. unfold askedTopology in F8. destruct standalone; [by injection F8 as -> ->|].
      destruct (ds_Topology spec) as [t|] eqn:Et; [|by injection F8 as -> ->]. destruct (valid_counts spec h t Htopo Et). injection F8 as -> ->. by rewrite !Z.max_r.
    + rewrite F7. by apply valid_language.
    + intros k v. rewrite wanted_elem, F4, F5, F6. split; [|by intros ?; left; exists v].
      intros [(text & Ht & [= ->])|[_ Hu]]; [done|by apply until_not_plain in Hu].
    + intros v. rewrite wanted_elem, F6. split; [|by intros ?; right]. intros [(text & Ht & _)|[_ Hu]]; [|done].
      by destruct (proj2 Hsafe "seedRestoreUntil") as [_ ?]; [rewrite F6, Ht|].
  - intros t servers tag Et -> Hsum. apply valid_topology; [|done]. unfold validateTopology in Htopo. by rewrite Et in Htopo.
Qed.

Module DatabaseRulesSample.
Definition anyURI (s : string) : result parsedURI := Ok (mkParsedURI "s3" "b" "/x").
Definition config : list (string * string) := [("region", "eu-west-1")].
Definition options : list (string * string) := [("storeFormat", "block")].
Definition sales : DatabaseSpec :=
  mkDatabaseSpec "c" "sales" (list_to_map options) None true true (Some (mkDatabaseTopology 2 1)) "25" "s3://b/x"
    (Some (mkSeedConfiguration "txId:42" (list_to_map config))) (Some "creds").
Definition host : hostSeen := HostCluster 3 "2026.01.0-enterprise".
Definition secret : gset string + bool := inl {["AWS_ACCESS_KEY_ID"; "AWS_SECRET_ACCESS_KEY"]}.

Lemma create_statement_reads_back_witness :
  exists r, readStatement (buildCreateDatabaseQuery (createStatement sales options (ds_Topology sales) "25")) = Some r /\
    rd_name r = "sales" /\ rd_language r = Some "25" /\ (rd_primaries r, rd_secondaries r) = (2, 1) /\
    ("seedRestoreUntil", OPlain (PInt 42)) ∈ rd_options r /\ 2 + 1 <= 3.
Proof.
  destruct (create_statement_reads_back anyURI sales options config host secret false) as [(r & H1 & H2 & _ & _ & H3 & H4 & _ & H5) H6].
  - vm_compute. reflexivity.
  - exists r. split; [exact H1|]. split; [exact H2|]. split; [rewrite H4; vm_compute; reflexivity|]. split; [exact H3|]. split.
    + apply H5. vm_compute. reflexivity.
    + apply (H6 (mkDatabaseTopology 2 1) 3 "2026.01.0-enterprise"); reflexivity.
Defined.

(** The sum of the counts is an int32: two counts whose sum is not one pass as a
    topology that fits three servers. *)
Theorem topology_overflow_passes :
  validateDatabaseTopology (mkDatabaseTopology 2147483647 1) 3 = [] /\ validateDatabaseTopology (mkDatabaseTopology 4 1) 3 <> [].
Proof. split; [vm_compute; reflexivity|vm_compute; discriminate]. Qed.
End DatabaseRulesSample.
