(* ===== verification/DatabaseWorld.v ===== *)
(** The world of a pass of the database controller
    (src/internal/controller/neo4jdatabase_controller.go) and the steps it is made
    of: the client's methods over a Bolt session (src/internal/neo4j/client.go), the
    status writes, and the seed credentials projected onto the host
    (cluster_seed_creds.go). The API server's copy of the database has a
    resourceVersion, so that a write from the pass's own copy succeeds only while
    that is current. Neo4j is the interface [BoltSession]. *)
From S2P Require Import Prelude GoStrings ClusterTypes Conditions Privileges TargetWait ObjectPatch DeletionWait Roles DatabaseNames DatabaseStatement.

Open Scope Z_scope.

(** * The resource *)

Record DatabaseStatus := mkDatabaseStatus {
  dbs_Conditions : list Condition;
  dbs_Phase : string;
  dbs_Message : string;
  dbs_ObservedGeneration : Z;
  dbs_DataImported : option bool;
  dbs_CreationTime : option Z;
  dbs_State : string;
  dbs_Servers : list string
}.

#[global] Instance DatabaseStatus_eq_dec : EqDecision DatabaseStatus.
Proof. solve_decision. Defined.

Record Neo4jDatabase := mkNeo4jDatabase {
  nd_Name : string;
  nd_UID : string;
  nd_Created : Z;
  nd_Generation : Z;
  nd_ResourceVersion : Z;
  nd_Spec : DatabaseSpec;
  nd_Status : DatabaseStatus
}.

Definition set_nd_Status (st : DatabaseStatus) (d : Neo4jDatabase) : Neo4jDatabase :=
  mkNeo4jDatabase (nd_Name d) (nd_UID d) (nd_Created d) (nd_Generation d) (nd_ResourceVersion d) (nd_Spec d) st.
Definition set_nd_ResourceVersion (v : Z) (d : Neo4jDatabase) : Neo4jDatabase :=
  mkNeo4jDatabase (nd_Name d) (nd_UID d) (nd_Created d) (nd_Generation d) v (nd_Spec d) (nd_Status d).

Definition set_dbs_Conditions (v : list Condition) (st : DatabaseStatus) : DatabaseStatus :=
  mkDatabaseStatus v (dbs_Phase st) (dbs_Message st) (dbs_ObservedGeneration st) (dbs_DataImported st) (dbs_CreationTime st) (dbs_State st) (dbs_Servers st).
Definition set_dbs_DataImported (v : option bool) (st : DatabaseStatus) : DatabaseStatus :=
  mkDatabaseStatus (dbs_Conditions st) (dbs_Phase st) (dbs_Message st) (dbs_ObservedGeneration st) v (dbs_CreationTime st) (dbs_State st) (dbs_Servers st).

(** The columns of SHOW DATABASES the controller reads; one row for each copy. *)
Record DatabaseRow := mkDatabaseRow { row_Name : string; row_Status : string; row_RequestedStatus : string; row_Address : string }.

(** The host, as far as the seed's credentials go: the Secrets in extraEnvFrom, the
    permission to add one, and the record of having done so. *)
Record hostCR := mkHostCR {
  hc_Kind : string;
  hc_Name : string;
  hc_EnvSecrets : list string;
  hc_AutoInherit : string;
  hc_InheritedFrom : string
}.

(** * Neo4j *)

(** What a session is asked; an error of a statement comes with whether it is
    context.DeadlineExceeded. *)
Class BoltSession (S : Type) := {
  runSystem : string -> gmap string paramValue -> S -> option (clientError * bool) * S;
  runOn : string -> string -> S -> option clientError * S;
  showDatabases : S -> (list DatabaseRow + clientError) * S
}.

(** * The world *)

(** The outcome of one read-modify-write of the database's status. *)
Inductive dbAttempt :=
| DbSucceeds
| DbGetFails (e : clientError)
| DbUpdateFails (e : clientError)
| DbConflicts (seen : Neo4jDatabase).

(** The outcome of one read-and-patch of the host. *)
Inductive hostAttempt :=
| HostSucceeds
| HostGetFails (e : clientError)
| HostPatchFails (e : clientError)
| HostConflicts.

(** What a pass did to Neo4j and the host. *)
Inductive dbAction :=
| SentCreate (query : string) (params : gmap string paramValue)
| SentDrop (query : string)
| SentImport (database statement : string)
| HostPatched (secret : string).

Record DatabaseWorld (S : Type) := mkDatabaseWorld {
  dw_now : Z;
  dw_copy : Neo4jDatabase;
  dw_stored : Neo4jDatabase;
  dw_attempts : list dbAttempt;
  dw_obj : ObjWorld;
  dw_connects : list (option clientError);
  dw_hostCopy : hostCR;
  dw_host : hostCR;
  dw_hostAttempts : list hostAttempt;
  dw_events : list (string * string);
  dw_roleEvents : list (string * string);
  dw_warned : gmap string (gmap string Z);
  dw_gone : option Z;
  dw_neo4j : S;
  dw_log : list dbAction
}.
Arguments mkDatabaseWorld {S}.
Arguments dw_now {S} _.
Arguments dw_copy {S} _.
Arguments dw_stored {S} _.
Arguments dw_attempts {S} _.
Arguments dw_obj {S} _.
Arguments dw_connects {S} _.
Arguments dw_hostCopy {S} _.
Arguments dw_host {S} _.
Arguments dw_hostAttempts {S} _.
Arguments dw_events {S} _.
Arguments dw_roleEvents {S} _.
Arguments dw_warned {S} _.
Arguments dw_gone {S} _.
Arguments dw_neo4j {S} _.
Arguments dw_log {S} _.

Definition set_dw_copy {S} (v : Neo4jDatabase) (w : DatabaseWorld S) : DatabaseWorld S :=
  mkDatabaseWorld (dw_now w) v (dw_stored w) (dw_attempts w) (dw_obj w) (dw_connects w) (dw_hostCopy w) (dw_host w) (dw_hostAttempts w) (dw_events w) (dw_roleEvents w) (dw_warned w) (dw_gone w) (dw_neo4j w) (dw_log w).
Definition set_dw_stored {S} (v : Neo4jDatabase) (w : DatabaseWorld S) : DatabaseWorld S :=
  mkDatabaseWorld (dw_now w) (dw_copy w) v (dw_attempts w) (dw_obj w) (dw_connects w) (dw_hostCopy w) (dw_host w) (dw_hostAttempts w) (dw_events w) (dw_roleEvents w) (dw_warned w) (dw_gone w) (dw_neo4j w) (dw_log w).
Definition set_dw_attempts {S} (v : list dbAttempt) (w : DatabaseWorld S) : DatabaseWorld S :=
  mkDatabaseWorld (dw_now w) (dw_copy w) (dw_stored w) v (dw_obj w) (dw_connects w) (dw_hostCopy w) (dw_host w) (dw_hostAttempts w) (dw_events w) (dw_roleEvents w) (dw_warned w) (dw_gone w) (dw_neo4j w) (dw_log w).
Definition set_dw_obj {S} (v : ObjWorld) (w : DatabaseWorld S) : DatabaseWorld S :=
  mkDatabaseWorld (dw_now w) (dw_copy w) (dw_stored w) (dw_attempts w) v (dw_connects w) (dw_hostCopy w) (dw_host w) (dw_hostAttempts w) (dw_events w) (dw_roleEvents w) (dw_warned w) (dw_gone w) (dw_neo4j w) (dw_log w).
Definition set_dw_connects {S} (v : list (option clientError)) (w : DatabaseWorld S) : DatabaseWorld S :=
  mkDatabaseWorld (dw_now w) (dw_copy w) (dw_stored w) (dw_attempts w) (dw_obj w) v (dw_hostCopy w) (dw_host w) (dw_hostAttempts w) (dw_events w) (dw_roleEvents w) (dw_warned w) (dw_gone w) (dw_neo4j w) (dw_log w).
Definition set_dw_hostCopy {S} (v : hostCR) (w : DatabaseWorld S) : DatabaseWorld S :=
  mkDatabaseWorld (dw_now w) (dw_copy w) (dw_stored w) (dw_attempts w) (dw_obj w) (dw_connects w) v (dw_host w) (dw_hostAttempts w) (dw_events w) (dw_roleEvents w) (dw_warned w) (dw_gone w) (dw_neo4j w) (dw_log w).
Definition set_dw_host {S} (v : hostCR) (w : DatabaseWorld S) : DatabaseWorld S :=
  mkDatabaseWorld (dw_now w) (dw_copy w) (dw_stored w) (dw_attempts w) (dw_obj w) (dw_connects w) (dw_hostCopy w) v (dw_hostAttempts w) (dw_events w) (dw_roleEvents w) (dw_warned w) (dw_gone w) (dw_neo4j w) (dw_log w).
Definition set_dw_hostAttempts {S} (v : list hostAttempt) (w : DatabaseWorld S) : DatabaseWorld S :=
  mkDatabaseWorld (dw_now w) (dw_copy w) (dw_stored w) (dw_attempts w) (dw_obj w) (dw_connects w) (dw_hostCopy w) (dw_host w) v (dw_events w) (dw_roleEvents w) (dw_warned w) (dw_gone w) (dw_neo4j w) (dw_log w).
Definition set_dw_events {S} (v : list (string * string)) (w : DatabaseWorld S) : DatabaseWorld S :=
  mkDatabaseWorld (dw_now w) (dw_copy w) (dw_stored w) (dw_attempts w) (dw_obj w) (dw_connects w) (dw_hostCopy w) (dw_host w) (dw_hostAttempts w) v (dw_roleEvents w) (dw_warned w) (dw_gone w) (dw_neo4j w) (dw_log w).
Definition set_dw_roleEvents {S} (v : list (string * string)) (w : DatabaseWorld S) : DatabaseWorld S :=
  mkDatabaseWorld (dw_now w) (dw_copy w) (dw_stored w) (dw_attempts w) (dw_obj w) (dw_connects w) (dw_hostCopy w) (dw_host w) (dw_hostAttempts w) (dw_events w) v (dw_warned w) (dw_gone w) (dw_neo4j w) (dw_log w).
Definition set_dw_warned {S} (v : gmap string (gmap string Z)) (w : DatabaseWorld S) : DatabaseWorld S :=
  mkDatabaseWorld (dw_now w) (dw_copy w) (dw_stored w) (dw_attempts w) (dw_obj w) (dw_connects w) (dw_hostCopy w) (dw_host w) (dw_hostAttempts w) (dw_events w) (dw_roleEvents w) v (dw_gone w) (dw_neo4j w) (dw_log w).
Definition set_dw_gone {S} (v : option Z) (w : DatabaseWorld S) : DatabaseWorld S :=
  mkDatabaseWorld (dw_now w) (dw_copy w) (dw_stored w) (dw_attempts w) (dw_obj w) (dw_connects w) (dw_hostCopy w) (dw_host w) (dw_hostAttempts w) (dw_events w) (dw_roleEvents w) (dw_warned w) v (dw_neo4j w) (dw_log w).
Definition set_dw_neo4j {S} (v : S) (w : DatabaseWorld S) : DatabaseWorld S :=
  mkDatabaseWorld (dw_now w) (dw_copy w) (dw_stored w) (dw_attempts w) (dw_obj w) (dw_connects w) (dw_hostCopy w) (dw_host w) (dw_hostAttempts w) (dw_events w) (dw_roleEvents w) (dw_warned w) (dw_gone w) v (dw_log w).
Definition set_dw_log {S} (v : list dbAction) (w : DatabaseWorld S) : DatabaseWorld S :=
  mkDatabaseWorld (dw_now w) (dw_copy w) (dw_stored w) (dw_attempts w) (dw_obj w) (dw_connects w) (dw_hostCopy w) (dw_host w) (dw_hostAttempts w) (dw_events w) (dw_roleEvents w) (dw_warned w) (dw_gone w) (dw_neo4j w) v.

Definition DW (S : Type) (A : Type) : Type := DatabaseWorld S -> A * DatabaseWorld S.

#[global] Instance DW_ret S : MRet (DW S) := fun A (a : A) w => (a, w).
#[global] Instance DW_bind S : MBind (DW S) := fun A B (f : A -> DW S B) (m : DW S A) w =>
  let '(a, w') := m w in f a w'.

(** What a pass returns. *)
Inductive dbResult :=
| DbDone
| DbAgain (after : Z)
| DbErrored (e : clientError).

Section Steps.
Context {S : Type} `{!BoltSession S}.

Definition getsD {A} (f : DatabaseWorld S -> A) : DW S A := fun w => (f w, w).
Definition modifyD (f : DatabaseWorld S -> DatabaseWorld S) : DW S unit := fun w => (tt, f w).

Definition askD {A} (call : S -> A * S) : DW S A := fun w =>
  let '(a, n) := call (dw_neo4j w) in (a, set_dw_neo4j n w).

(** A call that changes Neo4j. *)
Definition sendD {A} (action : dbAction) (call : S -> A * S) : DW S A := fun w =>
  let '(a, n) := call (dw_neo4j w) in (a, set_dw_neo4j n (set_dw_log (action :: dw_log w) w)).

Definition eventD (reason message : string) : DW S unit := modifyD (fun w => set_dw_events ((reason, message) :: dw_events w) w).

Definition liftOD {A} (m : OW A) : DW S A := fun w => let '(a, o) := m (dw_obj w) in (a, set_dw_obj o w).

(** * The client *)

Definition FindDatabase (databases : list DatabaseRow) (name : string) : option DatabaseRow :=
  List.find (fun row => strings.EqualFold (row_Name row) name) databases.

Definition DatabaseExists (name : string) : DW S (bool + clientError) :=
  r ← askD showDatabases;
  mret (match r with
        | inl databases => inl (match FindDatabase databases name with Some _ => true | None => false end)
        | inr e => inr e
        end).

(** The error [executeWithWaitTimeout] returns for one of the session's. *)
Definition waitTimeoutError (query : string) (wait : bool) (e : clientError) (deadline : bool) : clientError :=
  if wait && strings.Contains query " WAIT" && deadline
  then wrapClient ("database operation timed out after 300s while executing: " +:+ query) e
  else wrapClient ("database operation failed while executing: " +:+ query) e.

Definition runCreateDatabase (name query : string) (params : gmap string paramValue) (wait : bool) (what : string) : DW S (option clientError) :=
  r ← sendD (SentCreate query params) (runSystem query params);
  match r with
  | None => mret None
  | Some (e, deadline) =>
      let err := waitTimeoutError query wait e deadline in
      let failed := Some (wrapClient ("failed to create database " +:+ name +:+ what) err) in
      if wait && (deadline || strings.Contains (e_msg err) "EOF" || strings.Contains (e_msg err) "ConnectivityError") then
        exists_ ← DatabaseExists name;
        mret (match exists_ with inl true => None | _ => failed end)
      else mret failed
  end.

Definition runSeedCreateDatabase (query : string) (params : gmap string paramValue) (failure : string) : DW S (option clientError) :=
  r ← sendD (SentCreate query params) (runSystem query params);
  mret (match r with None => None | Some (e, _) => Some (wrapClient failure e) end).

(** The create method for the database: from a seed or not, with a topology or
    not. *)
Definition createDatabase (spec : DatabaseSpec) (options : list (string * string)) (topology : option DatabaseTopology) (cypherLanguage : string)
  : DW S (option clientError) :=
  let '(query, params) := buildCreateDatabaseQuery (createStatement spec options topology cypherLanguage) in
  let name := ds_Name spec in
  if negb (String.eqb (ds_SeedURI spec) EmptyString) then
    runSeedCreateDatabase query params
      (match topology with
       | Some _ => "failed to create database " +:+ name +:+ " with topology from seed URI"
       | None => "failed to create database " +:+ name +:+ " from seed URI"
       end)
  else runCreateDatabase name query params (ds_Wait spec) (match topology with Some _ => " with topology" | None => EmptyString end).

Definition isDatabaseNotFoundError (e : clientError) : bool :=
  let msg := strings.ToLower (e_msg e) in
  strings.Contains msg "database.databasenotfound" || strings.Contains msg "database not found"
  || strings.Contains msg "database does not exist" || strings.Contains msg "databasenotfound".

Definition IsNotFoundError (e : clientError) : bool :=
  isDatabaseNotFoundError e || strings.Contains (strings.ToLower (e_msg e)) "not found" || strings.Contains (strings.ToLower (e_msg e)) "does not exist".

Definition DropDatabase (name : string) : DW S (option clientError) :=
  r ← sendD (SentDrop (dropStatement name)) (runSystem (dropStatement name) ∅);
  mret (match r with
        | None => None
        | Some (e, _) => if isDatabaseNotFoundError e then None else Some (wrapClient ("failed to drop database " +:+ name) e)
        end).

Definition ExecuteCypher (database statement : string) : DW S (option clientError) :=
  r ← sendD (SentImport database statement) (runOn database statement);
  mret (wrapClient "failed to execute cypher" <$> r).

(** The client is built, or not: the next outcome. *)
Definition connectOnce : DW S (option clientError) := fun w =>
  match dw_connects w with
  | [] => (None, w)
  | r :: rest => (r, set_dw_connects rest w)
  end.

(** [retry.OnError] with DefaultBackoff's four steps. *)
Fixpoint connectRetry (steps : nat) (last : option clientError) : DW S (option clientError) :=
  match steps with
  | O => mret last
  | Datatypes.S steps' =>
      r ← connectOnce;
      match r with
      | None => mret None
      | Some e =>
          if strings.Contains (e_msg e) "connection" || strings.Contains (e_msg e) "timeout" then connectRetry steps' (Some e)
          else mret (Some e)
      end
  end.
End Steps.
