(* ===== verification/DatabasePass.v ===== *)
(** A pass of the database controller: Reconcile, handleDeletion and what they call
    (src/internal/controller/neo4jdatabase_controller.go), with the seed credentials
    projected onto the host (cluster_seed_creds.go). What the pass reads of
    Kubernetes besides the database is [DatabaseInput]; url.Parse is a parameter, and
    the validator's warnings an input. *)
From S2P Require Import Prelude GoStrings GoTime GoRFC3339 ClusterTypes Conditions Availability Privileges TargetWait ObjectPatch DeletionWait Roles DatabaseNames DatabaseStatement DatabaseRules DatabaseWorld.

Open Scope Z_scope.

(** * Names *)

Definition DatabaseFinalizer : string := "neo4j.com/database-finalizer".

Definition EventReasonDbValidationFailed : string := "ValidationFailed".
Definition EventReasonDbValidationWarning : string := "ValidationWarning".
Definition EventReasonDuplicateName : string := "DuplicateName".
Definition EventReasonDuplicateNameKept : string := "DuplicateNameKept".
Definition EventReasonDatabaseReady : string := "DatabaseReady".
Definition EventReasonDatabaseDeleted : string := "DatabaseDeleted".
Definition EventReasonDatabaseCreatedSeed : string := "DatabaseCreatedFromSeed".
Definition EventReasonCreationFailed : string := "CreationFailed".
Definition EventReasonDeletionFailed : string := "DeletionFailed".
Definition EventReasonDataImported : string := "DataImported".
Definition EventReasonDataImportFailed : string := "DataImportFailed".
Definition EventReasonDataSeeded : string := "DataSeeded".
Definition EventReasonSeedCredsMissing : string := "SeedCredsMissing".
Definition EventReasonSeedCredsAutoInherited : string := "SeedCredsAutoInherited".
Definition EventReasonPrivilegeTargetDropped : string := "PrivilegeTargetDropped".
Definition EventReasonClusterNotReady : string := "ClusterNotReady".

(** * What SHOW DATABASES says of a database *)

Record databaseObservation := mkObservation { obs_observed : bool; obs_state : string; obs_servers : list string }.
Definition nothingObserved : databaseObservation := mkObservation false EmptyString [].

(** The state of summarizeShardCopies. *)
Definition copiesState (rows : list DatabaseRow) : string :=
  match List.filter (fun s => negb (String.eqb s "online")) (map row_Status rows) with
  | [] => "online"
  | notOnline => default EmptyString (head (sort.Strings notOnline))
  end.

(** [slices.Compact] *)
Fixpoint compact (l : list string) : list string :=
  match l with
  | [] => []
  | x :: rest =>
      match compact rest with
      | y :: r => if String.eqb x y then y :: r else x :: y :: r
      | [] => [x]
      end
  end.

Definition observeDatabase (name : string) (databases : list DatabaseRow) : databaseObservation :=
  let rows := List.filter (fun row => strings.EqualFold (row_Name row) name) databases in
  match rows with
  | [] => nothingObserved
  | _ =>
      let servers := List.filter (fun a => negb (String.eqb a EmptyString)) (map row_Address rows) in
      mkObservation true (copiesState rows) (compact (sort.Strings servers))
  end.

Definition applyObservation (o : databaseObservation) (st : DatabaseStatus) : DatabaseStatus :=
  if negb (obs_observed o) then st
  else mkDatabaseStatus (dbs_Conditions st) (dbs_Phase st) (dbs_Message st) (dbs_ObservedGeneration st) (dbs_DataImported st) (dbs_CreationTime st)
         (obs_state o) (obs_servers o).

Definition databasePhaseFor (status reason : string) : string :=
  if String.eqb status ConditionTrue then "Ready"
  else if String.eqb reason EventReasonDbValidationFailed then "ValidationFailed"
  else if existsb (String.eqb reason) [EventReasonClusterNotFound; EventReasonClusterNotReady; ConditionReasonClusterUnreachable;
            EventReasonSeedCredsMissing; EventReasonSeedCredsAutoInherited] then "Pending"
  else if String.eqb reason EventReasonDeletionFailed then "Error"
  else "Failed".

(** * What a pass reads *)

(** [di_seen]: what the validator's own look at the host found; [di_secret]: the
    keys of the seed's Secret, or the error and whether it is "not found";
    [di_options] and [di_config]: the maps of the spec in the order ranged over. *)
Record DatabaseInput := mkDatabaseInput {
  di_deletionTimestamp : option Z;
  di_warnings : list string;
  di_options : list (string * string);
  di_config : list (string * string);
  di_seen : hostSeen;
  di_secret : gset string + (string * bool);
  di_claims : list nameClaim + clientError;
  di_target : ResolvedTarget + clientError;
  di_volumes : list bool + clientError;
  di_roles : list Neo4jRole + clientError
}.

Definition nameClaimOf (d : Neo4jDatabase) (deleting : bool) : nameClaim :=
  mkClaim (nd_Name d) (nd_UID d) (nd_Created d) (ds_ClusterRef (nd_Spec d)) (ds_Name (nd_Spec d)) deleting.

Definition databaseHostImageTag (t : ResolvedTarget) : string :=
  match t with TargetCluster _ m | TargetStandalone _ m => dm_Tag m | TargetMissing => EmptyString end.
Definition targetIsStandalone (t : ResolvedTarget) : bool := match t with TargetStandalone _ _ => true | _ => false end.

Definition resolveDatabaseCreateInputs (spec : DatabaseSpec) (imageTag : string) (isStandalone : bool) : option DatabaseTopology * string :=
  (if isStandalone then None else ds_Topology spec, DefaultLanguageForImage imageTag (ds_DefaultCypherLanguage spec)).

Definition rolesGrantingOn (roles : list Neo4jRole) (clusterRef dbName : string) : list Neo4jRole :=
  List.filter (fun role => String.eqb (rp_ClusterRef (ro_Spec role)) clusterRef
                           && existsb (fun name => strings.EqualFold name dbName) (roleDatabaseNames role)) roles.

Section Pass.
Context {S : Type} `{!BoltSession S}.

(** * Status writes *)

Definition nextDbAttempt : DW S dbAttempt := fun w =>
  match dw_attempts w with
  | [] => (DbSucceeds, w)
  | a :: rest => (a, set_dw_attempts rest w)
  end.

(** The API server takes a write: the version goes up. *)
Definition storeStatus (latest : Neo4jDatabase) (w : DatabaseWorld S) : Neo4jDatabase * DatabaseWorld S :=
  let written := set_nd_ResourceVersion (nd_ResourceVersion (dw_stored w) + 1) latest in (written, set_dw_stored written w).

(** [retry.RetryOnConflict] with DefaultBackoff's four steps around a
    read-modify-write; the body returns what it writes ([None]: nothing) and a
    value. The result has the object as written. *)
Fixpoint retryDb {A} (steps : nat) (f : Neo4jDatabase -> option Neo4jDatabase * A) : DW S ((A * option Neo4jDatabase) + clientError) := fun w =>
  match steps with
  | O => (inr (plainError "conflict"), w)
  | Datatypes.S steps' =>
      let '(a, w) := nextDbAttempt w in
      match a with
      | DbGetFails e => (inr e, w)
      | DbSucceeds =>
          match f (dw_stored w) with
          | (None, v) => (inl (v, None), w)
          | (Some latest, v) => let '(written, w) := storeStatus latest w in (inl (v, Some written), w)
          end
      | DbUpdateFails e =>
          match f (dw_stored w) with
          | (None, v) => (inl (v, None), w)
          | (Some _, _) => (inr e, w)
          end
      | DbConflicts seen =>
          match f seen with
          | (None, v) => (inl (v, None), w)
          | (Some _, _) => retryDb steps' f w
          end
      end
  end.

Definition dbBackoff : nat := 4.

Definition dbStatusBody (now : Z) (status reason message : string) (observed : databaseObservation) (latest : Neo4jDatabase)
  : option Neo4jDatabase * bool :=
  let st := nd_Status latest in
  let '(conditions, changed) := SetReadyCondition now (dbs_Conditions st) (nd_Generation latest) status reason message in
  let phase := databasePhaseFor status reason in
  let created :=
    if String.eqb status ConditionTrue && match dbs_CreationTime st with None => true | Some _ => false end && String.eqb reason EventReasonDatabaseReady
    then Some now else dbs_CreationTime st in
  let st' := applyObservation observed
    (mkDatabaseStatus conditions phase message (nd_Generation latest) (dbs_DataImported st) created (dbs_State st) (dbs_Servers st)) in
  if decide (st' = st) then (None, false)
  else (Some (set_nd_Status st' latest), changed || negb (String.eqb (dbs_Phase st) phase) || negb (String.eqb (dbs_Message st) message)).

Definition updateDatabaseStatusObserved (status reason message : string) (observed : databaseObservation) : DW S bool :=
  now ← getsD dw_now;
  r ← retryDb dbBackoff (dbStatusBody now status reason message observed);
  mret (match r with inl (transitioned, _) => transitioned | inr _ => false end).

Definition updateDatabaseStatus (status reason message : string) : DW S bool := updateDatabaseStatusObserved status reason message nothingObserved.

(** Announced when the write changed something. *)
Definition announceD (status reason message : string) : DW S unit :=
  changed ← updateDatabaseStatus status reason message;
  if (changed : bool) then eventD reason message else mret tt.

Definition hostWaitBody (now : Z) (reason msg : string) (latest : Neo4jDatabase) : option Neo4jDatabase * bool :=
  let st := nd_Status latest in
  let '(conditions, phase, message, lasting) :=
    recordTargetWait now (dbs_Conditions st) (dbs_Phase st) (dbs_Message st) (nd_Generation latest) reason msg in
  let st' := mkDatabaseStatus conditions phase message (nd_Generation latest) (dbs_DataImported st) (dbs_CreationTime st) (dbs_State st) (dbs_Servers st) in
  (if decide (st' = st) then None else Some (set_nd_Status st' latest), lasting).

Definition waitForHost (reason msg : string) : DW S bool :=
  now ← getsD dw_now;
  r ← retryDb dbBackoff (hostWaitBody now reason msg);
  mret (match r with inl (lasting, _) => lasting | inr _ => false end).

Definition hostUnreachable (e : clientError) (requeue : Z) : DW S dbResult :=
  copy ← getsD dw_copy;
  lasting ← waitForHost ConditionReasonClusterUnreachable (targetAwayMessage (ds_ClusterRef (nd_Spec copy)) e);
  (if (lasting : bool) then
     announceD ConditionFalse EventReasonConnectionFailed
       ("Failed to connect to Neo4j for more than " +:+ gotime.DurationString targetUnreachableGrace +:+ ": " +:+ e_msg e)
   else mret tt) ;;
  mret (DbAgain requeue).

Definition hostAnsweredBody (now : Z) (latest : Neo4jDatabase) : option Neo4jDatabase * unit :=
  let '(conditions, changed) := targetAnswered now (dbs_Conditions (nd_Status latest)) (nd_Generation latest) in
  (if (changed : bool) then Some (set_nd_Status (set_dbs_Conditions conditions (nd_Status latest)) latest) else None, tt).

(** The pass's copy takes the version and the status written. *)
Definition hostAnswered : DW S unit :=
  now ← getsD dw_now;
  r ← retryDb dbBackoff (hostAnsweredBody now);
  match r with
  | inl (_, Some written) =>
      modifyD (fun w => set_dw_copy (set_nd_Status (nd_Status written) (set_nd_ResourceVersion (nd_ResourceVersion written) (dw_copy w))) w)
  | _ => mret tt
  end.

(** [Status().Update] of the pass's own copy. *)
Definition updateOwnStatus (st : DatabaseStatus) : DW S (option clientError) := fun w =>
  let w := set_dw_copy (set_nd_Status st (dw_copy w)) w in
  let '(a, w) := nextDbAttempt w in
  match a with
  | DbGetFails e | DbUpdateFails e => (Some e, w)
  | DbConflicts _ => (Some (plainError "conflict"), w)
  | DbSucceeds =>
      if nd_ResourceVersion (dw_copy w) =? nd_ResourceVersion (dw_stored w) then
        let '(written, w) := storeStatus (set_nd_Status st (dw_stored w)) w in (None, set_dw_copy written w)
      else (Some (plainError "conflict"), w)
  end.

Definition reportDatabaseReady (observed : databaseObservation) : DW S unit :=
  let msg := "Database is ready and available" in
  changed ← updateDatabaseStatusObserved ConditionTrue EventReasonDatabaseReady msg observed;
  if (changed : bool) then eventD EventReasonDatabaseReady msg else mret tt.

(** * The seed's credentials on the host *)

Definition hostHas (host : hostCR) (secret : string) : bool := existsb (String.eqb secret) (hc_EnvSecrets host).

Definition nextHostAttempt : DW S hostAttempt := fun w =>
  match dw_hostAttempts w with
  | [] => (HostSucceeds, w)
  | a :: rest => (a, set_dw_hostAttempts rest w)
  end.

(** Whether this pass patched it. *)
Fixpoint patchHost (steps : nat) (secret : string) : DW S (bool + clientError) := fun w =>
  match steps with
  | O => (inr (plainError "conflict"), w)
  | Datatypes.S steps' =>
      let '(a, w) := nextHostAttempt w in
      match a with
      | HostGetFails e => (inr e, w)
      | _ =>
          if hostHas (dw_host w) secret then (inl false, w)
          else match a with
               | HostPatchFails e => (inr e, w)
               | HostConflicts => patchHost steps' secret w
               | _ =>
                   let host := dw_host w in
                   (inl true, set_dw_log (HostPatched secret :: dw_log w)
                      (set_dw_host (mkHostCR (hc_Kind host) (hc_Name host) (hc_EnvSecrets host ++ [secret]) (hc_AutoInherit host) secret) w))
               end
      end
  end.

Definition newline : string := String "010" EmptyString.

Definition credsMissingMessage (host : hostCR) (secret : string) : string :=
  hc_Kind host +:+ " " +:+ fmt.q (hc_Name host) +:+ " is not configured to access seed credentials Secret " +:+ fmt.q secret +:+ "." +:+ newline
  +:+ "Either:" +:+ newline +:+ "  1. Add this entry to the " +:+ hc_Kind host +:+ " CR:" +:+ newline +:+ "     spec:" +:+ newline
  +:+ "       extraEnvFrom:" +:+ newline +:+ "       - secretRef:" +:+ newline +:+ "           name: " +:+ secret +:+ newline
  +:+ "  2. Or set annotation `neo4j.com/auto-inherit-seed-creds: " +:+ fmt.q "true"
  +:+ "` on the CR to let the operator add it automatically (triggers a rolling restart of server pods)".

Definition EnsureSeedCredsProjected (secret : string) : DW S (bool + clientError) :=
  host ← getsD dw_hostCopy;
  if String.eqb secret EmptyString then mret (inl false)
  else if hostHas host secret then mret (inl false)
  else if negb (String.eqb (hc_AutoInherit host) "true") then mret (inr (plainError (credsMissingMessage host secret)))
  else
    r ← patchHost 4 secret;
    mret (match r with
          | inl patched => inl patched
          | inr e => inr (wrapClient ("auto-inherit seed credentials Secret " +:+ fmt.q secret +:+ " onto " +:+ hc_Kind host +:+ " " +:+ fmt.q (hc_Name host)) e)
          end).

(** * The database *)

(** A database that does not exist yet is created. *)
Definition createMissing (input : DatabaseInput) (spec : DatabaseSpec) (imageTag : string) (isStandalone : bool) : DW S (option clientError) :=
  let '(topology, cypherLanguage) := resolveDatabaseCreateInputs spec imageTag isStandalone in
  let credentials :=
    if negb (String.eqb (ds_SeedURI spec) EmptyString) && match ds_SeedCredentials spec with Some _ => true | None => false end
    then PrepareCloudCredentials spec (match di_secret input with inl keys => inl keys | inr (e, _) => inr e end) else None in
  match credentials with
  | Some e => mret (Some (wrapClient "failed to prepare cloud credentials" (plainError e)))
  | None =>
      r ← createDatabase spec (di_options input) topology cypherLanguage;
      match r with
      | Some e => mret (Some (wrapClient "failed to create database" e))
      | None =>
          (if negb (String.eqb (ds_SeedURI spec) EmptyString)
           then eventD EventReasonDatabaseCreatedSeed ("Database " +:+ ds_Name spec +:+ " created successfully from seed URI") else mret tt) ;;
          mret None
      end
  end.

Definition ensureDatabase (input : DatabaseInput) (spec : DatabaseSpec) (imageTag : string) (isStandalone : bool)
  : DW S (databaseObservation + clientError) :=
  exists_ ← DatabaseExists (ds_Name spec);
  match exists_ with
  | inr e => mret (inr (wrapClient "failed to check if database exists" e))
  | inl exists_ =>
      created ← (if (exists_ : bool) then mret None else createMissing input spec imageTag isStandalone);
      match created with
      | Some e => mret (inr e)
      | None =>
          databases ← askD showDatabases;
          mret (inl (match databases with inl databases => observeDatabase (ds_Name spec) databases | inr _ => nothingObserved end))
      end
  end.

Fixpoint importStatements (database : string) (statements : list string) : DW S (option clientError) :=
  match statements with
  | [] => mret None
  | s :: rest =>
      r ← ExecuteCypher database s;
      match r with
      | Some e => mret (Some (wrapClient "failed to execute cypher statement" e))
      | None => importStatements database rest
      end
  end.

(** The initial data, once: the result of a pass it ends. *)
Definition importData (spec : DatabaseSpec) (observed : databaseObservation) (requeue : Z) : DW S (option dbResult) :=
  copy ← getsD dw_copy;
  let notYet := match dbs_DataImported (nd_Status copy) with None => true | Some _ => false end in
  let seeded := negb (String.eqb (ds_SeedURI spec) EmptyString) in
  if notYet && negb seeded then
    match ds_InitialData spec with
    | None => mret None
    | Some statements =>
        r ← importStatements (ds_Name spec) statements;
        match r with
        | Some e =>
            if targetAway e then res ← hostUnreachable e requeue; mret (Some res)
            else
              changed ← updateDatabaseStatusObserved ConditionFalse EventReasonDataImportFailed ("Failed to import initial data: " +:+ e_msg e) observed;
              (if (changed : bool) then eventD EventReasonDataImportFailed ("Failed to import initial data: " +:+ e_msg e) else mret tt) ;;
              mret (Some (DbErrored e))
        | None =>
            r ← updateOwnStatus (set_dbs_DataImported (Some true) (nd_Status copy));
            match r with
            | Some e => mret (Some (DbErrored e))
            | None => eventD EventReasonDataImported "Initial data imported successfully" ;; mret None
            end
        end
    end
  else if notYet && seeded then
    r ← updateOwnStatus (set_dbs_DataImported (Some true) (nd_Status copy));
    match r with
    | Some e => mret (Some (DbErrored e))
    | None => eventD EventReasonDataSeeded "Database seeded from URI successfully" ;; mret None
    end
  else mret None.

(** * The pass on a host that serves *)

(** The seed's credentials: the result of a pass that waits for them. *)
Definition seedCredentials (spec : DatabaseSpec) (requeue : Z) : DW S (option dbResult) :=
  match ds_SeedCredentials spec with
  | Some secret =>
      if negb (String.eqb (ds_SeedURI spec) EmptyString) && negb (String.eqb secret EmptyString) then
        r ← EnsureSeedCredsProjected secret;
        match r with
        | inr e =>
            announceD ConditionFalse EventReasonSeedCredsMissing (e_msg e) ;;
            hostAnswered ;;
            mret (Some (DbAgain requeue))
        | inl true =>
            let msg := "Patched " +:+ fmt.q (ds_ClusterRef spec) +:+ " spec.extraEnvFrom with " +:+ fmt.q secret +:+ "; waiting for rolling restart" in
            updateDatabaseStatus ConditionFalse EventReasonSeedCredsAutoInherited msg ;;
            eventD EventReasonSeedCredsAutoInherited msg ;;
            hostAnswered ;;
            mret (Some (DbAgain requeue))
        | inl false => mret None
        end
      else mret None
  | None => mret None
  end.

(** The rest of the pass, with what [ensureDatabase] returned. *)
Definition served (spec : DatabaseSpec) (ensured : databaseObservation + clientError) (requeue : Z) : DW S dbResult :=
  match ensured with
  | inr e =>
      if targetAway e then hostUnreachable e requeue
      else announceD ConditionFalse EventReasonCreationFailed ("Failed to create database: " +:+ e_msg e) ;; mret (DbErrored e)
  | inl observed =>
      ended ← importData spec observed requeue;
      match ended with
      | Some r => mret r
      | None => hostAnswered ;; reportDatabaseReady observed ;; mret (DbAgain requeue)
      end
  end.

Definition serve (input : DatabaseInput) (t : ResolvedTarget) (requeue : Z) : DW S dbResult :=
  copy ← getsD dw_copy;
  let spec := nd_Spec copy in
  waits ← seedCredentials spec requeue;
  match waits with
  | Some r => mret r
  | None =>
      ensured ← ensureDatabase input spec (databaseHostImageTag t) (targetIsStandalone t);
      served spec ensured requeue
  end.

Definition reconcileOnTarget (input : DatabaseInput) (requeue : Z) : DW S dbResult :=
  copy ← getsD dw_copy;
  let ref := ds_ClusterRef (nd_Spec copy) in
  match di_target input with
  | inr e => mret (DbErrored e)
  | inl t =>
      if negb (targetFound t) then
        let hadTarget := hadFoundTarget (dbs_Conditions (nd_Status copy)) in
        let msg := "Referenced host " +:+ ref +:+ " not found" in
        entered ← updateDatabaseStatus ConditionFalse EventReasonClusterNotFound msg;
        now ← getsD dw_now;
        due ← (fun w => let '(due, since) := announceGone (dw_gone w) entered hadTarget now in (due, set_dw_gone since w));
        (if (due : bool) then eventD EventReasonClusterNotFound msg else mret tt) ;;
        mret (DbAgain requeue)
      else if negb (IsReady t) then
        waitForHost ConditionReasonClusterNotReady "Referenced host is not ready" ;; mret (DbAgain requeue)
      else
        connected ← connectRetry 4 None;
        match connected with
        | Some e =>
            if targetAway e then hostUnreachable e requeue
            else updateDatabaseStatus ConditionFalse EventReasonConnectionFailed "Failed to connect to Neo4j cluster" ;; mret (DbErrored e)
        | None => serve input t requeue
        end
  end.

(** * The deletion *)

#[global] Instance databaseCleanupPass : CleanupPass (DW S) dbResult := {
  passNow := getsD dw_now;
  passEvent := eventD;
  passAgain := DbAgain;
  passErrored := DbErrored
}.

Definition releaseD : DW S dbResult :=
  r ← liftOD (removeFinalizer DatabaseFinalizer);
  mret (match r with Some e => DbErrored (apiErrorText e) | None => DbDone end).

Definition byHand (name : string) : string := "DROP DATABASE `" +:+ escapeBackticks name +:+ "`".

Definition databaseCleanup (spec : DatabaseSpec) (ts : option Z) (requeue : Z) : deletionCleanup (M := DW S) (R := dbResult) :=
  mkCleanup ts EventReasonDeletionFailed
    ("database " +:+ fmt.q (ds_Name spec) +:+ " on " +:+ targetRefDisplay (ds_ClusterRef spec))
    (byHand (ds_Name spec))
    (fun msg => updateDatabaseStatus ConditionFalse EventReasonDeletionFailed msg)
    releaseD requeue.

(** Whether the finalizer is released after a drop that failed. *)
Definition releasesFailed (ts : option Z) (now : Z) (e : clientError) : bool := IsNotFoundError e || deletionGracePeriodExceeded ts now.

Definition warnRolesStillGranting (roles : list Neo4jRole + clientError) (spec : DatabaseSpec) : DW S unit :=
  match roles with
  | inr _ => mret tt
  | inl roles =>
      match rolesGrantingOn roles (ds_ClusterRef spec) (ds_Name spec) with
      | [] => mret tt
      | affected =>
          let roleMsg := "Database " +:+ fmt.q (ds_Name spec) +:+ " was dropped, and this role's spec still grants on it. Neo4j removed those privileges with the database and will not re-grant them while it is gone, so they are skipped; remove them from spec.privileges, or recreate the database and they are applied again." in
          modifyD (fun w => set_dw_roleEvents (rev (map (fun role => (ro_Name role, roleMsg)) affected) ++ dw_roleEvents w) w) ;;
          let names := sort.Strings (map ro_Name affected) in
          eventD EventReasonPrivilegeTargetDropped
            ("Dropped database " +:+ fmt.q (ds_Name spec) +:+ " while " +:+ strconv.Itoa (Z.of_nat (length names)) +:+ " role(s) still grant on it in spec: "
             +:+ strings.Join names ", " +:+ ". Neo4j removed those privileges with the database; the roles now ask for grants that cannot exist until it is recreated.")
      end
  end.

Definition dropAndRelease (input : DatabaseInput) (spec : DatabaseSpec) (requeue : Z) : DW S dbResult :=
  let d := databaseCleanup spec (di_deletionTimestamp input) requeue in
  r ← DropDatabase (ds_Name spec);
  match r with
  | Some e =>
      now ← getsD dw_now;
      if retryTransient d e now then mret (DbAgain transientRetry)
      else if negb (releasesFailed (di_deletionTimestamp input) now e) then
        announceD ConditionFalse EventReasonDeletionFailed ("Failed to drop database, will retry: " +:+ e_msg e) ;; mret (DbAgain requeue)
      else
        eventD EventReasonDeletionFailed
          ("Failed to drop database; releasing finalizer to avoid wedging deletion: " +:+ e_msg e +:+ ". Database " +:+ fmt.q (ds_Name spec)
           +:+ " is still in Neo4j; drop it by hand: " +:+ byHand (ds_Name spec)) ;;
        releaseD
  | None =>
      eventD EventReasonDatabaseDeleted "Database dropped successfully" ;;
      warnRolesStillGranting (di_roles input) spec ;;
      releaseD
  end.

Definition handleDatabaseDeletion (input : DatabaseInput) (requeue : Z) : DW S dbResult :=
  finalizers ← liftOD getCopy;
  copy ← getsD dw_copy;
  let spec := nd_Spec copy in
  let ref := ds_ClusterRef spec in
  if negb (bool_decide (DatabaseFinalizer ∈ finalizers)) then mret DbDone
  else match di_claims input with
       | inr e => mret (DbErrored e)
       | inl claims =>
           let kept := keptFor databaseNames (nameClaimOf copy true) claims in
           if negb (String.eqb kept EmptyString) then eventD EventReasonDuplicateNameKept kept ;; releaseD
           else match di_target input with
                | inr e => mret (DbErrored e)
                | inl t =>
                    let d := databaseCleanup spec (di_deletionTimestamp input) requeue in
                    settled ← settleByTarget d ref t (di_volumes input);
                    match settled with
                    | Some r => mret r
                    | None =>
                        connected ← connectOnce;
                        match connected with
                        | Some e => failedCleanup d (connectFailedCause ref e) e
                        | None => dropAndRelease input spec requeue
                        end
                    end
                end
       end.

(** * Reconcile *)

Variable urlParse : string -> result parsedURI.

Definition databaseRefusals (input : DatabaseInput) (spec : DatabaseSpec) : list databaseRefusal :=
  ValidateDatabase urlParse spec (di_options input) (di_config input) (di_seen input)
    (match di_secret input with inl keys => inl keys | inr (_, notFound) => inr notFound end).

Definition recordWarningsD (warnings : list string) : DW S unit :=
  now ← getsD dw_now;
  warned ← getsD dw_warned;
  let reason := EventReasonDbValidationWarning in
  let '(mine, events) := recordScoped now (default ∅ (warned !! reason)) warnings in
  modifyD (fun w => set_dw_warned (<[reason := mine]> warned) (set_dw_events (rev (map (fun m => (reason, m)) events) ++ dw_events w) w)).

Definition ReconcileDatabase (input : DatabaseInput) (requeue : Z) : DW S dbResult :=
  finalizers ← liftOD getCopy;
  copy ← getsD dw_copy;
  if bool_decide (di_deletionTimestamp input <> None) then handleDatabaseDeletion input requeue
  else if negb (bool_decide (DatabaseFinalizer ∈ finalizers)) then
    r ← liftOD (addFinalizer DatabaseFinalizer);
    mret (match r with Some e => DbErrored (apiErrorText e) | None => DbDone end)
  else
    recordWarningsD (di_warnings input) ;;
    match databaseRefusals input (nd_Spec copy) with
    | _ :: _ as refusals =>
        announceD ConditionFalse EventReasonDbValidationFailed
          ("Database validation failed: [" +:+ strings.Join (map databaseRefusalText refusals) " " +:+ "]") ;;
        mret (DbAgain requeue)
    | [] =>
        match di_claims input with
        | inr e => mret (DbErrored e)
        | inl claims =>
            let dup := duplicate databaseNames (nameClaimOf copy false) claims in
            if negb (String.eqb dup EmptyString) then announceD ConditionFalse EventReasonDuplicateName dup ;; mret DbDone
            else reconcileOnTarget input requeue
        end
    end.
End Pass.
