(* ===== verification/DatabaseSafety.v ===== *)
(** What a pass of the database controller may do (DatabasePass.v): the reason of
    every statement it sends and of every patch of the host, and when a deletion
    releases the finalizer; then the passes in which the initial data is imported
    again, or a database dropped that its resource never made. *)
From S2P Require Import Prelude GoStrings GoTime GoRFC3339 ClusterTypes Conditions Availability Privileges TargetWait ObjectPatch DeletionWait Roles DatabaseNames DatabaseStatement DatabaseRules DatabaseWorld DatabasePass.

Open Scope Z_scope.

(** * Steps that send nothing *)

Create HintDb calmdb discriminated.

Section Frames.
Context {S : Type} `{!BoltSession S}.

(** The step leaves Neo4j, the pass's copies, the finalizers and the account of
    actions alone. *)
Definition calmD {A} (m : DW S A) : Prop := forall w, let w' := (m w).2 in
  dw_log w' = dw_log w /\ dw_neo4j w' = dw_neo4j w /\ dw_copy w' = dw_copy w /\ dw_hostCopy w' = dw_hostCopy w /\ dw_obj w' = dw_obj w /\ dw_now w' = dw_now w /\ dw_host w' = dw_host w.

(** The step leaves the account of actions and the finalizers alone. *)
Definition stillD {A} (m : DW S A) : Prop := forall w, let w' := (m w).2 in dw_log w' = dw_log w /\ dw_obj w' = dw_obj w.

Lemma bindD_eq {A B} (m : DW S A) (f : A -> DW S B) w : (m ≫= f) w = f (m w).1 (m w).2.
Proof. unfold mbind, DW_bind. by destruct (m w). Qed.

Lemma calmD_ret {A} (a : A) : calmD (mret a).
Proof. by intros w. Qed.
Lemma calmD_gets {A} (f : DatabaseWorld S -> A) : calmD (getsD f).
Proof. by intros w. Qed.
Lemma calmD_event reason msg : calmD (eventD (S := S) reason msg).
Proof. by intros w. Qed.

Lemma calmD_bind {A B} (m : DW S A) (f : A -> DW S B) : calmD m -> (forall a, calmD (f a)) -> calmD (m ≫= f).
Proof.
  intros Hm Hf w. cbv zeta. rewrite bindD_eq. destruct (Hm w) as (H1 & H2 & H3 & H4 & H5 & H6 & H7). destruct (Hf (m w).1 (m w).2) as (K1 & K2 & K3 & K4 & K5 & K6 & K7). split_and!; congruence.
Qed.

Lemma stillD_calm {A} (m : DW S A) : calmD m -> stillD m.
Proof. intros H w. destruct (H w) as (? & _ & _ & _ & ? & _). done. Qed.
Lemma stillD_bind {A B} (m : DW S A) (f : A -> DW S B) : stillD m -> (forall a, stillD (f a)) -> stillD (m ≫= f).
Proof. intros Hm Hf w. cbv zeta. rewrite bindD_eq. destruct (Hm w), (Hf (m w).1 (m w).2). split; congruence. Qed.

Lemma calmD_retry {A} steps (f : Neo4jDatabase -> option Neo4jDatabase * A) : calmD (retryDb (S := S) steps f).
Proof.
  induction steps as [|steps IH]; intros w; [done|]. cbn [retryDb]. cbv zeta.
  assert (Hn : calmD nextDbAttempt) by (intros w1; unfold nextDbAttempt; by destruct (dw_attempts w1)).
  specialize (Hn w). destruct (nextDbAttempt w) as [a w1]. cbn [snd] in Hn. destruct Hn as (H1 & H2 & H3 & H4 & H5 & H6 & H7).
  destruct a as [|e|e|seen]; [destruct (f (dw_stored w1)) as [[d|] v]|..|destruct (f seen) as [[d|] v]]; try done.
  - destruct (f (dw_stored w1)) as [[d|] v]; done.
  - destruct (IH w1) as (K1 & K2 & K3 & K4 & K5 & K6 & K7). split_and!; congruence.
Qed.
End Frames.
#[export] Hint Resolve calmD_ret calmD_gets calmD_event calmD_retry : calmdb.

(** Takes a step apart, binds first, and closes the leaves that are calm. *)
Ltac calmed :=
  repeat first
    [ progress auto with calmdb nocore
    | apply calmD_bind; [|intros ?]
    | match goal with |- calmD (match ?x with _ => _ end) => destruct x end
    | match goal with |- calmD (if ?b then _ else _) => destruct b end ].

Section Calm.
Context {S : Type} `{!BoltSession S}.

Lemma calmD_status status reason message observed : calmD (S := S) (updateDatabaseStatusObserved status reason message observed).
Proof. unfold updateDatabaseStatusObserved. calmed. Qed.
Lemma calmD_updateStatus status reason message : calmD (S := S) (updateDatabaseStatus status reason message).
Proof. apply calmD_status. Qed.
Lemma calmD_wait reason msg : calmD (S := S) (waitForHost reason msg).
Proof. unfold waitForHost. calmed. Qed.
#[local] Hint Resolve calmD_status calmD_updateStatus calmD_wait : calmdb.
Lemma calmD_announce status reason message : calmD (S := S) (announceD status reason message).
Proof. unfold announceD. calmed. Qed.
#[local] Hint Resolve calmD_announce : calmdb.
Lemma calmD_unreachable e requeue : calmD (S := S) (hostUnreachable e requeue).
Proof. unfold hostUnreachable. calmed. Qed.
Lemma calmD_ready observed : calmD (S := S) (reportDatabaseReady observed).
Proof. unfold reportDatabaseReady. calmed. Qed.
Lemma calmD_connectOnce : calmD (S := S) connectOnce.
Proof. intros w. unfold connectOnce. by destruct (dw_connects w). Qed.
#[local] Hint Resolve calmD_connectOnce : calmdb.
Lemma calmD_connectRetry steps : forall last, calmD (S := S) (connectRetry steps last).
Proof. induction steps as [|steps IH]; intros last; cbn [connectRetry]; calmed. Qed.
Lemma calmD_warnings warnings : calmD (S := S) (recordWarningsD warnings).
Proof. unfold recordWarningsD. calmed. by intros w. Qed.
Lemma stillD_hostAnswered : stillD (S := S) hostAnswered.
Proof.
  unfold hostAnswered. apply stillD_bind; [apply stillD_calm; calmed|]. intros now. apply stillD_bind; [apply stillD_calm; calmed|].
  intros [[[] [written|]]|e]; [by intros w|by apply stillD_calm, calmD_ret..].
Qed.
Lemma calmD_gone entered hadTarget now : calmD (S := S) (fun w => let '(due, since) := announceGone (dw_gone w) entered hadTarget now in (due, set_dw_gone since w)).
Proof. intros w. by destruct (announceGone _ _ _ _). Qed.
End Calm.
#[export] Hint Resolve calmD_status calmD_updateStatus calmD_wait calmD_announce calmD_unreachable calmD_ready calmD_connectOnce calmD_connectRetry calmD_warnings calmD_gone : calmdb.

(** * Steps that leave the account alone *)

Create HintDb quietdb discriminated.

Section Quiet.
Context {S : Type} `{!BoltSession S}.

(** The step adds nothing to the account of actions. *)
Definition quietD {A} (m : DW S A) : Prop := forall w, dw_log (m w).2 = dw_log w.

Lemma quietD_calm {A} (m : DW S A) : calmD m -> quietD m.
Proof. intros H w. by destruct (H w). Qed.
Lemma quietD_still {A} (m : DW S A) : stillD m -> quietD m.
Proof. intros H w. by destruct (H w). Qed.
Lemma quietD_bind {A B} (m : DW S A) (f : A -> DW S B) : quietD m -> (forall a, quietD (f a)) -> quietD (m ≫= f).
Proof. intros Hm Hf w. rewrite bindD_eq, Hf. apply Hm. Qed.
Lemma quietD_ask {A} (call : S -> A * S) : quietD (askD call).
Proof. intros w. unfold askD. by destruct (call _). Qed.
Lemma quietD_lift {A} (m : OW A) : quietD (liftOD (S := S) m).
Proof. intros w. unfold liftOD. by destruct (m _). Qed.
Lemma quietD_own st : quietD (updateOwnStatus (S := S) st).
Proof.
  intros w. unfold updateOwnStatus. cbv zeta. unfold nextDbAttempt. cbn.
  destruct (dw_attempts w) as [|[] ?]; cbn; try done; by destruct (_ =? _).
Qed.
Lemma quietD_modify_roles f : quietD (modifyD (S := S) (fun w => set_dw_roleEvents (f w) w)).
Proof. by intros w. Qed.
End Quiet.
#[export] Hint Resolve quietD_ask quietD_lift quietD_own quietD_modify_roles : quietdb.

(** As [calmed], for the account alone. *)
Ltac quieted :=
  repeat first
    [ solve [auto with quietdb nocore]
    | solve [apply quietD_calm; auto with calmdb nocore]
    | solve [apply quietD_still, stillD_hostAnswered]
    | apply quietD_bind; [|intros ?]
    | match goal with |- quietD (match ?x with _ => _ end) => destruct x end
    | match goal with |- quietD (if ?b then _ else _) => destruct b end ].

Section QuietSteps.
Context {S : Type} `{!BoltSession S}.

Lemma quietD_release : quietD (S := S) releaseD.
Proof. unfold releaseD. quieted. Qed.
#[local] Hint Resolve quietD_release : quietdb.
Lemma quietD_warnRoles roles spec : quietD (S := S) (warnRolesStillGranting roles spec).
Proof. unfold warnRolesStillGranting. quieted. Qed.
Lemma quietD_blocked spec ts requeue cause : quietD (S := S) (blocked (databaseCleanup spec ts requeue) cause).
Proof. unfold blocked, databaseCleanup. cbn. quieted. Qed.
#[local] Hint Resolve quietD_blocked : quietdb.
Lemma quietD_failed spec ts requeue cause e : quietD (S := S) (failedCleanup (databaseCleanup spec ts requeue) cause e).
Proof. unfold failedCleanup. cbn. quieted. Qed.
Lemma quietD_settle spec ts requeue ref t volumes : quietD (S := S) (settleByTarget (databaseCleanup spec ts requeue) ref t volumes).
Proof. unfold settleByTarget. cbn [dc_release databaseCleanup]. quieted. Qed.
End QuietSteps.
#[export] Hint Resolve quietD_release quietD_warnRoles quietD_blocked quietD_failed quietD_settle : quietdb.

(** * What a pass sends *)

Section Sends.
Context {S : Type} `{!BoltSession S}.

(** From [w], the step does these things, in this order. *)
Definition sendsD {A} (sent : list dbAction) (m : DW S A) (w : DatabaseWorld S) : Prop := dw_log (m w).2 = rev sent ++ dw_log w.

Lemma sendsD_none {A} (m : DW S A) w : quietD m -> sendsD [] m w.
Proof. intros H. apply H. Qed.
Lemma sendsD_bind {A B} (m : DW S A) (f : A -> DW S B) first rest w :
  sendsD first m w -> sendsD rest (f (m w).1) (m w).2 -> sendsD (first ++ rest) (m ≫= f) w.
Proof. unfold sendsD. intros H1 H2. by rewrite bindD_eq, H2, H1, rev_app_distr, (assoc_L (++)). Qed.
Lemma sendsD_end {A B} (m : DW S A) (f : A -> DW S B) sent w : sendsD sent m w -> quietD (f (m w).1) -> sendsD sent (m ≫= f) w.
Proof. intros H Hf. rewrite <- (app_nil_r sent). apply sendsD_bind; [done|]. by apply sendsD_none. Qed.
Lemma sendsD_then {A B} (m : DW S A) (f : A -> DW S B) sent w : sendsD sent m w -> (forall a, quietD (f a)) -> sendsD sent (m ≫= f) w.
Proof. intros H Hf. by apply sendsD_end. Qed.
Lemma sendsD_after {A B} (m : DW S A) (f : A -> DW S B) sent w : quietD m -> sendsD sent (f (m w).1) (m w).2 -> sendsD sent (m ≫= f) w.
Proof. intros Hm H. change sent with ([] ++ sent). apply sendsD_bind; [by apply sendsD_none|done]. Qed.
Lemma sendsD_copy {A} (f : Neo4jDatabase -> DW S A) sent w : sendsD sent (f (dw_copy w)) w -> sendsD sent (getsD dw_copy ≫= f) w.
Proof. intros H. apply sendsD_after; [by apply quietD_calm, calmD_gets|exact H]. Qed.
Lemma sendsD_send {A} action (call : S -> A * S) w : sendsD [action] (sendD action call) w.
Proof. unfold sendsD, sendD. by destruct (call _). Qed.

(** The step keeps the pass's own copy. *)
Definition keepsCopy {A} (m : DW S A) : Prop := forall w, dw_copy (m w).2 = dw_copy w.
Lemma keepsD_bind {A B} (m : DW S A) (f : A -> DW S B) : keepsCopy m -> (forall a, keepsCopy (f a)) -> keepsCopy (m ≫= f).
Proof. intros Hm Hf w. rewrite bindD_eq, Hf. apply Hm. Qed.
Lemma keepsD_calm {A} (m : DW S A) : calmD m -> keepsCopy m.
Proof. intros H w. by destruct (H w) as (_ & _ & ? & _). Qed.
Lemma keepsD_ask {A} (call : S -> A * S) : keepsCopy (askD call).
Proof. intros w. unfold askD. by destruct (call _). Qed.
Lemma keepsD_send {A} action (call : S -> A * S) : keepsCopy (sendD action call).
Proof. intros w. unfold sendD. by destruct (call _). Qed.

Lemma create_keeps input spec tag standalone : keepsCopy (createMissing (S := S) input spec tag standalone).
Proof.
  unfold createMissing, createDatabase, runSeedCreateDatabase, runCreateDatabase, DatabaseExists. destruct (resolveDatabaseCreateInputs spec tag standalone).
  repeat first
    [ apply keepsD_bind; [|intros ?] | apply keepsD_send | apply keepsD_ask | by apply keepsD_calm; auto with calmdb nocore
    | match goal with |- keepsCopy (match ?x with _ => _ end) => destruct x end
    | match goal with |- keepsCopy (if ?b then _ else _) => destruct b end ].
Qed.
Lemma ensure_keeps input spec tag standalone : keepsCopy (ensureDatabase (S := S) input spec tag standalone).
Proof.
  unfold ensureDatabase, DatabaseExists.
  repeat first
    [ apply create_keeps | apply keepsD_bind; [|intros ?] | apply keepsD_ask | by apply keepsD_calm; auto with calmdb nocore
    | match goal with |- keepsCopy (match ?x with _ => _ end) => destruct x end
    | match goal with |- keepsCopy (if ?b then _ else _) => destruct b end ].
Qed.

(** The CREATE DATABASE of the pass. *)
Definition createOf (input : DatabaseInput) (spec : DatabaseSpec) (t : ResolvedTarget) : dbAction :=
  let '(topology, cypherLanguage) := resolveDatabaseCreateInputs spec (databaseHostImageTag t) (targetIsStandalone t) in
  let '(query, params) := buildCreateDatabaseQuery (createStatement spec (di_options input) topology cypherLanguage) in
  SentCreate query params.

Lemma create_sends input spec t w : exists sent, sendsD sent (createMissing input spec (databaseHostImageTag t) (targetIsStandalone t)) w
  /\ (sent = [] \/ sent = [createOf input spec t]).
Proof.
  unfold createMissing, createOf, createDatabase. destruct (resolveDatabaseCreateInputs _ _ _) as [topology lang].
  match goal with |- context [match ?c with Some e => mret (Some (wrapClient "failed to prepare cloud credentials" _)) | None => _ end] => destruct c end.
  { exists []. split; [|by left]. apply sendsD_none. quieted. }
  destruct (buildCreateDatabaseQuery _) as [query params]. exists [SentCreate query params]. split; [|by right].
  apply sendsD_then; [|intros; quieted].
  destruct (negb _); unfold runSeedCreateDatabase, runCreateDatabase, DatabaseExists; (apply sendsD_then; [apply sendsD_send|intros; quieted]).
Qed.

Lemma ensure_sends input spec t w : exists sent, sendsD sent (ensureDatabase input spec (databaseHostImageTag t) (targetIsStandalone t)) w
  /\ (sent = [] \/ sent = [createOf input spec t] /\ exists rows, (showDatabases (dw_neo4j w)).1 = inl rows /\ FindDatabase rows (ds_Name spec) = None).
Proof.
  unfold ensureDatabase.
  assert (Hr : (DatabaseExists (ds_Name spec) w).1
    = match (showDatabases (dw_neo4j w)).1 with
      | inl rows => inl (match FindDatabase rows (ds_Name spec) with Some _ => true | None => false end)
      | inr e => inr e
      end).
  { unfold DatabaseExists. rewrite bindD_eq. unfold askD. destruct (showDatabases (dw_neo4j w)) as [[] ?]; done. }
  assert (Hq : quietD (DatabaseExists (ds_Name spec))) by (unfold DatabaseExists; quieted).
  destruct (showDatabases (dw_neo4j w)).1 as [rows|e] eqn:Es; cycle 1.
  { exists []. split; [|by left]. apply sendsD_after; [done|]. rewrite Hr. apply sendsD_none. quieted. }
  destruct (FindDatabase rows (ds_Name spec)) eqn:Ef.
  { exists []. split; [|by left]. apply sendsD_after; [done|]. rewrite Hr. apply sendsD_none. quieted. }
  destruct (create_sends input spec t (DatabaseExists (ds_Name spec) w).2) as (sent & Hs & Hor). exists sent. split.
  - apply sendsD_after; [done|]. rewrite Hr. apply sendsD_then; [done|]. intros [e|]; quieted.
  - destruct Hor as [->| ->]; [by left|right]. eauto.
Qed.

Lemma statements_send database statements : forall w, exists k, sendsD (SentImport database <$> take k statements) (importStatements database statements) w.
Proof.
  induction statements as [|s rest IH]; intros w; [exists 0%nat; done|]. cbn [importStatements].
  assert (Hs : forall w, sendsD [SentImport database s] (ExecuteCypher database s) w) by (intros ?; apply sendsD_then; [apply sendsD_send|intros; quieted]).
  destruct (ExecuteCypher database s w).1 as [e|] eqn:Er.
  - exists 1%nat. change (SentImport database <$> take 1 (s :: rest)) with ([SentImport database s] ++ []). apply sendsD_bind; [apply Hs|]. rewrite Er. apply sendsD_none. quieted.
  - destruct (IH (ExecuteCypher database s w).2) as [k Hk]. exists (Datatypes.S k). cbn [take fmap list_fmap].
    change (?a :: ?l) with ([a] ++ l). apply sendsD_bind; [apply Hs|]. by rewrite Er.
Qed.

(** The statements of the initial data that are left to import. *)
Definition toImport (d : Neo4jDatabase) : list string :=
  if String.eqb (ds_SeedURI (nd_Spec d)) EmptyString && match dbs_DataImported (nd_Status d) with None => true | Some _ => false end
  then default [] (ds_InitialData (nd_Spec d)) else [].

Lemma import_sends observed requeue w :
  exists k, sendsD (SentImport (ds_Name (nd_Spec (dw_copy w))) <$> take k (toImport (dw_copy w))) (importData (nd_Spec (dw_copy w)) observed requeue) w.
Proof.
  unfold importData. remember (dw_copy w) as d eqn:Hd.
  assert (Hcopy : forall sent (m : Neo4jDatabase -> DW S (option dbResult)), sendsD sent (m d) w -> sendsD sent (getsD dw_copy ≫= m) w) by (intros ???; subst d; by apply sendsD_copy).
  unfold toImport. destruct (dbs_DataImported (nd_Status d)) eqn:Ed.
  { exists 0%nat. apply Hcopy. rewrite Ed. cbn [andb]. apply sendsD_none. quieted. }
  destruct (String.eqb (ds_SeedURI (nd_Spec d)) EmptyString) eqn:Eu; cbn [andb].
  - destruct (ds_InitialData (nd_Spec d)) as [statements|] eqn:Ei.
    + destruct (statements_send (ds_Name (nd_Spec d)) statements w) as [k Hk]. exists k. apply Hcopy. rewrite Ed. cbn [negb andb]. apply sendsD_then; [done|]. intros [e|]; quieted.
    + exists 0%nat. apply Hcopy. rewrite Ed. cbn [negb andb]. apply sendsD_none. quieted.
  - exists 0%nat. apply Hcopy. rewrite Ed. cbn [negb andb]. apply sendsD_none. quieted.
Qed.
End Sends.

Section Lawful.
Context {S : Type} `{!BoltSession S}.

Lemma patchHost_sends secret steps : forall w, let r := patchHost (S := S) steps secret w in
  dw_neo4j r.2 = dw_neo4j w /\ dw_copy r.2 = dw_copy w
  /\ ((r.1 = inl true /\ sendsD [HostPatched secret] (patchHost steps secret) w)
      \/ (r.1 <> inl true /\ sendsD [] (patchHost steps secret) w /\ (r.1 = inl false -> hostHas (dw_host w) secret = true))).
Proof.
  induction steps as [|steps IH]; intros w; cbn [patchHost]; cbv zeta; unfold sendsD; cbn [patchHost].
  { split_and!; [done..|]. by right. }
  destruct (nextHostAttempt w) as [a w1] eqn:Ea.
  assert (Hw : dw_neo4j w1 = dw_neo4j w /\ dw_copy w1 = dw_copy w /\ dw_host w1 = dw_host w /\ dw_log w1 = dw_log w).
  { unfold nextHostAttempt in Ea. destruct (dw_hostAttempts w); by simplify_eq/=. }
  destruct Hw as (H1 & H2 & H3 & H4). rewrite H3. specialize (IH w1). cbv zeta in IH. unfold sendsD in IH. rewrite H1, H2, H3, H4 in IH.
  destruct a; destruct (hostHas (dw_host w) secret) eqn:Eh; cbn; rewrite ?H1, ?H2, ?H4; split_and!; try done; try (by right); try (by left); apply IH.
Qed.

(** The seed's credentials are on the host. *)
Definition credentialsThere (w : DatabaseWorld S) : Prop :=
  match ds_SeedCredentials (nd_Spec (dw_copy w)) with
  | Some secret => ds_SeedURI (nd_Spec (dw_copy w)) <> EmptyString -> secret <> EmptyString -> hostHas (dw_hostCopy w) secret = true \/ hostHas (dw_host w) secret = true
  | None => True
  end.

(** The host lacks the credentials, and asks to have them added. *)
Definition credentialsAsked (w : DatabaseWorld S) (secret : string) : Prop :=
  ds_SeedCredentials (nd_Spec (dw_copy w)) = Some secret /\ secret <> EmptyString /\ ds_SeedURI (nd_Spec (dw_copy w)) <> EmptyString
  /\ hc_AutoInherit (dw_hostCopy w) = "true" /\ hostHas (dw_hostCopy w) secret = false.

Lemma projected_sends secret w : let m := EnsureSeedCredsProjected (S := S) secret in
  dw_neo4j (m w).2 = dw_neo4j w /\ dw_copy (m w).2 = dw_copy w
  /\ (((m w).1 = inl true /\ sendsD [HostPatched secret] m w /\ hc_AutoInherit (dw_hostCopy w) = "true" /\ hostHas (dw_hostCopy w) secret = false)
      \/ ((m w).1 <> inl true /\ sendsD [] m w
          /\ ((m w).1 = inl false -> secret = EmptyString \/ hostHas (dw_hostCopy w) secret = true \/ hostHas (dw_host w) secret = true))).
Proof.
  unfold sendsD, EnsureSeedCredsProjected. cbv zeta. rewrite bindD_eq. cbn [getsD fst snd].
  destruct (String.eqb_spec secret EmptyString) as [->|Hs]; [split_and!; [done..|]; right; by eauto|].
  destruct (hostHas (dw_hostCopy w) secret); [split_and!; [done..|]; right; by eauto|].
  destruct (String.eqb_spec (hc_AutoInherit (dw_hostCopy w)) "true") as [Ha|Ha]; cbn [negb]; [|split_and!; [done..|]; by right].
  rewrite bindD_eq. destruct (patchHost_sends secret 4 w) as (H1 & H2 & H3). unfold sendsD in H3. cbn [mret DW_ret fst snd].
  split_and!; [done..|]. destruct H3 as [[-> H]|(Hn & H & Hf)]; [by left|right].
  destruct (patchHost 4 secret w).1 as [[]|e]; [done|..]; split_and!; try done. intros _. right; right. by apply Hf.
Qed.

Lemma seed_sends requeue w : let m := seedCredentials (S := S) (nd_Spec (dw_copy w)) requeue in
  (exists secret, sendsD [HostPatched secret] m w /\ credentialsAsked w secret /\ (m w).1 <> None)
  \/ (sendsD [] m w /\ ((m w).1 = None -> dw_neo4j (m w).2 = dw_neo4j w /\ dw_copy (m w).2 = dw_copy w /\ credentialsThere w)).
Proof.
  unfold seedCredentials, credentialsThere, credentialsAsked. cbv zeta. destruct (ds_SeedCredentials _) as [secret|] eqn:Ec; [|by right].
  destruct (String.eqb_spec (ds_SeedURI (nd_Spec (dw_copy w))) EmptyString) as [Eu|Eu]; [by right|].
  destruct (String.eqb_spec secret EmptyString) as [Es|Es]; [by right|]. cbn [negb andb].
  destruct (projected_sends secret w) as (H1 & H2 & [(Hr & H & Ha & Hh)|(Hr & H & Hf)]).
  - left. exists secret. split_and!; [|done..|].
    + apply sendsD_end; [done|]. rewrite Hr. quieted.
    + rewrite bindD_eq, Hr. rewrite !bindD_eq. done.
  - right. split.
    + apply sendsD_end; [done|]. destruct (EnsureSeedCredsProjected secret w).1 as [[]|e]; [done|..]; quieted.
    + rewrite !bindD_eq. destruct (EnsureSeedCredsProjected secret w).1 as [[]|e]; [done|..]; [|by rewrite !bindD_eq].
      intros _. split_and!; [done..|]. intros _ _. by destruct (Hf eq_refl).
Qed.

Lemma served_sends ensured requeue w :
  exists k, sendsD (SentImport (ds_Name (nd_Spec (dw_copy w))) <$> take k (toImport (dw_copy w))) (served (nd_Spec (dw_copy w)) ensured requeue) w.
Proof.
  destruct ensured as [observed|e]; cbn [served].
  - destruct (import_sends observed requeue w) as [k Hk]. exists k. apply sendsD_then; [done|]. intros [r|]; quieted.
  - exists 0%nat. apply sendsD_none. quieted.
Qed.

(** Nothing, or the CREATE DATABASE of a database that SHOW DATABASES did not list. *)
Definition createdIfMissing (input : DatabaseInput) (t : ResolvedTarget) (w : DatabaseWorld S) (create : list dbAction) : Prop :=
  create = []
  \/ create = [createOf input (nd_Spec (dw_copy w)) t]
     /\ exists rows, (showDatabases (dw_neo4j w)).1 = inl rows /\ FindDatabase rows (ds_Name (nd_Spec (dw_copy w))) = None.

Lemma serve_sends input t requeue w : exists sent, sendsD sent (serve input t requeue) w
  /\ ((exists secret, sent = [HostPatched secret] /\ credentialsAsked w secret) \/ sent = []
      \/ exists create k, sent = create ++ (SentImport (ds_Name (nd_Spec (dw_copy w))) <$> take k (toImport (dw_copy w)))
           /\ credentialsThere w /\ createdIfMissing input t w create).
Proof.
  destruct (seed_sends requeue w) as [(secret & Hs & Ha & Hr)|[Hs Hf]].
  { exists [HostPatched secret]. split; [|eauto]. apply sendsD_copy, sendsD_end; [done|]. destruct (seedCredentials _ _ w).1; [|done]. quieted. }
  destruct (seedCredentials (nd_Spec (dw_copy w)) requeue w).1 as [r|] eqn:Er.
  { exists []. split; [|by eauto]. apply sendsD_copy, sendsD_end; [done|]. rewrite Er. quieted. }
  destruct (Hf eq_refl) as (Hn & Hc & Ht). remember (seedCredentials (nd_Spec (dw_copy w)) requeue w).2 as w1 eqn:Hw1.
  destruct (ensure_sends input (nd_Spec (dw_copy w)) t w1) as (create & He & Hor). rewrite Hn in Hor.
  remember (ensureDatabase input (nd_Spec (dw_copy w)) (databaseHostImageTag t) (targetIsStandalone t)) as ensure eqn:Hensure.
  assert (Hc2 : dw_copy (ensure w1).2 = dw_copy w) by (by rewrite Hensure, ensure_keeps).
  destruct (served_sends (ensure w1).1 requeue (ensure w1).2) as [k Hk]. rewrite Hc2 in Hk.
  eexists. split; [|right; right; by exists create, k].
  apply sendsD_copy. apply (sendsD_bind _ _ []); [done|]. rewrite Er, <- Hw1, <- Hensure. by apply sendsD_bind.
Qed.
End Lawful.

(** * The reason of everything sent *)

Section Reasons.
Context {S : Type} `{!BoltSession S} (urlParse : string -> result parsedURI).

(** The pass got as far as a host that accepts work, with no refusal and the name
    its own. *)
Definition admitted (input : DatabaseInput) (t : ResolvedTarget) (w : DatabaseWorld S) : Prop :=
  di_deletionTimestamp input = None /\ DatabaseFinalizer ∈ ow_copy (dw_obj w)
  /\ databaseRefusals urlParse input (nd_Spec (dw_copy w)) = []
  /\ (exists claims, di_claims input = inl claims /\ duplicate databaseNames (nameClaimOf (dw_copy w) false) claims = EmptyString)
  /\ di_target input = inl t /\ targetFound t = true /\ IsReady t = true.

(** The database is deleted, nothing else has its name, and the host that holds it
    stays. *)
Definition dropDue (input : DatabaseInput) (w : DatabaseWorld S) : Prop :=
  di_deletionTimestamp input <> None /\ DatabaseFinalizer ∈ ow_copy (dw_obj w)
  /\ (exists claims, di_claims input = inl claims /\ keptFor databaseNames (nameClaimOf (dw_copy w) true) claims = EmptyString)
  /\ exists t, di_target input = inl t /\ fateOfTarget t (di_volumes input) = inl targetHolds.

(** Everything a pass may do to Neo4j and the host, in order. *)
Inductive mayDo (input : DatabaseInput) (w : DatabaseWorld S) : list dbAction -> Prop :=
| MayDoNothing : mayDo input w []
| MayPatchHost t secret : admitted input t w -> credentialsAsked w secret -> mayDo input w [HostPatched secret]
| MayCreateAndImport t create k : admitted input t w -> credentialsThere w -> createdIfMissing input t w create ->
    mayDo input w (create ++ (SentImport (ds_Name (nd_Spec (dw_copy w))) <$> take k (toImport (dw_copy w))))
| MayDrop : dropDue input w -> mayDo input w [SentDrop (dropStatement (ds_Name (nd_Spec (dw_copy w))))].

(** The step does what the pass may. *)
Definition doesD {A} (input : DatabaseInput) (w0 : DatabaseWorld S) (m : DW S A) (w : DatabaseWorld S) : Prop := exists sent, sendsD sent m w /\ mayDo input w0 sent.

Lemma doesD_nothing {A} input w0 (m : DW S A) w : quietD m -> doesD input w0 m w.
Proof. intros H. exists []. split; [by apply sendsD_none|constructor]. Qed.
Lemma doesD_after {A B} input w0 (m : DW S A) (f : A -> DW S B) w : quietD m -> doesD input w0 (f (m w).1) (m w).2 -> doesD input w0 (m ≫= f) w.
Proof. intros Hm (sent & Hs & Hl). exists sent. split; [by apply sendsD_after|done]. Qed.

(** What [mayDo] reads of the world. *)
Definition sameBasis (w0 w : DatabaseWorld S) : Prop :=
  dw_copy w = dw_copy w0 /\ dw_neo4j w = dw_neo4j w0 /\ dw_hostCopy w = dw_hostCopy w0 /\ dw_host w = dw_host w0 /\ dw_obj w = dw_obj w0.
Lemma same_calm {A} (m : DW S A) w0 w : calmD m -> sameBasis w0 w -> sameBasis w0 (m w).2.
Proof. intros H (K1 & K2 & K3 & K4 & K5). destruct (H w) as (_ & ? & ? & ? & ? & _ & ?). unfold sameBasis. split_and!; congruence. Qed.

Lemma serve_does input t requeue w0 w : sameBasis w0 w -> admitted input t w0 -> doesD input w0 (serve input t requeue) w.
Proof.
  intros (H1 & H2 & H3 & H4 & _) Ha. destruct (serve_sends input t requeue w) as (sent & Hs & Hcases). exists sent. split; [done|].
  unfold createdIfMissing, credentialsThere, credentialsAsked in Hcases. rewrite H1, H2, H3, H4 in Hcases.
  destruct Hcases as [(secret & -> & ?)|[->|(create & k & -> & ? & ?)]]; econstructor; done.
Qed.

Lemma target_does input requeue w0 w : sameBasis w0 w -> (forall t, di_target input = inl t -> targetFound t = true -> IsReady t = true -> admitted input t w0) ->
  doesD input w0 (reconcileOnTarget input requeue) w.
Proof.
  intros Hw Ha. unfold reconcileOnTarget. apply doesD_after; [by apply quietD_calm, calmD_gets|]. cbv zeta.
  destruct (di_target input) as [t|e]; [|apply doesD_nothing; quieted].
  destruct (targetFound t) eqn:Ef; cbn [negb]; [|apply doesD_nothing; quieted].
  destruct (IsReady t) eqn:Er; cbn [negb]; [|apply doesD_nothing; quieted].
  apply doesD_after; [by apply quietD_calm, calmD_connectRetry|].
  destruct (connectRetry 4 None _).1 as [e|]; [apply doesD_nothing; quieted|].
  apply serve_does; [|by apply Ha]. apply same_calm; [apply calmD_connectRetry|]. exact Hw.
Qed.

Lemma settle_unless_held spec ts requeue ref t volumes (w : DatabaseWorld S) :
  fateOfTarget t volumes = inl targetHolds \/ (settleByTarget (databaseCleanup spec ts requeue) ref t volumes w).1 <> None.
Proof. unfold settleByTarget. destruct (fateOfTarget t volumes) as [[]|]; rewrite ?bindD_eq; first [by left|by right]. Qed.

Lemma deletion_does input requeue w : di_deletionTimestamp input <> None -> doesD input w (handleDatabaseDeletion input requeue) w.
Proof.
  intros Hd. unfold handleDatabaseDeletion. apply doesD_after; [apply quietD_lift|]. apply doesD_after; [by apply quietD_calm, calmD_gets|].
  cbn [liftOD getCopy getsD fst snd]. replace (set_dw_obj (dw_obj w) w) with w by (by destruct w). cbv zeta. destruct (bool_decide _) eqn:Ef; cbn [negb]; [|apply doesD_nothing; quieted]. apply bool_decide_eq_true in Ef.
  destruct (di_claims input) as [claims|e] eqn:Ec; [|apply doesD_nothing; quieted].
  destruct (String.eqb_spec (keptFor databaseNames (nameClaimOf (dw_copy w) true) claims) EmptyString) as [Ek|Ek]; cbn [negb]; [|apply doesD_nothing; quieted].
  destruct (di_target input) as [t|e] eqn:Et; [|apply doesD_nothing; quieted].
  destruct (settle_unless_held (nd_Spec (dw_copy w)) (di_deletionTimestamp input) requeue (ds_ClusterRef (nd_Spec (dw_copy w))) t (di_volumes input) w) as [Efate|Esome]; cycle 1.
  { apply doesD_after; [quieted|].
    destruct (settleByTarget (databaseCleanup _ _ _) _ _ _ w).1; [|done]. apply doesD_nothing. quieted. }
  apply doesD_after; [quieted|]. unfold settleByTarget at 1. rewrite Efate. cbn [mret DW_ret fst].
  apply doesD_after; [quieted|]. destruct (connectOnce _).1 as [e|]; [apply doesD_nothing; quieted|].
  eexists. split; [|apply MayDrop; split_and!; eauto].
  apply sendsD_then; [apply sendsD_then; [apply sendsD_send|intros; quieted]|]. intros [e|]; quieted.
Qed.

(** C29: Whatever answers the operator gets, a pass over a Neo4jDatabase does one of four things to Neo4j and the host, in this order and nothing more. It adds the seed's credentials Secret to a host that lacks it and asks for that; or, on a host that accepts work, with no refusal, the name its own and the seed's credentials in place, it sends the spec's CREATE DATABASE if SHOW DATABASES did not list the database, and then a prefix of the initial data's statements, in order, if there is no seed and none were recorded as imported; or, in a deletion, it drops the database when no other resource has its name and the host that holds it stays; or it does nothing. *)
Theorem database_pass_sends (input : DatabaseInput) (requeue : Z) (w : DatabaseWorld S) :
  exists sent, dw_log (ReconcileDatabase urlParse input requeue w).2 = rev sent ++ dw_log w /\ mayDo input w sent.
Proof.
  change (doesD input w (ReconcileDatabase urlParse input requeue) w). unfold ReconcileDatabase.
  apply doesD_after; [apply quietD_lift|]. apply doesD_after; [by apply quietD_calm, calmD_gets|]. cbn [liftOD getCopy getsD fst snd].
  replace (set_dw_obj (dw_obj w) w) with w by (by destruct w).
  case_bool_decide as Hd; [by apply deletion_does|].
  case_bool_decide as Hf; cbn [negb]; [|apply doesD_nothing; quieted].
  apply doesD_after; [quieted|].
  assert (Hw : sameBasis w (recordWarningsD (di_warnings input) w).2) by (by apply same_calm; [apply calmD_warnings|]).
  destruct (databaseRefusals urlParse input (nd_Spec (dw_copy w))) as [|r rs] eqn:Er; [|apply doesD_nothing; quieted].
  destruct (di_claims input) as [claims|e] eqn:Ec; [|apply doesD_nothing; quieted].
  destruct (String.eqb_spec (duplicate databaseNames (nameClaimOf (dw_copy w) false) claims) EmptyString) as [Ek|Ek]; cbn [negb]; [|apply doesD_nothing; quieted].
  apply target_does; [done|]. intros t ???. unfold admitted. split_and!; eauto.
Qed.
End Reasons.

(** * Releases *)

Section Releases.
Context {S : Type} `{!BoltSession S}.

(** A Warning of the pass ends with the statement to run by hand. *)
Definition toldByHand (spec : DatabaseSpec) (w : DatabaseWorld S) : Prop :=
  exists text, (EventReasonDeletionFailed, text +:+ byHand (ds_Name spec)) ∈ dw_events w.

(** DROP DATABASE succeeded, or there was no such database. *)
Definition dropGone (spec : DatabaseSpec) (w : DatabaseWorld S) : Prop :=
  match (runSystem (dropStatement (ds_Name spec)) ∅ (dw_neo4j w)).1 with
  | None => True
  | Some (e, _) => isDatabaseNotFoundError e = true
  end.

(** Its error as DropDatabase returns it. *)
Definition dropFailure (spec : DatabaseSpec) (w : DatabaseWorld S) : option clientError :=
  wrapClient ("failed to drop database " +:+ ds_Name spec) ∘ fst <$> (runSystem (dropStatement (ds_Name spec)) ∅ (dw_neo4j w)).1.

Lemma release_events (w : DatabaseWorld S) : dw_events (releaseD w).2 = dw_events w.
Proof. unfold releaseD. rewrite bindD_eq. unfold liftOD. by destruct (removeFinalizer _ _). Qed.

Lemma stillD_obj {A} (m : DW S A) w : calmD m -> dw_obj (m w).2 = dw_obj w.
Proof. intros H. by destruct (H w) as (_ & _ & _ & _ & ? & _). Qed.

Lemma app_suffix (a b c : string) : (a +:+ b) +:+ c = a +:+ (b +:+ c).
Proof. induction a as [|ch a IH]; [done|]. cbn. by rewrite IH. Qed.

(** Held up: the finalizer stays until the grace period is over, and a Warning tells. *)
Lemma blocked_holds spec ts requeue cause (w : DatabaseWorld S) :
  let m := blocked (databaseCleanup spec ts requeue) cause in
  dw_obj (m w).2 = dw_obj w \/ deletionGracePeriodExceeded ts (dw_now w) = true /\ toldByHand spec (m w).2.
Proof.
  unfold blocked, databaseCleanup. cbv zeta. cbn [passNow passEvent passAgain databaseCleanupPass dc_deletionTimestamp dc_record dc_release dc_reason dc_requeue]. rewrite bindD_eq. cbn [getsD fst snd].
  destruct (deletionGracePeriodExceeded ts (dw_now w)); cbn [negb].
  - right. split; [done|]. rewrite bindD_eq. unfold toldByHand. rewrite release_events. unfold releaseMessage. cbn [dc_leftBehind dc_byHand eventD modifyD fst snd]. cbn [dw_events set_dw_events].
    eexists. rewrite <- !app_suffix. by left.
  - left. apply stillD_obj. calmed.
Qed.

Lemma failed_holds spec ts requeue cause e (w : DatabaseWorld S) :
  let m := failedCleanup (databaseCleanup spec ts requeue) cause e in
  dw_obj (m w).2 = dw_obj w \/ deletionGracePeriodExceeded ts (dw_now w) = true /\ toldByHand spec (m w).2.
Proof.
  unfold failedCleanup. cbv zeta. cbn [passNow databaseCleanupPass]. rewrite bindD_eq. cbn [getsD fst snd].
  destruct (retryTransient _ _ _); [by left|]. apply blocked_holds.
Qed.

Lemma drop_holds input spec requeue (w : DatabaseWorld S) : let m := dropAndRelease input spec requeue in
  dw_obj (m w).2 = dw_obj w \/ dropGone spec w
  \/ (exists e, dropFailure spec w = Some e /\ releasesFailed (di_deletionTimestamp input) (dw_now w) e = true) /\ toldByHand spec (m w).2.
Proof.
  unfold dropAndRelease, DropDatabase, dropGone, dropFailure. cbv zeta. rewrite !bindD_eq. unfold sendD.
  destruct (runSystem _ _ _) as [[[e d]|] n] eqn:Er; cbn [fst snd mret DW_ret fmap option_fmap option_map compose]; [|by right; left].
  destruct (isDatabaseNotFoundError e); [by right; left|]. rewrite bindD_eq. cbn [getsD fst snd dw_now set_dw_neo4j set_dw_log].
  destruct (retryTransient _ _ _); [by left|].
  destruct (releasesFailed _ _ _) eqn:Ef; cbn [negb].
  - right; right. split; [by eexists|]. rewrite bindD_eq. unfold toldByHand. rewrite release_events. cbn [eventD modifyD fst snd dw_events set_dw_events].
    eexists. rewrite <- !app_suffix. by left.
  - left. rewrite stillD_obj; [done|]. calmed.
Qed.

(** C31: A pass of a deletion writes the finalizer list only if another resource has the database's name and keeps it, the host goes away with its volumes, DROP DATABASE just succeeded or found no such database, or the cleanup failed for good: the grace period of the deletion is over, or the drop's error says that something does not exist. In that last case a Warning of the pass ends with the DROP DATABASE statement to run by hand. *)
Theorem database_release_justified (input : DatabaseInput) (requeue : Z) (w : DatabaseWorld S) :
  let spec := nd_Spec (dw_copy w) in
  let w' := (handleDatabaseDeletion input requeue w).2 in
  ow_writes (dw_obj w') <> ow_writes (dw_obj w) ->
  (exists claims, di_claims input = inl claims /\ keptFor databaseNames (nameClaimOf (dw_copy w) true) claims <> EmptyString)
  \/ (exists t, di_target input = inl t /\ fateOfTarget t (di_volumes input) = inl targetTakesIt)
  \/ dropGone spec w
  \/ (deletionGracePeriodExceeded (di_deletionTimestamp input) (dw_now w) = true
      \/ exists e, dropFailure spec w = Some e /\ IsNotFoundError e = true) /\ toldByHand spec w'.
Proof.
  cbv zeta. intros Hw. assert (Ho : dw_obj (handleDatabaseDeletion input requeue w).2 <> dw_obj w) by congruence. clear Hw. revert Ho.
  unfold handleDatabaseDeletion. rewrite !bindD_eq. cbn [liftOD getCopy getsD fst snd]. replace (set_dw_obj (dw_obj w) w) with w by (by destruct w).
  destruct (negb _); [done|]. destruct (di_claims input) as [claims|e]; [|done].
  destruct (String.eqb_spec (keptFor databaseNames (nameClaimOf (dw_copy w) true) claims) EmptyString) as [Ek|Ek]; cbn [negb]; [|by eauto].
  destruct (di_target input) as [t|e] eqn:Et; [|done]. rewrite bindD_eq. unfold settleByTarget. destruct (fateOfTarget t (di_volumes input)) as [[]|e] eqn:Ef; [|by eauto 6|..|done].
  - cbn [mret DW_ret fst snd]. rewrite bindD_eq. destruct (calmD_connectOnce w) as (_ & Hn & _ & _ & Hobj & Hnow & _).
    destruct (connectOnce w) as [[e|] w1]; cbn [fst snd] in *; intros Ho.
    + destruct (failed_holds (nd_Spec (dw_copy w)) (di_deletionTimestamp input) requeue (connectFailedCause (ds_ClusterRef (nd_Spec (dw_copy w))) e) e w1) as [H|[H1 H2]]; [congruence|].
      rewrite Hnow in H1. eauto 6.
    + destruct (drop_holds input (nd_Spec (dw_copy w)) requeue w1) as [H|[H|[(e & He & Hr) H2]]]; [congruence|..]; unfold dropGone, dropFailure in *; rewrite Hn in *; [by eauto|].
      rewrite Hnow in Hr. do 3 right. split; [|done]. apply orb_true_iff in Hr as [Hr|Hr]; eauto.
  - rewrite bindD_eq. cbn [mret DW_ret fst snd]. intros Ho.
    destruct (blocked_holds (nd_Spec (dw_copy w)) (di_deletionTimestamp input) requeue (volumesKeptCause (ds_ClusterRef (nd_Spec (dw_copy w)))) w) as [H|[H1 H2]]; [congruence|]. eauto 6.
Qed.
End Releases.

(** * Passes *)

Module DatabaseSample.

(** A server: the names of its databases, and the statement of the data, if any,
    that it refuses. *)
Definition Server : Type := list string * option string.

#[global] Instance sampleSession : BoltSession Server := {
  runSystem query _ n :=
    if strings.HasPrefix query "DROP" then (Some (plainError "database is in use", false), n) else (None, ("orders" :: n.1, n.2));
  runOn _ statement n :=
    (if decide (n.2 = Some statement) then Some (plainError "SyntaxError") else None, n);
  showDatabases n := (inl (map (fun name => mkDatabaseRow name "online" "online" "server-0:7687") n.1), n)
}.

Definition orders (name : string) (data : list string) : DatabaseSpec := mkDatabaseSpec "c" name ∅ (Some data) false false None EmptyString EmptyString None None.
Definition neverServed : DatabaseStatus := mkDatabaseStatus [] EmptyString EmptyString 0 None None EmptyString [].
Definition resource (spec : DatabaseSpec) : Neo4jDatabase := mkNeo4jDatabase "orders" "u" 0 1 7 spec neverServed.
Definition standaloneHost : hostCR := mkHostCR "Neo4jEnterpriseStandalone" "c" [] EmptyString EmptyString.
Definition target : ResolvedTarget := TargetStandalone true (mkDeployment "u" "neo4j" "5.26.0-enterprise" false "Delete").
Definition inputOf (deleted : option Z) (d : Neo4jDatabase) : DatabaseInput :=
  mkDatabaseInput deleted [] [] [] (HostStandalone "5.26.0-enterprise") (inl ∅) (inl [nameClaimOf d (bool_decide (deleted <> None))]) (inl target) (inl []) (inl []).
Definition worldOf (now : Z) (d : Neo4jDatabase) (attempts : list dbAttempt) (n : Server) : DatabaseWorld Server :=
  mkDatabaseWorld now d d attempts (mkObjWorld (Some [DatabaseFinalizer]) [DatabaseFinalizer] [] []) [] standaloneHost standaloneHost [] [] [] ∅ None n [].
Definition pass (deleted : option Z) (now : Z) (d : Neo4jDatabase) (attempts : list dbAttempt) (n : Server) : dbResult * DatabaseWorld Server :=
  ReconcileDatabase DatabaseRulesSample.anyURI (inputOf deleted d) 30 (worldOf now d attempts n).

(** The drop is refused: released, with the Warning, after the deadline. *)
Lemma database_release_justified_witness :
  deletionGracePeriodExceeded (Some 0) (6 * minute) = true
  /\ toldByHand (orders "orders" []) (handleDatabaseDeletion (inputOf (Some 0) (resource (orders "orders" []))) 30 (worldOf (6 * minute) (resource (orders "orders" [])) [] (["orders"], None))).2.
Proof.
  destruct (database_release_justified (inputOf (Some 0) (resource (orders "orders" []))) 30 (worldOf (6 * minute) (resource (orders "orders" [])) [] (["orders"], None))) as [H|[H|[H|[[H|H] H2]]]].
  - vm_compute. discriminate.
  - destruct H as (claims & [= <-] & H). exfalso. apply H. vm_compute. reflexivity.
  - destruct H as (t & [= <-] & H). vm_compute in H. discriminate.
  - vm_compute in H. discriminate.
  - split; [exact H|exact H2].
  - destruct H as (e & [= <-] & H). vm_compute in H. discriminate.
Defined.

Definition data : list string := ["CREATE (:Counter {n: 1})"; "CREAT (:Typo)"].

(** The initial data runs again from its start: after a statement that failed, and
    when all of it ran but the write that records it met a conflict. *)
Theorem import_repeats :
  let first := pass None 0 (resource (orders "orders" data)) [] ([], Some "CREAT (:Typo)") in
  let again := pass None 60 (dw_stored first.2) [] (dw_neo4j first.2) in
  let conflict := pass None 0 (resource (orders "orders" ["CREATE (:Counter {n: 1})"])) [DbConflicts (resource (orders "orders" []))] ([], None) in
  let after := pass None 60 (dw_stored conflict.2) [] (dw_neo4j conflict.2) in
  (SentImport "orders" "CREATE (:Counter {n: 1})" ∈ dw_log first.2 /\ SentImport "orders" "CREATE (:Counter {n: 1})" ∈ dw_log again.2)
  /\ (SentImport "orders" "CREATE (:Counter {n: 1})" ∈ dw_log conflict.2 /\ SentImport "orders" "CREATE (:Counter {n: 1})" ∈ dw_log after.2).
Proof. vm_compute. split; split; repeat (first [by left|right]). Qed.

Definition refused : DatabaseSpec := mkDatabaseSpec "c" "orders" ∅ None false false None "7" EmptyString None None.

(** A resource that was refused, so that it never made a database, still drops the
    one of its name when it is deleted. A refused name goes into that statement as
    it is, without the escape of the statement given for the hand. *)
Theorem refused_database_drops :
  (databaseRefusals DatabaseRulesSample.anyURI (inputOf None (resource refused)) refused <> []
   /\ dw_log (pass None 0 (resource refused) [] ([], None)).2 = []
   /\ dw_log (pass (Some 0) 0 (resource refused) [] (["orders"], None)).2 = [SentDrop "DROP DATABASE `orders`"])
  /\ (dw_log (pass (Some 0) 0 (resource (orders "a`b" [])) [] ([], None)).2 = [SentDrop "DROP DATABASE `a`b`"] /\ byHand "a`b" = "DROP DATABASE `a``b`").
Proof. split; [split; [vm_compute; discriminate|]|]; vm_compute; split; reflexivity. Qed.
End DatabaseSample.
