(* ===== verification/DatabaseServed.v ===== *)
(** The pass of the database controller that goes well (DatabasePass.v): on a host
    that accepts work, where every statement succeeds and nothing else writes, it
    makes the database, imports its initial data, records both, and reports it
    Ready. *)
From S2P Require Import Prelude GoStrings GoTime GoRFC3339 ClusterTypes Conditions Availability Privileges TargetWait ObjectPatch DeletionWait Roles DatabaseNames DatabaseStatement DatabaseRules DatabaseWorld DatabasePass DatabaseSafety.

Open Scope Z_scope.

Section Served.
Context {S : Type} `{!BoltSession S}.

(** Every statement succeeds. *)
Record obliging : Prop := mkObliging {
  ob_system : forall query params n, (runSystem query params n).1 = None;
  ob_on : forall database statement n, (runOn database statement n).1 = None;
  ob_show : forall n, exists rows, (showDatabases n).1 = inl rows
}.
Hypothesis Hneo4j : obliging.

(** The status as it was, and no failure to come. *)
Definition undisturbed (w w' : DatabaseWorld S) : Prop :=
  dw_stored w' = dw_stored w /\ dw_copy w' = dw_copy w /\ dw_attempts w' = dw_attempts w.

Lemma show_ok (w : DatabaseWorld S) : exists rows w', (showDatabases (dw_neo4j w)).1 = inl rows /\ askD showDatabases w = (inl rows, w') /\ undisturbed w w' /\ dw_log w' = dw_log w.
Proof.
  destruct (ob_show Hneo4j (dw_neo4j w)) as [rows Hr]. unfold askD. destruct (showDatabases (dw_neo4j w)) as [r n]. cbn in Hr. subst r. by eexists _, _.
Qed.

Lemma statements_ok database statements : forall w : DatabaseWorld S, exists w', importStatements database statements w = (None, w')
  /\ undisturbed w w' /\ dw_log w' = rev (SentImport database <$> statements) ++ dw_log w.
Proof.
  induction statements as [|s rest IH]; intros w; [by exists w|]. cbn [importStatements]. rewrite bindD_eq.
  unfold ExecuteCypher. rewrite bindD_eq. unfold sendD. pose proof (ob_on Hneo4j database s (dw_neo4j w)) as Ho. destruct (runOn _ _ _) as [r n]. cbn in Ho. subst r. cbn [fmap option_fmap option_map mret DW_ret fst snd].
  edestruct IH as (w' & Hi & Hu & Hl). exists w'. split; [exact Hi|]. split; [exact Hu|]. rewrite Hl. cbn. by rewrite <- (assoc_L (++)).
Qed.

Lemma create_ok input spec t (w : DatabaseWorld S) :
  (ds_SeedURI spec <> EmptyString -> PrepareCloudCredentials spec (match di_secret input with inl keys => inl keys | inr (e, _) => inr e end) = None) ->
  exists w', createMissing input spec (databaseHostImageTag t) (targetIsStandalone t) w = (None, w')
  /\ undisturbed w w' /\ dw_log w' = createOf input spec t :: dw_log w.
Proof.
  intros Hc. unfold createMissing, createOf, createDatabase, runSeedCreateDatabase, runCreateDatabase. destruct (resolveDatabaseCreateInputs _ _ _) as [topology lang].
  destruct (buildCreateDatabaseQuery _) as [query params]. pose proof (ob_system Hneo4j query params (dw_neo4j w)) as Ho.
  destruct (String.eqb_spec (ds_SeedURI spec) EmptyString) as [Eu|Eu]; cbn [negb andb].
  - rewrite !bindD_eq. unfold sendD. destruct (runSystem query params (dw_neo4j w)) as [r n]. cbn in Ho. subst r. by eexists.
  - rewrite (Hc Eu). assert ((if match ds_SeedCredentials spec with Some _ => true | None => false end then None else None) = @None string) as -> by (by destruct (ds_SeedCredentials spec)).
    rewrite !bindD_eq. unfold sendD. destruct (runSystem query params (dw_neo4j w)) as [r n]. cbn in Ho. subst r. by eexists.
Qed.

(** Not listed: the CREATE DATABASE. *)
Definition createsMissing (input : DatabaseInput) (t : ResolvedTarget) (w : DatabaseWorld S) : list dbAction :=
  match (showDatabases (dw_neo4j w)).1 with
  | inl rows => match FindDatabase rows (ds_Name (nd_Spec (dw_copy w))) with Some _ => [] | None => [createOf input (nd_Spec (dw_copy w)) t] end
  | inr _ => []
  end.

(** A seed can be read with the credentials given for it. *)
Definition seedInOrder (input : DatabaseInput) (w : DatabaseWorld S) : Prop :=
  let spec := nd_Spec (dw_copy w) in
  ds_SeedURI spec <> EmptyString ->
  PrepareCloudCredentials spec (match di_secret input with inl keys => inl keys | inr (e, _) => inr e end) = None
  /\ forall secret, ds_SeedCredentials spec = Some secret -> hostHas (dw_hostCopy w) secret = true.

Lemma exists_ok name (w : DatabaseWorld S) : exists rows w', (showDatabases (dw_neo4j w)).1 = inl rows
  /\ DatabaseExists name w = (inl (match FindDatabase rows name with Some _ => true | None => false end), w') /\ undisturbed w w' /\ dw_log w' = dw_log w.
Proof.
  destruct (show_ok w) as (rows & w' & Hr & Ha & Hu & Hl). exists rows, w'. unfold DatabaseExists. rewrite bindD_eq, Ha. done.
Qed.

Lemma undisturbed_trans (w1 w2 w3 : DatabaseWorld S) : undisturbed w1 w2 -> undisturbed w2 w3 -> undisturbed w1 w3.
Proof. unfold undisturbed. intros (?&?&?) (?&?&?). split_and!; congruence. Qed.

Lemma ensure_ok input t (w : DatabaseWorld S) : seedInOrder input w ->
  exists observed w', ensureDatabase input (nd_Spec (dw_copy w)) (databaseHostImageTag t) (targetIsStandalone t) w = (inl observed, w')
  /\ undisturbed w w' /\ dw_log w' = rev (createsMissing input t w) ++ dw_log w.
Proof.
  intros Hseed. unfold ensureDatabase, createsMissing. destruct (exists_ok (ds_Name (nd_Spec (dw_copy w))) w) as (rows & w1 & Hr & He & Hu & Hl).
  rewrite bindD_eq, He, Hr. cbn [fst snd]. destruct (FindDatabase rows _).
  - rewrite bindD_eq. cbn [mret DW_ret fst snd]. rewrite bindD_eq. destruct (show_ok w1) as (rows2 & w2 & _ & Ha & Hu2 & Hl2). rewrite Ha. eexists _, w2. split; [done|].
    split; [exact (undisturbed_trans _ _ _ Hu Hu2)|]. cbn. congruence.
  - rewrite bindD_eq. destruct (create_ok input (nd_Spec (dw_copy w)) t w1) as (w2 & Hc & Hu2 & Hl2); [intros Hs; by apply Hseed|]. rewrite Hc. cbn [mret DW_ret fst snd].
    rewrite bindD_eq. destruct (show_ok w2) as (rows2 & w3 & _ & Ha & Hu3 & Hl3). rewrite Ha. eexists _, w3. split; [done|].
    split; [exact (undisturbed_trans _ _ _ (undisturbed_trans _ _ _ Hu Hu2) Hu3)|]. cbn [rev app]. congruence.
Qed.

(** The write of the pass's own copy, while that is current. *)
Lemma own_ok st (w : DatabaseWorld S) : dw_attempts w = [] -> dw_stored w = dw_copy w ->
  exists w', updateOwnStatus st w = (None, w') /\ dw_attempts w' = [] /\ dw_log w' = dw_log w
  /\ nd_Spec (dw_stored w') = nd_Spec (dw_copy w) /\ nd_Status (dw_stored w') = st.
Proof.
  intros Ha Hs. unfold updateOwnStatus, nextDbAttempt. cbn. rewrite Ha, <- Hs. cbn. rewrite Z.eqb_refl. by eexists.
Qed.

Lemma import_ok observed requeue (w : DatabaseWorld S) : dw_attempts w = [] -> dw_stored w = dw_copy w ->
  exists w', importData (nd_Spec (dw_copy w)) observed requeue w = (None, w') /\ dw_attempts w' = [] /\ toImport (dw_stored w') = []
  /\ dw_log w' = rev (SentImport (ds_Name (nd_Spec (dw_copy w))) <$> toImport (dw_copy w)) ++ dw_log w.
Proof.
  intros Ha Hs. unfold importData. rewrite bindD_eq. cbn [getsD fst snd].
  destruct (own_ok (set_dbs_DataImported (Some true) (nd_Status (dw_copy w))) w Ha Hs) as (w1 & Ho1 & Ha1 & Hl1 & Hsp1 & Hst1).
  unfold toImport. destruct (dbs_DataImported (nd_Status (dw_copy w))) eqn:Ed; cbn [andb].
  { exists w. rewrite Hs, Ed, !andb_false_r. done. }
  destruct (String.eqb_spec (ds_SeedURI (nd_Spec (dw_copy w))) EmptyString) as [Eu|Eu]; cbn [negb andb].
  - destruct (ds_InitialData (nd_Spec (dw_copy w))) as [statements|] eqn:Ei; cycle 1.
    { exists w. rewrite Hs, Ei. by destruct (_ && _). }
    destruct (statements_ok (ds_Name (nd_Spec (dw_copy w))) statements w) as (w2 & Hi & (Hu1 & Hu2 & Hu3) & Hl). rewrite bindD_eq, Hi. cbn [fst snd].
    destruct (own_ok (set_dbs_DataImported (Some true) (nd_Status (dw_copy w))) w2) as (w3 & Ho & Ha3 & Hl3 & Hsp & Hst); [congruence..|].
    rewrite bindD_eq, Ho. cbn [fst snd]. rewrite bindD_eq. eexists. split; [reflexivity|]. cbn. rewrite Hst. cbn. rewrite andb_false_r. split_and!; [done..|]. by rewrite Hl3, Hl.
  - rewrite bindD_eq, Ho1. cbn [fst snd]. rewrite bindD_eq. eexists. split; [reflexivity|]. cbn. rewrite Hst1. cbn. by rewrite andb_false_r.
Qed.

(** A status write goes through at the first attempt. *)
Lemma retry_ok {A} (f : Neo4jDatabase -> option Neo4jDatabase * A) (w : DatabaseWorld S) : dw_attempts w = [] ->
  exists r w', retryDb dbBackoff f w = (inl r, w') /\ dw_attempts w' = []
  /\ nd_Spec (dw_stored w') = nd_Spec (default (dw_stored w) (f (dw_stored w)).1) /\ nd_Status (dw_stored w') = nd_Status (default (dw_stored w) (f (dw_stored w)).1).
Proof.
  intros Ha. unfold dbBackoff. cbn [retryDb]. unfold nextDbAttempt. rewrite Ha. destruct (f (dw_stored w)) as [[latest|] v]; by eexists _, _.
Qed.

Lemma answered_ok (w : DatabaseWorld S) : dw_attempts w = [] ->
  exists w', hostAnswered w = (tt, w') /\ dw_attempts w' = [] /\ toImport (dw_stored w') = toImport (dw_stored w) /\ dw_log w' = dw_log w.
Proof.
  intros Ha. destruct (stillD_hostAnswered w) as [Hl _]. revert Hl. unfold hostAnswered. rewrite !bindD_eq. cbn [getsD fst snd].
  destruct (retry_ok (hostAnsweredBody (dw_now w)) w Ha) as (r & w1 & Hr & Ha1 & Hsp & Hst). rewrite Hr. cbn [fst snd].
  assert (Ht : toImport (dw_stored w1) = toImport (dw_stored w)).
  { unfold toImport. rewrite Hsp, Hst. unfold hostAnsweredBody. by destruct (targetAnswered _ _ _) as [conditions []]. }
  destruct r as [[] [written|]]; intros Hl; by eexists.
Qed.

(** The Ready condition is True. *)
Definition reportsReady (d : Neo4jDatabase) : Prop :=
  dbs_Phase (nd_Status d) = "Ready" /\ exists c, findCondition (dbs_Conditions (nd_Status d)) ConditionTypeReady = Some c /\ c_Status c = ConditionTrue /\ c_Reason c = EventReasonDatabaseReady.

Lemma status_body_ready now message observed d :
  let d' := default d (dbStatusBody now ConditionTrue EventReasonDatabaseReady message observed d).1 in
  reportsReady d' /\ toImport d' = toImport d.
Proof.
  unfold dbStatusBody, reportsReady, toImport. cbv zeta. rewrite SetReadyCondition_named.
  pose proof (find_SetNamedCondition now (dbs_Conditions (nd_Status d)) ConditionTypeReady (nd_Generation d) ConditionTrue EventReasonDatabaseReady message ConditionTypeReady) as Hf.
  destruct (SetNamedCondition _ _ _ _ _ _ _) as [conditions changed]. cbn [fst] in Hf. rewrite String.eqb_refl in Hf.
  destruct (decide _) as [E|_]; cbn [fst default].
  - rewrite <- E. unfold applyObservation. destruct (negb _); cbn; (split; [split; [done|by eexists]|]); rewrite <- E at 2; unfold applyObservation; by destruct (negb _).
  - unfold applyObservation. destruct (negb _); cbn; (split; [split; [done|by eexists]|done]).
Qed.

Lemma ready_ok observed (w : DatabaseWorld S) : dw_attempts w = [] ->
  let w' := (reportDatabaseReady observed w).2 in reportsReady (dw_stored w') /\ toImport (dw_stored w') = toImport (dw_stored w) /\ dw_log w' = dw_log w.
Proof.
  intros Ha. cbv zeta. assert (Hl : dw_log (reportDatabaseReady observed w).2 = dw_log w) by apply (calmD_ready observed w).
  revert Hl. unfold reportDatabaseReady, updateDatabaseStatusObserved. rewrite !bindD_eq. cbn [getsD fst snd].
  match goal with |- context [retryDb dbBackoff ?f w] => destruct (retry_ok f w Ha) as (r & w1 & Hr & _ & Hsp & Hst); rewrite Hr end. cbn [fst snd].
  destruct (status_body_ready (dw_now w) "Database is ready and available" observed (dw_stored w)) as [H1 H2].
  assert (Hboth : reportsReady (dw_stored w1) /\ toImport (dw_stored w1) = toImport (dw_stored w)) by (unfold reportsReady, toImport in *; by rewrite Hsp, Hst).
  destruct r as [changed written]. cbn [mret DW_ret fst snd]. destruct changed; intros Hl; (split; [apply Hboth|split; [apply Hboth|exact Hl]]).
Qed.

Lemma seed_ok input requeue (w : DatabaseWorld S) : seedInOrder input w -> seedCredentials (nd_Spec (dw_copy w)) requeue w = (None, w).
Proof.
  intros Hs. unfold seedCredentials. destruct (ds_SeedCredentials _) as [secret|] eqn:Ec; [|done].
  destruct (String.eqb_spec (ds_SeedURI (nd_Spec (dw_copy w))) EmptyString) as [|Eu]; [done|]. cbn [negb andb].
  destruct (String.eqb_spec secret EmptyString) as [|Es]; [done|]. cbn [negb]. rewrite bindD_eq. unfold EnsureSeedCredsProjected. rewrite bindD_eq. cbn [getsD fst snd].
  destruct (String.eqb_spec secret EmptyString) as [|_]; [done|]. by rewrite (proj2 (Hs Eu) secret Ec).
Qed.

Lemma serve_ok input t requeue (w : DatabaseWorld S) : seedInOrder input w -> dw_attempts w = [] -> dw_stored w = dw_copy w ->
  exists w', serve input t requeue w = (DbAgain requeue, w') /\ reportsReady (dw_stored w') /\ toImport (dw_stored w') = []
  /\ dw_log w' = rev (createsMissing input t w ++ (SentImport (ds_Name (nd_Spec (dw_copy w))) <$> toImport (dw_copy w))) ++ dw_log w.
Proof.
  intros Hseed Ha Hs. unfold serve. rewrite bindD_eq. cbn [getsD fst snd]. rewrite bindD_eq, (seed_ok input requeue w Hseed). cbn [fst snd].
  destruct (ensure_ok input t w Hseed) as (observed & w1 & He & (Hu1 & Hu2 & Hu3) & Hl1). rewrite bindD_eq, He. cbn [fst snd served]. rewrite <- Hu2.
  destruct (import_ok observed requeue w1) as (w2 & Hi & Ha2 & Ht2 & Hl2); [congruence..|]. rewrite bindD_eq, Hi. cbn [fst snd].
  destruct (answered_ok w2 Ha2) as (w3 & Han & Ha3 & Ht3 & Hl3). rewrite bindD_eq, Han. cbn [fst snd].
  destruct (ready_ok observed w3 Ha3) as (Hr & Ht4 & Hl4). rewrite bindD_eq. eexists. split; [reflexivity|]. split_and!; [done|congruence|].
  by rewrite Hl4, Hl3, Hl2, Hl1, rev_app_distr, (assoc_L (++)).
Qed.
End Served.

Section Settled.
Context {S : Type} `{!BoltSession S} (urlParse : string -> result parsedURI).

(** C30: On a host that accepts work, with nothing against the resource, a seed (if any) that its credentials can read, every statement a success and no other writer, one pass does all there is to do: it sends the CREATE DATABASE if SHOW DATABASES did not list the database, and all the statements of the initial data that were not recorded as imported; it records a Ready condition that is True; and it leaves no statement to import to a later pass. *)
Theorem database_served (input : DatabaseInput) (t : ResolvedTarget) (requeue : Z) (w : DatabaseWorld S) :
  obliging (S := S) -> admitted urlParse input t w -> seedInOrder input w -> dw_connects w = [] -> dw_attempts w = [] -> dw_stored w = dw_copy w ->
  exists w', ReconcileDatabase urlParse input requeue w = (DbAgain requeue, w')
  /\ dw_log w' = rev (createsMissing input t w ++ (SentImport (ds_Name (nd_Spec (dw_copy w))) <$> toImport (dw_copy w))) ++ dw_log w
  /\ reportsReady (dw_stored w') /\ toImport (dw_stored w') = [].
Proof.
  intros Hn (Hd & Hf & Hr & (claims & Hc & Hdup) & Ht & Hfound & Hready) Hseed Hconn Ha Hs.
  unfold ReconcileDatabase. rewrite !bindD_eq. cbn [liftOD getCopy getsD fst snd]. replace (set_dw_obj (dw_obj w) w) with w by (by destruct w).
  rewrite Hd, bool_decide_eq_false_2 by (intros H; by apply H). rewrite bool_decide_eq_true_2 by done. cbn [negb]. rewrite bindD_eq, Hr, Hc, Hdup. cbn [String.eqb negb].
  assert (Hw : exists warned events, (recordWarningsD (di_warnings input) w).2 = set_dw_warned warned (set_dw_events events w)).
  { unfold recordWarningsD. rewrite !bindD_eq. cbn [getsD fst snd]. destruct (recordScoped _ _ _). by eexists _, _. }
  destruct Hw as (warned & events & Hw). rewrite Hw. set (w1 := set_dw_warned _ _).
  destruct (serve_ok Hn input t requeue w1) as (w' & Hserve & H1 & H2 & H3); [done..|].
  exists w'. split; [|done]. unfold reconcileOnTarget. rewrite bindD_eq. cbn [getsD fst snd]. rewrite Ht, Hfound, Hready. cbn [negb]. rewrite bindD_eq.
  assert (connectRetry 4 None w1 = (None, w1)) as ->; [|exact Hserve]. cbn [connectRetry]. rewrite bindD_eq. unfold connectOnce. change (dw_connects w1) with (dw_connects w). by rewrite Hconn.
Qed.
End Settled.

Module ServedSample.
Import DatabaseSample.

(** A server that takes everything. *)
Definition Willing : Type := list string.
#[global] Instance willingSession : BoltSession Willing := {
  runSystem query _ n := (None, "orders" :: n);
  runOn _ _ n := (None, n);
  showDatabases n := (inl (map (fun name => mkDatabaseRow name "online" "online" "server-0:7687") n), n)
}.

Definition start : DatabaseWorld Willing :=
  let d := resource (orders "orders" ["CREATE (:A)"; "CREATE (:B)"]) in
  mkDatabaseWorld 5 d d [] (mkObjWorld (Some [DatabaseFinalizer]) [DatabaseFinalizer] [] []) [] standaloneHost standaloneHost [] [] [] ∅ None [] [].

Lemma database_served_witness : let input := inputOf None (dw_copy start) in
  exists w', ReconcileDatabase DatabaseRulesSample.anyURI input 30 start = (DbAgain 30, w')
  /\ dw_log w' = [SentImport "orders" "CREATE (:B)"; SentImport "orders" "CREATE (:A)"; SentCreate "CREATE DATABASE `orders` NOWAIT" ∅]
  /\ reportsReady (dw_stored w') /\ toImport (dw_stored w') = [].
Proof.
  destruct (database_served DatabaseRulesSample.anyURI (inputOf None (dw_copy start)) target 30 start) as (w' & H1 & H2 & H3).
  - split; [done|done|]. intros n. by eexists.
  - split; [reflexivity|]. split; [left|]. split; [vm_compute; reflexivity|]. split; [|done]. eexists. split; [reflexivity|]. vm_compute. reflexivity.
  - intros H. by destruct H.
  - reflexivity.
  - reflexivity.
  - reflexivity.
  - exists w'. split; [exact H1|]. split; [|exact H3]. etransitivity; [exact H2|]. vm_compute. reflexivity.
Defined.
End ServedSample.
