(* ===== verification/UserAccount.v ===== *)
(** A user in Neo4j and what its resource asks for, without effects: the Neo4jUser
    (src/api/v1beta1/neo4juser_types.go), the statements that make and change a user
    (src/internal/neo4j/users.go), the difference between the two (computeAlter and
    diffRoles of src/internal/controller/neo4juser_controller.go), and the names of
    roles (role_resolution.go). In the end: what the ALTER USER asks for. *)
From S2P Require Import Prelude GoStrings ClusterTypes Conditions Privileges TargetWait DeletionWait Roles RoleLearn RoleProbe RoleReconcile.

Open Scope Z_scope.

(** * The resource *)

Record SecretKeyRef := mkSecretKeyRef { sk_Name : string; sk_Key : string }.

(** An external provider and the user's id there; also a row of SHOW USERS WITH
    AUTH. *)
Record AuthProviderInfo := mkAuth { ap_Provider : string; ap_ID : string }.

Record UserSpec := mkUserSpec {
  up_ClusterRef : string;
  up_Username : string;
  up_PasswordSecretRef : option SecretKeyRef;
  up_RequirePasswordChange : bool;
  up_AccountStatus : string;
  up_HomeDatabase : string;
  up_Roles : list string;
  up_ExternalAuth : list AuthProviderInfo;
  up_DeletionPolicy : string
}.

Record UserStatus := mkUserStatus {
  ut_Conditions : list Condition;
  ut_Phase : string;
  ut_Message : string;
  ut_ObservedGeneration : Z;
  ut_CurrentRoles : list string;
  ut_PasswordSecretHash : string;
  ut_PasswordLastRotated : option Z
}.

#[global] Instance UserStatus_eq_dec : EqDecision UserStatus.
Proof. solve_decision. Defined.

Record Neo4jUser := mkNeo4jUser { nu_Name : string; nu_Namespace : string; nu_Generation : Z; nu_Spec : UserSpec; nu_Status : UserStatus }.

Definition set_nu_Status (st : UserStatus) (u : Neo4jUser) : Neo4jUser := mkNeo4jUser (nu_Name u) (nu_Namespace u) (nu_Generation u) (nu_Spec u) st.

Definition effectiveUsername (user : Neo4jUser) : string :=
  let name := up_Username (nu_Spec user) in if String.eqb name EmptyString then nu_Name user else name.

Definition desiredSuspended (spec : UserSpec) : bool := String.eqb (up_AccountStatus spec) "suspended".

(** * The user in Neo4j *)

Record UserInfo := mkUserInfo {
  ui_Roles : list string;
  ui_Suspended : bool;
  ui_PasswordChangeRequired : bool;
  ui_HomeDatabase : string;
  ui_AuthProviders : list AuthProviderInfo
}.

(** hasHomeDatabase, homeDatabase and removeHomeDatabase of the options. *)
Inductive homeClause := HomeKept | HomeSet (name : string) | HomeRemoved.

(** A flag and the value it guards are one option. *)
Record AlterUserOptions := mkAlterOptions {
  ao_Password : option string;
  ao_PasswordChange : option bool;
  ao_Suspended : option bool;
  ao_Home : homeClause;
  ao_RemoveAuth : list string;
  ao_SetAuth : list AuthProviderInfo
}.

Definition noOptions : AlterUserOptions := mkAlterOptions None None None HomeKept [] [].

Definition WithPassword (pw : string) (o : AlterUserOptions) : AlterUserOptions :=
  mkAlterOptions (Some pw) (ao_PasswordChange o) (ao_Suspended o) (ao_Home o) (ao_RemoveAuth o) (ao_SetAuth o).
Definition WithPasswordChangeRequired (required : bool) (o : AlterUserOptions) : AlterUserOptions :=
  mkAlterOptions (ao_Password o) (Some required) (ao_Suspended o) (ao_Home o) (ao_RemoveAuth o) (ao_SetAuth o).
Definition WithSuspended (suspended : bool) (o : AlterUserOptions) : AlterUserOptions :=
  mkAlterOptions (ao_Password o) (ao_PasswordChange o) (Some suspended) (ao_Home o) (ao_RemoveAuth o) (ao_SetAuth o).
Definition WithHomeDatabase (name : string) (o : AlterUserOptions) : AlterUserOptions :=
  mkAlterOptions (ao_Password o) (ao_PasswordChange o) (ao_Suspended o) (HomeSet name) (ao_RemoveAuth o) (ao_SetAuth o).
Definition WithoutHomeDatabase (o : AlterUserOptions) : AlterUserOptions :=
  mkAlterOptions (ao_Password o) (ao_PasswordChange o) (ao_Suspended o) HomeRemoved (ao_RemoveAuth o) (ao_SetAuth o).
Definition WithRemovedAuthProviders (providers : list string) (o : AlterUserOptions) : AlterUserOptions :=
  mkAlterOptions (ao_Password o) (ao_PasswordChange o) (ao_Suspended o) (ao_Home o) (ao_RemoveAuth o ++ providers) (ao_SetAuth o).
Definition WithSetAuthProviders (providers : list AuthProviderInfo) (o : AlterUserOptions) : AlterUserOptions :=
  mkAlterOptions (ao_Password o) (ao_PasswordChange o) (ao_Suspended o) (ao_Home o) (ao_RemoveAuth o) (ao_SetAuth o ++ providers).

Definition IsEmpty (o : AlterUserOptions) : bool :=
  match ao_Password o, ao_PasswordChange o, ao_Suspended o, ao_Home o, ao_RemoveAuth o, ao_SetAuth o with
  | None, None, None, HomeKept, [], [] => true
  | _, _, _, _, _, _ => false
  end.

(** ** Its statements *)

(** The SET clauses, which ALTER USER and CREATE USER share. *)
Definition setClauses (o : AlterUserOptions) : list string :=
  match ao_Password o with Some _ => ["SET PASSWORD $password"] | None => [] end
  ++ match ao_PasswordChange o with
     | Some true => ["SET PASSWORD CHANGE REQUIRED"]
     | Some false => ["SET PASSWORD CHANGE NOT REQUIRED"]
     | None => []
     end
  ++ match ao_Suspended o with Some true => ["SET STATUS SUSPENDED"] | Some false => ["SET STATUS ACTIVE"] | None => [] end
  ++ match ao_Home o with HomeSet name => ["SET HOME DATABASE " +:+ Privileges.quoted name] | _ => [] end
  ++ imap (fun i (_ : AuthProviderInfo) => "SET AUTH $authProvider" +:+ strconv.Itoa (Z.of_nat i) +:+ " { SET ID $authID" +:+ strconv.Itoa (Z.of_nat i) +:+ " }") (ao_SetAuth o).

Definition setParams (o : AlterUserOptions) : list (string * string) :=
  match ao_Password o with Some pw => [("password", pw)] | None => [] end
  ++ concat (imap (fun i ap => [("authProvider" +:+ strconv.Itoa (Z.of_nat i), ap_Provider ap); ("authID" +:+ strconv.Itoa (Z.of_nat i), ap_ID ap)]) (ao_SetAuth o)).

Definition removeClauses (o : AlterUserOptions) : list string :=
  match ao_Home o with HomeRemoved => ["REMOVE HOME DATABASE"] | _ => [] end
  ++ imap (fun i (_ : string) => "REMOVE AUTH PROVIDER $removeAuth" +:+ strconv.Itoa (Z.of_nat i)) (ao_RemoveAuth o).

Definition removeParams (o : AlterUserOptions) : list (string * string) :=
  imap (fun i p => ("removeAuth" +:+ strconv.Itoa (Z.of_nat i), p)) (ao_RemoveAuth o).

(** The query and its parameters. *)
Definition alterUserStatement (username : string) (o : AlterUserOptions) : string * gmap string string :=
  ("ALTER USER " +:+ Privileges.quoted username +:+ " " +:+ strings.Join (removeClauses o ++ setClauses o) " ",
   list_to_map (removeParams o ++ setParams o)).

Definition createUserStatement (username : string) (o : AlterUserOptions) (ifNotExists : bool) : result (string * gmap string string) :=
  match ao_Password o, ao_SetAuth o with
  | None, [] => Err "CreateUserAdvanced: at least one auth provider (password or SET AUTH) is required"
  | _, _ =>
      Ok ("CREATE USER " +:+ Privileges.quoted username +:+ (if ifNotExists then " IF NOT EXISTS" else EmptyString) +:+ " " +:+ strings.Join (setClauses o) " ",
          list_to_map (setParams o))
  end.

Definition dropUserStatement (username : string) : string := "DROP USER " +:+ Privileges.quoted username +:+ " IF EXISTS".
Definition grantRoleStatement (role username : string) : string := "GRANT ROLE " +:+ Privileges.quoted role +:+ " TO " +:+ Privileges.quoted username.
Definition revokeRoleStatement (role username : string) : string := "REVOKE ROLE " +:+ Privileges.quoted role +:+ " FROM " +:+ Privileges.quoted username.

(** * What the resource asks for *)

(** The Secret, by its change token, is not the one recorded as applied. *)
Definition passwordRotationDue (user : Neo4jUser) (passwordHash : string) : bool :=
  match up_PasswordSecretRef (nu_Spec user) with
  | Some _ => negb (String.eqb passwordHash EmptyString) && negb (String.eqb passwordHash (ut_PasswordSecretHash (nu_Status user)))
  | None => false
  end.

Definition createOptions (spec : UserSpec) (passwordValue : string) : AlterUserOptions :=
  let o := if String.eqb passwordValue EmptyString then noOptions
           else WithPasswordChangeRequired (up_RequirePasswordChange spec) (WithPassword passwordValue noOptions) in
  let o := WithSuspended (desiredSuspended spec) o in
  let o := if String.eqb (up_HomeDatabase spec) EmptyString then o else WithHomeDatabase (up_HomeDatabase spec) o in
  fold_left (fun o ap => WithSetAuthProviders [ap] o) (up_ExternalAuth spec) o.

(** The providers by name, a later entry over an earlier one. *)
Definition authMap (providers : list AuthProviderInfo) : gmap string string :=
  fold_left (fun m ap => <[ap_Provider ap := ap_ID ap]> m) providers ∅.

Definition isNative (ap : AuthProviderInfo) : bool := strings.EqualFold (ap_Provider ap) "native".

Section Alter.
(** The order in which Go ranges over a map's keys. *)
Variable keysOf : gmap string string -> list string.

(** A provider the user has: kept, set anew or removed. *)
Definition alterProvider (desired current : gmap string string) (o : AlterUserOptions) (prov : string) : AlterUserOptions :=
  match desired !! prov with
  | None => WithRemovedAuthProviders [prov] o
  | Some id => if String.eqb id (default EmptyString (current !! prov)) then o else WithSetAuthProviders [mkAuth prov id] o
  end.

Definition addProvider (desired current : gmap string string) (o : AlterUserOptions) (prov : string) : AlterUserOptions :=
  match current !! prov with
  | Some _ => o
  | None => WithSetAuthProviders [mkAuth prov (default EmptyString (desired !! prov))] o
  end.

Definition alterAuth (spec : UserSpec) (info : UserInfo) (o : AlterUserOptions) : AlterUserOptions :=
  let desired := authMap (up_ExternalAuth spec) in
  let current := authMap (List.filter (fun ap => negb (isNative ap)) (ui_AuthProviders info)) in
  fold_left (addProvider desired current) (keysOf desired) (fold_left (alterProvider desired current) (keysOf current) o).

Definition computeAlter (user : Neo4jUser) (info : UserInfo) (passwordHash passwordValue : string) : AlterUserOptions :=
  let spec := nu_Spec user in
  let o := if passwordRotationDue user passwordHash then WithPassword passwordValue noOptions else noOptions in
  let o := if Bool.eqb (ui_PasswordChangeRequired info) (up_RequirePasswordChange spec) then o
           else WithPasswordChangeRequired (up_RequirePasswordChange spec) o in
  let o := if Bool.eqb (ui_Suspended info) (desiredSuspended spec) then o else WithSuspended (desiredSuspended spec) o in
  let home := up_HomeDatabase spec in
  let o := if String.eqb home EmptyString && negb (String.eqb (ui_HomeDatabase info) EmptyString) then WithoutHomeDatabase o
           else if negb (String.eqb home EmptyString) && negb (strings.EqualFold home (ui_HomeDatabase info)) then WithHomeDatabase home o
           else o in
  alterAuth spec info o.
End Alter.

(** ** Roles *)

Definition normaliseRoles (roles : list string) : list string :=
  let trimmed := List.filter (fun r => negb (String.eqb r EmptyString) && negb (strings.EqualFold r "PUBLIC")) (map strings.TrimSpace roles) in
  sort.Strings (elements (list_to_set trimmed : gset string)).

(** The effective names of the roles of the target, and the names of resources that
    differ from them. [roles]: the Neo4jRoles of the namespace, or a failed list. *)
Definition roleCRIndex (roles : option (list Neo4jRole)) (clusterRef : string) : gset string * gmap string string :=
  fold_left (fun acc role =>
    if negb (String.eqb (rp_ClusterRef (ro_Spec role)) clusterRef) then acc
    else
      let name := effectiveRoleName role in
      ({[name]} ∪ acc.1, if String.eqb name (ro_Name role) then acc.2 else <[ro_Name role := name]> acc.2)) (default [] roles) (∅, ∅).

Definition resolveRole (effective : gset string) (metaToEffective : gmap string string) (d : string) : string :=
  if IsBuiltInRole d then d
  else if bool_decide (d ∈ effective) then d
  else default d (metaToEffective !! d).

(** The names to grant, and those that were resolved. *)
Definition resolveRoleNames (roles : option (list Neo4jRole)) (clusterRef : string) (desired : list string) : list string * list (string * string) :=
  let '(effective, metaToEffective) := roleCRIndex roles clusterRef in
  (map (resolveRole effective metaToEffective) desired,
   flat_map (fun d => if IsBuiltInRole d || bool_decide (d ∈ effective) then []
                      else match metaToEffective !! d with Some eff => [(d, eff)] | None => [] end) desired).

(** Roles that neither the resources nor the user's own say exist. *)
Definition unknownRoles (roles : option (list Neo4jRole)) (clusterRef : string) (desired current : list string) : list string :=
  List.filter (fun role => negb (IsBuiltInRole role) && negb (existsb (String.eqb role) current)
                           && negb (bool_decide (role ∈ (roleCRIndex roles clusterRef).1))) desired.

Definition missingOf (unknown : list string) (live : list string) : list string :=
  sort.Strings (List.filter (fun role => negb (existsb (String.eqb role) live)) unknown).

(** The roles to grant and to revoke. *)
Definition diffRoles (desired current missing : list string) : list string * list string :=
  (sort.Strings (List.filter (fun d => negb (existsb (String.eqb d) current) && negb (existsb (String.eqb d) missing)) desired),
   sort.Strings (List.filter (fun c => negb (strings.EqualFold c "PUBLIC") && negb (existsb (String.eqb c) desired)) current)).

(** [%v] of a list and of a map. *)
Definition bracketed (l : list string) : string := "[" +:+ strings.Join l " " +:+ "]".
Definition mapText (entries : list (string * string)) : string := "map[" +:+ strings.Join (map (fun e => e.1 +:+ ":" +:+ e.2) entries) " " +:+ "]".

Definition resolvedRolesMessage (resolved : list (string * string)) : string :=
  "resolved Neo4jRole CR names to Neo4j role names: " +:+ mapText resolved.

Definition pendingRolesMessage (missing : list string) : string := "waiting for roles to exist: " +:+ bracketed (sort.Strings missing).

(** * What the ALTER USER asks for *)

(** The providers besides the native one. *)
Definition external (l : list AuthProviderInfo) : list AuthProviderInfo := List.filter (fun ap => negb (isNative ap)) l.

Lemma authMap_snoc l ap : authMap (l ++ [ap]) = <[ap_Provider ap := ap_ID ap]> (authMap l).
Proof. unfold authMap. by rewrite fold_left_app. Qed.

Section Settles.
Variable keysOf : gmap string string -> list string.
Hypothesis Hkeys : forall m k, k ∈ keysOf m <-> is_Some (m !! k).

Lemma alterProvider_fold desired current keys : forall o,
  let changed prov := match desired !! prov with
                      | Some id => if String.eqb id (default EmptyString (current !! prov)) then [] else [mkAuth prov id]
                      | None => []
                      end in
  fold_left (alterProvider desired current) keys o
  = mkAlterOptions (ao_Password o) (ao_PasswordChange o) (ao_Suspended o) (ao_Home o)
      (ao_RemoveAuth o ++ List.filter (fun prov => match desired !! prov with None => true | Some _ => false end) keys)
      (ao_SetAuth o ++ flat_map changed keys).
Proof.
  induction keys as [|k keys IH]; intros o; cbn [fold_left List.filter flat_map]; [rewrite !app_nil_r; by destruct o|].
  rewrite IH. unfold alterProvider. destruct (desired !! k) as [id|]; [destruct (String.eqb _ _)|]; cbn; by rewrite <- ?(assoc_L (++)).
Qed.

Lemma addProvider_fold desired current keys : forall o,
  let added prov := match current !! prov with Some _ => [] | None => [mkAuth prov (default EmptyString (desired !! prov))] end in
  fold_left (addProvider desired current) keys o
  = mkAlterOptions (ao_Password o) (ao_PasswordChange o) (ao_Suspended o) (ao_Home o) (ao_RemoveAuth o) (ao_SetAuth o ++ flat_map added keys).
Proof.
  induction keys as [|k keys IH]; intros o; cbn [fold_left flat_map]; [rewrite !app_nil_r; by destruct o|].
  rewrite IH. unfold addProvider. destruct (current !! k); cbn; by rewrite <- ?(assoc_L (++)).
Qed.

(** The providers to remove, and to set. *)
Definition removedProviders (desired current : gmap string string) : list string :=
  List.filter (fun prov => match desired !! prov with None => true | Some _ => false end) (keysOf current).
Definition setProviders (desired current : gmap string string) : list AuthProviderInfo :=
  flat_map (fun prov => match desired !! prov with
                        | Some id => if String.eqb id (default EmptyString (current !! prov)) then [] else [mkAuth prov id]
                        | None => []
                        end) (keysOf current)
  ++ flat_map (fun prov => match current !! prov with Some _ => [] | None => [mkAuth prov (default EmptyString (desired !! prov))] end) (keysOf desired).

Lemma alterAuth_eq spec info o : let desired := authMap (up_ExternalAuth spec) in let current := authMap (external (ui_AuthProviders info)) in
  alterAuth keysOf spec info o
  = mkAlterOptions (ao_Password o) (ao_PasswordChange o) (ao_Suspended o) (ao_Home o)
      (ao_RemoveAuth o ++ removedProviders desired current) (ao_SetAuth o ++ setProviders desired current).
Proof. cbv zeta. unfold alterAuth. rewrite alterProvider_fold, addProvider_fold. cbn. by rewrite <- (assoc_L (++)). Qed.

Lemma set_elem desired current ap :
  ap ∈ setProviders desired current <-> desired !! ap_Provider ap = Some (ap_ID ap) /\ current !! ap_Provider ap <> Some (ap_ID ap).
Proof.
  unfold setProviders. rewrite elem_of_app, !list_elem_of_In, !in_flat_map. destruct ap as [prov id]. cbn. split.
  - intros [(k & Hk & Hin)|(k & Hk & Hin)].
    + destruct (desired !! k) as [i|] eqn:Ed; [|done]. destruct (String.eqb_spec i (default EmptyString (current !! k))) as [|Hne]; [done|].
      destruct Hin as [[= -> ->]|[]]. split; [done|]. intros E. by rewrite E in Hne.
    + destruct (current !! k) as [i|] eqn:Ec; [done|]. destruct Hin as [[= <- <-]|[]]. apply list_elem_of_In, Hkeys in Hk as [i Hi]. by rewrite Hi, Ec.
  - intros [Hd Hc]. destruct (current !! prov) as [i|] eqn:Ec.
    + left. exists prov. split; [by apply list_elem_of_In, Hkeys; eauto|]. rewrite Hd, Ec. cbn. destruct (String.eqb_spec id i) as [->|]; [done|]. by left.
    + right. exists prov. split; [by apply list_elem_of_In, Hkeys; eauto|]. rewrite Hd, Ec. by left.
Qed.

Lemma removed_elem desired current prov : prov ∈ removedProviders desired current <-> desired !! prov = None /\ is_Some (current !! prov).
Proof.
  unfold removedProviders. rewrite list_elem_of_In, filter_In, <- list_elem_of_In, Hkeys. destruct (desired !! prov); naive_solver.
Qed.

Lemma authMap_elem l p id : authMap l !! p = Some id -> exists ap, ap ∈ l /\ ap_Provider ap = p /\ ap_ID ap = id.
Proof.
  induction l as [|ap l IH] using rev_ind; [done|]. rewrite authMap_snoc. destruct (decide (ap_Provider ap = p)) as [<-|Hn].
  - rewrite lookup_insert_eq. intros [= <-]. exists ap. split; [apply elem_of_app; right; left|done].
  - rewrite lookup_insert_ne by done. intros (ap' & ? & ?)%IH. exists ap'. split; [apply elem_of_app; by left|done].
Qed.

End Settles.

Lemma alter_parts keysOf user info hash pw : let spec := nu_Spec user in
  let desired := authMap (up_ExternalAuth spec) in let current := authMap (external (ui_AuthProviders info)) in
  computeAlter keysOf user info hash pw
  = mkAlterOptions (if passwordRotationDue user hash then Some pw else None)
      (if Bool.eqb (ui_PasswordChangeRequired info) (up_RequirePasswordChange spec) then None else Some (up_RequirePasswordChange spec))
      (if Bool.eqb (ui_Suspended info) (desiredSuspended spec) then None else Some (desiredSuspended spec))
      (if String.eqb (up_HomeDatabase spec) EmptyString && negb (String.eqb (ui_HomeDatabase info) EmptyString) then HomeRemoved
       else if negb (String.eqb (up_HomeDatabase spec) EmptyString) && negb (strings.EqualFold (up_HomeDatabase spec) (ui_HomeDatabase info)) then HomeSet (up_HomeDatabase spec)
       else HomeKept)
      (removedProviders keysOf desired current) (setProviders keysOf desired current).
Proof.
  cbv zeta. unfold computeAlter. cbv zeta. rewrite alterAuth_eq. by repeat match goal with |- context [if ?b then _ else _] => destruct b end.
Qed.

Lemma settled_empty keysOf (Hkeys : forall m k, k ∈ keysOf m <-> is_Some (m !! k)) m : removedProviders keysOf m m = [] /\ setProviders keysOf m m = [].
Proof.
  split.
  - destruct (removedProviders keysOf m m) as [|p l] eqn:E; [done|]. assert (p ∈ removedProviders keysOf m m) as [Hn [x Hx]]%(removed_elem keysOf Hkeys) by (rewrite E; left). congruence.
  - destruct (setProviders keysOf m m) as [|ap l] eqn:E; [done|]. assert (ap ∈ setProviders keysOf m m) as [H1 H2]%(set_elem keysOf Hkeys) by (rewrite E; left). done.
Qed.

Lemma none_elem {A} (l : list A) : l = [] <-> forall x, x ∉ l.
Proof. split; [intros ->; apply not_elem_of_nil|]. destruct l as [|a l]; [done|]. intros H. exfalso. apply (H a). left. Qed.

Lemma auth_settled keysOf (Hkeys : forall m k, k ∈ keysOf m <-> is_Some (m !! k)) desired current :
  removedProviders keysOf desired current = [] /\ setProviders keysOf desired current = [] <-> current = desired.
Proof.
  split; [|intros ->; by apply settled_empty]. intros [Hr Hs]. apply map_eq. intros p. destruct (desired !! p) as [id|] eqn:Ed.
  - destruct (decide (current !! p = Some id)) as [|Hn]; [done|]. exfalso. apply (proj1 (none_elem _) Hs (mkAuth p id)), (set_elem keysOf Hkeys). done.
  - destruct (current !! p) as [c|] eqn:Ec; [|done]. exfalso. apply (proj1 (none_elem _) Hr p), (removed_elem keysOf Hkeys). split; [done|by eexists].
Qed.

(** C36: The ALTER USER that is computed asks for the difference between the user Neo4j showed and its resource, clause by clause, whatever order Go gives a map's keys. Each of status, need of a password change and home database is set exactly when it differs (the name of the database without regard to case), to what the spec says, and the home database is removed exactly when the spec has none and the user has one; a provider other than the native one is removed exactly when the user has it and the spec does not, and set exactly when the spec has it and the user has it not, or with another id; the password is set exactly when the Secret is not the one recorded as applied. The statement has no clause exactly when nothing differs and no password is due. What Neo4j makes of the statement, a refusal included, is not part of this. *)
Theorem alter_exact (keysOf : gmap string string -> list string) (user : Neo4jUser) (info : UserInfo) (hash pw : string) :
  (forall m k, k ∈ keysOf m <-> is_Some (m !! k)) ->
  let spec := nu_Spec user in let o := computeAlter keysOf user info hash pw in
  let desired := authMap (up_ExternalAuth spec) in let current := authMap (external (ui_AuthProviders info)) in
  (ao_Password o = if passwordRotationDue user hash then Some pw else None)
  /\ (forall b, ao_PasswordChange o = Some b <-> b = up_RequirePasswordChange spec /\ ui_PasswordChangeRequired info <> b)
  /\ (forall b, ao_Suspended o = Some b <-> b = desiredSuspended spec /\ ui_Suspended info <> b)
  /\ (forall name, ao_Home o = HomeSet name <-> name = up_HomeDatabase spec /\ name <> EmptyString /\ strings.EqualFold name (ui_HomeDatabase info) = false)
  /\ (ao_Home o = HomeRemoved <-> up_HomeDatabase spec = EmptyString /\ ui_HomeDatabase info <> EmptyString)
  /\ (forall p, p ∈ ao_RemoveAuth o <-> is_Some (current !! p) /\ desired !! p = None)
  /\ (forall ap, ap ∈ ao_SetAuth o <-> desired !! ap_Provider ap = Some (ap_ID ap) /\ current !! ap_Provider ap <> Some (ap_ID ap))
  /\ (forall p, p ∈ ao_RemoveAuth o -> strings.EqualFold p "native" = false)
  /\ (IsEmpty o = true <->
        passwordRotationDue user hash = false /\ ui_PasswordChangeRequired info = up_RequirePasswordChange spec /\ ui_Suspended info = desiredSuspended spec
        /\ strings.EqualFold (up_HomeDatabase spec) (ui_HomeDatabase info) = true /\ current = desired).
Proof.
  intros Hkeys. cbv zeta. rewrite alter_parts. cbn [ao_Password ao_PasswordChange ao_Suspended ao_Home ao_RemoveAuth ao_SetAuth].
  set (spec := nu_Spec user). set (desired := authMap (up_ExternalAuth spec)). set (current := authMap (external (ui_AuthProviders info))).
  assert (Hflag : forall x y b : bool, (if Bool.eqb x y then None else Some y) = Some b <-> b = y /\ x <> b) by (intros [] [] []; naive_solver).
  assert (Hfold : strings.EqualFold EmptyString (ui_HomeDatabase info) = String.eqb (ui_HomeDatabase info) EmptyString).
  { unfold strings.EqualFold. by destruct (ui_HomeDatabase info). }
  split_and!; [done|intros; apply Hflag|intros; apply Hflag|..].
  - intros name. destruct (String.eqb_spec (up_HomeDatabase spec) EmptyString) as [->|Hn]; cbn [negb andb].
    + destruct (String.eqb (ui_HomeDatabase info) EmptyString); cbn; split; try done; by intros [-> [? _]].
    + destruct (strings.EqualFold (up_HomeDatabase spec) _) eqn:E; cbn; split; try done; [intros (-> & _ & H); congruence|by intros [= <-]|by intros [-> _]].
  - destruct (String.eqb_spec (up_HomeDatabase spec) EmptyString) as [->|Hn]; cbn [negb andb].
    + destruct (String.eqb_spec (ui_HomeDatabase info) EmptyString) as [E|E]; cbn; split; first [done|by intros [=]|by intros [_ ?]].
    + destruct (strings.EqualFold (up_HomeDatabase spec) _); cbn; split; first [by intros [=]|by intros [? _]].
  - intros p. rewrite (removed_elem keysOf Hkeys). by split; intros [? ?].
  - intros ap. apply (set_elem keysOf Hkeys).
  - intros p [_ [c Hc]]%(removed_elem keysOf Hkeys). apply authMap_elem in Hc as (ap & Hin & <- & _). apply list_elem_of_In, filter_In in Hin as [_ Hin]. by apply negb_true_iff in Hin.
  - unfold IsEmpty. cbn [ao_Password ao_PasswordChange ao_Suspended ao_Home ao_RemoveAuth ao_SetAuth]. rewrite <- (auth_settled keysOf Hkeys desired current).
    destruct (passwordRotationDue user hash); [by split; [|intros [? _]]|].
    destruct (Bool.eqb_spec (ui_PasswordChangeRequired info) (up_RequirePasswordChange spec)) as [E1|E1]; [|by split; [|intros (_ & ? & _)]].
    destruct (Bool.eqb_spec (ui_Suspended info) (desiredSuspended spec)) as [E2|E2]; [|by split; [|intros (_ & _ & ? & _)]].
    assert (Hlists : match removedProviders keysOf desired current, setProviders keysOf desired current with [], [] => true | _, _ => false end = true
                     <-> removedProviders keysOf desired current = [] /\ setProviders keysOf desired current = []).
    { destruct (removedProviders keysOf desired current), (setProviders keysOf desired current); split; try done; by intros [? ?]. }
    destruct (String.eqb_spec (up_HomeDatabase spec) EmptyString) as [->|Hn]; cbn [negb andb].
    + rewrite Hfold. destruct (String.eqb (ui_HomeDatabase info) EmptyString); cbn [negb]; [|by split; [|intros (_ & _ & _ & ? & _)]].
      rewrite Hlists. split; [done|]. by intros (_ & _ & _ & _ & H).
    + destruct (strings.EqualFold (up_HomeDatabase spec) (ui_HomeDatabase info)); cbn [negb]; [|by split; [|intros (_ & _ & _ & ? & _)]].
      rewrite Hlists. split; [done|]. by intros (_ & _ & _ & _ & H).
Qed.

Module AccountSample.
Definition sortedOf (m : gmap string string) : list string := sort.Strings (elements (dom m)).

Definition ann (change : bool) (hash : string) : Neo4jUser :=
  mkNeo4jUser "ann" "n" 1 (mkUserSpec "c" EmptyString (Some (mkSecretKeyRef "s" EmptyString)) change "suspended" "Sales" ["reader"] [mkAuth "okta" "1"; mkAuth "ldap" "2"] "Delete")
    (mkUserStatus [] EmptyString EmptyString 0 [] hash None).
Definition found : UserInfo := mkUserInfo ["reader"] false false EmptyString [mkAuth "native" EmptyString; mkAuth "okta" "7"; mkAuth "saml" "3"].

Lemma sortedOf_keys m k : k ∈ sortedOf m <-> is_Some (m !! k).
Proof. unfold sortedOf. by rewrite Strings_elem, elem_of_elements, elem_of_dom. Qed.

Lemma alter_exact_witness :
  let o := computeAlter sortedOf (ann false "old") found "new" "secret" in
  ao_Suspended o = Some true /\ "saml" ∈ ao_RemoveAuth o /\ mkAuth "okta" "1" ∈ ao_SetAuth o /\ IsEmpty o <> true.
Proof.
  destruct (alter_exact sortedOf (ann false "old") found "new" "secret" sortedOf_keys) as (_ & _ & H1 & _ & _ & H2 & H3 & _ & H4).
  split; [apply H1; vm_compute; split; [reflexivity|discriminate]|]. split; [apply H2; vm_compute; split; [by eexists|reflexivity]|].
  split; [apply H3; vm_compute; split; [reflexivity|discriminate]|]. intros H. apply H4 in H as [H _]. vm_compute in H. discriminate.
Defined.

(** Of a user who did change the password, as requirePasswordChange asked, Neo4j
    shows no more need for it: the next ALTER USER asks for a change again. *)
Theorem password_change_asked_again :
  ui_PasswordChangeRequired found = false /\ ao_PasswordChange (computeAlter sortedOf (ann true "new") found "new" "secret") = Some true.
Proof. vm_compute. split; reflexivity. Qed.
End AccountSample.
