(* ===== verification/UserPass.v ===== *)
(** A pass of the user controller: Reconcile, handleDeletion and what they call
    (src/internal/controller/neo4juser_controller.go), over the statements and
    differences of UserAccount.v. What a pass reads of Kubernetes besides the user is
    [UserInput]; Neo4j is the interface [UserClient]; the digest of a Secret's token
    and the order of a map's keys are parameters, and the validator's result is an
    input. *)
From S2P Require Import Prelude GoStrings GoTime GoRFC3339 ClusterTypes Conditions Availability Privileges TargetWait ObjectPatch DeletionWait Roles RoleLearn RoleProbe RoleReconcile UserAccount.

Open Scope Z_scope.

(** * Neo4j *)

(** SHOW USERS for one user, a statement on the system database, SHOW ROLES. *)
Class UserClient (S : Type) := {
  ShowUser : string -> S -> (option UserInfo + clientError) * S;
  runUser : string -> gmap string string -> S -> option clientError * S;
  ListRoles : S -> (list string + clientError) * S
}.

(** * The world *)

(** The outcome of one read-modify-write of the user's status. *)
Inductive userAttempt :=
| UserSucceeds
| UserGetFails (e : clientError)
| UserUpdateFails (e : clientError)
| UserConflicts (seen : Neo4jUser).

(** What a pass sent to Neo4j. *)
Inductive userAction :=
| SentCreateUser (query : string) (params : gmap string string)
| SentAlterUser (query : string) (params : gmap string string)
| SentGrant (role : string)
| SentRevoke (role : string)
| SentDropUser (query : string).

Record UserWorld (S : Type) := mkUserWorld {
  uw_now : Z;
  uw_copy : Neo4jUser;
  uw_stored : Neo4jUser;
  uw_attempts : list userAttempt;
  uw_obj : ObjWorld;
  uw_events : list (string * string);
  uw_warned : gmap string (gmap string Z);
  uw_gone : option Z;
  uw_streak : option transientStreak;
  uw_neo4j : S;
  uw_log : list userAction
}.
Arguments mkUserWorld {S}.
Arguments uw_now {S} _.
Arguments uw_copy {S} _.
Arguments uw_stored {S} _.
Arguments uw_attempts {S} _.
Arguments uw_obj {S} _.
Arguments uw_events {S} _.
Arguments uw_warned {S} _.
Arguments uw_gone {S} _.
Arguments uw_streak {S} _.
Arguments uw_neo4j {S} _.
Arguments uw_log {S} _.

Definition set_uw_stored {S} (v : Neo4jUser) (w : UserWorld S) : UserWorld S :=
  mkUserWorld (uw_now w) (uw_copy w) v (uw_attempts w) (uw_obj w) (uw_events w) (uw_warned w) (uw_gone w) (uw_streak w) (uw_neo4j w) (uw_log w).
Definition set_uw_attempts {S} (v : list userAttempt) (w : UserWorld S) : UserWorld S :=
  mkUserWorld (uw_now w) (uw_copy w) (uw_stored w) v (uw_obj w) (uw_events w) (uw_warned w) (uw_gone w) (uw_streak w) (uw_neo4j w) (uw_log w).
Definition set_uw_obj {S} (v : ObjWorld) (w : UserWorld S) : UserWorld S :=
  mkUserWorld (uw_now w) (uw_copy w) (uw_stored w) (uw_attempts w) v (uw_events w) (uw_warned w) (uw_gone w) (uw_streak w) (uw_neo4j w) (uw_log w).
Definition set_uw_events {S} (v : list (string * string)) (w : UserWorld S) : UserWorld S :=
  mkUserWorld (uw_now w) (uw_copy w) (uw_stored w) (uw_attempts w) (uw_obj w) v (uw_warned w) (uw_gone w) (uw_streak w) (uw_neo4j w) (uw_log w).
Definition set_uw_warned {S} (v : gmap string (gmap string Z)) (w : UserWorld S) : UserWorld S :=
  mkUserWorld (uw_now w) (uw_copy w) (uw_stored w) (uw_attempts w) (uw_obj w) (uw_events w) v (uw_gone w) (uw_streak w) (uw_neo4j w) (uw_log w).
Definition set_uw_gone {S} (v : option Z) (w : UserWorld S) : UserWorld S :=
  mkUserWorld (uw_now w) (uw_copy w) (uw_stored w) (uw_attempts w) (uw_obj w) (uw_events w) (uw_warned w) v (uw_streak w) (uw_neo4j w) (uw_log w).
Definition set_uw_streak {S} (v : option transientStreak) (w : UserWorld S) : UserWorld S :=
  mkUserWorld (uw_now w) (uw_copy w) (uw_stored w) (uw_attempts w) (uw_obj w) (uw_events w) (uw_warned w) (uw_gone w) v (uw_neo4j w) (uw_log w).
Definition set_uw_neo4j {S} (v : S) (w : UserWorld S) : UserWorld S :=
  mkUserWorld (uw_now w) (uw_copy w) (uw_stored w) (uw_attempts w) (uw_obj w) (uw_events w) (uw_warned w) (uw_gone w) (uw_streak w) v (uw_log w).
Definition set_uw_log {S} (v : list userAction) (w : UserWorld S) : UserWorld S :=
  mkUserWorld (uw_now w) (uw_copy w) (uw_stored w) (uw_attempts w) (uw_obj w) (uw_events w) (uw_warned w) (uw_gone w) (uw_streak w) (uw_neo4j w) v.

Definition UW (S : Type) (A : Type) : Type := UserWorld S -> A * UserWorld S.

#[global] Instance UW_ret S : MRet (UW S) := fun A (a : A) w => (a, w).
#[global] Instance UW_bind S : MBind (UW S) := fun A B (f : A -> UW S B) (m : UW S A) w =>
  let '(a, w') := m w in f a w'.

(** What a pass returns. *)
Inductive userResult :=
| UserDone
| UserAgain (after : Z)
| UserErrored (e : clientError).

(** [uin_validation]: the validator's warnings, the text of its errors, if any, and
    what it waits for; [uin_secret]: the Secret's data and resourceVersion;
    [uin_roles]: the Neo4jRoles of the namespace, or a failed list. *)
Record UserInput := mkUserInput {
  uin_deletionTimestamp : option Z;
  uin_warnings : list string;
  uin_errors : option string;
  uin_pending : list string;
  uin_target : ResolvedTarget + clientError;
  uin_volumes : list bool + clientError;
  uin_connect : option clientError;
  uin_secret : (gmap string string * string) + clientError;
  uin_roles : option (list Neo4jRole)
}.

Definition Neo4jUserFinalizer : string := "neo4j.com/user-finalizer".

Definition EventReasonUserCreated : string := "UserCreated".
Definition EventReasonUserUpdated : string := "UserUpdated".
Definition EventReasonUserDeleted : string := "UserDeleted".
Definition EventReasonUserReady : string := "UserReady".
Definition EventReasonUserDeletionFailed : string := "UserDeletionFailed".
Definition EventReasonUserSyncFailed : string := "UserSyncFailed".
Definition EventReasonPasswordRotated : string := "PasswordRotated".
Definition EventReasonRolesGranted : string := "RolesGranted".
Definition EventReasonRolesRevoked : string := "RolesRevoked".
Definition EventReasonRolesResolved : string := "RolesResolved".
Definition EventReasonRolePending : string := "RolePending".
Definition ConditionTypeRolesSynced : string := "RolesSynced".
Definition ConditionTypePasswordSynced : string := "PasswordSynced".
Definition ConditionTypePendingDependencies : string := "PendingDependencies".
Definition ConditionTypeRoleNamesResolved : string := "RoleNamesResolved".
Definition ConditionReasonRolesSynced : string := "RolesMatch".
Definition ConditionReasonRolesPending : string := "RolesPending".
Definition ConditionReasonPasswordSynced : string := "PasswordMatchesSecret".
Definition ConditionReasonUserReady : string := "UserReady".
Definition ConditionReasonRoleCRNamesResolved : string := "RoleCRNamesResolved".

(** * Conditions *)

Definition setNamedConditionChanged (now : Z) (conditions : list Condition) (condType : string) (generation : Z) (status reason message : string)
  : list Condition * bool :=
  let unsaid := match findCondition conditions condType with Some existing => negb (String.eqb (c_Message existing) message) | None => true end in
  let '(conditions, changed) := SetNamedCondition now conditions condType generation status reason message in
  (conditions, changed || unsaid).

(** The conditions to write, if any, and whether the mapping is announced. *)
Definition setResolvedRolesCondition (now : Z) (conditions : list Condition) (generation : Z) (resolved : list (string * string))
  : option (list Condition) * bool :=
  match resolved with
  | [] => (match findCondition conditions ConditionTypeRoleNamesResolved with
           | Some _ => Some (List.filter (fun c => negb (String.eqb (c_Type c) ConditionTypeRoleNamesResolved)) conditions)
           | None => None
           end, false)
  | _ =>
      let msg := resolvedRolesMessage resolved in
      let set := Some (SetNamedCondition now conditions ConditionTypeRoleNamesResolved generation ConditionTrue ConditionReasonRoleCRNamesResolved msg).1 in
      match findCondition conditions ConditionTypeRoleNamesResolved with
      | None => (set, true)
      | Some existing =>
          let announce := negb (String.eqb (c_Message existing) msg) in
          if negb announce && String.eqb (c_Status existing) ConditionTrue && String.eqb (c_Reason existing) ConditionReasonRoleCRNamesResolved
             && (c_ObservedGeneration existing =? generation)
          then (None, false) else (set, announce)
      end
  end.

(** The fields the phase writers assign. *)
Definition setUserPhase (conditions : list Condition) (phase message : string) (generation : Z) (st : UserStatus) : UserStatus :=
  mkUserStatus conditions phase message generation (ut_CurrentRoles st) (ut_PasswordSecretHash st) (ut_PasswordLastRotated st).

Section Steps.
Context {S : Type} `{!UserClient S}.

Definition getsU {A} (f : UserWorld S -> A) : UW S A := fun w => (f w, w).
Definition modifyU (f : UserWorld S -> UserWorld S) : UW S unit := fun w => (tt, f w).
Definition askU {A} (call : S -> A * S) : UW S A := fun w => let '(a, n) := call (uw_neo4j w) in (a, set_uw_neo4j n w).
Definition sendU {A} (action : userAction) (call : S -> A * S) : UW S A := fun w =>
  let '(a, n) := call (uw_neo4j w) in (a, set_uw_neo4j n (set_uw_log (action :: uw_log w) w)).
Definition eventU (reason message : string) : UW S unit := modifyU (fun w => set_uw_events ((reason, message) :: uw_events w) w).
Definition liftOU {A} (m : OW A) : UW S A := fun w => let '(a, o) := m (uw_obj w) in (a, set_uw_obj o w).

(** ** Status writes *)

Definition nextUserAttempt : UW S userAttempt := fun w =>
  match uw_attempts w with
  | [] => (UserSucceeds, w)
  | a :: rest => (a, set_uw_attempts rest w)
  end.

(** [retry.RetryOnConflict] with DefaultBackoff's four steps around a
    read-modify-write; the body returns what it writes ([None]: nothing) and a
    value. *)
Fixpoint retryUser {A} (steps : nat) (f : Neo4jUser -> option Neo4jUser * A) : UW S (A + clientError) := fun w =>
  match steps with
  | O => (inr (plainError "conflict"), w)
  | Datatypes.S steps' =>
      let '(a, w) := nextUserAttempt w in
      match a with
      | UserGetFails e => (inr e, w)
      | UserSucceeds =>
          match f (uw_stored w) with
          | (None, v) => (inl v, w)
          | (Some latest, v) => (inl v, set_uw_stored latest w)
          end
      | UserUpdateFails e =>
          match f (uw_stored w) with
          | (None, v) => (inl v, w)
          | (Some _, _) => (inr e, w)
          end
      | UserConflicts seen =>
          match f seen with
          | (None, v) => (inl v, w)
          | (Some _, _) => retryUser steps' f w
          end
      end
  end.

Definition userBackoff : nat := 4.

(** A flag the write reports; [false] when it failed. *)
Definition writeUser (body : Z -> Neo4jUser -> option Neo4jUser * bool) : UW S bool :=
  now ← getsU uw_now;
  r ← retryUser userBackoff (body now);
  mret (match r with inl v => v | inr _ => false end).

(** [currentRoles] nil and an empty token leave their fields. *)
Definition userStatusBody (now : Z) (phase readyStatus readyReason message : string) (currentRoles : option (list string)) (passwordHash : string)
    (latest : Neo4jUser) : option Neo4jUser * (bool * bool) :=
  let st := nu_Status latest in
  let phaseMoved := negb (String.eqb (ut_Phase st) phase) in
  let '(conditions, ready) := SetReadyCondition now (ut_Conditions st) (nu_Generation latest) readyStatus readyReason message in
  let rotated := negb (String.eqb passwordHash EmptyString) && negb (String.eqb (ut_PasswordSecretHash st) passwordHash) in
  (Some (set_nu_Status (mkUserStatus conditions phase message (nu_Generation latest) (default (ut_CurrentRoles st) currentRoles)
          (if rotated then passwordHash else ut_PasswordSecretHash st) (if rotated then Some now else ut_PasswordLastRotated st)) latest),
   (phaseMoved || negb (String.eqb (ut_Message st) message) || ready, phaseMoved)).

(** Whether the write changed what it reports, and whether it entered the phase. *)
Definition writeUserStatus (phase readyStatus readyReason message : string) (currentRoles : option (list string)) (passwordHash : string) : UW S (bool * bool) :=
  now ← getsU uw_now;
  r ← retryUser userBackoff (userStatusBody now phase readyStatus readyReason message currentRoles passwordHash);
  mret (match r with inl v => v | inr _ => (false, false) end).

Definition setUserStatus (phase readyStatus readyReason message : string) (currentRoles : option (list string)) (passwordHash : string) : UW S bool :=
  r ← writeUserStatus phase readyStatus readyReason message currentRoles passwordHash; mret r.1.

(** A failure, announced when the write changed something. *)
Definition announceUserFailed (reason msg : string) : UW S unit :=
  changed ← setUserStatus "Failed" ConditionFalse reason msg None EmptyString;
  if (changed : bool) then eventU reason msg else mret tt.

Definition passwordApplied (passwordHash : string) : UW S bool :=
  if String.eqb passwordHash EmptyString then mret false
  else writeUser (fun now latest =>
    let st := nu_Status latest in
    if String.eqb (ut_PasswordSecretHash st) passwordHash then (None, false)
    else (Some (set_nu_Status (mkUserStatus (ut_Conditions st) (ut_Phase st) (ut_Message st) (ut_ObservedGeneration st) (ut_CurrentRoles st) passwordHash (Some now)) latest), true)).

Definition setUserCondition (condType status reason message : string) : UW S bool :=
  writeUser (fun now latest =>
    let st := nu_Status latest in
    let '(conditions, changed) := setNamedConditionChanged now (ut_Conditions st) condType (nu_Generation latest) status reason message in
    (Some (set_nu_Status (setUserPhase conditions (ut_Phase st) (ut_Message st) (nu_Generation latest) st) latest), changed)).

Definition waitForUserTarget (reason msg : string) : UW S bool :=
  writeUser (fun now latest =>
    let st := nu_Status latest in
    let '(conditions, phase, message, lasting) :=
      recordTargetWait now (ut_Conditions st) (ut_Phase st) (ut_Message st) (nu_Generation latest) reason msg in
    let st' := setUserPhase conditions phase message (nu_Generation latest) st in
    (if decide (st' = st) then None else Some (set_nu_Status st' latest), lasting)).

Definition reportResolvedRoles (resolved : list (string * string)) : UW S unit :=
  announce ← writeUser (fun now latest =>
    let st := nu_Status latest in
    let '(conditions, announce) := setResolvedRolesCondition now (ut_Conditions st) (nu_Generation latest) resolved in
    ((fun conditions => set_nu_Status (setUserPhase conditions (ut_Phase st) (ut_Message st) (ut_ObservedGeneration st) st) latest) <$> conditions, announce));
  if (announce : bool) then eventU EventReasonRolesResolved (resolvedRolesMessage resolved) else mret tt.

Definition reportPendingRoles (missing : list string) : UW S unit :=
  match missing with
  | [] => setUserCondition ConditionTypePendingDependencies ConditionFalse "AllDependenciesPresent" EmptyString ;; mret tt
  | _ =>
      let msg := pendingRolesMessage missing in
      changed ← setUserCondition ConditionTypePendingDependencies ConditionTrue ConditionReasonRolesPending msg;
      if (changed : bool) then eventU EventReasonRolePending msg else mret tt
  end.

(** ** Failures *)

Definition userUnreachable (e : clientError) (requeue : Z) : UW S userResult :=
  user ← getsU uw_copy;
  lasting ← waitForUserTarget ConditionReasonClusterUnreachable (targetUnreachableMessage (up_ClusterRef (nu_Spec user)) e);
  (if (lasting : bool) then
     announceUserFailed EventReasonConnectionFailed
       ("failed to connect to Neo4j for more than " +:+ gotime.DurationString targetUnreachableGrace +:+ ": " +:+ e_msg e)
   else mret tt) ;;
  mret (UserAgain requeue).

Definition failUser (label : string) (e : clientError) (requeue : Z) : UW S userResult :=
  if e_unreachable e then userUnreachable e requeue
  else
    now ← getsU uw_now;
    streak ← getsU uw_streak;
    let '(retried, streak) := quiet now streak e in
    modifyU (set_uw_streak streak) ;;
    if retried then mret (UserAgain transientRetry)
    else
      announceUserFailed EventReasonUserSyncFailed (label +:+ ": " +:+ e_msg e) ;;
      mret (if e_permanent e then UserAgain requeue else UserErrored e).

(** A stage that failed ends the pass. *)
Definition stopUser {A} (label : string) (e : clientError) (requeue : Z) : UW S (A + userResult) :=
  r ← failUser label e requeue; mret (inr r).

(** ** The client *)

Definition ListUserRoles (username : string) : UW S (list string + clientError) :=
  r ← askU (ShowUser username);
  mret (match r with inl (Some info) => inl (ui_Roles info) | inl None => inl [] | inr e => inr e end).

Definition CreateUserAdvanced (username : string) (o : AlterUserOptions) : UW S (option clientError) :=
  match createUserStatement username o true with
  | Err msg => mret (Some (plainError msg))
  | Ok (query, params) =>
      r ← sendU (SentCreateUser query params) (runUser query params);
      mret (wrapClient ("failed to create user " +:+ username) <$> r)
  end.

Definition AlterUser (username : string) (o : AlterUserOptions) : UW S (option clientError) :=
  if IsEmpty o then mret None
  else
    let '(query, params) := alterUserStatement username o in
    r ← sendU (SentAlterUser query params) (runUser query params);
    mret (wrapClient ("failed to alter user " +:+ username) <$> r).

Definition GrantRoleToUser (role username : string) : UW S (option clientError) :=
  r ← sendU (SentGrant role) (runUser (grantRoleStatement role username) ∅);
  mret (wrapClient ("failed to grant role " +:+ role +:+ " to user " +:+ username) <$> r).

Definition RevokeRoleFromUser (role username : string) : UW S (option clientError) :=
  r ← sendU (SentRevoke role) (runUser (revokeRoleStatement role username) ∅);
  mret (wrapClient ("failed to revoke role " +:+ role +:+ " from user " +:+ username) <$> r).

Definition DropUserIfExists (username : string) : UW S (option clientError) :=
  r ← sendU (SentDropUser (dropUserStatement username)) (runUser (dropUserStatement username) ∅);
  mret (wrapClient ("failed to drop user " +:+ username) <$> r).

Definition IsPasswordUnchangedError (e : clientError) : bool :=
  let msg := strings.ToLower (e_msg e) in
  strings.Contains msg "argumenterror" && strings.Contains msg "old password and new password cannot be the same".

(** ** The account *)

Variable keysOf : gmap string string -> list string.

Definition createUser (username passwordValue passwordHash : string) (requeue : Z) : UW S (UserInfo + userResult) :=
  user ← getsU uw_copy;
  r ← CreateUserAdvanced username (createOptions (nu_Spec user) passwordValue);
  match r with
  | Some e => stopUser "create user failed" e requeue
  | None =>
      eventU EventReasonUserCreated ("User " +:+ fmt.q username +:+ " created") ;;
      applied ← passwordApplied passwordHash;
      (if (applied : bool) then eventU EventReasonPasswordRotated "password updated from Secret" else mret tt) ;;
      shown ← askU (ShowUser username);
      match shown with
      | inr e => stopUser "post-create read failed" e requeue
      | inl None =>
          eventU EventReasonUserCreated ("User " +:+ fmt.q username +:+ " created; awaiting visibility in the system database") ;;
          mret (inr (UserAgain requeue))
      | inl (Some info) => mret (inl info)
      end
  end.

Definition alterUser (username : string) (info : UserInfo) (passwordValue passwordHash : string) (requeue : Z) : UW S (UserInfo + userResult) :=
  user ← getsU uw_copy;
  let o := computeAlter keysOf user info passwordHash passwordValue in
  if IsEmpty o then mret (inl info)
  else
    r ← AlterUser username o;
    match r with
    | Some e =>
        if negb (IsPasswordUnchangedError e) then stopUser "alter user failed" e requeue
        else
          applied ← passwordApplied passwordHash;
          (if (applied : bool) then eventU EventReasonUserUpdated ("User " +:+ fmt.q username +:+ " password already matches spec; recording as applied") else mret tt) ;;
          mret (inl info)
    | None =>
        eventU EventReasonUserUpdated ("User " +:+ fmt.q username +:+ " updated") ;;
        applied ← (if passwordRotationDue user passwordHash then passwordApplied passwordHash else mret false);
        (if (applied : bool) then eventU EventReasonPasswordRotated "password updated from Secret" else mret tt) ;;
        mret (inl info)
    end.

Definition ensureUser (username passwordValue passwordHash : string) (requeue : Z) : UW S (UserInfo + userResult) :=
  shown ← askU (ShowUser username);
  match shown with
  | inr e => stopUser "lookup failed" e requeue
  | inl None => createUser username passwordValue passwordHash requeue
  | inl (Some info) => alterUser username info passwordValue passwordHash requeue
  end.

(** ** Roles *)

Fixpoint grantRoles (roles : list string) (username : string) (requeue : Z) : UW S (unit + userResult) :=
  match roles with
  | [] => mret (inl tt)
  | role :: rest =>
      r ← GrantRoleToUser role username;
      match r with
      | Some e => stopUser ("grant " +:+ fmt.q role +:+ " failed") e requeue
      | None => grantRoles rest username requeue
      end
  end.

Fixpoint revokeRoles (roles : list string) (username : string) (requeue : Z) : UW S (unit + userResult) :=
  match roles with
  | [] => mret (inl tt)
  | role :: rest =>
      r ← RevokeRoleFromUser role username;
      match r with
      | Some e => stopUser ("revoke " +:+ fmt.q role +:+ " failed") e requeue
      | None => revokeRoles rest username requeue
      end
  end.

Definition missingRoles (roles : option (list Neo4jRole)) (clusterRef : string) (desired current : list string) : UW S (list string + clientError) :=
  match unknownRoles roles clusterRef desired current with
  | [] => mret (inl [])
  | unknown =>
      live ← askU ListRoles;
      mret (match live with inl live => inl (missingOf unknown live) | inr e => inr (wrapClient "list roles" e) end)
  end.

(** The roles the user has, as far as the pass knows. *)
Definition readRoles (username : string) (info : UserInfo) : UW S (list string) :=
  match ui_Roles info with
  | [] =>
      live ← ListUserRoles username;
      mret (match live with inl live => normaliseRoles live | inr _ => normaliseRoles [] end)
  | roles => mret (normaliseRoles roles)
  end.

(** Grants and revocations; the roles the pass found, and those missing. *)
Definition changeRoles (input : UserInput) (username : string) (desired current : list string) (requeue : Z) : UW S (list string + userResult) :=
  user ← getsU uw_copy;
  missing ← missingRoles (uin_roles input) (up_ClusterRef (nu_Spec user)) desired current;
  match missing with
  | inr e => stopUser "role lookup failed" e requeue
  | inl missing =>
      let '(addRoles, dropRoles) := diffRoles desired current missing in
      granted ← grantRoles addRoles username requeue;
      match granted with
      | inr r => mret (inr r)
      | inl _ =>
          revoked ← revokeRoles dropRoles username requeue;
          match revoked with
          | inr r => mret (inr r)
          | inl _ =>
              (match addRoles with [] => mret tt | _ => eventU EventReasonRolesGranted ("granted " +:+ bracketed addRoles) end) ;;
              (match dropRoles with [] => mret tt | _ => eventU EventReasonRolesRevoked ("revoked " +:+ bracketed dropRoles) end) ;;
              mret (inl missing)
          end
      end
  end.

(** The roles spec.roles means. *)
Definition desiredRolesOf (roles : option (list Neo4jRole)) (spec : UserSpec) : list string :=
  normaliseRoles (resolveRoleNames roles (up_ClusterRef spec) (normaliseRoles (up_Roles spec))).1.

Definition reportUser (username passwordHash : string) (desired current missing : list string) (requeue : Z) : UW S userResult :=
  user ← getsU uw_copy;
  listed ← ListUserRoles username;
  let finalRoles := normaliseRoles (match listed with inl roles => roles | inr _ => current end) in
  reportPendingRoles missing ;;
  let rolesEqual := bool_decide (desired = finalRoles) in
  (if rolesEqual then setUserCondition ConditionTypeRolesSynced ConditionTrue ConditionReasonRolesSynced "granted roles match spec"
   else setUserCondition ConditionTypeRolesSynced ConditionFalse ConditionReasonRolesPending
          ("granted roles " +:+ bracketed finalRoles +:+ " differ from spec " +:+ bracketed desired)) ;;
  (match up_PasswordSecretRef (nu_Spec user) with
   | Some _ => setUserCondition ConditionTypePasswordSynced ConditionTrue ConditionReasonPasswordSynced "password secret hash applied"
   | None => mret false
   end) ;;
  let count := strconv.Itoa (Z.of_nat (length finalRoles)) in
  (if rolesEqual && match missing with [] => true | _ => false end then
     r ← writeUserStatus "Ready" ConditionTrue ConditionReasonUserReady ("user " +:+ fmt.q username +:+ " is in sync (" +:+ count +:+ " roles)") (Some finalRoles) passwordHash;
     if (r.2 : bool) then eventU EventReasonUserReady ("User " +:+ fmt.q username +:+ " is ready (" +:+ count +:+ " roles in sync)") else mret tt
   else
     setUserStatus "Pending" ConditionFalse ConditionReasonRolesPending ("user " +:+ fmt.q username +:+ " reconciled with pending dependencies") (Some finalRoles) passwordHash ;;
     mret tt) ;;
  mret (UserAgain requeue).

Definition syncRoles (input : UserInput) (username passwordHash : string) (info : UserInfo) (requeue : Z) : UW S userResult :=
  user ← getsU uw_copy;
  let spec := nu_Spec user in
  let desired := desiredRolesOf (uin_roles input) spec in
  reportResolvedRoles (resolveRoleNames (uin_roles input) (up_ClusterRef spec) (normaliseRoles (up_Roles spec))).2 ;;
  current ← readRoles username info;
  changed ← changeRoles input username desired current requeue;
  match changed with
  | inr r => mret r
  | inl missing => reportUser username passwordHash desired current missing requeue
  end.

(** ** Reconcile *)

Variable sha256Hex : string -> string.

(** The password and its change token. *)
Definition readPasswordSecret (user : Neo4jUser) (ref : SecretKeyRef) (secret : (gmap string string * string) + clientError) : (string * string) + clientError :=
  let key := if String.eqb (sk_Key ref) EmptyString then "password" else sk_Key ref in
  match secret with
  | inr e => inr e
  | inl (data, resourceVersion) =>
      match data !! key with
      | None => inr (plainError ("secret " +:+ fmt.q (sk_Name ref) +:+ " has no key " +:+ fmt.q key))
      | Some EmptyString => inr (plainError ("secret " +:+ fmt.q (sk_Name ref) +:+ " key " +:+ fmt.q key +:+ " is empty"))
      | Some val => inl (val, sha256Hex (strings.Join [nu_Namespace user; sk_Name ref; key; resourceVersion] NUL))
      end
  end.

(** No Secret, no password and no token. *)
Definition passwordOf (user : Neo4jUser) (secret : (gmap string string * string) + clientError) : (string * string) + clientError :=
  match up_PasswordSecretRef (nu_Spec user) with
  | None => inl (EmptyString, EmptyString)
  | Some ref => readPasswordSecret user ref secret
  end.

Definition serveUser (input : UserInput) (username passwordValue passwordHash : string) (requeue : Z) : UW S userResult :=
  setUserCondition ConditionTypeClusterNotReady ConditionFalse "ClusterReady" EmptyString ;;
  ensured ← ensureUser username passwordValue passwordHash requeue;
  match ensured with
  | inr r => mret r
  | inl info => syncRoles input username passwordHash info requeue
  end.

Definition userOnTarget (input : UserInput) (username : string) (requeue : Z) : UW S userResult :=
  user ← getsU uw_copy;
  let ref := up_ClusterRef (nu_Spec user) in
  match uin_target input with
  | inr e => mret (UserErrored e)
  | inl t =>
      let dependencyWait := strings.Join (uin_pending input) "; " in
      if negb (targetFound t) then
        let msg := targetRefDisplay ref +:+ " not found" in
        let hadTarget := hadFoundTarget (ut_Conditions (nu_Status user)) in
        entered ← setUserStatus "Pending" ConditionFalse EventReasonClusterNotFound msg None EmptyString;
        now ← getsU uw_now;
        due ← (fun w => let '(due, since) := announceGone (uw_gone w) entered hadTarget now in (due, set_uw_gone since w));
        (if (due : bool) then eventU EventReasonClusterNotFound msg else mret tt) ;;
        mret (UserAgain requeue)
      else if negb (String.eqb dependencyWait EmptyString) then
        setUserStatus "Pending" ConditionFalse ConditionReasonSecretPending dependencyWait None EmptyString ;; mret (UserAgain requeue)
      else if negb (IsReady t) then
        waitForUserTarget ConditionReasonClusterNotReady (targetRefDisplay ref +:+ " is not Ready") ;; mret (UserAgain requeue)
      else
        match passwordOf user (uin_secret input) with
        | inr e =>
            setUserStatus "Failed" ConditionFalse EventReasonUserSyncFailed ("password secret read failed: " +:+ e_msg e) None EmptyString ;;
            mret (UserErrored e)
        | inl (passwordValue, passwordHash) =>
            match uin_connect input with
            | Some e =>
                if e_unreachable e then userUnreachable e requeue
                else announceUserFailed EventReasonConnectionFailed ("failed to connect to Neo4j: " +:+ e_msg e) ;; mret (UserErrored e)
            | None => serveUser input username passwordValue passwordHash requeue
            end
        end
  end.

(** ** The deletion *)

#[global] Instance userCleanupPass : CleanupPass (UW S) userResult := {
  passNow := getsU uw_now;
  passEvent := eventU;
  passAgain := UserAgain;
  passErrored := UserErrored
}.

Definition releaseU : UW S userResult :=
  r ← liftOU (removeFinalizer Neo4jUserFinalizer);
  mret (match r with Some e => UserErrored (apiErrorText e) | None => UserDone end).

Definition userCleanup (spec : UserSpec) (username : string) (ts : option Z) (requeue : Z) : deletionCleanup (M := UW S) (R := userResult) :=
  mkCleanup ts EventReasonUserDeletionFailed
    ("user " +:+ fmt.q username +:+ " on " +:+ targetRefDisplay (up_ClusterRef spec))
    ("DROP USER " +:+ Privileges.quoted username)
    (fun msg => setUserStatus "Failed" ConditionFalse EventReasonUserDeletionFailed msg None EmptyString)
    releaseU requeue.

Definition handleUserDeletion (input : UserInput) (username : string) (requeue : Z) : UW S userResult :=
  finalizers ← liftOU getCopy;
  user ← getsU uw_copy;
  let spec := nu_Spec user in
  let ref := up_ClusterRef spec in
  if negb (bool_decide (Neo4jUserFinalizer ∈ finalizers)) then mret UserDone
  else if strings.EqualFold (up_DeletionPolicy spec) "Retain" then releaseU
  else match uin_target input with
       | inr e => mret (UserErrored e)
       | inl t =>
           let d := userCleanup spec username (uin_deletionTimestamp input) requeue in
           settled ← settleByTarget d ref t (uin_volumes input);
           match settled with
           | Some r => mret r
           | None =>
               if negb (IsReady t) then blocked d (targetDownCause ref)
               else match uin_connect input with
                    | Some e => failedCleanup d (connectFailedCause ref e) e
                    | None =>
                        r ← DropUserIfExists username;
                        match r with
                        | Some e => failedCleanup d (statementFailedCause ref "DROP USER" e) e
                        | None => eventU EventReasonUserDeleted ("User " +:+ fmt.q username +:+ " dropped") ;; releaseU
                        end
                    end
           end
       end.

Definition recordWarningsU (warnings : list string) : UW S unit :=
  now ← getsU uw_now;
  warned ← getsU uw_warned;
  let reason := EventReasonValidationWarning in
  let '(mine, events) := recordScoped now (default ∅ (warned !! reason)) warnings in
  modifyU (fun w => set_uw_warned (<[reason := mine]> warned) (set_uw_events (rev (map (fun m => (reason, m)) events) ++ uw_events w) w)).

Definition ReconcileUser (input : UserInput) (requeue : Z) : UW S userResult :=
  finalizers ← liftOU getCopy;
  user ← getsU uw_copy;
  let username := effectiveUsername user in
  if bool_decide (uin_deletionTimestamp input <> None) then handleUserDeletion input username requeue
  else if negb (bool_decide (Neo4jUserFinalizer ∈ finalizers)) then
    r ← liftOU (addFinalizer Neo4jUserFinalizer);
    mret (match r with Some e => UserErrored (apiErrorText e) | None => UserDone end)
  else
    recordWarningsU (uin_warnings input) ;;
    match uin_errors input with
    | Some text => announceUserFailed EventReasonValidationFailed ("validation failed: " +:+ text) ;; mret (UserAgain requeue)
    | None => userOnTarget input username requeue
    end.
End Steps.
