(* ===== verification/UserSafety.v ===== *)
(** What a pass of the user controller may do (UserPass.v): the reason of every
    statement it sends, and what Ready on a user means; then the pass that reports
    Ready over an ALTER USER that was refused. *)
From S2P Require Import Prelude GoStrings GoTime GoRFC3339 ClusterTypes Conditions Availability Privileges TargetWait ObjectPatch DeletionWait Roles RoleLearn RoleProbe RoleReconcile UserAccount UserPass.

Open Scope Z_scope.

(** * Frames *)

Create HintDb frameduser discriminated.

Section Frames.
Context {S : Type} `{!UserClient S}.

(** Every run of the step relates the worlds before and after it. *)
Definition framesU (R : relation (UserWorld S)) {A} (m : UW S A) : Prop := forall w, R w (m w).2.

Definition readyU (w : UserWorld S) : Prop := ut_Phase (nu_Status (uw_stored w)) = "Ready".

(** The user on record does not become Ready. *)
Definition tame : relation (UserWorld S) := fun w w' => uw_copy w' = uw_copy w /\ (readyU w' -> readyU w).
(** Nothing was sent. *)
Definition silent : relation (UserWorld S) := fun w w' => uw_copy w' = uw_copy w /\ uw_log w' = uw_log w.
(** Neither, and Neo4j was not asked. *)
Definition calm : relation (UserWorld S) := fun w w' =>
  uw_copy w' = uw_copy w /\ uw_log w' = uw_log w /\ uw_neo4j w' = uw_neo4j w /\ uw_obj w' = uw_obj w /\ (readyU w' -> readyU w).

#[global] Instance tame_pre : PreOrder tame.
Proof. split; [done|]. intros x y z [? H1] [? H2]. split; [congruence|auto]. Qed.
#[global] Instance silent_pre : PreOrder silent.
Proof. split; [done|]. intros x y z [? ?] [? ?]. split; congruence. Qed.
#[global] Instance calm_pre : PreOrder calm.
Proof. split; [done|]. intros x y z (? & ? & ? & ? & ?) (? & ? & ? & ? & ?). unfold calm. split_and!; [congruence..|auto]. Qed.

Lemma bindU_eq {A B} (m : UW S A) (f : A -> UW S B) w : (m ≫= f) w = f (m w).1 (m w).2.
Proof. unfold mbind, UW_bind. by destruct (m w). Qed.

Lemma framesU_ret R `{!PreOrder R} {A} (a : A) : framesU R (mret a).
Proof. intros w. reflexivity. Qed.
Lemma framesU_gets R `{!PreOrder R} {A} (f : UserWorld S -> A) : framesU R (getsU f).
Proof. intros w. reflexivity. Qed.
Lemma framesU_bind R `{!PreOrder R} {A B} (m : UW S A) (f : A -> UW S B) : framesU R m -> (forall a, framesU R (f a)) -> framesU R (m ≫= f).
Proof. intros Hm Hf w. rewrite bindU_eq. etransitivity; [apply Hm|apply Hf]. Qed.

Lemma tame_calm {A} (m : UW S A) : framesU calm m -> framesU tame m.
Proof. intros H w. by destruct (H w) as (? & _ & _ & _ & ?). Qed.
Lemma silent_calm {A} (m : UW S A) : framesU calm m -> framesU silent m.
Proof. intros H w. by destruct (H w) as (? & ? & _). Qed.

Lemma user_calm_event reason msg : framesU calm (eventU reason msg).
Proof. by intros w. Qed.
Lemma calm_streak v : framesU calm (modifyU (set_uw_streak v)).
Proof. by intros w. Qed.
Lemma user_silent_ask {A} (call : S -> A * S) : framesU silent (askU call).
Proof. intros w. unfold askU. by destruct (call _). Qed.
Lemma tame_ask {A} (call : S -> A * S) : framesU tame (askU call).
Proof. intros w. unfold askU. by destruct (call _). Qed.
Lemma tame_send {A} action (call : S -> A * S) : framesU tame (sendU action call).
Proof. intros w. unfold sendU. by destruct (call _). Qed.
Lemma silent_lift {A} (m : OW A) : framesU silent (liftOU m).
Proof. intros w. unfold liftOU. by destruct (m _). Qed.
Lemma tame_lift {A} (m : OW A) : framesU tame (liftOU m).
Proof. intros w. unfold liftOU. by destruct (m _). Qed.

(** A read-modify-write: what the body may write decides. *)
Lemma retryU_keeps {A} steps (f : Neo4jUser -> option Neo4jUser * A) (w : UserWorld S) :
  let w' := (retryUser steps f w).2 in
  uw_copy w' = uw_copy w /\ uw_log w' = uw_log w /\ uw_neo4j w' = uw_neo4j w /\ uw_obj w' = uw_obj w
  /\ (uw_stored w' = uw_stored w \/ (f (uw_stored w)).1 = Some (uw_stored w')).
Proof.
  revert w. induction steps as [|steps IH]; intros w; [cbn; split_and!; by auto|]. cbn [retryUser]. cbv zeta.
  assert (Hn : let w1 := (nextUserAttempt w).2 in uw_copy w1 = uw_copy w /\ uw_log w1 = uw_log w /\ uw_neo4j w1 = uw_neo4j w /\ uw_obj w1 = uw_obj w /\ uw_stored w1 = uw_stored w)
    by (unfold nextUserAttempt; by destruct (uw_attempts w)).
  destruct (nextUserAttempt w) as [a w1]. cbn [snd] in Hn. destruct Hn as (H1 & H2 & H3 & H4 & H5).
  destruct a as [|e|e|seen]; rewrite ?H5.
  - destruct (f (uw_stored w)) as [[u|] v]; cbn; split_and!; auto.
  - cbn. split_and!; auto.
  - destruct (f (uw_stored w)) as [[u|] v]; cbn; split_and!; auto.
  - destruct (f seen) as [[u|] v]; [|cbn; split_and!; by auto].
    destruct (IH w1) as (K1 & K2 & K3 & K4 & K5). rewrite H5 in K5. split_and!; [congruence..|done].
Qed.

Lemma user_silent_retry {A} steps (f : Neo4jUser -> option Neo4jUser * A) : framesU silent (retryUser steps f).
Proof. intros w. destruct (retryU_keeps steps f w) as (? & ? & _). done. Qed.
Lemma user_calm_retry {A} steps (f : Neo4jUser -> option Neo4jUser * A) :
  (forall u u' v, f u = (Some u', v) -> ut_Phase (nu_Status u') = "Ready" -> ut_Phase (nu_Status u) = "Ready") -> framesU calm (retryUser steps f).
Proof.
  intros Hf w. destruct (retryU_keeps steps f w) as (H1 & H2 & H3 & H4 & H5). split_and!; [done..|]. unfold readyU. destruct H5 as [->|H5]; [done|].
  destruct (f (uw_stored w)) as [o v] eqn:E. cbn in H5. subst o. by apply (Hf _ _ v).
Qed.

Lemma calm_write body :
  (forall now u u' v, body now u = (Some u', v) -> ut_Phase (nu_Status u') = "Ready" -> ut_Phase (nu_Status u) = "Ready") -> framesU calm (writeUser body).
Proof.
  intros H. apply framesU_bind; [apply _|apply framesU_gets, _|]. intros now. apply framesU_bind; [apply _|by apply user_calm_retry, H|]. intros r. apply framesU_ret, _.
Qed.
End Frames.
#[export] Hint Resolve user_calm_event calm_streak user_silent_ask tame_ask tame_send silent_lift tame_lift user_silent_retry : frameduser.

(** Takes a step apart, binds first, and closes its leaves. *)
Ltac framed :=
  repeat first
    [ solve [auto with frameduser nocore]
    | solve [apply tame_calm; auto with frameduser nocore]
    | solve [apply silent_calm; auto with frameduser nocore]
    | apply framesU_ret; apply _
    | apply framesU_gets; apply _
    | apply framesU_bind; [apply _| |intros ?]
    | match goal with |- framesU _ (match ?x with _ => _ end) => destruct x end
    | match goal with |- framesU _ (if ?b then _ else _) => destruct b end ].

Section Calm.
Context {S : Type} `{!UserClient S}.

Lemma wait_phase now conditions phase message generation reason msg : (recordTargetWait now conditions phase message generation reason msg).1.1.2 = "Ready" -> phase = "Ready".
Proof. unfold recordTargetWait. destruct (noteTargetWait _ _ _ _ _ _ _) as [cs [[] ?]]; [done|]. by destruct (settledAtGeneration _ _ _). Qed.

Lemma calm_writeStatus phase status reason message roles hash : phase <> "Ready" -> framesU (S := S) calm (writeUserStatus phase status reason message roles hash).
Proof.
  intros Hp. unfold writeUserStatus. apply framesU_bind; [apply _|framed|]. intros now. apply framesU_bind; [apply _| |intros; framed].
  apply user_calm_retry. intros u u' v. unfold userStatusBody. destruct (SetReadyCondition _ _ _ _ _ _). by intros [= <- <-].
Qed.
Lemma silent_writeStatus phase status reason message roles hash : framesU (S := S) silent (writeUserStatus phase status reason message roles hash).
Proof. unfold writeUserStatus. framed. Qed.
Lemma calm_failedStatus status reason message roles hash : framesU (S := S) calm (setUserStatus "Failed" status reason message roles hash).
Proof. unfold setUserStatus. apply framesU_bind; [apply _|by apply calm_writeStatus|]. intros. framed. Qed.
Lemma calm_pendingStatus status reason message roles hash : framesU (S := S) calm (setUserStatus "Pending" status reason message roles hash).
Proof. unfold setUserStatus. apply framesU_bind; [apply _|by apply calm_writeStatus|]. intros. framed. Qed.
Lemma calm_applied hash : framesU (S := S) calm (passwordApplied hash).
Proof.
  unfold passwordApplied. destruct (String.eqb _ _); [framed|]. apply calm_write. intros now u u' v. destruct (String.eqb _ _); [done|]. by intros [= <- <-].
Qed.
Lemma calm_condition condType status reason message : framesU (S := S) calm (setUserCondition condType status reason message).
Proof. unfold setUserCondition. apply calm_write. intros now u u' v. destruct (setNamedConditionChanged _ _ _ _ _ _ _). by intros [= <- <-]. Qed.
Lemma calm_wait reason msg : framesU (S := S) calm (waitForUserTarget reason msg).
Proof.
  unfold waitForUserTarget. apply calm_write. intros now u u' v.
  pose proof (wait_phase now (ut_Conditions (nu_Status u)) (ut_Phase (nu_Status u)) (ut_Message (nu_Status u)) (nu_Generation u) reason msg) as Hp.
  destruct (recordTargetWait _ _ _ _ _ _ _) as [[[cs phase] message] lasting]. destruct (decide _); [done|]. by intros [= <- <-].
Qed.
Lemma calm_resolved resolved : framesU (S := S) calm (reportResolvedRoles resolved).
Proof.
  unfold reportResolvedRoles. apply framesU_bind; [apply _| |intros; framed]. apply calm_write. intros now u u' v.
  destruct (setResolvedRolesCondition _ _ _ _) as [[cs|] announce]; [|done]. by intros [= <- <-].
Qed.
#[local] Hint Resolve calm_failedStatus calm_pendingStatus calm_applied calm_condition calm_wait : frameduser.
Lemma calm_pendingRoles missing : framesU (S := S) calm (reportPendingRoles missing).
Proof. unfold reportPendingRoles. framed. Qed.
Lemma user_calm_announce reason msg : framesU (S := S) calm (announceUserFailed reason msg).
Proof. unfold announceUserFailed. framed. Qed.
#[local] Hint Resolve user_calm_announce : frameduser.
Lemma calm_unreachable e requeue : framesU (S := S) calm (userUnreachable e requeue).
Proof. unfold userUnreachable. framed. Qed.
#[local] Hint Resolve calm_unreachable : frameduser.
Lemma calm_fail label e requeue : framesU (S := S) calm (failUser label e requeue).
Proof. unfold failUser. framed. Qed.
#[local] Hint Resolve calm_fail : frameduser.
Lemma calm_stop {A} label e requeue : framesU (S := S) calm (stopUser (A := A) label e requeue).
Proof. unfold stopUser. framed. Qed.
Lemma calm_gone entered hadTarget now : framesU (S := S) calm (fun w => let '(due, since) := announceGone (uw_gone w) entered hadTarget now in (due, set_uw_gone since w)).
Proof. intros w. by destruct (announceGone _ _ _ _). Qed.
Lemma calm_warnings warnings : framesU (S := S) calm (recordWarningsU warnings).
Proof. unfold recordWarningsU. framed. by intros w. Qed.
End Calm.
#[export] Hint Resolve silent_writeStatus calm_failedStatus calm_pendingStatus calm_applied calm_condition calm_wait calm_resolved calm_pendingRoles user_calm_announce calm_unreachable calm_fail calm_stop calm_gone calm_warnings : frameduser.

Section Sends.
Context {S : Type} `{!UserClient S}.

Lemma silent_release : framesU (S := S) silent releaseU.
Proof. unfold releaseU. framed. Qed.
Lemma silent_listRoles username : framesU (S := S) silent (ListUserRoles username).
Proof. unfold ListUserRoles. framed. Qed.
#[local] Hint Resolve silent_release silent_listRoles : frameduser.
Lemma silent_readRoles username info : framesU (S := S) silent (readRoles username info).
Proof. unfold readRoles. framed. Qed.
Lemma silent_missing roles ref desired current : framesU (S := S) silent (missingRoles roles ref desired current).
Proof. unfold missingRoles. framed. Qed.
Lemma silent_report username hash desired current missing requeue : framesU (S := S) silent (reportUser username hash desired current missing requeue).
Proof. unfold reportUser. framed. Qed.
Lemma silent_blocked spec username ts requeue cause : framesU (S := S) silent (blocked (userCleanup spec username ts requeue) cause).
Proof. unfold blocked, userCleanup. cbn. framed. Qed.
#[local] Hint Resolve silent_blocked : frameduser.
Lemma silent_failed spec username ts requeue cause e : framesU (S := S) silent (failedCleanup (userCleanup spec username ts requeue) cause e).
Proof. unfold failedCleanup. cbn. framed. Qed.
Lemma silent_settle spec username ts requeue ref t volumes : framesU (S := S) silent (settleByTarget (userCleanup spec username ts requeue) ref t volumes).
Proof. unfold settleByTarget. cbn [dc_release userCleanup]. framed. Qed.

(** What a run of the step from [w] sent, in order, its value, and where it left
    Neo4j; the copy is as it was. *)
Definition runsU {A} (Q : list userAction -> A -> S -> Prop) (m : UW S A) (w : UserWorld S) : Prop :=
  exists sent, uw_log (m w).2 = rev sent ++ uw_log w /\ uw_copy (m w).2 = uw_copy w /\ Q sent (m w).1 (uw_neo4j (m w).2).

(** What goes on from [w] at the state [n]. *)
Definition onwards (w : UserWorld S) (n : S) (P : UserWorld S -> Prop) : Prop := forall w1, uw_neo4j w1 = n -> uw_copy w1 = uw_copy w -> P w1.

Lemma runsU_ret {A} Q (a : A) w : Q [] a (uw_neo4j w) -> runsU Q (mret a) w.
Proof. intros H. by exists []. Qed.
Lemma runsU_bind {A B} Q (m : UW S A) (f : A -> UW S B) w :
  runsU (fun first a n => onwards w n (runsU (fun rest => Q (first ++ rest)) (f a))) m w -> runsU Q (m ≫= f) w.
Proof.
  intros (first & H1 & H2 & H3). destruct (H3 (m w).2 eq_refl H2) as (rest & K1 & K2 & K3). exists (first ++ rest).
  rewrite bindU_eq. split_and!; [|congruence|done]. by rewrite K1, H1, rev_app_distr, (assoc_L (++)).
Qed.
Lemma runsU_copy {A} Q (f : Neo4jUser -> UW S A) w : runsU Q (f (uw_copy w)) w -> runsU Q (getsU uw_copy ≫= f) w.
Proof. done. Qed.
Lemma runsU_ask {A} Q (call : S -> A * S) w : (forall a n, call (uw_neo4j w) = (a, n) -> Q [] a n) -> runsU Q (askU call) w.
Proof. intros H. exists []. unfold askU. destruct (call _) as [a n]. cbn. auto. Qed.
Lemma runsU_send {A} Q action (call : S -> A * S) w : (forall a n, call (uw_neo4j w) = (a, n) -> Q [action] a n) -> runsU Q (sendU action call) w.
Proof. intros H. exists [action]. unfold sendU. destruct (call _) as [a n]. cbn. auto. Qed.
Lemma runsU_calm {A} (Q : list userAction -> A -> S -> Prop) m w : framesU calm m -> Q [] (m w).1 (uw_neo4j w) -> runsU Q m w.
Proof. intros Hm HQ. destruct (Hm w) as (H1 & H2 & H3 & _). exists []. rewrite H3. by split_and!. Qed.
Lemma runsU_silent {A} (Q : list userAction -> A -> S -> Prop) m w : framesU silent m -> (forall a n, Q [] a n) -> runsU Q m w.
Proof. intros Hm HQ. destruct (Hm w) as [H1 H2]. exists []. by split_and!. Qed.
(** A step that only writes status, and goes on. *)
Lemma runsU_then {A B} Q (m : UW S A) (f : A -> UW S B) w :
  framesU calm m -> (forall a, onwards w (uw_neo4j w) (runsU Q (f a))) -> runsU Q (m ≫= f) w.
Proof. intros Hm Hf. apply runsU_bind, runsU_calm; [done|]. intros w1 Hn Hc. by apply Hf. Qed.
Lemma runsU_weaken {A} (P Q : list userAction -> A -> S -> Prop) m w : (forall sent a n, P sent a n -> Q sent a n) -> runsU P m w -> runsU Q m w.
Proof. intros H (sent & ? & ? & ?). exists sent. auto. Qed.

Lemma stop_value {A} label e requeue w : exists r, (stopUser (S := S) (A := A) label e requeue w).1 = inr r.
Proof. unfold stopUser. rewrite bindU_eq. by eexists. Qed.
Lemma runsU_stop {A} (Q : list userAction -> A + userResult -> S -> Prop) label e requeue w :
  (forall r, Q [] (inr r) (uw_neo4j w)) -> runsU Q (stopUser label e requeue) w.
Proof. intros H. apply runsU_calm; [framed|]. destruct (stop_value (A := A) label e requeue w) as [r ->]. apply H. Qed.

Lemma ask_answer {A} (call : S -> A * S) w : (askU call w).1 = (call (uw_neo4j w)).1.
Proof. unfold askU. by destruct (call _). Qed.

(** ** The account *)

Variable keysOf : gmap string string -> list string.

(** The statement for the account, sent to Neo4j at [n], by what Neo4j answers; the
    user as it was shown, if the pass goes on to its roles; and where it left Neo4j.
    SHOW USERS must answer. A user it lists is altered when computeAlter says so, and
    the pass goes on unless that ALTER USER fails otherwise than over an unchanged
    password. A user it does not list is created, unless the statement cannot be
    built, and the pass goes on if a second SHOW USERS lists it. *)
Inductive accountRun (user : Neo4jUser) (username pw hash : string) (n : S) : list userAction -> option UserInfo -> S -> Prop :=
| AccountUnread e n1 : ShowUser username n = (inr e, n1) -> accountRun user username pw hash n [] None n1
| AccountKept info n1 : ShowUser username n = (inl (Some info), n1) -> IsEmpty (computeAlter keysOf user info hash pw) = true ->
    accountRun user username pw hash n [] (Some info) n1
| AccountAltered info n1 failed n2 : ShowUser username n = (inl (Some info), n1) -> IsEmpty (computeAlter keysOf user info hash pw) = false ->
    let statement := alterUserStatement username (computeAlter keysOf user info hash pw) in
    runUser statement.1 statement.2 n1 = (failed, n2) ->
    accountRun user username pw hash n [SentAlterUser statement.1 statement.2]
      (match failed with
       | Some e => if IsPasswordUnchangedError (wrapClient ("failed to alter user " +:+ username) e) then Some info else None
       | None => Some info
       end) n2
| AccountUnbuilt msg n1 : ShowUser username n = (inl None, n1) -> createUserStatement username (createOptions (nu_Spec user) pw) true = Err msg ->
    accountRun user username pw hash n [] None n1
| AccountRefused query params e n1 n2 : ShowUser username n = (inl None, n1) ->
    createUserStatement username (createOptions (nu_Spec user) pw) true = Ok (query, params) -> runUser query params n1 = (Some e, n2) ->
    accountRun user username pw hash n [SentCreateUser query params] None n2
| AccountCreated query params shown n1 n2 n3 : ShowUser username n = (inl None, n1) ->
    createUserStatement username (createOptions (nu_Spec user) pw) true = Ok (query, params) -> runUser query params n1 = (None, n2) ->
    ShowUser username n2 = (shown, n3) ->
    accountRun user username pw hash n [SentCreateUser query params] (match shown with inl found => found | inr _ => None end) n3.

Definition goesOn {A} (r : A + userResult) : option A := match r with inl a => Some a | inr _ => None end.

Lemma create_user_runs username pw hash requeue n w : ShowUser username n = (inl None, uw_neo4j w) ->
  runsU (fun sent r n' => accountRun (uw_copy w) username pw hash n sent (goesOn r) n') (createUser username pw hash requeue) w.
Proof.
  intros Hn. unfold createUser. apply runsU_copy, runsU_bind. unfold CreateUserAdvanced.
  destruct (createUserStatement username (createOptions (nu_Spec (uw_copy w)) pw) true) as [[query params]|msg] eqn:E; cycle 1.
  { apply runsU_ret. intros w1 Hn1 _. apply runsU_stop. intros r. rewrite Hn1. by eapply AccountUnbuilt. }
  apply runsU_bind, runsU_send. intros [e|] n2 Hr w1 Hn1 Hc1; apply runsU_ret; intros w2 Hn2 Hc2; cbn [fmap option_fmap option_map app].
  { apply runsU_stop. intros r. rewrite Hn2, Hn1. by eapply AccountRefused. }
  apply runsU_then; [framed|]. intros _ w3 Hn3 _. apply runsU_then; [framed|]. intros applied w4 Hn4 _.
  apply runsU_then; [framed|]. intros _ w5 Hn5 _. apply runsU_bind, runsU_ask. intros shown n3 Hs w6 Hn6 _.
  rewrite Hn5, Hn4, Hn3, Hn2, Hn1 in Hs. pose proof (AccountCreated _ _ _ hash _ _ _ _ _ _ _ Hn E Hr Hs) as Hend. rewrite <- Hn6 in Hend.
  destruct shown as [[info|]|e].
  - by apply runsU_ret.
  - apply runsU_then; [framed|]. intros _ w7 Hn7 _. apply runsU_ret. by rewrite Hn7.
  - by apply runsU_stop.
Qed.

Lemma alter_user_runs username info pw hash requeue n w : ShowUser username n = (inl (Some info), uw_neo4j w) ->
  runsU (fun sent r n' => accountRun (uw_copy w) username pw hash n sent (goesOn r) n') (alterUser keysOf username info pw hash requeue) w.
Proof.
  intros Hn. unfold alterUser. apply runsU_copy. cbv zeta. destruct (IsEmpty (computeAlter keysOf (uw_copy w) info hash pw)) eqn:E.
  { apply runsU_ret. by eapply AccountKept. }
  apply runsU_bind. unfold AlterUser. rewrite E. destruct (alterUserStatement _ _) as [query params] eqn:Es.
  apply runsU_bind, runsU_send. intros failed n2 Hr w1 Hn1 Hc1. apply runsU_ret. intros w2 Hn2 Hc2. cbn [app].
  pose proof (AccountAltered _ _ _ _ _ _ _ failed n2 Hn E) as Hend. rewrite Es in Hend. specialize (Hend Hr). rewrite <- Hn1, <- Hn2 in Hend.
  destruct failed as [e|]; cbn [fmap option_fmap option_map].
  - destruct (IsPasswordUnchangedError _); cbn [negb]; [|by apply runsU_stop].
    apply runsU_then; [framed|]. intros applied w3 Hn3 _. apply runsU_then; [framed|]. intros _ w4 Hn4 _. apply runsU_ret. by rewrite Hn4, Hn3.
  - apply runsU_then; [framed|]. intros _ w3 Hn3 _. apply runsU_then; [framed|]. intros applied w4 Hn4 _.
    apply runsU_then; [framed|]. intros _ w5 Hn5 _. apply runsU_ret. by rewrite Hn5, Hn4, Hn3.
Qed.

Lemma ensure_user_runs username pw hash requeue w :
  runsU (fun sent r n' => accountRun (uw_copy w) username pw hash (uw_neo4j w) sent (goesOn r) n') (ensureUser keysOf username pw hash requeue) w.
Proof.
  unfold ensureUser. apply runsU_bind, runsU_ask. intros [[info|]|e] n1 Hs w1 Hn1 Hc1; cbn [app]; rewrite <- ?Hc1.
  - apply alter_user_runs. by rewrite Hn1.
  - apply create_user_runs. by rewrite Hn1.
  - apply runsU_stop. intros r. rewrite Hn1. by eapply AccountUnread.
Qed.
End Sends.
#[export] Hint Resolve silent_release silent_listRoles silent_readRoles silent_missing silent_report silent_blocked silent_failed silent_settle : frameduser.

(** * Roles *)

Lemma normalise_kept r l : In r (List.filter (fun r => negb (String.eqb r EmptyString) && negb (strings.EqualFold r "PUBLIC")) (map strings.TrimSpace l))
  <-> (exists x, x ∈ l /\ strings.TrimSpace x = r) /\ r <> EmptyString /\ strings.EqualFold r "PUBLIC" = false.
Proof.
  rewrite filter_In, in_map_iff, andb_true_iff, !negb_true_iff, String.eqb_neq. setoid_rewrite list_elem_of_In.
  split; intros [[x [H1 H2]] H3]; split; eauto.
Qed.

Lemma normalise_elem r l : r ∈ normaliseRoles l <-> (exists x, x ∈ l /\ strings.TrimSpace x = r) /\ r <> EmptyString /\ strings.EqualFold r "PUBLIC" = false.
Proof. unfold normaliseRoles. by rewrite Strings_elem, elem_of_elements, elem_of_list_to_set, list_elem_of_In, normalise_kept. Qed.

Lemma normalise_idem l : normaliseRoles (normaliseRoles l) = normaliseRoles l.
Proof.
  unfold normaliseRoles at 1 3. do 2 f_equal. apply set_eq. intros r. rewrite !elem_of_list_to_set, !list_elem_of_In, !normalise_kept.
  split; intros [(x & Hx & Ht) Hr]; split; try done.
  - apply normalise_elem in Hx as [(y & Hy & <-) _]. exists y. split; [done|]. rewrite <- Ht. symmetry. apply trimFunc_idem.
  - exists r. split; [apply normalise_elem; by eauto|]. rewrite <- Ht. apply trimFunc_idem.
Qed.

Lemma normalise_nodup l : NoDup (normaliseRoles l).
Proof. unfold normaliseRoles. rewrite Strings_perm. apply NoDup_elements. Qed.

Section RoleChanges.
Context {S : Type} `{!UserClient S}.

(** Roles that Neo4j showed the user to have; none when it showed no such user or
    did not answer. *)
Inductive shownRoles (username : string) : list string -> Prop :=
| ShownNone : shownRoles username []
| ShownRoles (n : S) info : (ShowUser username n).1 = inl (Some info) -> shownRoles username (normaliseRoles (ui_Roles info)).

Lemma ensure_shown keysOf username pw hash requeue (w : UserWorld S) info :
  (ensureUser keysOf username pw hash requeue w).1 = inl info -> exists n, (ShowUser username n).1 = inl (Some info).
Proof.
  assert (Hstop : forall A label e w, exists r, (stopUser (S := S) (A := A) label e requeue w).1 = inr r)
    by (intros; unfold stopUser; rewrite bindU_eq; by eexists).
  unfold ensureUser. rewrite bindU_eq. destruct (askU _ w) as [[[info0|]|e] w1] eqn:Ea; cbn [fst snd].
  - assert (Hi : exists n, (ShowUser username n).1 = inl (Some info0)) by (exists (uw_neo4j w); by rewrite <- (ask_answer (ShowUser username) w), Ea).
    unfold alterUser. rewrite bindU_eq. cbv zeta. destruct (IsEmpty _); [by intros [= <-]|]. rewrite bindU_eq.
    destruct (AlterUser _ _ _).1 as [e|].
    + destruct (negb _); [|by rewrite !bindU_eq; intros [= <-]]. match goal with |- context [stopUser _ ?e _ ?w] => destruct (Hstop UserInfo "alter user failed" e w) as [r ->] end. done.
    + rewrite !bindU_eq. by intros [= <-].
  - unfold createUser. rewrite !bindU_eq. destruct (CreateUserAdvanced _ _ _).1 as [e|].
    + match goal with |- context [stopUser _ ?e _ ?w] => destruct (Hstop UserInfo "create user failed" e w) as [r ->] end. done.
    + rewrite !bindU_eq. match goal with |- context [askU ?c ?w] => pose proof (ask_answer c w) as Hs; destruct (askU c w) as [[[info1|]|e] w2] end; cbn [fst snd] in *.
      * intros [= <-]. by eexists.
      * by rewrite bindU_eq.
      * destruct (Hstop UserInfo "post-create read failed" e w2) as [r ->]. done.
  - destruct (Hstop UserInfo "lookup failed" e w1) as [r ->]. done.
Qed.

Lemma readRoles_shown username info (w : UserWorld S) : (exists n, (ShowUser username n).1 = inl (Some info)) -> shownRoles username (readRoles username info w).1.
Proof.
  intros [n Hn]. unfold readRoles. destruct (ui_Roles info) as [|r rs] eqn:Er; [|cbn [mret UW_ret fst]; rewrite <- Er; by apply (ShownRoles _ n)].
  unfold ListUserRoles. rewrite !bindU_eq, ask_answer. cbn [mret UW_ret fst snd]. destruct (ShowUser username (uw_neo4j w)).1 as [[i|]|e] eqn:Es; [by apply (ShownRoles _ (uw_neo4j w))|apply ShownNone..].
Qed.

(** The roles the user has, as Neo4j at [n] shows them: those it was shown with, or,
    when those are none, those a further SHOW USERS shows, and none when that lists
    no such user or does not answer. *)
Inductive rolesRead (username : string) (info : UserInfo) (n : S) : list string -> S -> Prop :=
| ReadAlready : ui_Roles info <> [] -> rolesRead username info n (normaliseRoles (ui_Roles info)) n
| ReadAgain shown n' : ui_Roles info = [] -> ShowUser username n = (shown, n') ->
    rolesRead username info n (normaliseRoles (match shown with inl (Some found) => ui_Roles found | _ => [] end)) n'.

(** The roles of SHOW ROLES, which is sent only when a role to grant is neither
    built in nor of a Neo4jRole of the target; [None]: it did not answer. *)
Inductive rolesListed (roles : option (list Neo4jRole)) (ref : string) (desired current : list string) (n : S) : option (list string) -> S -> Prop :=
| ListedUnasked : unknownRoles roles ref desired current = [] -> rolesListed roles ref desired current n (Some []) n
| ListedAnswer live n' : unknownRoles roles ref desired current <> [] -> ListRoles n = (inl live, n') -> rolesListed roles ref desired current n (Some live) n'
| ListedUnread e n' : unknownRoles roles ref desired current <> [] -> ListRoles n = (inr e, n') -> rolesListed roles ref desired current n None n'.

(** A role that exists, or that a Neo4jRole of the target is to create. *)
Definition existingRole (roles : option (list Neo4jRole)) (ref : string) (live : list string) (role : string) : Prop :=
  IsBuiltInRole role = true \/ role ∈ (roleCRIndex roles ref).1 \/ role ∈ live.

(** A statement for each role, in order, up to the first that is refused; whether
    none was. *)
Inductive sendsEach (statement : string -> string) : S -> list string -> list string -> bool -> S -> Prop :=
| EachNone n : sendsEach statement n [] [] true n
| EachRefused role rest e n n1 : runUser (statement role) ∅ n = (Some e, n1) -> sendsEach statement n (role :: rest) [role] false n1
| EachSent role rest sent all n n1 n2 : runUser (statement role) ∅ n = (None, n1) -> sendsEach statement n1 rest sent all n2 ->
    sendsEach statement n (role :: rest) (role :: sent) all n2.

(** From Neo4j at [n]: nothing if SHOW ROLES was needed and did not answer; otherwise
    GRANT ROLE for each role asked for, not shown and known, and, if none of these
    was refused, REVOKE ROLE for each role shown and not asked for. *)
Inductive roleRun (roles : option (list Neo4jRole)) (spec : UserSpec) (username : string) (info : UserInfo) (n : S) : list userAction -> Prop :=
| RolesUnlisted current n1 n2 : let desired := desiredRolesOf roles spec in
    rolesRead username info n current n1 -> rolesListed roles (up_ClusterRef spec) desired current n1 None n2 ->
    roleRun roles spec username info n []
| RolesChanged current live n1 n2 adds drops grants granted n3 revokes : let desired := desiredRolesOf roles spec in
    rolesRead username info n current n1 -> rolesListed roles (up_ClusterRef spec) desired current n1 (Some live) n2 ->
    NoDup adds -> (forall r, r ∈ adds <-> r ∈ desired /\ (r ∉ current) /\ existingRole roles (up_ClusterRef spec) live r) ->
    NoDup drops -> (forall r, r ∈ drops <-> r ∈ current /\ r ∉ desired) ->
    sendsEach (fun role => grantRoleStatement role username) n2 adds grants granted n3 ->
    (if granted then exists revoked n4, sendsEach (fun role => revokeRoleStatement role username) n3 drops revokes revoked n4 else revokes = []) ->
    roleRun roles spec username info n ((SentGrant <$> grants) ++ (SentRevoke <$> revokes)).

Lemma existsb_in r l : existsb (String.eqb r) l = true <-> r ∈ l.
Proof. rewrite existsb_exists, list_elem_of_In. setoid_rewrite String.eqb_eq. split; [intros (x & ? & ->)|]; eauto. Qed.
Lemma existsb_notin r l : negb (existsb (String.eqb r) l) = true <-> r ∉ l.
Proof. rewrite negb_true_iff, <- not_true_iff_false, existsb_in. done. Qed.

Lemma unknown_elem roles ref desired current r : r ∈ unknownRoles roles ref desired current <->
  r ∈ desired /\ (r ∉ current) /\ ~ (IsBuiltInRole r = true \/ r ∈ (roleCRIndex roles ref).1).
Proof.
  unfold unknownRoles. rewrite list_elem_of_In, filter_In, !andb_true_iff, existsb_notin, !negb_true_iff, bool_decide_eq_false, <- list_elem_of_In, <- not_true_iff_false. tauto.
Qed.

(** The roles the pass holds as missing are those asked for and not shown that are
    not known. *)
Lemma adds_known roles ref desired current live missing : NoDup desired ->
  (unknownRoles roles ref desired current = [] /\ missing = [] /\ live = [] \/ missing = missingOf (unknownRoles roles ref desired current) live) ->
  NoDup (diffRoles desired current missing).1
  /\ forall r, r ∈ (diffRoles desired current missing).1 <-> r ∈ desired /\ (r ∉ current) /\ existingRole roles ref live r.
Proof.
  intros Hnd Hm. cbn [diffRoles fst]. split; [rewrite Strings_perm; by apply NoDup_ListNoDup, List.NoDup_filter, NoDup_ListNoDup|].
  intros r. rewrite Strings_elem, list_elem_of_In, filter_In, andb_true_iff, !existsb_notin, <- list_elem_of_In.
  assert (Hiff : r ∈ desired -> r ∉ current -> (r ∉ missing <-> existingRole roles ref live r)); [|naive_solver].
  intros Hd Hc. pose proof (unknown_elem roles ref desired current r) as Hu. unfold existingRole. destruct Hm as [(He & -> & ->)| ->].
  - rewrite He in Hu. destruct (decide (IsBuiltInRole r = true)), (decide (r ∈ (roleCRIndex roles ref).1)); set_solver.
  - unfold missingOf. rewrite Strings_elem, list_elem_of_In, filter_In, existsb_notin, <- list_elem_of_In, Hu.
    destruct (decide (IsBuiltInRole r = true)), (decide (r ∈ (roleCRIndex roles ref).1)), (decide (r ∈ live)); tauto.
Qed.

Lemma drops_shown desired current missing : NoDup current -> (forall r, r ∈ current -> strings.EqualFold r "PUBLIC" = false) ->
  NoDup (diffRoles desired current missing).2 /\ forall r, r ∈ (diffRoles desired current missing).2 <-> r ∈ current /\ r ∉ desired.
Proof.
  intros Hnd Hp. cbn [diffRoles snd]. split; [rewrite Strings_perm; by apply NoDup_ListNoDup, List.NoDup_filter, NoDup_ListNoDup|].
  intros r. rewrite Strings_elem, list_elem_of_In, filter_In, andb_true_iff, existsb_notin, negb_true_iff, <- list_elem_of_In. specialize (Hp r). tauto.
Qed.

Lemma readRoles_runs username info (w : UserWorld S) : runsU (fun sent current n' => sent = [] /\ rolesRead username info (uw_neo4j w) current n') (readRoles username info) w.
Proof.
  unfold readRoles, ListUserRoles. destruct (ui_Roles info) as [|r rs] eqn:Er.
  - apply runsU_bind, runsU_bind, runsU_ask. intros shown n1 Hs w1 Hn1 _. apply runsU_ret. intros w2 Hn2 _. apply runsU_ret. split; [done|].
    rewrite Hn2, Hn1. pose proof (ReadAgain username info _ shown n1 Er Hs) as Hr. by destruct shown as [[found|]|e].
  - apply runsU_ret. split; [done|]. rewrite <- Er. apply ReadAlready. by rewrite Er.
Qed.

(** What the missing roles are, by the answer of SHOW ROLES. *)
Lemma missing_runs roles ref desired current (w : UserWorld S) :
  runsU (fun sent r n' => sent = [] /\ exists live, rolesListed roles ref desired current (uw_neo4j w) live n' /\
    match r, live with
    | inl missing, Some live => unknownRoles roles ref desired current = [] /\ missing = [] /\ live = [] \/ missing = missingOf (unknownRoles roles ref desired current) live
    | inr _, None => True
    | _, _ => False
    end) (missingRoles roles ref desired current) w.
Proof.
  unfold missingRoles. destruct (unknownRoles roles ref desired current) as [|u us] eqn:Eu.
  - apply runsU_ret. split; [done|]. exists (Some []). split; [by apply ListedUnasked|by left].
  - apply runsU_bind, runsU_ask. intros [live|e] n1 Hl w1 Hn1 _; apply runsU_ret; (split; [done|]); rewrite Hn1.
    + exists (Some live). split; [apply ListedAnswer; by rewrite ?Eu|]. by right.
    + exists None. split; [|done]. eapply ListedUnread; [by rewrite Eu|done].
Qed.

Lemma grants_run username requeue roles : forall w : UserWorld S,
  runsU (fun sent r n' => exists granted, sent = (SentGrant <$> granted) /\
    sendsEach (fun role => grantRoleStatement role username) (uw_neo4j w) roles granted (bool_decide (goesOn r = Some tt)) n') (grantRoles roles username requeue) w.
Proof.
  induction roles as [|role rest IH]; intros w; cbn [grantRoles].
  { apply runsU_ret. exists []. split; [done|]. rewrite bool_decide_true by done. constructor. }
  apply runsU_bind, runsU_bind, runsU_send. intros [e|] n1 Hr w1 Hn1 _; apply runsU_ret; intros w2 Hn2 _; cbn [fmap option_fmap option_map app].
  - apply runsU_stop. intros r. exists [role]. split; [done|]. rewrite Hn2, Hn1. rewrite bool_decide_false by done. by eapply EachRefused.
  - eapply runsU_weaken, IH. intros sent a n2 (granted & -> & Hg). exists (role :: granted). split; [done|].
    rewrite Hn2, Hn1 in Hg. by eapply EachSent.
Qed.

Lemma revokes_run username requeue roles : forall w : UserWorld S,
  runsU (fun sent r n' => exists revoked, sent = (SentRevoke <$> revoked) /\
    sendsEach (fun role => revokeRoleStatement role username) (uw_neo4j w) roles revoked (bool_decide (goesOn r = Some tt)) n') (revokeRoles roles username requeue) w.
Proof.
  induction roles as [|role rest IH]; intros w; cbn [revokeRoles].
  { apply runsU_ret. exists []. split; [done|]. rewrite bool_decide_true by done. constructor. }
  apply runsU_bind, runsU_bind, runsU_send. intros [e|] n1 Hr w1 Hn1 _; apply runsU_ret; intros w2 Hn2 _; cbn [fmap option_fmap option_map app].
  - apply runsU_stop. intros r. exists [role]. split; [done|]. rewrite Hn2, Hn1. rewrite bool_decide_false by done. by eapply EachRefused.
  - eapply runsU_weaken, IH. intros sent a n2 (revoked & -> & Hg). exists (role :: revoked). split; [done|].
    rewrite Hn2, Hn1 in Hg. by eapply EachSent.
Qed.

Lemma change_runs input username info requeue n (w : UserWorld S) current : rolesRead username info n current (uw_neo4j w) ->
  let spec := nu_Spec (uw_copy w) in
  runsU (fun sent _ _ => roleRun (uin_roles input) spec username info n sent)
    (changeRoles input username (desiredRolesOf (uin_roles input) spec) current requeue) w.
Proof.
  intros Hcur. cbv zeta. set (desired := desiredRolesOf _ _). unfold changeRoles. apply runsU_copy, runsU_bind.
  eapply runsU_weaken, missing_runs. intros sent r n1 (-> & live & Hl & Hm) w1 Hn1 Hc1. cbn [app].
  destruct r as [missing|e]; cycle 1.
  { destruct live; [done|]. apply runsU_stop. intros r. by eapply RolesUnlisted. }
  destruct live as [live|]; [|done].
  destruct (adds_known _ _ desired current _ _ (normalise_nodup _) Hm) as [Ha1 Ha2]. destruct (drops_shown desired current missing) as [Hd1 Hd2]; [by destruct Hcur; apply normalise_nodup|..].
  { intros r Hr. by destruct Hcur; apply normalise_elem in Hr as (_ & _ & ?). }
  destruct (diffRoles desired current missing) as [adds drops]. cbn [fst snd] in *.
  apply runsU_bind. eapply runsU_weaken, grants_run. intros sent g n3 (grants & -> & Hg) w2 Hn2 Hc2. rewrite Hn1 in Hg.
  destruct g as [[]|r]; cbn [goesOn] in Hg.
  - rewrite bool_decide_true in Hg by done. apply runsU_bind. eapply runsU_weaken, revokes_run. intros sent v n4 (revokes & -> & Hv) w3 Hn3 Hc3. rewrite Hn2 in Hv.
    assert (Hrun : roleRun (uin_roles input) (nu_Spec (uw_copy w)) username info n ((SentGrant <$> grants) ++ (SentRevoke <$> revokes)))
      by (eapply (RolesChanged _ _ _ _ _ current live _ _ adds drops grants true); eauto).
    rewrite <- (app_nil_r (SentRevoke <$> revokes)) in Hrun. destruct v as [[]|r]; (apply runsU_silent; [framed|]); intros; by rewrite ?app_nil_r in *.
  - rewrite bool_decide_false in Hg by done. apply runsU_ret. rewrite app_nil_r.
    change (roleRun (uin_roles input) (nu_Spec (uw_copy w)) username info n (SentGrant <$> grants)). rewrite <- (app_nil_r (SentGrant <$> grants)). by eapply (RolesChanged _ _ _ _ _ current live _ _ adds drops grants false _ []).
Qed.

Lemma sync_runs input username hash info requeue (w : UserWorld S) :
  runsU (fun sent _ _ => roleRun (uin_roles input) (nu_Spec (uw_copy w)) username info (uw_neo4j w) sent) (syncRoles input username hash info requeue) w.
Proof.
  unfold syncRoles. apply runsU_copy. cbv zeta. apply runsU_then; [framed|]. intros _ w1 Hn1 Hc1.
  apply runsU_bind. eapply runsU_weaken, readRoles_runs. intros sent current n2 (-> & Hr) w2 Hn2 Hc2. cbn [app]. rewrite <- Hn2, Hn1 in Hr.
  apply runsU_bind. rewrite <- Hc1, <- Hc2. eapply runsU_weaken, (change_runs input username info requeue _ w2 _ Hr).
  intros sent a n3 Hrun w3 _ _. destruct a; (apply runsU_silent; [framed|]); intros; by rewrite app_nil_r.
Qed.
End RoleChanges.

(** * The reason of everything sent *)

Section Reasons.
Context {S : Type} `{!UserClient S} (keysOf : gmap string string -> list string) (sha256Hex : string -> string).

(** The pass got as far as a connection to a target that accepts work, with no
    refusal, nothing to wait for, and the password and its token read. *)
Definition admittedUser (input : UserInput) (w : UserWorld S) (pw hash : string) : Prop :=
  uin_deletionTimestamp input = None /\ Neo4jUserFinalizer ∈ ow_copy (uw_obj w)
  /\ uin_errors input = None /\ strings.Join (uin_pending input) "; " = EmptyString
  /\ (exists t, uin_target input = inl t /\ targetFound t = true /\ IsReady t = true)
  /\ passwordOf sha256Hex (uw_copy w) (uin_secret input) = inl (pw, hash) /\ uin_connect input = None.

(** The user is deleted and not kept, and the target that holds it stays and accepts
    work. *)
Definition dropUserDue (input : UserInput) (w : UserWorld S) : Prop :=
  uin_deletionTimestamp input <> None /\ Neo4jUserFinalizer ∈ ow_copy (uw_obj w)
  /\ strings.EqualFold (up_DeletionPolicy (nu_Spec (uw_copy w))) "Retain" = false
  /\ (exists t, uin_target input = inl t /\ fateOfTarget t (uin_volumes input) = inl targetHolds /\ IsReady t = true)
  /\ uin_connect input = None.

(** What a pass sends, in order: the account's statement and then, if it went on, the
    roles'; or DROP USER; or, only when neither is due, nothing. *)
Inductive mayDoUser (input : UserInput) (w : UserWorld S) : list userAction -> Prop :=
| MayDoNoneU : (forall pw hash, ~ admittedUser input w pw hash) -> ~ dropUserDue input w -> mayDoUser input w []
| MayServeU pw hash account shown n roles : admittedUser input w pw hash ->
    accountRun keysOf (uw_copy w) (effectiveUsername (uw_copy w)) pw hash (uw_neo4j w) account shown n ->
    match shown with
    | Some info => roleRun (uin_roles input) (nu_Spec (uw_copy w)) (effectiveUsername (uw_copy w)) info n roles
    | None => roles = []
    end ->
    mayDoUser input w (account ++ roles)
| MayDropU : dropUserDue input w -> mayDoUser input w [SentDropUser (dropUserStatement (effectiveUsername (uw_copy w)))].

Definition doesU {A} (input : UserInput) (w0 : UserWorld S) (m : UW S A) (w : UserWorld S) : Prop := runsU (fun sent _ _ => mayDoUser input w0 sent) m w.

Definition idleU (input : UserInput) (w : UserWorld S) : Prop := (forall pw hash, ~ admittedUser input w pw hash) /\ ~ dropUserDue input w.

Lemma doesU_nothing {A} input w0 (m : UW S A) w : framesU silent m -> idleU input w0 -> doesU input w0 m w.
Proof. intros H [H1 H2]. apply runsU_silent; [done|]. intros. by constructor. Qed.
Lemma doesU_after {A B} input w0 (m : UW S A) (f : A -> UW S B) w : framesU silent m -> doesU input w0 (f (m w).1) (m w).2 -> doesU input w0 (m ≫= f) w.
Proof.
  intros Hm (sent & H1 & H2 & H3). destruct (Hm w) as [K1 K2]. exists sent. rewrite bindU_eq. split_and!; [congruence..|done].
Qed.

(** The account does not touch the copy. *)
Lemma tame_ensure username pw hash requeue : framesU tame (ensureUser keysOf username pw hash requeue).
Proof. unfold ensureUser, createUser, alterUser, CreateUserAdvanced, AlterUser. framed. Qed.

Lemma serve_user_does input pw hash requeue w0 w : uw_copy w = uw_copy w0 -> uw_neo4j w = uw_neo4j w0 -> admittedUser input w0 pw hash ->
  doesU input w0 (serveUser keysOf input (effectiveUsername (uw_copy w0)) pw hash requeue) w.
Proof.
  intros Hc Hn Ha. set (username := effectiveUsername (uw_copy w0)). unfold serveUser. apply runsU_then; [framed|]. intros _ w1 Hn1 Hc1.
  apply runsU_bind. eapply runsU_weaken, ensure_user_runs. intros account r n Hacc w2 Hn2 Hc2. rewrite Hn1, Hc1, Hc, Hn in Hacc.
  destruct r as [info|r]; cbn [goesOn] in Hacc.
  - eapply runsU_weaken, sync_runs. intros sent a n3 Hr. rewrite Hc2, Hc1, Hc, Hn2 in Hr. by eapply (MayServeU _ _ _ _ _ (Some info)).
  - apply runsU_ret. by eapply (MayServeU _ _ _ _ _ None).
Qed.

(** A pass in which nothing is due: some guard of both does not hold. *)
Ltac idle := split; [intros ? ? (? & ? & ? & ? & (? & ? & ? & ?) & ? & ?)|intros (? & ? & ? & (? & ? & ? & ?) & ?)]; congruence.

Lemma target_user_does input requeue w0 w : uw_copy w = uw_copy w0 -> uw_neo4j w = uw_neo4j w0 ->
  uin_deletionTimestamp input = None -> Neo4jUserFinalizer ∈ ow_copy (uw_obj w0) -> uin_errors input = None ->
  doesU input w0 (userOnTarget keysOf sha256Hex input (effectiveUsername (uw_copy w0)) requeue) w.
Proof.
  intros Hc Hn Hd Hf He. unfold userOnTarget. apply doesU_after; [framed|]. cbn [getsU fst snd]. rewrite Hc. cbv zeta.
  destruct (uin_target input) as [t|e] eqn:Et; [|apply doesU_nothing; [framed|idle]].
  destruct (targetFound t) eqn:Ef; cbn [negb]; [|apply doesU_nothing; [framed|idle]].
  destruct (String.eqb_spec (strings.Join (uin_pending input) "; ") EmptyString) as [Ep|Ep]; cbn [negb]; [|apply doesU_nothing; [framed|idle]].
  destruct (IsReady t) eqn:Er; cbn [negb]; [|apply doesU_nothing; [framed|idle]].
  destruct (passwordOf sha256Hex (uw_copy w0) (uin_secret input)) as [[pw hash]|e] eqn:Epw; [|apply doesU_nothing; [framed|idle]].
  destruct (uin_connect input) as [e|] eqn:Ecn; [apply doesU_nothing; [framed|idle]|]. apply serve_user_does; [done..|].
  unfold admittedUser. split_and!; by eauto.
Qed.

Lemma settleU_unless_held spec username ts requeue ref t volumes (w : UserWorld S) :
  fateOfTarget t volumes = inl targetHolds \/ fateOfTarget t volumes <> inl targetHolds /\ (settleByTarget (userCleanup spec username ts requeue) ref t volumes w).1 <> None.
Proof. unfold settleByTarget. destruct (fateOfTarget t volumes) as [[]|]; rewrite ?bindU_eq; first [by left|by right]. Qed.

Lemma deletion_user_does input requeue w : uin_deletionTimestamp input <> None ->
  doesU input w (handleUserDeletion input (effectiveUsername (uw_copy w)) requeue) w.
Proof.
  intros Hd. unfold handleUserDeletion. apply doesU_after; [framed|]. apply doesU_after; [framed|].
  cbn [liftOU getCopy getsU fst snd]. replace (set_uw_obj (uw_obj w) w) with w by (by destruct w). cbv zeta.
  case_bool_decide as Ef; cbn [negb]; [|apply doesU_nothing; [framed|idle]].
  destruct (strings.EqualFold _ "Retain") eqn:Ep; [apply doesU_nothing; [framed|idle]|].
  destruct (uin_target input) as [t|e] eqn:Et; [|apply doesU_nothing; [framed|idle]].
  set (cleanup := userCleanup _ _ _ _). set (ref := up_ClusterRef _).
  assert (Hq : framesU silent (settleByTarget cleanup ref t (uin_volumes input))) by apply silent_settle.
  destruct (settleU_unless_held (nu_Spec (uw_copy w)) (effectiveUsername (uw_copy w)) (uin_deletionTimestamp input) requeue ref t (uin_volumes input) w) as [Efate|[Efate Esome]]; cycle 1.
  { apply doesU_after; [done|]. fold cleanup in Esome. destruct (settleByTarget cleanup ref t (uin_volumes input) w).1; [|done]. apply doesU_nothing; [framed|idle]. }
  apply doesU_after; [done|]. unfold settleByTarget. rewrite Efate. cbn [mret UW_ret fst snd].
  destruct (IsReady t) eqn:Er; cbn [negb]; [|apply doesU_nothing; [apply silent_blocked|idle]].
  destruct (uin_connect input) as [e|] eqn:Ecn; [apply doesU_nothing; [apply silent_failed|idle]|].
  apply runsU_bind, runsU_bind, runsU_send. intros r n _ w1 _ _. apply runsU_ret. intros w2 _ _.
  apply runsU_silent; [destruct r as [e|]; cbn [fmap option_fmap option_map]; [apply silent_failed|framed]|]. intros. cbn [app].
  apply MayDropU. unfold dropUserDue. split_and!; by eauto.
Qed.

(** C34: Whatever answers the operator gets, what a pass over a Neo4jUser sends Neo4j is fixed by those answers, statement by statement. When the target accepts work, nothing is refused or waited for, the password was read and the connection stands, it asks SHOW USERS; a user that is not listed it creates (unless the statement cannot be built), and of one that is listed it sends the ALTER USER that computeAlter says, whenever that is not empty. The pass stops there when SHOW USERS failed, the CREATE was refused or the new user is not shown yet, or the ALTER failed otherwise than over an unchanged password. Else it grants each role asked for that the user was not shown to have and that is built in, managed by a Neo4jRole of the target or listed by SHOW ROLES, each once and up to the first that is refused; only if none is, it revokes each role shown and not asked for, each once and up to the first refused. (When the user was first shown without roles SHOW USERS is asked again, and an answer that does not come counts as no roles; nothing is granted or revoked if SHOW ROLES was needed and failed.) In a deletion whose policy is not Retain, with a target that holds the user, stays and accepts work, it sends DROP USER. It sends nothing else, and nothing at all only when neither is due. *)
Theorem user_pass_sends (input : UserInput) (requeue : Z) (w : UserWorld S) :
  exists sent, uw_log (ReconcileUser keysOf sha256Hex input requeue w).2 = rev sent ++ uw_log w /\ mayDoUser input w sent.
Proof.
  enough (doesU input w (ReconcileUser keysOf sha256Hex input requeue) w) as (sent & H1 & _ & H2) by eauto. unfold ReconcileUser.
  apply doesU_after; [framed|]. apply doesU_after; [framed|]. cbn [liftOU getCopy getsU fst snd].
  replace (set_uw_obj (uw_obj w) w) with w by (by destruct w). cbv zeta.
  case_bool_decide as Hd; [by apply deletion_user_does|].
  case_bool_decide as Hf; cbn [negb]; [|apply doesU_nothing; [framed|idle]].
  apply doesU_after; [framed|]. destruct (calm_warnings (uin_warnings input) w) as (H1 & _ & H2 & _).
  destruct (uin_errors input) as [text|] eqn:Er; [apply doesU_nothing; [framed|idle]|]. by apply target_user_does.
Qed.
End Reasons.

(** * Ready *)

Section Ready.
Context {S : Type} `{!UserClient S} (keysOf : gmap string string -> list string) (sha256Hex : string -> string).

Lemma tame_listRoles username : framesU (S := S) tame (ListUserRoles username).
Proof. unfold ListUserRoles. framed. Qed.
#[local] Hint Resolve tame_listRoles : frameduser.
Lemma tame_readRoles username info : framesU (S := S) tame (readRoles username info).
Proof. unfold readRoles. framed. Qed.
Lemma tame_missing roles ref desired current : framesU (S := S) tame (missingRoles roles ref desired current).
Proof. unfold missingRoles. framed. Qed.
Lemma tame_grants username requeue roles : framesU (S := S) tame (grantRoles roles username requeue).
Proof. induction roles as [|role rest IH]; cbn [grantRoles]; unfold GrantRoleToUser; framed. Qed.
Lemma tame_revokes username requeue roles : framesU (S := S) tame (revokeRoles roles username requeue).
Proof. induction roles as [|role rest IH]; cbn [revokeRoles]; unfold RevokeRoleFromUser; framed. Qed.
#[local] Hint Resolve tame_readRoles tame_missing tame_grants tame_revokes : frameduser.
Lemma tame_change input username desired current requeue : framesU (S := S) tame (changeRoles input username desired current requeue).
Proof. unfold changeRoles. framed. Qed.
#[local] Hint Resolve tame_change tame_ensure : frameduser.

(** A step in which the user becomes Ready: a tame one before it changes nothing. *)
Lemma ready_after {A B} (m : UW S A) (f : A -> UW S B) w : framesU tame m -> ~ readyU w -> readyU ((m ≫= f) w).2 ->
  exists w1, w1 = (m w).2 /\ uw_copy w1 = uw_copy w /\ ~ readyU w1 /\ readyU (f (m w).1 w1).2.
Proof.
  intros Hm Hw Hr. rewrite bindU_eq in Hr. destruct (Hm w) as [H1 H2]. eexists. split_and!; [done|done|auto|done].
Qed.
Lemma never_ready {A} (m : UW S A) w : framesU tame m -> ~ readyU w -> ~ readyU (m w).2.
Proof. intros Hm Hw Hr. by apply Hw, (Hm w). Qed.

(** What the record says of a user that became Ready. *)
Definition syncedRecord (desired : list string) (hash : string) (u : Neo4jUser) : Prop :=
  ut_CurrentRoles (nu_Status u) = desired /\ (hash = EmptyString \/ ut_PasswordSecretHash (nu_Status u) = hash)
  /\ exists c, findCondition (ut_Conditions (nu_Status u)) ConditionTypeReady = Some c /\ c_Status c = ConditionTrue.

Lemma write_ready reason message roles hash (w : UserWorld S) : let w' := (writeUserStatus "Ready" ConditionTrue reason message (Some roles) hash w).2 in
  ~ readyU w -> readyU w' -> syncedRecord roles hash (uw_stored w').
Proof.
  cbv zeta. unfold writeUserStatus. rewrite !bindU_eq. cbn [getsU fst snd mret UW_ret]. intros Hw Hr.
  destruct (retryU_keeps userBackoff (userStatusBody (uw_now w) "Ready" ConditionTrue reason message (Some roles) hash) w) as (_ & _ & _ & _ & [He|He]).
  { exfalso. apply Hw. unfold readyU in *. by rewrite <- He. }
  revert He. generalize (uw_stored (retryUser userBackoff (userStatusBody (uw_now w) "Ready" ConditionTrue reason message (Some roles) hash) w).2). intros u.
  unfold userStatusBody. destruct (SetReadyCondition _ _ _ _ _ _) as [cs changed] eqn:Es. intros [= <-]. unfold syncedRecord. cbn. split_and!; [done|..].
  - destruct (String.eqb_spec hash EmptyString); [by left|right]. cbn. by destruct (String.eqb_spec (ut_PasswordSecretHash (nu_Status (uw_stored w))) hash).
  - assert (Hcs : cs = (SetNamedCondition (uw_now w) (ut_Conditions (nu_Status (uw_stored w))) ConditionTypeReady (nu_Generation (uw_stored w)) ConditionTrue reason message).1)
      by (change cs with (cs, changed).1; by rewrite <- Es).
    rewrite Hcs, find_SetNamedCondition, String.eqb_refl. eexists. split; [done|]. unfold conditionAfter. done.
Qed.

Lemma shown_normal username roles : shownRoles (S := S) username roles -> normaliseRoles roles = roles.
Proof. intros [|n info H]; [done|apply normalise_idem]. Qed.

Lemma listRoles_shown username (w : UserWorld S) : match (ListUserRoles username w).1 with inl roles => shownRoles (S := S) username (normaliseRoles roles) | inr _ => True end.
Proof.
  unfold ListUserRoles. rewrite bindU_eq, ask_answer. cbn [mret UW_ret fst].
  destruct (ShowUser username (uw_neo4j w)).1 as [[info|]|e] eqn:E; [by apply (ShownRoles _ (uw_neo4j w))|apply ShownNone|done].
Qed.

Lemma report_ready username hash desired current missing requeue (w : UserWorld S) : shownRoles (S := S) username current ->
  let w' := (reportUser username hash desired current missing requeue w).2 in
  ~ readyU w -> readyU w' -> syncedRecord desired hash (uw_stored w') /\ shownRoles (S := S) username desired.
Proof.
  intros Hcur. cbv zeta. intros Hw Hr. unfold reportUser in *. rewrite bindU_eq in *. cbn [getsU fst snd] in *.
  pose proof (listRoles_shown username w) as Hl. destruct (ready_after _ _ _ (tame_listRoles username) Hw Hr) as (w1 & E1 & Hc1 & Hw1 & Hr1). rewrite bindU_eq, <- E1. clear Hr.
  set (final := normaliseRoles (match (ListUserRoles username w).1 with inl roles => roles | inr _ => current end)) in *.
  assert (Hf : shownRoles (S := S) username final) by (subst final; destruct (ListUserRoles username w).1; [done|by rewrite (shown_normal username)]).
  cbv zeta in *.
  apply ready_after in Hr1 as (w2 & E2 & Hc2 & Hw2 & Hr2); [|framed|done]. rewrite bindU_eq, <- E2.
  apply ready_after in Hr2 as (w3 & E3 & Hc3 & Hw3 & Hr3); [|framed|done]. rewrite bindU_eq, <- E3.
  apply ready_after in Hr3 as (w4 & E4 & Hc4 & Hw4 & Hr4); [|framed|done]. rewrite bindU_eq, <- E4.
  case_bool_decide as Heq; cbn [andb] in *; [|exfalso; revert Hr4; apply never_ready; [framed|done]].
  rewrite Heq. destruct missing; [|exfalso; revert Hr4; apply never_ready; [framed|done]].
  rewrite !bindU_eq in *. cbn [mret UW_ret snd fst] in *. destruct ((writeUserStatus _ _ _ _ _ _ w4).1.2 : bool); (split; [|done]); apply (write_ready _ _ _ _ w4); done.
Qed.

Lemma sync_ready input username hash info requeue (w : UserWorld S) : (exists n, (ShowUser username n).1 = inl (Some info)) ->
  let desired := desiredRolesOf (uin_roles input) (nu_Spec (uw_copy w)) in
  let w' := (syncRoles input username hash info requeue w).2 in
  ~ readyU w -> readyU w' -> syncedRecord desired hash (uw_stored w') /\ shownRoles (S := S) username desired.
Proof.
  intros Hi. cbv zeta. intros Hw Hr. unfold syncRoles in *. rewrite bindU_eq in *. cbn [getsU fst snd] in *. cbv zeta in *.
  apply ready_after in Hr as (w1 & E1 & Hc1 & Hw1 & Hr1); [|framed|done]. rewrite bindU_eq, <- E1.
  apply ready_after in Hr1 as (w2 & E2 & Hc2 & Hw2 & Hr2); [|framed|done]. rewrite bindU_eq, <- E2.
  pose proof (readRoles_shown username info w1 Hi) as Hcur. rewrite bindU_eq.
  apply ready_after in Hr2 as (w3 & E3 & Hc3 & Hw3 & Hr3); [|framed|done]. rewrite <- E3.
  destruct (changeRoles _ _ _ _ _ _).1 as [missing|r]; [|done]. by apply report_ready.
Qed.

Lemma serve_ready input username pw hash requeue (w : UserWorld S) :
  let desired := desiredRolesOf (uin_roles input) (nu_Spec (uw_copy w)) in
  let w' := (serveUser keysOf input username pw hash requeue w).2 in
  ~ readyU w -> readyU w' -> syncedRecord desired hash (uw_stored w') /\ shownRoles (S := S) username desired.
Proof.
  cbv zeta. intros Hw Hr. unfold serveUser in *. rewrite bindU_eq.
  apply ready_after in Hr as (w1 & E1 & Hc1 & Hw1 & Hr1); [|framed|done]. rewrite bindU_eq, <- E1, <- Hc1.
  apply ready_after in Hr1 as (w2 & E2 & Hc2 & Hw2 & Hr2); [|framed|done]. rewrite <- E2, <- Hc2.
  destruct (ensureUser keysOf username pw hash requeue w1).1 as [info|r] eqn:Ei; [|done]. apply sync_ready; [by eapply ensure_shown|done|done].
Qed.

Lemma target_ready input requeue (w : UserWorld S) : let user := uw_copy w in
  let desired := desiredRolesOf (uin_roles input) (nu_Spec user) in let username := effectiveUsername user in
  let w' := (userOnTarget keysOf sha256Hex input username requeue w).2 in
  ~ readyU w -> readyU w' ->
  exists pw hash, ((exists t, uin_target input = inl t /\ targetFound t = true /\ IsReady t = true) /\ strings.Join (uin_pending input) "; " = EmptyString
    /\ passwordOf sha256Hex user (uin_secret input) = inl (pw, hash) /\ uin_connect input = None)
    /\ syncedRecord desired hash (uw_stored w') /\ shownRoles (S := S) username desired.
Proof.
  cbv zeta. intros Hw Hr. unfold userOnTarget in *. rewrite bindU_eq in *. cbn [getsU fst snd] in *.
  destruct (uin_target input) as [t|e]; [|done].
  destruct (targetFound t) eqn:Ef; cbn [negb] in *; [|exfalso; revert Hr; apply never_ready; [framed|done]].
  destruct (String.eqb_spec (strings.Join (uin_pending input) "; ") EmptyString) as [Ep|Ep]; cbn [negb] in *; [|exfalso; revert Hr; apply never_ready; [framed|done]].
  destruct (IsReady t) eqn:Er; cbn [negb] in *; [|exfalso; revert Hr; apply never_ready; [framed|done]].
  destruct (passwordOf sha256Hex (uw_copy w) (uin_secret input)) as [[pw hash]|e]; [|exfalso; revert Hr; apply never_ready; [framed|done]].
  destruct (uin_connect input) as [e|]; [exfalso; revert Hr; apply never_ready; [framed|done]|].
  exists pw, hash. split; [split_and!; by eauto|]. by apply serve_ready.
Qed.

Lemma tame_deletion input username requeue : framesU (S := S) tame (handleUserDeletion input username requeue).
Proof.
  unfold handleUserDeletion, settleByTarget, failedCleanup, blocked, userCleanup, releaseU, DropUserIfExists.
  cbn [dc_release dc_record dc_deletionTimestamp dc_reason dc_requeue passNow passEvent passAgain passErrored userCleanupPass]. framed.
Qed.

(** C35: A pass that turns a user on record to Ready has seen its roles to be the ones asked for: it was no deletion, the target accepted work, nothing was refused or waited for, and the roles it records are those spec.roles means, which Neo4j showed the user to have (no roles at all may also stand for an answer that did not come). The Ready condition is True and the token of the Secret that was read is the recorded one. *)
Theorem user_ready_synced (input : UserInput) (requeue : Z) (w : UserWorld S) :
  let w' := (ReconcileUser keysOf sha256Hex input requeue w).2 in
  let desired := desiredRolesOf (uin_roles input) (nu_Spec (uw_copy w)) in
  ~ readyU w -> readyU w' ->
  exists pw hash, admittedUser sha256Hex input w pw hash /\ syncedRecord desired hash (uw_stored w') /\ shownRoles (S := S) (effectiveUsername (uw_copy w)) desired.
Proof.
  cbv zeta. intros Hw Hr. unfold ReconcileUser in *. rewrite bindU_eq in *. cbn [liftOU getCopy fst snd] in *. replace (set_uw_obj (uw_obj w) w) with w in * by (by destruct w).
  rewrite bindU_eq in *. cbn [getsU fst snd] in *. cbv zeta in *.
  case_bool_decide as Hd; [exfalso; revert Hr; apply never_ready; [apply tame_deletion|done]|].
  case_bool_decide as Hf; cbn [negb] in *; [|exfalso; revert Hr; apply never_ready; [framed|done]].
  apply ready_after in Hr as (w1 & E1 & Hc1 & Hw1 & Hr1); [|framed|done]. rewrite bindU_eq, <- E1, <- Hc1 in *.
  destruct (uin_errors input) as [text|] eqn:Ee; [exfalso; revert Hr1; apply never_ready; [framed|done]|].
  destruct (target_ready input requeue w1 Hw1 Hr1) as (pw & hash & (Ht & Hp & Hpw & Hcn) & Hs). exists pw, hash. split; [|done].
  unfold admittedUser. rewrite <- Hc1. by split_and!.
Qed.
End Ready.

(** * Passes *)

Module UserSample.

(** A server with one user: its roles, its status, and whether an ALTER USER finds
    the password unchanged. *)
Definition Account : Type := list string * bool * bool.

#[global] Instance sampleUsers : UserClient Account := {
  ShowUser _ n := (inl (Some (mkUserInfo n.1.1 n.1.2 false EmptyString [])), n);
  runUser query _ n :=
    if strings.HasPrefix query "ALTER" then
      (if n.2 then (Some (plainError "Neo.ClientError.Statement.ArgumentError: Failed to alter the specified user 'ann': Old password and new password cannot be the same."), n)
       else (None, (n.1.1, strings.Contains query "SUSPENDED", n.2)))
    else if strings.HasPrefix query "GRANT" then (None, ("reader" :: n.1.1, n.1.2, n.2)) else (None, n);
  ListRoles n := (inl ["reader"], n)
}.

Definition annSuspended : Neo4jUser :=
  mkNeo4jUser "ann" "n" 1 (mkUserSpec "c" EmptyString (Some (mkSecretKeyRef "s" EmptyString)) false "suspended" EmptyString ["reader"] [] "Delete")
    (mkUserStatus [] EmptyString EmptyString 0 [] "old" None).
Definition userInput : UserInput :=
  mkUserInput None [] None [] (inl (TargetStandalone true (mkDeployment "u" "neo4j" "5.26.0-enterprise" false "Delete"))) (inl []) None
    (inl ({["password" := "secret"]}, "7")) (Some []).
Definition userWorld (n : Account) : UserWorld Account :=
  mkUserWorld 0 annSuspended annSuspended [] (mkObjWorld (Some [Neo4jUserFinalizer]) [Neo4jUserFinalizer] [] []) [] ∅ None None n [].
Definition digest (s : string) : string := "digest".
Definition userPass (n : Account) : userResult * UserWorld Account := ReconcileUser AccountSample.sortedOf digest userInput 30 (userWorld n).

Lemma user_ready_synced_witness : syncedRecord ["reader"] "digest" (uw_stored (userPass ([], false, false)).2).
Proof.
  destruct (user_ready_synced AccountSample.sortedOf digest userInput 30 (userWorld ([], false, false))) as (pw & hash & (_ & _ & _ & _ & _ & Hp & _) & H & _).
  - vm_compute. discriminate.
  - vm_compute. reflexivity.
  - vm_compute in Hp. injection Hp as <- <-. exact H.
Defined.

(** An ALTER USER that Neo4j refuses because the password is the same counts as
    done, with all its clauses: the pass reports a user as Ready whose suspension,
    in that statement, did not happen. *)
Theorem refused_alter_ready :
  let w := (userPass (["reader"], false, true)).2 in
  (exists params, uw_log w = [SentAlterUser "ALTER USER `ann` SET PASSWORD $password SET STATUS SUSPENDED" params])
  /\ ut_Phase (nu_Status (uw_stored w)) = "Ready" /\ desiredSuspended (nu_Spec (uw_copy w)) = true /\ uw_neo4j w = (["reader"], false, true).
Proof. vm_compute. split; [by eexists|]. split_and!; reflexivity. Qed.
End UserSample.
